(* ===== verification/_CoqProject ===== *)
-Q . S2P
Prelude.v
Ordering.v
Identity.v
RustStr.v
Contracts.v
CatalogData.v
CatalogSamples.v
Match.v
Filters.v
FilterFacts.v
Predicates.v
PredicateFacts.v
Corpus.v
CorpusFacts.v
PreparedFacts.v
QueryEngine.v
QueryFacts.v
CourseFacts.v
OverlayFacts.v
PreparedEngine.v
DomainCourse.v
TermWindow.v
TermWindowFacts.v
Freshness.v
Policy.v
Reconcile.v
OpenClient.v
OpenClientFacts.v
Gate.v
GateFacts.v
Scheduler.v
SchedulerFacts.v
OpenStore.v
OpenService.v
OpenServiceFacts.v
OpenPullFacts.v
OpenTables.v
OpenCommands.v
OpenTransactions.v
OpenTxFacts.v
OpenStoreFacts.v
OpenStoreSpec.v
OpenStoreAgree.v
WatchState.v
WatchManager.v
WatchSessionFacts.v
WatchFacts.v
RateLimit.v
RefreshDemand.v
Presence.v
PresenceFacts.v
Capacity.v
Session.v
Json.v
RawCatalog.v
CatalogModel.v
CatalogExample.v
RawCatalogFacts.v
Canonical.v
CanonicalFacts.v
Delivery.v
DeliveryFacts.v
Normalize.v
NormalizeFacts.v
NormalizeSpec.v
CatalogSnapshot.v
Decimal.v
SnapshotMapping.v
SnapshotMappingFacts.v
Publication.v
