(* ===== verification/Prelude.v ===== *)
(** * Rutgers Better Course Schedule Planner: verification library

    The planner is one Rust workspace (crates/ and apps/ of the repository) with
    two products, a Windows application and a Linux service, and a React
    frontend. This library models the part of the workspace that decides what
    users are told about seat availability, and proves it correct.

    ** How the program works

    A catalog of sections is loaded per target (a term and a campus): the
    payload of the upstream service is decoded with every malformed field kept
    as such, brought into a canonical form whose hashes see content and not
    presentation, normalized into groups, variants and sections with duplicates
    audited, mapped to rows, and checked once more by the storage, which
    recomputes the hash of the content. The
    origin scheduler repeatedly dispatches one workflow at a time against the
    Rutgers servers: a catalog refresh, or an Open pull, which downloads the
    set of open section indexes of a target. The snapshot integrity gate
    decides whether a snapshot is believable; reconciliation turns it into one
    OPEN or CLOSED update per catalog section; the retry policy turns failures
    into the next due time; freshness says how long the last good snapshot may
    be served. Each resulting observation is published to the watch manager,
    which keeps, for every connected page, the sections it watches, and opens,
    updates, times out and closes the alert episodes and sound cues of each.
    Searches run over a corpus of validated catalogs of one term, joined with
    the Open evidence of their sections: every filter answers MATCH, NO MATCH or
    UNCERTAIN with reasons, the admitted items are sorted by a total order, cut
    into pages and shown with their explanations. A long-lived process prepares
    the corpus once, with hash indexes, and binds each request to it. The term
    window, computed from a table of published dates, says which terms a product
    shows; the demand for refreshes records which targets its routes use. The
    local program follows the pages that are open and exits when, for a minute,
    there was none. On
    the public service three gates stand in front of this: the issuance of
    anonymous document sessions is rate limited, the registry of sessions is
    bounded, and so is the number of live WebSocket connections, each of which
    pins its session.

    ** Files

    - [Prelude] (this file): results and panics, machine integers with their
      saturation and wrap-around, Rust's [Ord] as a class ([ROrd]) with its
      laws, ordered iteration of maps and sets ([BTreeMap], [BTreeSet]) over
      stdpp's [gmap] and [gset], and the lemmas the other files share.
    - [Identity]: crates/bcsp-contracts/src/identity.rs, the validated strings,
      the composite keys with their parser, printer and order.
    - [Contracts]: the data of crates/bcsp-contracts/src/open.rs and catalog.rs
      and the digest of crates/bcsp-rutgers-client/src/hashing.rs; the classes
      that stand for the [time] and [sha2] crates and for a source of trace
      identifiers.
    - [Ordering]: comparators, their composition ([then_with]) and stable
      sorting; [RustStr]: the string functions the filters use.
    - [CatalogData]: the normalized catalog of crates/bcsp-contracts/src/catalog.rs;
      [CatalogSamples]: a small catalog the examples use.
    - [Match]: match_contract.rs of bcsp-contracts, match_result.rs of
      bcsp-domain, evaluation.rs and knowledge.rs of bcsp-query. [Filters] and
      [FilterFacts]: query.rs of bcsp-contracts. [Predicates] and
      [PredicateFacts]: text.rs, credits.rs, availability.rs and predicates.rs of
      crates/bcsp-query/src.
    - [Corpus]: corpus.rs, with the theorems on validation in [CorpusFacts] and on
      the prepared indexes in [PreparedFacts]. [QueryEngine]: engine.rs, with the
      theorems on pages, order and section search in [QueryFacts], on course
      search in [CourseFacts], on Open overlays and the binding of requests in
      [OverlayFacts], and the refinement of the engine by the prepared one in
      [PreparedEngine].
    - [DomainCourse] and [TermWindow]: course.rs and term_window.rs of
      crates/bcsp-domain/src; [TermWindowFacts] holds the theorems of the latter.
    - [Freshness], [Policy], [Reconcile], [Gate] and [Scheduler]: the files
      freshness.rs, policy.rs, reconcile.rs, gate.rs and scheduler.rs of
      crates/bcsp-open/src, one definition per function or method, with the
      records and enumerations of the source. [GateFacts] and [SchedulerFacts]
      hold the theorems of the two state machines.
    - [OpenClient]: crates/bcsp-rutgers-client/src/open_sections.rs, the client of
      the Open endpoint, with its theorems in [OpenClientFacts].
    - [OpenStore]: the data the storage exchanges with the service.
      [OpenService]: crates/bcsp-open/src/service.rs, a whole Open pull.
      [OpenServiceFacts] holds a weakest-precondition calculus for its monad and
      the effect of each of its steps, [OpenPullFacts] the theorems on pulls.
    - crates/bcsp-operational-storage/src/open.rs: [OpenTables], the rows of its
      tables with the keys and cascades of migrations/, and the monad of
      transactions; [OpenCommands], the validation of commands, the digests and
      the classification of a response; [OpenTransactions], one definition per
      operation. [OpenTxFacts] holds a calculus of postconditions and the effect
      of each transaction, [OpenStoreFacts] the invariant [tables_wf] and what
      keeps it, [OpenStoreSpec] the theorems, and [OpenStoreAgree] the
      composition with the service.
    - [WatchState] and [WatchManager]: clock.rs, selection.rs, state.rs,
      effect.rs and manager.rs of crates/bcsp-watch/src. [WatchSessionFacts] and
      [WatchFacts] hold the theorems on one session and on the manager.
    - [RateLimit], [Capacity] and [Session]: the files rate_limit.rs, capacity.rs
      and session.rs of crates/bcsp-public-runtime/src, each with its theorems.
    - The catalog pipeline. [Json]: the values of serde_json. [RawCatalog] and
      [RawCatalogFacts]: raw_catalog.rs of crates/bcsp-rutgers-client/src.
      [CatalogModel]: model.rs and empty.rs of crates/bcsp-catalog/src;
      [Canonical] with [CanonicalFacts], [Delivery] with [DeliveryFacts] and
      [Normalize] with [NormalizeFacts] and [NormalizeSpec]: canonical.rs,
      delivery.rs and normalize.rs there. [CatalogSnapshot]: the rows and the
      command of model.rs of crates/bcsp-operational-storage/src, their
      validation and the content hash of storage.rs. [SnapshotMapping] with
      [SnapshotMappingFacts]: mapping.rs of crates/bcsp-catalog/src, without the
      mapping of discovery; [Decimal]: decimal texts. [Publication] composes
      the pipeline; [CatalogExample] is the payload its examples use.
    - [RefreshDemand]: target_refresh_demand.rs of crates/bcsp-application/src,
      with its theorems. [Presence] and [PresenceFacts]: presence.rs of
      crates/bcsp-local-runtime/src.

    ** Conventions

    A name of the source is kept; a method takes its receiver as an argument
    and returns it when it changes it. [result E A] is [Result<A, E>]. A body
    that can panic ([expect] or an assertion) returns an
    [option] whose [None] is the panic, and the theorems prove that it is not
    reached, or when. Integers are [Z]; every operation that saturates, wraps or is
    checked says so. A [Duration] is its number of nanoseconds, an
    [OffsetDateTime] the nanoseconds since the epoch, a [TraceId] the 128-bit
    number of its UUID. Strings are byte strings. The operations of a watch
    session draw identifiers and push events, and are written in the monad
    [Emit] of [WatchManager]. The Open service is written in the monad
    [Service] of [OpenService], whose state is the storage, the mutex of the
    gate and the rest of the world, and whose outcomes are an answer, an error
    or a panic; the storage is the class [OpenPullPersistence], as it is a trait
    in the source, and a fetch may change storage and world arbitrarily. Its
    instance [operational_storage] runs transactions of the monad [Tx] over
    [OpenTables]: an error rolls back, a row holds the decoded values of its
    columns, and an INSERT or an addition fails as the keys, the foreign keys and
    the 64 bits of an INTEGER make it fail. A connection that the code takes out
    of the table and puts back is read and replaced. Loops over collections are structural
    recursions over the list the code iterates, so no fuel is used anywhere.
    Third-party code is a class argument: [TimeApi] (checked addition and whole
    seconds of the [time] crate) and [Sha256Api] (the digest of [sha2]) with
    their documented laws in [TimeApiLaws] and [Sha256ApiLaws];
    [concrete_time_api] and [concrete_sha256_api] instantiate them; the dates,
    instants and time zones of the [jiff] crate are [JiffApi] with [JiffLaws];
    the client of the Open endpoint uses the classes [UrlApi], [HttpApi],
    [JsonApi] and [Rfc3339Api], with the laws a theorem needs; whether a day of
    the calendar exists is [TimeDateApi]. In the catalog pipeline a value of
    serde_json is the inductive type [Value], whose objects are sorted lists of
    members; its numbers are [NumberApi], its compact text [JsonText], and what
    the parser hands to a visitor is a tree [Parsed] that [JsonSlice] reads from
    a body. The derived codecs of a record are written out once for the record
    ([record_to_value], [take]), and the loops of the normalizer, which stop at
    the first error, are [try_fold]s over an explicit state.
    An [Instant] has no bound. The source of
    session nonces is the class [NonceSource] of [Session], whose contract
    [NonceSourceFresh] says that no nonce is generated twice. A [Mutex] is its
    content, with a value for the poisoned state; an operation runs under its
    lock, so an interleaving is a list of operations, each with the instant its
    caller sampled. Permits and leases, which act when they are dropped, are a
    multiset kept beside the state they act on. The validation of a corpus
    polls a cancellation callback, an arbitrary state machine of the monad
    [cancelable]; the default hasher of the indexes is the class [KeyHash],
    about which nothing is assumed; a visitor closure is the list of its calls.
    The calls of [stable_reason] assert the contract of reason fields, which is
    decided where the constants are defined. Where a sum could overflow, the
    wrap-around of a release build is written out and proved not to happen;
    the one sum that does overflow, of [first_future_due] in [Scheduler], is
    [u64_add], whose [None] is the panic of a checked build, and
    [scheduler_reachable_wf] says exactly when it is reached.

    ** What the theorems show

    - Identity and contracts: the key codec accepts exactly the printed
      well-formed keys; versioned digests are valid fingerprints.
    - Freshness and policy: the deadline and the reason reported, on every
      branch; the bounds of every constructible cadence; the backoff ladder and
      the bounds of every retry directive.
    - Reconciliation: a valid plan updates each section of the catalog it was
      captured for exactly once; the hold flag only withholds; evidence does
      not depend on order or repetition.
    - The gate: a shrunken set is believed only on sustained evidence; what an
      applied or withheld decision implies; the sliding baseline and its median;
      hysteresis; the rebuild after a restart; no assertion fires under the
      documented discipline; targets with a candidate catalog stay isolated.
    - The client of the Open endpoint: dates in headers round-trip for every
      instant they can express; exactly which answers become a set of indexes;
      persisted requests are read back.
    - The catalog pipeline: exactly which payloads are decoded, and that
      nothing is lost; canonical values are a fixed point, and the semantic
      hashes of two sections are equal exactly when their contents are, order,
      blanks and derived text aside; meeting times are exact and
      in range and the delivery facts of a meeting agree; a normalized target is
      well formed, its sections are exactly the classes of the raw sections
      with exact audits, and normalizing fails only for a stated reason; the
      storage recomputes the content hash of the normalizer and refuses a
      command of the pipeline only for its times, its size or an over-long text.
    - Open pulls, for every storage and fetch: no pull panics; the gate advances
      by exactly one committed decision, or not at all; the observations are the
      watches sampled; the three classifications of a failure agree; the steps
      reach the storage in a durable order.
    - The storage of pulls, over any sequence of operations, restarts and
      publications of catalogs: attempts are numbered and at most the last of a
      target runs; the counters account for every attempt; what is served is
      exactly the last observation; withheld responses and failures change
      nothing that is served and lose only the events of expired attempts;
      beginning is idempotent; the recovery completes;
      pruning is bounded and keeps what is served; and a pull of the service over
      this storage never finds that the two disagree.
    - Filters: the normal form of filter values; the three-valued aggregates and
      their reasons; every evaluation is total and respects the match contract;
      what availability decides, on every branch and with which reasons, and what
      synchronicity decides; an answer that is not
      UNCERTAIN does not depend on what is unknown.
    - Searching: validation of a corpus, cancelled at any poll; the prepared
      corpus and the reference corpus agree whatever the hashes; pages partition
      the results; a search never panics and returns exactly the items the
      filters admit, strictly sorted, and shows what it counted; a request bound
      to a prepared corpus is answered like the same request on its catalogs.
    - Terms: which term is current, and that it never moves back; the days on
      which a window is available, and what it shows. Course groups: each error
      exactly for its reason, in any order of the input.
    - Demand: leases answer like the history of requests; an explicit retry is
      acknowledged at most once and never confused with another.
    - Presence: over any interleaving of critical sections the exit is requested
      at most once, after a whole countdown without pages, and it is requested.
    - The scheduler: total, exclusive dispatch in an order written out apart
      from the code, and its hint; completions on every branch and the drift-free cadence; an inductive
      invariant over all sequences of calls, and the one call that panics; serial dispatch with increasing
      tokens; what the circuits block and release; demand never postpones.
    - Watches: a bounded selection; one alert episode per reliable edge; the cap
      on sounds; an inductive invariant of the manager under every operation,
      with the absence of panics; atomic, exactly-once publication; idempotent
      starts; the contract of a tick, of acknowledging and of cleaning up.
    - Public admission: bounds on the sessions issued in total and to one client
      over any requests; a denied client that waits as told is admitted; the
      connection gate counts exactly the live permits; leased sessions survive
      any interleaving; issuance refines an admission specification.

    ** Not modelled

    The projection of stored rows (projection.rs of crates/bcsp-open); the facade
    of crates/bcsp-watch, which converts to the wire contract; the application's
    refresh coordinator and sockets, and locale negotiation, which are next in
    the plan; the Unicode normalization of search keywords, which needs the
    tables of a crate, the filter schema and the wire encodings of requests; the
    memory estimates of the indexes, which only feed metrics; the byte budgets
    of outbound sockets; of bcsp-catalog the projection of stored rows to the contract
    (projection.rs), the re-derivation at startup (rederive.rs) and the mapping
    of discovery; of the storage the writes to the catalog tables (storage.rs),
    and with them the commit of a candidate pull, the rows of the origin and the
    schedule, the CHECK clauses of columns, which the validation of commands
    implies, and SQLite itself; building and sending HTTP requests (the client of the
    catalog and of discovery is mostly that), servers, JSON
    schemas, process lifecycle, the frontend, packaging and deployment, which are
    input and output. Debug-only assertions, derived traits other than equality
    and order, and serialization of the contract types are left out of the
    modelled files. *)

From Stdlib Require Export ZArith Lia.
From stdpp Require Export sorting numbers.
From stdpp Require Export base tactics option list list_relations gmap sets strings fin_maps.

#[export] Set Warnings "-clear-no-such-hyp".
#[global] Open Scope Z_scope.

(** ** Results and panics

    [result E A] is Rust's [Result<A, E>]; an operation that may panic returns
    an [option], whose [None] is the panic. *)

Inductive result (E A : Type) : Type :=
| Ok (a : A)
| Err (e : E).
Arguments Ok {E A} a.
Arguments Err {E A} e.

#[export] Instance result_ret {E} : MRet (result E) := λ A a, Ok a.
#[export] Instance result_bind {E} : MBind (result E) := λ A B f r,
  match r with Ok a => f a | Err e => Err e end.

(** [Option::ok_or]. *)
Definition ok_or {E A} (e : E) (o : option A) : result E A :=
  match o with Some a => Ok a | None => Err e end.

(** ** Machine integers *)

Definition u8_max : Z := 255.
Definition u32_max : Z := 2 ^ 32 - 1.
Definition u64_max : Z := 2 ^ 64 - 1.

Definition u32_saturating_add (a b : Z) : Z := Z.min (a + b) u32_max.
Definition u64_saturating_add (a b : Z) : Z := Z.min (a + b) u64_max.
Definition u64_saturating_mul (a b : Z) : Z := Z.min (a * b) u64_max.
Definition u64_wrapping_mul (a b : Z) : Z := (a * b) mod 2 ^ 64.
(** [a + b] of two [u64]: [None] is the overflow, at which a checked build
    panics and a release build wraps around. *)
Definition u64_add (a b : Z) : option Z :=
  if bool_decide (a + b ≤ u64_max) then Some (a + b) else None.
(** [i64::checked_add] and [i64::checked_mul]. *)
Definition i64_max : Z := 2 ^ 63 - 1.
Definition i64_min : Z := - 2 ^ 63.
Definition i64_checked (n : Z) : option Z :=
  if bool_decide (i64_min ≤ n ≤ i64_max) then Some n else None.
(** [u64::checked_sub]. *)
Definition u64_checked_sub (a b : Z) : option Z :=
  if bool_decide (b ≤ a) then Some (a - b) else None.
(** Saturating subtraction of unsigned integers of any width. *)
Definition saturating_sub (a b : Z) : Z := Z.max (a - b) 0.
(** [u64::try_from(n).unwrap_or(u64::MAX)] for a nonnegative [n]. *)
Definition u64_try_from_or_max (n : Z) : Z := Z.min n u64_max.
(** [u64::div_ceil], the same for [usize]. *)
Definition div_ceil (a b : Z) : Z :=
  if bool_decide (0 < a mod b) then a / b + 1 else a / b.

(** [std::time::Duration] is its number of nanoseconds. *)
Definition NANOS_PER_SEC : Z := 1000000000.
Definition NANOS_PER_MILLI : Z := 1000000.
Definition duration_from_secs (s : Z) : Z := s * NANOS_PER_SEC.
Definition duration_from_millis (ms : Z) : Z := ms * NANOS_PER_MILLI.
Definition duration_as_millis (d : Z) : Z := d / NANOS_PER_MILLI.

(** ** Total orders: Rust's [Ord] *)

Class ROrd (A : Type) := rcmp : A → A → comparison.

Class ROrdLaws (A : Type) `{ROrd A} : Prop := {
  rcmp_eq x y : rcmp x y = Eq ↔ x = y;
  rcmp_opp x y : rcmp y x = CompOpp (rcmp x y);
  rcmp_trans x y z : rcmp x y = Lt → rcmp y z = Lt → rcmp x z = Lt
}.

(** [Ordering::then]. *)
Definition cmp_then (c d : comparison) : comparison :=
  match c with Eq => d | _ => c end.

Definition rle {A} `{ROrd A} (x y : A) : Prop := rcmp x y ≠ Gt.

#[export] Instance rle_dec {A} `{ROrd A} : RelDecision (@rle A _).
Proof. intros x y. unfold rle. apply _. Defined.

(** ** Ordered maps and sets: Rust's [BTreeMap] and [BTreeSet]

    The contents are stdpp's [gmap] and [gset]; the functions below give the
    iteration order of the keys. *)

Definition btm_keys {K V} `{Countable K, !ROrd K} (m : gmap K V) : list K :=
  merge_sort rle (map_to_list m).*1.

Definition btm_iter {K V} `{Countable K, !ROrd K} (m : gmap K V) : list (K * V) :=
  omap (λ k, pair k <$> m !! k) (btm_keys m).

Definition btm_values {K V} `{Countable K, !ROrd K} (m : gmap K V) : list V :=
  (btm_iter m).*2.

Definition bts_iter {K} `{Countable K, !ROrd K} (s : gset K) : list K :=
  merge_sort rle (elements s).

(** A loop over [values_mut]: every value is replaced in key order while a
    state is threaded through. *)
Definition btm_accum {K V S} `{Countable K, !ROrd K}
    (f : S → K → V → S * V) (s : S) (m : gmap K V) : S * gmap K V :=
  foldl (λ acc k,
    match m !! k with
    | None => acc
    | Some v => let r := f acc.1 k v in (r.1, <[k := r.2]> acc.2)
    end) (s, m) (btm_keys m).

(** [Iterator::min_by]: the first minimum of a list under a comparison. *)
Definition min_by {A} (cmp : A → A → comparison) (l : list A) : option A :=
  match l with
  | [] => None
  | x :: l => Some (foldl (λ a b, match cmp a b with Gt => b | _ => a end) x l)
  end.

(** ** Instances of [ROrd] *)

#[export] Instance N_rord : ROrd N := N.compare.
#[export] Instance Z_rord : ROrd Z := Z.compare.
#[export] Instance nat_rord : ROrd nat := Nat.compare.
#[export] Instance string_rord : ROrd string := String.compare.

(** The derived order of a two-field struct: lexicographic. *)
#[export] Instance prod_rord {A B} `{ROrd A, ROrd B} : ROrd (A * B) :=
  λ x y, cmp_then (rcmp x.1 y.1) (rcmp x.2 y.2).

(** The order a type takes from an injective view of it. *)
Definition rord_via {A B} `{ROrd B} (f : A → B) : ROrd A := λ x y, rcmp (f x) (f y).

(** * Lemmas *)

(** ** Options, lists and results *)

Lemma ok_or_Ok {E A} (e : E) (o : option A) (a : A) : ok_or e o = Ok a ↔ o = Some a.
Proof. destruct o; simpl; split; congruence. Qed.

Lemma ok_or_Err {E A} (e e' : E) (o : option A) : ok_or e o = Err e' ↔ o = None ∧ e = e'.
Proof. destruct o; simpl; split; intros; destruct_and?; simplify_eq; done. Qed.

Lemma result_bind_Ok {E A B} (f : A → result E B) (r : result E A) (b : B) :
  r ≫= f = Ok b ↔ ∃ a, r = Ok a ∧ f a = Ok b.
Proof. destruct r as [a|e]; simpl; split; [eauto| |done|]; intros (?&?&?); simplify_eq; done. Qed.

Lemma mapM_result_Ok {E A B} (f : A → result E B) (l : list A) (k : list B) :
  mapM f l = Ok k → Forall2 (λ x y, f x = Ok y) l k.
Proof.
  revert k. induction l as [|x l IH]; intros k; cbn; [by intros [= <-]|].
  destruct (f x) as [y|] eqn:Hx; [|done]. cbn. destruct (mapM f l) as [k'|]; [|done]. cbn.
  intros [= <-]. constructor; auto.
Qed.

Lemma list_find_pred_Some {A} (P : A → Prop) `{∀ x, Decision (P x)} (l : list A) (x : A) :
  x ∈ l → P x → ∃ i y, list_find P l = Some (i, y).
Proof.
  intros Hx HP. destruct (list_find_elem_of P l x Hx HP) as [[i y] ?]. eauto.
Qed.

Lemma NoDup_fmap_filter {A B} (f : A → B) (P : A → Prop) `{∀ x, Decision (P x)} (l : list A) :
  NoDup (f <$> l) → NoDup (f <$> filter P l).
Proof.
  induction l as [|a l IH]; [done|]. rewrite fmap_cons. intros [Ha Hl]%NoDup_cons. rewrite filter_cons.
  case_decide; [|by apply IH]. rewrite fmap_cons. apply NoDup_cons. split; [|by apply IH].
  intros (x & Hx & [_ Hin]%list_elem_of_filter)%list_elem_of_fmap. apply Ha. rewrite Hx. by apply list_elem_of_fmap_2.
Qed.

Lemma filter_none {A} (P : A → Prop) `{∀ x, Decision (P x)} (l : list A) :
  (∀ x, x ∈ l → ¬ P x) → filter P l = [].
Proof.
  intros Hl. destruct (filter P l) as [|x l'] eqn:E; [done|].
  assert (x ∈ filter P l) as [? Hx]%list_elem_of_filter by (rewrite E; set_solver).
  by destruct (Hl x Hx).
Qed.

(** ** Integers *)

Lemma saturating_sub_le a b : a ≤ b → saturating_sub a b = 0.
Proof. unfold saturating_sub. lia. Qed.

Lemma saturating_sub_ge a b : b ≤ a → saturating_sub a b = a - b.
Proof. unfold saturating_sub. lia. Qed.

Lemma saturating_sub_nonneg a b : 0 ≤ saturating_sub a b.
Proof. unfold saturating_sub. lia. Qed.

(** [div_ceil a b] is the least [q] with [a <= q * b]. *)
Lemma div_ceil_le a b q : 0 < b → div_ceil a b ≤ q ↔ a ≤ q * b.
Proof.
  intros Hb. unfold div_ceil.
  pose proof (Z.div_mod a b) as Hdm. pose proof (Z.mod_pos_bound a b Hb) as Hm.
  case_bool_decide; split; intros; nia.
Qed.

Lemma div_ceil_nonneg a b : 0 ≤ a → 0 < b → 0 ≤ div_ceil a b.
Proof.
  intros Ha Hb. unfold div_ceil. pose proof (Z.div_pos a b Ha Hb). case_bool_decide; lia.
Qed.

Lemma u64_saturating_add_le a b : u64_saturating_add a b ≤ u64_max.
Proof. unfold u64_saturating_add. lia. Qed.

Lemma u64_saturating_add_ge a b : a ≤ u64_max → 0 ≤ b → a ≤ u64_saturating_add a b.
Proof. unfold u64_saturating_add. lia. Qed.

Lemma u64_saturating_add_exact a b : a + b ≤ u64_max → u64_saturating_add a b = a + b.
Proof. unfold u64_saturating_add. lia. Qed.

Create HintDb rbcsp discriminated.
#[export] Hint Resolve saturating_sub_nonneg div_ceil_nonneg u64_saturating_add_le : rbcsp.

(** ** Orders *)

Lemma cmp_then_Eq c d : cmp_then c d = Eq ↔ c = Eq ∧ d = Eq.
Proof. destruct c, d; simpl; intuition congruence. Qed.

Lemma cmp_then_Lt c d : cmp_then c d = Lt ↔ c = Lt ∨ (c = Eq ∧ d = Lt).
Proof. destruct c, d; simpl; intuition congruence. Qed.

Lemma cmp_then_opp c d : CompOpp (cmp_then c d) = cmp_then (CompOpp c) (CompOpp d).
Proof. destruct c, d; done. Qed.

Section order_facts.
Context {A : Type} `{ROrdLaws A}.
Implicit Types x y z : A.

Lemma rcmp_refl x : rcmp x x = Eq.
Proof. by apply rcmp_eq. Qed.

Lemma rcmp_gt_lt x y : rcmp x y = Gt ↔ rcmp y x = Lt.
Proof. rewrite (rcmp_opp x y). destruct (rcmp x y); simpl; split; done. Qed.

#[export] Instance rle_po : PartialOrder (@rle A _).
Proof.
  unfold rle. split; [split|].
  - intros x. by rewrite rcmp_refl.
  - intros x y z Hxy Hyz.
    destruct (rcmp x y) eqn:E1; [|clear Hxy|done].
    + by apply rcmp_eq in E1 as ->.
    + destruct (rcmp y z) eqn:E2; [|clear Hyz|done].
      * apply rcmp_eq in E2 as <-. by rewrite E1.
      * by rewrite (rcmp_trans x y z).
  - intros x y Hxy Hyx. apply rcmp_eq.
    destruct (rcmp x y) eqn:E; [done| |done]. by rewrite (rcmp_opp x y), E in Hyx.
Qed.

#[export] Instance rle_total : Total (@rle A _).
Proof.
  intros x y. unfold rle. destruct (rcmp x y) eqn:E; [by left|by left|].
  right. by rewrite (rcmp_opp x y), E.
Qed.

End order_facts.

#[export] Instance N_rord_laws : ROrdLaws N.
Proof.
  split; unfold rcmp, N_rord.
  - apply N.compare_eq_iff.
  - intros. apply N.compare_antisym.
  - intros x y z. rewrite !N.compare_lt_iff. lia.
Qed.

#[export] Instance Z_rord_laws : ROrdLaws Z.
Proof.
  split; unfold rcmp, Z_rord.
  - apply Z.compare_eq_iff.
  - intros. apply Z.compare_antisym.
  - intros x y z. rewrite !Z.compare_lt_iff. lia.
Qed.

#[export] Instance nat_rord_laws : ROrdLaws nat.
Proof.
  split; unfold rcmp, nat_rord.
  - apply Nat.compare_eq_iff.
  - intros. apply Nat.compare_antisym.
  - intros x y z. rewrite !Nat.compare_lt_iff. lia.
Qed.

Lemma string_compare_refl s : String.compare s s = Eq.
Proof.
  induction s as [|a s IH]; simpl; [done|].
  unfold Ascii.compare. by rewrite N.compare_refl.
Qed.

Lemma string_compare_trans s1 s2 s3 :
  String.compare s1 s2 = Lt → String.compare s2 s3 = Lt → String.compare s1 s3 = Lt.
Proof.
  revert s2 s3. induction s1 as [|a s1 IH]; intros [|b s2] [|c s3]; simpl; try done.
  unfold Ascii.compare.
  destruct (N.compare_spec (Ascii.N_of_ascii a) (Ascii.N_of_ascii b)) as [E1|E1|E1]; try done;
  destruct (N.compare_spec (Ascii.N_of_ascii b) (Ascii.N_of_ascii c)) as [E2|E2|E2]; try done.
  - rewrite E1, E2, N.compare_refl. apply IH.
  - intros _ _. rewrite E1. by apply N.compare_lt_iff in E2 as ->.
  - intros _ _. rewrite <-E2. by apply N.compare_lt_iff in E1 as ->.
  - intros _ _. assert (Ascii.N_of_ascii a < Ascii.N_of_ascii c)%N as E3 by lia.
    by apply N.compare_lt_iff in E3 as ->.
Qed.

#[export] Instance string_rord_laws : ROrdLaws string.
Proof.
  split; unfold rcmp, string_rord.
  - intros x y. split; [apply String.compare_eq_iff|]. intros ->. apply string_compare_refl.
  - intros. apply String.compare_antisym.
  - apply string_compare_trans.
Qed.

#[export] Instance prod_rord_laws {A B} `{ROrdLaws A, ROrdLaws B} : ROrdLaws (A * B).
Proof.
  split; unfold rcmp, prod_rord.
  - intros [a b] [a' b']; simpl. rewrite cmp_then_Eq, !rcmp_eq. naive_solver.
  - intros [a b] [a' b']; simpl. by rewrite cmp_then_opp, <-!rcmp_opp.
  - intros [a b] [a' b'] [a'' b'']; simpl. rewrite !cmp_then_Lt, !rcmp_eq.
    intros [?|[-> ?]] [?|[<- ?]]; eauto using rcmp_trans.
Qed.

Lemma rord_via_laws {A B} `{ROrdLaws B} (f : A → B) `{!Inj (=) (=) f} :
  @ROrdLaws A (rord_via f).
Proof.
  split; unfold rcmp, rord_via.
  - intros x y. rewrite rcmp_eq. split; [apply (inj f)|congruence].
  - intros. apply rcmp_opp.
  - intros x y z. apply rcmp_trans.
Qed.

(** ** Ordered maps and sets *)

Section btree_facts.
Context {K : Type} `{Countable K, !ROrd K, !ROrdLaws K}.
Context {V : Type}.
Implicit Types (m : gmap K V) (k : K) (v : V).

Lemma btm_keys_perm m : btm_keys m ≡ₚ (map_to_list m).*1.
Proof. apply merge_sort_Permutation. Qed.

Lemma elem_of_btm_keys m k : k ∈ btm_keys m ↔ is_Some (m !! k).
Proof.
  rewrite btm_keys_perm, list_elem_of_fmap. split.
  - intros ([k' v] & -> & Hin). apply elem_of_map_to_list in Hin. simpl. eauto.
  - intros [v Hv]. exists (k, v). by rewrite elem_of_map_to_list.
Qed.

Lemma NoDup_btm_keys m : NoDup (btm_keys m).
Proof. rewrite btm_keys_perm. apply NoDup_fst_map_to_list. Qed.

Lemma StronglySorted_btm_keys m : StronglySorted rle (btm_keys m).
Proof. apply StronglySorted_merge_sort; apply _. Qed.

(** The iteration order depends on the key set only. *)
Lemma btm_keys_unique {V'} m (m' : gmap K V') :
  (∀ k, is_Some (m !! k) ↔ is_Some (m' !! k)) → btm_keys m = btm_keys m'.
Proof.
  intros Hdom. apply (StronglySorted_unique rle).
  - apply StronglySorted_btm_keys.
  - apply StronglySorted_merge_sort; apply _.
  - apply NoDup_Permutation; [apply NoDup_btm_keys| |].
    + unfold btm_keys. rewrite merge_sort_Permutation. apply NoDup_fst_map_to_list.
    + intros k. rewrite elem_of_btm_keys, Hdom. unfold btm_keys.
      rewrite merge_sort_Permutation, list_elem_of_fmap. split.
      * intros [v Hv]. exists (k, v). by rewrite elem_of_map_to_list.
      * intros ([k' v] & -> & Hin). apply elem_of_map_to_list in Hin. simpl. eauto.
Qed.

Lemma elem_of_btm_iter m k v : (k, v) ∈ btm_iter m ↔ m !! k = Some v.
Proof.
  unfold btm_iter. rewrite list_elem_of_omap. split.
  - intros (k' & _ & Hk'). destruct (m !! k') eqn:E; simpl in *; simplify_eq; done.
  - intros Hk. exists k. rewrite elem_of_btm_keys, Hk. simpl. eauto.
Qed.

Lemma elem_of_btm_values m v : v ∈ btm_values m ↔ ∃ k, m !! k = Some v.
Proof.
  unfold btm_values. rewrite list_elem_of_fmap. split.
  - intros ([k v'] & -> & Hin). apply elem_of_btm_iter in Hin. eauto.
  - intros [k Hk]. exists (k, v). by rewrite elem_of_btm_iter.
Qed.

Lemma btm_iter_keys m : (btm_iter m).*1 = btm_keys m.
Proof.
  unfold btm_iter. assert (∀ k, k ∈ btm_keys m → is_Some (m !! k)) as Hall.
  { intros k. by rewrite elem_of_btm_keys. }
  induction (btm_keys m) as [|k l IH]; [done|].
  destruct (Hall k) as [v Hv]; [set_solver|].
  csimpl. rewrite Hv. csimpl. f_equal. apply IH. set_solver.
Qed.

Lemma NoDup_btm_iter m : NoDup (btm_iter m).
Proof. apply (NoDup_fmap_1 fst). rewrite btm_iter_keys. apply NoDup_btm_keys. Qed.

Lemma length_btm_keys m : length (btm_keys m) = size m.
Proof. by rewrite btm_keys_perm, length_fmap, length_map_to_list. Qed.

Lemma length_btm_iter m : length (btm_iter m) = size m.
Proof. by rewrite <-length_btm_keys, <-btm_iter_keys, length_fmap. Qed.

(** Loops over [values_mut] whose new value depends on the old entry only. *)
Lemma btm_accum_lookup {S} (f : S → K → V → S * V) (g : K → V → V) s m k :
  (∀ s k v, (f s k v).2 = g k v) →
  (btm_accum f s m).2 !! k = g k <$> m !! k.
Proof.
  intros Hf. unfold btm_accum.
  pose proof (NoDup_btm_keys m) as Hnd.
  pose proof (elem_of_btm_keys m k) as Hk.
  assert (∀ l (acc : S * gmap K V), NoDup l → (∀ k', k' ∈ l → acc.2 !! k' = m !! k') →
    (foldl (λ acc k, match m !! k with None => acc
       | Some v => let r := f acc.1 k v in (r.1, <[k := r.2]> acc.2) end) acc l).2 !! k
    = if decide (k ∈ l) then g k <$> m !! k else acc.2 !! k) as Hgen.
  { clear Hnd Hk. induction l as [|k0 l IH]; intros acc Hnd Hacc; cbn [foldl].
    - done.
    - apply NoDup_cons in Hnd as [Hk0 Hnd]. destruct (m !! k0) as [v0|] eqn:E.
      + rewrite IH; [|done|].
        * cbn [fst snd]. destruct (decide (k ∈ l)) as [|Hkl].
          -- rewrite decide_True by set_solver. done.
          -- destruct (decide (k = k0)) as [->|Hne].
             ++ rewrite lookup_insert_eq, Hf, decide_True, E by set_solver. done.
             ++ rewrite lookup_insert_ne by done. rewrite decide_False by set_solver. done.
        * intros k' Hk'. cbn [fst snd]. rewrite lookup_insert_ne by set_solver. set_solver.
      + rewrite IH; [|done|set_solver].
        destruct (decide (k ∈ l)); [by rewrite decide_True by set_solver|].
        destruct (decide (k = k0)) as [->|Hne].
        * rewrite decide_True by set_solver. rewrite Hacc by set_solver. by rewrite E.
        * by rewrite decide_False by set_solver. }
  rewrite Hgen by done. simpl. case_decide as Hin; [done|].
  destruct (m !! k) eqn:E; [|done]. exfalso. apply Hin, Hk. eauto.
Qed.

Context (s : gset K).

Lemma elem_of_bts_iter k : k ∈ bts_iter s ↔ k ∈ s.
Proof. unfold bts_iter. by rewrite merge_sort_Permutation, elem_of_elements. Qed.

Lemma NoDup_bts_iter : NoDup (bts_iter s).
Proof. unfold bts_iter. rewrite merge_sort_Permutation. apply NoDup_elements. Qed.

Lemma length_bts_iter : length (bts_iter s) = size s.
Proof. unfold bts_iter. by rewrite merge_sort_Permutation. Qed.

End btree_facts.

Lemma StronglySorted_filter {A} (R : A → A → Prop) (P : A → Prop) `{∀ x, Decision (P x)} l :
  StronglySorted R l → StronglySorted R (filter P l).
Proof.
  induction 1 as [|x l Hl IH Hx]; [constructor|]. rewrite filter_cons. case_decide; [|done].
  constructor; [done|]. rewrite Forall_forall in *. intros y [_ Hy]%list_elem_of_filter. auto.
Qed.

(** An invariant of a left fold, given the elements still to come. *)
Lemma foldl_inv {A B} (P : A → Prop) (f : A → B → A) (l : list B) (a : A) :
  P a → (∀ a b, b ∈ l → P a → P (f a b)) → P (foldl f a l).
Proof.
  revert a. induction l as [|b l IH]; intros a Ha Hstep; simpl; [done|].
  apply IH; [apply Hstep; [left|done]|]. intros a' b' Hb'. apply Hstep. by right.
Qed.

Lemma min_by_None {A} (cmp : A → A → comparison) (l : list A) : min_by cmp l = None ↔ l = [].
Proof. destruct l; done. Qed.

(** The chosen element belongs to the list and no element is below it, for a
    comparison whose [Gt] is asymmetric and whose complement is transitive. *)
Lemma min_by_spec {A} (cmp : A → A → comparison) (l : list A) (x : A) :
  (∀ a, cmp a a ≠ Gt) →
  (∀ a b, cmp a b = Gt → cmp b a ≠ Gt) →
  (∀ a b c, cmp a b ≠ Gt → cmp b c ≠ Gt → cmp a c ≠ Gt) →
  min_by cmp l = Some x → x ∈ l ∧ ∀ y, y ∈ l → cmp x y ≠ Gt.
Proof.
  intros Hrefl Htot Htrans. destruct l as [|a l]; simpl; [done|]. intros [= <-].
  cut (∀ l a, let r := foldl (λ a b, match cmp a b with Gt => b | _ => a end) a l in
     r ∈ a :: l ∧ cmp r a ≠ Gt ∧ ∀ y, y ∈ l → cmp r y ≠ Gt).
  { intros Hc. destruct (Hc l a) as (?&?&?). split; [done|].
    intros y [->|?]%elem_of_cons; eauto. }
  clear a l. induction l as [|b l IH]; intros a; cbn [foldl].
  - split_and!; [by left|done|]. by intros y ?%elem_of_nil.
  - destruct (IH (match cmp a b with Gt => b | _ => a end)) as (Hin&Ha&Hl).
    destruct (cmp a b) eqn:E; cbv zeta;
      (split_and!; [rewrite !elem_of_cons in *; naive_solver|..|
                    intros y [->|?]%elem_of_cons; [|by auto]]);
      try done; (eapply Htrans; [exact Ha|]); rewrite ?E; auto.
Qed.
