(* ===== verification/Ordering.v ===== *)
(** * Comparators and stable sorting

    Rust's comparator closures ([Ordering::then_with], [Ordering::reverse],
    [Option] keys) with the laws that make a composed comparator a total
    preorder, and [slice::sort_by], a stable sort by such a comparator. *)

From S2P Require Import Prelude.

(** ** Comparators *)

(** [Ordering::reverse]. *)
Abbreviation ordering_reverse := CompOpp (only parsing).

(** A total preorder given by a comparator: swapping the arguments reverses the
    outcome, equivalent arguments are interchangeable on the left, and [Lt] is
    transitive. *)
Class Comparator {A : Type} (cmp : A → A → comparison) : Prop := {
  cmp_opp x y : cmp y x = CompOpp (cmp x y);
  cmp_eq_l x y z : cmp x y = Eq → cmp x z = cmp y z;
  cmp_lt_trans x y z : cmp x y = Lt → cmp y z = Lt → cmp x z = Lt
}.

(** A comparator that tells any two distinct arguments apart on a set. *)
Definition separates {A : Type} (cmp : A → A → comparison) (P : A → Prop) : Prop :=
  ∀ x y, P x → P y → cmp x y = Eq → x = y.

(** [cmp x y] is not [Gt]. *)
Definition cmp_le {A : Type} (cmp : A → A → comparison) (x y : A) : Prop := cmp x y ≠ Gt.

(** ** Stable sorting: [slice::sort_by] *)

Fixpoint insert_by {A : Type} (cmp : A → A → comparison) (x : A) (l : list A) : list A :=
  match l with
  | [] => [x]
  | y :: l' => match cmp x y with Gt => y :: insert_by cmp x l' | _ => x :: l end
  end.

Definition sort_by {A : Type} (cmp : A → A → comparison) (l : list A) : list A :=
  foldr (insert_by cmp) [] l.

(** [Vec::dedup] and [Vec::dedup_by]: consecutive repetitions of the kept element. *)
Fixpoint dedup_after {A : Type} (same : A → A → bool) (kept : A) (l : list A) : list A :=
  match l with
  | [] => []
  | x :: l => if same x kept then dedup_after same kept l else x :: dedup_after same x l
  end.

Definition dedup_by {A : Type} (same : A → A → bool) (l : list A) : list A :=
  match l with [] => [] | x :: l => x :: dedup_after same x l end.

(** * Lemmas *)

#[export] Instance rcmp_comparator {A : Type} `{ROrdLaws A} : Comparator (@rcmp A _).
Proof.
  split.
  - apply rcmp_opp.
  - intros x y z Hxy%rcmp_eq. by subst.
  - apply rcmp_trans.
Qed.

Section combinators.
Context {A B : Type}.

#[export] Instance cmp_then_comparator (c d : A → A → comparison) :
  Comparator c → Comparator d → Comparator (λ x y, cmp_then (c x y) (d x y)).
Proof.
  intros Hc Hd. split.
  - intros x y. by rewrite cmp_then_opp, <-!cmp_opp.
  - intros x y z [Hxy Hxy']%cmp_then_Eq. by rewrite (cmp_eq_l x y z Hxy), (cmp_eq_l x y z Hxy').
  - intros x y z. rewrite !cmp_then_Lt. intros [H1|[H1 H1']] [H2|[H2 H2']].
    + left. eauto using cmp_lt_trans.
    + left. rewrite (cmp_opp z x), (cmp_eq_l z y x), <-cmp_opp; [done|].
      by rewrite cmp_opp, H2.
    + left. by rewrite (cmp_eq_l x y z H1).
    + right. rewrite (cmp_eq_l x y z H1). eauto using cmp_lt_trans.
Qed.

#[export] Instance cmp_on_comparator (c : B → B → comparison) (f : A → B) :
  Comparator c → Comparator (λ x y, c (f x) (f y)).
Proof.
  intros Hc. split; intros; [apply cmp_opp|by apply cmp_eq_l|by eapply cmp_lt_trans].
Qed.

#[export] Instance cmp_reverse_comparator (c : A → A → comparison) :
  Comparator c → Comparator (λ x y, ordering_reverse (c x y)).
Proof.
  intros Hc. split.
  - intros x y. by rewrite (cmp_opp x y).
  - intros x y z Hxy. rewrite (cmp_eq_l x y z); [done|]. by destruct (c x y).
  - intros x y z Hxy Hyz. rewrite (cmp_opp z x), CompOpp_involutive.
    apply (cmp_lt_trans z y x).
    + rewrite (cmp_opp y z). by destruct (c y z).
    + rewrite (cmp_opp x y). by destruct (c x y).
Qed.

#[export] Instance cmp_swap_comparator (c : A → A → comparison) :
  Comparator c → Comparator (λ x y, c y x).
Proof.
  intros Hc. split.
  - intros x y. apply cmp_opp.
  - intros x y z Hxy. rewrite (cmp_opp x z), (cmp_opp y z). f_equal. apply cmp_eq_l.
    by rewrite cmp_opp, Hxy.
  - intros x y z Hxy Hyz. by eapply cmp_lt_trans.
Qed.

End combinators.

Section sorting.
Context {A : Type} (cmp : A → A → comparison) `{!Comparator cmp}.
Implicit Types (x y : A) (l : list A).

Lemma cmp_refl x : cmp x x = Eq.
Proof. pose proof (cmp_opp x x). by destruct (cmp x x). Qed.

Lemma cmp_eq_sym x y : cmp x y = Eq → cmp y x = Eq.
Proof. intros E. by rewrite cmp_opp, E. Qed.

Lemma cmp_eq_r x y z : cmp y z = Eq → cmp x y = cmp x z.
Proof. intros E. rewrite (cmp_opp y x), (cmp_opp z x). f_equal. by apply cmp_eq_l. Qed.

Lemma cmp_le_trans x y z : cmp_le cmp x y → cmp_le cmp y z → cmp_le cmp x z.
Proof.
  unfold cmp_le. intros Hxy Hyz. destruct (cmp x y) eqn:E1; [|clear Hxy|done].
  - by rewrite (cmp_eq_l x y z E1).
  - destruct (cmp y z) eqn:E2; [|clear Hyz|done].
    + by rewrite <-(cmp_eq_r x y z E2), E1.
    + by rewrite (cmp_lt_trans x y z E1 E2).
Qed.

Lemma insert_by_perm x l : insert_by cmp x l ≡ₚ x :: l.
Proof.
  induction l as [|y l IH]; simpl; [done|]. destruct (cmp x y); [done..|].
  rewrite IH. constructor.
Qed.

Lemma sort_by_perm l : sort_by cmp l ≡ₚ l.
Proof. induction l as [|x l IH]; simpl; [done|]. by rewrite insert_by_perm, IH. Qed.

Lemma elem_of_sort_by x l : x ∈ sort_by cmp l ↔ x ∈ l.
Proof. by rewrite sort_by_perm. Qed.

Lemma length_sort_by l : length (sort_by cmp l) = length l.
Proof. by rewrite sort_by_perm. Qed.

Lemma insert_by_sorted x l :
  StronglySorted (cmp_le cmp) l → StronglySorted (cmp_le cmp) (insert_by cmp x l).
Proof.
  induction 1 as [|y l Hl IH Hy]; simpl; [repeat constructor|].
  destruct (cmp x y) eqn:E.
  1,2: constructor; [by constructor|]; assert (cmp_le cmp x y) as Hxy by (unfold cmp_le; by rewrite E);
       constructor; [done|]; eapply Forall_impl; [exact Hy|]; intros z Hz; by eapply cmp_le_trans.
  constructor; [done|]. rewrite insert_by_perm. constructor; [|done].
  unfold cmp_le. by rewrite cmp_opp, E.
Qed.

Lemma sort_by_sorted l : StronglySorted (cmp_le cmp) (sort_by cmp l).
Proof. induction l; simpl; [constructor|]. by apply insert_by_sorted. Qed.

(** Two sorted permutations agree when the comparator separates their elements. *)
Lemma sorted_unique P l1 l2 :
  separates cmp P → Forall P l1 → l1 ≡ₚ l2 →
  StronglySorted (cmp_le cmp) l1 → StronglySorted (cmp_le cmp) l2 → l1 = l2.
Proof.
  intros Hsep HP Hperm Hl1. revert l2 HP Hperm.
  induction Hl1 as [|x l1 Hl1 IH Hx]; intros l2 HP Hperm Hl2.
  { by apply Permutation_nil_l in Hperm as ->. }
  destruct Hl2 as [|y l2 Hl2 Hy]; [by apply Permutation_nil_r in Hperm|].
  assert (x = y) as ->.
  { apply Forall_cons in HP as [HPx HP].
    assert (y ∈ x :: l1) as Hyin by (rewrite Hperm; left).
    assert (x ∈ y :: l2) as Hxin by (rewrite <-Hperm; left).
    apply elem_of_cons in Hyin as [->|Hyin]; [done|].
    apply elem_of_cons in Hxin as [->|Hxin]; [done|].
    rewrite Forall_forall in Hx, Hy, HP. apply Hx in Hyin as Hxy. apply Hy in Hxin as Hyx.
    apply Hsep; [done|by apply HP|]. unfold cmp_le in *. rewrite (cmp_opp x y) in Hyx.
    by destruct (cmp x y). }
  f_equal. apply IH; [by apply Forall_cons in HP as [_ ?]|by eapply Permutation_cons_inv|done].
Qed.

(** The sorted list depends on the multiset of elements only. *)
Lemma sort_by_unique P l1 l2 :
  separates cmp P → Forall P l1 → l1 ≡ₚ l2 → sort_by cmp l1 = sort_by cmp l2.
Proof.
  intros Hsep HP Hperm. apply (sorted_unique P).
  - done.
  - by rewrite sort_by_perm.
  - by rewrite !sort_by_perm.
  - apply sort_by_sorted.
  - apply sort_by_sorted.
Qed.

(** A list that is sorted already is left alone. *)
Lemma sort_by_id l : StronglySorted (cmp_le cmp) l → sort_by cmp l = l.
Proof.
  induction 1 as [|x l Hl IH Hx]; simpl; [done|]. rewrite IH.
  destruct l as [|y l]; [done|]. simpl. apply Forall_cons in Hx as [Hxy _].
  unfold cmp_le in Hxy. by destruct (cmp x y).
Qed.

End sorting.

(** Deduplicating a sorted list whose comparator separates its elements leaves
    each element once. *)
Section dedup.
Context {A : Type} (cmp : A → A → comparison) `{!Comparator cmp}.
Context (same : A → A → bool).
Context (P : A → Prop) (Hsep : separates cmp P) (Hsame : ∀ x y, same x y = true ↔ x = y).

Lemma elem_of_dedup_after k x l : x ∈ dedup_after same k l → x ∈ l.
Proof.
  revert k. induction l as [|y l IH]; intros k; simpl; [done|].
  destruct (same y k); [intros; right; by eapply IH|].
  intros [->|Hin]%elem_of_cons; [left|right; by eapply IH].
Qed.

Lemma elem_of_dedup_after_2 k x l : x ∈ l → x = k ∨ x ∈ dedup_after same k l.
Proof.
  revert k. induction l as [|y l IH]; intros k; simpl; [by intros ?%elem_of_nil|].
  intros [->|Hin]%elem_of_cons.
  - destruct (same y k) eqn:E; [left; by apply Hsame|right; left].
  - destruct (same y k) eqn:E; [by apply IH|].
    destruct (IH y Hin) as [->|?]; right; [left|by right].
Qed.

Lemma elem_of_dedup_by x l : x ∈ dedup_by same l ↔ x ∈ l.
Proof.
  destruct l as [|y l]; simpl; [done|]. rewrite !elem_of_cons. split.
  - intros [->|?]; [by left|right; by eapply elem_of_dedup_after].
  - intros [->|?]; [by left|]. by apply elem_of_dedup_after_2.
Qed.

Lemma dedup_after_sorted k l :
  P k → Forall P l → StronglySorted (cmp_le cmp) (k :: l) →
  StronglySorted (λ x y, cmp x y = Lt) (k :: dedup_after same k l).
Proof.
  intros Hk HP. revert k Hk. induction l as [|y l IH]; intros k Hk Hs; simpl; [repeat constructor|].
  apply Forall_cons in HP as [Hy HP].
  apply StronglySorted_inv in Hs as [Hs Hall]. apply Forall_cons in Hall as [Hky Hall].
  destruct (same y k) eqn:E.
  - apply Hsame in E as ->. apply IH; [done|done|]. by constructor; [apply StronglySorted_inv in Hs as []|].
  - assert (cmp k y = Lt) as Hlt.
    { unfold cmp_le in Hky. destruct (cmp k y) eqn:Ek; [|done|done].
      apply Hsep in Ek; [|done|done]. subst. assert (same y y = true) by by apply Hsame. congruence. }
    specialize (IH HP y Hy Hs). constructor; [done|]. constructor; [done|].
    apply StronglySorted_inv in IH as [_ IH]. eapply Forall_impl; [exact IH|].
    intros z Hz. by eapply cmp_lt_trans.
Qed.

Lemma dedup_by_sorted l :
  Forall P l → StronglySorted (cmp_le cmp) l → StronglySorted (λ x y, cmp x y = Lt) (dedup_by same l).
Proof.
  destruct l as [|x l]; intros HP Hs; [constructor|]. apply Forall_cons in HP as [Hx HP].
  by apply dedup_after_sorted.
Qed.

End dedup.

Lemma sorted_lt_le {A : Type} (cmp : A → A → comparison) l :
  StronglySorted (λ x y, cmp x y = Lt) l → StronglySorted (cmp_le cmp) l.
Proof.
  induction 1 as [|x l _ IH Hx]; constructor; [done|].
  eapply Forall_impl; [exact Hx|]. intros y E. unfold cmp_le. by rewrite E.
Qed.

Lemma sorted_lt_NoDup {A : Type} (cmp : A → A → comparison) `{!Comparator cmp} l :
  StronglySorted (λ x y, cmp x y = Lt) l → NoDup l.
Proof.
  induction 1 as [|x l _ IH Hx]; constructor; [|done]. intros Hin.
  rewrite Forall_forall in Hx. apply Hx in Hin. by rewrite cmp_refl in Hin.
Qed.

(** A strictly sorted list is determined by its elements. *)
Lemma sorted_lt_unique {A : Type} (cmp : A → A → comparison) `{!Comparator cmp} l1 l2 :
  StronglySorted (λ x y, cmp x y = Lt) l1 → StronglySorted (λ x y, cmp x y = Lt) l2 →
  (∀ x, x ∈ l1 ↔ x ∈ l2) → l1 = l2.
Proof.
  intros H1 H2 Heq.
  assert (l1 ≡ₚ l2) as Hperm by (apply NoDup_Permutation; eauto using sorted_lt_NoDup).
  clear Heq. revert l2 H2 Hperm. induction H1 as [|x l1 H1 IH Hx]; intros l2 H2 Hperm.
  { by apply Permutation_nil_l in Hperm as ->. }
  destruct H2 as [|y l2 H2 Hy]; [by apply Permutation_nil_r in Hperm|].
  assert (x = y) as ->.
  { assert (y ∈ x :: l1) as Hyin by (rewrite Hperm; left).
    assert (x ∈ y :: l2) as Hxin by (rewrite <-Hperm; left).
    apply elem_of_cons in Hyin as [->|Hyin]; [done|].
    apply elem_of_cons in Hxin as [->|Hxin]; [done|].
    rewrite Forall_forall in Hx, Hy. apply Hx in Hyin. apply Hy in Hxin.
    rewrite (cmp_opp x y), Hyin in Hxin. done. }
  f_equal. apply IH; [done|by eapply Permutation_cons_inv].
Qed.

(** ** Values ordered by their keys *)

Definition compare_keys {V K} `{ROrd K} (key_of : V → K) (l r : V) : comparison := rcmp (key_of l) (key_of r).

Section keyed.
Context {V K : Type} `{ROrdLaws K} (key_of : V → K).

#[export] Instance compare_keys_comparator : Comparator (compare_keys key_of).
Proof. unfold compare_keys. exact (cmp_on_comparator rcmp key_of rcmp_comparator). Qed.

Lemma sorted_keys_strict l :
  StronglySorted (cmp_le (compare_keys key_of)) l → NoDup (key_of <$> l) →
  StronglySorted (λ x y, compare_keys key_of x y = Lt) l.
Proof.
  induction 1 as [|x l Hl IH Hx]; [constructor|]. rewrite fmap_cons. intros [Hnin Hnd]%NoDup_cons.
  constructor; [by apply IH|]. rewrite Forall_forall in *. intros y Hy. specialize (Hx y Hy).
  unfold cmp_le in Hx. destruct (compare_keys key_of x y) eqn:E; [|done|done].
  unfold compare_keys in E. apply rcmp_eq in E. destruct Hnin. rewrite E. by apply list_elem_of_fmap_2.
Qed.

Lemma sort_by_strict l :
  NoDup (key_of <$> l) → StronglySorted (λ x y, compare_keys key_of x y = Lt) (sort_by (compare_keys key_of) l).
Proof.
  intros Hnd. apply sorted_keys_strict; [exact (@sort_by_sorted _ _ compare_keys_comparator l)|].
  by rewrite (sort_by_perm (compare_keys key_of) l).
Qed.

(** Sorting by distinct keys does not depend on the order given. *)
Lemma sort_distinct_keys l l' :
  l ≡ₚ l' → NoDup (key_of <$> l') → sort_by (compare_keys key_of) l = sort_by (compare_keys key_of) l'.
Proof.
  intros Hperm Hnd. apply (@sort_by_unique _ _ compare_keys_comparator (.∈ l')); [|by apply Forall_forall; intros x; rewrite Hperm|done].
  intros x y [i Hi]%list_elem_of_lookup [j Hj]%list_elem_of_lookup Hxy.
  unfold compare_keys in Hxy. apply rcmp_eq in Hxy.
  assert (i = j) as <-; [|congruence].
  apply (NoDup_lookup _ i j (key_of x) Hnd); rewrite list_lookup_fmap, ?Hi, ?Hj; simpl; congruence.
Qed.

End keyed.

Lemma sort_rcmp_sorted {A : Type} `{ROrdLaws A} (l : list A) : StronglySorted rle (sort_by rcmp l).
Proof. exact (@sort_by_sorted A rcmp rcmp_comparator l). Qed.
Lemma sort_rcmp_perm {A : Type} `{ROrdLaws A} (l : list A) : sort_by rcmp l ≡ₚ l.
Proof. exact (sort_by_perm rcmp l). Qed.

(** ** Strictly sorted lists of keyed values *)

Section strict.
Context {V K : Type} `{Countable K, !ROrd K, !ROrdLaws K} (key_of : V → K).

Lemma btm_values_keys (m : gmap K V) :
  (∀ k v, m !! k = Some v → key_of v = k) → key_of <$> btm_values m = btm_keys m.
Proof.
  intros Hkey. unfold btm_values. rewrite <-btm_iter_keys, <-list_fmap_compose.
  apply list_fmap_ext. intros i [k v] Hi%list_elem_of_lookup_2%elem_of_btm_iter. by apply Hkey.
Qed.

Lemma btm_values_strict (m : gmap K V) :
  (∀ k v, m !! k = Some v → key_of v = k) →
  StronglySorted (λ x y, compare_keys key_of x y = Lt) (btm_values m).
Proof.
  intros Hkey. pose proof (btm_values_keys m Hkey) as E. apply sorted_keys_strict.
  - pose proof (StronglySorted_btm_keys m) as Hs. rewrite <-E in Hs. clear E Hkey.
    induction (btm_values m) as [|v l IH]; [constructor|]. rewrite fmap_cons in Hs.
    apply StronglySorted_cons in Hs as [Hv Hs]. constructor; [by apply IH|].
    rewrite Forall_fmap in Hv. exact Hv.
  - rewrite E. apply NoDup_btm_keys.
Qed.

End strict.
