(* ===== verification/Identity.v ===== *)
(** * Identities (crates/bcsp-contracts/src/identity.rs)

    Validated string types, the composite keys built from them, their
    canonical text form and their order. Strings are byte strings. *)

From S2P Require Import Prelude.

(** ** Error values *)

Inductive IdentityErrorCode :=
| IdentityErrorCode_Empty
| IdentityErrorCode_WrongLength
| IdentityErrorCode_TooLong
| IdentityErrorCode_InvalidCharacter
| IdentityErrorCode_NonCanonicalCase
| IdentityErrorCode_WrongSegmentCount
| IdentityErrorCode_InvalidFingerprint.

Record IdentityError := IdentityError_new {
  ie_field : string;
  ie_code : IdentityErrorCode
}.

(** ** Bytes of a string *)

Definition bytes (s : string) : list Ascii.ascii := String.list_ascii_of_string s.

Definition byte_in (lo hi : N) (c : Ascii.ascii) : bool :=
  ((lo <=? Ascii.N_of_ascii c) && (Ascii.N_of_ascii c <=? hi))%N.
Definition is_ascii_uppercase : Ascii.ascii → bool := byte_in 65 90.
Definition is_ascii_lowercase : Ascii.ascii → bool := byte_in 97 122.
Definition is_ascii_digit : Ascii.ascii → bool := byte_in 48 57.
Definition is_ascii_alphanumeric (c : Ascii.ascii) : bool :=
  is_ascii_uppercase c || is_ascii_lowercase c || is_ascii_digit c.
Definition byte_is (n : N) (c : Ascii.ascii) : bool := (Ascii.N_of_ascii c =? n)%N.

(** ** Validators *)

Definition TERM_MAX_BYTES : nat := 16.
Definition SECTION_INDEX_WIDTH : nat := 5.
Definition CAMPUS_MAX_BYTES : nat := 32.
Definition COURSE_STRING_MAX_BYTES : nat := 64.
Definition FINGERPRINT_PREFIX : string := "v1:".
Definition SHA256_HEX_BYTES : nat := 64.

Definition validate_term (value : string) : result IdentityError () :=
  if bool_decide (value = "") then Err (IdentityError_new "term" IdentityErrorCode_Empty)
  else if bool_decide (TERM_MAX_BYTES < String.length value)%nat
  then Err (IdentityError_new "term" IdentityErrorCode_TooLong)
  else if existsb is_ascii_lowercase (bytes value)
  then Err (IdentityError_new "term" IdentityErrorCode_NonCanonicalCase)
  else if negb (forallb (λ c, is_ascii_uppercase c || is_ascii_digit c
                              || byte_is 95 c || byte_is 45 c) (bytes value))
  then Err (IdentityError_new "term" IdentityErrorCode_InvalidCharacter)
  else Ok ().

Definition validate_section_index (value : string) : result IdentityError () :=
  if bool_decide (String.length value ≠ SECTION_INDEX_WIDTH)
  then Err (IdentityError_new "index" IdentityErrorCode_WrongLength)
  else if negb (forallb is_ascii_digit (bytes value))
  then Err (IdentityError_new "index" IdentityErrorCode_InvalidCharacter)
  else Ok ().

Definition validate_campus (value : string) : result IdentityError () :=
  if bool_decide (value = "") then Err (IdentityError_new "campus" IdentityErrorCode_Empty)
  else if bool_decide (CAMPUS_MAX_BYTES < String.length value)%nat
  then Err (IdentityError_new "campus" IdentityErrorCode_TooLong)
  else if existsb is_ascii_lowercase (bytes value)
  then Err (IdentityError_new "campus" IdentityErrorCode_NonCanonicalCase)
  else if negb (forallb (λ c, is_ascii_uppercase c || is_ascii_digit c
                              || byte_is 95 c) (bytes value))
  then Err (IdentityError_new "campus" IdentityErrorCode_InvalidCharacter)
  else Ok ().

Definition validate_course_string (value : string) : result IdentityError () :=
  if bool_decide (value = "") then Err (IdentityError_new "courseString" IdentityErrorCode_Empty)
  else if bool_decide (COURSE_STRING_MAX_BYTES < String.length value)%nat
  then Err (IdentityError_new "courseString" IdentityErrorCode_TooLong)
  else if negb (forallb (λ c, is_ascii_alphanumeric c || byte_is 58 c || byte_is 46 c
                              || byte_is 95 c || byte_is 45 c) (bytes value))
  then Err (IdentityError_new "courseString" IdentityErrorCode_InvalidCharacter)
  else Ok ().

(** [str::strip_prefix]. *)
Definition strip_prefix (prefix value : string) : option string :=
  if String.prefix prefix value
  then Some (String.substring (String.length prefix)
               (String.length value - String.length prefix) value)
  else None.

Definition is_lower_hex (c : Ascii.ascii) : bool := is_ascii_digit c || byte_in 97 102 c.

Definition validate_fingerprint (value : string) : result IdentityError () :=
  match strip_prefix FINGERPRINT_PREFIX value with
  | None => Err (IdentityError_new "fingerprint" IdentityErrorCode_InvalidFingerprint)
  | Some hex =>
      if bool_decide (String.length hex ≠ SHA256_HEX_BYTES)
         || negb (forallb is_lower_hex (bytes hex))
      then Err (IdentityError_new "fingerprint" IdentityErrorCode_InvalidFingerprint)
      else Ok ()
  end.

(** ** Validated string types *)

Record TermId := mkTermId { term_str : string }.
Record CampusCode := mkCampusCode { campus_str : string }.
Record SectionIndex := mkSectionIndex { index_str : string }.
Record CourseString := mkCourseString { course_str : string }.
Record VariantFingerprint := mkVariantFingerprint { fingerprint_str : string }.

Definition TermId_try_from (value : string) : result IdentityError TermId :=
  validate_term value ≫= λ _, Ok (mkTermId value).
Definition CampusCode_try_from (value : string) : result IdentityError CampusCode :=
  validate_campus value ≫= λ _, Ok (mkCampusCode value).
Definition SectionIndex_try_from (value : string) : result IdentityError SectionIndex :=
  validate_section_index value ≫= λ _, Ok (mkSectionIndex value).
Definition CourseString_try_from (value : string) : result IdentityError CourseString :=
  validate_course_string value ≫= λ _, Ok (mkCourseString value).
Definition VariantFingerprint_try_from (value : string)
    : result IdentityError VariantFingerprint :=
  validate_fingerprint value ≫= λ _, Ok (mkVariantFingerprint value).

(** ** Composite keys *)

Record TermCampusKey := TermCampusKey_new {
  tck_term : TermId;
  tck_campus : CampusCode
}.

Definition TermCampusKey_try_new (term campus : string) : result IdentityError TermCampusKey :=
  t ← TermId_try_from term;
  c ← CampusCode_try_from campus;
  Ok (TermCampusKey_new t c).

Record SectionKey := SectionKey_new {
  sk_term : TermId;
  sk_campus : CampusCode;
  sk_index : SectionIndex
}.

Definition SectionKey_try_new (term campus index : string) : result IdentityError SectionKey :=
  t ← TermId_try_from term;
  c ← CampusCode_try_from campus;
  i ← SectionIndex_try_from index;
  Ok (SectionKey_new t c i).

Definition sk_target (k : SectionKey) : TermCampusKey :=
  TermCampusKey_new (sk_term k) (sk_campus k).

Record CourseGroupKey := CourseGroupKey_new {
  cgk_term : TermId;
  cgk_campus : CampusCode;
  cgk_course_string : CourseString
}.

Definition CourseGroupKey_try_new (term campus course_string : string)
    : result IdentityError CourseGroupKey :=
  t ← TermId_try_from term;
  c ← CampusCode_try_from campus;
  s ← CourseString_try_from course_string;
  Ok (CourseGroupKey_new t c s).

Definition cgk_target (k : CourseGroupKey) : TermCampusKey :=
  TermCampusKey_new (cgk_term k) (cgk_campus k).

Record CourseVariantKey := CourseVariantKey_new {
  cvk_group : CourseGroupKey;
  cvk_fingerprint : VariantFingerprint
}.

Definition CourseVariantKey_try_new (group : CourseGroupKey) (fingerprint : string)
    : result IdentityError CourseVariantKey :=
  f ← VariantFingerprint_try_from fingerprint;
  Ok (CourseVariantKey_new group f).

(** ** Text form of a section key *)

Definition SectionKey_display (k : SectionKey) : string :=
  term_str (sk_term k) +:+ "/" +:+ campus_str (sk_campus k) +:+ "/" +:+ index_str (sk_index k).

(** The byte ['/']. *)
Definition slash : Ascii.ascii := Ascii.ascii_of_N 47.

(** [str::split] on one byte. *)
Fixpoint str_split (sep : Ascii.ascii) (s : string) : list string :=
  match s with
  | EmptyString => [""]
  | String c s' =>
      if bool_decide (c = sep) then "" :: str_split sep s'
      else match str_split sep s' with
           | h :: t => String c h :: t
           | [] => [String c ""]
           end
  end.

Definition SectionKey_from_str (value : string) : result IdentityError SectionKey :=
  match str_split slash value with
  | [term; campus; index] => SectionKey_try_new term campus index
  | _ => Err (IdentityError_new "sectionKey" IdentityErrorCode_WrongSegmentCount)
  end.

(** ** Well-formed keys: those the validating constructors can build *)

Definition TermId_wf (t : TermId) : Prop := validate_term (term_str t) = Ok ().
Definition CampusCode_wf (c : CampusCode) : Prop := validate_campus (campus_str c) = Ok ().
Definition SectionIndex_wf (i : SectionIndex) : Prop :=
  validate_section_index (index_str i) = Ok ().
Definition SectionKey_wf (k : SectionKey) : Prop :=
  TermId_wf (sk_term k) ∧ CampusCode_wf (sk_campus k) ∧ SectionIndex_wf (sk_index k).

(** ** Decidable equality, countability and order *)

#[export] Instance TermId_eq_dec : EqDecision TermId.
Proof. solve_decision. Defined.
#[export] Instance CampusCode_eq_dec : EqDecision CampusCode.
Proof. solve_decision. Defined.
#[export] Instance SectionIndex_eq_dec : EqDecision SectionIndex.
Proof. solve_decision. Defined.
#[export] Instance TermCampusKey_eq_dec : EqDecision TermCampusKey.
Proof. solve_decision. Defined.
#[export] Instance SectionKey_eq_dec : EqDecision SectionKey.
Proof. solve_decision. Defined.
#[export] Instance IdentityErrorCode_eq_dec : EqDecision IdentityErrorCode.
Proof. solve_decision. Defined.
#[export] Instance IdentityError_eq_dec : EqDecision IdentityError.
Proof. solve_decision. Defined.

Definition tck_tuple (k : TermCampusKey) : string * string :=
  (term_str (tck_term k), campus_str (tck_campus k)).
Definition tck_of_tuple (p : string * string) : TermCampusKey :=
  TermCampusKey_new (mkTermId p.1) (mkCampusCode p.2).
Definition sk_tuple (k : SectionKey) : string * (string * string) :=
  (term_str (sk_term k), (campus_str (sk_campus k), index_str (sk_index k))).
Definition sk_of_tuple (p : string * (string * string)) : SectionKey :=
  SectionKey_new (mkTermId p.1) (mkCampusCode p.2.1) (mkSectionIndex p.2.2).

#[export] Instance SectionIndex_countable : Countable SectionIndex.
Proof. by apply (inj_countable' index_str mkSectionIndex); intros []. Defined.
#[export] Instance TermCampusKey_countable : Countable TermCampusKey.
Proof. by apply (inj_countable' tck_tuple tck_of_tuple); intros [[] []]. Defined.
#[export] Instance SectionKey_countable : Countable SectionKey.
Proof. by apply (inj_countable' sk_tuple sk_of_tuple); intros [[] [] []]. Defined.

#[export] Instance SectionIndex_rord : ROrd SectionIndex := rord_via index_str.
#[export] Instance TermCampusKey_rord : ROrd TermCampusKey := rord_via tck_tuple.
#[export] Instance SectionKey_rord : ROrd SectionKey := rord_via sk_tuple.

#[export] Instance index_str_inj : Inj (=) (=) index_str.
Proof. by intros [] [] [= ->]. Qed.
#[export] Instance tck_tuple_inj : Inj (=) (=) tck_tuple.
Proof. by intros [[] []] [[] []] [= -> ->]. Qed.
#[export] Instance sk_tuple_inj : Inj (=) (=) sk_tuple.
Proof. by intros [[] [] []] [[] [] []] [= -> -> ->]. Qed.

#[export] Instance SectionIndex_rord_laws : ROrdLaws SectionIndex.
Proof. apply (rord_via_laws index_str). Qed.
#[export] Instance TermCampusKey_rord_laws : ROrdLaws TermCampusKey.
Proof. apply (rord_via_laws tck_tuple). Qed.
#[export] Instance SectionKey_rord_laws : ROrdLaws SectionKey.
Proof. apply (rord_via_laws sk_tuple). Qed.

(** * Lemmas *)

Lemma bytes_app (s t : string) : bytes (s +:+ t) = bytes s ++ bytes t.
Proof.
  unfold bytes. induction s as [|c s IH]; [done|].
  change (String c s +:+ t) with (String c (s +:+ t)). simpl. by rewrite IH.
Qed.

Lemma string_cons_app (c : Ascii.ascii) (s t : string) :
  String c s +:+ t = String c (s +:+ t).
Proof. done. Qed.

Lemma string_nil_app (t : string) : "" +:+ t = t.
Proof. done. Qed.

Lemma string_app_nil_r (s : string) : s +:+ "" = s.
Proof. induction s as [|c s IH]; [done|]. by rewrite string_cons_app, IH. Qed.

Lemma string_app_assoc (s t u : string) : s +:+ (t +:+ u) = (s +:+ t) +:+ u.
Proof. induction s as [|c s IH]; [done|]. by rewrite !string_cons_app, IH. Qed.

Lemma string_length_app (s t : string) :
  String.length (s +:+ t) = (String.length s + String.length t)%nat.
Proof. induction s as [|c s IH]; [done|]. rewrite string_cons_app. simpl. by rewrite IH. Qed.

Lemma substring_all (s : string) : String.substring 0 (String.length s) s = s.
Proof. induction s as [|c s IH]; [done|]. simpl. by rewrite IH. Qed.

Lemma strip_prefix_app (p s : string) : strip_prefix p (p +:+ s) = Some s.
Proof.
  unfold strip_prefix.
  assert (String.prefix p (p +:+ s) = true) as ->.
  { induction p as [|c p IH]; [by destruct s|]. rewrite string_cons_app. simpl.
    rewrite IH. by destruct (Ascii.ascii_dec c c). }
  rewrite string_length_app.
  replace (String.length p + String.length s - String.length p)%nat with (String.length s) by lia.
  f_equal. induction p as [|c p IH]; [apply substring_all|done].
Qed.

(** Splitting a text whose first segment has no separator. *)
Lemma str_split_app (sep : Ascii.ascii) (s t : string) :
  sep ∉ bytes s → str_split sep (s +:+ String sep t) = s :: str_split sep t.
Proof.
  induction s as [|c s IH]; intros Hs.
  - rewrite string_nil_app. simpl. by rewrite bool_decide_eq_true_2.
  - rewrite string_cons_app. simpl. change (bytes (String c s)) with (c :: bytes s) in Hs.
    apply not_elem_of_cons in Hs as [Hne Hs].
    rewrite bool_decide_eq_false_2 by congruence. by rewrite IH.
Qed.

Lemma str_split_last (sep : Ascii.ascii) (s : string) :
  sep ∉ bytes s → str_split sep s = [s].
Proof.
  induction s as [|c s IH]; intros Hs; [done|]. simpl.
  change (bytes (String c s)) with (c :: bytes s) in Hs.
  apply not_elem_of_cons in Hs as [Hne Hs].
  rewrite bool_decide_eq_false_2 by congruence. by rewrite IH.
Qed.

(** Joining the segments again gives the text back. *)
Fixpoint str_join (sep : Ascii.ascii) (l : list string) : string :=
  match l with
  | [] => ""
  | [s] => s
  | s :: l => s +:+ String sep (str_join sep l)
  end.

Lemma str_split_nonempty sep s : str_split sep s ≠ [].
Proof. destruct s as [|c s]; simpl; [done|]. case_bool_decide; [done|]. by destruct (str_split sep s). Qed.

Lemma str_join_split (sep : Ascii.ascii) (s : string) : str_join sep (str_split sep s) = s.
Proof.
  induction s as [|c s IH]; [done|]. cbn [str_split].
  case_bool_decide as Hc.
  - subst c. destruct (str_split sep s) as [|h t] eqn:E; [by apply str_split_nonempty in E|].
    change (str_join sep ("" :: h :: t)) with (String sep (str_join sep (h :: t))). by rewrite IH.
  - destruct (str_split sep s) as [|h t] eqn:E; [by apply str_split_nonempty in E|].
    destruct t as [|h' t]; simpl in *; by rewrite <-IH.
Qed.

Lemma forallb_not_elem (P : Ascii.ascii → bool) (c : Ascii.ascii) (l : list Ascii.ascii) :
  forallb P l = true → P c = false → c ∉ l.
Proof. rewrite forallb_forall. intros Hall Hc Hin%list_elem_of_In. specialize (Hall c Hin). congruence. Qed.

Ltac validator_inv H :=
  repeat match type of H with
  | context [bool_decide ?P] => destruct (bool_decide P) eqn:?; try discriminate H; simpl in H
  | context [existsb ?p ?l] => destruct (existsb p l) eqn:?; try discriminate H; simpl in H
  | context [negb (forallb ?p ?l)] => destruct (forallb p l) eqn:?; try discriminate H; simpl in H
  end.

Lemma term_no_slash value : validate_term value = Ok () → slash ∉ bytes value.
Proof. unfold validate_term. intros H. validator_inv H. by eapply forallb_not_elem. Qed.

Lemma campus_no_slash value : validate_campus value = Ok () → slash ∉ bytes value.
Proof. unfold validate_campus. intros H. validator_inv H. by eapply forallb_not_elem. Qed.

Lemma section_index_no_slash value : validate_section_index value = Ok () → slash ∉ bytes value.
Proof. unfold validate_section_index. intros H. validator_inv H. by eapply forallb_not_elem. Qed.

Lemma try_from_Ok {A} (v : string → result IdentityError ()) (mk : string → A) value a :
  (v value ≫= λ _, Ok (mk value)) = Ok a ↔ v value = Ok () ∧ a = mk value.
Proof.
  rewrite result_bind_Ok. split.
  - intros ([] & ? & [= <-]). done.
  - intros [? ->]. eauto.
Qed.

Lemma SectionKey_try_new_Ok term campus index k :
  SectionKey_try_new term campus index = Ok k ↔
  SectionKey_wf k ∧
  k = SectionKey_new (mkTermId term) (mkCampusCode campus) (mkSectionIndex index).
Proof.
  unfold SectionKey_try_new, SectionKey_wf, TermId_wf, CampusCode_wf, SectionIndex_wf.
  rewrite result_bind_Ok. unfold TermId_try_from. setoid_rewrite try_from_Ok.
  setoid_rewrite result_bind_Ok. unfold CampusCode_try_from. setoid_rewrite try_from_Ok.
  setoid_rewrite result_bind_Ok. unfold SectionIndex_try_from. setoid_rewrite try_from_Ok.
  split.
  - intros (?&[? ->]&?&[? ->]&?&[? ->]&[= <-]). done.
  - intros [(?&?&?) ->]. simpl in *. eauto 15.
Qed.

(** The text form of section keys is a faithful codec: parsing succeeds
    exactly on the printed form of a well-formed key and returns that key.
    Hence printing then parsing is the identity on well-formed keys, parsing
    then printing is the identity on accepted texts, and every key the parser
    returns is well formed. *)
Theorem section_key_from_str_iff (s : string) (k : SectionKey) :
  SectionKey_from_str s = Ok k ↔ SectionKey_wf k ∧ s = SectionKey_display k.
Proof.
  unfold SectionKey_from_str. split.
  - intros H. pose proof (str_join_split slash s) as Hjoin.
    destruct (str_split slash s) as [|t [|c [|i [|]]]]; try done.
    apply SectionKey_try_new_Ok in H as [Hwf ->]. split; [done|]. by rewrite <-Hjoin.
  - intros [Hwf ->]. destruct k as [[t] [c] [i]]. destruct Hwf as (Ht&Hc&Hi).
    unfold SectionKey_display; simpl.
    change (t +:+ "/" +:+ c +:+ "/" +:+ i)
      with (t +:+ String slash (c +:+ String slash i)).
    rewrite str_split_app by (by apply term_no_slash).
    rewrite str_split_app by (by apply campus_no_slash).
    rewrite str_split_last by (by apply section_index_no_slash).
    by apply SectionKey_try_new_Ok.
Qed.

Example section_key_parse_example :
  SectionKey_from_str "92026/NB/00001" =
  Ok (SectionKey_new (mkTermId "92026") (mkCampusCode "NB") (mkSectionIndex "00001")).
Proof. reflexivity. Qed.

Example section_key_parse_errors :
  SectionKey_from_str "92026/NB" = Err (IdentityError_new "sectionKey" IdentityErrorCode_WrongSegmentCount) ∧
  SectionKey_from_str "92026/nb/00001" = Err (IdentityError_new "campus" IdentityErrorCode_NonCanonicalCase) ∧
  SectionKey_from_str "92026/NB/1" = Err (IdentityError_new "index" IdentityErrorCode_WrongLength).
Proof. split_and!; reflexivity. Qed.
