(* ===== verification/RustStr.v ===== *)
(** * Strings of the Rust standard library

    The methods of [str] the modelled code uses, on UTF-8 byte strings: ASCII
    case, trimming and splitting at Unicode white space, replacement, and the
    parsing of unsigned 32-bit numbers. *)

From S2P Require Import Prelude Identity.

(** ** Bytes *)

Abbreviation byte_val := Ascii.N_of_ascii (only parsing).

Definition to_ascii_uppercase_byte (c : Ascii.ascii) : Ascii.ascii :=
  if is_ascii_lowercase c then Ascii.ascii_of_N (byte_val c - 32) else c.
Definition to_ascii_lowercase_byte (c : Ascii.ascii) : Ascii.ascii :=
  if is_ascii_uppercase c then Ascii.ascii_of_N (byte_val c + 32) else c.

Fixpoint string_map (f : Ascii.ascii → Ascii.ascii) (s : string) : string :=
  match s with EmptyString => "" | String c s => String (f c) (string_map f s) end.

Definition to_ascii_uppercase : string → string := string_map to_ascii_uppercase_byte.
Definition to_ascii_lowercase : string → string := string_map to_ascii_lowercase_byte.

(** [str::eq_ignore_ascii_case]. *)
Definition eq_ignore_ascii_case (l r : string) : bool :=
  bool_decide (to_ascii_lowercase l = to_ascii_lowercase r).

(** ** White space

    The code points with the Unicode property White_Space, by the length of
    their encoding: U+0009..U+000D and U+0020; U+0085 and U+00A0; U+1680,
    U+2000..U+200A, U+2028, U+2029, U+202F, U+205F and U+3000. *)

Definition ws1 (a : Ascii.ascii) : bool := byte_in 9 13 a || byte_is 32 a.
Definition ws2 (a b : Ascii.ascii) : bool := byte_is 194 a && (byte_is 133 b || byte_is 160 b).
Definition ws3 (a b c : Ascii.ascii) : bool :=
  (byte_is 225 a && byte_is 154 b && byte_is 128 c)
  || (byte_is 226 a && byte_is 128 b
      && (byte_in 128 138 c || byte_is 168 c || byte_is 169 c || byte_is 175 c))
  || (byte_is 226 a && byte_is 129 b && byte_is 159 c)
  || (byte_is 227 a && byte_is 128 b && byte_is 128 c).

(** Drops the white space at the front, given how to recognise its encodings. *)
Fixpoint trim_front (w2 : Ascii.ascii → Ascii.ascii → bool)
    (w3 : Ascii.ascii → Ascii.ascii → Ascii.ascii → bool) (s : string) : string :=
  match s with
  | EmptyString => ""
  | String a s1 =>
      if ws1 a then trim_front w2 w3 s1 else
      match s1 with
      | EmptyString => s
      | String b s2 =>
          if w2 a b then trim_front w2 w3 s2 else
          match s2 with
          | EmptyString => s
          | String c s3 => if w3 a b c then trim_front w2 w3 s3 else s
          end
      end
  end.

Definition trim_start : string → string := trim_front ws2 ws3.
Definition trim_end (s : string) : string :=
  String.rev (trim_front (λ b a, ws2 a b) (λ c b a, ws3 a b c) (String.rev s)).
(** [str::trim]. *)
Definition trim (s : string) : string := trim_end (trim_start s).

Definition push_word (word : string) (l : list string) : list string :=
  match word with EmptyString => l | _ => String.rev word :: l end.

(** [str::split_whitespace]; [word] is the current word, reversed. *)
Fixpoint split_whitespace_from (word s : string) : list string :=
  match s with
  | EmptyString => push_word word []
  | String a s1 =>
      if ws1 a then push_word word (split_whitespace_from "" s1) else
      match s1 with
      | EmptyString => push_word (String a word) []
      | String b s2 =>
          if ws2 a b then push_word word (split_whitespace_from "" s2) else
          match s2 with
          | EmptyString => split_whitespace_from (String a word) s1
          | String c s3 =>
              if ws3 a b c then push_word word (split_whitespace_from "" s3)
              else split_whitespace_from (String a word) s1
          end
      end
  end.

Definition split_whitespace (s : string) : list string := split_whitespace_from "" s.

(** [slice::join] with one space. *)
Fixpoint join_space (l : list string) : string :=
  match l with
  | [] => ""
  | [s] => s
  | s :: l => s +:+ " " +:+ join_space l
  end.

(** ** Replacement and splitting *)

(** [str::replace] of a nonempty pattern: [skip] bytes of a match are left to drop. *)
Fixpoint replace_from (skip : nat) (pattern with_ s : string) : string :=
  match s with
  | EmptyString => ""
  | String c s' =>
      match skip with
      | S skip => replace_from skip pattern with_ s'
      | O =>
          if String.prefix pattern s
          then with_ +:+ replace_from (String.length pattern - 1) pattern with_ s'
          else String c (replace_from 0 pattern with_ s')
      end
  end.

Definition str_replace (pattern with_ s : string) : string := replace_from 0 pattern with_ s.

(** ** Numbers *)

Definition digit_value (c : Ascii.ascii) : Z := Z.of_N (byte_val c) - 48.

(** The number a string of digits denotes. *)
Definition decimal_value (s : string) : Z := foldl (λ n c, n * 10 + digit_value c) 0 (bytes s).

(** [str::parse::<u32>], for a string of digits. *)
Definition parse_u32_digits (s : string) : option Z :=
  if bool_decide (s = "") then None
  else if bool_decide (decimal_value s ≤ u32_max) then Some (decimal_value s) else None.

Definition u32_checked (n : Z) : option Z :=
  if bool_decide (0 ≤ n ≤ u32_max) then Some n else None.

(** * Lemmas *)

Lemma eq_ignore_ascii_case_refl s : eq_ignore_ascii_case s s = true.
Proof. by apply bool_decide_eq_true. Qed.

Lemma decimal_value_nonneg s : forallb is_ascii_digit (bytes s) = true → 0 ≤ decimal_value s.
Proof.
  unfold decimal_value. rewrite forallb_forall. intros Hs.
  assert (∀ c, In c (bytes s) → 0 ≤ digit_value c) as Hd.
  { intros c [Hlo _]%Hs%andb_true_iff. apply N.leb_le in Hlo. unfold digit_value. lia. }
  clear Hs. assert (∀ n, 0 ≤ n → 0 ≤ foldl (λ n c, n * 10 + digit_value c) n (bytes s)) as Hgen; [|by apply Hgen].
  induction (bytes s) as [|c l IH]; intros n Hn; simpl; [done|].
  assert (0 ≤ digit_value c) by (apply Hd; by left). apply IH; [intros; apply Hd; by right|lia].
Qed.

Example split_whitespace_example : split_whitespace "  Data   Structures " = ["Data"; "Structures"].
Proof. reflexivity. Qed.

Example trim_example : trim (String (Ascii.ascii_of_N 194) (String (Ascii.ascii_of_N 160) " BA  ")) = "BA".
Proof. reflexivity. Qed.

Example replace_example : str_replace " TO " "-" "1.5 TO 4" = "1.5-4".
Proof. reflexivity. Qed.

(** ** Idempotence of normalizing conversions *)

Lemma string_map_idemp f s : (∀ c, f (f c) = f c) → string_map f (string_map f s) = string_map f s.
Proof. intros Hf. induction s as [|c s IH]; simpl; [done|]. by rewrite Hf, IH. Qed.

Lemma to_ascii_uppercase_idemp s : to_ascii_uppercase (to_ascii_uppercase s) = to_ascii_uppercase s.
Proof. apply string_map_idemp. intros [[] [] [] [] [] [] [] []]; reflexivity. Qed.

(** A string without white space: none of its encodings starts anywhere. *)
Definition ws_at (a : Ascii.ascii) (s : string) : bool :=
  ws1 a || match s with
           | EmptyString => false
           | String b s2 => ws2 a b || match s2 with EmptyString => false | String c _ => ws3 a b c end
           end.

Fixpoint ws_free (s : string) : bool :=
  match s with EmptyString => true | String a s => negb (ws_at a s) && ws_free s end.

(** No encoding starts inside the reversed [word] when [s] follows it. *)
Fixpoint ws_free_before (word s : string) : bool :=
  match word with
  | EmptyString => true
  | String a word => negb (ws_at a s) && ws_free_before word (String a s)
  end.

Lemma ws_at_prefix a s t : ws_at a s = true → ws_at a (s +:+ t) = true.
Proof.
  unfold ws_at. destruct s as [|b [|c s]]; rewrite ?string_cons_app; simpl;
    rewrite ?orb_true_iff; intuition congruence.
Qed.

Lemma rev_app_cons word a s : String.rev_app (String a word) s = String.rev_app word (String a s).
Proof. done. Qed.

Lemma ws_free_before_rev word s t :
  ws_free_before word (s +:+ t) = true → ws_free s = true → ws_free (String.rev_app word s) = true.
Proof.
  revert s. induction word as [|a word IH]; intros s; [done|].
  simpl ws_free_before. rewrite andb_true_iff, negb_true_iff. intros [Ha Hw] Hs.
  rewrite rev_app_cons. apply IH; [exact Hw|].
  simpl. rewrite andb_true_iff, negb_true_iff. split; [|done].
  apply not_true_iff_false. intros Hat. apply (ws_at_prefix _ _ t) in Hat. congruence.
Qed.

Lemma rev_app_nonempty word a s : String.rev_app word (String a s) ≠ "".
Proof. revert a s. induction word as [|b word IH]; intros a s; [done|]. apply IH. Qed.

Lemma push_word_spec word l (P : string → Prop) :
  (word ≠ "" → P (String.rev word)) → Forall P l → Forall P (push_word word l).
Proof. destruct word; intros Hw Hl; [done|]. constructor; [by apply Hw|done]. Qed.

Definition plain_word (s : string) : Prop := s ≠ "" ∧ ws_free s = true.

Lemma plain_rev word s : ws_free_before word s = true → word ≠ "" → plain_word (String.rev word).
Proof.
  intros Hw Hne. split.
  - destruct word as [|a word]; [done|]. apply rev_app_nonempty.
  - apply (ws_free_before_rev word "" s); [exact Hw|done].
Qed.

Lemma split_whitespace_step word a s :
  split_whitespace_from word (String a s) =
  if ws_at a s then
    push_word word (split_whitespace_from ""
      (if ws1 a then s else match s with
       | EmptyString => "" | String b s2 => if ws2 a b then s2 else
           match s2 with EmptyString => "" | String c s3 => s3 end end))
  else split_whitespace_from (String a word) s.
Proof.
  unfold ws_at. simpl. destruct (ws1 a); [done|]. destruct s as [|b s2]; [done|].
  destruct (ws2 a b); [done|]. destruct s2 as [|c s3]; [done|]. by destruct (ws3 a b c).
Qed.

Lemma split_whitespace_from_plain n word s :
  (String.length s ≤ n)%nat → ws_free_before word s = true →
  Forall plain_word (split_whitespace_from word s).
Proof.
  revert word s. induction n as [|n IH]; intros word s Hn Hw;
    (destruct s as [|a s]; [simpl; apply push_word_spec; [by apply (plain_rev _ "")|done]|]); simpl in Hn; [lia|].
  rewrite split_whitespace_step. destruct (ws_at a s) eqn:Ha.
  - apply push_word_spec; [by apply plain_rev with (String a s)|]. apply IH; [|done].
    destruct (ws1 a); [lia|]. destruct s as [|b [|c s]]; simpl in *; [lia| |]; destruct (ws2 a b); simpl; lia.
  - apply IH; [lia|]. simpl. by rewrite Ha.
Qed.

(** The space. *)
Definition blank : Ascii.ascii := Ascii.Ascii false false false false false true false false.

(** The head of a string that can follow a word: a space, or nothing. *)
Definition starts_blank (s : string) : Prop :=
  s = "" ∨ ∃ t, s = String blank t.

Lemma ws_at_blank a w s : starts_blank s → ws_at a w = false → ws_at a (w +:+ s) = false.
Proof.
  intros [->|[t ->]] Ha; [by rewrite string_app_nil_r|].
  unfold ws_at in *. destruct w as [|b [|c w]]; rewrite ?string_nil_app, ?string_cons_app in *; simpl in *.
  - rewrite orb_false_r in Ha. rewrite Ha. destruct a as [[] [] [] [] [] [] [] []]; simpl in *; try done;
      destruct t; try done; by rewrite ?andb_false_r.
  - rewrite orb_false_r, orb_false_iff in Ha. destruct Ha as [-> ->]. simpl.
    unfold ws3, byte_in, byte_is. simpl. by rewrite !andb_false_r.
  - done.
Qed.

Lemma split_plain_word word w s :
  starts_blank s → ws_free w = true →
  split_whitespace_from word (w +:+ s) = split_whitespace_from (String.rev_app w word) s.
Proof.
  intros Hs. revert word. induction w as [|a w IH]; intros word Hw; [done|].
  simpl in Hw. rewrite andb_true_iff, negb_true_iff in Hw. destruct Hw as [Ha Hw].
  rewrite string_cons_app, split_whitespace_step, ws_at_blank by done. by apply IH.
Qed.

Lemma rev_app_rev_app w s t : String.rev_app (String.rev_app w s) t = String.rev_app s (w +:+ t).
Proof.
  revert s t. induction w as [|a w IH]; intros s t; [done|].
  rewrite rev_app_cons, IH. done.
Qed.

Lemma split_join_space l : Forall plain_word l → split_whitespace (join_space l) = l.
Proof.
  unfold split_whitespace. induction 1 as [|w l [Hne Hw] Hl IH]; [done|].
  assert (push_word (String.rev_app w "") [] = [w] ∧
          ∀ l', push_word (String.rev_app w "") l' = w :: l') as [Hp Hp'].
  { assert (String.rev (String.rev_app w "") = w) as E.
    { unfold String.rev. rewrite rev_app_rev_app. simpl. apply string_app_nil_r. }
    destruct w as [|a w]; [done|]. rewrite rev_app_cons in *. 
    destruct (String.rev_app w (String a "")) eqn:Er; [by apply rev_app_nonempty in Er|].
    unfold push_word. by rewrite E. }
  destruct l as [|w' l].
  - change (join_space [w]) with w. rewrite <-(string_app_nil_r w) at 1.
    rewrite split_plain_word by (try done; by left). exact Hp.
  - change (join_space (w :: w' :: l)) with (w +:+ String blank (join_space (w' :: l))).
    rewrite split_plain_word by (try done; right; eauto). rewrite split_whitespace_step.
    change (ws_at blank _) with true. cbv iota. change (ws1 blank) with true. cbv iota. by rewrite IH, Hp'.
Qed.

Lemma collapse_idemp s :
  join_space (split_whitespace (join_space (split_whitespace s))) = join_space (split_whitespace s).
Proof. rewrite split_join_space; [done|]. by eapply split_whitespace_from_plain. Qed.
