(* ===== verification/Contracts.v ===== *)
(** * Shared contract data (crates/bcsp-contracts) and the interfaces of the
    third-party crates

    The Open contract's enumerations and records, the versions and sequence
    numbers, trace identifiers with their source, and, as type classes, the
    parts of the [time] and [sha2] crates the modelled code relies on. *)

From S2P Require Import Prelude Identity.

(** ** Third-party interfaces *)

(** A [time::OffsetDateTime] is the instant it denotes, in nanoseconds since
    the Unix epoch; a [time::Duration] is a signed number of nanoseconds. The
    two operations whose result is not determined by that reading are
    parameters. *)
Abbreviation OffsetDateTime := Z (only parsing).

Class TimeApi := {
  (** [OffsetDateTime::checked_add]: [None] outside the supported range. *)
  odt_checked_add : OffsetDateTime → Z → option OffsetDateTime;
  (** [time::Duration::whole_seconds]. *)
  whole_seconds : Z → Z
}.

(** What the documentation of the crate says of them: an addition that
    succeeds is exact, and the whole seconds are those left after dropping the
    subsecond part, which has the sign of the duration. *)
Class TimeApiLaws `{TimeApi} : Prop := {
  odt_checked_add_exact t d t' : odt_checked_add t d = Some t' → t' = t + d;
  whole_seconds_trunc d : whole_seconds d = Z.quot d NANOS_PER_SEC
}.

(** [sha2::Sha256::digest]: the digest of a byte string, as 32 bytes. *)
Class Sha256Api := sha256_digest : string → list N.

Class Sha256ApiLaws `{Sha256Api} : Prop := {
  sha256_digest_length s : length (sha256_digest s) = 32%nat;
  sha256_digest_bytes s : Forall (λ b, (b < 256)%N) (sha256_digest s)
}.

(** ** Hashing (crates/bcsp-rutgers-client/src/hashing.rs) *)

(** One lowercase hexadecimal digit of a nibble. *)
Definition hex_digit (n : N) : Ascii.ascii :=
  Ascii.ascii_of_N (if (n <? 10)%N then 48 + n else 87 + n)%N.

(** The format specification [{byte:02x}]. *)
Definition format_02x (b : N) : string :=
  String (hex_digit (b / 16)) (String (hex_digit (b mod 16)) "").

Definition sha256_hex `{Sha256Api} (b : string) : string :=
  foldl (λ acc byte, acc +:+ format_02x byte) "" (sha256_digest b).

Definition sha256_v1 `{Sha256Api} (b : string) : string := "v1:" +:+ sha256_hex b.

(** ** Trace identifiers (crates/bcsp-contracts/src/error.rs) *)

(** A trace identifier is a UUID, read as its 128-bit number. *)
Abbreviation TraceId := N (only parsing).

(** The trait [TraceIdSource]. *)
Class TraceIdSource (I : Type) := next_trace_id : I → TraceId * I.

(** ** Versions and sequences: nonzero 64-bit numbers *)

Record CatalogContentVersion := CatalogContentVersion_new { ccv_get : Z }.

Inductive CatalogContentVersionError := mkCatalogContentVersionError.

Definition CatalogContentVersion_try_from (value : Z)
    : result CatalogContentVersionError CatalogContentVersion :=
  if bool_decide (value = 0) then Err mkCatalogContentVersionError
  else Ok (CatalogContentVersion_new value).

Record OpenSequence := OpenSequence_new { os_get : Z }.

Inductive OpenSequenceError := mkOpenSequenceError.

Definition OpenSequence_try_from (value : Z) : result OpenSequenceError OpenSequence :=
  if bool_decide (value = 0) then Err mkOpenSequenceError else Ok (OpenSequence_new value).

(** ** Open contract (crates/bcsp-contracts/src/open.rs) *)

Inductive OpenRefreshClassification :=
| OpenRefreshClassification_InFlight
| OpenRefreshClassification_ValidApplied
| OpenRefreshClassification_ValidEmptyNoRows
| OpenRefreshClassification_UnsafeEmpty
| OpenRefreshClassification_UnsafeZeroIntersection
| OpenRefreshClassification_SuspectPartialSnapshot
| OpenRefreshClassification_StaleCatalogRace
| OpenRefreshClassification_Failed.

Inductive OpenState := OpenState_Open | OpenState_Closed | OpenState_Unknown.

Inductive OpenFreshnessState :=
| OpenFreshnessState_Unknown
| OpenFreshnessState_Fresh
| OpenFreshnessState_Stale.

Inductive OpenUncertaintyReason :=
| OpenUncertaintyReason_NeverObserved
| OpenUncertaintyReason_StaleLastKnownGood
| OpenUncertaintyReason_LatestAttemptFailed
| OpenUncertaintyReason_LatestAttemptUnsafe
| OpenUncertaintyReason_SuspectPartialUpstream
| OpenUncertaintyReason_StaleCatalogRace
| OpenUncertaintyReason_CatalogVersionUnavailable.

Inductive OpenContractVersion := OpenContractVersion_V1.

Record OpenBatchKey := OpenBatchKey_new { obk_target : TermCampusKey }.

Record OpenFreshnessV1 := {
  of_state : OpenFreshnessState;
  of_observed_at : option OffsetDateTime;
  of_fresh_until : option OffsetDateTime;
  of_last_known_good_age_seconds : option Z;
  of_uncertainty : option OpenUncertaintyReason
}.

Record OpenPullCountsV1 := {
  opc_attempted : Z;
  opc_succeeded : Z;
  opc_failed : Z;
  opc_empty : Z
}.

Record RutgersDay := mkRutgersDay { rutgers_day_str : string }.

Inductive RutgersDayTimezone := RutgersDayTimezone_AmericaNewYork.

Record OpenCounterSnapshotV1 := {
  ocs_run_counts : option OpenPullCountsV1;
  ocs_today_counts : OpenPullCountsV1;
  ocs_rutgers_day : RutgersDay;
  ocs_day_timezone : RutgersDayTimezone
}.

Record OpenObservationV1 := {
  oo_contract_version : OpenContractVersion;
  oo_observation_id : TraceId;
  oo_refresh_observation_id : TraceId;
  oo_batch : OpenBatchKey;
  oo_section_key : SectionKey;
  oo_pull_sequence : OpenSequence;
  oo_catalog_content_version : CatalogContentVersion;
  oo_state : OpenState;
  oo_observed_at : OffsetDateTime;
  oo_fresh_until : OffsetDateTime;
  oo_scheduler_lag_milliseconds : Z;
  oo_counter_snapshot : OpenCounterSnapshotV1
}.

Inductive OpenObservationTargetMismatchError := mkOpenObservationTargetMismatchError.

(** [OpenObservationV1::try_new]. *)
Definition OpenObservationV1_try_new
    (contract_version : OpenContractVersion) (observation_id refresh_observation_id : TraceId)
    (batch : OpenBatchKey) (section_key : SectionKey) (pull_sequence : OpenSequence)
    (catalog_content_version : CatalogContentVersion) (state : OpenState)
    (observed_at fresh_until : OffsetDateTime) (scheduler_lag_milliseconds : Z)
    (counter_snapshot : OpenCounterSnapshotV1)
    : result OpenObservationTargetMismatchError OpenObservationV1 :=
  if bool_decide (obk_target batch ≠ sk_target section_key)
  then Err mkOpenObservationTargetMismatchError
  else Ok {| oo_contract_version := contract_version;
             oo_observation_id := observation_id;
             oo_refresh_observation_id := refresh_observation_id;
             oo_batch := batch;
             oo_section_key := section_key;
             oo_pull_sequence := pull_sequence;
             oo_catalog_content_version := catalog_content_version;
             oo_state := state;
             oo_observed_at := observed_at;
             oo_fresh_until := fresh_until;
             oo_scheduler_lag_milliseconds := scheduler_lag_milliseconds;
             oo_counter_snapshot := counter_snapshot |}.

#[export] Instance CatalogContentVersion_eq_dec : EqDecision CatalogContentVersion.
Proof. solve_decision. Defined.
#[export] Instance OpenRefreshClassification_eq_dec : EqDecision OpenRefreshClassification.
Proof. solve_decision. Defined.
#[export] Instance OpenState_eq_dec : EqDecision OpenState.
Proof. solve_decision. Defined.
#[export] Instance OpenFreshnessState_eq_dec : EqDecision OpenFreshnessState.
Proof. solve_decision. Defined.

(** ** Concrete instances, used by the witnesses *)

(** The range of [OffsetDateTime] in whole seconds around the epoch: the years
    -9999 to 9999. *)
Definition concrete_time_api : TimeApi := {|
  odt_checked_add t d :=
    if bool_decide (-377705116800 * NANOS_PER_SEC ≤ t + d < 253402300800 * NANOS_PER_SEC)
    then Some (t + d) else None;
  whole_seconds d := Z.quot d NANOS_PER_SEC
|}.

Lemma concrete_time_api_laws : @TimeApiLaws concrete_time_api.
Proof.
  split; simpl.
  - intros t d t' Ht. case_bool_decide; congruence.
  - done.
Qed.

(** A digest that depends on the length of its input only. *)
Definition concrete_sha256_api : Sha256Api :=
  λ s, replicate 32 (N.of_nat (String.length s) mod 256)%N.

Lemma concrete_sha256_api_laws : @Sha256ApiLaws concrete_sha256_api.
Proof.
  split; intros s; unfold sha256_digest, concrete_sha256_api.
  - by rewrite length_replicate.
  - apply Forall_replicate. apply N.mod_upper_bound. done.
Qed.

(** * Lemmas *)

(** ** Elapsed whole seconds *)

Section whole_seconds_facts.
Context `{TimeApiLaws}.

(** A duration of between [a] and [b] whole seconds, [0 <= a <= b]. *)
Lemma whole_seconds_range d a b :
  0 < a → a ≤ whole_seconds d ≤ b → a * NANOS_PER_SEC ≤ d < (b + 1) * NANOS_PER_SEC.
Proof.
  rewrite whole_seconds_trunc. unfold NANOS_PER_SEC. intros Ha [Hlo Hhi].
  pose proof (Z.quot_rem' d 1000000000) as Hd.
  destruct (decide (0 ≤ d)) as [Hpos|Hneg].
  - pose proof (Z.rem_bound_pos d 1000000000). lia.
  - pose proof (Z.rem_bound_pos (- d) 1000000000) as Hr. rewrite Z.rem_opp_l in Hr by lia.
    rewrite <-(Z.opp_involutive d), Z.quot_opp_l in Hlo by lia.
    pose proof (Z.quot_pos (- d) 1000000000). lia.
Qed.

(** Zero whole seconds leave the subsecond part, of either sign. *)
Lemma whole_seconds_range_0 d b :
  0 ≤ whole_seconds d ≤ b → - NANOS_PER_SEC < d < (b + 1) * NANOS_PER_SEC.
Proof.
  rewrite whole_seconds_trunc. unfold NANOS_PER_SEC. intros [Hlo Hhi].
  pose proof (Z.quot_rem' d 1000000000) as Hd.
  destruct (decide (0 ≤ d)) as [Hpos|Hneg].
  - pose proof (Z.rem_bound_pos d 1000000000). lia.
  - pose proof (Z.rem_bound_pos (- d) 1000000000) as Hr. rewrite Z.rem_opp_l in Hr by lia.
    pose proof (Z.quot_pos (- d) 1000000000). rewrite Z.quot_opp_l in * by lia. lia.
Qed.

Lemma whole_seconds_of_secs s : whole_seconds (s * NANOS_PER_SEC) = s.
Proof. rewrite whole_seconds_trunc. by apply Z.quot_mul. Qed.

End whole_seconds_facts.

(** ** Hexadecimal output *)

Lemma hex_digit_lower_hex n : (n < 16)%N → is_lower_hex (hex_digit n) = true.
Proof.
  intros Hn.
  assert (forallb (λ k, is_lower_hex (hex_digit (N.of_nat k))) (seq 0 16) = true) as Hall
    by (vm_compute; done).
  rewrite forallb_forall in Hall. specialize (Hall (N.to_nat n)).
  rewrite N2Nat.id, in_seq in Hall. apply Hall. lia.
Qed.

Section hashing_facts.
Context `{Sha256ApiLaws}.

Lemma foldl_format_02x acc l :
  foldl (λ acc byte, acc +:+ format_02x byte) acc l =
  acc +:+ foldl (λ acc byte, acc +:+ format_02x byte) "" l.
Proof.
  revert acc. induction l as [|b l IH]; intros acc; cbn [foldl].
  - by rewrite string_app_nil_r.
  - rewrite IH, (IH ("" +:+ _)). by rewrite string_nil_app, !string_app_assoc.
Qed.

Lemma bytes_sha256_hex s :
  bytes (sha256_hex s) = sha256_digest s ≫= λ b, bytes (format_02x b).
Proof.
  unfold sha256_hex. induction (sha256_digest s) as [|b l IH]; [done|].
  cbn [foldl]. rewrite foldl_format_02x, bytes_app, IH. done.
Qed.

Lemma length_bytes s : length (bytes s) = String.length s.
Proof. unfold bytes. induction s as [|c s IH]; [done|]. simpl. by rewrite IH. Qed.

Lemma sha256_hex_length s : String.length (sha256_hex s) = 64%nat.
Proof.
  rewrite <-length_bytes, bytes_sha256_hex.
  pose proof (sha256_digest_length s) as Hlen.
  assert (∀ l : list N, length (l ≫= λ b, bytes (format_02x b)) = (2 * length l)%nat) as Hgen.
  { induction l as [|b l IH]; [done|]. rewrite bind_cons, length_app, IH. simpl. lia. }
  rewrite Hgen, Hlen. done.
Qed.

Lemma sha256_hex_lower s : forallb is_lower_hex (bytes (sha256_hex s)) = true.
Proof.
  rewrite bytes_sha256_hex. apply forallb_forall. intros c Hc%list_elem_of_In.
  apply list_elem_of_bind in Hc as (b & Hc & Hb).
  assert (b < 256)%N as Hlt by exact (proj1 (Forall_forall _ _) (sha256_digest_bytes s) b Hb).
  assert (b / 16 < 16)%N as Hhi by (apply N.Div0.div_lt_upper_bound; lia).
  assert (b mod 16 < 16)%N as Hlo by (by apply N.mod_upper_bound).
  unfold format_02x, bytes in Hc. simpl in Hc.
  rewrite !elem_of_cons, elem_of_nil in Hc. destruct Hc as [->|[->|[]]]; by apply hex_digit_lower_hex.
Qed.

End hashing_facts.

(** Every versioned digest the hashing helper prints is a valid variant
    fingerprint: [sha256_v1] always passes the fingerprint validator, whatever
    the digested bytes. *)
Theorem sha256_v1_is_fingerprint `{Sha256ApiLaws} (b : string) :
  VariantFingerprint_try_from (sha256_v1 b) = Ok (mkVariantFingerprint (sha256_v1 b)).
Proof.
  unfold VariantFingerprint_try_from. apply try_from_Ok. split; [|done].
  unfold validate_fingerprint, sha256_v1. rewrite (strip_prefix_app "v1:").
  rewrite bool_decide_eq_false_2; [|rewrite sha256_hex_length; auto].
  by rewrite sha256_hex_lower.
Qed.

Lemma sha256_v1_is_fingerprint_witness :
  let A := concrete_sha256_api in
  VariantFingerprint_try_from (sha256_v1 "synthetic") =
  Ok (mkVariantFingerprint (sha256_v1 "synthetic")).
Proof.
  exact (@sha256_v1_is_fingerprint concrete_sha256_api concrete_sha256_api_laws "synthetic").
Defined.
