(* ===== verification/CatalogData.v ===== *)
(** * The normalized catalog (crates/bcsp-contracts/src/catalog.rs)

    Field knowledge, the enumerations and the records of a normalized catalog,
    and the keys of courses and occurrences with their order. *)

From S2P Require Import Prelude Identity Contracts.

(** ** Field knowledge *)

Inductive CatalogUnknownReason :=
| CatalogUnknownReason_Missing
| CatalogUnknownReason_ExplicitNull
| CatalogUnknownReason_Malformed
| CatalogUnknownReason_SparseEvidence
| CatalogUnknownReason_NotObserved
| CatalogUnknownReason_SourceUnavailable
| CatalogUnknownReason_ConflictingEvidence.

(** Presence of a field whose value is trustworthy, and whether it is. *)
Inductive CatalogFieldPresence (T : Type) :=
| CatalogFieldPresence_Present (value : T)
| CatalogFieldPresence_ExplicitNull
| CatalogFieldPresence_Absent.
Arguments CatalogFieldPresence_Present {T} value.
Arguments CatalogFieldPresence_ExplicitNull {T}.
Arguments CatalogFieldPresence_Absent {T}.

Inductive CatalogFieldKnowledge (T : Type) :=
| CatalogFieldKnowledge_Known (presence : CatalogFieldPresence T)
| CatalogFieldKnowledge_Unknown (reason : CatalogUnknownReason).
Arguments CatalogFieldKnowledge_Known {T} presence.
Arguments CatalogFieldKnowledge_Unknown {T} reason.

(** The three shapes the code matches on. *)
Abbreviation Present value := (CatalogFieldKnowledge_Known (CatalogFieldPresence_Present value)).
Abbreviation ExplicitNull := (CatalogFieldKnowledge_Known CatalogFieldPresence_ExplicitNull).
Abbreviation Absent := (CatalogFieldKnowledge_Known CatalogFieldPresence_Absent).
Abbreviation Unknown reason := (CatalogFieldKnowledge_Unknown reason).

(** ** Enumerations *)

Inductive CatalogContractVersion :=
| CatalogContractVersion_V1.

Inductive CatalogSourceKind :=
| CatalogSourceKind_RutgersCatalog.

Inductive CatalogPrerequisiteState :=
| CatalogPrerequisiteState_Has
| CatalogPrerequisiteState_NoneReported
| CatalogPrerequisiteState_Unknown.

Inductive CatalogOpenStatusProvenance :=
| CatalogOpenStatusProvenance_CatalogSnapshotOnly.

Inductive CatalogInstructorReliability :=
| CatalogInstructorReliability_NameOnly.

Inductive CatalogModality :=
| CatalogModality_OnCampusOrInPerson
| CatalogModality_Hybrid
| CatalogModality_Online
| CatalogModality_Other
| CatalogModality_Unknown
| CatalogModality_UnknownConflict.

Inductive CatalogSynchronicity :=
| CatalogSynchronicity_Sync
| CatalogSynchronicity_Async
| CatalogSynchronicity_Mixed
| CatalogSynchronicity_ByArrangement
| CatalogSynchronicity_Unspecified
| CatalogSynchronicity_Unknown.

Inductive CatalogOccurrenceKind :=
| CatalogOccurrenceKind_Scheduled
| CatalogOccurrenceKind_ByArrangement
| CatalogOccurrenceKind_Unspecified.

Inductive CatalogOccurrenceEvidence :=
| CatalogOccurrenceEvidence_None
| CatalogOccurrenceEvidence_Physical
| CatalogOccurrenceEvidence_Remote.

Inductive CatalogRequiredness :=
| CatalogRequiredness_Required
| CatalogRequiredness_Optional
| CatalogRequiredness_UnknownRequiredness.

Inductive CatalogTimeKnowledgeV1 :=
| CatalogTimeKnowledgeV1_Missing
| CatalogTimeKnowledgeV1_ExplicitNull
| CatalogTimeKnowledgeV1_Empty
| CatalogTimeKnowledgeV1_Partial
| CatalogTimeKnowledgeV1_Invalid
| CatalogTimeKnowledgeV1_Known (start_minute end_minute : Z).

(** ** Records *)

Record CatalogPayloadDigest := mkCatalogPayloadDigest { payload_digest_str : string }.
Record CatalogSubjectCode := mkCatalogSubjectCode { subject_str : string }.
Record CatalogDiagnosticCode := mkCatalogDiagnosticCode { diagnostic_str : string }.

Record CatalogProvenanceV1 := {
  cp_observation_id : TraceId;
  cp_source : CatalogSourceKind;
  cp_target : TermCampusKey;
  cp_observed_at : OffsetDateTime;
  cp_payload_digest : CatalogPayloadDigest
}.

Record CatalogOccurrenceKeyV1 := {
  cok_section : SectionKey;
  cok_ordinal : Z
}.

Record NormalizedCourseGroupV1 := {
  ncg_key : CourseGroupKey;
  ncg_variant_keys : list CourseVariantKey
}.

Record NormalizedCourseVariantV1 := {
  ncv_key : CourseVariantKey;
  ncv_title : CatalogFieldKnowledge string;
  ncv_expanded_title : CatalogFieldKnowledge string;
  ncv_description : CatalogFieldKnowledge string;
  ncv_notes : CatalogFieldKnowledge string;
  ncv_subject_group_notes : CatalogFieldKnowledge string;
  ncv_subject_notes : CatalogFieldKnowledge string;
  ncv_unit_notes : CatalogFieldKnowledge string;
  ncv_synopsis_url : CatalogFieldKnowledge string;
  ncv_prerequisite_notes : CatalogFieldKnowledge string;
  ncv_prerequisite_state : CatalogPrerequisiteState;
  ncv_credits : CatalogFieldKnowledge string;
  ncv_level : CatalogFieldKnowledge string;
  ncv_subject_code : CatalogFieldKnowledge string;
  ncv_subject_description : CatalogFieldKnowledge string;
  ncv_course_number : CatalogFieldKnowledge string;
  ncv_supplement_code : CatalogFieldKnowledge string;
  ncv_school_code : CatalogFieldKnowledge string;
  ncv_offering_unit : CatalogFieldKnowledge string;
  ncv_offering_unit_title : CatalogFieldKnowledge string;
  ncv_core_codes : CatalogFieldKnowledge (list string);
  ncv_campus_locations : CatalogFieldKnowledge (list string);
  ncv_section_keys : list SectionKey
}.

Record CatalogSnapshotOpenStatusV1 := {
  cso_value : CatalogFieldKnowledge bool;
  cso_provenance : CatalogOpenStatusProvenance
}.

Record CatalogUnitMajorV1 := {
  cum_unit_code : string;
  cum_major_code : string
}.

Record CatalogCommentV1 := {
  cco_code : CatalogFieldKnowledge string;
  cco_description : CatalogFieldKnowledge string
}.

Record NormalizedSectionV1 := {
  nse_key : SectionKey;
  nse_variant_key : CourseVariantKey;
  nse_section_number : CatalogFieldKnowledge string;
  nse_subtitle : CatalogFieldKnowledge string;
  nse_subtopic : CatalogFieldKnowledge string;
  nse_section_notes : CatalogFieldKnowledge string;
  nse_session_dates : CatalogFieldKnowledge string;
  nse_session_date_print_indicator : CatalogFieldKnowledge string;
  nse_comments : CatalogFieldKnowledge (list CatalogCommentV1);
  nse_comments_text : CatalogFieldKnowledge string;
  nse_cross_listed_sections_text : CatalogFieldKnowledge string;
  nse_cross_listed_section_type : CatalogFieldKnowledge string;
  nse_instructors : CatalogFieldKnowledge (list string);
  nse_instructor_reliability : CatalogInstructorReliability;
  nse_raw_section_course_type : CatalogFieldKnowledge string;
  nse_delivery_modality : CatalogModality;
  nse_synchronicity : CatalogSynchronicity;
  nse_exam_code : CatalogFieldKnowledge string;
  nse_exam_code_text : CatalogFieldKnowledge string;
  nse_special_permission_add_code : CatalogFieldKnowledge string;
  nse_special_permission_add_description : CatalogFieldKnowledge string;
  nse_special_permission_drop_code : CatalogFieldKnowledge string;
  nse_special_permission_drop_description : CatalogFieldKnowledge string;
  nse_major_codes : CatalogFieldKnowledge (list string);
  nse_unit_codes : CatalogFieldKnowledge (list string);
  nse_minor_codes : CatalogFieldKnowledge (list string);
  nse_honor_program_codes : CatalogFieldKnowledge (list string);
  nse_unit_majors : CatalogFieldKnowledge (list CatalogUnitMajorV1);
  nse_eligibility_text : CatalogFieldKnowledge string;
  nse_open_to_text : CatalogFieldKnowledge string;
  nse_catalog_open_status : CatalogSnapshotOpenStatusV1;
  nse_occurrence_keys : CatalogFieldKnowledge (list CatalogOccurrenceKeyV1)
}.

Record NormalizedOccurrenceV1 := {
  noc_key : CatalogOccurrenceKeyV1;
  noc_raw_code : CatalogFieldKnowledge string;
  noc_raw_description : CatalogFieldKnowledge string;
  noc_modality : CatalogFieldKnowledge CatalogModality;
  noc_synchronicity : CatalogFieldKnowledge CatalogSynchronicity;
  noc_raw_day : CatalogFieldKnowledge string;
  noc_days : CatalogFieldKnowledge (list string);
  noc_raw_start_time : CatalogFieldKnowledge string;
  noc_raw_end_time : CatalogFieldKnowledge string;
  noc_time : CatalogTimeKnowledgeV1;
  noc_start_date : CatalogFieldKnowledge string;
  noc_end_date : CatalogFieldKnowledge string;
  noc_campus : CatalogFieldKnowledge string;
  noc_campus_name : CatalogFieldKnowledge string;
  noc_building : CatalogFieldKnowledge string;
  noc_room : CatalogFieldKnowledge string;
  noc_requiredness : CatalogRequiredness;
  noc_kind : CatalogOccurrenceKind;
  noc_evidence : CatalogOccurrenceEvidence;
  noc_normalization_reason : CatalogDiagnosticCode
}.

Record NormalizedCatalogV1 := {
  nca_contract_version : CatalogContractVersion;
  nca_target : TermCampusKey;
  nca_content_version : CatalogContentVersion;
  nca_provenance : CatalogProvenanceV1;
  nca_course_groups : list NormalizedCourseGroupV1;
  nca_course_variants : list NormalizedCourseVariantV1;
  nca_sections : list NormalizedSectionV1;
  nca_occurrences : list NormalizedOccurrenceV1
}.

(** ** Decidable equality *)

#[export] Instance CatalogUnknownReason_eq_dec : EqDecision CatalogUnknownReason.
Proof. solve_decision. Defined.
#[export] Instance CatalogPrerequisiteState_eq_dec : EqDecision CatalogPrerequisiteState.
Proof. solve_decision. Defined.
#[export] Instance CatalogModality_eq_dec : EqDecision CatalogModality.
Proof. solve_decision. Defined.
#[export] Instance CatalogSynchronicity_eq_dec : EqDecision CatalogSynchronicity.
Proof. solve_decision. Defined.
#[export] Instance CatalogOccurrenceKind_eq_dec : EqDecision CatalogOccurrenceKind.
Proof. solve_decision. Defined.
#[export] Instance CatalogOccurrenceEvidence_eq_dec : EqDecision CatalogOccurrenceEvidence.
Proof. solve_decision. Defined.
#[export] Instance CatalogRequiredness_eq_dec : EqDecision CatalogRequiredness.
Proof. solve_decision. Defined.
#[export] Instance CourseString_eq_dec : EqDecision CourseString.
Proof. solve_decision. Defined.
#[export] Instance VariantFingerprint_eq_dec : EqDecision VariantFingerprint.
Proof. solve_decision. Defined.
#[export] Instance CourseGroupKey_eq_dec : EqDecision CourseGroupKey.
Proof. solve_decision. Defined.
#[export] Instance CourseVariantKey_eq_dec : EqDecision CourseVariantKey.
Proof. solve_decision. Defined.
#[export] Instance CatalogOccurrenceKeyV1_eq_dec : EqDecision CatalogOccurrenceKeyV1.
Proof. solve_decision. Defined.
#[export] Instance CatalogSubjectCode_eq_dec : EqDecision CatalogSubjectCode.
Proof. solve_decision. Defined.

(** ** Keys of maps and their derived order *)

Definition cgk_tuple (k : CourseGroupKey) : string * (string * string) :=
  (term_str (cgk_term k), (campus_str (cgk_campus k), course_str (cgk_course_string k))).
Definition cgk_of_tuple (p : string * (string * string)) : CourseGroupKey :=
  CourseGroupKey_new (mkTermId p.1) (mkCampusCode p.2.1) (mkCourseString p.2.2).
Definition cvk_tuple (k : CourseVariantKey) : CourseGroupKey * string :=
  (cvk_group k, fingerprint_str (cvk_fingerprint k)).
Definition cvk_of_tuple (p : CourseGroupKey * string) : CourseVariantKey :=
  CourseVariantKey_new p.1 (mkVariantFingerprint p.2).
Definition cok_tuple (k : CatalogOccurrenceKeyV1) : SectionKey * Z :=
  (cok_section k, cok_ordinal k).
Definition cok_of_tuple (p : SectionKey * Z) : CatalogOccurrenceKeyV1 :=
  {| cok_section := p.1; cok_ordinal := p.2 |}.

#[export] Instance CourseGroupKey_countable : Countable CourseGroupKey.
Proof. by apply (inj_countable' cgk_tuple cgk_of_tuple); intros [[] [] []]. Defined.
#[export] Instance CourseVariantKey_countable : Countable CourseVariantKey.
Proof. by apply (inj_countable' cvk_tuple cvk_of_tuple); intros [? []]. Defined.
#[export] Instance CatalogOccurrenceKeyV1_countable : Countable CatalogOccurrenceKeyV1.
Proof. by apply (inj_countable' cok_tuple cok_of_tuple); intros []. Defined.
#[export] Instance TermId_countable : Countable TermId.
Proof. by apply (inj_countable' term_str mkTermId); intros []. Defined.

#[export] Instance TermId_rord : ROrd TermId := rord_via term_str.
#[export] Instance CampusCode_rord : ROrd CampusCode := rord_via campus_str.
#[export] Instance CourseString_rord : ROrd CourseString := rord_via course_str.
#[export] Instance CatalogSubjectCode_rord : ROrd CatalogSubjectCode := rord_via subject_str.
#[export] Instance CourseGroupKey_rord : ROrd CourseGroupKey := rord_via cgk_tuple.
#[export] Instance CourseVariantKey_rord : ROrd CourseVariantKey := rord_via cvk_tuple.
#[export] Instance CatalogOccurrenceKeyV1_rord : ROrd CatalogOccurrenceKeyV1 := rord_via cok_tuple.

#[export] Instance term_str_inj : Inj (=) (=) term_str.
Proof. by intros [] [] [= ->]. Qed.
#[export] Instance campus_str_inj : Inj (=) (=) campus_str.
Proof. by intros [] [] [= ->]. Qed.
#[export] Instance course_str_inj : Inj (=) (=) course_str.
Proof. by intros [] [] [= ->]. Qed.
#[export] Instance subject_str_inj : Inj (=) (=) subject_str.
Proof. by intros [] [] [= ->]. Qed.
#[export] Instance cgk_tuple_inj : Inj (=) (=) cgk_tuple.
Proof. by intros [[] [] []] [[] [] []] [= -> -> ->]. Qed.
#[export] Instance cvk_tuple_inj : Inj (=) (=) cvk_tuple.
Proof. by intros [? []] [? []] [= -> ->]. Qed.
#[export] Instance cok_tuple_inj : Inj (=) (=) cok_tuple.
Proof. by intros [] [] [= -> ->]. Qed.

#[export] Instance TermId_rord_laws : ROrdLaws TermId.
Proof. apply (rord_via_laws term_str). Qed.
#[export] Instance CampusCode_rord_laws : ROrdLaws CampusCode.
Proof. apply (rord_via_laws campus_str). Qed.
#[export] Instance CourseString_rord_laws : ROrdLaws CourseString.
Proof. apply (rord_via_laws course_str). Qed.
#[export] Instance CatalogSubjectCode_rord_laws : ROrdLaws CatalogSubjectCode.
Proof. apply (rord_via_laws subject_str). Qed.
#[export] Instance CourseGroupKey_rord_laws : ROrdLaws CourseGroupKey.
Proof. apply (rord_via_laws cgk_tuple). Qed.
#[export] Instance CourseVariantKey_rord_laws : ROrdLaws CourseVariantKey.
Proof. apply (rord_via_laws cvk_tuple). Qed.
#[export] Instance CatalogOccurrenceKeyV1_rord_laws : ROrdLaws CatalogOccurrenceKeyV1.
Proof. apply (rord_via_laws cok_tuple). Qed.
