(* ===== verification/CatalogSamples.v ===== *)
(** * A small catalog

    Concrete catalog data for the examples of the query engine: courses with one
    variant, its sections and their weekly meetings, with everything the code
    does not read left absent. *)

From S2P Require Import Prelude Identity Contracts CatalogData.

Definition sample_term : TermId := mkTermId "92026".
Definition sample_campus : CampusCode := mkCampusCode "NB".
Definition sample_target : TermCampusKey := {| tck_term := sample_term; tck_campus := sample_campus |}.

Definition sample_group_key (course : string) : CourseGroupKey :=
  {| cgk_term := sample_term; cgk_campus := sample_campus; cgk_course_string := mkCourseString course |}.
Definition sample_variant_key (course : string) : CourseVariantKey :=
  {| cvk_group := sample_group_key course; cvk_fingerprint := mkVariantFingerprint "sha256:00" |}.
Definition sample_section_key (index : string) : SectionKey :=
  {| sk_term := sample_term; sk_campus := sample_campus; sk_index := mkSectionIndex index |}.
Definition sample_occurrence_key (index : string) (ordinal : Z) : CatalogOccurrenceKeyV1 :=
  {| cok_section := sample_section_key index; cok_ordinal := ordinal |}.

Definition sample_group (course : string) : NormalizedCourseGroupV1 :=
  {| ncg_key := sample_group_key course; ncg_variant_keys := [sample_variant_key course] |}.

Definition sample_variant (course title : string) (sections : list string) : NormalizedCourseVariantV1 :=
  {|
    ncv_key := sample_variant_key course; ncv_title := Present title; ncv_expanded_title :=
    Absent; ncv_description := Absent; ncv_notes := Absent; ncv_subject_group_notes := Absent;
    ncv_subject_notes := Absent; ncv_unit_notes := Absent; ncv_synopsis_url := Absent;
    ncv_prerequisite_notes := Absent; ncv_prerequisite_state :=
    CatalogPrerequisiteState_Unknown; ncv_credits := Absent; ncv_level := Absent;
    ncv_subject_code := Absent; ncv_subject_description := Absent; ncv_course_number := Absent;
    ncv_supplement_code := Absent; ncv_school_code := Absent; ncv_offering_unit := Absent;
    ncv_offering_unit_title := Absent; ncv_core_codes := Absent; ncv_campus_locations := Absent;
    ncv_section_keys := sample_section_key <$> sections
  |}.

Definition sample_section (course index : string) (meetings : list Z) : NormalizedSectionV1 :=
  {|
    nse_key := sample_section_key index; nse_variant_key := sample_variant_key course;
    nse_section_number := Absent; nse_subtitle := Absent; nse_subtopic := Absent;
    nse_section_notes := Absent; nse_session_dates := Absent; nse_session_date_print_indicator
    := Absent; nse_comments := Absent; nse_comments_text := Absent;
    nse_cross_listed_sections_text := Absent; nse_cross_listed_section_type := Absent;
    nse_instructors := Absent; nse_instructor_reliability :=
    CatalogInstructorReliability_NameOnly; nse_raw_section_course_type := Absent;
    nse_delivery_modality := CatalogModality_OnCampusOrInPerson; nse_synchronicity :=
    CatalogSynchronicity_Sync; nse_exam_code := Absent; nse_exam_code_text := Absent;
    nse_special_permission_add_code := Absent; nse_special_permission_add_description := Absent;
    nse_special_permission_drop_code := Absent; nse_special_permission_drop_description :=
    Absent; nse_major_codes := Absent; nse_unit_codes := Absent; nse_minor_codes := Absent;
    nse_honor_program_codes := Absent; nse_unit_majors := Absent; nse_eligibility_text :=
    Absent; nse_open_to_text := Absent; nse_catalog_open_status := {| cso_value := Absent;
    cso_provenance := CatalogOpenStatusProvenance_CatalogSnapshotOnly |}; nse_occurrence_keys :=
    Present (sample_occurrence_key index <$> meetings)
  |}.

Definition sample_meeting (index : string) (ordinal : Z)
    (days : CatalogFieldKnowledge (list string)) (start end_ : Z)
    : NormalizedOccurrenceV1 :=
  {|
    noc_key := sample_occurrence_key index ordinal; noc_raw_code := Absent; noc_raw_description
    := Absent; noc_modality := Absent; noc_synchronicity := Present CatalogSynchronicity_Sync;
    noc_raw_day := Absent; noc_days := days; noc_raw_start_time := Absent; noc_raw_end_time :=
    Absent; noc_time := CatalogTimeKnowledgeV1_Known start end_; noc_start_date := Absent;
    noc_end_date := Absent; noc_campus := Absent; noc_campus_name := Absent; noc_building :=
    Absent; noc_room := Absent; noc_requiredness := CatalogRequiredness_Required; noc_kind :=
    CatalogOccurrenceKind_Scheduled; noc_evidence := CatalogOccurrenceEvidence_Physical;
    noc_normalization_reason := mkCatalogDiagnosticCode "SCHEDULED"
  |}.

Definition sample_online_meeting (index : string) (ordinal : Z)
    (synchronicity : CatalogFieldKnowledge CatalogSynchronicity) : NormalizedOccurrenceV1 :=
  {|
    noc_key := sample_occurrence_key index ordinal; noc_raw_code := Absent; noc_raw_description
    := Absent; noc_modality := Absent; noc_synchronicity := synchronicity; noc_raw_day :=
    Absent; noc_days := Absent; noc_raw_start_time := Absent; noc_raw_end_time := Absent;
    noc_time := CatalogTimeKnowledgeV1_Missing; noc_start_date := Absent; noc_end_date :=
    Absent; noc_campus := Absent; noc_campus_name := Absent; noc_building := Absent; noc_room :=
    Absent; noc_requiredness := CatalogRequiredness_UnknownRequiredness; noc_kind :=
    CatalogOccurrenceKind_Scheduled; noc_evidence := CatalogOccurrenceEvidence_Remote;
    noc_normalization_reason := mkCatalogDiagnosticCode "ONLINE"
  |}.

Definition sample_provenance : CatalogProvenanceV1 := {|
  cp_observation_id := 7%N; cp_source := CatalogSourceKind_RutgersCatalog; cp_target := sample_target;
  cp_observed_at := 0; cp_payload_digest := mkCatalogPayloadDigest "sha256:00" |}.

(** A catalog with one course of two sections; the first meets on Monday, the
    second on a day that was not observed. *)
Definition sample_course : string := "01:198:111".
Definition sample_catalog : NormalizedCatalogV1 := {|
  nca_contract_version := CatalogContractVersion_V1;
  nca_target := sample_target;
  nca_content_version := CatalogContentVersion_new 1;
  nca_provenance := sample_provenance;
  nca_course_groups := [sample_group sample_course];
  nca_course_variants := [sample_variant sample_course "INTRO COMPUTER SCI" ["06673"; "06672"]];
  nca_sections := [sample_section sample_course "06673" [0]; sample_section sample_course "06672" [0]];
  nca_occurrences := [
    sample_meeting "06672" 0 (Present ["M"]) 600 680;
    sample_meeting "06673" 0 (Unknown CatalogUnknownReason_NotObserved) 600 680]
|}.
