(* ===== verification/Match.v ===== *)
(** * Match outcomes and their aggregation

    The match contract (crates/bcsp-contracts/src/match_contract.rs), the
    outcome algebra of the domain (crates/bcsp-domain/src/match_result.rs) and
    the predicate evaluations of the query engine with their three-valued
    aggregates (crates/bcsp-query/src/evaluation.rs and knowledge.rs). *)

From S2P Require Import Prelude Ordering Identity Contracts CatalogData.

(** ** The match contract *)

Inductive MatchOutcome := MatchOutcome_Match | MatchOutcome_Uncertain | MatchOutcome_NoMatch.

Inductive MatchReasonCode :=
| MatchReasonCode_KnownMismatch
| MatchReasonCode_MissingReliableData
| MatchReasonCode_UnknownValue
| MatchReasonCode_Tba
| MatchReasonCode_ConflictingEvidence
| MatchReasonCode_InvalidValue
| MatchReasonCode_SourceUnavailable.

Definition MatchReasonCode_wire_name (code : MatchReasonCode) : string :=
  match code with
  | MatchReasonCode_KnownMismatch => "KNOWN_MISMATCH"
  | MatchReasonCode_MissingReliableData => "MISSING_RELIABLE_DATA"
  | MatchReasonCode_UnknownValue => "UNKNOWN_VALUE"
  | MatchReasonCode_Tba => "TBA"
  | MatchReasonCode_ConflictingEvidence => "CONFLICTING_EVIDENCE"
  | MatchReasonCode_InvalidValue => "INVALID_VALUE"
  | MatchReasonCode_SourceUnavailable => "SOURCE_UNAVAILABLE"
  end.

#[export] Instance MatchOutcome_eq_dec : EqDecision MatchOutcome.
Proof. solve_decision. Defined.
#[export] Instance MatchReasonCode_eq_dec : EqDecision MatchReasonCode.
Proof. solve_decision. Defined.

Definition is_known_mismatch (code : MatchReasonCode) : bool :=
  match code with MatchReasonCode_KnownMismatch => true | _ => false end.

Record ReasonField := mkReasonField { reason_field_str : string }.
Record MatchReason := { mr_code : MatchReasonCode; mr_field : ReasonField }.

Inductive MatchExplanationError :=
| MatchExplanationError_InvalidReasonField
| MatchExplanationError_MatchHasReasons
| MatchExplanationError_UncertainReasonContract
| MatchExplanationError_NoMatchReasonContract.

Definition reason_field_byte (index : nat) (byte : Ascii.ascii) : bool :=
  is_ascii_alphanumeric byte
  || (bool_decide (0 < index)%nat && (byte_is 46 byte || byte_is 95 byte || byte_is 45 byte)).

Definition ReasonField_try_from (value : string) : result MatchExplanationError ReasonField :=
  if bool_decide (value = "") || bool_decide (64 < String.length value)%nat
     || negb (forallb (λ p, reason_field_byte p.1 p.2) (imap pair (bytes value)))
  then Err MatchExplanationError_InvalidReasonField
  else Ok (mkReasonField value).

Record MatchExplanation := { me_outcome : MatchOutcome; me_reasons : list MatchReason }.

Definition MatchExplanation_try_new (outcome : MatchOutcome) (reasons : list MatchReason)
    : result MatchExplanationError MatchExplanation :=
  match outcome with
  | MatchOutcome_Match =>
      if bool_decide (reasons ≠ []) then Err MatchExplanationError_MatchHasReasons
      else Ok {| me_outcome := outcome; me_reasons := reasons |}
  | MatchOutcome_Uncertain =>
      if bool_decide (reasons = []) || existsb (λ r, is_known_mismatch (mr_code r)) reasons
      then Err MatchExplanationError_UncertainReasonContract
      else Ok {| me_outcome := outcome; me_reasons := reasons |}
  | MatchOutcome_NoMatch =>
      if negb (existsb (λ r, is_known_mismatch (mr_code r)) reasons)
      then Err MatchExplanationError_NoMatchReasonContract
      else Ok {| me_outcome := outcome; me_reasons := reasons |}
  end.

(** ** The outcome algebra of the domain *)

Definition outcome_and (l r : MatchOutcome) : MatchOutcome :=
  match l, r with
  | MatchOutcome_NoMatch, _ | _, MatchOutcome_NoMatch => MatchOutcome_NoMatch
  | MatchOutcome_Uncertain, _ | _, MatchOutcome_Uncertain => MatchOutcome_Uncertain
  | MatchOutcome_Match, MatchOutcome_Match => MatchOutcome_Match
  end.

Definition outcome_or (l r : MatchOutcome) : MatchOutcome :=
  match l, r with
  | MatchOutcome_Match, _ | _, MatchOutcome_Match => MatchOutcome_Match
  | MatchOutcome_Uncertain, _ | _, MatchOutcome_Uncertain => MatchOutcome_Uncertain
  | MatchOutcome_NoMatch, MatchOutcome_NoMatch => MatchOutcome_NoMatch
  end.

Definition outcome_all (values : list MatchOutcome) : MatchOutcome :=
  foldl outcome_and MatchOutcome_Match values.
Definition outcome_any (values : list MatchOutcome) : MatchOutcome :=
  foldl outcome_or MatchOutcome_NoMatch values.

Definition evaluate_active_dimension (values : list MatchOutcome) : MatchOutcome :=
  match values with [] => MatchOutcome_Match | _ => outcome_any values end.

(** ** Predicate evaluations *)

Record PredicateEvaluation := {
  pe_outcome : MatchOutcome;
  pe_reasons : list MatchReason
}.

(** The fields are compile-time identifiers: [ReasonField::try_from] accepts
    each of them, as [reason_fields_valid] of [Filters] checks. *)
Definition stable_reason (field : string) (code : MatchReasonCode) : MatchReason :=
  {| mr_code := code; mr_field := mkReasonField field |}.

Definition matched : PredicateEvaluation :=
  {| pe_outcome := MatchOutcome_Match; pe_reasons := [] |}.
Definition uncertain (field : string) (code : MatchReasonCode) : PredicateEvaluation :=
  {| pe_outcome := MatchOutcome_Uncertain; pe_reasons := [stable_reason field code] |}.
Definition no_match (field : string) : PredicateEvaluation :=
  {| pe_outcome := MatchOutcome_NoMatch;
     pe_reasons := [stable_reason field MatchReasonCode_KnownMismatch] |}.

(** [None] is the panic of the [expect]. *)
Definition into_explanation (e : PredicateEvaluation) : option MatchExplanation :=
  match MatchExplanation_try_new (pe_outcome e) (pe_reasons e) with
  | Ok explanation => Some explanation
  | Err _ => None
  end.

(** ** Aggregates *)

Definition reason_key (r : MatchReason) : string * string :=
  (MatchReasonCode_wire_name (mr_code r), reason_field_str (mr_field r)).

(** The first reason of every key, in order. *)
Fixpoint first_reasons (seen : gset (string * string)) (reasons : list MatchReason)
    : list MatchReason :=
  match reasons with
  | [] => []
  | reason :: reasons =>
      if bool_decide (reason_key reason ∈ seen) then first_reasons seen reasons
      else reason :: first_reasons ({[ reason_key reason ]} ∪ seen) reasons
  end.

Definition compare_reasons (l r : MatchReason) : comparison :=
  cmp_then (rcmp (reason_field_str (mr_field l)) (reason_field_str (mr_field r)))
           (rcmp (MatchReasonCode_wire_name (mr_code l)) (MatchReasonCode_wire_name (mr_code r))).

Definition aggregate (outcome : MatchOutcome) (evaluations : list PredicateEvaluation)
    (uncertainty_only : bool) : PredicateEvaluation :=
  let reasons :=
    filter (λ r, negb uncertainty_only || negb (is_known_mismatch (mr_code r)))
      (e ← evaluations; pe_reasons e) in
  {| pe_outcome := outcome; pe_reasons := sort_by compare_reasons (first_reasons ∅ reasons) |}.

Definition has_outcome (outcome : MatchOutcome) (evaluations : list PredicateEvaluation) : bool :=
  existsb (λ e, bool_decide (pe_outcome e = outcome)) evaluations.

Definition and_all (evaluations : list PredicateEvaluation) : PredicateEvaluation :=
  if has_outcome MatchOutcome_NoMatch evaluations
  then aggregate MatchOutcome_NoMatch evaluations false
  else if has_outcome MatchOutcome_Uncertain evaluations
  then aggregate MatchOutcome_Uncertain evaluations false
  else matched.

Definition or_active (evaluations : list PredicateEvaluation) : PredicateEvaluation :=
  if bool_decide (evaluations = []) || has_outcome MatchOutcome_Match evaluations
  then matched
  else if has_outcome MatchOutcome_Uncertain evaluations
  then aggregate MatchOutcome_Uncertain evaluations true
  else aggregate MatchOutcome_NoMatch evaluations false.

(** ** Field knowledge (knowledge.rs) *)

Definition unknown_reason_code (reason : CatalogUnknownReason) : MatchReasonCode :=
  match reason with
  | CatalogUnknownReason_Missing | CatalogUnknownReason_ExplicitNull
  | CatalogUnknownReason_SparseEvidence | CatalogUnknownReason_NotObserved =>
      MatchReasonCode_MissingReliableData
  | CatalogUnknownReason_Malformed => MatchReasonCode_InvalidValue
  | CatalogUnknownReason_SourceUnavailable => MatchReasonCode_SourceUnavailable
  | CatalogUnknownReason_ConflictingEvidence => MatchReasonCode_ConflictingEvidence
  end.

Definition evaluate_known {T : Type} (knowledge : CatalogFieldKnowledge T) (field : string)
    (predicate : T → bool) : PredicateEvaluation :=
  match knowledge with
  | Present value => if predicate value then matched else no_match field
  | ExplicitNull | Absent => uncertain field MatchReasonCode_MissingReliableData
  | Unknown reason => uncertain field (unknown_reason_code reason)
  end.

(** * Correctness *)

#[export] Instance ReasonField_eq_dec : EqDecision ReasonField.
Proof. solve_decision. Defined.
#[export] Instance MatchReason_eq_dec : EqDecision MatchReason.
Proof. solve_decision. Defined.
#[export] Instance PredicateEvaluation_eq_dec : EqDecision PredicateEvaluation.
Proof. solve_decision. Defined.

(** An evaluation the match contract accepts. *)
Definition evaluation_valid (e : PredicateEvaluation) : Prop :=
  match pe_outcome e with
  | MatchOutcome_Match => pe_reasons e = []
  | MatchOutcome_Uncertain =>
      pe_reasons e ≠ [] ∧ ∀ r, r ∈ pe_reasons e → mr_code r ≠ MatchReasonCode_KnownMismatch
  | MatchOutcome_NoMatch => ∃ r, r ∈ pe_reasons e ∧ mr_code r = MatchReasonCode_KnownMismatch
  end.

Lemma is_known_mismatch_true code :
  is_known_mismatch code = true ↔ code = MatchReasonCode_KnownMismatch.
Proof. by destruct code. Qed.

Lemma mismatch_among reasons :
  existsb (λ r, is_known_mismatch (mr_code r)) reasons = true ↔
  ∃ r, r ∈ reasons ∧ mr_code r = MatchReasonCode_KnownMismatch.
Proof.
  rewrite existsb_exists. setoid_rewrite is_known_mismatch_true.
  by setoid_rewrite list_elem_of_In.
Qed.

(** The contract accepts exactly the valid evaluations, and keeps them as they are. *)
Lemma into_explanation_valid e :
  evaluation_valid e ↔
  into_explanation e = Some {| me_outcome := pe_outcome e; me_reasons := pe_reasons e |}.
Proof.
  destruct e as [o rs]. unfold into_explanation, MatchExplanation_try_new, evaluation_valid; simpl.
  destruct o; simpl.
  - by case_bool_decide.
  - case_bool_decide; simpl; [naive_solver|].
    destruct (existsb _ rs) eqn:E; simpl.
    + apply mismatch_among in E. naive_solver.
    + apply not_true_iff_false in E. rewrite mismatch_among in E. naive_solver.
  - destruct (existsb _ rs) eqn:E; simpl.
    + apply mismatch_among in E. naive_solver.
    + apply not_true_iff_false in E. rewrite mismatch_among in E. naive_solver.
Qed.

Lemma evaluation_valid_some e : evaluation_valid e → is_Some (into_explanation e).
Proof. rewrite into_explanation_valid. eauto. Qed.

Lemma matched_valid : evaluation_valid matched.
Proof. done. Qed.

Lemma uncertain_valid field code :
  code ≠ MatchReasonCode_KnownMismatch → evaluation_valid (uncertain field code).
Proof. intros Hc. split; [done|]. simpl. by intros r ->%list_elem_of_singleton. Qed.

Lemma no_match_valid field : evaluation_valid (no_match field).
Proof. eexists. split; [by left|done]. Qed.

Lemma unknown_reason_not_mismatch reason :
  unknown_reason_code reason ≠ MatchReasonCode_KnownMismatch.
Proof. by destruct reason. Qed.

Create HintDb matchdb.
#[export] Hint Resolve matched_valid uncertain_valid no_match_valid unknown_reason_not_mismatch : matchdb.
#[export] Hint Extern 1 (_ ≠ MatchReasonCode_KnownMismatch) => discriminate : matchdb.

Lemma evaluate_known_valid {T} (k : CatalogFieldKnowledge T) field p :
  evaluation_valid (evaluate_known k field p).
Proof. destruct k as [[v| |]|r]; simpl; [destruct (p v)|..]; auto with matchdb. Qed.
#[export] Hint Resolve evaluate_known_valid : matchdb.

(** *** Reasons of an aggregate *)

Lemma wire_name_inj c d : MatchReasonCode_wire_name c = MatchReasonCode_wire_name d → c = d.
Proof. by destruct c, d. Qed.

Lemma reason_key_inj r r' : reason_key r = reason_key r' → r = r'.
Proof. destruct r as [c [f]], r' as [c' [f']]. intros [= ->%wire_name_inj ->]. done. Qed.

#[export] Instance compare_reasons_comparator : Comparator compare_reasons.
Proof. unfold compare_reasons. apply cmp_then_comparator; apply cmp_on_comparator; apply _. Qed.

Lemma compare_reasons_separates : separates compare_reasons (λ _, True).
Proof.
  intros [c [f]] [c' [f']] _ _ [E1 E2]%cmp_then_Eq. apply rcmp_eq in E1, E2. simpl in *.
  apply wire_name_inj in E2. by subst.
Qed.

Lemma elem_of_first_reasons seen reasons r :
  r ∈ first_reasons seen reasons ↔ r ∈ reasons ∧ reason_key r ∉ seen.
Proof.
  revert seen. induction reasons as [|a l IH]; intros seen; simpl; [set_solver|].
  case_bool_decide as Ha; rewrite ?elem_of_cons, IH; [naive_solver|].
  rewrite not_elem_of_union, not_elem_of_singleton. split.
  - naive_solver.
  - intros [[->|Hin] Hr]; [by left|]. destruct (decide (reason_key r = reason_key a)) as [->%reason_key_inj|].
    + by left.
    + by right.
Qed.

Lemma NoDup_first_reasons seen reasons : NoDup (first_reasons seen reasons).
Proof.
  revert seen. induction reasons as [|a l IH]; intros seen; simpl; [constructor|].
  case_bool_decide; [done|]. constructor; [|done]. rewrite elem_of_first_reasons. set_solver.
Qed.

Lemma elem_of_aggregate o es u r :
  r ∈ pe_reasons (aggregate o es u) ↔
  (u = true → mr_code r ≠ MatchReasonCode_KnownMismatch) ∧ ∃ e, e ∈ es ∧ r ∈ pe_reasons e.
Proof.
  unfold aggregate; simpl. rewrite elem_of_sort_by, elem_of_first_reasons by apply _.
  rewrite list_elem_of_filter, list_elem_of_bind, Is_true_true, orb_true_iff, !negb_true_iff.
  rewrite <-(not_true_iff_false (is_known_mismatch _)), is_known_mismatch_true.
  destruct u; set_solver.
Qed.

Lemma aggregate_sorted o es u :
  StronglySorted (λ x y, compare_reasons x y = Lt) (pe_reasons (aggregate o es u)).
Proof.
  unfold aggregate; simpl. set (l := first_reasons _ _).
  assert (NoDup (sort_by compare_reasons l)) as Hnd
    by (rewrite sort_by_perm; apply NoDup_first_reasons).
  pose proof (sort_by_sorted compare_reasons l) as Hs. revert Hnd.
  induction Hs as [|x l' Hs IH Hx]; intros Hnd; constructor.
  - apply IH. by apply NoDup_cons in Hnd as [_ ?].
  - apply NoDup_cons in Hnd as [Hnin _]. apply Forall_forall. intros y Hy.
    rewrite Forall_forall in Hx. specialize (Hx y Hy). unfold cmp_le in Hx.
    destruct (compare_reasons x y) eqn:E; [|done|done].
    apply compare_reasons_separates in E; [|done|done]. by subst.
Qed.

(** An aggregate depends on its outcome and its set of reasons only. *)
Lemma aggregate_eq o es u es' u' :
  (∀ r, r ∈ pe_reasons (aggregate o es u) ↔ r ∈ pe_reasons (aggregate o es' u')) →
  aggregate o es u = aggregate o es' u'.
Proof.
  intros Heq. unfold aggregate in *. f_equal.
  eapply (sorted_lt_unique compare_reasons); [apply (aggregate_sorted o es u)|
    apply (aggregate_sorted o es' u')|exact Heq].
Qed.

(** *** The aggregates are Kleene's connectives *)

Lemma has_outcome_true o es : has_outcome o es = true ↔ ∃ e, e ∈ es ∧ pe_outcome e = o.
Proof.
  unfold has_outcome. rewrite existsb_exists. setoid_rewrite bool_decide_eq_true.
  by setoid_rewrite list_elem_of_In.
Qed.

Lemma foldl_outcome_and a l :
  foldl outcome_and a l =
  if bool_decide (MatchOutcome_NoMatch ∈ a :: l) then MatchOutcome_NoMatch
  else if bool_decide (MatchOutcome_Uncertain ∈ a :: l) then MatchOutcome_Uncertain
  else MatchOutcome_Match.
Proof.
  revert a. induction l as [|b l IH]; intros a; simpl.
  - destruct a; reflexivity.
  - rewrite IH. destruct a, b; simpl; repeat case_bool_decide; set_solver.
Qed.

Lemma foldl_outcome_or a l :
  foldl outcome_or a l =
  if bool_decide (MatchOutcome_Match ∈ a :: l) then MatchOutcome_Match
  else if bool_decide (MatchOutcome_Uncertain ∈ a :: l) then MatchOutcome_Uncertain
  else MatchOutcome_NoMatch.
Proof.
  revert a. induction l as [|b l IH]; intros a; simpl.
  - destruct a; reflexivity.
  - rewrite IH. destruct a, b; simpl; repeat case_bool_decide; set_solver.
Qed.

Lemma has_outcome_elem o es : has_outcome o es = bool_decide (o ∈ pe_outcome <$> es).
Proof.
  apply eq_true_iff_eq. rewrite has_outcome_true, bool_decide_eq_true, list_elem_of_fmap. naive_solver.
Qed.

Lemma and_all_outcome es : pe_outcome (and_all es) = outcome_all (pe_outcome <$> es).
Proof.
  unfold and_all, outcome_all. rewrite foldl_outcome_and, !has_outcome_elem.
  repeat case_bool_decide; simpl; set_solver.
Qed.

Lemma or_active_outcome es : pe_outcome (or_active es) = evaluate_active_dimension (pe_outcome <$> es).
Proof.
  unfold or_active, evaluate_active_dimension, outcome_any.
  destruct es as [|e es]; [done|]. rewrite bool_decide_eq_false_2 by done. cbn [orb].
  rewrite !has_outcome_elem. change (pe_outcome <$> e :: es) with (pe_outcome e :: (pe_outcome <$> es)).
  cbv iota. rewrite foldl_outcome_or. repeat case_bool_decide; simpl; set_solver.
Qed.

Lemma elem_of_and_all es r :
  Forall evaluation_valid es →
  r ∈ pe_reasons (and_all es) ↔ ∃ e, e ∈ es ∧ r ∈ pe_reasons e.
Proof.
  intros Hv. unfold and_all.
  destruct (has_outcome MatchOutcome_NoMatch es) eqn:En; [rewrite elem_of_aggregate; naive_solver|].
  destruct (has_outcome MatchOutcome_Uncertain es) eqn:Eu; [rewrite elem_of_aggregate; naive_solver|].
  simpl. split; [by intros ?%elem_of_nil|]. intros (e & He & Hr).
  rewrite Forall_forall in Hv. specialize (Hv e He). unfold evaluation_valid in Hv.
  apply not_true_iff_false in En, Eu. rewrite has_outcome_true in En, Eu.
  destruct (pe_outcome e) eqn:Ho; [by rewrite Hv in Hr|naive_solver..].
Qed.

Lemma and_all_valid es : Forall evaluation_valid es → evaluation_valid (and_all es).
Proof.
  intros Hv. pose proof (elem_of_and_all es) as Hr. rewrite Forall_forall in Hv.
  unfold evaluation_valid. rewrite and_all_outcome. unfold outcome_all. rewrite foldl_outcome_and.
  case_bool_decide as Hn; [|case_bool_decide as Hu].
  - assert (∃ e, e ∈ es ∧ pe_outcome e = MatchOutcome_NoMatch) as (e & He & Ho) by set_solver.
    specialize (Hv e He) as Hve. unfold evaluation_valid in Hve. rewrite Ho in Hve.
    destruct Hve as (r & ? & ?). exists r. rewrite Hr by by apply Forall_forall. eauto.
  - assert (∃ e, e ∈ es ∧ pe_outcome e = MatchOutcome_Uncertain) as (e & He & Ho) by set_solver.
    split.
    + specialize (Hv e He) as Hve. unfold evaluation_valid in Hve. rewrite Ho in Hve.
      destruct Hve as [Hne _]. destruct (pe_reasons e) as [|r rs] eqn:E; [done|].
      assert (r ∈ pe_reasons (and_all es)) as Hin.
      { rewrite Hr by by apply Forall_forall. exists e. rewrite E. split; [done|left]. }
      intros Hnil. rewrite Hnil in Hin. by apply elem_of_nil in Hin.
    + intros r. rewrite Hr by by apply Forall_forall. intros (e' & He' & Hr').
      specialize (Hv e' He'). unfold evaluation_valid in Hv.
      destruct (pe_outcome e') eqn:Ho'; [by rewrite Hv in Hr'; apply elem_of_nil in Hr'|naive_solver|].
      exfalso. apply Hn. set_solver.
  - unfold and_all. rewrite !has_outcome_elem, !bool_decide_eq_false_2 by set_solver. done.
Qed.

Lemma elem_of_or_active es r :
  r ∈ pe_reasons (or_active es) ↔
  es ≠ [] ∧ (∀ e, e ∈ es → pe_outcome e ≠ MatchOutcome_Match) ∧
  ((∃ e, e ∈ es ∧ pe_outcome e = MatchOutcome_Uncertain) → mr_code r ≠ MatchReasonCode_KnownMismatch) ∧
  ∃ e, e ∈ es ∧ r ∈ pe_reasons e.
Proof.
  unfold or_active. destruct es as [|e0 es']; [simpl; set_solver|]. set (es := e0 :: es').
  rewrite bool_decide_eq_false_2 by done. cbn [orb].
  destruct (has_outcome MatchOutcome_Match es) eqn:Em.
  { apply has_outcome_true in Em as (e & He & Ho). simpl. split; [by intros ?%elem_of_nil|].
    intros (_ & Hall & _). by destruct (Hall e He). }
  apply not_true_iff_false in Em. rewrite has_outcome_true in Em.
  destruct (has_outcome MatchOutcome_Uncertain es) eqn:Eu.
  - apply has_outcome_true in Eu. rewrite elem_of_aggregate. naive_solver.
  - apply not_true_iff_false in Eu. rewrite has_outcome_true in Eu. rewrite elem_of_aggregate. naive_solver.
Qed.

Lemma or_active_valid es : Forall evaluation_valid es → evaluation_valid (or_active es).
Proof.
  intros Hv. rewrite Forall_forall in Hv. pose proof (elem_of_or_active es) as Hr. unfold or_active in *.
  destruct es as [|e0 es']; [apply matched_valid|]. set (es := e0 :: es') in *.
  rewrite bool_decide_eq_false_2 in * by done. cbn [orb] in *.
  destruct (has_outcome MatchOutcome_Match es) eqn:Em; [apply matched_valid|].
  apply not_true_iff_false in Em. rewrite has_outcome_true in Em.
  destruct (has_outcome MatchOutcome_Uncertain es) eqn:Eu.
  - apply has_outcome_true in Eu as (e & He & Ho). specialize (Hv e He) as Hve.
    unfold evaluation_valid in Hve. rewrite Ho in Hve. destruct Hve as [Hne Hcode].
    split; [|intros r ?%Hr; naive_solver].
    destruct (pe_reasons e) as [|r rs] eqn:E; [done|]. intros Hnil.
    assert (r ∈ pe_reasons (aggregate MatchOutcome_Uncertain es true)) as Hin.
    { apply elem_of_aggregate. split; [intros _; apply Hcode; left|]. exists e. rewrite E. split; [done|left]. }
    rewrite Hnil in Hin. by apply elem_of_nil in Hin.
  - apply not_true_iff_false in Eu. rewrite has_outcome_true in Eu.
    assert (pe_outcome e0 = MatchOutcome_NoMatch) as Ho.
    { destruct (pe_outcome e0) eqn:E; [|..|done]; exfalso;
        [apply Em|apply Eu]; exists e0; (split; [left|done]). }
    specialize (Hv e0 ltac:(left)). unfold evaluation_valid in Hv. rewrite Ho in Hv.
    destruct Hv as (r & Hin & Hc). exists r. split; [|done].
    apply elem_of_aggregate. split; [done|]. exists e0. split; [left|done].
Qed.

#[export] Hint Resolve and_all_valid or_active_valid : matchdb.

(** An aggregate is its outcome together with the sorted set of its reasons. *)
Lemma evaluation_eq e e' :
  pe_outcome e = pe_outcome e' →
  StronglySorted (λ x y, compare_reasons x y = Lt) (pe_reasons e) →
  StronglySorted (λ x y, compare_reasons x y = Lt) (pe_reasons e') →
  (∀ r, r ∈ pe_reasons e ↔ r ∈ pe_reasons e') → e = e'.
Proof.
  destruct e as [o rs], e' as [o' rs']; simpl. intros -> Hs Hs' Heq. f_equal.
  by apply (sorted_lt_unique compare_reasons).
Qed.

Lemma and_all_sorted es : StronglySorted (λ x y, compare_reasons x y = Lt) (pe_reasons (and_all es)).
Proof.
  unfold and_all. repeat case_match; [apply aggregate_sorted..|constructor].
Qed.

Lemma or_active_sorted es : StronglySorted (λ x y, compare_reasons x y = Lt) (pe_reasons (or_active es)).
Proof.
  unfold or_active. repeat case_match; [constructor|apply aggregate_sorted..].
Qed.

Lemma outcome_all_app l l' : outcome_all (l ++ l') = outcome_and (outcome_all l) (outcome_all l').
Proof.
  unfold outcome_all. rewrite !foldl_outcome_and. repeat case_bool_decide; simpl; set_solver.
Qed.

Lemma outcome_any_app l l' : outcome_any (l ++ l') = outcome_or (outcome_any l) (outcome_any l').
Proof.
  unfold outcome_any. rewrite !foldl_outcome_or. repeat case_bool_decide; simpl; set_solver.
Qed.

Lemma outcome_all_perm l l' : l ≡ₚ l' → outcome_all l = outcome_all l'.
Proof.
  intros Hp. assert (∀ o, o ∈ l ↔ o ∈ l') by (intros; by rewrite Hp).
  unfold outcome_all. rewrite !foldl_outcome_and. repeat case_bool_decide; set_solver.
Qed.

Lemma outcome_any_perm l l' : l ≡ₚ l' → outcome_any l = outcome_any l'.
Proof.
  intros Hp. assert (∀ o, o ∈ l ↔ o ∈ l') by (intros; by rewrite Hp).
  unfold outcome_any. rewrite !foldl_outcome_or. repeat case_bool_decide; set_solver.
Qed.

Lemma or_active_nonempty es :
  es ≠ [] → pe_outcome (or_active es) = outcome_any (pe_outcome <$> es).
Proof. rewrite or_active_outcome. by destruct es. Qed.

Lemma and_all_app es fs :
  Forall evaluation_valid (es ++ fs) → and_all (es ++ fs) = and_all [and_all es; and_all fs].
Proof.
  intros Hv. pose proof Hv as [Hes Hfs]%Forall_app. apply evaluation_eq; [|apply and_all_sorted..|].
  - rewrite !and_all_outcome, fmap_app, outcome_all_app. simpl. rewrite !and_all_outcome.
    unfold outcome_all at 3. simpl. by destruct (outcome_all (pe_outcome <$> es)), (outcome_all (pe_outcome <$> fs)).
  - intros r. rewrite !elem_of_and_all by eauto with matchdb.
    setoid_rewrite elem_of_app. setoid_rewrite elem_of_cons. setoid_rewrite list_elem_of_singleton.
    split.
    + intros (e & [He|He] & Hr); [exists (and_all es)|exists (and_all fs)];
        (split; [auto|]); apply elem_of_and_all; eauto.
    + intros (e & [->| ->] & Hr); apply elem_of_and_all in Hr as (e & He & Hr); eauto.
Qed.

(** A reason of one of the evaluations. *)
Definition among (r : MatchReason) (es : list PredicateEvaluation) : Prop :=
  ∃ e, e ∈ es ∧ r ∈ pe_reasons e.

Lemma among_app r es fs : among r (es ++ fs) ↔ among r es ∨ among r fs.
Proof. unfold among. setoid_rewrite elem_of_app. naive_solver. Qed.

Lemma among_pair r e f : among r [e; f] ↔ r ∈ pe_reasons e ∨ r ∈ pe_reasons f.
Proof. unfold among. setoid_rewrite elem_of_cons. setoid_rewrite list_elem_of_singleton. naive_solver. Qed.

(** The reasons of a disjunction, by its outcome. *)
Lemma or_active_reasons es r :
  es ≠ [] →
  r ∈ pe_reasons (or_active es) ↔
  match pe_outcome (or_active es) with
  | MatchOutcome_Match => False
  | MatchOutcome_Uncertain => mr_code r ≠ MatchReasonCode_KnownMismatch ∧ among r es
  | MatchOutcome_NoMatch => among r es
  end.
Proof.
  intros Hes. unfold or_active, among. rewrite bool_decide_eq_false_2 by done. cbn [orb].
  destruct (has_outcome MatchOutcome_Match es); [simpl; by rewrite elem_of_nil|].
  destruct (has_outcome MatchOutcome_Uncertain es); rewrite elem_of_aggregate; simpl; naive_solver.
Qed.

Lemma or_active_app es fs :
  es ≠ [] → fs ≠ [] → or_active (es ++ fs) = or_active [or_active es; or_active fs].
Proof.
  intros Hes Hfs. assert (es ++ fs ≠ []) as Hall by by destruct es.
  assert (pe_outcome (or_active (es ++ fs)) =
    outcome_or (pe_outcome (or_active es)) (pe_outcome (or_active fs))) as Ho.
  { rewrite !or_active_nonempty by done. by rewrite fmap_app, outcome_any_app. }
  assert (pe_outcome (or_active [or_active es; or_active fs]) =
    outcome_or (pe_outcome (or_active es)) (pe_outcome (or_active fs))) as Ho'.
  { rewrite (or_active_outcome [_; _]). simpl.
    by destruct (pe_outcome (or_active es)), (pe_outcome (or_active fs)). }
  apply evaluation_eq; [by rewrite Ho|apply or_active_sorted..|].
  intros r. rewrite (or_active_reasons [_; _]), (or_active_reasons (es ++ fs)), Ho, Ho' by done.
  pose proof (among_app r es fs) as Happ. pose proof (among_pair r (or_active es) (or_active fs)) as Hpair.
  pose proof (or_active_reasons es r Hes) as He. pose proof (or_active_reasons fs r Hfs) as Hf.
  destruct (pe_outcome (or_active es)), (pe_outcome (or_active fs)); simpl; tauto.
Qed.

(** The three-valued aggregates are Kleene's conjunction and disjunction (an
    empty disjunction is an inactive dimension and matches); their reasons form
    a strictly sorted set, so that they do not depend on the order of the
    evaluations and may be nested freely; and on evaluations the match contract
    accepts they give one it accepts, so that converting it never panics. *)
Theorem three_valued_aggregates (es fs : list PredicateEvaluation) :
  Forall evaluation_valid (es ++ fs) →
  pe_outcome (and_all es) = outcome_all (pe_outcome <$> es) ∧
  pe_outcome (or_active es) = evaluate_active_dimension (pe_outcome <$> es) ∧
  (∀ es', es' ≡ₚ es → and_all es' = and_all es ∧ or_active es' = or_active es) ∧
  and_all (es ++ fs) = and_all [and_all es; and_all fs] ∧
  (es ≠ [] → fs ≠ [] → or_active (es ++ fs) = or_active [or_active es; or_active fs]) ∧
  is_Some (into_explanation (and_all es)) ∧ is_Some (into_explanation (or_active es)) ∧
  StronglySorted (λ x y, compare_reasons x y = Lt) (pe_reasons (and_all es)) ∧
  StronglySorted (λ x y, compare_reasons x y = Lt) (pe_reasons (or_active es)).
Proof.
  intros Hv. pose proof Hv as [Hes _]%Forall_app.
  split_and!; auto using and_all_outcome, or_active_outcome, and_all_app, or_active_app,
    and_all_sorted, or_active_sorted, evaluation_valid_some, and_all_valid, or_active_valid.
  intros es' Hperm. assert (∀ e, e ∈ es' ↔ e ∈ es) as Hin by (intros; by rewrite Hperm).
  assert (es' = [] ↔ es = []) as Hnil by (split; intros ->;
    [by apply Permutation_nil_l in Hperm|by apply Permutation_nil_r in Hperm]).
  split; (apply evaluation_eq; [|auto using and_all_sorted, or_active_sorted..|]).
  - rewrite !and_all_outcome. apply outcome_all_perm. by rewrite Hperm.
  - intros r. rewrite !elem_of_and_all by (rewrite ?Hperm; done). by setoid_rewrite Hin.
  - destruct (decide (es = [])) as [Hn|Hn]; [apply Hnil in Hn as Hn'; by subst|].
    rewrite !or_active_nonempty by tauto. apply outcome_any_perm. by rewrite Hperm.
  - intros r. rewrite !elem_of_or_active. setoid_rewrite Hin. by rewrite Hnil.
Qed.

Lemma three_valued_aggregates_witness :
  let u := uncertain "FLT-S06" MatchReasonCode_Tba in
  let n := no_match "FLT-S03" in
  Forall evaluation_valid ([u; n] ++ [matched]) ∧
  and_all [n; u] = and_all [u; n] ∧ pe_outcome (and_all [u; n]) = MatchOutcome_NoMatch ∧
  or_active [u; n] = u.
Proof.
  intros u n.
  assert (Forall evaluation_valid ([u; n] ++ [matched])) as Hv.
  { repeat constructor; [done|by intros r ->%list_elem_of_singleton|].
    exists (stable_reason "FLT-S03" MatchReasonCode_KnownMismatch). split; [left|done]. }
  split; [exact Hv|].
  destruct (three_valued_aggregates [u; n] [matched] Hv) as (Ha & _ & Hp & _).
  split; [exact (proj1 (Hp [n; u] ltac:(apply Permutation_swap)))|]. split; [exact Ha|].
  vm_compute. reflexivity.
Defined.
