(* ===== verification/Filters.v ===== *)
(** * Filters, requests and responses of a query
    (crates/bcsp-contracts/src/query.rs)

    The filter fields, the validated filter values and their normal form, page
    and sort requests, and the records of a response. *)

From S2P Require Import Prelude Ordering Identity RustStr Contracts CatalogData Match.

(** ** Limits *)

Definition MAX_PAGE_SIZE : Z := 200.
Definition DEFAULT_PAGE_SIZE : Z := 25.
Definition MAX_FILTER_VALUES_PER_FIELD : Z := 100.
Definition MAX_AVAILABILITY_WINDOWS : Z := 64.
Definition MAX_TOTAL_FILTER_VALUES : Z := 512.
Definition FILTER_TOKEN_MAX_BYTES : nat := 256.

Inductive QueryContractVersion :=
| QueryContractVersion_V1 | QueryContractVersion_V2 | QueryContractVersion_V3.

Definition QUERY_CONTRACT_VERSION : QueryContractVersion := QueryContractVersion_V3.

(** ** Filter fields *)

Inductive FilterFieldId :=
| FilterFieldId_CourseTerm
| FilterFieldId_CourseCampus
| FilterFieldId_CourseSubject
| FilterFieldId_CourseText
| FilterFieldId_CourseNumberBand
| FilterFieldId_CourseLevel
| FilterFieldId_CourseCredits
| FilterFieldId_CourseCoreCode
| FilterFieldId_CoursePrerequisite
| FilterFieldId_SectionIndex
| FilterFieldId_SectionOpenStatus
| FilterFieldId_SectionModality
| FilterFieldId_SectionSynchronicity
| FilterFieldId_SectionInstructor
| FilterFieldId_SectionAvailability
| FilterFieldId_SectionMeetingLocation
| FilterFieldId_SectionExam
| FilterFieldId_SectionPermission.

Definition FilterFieldId_ALL : list FilterFieldId := [
  FilterFieldId_CourseTerm; FilterFieldId_CourseCampus; FilterFieldId_CourseSubject;
  FilterFieldId_CourseText; FilterFieldId_CourseNumberBand; FilterFieldId_CourseLevel;
  FilterFieldId_CourseCredits; FilterFieldId_CourseCoreCode; FilterFieldId_CoursePrerequisite;
  FilterFieldId_SectionIndex; FilterFieldId_SectionOpenStatus; FilterFieldId_SectionModality;
  FilterFieldId_SectionSynchronicity; FilterFieldId_SectionInstructor;
  FilterFieldId_SectionAvailability; FilterFieldId_SectionMeetingLocation;
  FilterFieldId_SectionExam; FilterFieldId_SectionPermission].

Definition wire_name (id : FilterFieldId) : string :=
  match id with
  | FilterFieldId_CourseTerm => "FLT-C01"
  | FilterFieldId_CourseCampus => "FLT-C02"
  | FilterFieldId_CourseSubject => "FLT-C03"
  | FilterFieldId_CourseText => "FLT-C04"
  | FilterFieldId_CourseNumberBand => "FLT-C05"
  | FilterFieldId_CourseLevel => "FLT-C06"
  | FilterFieldId_CourseCredits => "FLT-C07"
  | FilterFieldId_CourseCoreCode => "FLT-C08"
  | FilterFieldId_CoursePrerequisite => "FLT-C09"
  | FilterFieldId_SectionIndex => "FLT-S01"
  | FilterFieldId_SectionOpenStatus => "FLT-S03"
  | FilterFieldId_SectionModality => "FLT-S04a"
  | FilterFieldId_SectionSynchronicity => "FLT-S04b"
  | FilterFieldId_SectionInstructor => "FLT-S05"
  | FilterFieldId_SectionAvailability => "FLT-S06"
  | FilterFieldId_SectionMeetingLocation => "FLT-S07"
  | FilterFieldId_SectionExam => "FLT-S09"
  | FilterFieldId_SectionPermission => "FLT-S10"
  end.

#[export] Instance FilterFieldId_eq_dec : EqDecision FilterFieldId.
Proof. solve_decision. Defined.

(** ** Filter values *)

Record FilterTokenV1 := mkFilterToken { token_str : string }.

Inductive FilterTokenError := mkFilterTokenError.

(** [str::chars().any(char::is_control)]: U+0000..U+001F and U+007F..U+009F. *)
Fixpoint has_control (s : string) : bool :=
  match s with
  | EmptyString => false
  | String a s' =>
      byte_in 0 31 a || byte_is 127 a
      || match s' with String b _ => byte_is 194 a && byte_in 128 159 b | EmptyString => false end
      || has_control s'
  end.

Definition validate_filter_string (value : string) (max_bytes : nat) : bool :=
  bool_decide (value ≠ "") && bool_decide (String.length value ≤ max_bytes)%nat
  && bool_decide (trim value = value) && negb (has_control value).

Definition FilterTokenV1_try_from (value : string) : result FilterTokenError FilterTokenV1 :=
  let normalized := trim value in
  if validate_filter_string normalized FILTER_TOKEN_MAX_BYTES
  then Ok (mkFilterToken normalized) else Err mkFilterTokenError.

Definition make_ascii_uppercase (t : FilterTokenV1) : FilterTokenV1 :=
  mkFilterToken (to_ascii_uppercase (token_str t)).
Definition collapse_whitespace (t : FilterTokenV1) : FilterTokenV1 :=
  mkFilterToken (join_space (split_whitespace (token_str t))).

(** The selected keywords of a text search. *)
Record FilterSearchTextV1 := { fst_text : string; fst_tokens : list string }.

Inductive FilterSetModeV1 := FilterSetModeV1_Any | FilterSetModeV1_All.
Inductive MeetingLocationMatchModeV2 :=
| MeetingLocationMatchModeV2_AnyMeeting | MeetingLocationMatchModeV2_AllRequiredMeetings.
Inductive PrerequisiteFilterV1 :=
| PrerequisiteFilterV1_Any | PrerequisiteFilterV1_Has | PrerequisiteFilterV1_NoneReported.
Inductive LiveOpenStateV1 :=
| LiveOpenStateV1_Open | LiveOpenStateV1_Closed | LiveOpenStateV1_Unknown.
Inductive UserModalityV3 :=
| UserModalityV3_OnCampusOrInPerson | UserModalityV3_Online | UserModalityV3_Hybrid.
Inductive UserSynchronicityV3 :=
| UserSynchronicityV3_Sync | UserSynchronicityV3_Async | UserSynchronicityV3_Mixed.
Inductive PermissionFilterV1 :=
| PermissionFilterV1_Any | PermissionFilterV1_Required | PermissionFilterV1_NotRequired.
Inductive WeekdayV1 :=
| WeekdayV1_Monday | WeekdayV1_Tuesday | WeekdayV1_Wednesday | WeekdayV1_Thursday
| WeekdayV1_Friday | WeekdayV1_Saturday | WeekdayV1_Sunday.

Record IncludeIncompleteV3 := {
  ii_prerequisite : bool;
  ii_modality : bool;
  ii_synchronicity : bool
}.

Inductive FilterValueError :=
| FilterValueError_EmptyCreditRange
| FilterValueError_ReversedCreditRange
| FilterValueError_InvalidAvailabilityWindow
| FilterValueError_InvalidPage
| FilterValueError_TooManyFieldValues
| FilterValueError_TooManyTotalValues
| FilterValueError_InvalidCourseNumberBand.

Record CreditRangeV1 := {
  cr_minimum_hundredths : option Z;
  cr_maximum_hundredths : option Z
}.

Definition CreditRangeV1_try_new (minimum maximum : option Z)
    : result FilterValueError CreditRangeV1 :=
  match minimum, maximum with
  | None, None => Err FilterValueError_EmptyCreditRange
  | Some a, Some b =>
      if bool_decide (b < a) then Err FilterValueError_ReversedCreditRange
      else Ok {| cr_minimum_hundredths := minimum; cr_maximum_hundredths := maximum |}
  | _, _ => Ok {| cr_minimum_hundredths := minimum; cr_maximum_hundredths := maximum |}
  end.

Record AvailabilityWindowV1 := {
  aw_weekday : WeekdayV1;
  aw_start_minute : Z;
  aw_end_minute : Z
}.

Definition AvailabilityWindowV1_try_new (weekday : WeekdayV1) (start_minute end_minute : Z)
    : result FilterValueError AvailabilityWindowV1 :=
  if bool_decide (end_minute ≤ start_minute) || bool_decide (1440 < end_minute)
  then Err FilterValueError_InvalidAvailabilityWindow
  else Ok {| aw_weekday := weekday; aw_start_minute := start_minute; aw_end_minute := end_minute |}.

Record CoreFilterV1 := { cf_codes : list FilterTokenV1; cf_mode : FilterSetModeV1 }.
Record MeetingLocationFilterV2 := {
  ml_locations : list FilterTokenV1;
  ml_mode : MeetingLocationMatchModeV2
}.

(** The hundred-level band of a decimal course number. *)
Definition course_number_band (value : string) : option Z :=
  if bool_decide (value = "") || negb (forallb is_ascii_digit (bytes value)) then None
  else number ← parse_u32_digits value;
       let band := number / 100 * 100 in
       if bool_decide (band ≤ u32_max - 99) then Some band else None.

(** ** Decidable equality and derived orders *)

#[export] Instance FilterTokenV1_eq_dec : EqDecision FilterTokenV1.
Proof. solve_decision. Defined.
#[export] Instance FilterSearchTextV1_eq_dec : EqDecision FilterSearchTextV1.
Proof. solve_decision. Defined.
#[export] Instance LiveOpenStateV1_eq_dec : EqDecision LiveOpenStateV1.
Proof. solve_decision. Defined.
#[export] Instance UserModalityV3_eq_dec : EqDecision UserModalityV3.
Proof. solve_decision. Defined.
#[export] Instance UserSynchronicityV3_eq_dec : EqDecision UserSynchronicityV3.
Proof. solve_decision. Defined.
#[export] Instance PermissionFilterV1_eq_dec : EqDecision PermissionFilterV1.
Proof. solve_decision. Defined.
#[export] Instance PrerequisiteFilterV1_eq_dec : EqDecision PrerequisiteFilterV1.
Proof. solve_decision. Defined.
#[export] Instance WeekdayV1_eq_dec : EqDecision WeekdayV1.
Proof. solve_decision. Defined.
#[export] Instance AvailabilityWindowV1_eq_dec : EqDecision AvailabilityWindowV1.
Proof. solve_decision. Defined.

(** The position of a variant in its declaration. *)
Definition open_state_index (s : LiveOpenStateV1) : nat :=
  match s with LiveOpenStateV1_Open => 0 | LiveOpenStateV1_Closed => 1 | LiveOpenStateV1_Unknown => 2 end.
Definition modality_index (m : UserModalityV3) : nat :=
  match m with UserModalityV3_OnCampusOrInPerson => 0 | UserModalityV3_Online => 1
             | UserModalityV3_Hybrid => 2 end.
Definition synchronicity_index (s : UserSynchronicityV3) : nat :=
  match s with UserSynchronicityV3_Sync => 0 | UserSynchronicityV3_Async => 1
             | UserSynchronicityV3_Mixed => 2 end.
Definition weekday_index (d : WeekdayV1) : nat :=
  match d with
  | WeekdayV1_Monday => 0 | WeekdayV1_Tuesday => 1 | WeekdayV1_Wednesday => 2
  | WeekdayV1_Thursday => 3 | WeekdayV1_Friday => 4 | WeekdayV1_Saturday => 5
  | WeekdayV1_Sunday => 6
  end.
Definition window_tuple (w : AvailabilityWindowV1) : nat * (Z * Z) :=
  (weekday_index (aw_weekday w), (aw_start_minute w, aw_end_minute w)).

#[export] Instance FilterTokenV1_rord : ROrd FilterTokenV1 := rord_via token_str.
#[export] Instance LiveOpenStateV1_rord : ROrd LiveOpenStateV1 := rord_via open_state_index.
#[export] Instance UserModalityV3_rord : ROrd UserModalityV3 := rord_via modality_index.
#[export] Instance UserSynchronicityV3_rord : ROrd UserSynchronicityV3 := rord_via synchronicity_index.
#[export] Instance AvailabilityWindowV1_rord : ROrd AvailabilityWindowV1 := rord_via window_tuple.

(** ** Normal form of filter values *)

Definition canonicalize {T : Type} `{EqDecision T, ROrd T} (values : list T) : list T :=
  dedup_by (λ x y, bool_decide (x = y)) (sort_by rcmp values).

Record FilterValuesInputV1 := {
  fi_term : TermId;
  fi_campuses : list CampusCode;
  fi_subjects : list CatalogSubjectCode;
  fi_text : option FilterSearchTextV1;
  fi_course_number_bands : list Z;
  fi_levels : list FilterTokenV1;
  fi_credits : option CreditRangeV1;
  fi_core : CoreFilterV1;
  fi_prerequisite : PrerequisiteFilterV1;
  fi_section_indexes : list SectionIndex;
  fi_open_statuses : list LiveOpenStateV1;
  fi_modalities : list UserModalityV3;
  fi_synchronicities : list UserSynchronicityV3;
  fi_instructors : list FilterTokenV1;
  fi_availability : list AvailabilityWindowV1;
  fi_meeting_locations : MeetingLocationFilterV2;
  fi_exam_codes : list FilterTokenV1;
  fi_permission : PermissionFilterV1;
  fi_include_incomplete : IncludeIncompleteV3
}.

Record NormalizedFilterValuesV1 := {
  nf_term : TermId;
  nf_campuses : list CampusCode;
  nf_subjects : list CatalogSubjectCode;
  nf_text : option FilterSearchTextV1;
  nf_course_number_bands : list Z;
  nf_levels : list FilterTokenV1;
  nf_credits : option CreditRangeV1;
  nf_core : CoreFilterV1;
  nf_prerequisite : PrerequisiteFilterV1;
  nf_section_indexes : list SectionIndex;
  nf_open_statuses : list LiveOpenStateV1;
  nf_modalities : list UserModalityV3;
  nf_synchronicities : list UserSynchronicityV3;
  nf_instructors : list FilterTokenV1;
  nf_availability : list AvailabilityWindowV1;
  nf_meeting_locations : MeetingLocationFilterV2;
  nf_exam_codes : list FilterTokenV1;
  nf_permission : PermissionFilterV1;
  nf_include_incomplete : IncludeIncompleteV3
}.

(** The neutral input of a term. *)
Definition FilterValuesInputV1_for_term (term : TermId) : FilterValuesInputV1 := {|
  fi_term := term; fi_campuses := []; fi_subjects := []; fi_text := None;
  fi_course_number_bands := []; fi_levels := []; fi_credits := None;
  fi_core := {| cf_codes := []; cf_mode := FilterSetModeV1_Any |};
  fi_prerequisite := PrerequisiteFilterV1_Any; fi_section_indexes := []; fi_open_statuses := [];
  fi_modalities := []; fi_synchronicities := []; fi_instructors := []; fi_availability := [];
  fi_meeting_locations := {| ml_locations := []; ml_mode := MeetingLocationMatchModeV2_AnyMeeting |};
  fi_exam_codes := []; fi_permission := PermissionFilterV1_Any;
  fi_include_incomplete :=
    {| ii_prerequisite := false; ii_modality := false; ii_synchronicity := false |}
|}.

(** The input after the canonicalizing mutations, as the returned value. *)
Definition canonical_values (input : FilterValuesInputV1) : NormalizedFilterValuesV1 := {|
  nf_term := fi_term input;
  nf_campuses := canonicalize (fi_campuses input);
  nf_subjects := canonicalize (fi_subjects input);
  nf_text := fi_text input;
  nf_course_number_bands := canonicalize (fi_course_number_bands input);
  nf_levels := canonicalize (make_ascii_uppercase <$> fi_levels input);
  nf_credits := fi_credits input;
  nf_core := {| cf_codes := canonicalize (make_ascii_uppercase <$> cf_codes (fi_core input));
                cf_mode := cf_mode (fi_core input) |};
  nf_prerequisite := fi_prerequisite input;
  nf_section_indexes := canonicalize (fi_section_indexes input);
  nf_open_statuses := canonicalize (fi_open_statuses input);
  nf_modalities := canonicalize (fi_modalities input);
  nf_synchronicities := canonicalize (fi_synchronicities input);
  nf_instructors := canonicalize (collapse_whitespace <$> fi_instructors input);
  nf_availability := canonicalize (fi_availability input);
  nf_meeting_locations :=
    {| ml_locations := canonicalize (make_ascii_uppercase <$> ml_locations (fi_meeting_locations input));
       ml_mode := ml_mode (fi_meeting_locations input) |};
  nf_exam_codes := canonicalize (make_ascii_uppercase <$> fi_exam_codes input);
  nf_permission := fi_permission input;
  nf_include_incomplete := fi_include_incomplete input
|}.

Definition ordinary_lengths (v : NormalizedFilterValuesV1) : list nat := [
  length (nf_campuses v); length (nf_subjects v); length (nf_course_number_bands v);
  length (nf_levels v); length (cf_codes (nf_core v)); length (nf_section_indexes v);
  length (nf_open_statuses v); length (nf_modalities v); length (nf_synchronicities v);
  length (nf_instructors v); length (ml_locations (nf_meeting_locations v));
  length (nf_exam_codes v)].

Definition NormalizedFilterValuesV1_try_new (input : FilterValuesInputV1)
    : result FilterValueError NormalizedFilterValuesV1 :=
  let v := canonical_values input in
  if existsb (λ n, bool_decide (MAX_FILTER_VALUES_PER_FIELD < Z.of_nat n)) (ordinary_lengths v)
     || bool_decide (MAX_AVAILABILITY_WINDOWS < Z.of_nat (length (nf_availability v)))
  then Err FilterValueError_TooManyFieldValues
  else if existsb (λ band, bool_decide (band mod 100 ≠ 0) || bool_decide (u32_max - 99 < band))
            (nf_course_number_bands v)
  then Err FilterValueError_InvalidCourseNumberBand
  else if bool_decide (MAX_TOTAL_FILTER_VALUES <
            Z.of_nat (sum_list (ordinary_lengths v) + length (nf_availability v)))
  then Err FilterValueError_TooManyTotalValues
  else Ok v.

(** ** Requests *)

Record FilterRequestV1 := {
  fr_contract_version : QueryContractVersion;
  fr_values : NormalizedFilterValuesV1
}.

Record PageRequestV1 := { pr_page : Z; pr_page_size : Z }.

Definition PageRequestV1_try_new (page page_size : Z) : result FilterValueError PageRequestV1 :=
  if bool_decide (page = 0) || bool_decide (page_size = 0) || bool_decide (MAX_PAGE_SIZE < page_size)
  then Err FilterValueError_InvalidPage
  else Ok {| pr_page := page; pr_page_size := page_size |}.

Inductive SortDirectionV1 := SortDirectionV1_Ascending | SortDirectionV1_Descending.
Inductive CourseSortFieldV1 :=
| CourseSortFieldV1_Relevance | CourseSortFieldV1_CourseIdentifier | CourseSortFieldV1_Title.
Inductive SectionSortFieldV1 :=
| SectionSortFieldV1_SectionIndex | SectionSortFieldV1_SectionNumber
| SectionSortFieldV1_CourseIdentifier | SectionSortFieldV1_OpenStatus.

Record CourseSortV1 := { cs_field : CourseSortFieldV1; cs_direction : SortDirectionV1 }.
Record SectionSortV1 := { ss_field : SectionSortFieldV1; ss_direction : SortDirectionV1 }.

Record CourseQueryRequestV1 := {
  cq_filters : FilterRequestV1;
  cq_page : PageRequestV1;
  cq_sort : CourseSortV1
}.

Record SectionQueryRequestV1 := {
  sq_filters : FilterRequestV1;
  sq_page : PageRequestV1;
  sq_sort : SectionSortV1
}.

(** ** Responses *)

Record LiveOpenEvidenceV1 := {
  lo_state : LiveOpenStateV1;
  lo_observed_at : option OffsetDateTime;
  lo_fresh_until : option OffsetDateTime;
  lo_uncertainty : option MatchReasonCode
}.

Record FilterMatchV1 := { fm_field_id : FilterFieldId; fm_explanation : MatchExplanation }.

Record TextMatchEvidenceV1 := {
  tm_exact_course_identifier : bool;
  tm_matched_tokens : list string
}.

Record SectionQueryItemV1 := {
  si_section : NormalizedSectionV1;
  si_occurrences : list NormalizedOccurrenceV1;
  si_open : LiveOpenEvidenceV1;
  si_explanation : MatchExplanation;
  si_filter_matches : list FilterMatchV1
}.

Record SectionSearchItemV1 := {
  sx_variant : NormalizedCourseVariantV1;
  sx_section : SectionQueryItemV1;
  sx_course_filter_matches : list FilterMatchV1;
  sx_text_match : option TextMatchEvidenceV1
}.

Record CourseVariantQueryItemV1 := {
  vi_variant : NormalizedCourseVariantV1;
  vi_explanation : MatchExplanation;
  vi_filter_matches : list FilterMatchV1;
  vi_text_match : option TextMatchEvidenceV1;
  vi_sections : list SectionQueryItemV1
}.

Record CourseQueryItemV1 := {
  ci_group : NormalizedCourseGroupV1;
  ci_explanation : MatchExplanation;
  ci_variants : list CourseVariantQueryItemV1
}.

Record PageInfoV1 := {
  pi_page : Z;
  pi_page_size : Z;
  pi_total : Z;
  pi_total_pages : Z
}.

Record CourseQueryResponseV1 := {
  cqr_contract_version : QueryContractVersion;
  cqr_page : PageInfoV1;
  cqr_items : list CourseQueryItemV1
}.

Record SectionQueryResponseV1 := {
  sqr_contract_version : QueryContractVersion;
  sqr_page : PageInfoV1;
  sqr_items : list SectionSearchItemV1
}.

Record CourseDetailResponseV1 := {
  cdr_contract_version : QueryContractVersion;
  cdr_course : CourseQueryItemV1
}.

Record SectionDetailResponseV1 := {
  sdr_contract_version : QueryContractVersion;
  sdr_variant : NormalizedCourseVariantV1;
  sdr_section : SectionQueryItemV1
}.
