(* ===== verification/FilterFacts.v ===== *)
(** * The normal form of filter values

    What [NormalizedFilterValuesV1::try_new] guarantees: canonical lists within
    their limits, and a value that is its own normal form. *)

From S2P Require Import Prelude Ordering Identity RustStr Contracts CatalogData Match Filters.

(** ** Laws of the derived orders *)

#[export] Instance token_str_inj : Inj (=) (=) token_str.
Proof. by intros [] [] [= ->]. Qed.
#[export] Instance open_state_index_inj : Inj (=) (=) open_state_index.
Proof. by intros [] []. Qed.
#[export] Instance modality_index_inj : Inj (=) (=) modality_index.
Proof. by intros [] []. Qed.
#[export] Instance synchronicity_index_inj : Inj (=) (=) synchronicity_index.
Proof. by intros [] []. Qed.
#[export] Instance weekday_index_inj : Inj (=) (=) weekday_index.
Proof. by intros [] []. Qed.
#[export] Instance window_tuple_inj : Inj (=) (=) window_tuple.
Proof. by intros [d a b] [d' a' b'] [= ->%(inj weekday_index) -> ->]. Qed.

#[export] Instance FilterTokenV1_rord_laws : ROrdLaws FilterTokenV1.
Proof. apply (rord_via_laws token_str). Qed.
#[export] Instance LiveOpenStateV1_rord_laws : ROrdLaws LiveOpenStateV1.
Proof. apply (rord_via_laws open_state_index). Qed.
#[export] Instance UserModalityV3_rord_laws : ROrdLaws UserModalityV3.
Proof. apply (rord_via_laws modality_index). Qed.
#[export] Instance UserSynchronicityV3_rord_laws : ROrdLaws UserSynchronicityV3.
Proof. apply (rord_via_laws synchronicity_index). Qed.
#[export] Instance AvailabilityWindowV1_rord_laws : ROrdLaws AvailabilityWindowV1.
Proof. apply (rord_via_laws window_tuple). Qed.

(** ** Canonical lists *)

Section canonical.
Context {T : Type} `{EqDecision T, ROrdLaws T}.
Implicit Types l : list T.

Definition increasing l : Prop := StronglySorted (λ x y, rcmp x y = Lt) l.

Lemma rcmp_separates : separates (@rcmp T _) (λ _, True).
Proof. intros x y _ _. apply rcmp_eq. Qed.

Lemma same_spec (x y : T) : bool_decide (x = y) = true ↔ x = y.
Proof. apply bool_decide_eq_true. Qed.

Lemma canonicalize_increasing l : increasing (canonicalize l).
Proof.
  apply (dedup_by_sorted _ _ (λ _, True) rcmp_separates same_spec).
  - by apply Forall_forall.
  - apply sort_by_sorted. apply _.
Qed.

Lemma elem_of_canonicalize x l : x ∈ canonicalize l ↔ x ∈ l.
Proof.
  unfold canonicalize. rewrite (elem_of_dedup_by _ same_spec). apply elem_of_sort_by.
Qed.

Lemma canonicalize_id l : increasing l → canonicalize l = l.
Proof.
  intros Hl. apply (sorted_lt_unique rcmp); [apply canonicalize_increasing|done|].
  intros x. apply elem_of_canonicalize.
Qed.

Lemma canonicalize_idemp l : canonicalize (canonicalize l) = canonicalize l.
Proof. apply canonicalize_id, canonicalize_increasing. Qed.

(** Canonicalizing after an idempotent conversion. *)
Lemma canonicalize_map_idemp (f : T → T) l :
  (∀ x, f (f x) = f x) → canonicalize (f <$> canonicalize (f <$> l)) = canonicalize (f <$> l).
Proof.
  intros Hf. assert (f <$> canonicalize (f <$> l) = canonicalize (f <$> l)) as ->;
    [|apply canonicalize_idemp].
  rewrite <-(list_fmap_id (canonicalize (f <$> l))) at 2. apply list_fmap_ext. intros i x Hi.
  apply list_elem_of_lookup_2, elem_of_canonicalize, list_elem_of_fmap in Hi as (y & -> & _).
  simpl. apply Hf.
Qed.

End canonical.

Lemma make_ascii_uppercase_idemp t : make_ascii_uppercase (make_ascii_uppercase t) = make_ascii_uppercase t.
Proof. destruct t. unfold make_ascii_uppercase; simpl. by rewrite to_ascii_uppercase_idemp. Qed.

Lemma collapse_whitespace_idemp t : collapse_whitespace (collapse_whitespace t) = collapse_whitespace t.
Proof. destruct t. unfold collapse_whitespace; simpl. by rewrite collapse_idemp. Qed.

(** ** The normal form *)

(** The input that carries normalized values again, as a saved or transmitted
    request does. *)
Definition values_input (v : NormalizedFilterValuesV1) : FilterValuesInputV1 := {|
  fi_term := nf_term v; fi_campuses := nf_campuses v; fi_subjects := nf_subjects v;
  fi_text := nf_text v; fi_course_number_bands := nf_course_number_bands v;
  fi_levels := nf_levels v; fi_credits := nf_credits v; fi_core := nf_core v;
  fi_prerequisite := nf_prerequisite v; fi_section_indexes := nf_section_indexes v;
  fi_open_statuses := nf_open_statuses v; fi_modalities := nf_modalities v;
  fi_synchronicities := nf_synchronicities v; fi_instructors := nf_instructors v;
  fi_availability := nf_availability v; fi_meeting_locations := nf_meeting_locations v;
  fi_exam_codes := nf_exam_codes v; fi_permission := nf_permission v;
  fi_include_incomplete := nf_include_incomplete v
|}.

Record values_canonical (v : NormalizedFilterValuesV1) : Prop := {
  vc_campuses : increasing (nf_campuses v);
  vc_subjects : increasing (nf_subjects v);
  vc_bands : increasing (nf_course_number_bands v);
  vc_levels : increasing (nf_levels v);
  vc_core : increasing (cf_codes (nf_core v));
  vc_indexes : increasing (nf_section_indexes v);
  vc_statuses : increasing (nf_open_statuses v);
  vc_modalities : increasing (nf_modalities v);
  vc_synchronicities : increasing (nf_synchronicities v);
  vc_instructors : increasing (nf_instructors v);
  vc_availability : increasing (nf_availability v);
  vc_locations : increasing (ml_locations (nf_meeting_locations v));
  vc_exams : increasing (nf_exam_codes v)
}.

Record values_bounded (v : NormalizedFilterValuesV1) : Prop := {
  vb_fields : Forall (λ n, Z.of_nat n ≤ 100) (ordinary_lengths v);
  vb_windows : Z.of_nat (length (nf_availability v)) ≤ 64;
  vb_bands : Forall (λ b, b mod 100 = 0 ∧ b ≤ u32_max - 99) (nf_course_number_bands v);
  vb_total : Z.of_nat (sum_list (ordinary_lengths v) + length (nf_availability v)) ≤ 512
}.

Lemma canonical_values_canonical input : values_canonical (canonical_values input).
Proof. split; apply canonicalize_increasing. Qed.

Lemma canonical_values_idemp input :
  canonical_values (values_input (canonical_values input)) = canonical_values input.
Proof.
  unfold canonical_values at 1. simpl.
  rewrite !canonicalize_idemp, !(canonicalize_map_idemp make_ascii_uppercase),
    !(canonicalize_map_idemp collapse_whitespace)
    by apply make_ascii_uppercase_idemp || apply collapse_whitespace_idemp.
  reflexivity.
Qed.

Lemma existsb_false {A} (f : A → bool) (l : list A) : existsb f l = false ↔ Forall (λ x, f x = false) l.
Proof. induction l as [|x l IH]; simpl; [done|]. by rewrite orb_false_iff, IH, Forall_cons. Qed.

Lemma filter_values_Ok input v :
  NormalizedFilterValuesV1_try_new input = Ok v ↔
  v = canonical_values input ∧ values_bounded (canonical_values input).
Proof.
  unfold NormalizedFilterValuesV1_try_new, MAX_FILTER_VALUES_PER_FIELD, MAX_AVAILABILITY_WINDOWS,
    MAX_TOTAL_FILTER_VALUES. set (w := canonical_values input).
  destruct (existsb _ (ordinary_lengths w) || _) eqn:Efields.
  { split; [done|]. intros [_ [Hf Hw _ _]]. rewrite orb_true_iff, existsb_exists in Efields.
    destruct Efields as [(n & Hin & Hn)|Hn]; apply bool_decide_eq_true in Hn; [|lia].
    rewrite Forall_forall in Hf. apply list_elem_of_In, Hf in Hin. lia. }
  rewrite orb_false_iff, existsb_false, bool_decide_eq_false in Efields. destruct Efields as [Hf Hw].
  destruct (existsb _ (nf_course_number_bands w)) eqn:Ebands.
  { split; [done|]. intros [_ [_ _ Hb _]]. apply existsb_exists in Ebands as (b & Hin & Hbad).
    rewrite Forall_forall in Hb. apply list_elem_of_In, Hb in Hin.
    rewrite orb_true_iff, !bool_decide_eq_true in Hbad. lia. }
  rewrite existsb_false in Ebands. case_bool_decide as Htot.
  { split; [done|]. intros [_ [_ _ _ Ht]]. lia. }
  split; [intros [= <-]; split; [done|]|by intros [-> _]]. split; [|lia| |lia].
  - eapply Forall_impl; [exact Hf|]. intros n Hn%bool_decide_eq_false. lia.
  - eapply Forall_impl; [exact Ebands|]. intros b [H1 H2]%orb_false_iff.
    apply bool_decide_eq_false in H1, H2. split; [|lia]. destruct (decide (b mod 100 = 0)); tauto.
Qed.

(** Normalizing filter values: it succeeds exactly when the canonical values
    are within the limits (100 values in a field, 64 windows, 512 in all, bands
    that are multiples of a hundred); every list of the result is strictly
    increasing, so two requests that select the same values are equal; each list
    has exactly the values of the input, in upper case or with collapsed white
    space where the contract says so; and a normalized value normalizes to
    itself. *)
Theorem filter_values_normal_form (input : FilterValuesInputV1) (v : NormalizedFilterValuesV1) :
  (NormalizedFilterValuesV1_try_new input = Ok v ↔
     v = canonical_values input ∧ values_bounded v) ∧
  (NormalizedFilterValuesV1_try_new input = Ok v →
     values_canonical v ∧
     (∀ x, x ∈ nf_campuses v ↔ x ∈ fi_campuses input) ∧
     (∀ x, x ∈ nf_section_indexes v ↔ x ∈ fi_section_indexes input) ∧
     (∀ x, x ∈ nf_availability v ↔ x ∈ fi_availability input) ∧
     (∀ x, x ∈ nf_levels v ↔ ∃ y, x = make_ascii_uppercase y ∧ y ∈ fi_levels input) ∧
     (∀ x, x ∈ nf_instructors v ↔ ∃ y, x = collapse_whitespace y ∧ y ∈ fi_instructors input) ∧
     NormalizedFilterValuesV1_try_new (values_input v) = Ok v).
Proof.
  rewrite filter_values_Ok. split; [naive_solver|]. intros [-> Hb]. rewrite filter_values_Ok, canonical_values_idemp.
  split_and!; auto using canonical_values_canonical; intros x; simpl;
    rewrite elem_of_canonicalize, ?list_elem_of_fmap; done.
Qed.

(** Every field identifier and witness name is a valid reason field, so that
    [stable_reason] never panics. *)
Lemma reason_fields_valid :
  Forall (λ field, ReasonField_try_from field = Ok (mkReasonField field))
    ((wire_name <$> FilterFieldId_ALL) ++ ["section.witness"; "variant.witness"]).
Proof. repeat (constructor; [vm_compute; reflexivity|]). constructor. Qed.

Lemma filter_values_normal_form_witness :
  let input := {|
    fi_term := mkTermId "92026"; fi_campuses := [mkCampusCode "NK"; mkCampusCode "NB"; mkCampusCode "NK"];
    fi_subjects := []; fi_text := None; fi_course_number_bands := [300; 100];
    fi_levels := [mkFilterToken "u"; mkFilterToken "U"]; fi_credits := None;
    fi_core := {| cf_codes := []; cf_mode := FilterSetModeV1_Any |};
    fi_prerequisite := PrerequisiteFilterV1_Any; fi_section_indexes := []; fi_open_statuses := [];
    fi_modalities := []; fi_synchronicities := [];
    fi_instructors := [mkFilterToken "DOE,   JANE"]; fi_availability := [];
    fi_meeting_locations := {| ml_locations := []; ml_mode := MeetingLocationMatchModeV2_AnyMeeting |};
    fi_exam_codes := []; fi_permission := PermissionFilterV1_Any;
    fi_include_incomplete := {| ii_prerequisite := false; ii_modality := false; ii_synchronicity := false |}
  |} in
  ∃ v, NormalizedFilterValuesV1_try_new input = Ok v ∧
    nf_campuses v = [mkCampusCode "NB"; mkCampusCode "NK"] ∧ nf_levels v = [mkFilterToken "U"] ∧
    nf_instructors v = [mkFilterToken "DOE, JANE"] ∧
    NormalizedFilterValuesV1_try_new (values_input v) = Ok v.
Proof.
  intros input.
  assert (NormalizedFilterValuesV1_try_new input = Ok (canonical_values input)) as E by (vm_compute; reflexivity).
  exists (canonical_values input). split; [exact E|].
  split; [vm_compute; reflexivity|]. split; [vm_compute; reflexivity|]. split; [vm_compute; reflexivity|].
  destruct (filter_values_normal_form input (canonical_values input)) as [_ H].
  destruct (H E) as (_ & _ & _ & _ & _ & _ & Hid). exact Hid.
Defined.
