(* ===== verification/Predicates.v ===== *)
(** * The predicates of the query engine
    (crates/bcsp-query/src/text.rs, credits.rs, availability.rs, predicates.rs)

    One definition per filter: each evaluates what the catalog knows about a
    course or a section to a three-valued result with its reasons. *)

From S2P Require Import Prelude Ordering Identity RustStr Contracts CatalogData Match Filters.

(** ** Text evidence (text.rs) *)

Record TextHit := { th_variant_key : CourseVariantKey; th_fts_rank : Z }.
Record TextTargetVersion := {
  tt_target : TermCampusKey;
  tt_content_version : CatalogContentVersion
}.

Record TextHitPlan := {
  tp_query : FilterSearchTextV1;
  tp_target_versions : gmap TermCampusKey CatalogContentVersion;
  tp_hits : gmap CourseVariantKey Z
}.

Inductive TextHitPlanError :=
| TextHitPlanError_DuplicateVariant
| TextHitPlanError_DuplicateTarget
| TextHitPlanError_ForeignHitTarget.

Fixpoint plan_targets (bindings : list TextTargetVersion)
    (by_target : gmap TermCampusKey CatalogContentVersion)
    : result TextHitPlanError (gmap TermCampusKey CatalogContentVersion) :=
  match bindings with
  | [] => Ok by_target
  | binding :: bindings =>
      if bool_decide (is_Some (by_target !! tt_target binding))
      then Err TextHitPlanError_DuplicateTarget
      else plan_targets bindings (<[tt_target binding := tt_content_version binding]> by_target)
  end.

Fixpoint plan_hits (by_target : gmap TermCampusKey CatalogContentVersion) (hits : list TextHit)
    (by_variant : gmap CourseVariantKey Z) : result TextHitPlanError (gmap CourseVariantKey Z) :=
  match hits with
  | [] => Ok by_variant
  | hit :: hits =>
      if bool_decide (by_target !! cgk_target (cvk_group (th_variant_key hit)) = None)
      then Err TextHitPlanError_ForeignHitTarget
      else if bool_decide (is_Some (by_variant !! th_variant_key hit))
      then Err TextHitPlanError_DuplicateVariant
      else plan_hits by_target hits (<[th_variant_key hit := th_fts_rank hit]> by_variant)
  end.

Definition TextHitPlan_try_new (query : FilterSearchTextV1) (target_versions : list TextTargetVersion)
    (hits : list TextHit) : result TextHitPlanError TextHitPlan :=
  by_target ← plan_targets target_versions ∅;
  by_variant ← plan_hits by_target hits ∅;
  Ok {| tp_query := query; tp_target_versions := by_target; tp_hits := by_variant |}.

Definition tp_rank (key : CourseVariantKey) (plan : TextHitPlan) : option Z := tp_hits plan !! key.

(** ** Credits (credits.rs) *)

Definition CREDIT_SCALE : Z := 100.

Record CreditValue := { cv_minimum : Z; cv_maximum : Z }.

Inductive CreditValueParseError :=
| CreditValueParseError_Unbounded | CreditValueParseError_Invalid.

Definition dot : Ascii.ascii := Ascii.ascii_of_N 46.
Definition hyphen : Ascii.ascii := Ascii.ascii_of_N 45.

(** The en dash U+2013 and the em dash U+2014. *)
Definition en_dash : string :=
  String (Ascii.ascii_of_N 226) (String (Ascii.ascii_of_N 128) (String (Ascii.ascii_of_N 147) "")).
Definition em_dash : string :=
  String (Ascii.ascii_of_N 226) (String (Ascii.ascii_of_N 128) (String (Ascii.ascii_of_N 148) "")).

Definition parse_decimal (value : string) : result CreditValueParseError Z :=
  if bool_decide (value = "") || String.prefix "+" value || String.prefix "-" value
  then Err CreditValueParseError_Invalid
  else
    match match str_split dot (str_replace "_" "." value) with
          | [whole] => Some (whole, "")
          | [whole; fractional] => Some (whole, fractional)
          | _ => None
          end with
    | None => Err CreditValueParseError_Invalid
    | Some (whole, fractional) =>
        if bool_decide (whole = "") || negb (forallb is_ascii_digit (bytes whole))
           || bool_decide (2 < String.length fractional)%nat
           || negb (forallb is_ascii_digit (bytes fractional))
        then Err CreditValueParseError_Invalid
        else
          whole ← ok_or CreditValueParseError_Invalid (parse_u32_digits whole);
          fraction ←
            (if bool_decide (fractional = "") then Ok 0
             else parsed ← ok_or CreditValueParseError_Invalid (parse_u32_digits fractional);
                  Ok (parsed * 10 ^ (2 - Z.of_nat (String.length fractional))));
          ok_or CreditValueParseError_Invalid
            (scaled ← u32_checked (whole * CREDIT_SCALE); u32_checked (scaled + fraction))
    end.

Definition unbounded_credit_words : list string :=
  ["BA"; "BY ARRANGEMENT"; "ARRANGED"; "VARIABLE"; "VAR"].

Definition parse_credit_value (value : string) : result CreditValueParseError CreditValue :=
  let normalized := to_ascii_uppercase (trim value) in
  if bool_decide (normalized = "") || bool_decide (normalized ∈ unbounded_credit_words)
  then Err CreditValueParseError_Unbounded
  else
    let numeric := str_replace em_dash "-" (str_replace en_dash "-"
                     (str_replace " THROUGH " "-" (str_replace " TO " "-" normalized))) in
    bounds ←
      match trim <$> str_split hyphen numeric with
      | [fixed] => fixed ← parse_decimal fixed; Ok (fixed, fixed)
      | [minimum; maximum] =>
          minimum ← parse_decimal minimum; maximum ← parse_decimal maximum; Ok (minimum, maximum)
      | _ => Err CreditValueParseError_Invalid
      end;
    if bool_decide (bounds.2 < bounds.1) then Err CreditValueParseError_Invalid
    else Ok {| cv_minimum := bounds.1; cv_maximum := bounds.2 |}.

(** ** Availability (availability.rs) *)

(** [SE_Timed] holds the [day_count] filled slots of the source's array. *)
Inductive ScheduleEvidence :=
| ScheduleEvidence_ExplicitAsync
| ScheduleEvidence_Timed (days : list WeekdayV1) (start end_ : Z)
| ScheduleEvidence_Unknown (code : MatchReasonCode).

Record OccurrenceFact := {
  of_requiredness : CatalogRequiredness;
  of_schedule : ScheduleEvidence
}.

Definition weekday (value : string) : option WeekdayV1 :=
  if bool_decide (value = "M") then Some WeekdayV1_Monday
  else if bool_decide (value = "T") then Some WeekdayV1_Tuesday
  else if bool_decide (value = "W") then Some WeekdayV1_Wednesday
  else if bool_decide (value = "H") || bool_decide (value = "TH") then Some WeekdayV1_Thursday
  else if bool_decide (value = "F") then Some WeekdayV1_Friday
  else if bool_decide (value = "S") then Some WeekdayV1_Saturday
  else if bool_decide (value = "U") then Some WeekdayV1_Sunday
  else None.

Definition schedule_evidence (occurrence : NormalizedOccurrenceV1) : ScheduleEvidence :=
  match noc_synchronicity occurrence with
  | Present CatalogSynchronicity_Async => ScheduleEvidence_ExplicitAsync
  | _ =>
      match noc_time occurrence with
      | CatalogTimeKnowledgeV1_Missing =>
          ScheduleEvidence_Unknown MatchReasonCode_MissingReliableData
      | CatalogTimeKnowledgeV1_ExplicitNull | CatalogTimeKnowledgeV1_Empty
      | CatalogTimeKnowledgeV1_Partial => ScheduleEvidence_Unknown MatchReasonCode_Tba
      | CatalogTimeKnowledgeV1_Invalid => ScheduleEvidence_Unknown MatchReasonCode_InvalidValue
      | CatalogTimeKnowledgeV1_Known start end_ =>
          match noc_days occurrence with
          | Present value =>
              if bool_decide (value ≠ []) && bool_decide (length value ≤ 7)%nat then
                match mapM weekday value with
                | Some days => ScheduleEvidence_Timed days start end_
                | None => ScheduleEvidence_Unknown MatchReasonCode_InvalidValue
                end
              else ScheduleEvidence_Unknown MatchReasonCode_Tba
          | ExplicitNull => ScheduleEvidence_Unknown MatchReasonCode_Tba
          | Absent => ScheduleEvidence_Unknown MatchReasonCode_MissingReliableData
          | Unknown reason => ScheduleEvidence_Unknown (unknown_reason_code reason)
          end
      end
  end.

Definition availability_field : string := "FLT-S06".

Definition window_contains (day : WeekdayV1) (start end_ : Z) (window : AvailabilityWindowV1) : bool :=
  bool_decide (aw_weekday window = day) && bool_decide (aw_start_minute window ≤ start)
  && bool_decide (end_ ≤ aw_end_minute window).

Definition evaluate_fact (windows : list AvailabilityWindowV1) (fact : OccurrenceFact)
    : option PredicateEvaluation :=
  if bool_decide (of_requiredness fact = CatalogRequiredness_Optional) then None
  else Some
    match of_schedule fact with
    | ScheduleEvidence_ExplicitAsync => matched
    | ScheduleEvidence_Unknown code => uncertain availability_field code
    | ScheduleEvidence_Timed days start end_ =>
        if forallb (λ day, existsb (window_contains day start end_) windows) days
        then matched else no_match availability_field
    end.

Definition evaluate_facts (facts : list OccurrenceFact) (windows : list AvailabilityWindowV1)
    : PredicateEvaluation := and_all (omap (evaluate_fact windows) facts).

Definition occurrence_fact (occurrence : NormalizedOccurrenceV1) : OccurrenceFact :=
  {| of_requiredness := noc_requiredness occurrence; of_schedule := schedule_evidence occurrence |}.

Definition evaluate_availability (section : NormalizedSectionV1)
    (occurrences : option (list NormalizedOccurrenceV1)) (windows : list AvailabilityWindowV1)
    : PredicateEvaluation :=
  let without_occurrences :=
    if bool_decide (nse_synchronicity section = CatalogSynchronicity_Async) then matched
    else uncertain availability_field MatchReasonCode_MissingReliableData in
  if bool_decide (windows = []) then matched
  else match occurrences with
       | None => without_occurrences
       | Some [] => without_occurrences
       | Some occurrences => evaluate_facts (occurrence_fact <$> occurrences) windows
       end.

(** ** Helpers (predicates.rs) *)

Definition exact (left right : string) : bool :=
  bool_decide (left = right) || eq_ignore_ascii_case left right.

Definition bool_result (matches : bool) (field : FilterFieldId) : PredicateEvaluation :=
  if matches then matched else no_match (wire_name field).

Definition inactive_or_bool (inactive matches : bool) (field : FilterFieldId) : PredicateEvaluation :=
  if inactive then matched else bool_result matches field.

Definition token_values (values : list FilterTokenV1) : list string := token_str <$> values.

Definition exact_values (actual : CatalogFieldKnowledge string) (selected : list string)
    (field : FilterFieldId) : PredicateEvaluation :=
  if bool_decide (selected = []) then matched
  else evaluate_known actual (wire_name field) (λ actual, existsb (exact actual) selected).

Definition instructor_collection (actual : CatalogFieldKnowledge (list string))
    (selected : list FilterTokenV1) (field : FilterFieldId) : PredicateEvaluation :=
  if bool_decide (selected = []) then matched
  else evaluate_known actual (wire_name field) (λ actual,
    existsb (λ actual,
      let normalized := join_space (split_whitespace actual) in
      existsb (λ selected, exact normalized (token_str selected)) selected) actual).

(** ** Course predicates *)

Definition evaluate_credits (value : CatalogFieldKnowledge string) (selected : option CreditRangeV1)
    : PredicateEvaluation :=
  match selected with
  | None => matched
  | Some selected =>
      let field := wire_name FilterFieldId_CourseCredits in
      match value with
      | Present value =>
          match parse_credit_value value with
          | Ok course =>
              let contains_minimum :=
                match cr_minimum_hundredths selected with
                | None => true | Some minimum => bool_decide (minimum ≤ cv_minimum course) end in
              let contains_maximum :=
                match cr_maximum_hundredths selected with
                | None => true | Some maximum => bool_decide (cv_maximum course ≤ maximum) end in
              if contains_minimum && contains_maximum then matched else no_match field
          | Err CreditValueParseError_Unbounded => uncertain field MatchReasonCode_UnknownValue
          | Err CreditValueParseError_Invalid => uncertain field MatchReasonCode_InvalidValue
          end
      | ExplicitNull | Absent => uncertain field MatchReasonCode_MissingReliableData
      | Unknown reason => uncertain field (unknown_reason_code reason)
      end
  end.

Definition evaluate_core (value : CatalogFieldKnowledge (list string))
    (filters : NormalizedFilterValuesV1) : PredicateEvaluation :=
  if bool_decide (cf_codes (nf_core filters) = []) then matched
  else
    let field := wire_name FilterFieldId_CourseCoreCode in
    match value with
    | Present value =>
        let evaluations :=
          (λ selected, bool_result (existsb (λ actual, exact actual (token_str selected)) value)
                         FilterFieldId_CourseCoreCode) <$> cf_codes (nf_core filters) in
        match cf_mode (nf_core filters) with
        | FilterSetModeV1_Any => or_active evaluations
        | FilterSetModeV1_All => and_all evaluations
        end
    | ExplicitNull | Absent => uncertain field MatchReasonCode_MissingReliableData
    | Unknown reason => uncertain field (unknown_reason_code reason)
    end.

Definition evaluate_prerequisite (actual : CatalogPrerequisiteState) (selected : PrerequisiteFilterV1)
    : PredicateEvaluation :=
  match selected, actual with
  | PrerequisiteFilterV1_Any, _ => matched
  | _, CatalogPrerequisiteState_Unknown =>
      uncertain (wire_name FilterFieldId_CoursePrerequisite) MatchReasonCode_UnknownValue
  | PrerequisiteFilterV1_Has, _ =>
      bool_result (bool_decide (actual = CatalogPrerequisiteState_Has)) FilterFieldId_CoursePrerequisite
  | PrerequisiteFilterV1_NoneReported, _ =>
      bool_result (bool_decide (actual = CatalogPrerequisiteState_NoneReported))
        FilterFieldId_CoursePrerequisite
  end.

Definition evaluate_course_number_band (actual : CatalogFieldKnowledge string) (selected : list Z)
    : PredicateEvaluation :=
  if bool_decide (selected = []) then matched
  else
    let field := wire_name FilterFieldId_CourseNumberBand in
    match actual with
    | Present value =>
        match course_number_band value with
        | Some band => if bool_decide (band ∈ selected) then matched else no_match field
        | None => uncertain field MatchReasonCode_InvalidValue
        end
    | ExplicitNull | Absent => uncertain field MatchReasonCode_MissingReliableData
    | Unknown reason => uncertain field (unknown_reason_code reason)
    end.

(** ** Section predicates *)

Definition evidence_fresh (evidence : LiveOpenEvidenceV1) (now : OffsetDateTime) : bool :=
  bool_decide (is_Some (lo_observed_at evidence))
  && match lo_fresh_until evidence with
     | Some fresh_until => bool_decide (now ≤ fresh_until)
     | None => false
     end.

Definition evaluate_open (evidence : LiveOpenEvidenceV1) (now : OffsetDateTime)
    (selected : list LiveOpenStateV1) : PredicateEvaluation :=
  if bool_decide (selected = []) then matched
  else
    let field := wire_name FilterFieldId_SectionOpenStatus in
    if negb (evidence_fresh evidence now)
       || bool_decide (lo_state evidence = LiveOpenStateV1_Unknown)
       || bool_decide (is_Some (lo_uncertainty evidence))
    then
      if bool_decide (LiveOpenStateV1_Unknown ∈ selected) then matched
      else uncertain field
        match lo_uncertainty evidence with
        | Some code => if is_known_mismatch code then MatchReasonCode_MissingReliableData else code
        | None => MatchReasonCode_MissingReliableData
        end
    else if bool_decide (lo_state evidence ∈ selected) then matched else no_match field.

Definition evaluate_modality (actual : CatalogModality) (selected : list UserModalityV3)
    : PredicateEvaluation :=
  if bool_decide (selected = []) then matched
  else
    let field := wire_name FilterFieldId_SectionModality in
    let known value := bool_result (bool_decide (value ∈ selected)) FilterFieldId_SectionModality in
    match actual with
    | CatalogModality_UnknownConflict => uncertain field MatchReasonCode_ConflictingEvidence
    | CatalogModality_Other | CatalogModality_Unknown => uncertain field MatchReasonCode_UnknownValue
    | CatalogModality_OnCampusOrInPerson => known UserModalityV3_OnCampusOrInPerson
    | CatalogModality_Hybrid => known UserModalityV3_Hybrid
    | CatalogModality_Online => known UserModalityV3_Online
    end.

Inductive ComponentApplicability :=
| ComponentApplicability_Applicable
| ComponentApplicability_NotApplicable
| ComponentApplicability_Uncertain (code : MatchReasonCode).

Definition online_applicability (section_modality : CatalogModality)
    (occurrence : NormalizedOccurrenceV1) : ComponentApplicability :=
  let missing code :=
    match noc_evidence occurrence, section_modality with
    | CatalogOccurrenceEvidence_Physical, _ => ComponentApplicability_NotApplicable
    | CatalogOccurrenceEvidence_None, CatalogModality_OnCampusOrInPerson =>
        ComponentApplicability_NotApplicable
    | CatalogOccurrenceEvidence_None, CatalogModality_Online => ComponentApplicability_Applicable
    | _, _ => ComponentApplicability_Uncertain code
    end in
  match noc_evidence occurrence, noc_modality occurrence with
  | CatalogOccurrenceEvidence_Remote, _ => ComponentApplicability_Applicable
  | _, Present (CatalogModality_Online | CatalogModality_Hybrid) => ComponentApplicability_Applicable
  | CatalogOccurrenceEvidence_Physical, Present _ => ComponentApplicability_NotApplicable
  | _, Present CatalogModality_OnCampusOrInPerson => ComponentApplicability_NotApplicable
  | _, Present CatalogModality_UnknownConflict =>
      ComponentApplicability_Uncertain MatchReasonCode_ConflictingEvidence
  | _, Present (CatalogModality_Other | CatalogModality_Unknown) =>
      match section_modality with
      | CatalogModality_OnCampusOrInPerson => ComponentApplicability_NotApplicable
      | CatalogModality_Online => ComponentApplicability_Applicable
      | _ => ComponentApplicability_Uncertain MatchReasonCode_UnknownValue
      end
  | _, (ExplicitNull | Absent) => missing MatchReasonCode_MissingReliableData
  | _, Unknown reason => missing (unknown_reason_code reason)
  end.

Definition evaluate_synchronicity_value (actual : CatalogSynchronicity)
    (selected : list UserSynchronicityV3) : PredicateEvaluation :=
  let known value := bool_result (bool_decide (value ∈ selected)) FilterFieldId_SectionSynchronicity in
  match actual with
  | CatalogSynchronicity_Unknown | CatalogSynchronicity_Unspecified
  | CatalogSynchronicity_ByArrangement =>
      uncertain (wire_name FilterFieldId_SectionSynchronicity) MatchReasonCode_UnknownValue
  | CatalogSynchronicity_Sync => known UserSynchronicityV3_Sync
  | CatalogSynchronicity_Async => known UserSynchronicityV3_Async
  | CatalogSynchronicity_Mixed => known UserSynchronicityV3_Mixed
  end.

(** The variables of the loop over the occurrences. *)
Record SynchronicityFacts := {
  sf_has_sync : bool;
  sf_has_async : bool;
  sf_uncertainties : list PredicateEvaluation
}.

Definition sf_sync (f : SynchronicityFacts) : SynchronicityFacts :=
  {| sf_has_sync := true; sf_has_async := sf_has_async f; sf_uncertainties := sf_uncertainties f |}.
Definition sf_async (f : SynchronicityFacts) : SynchronicityFacts :=
  {| sf_has_sync := sf_has_sync f; sf_has_async := true; sf_uncertainties := sf_uncertainties f |}.
Definition sf_uncertain (code : MatchReasonCode) (f : SynchronicityFacts) : SynchronicityFacts :=
  {| sf_has_sync := sf_has_sync f; sf_has_async := sf_has_async f;
     sf_uncertainties := sf_uncertainties f
       ++ [uncertain (wire_name FilterFieldId_SectionSynchronicity) code] |}.

Definition remote_by_arrangement (occurrence : NormalizedOccurrenceV1) : bool :=
  bool_decide (noc_evidence occurrence = CatalogOccurrenceEvidence_Remote)
  && bool_decide (noc_kind occurrence = CatalogOccurrenceKind_ByArrangement).

Definition synchronicity_step (section_modality : CatalogModality) (f : SynchronicityFacts)
    (occurrence : NormalizedOccurrenceV1) : SynchronicityFacts :=
  match online_applicability section_modality occurrence with
  | ComponentApplicability_NotApplicable => f
  | ComponentApplicability_Uncertain code => sf_uncertain code f
  | ComponentApplicability_Applicable =>
      let inconclusive code :=
        if remote_by_arrangement occurrence then sf_async f else sf_uncertain code f in
      match noc_synchronicity occurrence with
      | Present CatalogSynchronicity_Sync => sf_sync f
      | Present CatalogSynchronicity_Async => sf_async f
      | Present CatalogSynchronicity_Mixed => sf_async (sf_sync f)
      | Present (CatalogSynchronicity_ByArrangement | CatalogSynchronicity_Unspecified
                 | CatalogSynchronicity_Unknown) => inconclusive MatchReasonCode_UnknownValue
      | ExplicitNull | Absent => inconclusive MatchReasonCode_MissingReliableData
      | Unknown reason => inconclusive (unknown_reason_code reason)
      end
  end.

Definition evaluate_synchronicity_facts (section_modality : CatalogModality) (f : SynchronicityFacts)
    (selected : list UserSynchronicityV3) : PredicateEvaluation :=
  let field := wire_name FilterFieldId_SectionSynchronicity in
  if bool_decide (sf_uncertainties f ≠ []) then
    if sf_has_sync f && sf_has_async f then
      bool_result (bool_decide (UserSynchronicityV3_Mixed ∈ selected)) FilterFieldId_SectionSynchronicity
    else
      let could_match :=
        match sf_has_sync f, sf_has_async f with
        | true, _ => existsb (λ v, bool_decide (v ≠ UserSynchronicityV3_Async)) selected
        | false, true => existsb (λ v, bool_decide (v ≠ UserSynchronicityV3_Sync)) selected
        | false, false => true
        end in
      if could_match then and_all (sf_uncertainties f) else no_match field
  else
    match sf_has_sync f, sf_has_async f with
    | true, true => evaluate_synchronicity_value CatalogSynchronicity_Mixed selected
    | true, false => evaluate_synchronicity_value CatalogSynchronicity_Sync selected
    | false, true => evaluate_synchronicity_value CatalogSynchronicity_Async selected
    | false, false =>
        if bool_decide (section_modality = CatalogModality_OnCampusOrInPerson) then matched
        else uncertain field MatchReasonCode_MissingReliableData
    end.

Definition evaluate_synchronicity (section : NormalizedSectionV1)
    (occurrences : option (list NormalizedOccurrenceV1)) (selected : list UserSynchronicityV3)
    : PredicateEvaluation :=
  if bool_decide (selected = []) then matched
  else
    let without_occurrences :=
      match nse_delivery_modality section with
      | CatalogModality_OnCampusOrInPerson => matched
      | CatalogModality_Online => evaluate_synchronicity_value (nse_synchronicity section) selected
      | _ => uncertain (wire_name FilterFieldId_SectionSynchronicity) MatchReasonCode_MissingReliableData
      end in
    match occurrences with
    | None => without_occurrences
    | Some [] => without_occurrences
    | Some occurrences =>
        evaluate_synchronicity_facts (nse_delivery_modality section)
          (foldl (synchronicity_step (nse_delivery_modality section))
             {| sf_has_sync := false; sf_has_async := false; sf_uncertainties := [] |} occurrences)
          selected
    end.

Definition travel_applicability (section_modality : CatalogModality)
    (occurrence : NormalizedOccurrenceV1) : ComponentApplicability :=
  let by_section code :=
    match section_modality with
    | CatalogModality_Online => ComponentApplicability_NotApplicable
    | CatalogModality_OnCampusOrInPerson => ComponentApplicability_Applicable
    | _ => ComponentApplicability_Uncertain code
    end in
  match noc_evidence occurrence with
  | CatalogOccurrenceEvidence_Remote => ComponentApplicability_NotApplicable
  | CatalogOccurrenceEvidence_Physical => ComponentApplicability_Applicable
  | CatalogOccurrenceEvidence_None =>
      match noc_modality occurrence with
      | Present CatalogModality_Online => ComponentApplicability_NotApplicable
      | Present (CatalogModality_OnCampusOrInPerson | CatalogModality_Hybrid) =>
          ComponentApplicability_Applicable
      | Present CatalogModality_UnknownConflict =>
          ComponentApplicability_Uncertain MatchReasonCode_ConflictingEvidence
      | Present (CatalogModality_Other | CatalogModality_Unknown) =>
          by_section MatchReasonCode_UnknownValue
      | ExplicitNull | Absent => by_section MatchReasonCode_MissingReliableData
      | Unknown reason => by_section (unknown_reason_code reason)
      end
  end.

Definition occurrence_location (selected : MeetingLocationFilterV2) (occurrence : NormalizedOccurrenceV1)
    : PredicateEvaluation :=
  or_active [
    exact_values (noc_campus occurrence) (token_values (ml_locations selected))
      FilterFieldId_SectionMeetingLocation;
    exact_values (noc_campus_name occurrence) (token_values (ml_locations selected))
      FilterFieldId_SectionMeetingLocation].

Definition evaluate_occurrence_location (section_modality : CatalogModality)
    (selected : MeetingLocationFilterV2) (occurrence : NormalizedOccurrenceV1)
    : option PredicateEvaluation :=
  if bool_decide (noc_requiredness occurrence = CatalogRequiredness_Optional) then None
  else match travel_applicability section_modality occurrence with
       | ComponentApplicability_Applicable => Some (occurrence_location selected occurrence)
       | ComponentApplicability_NotApplicable => None
       | ComponentApplicability_Uncertain code =>
           Some (uncertain (wire_name FilterFieldId_SectionMeetingLocation) code)
       end.

Definition evaluate_meeting_location (section : NormalizedSectionV1)
    (occurrences : option (list NormalizedOccurrenceV1)) (selected : MeetingLocationFilterV2)
    : PredicateEvaluation :=
  let without_occurrences :=
    if bool_decide (nse_delivery_modality section = CatalogModality_Online) then matched
    else uncertain (wire_name FilterFieldId_SectionMeetingLocation) MatchReasonCode_MissingReliableData in
  if bool_decide (ml_locations selected = []) then matched
  else match occurrences with
       | None => without_occurrences
       | Some [] => without_occurrences
       | Some occurrences =>
           and_all (omap (evaluate_occurrence_location (nse_delivery_modality section) selected) occurrences)
       end.

Definition evaluate_permission (value : CatalogFieldKnowledge string) (selected : PermissionFilterV1)
    : PredicateEvaluation :=
  if bool_decide (selected = PermissionFilterV1_Any) then matched
  else
    let field := wire_name FilterFieldId_SectionPermission in
    match value with
    | Present value =>
        let required := bool_decide (trim value ≠ "") in
        bool_result
          match selected, required with
          | PermissionFilterV1_Required, true | PermissionFilterV1_NotRequired, false => true
          | _, _ => false
          end FilterFieldId_SectionPermission
    | ExplicitNull =>
        bool_result (bool_decide (selected = PermissionFilterV1_NotRequired)) FilterFieldId_SectionPermission
    | Absent => uncertain field MatchReasonCode_MissingReliableData
    | Unknown reason => uncertain field (unknown_reason_code reason)
    end.

(** ** All the filters of a course and of a section *)

Definition course_filter_evaluations (group : CourseGroupKey) (variant : NormalizedCourseVariantV1)
    (filters : NormalizedFilterValuesV1) (text_hits : option TextHitPlan)
    : list (FilterFieldId * PredicateEvaluation) := [
  (FilterFieldId_CourseTerm,
   bool_result (bool_decide (cgk_term group = nf_term filters)) FilterFieldId_CourseTerm);
  (FilterFieldId_CourseCampus,
   inactive_or_bool (bool_decide (nf_campuses filters = []))
     (bool_decide (cgk_campus group ∈ nf_campuses filters)) FilterFieldId_CourseCampus);
  (FilterFieldId_CourseSubject,
   exact_values (ncv_subject_code variant) (subject_str <$> nf_subjects filters)
     FilterFieldId_CourseSubject);
  (FilterFieldId_CourseText,
   match nf_text filters with
   | None => matched
   | Some _ =>
       bool_result
         match text_hits with
         | Some plan => bool_decide (is_Some (tp_rank (ncv_key variant) plan))
         | None => false
         end FilterFieldId_CourseText
   end);
  (FilterFieldId_CourseNumberBand,
   evaluate_course_number_band (ncv_course_number variant) (nf_course_number_bands filters));
  (FilterFieldId_CourseLevel,
   exact_values (ncv_level variant) (token_values (nf_levels filters)) FilterFieldId_CourseLevel);
  (FilterFieldId_CourseCredits, evaluate_credits (ncv_credits variant) (nf_credits filters));
  (FilterFieldId_CourseCoreCode, evaluate_core (ncv_core_codes variant) filters);
  (FilterFieldId_CoursePrerequisite,
   evaluate_prerequisite (ncv_prerequisite_state variant) (nf_prerequisite filters))].

Definition evaluate_exam (section : NormalizedSectionV1) (filters : NormalizedFilterValuesV1)
    : PredicateEvaluation :=
  if bool_decide (nf_exam_codes filters = []) then matched
  else or_active [
    exact_values (nse_exam_code section) (token_values (nf_exam_codes filters)) FilterFieldId_SectionExam;
    exact_values (nse_exam_code_text section) (token_values (nf_exam_codes filters))
      FilterFieldId_SectionExam].

Definition section_filter_evaluations (section : NormalizedSectionV1)
    (occurrences : option (list NormalizedOccurrenceV1)) (open : LiveOpenEvidenceV1)
    (now : OffsetDateTime) (filters : NormalizedFilterValuesV1)
    : list (FilterFieldId * PredicateEvaluation) := [
  (FilterFieldId_SectionIndex,
   inactive_or_bool (bool_decide (nf_section_indexes filters = []))
     (bool_decide (sk_index (nse_key section) ∈ nf_section_indexes filters)) FilterFieldId_SectionIndex);
  (FilterFieldId_SectionOpenStatus, evaluate_open open now (nf_open_statuses filters));
  (FilterFieldId_SectionModality,
   evaluate_modality (nse_delivery_modality section) (nf_modalities filters));
  (FilterFieldId_SectionSynchronicity,
   evaluate_synchronicity section occurrences (nf_synchronicities filters));
  (FilterFieldId_SectionInstructor,
   instructor_collection (nse_instructors section) (nf_instructors filters)
     FilterFieldId_SectionInstructor);
  (FilterFieldId_SectionAvailability,
   evaluate_availability section occurrences (nf_availability filters));
  (FilterFieldId_SectionMeetingLocation,
   evaluate_meeting_location section occurrences (nf_meeting_locations filters));
  (FilterFieldId_SectionExam, evaluate_exam section filters);
  (FilterFieldId_SectionPermission,
   evaluate_permission (nse_special_permission_add_code section) (nf_permission filters))].

(** ** Admission *)

Definition admit_filter_evaluation (field : FilterFieldId) (evaluation : PredicateEvaluation)
    (filters : NormalizedFilterValuesV1) : bool :=
  match pe_outcome evaluation with
  | MatchOutcome_NoMatch => false
  | MatchOutcome_Match => true
  | MatchOutcome_Uncertain =>
      match field with
      | FilterFieldId_CoursePrerequisite =>
          if bool_decide (nf_prerequisite filters ≠ PrerequisiteFilterV1_Any)
          then ii_prerequisite (nf_include_incomplete filters) else true
      | FilterFieldId_SectionModality =>
          if bool_decide (nf_modalities filters ≠ [])
          then ii_modality (nf_include_incomplete filters) else true
      | FilterFieldId_SectionSynchronicity =>
          if bool_decide (nf_synchronicities filters ≠ [])
          then ii_synchronicity (nf_include_incomplete filters) else true
      | _ => true
      end
  end.

Record EvaluatedFilters := {
  ef_evaluation : PredicateEvaluation;
  ef_filter_matches : list FilterMatchV1;
  ef_admitted : bool
}.

(** [None] when an explanation violates the match contract, which panics. *)
Definition summarize_filter_evaluations (evaluations : list (FilterFieldId * PredicateEvaluation))
    (filters : NormalizedFilterValuesV1) : option EvaluatedFilters :=
  let admitted := forallb (λ p, admit_filter_evaluation p.1 p.2 filters) evaluations in
  let evaluation := and_all evaluations.*2 in
  filter_matches ←
    mapM (λ p, explanation ← into_explanation p.2;
               Some {| fm_field_id := p.1; fm_explanation := explanation |}) evaluations;
  Some {| ef_evaluation := evaluation; ef_filter_matches := filter_matches; ef_admitted := admitted |}.

Definition evaluate_course_filter_matches (group : CourseGroupKey) (variant : NormalizedCourseVariantV1)
    (filters : NormalizedFilterValuesV1) (text_hits : option TextHitPlan) : option EvaluatedFilters :=
  summarize_filter_evaluations (course_filter_evaluations group variant filters text_hits) filters.

Definition evaluate_section_filter_matches (section : NormalizedSectionV1)
    (occurrences : option (list NormalizedOccurrenceV1)) (open : LiveOpenEvidenceV1)
    (now : OffsetDateTime) (filters : NormalizedFilterValuesV1) : option EvaluatedFilters :=
  summarize_filter_evaluations (section_filter_evaluations section occurrences open now filters) filters.

Definition section_filters_active (filters : NormalizedFilterValuesV1) : bool :=
  bool_decide (nf_section_indexes filters ≠ [])
  || bool_decide (nf_open_statuses filters ≠ [])
  || bool_decide (nf_modalities filters ≠ [])
  || bool_decide (nf_synchronicities filters ≠ [])
  || bool_decide (nf_instructors filters ≠ [])
  || bool_decide (nf_availability filters ≠ [])
  || bool_decide (ml_locations (nf_meeting_locations filters) ≠ [])
  || bool_decide (nf_exam_codes filters ≠ [])
  || bool_decide (nf_permission filters ≠ PermissionFilterV1_Any).
