(* ===== verification/PredicateFacts.v ===== *)
(** * The predicates respect the match contract and incomplete knowledge

    Every filter evaluation satisfies the contract of match explanations and
    gives reasons on its own field only, so that building the explanations never
    panics; what the availability filter means; and that an answer other than
    UNCERTAIN stays the same when the catalog learns more. *)

From S2P Require Import Prelude Ordering Identity RustStr Contracts CatalogData Match Filters.
From S2P Require Import FilterFacts Predicates CatalogSamples.

(** ** Evaluations of one field *)

(** A contract-valid evaluation whose reasons name [field] only. *)
Record evaluates (field : FilterFieldId) (e : PredicateEvaluation) : Prop := {
  ev_valid : evaluation_valid e;
  ev_field : ∀ r, r ∈ pe_reasons e → mr_field r = mkReasonField (wire_name field)
}.

Section field.
Context (field : FilterFieldId).

Lemma evaluates_matched : evaluates field matched.
Proof. split; [done|]. intros r []%elem_of_nil. Qed.
Lemma evaluates_uncertain code :
  code ≠ MatchReasonCode_KnownMismatch → evaluates field (uncertain (wire_name field) code).
Proof. split; [auto with matchdb|]. by intros r ->%list_elem_of_singleton. Qed.
Lemma evaluates_unknown reason :
  evaluates field (uncertain (wire_name field) (unknown_reason_code reason)).
Proof. apply evaluates_uncertain, unknown_reason_not_mismatch. Qed.
Lemma evaluates_no_match : evaluates field (no_match (wire_name field)).
Proof. split; [auto with matchdb|]. by intros r ->%list_elem_of_singleton. Qed.
Lemma evaluates_bool b : evaluates field (bool_result b field).
Proof. destruct b; [apply evaluates_matched|apply evaluates_no_match]. Qed.
Lemma evaluates_inactive i b : evaluates field (inactive_or_bool i b field).
Proof. destruct i; [apply evaluates_matched|apply evaluates_bool]. Qed.

Lemma evaluates_known {T} (k : CatalogFieldKnowledge T) p :
  evaluates field (evaluate_known k (wire_name field) p).
Proof.
  destruct k as [[v| |]|r]; simpl; [destruct (p v)|..];
    auto using evaluates_matched, evaluates_no_match, evaluates_uncertain, evaluates_unknown with matchdb.
Qed.

Lemma evaluates_and_all es : Forall (evaluates field) es → evaluates field (and_all es).
Proof.
  intros Hes. rewrite Forall_forall in Hes.
  assert (Forall evaluation_valid es) as Hv by (apply Forall_forall; intros e He; apply Hes, He).
  split; [by apply and_all_valid|]. intros r Hr. apply elem_of_and_all in Hr as (e & He & Hr); [|done].
  by apply (ev_field _ _ (Hes e He)).
Qed.

Lemma evaluates_or_active es : Forall (evaluates field) es → evaluates field (or_active es).
Proof.
  intros Hes. rewrite Forall_forall in Hes.
  assert (Forall evaluation_valid es) as Hv by (apply Forall_forall; intros e He; apply Hes, He).
  split; [by apply or_active_valid|].
  intros r (_ & _ & _ & e & He & Hr)%elem_of_or_active. by apply (ev_field _ _ (Hes e He)).
Qed.

End field.

#[export] Hint Resolve evaluates_matched evaluates_uncertain evaluates_unknown evaluates_no_match
  evaluates_bool evaluates_inactive evaluates_known evaluates_and_all evaluates_or_active : matchdb.

(** Splits the cases of a predicate; every branch is an evaluation of its field. *)
Ltac evaluates_cases :=
  repeat first
    [ progress cbn zeta
    | match goal with
      | |- evaluates _ (match ?x with _ => _ end) => destruct x
      | |- evaluates _ (if ?b then _ else _) => destruct b
      end ];
  auto with matchdb.

(** ** The predicates of a course *)

Lemma evaluates_exact_values k selected field : evaluates field (exact_values k selected field).
Proof. unfold exact_values. evaluates_cases. Qed.
Lemma evaluates_instructors k selected field : evaluates field (instructor_collection k selected field).
Proof. unfold instructor_collection. evaluates_cases. Qed.
#[export] Hint Resolve evaluates_exact_values evaluates_instructors : matchdb.

Lemma evaluates_credits v selected :
  evaluates FilterFieldId_CourseCredits (evaluate_credits v selected).
Proof. unfold evaluate_credits. evaluates_cases. Qed.

Lemma evaluates_core v filters : evaluates FilterFieldId_CourseCoreCode (evaluate_core v filters).
Proof.
  unfold evaluate_core. evaluates_cases;
    (apply evaluates_or_active || apply evaluates_and_all);
    apply Forall_fmap, Forall_true; intros; simpl; auto with matchdb.
Qed.

Lemma evaluates_prerequisite actual selected :
  evaluates FilterFieldId_CoursePrerequisite (evaluate_prerequisite actual selected).
Proof. unfold evaluate_prerequisite. evaluates_cases. Qed.
Lemma evaluates_course_number_band actual selected :
  evaluates FilterFieldId_CourseNumberBand (evaluate_course_number_band actual selected).
Proof. unfold evaluate_course_number_band. evaluates_cases. Qed.

(** ** The predicates of a section *)

Lemma evaluates_open evidence now selected :
  evaluates FilterFieldId_SectionOpenStatus (evaluate_open evidence now selected).
Proof.
  unfold evaluate_open. evaluates_cases. destruct (lo_uncertainty evidence) as [code|]; [|auto with matchdb].
  destruct (is_known_mismatch code) eqn:E; [auto with matchdb|].
  apply evaluates_uncertain. intros ->. discriminate E.
Qed.

Lemma evaluates_modality actual selected :
  evaluates FilterFieldId_SectionModality (evaluate_modality actual selected).
Proof. unfold evaluate_modality. evaluates_cases. Qed.

Lemma schedule_unknown_code occurrence code :
  schedule_evidence occurrence = ScheduleEvidence_Unknown code → code ≠ MatchReasonCode_KnownMismatch.
Proof.
  unfold schedule_evidence. intros H. repeat case_match; simplify_eq; auto with matchdb.
Qed.

Lemma evaluates_fact windows occurrence e :
  evaluate_fact windows (occurrence_fact occurrence) = Some e → evaluates FilterFieldId_SectionAvailability e.
Proof.
  unfold evaluate_fact. case_bool_decide; [done|]. intros [= <-]. cbn [of_schedule occurrence_fact].
  destruct (schedule_evidence occurrence) as [|days start end_|code] eqn:E; [auto with matchdb| |].
  - destruct (forallb _ _); [auto with matchdb|]. apply evaluates_no_match.
  - apply evaluates_uncertain. by eapply schedule_unknown_code.
Qed.

Lemma evaluates_availability section occurrences windows :
  evaluates FilterFieldId_SectionAvailability (evaluate_availability section occurrences windows).
Proof.
  unfold evaluate_availability. cbn zeta. case_bool_decide; [auto with matchdb|].
  assert (∀ code, code ≠ MatchReasonCode_KnownMismatch →
    evaluates FilterFieldId_SectionAvailability (uncertain availability_field code)) as Hu
    by apply evaluates_uncertain.
  assert (evaluates FilterFieldId_SectionAvailability
    (if bool_decide (nse_synchronicity section = CatalogSynchronicity_Async) then matched
     else uncertain availability_field MatchReasonCode_MissingReliableData)) as Hw
    by (case_bool_decide; auto with matchdb).
  destruct occurrences as [[|o os]|]; [done| |done].
  apply evaluates_and_all, Forall_forall. intros e (fact & Hfact & He)%list_elem_of_omap.
  apply list_elem_of_fmap in Hfact as (occ & -> & _). by eapply evaluates_fact.
Qed.

Lemma online_applicability_code modality occurrence code :
  online_applicability modality occurrence = ComponentApplicability_Uncertain code →
  code ≠ MatchReasonCode_KnownMismatch.
Proof. unfold online_applicability. intros H. repeat case_match; simplify_eq; auto with matchdb. Qed.

Lemma travel_applicability_code modality occurrence code :
  travel_applicability modality occurrence = ComponentApplicability_Uncertain code →
  code ≠ MatchReasonCode_KnownMismatch.
Proof. unfold travel_applicability. intros H. repeat case_match; simplify_eq; auto with matchdb. Qed.

Lemma evaluates_synchronicity_value actual selected :
  evaluates FilterFieldId_SectionSynchronicity (evaluate_synchronicity_value actual selected).
Proof. unfold evaluate_synchronicity_value. evaluates_cases. Qed.
#[export] Hint Resolve evaluates_synchronicity_value : matchdb.

Definition uncertainties_only (es : list PredicateEvaluation) : Prop :=
  Forall (λ e, evaluates FilterFieldId_SectionSynchronicity e ∧ pe_outcome e = MatchOutcome_Uncertain) es.

Lemma sf_uncertain_only code f :
  code ≠ MatchReasonCode_KnownMismatch → uncertainties_only (sf_uncertainties f) →
  uncertainties_only (sf_uncertainties (sf_uncertain code f)).
Proof.
  intros Hc Hf. apply Forall_app. split; [done|]. constructor; [|constructor].
  split; [by apply evaluates_uncertain|done].
Qed.

Lemma synchronicity_step_only modality f occurrence :
  uncertainties_only (sf_uncertainties f) →
  uncertainties_only (sf_uncertainties (synchronicity_step modality f occurrence)).
Proof.
  intros Hf. unfold synchronicity_step.
  destruct (online_applicability modality occurrence) as [| |code] eqn:E;
    [|done|by apply sf_uncertain_only; [eapply online_applicability_code|]].
  cbn zeta. destruct (remote_by_arrangement occurrence);
    repeat case_match; try done; apply sf_uncertain_only; auto with matchdb.
Qed.

Lemma synchronicity_run_only modality occurrences f :
  uncertainties_only (sf_uncertainties f) →
  uncertainties_only (sf_uncertainties (foldl (synchronicity_step modality) f occurrences)).
Proof.
  revert f. induction occurrences as [|o os IH]; intros f Hf; simpl; [done|].
  by apply IH, synchronicity_step_only.
Qed.

Lemma evaluates_synchronicity_facts modality f selected :
  uncertainties_only (sf_uncertainties f) →
  evaluates FilterFieldId_SectionSynchronicity (evaluate_synchronicity_facts modality f selected).
Proof.
  intros Hf. unfold evaluate_synchronicity_facts. evaluates_cases; apply evaluates_and_all;
    (eapply Forall_impl; [exact Hf|]; by intros ? []).
Qed.

Lemma evaluates_synchronicity section occurrences selected :
  evaluates FilterFieldId_SectionSynchronicity (evaluate_synchronicity section occurrences selected).
Proof.
  unfold evaluate_synchronicity. cbn zeta. case_bool_decide; [auto with matchdb|].
  destruct occurrences as [[|o os]|]; [evaluates_cases| |evaluates_cases].
  apply evaluates_synchronicity_facts, synchronicity_run_only. constructor.
Qed.

Lemma evaluates_meeting_location section occurrences selected :
  evaluates FilterFieldId_SectionMeetingLocation (evaluate_meeting_location section occurrences selected).
Proof.
  unfold evaluate_meeting_location. cbn zeta. case_bool_decide; [auto with matchdb|].
  destruct occurrences as [[|o os]|]; [evaluates_cases| |evaluates_cases].
  apply evaluates_and_all, Forall_forall. intros e (occ & _ & He)%list_elem_of_omap.
  unfold evaluate_occurrence_location in He. case_bool_decide; [done|].
  destruct (travel_applicability _ _) as [| |code] eqn:E; simplify_eq.
  - apply evaluates_or_active. repeat constructor; apply evaluates_exact_values.
  - by apply evaluates_uncertain, (travel_applicability_code _ _ _ E).
Qed.

Lemma evaluates_permission value selected :
  evaluates FilterFieldId_SectionPermission (evaluate_permission value selected).
Proof. unfold evaluate_permission. evaluates_cases. Qed.

Lemma evaluates_exam section filters : evaluates FilterFieldId_SectionExam (evaluate_exam section filters).
Proof.
  unfold evaluate_exam. case_bool_decide; [auto with matchdb|].
  apply evaluates_or_active. repeat constructor; apply evaluates_exact_values.
Qed.

(** ** All the filters together *)

Definition evaluations_own (evaluations : list (FilterFieldId * PredicateEvaluation)) : Prop :=
  Forall (λ p, evaluates p.1 p.2) evaluations.

#[export] Hint Resolve evaluates_credits evaluates_core evaluates_prerequisite
  evaluates_course_number_band evaluates_open evaluates_modality evaluates_availability
  evaluates_synchronicity evaluates_meeting_location evaluates_permission evaluates_exam : matchdb.

Lemma course_evaluations_own group variant filters text_hits :
  evaluations_own (course_filter_evaluations group variant filters text_hits).
Proof.
  repeat (apply Forall_cons; split); [cbn [fst snd]; auto with matchdb..|constructor].
  destruct (nf_text filters); auto with matchdb.
Qed.

Lemma section_evaluations_own section occurrences open now filters :
  evaluations_own (section_filter_evaluations section occurrences open now filters).
Proof. repeat (apply Forall_cons; split); [cbn [fst snd]; auto with matchdb..|constructor]. Qed.

(** The filter match of an evaluation. *)
Definition filter_match (p : FilterFieldId * PredicateEvaluation) : FilterMatchV1 :=
  {| fm_field_id := p.1;
     fm_explanation := {| me_outcome := pe_outcome p.2; me_reasons := pe_reasons p.2 |} |}.

Lemma summarize_own evaluations filters :
  evaluations_own evaluations →
  summarize_filter_evaluations evaluations filters = Some {|
    ef_evaluation := and_all evaluations.*2;
    ef_filter_matches := filter_match <$> evaluations;
    ef_admitted := forallb (λ p, admit_filter_evaluation p.1 p.2 filters) evaluations |}.
Proof.
  intros Hown. unfold summarize_filter_evaluations. cbn zeta.
  assert (mapM (λ p, explanation ← into_explanation p.2;
    Some {| fm_field_id := p.1; fm_explanation := explanation |}) evaluations =
    Some (filter_match <$> evaluations)) as ->; [|done].
  apply mapM_Some, Forall2_fmap_r, Forall_Forall2_diag.
  eapply Forall_impl; [exact Hown|]. intros [field e] [Hv _]. simpl.
  by rewrite (proj1 (into_explanation_valid e) Hv).
Qed.

(** The include-incomplete switch of a field. *)
Definition admits_incomplete (filters : NormalizedFilterValuesV1) (field : FilterFieldId) : bool :=
  match field with
  | FilterFieldId_CoursePrerequisite => ii_prerequisite (nf_include_incomplete filters)
  | FilterFieldId_SectionModality => ii_modality (nf_include_incomplete filters)
  | FilterFieldId_SectionSynchronicity => ii_synchronicity (nf_include_incomplete filters)
  | _ => true
  end.

(** An uncertain answer of a field with a switch comes from an active filter. *)
Definition active_if_uncertain (filters : NormalizedFilterValuesV1)
    (p : FilterFieldId * PredicateEvaluation) : Prop :=
  pe_outcome p.2 = MatchOutcome_Uncertain →
  match p.1 with
  | FilterFieldId_CoursePrerequisite => nf_prerequisite filters ≠ PrerequisiteFilterV1_Any
  | FilterFieldId_SectionModality => nf_modalities filters ≠ []
  | FilterFieldId_SectionSynchronicity => nf_synchronicities filters ≠ []
  | _ => True
  end.

Lemma admit_iff filters p :
  active_if_uncertain filters p →
  admit_filter_evaluation p.1 p.2 filters = true ↔
  pe_outcome p.2 ≠ MatchOutcome_NoMatch ∧
  (pe_outcome p.2 = MatchOutcome_Uncertain → admits_incomplete filters p.1 = true).
Proof.
  destruct p as [field e]. unfold active_if_uncertain, admit_filter_evaluation. simpl. intros Ha.
  destruct (pe_outcome e); [naive_solver| |naive_solver].
  specialize (Ha eq_refl). destruct field; simpl in *; rewrite ?bool_decide_eq_true_2 by done; naive_solver.
Qed.

Lemma course_active_if_uncertain group variant filters text_hits :
  Forall (active_if_uncertain filters) (course_filter_evaluations group variant filters text_hits).
Proof.
  unfold course_filter_evaluations. repeat (apply Forall_cons; split); [intros He; simpl in *; try done..|constructor].
  intros Hany. rewrite Hany in He. discriminate He.
Qed.

Lemma section_active_if_uncertain section occurrences open now filters :
  Forall (active_if_uncertain filters) (section_filter_evaluations section occurrences open now filters).
Proof.
  unfold section_filter_evaluations. repeat (apply Forall_cons; split); [intros He; simpl in *; try done..|constructor];
    intros Hany; rewrite Hany in He; discriminate He.
Qed.

(** What summarizing the evaluations of all the filters promises: no panic, the
    fixed order of the fields, reasons on the own field, the conjunction of the
    outcomes, and admission exactly of what no filter excludes. *)
Record summary_ok (fields : list FilterFieldId) (filters : NormalizedFilterValuesV1)
    (ef : EvaluatedFilters) : Prop := {
  so_fields : fm_field_id <$> ef_filter_matches ef = fields;
  so_reasons : ∀ m r, m ∈ ef_filter_matches ef → r ∈ me_reasons (fm_explanation m) →
    mr_field r = mkReasonField (wire_name (fm_field_id m));
  so_outcome : pe_outcome (ef_evaluation ef) =
    outcome_all ((λ m, me_outcome (fm_explanation m)) <$> ef_filter_matches ef);
  so_admitted : ef_admitted ef = true ↔
    ∀ m, m ∈ ef_filter_matches ef →
      me_outcome (fm_explanation m) ≠ MatchOutcome_NoMatch ∧
      (me_outcome (fm_explanation m) = MatchOutcome_Uncertain →
       admits_incomplete filters (fm_field_id m) = true)
}.

Lemma summarize_ok fields evaluations filters :
  evaluations_own evaluations → Forall (active_if_uncertain filters) evaluations →
  evaluations.*1 = fields →
  ∃ ef, summarize_filter_evaluations evaluations filters = Some ef ∧ summary_ok fields filters ef.
Proof.
  intros Hown Hact Hfields. eexists. split; [by apply summarize_own|]. split; simpl.
  - by rewrite <-Hfields, <-list_fmap_compose.
  - intros m r ([field e] & -> & Hin)%list_elem_of_fmap Hr. unfold evaluations_own in Hown.
    rewrite Forall_forall in Hown. by apply (ev_field _ _ (Hown _ Hin)).
  - rewrite and_all_outcome. by rewrite <-!list_fmap_compose.
  - rewrite forallb_forall. rewrite Forall_forall in Hact. split.
    + intros Hall m (p & -> & Hin)%list_elem_of_fmap. apply admit_iff; [by apply Hact|].
      by apply Hall, list_elem_of_In.
    + intros Hall p Hin%list_elem_of_In. apply admit_iff; [by apply Hact|].
      by apply (Hall (filter_match p)), list_elem_of_fmap_2.
Qed.

(** Evaluating all the filters of a course or of a section never panics and
    gives one explanation per filter in the order of the filter fields; every
    reason names the field it is given for; the overall outcome is the
    conjunction of the outcomes; and an item is admitted exactly when no filter
    excludes it and every uncertain prerequisite, modality or synchronicity is
    allowed by its include-incomplete switch. *)
Theorem filter_evaluation_total (group : CourseGroupKey) (variant : NormalizedCourseVariantV1)
    (text_hits : option TextHitPlan) (section : NormalizedSectionV1)
    (occurrences : option (list NormalizedOccurrenceV1)) (open : LiveOpenEvidenceV1)
    (now : OffsetDateTime) (filters : NormalizedFilterValuesV1) :
  (∃ course, evaluate_course_filter_matches group variant filters text_hits = Some course ∧
     summary_ok (take 9 FilterFieldId_ALL) filters course) ∧
  (∃ evaluated, evaluate_section_filter_matches section occurrences open now filters = Some evaluated ∧
     summary_ok (drop 9 FilterFieldId_ALL) filters evaluated).
Proof.
  split; apply summarize_ok;
    auto using course_evaluations_own, course_active_if_uncertain, section_evaluations_own,
      section_active_if_uncertain.
Qed.

(** ** Availability *)

Lemma outcome_all_cases os :
  (outcome_all os = MatchOutcome_Match ↔ ∀ o, o ∈ os → o = MatchOutcome_Match) ∧
  (outcome_all os = MatchOutcome_NoMatch ↔ MatchOutcome_NoMatch ∈ os).
Proof.
  unfold outcome_all. rewrite foldl_outcome_and.
  case_bool_decide as Hn.
  { apply elem_of_cons in Hn as [?|Hn]; [done|]. split; [|tauto]. split; [done|].
    intros H. by apply H in Hn. }
  case_bool_decide as Hu; (split; [|set_solver]).
  - apply elem_of_cons in Hu as [?|Hu]; [done|]. split; [done|]. intros H. by apply H in Hu.
  - split; [|done]. intros _ o Ho. destruct o; set_solver.
Qed.

(** The names of the days of the week in the feed. *)
Definition WEEKDAYS : list (string * WeekdayV1) :=
  [("M", WeekdayV1_Monday); ("T", WeekdayV1_Tuesday); ("W", WeekdayV1_Wednesday); ("H", WeekdayV1_Thursday);
   ("TH", WeekdayV1_Thursday); ("F", WeekdayV1_Friday); ("S", WeekdayV1_Saturday); ("U", WeekdayV1_Sunday)].

Lemma weekday_named name day : weekday name = Some day ↔ (name, day) ∈ WEEKDAYS.
Proof.
  unfold weekday, WEEKDAYS. rewrite !elem_of_cons, elem_of_nil. split.
  - repeat case_bool_decide; cbn [orb]; naive_solver.
  - intros Hin. by destruct_or!; simplify_eq.
Qed.

(** The weekly meeting an occurrence states: not asynchronous, with a time and
    between one and seven days the code can read. *)
Definition meets (occurrence : NormalizedOccurrenceV1) (days : list WeekdayV1) (start end_ : Z) : Prop :=
  noc_synchronicity occurrence ≠ Present CatalogSynchronicity_Async ∧
  noc_time occurrence = CatalogTimeKnowledgeV1_Known start end_ ∧
  ∃ names, noc_days occurrence = Present names ∧ names ≠ [] ∧ (length names ≤ 7)%nat ∧
    Forall2 (λ name day, (name, day) ∈ WEEKDAYS) names days.

Definition within (windows : list AvailabilityWindowV1) (day : WeekdayV1) (start end_ : Z) : Prop :=
  ∃ window, window ∈ windows ∧ aw_weekday window = day ∧
    aw_start_minute window ≤ start ∧ end_ ≤ aw_end_minute window.

Definition attendable (windows : list AvailabilityWindowV1) (occurrence : NormalizedOccurrenceV1) : Prop :=
  noc_synchronicity occurrence = Present CatalogSynchronicity_Async ∨
  ∃ days start end_, meets occurrence days start end_ ∧ ∀ day, day ∈ days → within windows day start end_.

Definition unattendable (windows : list AvailabilityWindowV1) (occurrence : NormalizedOccurrenceV1) : Prop :=
  ∃ days start end_ day, meets occurrence days start end_ ∧ day ∈ days ∧ ¬ within windows day start end_.

(** Why the meeting of an occurrence cannot be told. *)
Inductive unreadable (occurrence : NormalizedOccurrenceV1) : MatchReasonCode → Prop :=
| unreadable_time_missing :
    noc_time occurrence = CatalogTimeKnowledgeV1_Missing → unreadable occurrence MatchReasonCode_MissingReliableData
| unreadable_time_tba :
    noc_time occurrence = CatalogTimeKnowledgeV1_ExplicitNull ∨ noc_time occurrence = CatalogTimeKnowledgeV1_Empty
    ∨ noc_time occurrence = CatalogTimeKnowledgeV1_Partial → unreadable occurrence MatchReasonCode_Tba
| unreadable_time_invalid :
    noc_time occurrence = CatalogTimeKnowledgeV1_Invalid → unreadable occurrence MatchReasonCode_InvalidValue
| unreadable_days_absent start end_ :
    noc_time occurrence = CatalogTimeKnowledgeV1_Known start end_ → noc_days occurrence = Absent →
    unreadable occurrence MatchReasonCode_MissingReliableData
| unreadable_days_null start end_ :
    noc_time occurrence = CatalogTimeKnowledgeV1_Known start end_ → noc_days occurrence = ExplicitNull →
    unreadable occurrence MatchReasonCode_Tba
| unreadable_days_number start end_ names :
    noc_time occurrence = CatalogTimeKnowledgeV1_Known start end_ → noc_days occurrence = Present names →
    names = [] ∨ (7 < length names)%nat → unreadable occurrence MatchReasonCode_Tba
| unreadable_days_name start end_ names name :
    noc_time occurrence = CatalogTimeKnowledgeV1_Known start end_ → noc_days occurrence = Present names →
    (length names ≤ 7)%nat → name ∈ names → name ∉ WEEKDAYS.*1 →
    unreadable occurrence MatchReasonCode_InvalidValue
| unreadable_days_unknown start end_ reason code :
    noc_time occurrence = CatalogTimeKnowledgeV1_Known start end_ → noc_days occurrence = Unknown reason →
    (reason, code) ∈
      [(CatalogUnknownReason_Missing, MatchReasonCode_MissingReliableData);
       (CatalogUnknownReason_ExplicitNull, MatchReasonCode_MissingReliableData);
       (CatalogUnknownReason_SparseEvidence, MatchReasonCode_MissingReliableData);
       (CatalogUnknownReason_NotObserved, MatchReasonCode_MissingReliableData);
       (CatalogUnknownReason_Malformed, MatchReasonCode_InvalidValue);
       (CatalogUnknownReason_SourceUnavailable, MatchReasonCode_SourceUnavailable);
       (CatalogUnknownReason_ConflictingEvidence, MatchReasonCode_ConflictingEvidence)] →
    unreadable occurrence code.

(** An attended meeting that is not asynchronous and cannot be told. *)
Definition undetermined (occurrence : NormalizedOccurrenceV1) (code : MatchReasonCode) : Prop :=
  noc_synchronicity occurrence ≠ Present CatalogSynchronicity_Async ∧ unreadable occurrence code.

Lemma weekday_unnamed names : mapM weekday names = None ↔ ∃ name, name ∈ names ∧ name ∉ WEEKDAYS.*1.
Proof.
  rewrite mapM_None, Exists_exists. split; intros (name & Hin & Hn); exists name; (split; [done|]).
  - intros ([name' day] & -> & Hw%weekday_named)%list_elem_of_fmap. cbn in *. congruence.
  - destruct (weekday name) as [day|] eqn:E; [|done]. apply weekday_named in E.
    destruct Hn. by apply (list_elem_of_fmap_2 fst) in E.
Qed.

(** The evidence of an occurrence that is not asynchronous. *)
Definition timed_evidence (occurrence : NormalizedOccurrenceV1) : ScheduleEvidence :=
  match noc_time occurrence with
  | CatalogTimeKnowledgeV1_Missing => ScheduleEvidence_Unknown MatchReasonCode_MissingReliableData
  | CatalogTimeKnowledgeV1_ExplicitNull | CatalogTimeKnowledgeV1_Empty
  | CatalogTimeKnowledgeV1_Partial => ScheduleEvidence_Unknown MatchReasonCode_Tba
  | CatalogTimeKnowledgeV1_Invalid => ScheduleEvidence_Unknown MatchReasonCode_InvalidValue
  | CatalogTimeKnowledgeV1_Known start end_ =>
      match noc_days occurrence with
      | Present value =>
          if bool_decide (value ≠ []) && bool_decide (length value ≤ 7)%nat then
            match mapM weekday value with
            | Some days => ScheduleEvidence_Timed days start end_
            | None => ScheduleEvidence_Unknown MatchReasonCode_InvalidValue
            end
          else ScheduleEvidence_Unknown MatchReasonCode_Tba
      | ExplicitNull => ScheduleEvidence_Unknown MatchReasonCode_Tba
      | Absent => ScheduleEvidence_Unknown MatchReasonCode_MissingReliableData
      | Unknown reason => ScheduleEvidence_Unknown (unknown_reason_code reason)
      end
  end.

Lemma schedule_meeting occurrence :
  noc_synchronicity occurrence ≠ Present CatalogSynchronicity_Async →
  schedule_evidence occurrence = timed_evidence occurrence.
Proof. unfold schedule_evidence, timed_evidence. intros Hs. by destruct (noc_synchronicity occurrence) as [[[]| |]|]. Qed.

Lemma unknown_code reason code :
  unknown_reason_code reason = code ↔
  (reason, code) ∈
    [(CatalogUnknownReason_Missing, MatchReasonCode_MissingReliableData);
     (CatalogUnknownReason_ExplicitNull, MatchReasonCode_MissingReliableData);
     (CatalogUnknownReason_SparseEvidence, MatchReasonCode_MissingReliableData);
     (CatalogUnknownReason_NotObserved, MatchReasonCode_MissingReliableData);
     (CatalogUnknownReason_Malformed, MatchReasonCode_InvalidValue);
     (CatalogUnknownReason_SourceUnavailable, MatchReasonCode_SourceUnavailable);
     (CatalogUnknownReason_ConflictingEvidence, MatchReasonCode_ConflictingEvidence)].
Proof.
  rewrite !elem_of_cons, elem_of_nil. split; [intros <-; destruct reason; cbn; tauto|].
  intros Hin. by destruct_or!; simplify_eq.
Qed.

Lemma meeting_unknown occurrence code :
  timed_evidence occurrence = ScheduleEvidence_Unknown code ↔ unreadable occurrence code.
Proof.
  unfold timed_evidence. split.
  - destruct (noc_time occurrence) as [| | | | |start end_] eqn:Ht;
      [intros [= <-]; by apply unreadable_time_missing|intros [= <-]; apply unreadable_time_tba; tauto..
      |intros [= <-]; by apply unreadable_time_invalid|].
    destruct (noc_days occurrence) as [[names| |]|reason] eqn:Hd;
      [|intros [= <-]; by eapply unreadable_days_null|intros [= <-]; by eapply unreadable_days_absent|].
    + destruct (bool_decide (names ≠ []) && _) eqn:Hn.
      * destruct (mapM weekday names) eqn:Hm; [done|]. intros [= <-].
        apply andb_true_iff in Hn as [_ Hn%bool_decide_eq_true].
        apply weekday_unnamed in Hm as (name & ? & ?). by eapply unreadable_days_name.
      * intros [= <-]. eapply unreadable_days_number; [done..|].
        apply andb_false_iff in Hn as [Hn%bool_decide_eq_false|Hn%bool_decide_eq_false]; [left; by apply dec_stable|right; lia].
    + intros [= <-]. eapply unreadable_days_unknown; [done..|]. by apply unknown_code.
  - intros [Ht|[Ht|[Ht|Ht]]|Ht|? ? Ht Hd|? ? Ht Hd|? ? names Ht Hd Hn|? ? names name Ht Hd Hl Hin Hn|? ? reason ? Ht Hd Hc];
      rewrite Ht, ?Hd; try done.
    + destruct Hn as [->|Hn]; [done|]. rewrite (bool_decide_eq_false_2 (length names ≤ 7)%nat) by lia. by rewrite andb_false_r.
    + rewrite (bool_decide_eq_true_2 (names ≠ [])), bool_decide_eq_true_2 by (done || by intros ->; apply elem_of_nil in Hin).
      by rewrite (proj2 (weekday_unnamed names)) by eauto.
    + by apply unknown_code in Hc as <-.
Qed.

Lemma schedule_unknown occurrence code :
  schedule_evidence occurrence = ScheduleEvidence_Unknown code ↔ undetermined occurrence code.
Proof.
  unfold undetermined. split.
  - intros H. assert (noc_synchronicity occurrence ≠ Present CatalogSynchronicity_Async) as Hs
      by (intros E; unfold schedule_evidence in H; by rewrite E in H).
    rewrite schedule_meeting in H by done. split; [done|by apply meeting_unknown].
  - intros [Hs Hu]. rewrite schedule_meeting by done. by apply meeting_unknown.
Qed.

Lemma schedule_async occurrence :
  schedule_evidence occurrence = ScheduleEvidence_ExplicitAsync ↔
  noc_synchronicity occurrence = Present CatalogSynchronicity_Async.
Proof.
  unfold schedule_evidence. split.
  - intros H. repeat case_match; simplify_eq; done.
  - by intros ->.
Qed.

Lemma schedule_timed occurrence days start end_ :
  schedule_evidence occurrence = ScheduleEvidence_Timed days start end_ ↔
  meets occurrence days start end_.
Proof.
  unfold meets. split.
  - unfold schedule_evidence. intros H.
    repeat case_match; try discriminate; simplify_eq;
    match goal with H : _ && _ = true |- _ => apply andb_true_iff in H as [?%bool_decide_eq_true ?%bool_decide_eq_true] end;
    (split_and!; [done|done|]; eexists; split_and!; [done..|];
     eapply Forall2_impl; [by apply mapM_Some|]; intros; by apply weekday_named).
  - intros (Hs & Ht & names & Hd & Hne & Hlen & Hf).
    assert (mapM weekday names = Some days) as Hm
      by (apply mapM_Some; eapply Forall2_impl; [exact Hf|]; intros; by apply weekday_named).
    unfold schedule_evidence.
    rewrite Ht, Hd, (bool_decide_eq_true_2 (names ≠ [])), bool_decide_eq_true_2, Hm by done.
    repeat case_match; simplify_eq; done.
Qed.

Lemma days_within windows days start end_ :
  forallb (λ day, existsb (window_contains day start end_) windows) days = true ↔
  ∀ day, day ∈ days → within windows day start end_.
Proof.
  rewrite forallb_forall. split; intros H day Hd; [apply list_elem_of_In in Hd|apply list_elem_of_In in Hd];
    specialize (H day Hd).
  - apply existsb_exists in H as (w & Hw & Hc). exists w. unfold window_contains in Hc.
    rewrite !andb_true_iff, !bool_decide_eq_true in Hc. rewrite list_elem_of_In. tauto.
  - destruct H as (w & Hw & Hc). apply existsb_exists. exists w. unfold window_contains.
    rewrite !andb_true_iff, !bool_decide_eq_true. rewrite <-list_elem_of_In. tauto.
Qed.

Lemma days_not_within windows days start end_ :
  forallb (λ day, existsb (window_contains day start end_) windows) days = false ↔
  ∃ day, day ∈ days ∧ ¬ within windows day start end_.
Proof.
  induction days as [|day days IH]; [split; [done|set_solver]|].
  pose proof (days_within windows [day] start end_) as Hd. cbn [forallb] in *.
  rewrite andb_true_r in Hd. rewrite andb_false_iff, IH, <-not_true_iff_false, Hd. clear IH Hd. split.
  - intros [Hn|(d & Hin & Hn)]; [|exists d; set_solver]. exists day. split; [left|].
    intros Hw. apply Hn. by intros d ->%list_elem_of_singleton.
  - intros (d & [->|Hin]%elem_of_cons & Hn); [left|right; eauto]. intros H. apply Hn, H. left.
Qed.

Lemma evaluate_fact_cases windows occurrence e :
  evaluate_fact windows (occurrence_fact occurrence) = Some e →
  (pe_outcome e = MatchOutcome_Match ↔ attendable windows occurrence) ∧
  (pe_outcome e = MatchOutcome_NoMatch ↔ unattendable windows occurrence).
Proof.
  unfold evaluate_fact. simpl. case_bool_decide; [done|]. intros [= <-].
  pose proof (schedule_async occurrence) as Ha. pose proof (schedule_timed occurrence) as Ht.
  destruct (schedule_evidence occurrence) as [|days start end_|code]; simpl.
  - split; split; try done; [intros _; left; by apply Ha|].
    intros (days & start & end_ & day & Hm%Ht & _). done.
  - assert (∀ d s f, meets occurrence d s f → d = days ∧ s = start ∧ f = end_) as Huniq
      by (intros d s f Hm%Ht; by simplify_eq).
    assert (meets occurrence days start end_) as Hm by by apply Ht.
    assert (noc_synchronicity occurrence ≠ Present CatalogSynchronicity_Async) as Hna by (intros H'%Ha; done).
    pose proof (days_within windows days start end_) as Hw. unfold attendable, unattendable.
    destruct (forallb _ days) eqn:E; simpl.
    + split; split; try done; [intros _; right; do 3 eexists; split; [done|by apply Hw]|].
      intros (d & s & f & day & Hm' & Hin & Hn). apply Huniq in Hm' as (-> & -> & ->).
      destruct Hn. by apply Hw.
    + split; split; try done.
      * intros [?|(d & s & f & Hm' & Hall)]; [done|]. apply Huniq in Hm' as (-> & -> & ->).
        apply Hw in Hall. congruence.
      * intros _. apply days_not_within in E as (day & Hin & Hn). by exists days, start, end_, day.
  - split; split; try done.
    + intros [H'%Ha|(days & start & end_ & Hm%Ht & _)]; done.
    + intros (days & start & end_ & day & Hm%Ht & _). done.
Qed.

(** The reason a meeting gives: it is outside every window, or it cannot be told. *)
Definition states_reason (windows : list AvailabilityWindowV1) (occurrence : NormalizedOccurrenceV1)
    (r : MatchReason) : Prop :=
  reason_field_str (mr_field r) = "FLT-S06" ∧
  (unattendable windows occurrence ∧ mr_code r = MatchReasonCode_KnownMismatch ∨ undetermined occurrence (mr_code r)).

Lemma stable_reason_eq r code :
  r ∈ [stable_reason availability_field code] ↔ reason_field_str (mr_field r) = "FLT-S06" ∧ mr_code r = code.
Proof.
  rewrite list_elem_of_singleton. unfold stable_reason, availability_field. destruct r as [c [f]]. cbn. split.
  - by intros [= -> ->].
  - by intros [-> ->].
Qed.

Lemma evaluate_fact_reasons windows occurrence e r :
  evaluate_fact windows (occurrence_fact occurrence) = Some e → r ∈ pe_reasons e ↔ states_reason windows occurrence r.
Proof.
  intros He. destruct (evaluate_fact_cases _ _ _ He) as [_ Hno]. unfold states_reason. rewrite <-Hno. clear Hno.
  unfold evaluate_fact in He. cbn [of_requiredness of_schedule occurrence_fact] in He. case_bool_decide; [done|]. injection He as <-.
  pose proof (schedule_unknown occurrence (mr_code r)) as Hu. rewrite <-Hu. clear Hu.
  destruct (schedule_evidence occurrence) as [|days start end_|code]; [|destruct (forallb _ _)|]; cbn [pe_reasons pe_outcome matched no_match uncertain].
  - rewrite elem_of_nil. naive_solver.
  - rewrite elem_of_nil. naive_solver.
  - rewrite stable_reason_eq. naive_solver.
  - rewrite stable_reason_eq. naive_solver.
Qed.

(** What the meetings of a section say together, when there are any. *)
Lemma evaluate_facts_spec windows occurrences :
  let e := evaluate_facts (occurrence_fact <$> occurrences) windows in
  let attended o := o ∈ occurrences ∧ noc_requiredness o ≠ CatalogRequiredness_Optional in
  (pe_outcome e = MatchOutcome_Match ↔ ∀ o, attended o → attendable windows o) ∧
  (pe_outcome e = MatchOutcome_NoMatch ↔ ∃ o, attended o ∧ unattendable windows o) ∧
  ∀ r, r ∈ pe_reasons e ↔ ∃ o, attended o ∧ states_reason windows o r.
Proof.
  cbn zeta. unfold evaluate_facts. set (es := omap (evaluate_fact windows) (occurrence_fact <$> occurrences)).
  assert (∀ e, e ∈ es ↔ ∃ o, (o ∈ occurrences ∧ noc_requiredness o ≠ CatalogRequiredness_Optional)
    ∧ evaluate_fact windows (occurrence_fact o) = Some e) as Hin.
  { intros e. unfold es. rewrite list_elem_of_omap. setoid_rewrite list_elem_of_fmap. split.
    - intros (f & (o & -> & Ho) & He). exists o. split; [split; [done|]|done].
      unfold evaluate_fact in He. cbn in He. by case_bool_decide.
    - intros (o & [Ho _] & He). eauto. }
  assert (∀ o, noc_requiredness o ≠ CatalogRequiredness_Optional →
    is_Some (evaluate_fact windows (occurrence_fact o))) as Hreq
    by (intros o Hr; unfold evaluate_fact; cbn; rewrite bool_decide_eq_false_2 by done; eauto).
  rewrite and_all_outcome. destruct (outcome_all_cases (pe_outcome <$> es)) as [-> ->]. split_and!.
  - setoid_rewrite list_elem_of_fmap. split.
    + intros Hall o Ho. destruct (Hreq o (proj2 Ho)) as [e He]. apply (evaluate_fact_cases _ _ _ He), Hall.
      exists e. split; [done|]. apply Hin. eauto.
    + intros Hall c (e & -> & (o & Ho & He)%Hin). by apply (evaluate_fact_cases _ _ _ He), Hall.
  - setoid_rewrite list_elem_of_fmap. split.
    + intros (e & Hc & (o & Ho & He)%Hin). exists o. split; [done|]. by apply (evaluate_fact_cases _ _ _ He).
    + intros (o & Ho & Hu). destruct (Hreq o (proj2 Ho)) as [e He]. exists e.
      split; [by apply (evaluate_fact_cases _ _ _ He) in Hu|]. apply Hin. eauto.
  - intros r. rewrite elem_of_and_all by (apply Forall_forall; intros e (o & _ & He)%Hin; by eapply ev_valid, evaluates_fact). split.
    + intros (e & (o & Ho & He)%Hin & Hr). exists o. split; [done|]. by apply (evaluate_fact_reasons _ _ _ _ He).
    + intros (o & Ho & Hr). destruct (Hreq o (proj2 Ho)) as [e He]. exists e.
      split; [apply Hin; eauto|]. by apply (evaluate_fact_reasons _ _ _ _ He).
Qed.

(** C36. The availability filter, on every branch. A section matches exactly
    when no window is selected, or it has no known meeting and is asynchronous,
    or every meeting of it that is not optional is asynchronous or has each of
    its days inside a single window. It is excluded exactly when some window is
    selected and some such meeting with a known time has a day that no single
    window contains. Otherwise the answer is uncertain, and the reasons say
    why: reliable data are missing when no meeting is known, and each meeting
    whose time or days cannot be told gives the code of what is wrong with it. *)
Theorem availability_spec (section : NormalizedSectionV1)
    (occurrences : option (list NormalizedOccurrenceV1)) (windows : list AvailabilityWindowV1) :
  let e := evaluate_availability section occurrences windows in
  let meetings := default [] occurrences in
  let attended o := o ∈ meetings ∧ noc_requiredness o ≠ CatalogRequiredness_Optional in
  let async := nse_synchronicity section = CatalogSynchronicity_Async in
  (pe_outcome e = MatchOutcome_Match ↔
     windows = [] ∨ meetings = [] ∧ async ∨ meetings ≠ [] ∧ ∀ o, attended o → attendable windows o) ∧
  (pe_outcome e = MatchOutcome_NoMatch ↔ windows ≠ [] ∧ ∃ o, attended o ∧ unattendable windows o) ∧
  (∀ r, r ∈ pe_reasons e ↔ windows ≠ [] ∧
     (meetings = [] ∧ ¬ async ∧ reason_field_str (mr_field r) = "FLT-S06"
        ∧ mr_code r = MatchReasonCode_MissingReliableData
      ∨ ∃ o, attended o ∧ states_reason windows o r)).
Proof.
  intros e meetings attended async. unfold e, evaluate_availability. cbn zeta.
  case_bool_decide as Hw; [cbn [pe_outcome pe_reasons matched]; split_and!; [by split; [left|]|naive_solver|];
    intros r; rewrite elem_of_nil; naive_solver|].
  destruct (decide (meetings = [])) as [Hm|Hm].
  - assert (∀ o, ¬ attended o) as Hnone by (unfold attended; rewrite Hm; intros o [Ho _]; by apply elem_of_nil in Ho).
    destruct occurrences as [[|o os]|]; [|done|];
      (case_bool_decide as Ha; cbn [pe_outcome pe_reasons matched uncertain];
       (split; [naive_solver|split; [naive_solver|intros r; rewrite ?stable_reason_eq, ?elem_of_nil; naive_solver]])).
  - destruct occurrences as [[|o os]|]; [done| |done].
    destruct (evaluate_facts_spec windows (o :: os)) as (H1 & H2 & H3).
    split; [rewrite H1|split; [rewrite H2|intros r; rewrite H3]]; unfold attended, meetings; naive_solver.
Qed.

(** Two meetings of a section on Monday, of which one is outside the window. *)
Example availability_example :
  let section := sample_section "01:198:111" "06672" [0] in
  let windows := [{| aw_weekday := WeekdayV1_Monday; aw_start_minute := 540; aw_end_minute := 700 |}] in
  let inside := sample_meeting "06672" 0 (Present ["M"]) 600 680 in
  let outside := sample_meeting "06672" 0 (Present ["M"]) 600 720 in
  let unknown := sample_meeting "06672" 0 Absent 600 720 in
  (λ meetings, pe_outcome (evaluate_availability section meetings windows)) <$>
    [Some [inside]; Some [inside; outside]; Some [inside; unknown]; Some []; None]
  = [MatchOutcome_Match; MatchOutcome_NoMatch; MatchOutcome_Uncertain; MatchOutcome_Uncertain; MatchOutcome_Uncertain].
Proof. vm_compute. reflexivity. Qed.

(** ** Learning more *)

(** A field is refined by resolving what was not observed. *)
Definition learns {T} (k k' : CatalogFieldKnowledge T) : Prop := k = k' ∨ ∃ reason, k = Unknown reason.

Record variant_learns (v v' : NormalizedCourseVariantV1) : Prop := {
  vl_key : ncv_key v = ncv_key v';
  vl_subject : learns (ncv_subject_code v) (ncv_subject_code v');
  vl_number : learns (ncv_course_number v) (ncv_course_number v');
  vl_level : learns (ncv_level v) (ncv_level v');
  vl_credits : learns (ncv_credits v) (ncv_credits v');
  vl_core : learns (ncv_core_codes v) (ncv_core_codes v');
  vl_prerequisite : ncv_prerequisite_state v = ncv_prerequisite_state v' ∨
    ncv_prerequisite_state v = CatalogPrerequisiteState_Unknown
}.

Definition time_learns (t t' : CatalogTimeKnowledgeV1) : Prop :=
  t = t' ∨ ∀ start end_, t ≠ CatalogTimeKnowledgeV1_Known start end_.

(** What classifies a meeting stays; its days, time and place are learned. *)
Record occurrence_learns (o o' : NormalizedOccurrenceV1) : Prop := {
  ol_synchronicity : noc_synchronicity o = noc_synchronicity o';
  ol_modality : noc_modality o = noc_modality o';
  ol_evidence : noc_evidence o = noc_evidence o';
  ol_kind : noc_kind o = noc_kind o';
  ol_requiredness : noc_requiredness o = noc_requiredness o';
  ol_days : learns (noc_days o) (noc_days o');
  ol_time : time_learns (noc_time o) (noc_time o');
  ol_campus : learns (noc_campus o) (noc_campus o');
  ol_campus_name : learns (noc_campus_name o) (noc_campus_name o')
}.

Record section_learns (s s' : NormalizedSectionV1) : Prop := {
  sl_key : nse_key s = nse_key s';
  sl_modality : nse_delivery_modality s = nse_delivery_modality s';
  sl_synchronicity : nse_synchronicity s = nse_synchronicity s';
  sl_instructors : learns (nse_instructors s) (nse_instructors s');
  sl_exam_code : learns (nse_exam_code s) (nse_exam_code s');
  sl_exam_text : learns (nse_exam_code_text s) (nse_exam_code_text s');
  sl_permission : learns (nse_special_permission_add_code s) (nse_special_permission_add_code s')
}.

(** The outcome is the same unless it was uncertain. *)
Definition definite (e e' : PredicateEvaluation) : Prop :=
  pe_outcome e = MatchOutcome_Uncertain ∨ pe_outcome e = pe_outcome e'.

Lemma definite_refl e : definite e e.
Proof. by right. Qed.
Lemma definite_eq e e' : e = e' → definite e e'.
Proof. intros ->. by right. Qed.
Lemma definite_uncertain field code e' : definite (uncertain field code) e'.
Proof. by left. Qed.
#[export] Hint Resolve definite_refl definite_uncertain : matchdb.

Lemma definite_known {T} (k k' : CatalogFieldKnowledge T) field p :
  learns k k' → definite (evaluate_known k field p) (evaluate_known k' field p).
Proof. intros [->|[r ->]]; [by right|by left]. Qed.

Lemma definite_exact k k' selected field :
  learns k k' → definite (exact_values k selected field) (exact_values k' selected field).
Proof. intros H. unfold exact_values. case_bool_decide; [by right|by apply definite_known]. Qed.

Lemma definite_and_all es es' :
  Forall2 definite es es' → definite (and_all es) (and_all es').
Proof.
  unfold definite. rewrite !and_all_outcome. intros H.
  destruct (outcome_all_cases (pe_outcome <$> es)) as [Hm Hn], (outcome_all_cases (pe_outcome <$> es')) as [Hm' Hn'].
  destruct (outcome_all (pe_outcome <$> es)) eqn:E; [right|by left|right]; symmetry.
  - apply Hm'. intros o (e' & -> & (i & Hi)%list_elem_of_lookup)%list_elem_of_fmap.
    destruct (Forall2_lookup_r _ _ _ _ _ H Hi) as (e & He & Hd).
    assert (pe_outcome e = MatchOutcome_Match) as Ho
      by (apply (proj1 Hm eq_refl); by eapply list_elem_of_fmap_2, list_elem_of_lookup_2).
    rewrite Ho in Hd. by destruct Hd.
  - apply Hn'. pose proof (proj1 Hn eq_refl) as (e & Ho & (i & Hi)%list_elem_of_lookup)%list_elem_of_fmap.
    destruct (Forall2_lookup_l _ _ _ _ _ H Hi) as (e' & He' & Hd). rewrite <-Ho in Hd.
    destruct Hd as [|Hd]; [done|]. rewrite Hd. by eapply list_elem_of_fmap_2, list_elem_of_lookup_2.
Qed.

Lemma definite_or_active es es' :
  Forall2 definite es es' → definite (or_active es) (or_active es').
Proof.
  unfold definite. rewrite !or_active_outcome. intros H.
  destruct H as [|e e' es es' Hd H]; [by right|]. unfold evaluate_active_dimension, outcome_any.
  cbn [fmap list_fmap].
  assert (∀ a a', a = MatchOutcome_Uncertain ∨ a = a' →
    foldl outcome_or a (pe_outcome <$> es) = MatchOutcome_Uncertain ∨
    foldl outcome_or a (pe_outcome <$> es) = foldl outcome_or a' (pe_outcome <$> es')) as Hf.
  { clear Hd. induction H as [|b b' es es' Hb H IH]; intros a a' Ha; [done|]. simpl. apply IH.
    destruct Ha as [->| ->], Hb as [->| ->]; destruct a', (pe_outcome b'); simpl; auto. }
  simpl. apply Hf. destruct Hd as [->| ->]; [by left|by right].
Qed.

Lemma definite_credits k k' selected :
  learns k k' → definite (evaluate_credits k selected) (evaluate_credits k' selected).
Proof. intros [->|[r ->]]; [by right|]. destruct selected; [by left|by right]. Qed.

Lemma definite_core k k' filters :
  learns k k' → definite (evaluate_core k filters) (evaluate_core k' filters).
Proof. intros [->|[r ->]]; [by right|]. unfold evaluate_core. case_bool_decide; [by right|by left]. Qed.

Lemma definite_band k k' selected :
  learns k k' → definite (evaluate_course_number_band k selected) (evaluate_course_number_band k' selected).
Proof.
  intros [->|[r ->]]; [by right|]. unfold evaluate_course_number_band. case_bool_decide; [by right|by left].
Qed.

Lemma definite_prerequisite p p' selected :
  p = p' ∨ p = CatalogPrerequisiteState_Unknown →
  definite (evaluate_prerequisite p selected) (evaluate_prerequisite p' selected).
Proof. intros [->| ->]; [by right|]. destruct selected; [by right|by left..]. Qed.

Lemma definite_instructors k k' selected field :
  learns k k' → definite (instructor_collection k selected field) (instructor_collection k' selected field).
Proof. intros H. unfold instructor_collection. case_bool_decide; [by right|by apply definite_known]. Qed.

Lemma definite_permission k k' selected :
  learns k k' → definite (evaluate_permission k selected) (evaluate_permission k' selected).
Proof. intros [->|[r ->]]; [by right|]. unfold evaluate_permission. case_bool_decide; [by right|by left]. Qed.

Lemma schedule_learns o o' :
  occurrence_learns o o' →
  schedule_evidence o = schedule_evidence o' ∨ ∃ code, schedule_evidence o = ScheduleEvidence_Unknown code.
Proof.
  intros [Hs _ _ _ _ Hd Ht _ _]. unfold schedule_evidence. rewrite <-Hs.
  destruct Ht as [->|Ht].
  - destruct Hd as [->|[r ->]]; [by left|]. repeat case_match; eauto.
  - repeat case_match; eauto; by destruct (Ht start_minute end_minute).
Qed.

(** Meetings that are skipped stay skipped. *)
Lemma Forall2_omap {A B C D} (R : A → B → Prop) (S : C → D → Prop) (f : A → option C) (g : B → option D) l k :
  (∀ x y, R x y → option_Forall2 S (f x) (g y)) → Forall2 R l k → Forall2 S (omap f l) (omap g k).
Proof.
  intros Hfg H. induction H as [|x y l k Hxy H IH]; [constructor|]. cbn.
  destruct (Hfg x y Hxy); [by constructor|done].
Qed.

Lemma definite_availability s s' os os' windows :
  section_learns s s' → Forall2 occurrence_learns os os' →
  definite (evaluate_availability s (Some os) windows) (evaluate_availability s' (Some os') windows).
Proof.
  intros Hs H. unfold evaluate_availability. cbn zeta. rewrite <-(sl_synchronicity _ _ Hs).
  case_bool_decide; [by right|]. destruct H as [|o o' os os' Ho H]; [by right|].
  apply definite_and_all.
  apply (Forall2_omap (λ f f', ∃ o o', f = occurrence_fact o ∧ f' = occurrence_fact o' ∧ occurrence_learns o o')).
  - intros f f' (x & x' & -> & -> & Hx). unfold evaluate_fact. simpl. rewrite <-(ol_requiredness _ _ Hx).
    case_bool_decide; [constructor|]. constructor.
    destruct (schedule_learns _ _ Hx) as [->|[code ->]]; [by right|by left].
  - apply Forall2_fmap. apply (Forall2_cons_2 _ _ _ _ _ _ _ Ho) in H.
    eapply Forall2_impl; [exact H|]. intros x x' Hx. by exists x, x'.
Qed.

Lemma definite_synchronicity s s' os os' selected :
  section_learns s s' → Forall2 occurrence_learns os os' →
  definite (evaluate_synchronicity s (Some os) selected) (evaluate_synchronicity s' (Some os') selected).
Proof.
  intros Hs H. apply definite_eq. unfold evaluate_synchronicity. cbn zeta.
  rewrite <-(sl_modality _ _ Hs), <-(sl_synchronicity _ _ Hs). case_bool_decide; [done|].
  destruct H as [|o o' os os' Ho H]; [done|]. f_equal. apply (Forall2_cons_2 _ _ _ _ _ _ _ Ho) in H.
  generalize {| sf_has_sync := false; sf_has_async := false; sf_uncertainties := [] |}. clear Ho.
  induction H as [|x x' l l' Hx H IH]; intros f; [done|]. simpl. rewrite IH. f_equal.
  unfold synchronicity_step, online_applicability, remote_by_arrangement.
  by rewrite (ol_synchronicity _ _ Hx), (ol_modality _ _ Hx), (ol_evidence _ _ Hx), (ol_kind _ _ Hx).
Qed.

Lemma definite_location s s' os os' selected :
  section_learns s s' → Forall2 occurrence_learns os os' →
  definite (evaluate_meeting_location s (Some os) selected) (evaluate_meeting_location s' (Some os') selected).
Proof.
  intros Hs H. unfold evaluate_meeting_location. cbn zeta. rewrite <-(sl_modality _ _ Hs).
  case_bool_decide; [by right|]. destruct H as [|o o' os os' Ho H]; [by right|].
  apply definite_and_all, (Forall2_omap occurrence_learns); [|by constructor].
  intros x x' Hx. unfold evaluate_occurrence_location.
  assert (travel_applicability (nse_delivery_modality s) x' = travel_applicability (nse_delivery_modality s) x)
    as -> by (unfold travel_applicability; by rewrite (ol_modality _ _ Hx), (ol_evidence _ _ Hx)).
  rewrite <-(ol_requiredness _ _ Hx).
  case_bool_decide; [constructor|].
  assert (definite (occurrence_location selected x) (occurrence_location selected x')) as Hd.
  { apply definite_or_active.
    apply Forall2_cons_2; [apply definite_exact, (ol_campus _ _ Hx)|].
    apply Forall2_cons_2; [apply definite_exact, (ol_campus_name _ _ Hx)|constructor]. }
  destruct (travel_applicability _ x); [by apply Some_Forall2|apply None_Forall2|].
  apply Some_Forall2. by right.
Qed.

(** Incomplete knowledge is never used against or in favour of an item: when
    unobserved fields of a course, of a section or of its meetings become known
    (with the classification of each meeting fixed), every filter answers as
    before unless it had answered UNCERTAIN, and so does their conjunction. *)
Theorem definite_answers_stable (group : CourseGroupKey) (variant variant' : NormalizedCourseVariantV1)
    (text_hits : option TextHitPlan) (section section' : NormalizedSectionV1)
    (occurrences occurrences' : list NormalizedOccurrenceV1) (open : LiveOpenEvidenceV1)
    (now : OffsetDateTime) (filters : NormalizedFilterValuesV1) :
  variant_learns variant variant' → section_learns section section' →
  Forall2 occurrence_learns occurrences occurrences' →
  let course := course_filter_evaluations group variant filters text_hits in
  let course' := course_filter_evaluations group variant' filters text_hits in
  let evaluated := section_filter_evaluations section (Some occurrences) open now filters in
  let evaluated' := section_filter_evaluations section' (Some occurrences') open now filters in
  Forall2 definite course.*2 course'.*2 ∧ definite (and_all course.*2) (and_all course'.*2) ∧
  Forall2 definite evaluated.*2 evaluated'.*2 ∧ definite (and_all evaluated.*2) (and_all evaluated'.*2).
Proof.
  intros Hv Hs Ho. cbn zeta.
  assert (Forall2 definite (course_filter_evaluations group variant filters text_hits).*2
    (course_filter_evaluations group variant' filters text_hits).*2) as Hc.
  { destruct Hv as [Hk]. unfold course_filter_evaluations. cbn [fmap list_fmap snd].
    repeat (apply Forall2_cons_2); auto using definite_exact, definite_band, definite_credits,
      definite_core, definite_prerequisite with matchdb.
    rewrite Hk. by apply definite_eq. }
  assert (Forall2 definite (section_filter_evaluations section (Some occurrences) open now filters).*2
    (section_filter_evaluations section' (Some occurrences') open now filters).*2) as He.
  { pose proof Hs as [Hk Hm _ Hi Hx Ht Hp]. unfold section_filter_evaluations. cbn [fmap list_fmap snd].
    rewrite <-Hk, <-Hm.
    repeat (apply Forall2_cons_2); auto using definite_instructors, definite_availability,
      definite_synchronicity, definite_location, definite_permission with matchdb.
    unfold evaluate_exam. case_bool_decide; [by right|].
    apply definite_or_active.
    repeat (apply Forall2_cons_2; [by apply definite_exact|]). constructor. }
  split_and!; auto using definite_and_all.
Qed.

Lemma definite_answers_stable_witness :
  let variant := sample_variant "01:198:111" "INTRO COMP SCI" ["06672"] in
  let section := sample_section "01:198:111" "06672" [0; 1] in
  let monday := sample_meeting "06672" 0 (Present ["M"]) 600 680 in
  let unknown := sample_meeting "06672" 1 (Unknown CatalogUnknownReason_NotObserved) 600 680 in
  let friday := sample_meeting "06672" 1 (Present ["F"]) 600 680 in
  let open := {| lo_state := LiveOpenStateV1_Unknown; lo_observed_at := None; lo_fresh_until := None;
                 lo_uncertainty := None |} in
  let filters := canonical_values (FilterValuesInputV1_for_term sample_term) in
  Forall2 occurrence_learns [monday; unknown] [monday; friday] ∧
  Forall2 definite
    (section_filter_evaluations section (Some [monday; unknown]) open 0 filters).*2
    (section_filter_evaluations section (Some [monday; friday]) open 0 filters).*2.
Proof.
  intros variant section monday unknown friday open filters.
  assert (Forall2 occurrence_learns [monday; unknown] [monday; friday]) as Ho.
  { apply Forall2_cons_2; [|apply Forall2_cons_2; [|constructor]].
    - split; first [reflexivity|by left].
    - split; first [reflexivity|by left|right]. by exists CatalogUnknownReason_NotObserved. }
  assert (variant_learns variant variant) as Hv by (split; first [reflexivity|by left]).
  assert (section_learns section section) as Hs by (split; first [reflexivity|by left]).
  split; [exact Ho|].
  exact (proj1 (proj2 (proj2 (definite_answers_stable (sample_group_key "01:198:111") variant variant None
    section section _ _ open 0 filters Hv Hs Ho)))).
Defined.

(** ** Inconclusive meetings and the online synchronicity *)

(** A meeting that tells nothing about the synchronicity of the online part. *)
Definition inconclusive (modality : CatalogModality) (occurrence : NormalizedOccurrenceV1) : Prop :=
  (∃ code, online_applicability modality occurrence = ComponentApplicability_Uncertain code) ∨
  (online_applicability modality occurrence = ComponentApplicability_Applicable ∧
   remote_by_arrangement occurrence = false ∧
   noc_synchronicity occurrence ≠ Present CatalogSynchronicity_Sync ∧
   noc_synchronicity occurrence ≠ Present CatalogSynchronicity_Async ∧
   noc_synchronicity occurrence ≠ Present CatalogSynchronicity_Mixed).

Lemma inconclusive_step modality occurrence f :
  inconclusive modality occurrence → ∃ code, synchronicity_step modality f occurrence = sf_uncertain code f.
Proof.
  unfold synchronicity_step. intros [[code ->]|(-> & -> & Hs & Ha & Hm)]; [eauto|]. cbn zeta.
  repeat case_match; simplify_eq; eauto.
Qed.

(** The loop's state after some inconclusive meetings were resolved. *)
Record resolves (f f' : SynchronicityFacts) : Prop := {
  re_sync : sf_has_sync f = true → sf_has_sync f' = true;
  re_async : sf_has_async f = true → sf_has_async f' = true;
  re_complete : sf_uncertainties f = [] → f' = f
}.

Lemma step_monotone modality f occurrence :
  (sf_has_sync f = true → sf_has_sync (synchronicity_step modality f occurrence) = true) ∧
  (sf_has_async f = true → sf_has_async (synchronicity_step modality f occurrence) = true).
Proof.
  unfold synchronicity_step. destruct (online_applicability modality occurrence); [|done|done].
  cbn zeta. destruct (remote_by_arrangement occurrence); repeat case_match; done.
Qed.

Lemma resolves_uncertain code f f' :
  resolves f f' → resolves (sf_uncertain code f) (sf_uncertain code f').
Proof. intros [Hs Ha _]. split; simpl; auto. by intros [_ ?]%app_nil. Qed.

Lemma resolves_sync f f' : resolves f f' → resolves (sf_sync f) (sf_sync f').
Proof. intros [Hs Ha Hc]. split; simpl; auto. intros H. by rewrite (Hc H). Qed.
Lemma resolves_async f f' : resolves f f' → resolves (sf_async f) (sf_async f').
Proof. intros [Hs Ha Hc]. split; simpl; auto. intros H. by rewrite (Hc H). Qed.

Lemma resolves_step modality f f' occurrence :
  resolves f f' →
  resolves (synchronicity_step modality f occurrence) (synchronicity_step modality f' occurrence).
Proof.
  intros Hf. unfold synchronicity_step.
  destruct (online_applicability modality occurrence); [|done|by apply resolves_uncertain].
  cbn zeta. destruct (remote_by_arrangement occurrence); repeat case_match;
    auto using resolves_sync, resolves_async, resolves_uncertain.
Qed.

Lemma resolves_inconclusive modality f f' occurrence occurrence' :
  inconclusive modality occurrence → resolves f f' →
  resolves (synchronicity_step modality f occurrence) (synchronicity_step modality f' occurrence').
Proof.
  intros [code ->]%(inconclusive_step _ _ f) [Hs Ha _].
  destruct (step_monotone modality f' occurrence') as [Hs' Ha'].
  split; simpl; auto. by intros [_ ?]%app_nil.
Qed.

Lemma uncertainties_outcome es :
  uncertainties_only es → es ≠ [] → pe_outcome (and_all es) = MatchOutcome_Uncertain.
Proof.
  intros Hes Hne. rewrite and_all_outcome.
  destruct (outcome_all_cases (pe_outcome <$> es)) as [Hm Hn].
  assert (∀ o, o ∈ pe_outcome <$> es → o = MatchOutcome_Uncertain) as Hu.
  { intros o (e & -> & He)%list_elem_of_fmap. unfold uncertainties_only in Hes.
    rewrite Forall_forall in Hes. by destruct (Hes e He). }
  destruct (outcome_all (pe_outcome <$> es)); [|done|].
  - destruct es as [|e es]; [done|].
    assert (pe_outcome e ∈ pe_outcome <$> e :: es) as Hin by left.
    pose proof (proj1 Hm eq_refl _ Hin) as Hm'. apply Hu in Hin. congruence.
  - by apply Hu, Hn.
Qed.

Lemma definite_facts modality f f' selected :
  uncertainties_only (sf_uncertainties f) → uncertainties_only (sf_uncertainties f') → resolves f f' →
  definite (evaluate_synchronicity_facts modality f selected)
    (evaluate_synchronicity_facts modality f' selected).
Proof.
  intros Hu Hu' [Hs Ha Hc]. destruct (decide (sf_uncertainties f = [])) as [Hn|Hn]; [rewrite Hc by done; by right|].
  unfold evaluate_synchronicity_facts. cbn zeta. rewrite (bool_decide_eq_true_2 (sf_uncertainties f ≠ [])) by done.
  pose proof (uncertainties_outcome _ Hu Hn) as Ho.
  assert (∀ v, existsb (λ u, bool_decide (u ≠ v)) selected = false →
    ∀ u, u ≠ v → bool_decide (u ∈ selected) = false) as Hnone.
  { intros v H u Huv. apply bool_decide_eq_false. intros Hin%list_elem_of_In.
    apply not_true_iff_false in H. apply H, existsb_exists. exists u. by rewrite bool_decide_eq_true_2. }
  destruct (sf_has_sync f) eqn:Es, (sf_has_async f) eqn:Ea; cbn [andb].
  - rewrite Hs, Ha by done. right. by destruct (bool_decide (sf_uncertainties f' ≠ [])).
  - destruct (existsb _ selected) eqn:Em; [by left|]. rewrite Hs by done. right. simpl.
    destruct (bool_decide (sf_uncertainties f' ≠ [])), (sf_has_async f'); cbn [andb];
      rewrite ?Em; simpl;
      rewrite ?(Hnone UserSynchronicityV3_Async Em) by done; done.
  - destruct (existsb _ selected) eqn:Em; [by left|]. rewrite Ha by done. right. simpl.
    destruct (bool_decide (sf_uncertainties f' ≠ [])), (sf_has_sync f'); cbn [andb];
      rewrite ?Em; simpl; rewrite ?(Hnone UserSynchronicityV3_Sync Em) by done; done.
  - by left.
Qed.

(** The online synchronicity filter never decides against what inconclusive
    meetings may turn out to be: whatever meetings replace the inconclusive
    ones, the filter answers as before unless it had answered UNCERTAIN. *)
Theorem synchronicity_completions (section : NormalizedSectionV1)
    (occurrences occurrences' : list NormalizedOccurrenceV1) (selected : list UserSynchronicityV3) :
  Forall2 (λ o o', o = o' ∨ inconclusive (nse_delivery_modality section) o) occurrences occurrences' →
  definite (evaluate_synchronicity section (Some occurrences) selected)
    (evaluate_synchronicity section (Some occurrences') selected).
Proof.
  intros H. unfold evaluate_synchronicity. cbn zeta. case_bool_decide; [by right|].
  set (m := nse_delivery_modality section) in *.
  set (f0 := {| sf_has_sync := false; sf_has_async := false; sf_uncertainties := [] |}).
  assert (∀ f f', resolves f f' → resolves (foldl (synchronicity_step m) f occurrences)
    (foldl (synchronicity_step m) f' occurrences')) as Hrun.
  { induction H as [|o o' os os' Ho H IH]; intros f f' Hf; simpl; [done|]. apply IH.
    destruct Ho as [->|Ho]; [by apply resolves_step|by apply resolves_inconclusive]. }
  assert (definite (evaluate_synchronicity_facts m (foldl (synchronicity_step m) f0 occurrences) selected)
    (evaluate_synchronicity_facts m (foldl (synchronicity_step m) f0 occurrences') selected)) as Hd.
  { apply definite_facts; [apply synchronicity_run_only; constructor..|by apply Hrun]. }
  destruct H; [by right|exact Hd].
Qed.

Lemma synchronicity_completions_witness :
  let section := sample_section "01:198:111" "06672" [0; 1] in
  let sync := sample_online_meeting "06672" 0 (Present CatalogSynchronicity_Sync) in
  let unknown := sample_online_meeting "06672" 1 (Unknown CatalogUnknownReason_NotObserved) in
  let resolved := sample_online_meeting "06672" 1 (Present CatalogSynchronicity_Async) in
  inconclusive (nse_delivery_modality section) unknown ∧
  pe_outcome (evaluate_synchronicity section (Some [sync; unknown]) [UserSynchronicityV3_Async])
    = MatchOutcome_NoMatch ∧
  definite (evaluate_synchronicity section (Some [sync; unknown]) [UserSynchronicityV3_Async])
    (evaluate_synchronicity section (Some [sync; resolved]) [UserSynchronicityV3_Async]).
Proof.
  intros section sync unknown resolved.
  assert (inconclusive (nse_delivery_modality section) unknown) as Hi
    by (right; split_and!; first [reflexivity|discriminate]).
  split; [exact Hi|]. split; [vm_compute; reflexivity|].
  apply (synchronicity_completions section [sync; unknown] [sync; resolved]).
  apply Forall2_cons_2; [by left|]. apply Forall2_cons_2; [by right|constructor].
Defined.
