(* ===== verification/Corpus.v ===== *)
(** * The catalog corpus (crates/bcsp-query/src/corpus.rs)

    The validated view over the target snapshots of one term
    ([CatalogCorpus]), and the build-once variant that indexes the snapshots by
    hash buckets of positions ([PreparedCatalogCorpus]).

    Construction can be cancelled: [poll] is the caller's closure, whose state
    is threaded through every step. A lookup that can panic returns an [option]
    whose [None] is the panic. The estimates of memory use are left out. *)

From S2P Require Import Prelude Ordering Identity Contracts CatalogData.

Inductive CorpusError :=
| CorpusError_Cancelled
| CorpusError_Empty
| CorpusError_MixedTerms
| CorpusError_DuplicateTarget
| CorpusError_TargetMismatch
| CorpusError_DuplicateCourseGroup
| CorpusError_DuplicateCourseVariant
| CorpusError_DuplicateSection
| CorpusError_DuplicateOccurrence
| CorpusError_InvalidGroupVariantReference
| CorpusError_InvalidVariantSectionReference
| CorpusError_InvalidSectionOccurrenceReference
| CorpusError_OrphanOccurrence.

#[export] Instance CorpusError_eq_dec : EqDecision CorpusError.
Proof. solve_decision. Defined.

(** ** Cancelable computations *)

Definition cancelable (C A : Type) : Type := C → result CorpusError A * C.

#[export] Instance cancelable_ret C : MRet (cancelable C) := λ A a c, (Ok a, c).
#[export] Instance cancelable_bind C : MBind (cancelable C) := λ A B f m c,
  match m c with
  | (Ok a, c) => f a c
  | (Err e, c) => (Err e, c)
  end.

Definition reject {C A} (e : CorpusError) : cancelable C A := λ c, (Err e, c).

Section cancellation.
Context {C : Type} (poll : C → bool * C).

(** [if cancellation() { return Err(CorpusError::Cancelled); }] *)
Definition check_cancelled : cancelable C unit := λ c,
  let (cancelled, c) := poll c in (if cancelled then Err CorpusError_Cancelled else Ok tt, c).

Fixpoint for_each {A} (f : A → cancelable C unit) (l : list A) : cancelable C unit :=
  match l with
  | [] => mret tt
  | x :: l => _ ← f x; for_each f l
  end.

(** The loop over the entities of one catalog, for each kind of entity. *)
Fixpoint insert_entities {K V} `{Countable K} (key : V → K) (foreign : V → bool)
    (duplicate : CorpusError) (values : list V) (m : gmap K V) : cancelable C (gmap K V) :=
  match values with
  | [] => mret m
  | value :: values =>
      _ ← check_cancelled;
      if foreign value then reject CorpusError_TargetMismatch
      else if bool_decide (is_Some (m !! key value)) then reject duplicate
      else insert_entities key foreign duplicate values (<[key value := value]> m)
  end.

(** The loop over the keys an entity references. *)
Fixpoint check_keys {K} `{Countable K} (valid : K → bool) (error : CorpusError) (keys : list K)
    (seen : gset K) : cancelable C unit :=
  match keys with
  | [] => mret tt
  | key :: keys =>
      _ ← check_cancelled;
      if negb (valid key) || bool_decide (key ∈ seen) then reject error
      else check_keys valid error keys ({[key]} ∪ seen)
  end.

End cancellation.

(** ** The corpus *)

Record CatalogCorpus := {
  cc_term : string;
  cc_target_versions : gmap TermCampusKey CatalogContentVersion;
  cc_groups : gmap CourseGroupKey NormalizedCourseGroupV1;
  cc_variants : gmap CourseVariantKey NormalizedCourseVariantV1;
  cc_sections : gmap SectionKey NormalizedSectionV1;
  cc_occurrences : gmap CatalogOccurrenceKeyV1 NormalizedOccurrenceV1
}.

Definition cvk_target (key : CourseVariantKey) : TermCampusKey := cgk_target (cvk_group key).
Definition cok_target (key : CatalogOccurrenceKeyV1) : TermCampusKey := sk_target (cok_section key).

Definition group_foreign (target : TermCampusKey) (group : NormalizedCourseGroupV1) : bool :=
  bool_decide (cgk_target (ncg_key group) ≠ target).
Definition variant_foreign (target : TermCampusKey) (variant : NormalizedCourseVariantV1) : bool :=
  bool_decide (cvk_target (ncv_key variant) ≠ target).
Definition section_foreign (target : TermCampusKey) (section : NormalizedSectionV1) : bool :=
  bool_decide (sk_target (nse_key section) ≠ target)
  || bool_decide (cvk_target (nse_variant_key section) ≠ target).
Definition occurrence_foreign (target : TermCampusKey) (occurrence : NormalizedOccurrenceV1) : bool :=
  bool_decide (cok_target (noc_key occurrence) ≠ target).

Section corpus.
Context {C : Type} (poll : C → bool * C).

(** The set [targets] of the source holds the keys of [target_versions]. *)
Definition add_catalog (corpus : CatalogCorpus) (catalog : NormalizedCatalogV1)
    : cancelable C CatalogCorpus :=
  let target := nca_target catalog in
  _ ← check_cancelled poll;
  if bool_decide (is_Some (cc_target_versions corpus !! target)) then reject CorpusError_DuplicateTarget
  else
    groups ← insert_entities poll ncg_key (group_foreign target) CorpusError_DuplicateCourseGroup
               (nca_course_groups catalog) (cc_groups corpus);
    variants ← insert_entities poll ncv_key (variant_foreign target) CorpusError_DuplicateCourseVariant
                 (nca_course_variants catalog) (cc_variants corpus);
    sections ← insert_entities poll nse_key (section_foreign target) CorpusError_DuplicateSection
                 (nca_sections catalog) (cc_sections corpus);
    occurrences ← insert_entities poll noc_key (occurrence_foreign target) CorpusError_DuplicateOccurrence
                    (nca_occurrences catalog) (cc_occurrences corpus);
    mret {|
      cc_term := cc_term corpus;
      cc_target_versions := <[target := nca_content_version catalog]> (cc_target_versions corpus);
      cc_groups := groups; cc_variants := variants;
      cc_sections := sections; cc_occurrences := occurrences |}.

Fixpoint add_catalogs (corpus : CatalogCorpus) (catalogs : list NormalizedCatalogV1)
    : cancelable C CatalogCorpus :=
  match catalogs with
  | [] => mret corpus
  | catalog :: catalogs => corpus ← add_catalog corpus catalog; add_catalogs corpus catalogs
  end.

Definition check_group (corpus : CatalogCorpus) (group : NormalizedCourseGroupV1) : cancelable C unit :=
  _ ← check_cancelled poll;
  if bool_decide (ncg_variant_keys group = []) then reject CorpusError_InvalidGroupVariantReference
  else check_keys poll
         (λ key, bool_decide (cvk_group key = ncg_key group)
                 && bool_decide (is_Some (cc_variants corpus !! key)))
         CorpusError_InvalidGroupVariantReference (ncg_variant_keys group) ∅.

Definition check_variant (corpus : CatalogCorpus) (variant : NormalizedCourseVariantV1)
    : cancelable C unit :=
  _ ← check_cancelled poll;
  match cc_groups corpus !! cvk_group (ncv_key variant) with
  | None => reject CorpusError_InvalidGroupVariantReference
  | Some group =>
      if bool_decide (ncv_key variant ∉ ncg_variant_keys group)
      then reject CorpusError_InvalidGroupVariantReference
      else check_keys poll
             (λ key, match cc_sections corpus !! key with
                     | None => false
                     | Some section => bool_decide (nse_variant_key section = ncv_key variant)
                     end)
             CorpusError_InvalidVariantSectionReference (ncv_section_keys variant) ∅
  end.

Definition check_section (corpus : CatalogCorpus) (section : NormalizedSectionV1) : cancelable C unit :=
  _ ← check_cancelled poll;
  match cc_variants corpus !! nse_variant_key section with
  | None => reject CorpusError_InvalidVariantSectionReference
  | Some variant =>
      if bool_decide (nse_key section ∉ ncv_section_keys variant)
      then reject CorpusError_InvalidVariantSectionReference
      else match nse_occurrence_keys section with
           | Present keys =>
               check_keys poll
                 (λ key, bool_decide (cok_section key = nse_key section)
                         && bool_decide (is_Some (cc_occurrences corpus !! key)))
                 CorpusError_InvalidSectionOccurrenceReference keys ∅
           | _ => mret tt
           end
  end.

Definition check_occurrence (corpus : CatalogCorpus) (occurrence : NormalizedOccurrenceV1)
    : cancelable C unit :=
  _ ← check_cancelled poll;
  match cc_sections corpus !! cok_section (noc_key occurrence) with
  | None => reject CorpusError_OrphanOccurrence
  | Some section =>
      match nse_occurrence_keys section with
      | Present keys =>
          if bool_decide (noc_key occurrence ∈ keys) then mret tt
          else reject CorpusError_InvalidSectionOccurrenceReference
      | _ => reject CorpusError_InvalidSectionOccurrenceReference
      end
  end.

Definition catalog_term (catalog : NormalizedCatalogV1) : string :=
  term_str (tck_term (nca_target catalog)).

Definition try_new_from_refs_with_cancellation (catalogs : list NormalizedCatalogV1)
    : cancelable C CatalogCorpus :=
  _ ← check_cancelled poll;
  match catalogs with
  | [] => reject CorpusError_Empty
  | first :: _ =>
      let term := catalog_term first in
      if existsb (λ catalog, bool_decide (catalog_term catalog ≠ term)) catalogs
      then reject CorpusError_MixedTerms
      else
        corpus ← add_catalogs
          {| cc_term := term; cc_target_versions := ∅; cc_groups := ∅; cc_variants := ∅;
             cc_sections := ∅; cc_occurrences := ∅ |} catalogs;
        _ ← for_each (check_group corpus) (btm_values (cc_groups corpus));
        _ ← for_each (check_variant corpus) (btm_values (cc_variants corpus));
        _ ← for_each (check_section corpus) (btm_values (cc_sections corpus));
        _ ← for_each (check_occurrence corpus) (btm_values (cc_occurrences corpus));
        mret corpus
  end.

End corpus.

(** [&mut || false] *)
Definition never_cancelled (c : unit) : bool * unit := (false, c).

Definition CatalogCorpus_try_new_from_refs (catalogs : list NormalizedCatalogV1)
    : result CorpusError CatalogCorpus :=
  (try_new_from_refs_with_cancellation never_cancelled catalogs tt).1.

Definition cc_iter_groups (corpus : CatalogCorpus) : list NormalizedCourseGroupV1 :=
  btm_values (cc_groups corpus).
Definition cc_iter_sections (corpus : CatalogCorpus) : list NormalizedSectionV1 :=
  btm_values (cc_sections corpus).
Definition cc_iter_target_versions (corpus : CatalogCorpus)
    : list (TermCampusKey * CatalogContentVersion) := btm_iter (cc_target_versions corpus).

(** [self.variants[key]] panics on a missing key. *)
Definition cc_variants_for (corpus : CatalogCorpus) (group : NormalizedCourseGroupV1)
    : option (list NormalizedCourseVariantV1) :=
  mapM (λ key, cc_variants corpus !! key) (ncg_variant_keys group).
Definition cc_sections_for (corpus : CatalogCorpus) (variant : NormalizedCourseVariantV1)
    : option (list NormalizedSectionV1) :=
  mapM (λ key, cc_sections corpus !! key) (ncv_section_keys variant).
Definition cc_known_occurrences_for (corpus : CatalogCorpus) (section : NormalizedSectionV1)
    : option (option (list NormalizedOccurrenceV1)) :=
  match nse_occurrence_keys section with
  | Present keys => Some <$> mapM (λ key, cc_occurrences corpus !! key) keys
  | _ => Some None
  end.

(** ** The prepared corpus *)

(** The hashes of [DefaultHasher], whose algorithm the standard library leaves
    unspecified: any functions. *)
Class KeyHash := {
  hash_group : CourseGroupKey → Z;
  hash_variant : CourseVariantKey → Z;
  hash_section : SectionKey → Z;
  hash_occurrence : CatalogOccurrenceKeyV1 → Z
}.

Inductive IndexBucket :=
| IndexBucket_One (index : nat)
| IndexBucket_Many (indices : list nat).

Record PreparedTargetIndex := {
  pti_catalog : nat;
  pti_group_order : list nat;
  pti_section_order : list nat;
  pti_groups : gmap Z IndexBucket;
  pti_variants : gmap Z IndexBucket;
  pti_sections : gmap Z IndexBucket;
  pti_occurrences : gmap Z IndexBucket
}.

Record PreparedCatalogCorpus := {
  pc_term : string;
  pc_catalogs : list NormalizedCatalogV1;
  pc_target_versions : gmap TermCampusKey CatalogContentVersion;
  pc_targets : gmap TermCampusKey PreparedTargetIndex
}.

Definition insert_index_bucket (buckets : gmap Z IndexBucket) (hash : Z) (index : nat)
    : gmap Z IndexBucket :=
  match buckets !! hash with
  | None => <[hash := IndexBucket_One index]> buckets
  | Some (IndexBucket_One first) => <[hash := IndexBucket_Many [first; index]]> buckets
  | Some (IndexBucket_Many indices) => <[hash := IndexBucket_Many (indices ++ [index])]> buckets
  end.

Fixpoint build_index_from {C K} (poll : C → bool * C) (hash : K → Z) (index : nat) (keys : list K)
    (buckets : gmap Z IndexBucket) : cancelable C (gmap Z IndexBucket) :=
  match keys with
  | [] => mret buckets
  | key :: keys =>
      _ ← check_cancelled poll;
      build_index_from poll hash (S index) keys (insert_index_bucket buckets (hash key) index)
  end.
Definition build_index_with_cancellation {C K} (poll : C → bool * C) (hash : K → Z) (keys : list K)
    : cancelable C (gmap Z IndexBucket) := build_index_from poll hash 0 keys ∅.

(** [find] of the positions whose value has the key; a position out of range panics. *)
Fixpoint find_index {T K} `{EqDecision K} (values : list T) (key : K) (key_of : T → K)
    (indices : list nat) : option (option nat) :=
  match indices with
  | [] => Some None
  | index :: indices =>
      value ← values !! index;
      if bool_decide (key_of value = key) then Some (Some index)
      else find_index values key key_of indices
  end.

Definition lookup_index {T K} `{EqDecision K} (buckets : gmap Z IndexBucket) (values : list T)
    (key : K) (key_of : T → K) (hash : K → Z) : option (option nat) :=
  match buckets !! hash key with
  | None => Some None
  | Some (IndexBucket_One index) => find_index values key key_of [index]
  | Some (IndexBucket_Many indices) => find_index values key key_of indices
  end.

(** The positions of a list in the order of the keys at them. *)
Definition position_order {V K} `{ROrd K} (key_of : V → K) (values : list V) : list nat :=
  sort_by (λ left right,
    match values !! left, values !! right with
    | Some l, Some r => rcmp (key_of l) (key_of r)
    | _, _ => Eq
    end) (seq 0 (length values)).

Section prepared.
Context `{KeyHash}.

Definition prepare_target {C} (poll : C → bool * C) (catalog_index : nat) (catalog : NormalizedCatalogV1)
    : cancelable C PreparedTargetIndex :=
  _ ← check_cancelled poll;
  groups ← build_index_with_cancellation poll hash_group (ncg_key <$> nca_course_groups catalog);
  variants ← build_index_with_cancellation poll hash_variant (ncv_key <$> nca_course_variants catalog);
  sections ← build_index_with_cancellation poll hash_section (nse_key <$> nca_sections catalog);
  occurrences ← build_index_with_cancellation poll hash_occurrence (noc_key <$> nca_occurrences catalog);
  mret {|
    pti_catalog := catalog_index;
    pti_group_order := position_order ncg_key (nca_course_groups catalog);
    pti_section_order := position_order nse_key (nca_sections catalog);
    pti_groups := groups; pti_variants := variants;
    pti_sections := sections; pti_occurrences := occurrences |}.

Fixpoint prepare_targets {C} (poll : C → bool * C) (catalog_index : nat)
    (catalogs : list NormalizedCatalogV1) (target_versions : gmap TermCampusKey CatalogContentVersion)
    (targets : gmap TermCampusKey PreparedTargetIndex)
    : cancelable C (gmap TermCampusKey CatalogContentVersion * gmap TermCampusKey PreparedTargetIndex) :=
  match catalogs with
  | [] => mret (target_versions, targets)
  | catalog :: catalogs =>
      _ ← check_cancelled poll;
      index ← prepare_target poll catalog_index catalog;
      prepare_targets poll (S catalog_index) catalogs
        (<[nca_target catalog := nca_content_version catalog]> target_versions)
        (<[nca_target catalog := index]> targets)
  end.

(** The first catalog is there once the corpus is validated. *)
Definition PreparedCatalogCorpus_try_new_with_cancellation {C} (poll : C → bool * C)
    (catalogs : list NormalizedCatalogV1) : cancelable C PreparedCatalogCorpus :=
  _ ← check_cancelled poll;
  _ ← try_new_from_refs_with_cancellation poll catalogs;
  maps ← prepare_targets poll 0 catalogs ∅ ∅;
  mret {| pc_term := default "" (catalog_term <$> head catalogs); pc_catalogs := catalogs;
          pc_target_versions := maps.1; pc_targets := maps.2 |}.

Definition PreparedCatalogCorpus_try_new (catalogs : list NormalizedCatalogV1)
    : result CorpusError PreparedCatalogCorpus :=
  (PreparedCatalogCorpus_try_new_with_cancellation never_cancelled catalogs tt).1.

Definition contains_target (corpus : PreparedCatalogCorpus) (target : TermCampusKey) : bool :=
  bool_decide (is_Some (pc_target_versions corpus !! target)).
Definition content_version (corpus : PreparedCatalogCorpus) (target : TermCampusKey)
    : option CatalogContentVersion := pc_target_versions corpus !! target.
Definition pc_iter_target_versions (corpus : PreparedCatalogCorpus)
    : list (TermCampusKey * CatalogContentVersion) := btm_iter (pc_target_versions corpus).

Definition target_index (corpus : PreparedCatalogCorpus) (term : TermId) (campus : CampusCode)
    : option PreparedTargetIndex :=
  p ← list_find (λ kv, tck_term kv.1 = term ∧ tck_campus kv.1 = campus) (btm_iter (pc_targets corpus));
  Some p.2.2.

(** The index and the catalog of a target; [None] inside when it is unknown. *)
Definition target_catalog (corpus : PreparedCatalogCorpus) (term : TermId) (campus : CampusCode)
    : option (option (PreparedTargetIndex * NormalizedCatalogV1)) :=
  match target_index corpus term campus with
  | None => Some None
  | Some index => catalog ← pc_catalogs corpus !! pti_catalog index; Some (Some (index, catalog))
  end.

Definition prepared_entity {T K} `{EqDecision K} (buckets : gmap Z IndexBucket) (values : list T)
    (key : K) (key_of : T → K) (hash : K → Z) : option (option T) :=
  found ← lookup_index buckets values key key_of hash;
  match found with
  | None => Some None
  | Some entity => value ← values !! entity; Some (Some value)
  end.

(** [visitor] calls in order; the visited entities. *)
Definition targets_entities {T} (order : PreparedTargetIndex → list nat)
    (values : NormalizedCatalogV1 → list T) (corpus : PreparedCatalogCorpus)
    (targets : list TermCampusKey) : option (list T) :=
  @concat T <$> mapM (λ target,
    match pc_targets corpus !! target with
    | None => Some []
    | Some index =>
        catalog ← pc_catalogs corpus !! pti_catalog index;
        mapM (λ entity, values catalog !! entity) (order index)
    end) targets.

Definition for_each_group_in_targets : PreparedCatalogCorpus → list TermCampusKey →
    option (list NormalizedCourseGroupV1) := targets_entities pti_group_order nca_course_groups.
Definition for_each_section_in_targets : PreparedCatalogCorpus → list TermCampusKey →
    option (list NormalizedSectionV1) := targets_entities pti_section_order nca_sections.

Definition pc_group (corpus : PreparedCatalogCorpus) (key : CourseGroupKey)
    : option (option NormalizedCourseGroupV1) :=
  found ← target_catalog corpus (cgk_term key) (cgk_campus key);
  match found with
  | None => Some None
  | Some (index, catalog) =>
      prepared_entity (pti_groups index) (nca_course_groups catalog) key ncg_key hash_group
  end.
Definition pc_variant (corpus : PreparedCatalogCorpus) (key : CourseVariantKey)
    : option (option NormalizedCourseVariantV1) :=
  found ← target_catalog corpus (cgk_term (cvk_group key)) (cgk_campus (cvk_group key));
  match found with
  | None => Some None
  | Some (index, catalog) =>
      prepared_entity (pti_variants index) (nca_course_variants catalog) key ncv_key hash_variant
  end.
Definition pc_section (corpus : PreparedCatalogCorpus) (key : SectionKey)
    : option (option NormalizedSectionV1) :=
  found ← target_catalog corpus (sk_term key) (sk_campus key);
  match found with
  | None => Some None
  | Some (index, catalog) =>
      prepared_entity (pti_sections index) (nca_sections catalog) key nse_key hash_section
  end.

(** The inner [expect]s: a target or an entity that is missing panics. *)
Definition pc_variants_for (corpus : PreparedCatalogCorpus) (group : NormalizedCourseGroupV1)
    : option (list NormalizedCourseVariantV1) :=
  found ← target_catalog corpus (cgk_term (ncg_key group)) (cgk_campus (ncg_key group));
  p ← found;
  mapM (λ key, prepared_entity (pti_variants p.1) (nca_course_variants p.2) key ncv_key hash_variant ≫= id)
    (ncg_variant_keys group).
Definition pc_sections_for (corpus : PreparedCatalogCorpus) (variant : NormalizedCourseVariantV1)
    : option (list NormalizedSectionV1) :=
  let group := cvk_group (ncv_key variant) in
  found ← target_catalog corpus (cgk_term group) (cgk_campus group);
  p ← found;
  mapM (λ key, prepared_entity (pti_sections p.1) (nca_sections p.2) key nse_key hash_section ≫= id)
    (ncv_section_keys variant).
Definition pc_known_occurrences_for (corpus : PreparedCatalogCorpus) (section : NormalizedSectionV1)
    : option (option (list NormalizedOccurrenceV1)) :=
  found ← target_catalog corpus (sk_term (nse_key section)) (sk_campus (nse_key section));
  match found with
  | None => Some None
  | Some (index, catalog) =>
      match nse_occurrence_keys section with
      | Present keys =>
          Some <$> mapM (λ key,
            prepared_entity (pti_occurrences index) (nca_occurrences catalog) key noc_key hash_occurrence
              ≫= id) keys
      | _ => Some None
      end
  end.

End prepared.
