(* ===== verification/CorpusFacts.v ===== *)
(** * The corpus: validation and the prepared indexes

    Cancelling only ever turns the result into [Cancelled]; validation accepts
    exactly the consistent catalogs and builds exactly their maps; no lookup of
    a validated corpus panics; and the hash-indexed corpus answers every lookup
    like the reference one, whatever the hash functions. *)

From S2P Require Import Prelude Ordering Identity Contracts CatalogData Corpus CatalogSamples.

(** ** Cancellation *)

(** [m] runs as [p] does, unless it is cancelled. *)
Definition same_unless_cancelled {C A} (m : cancelable C A) (p : cancelable unit A) : Prop :=
  ∀ c, (m c).1 = (p tt).1 ∨ (m c).1 = Err CorpusError_Cancelled.

(** The result of a run that is never cancelled. *)
Definition outcome {A} (p : cancelable unit A) : result CorpusError A := (p tt).1.

Section cancellation.
Context {C : Type} (poll : C → bool * C).

Lemma same_ret {A} (a : A) : same_unless_cancelled (C := C) (mret a) (mret a).
Proof. intros c. by left. Qed.
Lemma same_reject {A} e : same_unless_cancelled (C := C) (A := A) (reject e) (reject e).
Proof. intros c. by left. Qed.

Lemma same_bind {A B} (m : cancelable C A) p (f : A → cancelable C B) g :
  same_unless_cancelled m p → (∀ a, same_unless_cancelled (f a) (g a)) →
  same_unless_cancelled (m ≫= f) (p ≫= g).
Proof.
  intros Hm Hf c. unfold mbind, cancelable_bind. specialize (Hm c).
  destruct (m c) as [[a|e] c'], (p tt) as [[a'|e'] []]; simpl in *; destruct Hm as [[= ->]|[= ->]]; auto.
  destruct (Hf a' c'); auto.
Qed.

Lemma same_check : same_unless_cancelled (check_cancelled poll) (check_cancelled never_cancelled).
Proof. intros c. unfold check_cancelled. destruct (poll c) as [[] c']; simpl; auto. Qed.

Lemma same_for_each {A} (f : A → cancelable C unit) g l :
  (∀ a, same_unless_cancelled (f a) (g a)) → same_unless_cancelled (for_each f l) (for_each g l).
Proof.
  intros Hf. induction l as [|x l IH]; [apply same_ret|]. apply same_bind; [apply Hf|done].
Qed.

Lemma same_insert {K V} `{Countable K} (key : V → K) foreign duplicate values (m : gmap K V) :
  same_unless_cancelled (insert_entities poll key foreign duplicate values m)
    (insert_entities never_cancelled key foreign duplicate values m).
Proof.
  revert m. induction values as [|v values IH]; intros m; [apply same_ret|].
  apply same_bind; [apply same_check|]. intros _. destruct (foreign v); [apply same_reject|].
  case_bool_decide; [apply same_reject|apply IH].
Qed.

Lemma same_check_keys {K} `{Countable K} (valid : K → bool) error keys seen :
  same_unless_cancelled (check_keys poll valid error keys seen)
    (check_keys never_cancelled valid error keys seen).
Proof.
  revert seen. induction keys as [|k keys IH]; intros seen; [apply same_ret|].
  apply same_bind; [apply same_check|]. intros _. destruct (_ || _); [apply same_reject|apply IH].
Qed.

Create HintDb samedb.
#[local] Hint Resolve same_ret same_reject same_bind same_check same_for_each same_insert
  same_check_keys : samedb.

Lemma same_build_index {K} (hash : K → Z) keys :
  same_unless_cancelled (build_index_with_cancellation poll hash keys)
    (build_index_with_cancellation never_cancelled hash keys).
Proof.
  unfold build_index_with_cancellation. generalize 0%nat, (∅ : gmap Z IndexBucket).
  induction keys as [|k keys IH]; intros i m; [apply same_ret|].
  apply same_bind; [apply same_check|]. intros _. apply IH.
Qed.

Lemma same_add_catalogs corpus catalogs :
  same_unless_cancelled (add_catalogs poll corpus catalogs) (add_catalogs never_cancelled corpus catalogs).
Proof.
  revert corpus. induction catalogs as [|catalog catalogs IH]; intros corpus; [apply same_ret|].
  apply same_bind; [|done]. unfold add_catalog. apply same_bind; [apply same_check|]. intros _.
  case_bool_decide; auto 10 with samedb.
Qed.

Lemma same_try_new catalogs :
  same_unless_cancelled (try_new_from_refs_with_cancellation poll catalogs)
    (try_new_from_refs_with_cancellation never_cancelled catalogs).
Proof.
  apply same_bind; [apply same_check|]. intros _. destruct catalogs as [|first rest]; [apply same_reject|].
  cbv zeta. case_match; [apply same_reject|]. apply same_bind; [apply same_add_catalogs|]. intros corpus.
  apply same_bind; [|intros _; apply same_bind; [|intros _; apply same_bind; [|intros _; apply same_bind]]];
    auto using same_ret; apply same_for_each; intros x; (apply same_bind; [apply same_check|]; intros _).
  - case_bool_decide; auto with samedb.
  - destruct (cc_groups _ !! _); [|auto with samedb]. case_bool_decide; auto with samedb.
  - destruct (cc_variants _ !! _); [|auto with samedb]. case_bool_decide; [auto with samedb|].
    repeat case_match; auto with samedb.
  - destruct (cc_sections _ !! _); [|auto with samedb]. repeat case_match; auto with samedb.
Qed.

Lemma same_prepared `{KeyHash} catalogs :
  same_unless_cancelled (PreparedCatalogCorpus_try_new_with_cancellation poll catalogs)
    (PreparedCatalogCorpus_try_new_with_cancellation never_cancelled catalogs).
Proof.
  apply same_bind; [apply same_check|]. intros _. apply same_bind; [apply same_try_new|]. intros _.
  apply same_bind; [|intros ?; apply same_ret].
  generalize 0%nat, (∅ : gmap TermCampusKey CatalogContentVersion), (∅ : gmap TermCampusKey PreparedTargetIndex).
  induction catalogs as [|catalog catalogs IH]; intros i m n; [apply same_ret|].
  apply same_bind; [apply same_check|]. intros _. apply same_bind; [|intros ?; apply IH].
  apply same_bind; [apply same_check|]. intros _.
  repeat (apply same_bind; [apply same_build_index|]; intros ?). apply same_ret.
Qed.

End cancellation.

(** ** Runs that are not cancelled *)

Lemma outcome_bind {A B} (p : cancelable unit A) (f : A → cancelable unit B) :
  outcome (p ≫= f) = match outcome p with Ok a => outcome (f a) | Err e => Err e end.
Proof.
  unfold outcome, mbind, cancelable_bind. by destruct (p tt) as [[a|e] []].
Qed.

Lemma outcome_check {B} (f : unit → cancelable unit B) :
  outcome (check_cancelled never_cancelled ≫= f) = outcome (f tt).
Proof. done. Qed.

Lemma outcome_bind_Ok {A B} (p : cancelable unit A) (f : A → cancelable unit B) b :
  outcome (p ≫= f) = Ok b ↔ ∃ a, outcome p = Ok a ∧ outcome (f a) = Ok b.
Proof. rewrite outcome_bind. destruct (outcome p); naive_solver. Qed.

Lemma outcome_for_each {A} (f : A → cancelable unit unit) l :
  outcome (for_each f l) = Ok tt ↔ ∀ x, x ∈ l → outcome (f x) = Ok tt.
Proof.
  induction l as [|x l IH]; simpl; [split; [intros _ y []%elem_of_nil|done]|].
  rewrite outcome_bind_Ok. split.
  - intros ([] & Hx & Hl) y [->|Hy]%elem_of_cons; [done|]. by apply IH.
  - intros Hall. exists tt. split; [apply Hall; left|]. apply IH. intros y Hy. apply Hall. by right.
Qed.

Lemma outcome_check_keys {K} `{Countable K} (valid : K → bool) error keys seen :
  outcome (check_keys never_cancelled valid error keys seen) = Ok tt ↔
  NoDup keys ∧ ∀ k, k ∈ keys → valid k = true ∧ k ∉ seen.
Proof.
  revert seen. induction keys as [|k keys IH]; intros seen; simpl.
  { split; [|done]. intros _. split; [constructor|by intros k ?%elem_of_nil]. }
  rewrite outcome_check, NoDup_cons.
  destruct (valid k) eqn:Ev; simpl; [|split; [done|]; intros [_ Hk]; destruct (Hk k); [left|congruence]].
  case_bool_decide as Hs; [split; [done|]; intros [_ Hk]; by destruct (Hk k ltac:(left))|].
  rewrite IH. split.
  - intros (Hnd & Hk). split_and!; [|done|].
    + intros Hin. apply Hk in Hin as [_ Hin]. set_solver.
    + intros k' [->|Hin]%elem_of_cons; [done|]. apply Hk in Hin. set_solver.
  - intros ((Hnin & Hnd) & Hk). split; [done|]. intros k' Hin.
    destruct (Hk k' ltac:(by right)) as [? ?]. split; [done|].
    apply not_elem_of_union. split; [|done]. intros ->%elem_of_singleton. done.
Qed.

(** *** Maps of keyed entities *)

Section keyed.
Context {K V : Type} `{Countable K} (key : V → K).

Definition insert_keyed (m : gmap K V) (values : list V) : gmap K V :=
  foldl (λ m v, <[key v := v]> m) m values.
Definition keyed (values : list V) : gmap K V := insert_keyed ∅ values.

Lemma insert_keyed_None m values k :
  insert_keyed m values !! k = None ↔ m !! k = None ∧ k ∉ key <$> values.
Proof.
  revert m. induction values as [|v values IH]; intros m; simpl; [set_solver|].
  unfold insert_keyed in *. simpl. rewrite IH, not_elem_of_cons.
  destruct (decide (key v = k)) as [<-|Hk]; [rewrite lookup_insert_eq; naive_solver|].
  rewrite lookup_insert_ne by done. naive_solver.
Qed.

Lemma insert_keyed_Some m values k v :
  NoDup (key <$> values) → (∀ v, v ∈ values → m !! key v = None) →
  insert_keyed m values !! k = Some v ↔ m !! k = Some v ∨ v ∈ values ∧ key v = k.
Proof.
  revert m. induction values as [|w values IH]; intros m; simpl; [set_solver|].
  intros [Hw Hnd]%NoDup_cons Hm. unfold insert_keyed in *. simpl. rewrite IH; [|done|].
  - destruct (decide (key w = k)) as [<-|Hk].
    + rewrite lookup_insert_eq, (Hm w) by left. split.
      * intros [[= ->]|[? ?]]; right; split; set_solver.
      * intros [?|[[->|Hv]%elem_of_cons Hkv]]; [done|by left|by right].
    + rewrite lookup_insert_ne by done. set_solver.
  - intros u Hu. rewrite lookup_insert_ne; [apply Hm; by right|].
    intros Heq. apply Hw. rewrite Heq. by apply list_elem_of_fmap_2.
Qed.

Lemma keyed_Some values k v :
  NoDup (key <$> values) → keyed values !! k = Some v ↔ v ∈ values ∧ key v = k.
Proof.
  intros Hnd. unfold keyed. rewrite insert_keyed_Some, lookup_empty; [naive_solver|done|done].
Qed.

Lemma keyed_is_Some values k : is_Some (keyed values !! k) ↔ k ∈ key <$> values.
Proof.
  unfold keyed. rewrite <-not_eq_None_Some, insert_keyed_None, lookup_empty.
  destruct (decide (k ∈ key <$> values)); naive_solver.
Qed.

Lemma keyed_app values values' : keyed (values ++ values') = insert_keyed (keyed values) values'.
Proof. unfold keyed, insert_keyed. by rewrite foldl_app. Qed.

Lemma outcome_insert foreign duplicate values m m' :
  outcome (insert_entities never_cancelled key foreign duplicate values m) = Ok m' ↔
  (∀ v, v ∈ values → foreign v = false ∧ m !! key v = None) ∧ NoDup (key <$> values) ∧
  m' = insert_keyed m values.
Proof.
  revert m. induction values as [|v values IH]; intros m; simpl.
  { unfold outcome. simpl. split; [intros [= <-]|intros (_ & _ & ->); done].
    split_and!; [by intros v ?%elem_of_nil|constructor|done]. }
  rewrite outcome_check, NoDup_cons.
  destruct (foreign v) eqn:Ef; [split; [done|]; intros [Hk _]; destruct (Hk v); [left|congruence]|].
  case_bool_decide as Hs; [split; [done|]; intros [Hk _]; destruct (Hk v) as [_ Hn]; [left|];
    rewrite Hn in Hs; by destruct Hs|].
  rewrite <-eq_None_not_Some in Hs. rewrite IH. split.
  - intros (Hk & Hnd & ->). split_and!; [|intros (w & Hw & Hin)%list_elem_of_fmap|done|done].
    + intros w [->|Hin]%elem_of_cons; [done|]. destruct (Hk w Hin) as [? Hl]. split; [done|].
      by apply lookup_insert_None in Hl as [? _].
    + destruct (Hk w Hin) as [_ Hl]. apply lookup_insert_None in Hl as [_ Hne]. congruence.
  - intros (Hk & [Hnin Hnd] & ->). split_and!; [|done|done]. intros w Hin.
    destruct (Hk w ltac:(by right)) as [? Hl]. split; [done|]. rewrite lookup_insert_ne; [done|].
    intros Heq. apply Hnin. rewrite Heq. by apply list_elem_of_fmap_2.
Qed.

(** Inserting after the entities of the catalogs before. *)
Lemma outcome_insert_keyed foreign duplicate before values m' :
  NoDup (key <$> before) →
  outcome (insert_entities never_cancelled key foreign duplicate values (keyed before)) = Ok m' ↔
  (∀ v, v ∈ values → foreign v = false) ∧ NoDup (key <$> before ++ values) ∧
  m' = keyed (before ++ values).
Proof.
  intros Hnd. rewrite outcome_insert, keyed_app, fmap_app, NoDup_app.
  assert (∀ v, keyed before !! key v = None ↔ key v ∉ key <$> before) as Hn
    by (intros v; unfold keyed; rewrite insert_keyed_None, lookup_empty; tauto).
  setoid_rewrite Hn. split.
  - intros (Hall & Hnd' & ->). split_and!; [|done| |done|done]; [naive_solver|].
    intros k Hk (v & -> & Hv)%list_elem_of_fmap. by apply (Hall v Hv).
  - intros (Hf & (_ & Hdis & Hnd') & ->). split_and!; [|done|done]. intros v Hv. split; [auto|].
    intros Hk. by apply (Hdis (key v) Hk), list_elem_of_fmap_2.
Qed.

End keyed.

(** ** Validation *)

Definition insert_versions (m : gmap TermCampusKey CatalogContentVersion)
    (catalogs : list NormalizedCatalogV1) : gmap TermCampusKey CatalogContentVersion :=
  foldl (λ m catalog, <[nca_target catalog := nca_content_version catalog]> m) m catalogs.

Section entities.
Context (catalogs : list NormalizedCatalogV1).

Definition all_groups : list NormalizedCourseGroupV1 := catalogs ≫= nca_course_groups.
Definition all_variants : list NormalizedCourseVariantV1 := catalogs ≫= nca_course_variants.
Definition all_sections : list NormalizedSectionV1 := catalogs ≫= nca_sections.
Definition all_occurrences : list NormalizedOccurrenceV1 := catalogs ≫= nca_occurrences.

(** The corpus of the catalogs. *)
Definition corpus_of : CatalogCorpus := {|
  cc_term := default "" (catalog_term <$> head catalogs);
  cc_target_versions := insert_versions ∅ catalogs;
  cc_groups := keyed ncg_key all_groups;
  cc_variants := keyed ncv_key all_variants;
  cc_sections := keyed nse_key all_sections;
  cc_occurrences := keyed noc_key all_occurrences
|}.

(** Every entity belongs to the target of its catalog, and keys are unique. *)
Record entities_valid : Prop := {
  va_targets : NoDup (nca_target <$> catalogs);
  va_group_target : ∀ c g, c ∈ catalogs → g ∈ nca_course_groups c → cgk_target (ncg_key g) = nca_target c;
  va_variant_target : ∀ c v, c ∈ catalogs → v ∈ nca_course_variants c → cvk_target (ncv_key v) = nca_target c;
  va_section_target : ∀ c s, c ∈ catalogs → s ∈ nca_sections c →
    sk_target (nse_key s) = nca_target c ∧ cvk_target (nse_variant_key s) = nca_target c;
  va_occurrence_target : ∀ c o, c ∈ catalogs → o ∈ nca_occurrences c → cok_target (noc_key o) = nca_target c;
  va_groups : NoDup (ncg_key <$> all_groups);
  va_variants : NoDup (ncv_key <$> all_variants);
  va_sections : NoDup (nse_key <$> all_sections);
  va_occurrences : NoDup (noc_key <$> all_occurrences)
}.

Definition group_valid (g : NormalizedCourseGroupV1) : Prop :=
  ncg_variant_keys g ≠ [] ∧ NoDup (ncg_variant_keys g) ∧
  ∀ k, k ∈ ncg_variant_keys g → cvk_group k = ncg_key g ∧ k ∈ ncv_key <$> all_variants.

Definition variant_valid (v : NormalizedCourseVariantV1) : Prop :=
  (∃ g, g ∈ all_groups ∧ ncg_key g = cvk_group (ncv_key v) ∧ ncv_key v ∈ ncg_variant_keys g) ∧
  NoDup (ncv_section_keys v) ∧
  ∀ k, k ∈ ncv_section_keys v →
    ∃ s, s ∈ all_sections ∧ nse_key s = k ∧ nse_variant_key s = ncv_key v.

Definition section_valid (s : NormalizedSectionV1) : Prop :=
  (∃ v, v ∈ all_variants ∧ ncv_key v = nse_variant_key s ∧ nse_key s ∈ ncv_section_keys v) ∧
  ∀ keys, nse_occurrence_keys s = Present keys →
    NoDup keys ∧ ∀ k, k ∈ keys → cok_section k = nse_key s ∧ k ∈ noc_key <$> all_occurrences.

Definition occurrence_valid (o : NormalizedOccurrenceV1) : Prop :=
  ∃ s keys, s ∈ all_sections ∧ nse_key s = cok_section (noc_key o) ∧
    nse_occurrence_keys s = Present keys ∧ noc_key o ∈ keys.

(** What validation promises: one term, and the references of groups, variants,
    sections and occurrences resolve, without repetition, in both directions. *)
Record catalogs_valid : Prop := {
  cv_nonempty : catalogs ≠ [];
  cv_term : ∀ c, c ∈ catalogs → catalog_term c = cc_term corpus_of;
  cv_entities : entities_valid;
  cv_group : ∀ g, g ∈ all_groups → group_valid g;
  cv_variant : ∀ v, v ∈ all_variants → variant_valid v;
  cv_section : ∀ s, s ∈ all_sections → section_valid s;
  cv_occurrence : ∀ o, o ∈ all_occurrences → occurrence_valid o
}.

End entities.

(** *** The maps *)

Lemma entities_valid_nil : entities_valid [].
Proof. split; try (intros ? ? []%elem_of_nil); constructor. Qed.

Lemma target_versions_None catalogs m target :
  insert_versions m catalogs !! target = None ↔
  m !! target = None ∧ target ∉ nca_target <$> catalogs.
Proof.
  unfold insert_versions. revert m. induction catalogs as [|c catalogs IH]; intros m; simpl; [set_solver|].
  rewrite IH, not_elem_of_cons, lookup_insert_None. naive_solver.
Qed.

Lemma foreign_false {V} (values : list V) (foreign : V → bool) (P : V → Prop) :
  (∀ v, foreign v = false ↔ P v) → (∀ v, v ∈ values → foreign v = false) ↔ ∀ v, v ∈ values → P v.
Proof. intros H. by setoid_rewrite H. Qed.

Definition with_term (term : string) (corpus : CatalogCorpus) : CatalogCorpus := {|
  cc_term := term; cc_target_versions := cc_target_versions corpus; cc_groups := cc_groups corpus;
  cc_variants := cc_variants corpus; cc_sections := cc_sections corpus;
  cc_occurrences := cc_occurrences corpus |}.

Lemma entities_valid_snoc catalogs catalog :
  entities_valid (catalogs ++ [catalog]) ↔
  entities_valid catalogs ∧
  nca_target catalog ∉ nca_target <$> catalogs ∧
  ((∀ g, g ∈ nca_course_groups catalog → cgk_target (ncg_key g) = nca_target catalog) ∧
   NoDup (ncg_key <$> all_groups catalogs ++ nca_course_groups catalog)) ∧
  ((∀ v, v ∈ nca_course_variants catalog → cvk_target (ncv_key v) = nca_target catalog) ∧
   NoDup (ncv_key <$> all_variants catalogs ++ nca_course_variants catalog)) ∧
  ((∀ s, s ∈ nca_sections catalog → sk_target (nse_key s) = nca_target catalog ∧
     cvk_target (nse_variant_key s) = nca_target catalog) ∧
   NoDup (nse_key <$> all_sections catalogs ++ nca_sections catalog)) ∧
  ((∀ o, o ∈ nca_occurrences catalog → cok_target (noc_key o) = nca_target catalog) ∧
   NoDup (noc_key <$> all_occurrences catalogs ++ nca_occurrences catalog)).
Proof.
  assert (∀ {V} (f : NormalizedCatalogV1 → list V),
    (catalogs ++ [catalog]) ≫= f = (catalogs ≫= f) ++ f catalog) as Hb
    by (intros V f; rewrite bind_app; simpl; by rewrite app_nil_r).
  split.
  - intros [Ht Hg Hv Hs Ho Ng Nv Ns No]. unfold all_groups, all_variants, all_sections, all_occurrences in *.
    rewrite Hb in Ng, Nv, Ns, No. rewrite fmap_app, NoDup_app in Ht. destruct Ht as (Ht & Hdis & _).
    assert (catalog ∈ catalogs ++ [catalog]) as Hin by set_solver.
    split_and!; try done; try (intros ? H; eauto).
    + assert (∀ c, c ∈ catalogs → c ∈ catalogs ++ [catalog]) as Hsub by set_solver.
      assert (∀ {V K} (f : V → K) l l', NoDup (f <$> l ++ l') → NoDup (f <$> l)) as Hpre
        by (intros V K f l l' H; rewrite fmap_app, NoDup_app in H; tauto).
      split; eauto.
    + intros Hin'. apply (Hdis _ Hin'). left.
  - intros (Hval & Ht & [Hg Ng] & [Hv Nv] & [Hs Ns] & [Ho No]). destruct Hval.
    split; unfold all_groups, all_variants, all_sections, all_occurrences; rewrite ?Hb; try done;
      try (intros c x [Hc|Hc%list_elem_of_singleton]%elem_of_app; [eauto|subst c; eauto]).
    rewrite fmap_app, NoDup_app. split_and!; [done| |apply NoDup_singleton].
    intros t Hin Heq%list_elem_of_singleton. by subst t.
Qed.

Lemma corpus_of_snoc term catalogs catalog :
  with_term term (corpus_of (catalogs ++ [catalog])) = {|
    cc_term := term;
    cc_target_versions :=
      <[nca_target catalog := nca_content_version catalog]> (cc_target_versions (corpus_of catalogs));
    cc_groups := keyed ncg_key (all_groups catalogs ++ nca_course_groups catalog);
    cc_variants := keyed ncv_key (all_variants catalogs ++ nca_course_variants catalog);
    cc_sections := keyed nse_key (all_sections catalogs ++ nca_sections catalog);
    cc_occurrences := keyed noc_key (all_occurrences catalogs ++ nca_occurrences catalog) |}.
Proof.
  unfold with_term, corpus_of, all_groups, all_variants, all_sections, all_occurrences, insert_versions.
  simpl. rewrite !bind_app, foldl_app. simpl. by rewrite !app_nil_r.
Qed.

Lemma outcome_add_catalog term catalogs catalog corpus :
  entities_valid catalogs →
  outcome (add_catalog never_cancelled (with_term term (corpus_of catalogs)) catalog) = Ok corpus ↔
  entities_valid (catalogs ++ [catalog]) ∧ corpus = with_term term (corpus_of (catalogs ++ [catalog])).
Proof.
  intros Hval. unfold add_catalog. cbv zeta. rewrite outcome_check, entities_valid_snoc, corpus_of_snoc.
  assert (bool_decide (is_Some (cc_target_versions (with_term term (corpus_of catalogs)) !! nca_target catalog))
    = bool_decide (nca_target catalog ∈ nca_target <$> catalogs)) as ->.
  { apply bool_decide_ext. simpl. rewrite <-not_eq_None_Some, target_versions_None, lookup_empty.
    destruct (decide (nca_target catalog ∈ nca_target <$> catalogs)); naive_solver. }
  case_bool_decide as Ht; [split; [done|naive_solver]|].
  repeat setoid_rewrite outcome_bind_Ok. cbn [cc_groups cc_variants cc_sections cc_occurrences with_term corpus_of].
  pose proof Hval as [_ _ _ _ _ Ng Nv Ns No].
  setoid_rewrite (outcome_insert_keyed ncg_key _ _ _ _ _ Ng).
  setoid_rewrite (outcome_insert_keyed ncv_key _ _ _ _ _ Nv).
  setoid_rewrite (outcome_insert_keyed nse_key _ _ _ _ _ Ns).
  setoid_rewrite (outcome_insert_keyed noc_key _ _ _ _ _ No).
  assert (∀ g, group_foreign (nca_target catalog) g = false ↔ cgk_target (ncg_key g) = nca_target catalog) as Fg
    by (intros g; unfold group_foreign; rewrite bool_decide_eq_false; destruct (decide (cgk_target (ncg_key g) = nca_target catalog)); tauto).
  assert (∀ v, variant_foreign (nca_target catalog) v = false ↔ cvk_target (ncv_key v) = nca_target catalog) as Fv
    by (intros v; unfold variant_foreign; rewrite bool_decide_eq_false; destruct (decide (cvk_target (ncv_key v) = nca_target catalog)); tauto).
  assert (∀ s, section_foreign (nca_target catalog) s = false ↔
    sk_target (nse_key s) = nca_target catalog ∧ cvk_target (nse_variant_key s) = nca_target catalog) as Fs
    by (intros s; unfold section_foreign; rewrite orb_false_iff, !bool_decide_eq_false;
        destruct (decide (sk_target (nse_key s) = nca_target catalog)),
          (decide (cvk_target (nse_variant_key s) = nca_target catalog)); tauto).
  assert (∀ o, occurrence_foreign (nca_target catalog) o = false ↔ cok_target (noc_key o) = nca_target catalog) as Fo
    by (intros o; unfold occurrence_foreign; rewrite bool_decide_eq_false; destruct (decide (cok_target (noc_key o) = nca_target catalog)); tauto).
  setoid_rewrite Fg. setoid_rewrite Fv. setoid_rewrite Fs. setoid_rewrite Fo. split.
  - intros (? & (Hg & Hg' & ->) & ? & (Hv & Hv' & ->) & ? & (Hs & Hs' & ->) & ? & (Ho & Ho' & ->) & [= <-]).
    split; [|done]. tauto.
  - intros ((_ & _ & (Hg & Hg') & (Hv & Hv') & (Hs & Hs') & (Ho & Ho')) & ->).
    do 4 (eexists; split; [split_and!; [eassumption..|reflexivity]|]). reflexivity.
Qed.

Lemma outcome_add_catalogs term before catalogs corpus :
  entities_valid before →
  outcome (add_catalogs never_cancelled (with_term term (corpus_of before)) catalogs) = Ok corpus ↔
  entities_valid (before ++ catalogs) ∧ corpus = with_term term (corpus_of (before ++ catalogs)).
Proof.
  revert before. induction catalogs as [|catalog catalogs IH]; intros before Hval; simpl.
  { rewrite app_nil_r. unfold outcome. simpl. naive_solver. }
  rewrite outcome_bind_Ok. setoid_rewrite outcome_add_catalog; [|done].
  rewrite (cons_middle catalog before catalogs), app_assoc. split.
  - intros (? & (Hval' & ->) & Hrest). by apply IH.
  - intros (Hval' & ->). assert (entities_valid (before ++ [catalog])) as Hval1.
    { clear -Hval'. revert Hval'. generalize (before ++ [catalog]). intros l.
      induction catalogs as [|c cs IH] using rev_ind; [by rewrite app_nil_r|].
      rewrite app_assoc. intros (Hv & _)%entities_valid_snoc. by apply IH. }
    eexists. split; [by split|]. by apply IH.
Qed.

(** *** The references *)

Lemma with_own_term catalogs : with_term (cc_term (corpus_of catalogs)) (corpus_of catalogs) = corpus_of catalogs.
Proof. done. Qed.

Section references.
Context (catalogs : list NormalizedCatalogV1) (Hval : entities_valid catalogs).
#[local] Abbreviation corpus := (corpus_of catalogs).

Lemma group_lookup k g : cc_groups corpus !! k = Some g ↔ g ∈ all_groups catalogs ∧ ncg_key g = k.
Proof. apply keyed_Some, va_groups, Hval. Qed.
Lemma variant_lookup k v : cc_variants corpus !! k = Some v ↔ v ∈ all_variants catalogs ∧ ncv_key v = k.
Proof. apply keyed_Some, va_variants, Hval. Qed.
Lemma section_lookup k s : cc_sections corpus !! k = Some s ↔ s ∈ all_sections catalogs ∧ nse_key s = k.
Proof. apply keyed_Some, va_sections, Hval. Qed.
Lemma occurrence_lookup k o :
  cc_occurrences corpus !! k = Some o ↔ o ∈ all_occurrences catalogs ∧ noc_key o = k.
Proof. apply keyed_Some, va_occurrences, Hval. Qed.

Lemma outcome_check_group g : outcome (check_group never_cancelled corpus g) = Ok tt ↔ group_valid catalogs g.
Proof.
  unfold check_group, group_valid. rewrite outcome_check.
  case_bool_decide as Hn; [split; [done|naive_solver]|].
  rewrite outcome_check_keys. setoid_rewrite andb_true_iff. setoid_rewrite bool_decide_eq_true.
  cbn [cc_variants corpus_of]. setoid_rewrite keyed_is_Some. set_solver.
Qed.

Lemma outcome_check_variant v :
  outcome (check_variant never_cancelled corpus v) = Ok tt ↔ variant_valid catalogs v.
Proof.
  unfold check_variant, variant_valid. rewrite outcome_check.
  assert (∀ k, match cc_sections corpus !! k with
    | None => false | Some s => bool_decide (nse_variant_key s = ncv_key v) end = true ↔
    ∃ s, s ∈ all_sections catalogs ∧ nse_key s = k ∧ nse_variant_key s = ncv_key v) as Hs.
  { intros k. pose proof (section_lookup k) as Hl. destruct (cc_sections corpus !! k) as [s|].
    - destruct (proj1 (Hl s) eq_refl) as [Hin Hk]. rewrite bool_decide_eq_true. split; [eauto|].
      intros (s' & Hs' & Hk' & Hv). assert (Some s = Some s') as [= ->] by (by apply Hl). done.
    - split; [done|]. intros (s & Hin & Hk & _). by assert (None = Some s) by (by apply Hl). }
  pose proof (group_lookup (cvk_group (ncv_key v))) as Hg.
  destruct (cc_groups corpus !! cvk_group (ncv_key v)) as [g|].
  - destruct (proj1 (Hg g) eq_refl) as [Hin Hk].
    assert ((∃ g, g ∈ all_groups catalogs ∧ ncg_key g = cvk_group (ncv_key v) ∧ ncv_key v ∈ ncg_variant_keys g)
      ↔ ncv_key v ∈ ncg_variant_keys g) as ->.
    { split; [|eauto]. intros (g' & Hg' & Hk' & ?). assert (Some g = Some g') as [= ->] by (by apply Hg). done. }
    case_bool_decide as Hn; [split; [done|tauto]|]. rewrite outcome_check_keys. setoid_rewrite Hs.
    set_solver.
  - split; [done|]. intros [(g & Hin & Hk & _) _]. by assert (None = Some g) by (by apply Hg).
Qed.

Lemma outcome_check_section s :
  outcome (check_section never_cancelled corpus s) = Ok tt ↔ section_valid catalogs s.
Proof.
  unfold check_section, section_valid. rewrite outcome_check.
  pose proof (variant_lookup (nse_variant_key s)) as Hv.
  destruct (cc_variants corpus !! nse_variant_key s) as [v|].
  - destruct (proj1 (Hv v) eq_refl) as [Hin Hk].
    assert ((∃ v, v ∈ all_variants catalogs ∧ ncv_key v = nse_variant_key s ∧ nse_key s ∈ ncv_section_keys v)
      ↔ nse_key s ∈ ncv_section_keys v) as ->.
    { split; [|eauto]. intros (v' & Hv' & Hk' & ?). assert (Some v = Some v') as [= ->] by (by apply Hv). done. }
    case_bool_decide as Hn; [split; [done|tauto]|].
    destruct (nse_occurrence_keys s) as [[keys| |]|r]; try (unfold outcome; simpl; split; [intros _; by split|done]).
    rewrite outcome_check_keys. setoid_rewrite andb_true_iff. setoid_rewrite bool_decide_eq_true.
    cbn [cc_occurrences corpus_of]. setoid_rewrite keyed_is_Some. split.
    + intros [Hnd Hk']. split; [done|]. intros keys' [= <-]. set_solver.
    + intros [_ Hk']. destruct (Hk' keys eq_refl). set_solver.
  - split; [done|]. intros [(v & Hin & Hk & _) _]. by assert (None = Some v) by (by apply Hv).
Qed.

Lemma outcome_check_occurrence o :
  outcome (check_occurrence never_cancelled corpus o) = Ok tt ↔ occurrence_valid catalogs o.
Proof.
  unfold check_occurrence, occurrence_valid. rewrite outcome_check.
  pose proof (section_lookup (cok_section (noc_key o))) as Hs.
  destruct (cc_sections corpus !! cok_section (noc_key o)) as [s|].
  - destruct (proj1 (Hs s) eq_refl) as [Hin Hk]. split.
    + intros H. exists s. destruct (nse_occurrence_keys s) as [[keys| |]|r]; try discriminate H.
      exists keys. case_bool_decide; [by split_and!|discriminate H].
    + intros (s' & keys & Hs' & Hk' & Ho & Hin'). assert (Some s = Some s') as [= ->] by (by apply Hs).
      rewrite Ho. by rewrite bool_decide_eq_true_2.
  - split; [done|]. intros (s & keys & Hin & Hk & _). by assert (None = Some s) by (by apply Hs).
Qed.

Lemma elem_of_group_values g : g ∈ btm_values (cc_groups corpus) ↔ g ∈ all_groups catalogs.
Proof. rewrite elem_of_btm_values. setoid_rewrite group_lookup. naive_solver. Qed.
Lemma elem_of_variant_values v : v ∈ btm_values (cc_variants corpus) ↔ v ∈ all_variants catalogs.
Proof. rewrite elem_of_btm_values. setoid_rewrite variant_lookup. naive_solver. Qed.
Lemma elem_of_section_values s : s ∈ btm_values (cc_sections corpus) ↔ s ∈ all_sections catalogs.
Proof. rewrite elem_of_btm_values. setoid_rewrite section_lookup. naive_solver. Qed.
Lemma elem_of_occurrence_values o : o ∈ btm_values (cc_occurrences corpus) ↔ o ∈ all_occurrences catalogs.
Proof. rewrite elem_of_btm_values. setoid_rewrite occurrence_lookup. naive_solver. Qed.

End references.

(** Validation accepts exactly the valid catalogs and builds their corpus. *)
Lemma try_new_Ok catalogs corpus :
  CatalogCorpus_try_new_from_refs catalogs = Ok corpus ↔
  catalogs_valid catalogs ∧ corpus = corpus_of catalogs.
Proof.
  change (CatalogCorpus_try_new_from_refs catalogs) with
    (outcome (try_new_from_refs_with_cancellation never_cancelled catalogs)).
  unfold try_new_from_refs_with_cancellation. rewrite outcome_check.
  destruct catalogs as [|first rest]; [split; [done|by intros [[] _]]|].
  set (catalogs := first :: rest). cbv zeta.
  destruct (existsb _ catalogs) eqn:Eterm.
  { split; [done|]. intros [[_ Ht _ _ _ _ _] _]. exfalso.
    apply existsb_exists in Eterm as (c & Hin%list_elem_of_In & Hne%bool_decide_eq_true).
    apply Hne. by rewrite (Ht c Hin). }
  assert (∀ c, c ∈ catalogs → catalog_term c = cc_term (corpus_of catalogs)) as Hterm.
  { intros c Hin. destruct (decide (catalog_term c = catalog_term first)) as [|Hne]; [done|exfalso].
    apply not_true_iff_false in Eterm. apply Eterm, existsb_exists. exists c.
    rewrite <-list_elem_of_In, bool_decide_eq_true. done. }
  rewrite outcome_bind_Ok.
  setoid_rewrite (outcome_add_catalogs (catalog_term first) [] catalogs _ entities_valid_nil).
  cbn [app]. change (with_term (catalog_term first) (corpus_of catalogs)) with (corpus_of catalogs).
  repeat setoid_rewrite outcome_bind_Ok. split.
  - intros (? & (Hval & ->) & [] & Hg & [] & Hv & [] & Hs & [] & Ho & [= <-]). split; [|done].
    pose proof (proj1 (outcome_for_each _ _) Hg) as Hg'. pose proof (proj1 (outcome_for_each _ _) Hv) as Hv'.
    pose proof (proj1 (outcome_for_each _ _) Hs) as Hs'. pose proof (proj1 (outcome_for_each _ _) Ho) as Ho'.
    split; try done.
    + intros g Hin. by apply (outcome_check_group catalogs), Hg', elem_of_group_values.
    + intros v Hin. by apply (outcome_check_variant catalogs), Hv', elem_of_variant_values.
    + intros s Hin. by apply (outcome_check_section catalogs), Hs', elem_of_section_values.
    + intros o Hin. by apply (outcome_check_occurrence catalogs), Ho', elem_of_occurrence_values.
  - intros ([_ _ Hval Hg Hv Hs Ho] & ->). eexists. split; [by split|].
    exists tt. split; [apply outcome_for_each; intros g Hin; apply outcome_check_group; [done|];
      by apply Hg, elem_of_group_values|].
    exists tt. split; [apply outcome_for_each; intros v Hin; apply outcome_check_variant; [done|];
      by apply Hv, elem_of_variant_values|].
    exists tt. split; [apply outcome_for_each; intros s Hin; apply outcome_check_section; [done|];
      by apply Hs, elem_of_section_values|].
    exists tt. split; [apply outcome_for_each; intros o Hin; apply outcome_check_occurrence; [done|];
      by apply Ho, elem_of_occurrence_values|]. done.
Qed.

(** ** No lookup of a valid corpus panics *)

(** Looking up a list of keys that are all there. *)
Lemma mapM_keyed {K V} `{Countable K} (key : V → K) (m : gmap K V) (keys : list K) :
  (∀ k v, m !! k = Some v → key v = k) → (∀ k, k ∈ keys → is_Some (m !! k)) →
  ∃ vs, mapM (λ k, m !! k) keys = Some vs ∧ key <$> vs = keys ∧ ∀ v, v ∈ vs → m !! key v = Some v.
Proof.
  intros Hkey Hall. assert (is_Some (mapM (λ k, m !! k) keys)) as [vs Hvs]
    by (apply mapM_is_Some, Forall_forall, Hall).
  exists vs. split; [done|]. apply mapM_Some in Hvs. clear Hall.
  induction Hvs as [|k v keys vs Hv Hvs [IH IH']]; [split; [done|]; by intros v ?%elem_of_nil|].
  rewrite fmap_cons, IH, (Hkey k v Hv). split; [done|].
  intros u [->|Hu]%elem_of_cons; [by rewrite (Hkey k v Hv)|by apply IH'].
Qed.

Section lookups.
Context (catalogs : list NormalizedCatalogV1) (Hval : catalogs_valid catalogs).
#[local] Abbreviation corpus := (corpus_of catalogs).

Lemma variants_for_total g :
  g ∈ all_groups catalogs →
  ∃ vs, cc_variants_for corpus g = Some vs ∧ ncv_key <$> vs = ncg_variant_keys g ∧
    ∀ v, v ∈ vs → v ∈ all_variants catalogs.
Proof.
  intros Hg. destruct (mapM_keyed ncv_key (cc_variants corpus) (ncg_variant_keys g)) as (vs & Hvs & Hk & Hin).
  - by intros k v [_ ?]%variant_lookup; [|apply Hval].
  - intros k Hk. apply keyed_is_Some. by apply (cv_group _ Hval g Hg).
  - exists vs. split_and!; [done..|]. intros v Hv. by apply Hin, variant_lookup in Hv as [? _]; [|apply Hval].
Qed.

Lemma sections_for_total v :
  v ∈ all_variants catalogs →
  ∃ ss, cc_sections_for corpus v = Some ss ∧ nse_key <$> ss = ncv_section_keys v ∧
    ∀ s, s ∈ ss → s ∈ all_sections catalogs ∧ nse_variant_key s = ncv_key v.
Proof.
  intros Hv. pose proof (cv_variant _ Hval v Hv) as (_ & _ & Hkeys).
  destruct (mapM_keyed nse_key (cc_sections corpus) (ncv_section_keys v)) as (ss & Hss & Hk & Hin).
  - by intros k s [_ ?]%section_lookup; [|apply Hval].
  - intros k (s & Hs & <- & _)%Hkeys. apply keyed_is_Some. by apply list_elem_of_fmap_2.
  - exists ss. split_and!; [done..|]. intros s Hs. pose proof Hs as Hs'%Hin.
    apply section_lookup in Hs' as [Hs' _]; [|apply Hval]. split; [done|].
    assert (nse_key s ∈ ncv_section_keys v) as (s' & Hin' & Hks & Hvs)%Hkeys
      by (rewrite <-Hk; by apply list_elem_of_fmap_2).
    assert (cc_sections corpus !! nse_key s = Some s) as H1 by (apply section_lookup; [apply Hval|done]).
    assert (cc_sections corpus !! nse_key s = Some s') as H2 by (apply section_lookup; [apply Hval|done]).
    congruence.
Qed.

Lemma occurrences_for_total s :
  s ∈ all_sections catalogs →
  ∃ os, cc_known_occurrences_for corpus s = Some os ∧
    (is_Some os ↔ ∃ keys, nse_occurrence_keys s = Present keys) ∧
    ∀ l, os = Some l → nse_occurrence_keys s = Present (noc_key <$> l) ∧ ∀ o, o ∈ l → o ∈ all_occurrences catalogs.
Proof.
  intros Hs. unfold cc_known_occurrences_for. pose proof (cv_section _ Hval s Hs) as [_ Hkeys].
  destruct (nse_occurrence_keys s) as [[keys| |]|r] eqn:E;
    try (exists None; split_and!; [done|split; [by intros [? ?]|by intros [? ?]]|done]).
  destruct (Hkeys keys eq_refl) as [_ Hk].
  destruct (mapM_keyed noc_key (cc_occurrences corpus) keys) as (os & -> & Hos & Hin).
  - by intros k o [_ ?]%occurrence_lookup; [|apply Hval].
  - intros k Hin. apply keyed_is_Some. by apply Hk.
  - exists (Some os). split_and!; [done|split; eauto|]. intros l [= <-]. split; [by rewrite Hos|].
    intros o Ho. by apply Hin, occurrence_lookup in Ho as [? _]; [|apply Hval].
Qed.

Lemma section_variant_total s :
  s ∈ all_sections catalogs → ∃ v, cc_variants corpus !! nse_variant_key s = Some v ∧
    v ∈ all_variants catalogs ∧ nse_key s ∈ ncv_section_keys v.
Proof.
  intros Hs. destruct (cv_section _ Hval s Hs) as [(v & Hv & Hk & Hin) _]. exists v.
  split; [|done]. by apply variant_lookup; [apply Hval|].
Qed.

End lookups.

(** C31. Validating the catalogs of a corpus: a corpus is built exactly from
    catalogs of one term whose keys are unique and whose references resolve in
    both directions, and it is the corpus of their entities; in it no lookup of
    variants, sections or occurrences panics, each yields exactly the keys
    listed, and a section's variant lists the section; cancelling can only turn
    the result into [Cancelled]. *)
Theorem corpus_validation {C : Type} (poll : C → bool * C) (state : C)
    (catalogs : list NormalizedCatalogV1) (corpus : CatalogCorpus) :
  (CatalogCorpus_try_new_from_refs catalogs = Ok corpus ↔
     catalogs_valid catalogs ∧ corpus = corpus_of catalogs) ∧
  ((try_new_from_refs_with_cancellation poll catalogs state).1
       = CatalogCorpus_try_new_from_refs catalogs ∨
   (try_new_from_refs_with_cancellation poll catalogs state).1 = Err CorpusError_Cancelled) ∧
  (CatalogCorpus_try_new_from_refs catalogs = Ok corpus →
     (∀ g, g ∈ cc_iter_groups corpus →
        ∃ vs, cc_variants_for corpus g = Some vs ∧ ncv_key <$> vs = ncg_variant_keys g) ∧
     (∀ k v, cc_variants corpus !! k = Some v →
        ∃ ss, cc_sections_for corpus v = Some ss ∧ nse_key <$> ss = ncv_section_keys v ∧
          Forall (λ s, nse_variant_key s = ncv_key v) ss) ∧
     (∀ s, s ∈ cc_iter_sections corpus →
        is_Some (cc_known_occurrences_for corpus s) ∧
        ∃ v, cc_variants corpus !! nse_variant_key s = Some v ∧ nse_key s ∈ ncv_section_keys v)).
Proof.
  split; [apply try_new_Ok|]. split; [apply same_try_new|].
  intros [Hval ->]%try_new_Ok. pose proof (cv_entities _ Hval) as He. split_and!.
  - intros g Hg%elem_of_group_values; [|done].
    destruct (variants_for_total _ Hval g Hg) as (vs & ? & ? & _). eauto.
  - intros k v [Hv _]%variant_lookup; [|done].
    destruct (sections_for_total _ Hval v Hv) as (ss & ? & ? & Hss). exists ss. split_and!; [done..|].
    apply Forall_forall. intros s Hs. by apply Hss.
  - intros s Hs%elem_of_section_values; [|done]. split.
    + destruct (occurrences_for_total _ Hval s Hs) as (os & -> & _). eauto.
    + destruct (section_variant_total _ Hval s Hs) as (v & ? & _ & ?). eauto.
Qed.

Lemma sample_corpus : CatalogCorpus_try_new_from_refs [sample_catalog] = Ok (corpus_of [sample_catalog]).
Proof. vm_compute. reflexivity. Qed.

Lemma corpus_validation_witness :
  CatalogCorpus_try_new_from_refs [sample_catalog] = Ok (corpus_of [sample_catalog]) ∧
  catalogs_valid [sample_catalog].
Proof.
  split; [exact sample_corpus|].
  exact (proj1 (proj1 (proj1 (corpus_validation never_cancelled tt [sample_catalog]
    (corpus_of [sample_catalog]))) sample_corpus)).
Defined.
