(* ===== verification/PreparedFacts.v ===== *)
(** * The prepared corpus answers like the reference corpus

    Every lookup through the hash buckets finds the first entity with the key,
    whatever the hash functions; so the prepared corpus of valid catalogs gives
    the same answers as the reference corpus, in the same order, without panics. *)

From S2P Require Import Prelude Ordering Identity Contracts CatalogData Corpus CatalogSamples CorpusFacts.

(** ** Buckets *)

(** The positions at which the keys hash to [h]. *)
Fixpoint positions_from {K} (hash : K → Z) (index : nat) (keys : list K) (h : Z) : list nat :=
  match keys with
  | [] => []
  | key :: keys =>
      if bool_decide (hash key = h) then index :: positions_from hash (S index) keys h
      else positions_from hash (S index) keys h
  end.

Definition bucket_of (indices : list nat) : option IndexBucket :=
  match indices with
  | [] => None
  | [index] => Some (IndexBucket_One index)
  | _ => Some (IndexBucket_Many indices)
  end.

Lemma insert_bucket_of buckets (at_hash : Z → list nat) hash index :
  (∀ h, buckets !! h = bucket_of (at_hash h)) →
  ∀ h, insert_index_bucket buckets hash index !! h =
    bucket_of (if bool_decide (hash = h) then at_hash h ++ [index] else at_hash h).
Proof.
  intros Hb h. unfold insert_index_bucket. rewrite (Hb hash).
  case_bool_decide as Hh; [subst h|].
  - destruct (at_hash hash) as [|i [|j l]]; simpl; by rewrite lookup_insert_eq.
  - destruct (at_hash hash) as [|i [|j l]]; simpl; by rewrite lookup_insert_ne, Hb.
Qed.

Lemma build_index_lookup {K} (hash : K → Z) (keys : list K) :
  ∃ buckets, outcome (build_index_with_cancellation never_cancelled hash keys) = Ok buckets ∧
    ∀ h, buckets !! h = bucket_of (positions_from hash 0 keys h).
Proof.
  unfold build_index_with_cancellation.
  assert (∀ index buckets at_hash, (∀ h, buckets !! h = bucket_of (at_hash h)) →
    ∃ buckets', outcome (build_index_from never_cancelled hash index keys buckets) = Ok buckets' ∧
      ∀ h, buckets' !! h = bucket_of (at_hash h ++ positions_from hash index keys h)) as Hgen.
  { induction keys as [|k keys IH]; intros index buckets at_hash Hb; simpl.
    - exists buckets. split; [done|]. intros h. by rewrite app_nil_r.
    - rewrite outcome_check.
      destruct (IH (S index) _ _ (insert_bucket_of _ _ (hash k) index Hb)) as (buckets' & ? & Hl).
      exists buckets'. split; [done|]. intros h. rewrite Hl. case_bool_decide; [|done].
      by rewrite <-app_assoc. }
  destruct (Hgen 0%nat ∅ (λ _, [])) as (buckets & ? & Hl); [done|]. exists buckets. by split.
Qed.

Section find.
Context {T K : Type} `{EqDecision K} (key_of : T → K).

(** The first value with the key. *)
Definition first_with (key : K) (values : list T) : option T :=
  snd <$> list_find (λ v, key_of v = key) values.

Lemma find_index_positions (hash : K → Z) (before values : list T) key :
  (∀ v, v ∈ before → key_of v ≠ key) →
  (found ← find_index (before ++ values) key key_of
     (positions_from hash (length before) (key_of <$> values) (hash key));
   match found with
   | None => Some None
   | Some entity => value ← (before ++ values) !! entity; Some (Some value)
   end) = Some (first_with key values).
Proof.
  revert before. induction values as [|v values IH]; intros before Hbefore; [done|]. simpl.
  assert (key_of v ≠ key → (found ← find_index (before ++ v :: values) key key_of
     (positions_from hash (S (length before)) (key_of <$> values) (hash key));
   match found with
   | None => Some None
   | Some entity => value ← (before ++ v :: values) !! entity; Some (Some value)
   end) = Some (first_with key (v :: values))) as Hrest.
  { intros Hv. rewrite (cons_middle v before values), app_assoc.
    assert (S (length before) = length (before ++ [v])) as -> by (rewrite length_app; simpl; lia).
    rewrite IH by (intros u [Hu|Hu%list_elem_of_singleton]%elem_of_app; [auto|by subst u]).
    unfold first_with. simpl. rewrite decide_False by done. f_equal.
    by destruct (list_find _ values) as [[]|]. }
  case_bool_decide as Hh.
  - cbn [find_index]. rewrite lookup_app_r, Nat.sub_diag by done. simpl.
    case_bool_decide as Hk; [|by apply Hrest]. simpl.
    rewrite lookup_app_r, Nat.sub_diag by done. simpl.
    unfold first_with. simpl. by rewrite decide_True.
  - apply Hrest. intros Hk. by rewrite Hk in Hh.
Qed.

(** The positions of a bucket are searched like the whole list. *)
Lemma prepared_entity_first (hash : K → Z) buckets values key :
  (∀ h, buckets !! h = bucket_of (positions_from hash 0 (key_of <$> values) h)) →
  prepared_entity buckets values key key_of hash = Some (first_with key values).
Proof.
  intros Hb. pose proof (find_index_positions hash [] values key ltac:(by intros v ?%elem_of_nil)) as Hf.
  simpl in Hf. rewrite <-Hf. unfold prepared_entity, lookup_index. rewrite Hb.
  by destruct (positions_from hash 0 (key_of <$> values) (hash key)) as [|i [|j l]].
Qed.

Lemma first_with_Some key values v :
  NoDup (key_of <$> values) → first_with key values = Some v ↔ v ∈ values ∧ key_of v = key.
Proof.
  intros Hnd. unfold first_with. split.
  - intros Hv. destruct (list_find _ values) as [[i w]|] eqn:E; simplify_eq/=.
    apply list_find_Some in E as (Hi & Hk & _). split; [by eapply list_elem_of_lookup_2|done].
  - intros [Hin Hk]. destruct (list_find_elem_of (λ v, key_of v = key) values v Hin Hk) as [[i w] E].
    rewrite E. simpl. f_equal. apply list_find_Some in E as (Hi & Hw & _).
    apply list_elem_of_lookup in Hin as [j Hj].
    assert (i = j) as ->; [|congruence]. eapply NoDup_lookup; [exact Hnd|..]; rewrite list_lookup_fmap.
    + by rewrite Hi; simpl; rewrite Hw.
    + by rewrite Hj; simpl; rewrite Hk.
Qed.

End find.

(** ** Sorted positions *)

Lemma insert_by_fmap {A B} (f : A → B) (c : A → A → comparison) (d : B → B → comparison) x l :
  (∀ x y, c x y = d (f x) (f y)) → f <$> insert_by c x l = insert_by d (f x) (f <$> l).
Proof.
  intros Hcd. induction l as [|y l IH]; [done|].
  rewrite fmap_cons. cbn [insert_by]. rewrite <-Hcd. destruct (c x y); by rewrite ?fmap_cons, ?IH.
Qed.

Lemma sort_by_fmap {A B} (f : A → B) (c : A → A → comparison) (d : B → B → comparison) l :
  (∀ x y, c x y = d (f x) (f y)) → f <$> sort_by c l = sort_by d (f <$> l).
Proof.
  intros Hcd. unfold sort_by. induction l as [|x l IH]; [done|].
  rewrite fmap_cons. cbn [foldr]. by rewrite (insert_by_fmap f c d), IH by done.
Qed.

Lemma position_order_sort {V K} `{ROrd K} (key_of : V → K) (values : list V) :
  mapM (λ i, values !! i) (position_order key_of values) = Some (sort_by (compare_keys key_of) values).
Proof.
  unfold position_order.
  set (d := λ l r : option V, match l, r with Some l, Some r => rcmp (key_of l) (key_of r) | _, _ => Eq end).
  assert ((λ i, values !! i) <$> seq 0 (length values) = Some <$> values) as Hseq.
  { apply list_eq. intros i. rewrite !list_lookup_fmap. destruct (decide (i < length values)%nat) as [Hi|Hi].
    - rewrite lookup_seq_lt by lia. simpl. by destruct (lookup_lt_is_Some_2 values i Hi) as [v ->].
    - rewrite lookup_seq_ge by lia. by rewrite (lookup_ge_None_2 values i) by lia. }
  assert (∀ l, mapM (λ i, values !! i) l = mapM id ((λ i, values !! i) <$> l)) as ->.
  { intros l. induction l as [|i l IH]; [done|]. rewrite fmap_cons. cbn. by rewrite IH. }
  rewrite (sort_by_fmap (λ i, values !! i) _ d) by done. rewrite Hseq.
  rewrite <-(sort_by_fmap Some (compare_keys key_of) d) by done.
  by apply mapM_Some, Forall2_fmap_l, Forall_Forall2_diag, Forall_true.
Qed.

(** ** The prepared indexes *)

Section prepared.
Context `{KeyHash}.

Record index_of (position : nat) (catalog : NormalizedCatalogV1) (index : PreparedTargetIndex) : Prop := {
  io_catalog : pti_catalog index = position;
  io_group_order : pti_group_order index = position_order ncg_key (nca_course_groups catalog);
  io_section_order : pti_section_order index = position_order nse_key (nca_sections catalog);
  io_groups : ∀ h, pti_groups index !! h
    = bucket_of (positions_from hash_group 0 (ncg_key <$> nca_course_groups catalog) h);
  io_variants : ∀ h, pti_variants index !! h
    = bucket_of (positions_from hash_variant 0 (ncv_key <$> nca_course_variants catalog) h);
  io_sections : ∀ h, pti_sections index !! h
    = bucket_of (positions_from hash_section 0 (nse_key <$> nca_sections catalog) h);
  io_occurrences : ∀ h, pti_occurrences index !! h
    = bucket_of (positions_from hash_occurrence 0 (noc_key <$> nca_occurrences catalog) h)
}.

Lemma prepare_target_ok position catalog :
  ∃ index, outcome (prepare_target never_cancelled position catalog) = Ok index ∧
    index_of position catalog index.
Proof.
  destruct (build_index_lookup hash_group (ncg_key <$> nca_course_groups catalog)) as (bg & Hg & Lg).
  destruct (build_index_lookup hash_variant (ncv_key <$> nca_course_variants catalog)) as (bv & Hv & Lv).
  destruct (build_index_lookup hash_section (nse_key <$> nca_sections catalog)) as (bs & Hs & Ls).
  destruct (build_index_lookup hash_occurrence (noc_key <$> nca_occurrences catalog)) as (bo & Ho & Lo).
  eexists. split.
  - unfold prepare_target. rewrite outcome_check. rewrite outcome_bind, Hg, outcome_bind, Hv, outcome_bind, Hs,
      outcome_bind, Ho. reflexivity.
  - by split.
Qed.

Lemma prepare_targets_ok position catalogs versions targets :
  NoDup (nca_target <$> catalogs) →
  ∃ targets', outcome (prepare_targets never_cancelled position catalogs versions targets)
      = Ok (insert_versions versions catalogs, targets') ∧
    (∀ i catalog, catalogs !! i = Some catalog →
       ∃ index, targets' !! nca_target catalog = Some index ∧ index_of (position + i) catalog index) ∧
    (∀ t, t ∉ nca_target <$> catalogs → targets' !! t = targets !! t).
Proof.
  revert position versions targets. induction catalogs as [|catalog catalogs IH];
    intros position versions targets Hnd; [by exists targets|].
  apply NoDup_cons in Hnd as [Hnin Hnd].
  destruct (prepare_target_ok position catalog) as (index & Hindex & Hok).
  destruct (IH (S position) (<[nca_target catalog := nca_content_version catalog]> versions)
    (<[nca_target catalog := index]> targets) Hnd) as (targets' & Hout & Hin & Hother).
  exists targets'. cbn [prepare_targets]. rewrite outcome_check, outcome_bind, Hindex, Hout.
  split_and!; [done| |].
  - intros [|i] c Hc; simplify_eq/=.
    + rewrite Hother by done. rewrite lookup_insert_eq, Nat.add_0_r. eauto.
    + destruct (Hin i c Hc) as (index' & ? & ?). exists index'. by rewrite Nat.add_succ_r.
  - intros t [Hne Ht]%not_elem_of_cons. rewrite Hother, lookup_insert_ne; done.
Qed.

(** The prepared corpus of the catalogs. *)
Record prepared_of (catalogs : list NormalizedCatalogV1) (corpus : PreparedCatalogCorpus) : Prop := {
  po_term : pc_term corpus = cc_term (corpus_of catalogs);
  po_catalogs : pc_catalogs corpus = catalogs;
  po_versions : pc_target_versions corpus = cc_target_versions (corpus_of catalogs);
  po_targets : ∀ i catalog, catalogs !! i = Some catalog →
    ∃ index, pc_targets corpus !! nca_target catalog = Some index ∧ index_of i catalog index;
  po_only : ∀ t, t ∉ nca_target <$> catalogs → pc_targets corpus !! t = None
}.

(** Preparing succeeds on exactly the catalogs validation accepts. *)
Lemma prepared_Ok catalogs corpus :
  PreparedCatalogCorpus_try_new catalogs = Ok corpus → catalogs_valid catalogs ∧ prepared_of catalogs corpus.
Proof.
  change (PreparedCatalogCorpus_try_new catalogs) with
    (outcome (PreparedCatalogCorpus_try_new_with_cancellation never_cancelled catalogs)).
  unfold PreparedCatalogCorpus_try_new_with_cancellation. rewrite outcome_check, outcome_bind_Ok.
  intros (reference & [Hval ->]%try_new_Ok & Hrest). split; [done|].
  destruct (prepare_targets_ok 0 catalogs ∅ ∅ (va_targets _ (cv_entities _ Hval))) as (targets & Hout & Hin & Hother).
  rewrite outcome_bind, Hout in Hrest. injection Hrest as <-. by split.
Qed.

Lemma prepared_total catalogs :
  catalogs_valid catalogs → ∃ corpus, PreparedCatalogCorpus_try_new catalogs = Ok corpus.
Proof.
  intros Hval.
  change (PreparedCatalogCorpus_try_new catalogs) with
    (outcome (PreparedCatalogCorpus_try_new_with_cancellation never_cancelled catalogs)).
  unfold PreparedCatalogCorpus_try_new_with_cancellation. rewrite outcome_check, outcome_bind.
  assert (outcome (try_new_from_refs_with_cancellation never_cancelled catalogs) = Ok (corpus_of catalogs)) as ->
    by (by apply try_new_Ok).
  destruct (prepare_targets_ok 0 catalogs ∅ ∅ (va_targets _ (cv_entities _ Hval))) as (targets & Hout & _).
  rewrite outcome_bind, Hout. by eexists.
Qed.

Section lookups.
Context (catalogs : list NormalizedCatalogV1) (corpus : PreparedCatalogCorpus).
Context (Hval : catalogs_valid catalogs) (Hpo : prepared_of catalogs corpus).

Lemma target_index_lookup t :
  target_index corpus (tck_term t) (tck_campus t) = pc_targets corpus !! t.
Proof.
  unfold target_index. destruct (list_find _ (btm_iter (pc_targets corpus))) as [[i [t' index]]|] eqn:E; simpl.
  - apply list_find_Some in E as (Hi & [Ht Hc] & _). simpl in *.
    assert (t' = t) as -> by (destruct t, t'; simpl in *; congruence).
    symmetry. by eapply elem_of_btm_iter, list_elem_of_lookup_2.
  - destruct (pc_targets corpus !! t) as [index|] eqn:El; [|done]. exfalso.
    apply list_find_None in E. rewrite Forall_forall in E.
    apply (E (t, index)); [by apply elem_of_btm_iter|done].
Qed.

Lemma catalog_of_target t :
  (t ∉ nca_target <$> catalogs ∧ target_catalog corpus (tck_term t) (tck_campus t) = Some None) ∨
  ∃ catalog index, catalog ∈ catalogs ∧ nca_target catalog = t ∧
    (∃ i, index_of i catalog index) ∧ pc_targets corpus !! t = Some index ∧
    pc_catalogs corpus !! pti_catalog index = Some catalog ∧
    target_catalog corpus (tck_term t) (tck_campus t) = Some (Some (index, catalog)).
Proof.
  unfold target_catalog. rewrite target_index_lookup.
  destruct (decide (t ∈ nca_target <$> catalogs)) as [(catalog & -> & [i Hi]%list_elem_of_lookup)%list_elem_of_fmap|Ht].
  - right. destruct (po_targets _ _ Hpo i catalog Hi) as (index & Hl & Hok).
    assert (pc_catalogs corpus !! pti_catalog index = Some catalog) as Hc
      by (by rewrite (po_catalogs _ _ Hpo), (io_catalog _ _ _ Hok)).
    exists catalog, index. rewrite Hl, Hc. split_and!; eauto. by eapply list_elem_of_lookup_2.
  - left. by rewrite (po_only _ _ Hpo).
Qed.

(** Looking up one kind of entity: through the index of its target, or in the
    map of all the catalogs. *)
Lemma entity_lookup {T K} `{Countable K} (key_of : T → K) (values : NormalizedCatalogV1 → list T)
    (target_of : K → TermCampusKey) (catalog : NormalizedCatalogV1) (k : K) :
  (∀ c v, c ∈ catalogs → v ∈ values c → target_of (key_of v) = nca_target c) →
  NoDup (key_of <$> catalogs ≫= values) → catalog ∈ catalogs → nca_target catalog = target_of k →
  first_with key_of k (values catalog) = keyed key_of (catalogs ≫= values) !! k.
Proof.
  intros Htarget Hnd Hc Hk. apply option_eq. intros v. rewrite keyed_Some by done.
  assert (NoDup (key_of <$> values catalog)) as Hnd'.
  { clear -Hnd Hc. induction catalogs as [|c cs IH]; [by apply elem_of_nil in Hc|]. simpl in Hnd.
    rewrite fmap_app, NoDup_app in Hnd. destruct Hnd as (? & _ & ?).
    apply elem_of_cons in Hc as [->|?]; auto. }
  rewrite first_with_Some by done. rewrite list_elem_of_bind. split.
  - intros [Hv <-]. eauto.
  - intros [(c & Hv & Hc') <-]. split; [|done].
    assert (nca_target c = nca_target catalog) as Heq by (rewrite Hk; symmetry; by apply Htarget).
    assert (c = catalog) as ->; [|done]. pose proof (va_targets _ (cv_entities _ Hval)) as Hnt.
    apply list_elem_of_lookup in Hc as [i Hi], Hc' as [j Hj].
    assert (j = i) as ->; [|congruence].
    eapply NoDup_lookup; [exact Hnt|..]; rewrite list_lookup_fmap; [by rewrite Hj; simpl; rewrite Heq|by rewrite Hi].
Qed.

Lemma entity_foreign {T K} `{Countable K} (key_of : T → K) (values : NormalizedCatalogV1 → list T)
    (target_of : K → TermCampusKey) (k : K) :
  (∀ c v, c ∈ catalogs → v ∈ values c → target_of (key_of v) = nca_target c) →
  target_of k ∉ nca_target <$> catalogs → keyed key_of (catalogs ≫= values) !! k = None.
Proof.
  intros Htarget Hk. apply eq_None_not_Some. rewrite keyed_is_Some.
  intros (v & -> & (c & Hv & Hc)%list_elem_of_bind)%list_elem_of_fmap.
  apply Hk. rewrite (Htarget c v) by done. by apply list_elem_of_fmap_2.
Qed.

Lemma pc_group_eq k : pc_group corpus k = Some (cc_groups (corpus_of catalogs) !! k).
Proof.
  pose proof (cv_entities _ Hval) as He. unfold pc_group. cbn [cc_groups corpus_of].
  destruct (catalog_of_target (cgk_target k)) as [[Ht E]|(catalog & index & Hc & Ht & [i Hi] & _ & _ & E)];
    cbn [cgk_target tck_term tck_campus] in E; rewrite E; simpl.
  - f_equal. symmetry. by apply (entity_foreign ncg_key nca_course_groups cgk_target), Ht; apply He.
  - rewrite (prepared_entity_first ncg_key hash_group _ _ _ (io_groups _ _ _ Hi)). f_equal.
    apply (entity_lookup _ _ cgk_target); [apply He..|done|done].
Qed.

Lemma pc_variant_eq k : pc_variant corpus k = Some (cc_variants (corpus_of catalogs) !! k).
Proof.
  pose proof (cv_entities _ Hval) as He. unfold pc_variant. cbn [cc_variants corpus_of].
  destruct (catalog_of_target (cvk_target k)) as [[Ht E]|(catalog & index & Hc & Ht & [i Hi] & _ & _ & E)];
    cbn [cvk_target cgk_target tck_term tck_campus] in E; rewrite E; simpl.
  - f_equal. symmetry. by apply (entity_foreign ncv_key nca_course_variants cvk_target), Ht; apply He.
  - rewrite (prepared_entity_first ncv_key hash_variant _ _ _ (io_variants _ _ _ Hi)). f_equal.
    apply (entity_lookup _ _ cvk_target); [apply He..|done|done].
Qed.

Lemma pc_section_eq k : pc_section corpus k = Some (cc_sections (corpus_of catalogs) !! k).
Proof.
  pose proof (cv_entities _ Hval) as He. unfold pc_section. cbn [cc_sections corpus_of].
  destruct (catalog_of_target (sk_target k)) as [[Ht E]|(catalog & index & Hc & Ht & [i Hi] & _ & _ & E)];
    cbn [sk_target tck_term tck_campus] in E; rewrite E; simpl.
  - f_equal. symmetry. apply (entity_foreign nse_key nca_sections sk_target); [|done].
    intros c s Hc Hs. by apply (va_section_target _ He c s).
  - rewrite (prepared_entity_first nse_key hash_section _ _ _ (io_sections _ _ _ Hi)). f_equal.
    apply (entity_lookup _ _ sk_target); [|apply He|done|done].
    intros c s Hc' Hs. by apply (va_section_target _ He c s).
Qed.

(** *** Resolving references *)

Lemma mapM_ext_in {A B} (f g : A → option B) l : (∀ x, x ∈ l → f x = g x) → mapM f l = mapM g l.
Proof. intros Heq. apply Forall_mapM_ext, Forall_forall, Heq. Qed.

Lemma pc_variants_for_eq g :
  g ∈ all_groups catalogs → pc_variants_for corpus g = cc_variants_for (corpus_of catalogs) g.
Proof.
  intros Hg. pose proof (cv_entities _ Hval) as He. unfold pc_variants_for, cc_variants_for.
  pose proof Hg as (c & Hgc & Hc)%list_elem_of_bind. pose proof (va_group_target _ He c g Hc Hgc) as Ht.
  destruct (catalog_of_target (cgk_target (ncg_key g))) as [[Hn _]|(catalog & index & Hc' & Ht' & [i Hi] & _ & _ & E)];
    [destruct Hn; rewrite Ht; by apply list_elem_of_fmap_2|].
  cbn [cgk_target tck_term tck_campus] in E. rewrite E. simpl. apply mapM_ext_in. intros k Hk.
  rewrite (prepared_entity_first ncv_key hash_variant _ _ _ (io_variants _ _ _ Hi)). simpl. unfold id.
  apply (entity_lookup _ _ cvk_target); [apply He..|done|].
  rewrite Ht'. unfold cvk_target. f_equal. symmetry. by apply (cv_group _ Hval g Hg).
Qed.

Lemma pc_sections_for_eq v :
  v ∈ all_variants catalogs → pc_sections_for corpus v = cc_sections_for (corpus_of catalogs) v.
Proof.
  intros Hv. pose proof (cv_entities _ Hval) as He. unfold pc_sections_for, cc_sections_for.
  pose proof Hv as (c & Hvc & Hc)%list_elem_of_bind. pose proof (va_variant_target _ He c v Hc Hvc) as Ht.
  destruct (catalog_of_target (cvk_target (ncv_key v))) as [[Hn _]|(catalog & index & Hc' & Ht' & [i Hi] & _ & _ & E)];
    [destruct Hn; rewrite Ht; by apply list_elem_of_fmap_2|].
  cbn [cvk_target cgk_target tck_term tck_campus] in E. cbv zeta. rewrite E. simpl. apply mapM_ext_in. intros k Hk.
  rewrite (prepared_entity_first nse_key hash_section _ _ _ (io_sections _ _ _ Hi)). simpl. unfold id.
  apply (entity_lookup _ _ sk_target); [|apply He|done|].
  - intros c' s Hc'' Hs. by apply (va_section_target _ He c' s).
  - destruct (cv_variant _ Hval v Hv) as (_ & _ & Hkeys). destruct (Hkeys k Hk) as (s & Hs & <- & Hsv).
    apply list_elem_of_bind in Hs as (cs & Hs & Hcs).
    destruct (va_section_target _ He cs s Hcs Hs) as [Hs1 Hs2]. rewrite Ht', Hs1, <-Hs2. by rewrite Hsv.
Qed.

Lemma pc_occurrences_for_eq s :
  s ∈ all_sections catalogs →
  pc_known_occurrences_for corpus s = cc_known_occurrences_for (corpus_of catalogs) s.
Proof.
  intros Hs. pose proof (cv_entities _ Hval) as He. unfold pc_known_occurrences_for, cc_known_occurrences_for.
  pose proof Hs as (c & Hsc & Hc)%list_elem_of_bind. destruct (va_section_target _ He c s Hc Hsc) as [Ht _].
  destruct (catalog_of_target (sk_target (nse_key s))) as [[Hn _]|(catalog & index & Hc' & Ht' & [i Hi] & _ & _ & E)];
    [destruct Hn; rewrite Ht; by apply list_elem_of_fmap_2|].
  cbn [sk_target tck_term tck_campus] in E. rewrite E. simpl.
  destruct (nse_occurrence_keys s) as [[keys| |]|r] eqn:Ek; try done. f_equal. apply mapM_ext_in. intros k Hk.
  rewrite (prepared_entity_first noc_key hash_occurrence _ _ _ (io_occurrences _ _ _ Hi)). simpl. unfold id.
  apply (entity_lookup _ _ cok_target); [apply He..|done|].
  rewrite Ht'. unfold cok_target. f_equal. symmetry.
  by apply (proj2 (proj2 (cv_section _ Hval s Hs) keys Ek) k Hk).
Qed.

(** *** Iteration *)

Lemma targets_entities_eq {T K} `{Countable K, !ROrd K, !ROrdLaws K} (order : PreparedTargetIndex → list nat)
    (key_of : T → K) (values : NormalizedCatalogV1 → list T) (target_of : K → TermCampusKey) ts :
  (∀ c v, c ∈ catalogs → v ∈ values c → target_of (key_of v) = nca_target c) →
  NoDup (key_of <$> catalogs ≫= values) →
  (∀ k k', rcmp (target_of k) (target_of k') = Lt → rcmp k k' = Lt) →
  (∀ i c index, index_of i c index → order index = position_order key_of (values c)) →
  StronglySorted (λ t t', rcmp t t' = Lt) ts → (∀ t, t ∈ ts → t ∈ nca_target <$> catalogs) →
  targets_entities order values corpus ts =
    Some (filter (λ v, target_of (key_of v) ∈ ts) (btm_values (keyed key_of (catalogs ≫= values)))).
Proof.
  intros Htarget Hnd Hlt Horder Hts Hin.
  assert (∀ v, v ∈ btm_values (keyed key_of (catalogs ≫= values)) ↔ v ∈ catalogs ≫= values) as Hvalues
    by (intros v; rewrite elem_of_btm_values; setoid_rewrite keyed_Some; [naive_solver|done]).
  assert (∃ l, targets_entities order values corpus ts = Some l ∧
    StronglySorted (λ x y, compare_keys key_of x y = Lt) l ∧
    ∀ v, v ∈ l ↔ v ∈ catalogs ≫= values ∧ target_of (key_of v) ∈ ts) as (l & -> & Hsort & Hl).
  { clear Hvalues. induction Hts as [|t ts Hts IH Ht].
    { exists []. split_and!; [done|constructor|set_solver]. }
    destruct IH as (l & El & Hsort & Hl); [intros; apply Hin; by right|].
    destruct (catalog_of_target t) as [[Hn _]|(catalog & index & Hc & Ht' & [i Hi] & Et & Ec & _)];
      [destruct Hn; apply Hin; left|].
    assert (∀ v, v ∈ values catalog ↔ v ∈ catalogs ≫= values ∧ target_of (key_of v) = t) as Hvc.
    { intros v. rewrite list_elem_of_bind. split; [intros Hv; split; [eauto|]; by rewrite (Htarget catalog)|].
      intros [(c & Hv & Hc') Htv]. rewrite (Htarget c) in Htv by done.
      assert (c = catalog) as ->; [|done]. pose proof (va_targets _ (cv_entities _ Hval)) as Hnt.
      apply list_elem_of_lookup in Hc as [j Hj], Hc' as [j' Hj'].
      assert (j' = j) as ->; [|congruence]. eapply NoDup_lookup; [exact Hnt|..];
        rewrite list_lookup_fmap; [by rewrite Hj'; simpl; rewrite Htv|by rewrite Hj; simpl; rewrite Ht']. }
    exists (sort_by (compare_keys key_of) (values catalog) ++ l). split_and!.
    - unfold targets_entities in *. cbn [mapM]. rewrite Et. cbn [mbind option_bind]. rewrite Ec.
      cbn [mbind option_bind]. rewrite (Horder i catalog index Hi), position_order_sort.
      destruct (mapM _ ts) as [ls|]; [|done]. simpl in *. by injection El as <-.
    - apply StronglySorted_app_2; [| |done].
      + intros x y [Hx <-]%(proj1 (elem_of_sort_by _ _ _))%Hvc [_ Hy]%Hl. rewrite Forall_forall in Ht.
        by apply Hlt, Ht.
      + apply sort_by_strict. clear -Hnd Hc. induction catalogs as [|c cs IH]; [by apply elem_of_nil in Hc|].
        simpl in Hnd. rewrite fmap_app, NoDup_app in Hnd. destruct Hnd as (? & _ & ?).
        apply elem_of_cons in Hc as [->|?]; auto.
    - intros v. rewrite elem_of_app, elem_of_sort_by, Hvc, Hl, elem_of_cons by apply _. tauto. }
  f_equal. apply (sorted_lt_unique (compare_keys key_of)); [done| |].
  - apply StronglySorted_filter. apply btm_values_strict. intros k v Hv. by apply keyed_Some in Hv as [_ ?].
  - intros v. rewrite Hl, list_elem_of_filter, Hvalues. tauto.
Qed.

Lemma cgk_target_lt k k' : rcmp (cgk_target k) (cgk_target k') = Lt → rcmp k k' = Lt.
Proof.
  destruct k as [[t] [c] [s]], k' as [[t'] [c'] [s']].
  unfold rcmp, TermCampusKey_rord, CourseGroupKey_rord, rord_via, rcmp, prod_rord, rcmp. simpl.
  unfold rcmp, prod_rord, rcmp. simpl. rewrite !cmp_then_Lt. naive_solver.
Qed.
Lemma sk_target_lt k k' : rcmp (sk_target k) (sk_target k') = Lt → rcmp k k' = Lt.
Proof.
  destruct k as [[t] [c] [s]], k' as [[t'] [c'] [s']].
  unfold rcmp, TermCampusKey_rord, SectionKey_rord, rord_via, rcmp, prod_rord, rcmp. simpl.
  unfold rcmp, prod_rord, rcmp. simpl. rewrite !cmp_then_Lt. naive_solver.
Qed.

Lemma for_each_group_eq ts :
  StronglySorted (λ t t', rcmp t t' = Lt) ts → (∀ t, t ∈ ts → t ∈ nca_target <$> catalogs) →
  for_each_group_in_targets corpus ts =
    Some (filter (λ g, cgk_target (ncg_key g) ∈ ts) (cc_iter_groups (corpus_of catalogs))).
Proof.
  pose proof (cv_entities _ Hval) as He.
  apply (targets_entities_eq _ ncg_key nca_course_groups cgk_target); [apply He..|apply cgk_target_lt|].
  intros i c index Hi. apply Hi.
Qed.

Lemma for_each_section_eq ts :
  StronglySorted (λ t t', rcmp t t' = Lt) ts → (∀ t, t ∈ ts → t ∈ nca_target <$> catalogs) →
  for_each_section_in_targets corpus ts =
    Some (filter (λ s, sk_target (nse_key s) ∈ ts) (cc_iter_sections (corpus_of catalogs))).
Proof.
  pose proof (cv_entities _ Hval) as He.
  apply (targets_entities_eq _ nse_key nca_sections sk_target); [|apply He|apply sk_target_lt|].
  - intros c s Hc Hs. by apply (va_section_target _ He c s).
  - intros i c index Hi. apply Hi.
Qed.

End lookups.
End prepared.

(** C35. The prepared corpus is a faithful index: whatever the hash functions,
    collisions included, it is built from exactly the catalogs validation
    accepts (with the same error otherwise), and every lookup, every resolution
    of references, the target versions and the iteration over any increasing
    selection of its targets give what the reference corpus gives, without
    panics and in the same order. *)
Theorem prepared_corpus_equivalent `{KeyHash} (catalogs : list NormalizedCatalogV1) :
  match CatalogCorpus_try_new_from_refs catalogs with
  | Err e => PreparedCatalogCorpus_try_new catalogs = Err e
  | Ok reference =>
      ∃ corpus, PreparedCatalogCorpus_try_new catalogs = Ok corpus ∧
        pc_term corpus = cc_term reference ∧
        pc_iter_target_versions corpus = cc_iter_target_versions reference ∧
        (∀ k, pc_group corpus k = Some (cc_groups reference !! k)) ∧
        (∀ k, pc_variant corpus k = Some (cc_variants reference !! k)) ∧
        (∀ k, pc_section corpus k = Some (cc_sections reference !! k)) ∧
        (∀ k g, cc_groups reference !! k = Some g →
           pc_variants_for corpus g = cc_variants_for reference g) ∧
        (∀ k v, cc_variants reference !! k = Some v →
           pc_sections_for corpus v = cc_sections_for reference v) ∧
        (∀ k s, cc_sections reference !! k = Some s →
           pc_known_occurrences_for corpus s = cc_known_occurrences_for reference s) ∧
        (∀ ts, StronglySorted (λ t t', rcmp t t' = Lt) ts →
           (∀ t, t ∈ ts → contains_target corpus t = true) →
           for_each_group_in_targets corpus ts =
             Some (filter (λ g, cgk_target (ncg_key g) ∈ ts) (cc_iter_groups reference)) ∧
           for_each_section_in_targets corpus ts =
             Some (filter (λ s, sk_target (nse_key s) ∈ ts) (cc_iter_sections reference)))
  end.
Proof.
  destruct (CatalogCorpus_try_new_from_refs catalogs) as [reference|e] eqn:E.
  - pose proof E as [Hval ->]%try_new_Ok. destruct (prepared_total catalogs Hval) as [corpus Hok].
    pose proof Hok as [_ Hpo]%prepared_Ok. pose proof (cv_entities _ Hval) as He. exists corpus.
    assert (∀ t, contains_target corpus t = true → t ∈ nca_target <$> catalogs) as Hcontains.
    { intros t Ht%bool_decide_eq_true. rewrite (po_versions _ _ Hpo) in Ht. cbn [cc_target_versions corpus_of] in Ht.
      rewrite <-not_eq_None_Some, target_versions_None, lookup_empty in Ht.
      destruct (decide (t ∈ nca_target <$> catalogs)); naive_solver. }
    split_and!; try done.
    + apply Hpo.
    + unfold pc_iter_target_versions, cc_iter_target_versions. by rewrite (po_versions _ _ Hpo).
    + by apply pc_group_eq.
    + by apply pc_variant_eq.
    + by apply pc_section_eq.
    + intros k g [Hg _]%group_lookup; [|done]. by apply pc_variants_for_eq.
    + intros k v [Hv _]%variant_lookup; [|done]. by apply pc_sections_for_eq.
    + intros k s [Hs _]%section_lookup; [|done]. by apply pc_occurrences_for_eq.
    + intros ts Hts Hin. split; [apply for_each_group_eq|apply for_each_section_eq]; auto.
  - change (PreparedCatalogCorpus_try_new catalogs) with
      (outcome (PreparedCatalogCorpus_try_new_with_cancellation never_cancelled catalogs)).
    unfold PreparedCatalogCorpus_try_new_with_cancellation. rewrite outcome_check, outcome_bind.
    change (outcome (try_new_from_refs_with_cancellation never_cancelled catalogs)) with
      (CatalogCorpus_try_new_from_refs catalogs). by rewrite E.
Qed.

(** Hash functions under which everything collides. *)
#[local] Instance constant_hash : KeyHash := {|
  hash_group _ := 7; hash_variant _ := 7; hash_section _ := 7; hash_occurrence _ := 7 |}.

Lemma prepared_corpus_equivalent_witness :
  ∃ corpus, PreparedCatalogCorpus_try_new [sample_catalog] = Ok corpus ∧
    pc_section corpus (sample_section_key "06672") = Some (Some (sample_section sample_course "06672" [0])) ∧
    pc_section corpus (sample_section_key "00000") = Some None.
Proof.
  pose proof (prepared_corpus_equivalent [sample_catalog]) as H. rewrite sample_corpus in H.
  destruct H as (corpus & Hok & _ & _ & _ & _ & Hs & _). exists corpus. split; [exact Hok|].
  rewrite !Hs. split; vm_compute; reflexivity.
Defined.
