(* ===== verification/QueryEngine.v ===== *)
(** * The query engine (crates/bcsp-query/src/engine.rs)

    Course and section search and details over a corpus, built for the request
    or prepared once, with the live Open evidence of its sections. A method that
    can panic returns an [option], whose [None] is the panic; the debug
    assertions and the timing logs are left out, as are the memory estimates. *)

From S2P Require Import Prelude Ordering Identity RustStr Contracts CatalogData Match Filters.
From S2P Require Import Predicates Corpus.

Inductive QueryError :=
| QueryError_InvalidCorpus (error : CorpusError)
| QueryError_DuplicateOpenEvidence
| QueryError_ForeignOpenEvidence
| QueryError_FilterTermMismatch
| QueryError_UnknownCoreCode (code : string)
| QueryError_TextEvidenceUnavailable
| QueryError_UnexpectedTextEvidence
| QueryError_TextQueryMismatch
| QueryError_TextTargetSetMismatch
| QueryError_TextContentVersionMismatch
| QueryError_ForeignTextHit
| QueryError_PreparedTargetSetMismatch
| QueryError_CourseNotFound
| QueryError_SectionNotFound.

Record OpenEvidence := { oe_section_key : SectionKey; oe_evidence : LiveOpenEvidenceV1 }.

(** ** The Open overlay of a prepared corpus *)

Inductive OpenIndexBucket :=
| OpenIndexBucket_One (entity : nat)
| OpenIndexBucket_Many (entities : list nat).

Record PreparedOpenOverlay := {
  pv_target : TermCampusKey;
  pv_content_version : CatalogContentVersion;
  pv_evidence : list OpenEvidence;
  pv_index : gmap Z OpenIndexBucket
}.

(** Whether an earlier entity has the same section; positions come from the index. *)
Definition same_section (evidence : list OpenEvidence) (key : SectionKey) (existing : nat) : bool :=
  match evidence !! existing with
  | Some item => bool_decide (oe_section_key item = key)
  | None => false
  end.

Fixpoint open_index_from (hash : SectionKey → Z) (evidence : list OpenEvidence) (entity : nat)
    (items : list OpenEvidence) (index : gmap Z OpenIndexBucket)
    : result QueryError (gmap Z OpenIndexBucket) :=
  match items with
  | [] => Ok index
  | item :: items =>
      let key := oe_section_key item in
      match index !! hash key with
      | None =>
          open_index_from hash evidence (S entity) items (<[hash key := OpenIndexBucket_One entity]> index)
      | Some (OpenIndexBucket_One first) =>
          if same_section evidence key first then Err QueryError_DuplicateOpenEvidence
          else open_index_from hash evidence (S entity) items
                 (<[hash key := OpenIndexBucket_Many [first; entity]]> index)
      | Some (OpenIndexBucket_Many existing) =>
          if existsb (same_section evidence key) existing then Err QueryError_DuplicateOpenEvidence
          else open_index_from hash evidence (S entity) items
                 (<[hash key := OpenIndexBucket_Many (existing ++ [entity])]> index)
      end
  end.

Definition build_open_index_with_hasher (evidence : list OpenEvidence) (hash : SectionKey → Z)
    : result QueryError (gmap Z OpenIndexBucket) := open_index_from hash evidence 0 evidence ∅.

Definition lookup_open_evidence_with_hasher (index : gmap Z OpenIndexBucket)
    (evidence : list OpenEvidence) (key : SectionKey) (hash : SectionKey → Z)
    : option (option LiveOpenEvidenceV1) :=
  match index !! hash key with
  | None => Some None
  | Some bucket =>
      found ← find_index evidence key oe_section_key
                match bucket with
                | OpenIndexBucket_One entity => [entity]
                | OpenIndexBucket_Many entities => entities
                end;
      match found with
      | None => Some None
      | Some entity => item ← evidence !! entity; Some (Some (oe_evidence item))
      end
  end.

Section engine.
Context `{KeyHash}.

(** The loop that collects the evidence of the target. *)
Fixpoint overlay_evidence (corpus : PreparedCatalogCorpus) (target : TermCampusKey)
    (items : list OpenEvidence) : option (result QueryError (list OpenEvidence)) :=
  match items with
  | [] => Some (Ok [])
  | item :: items =>
      let key := oe_section_key item in
      if bool_decide (sk_term key ≠ tck_term target) || bool_decide (sk_campus key ≠ tck_campus target)
      then Some (Err QueryError_ForeignOpenEvidence)
      else
        section ← pc_section corpus key;
        match section with
        | None => Some (Err QueryError_ForeignOpenEvidence)
        | Some _ =>
            rest ← overlay_evidence corpus target items;
            Some (rest ← rest; Ok (item :: rest))
        end
  end.

Definition PreparedOpenOverlay_try_new (corpus : PreparedCatalogCorpus) (target : TermCampusKey)
    (items : list OpenEvidence) : option (result QueryError PreparedOpenOverlay) :=
  match content_version corpus target with
  | None => Some (Err QueryError_PreparedTargetSetMismatch)
  | Some version =>
      collected ← overlay_evidence corpus target items;
      Some
        (evidence ← collected;
         index ← build_open_index_with_hasher evidence hash_section;
         Ok {| pv_target := target; pv_content_version := version;
               pv_evidence := evidence; pv_index := index |})
  end.

Definition is_bound_to (overlay : PreparedOpenOverlay) (corpus : PreparedCatalogCorpus) : bool :=
  bool_decide (content_version corpus (pv_target overlay) = Some (pv_content_version overlay)).

Definition overlay_get (overlay : PreparedOpenOverlay) (key : SectionKey)
    : option (option LiveOpenEvidenceV1) :=
  lookup_open_evidence_with_hasher (pv_index overlay) (pv_evidence overlay) key hash_section.

(** ** The corpus of an engine *)

Inductive EngineCorpus :=
| EngineCorpus_Built (corpus : CatalogCorpus)
| EngineCorpus_Prepared (corpus : PreparedCatalogCorpus).

Definition ec_term (corpus : EngineCorpus) : string :=
  match corpus with
  | EngineCorpus_Built corpus => cc_term corpus
  | EngineCorpus_Prepared corpus => pc_term corpus
  end.
(** The groups in the order [for_each_group] visits them. *)
Definition ec_for_each_group (corpus : EngineCorpus) (active_targets : list TermCampusKey)
    : option (list NormalizedCourseGroupV1) :=
  match corpus with
  | EngineCorpus_Built corpus => Some (cc_iter_groups corpus)
  | EngineCorpus_Prepared corpus => for_each_group_in_targets corpus active_targets
  end.
Definition ec_group (corpus : EngineCorpus) (key : CourseGroupKey)
    : option (option NormalizedCourseGroupV1) :=
  match corpus with
  | EngineCorpus_Built corpus => Some (cc_groups corpus !! key)
  | EngineCorpus_Prepared corpus => pc_group corpus key
  end.
Definition ec_variants_for (corpus : EngineCorpus) (group : NormalizedCourseGroupV1)
    : option (list NormalizedCourseVariantV1) :=
  match corpus with
  | EngineCorpus_Built corpus => cc_variants_for corpus group
  | EngineCorpus_Prepared corpus => pc_variants_for corpus group
  end.
Definition ec_variant (corpus : EngineCorpus) (key : CourseVariantKey)
    : option (option NormalizedCourseVariantV1) :=
  match corpus with
  | EngineCorpus_Built corpus => Some (cc_variants corpus !! key)
  | EngineCorpus_Prepared corpus => pc_variant corpus key
  end.
Definition ec_for_each_section (corpus : EngineCorpus) (active_targets : list TermCampusKey)
    : option (list NormalizedSectionV1) :=
  match corpus with
  | EngineCorpus_Built corpus => Some (cc_iter_sections corpus)
  | EngineCorpus_Prepared corpus => for_each_section_in_targets corpus active_targets
  end.
Definition ec_section (corpus : EngineCorpus) (key : SectionKey) : option (option NormalizedSectionV1) :=
  match corpus with
  | EngineCorpus_Built corpus => Some (cc_sections corpus !! key)
  | EngineCorpus_Prepared corpus => pc_section corpus key
  end.
Definition ec_sections_for (corpus : EngineCorpus) (variant : NormalizedCourseVariantV1)
    : option (list NormalizedSectionV1) :=
  match corpus with
  | EngineCorpus_Built corpus => cc_sections_for corpus variant
  | EngineCorpus_Prepared corpus => pc_sections_for corpus variant
  end.
Definition ec_known_occurrences_for (corpus : EngineCorpus) (section : NormalizedSectionV1)
    : option (option (list NormalizedOccurrenceV1)) :=
  match corpus with
  | EngineCorpus_Built corpus => cc_known_occurrences_for corpus section
  | EngineCorpus_Prepared corpus => pc_known_occurrences_for corpus section
  end.
Definition ec_target_versions (corpus : EngineCorpus) : list (TermCampusKey * CatalogContentVersion) :=
  match corpus with
  | EngineCorpus_Built corpus => cc_iter_target_versions corpus
  | EngineCorpus_Prepared corpus => pc_iter_target_versions corpus
  end.

Inductive EngineOpen :=
| EngineOpen_Built (open : gmap SectionKey LiveOpenEvidenceV1)
| EngineOpen_Prepared (open : list PreparedOpenOverlay).

Record QueryEngine := {
  qe_corpus : EngineCorpus;
  qe_active_targets : list TermCampusKey;
  qe_forced_open_unavailable : list TermCampusKey;
  qe_now : OffsetDateTime;
  qe_open : EngineOpen
}.

(** ** Construction *)

Fixpoint built_open (corpus : CatalogCorpus) (items : list OpenEvidence)
    (by_section : gmap SectionKey LiveOpenEvidenceV1)
    : result QueryError (gmap SectionKey LiveOpenEvidenceV1) :=
  match items with
  | [] => Ok by_section
  | item :: items =>
      let key := oe_section_key item in
      if bool_decide (cc_sections corpus !! key = None) then Err QueryError_ForeignOpenEvidence
      else if bool_decide (is_Some (by_section !! key)) then Err QueryError_DuplicateOpenEvidence
      else built_open corpus items (<[key := oe_evidence item]> by_section)
  end.

Definition QueryEngine_try_new_from_refs (catalogs : list NormalizedCatalogV1) (now : OffsetDateTime)
    (open : list OpenEvidence) : result QueryError QueryEngine :=
  match CatalogCorpus_try_new_from_refs catalogs with
  | Err error => Err (QueryError_InvalidCorpus error)
  | Ok corpus =>
      by_section ← built_open corpus open ∅;
      Ok {| qe_corpus := EngineCorpus_Built corpus;
            qe_active_targets := (cc_iter_target_versions corpus).*1;
            qe_forced_open_unavailable := [];
            qe_now := now;
            qe_open := EngineOpen_Built by_section |}
  end.

Fixpoint unique_targets (corpus : PreparedCatalogCorpus) (targets : list TermCampusKey)
    (unique : gset TermCampusKey) : result QueryError (gset TermCampusKey) :=
  match targets with
  | [] => Ok unique
  | target :: targets =>
      if bool_decide (term_str (tck_term target) ≠ pc_term corpus)
         || negb (contains_target corpus target) || bool_decide (target ∈ unique)
      then Err QueryError_PreparedTargetSetMismatch
      else unique_targets corpus targets ({[target]} ∪ unique)
  end.

Fixpoint overlays_by_target (corpus : PreparedCatalogCorpus) (overlays : list PreparedOpenOverlay)
    (by_target : gmap TermCampusKey PreparedOpenOverlay)
    : result QueryError (gmap TermCampusKey PreparedOpenOverlay) :=
  match overlays with
  | [] => Ok by_target
  | overlay :: overlays =>
      if negb (is_bound_to overlay corpus) || bool_decide (is_Some (by_target !! pv_target overlay))
      then Err QueryError_PreparedTargetSetMismatch
      else overlays_by_target corpus overlays (<[pv_target overlay := overlay]> by_target)
  end.

Definition QueryEngine_try_new_prepared (corpus : PreparedCatalogCorpus)
    (active_targets forced_open_unavailable : list TermCampusKey) (now : OffsetDateTime)
    (open : list PreparedOpenOverlay) : result QueryError QueryEngine :=
  if bool_decide (active_targets = []) then Err QueryError_PreparedTargetSetMismatch
  else
    unique ← unique_targets corpus active_targets ∅;
    open_by_target ← overlays_by_target corpus open ∅;
    if bool_decide (btm_keys open_by_target ≠ bts_iter unique)
    then Err QueryError_PreparedTargetSetMismatch
    else if existsb (λ target, bool_decide (target ∉ unique)) forced_open_unavailable
    then Err QueryError_PreparedTargetSetMismatch
    else Ok {| qe_corpus := EngineCorpus_Prepared corpus;
               qe_active_targets := bts_iter unique;
               qe_forced_open_unavailable := forced_open_unavailable;
               qe_now := now;
               qe_open := EngineOpen_Prepared (btm_values open_by_target) |}.

(** ** Activity and Open evidence *)

Definition identity_is_active (engine : QueryEngine) (term : TermId) (campus : CampusCode) : bool :=
  existsb (λ target, bool_decide (tck_term target = term) && bool_decide (tck_campus target = campus))
    (qe_active_targets engine).
Definition group_is_active (engine : QueryEngine) (key : CourseGroupKey) : bool :=
  identity_is_active engine (cgk_term key) (cgk_campus key).
Definition section_is_active (engine : QueryEngine) (key : SectionKey) : bool :=
  identity_is_active engine (sk_term key) (sk_campus key).
Definition section_open_is_forced_unavailable (engine : QueryEngine) (key : SectionKey) : bool :=
  existsb (λ target, bool_decide (tck_term target = sk_term key)
                     && bool_decide (tck_campus target = sk_campus key))
    (qe_forced_open_unavailable engine).

Definition overlays_get (overlays : list PreparedOpenOverlay) (key : SectionKey)
    : option (option LiveOpenEvidenceV1) :=
  match list_find (λ overlay, tck_term (pv_target overlay) = sk_term key
                              ∧ tck_campus (pv_target overlay) = sk_campus key) overlays with
  | None => Some None
  | Some (_, overlay) => overlay_get overlay key
  end.

Definition recorded_open (engine : QueryEngine) (key : SectionKey) : option (option LiveOpenEvidenceV1) :=
  match qe_open engine with
  | EngineOpen_Built open => Some (open !! key)
  | EngineOpen_Prepared open => overlays_get open key
  end.

Definition is_prepared (engine : QueryEngine) : bool :=
  match qe_open engine with EngineOpen_Built _ => false | EngineOpen_Prepared _ => true end.

Definition set_uncertainty (code : MatchReasonCode) (evidence : LiveOpenEvidenceV1) : LiveOpenEvidenceV1 :=
  {| lo_state := lo_state evidence; lo_observed_at := lo_observed_at evidence;
     lo_fresh_until := lo_fresh_until evidence; lo_uncertainty := Some code |}.

Definition no_evidence : LiveOpenEvidenceV1 :=
  {| lo_state := LiveOpenStateV1_Unknown; lo_observed_at := None; lo_fresh_until := None;
     lo_uncertainty := Some MatchReasonCode_MissingReliableData |}.

Definition open_for (engine : QueryEngine) (key : SectionKey) : option LiveOpenEvidenceV1 :=
  recorded ← recorded_open engine key;
  match recorded with
  | None => Some no_evidence
  | Some evidence =>
      let forced := section_open_is_forced_unavailable engine key in
      let stale_without_prior_uncertainty :=
        bool_decide (lo_uncertainty evidence = None) && negb (evidence_fresh evidence (qe_now engine)) in
      Some (if is_prepared engine && (forced || stale_without_prior_uncertainty)
            then set_uncertainty MatchReasonCode_SourceUnavailable evidence else evidence)
  end.

Definition open_state_for (engine : QueryEngine) (key : SectionKey) : option LiveOpenStateV1 :=
  recorded ← recorded_open engine key;
  Some (default LiveOpenStateV1_Unknown (lo_state <$> recorded)).

(** ** Request validation *)

Definition authoritative_codes (engine : QueryEngine) (filters : NormalizedFilterValuesV1)
    (group : NormalizedCourseGroupV1) : option (list string) :=
  if negb (group_is_active engine (ncg_key group))
     || (bool_decide (nf_campuses filters ≠ [])
         && bool_decide (cgk_campus (ncg_key group) ∉ nf_campuses filters))
  then Some []
  else
    variants ← ec_variants_for (qe_corpus engine) group;
    Some (variants ≫= λ variant,
      match ncv_core_codes variant with
      | Present value => to_ascii_uppercase <$> value
      | _ => []
      end).

Definition validate_filters (engine : QueryEngine) (filters : NormalizedFilterValuesV1)
    : option (result QueryError unit) :=
  if bool_decide (term_str (nf_term filters) ≠ ec_term (qe_corpus engine))
  then Some (Err QueryError_FilterTermMismatch)
  else if bool_decide (cf_codes (nf_core filters) = []) then Some (Ok tt)
  else
    groups ← ec_for_each_group (qe_corpus engine) (qe_active_targets engine);
    codes ← mapM (authoritative_codes engine filters) groups;
    match list_find (λ code, token_str code ∉ mjoin codes) (cf_codes (nf_core filters)) with
    | Some (_, code) => Some (Err (QueryError_UnknownCoreCode (token_str code)))
    | None => Some (Ok tt)
    end.

(** [Iterator::any] with a predicate that can panic. *)
Fixpoint any_panicking {A} (f : A → option bool) (l : list A) : option bool :=
  match l with
  | [] => Some false
  | x :: l => b ← f x; if (b : bool) then Some true else any_panicking f l
  end.

(** The version of an active target; an unknown target panics. *)
Definition expected_versions (engine : QueryEngine)
    : option (gmap TermCampusKey CatalogContentVersion) :=
  list_to_map <$> mapM (λ target,
    p ← list_find (λ kv, kv.1 = target) (ec_target_versions (qe_corpus engine));
    Some (target, p.2.2)) (qe_active_targets engine).

Definition validate_text_plan (engine : QueryEngine) (filters : NormalizedFilterValuesV1)
    (plan : option TextHitPlan) : option (result QueryError unit) :=
  match nf_text filters, plan with
  | Some _, None => Some (Err QueryError_TextEvidenceUnavailable)
  | None, Some _ => Some (Err QueryError_UnexpectedTextEvidence)
  | None, None => Some (Ok tt)
  | Some query, Some plan =>
      if bool_decide (query ≠ tp_query plan) then Some (Err QueryError_TextQueryMismatch)
      else
        expected ← expected_versions engine;
        if bool_decide (btm_keys expected ≠ btm_keys (tp_target_versions plan))
        then Some (Err QueryError_TextTargetSetMismatch)
        else if bool_decide (expected ≠ tp_target_versions plan)
        then Some (Err QueryError_TextContentVersionMismatch)
        else
          foreign ← any_panicking (λ key,
            if negb (group_is_active engine (cvk_group key)) then Some true
            else variant ← ec_variant (qe_corpus engine) key; Some (bool_decide (variant = None)))
            (btm_keys (tp_hits plan));
          Some (if (foreign : bool) then Err QueryError_ForeignTextHit else Ok tt)
  end.

(** ** Candidates *)

Record CourseCandidate := {
  ccd_group : NormalizedCourseGroupV1;
  ccd_evaluation : PredicateEvaluation;
  ccd_exact_identifier : bool;
  ccd_best_rank : Z;
  ccd_title : option string
}.

Record SectionCandidate := {
  scd_section : NormalizedSectionV1;
  scd_variant : NormalizedCourseVariantV1;
  scd_evaluation : PredicateEvaluation;
  scd_section_number : string;
  scd_exact_identifier : bool;
  scd_text_rank : Z;
  scd_open_state : LiveOpenStateV1
}.

Definition exact_course_identifier (filters : NormalizedFilterValuesV1) (key : CourseGroupKey) : bool :=
  match nf_text filters with
  | None => false
  | Some text =>
      bool_decide (length (fst_tokens text) = 1%nat)
      && eq_ignore_ascii_case (fst_text text) (course_str (cgk_course_string key))
  end.

Definition known_string (value : CatalogFieldKnowledge string) : option string :=
  match value with Present value => Some value | _ => None end.

Definition or_nonempty (values : list PredicateEvaluation) (empty_reason : string) : PredicateEvaluation :=
  if bool_decide (values = []) then no_match empty_reason else or_active values.

Definition text_rank (text_hits : option TextHitPlan) (key : CourseVariantKey) : option Z :=
  text_hits ≫= tp_rank key.

Definition section_evaluation (engine : QueryEngine) (section : NormalizedSectionV1)
    (filters : NormalizedFilterValuesV1) : option EvaluatedFilters :=
  occurrences ← ec_known_occurrences_for (qe_corpus engine) section;
  open ← open_for engine (nse_key section);
  evaluate_section_filter_matches section occurrences open (qe_now engine) filters.

(** The section witness of a variant from its admitted sections, and whether it is admitted. *)
Definition section_witness (admitted : list PredicateEvaluation) : PredicateEvaluation * bool :=
  if bool_decide (admitted = []) then (no_match "section.witness", false) else (or_active admitted, true).

Definition admitted_evaluations (evaluated : list EvaluatedFilters) : list PredicateEvaluation :=
  ef_evaluation <$> filter (λ e, ef_admitted e = true) evaluated.

(** The variables of the loop over the variants of a group. *)
Record GroupFacts := {
  gf_variant_evaluations : list PredicateEvaluation;
  gf_best_rank : Z;
  gf_title : option string
}.

Definition better_title (current candidate : option string) : option string :=
  match candidate with
  | None => current
  | Some candidate =>
      match current with
      | None => Some candidate
      | Some current => Some match rcmp candidate current with Lt => candidate | _ => current end
      end
  end.

Definition variant_step (engine : QueryEngine) (filters : NormalizedFilterValuesV1)
    (text_hits : option TextHitPlan) (group : NormalizedCourseGroupV1) (facts : GroupFacts)
    (variant : NormalizedCourseVariantV1) : option GroupFacts :=
  course ← evaluate_course_filter_matches (ncg_key group) variant filters text_hits;
  witness ←
    (if section_filters_active filters then
       sections ← ec_sections_for (qe_corpus engine) variant;
       evaluated ← mapM (λ section, section_evaluation engine section filters) sections;
       Some (section_witness (admitted_evaluations evaluated))
     else Some (matched, true));
  let variant_evaluation := and_all [ef_evaluation course; witness.1] in
  Some
    (if ef_admitted course && witness.2 then {|
       gf_variant_evaluations := gf_variant_evaluations facts ++ [variant_evaluation];
       gf_best_rank :=
         match text_rank text_hits (ncv_key variant) with
         | Some rank => Z.min (gf_best_rank facts) rank
         | None => gf_best_rank facts
         end;
       gf_title := better_title (gf_title facts)
         (title ← known_string (ncv_title variant); guard (title ≠ "");; Some title) |}
     else facts).

Fixpoint variants_loop (engine : QueryEngine) (filters : NormalizedFilterValuesV1)
    (text_hits : option TextHitPlan) (group : NormalizedCourseGroupV1) (facts : GroupFacts)
    (variants : list NormalizedCourseVariantV1) : option GroupFacts :=
  match variants with
  | [] => Some facts
  | variant :: variants =>
      facts ← variant_step engine filters text_hits group facts variant;
      variants_loop engine filters text_hits group facts variants
  end.

(** What one group contributes to the candidates. *)
Definition course_candidates (engine : QueryEngine) (filters : NormalizedFilterValuesV1)
    (text_hits : option TextHitPlan) (group : NormalizedCourseGroupV1) : option (list CourseCandidate) :=
  if negb (group_is_active engine (ncg_key group)) then Some []
  else
    variants ← ec_variants_for (qe_corpus engine) group;
    facts ← variants_loop engine filters text_hits group
      {| gf_variant_evaluations := []; gf_best_rank := u32_max; gf_title := None |} variants;
    let group_evaluation := or_nonempty (gf_variant_evaluations facts) "variant.witness" in
    Some (if bool_decide (pe_outcome group_evaluation ≠ MatchOutcome_NoMatch) then [{|
            ccd_group := group; ccd_evaluation := group_evaluation;
            ccd_exact_identifier := exact_course_identifier filters (ncg_key group);
            ccd_best_rank := gf_best_rank facts; ccd_title := gf_title facts |}]
          else []).

(** What one section contributes to the candidates; an unknown variant panics. *)
Definition section_candidates (engine : QueryEngine) (filters : NormalizedFilterValuesV1)
    (text_hits : option TextHitPlan) (section : NormalizedSectionV1) : option (list SectionCandidate) :=
  if negb (section_is_active engine (nse_key section)) then Some []
  else
    found ← ec_variant (qe_corpus engine) (nse_variant_key section);
    variant ← found;
    course ← evaluate_course_filter_matches (cvk_group (ncv_key variant)) variant filters text_hits;
    evaluated ← section_evaluation engine section filters;
    let overall := and_all [ef_evaluation course; ef_evaluation evaluated] in
    if negb (ef_admitted course) || negb (ef_admitted evaluated) then Some []
    else
      open_state ← open_state_for engine (nse_key section);
      Some [{|
        scd_section := section; scd_variant := variant; scd_evaluation := overall;
        scd_section_number := default "" (known_string (nse_section_number section));
        scd_exact_identifier := exact_course_identifier filters (cvk_group (ncv_key variant));
        scd_text_rank := default u32_max (text_rank text_hits (ncv_key variant));
        scd_open_state := open_state |}].

(** ** Sorting and pagination *)

Definition outcome_order (value : MatchOutcome) : Z :=
  match value with
  | MatchOutcome_Match => 0 | MatchOutcome_Uncertain => 1 | MatchOutcome_NoMatch => 2
  end.
Definition open_order (value : LiveOpenStateV1) : Z :=
  match value with
  | LiveOpenStateV1_Closed => 0 | LiveOpenStateV1_Unknown => 1 | LiveOpenStateV1_Open => 2
  end.
Definition relevance (rank : Z) : Z := u32_max - rank.

Definition directed (ordering : comparison) (direction : SortDirectionV1) : comparison :=
  match direction with
  | SortDirectionV1_Ascending => ordering
  | SortDirectionV1_Descending => CompOpp ordering
  end.

Definition compare_titles (left right : option string) (direction : SortDirectionV1) : comparison :=
  match left, right with
  | Some l, Some r => directed (rcmp l r) direction
  | Some _, None => Lt
  | None, Some _ => Gt
  | None, None => Eq
  end.

Definition compare_course_identifier (left right : CourseGroupKey) : comparison :=
  cmp_then (rcmp (cgk_course_string left) (cgk_course_string right))
    (cmp_then (rcmp (cgk_campus left) (cgk_campus right)) (rcmp (cgk_term left) (cgk_term right))).

Definition compare_exact (left right : bool) : comparison := rcmp (Z.b2z right) (Z.b2z left).

(** The order of the field a request sorts by. *)
Definition course_field_order (sort : CourseSortV1) (left right : CourseCandidate) : comparison :=
  match cs_field sort with
  | CourseSortFieldV1_Relevance =>
      directed (rcmp (relevance (ccd_best_rank left)) (relevance (ccd_best_rank right)))
        (cs_direction sort)
  | CourseSortFieldV1_CourseIdentifier =>
      directed (compare_course_identifier (ncg_key (ccd_group left)) (ncg_key (ccd_group right)))
        (cs_direction sort)
  | CourseSortFieldV1_Title => compare_titles (ccd_title left) (ccd_title right) (cs_direction sort)
  end.

Definition compare_course (sort : CourseSortV1) (left right : CourseCandidate) : comparison :=
  cmp_then (rcmp (outcome_order (pe_outcome (ccd_evaluation left)))
              (outcome_order (pe_outcome (ccd_evaluation right))))
  (cmp_then (compare_exact (ccd_exact_identifier left) (ccd_exact_identifier right))
  (cmp_then (course_field_order sort left right)
    (rcmp (ncg_key (ccd_group left)) (ncg_key (ccd_group right))))).

Definition section_field_order (sort : SectionSortV1) (left right : SectionCandidate) : comparison :=
  match ss_field sort with
  | SectionSortFieldV1_SectionIndex =>
      rcmp (sk_index (nse_key (scd_section left))) (sk_index (nse_key (scd_section right)))
  | SectionSortFieldV1_SectionNumber => rcmp (scd_section_number left) (scd_section_number right)
  | SectionSortFieldV1_CourseIdentifier =>
      compare_course_identifier (cvk_group (ncv_key (scd_variant left)))
        (cvk_group (ncv_key (scd_variant right)))
  | SectionSortFieldV1_OpenStatus =>
      rcmp (open_order (scd_open_state left)) (open_order (scd_open_state right))
  end.

Definition compare_section (sort : SectionSortV1) (left right : SectionCandidate) : comparison :=
  cmp_then (rcmp (outcome_order (pe_outcome (scd_evaluation left)))
              (outcome_order (pe_outcome (scd_evaluation right))))
  (cmp_then (compare_exact (scd_exact_identifier left) (scd_exact_identifier right))
  (cmp_then (directed (section_field_order sort left right) (ss_direction sort))
  (cmp_then (rcmp (relevance (scd_text_rank right)) (relevance (scd_text_rank left)))
    (rcmp (nse_key (scd_section left)) (nse_key (scd_section right)))))).

(** [total_pages] is truncated to 32 bits, as [as u32] does. *)
Definition paginate {T} (values : list T) (request : PageRequestV1) : PageInfoV1 * list T :=
  let total := Z.of_nat (length values) in
  let page_size := pr_page_size request in
  let total_pages := if bool_decide (total = 0) then 0 else div_ceil total page_size mod 2 ^ 32 in
  let start := u64_saturating_mul (pr_page request - 1) page_size in
  let items :=
    if bool_decide (total ≤ start) then []
    else
      let end_ := Z.min total (start + page_size) in
      take (Z.to_nat (end_ - start)) (drop (Z.to_nat start) values) in
  ({| pi_page := pr_page request; pi_page_size := page_size; pi_total := total;
      pi_total_pages := total_pages |}, items).

(** ** Materialization *)

Definition text_match (filters : NormalizedFilterValuesV1) (text_hits : option TextHitPlan)
    (key : CourseVariantKey) (exact_identifier : bool) : option TextMatchEvidenceV1 :=
  text ← nf_text filters;
  _ ← text_rank text_hits key;
  Some {| tm_exact_course_identifier := exact_identifier; tm_matched_tokens := fst_tokens text |}.

Definition section_item (engine : QueryEngine) (section : NormalizedSectionV1)
    (filters : NormalizedFilterValuesV1) : option (SectionQueryItemV1 * EvaluatedFilters) :=
  occurrences ← ec_known_occurrences_for (qe_corpus engine) section;
  open ← open_for engine (nse_key section);
  evaluated ← evaluate_section_filter_matches section occurrences open (qe_now engine) filters;
  explanation ← into_explanation (ef_evaluation evaluated);
  Some ({| si_section := section; si_occurrences := default [] occurrences; si_open := open;
           si_explanation := explanation; si_filter_matches := ef_filter_matches evaluated |},
        evaluated).

Definition set_explanation (explanation : MatchExplanation) (item : SectionQueryItemV1) : SectionQueryItemV1 :=
  {| si_section := si_section item; si_occurrences := si_occurrences item; si_open := si_open item;
     si_explanation := explanation; si_filter_matches := si_filter_matches item |}.

Definition matched_explanation : MatchExplanation :=
  {| me_outcome := MatchOutcome_Match; me_reasons := [] |}.

Definition unfiltered_section_item (engine : QueryEngine) (section : NormalizedSectionV1)
    : option SectionQueryItemV1 :=
  occurrences ← ec_known_occurrences_for (qe_corpus engine) section;
  open ← open_for engine (nse_key section);
  Some {| si_section := section; si_occurrences := default [] occurrences; si_open := open;
          si_explanation := matched_explanation; si_filter_matches := [] |}.

(** The sections a variant shows: the admitted ones when a section filter is active. *)
Definition shown_section (course : EvaluatedFilters) (active : bool)
    (p : SectionQueryItemV1 * EvaluatedFilters) : option (option SectionQueryItemV1) :=
  if active && negb (ef_admitted p.2) then Some None
  else
    explanation ← into_explanation (and_all [ef_evaluation course; ef_evaluation p.2]);
    Some (Some (set_explanation explanation p.1)).

Definition materialize_variant (engine : QueryEngine) (filters : NormalizedFilterValuesV1)
    (text_hits : option TextHitPlan) (section_filters_active : bool) (group : NormalizedCourseGroupV1)
    (exact_identifier : bool) (variant : NormalizedCourseVariantV1)
    : option (option CourseVariantQueryItemV1) :=
  course ← evaluate_course_filter_matches (ncg_key group) variant filters text_hits;
  sections ← ec_sections_for (qe_corpus engine) variant;
  section_evaluations ← mapM (λ section, section_item engine section filters) sections;
  let witness :=
    if section_filters_active then section_witness (admitted_evaluations section_evaluations.*2)
    else (matched, true) in
  let variant_evaluation := and_all [ef_evaluation course; witness.1] in
  if negb (ef_admitted course) || negb witness.2 then Some None
  else
    shown ← mapM (shown_section course section_filters_active) section_evaluations;
    explanation ← into_explanation variant_evaluation;
    Some (Some {|
      vi_variant := variant; vi_explanation := explanation;
      vi_filter_matches := ef_filter_matches course;
      vi_text_match := text_match filters text_hits (ncv_key variant) exact_identifier;
      vi_sections := omap id shown |}).

Definition materialize_course_candidate (engine : QueryEngine) (filters : NormalizedFilterValuesV1)
    (text_hits : option TextHitPlan) (section_filters_active : bool) (candidate : CourseCandidate)
    : option CourseQueryItemV1 :=
  variants ← ec_variants_for (qe_corpus engine) (ccd_group candidate);
  items ← mapM (materialize_variant engine filters text_hits section_filters_active
                  (ccd_group candidate) (ccd_exact_identifier candidate)) variants;
  explanation ← into_explanation (ccd_evaluation candidate);
  Some {| ci_group := ccd_group candidate; ci_explanation := explanation; ci_variants := omap id items |}.

Definition materialize_section_candidate (engine : QueryEngine) (filters : NormalizedFilterValuesV1)
    (text_hits : option TextHitPlan) (candidate : SectionCandidate) : option SectionSearchItemV1 :=
  let variant := scd_variant candidate in
  course ← evaluate_course_filter_matches (cvk_group (ncv_key variant)) variant filters text_hits;
  item ← section_item engine (scd_section candidate) filters;
  explanation ← into_explanation (scd_evaluation candidate);
  Some {| sx_variant := variant;
          sx_section := set_explanation explanation item.1;
          sx_course_filter_matches := ef_filter_matches course;
          sx_text_match := text_match filters text_hits (ncv_key variant) (scd_exact_identifier candidate) |}.

(** ** Search *)

(** [?] on the validations, then the rest of a search. *)
Definition validated {A} (engine : QueryEngine) (filters : NormalizedFilterValuesV1)
    (text_hits : option TextHitPlan) (search : option A) : option (result QueryError A) :=
  valid ← validate_filters engine filters;
  match valid with
  | Err error => Some (Err error)
  | Ok _ =>
      valid ← validate_text_plan engine filters text_hits;
      match valid with
      | Err error => Some (Err error)
      | Ok _ => Ok <$> search
      end
  end.

Definition course_search (engine : QueryEngine) (request : CourseQueryRequestV1)
    (text_hits : option TextHitPlan) : option (result QueryError CourseQueryResponseV1) :=
  let filters := fr_values (cq_filters request) in
  validated engine filters text_hits
    (groups ← ec_for_each_group (qe_corpus engine) (qe_active_targets engine);
     candidates ← mapM (course_candidates engine filters text_hits) groups;
     let '(page, candidates) :=
       paginate (sort_by (compare_course (cq_sort request)) (mjoin candidates)) (cq_page request) in
     items ← mapM (materialize_course_candidate engine filters text_hits (section_filters_active filters))
               candidates;
     Some {| cqr_contract_version := QUERY_CONTRACT_VERSION; cqr_page := page; cqr_items := items |}).

Definition section_search (engine : QueryEngine) (request : SectionQueryRequestV1)
    (text_hits : option TextHitPlan) : option (result QueryError SectionQueryResponseV1) :=
  let filters := fr_values (sq_filters request) in
  validated engine filters text_hits
    (sections ← ec_for_each_section (qe_corpus engine) (qe_active_targets engine);
     candidates ← mapM (section_candidates engine filters text_hits) sections;
     let '(page, candidates) :=
       paginate (sort_by (compare_section (sq_sort request)) (mjoin candidates)) (sq_page request) in
     items ← mapM (materialize_section_candidate engine filters text_hits) candidates;
     Some {| sqr_contract_version := QUERY_CONTRACT_VERSION; sqr_page := page; sqr_items := items |}).

(** ** Details *)

Definition course_detail (engine : QueryEngine) (key : CourseGroupKey)
    : option (result QueryError CourseDetailResponseV1) :=
  if negb (group_is_active engine key) then Some (Err QueryError_CourseNotFound)
  else
    found ← ec_group (qe_corpus engine) key;
    match found with
    | None => Some (Err QueryError_CourseNotFound)
    | Some group =>
        variants ← ec_variants_for (qe_corpus engine) group;
        items ← mapM (λ variant,
          sections ← ec_sections_for (qe_corpus engine) variant;
          items ← mapM (unfiltered_section_item engine) sections;
          Some {| vi_variant := variant; vi_explanation := matched_explanation; vi_filter_matches := [];
                  vi_text_match := None; vi_sections := items |}) variants;
        Some (Ok {| cdr_contract_version := QUERY_CONTRACT_VERSION;
                    cdr_course := {| ci_group := group; ci_explanation := matched_explanation;
                                     ci_variants := items |} |})
    end.

Definition section_detail (engine : QueryEngine) (key : SectionKey)
    : option (result QueryError SectionDetailResponseV1) :=
  if negb (section_is_active engine key) then Some (Err QueryError_SectionNotFound)
  else
    found ← ec_section (qe_corpus engine) key;
    match found with
    | None => Some (Err QueryError_SectionNotFound)
    | Some section =>
        found ← ec_variant (qe_corpus engine) (nse_variant_key section);
        variant ← found;
        item ← unfiltered_section_item engine section;
        Some (Ok {| sdr_contract_version := QUERY_CONTRACT_VERSION; sdr_variant := variant;
                    sdr_section := item |})
    end.

End engine.
