(* ===== verification/QueryFacts.v ===== *)
(** * Searching: pages, order, and exactly the admitted items

    A page is a slice of the sorted candidates and the pages together are all of
    them; the comparisons are total orders that separate distinct items; and on
    an engine built for the request a search never panics and returns exactly
    the items the filters admit. *)

From S2P Require Import Prelude Ordering Identity RustStr Contracts CatalogData Match Filters.
From S2P Require Import FilterFacts Predicates PredicateFacts Corpus CatalogSamples CorpusFacts PreparedFacts QueryEngine.

(** ** Pages *)

(** The items of a page, as a slice. *)
Definition page_slice {T} (values : list T) (page page_size : Z) : list T :=
  take (Z.to_nat page_size) (drop (Z.to_nat ((page - 1) * page_size)) values).

(** What [PageRequestV1_try_new] accepts for 32-bit pages. *)
Definition page_valid (request : PageRequestV1) : Prop :=
  1 ≤ pr_page request ≤ u32_max ∧ 1 ≤ pr_page_size request ≤ MAX_PAGE_SIZE.

Lemma page_request_valid page page_size request :
  0 ≤ page ≤ u32_max → 0 ≤ page_size → PageRequestV1_try_new page page_size = Ok request →
  page_valid request ∧ pr_page request = page ∧ pr_page_size request = page_size.
Proof.
  unfold PageRequestV1_try_new, page_valid. intros Hp Hs.
  repeat case_bool_decide; try done. simpl. intros [= <-]. simpl. lia.
Qed.

Lemma paginate_slice {T} (values : list T) request :
  page_valid request →
  paginate values request = (
    {| pi_page := pr_page request; pi_page_size := pr_page_size request;
       pi_total := Z.of_nat (length values);
       pi_total_pages := div_ceil (Z.of_nat (length values)) (pr_page_size request) mod 2 ^ 32 |},
    page_slice values (pr_page request) (pr_page_size request)).
Proof.
  intros [Hp Hs]. unfold paginate. cbv zeta.
  unfold u32_max, MAX_PAGE_SIZE in *.
  assert (u64_saturating_mul (pr_page request - 1) (pr_page_size request)
    = (pr_page request - 1) * pr_page_size request) as -> by (unfold u64_saturating_mul, u64_max; nia).
  set (start := (pr_page request - 1) * pr_page_size request).
  assert (0 ≤ start) by (unfold start; nia). f_equal.
  - f_equal. case_bool_decide as H0; [|done]. by rewrite H0.
  - unfold page_slice. fold start. case_bool_decide as Hle.
    + rewrite drop_ge by lia. by rewrite take_nil.
    + destruct (decide (start + pr_page_size request ≤ Z.of_nat (length values))).
      * f_equal. lia.
      * rewrite !take_ge; [done|rewrite length_drop; lia..].
Qed.

Lemma page_slice_concat {T} (values : list T) page_size n :
  1 ≤ page_size →
  mjoin ((λ p, page_slice values (Z.of_nat p) page_size) <$> seq 1 n)
    = take (Z.to_nat (Z.of_nat n * page_size)) values.
Proof.
  intros Hs. induction n as [|n IH]; [done|].
  rewrite seq_S, fmap_app, join_app, IH. simpl. rewrite app_nil_r. unfold page_slice.
  replace (Z.of_nat (S n) - 1) with (Z.of_nat n) by lia.
  replace (Z.to_nat (Z.of_nat (S n) * page_size)) with
    (Z.to_nat (Z.of_nat n * page_size) + Z.to_nat page_size)%nat by lia.
  rewrite <-take_take_drop. f_equal.
Qed.

(** Pagination: the page information is the request's with the exact total,
    and the number of pages is the least that covers it (modulo the width of the
    counter); a page has at most its size of items, and the pages in order are
    exactly the sorted items, each once, with nothing on later pages. *)
Theorem pages_partition {T} (values : list T) (page_size : Z) :
  1 ≤ page_size ≤ MAX_PAGE_SIZE → Z.of_nat (length values) < 2 ^ 32 →
  let request page := {| pr_page := page; pr_page_size := page_size |} in
  let pages := pi_total_pages (paginate values (request 1)).1 in
  (∀ page, 1 ≤ page ≤ u32_max →
     pi_page (paginate values (request page)).1 = page ∧
     pi_total (paginate values (request page)).1 = Z.of_nat (length values) ∧
     pi_total_pages (paginate values (request page)).1 = pages ∧
     Z.of_nat (length (paginate values (request page)).2) ≤ page_size ∧
     (pages < page → (paginate values (request page)).2 = [])) ∧
  (∀ q, pages ≤ q ↔ Z.of_nat (length values) ≤ q * page_size) ∧
  mjoin ((λ p, (paginate values (request (Z.of_nat p))).2) <$> seq 1 (Z.to_nat pages)) = values.
Proof.
  intros Hs Hlen. cbv zeta beta.
  assert (∀ page, 1 ≤ page ≤ u32_max →
    page_valid {| pr_page := page; pr_page_size := page_size |}) as Hvalid by (intros page Hp; by split).
  rewrite (paginate_slice values {| pr_page := 1; pr_page_size := page_size |}) by (apply Hvalid; unfold u32_max; lia).
  cbn [fst snd pi_page pi_total pi_total_pages pr_page pr_page_size].
  pose proof (div_ceil_nonneg (Z.of_nat (length values)) page_size ltac:(lia) ltac:(lia)) as Hnonneg.
  assert (div_ceil (Z.of_nat (length values)) page_size ≤ Z.of_nat (length values)) as Hle
    by (apply div_ceil_le; nia).
  rewrite Z.mod_small by lia. set (pages := div_ceil _ page_size) in *.
  assert (∀ q, pages ≤ q ↔ Z.of_nat (length values) ≤ q * page_size) as Hpages
    by (intros q; apply div_ceil_le; lia).
  split_and!; [|exact Hpages|].
  - intros page Hp. rewrite paginate_slice by by apply Hvalid.
    cbn [fst snd pi_page pi_total pi_total_pages pr_page pr_page_size].
    rewrite Z.mod_small by (fold pages; lia). fold pages. split_and!; try done.
    + unfold page_slice. rewrite length_take. lia.
    + intros Hlt. unfold page_slice. rewrite drop_ge; [by rewrite take_nil|].
      assert (Z.of_nat (length values) ≤ (page - 1) * page_size) by (apply Hpages; lia). lia.
  - rewrite (list_fmap_ext _ (λ p, page_slice values (Z.of_nat p) page_size)).
    + rewrite page_slice_concat by lia. apply take_ge.
      pose proof (proj1 (Hpages pages) ltac:(lia)). rewrite Z2Nat.id by lia. lia.
    + intros i p Hi%list_elem_of_lookup_2%elem_of_seq. rewrite paginate_slice; [done|].
      apply Hvalid. unfold u32_max. lia.
Qed.

Lemma pages_partition_witness :
  1 ≤ 2 ≤ MAX_PAGE_SIZE ∧ Z.of_nat (length [5; 6; 7; 8; 9]) < 2 ^ 32 ∧
  mjoin ((λ p, (paginate [5; 6; 7; 8; 9] {| pr_page := Z.of_nat p; pr_page_size := 2 |}).2) <$> seq 1 3)
    = [5; 6; 7; 8; 9].
Proof.
  assert (1 ≤ 2 ≤ MAX_PAGE_SIZE) as Hs by (unfold MAX_PAGE_SIZE; lia).
  assert (Z.of_nat (length [5; 6; 7; 8; 9]) < 2 ^ 32) as Hl by (vm_compute; reflexivity).
  split; [exact Hs|]. split; [exact Hl|].
  exact (proj2 (proj2 (pages_partition [5; 6; 7; 8; 9] 2 Hs Hl))).
Defined.

(** ** The orders of results *)

Lemma directed_comparator {A} (c : A → A → comparison) direction :
  Comparator c → Comparator (λ x y, directed (c x y) direction).
Proof. intros Hc. destruct direction; [done|]. by apply cmp_reverse_comparator. Qed.

Lemma compare_titles_comparator direction :
  Comparator (λ l r : option string, compare_titles l r direction).
Proof.
  pose proof (directed_comparator (@rcmp string _) direction _) as Hd. split.
  - intros [x|] [y|]; simpl; try done. apply (cmp_opp (Comparator := Hd)).
  - intros [x|] [y|] [z|]; simpl; try done. apply (cmp_eq_l (Comparator := Hd)).
  - intros [x|] [y|] [z|]; simpl; try done. apply (cmp_lt_trans (Comparator := Hd)).
Qed.

(** The comparator of a key. *)
Lemma key_comparator {A K} `{ROrdLaws K} (key : A → K) : Comparator (λ l r, rcmp (key l) (key r)).
Proof. exact (cmp_on_comparator rcmp key _). Qed.

Lemma compare_course_identifier_comparator : Comparator compare_course_identifier.
Proof.
  exact (cmp_then_comparator _ _ (key_comparator cgk_course_string)
    (cmp_then_comparator _ _ (key_comparator cgk_campus) (key_comparator cgk_term))).
Qed.

Lemma course_field_comparator sort : Comparator (course_field_order sort).
Proof.
  unfold course_field_order. destruct (cs_field sort).
  - exact (directed_comparator _ _ (key_comparator (λ c, relevance (ccd_best_rank c)))).
  - exact (directed_comparator _ _ (cmp_on_comparator _ (λ c, ncg_key (ccd_group c))
      compare_course_identifier_comparator)).
  - exact (cmp_on_comparator (λ l r, compare_titles l r (cs_direction sort)) ccd_title
      (compare_titles_comparator (cs_direction sort))).
Qed.

Lemma section_field_comparator sort : Comparator (section_field_order sort).
Proof.
  unfold section_field_order. destruct (ss_field sort).
  - exact (key_comparator (λ c, sk_index (nse_key (scd_section c)))).
  - exact (key_comparator scd_section_number).
  - exact (cmp_on_comparator _ (λ c, cvk_group (ncv_key (scd_variant c))) compare_course_identifier_comparator).
  - exact (key_comparator (λ c, open_order (scd_open_state c))).
Qed.

#[export] Instance compare_course_comparator sort : Comparator (compare_course sort).
Proof.
  exact (cmp_then_comparator _ _ (key_comparator (λ c, outcome_order (pe_outcome (ccd_evaluation c))))
    (cmp_then_comparator _ _ (cmp_swap_comparator _ (key_comparator (λ c, Z.b2z (ccd_exact_identifier c))))
      (cmp_then_comparator _ _ (course_field_comparator sort)
        (key_comparator (λ c, ncg_key (ccd_group c)))))).
Qed.

#[export] Instance compare_section_comparator sort : Comparator (compare_section sort).
Proof.
  exact (cmp_then_comparator _ _ (key_comparator (λ c, outcome_order (pe_outcome (scd_evaluation c))))
    (cmp_then_comparator _ _ (cmp_swap_comparator _ (key_comparator (λ c, Z.b2z (scd_exact_identifier c))))
      (cmp_then_comparator _ _
        (directed_comparator _ (ss_direction sort) (section_field_comparator sort))
        (cmp_then_comparator _ _ (cmp_swap_comparator _ (key_comparator (λ c, relevance (scd_text_rank c))))
          (key_comparator (λ c, nse_key (scd_section c))))))).
Qed.

(** Distinct candidates are never tied: the last comparison is of their keys. *)
Lemma compare_course_key sort l r :
  compare_course sort l r = Eq → ncg_key (ccd_group l) = ncg_key (ccd_group r).
Proof. intros (_ & (_ & (_ & H)%cmp_then_Eq)%cmp_then_Eq)%cmp_then_Eq. by apply rcmp_eq in H. Qed.
Lemma compare_section_key sort l r :
  compare_section sort l r = Eq → nse_key (scd_section l) = nse_key (scd_section r).
Proof.
  intros (_ & (_ & (_ & (_ & H)%cmp_then_Eq)%cmp_then_Eq)%cmp_then_Eq)%cmp_then_Eq. by apply rcmp_eq in H.
Qed.

(** ** Evaluated filters *)

(** What both kinds of evaluation give: a valid evaluation, excluded only when
    it is not admitted. *)
Record evaluated_ok (ef : EvaluatedFilters) : Prop := {
  eo_valid : evaluation_valid (ef_evaluation ef);
  eo_admitted : ef_admitted ef = true → pe_outcome (ef_evaluation ef) ≠ MatchOutcome_NoMatch
}.

Lemma summarize_evaluated fields evaluations filters :
  evaluations_own evaluations → Forall (active_if_uncertain filters) evaluations → evaluations.*1 = fields →
  ∃ ef, summarize_filter_evaluations evaluations filters = Some ef ∧ evaluated_ok ef.
Proof.
  intros Hown Hact Hf. destruct (summarize_ok fields evaluations filters Hown Hact Hf) as (ef & E & Hok).
  exists ef. split; [done|]. rewrite (summarize_own _ _ Hown) in E. injection E as <-. split; simpl in *.
  - apply and_all_valid, Forall_fmap. eapply Forall_impl; [exact Hown|]. by intros p [? _].
  - intros Hadm. pose proof (proj1 (so_admitted _ _ _ Hok) Hadm) as Hall. simpl in Hall.
    rewrite and_all_outcome. intros Hno. apply outcome_all_cases in Hno.
    apply list_elem_of_fmap in Hno as (e & He & (p & -> & Hp)%list_elem_of_fmap).
    apply (proj1 (Hall (filter_match p) ltac:(by apply list_elem_of_fmap_2))). by rewrite He.
Qed.

Lemma course_evaluation_total group variant filters text_hits :
  ∃ ef, evaluate_course_filter_matches group variant filters text_hits = Some ef ∧ evaluated_ok ef.
Proof.
  eapply summarize_evaluated; [apply course_evaluations_own|apply course_active_if_uncertain|reflexivity].
Qed.

Lemma section_evaluation_ok section occurrences open now filters :
  ∃ ef, evaluate_section_filter_matches section occurrences open now filters = Some ef ∧ evaluated_ok ef.
Proof.
  eapply summarize_evaluated; [apply section_evaluations_own|apply section_active_if_uncertain|reflexivity].
Qed.

(** A valid evaluation that excludes nothing. *)
Definition included (e : PredicateEvaluation) : Prop :=
  evaluation_valid e ∧ pe_outcome e ≠ MatchOutcome_NoMatch.

Lemma included_and e e' : included e → included e' → included (and_all [e; e']).
Proof.
  intros [He Hn] [He' Hn']. split; [apply and_all_valid; by repeat constructor|].
  rewrite and_all_outcome. unfold outcome_all. simpl. by destruct (pe_outcome e), (pe_outcome e').
Qed.

Lemma included_or es : es ≠ [] → Forall included es → included (or_active es).
Proof.
  intros Hne Hes. split; [apply or_active_valid; eapply Forall_impl; [exact Hes|]; by intros e []|].
  rewrite or_active_nonempty by done. unfold outcome_any. rewrite foldl_outcome_or.
  destruct es as [|e es]; [done|]. apply Forall_cons in Hes as [[_ He] _].
  case_bool_decide; [done|]. case_bool_decide; [done|]. intros _.
  assert (pe_outcome e ∈ MatchOutcome_NoMatch :: (pe_outcome <$> e :: es)) as Hin by (right; left).
  destruct (pe_outcome e); set_solver.
Qed.

Lemma included_matched : included matched.
Proof. by split. Qed.

Lemma evaluated_included ef : evaluated_ok ef → ef_admitted ef = true → included (ef_evaluation ef).
Proof. intros [] ?. split; auto. Qed.

(** Sorting with a comparison that ends with a key without repetition. *)
Lemma sort_by_strict_key {A K} (cmp : A → A → comparison) `{!Comparator cmp} (key : A → K) l :
  (∀ x y, cmp x y = Eq → key x = key y) → NoDup (key <$> l) →
  StronglySorted (λ x y, cmp x y = Lt) (sort_by cmp l).
Proof.
  intros Hkey Hnd. rewrite <-(sort_by_perm cmp l) in Hnd. pose proof (sort_by_sorted cmp l) as Hs. revert Hnd.
  induction Hs as [|x l' Hs IH Hx]; [constructor|]. rewrite fmap_cons. intros [Hnin Hnd]%NoDup_cons.
  constructor; [by apply IH|]. rewrite Forall_forall in *. intros y Hy. specialize (Hx y Hy). unfold cmp_le in Hx.
  destruct (cmp x y) eqn:E; [|done|done]. destruct Hnin. rewrite (Hkey x y E). by apply list_elem_of_fmap_2.
Qed.

(** One result for each element of a list. *)
Lemma choose_list {A B} (P : A → B → Prop) l : (∀ x, x ∈ l → ∃ y, P x y) → ∃ k, Forall2 P l k.
Proof.
  intros Hl. induction l as [|x l IH]; [by exists []|].
  destruct (Hl x ltac:(left)) as [y Hy]. destruct IH as [k Hk]; [intros; apply Hl; by right|].
  exists (y :: k). by constructor.
Qed.

(** A search visits entities in turn and keeps at most one candidate of each. *)
Lemma candidates_of_entities {A B} (f : A → option (list B)) (key : B → A) (P : A → Prop)
    (good : A → B → Prop) (l : list A) :
  (∀ a, a ∈ l → ∃ cs, f a = Some cs ∧
     (cs = [] ∧ ¬ P a ∨ ∃ c, cs = [c] ∧ P a ∧ key c = a ∧ good a c)) →
  ∃ css, mapM f l = Some css ∧ key <$> mjoin css `sublist_of` l ∧
    (∀ c, c ∈ mjoin css → good (key c) c) ∧
    (∀ a, a ∈ key <$> mjoin css ↔ a ∈ l ∧ P a).
Proof.
  induction l as [|a l IH]; intros Hf.
  { exists []. split_and!; [done|constructor|by intros c ?%elem_of_nil|]. intros a. simpl.
    split; [by intros ?%elem_of_nil|by intros [?%elem_of_nil _]]. }
  destruct IH as (css & Hcss & Hsub & Hgood & Hin); [intros; apply Hf; by right|].
  destruct (Hf a ltac:(left)) as (cs & Hcs & Hcase). exists (cs :: css).
  simpl. rewrite Hcs. cbn [mbind option_bind]. rewrite Hcss. simpl. split; [done|].
  destruct Hcase as [[-> Hno]|(c & -> & Hp & Hk & Hg)]; cbn [app].
  - split_and!; [by apply sublist_cons|done|]. intros b. rewrite Hin, elem_of_cons.
    split; [naive_solver|]. by intros [[->|?] ?].
  - rewrite fmap_cons, Hk. split_and!; [by apply sublist_skip| |].
    + intros c' [->|Hc']%elem_of_cons; [by rewrite Hk|by apply Hgood].
    + intros b. rewrite !elem_of_cons, Hin. naive_solver.
Qed.

(** The same for entities that are shown or left out. *)
Lemma shown_of_entities {A B} (f : A → option (option B)) (key : B → A) (P : A → Prop)
    (good : A → B → Prop) (l : list A) :
  (∀ a, a ∈ l → ∃ r, f a = Some r ∧
     (r = None ∧ ¬ P a ∨ ∃ b, r = Some b ∧ P a ∧ key b = a ∧ good a b)) →
  ∃ rs, mapM f l = Some rs ∧ key <$> omap id rs `sublist_of` l ∧
    (∀ b, b ∈ omap id rs → good (key b) b) ∧
    (∀ a, a ∈ key <$> omap id rs ↔ a ∈ l ∧ P a).
Proof.
  intros Hf. destruct (choose_list (λ a r, f a = Some r) l) as [rs Hrs].
  { intros a Ha. destruct (Hf a Ha) as (r & ? & _). by exists r. }
  destruct (candidates_of_entities (λ a, option_list <$> f a) key P good l) as (css & Hcss & H).
  { intros a Ha. destruct (Hf a Ha) as (r & -> & Hcase). eexists. split; [reflexivity|].
    destruct Hcase as [[-> ?]|(b & -> & ?)]; [by left|right; by exists b]. }
  exists rs. split; [by apply mapM_Some|]. assert (mjoin css = omap id rs) as <-; [|done].
  apply mapM_Some in Hcss. clear -Hcss Hrs. revert css Hcss.
  induction Hrs as [|a r l rs Hr Hrs IH]; intros css Hcss; inversion Hcss as [|? cs ? css' Hc Hcss']; [done|].
  subst. rewrite Hr in Hc. injection Hc as <-. simpl. rewrite (IH css' Hcss'). by destruct r.
Qed.

(** ** Admission *)

Section admission.
Context `{KeyHash} (engine : QueryEngine) (catalogs : list NormalizedCatalogV1).
Context (filters : NormalizedFilterValuesV1) (text_hits : option TextHitPlan).

Definition section_admitted (s : NormalizedSectionV1) : Prop :=
  ∃ ef, section_evaluation engine s filters = Some ef ∧ ef_admitted ef = true.

Definition course_admitted (v : NormalizedCourseVariantV1) : Prop :=
  ∃ ef, evaluate_course_filter_matches (cvk_group (ncv_key v)) v filters text_hits = Some ef
    ∧ ef_admitted ef = true.

(** A variant is admitted with one admitted section when a section filter is active. *)
Definition variant_admitted (v : NormalizedCourseVariantV1) : Prop :=
  course_admitted v ∧
  (section_filters_active filters = true →
     ∃ s, s ∈ all_sections catalogs ∧ nse_variant_key s = ncv_key v ∧ section_admitted s).

(** A section is returned when it and its course are admitted. *)
Definition section_returned (s : NormalizedSectionV1) : Prop :=
  s ∈ all_sections catalogs ∧ section_admitted s ∧
  ∃ v, v ∈ all_variants catalogs ∧ ncv_key v = nse_variant_key s ∧ course_admitted v.

(** A course is returned when one of its variants is admitted. *)
Definition course_returned (g : NormalizedCourseGroupV1) : Prop :=
  g ∈ all_groups catalogs ∧
  ∃ v, v ∈ all_variants catalogs ∧ cvk_group (ncv_key v) = ncg_key g ∧ variant_admitted v.

End admission.

(** ** The engine built for a request *)

Section built.
Context `{KeyHash} (catalogs : list NormalizedCatalogV1) (Hval : catalogs_valid catalogs).
Context (open : gmap SectionKey LiveOpenEvidenceV1) (now : OffsetDateTime).

Definition built_engine : QueryEngine := {|
  qe_corpus := EngineCorpus_Built (corpus_of catalogs);
  qe_active_targets := (cc_iter_target_versions (corpus_of catalogs)).*1;
  qe_forced_open_unavailable := [];
  qe_now := now;
  qe_open := EngineOpen_Built open |}.
#[local] Abbreviation engine := built_engine.

Lemma built_targets t : t ∈ qe_active_targets engine ↔ t ∈ nca_target <$> catalogs.
Proof.
  simpl. unfold cc_iter_target_versions. rewrite btm_iter_keys, elem_of_btm_keys. simpl.
  rewrite <-not_eq_None_Some, target_versions_None, lookup_empty.
  destruct (decide (t ∈ nca_target <$> catalogs)); naive_solver.
Qed.

Lemma identity_is_active_iff e t :
  identity_is_active e (tck_term t) (tck_campus t) = true ↔ t ∈ qe_active_targets e.
Proof.
  unfold identity_is_active. rewrite existsb_exists. setoid_rewrite andb_true_iff.
  setoid_rewrite bool_decide_eq_true. setoid_rewrite <-list_elem_of_In. split.
  - intros (t' & Hin & Ht & Hc). destruct t, t'. by simplify_eq/=.
  - intros Hin. by exists t.
Qed.

Lemma built_group_active g : g ∈ all_groups catalogs → group_is_active engine (ncg_key g) = true.
Proof.
  intros (c & Hg & Hc)%list_elem_of_bind. apply (identity_is_active_iff _ (cgk_target (ncg_key g))).
  rewrite built_targets, (va_group_target _ (cv_entities _ Hval) c g) by done. by apply list_elem_of_fmap_2.
Qed.

Lemma built_section_active s : s ∈ all_sections catalogs → section_is_active engine (nse_key s) = true.
Proof.
  intros (c & Hs & Hc)%list_elem_of_bind. apply (identity_is_active_iff _ (sk_target (nse_key s))).
  destruct (va_section_target _ (cv_entities _ Hval) c s Hc Hs) as [Ht _].
  rewrite built_targets, Ht. by apply list_elem_of_fmap_2.
Qed.

Lemma built_open_for k : ∃ evidence, open_for engine k = Some evidence.
Proof. unfold open_for. simpl. destruct (open !! k); eauto. Qed.

Lemma built_section_evaluation s filters :
  s ∈ all_sections catalogs → ∃ ef, section_evaluation engine s filters = Some ef ∧ evaluated_ok ef.
Proof.
  intros Hs. unfold section_evaluation. destruct (occurrences_for_total _ Hval s Hs) as (os & Hos & _).
  cbn [qe_corpus built_engine ec_known_occurrences_for]. rewrite Hos. simpl.
  destruct (built_open_for (nse_key s)) as [evidence ->]. simpl. apply section_evaluation_ok.
Qed.

(** The item shown for a section carries its evaluation. *)
Lemma built_section_item s filters ef :
  s ∈ all_sections catalogs → section_evaluation engine s filters = Some ef → evaluated_ok ef →
  ∃ item, section_item engine s filters = Some (item, ef) ∧ si_section item = s ∧
    open_for engine (nse_key s) = Some (si_open item) ∧ si_filter_matches item = ef_filter_matches ef.
Proof.
  intros Hs Hef [Hev _]. unfold section_evaluation, section_item in *.
  destruct (ec_known_occurrences_for (qe_corpus engine) s) as [os|]; [|done]. simpl in *.
  destruct (open_for engine (nse_key s)) as [evidence|]; [|done]. simpl in *. rewrite Hef. simpl.
  rewrite (proj1 (into_explanation_valid _) Hev). simpl. eexists. split; [reflexivity|done].
Qed.

(** The sections of a variant are those that name it. *)
Lemma sections_of_variant v :
  v ∈ all_variants catalogs →
  ∃ ss, ec_sections_for (qe_corpus engine) v = Some ss ∧ nse_key <$> ss = ncv_section_keys v ∧
    ∀ s, s ∈ ss ↔ s ∈ all_sections catalogs ∧ nse_variant_key s = ncv_key v.
Proof.
  intros Hv. destruct (sections_for_total _ Hval v Hv) as (ss & Hss & Hk & Hin).
  exists ss. split_and!; [done..|]. intros s. split; [apply Hin|]. intros [Hs Hvk].
  destruct (cv_section _ Hval s Hs) as [(v' & Hv' & Hk' & Hs') _].
  assert (v' = v) as ->.
  { assert (cc_variants (corpus_of catalogs) !! ncv_key v = Some v) as H1
      by (apply variant_lookup; [apply Hval|done]).
    assert (cc_variants (corpus_of catalogs) !! ncv_key v = Some v') as H2
      by (apply variant_lookup; [apply Hval|split; [done|congruence]]). congruence. }
  rewrite <-Hk in Hs'. apply list_elem_of_fmap in Hs' as (s' & Heq & Hs').
  assert (s' = s) as ->; [|done]. destruct (Hin s' Hs') as [Hs'' _].
  assert (cc_sections (corpus_of catalogs) !! nse_key s = Some s) as H1
    by (apply section_lookup; [apply Hval|done]).
  assert (cc_sections (corpus_of catalogs) !! nse_key s = Some s') as H2
    by (apply section_lookup; [apply Hval|done]). congruence.
Qed.

(** Evaluating a list of sections. *)
Lemma sections_evaluated ss filters :
  (∀ s, s ∈ ss → s ∈ all_sections catalogs) →
  ∃ es, mapM (λ s, section_evaluation engine s filters) ss = Some es ∧ Forall evaluated_ok es ∧
    Forall2 (λ s ef, section_evaluation engine s filters = Some ef) ss es.
Proof.
  intros Hss. destruct (choose_list (λ s ef, section_evaluation engine s filters = Some ef ∧ evaluated_ok ef) ss)
    as [es Hes]; [intros s Hs; by apply built_section_evaluation, Hss|].
  exists es. split_and!.
  - apply mapM_Some. eapply Forall2_impl; [exact Hes|]. by intros s ef [? _].
  - eapply Forall2_Forall_r; [exact Hes|]. apply Forall_true. by intros s ef [_ ?].
  - eapply Forall2_impl; [exact Hes|]. by intros s ef [? _].
Qed.

Lemma admitted_evaluations_spec ss es filters :
  Forall2 (λ s ef, section_evaluation engine s filters = Some ef) ss es → Forall evaluated_ok es →
  Forall included (admitted_evaluations es) ∧
  (admitted_evaluations es ≠ [] ↔ ∃ s, s ∈ ss ∧ section_admitted engine filters s).
Proof.
  intros H2 Hok. unfold admitted_evaluations. split.
  - apply Forall_fmap, Forall_forall. intros ef [Ha Hin]%list_elem_of_filter. simpl.
    rewrite Forall_forall in Hok. apply evaluated_included; auto.
  - induction H2 as [|s ef ss es Hef H2 IH]; [split; [done|]; intros (s & ?%elem_of_nil & _); done|].
    apply Forall_cons in Hok as [_ Hok]. rewrite filter_cons. case_decide as Ha.
    + split; [|done]. intros _. exists s. split; [left|]. by exists ef.
    + rewrite IH by done. split; [intros (s' & ? & ?); exists s'; split; [by right|done]|].
      intros (s' & [->|Hs']%elem_of_cons & Hadm); [|eauto].
      destruct Hadm as (ef' & Hef' & Ha'). congruence.
Qed.

(** *** Section candidates *)

(** What a candidate says of its section. *)
Record section_candidate_of (filters : NormalizedFilterValuesV1) (text_hits : option TextHitPlan)
    (s : NormalizedSectionV1) (c : SectionCandidate) : Prop := {
  sc_section : scd_section c = s;
  sc_variant : cc_variants (corpus_of catalogs) !! nse_variant_key s = Some (scd_variant c);
  sc_course : ∃ course ef,
    evaluate_course_filter_matches (cvk_group (ncv_key (scd_variant c))) (scd_variant c) filters text_hits
      = Some course ∧ ef_admitted course = true ∧
    section_evaluation engine s filters = Some ef ∧ ef_admitted ef = true ∧
    scd_evaluation c = and_all [ef_evaluation course; ef_evaluation ef];
  sc_included : included (scd_evaluation c)
}.

Lemma section_candidates_spec s filters text_hits :
  s ∈ all_sections catalogs →
  ∃ v cs, cc_variants (corpus_of catalogs) !! nse_variant_key s = Some v ∧
    section_candidates engine filters text_hits s = Some cs ∧
    (cs = [] ∧ ¬ (course_admitted filters text_hits v ∧ section_admitted engine filters s) ∨
     ∃ c, cs = [c] ∧ (course_admitted filters text_hits v ∧ section_admitted engine filters s) ∧
       section_candidate_of filters text_hits s c).
Proof.
  intros Hs. destruct (section_variant_total _ Hval s Hs) as (v & Hv & _ & _). exists v.
  unfold section_candidates. rewrite built_section_active by done. cbn [negb qe_corpus built_engine ec_variant].
  rewrite Hv. cbn [mbind option_bind].
  destruct (course_evaluation_total (cvk_group (ncv_key v)) v filters text_hits) as (course & Hc & Hcok).
  rewrite Hc. cbn [mbind option_bind].
  destruct (built_section_evaluation s filters Hs) as (ef & Hef & Hok).
  change {| qe_corpus := _ |} with engine. rewrite Hef. cbn [mbind option_bind]. cbv zeta.
  destruct (ef_admitted course) eqn:Ac; cbn [negb orb].
  2:{ exists []. split_and!; [done..|]. left. split; [done|]. intros [(ef' & Hef' & ?) _]. congruence. }
  destruct (ef_admitted ef) eqn:Ae; cbn [negb].
  2:{ exists []. split_and!; [done..|]. left. split; [done|]. intros [_ (ef' & Hef' & ?)]. congruence. }
  assert (∃ st, open_state_for engine (nse_key s) = Some st) as [st ->] by (unfold open_state_for; simpl; eauto).
  cbn [mbind option_bind]. eexists. split_and!; [done..|]. right. eexists. split; [reflexivity|].
  split; [split; [by exists course|by exists ef]|]. split; simpl; try done.
  - exists course, ef. by split_and!.
  - apply included_and; by apply evaluated_included.
Qed.

(** *** Requests *)

Lemma built_validate_filters filters : is_Some (validate_filters engine filters).
Proof.
  unfold validate_filters. case_bool_decide; [eauto|]. case_bool_decide; [eauto|]. simpl.
  destruct (choose_list (λ g codes, authoritative_codes engine filters g = Some codes)
    (cc_iter_groups (corpus_of catalogs))) as [css Hcss].
  { intros g Hg%elem_of_group_values; [|apply Hval]. unfold authoritative_codes.
    destruct (_ || _); [eauto|]. destruct (variants_for_total _ Hval g Hg) as (vs & Hvs & _).
    cbn [qe_corpus built_engine ec_variants_for]. rewrite Hvs. simpl. eauto. }
  apply mapM_Some in Hcss. rewrite Hcss. simpl. destruct (list_find _ _) as [[]|]; eauto.
Qed.

Lemma built_validate_text_plan filters plan : is_Some (validate_text_plan engine filters plan).
Proof.
  unfold validate_text_plan. destruct (nf_text filters) as [query|], plan as [plan|]; eauto.
  case_bool_decide; [eauto|].
  assert (is_Some (expected_versions engine)) as [expected ->].
  { unfold expected_versions. apply fmap_is_Some, mapM_is_Some, Forall_forall. intros t Ht. simpl in *.
    apply list_elem_of_fmap in Ht as (kv & -> & Hkv).
    destruct (list_find_elem_of (λ kv', kv'.1 = kv.1) _ kv Hkv eq_refl) as [[i kv'] E].
    rewrite E. simpl. eauto. }
  simpl. repeat (case_bool_decide; [eauto|]).
  assert (∀ keys, is_Some (any_panicking (λ key,
    if negb (group_is_active engine (cvk_group key)) then Some true
    else variant ← ec_variant (qe_corpus engine) key; Some (bool_decide (variant = None))) keys)) as Hany.
  { induction keys as [|k keys IH]; simpl; [eauto|]. destruct (group_is_active engine (cvk_group k)); simpl; [|eauto].
    case_bool_decide; eauto. }
  destruct (Hany (btm_keys (tp_hits plan))) as [foreign Hf]. simpl in Hf. simpl. rewrite Hf. simpl. eauto.
Qed.

Lemma validated_cases {A} filters plan (search : option A) result :
  search = Some result →
  ∃ r, validated engine filters plan search = Some r ∧ ∀ response, r = Ok response → response = result.
Proof.
  intros ->. unfold validated.
  destruct (built_validate_filters filters) as [[[]|e] ->]; simpl; [|eexists; split; [done|]; by intros].
  destruct (built_validate_text_plan filters plan) as [[[]|e] ->]; simpl;
    eexists; (split; [done|]); intros response; congruence.
Qed.

(** *** Section search *)

Lemma materialize_section_spec s c filters text_hits :
  s ∈ all_sections catalogs → section_candidate_of filters text_hits s c →
  ∃ item, materialize_section_candidate engine filters text_hits c = Some item ∧
    sx_variant item = scd_variant c ∧ si_section (sx_section item) = s ∧
    me_outcome (si_explanation (sx_section item)) = pe_outcome (scd_evaluation c) ∧
    me_reasons (si_explanation (sx_section item)) = pe_reasons (scd_evaluation c).
Proof.
  intros Hs [Hsec _ (course & ef & Hc & _ & Hef & _ & _) [Hv _]].
  unfold materialize_section_candidate. rewrite Hc, Hsec. cbn [mbind option_bind].
  destruct (built_section_evaluation s filters Hs) as (ef' & Hef' & Hok).
  assert (ef' = ef) as -> by congruence.
  destruct (built_section_item s filters ef Hs Hef Hok) as (item & -> & Hi & _). cbn [mbind option_bind].
  rewrite (proj1 (into_explanation_valid _) Hv). cbn [mbind option_bind]. eexists. split; [reflexivity|]. done.
Qed.

Lemma section_values_NoDup : NoDup (cc_iter_sections (corpus_of catalogs)).
Proof.
  unfold cc_iter_sections. apply (NoDup_fmap_1 nse_key). rewrite btm_values_keys; [apply NoDup_btm_keys|].
  by intros k s [_ ?]%section_lookup; [|apply Hval].
Qed.

Lemma section_search_candidates filters text_hits :
  ∃ css, mapM (section_candidates engine filters text_hits) (cc_iter_sections (corpus_of catalogs)) = Some css ∧
    NoDup (scd_section <$> mjoin css) ∧
    (∀ c, c ∈ mjoin css → scd_section c ∈ all_sections catalogs ∧
       section_candidate_of filters text_hits (scd_section c) c) ∧
    (∀ s, s ∈ scd_section <$> mjoin css ↔ section_returned engine catalogs filters text_hits s).
Proof.
  destruct (candidates_of_entities (section_candidates engine filters text_hits) scd_section
    (section_returned engine catalogs filters text_hits) (section_candidate_of filters text_hits)
    (cc_iter_sections (corpus_of catalogs))) as (css & Hcss & Hsub & Hof & Hin).
  { intros s Hs%elem_of_section_values; [|apply Hval].
    destruct (section_candidates_spec s filters text_hits Hs) as (v & cs & Hv & Hcs & Hcase).
    assert (section_returned engine catalogs filters text_hits s ↔
      course_admitted filters text_hits v ∧ section_admitted engine filters s) as Hiff.
    { pose proof Hv as [Hv' Hk]%variant_lookup; [|apply Hval]. split.
      - intros (_ & Ha & v' & Hv'' & Hk' & Hca).
        assert (cc_variants (corpus_of catalogs) !! nse_variant_key s = Some v') as E
          by (apply variant_lookup; [apply Hval|by split]).
        assert (v' = v) as -> by congruence. done.
      - intros [Hca Ha]. split_and!; [done..|]. by exists v. }
    exists cs. split; [done|]. destruct Hcase as [[? Hno]|(c & -> & Ha & Hof)]; [left; by rewrite Hiff|].
    right. exists c. split_and!; [done|by apply Hiff|by apply (sc_section _ _ _ _ Hof)|done]. }
  exists css. split_and!; [done|eapply sublist_NoDup; [apply section_values_NoDup|done]| |].
  - intros c Hc. split; [|by apply Hof]. apply (list_elem_of_fmap_2 scd_section) in Hc as [Hs _]%Hin.
    by apply elem_of_section_values in Hs; [|apply Hval].
  - intros s. rewrite Hin. unfold cc_iter_sections. rewrite elem_of_section_values by apply Hval. split; [by intros []|].
    intros Hr. split; [apply Hr|done].
Qed.

End built.

Lemma section_keys_unique catalogs (l : list SectionCandidate) :
  catalogs_valid catalogs → (∀ c, c ∈ l → scd_section c ∈ all_sections catalogs) →
  NoDup (scd_section <$> l) → NoDup ((λ c, nse_key (scd_section c)) <$> l).
Proof.
  intros Hval Hl Hnd. rewrite (list_fmap_compose scd_section nse_key). apply NoDup_fmap_2_strong; [|done].
  intros s s' (c & -> & Hc)%list_elem_of_fmap (c' & -> & Hc')%list_elem_of_fmap Hk.
  pose proof (cv_entities _ Hval) as He.
  assert (cc_sections (corpus_of catalogs) !! nse_key (scd_section c) = Some (scd_section c)) as H1
    by (apply section_lookup; [done|by split; [apply Hl|]]).
  assert (cc_sections (corpus_of catalogs) !! nse_key (scd_section c) = Some (scd_section c')) as H2
    by (apply section_lookup; [done|by split; [apply Hl|]]). congruence.
Qed.

Lemma try_new_built `{KeyHash} catalogs now items engine :
  QueryEngine_try_new_from_refs catalogs now items = Ok engine →
  catalogs_valid catalogs ∧ ∃ open, built_open (corpus_of catalogs) items ∅ = Ok open ∧
    engine = built_engine catalogs open now.
Proof.
  unfold QueryEngine_try_new_from_refs.
  destruct (CatalogCorpus_try_new_from_refs catalogs) as [corpus|e] eqn:E; [|done].
  apply try_new_Ok in E as [Hval ->]. destruct (built_open _ items ∅) as [open|e] eqn:Eo; [|done].
  intros [= <-]. split; [done|]. by exists open.
Qed.

(** The items on a page carry their candidates. *)
Definition section_item_of (item : SectionSearchItemV1) (c : SectionCandidate) : Prop :=
  sx_variant item = scd_variant c ∧ si_section (sx_section item) = scd_section c ∧
  me_outcome (si_explanation (sx_section item)) = pe_outcome (scd_evaluation c) ∧
  me_outcome (si_explanation (sx_section item)) ≠ MatchOutcome_NoMatch.

Lemma elem_of_page {T} (values : list T) request x : x ∈ (paginate values request).2 → x ∈ values.
Proof.
  unfold paginate. cbv zeta. simpl. case_bool_decide; [by intros ?%elem_of_nil|].
  intros Hx%subseteq_take%subseteq_drop. done.
Qed.

(** A search on the engine of valid catalogs. *)
Lemma built_section_search `{KeyHash} (catalogs : list NormalizedCatalogV1) (open : gmap SectionKey LiveOpenEvidenceV1)
    (now : OffsetDateTime) (request : SectionQueryRequestV1) (text_hits : option TextHitPlan) :
  catalogs_valid catalogs →
  ∃ outcome, section_search (built_engine catalogs open now) request text_hits = Some outcome ∧
    ∀ response, outcome = Ok response →
    ∃ candidates : list SectionCandidate,
      StronglySorted (λ l r, compare_section (sq_sort request) l r = Lt) candidates ∧
      NoDup (scd_section <$> candidates) ∧
      (∀ s, s ∈ scd_section <$> candidates ↔
         section_returned (built_engine catalogs open now) catalogs (fr_values (sq_filters request)) text_hits s) ∧
      sqr_page response = (paginate candidates (sq_page request)).1 ∧
      Forall2 section_item_of (sqr_items response) (paginate candidates (sq_page request)).2.
Proof.
  intros Hval. set (filters := fr_values (sq_filters request)).
  destruct (section_search_candidates catalogs Hval open now filters text_hits) as (css & Hcss & Hnd & Hof & Hret).
  set (candidates := sort_by (compare_section (sq_sort request)) (mjoin css)).
  assert (∀ c, c ∈ candidates ↔ c ∈ mjoin css) as Hin
    by (intros c; apply elem_of_sort_by; apply _).
  destruct (choose_list (λ c item,
    materialize_section_candidate (built_engine catalogs open now) filters text_hits c = Some item ∧
    section_item_of item c) (paginate candidates (sq_page request)).2) as [shown Hshown].
  { intros c Hc%elem_of_page%Hin. destruct (Hof c Hc) as [Hs Hcand].
    destruct (materialize_section_spec catalogs Hval open now _ c filters text_hits Hs Hcand)
      as (item & Hm & Hv & Hsec & Ho & _). exists item. split; [done|]. split_and!; try done.
    rewrite Ho. apply (sc_included _ _ _ _ _ _ _ Hcand). }
  assert (mapM (materialize_section_candidate (built_engine catalogs open now) filters text_hits)
    (paginate candidates (sq_page request)).2 = Some shown) as Hmap
    by (apply mapM_Some; eapply Forall2_impl; [exact Hshown|]; by intros c item [? _]).
  destruct (validated_cases catalogs Hval open now filters text_hits
    (let '(page, candidates) := paginate candidates (sq_page request) in
     items ← mapM (materialize_section_candidate (built_engine catalogs open now) filters text_hits) candidates;
     Some {| sqr_contract_version := QUERY_CONTRACT_VERSION; sqr_page := page; sqr_items := items |})
    {| sqr_contract_version := QUERY_CONTRACT_VERSION; sqr_page := (paginate candidates (sq_page request)).1;
       sqr_items := shown |}) as (outcome & Hout & Hok).
  { rewrite (surjective_pairing (paginate candidates (sq_page request))). rewrite Hmap. done. }
  exists outcome. split.
  { unfold section_search. cbv zeta. cbn [qe_corpus built_engine ec_for_each_section].
    cbn [mbind option_bind]. fold filters.
    change {| qe_corpus := _ |} with (built_engine catalogs open now). rewrite Hcss. exact Hout. }
  intros response ->%Hok. exists candidates. split_and!; [| | |done|].
  - apply (sort_by_strict_key _ (λ c, nse_key (scd_section c))); [apply compare_section_key|].
    apply (section_keys_unique catalogs _ Hval); [|done]. intros c Hc. by apply Hof.
  - unfold candidates. by rewrite (sort_by_perm (compare_section (sq_sort request)) (mjoin css)).
  - intros s. rewrite <-Hret. unfold candidates.
    by rewrite (sort_by_perm (compare_section (sq_sort request)) (mjoin css)).
  - cbn [sqr_items]. apply Forall2_flip. eapply Forall2_impl; [exact Hshown|]. by intros c item [_ ?].
Qed.

(** C32. Section search: on an engine built from validated catalogs it never
    panics, and an accepted request returns one page of the sorted candidates,
    which are exactly the sections of the catalogs that the section filters and
    the course filters admit, each once; every item shows its section with the
    joint outcome it was sorted by, which excludes nothing. *)
Theorem section_search_spec `{KeyHash} (catalogs : list NormalizedCatalogV1) (now : OffsetDateTime)
    (items : list OpenEvidence) (engine : QueryEngine) (request : SectionQueryRequestV1)
    (text_hits : option TextHitPlan) :
  QueryEngine_try_new_from_refs catalogs now items = Ok engine →
  ∃ outcome, section_search engine request text_hits = Some outcome ∧
    ∀ response, outcome = Ok response →
    ∃ candidates : list SectionCandidate,
      StronglySorted (λ l r, compare_section (sq_sort request) l r = Lt) candidates ∧
      NoDup (scd_section <$> candidates) ∧
      (∀ s, s ∈ scd_section <$> candidates ↔
         section_returned engine catalogs (fr_values (sq_filters request)) text_hits s) ∧
      sqr_page response = (paginate candidates (sq_page request)).1 ∧
      Forall2 section_item_of (sqr_items response) (paginate candidates (sq_page request)).2.
Proof. intros (Hval & open & _ & ->)%try_new_built. by apply built_section_search. Qed.

(** Hash functions under which everything collides. *)
#[local] Instance sample_hash : KeyHash := {|
  hash_group _ := 7; hash_variant _ := 7; hash_section _ := 7; hash_occurrence _ := 7 |}.

Definition sample_filters : NormalizedFilterValuesV1 :=
  canonical_values (FilterValuesInputV1_for_term sample_term).
Definition sample_page : PageRequestV1 := {| pr_page := 1; pr_page_size := 25 |}.
Definition sample_section_request : SectionQueryRequestV1 := {|
  sq_filters := {| fr_contract_version := QUERY_CONTRACT_VERSION; fr_values := sample_filters |};
  sq_page := sample_page;
  sq_sort := {| ss_field := SectionSortFieldV1_SectionIndex; ss_direction := SortDirectionV1_Ascending |} |}.
Definition sample_course_request : CourseQueryRequestV1 := {|
  cq_filters := {| fr_contract_version := QUERY_CONTRACT_VERSION; fr_values := sample_filters |};
  cq_page := sample_page;
  cq_sort := {| cs_field := CourseSortFieldV1_Title; cs_direction := SortDirectionV1_Descending |} |}.

Lemma sample_engine_Ok :
  QueryEngine_try_new_from_refs [sample_catalog] 0 [] = Ok (built_engine [sample_catalog] ∅ 0).
Proof. unfold QueryEngine_try_new_from_refs. rewrite sample_corpus. reflexivity. Qed.

Lemma section_search_spec_witness :
  ∃ outcome, section_search (built_engine [sample_catalog] ∅ 0) sample_section_request None = Some outcome ∧
    match outcome with
    | Ok response => (λ item, sk_index (nse_key (si_section (sx_section item)))) <$> sqr_items response
                       = [mkSectionIndex "06672"; mkSectionIndex "06673"]
    | Err _ => False
    end.
Proof.
  destruct (section_search_spec [sample_catalog] 0 [] _ sample_section_request None sample_engine_Ok)
    as (outcome & Ho & _).
  exists outcome. split; [exact Ho|]. vm_compute in Ho. injection Ho as <-. vm_compute. reflexivity.
Defined.
