(* ===== verification/CourseFacts.v ===== *)
(** * Course search

    A course is found when one of its variants is admitted, a variant when its
    own filters are and, with a section filter active, one of its sections is.
    Materialization evaluates again what the search evaluated and shows exactly
    those variants and sections, in the order of the catalog. *)

From S2P Require Import Prelude Ordering Identity RustStr Contracts CatalogData Match Filters.
From S2P Require Import FilterFacts Predicates PredicateFacts Corpus CatalogSamples CorpusFacts PreparedFacts QueryEngine.
From S2P Require Import QueryFacts.

Section built_courses.
Context `{KeyHash} (catalogs : list NormalizedCatalogV1) (Hval : catalogs_valid catalogs).
Context (open : gmap SectionKey LiveOpenEvidenceV1) (now : OffsetDateTime).
Context (filters : NormalizedFilterValuesV1) (text_hits : option TextHitPlan).
#[local] Abbreviation engine := (built_engine catalogs open now).

(** The witness of a variant, as the search computes it. *)
Lemma variant_witness v :
  v ∈ all_variants catalogs →
  ∃ ss es, ec_sections_for (qe_corpus engine) v = Some ss ∧
    mapM (λ s, section_evaluation engine s filters) ss = Some es ∧
    Forall2 (λ s ef, section_evaluation engine s filters = Some ef) ss es ∧ Forall evaluated_ok es ∧
    (∀ s, s ∈ ss ↔ s ∈ all_sections catalogs ∧ nse_variant_key s = ncv_key v) ∧
    ((section_witness (admitted_evaluations es)).2 = true ↔
       ∃ s, s ∈ all_sections catalogs ∧ nse_variant_key s = ncv_key v ∧ section_admitted engine filters s) ∧
    ((section_witness (admitted_evaluations es)).2 = true →
       included (section_witness (admitted_evaluations es)).1).
Proof.
  intros Hv. destruct (sections_of_variant catalogs Hval open now v Hv) as (ss & Hss & _ & Hin).
  destruct (sections_evaluated catalogs Hval open now ss filters) as (es & Hes & Hok & H2); [by intros s [? _]%Hin|].
  destruct (admitted_evaluations_spec catalogs open now ss es filters H2 Hok) as [Hinc Hne].
  exists ss, es. split_and!; try done.
  - unfold section_witness. case_bool_decide as Hn; simpl.
    + split; [done|]. intros (s & Hs & Hk & Ha). destruct (proj2 Hne); [|done]. exists s. by rewrite Hin.
    + split; [|done]. intros _. destruct (proj1 Hne Hn) as (s & [? ?]%Hin & ?). eauto.
  - unfold section_witness. case_bool_decide as Hn; simpl; [done|]. intros _. by apply included_or.
Qed.

Lemma variant_step_spec g v facts :
  v ∈ all_variants catalogs → cvk_group (ncv_key v) = ncg_key g →
  ∃ facts', variant_step engine filters text_hits g facts v = Some facts' ∧
    (variant_admitted engine catalogs filters text_hits v ∧
       (∃ e, included e ∧ gf_variant_evaluations facts' = gf_variant_evaluations facts ++ [e]) ∨
     ¬ variant_admitted engine catalogs filters text_hits v ∧ facts' = facts).
Proof.
  intros Hv Hg. unfold variant_step, variant_admitted, course_admitted. rewrite Hg.
  destruct (course_evaluation_total (ncg_key g) v filters text_hits) as (course & Hc & Hcok).
  rewrite Hc. cbn [mbind option_bind].
  assert (∀ w : PredicateEvaluation * bool, (w.2 = true ↔ (section_filters_active filters = true →
      ∃ s, s ∈ all_sections catalogs ∧ nse_variant_key s = ncv_key v ∧ section_admitted engine filters s)) →
    (w.2 = true → included w.1) →
    ∃ facts', Some (if ef_admitted course && w.2 then {|
       gf_variant_evaluations := gf_variant_evaluations facts ++ [and_all [ef_evaluation course; w.1]];
       gf_best_rank := match text_rank text_hits (ncv_key v) with
         | Some rank => Z.min (gf_best_rank facts) rank | None => gf_best_rank facts end;
       gf_title := better_title (gf_title facts)
         (title ← known_string (ncv_title v); guard (title ≠ "");; Some title) |} else facts) = Some facts' ∧
    (((∃ ef, Some course = Some ef ∧ ef_admitted ef = true) ∧ (section_filters_active filters = true →
        ∃ s, s ∈ all_sections catalogs ∧ nse_variant_key s = ncv_key v ∧ section_admitted engine filters s)) ∧
      (∃ e, included e ∧ gf_variant_evaluations facts' = gf_variant_evaluations facts ++ [e]) ∨
     ¬ ((∃ ef, Some course = Some ef ∧ ef_admitted ef = true) ∧ (section_filters_active filters = true →
        ∃ s, s ∈ all_sections catalogs ∧ nse_variant_key s = ncv_key v ∧ section_admitted engine filters s)) ∧
      facts' = facts)) as Hgoal.
  { intros w Hw Hinc. eexists. split; [reflexivity|]. rewrite <-Hw.
    destruct (ef_admitted course) eqn:Ac; cbn [andb]; [|right; split; [|done]; by intros [(ef & [= <-] & ?) _]; congruence].
    destruct w.2 eqn:Ew; [left|right; split; [by intros [_ ?]|done]]. split; [eauto|].
    eexists. split; [|reflexivity]. apply included_and; [by apply evaluated_included|by apply Hinc]. }
  destruct (section_filters_active filters) eqn:Ef; cbn [mbind option_bind].
  - destruct (variant_witness v Hv) as (ss & es & Hss & Hes & _ & _ & _ & Hw & Hinc).
    cbn [qe_corpus built_engine ec_sections_for] in *. rewrite Hss. cbn [mbind option_bind].
    change {| qe_corpus := _ |} with engine. rewrite Hes. cbn [mbind option_bind].
    apply (Hgoal (section_witness (admitted_evaluations es))); [|done]. rewrite Hw. naive_solver.
  - apply (Hgoal (matched, true)); [done|]. intros _. apply included_matched.
Qed.

Lemma variants_loop_spec g vs facts :
  (∀ v, v ∈ vs → v ∈ all_variants catalogs ∧ cvk_group (ncv_key v) = ncg_key g) →
  ∃ facts' es, variants_loop engine filters text_hits g facts vs = Some facts' ∧
    gf_variant_evaluations facts' = gf_variant_evaluations facts ++ es ∧ Forall included es ∧
    (es ≠ [] ↔ ∃ v, v ∈ vs ∧ variant_admitted engine catalogs filters text_hits v).
Proof.
  revert facts. induction vs as [|v vs IH]; intros facts Hvs.
  { exists facts, []. rewrite app_nil_r. split_and!; [done..|]. split; [done|]. by intros (v & ?%elem_of_nil & _). }
  destruct (Hvs v ltac:(left)) as [Hv Hg]. cbn [variants_loop].
  destruct (variant_step_spec g v facts Hv Hg) as (facts1 & -> & Hstep). cbn [mbind option_bind].
  destruct (IH facts1) as (facts' & es & -> & Hes & Hinc & Hiff); [intros; apply Hvs; by right|].
  destruct Hstep as [[Ha (e & He & Heq)]|[Hna ->]].
  - exists facts', (e :: es). rewrite Hes, Heq, <-app_assoc. split_and!; [done..|by constructor|].
    split; [|done]. intros _. exists v. split; [left|done].
  - exists facts', es. split_and!; [done..|]. rewrite Hiff. split; [intros (u & ? & ?); exists u; split; [by right|done]|].
    intros (u & [->|Hu]%elem_of_cons & Ha); [done|eauto].
Qed.

(** The variants of a group are those that belong to it. *)
Lemma variants_of_group g :
  g ∈ all_groups catalogs →
  ∃ vs, ec_variants_for (qe_corpus engine) g = Some vs ∧ ncv_key <$> vs = ncg_variant_keys g ∧
    ∀ v, v ∈ vs ↔ v ∈ all_variants catalogs ∧ cvk_group (ncv_key v) = ncg_key g.
Proof.
  intros Hg. destruct (variants_for_total _ Hval g Hg) as (vs & Hvs & Hk & Hin).
  exists vs. split_and!; [done..|]. intros v. split.
  - intros Hv. split; [by apply Hin|]. apply (cv_group _ Hval g Hg). rewrite <-Hk. by apply list_elem_of_fmap_2.
  - intros [Hv Hgv]. destruct (cv_variant _ Hval v Hv) as [(g' & Hg' & Hk' & Hv') _].
    pose proof (cv_entities _ Hval) as He.
    assert (g' = g) as ->.
    { assert (cc_groups (corpus_of catalogs) !! ncg_key g = Some g) as H1 by (by apply group_lookup).
      assert (cc_groups (corpus_of catalogs) !! ncg_key g = Some g') as H2
        by (apply group_lookup; [done|split; [done|congruence]]). congruence. }
    rewrite <-Hk in Hv'. apply list_elem_of_fmap in Hv' as (v' & Heq & Hv').
    assert (v' = v) as ->; [|done].
    assert (cc_variants (corpus_of catalogs) !! ncv_key v = Some v) as H1 by (by apply variant_lookup).
    assert (cc_variants (corpus_of catalogs) !! ncv_key v = Some v') as H2
      by (apply variant_lookup; [done|split; [by apply Hin|done]]). congruence.
Qed.

Record course_candidate_of (g : NormalizedCourseGroupV1) (c : CourseCandidate) : Prop := {
  cd_group : ccd_group c = g;
  cd_included : included (ccd_evaluation c)
}.

Lemma course_candidates_spec g :
  g ∈ all_groups catalogs →
  ∃ cs, course_candidates engine filters text_hits g = Some cs ∧
    (cs = [] ∧ ¬ course_returned engine catalogs filters text_hits g ∨
     ∃ c, cs = [c] ∧ course_returned engine catalogs filters text_hits g ∧ course_candidate_of g c).
Proof.
  intros Hg. unfold course_candidates, course_returned. rewrite built_group_active by done. cbn [negb].
  destruct (variants_of_group g Hg) as (vs & Hvs & _ & Hin). rewrite Hvs. cbn [mbind option_bind].
  destruct (variants_loop_spec g vs {| gf_variant_evaluations := []; gf_best_rank := u32_max; gf_title := None |})
    as (facts & es & -> & Hes & Hinc & Hiff); [by intros v ?%Hin|]. cbn [mbind option_bind].
  simpl in Hes. rewrite Hes. cbv zeta. eexists. split; [reflexivity|]. unfold or_nonempty.
  destruct (decide (es = [])) as [Hn|Hn].
  - left. rewrite Hn. split; [reflexivity|].
    intros (_ & v & Hv & Hgv & Ha). apply (proj2 Hiff); [|done]. exists v. split; [by apply Hin|done].
  - right. destruct (included_or es Hn Hinc) as [Hvalid Hno]. rewrite (bool_decide_eq_false_2 (es = [])) by done.
    rewrite bool_decide_eq_true_2 by done.
    eexists. split; [reflexivity|]. split; [|by split].
    split; [done|]. destruct (proj1 Hiff Hn) as (v & [? ?]%Hin & ?). eauto.
Qed.

(** *** Materialization *)

Lemma mapM_compose {A B C} (f : A → option B) (g : B → option C) l k :
  Forall2 (λ x y, f x = Some y) l k → mapM g k = mapM (λ x, f x ≫= g) l.
Proof. induction 1 as [|x y l k Hf _ IH]; [done|]. simpl. rewrite Hf. simpl. by rewrite IH. Qed.

(** The sections a variant of an admitted course shows. *)
Definition variant_item_of (active : bool) (item : CourseVariantQueryItemV1) : Prop :=
  nse_key <$> (si_section <$> vi_sections item) `sublist_of` ncv_section_keys (vi_variant item) ∧
  ∀ s, s ∈ si_section <$> vi_sections item ↔
    s ∈ all_sections catalogs ∧ nse_variant_key s = ncv_key (vi_variant item) ∧
    (active = true → section_admitted engine filters s).

Lemma shown_sections course active ss ps :
  evaluated_ok course → (∀ s, s ∈ ss → s ∈ all_sections catalogs) →
  Forall2 (λ s p, section_item engine s filters = Some p) ss ps →
  ∃ shown, mapM (shown_section course active) ps = Some shown ∧
    si_section <$> omap id shown `sublist_of` ss ∧
    ∀ s, s ∈ si_section <$> omap id shown ↔
      s ∈ ss ∧ (active = true → section_admitted engine filters s).
Proof.
  intros [Hcv _] Hss Hps.
  rewrite (mapM_compose _ (shown_section course active) ss ps Hps).
  destruct (shown_of_entities (λ s, section_item engine s filters ≫= shown_section course active) si_section
    (λ s, active = true → section_admitted engine filters s) (λ _ _, True) ss) as (shown & ? & ? & _ & ?); [|eauto].
  intros s Hs. destruct (built_section_evaluation catalogs Hval open now s filters (Hss s Hs)) as (ef & Hef & Hok).
  destruct (built_section_item catalogs open now s filters ef (Hss s Hs) Hef Hok) as (item & -> & Hi & _).
  cbn [mbind option_bind]. unfold shown_section. cbn [fst snd].
  assert (section_admitted engine filters s ↔ ef_admitted ef = true) as Hadm
    by (split; [intros (ef' & Hef' & ?); congruence|by exists ef]).
  setoid_rewrite Hadm.
  rewrite (proj1 (into_explanation_valid _))
    by (apply and_all_valid, Forall_cons; split; [done|]; apply Forall_cons; split; [apply Hok|constructor]).
  cbn [mbind option_bind]. destruct active, (ef_admitted ef); cbn [andb negb]; eexists; (split; [reflexivity|]);
    [right|left|right|right]; try (split; [done|]; intros Hno; by discriminate Hno); eauto 10.
Qed.

Lemma materialize_variant_spec g v exact :
  v ∈ all_variants catalogs → cvk_group (ncv_key v) = ncg_key g →
  ∃ r, materialize_variant engine filters text_hits (section_filters_active filters) g exact v = Some r ∧
    (r = None ∧ ¬ variant_admitted engine catalogs filters text_hits v ∨
     ∃ item, r = Some item ∧ variant_admitted engine catalogs filters text_hits v ∧ vi_variant item = v ∧
       variant_item_of (section_filters_active filters) item).
Proof.
  intros Hv Hg. unfold materialize_variant, variant_admitted, course_admitted. rewrite Hg.
  destruct (course_evaluation_total (ncg_key g) v filters text_hits) as (course & Hc & Hcok).
  rewrite Hc. cbn [mbind option_bind].
  destruct (variant_witness v Hv) as (ss & es & Hss & _ & H2 & Hok & Hin & Hw & Hinc).
  destruct (sections_of_variant catalogs Hval open now v Hv) as (ss' & Hss' & Hkeys & _).
  assert (ss' = ss) as -> by congruence. clear Hss'.
  rewrite Hss. cbn [mbind option_bind].
  assert (∃ ps, Forall2 (λ s p, section_item engine s filters = Some p) ss ps ∧ ps.*2 = es) as (ps & Hps & Hpes).
  { assert (∀ s, s ∈ ss → s ∈ all_sections catalogs) as Hall by (by intros s [? _]%Hin).
    clear -H2 Hok Hall. induction H2 as [|s ef ss es Hef H2 IH]; [by exists []|].
    apply Forall_cons in Hok as [Hef' Hok]. destruct IH as (ps & Hps & <-); [done|by intros; apply Hall; right|].
    destruct (built_section_item catalogs open now s filters ef (Hall s ltac:(left)) Hef Hef') as (item & Hi & _).
    exists ((item, ef) :: ps). split; [by constructor|done]. }
  rewrite (proj2 (mapM_Some _ _ _) Hps). cbn [mbind option_bind]. cbv zeta. rewrite Hpes.
  destruct (shown_sections course (section_filters_active filters) ss ps Hcok) as (shown & Hshown & Hsub & Hsh);
    [by intros s [? _]%Hin|done|].
  set (w := if section_filters_active filters then _ else _).
  assert ((w.2 = true ↔ (section_filters_active filters = true → ∃ s, s ∈ all_sections catalogs ∧
    nse_variant_key s = ncv_key v ∧ section_admitted engine filters s)) ∧ (w.2 = true → included w.1)) as [Hw2 Hwi].
  { subst w. destruct (section_filters_active filters).
    - split; [rewrite Hw; naive_solver|done].
    - split; [done|intros _; apply included_matched]. }
  setoid_rewrite <-Hw2.
  destruct (ef_admitted course) eqn:Ac; cbn [negb orb].
  2:{ eexists. split; [reflexivity|]. left. split; [done|]. intros [(ef & [= <-] & ?) _]. congruence. }
  destruct w.2 eqn:Ew; cbn [negb].
  2:{ eexists. split; [reflexivity|]. left. split; [done|]. by intros [_ ?]. }
  rewrite Hshown. cbn [mbind option_bind].
  rewrite (proj1 (into_explanation_valid _))
    by (apply included_and; [by apply evaluated_included|by apply Hwi]).
  cbn [mbind option_bind]. eexists. split; [reflexivity|]. right. eexists. split; [reflexivity|].
  split; [eauto|]. split; [done|]. unfold variant_item_of. cbn [vi_sections vi_variant]. split.
  - rewrite <-Hkeys. by apply fmap_sublist.
  - intros s. rewrite Hsh, Hin. tauto.
Qed.

(** What a course item shows. *)
Definition course_item_of (item : CourseQueryItemV1) (c : CourseCandidate) : Prop :=
  ci_group item = ccd_group c ∧
  me_outcome (ci_explanation item) = pe_outcome (ccd_evaluation c) ∧
  me_outcome (ci_explanation item) ≠ MatchOutcome_NoMatch ∧
  ncv_key <$> (vi_variant <$> ci_variants item) `sublist_of` ncg_variant_keys (ci_group item) ∧
  (∀ v, v ∈ vi_variant <$> ci_variants item ↔
     v ∈ all_variants catalogs ∧ cvk_group (ncv_key v) = ncg_key (ci_group item) ∧
     variant_admitted engine catalogs filters text_hits v) ∧
  Forall (variant_item_of (section_filters_active filters)) (ci_variants item).

Lemma materialize_course_spec g c :
  g ∈ all_groups catalogs → course_candidate_of g c →
  ∃ item, materialize_course_candidate engine filters text_hits (section_filters_active filters) c = Some item ∧
    course_item_of item c.
Proof.
  intros Hg [Hcg [Hv Hno]]. unfold materialize_course_candidate. rewrite Hcg.
  destruct (variants_of_group g Hg) as (vs & Hvs & Hkeys & Hin). rewrite Hvs. cbn [mbind option_bind].
  destruct (shown_of_entities (materialize_variant engine filters text_hits (section_filters_active filters) g
    (ccd_exact_identifier c)) vi_variant (variant_admitted engine catalogs filters text_hits)
    (λ _ item, variant_item_of (section_filters_active filters) item) vs) as (rs & Hrs & Hsub & Hgood & Hsh).
  { intros v [Hall Hvg]%Hin. by apply materialize_variant_spec. }
  rewrite Hrs. cbn [mbind option_bind]. rewrite (proj1 (into_explanation_valid _) Hv). cbn [mbind option_bind].
  eexists. split; [reflexivity|]. unfold course_item_of. cbn [ci_group ci_explanation ci_variants me_outcome].
  split_and!; [done..| | |].
  - rewrite <-Hkeys. by apply fmap_sublist.
  - intros v. rewrite Hsh, Hin. tauto.
  - by apply Forall_forall.
Qed.

Lemma group_values_NoDup : NoDup (cc_iter_groups (corpus_of catalogs)).
Proof.
  unfold cc_iter_groups. apply (NoDup_fmap_1 ncg_key). rewrite btm_values_keys; [apply NoDup_btm_keys|].
  by intros k g [_ ?]%group_lookup; [|apply Hval].
Qed.

Lemma course_search_candidates :
  ∃ css, mapM (course_candidates engine filters text_hits) (cc_iter_groups (corpus_of catalogs)) = Some css ∧
    NoDup (ccd_group <$> mjoin css) ∧
    (∀ c, c ∈ mjoin css → ccd_group c ∈ all_groups catalogs ∧ course_candidate_of (ccd_group c) c) ∧
    (∀ g, g ∈ ccd_group <$> mjoin css ↔ course_returned engine catalogs filters text_hits g).
Proof.
  destruct (candidates_of_entities (course_candidates engine filters text_hits) ccd_group
    (course_returned engine catalogs filters text_hits) course_candidate_of
    (cc_iter_groups (corpus_of catalogs))) as (css & Hcss & Hsub & Hof & Hin).
  { intros g Hg%elem_of_group_values; [|apply Hval].
    destruct (course_candidates_spec g Hg) as (cs & Hcs & Hcase). exists cs. split; [done|].
    destruct Hcase as [?|(c & -> & Hr & Hof)]; [by left|]. right. exists c.
    split_and!; [done..|apply Hof|done]. }
  exists css. split_and!; [done|eapply sublist_NoDup; [apply group_values_NoDup|done]| |].
  - intros c Hc. split; [|by apply Hof]. apply (list_elem_of_fmap_2 ccd_group) in Hc as [Hg _]%Hin.
    by apply elem_of_group_values in Hg; [|apply Hval].
  - intros g. rewrite Hin. unfold cc_iter_groups. rewrite elem_of_group_values by apply Hval.
    split; [by intros []|]. intros Hr. split; [apply Hr|done].
Qed.

End built_courses.

Lemma group_keys_unique catalogs (l : list CourseCandidate) :
  catalogs_valid catalogs → (∀ c, c ∈ l → ccd_group c ∈ all_groups catalogs) →
  NoDup (ccd_group <$> l) → NoDup ((λ c, ncg_key (ccd_group c)) <$> l).
Proof.
  intros Hval Hl Hnd. rewrite (list_fmap_compose ccd_group ncg_key). apply NoDup_fmap_2_strong; [|done].
  intros g g' (c & -> & Hc)%list_elem_of_fmap (c' & -> & Hc')%list_elem_of_fmap Hk.
  pose proof (cv_entities _ Hval) as He.
  assert (cc_groups (corpus_of catalogs) !! ncg_key (ccd_group c) = Some (ccd_group c)) as H1
    by (apply group_lookup; [done|by split; [apply Hl|]]).
  assert (cc_groups (corpus_of catalogs) !! ncg_key (ccd_group c) = Some (ccd_group c')) as H2
    by (apply group_lookup; [done|by split; [apply Hl|]]). congruence.
Qed.

(** A search on the engine of valid catalogs. *)
Lemma built_course_search `{KeyHash} (catalogs : list NormalizedCatalogV1) (open : gmap SectionKey LiveOpenEvidenceV1)
    (now : OffsetDateTime) (request : CourseQueryRequestV1) (text_hits : option TextHitPlan) :
  catalogs_valid catalogs →
  ∃ outcome, course_search (built_engine catalogs open now) request text_hits = Some outcome ∧
    ∀ response, outcome = Ok response →
    ∃ candidates : list CourseCandidate,
      StronglySorted (λ l r, compare_course (cq_sort request) l r = Lt) candidates ∧
      NoDup (ccd_group <$> candidates) ∧
      (∀ g, g ∈ ccd_group <$> candidates ↔
         course_returned (built_engine catalogs open now) catalogs (fr_values (cq_filters request)) text_hits g) ∧
      cqr_page response = (paginate candidates (cq_page request)).1 ∧
      Forall2  (course_item_of catalogs open now (fr_values (cq_filters request)) text_hits)
        (cqr_items response) (paginate candidates (cq_page request)).2.
Proof.
  intros Hval. set (filters := fr_values (cq_filters request)).
  destruct (course_search_candidates catalogs Hval open now filters text_hits) as (css & Hcss & Hnd & Hof & Hret).
  set (candidates := sort_by (compare_course (cq_sort request)) (mjoin css)).
  assert (∀ c, c ∈ candidates ↔ c ∈ mjoin css) as Hin by (intros c; apply elem_of_sort_by; apply _).
  destruct (choose_list (λ c item,
    materialize_course_candidate (built_engine catalogs open now) filters text_hits
      (section_filters_active filters) c = Some item ∧
    course_item_of catalogs open now filters text_hits item c) (paginate candidates (cq_page request)).2)
    as [shown Hshown].
  { intros c Hc%elem_of_page%Hin. destruct (Hof c Hc) as [Hg Hcand].
    by apply (materialize_course_spec catalogs Hval open now filters text_hits _ c Hg). }
  assert (mapM (materialize_course_candidate (built_engine catalogs open now) filters text_hits
      (section_filters_active filters)) (paginate candidates (cq_page request)).2 = Some shown) as Hmap
    by (apply mapM_Some; eapply Forall2_impl; [exact Hshown|]; by intros c item [? _]).
  destruct (validated_cases catalogs Hval open now filters text_hits
    (let '(page, candidates) := paginate candidates (cq_page request) in
     items ← mapM (materialize_course_candidate (built_engine catalogs open now) filters text_hits
       (section_filters_active filters)) candidates;
     Some {| cqr_contract_version := QUERY_CONTRACT_VERSION; cqr_page := page; cqr_items := items |})
    {| cqr_contract_version := QUERY_CONTRACT_VERSION; cqr_page := (paginate candidates (cq_page request)).1;
       cqr_items := shown |}) as (outcome & Hout & Hok).
  { rewrite (surjective_pairing (paginate candidates (cq_page request))). rewrite Hmap. done. }
  exists outcome. split.
  { unfold course_search. cbv zeta. cbn [qe_corpus built_engine ec_for_each_group].
    cbn [mbind option_bind]. fold filters.
    change {| qe_corpus := _ |} with (built_engine catalogs open now). rewrite Hcss. exact Hout. }
  intros response ->%Hok. exists candidates. split_and!; [| | |done|].
  - apply (sort_by_strict_key _ (λ c, ncg_key (ccd_group c))); [apply compare_course_key|].
    apply (group_keys_unique catalogs _ Hval); [|done]. intros c Hc. by apply Hof.
  - unfold candidates. by rewrite (sort_by_perm (compare_course (cq_sort request)) (mjoin css)).
  - intros g. rewrite <-Hret. unfold candidates.
    by rewrite (sort_by_perm (compare_course (cq_sort request)) (mjoin css)).
  - cbn [cqr_items]. apply Forall2_flip. eapply Forall2_impl; [exact Hshown|].
    by intros c item [_ ?].
Qed.

(** C1. Course search: on an engine built from validated catalogs it never
    panics, and an accepted request returns one page of the strictly sorted
    courses, which are exactly those with a variant the filters admit; the item
    of a course shows, in catalog order, exactly its admitted variants and, when
    a section filter is active, exactly their admitted sections, although
    materialization evaluates everything a second time. *)
Theorem course_search_spec `{KeyHash} (catalogs : list NormalizedCatalogV1) (now : OffsetDateTime)
    (items : list OpenEvidence) (engine : QueryEngine) (request : CourseQueryRequestV1)
    (text_hits : option TextHitPlan) :
  QueryEngine_try_new_from_refs catalogs now items = Ok engine →
  ∃ outcome, course_search engine request text_hits = Some outcome ∧
    ∀ response, outcome = Ok response →
    ∃ candidates : list CourseCandidate,
      StronglySorted (λ l r, compare_course (cq_sort request) l r = Lt) candidates ∧
      NoDup (ccd_group <$> candidates) ∧
      (∀ g, g ∈ ccd_group <$> candidates ↔
         course_returned engine catalogs (fr_values (cq_filters request)) text_hits g) ∧
      cqr_page response = (paginate candidates (cq_page request)).1 ∧
      Forall2 (λ item c, ∃ open, engine = built_engine catalogs open now ∧
          course_item_of catalogs open now (fr_values (cq_filters request)) text_hits item c)
        (cqr_items response) (paginate candidates (cq_page request)).2.
Proof.
  intros (Hval & open & _ & ->)%try_new_built.
  destruct (built_course_search catalogs open now request text_hits Hval) as (outcome & Hout & Hspec).
  exists outcome. split; [done|]. intros response Hr.
  destruct (Hspec response Hr) as (candidates & Hs & Hnd & Hret & Hpage & Hitems). exists candidates.
  split_and!; [done..|]. eapply Forall2_impl; [exact Hitems|]. intros item c Hc. by exists open.
Qed.

#[local] Existing Instance sample_hash.

Lemma course_search_spec_witness :
  ∃ outcome, course_search (built_engine [sample_catalog] ∅ 0) sample_course_request None = Some outcome ∧
    match outcome with
    | Ok response => (λ item, (λ v, length (vi_sections v)) <$> ci_variants item) <$> cqr_items response = [[2%nat]]
    | Err _ => False
    end.
Proof.
  destruct (course_search_spec [sample_catalog] 0 [] _ sample_course_request None sample_engine_Ok)
    as (outcome & Ho & _).
  exists outcome. split; [exact Ho|]. vm_compute in Ho. injection Ho as <-. vm_compute. reflexivity.
Defined.
