(* ===== verification/OverlayFacts.v ===== *)
(** * Open overlays and the binding of prepared requests

    The overlay of a target is an exact index of its evidence whatever the hash
    function, it is built exactly from the distinct sections of its target, and
    a prepared engine is bound exactly to known targets with one overlay each. *)

From S2P Require Import Prelude Ordering Identity RustStr Contracts CatalogData Match Filters.
From S2P Require Import FilterFacts Predicates Corpus CatalogSamples CorpusFacts PreparedFacts QueryEngine.

(** ** The index of an overlay *)

Definition open_bucket_of (entities : list nat) : option OpenIndexBucket :=
  match entities with
  | [] => None
  | [entity] => Some (OpenIndexBucket_One entity)
  | _ => Some (OpenIndexBucket_Many entities)
  end.

Lemma positions_snoc {K} (hash : K → Z) start keys key h :
  positions_from hash start (keys ++ [key]) h =
    positions_from hash start keys h ++ (if bool_decide (hash key = h) then [start + length keys] else [])%nat.
Proof.
  revert start. induction keys as [|k keys IH]; intros start; simpl.
  - by rewrite Nat.add_0_r.
  - rewrite IH, Nat.add_succ_r. by destruct (bool_decide (hash k = h)).
Qed.

(** Some position of the hash of a key has the key exactly when the key occurs. *)
Lemma same_section_positions hash (before values : list OpenEvidence) (rest : list OpenEvidence) key :
  existsb (same_section (before ++ values ++ rest) key)
    (positions_from hash (length before) (oe_section_key <$> values) (hash key))
  = bool_decide (key ∈ oe_section_key <$> values).
Proof.
  revert before. induction values as [|v values IH]; intros before; [done|].
  rewrite fmap_cons. cbn [positions_from].
  assert (existsb (same_section (before ++ (v :: values) ++ rest) key)
    (positions_from hash (S (length before)) (oe_section_key <$> values) (hash key))
    = bool_decide (key ∈ oe_section_key <$> values)) as Hrest.
  { specialize (IH (before ++ [v])). rewrite length_app in IH. simpl in IH.
    rewrite Nat.add_1_r in IH. rewrite <-IH, <-app_assoc. done. }
  assert (same_section (before ++ (v :: values) ++ rest) key (length before)
    = bool_decide (oe_section_key v = key)) as Hhere.
  { unfold same_section. simpl. by rewrite list_lookup_middle. }
  destruct (decide (oe_section_key v = key)) as [Hk|Hk].
  - rewrite (bool_decide_eq_true_2 (hash _ = _)) by congruence. simpl. simpl in Hhere.
    rewrite Hhere, bool_decide_eq_true_2 by done. symmetry. apply bool_decide_eq_true_2. rewrite Hk. left.
  - assert (bool_decide (key ∈ oe_section_key v :: (oe_section_key <$> values))
      = bool_decide (key ∈ oe_section_key <$> values)) as ->.
    { apply bool_decide_ext. rewrite elem_of_cons. naive_solver. }
    destruct (bool_decide (hash (oe_section_key v) = hash key)); [|done].
    simpl in *. by rewrite Hhere, bool_decide_eq_false_2.
Qed.

Lemma insert_open_bucket (index : gmap Z OpenIndexBucket) (at_hash : Z → list nat) hash entity bucket :
  (∀ h, index !! h = open_bucket_of (at_hash h)) → open_bucket_of (at_hash hash ++ [entity]) = Some bucket →
  ∀ h, <[hash := bucket]> index !! h =
    open_bucket_of (at_hash h ++ (if bool_decide (hash = h) then [entity] else [])).
Proof.
  intros Hindex Hb h. destruct (decide (hash = h)) as [<-|Hh].
  - by rewrite bool_decide_eq_true_2, lookup_insert_eq.
  - by rewrite bool_decide_eq_false_2, lookup_insert_ne, Hindex, app_nil_r.
Qed.

(** Building the index: it fails exactly on a repeated section. *)
Lemma open_index_from_spec hash (before items : list OpenEvidence) index :
  (∀ h, index !! h = open_bucket_of (positions_from hash 0 (oe_section_key <$> before) h)) →
  NoDup (oe_section_key <$> before) →
  match open_index_from hash (before ++ items) (length before) items index with
  | Ok index' => NoDup (oe_section_key <$> before ++ items) ∧
      ∀ h, index' !! h = open_bucket_of (positions_from hash 0 (oe_section_key <$> before ++ items) h)
  | Err e => e = QueryError_DuplicateOpenEvidence ∧ ¬ NoDup (oe_section_key <$> before ++ items)
  end.
Proof.
  revert before index. induction items as [|item items IH]; intros before index Hindex Hnd.
  { simpl. rewrite app_nil_r. done. }
  cbn [open_index_from]. cbv zeta. set (key := oe_section_key item).
  assert (∀ index', (∀ h, index' !! h = open_bucket_of (positions_from hash 0 (oe_section_key <$> before) h ++
      (if bool_decide (hash key = h) then [length before] else []))) → key ∉ oe_section_key <$> before →
    match open_index_from hash (before ++ item :: items) (S (length before)) items index' with
    | Ok index' => NoDup (oe_section_key <$> before ++ item :: items) ∧
        ∀ h, index' !! h = open_bucket_of (positions_from hash 0 (oe_section_key <$> before ++ item :: items) h)
    | Err e => e = QueryError_DuplicateOpenEvidence ∧ ¬ NoDup (oe_section_key <$> before ++ item :: items)
    end) as Hnext.
  { intros index' Hindex' Hk. specialize (IH (before ++ [item]) index').
    rewrite <-app_assoc, length_app in IH. simpl in IH. rewrite Nat.add_1_r in IH. apply IH.
    - intros h. rewrite Hindex', fmap_app. change (oe_section_key <$> [item]) with [key].
      by rewrite positions_snoc, length_fmap.
    - rewrite fmap_app. apply NoDup_app. split_and!; [done| |apply NoDup_singleton].
      intros k Hin ->%list_elem_of_singleton. done. }
  assert (existsb (same_section (before ++ item :: items) key)
    (positions_from hash 0 (oe_section_key <$> before) (hash key))
    = bool_decide (key ∈ oe_section_key <$> before)) as Hdup
    by apply (same_section_positions hash [] before (item :: items)).
  assert (key ∈ oe_section_key <$> before → ¬ NoDup (oe_section_key <$> before ++ item :: items)) as Hrepeated.
  { intros Hin. rewrite fmap_app, fmap_cons. intros (_ & Hdis & _)%NoDup_app. apply (Hdis key Hin). left. }
  rewrite Hindex. destruct (positions_from hash 0 (oe_section_key <$> before) (hash key)) as [|i [|j l]] eqn:E;
    cbn [open_bucket_of].
  - apply Hnext; [|by simpl in Hdup; symmetry in Hdup; apply bool_decide_eq_false in Hdup].
    apply insert_open_bucket; [done|by rewrite E].
  - simpl in Hdup. rewrite orb_false_r in Hdup. rewrite Hdup. case_bool_decide as Hin; [by auto|].
    apply Hnext; [|done]. apply insert_open_bucket; [done|by rewrite E].
  - rewrite Hdup. case_bool_decide as Hin; [by auto|].
    apply Hnext; [|done]. apply insert_open_bucket; [done|by rewrite E].
Qed.

(** What an overlay index finds. *)
Lemma overlay_index_get hash evidence index key :
  (∀ h, index !! h = open_bucket_of (positions_from hash 0 (oe_section_key <$> evidence) h)) →
  lookup_open_evidence_with_hasher index evidence key hash
    = Some (oe_evidence <$> first_with oe_section_key key evidence).
Proof.
  intros Hindex.
  pose proof (find_index_positions oe_section_key hash [] evidence key ltac:(by intros v ?%elem_of_nil)) as Hf.
  cbn [app length] in Hf.
  assert (∀ found : option (option nat),
    (found ≫= λ found, match found with
     | None => Some None
     | Some entity => evidence !! entity ≫= λ item, Some (Some (oe_evidence item)) end)
    = fmap (M:=option) oe_evidence <$> (found ≫= λ found, match found with
     | None => Some None
     | Some entity => evidence !! entity ≫= λ item, Some (Some item) end)) as Hmap.
  { intros [[entity|]|]; simpl; [|done..].
    by destruct (evidence !! entity). }
  unfold lookup_open_evidence_with_hasher. rewrite Hindex.
  destruct (positions_from hash 0 (oe_section_key <$> evidence) (hash key)) as [|i [|j l]];
    cbn [open_bucket_of]; [|by rewrite Hmap, Hf..].
  simpl in Hf. by injection Hf as <-.
Qed.

(** ** Building an overlay *)

Section overlays.
Context `{KeyHash} (catalogs : list NormalizedCatalogV1) (corpus : PreparedCatalogCorpus).
Context (Hval : catalogs_valid catalogs) (Hpo : prepared_of catalogs corpus).

(** Evidence of a section of the target. *)
Definition evidence_of_target (target : TermCampusKey) (item : OpenEvidence) : Prop :=
  sk_target (oe_section_key item) = target ∧ oe_section_key item ∈ nse_key <$> all_sections catalogs.

#[local] Instance evidence_of_target_dec target item : Decision (evidence_of_target target item).
Proof. apply and_dec; apply _. Defined.

Lemma known_version target :
  content_version corpus target = None ↔ target ∉ nca_target <$> catalogs.
Proof.
  unfold content_version. rewrite (po_versions _ _ Hpo). cbn [cc_target_versions corpus_of].
  rewrite target_versions_None, lookup_empty. naive_solver.
Qed.

Lemma overlay_evidence_spec target items :
  overlay_evidence corpus target items =
    Some (if decide (Forall (evidence_of_target target) items) then Ok items
          else Err QueryError_ForeignOpenEvidence).
Proof.
  induction items as [|item items IH]; [by rewrite decide_True by constructor|]. simpl.
  assert (bool_decide (sk_term (oe_section_key item) ≠ tck_term target)
    || bool_decide (sk_campus (oe_section_key item) ≠ tck_campus target)
    = bool_decide (sk_target (oe_section_key item) ≠ target)) as ->.
  { destruct (oe_section_key item) as [t c i], target as [t' c']. unfold sk_target. simpl.
    rewrite <-bool_decide_or. apply bool_decide_ext. split; [by intros [?|?] [=]|].
    intros Hne. destruct (decide (t = t')) as [->|]; [|by left]. right. congruence. }
  case_bool_decide as Ht.
  { rewrite decide_False; [done|]. intros [[? _] _]%Forall_cons. done. }
  rewrite (pc_section_eq _ _ Hval Hpo). cbn [mbind option_bind].
  destruct (cc_sections (corpus_of catalogs) !! oe_section_key item) as [s|] eqn:E.
  - rewrite IH. cbn [mbind option_bind]. apply section_lookup in E as [Hs Hk]; [|apply Hval].
    assert (evidence_of_target target item) as Hitem.
    { split; [by destruct (decide (sk_target (oe_section_key item) = target))|].
      rewrite <-Hk. by apply list_elem_of_fmap_2. }
    destruct (decide (Forall _ items)) as [Hall|Hall]; simpl.
    + by rewrite decide_True by (by constructor).
    + rewrite decide_False; [done|]. by intros [_ ?]%Forall_cons.
  - rewrite decide_False; [done|]. intros [[_ Hin] _]%Forall_cons. cbn [cc_sections corpus_of] in E.
    apply eq_None_not_Some in E. apply E. by apply keyed_is_Some.
Qed.

(** What an overlay of a target is. *)
Record overlay_of (target : TermCampusKey) (items : list OpenEvidence) (overlay : PreparedOpenOverlay) : Prop := {
  ov_known : target ∈ nca_target <$> catalogs;
  ov_items : Forall (evidence_of_target target) items;
  ov_distinct : NoDup (oe_section_key <$> items);
  ov_target : pv_target overlay = target;
  ov_evidence : pv_evidence overlay = items;
  ov_bound : is_bound_to overlay corpus = true;
  ov_get : ∀ key, overlay_get overlay key = Some (oe_evidence <$> first_with oe_section_key key items)
}.

Lemma overlay_try_new target items :
  ∃ result, PreparedOpenOverlay_try_new corpus target items = Some result ∧
  match result with
  | Ok overlay => overlay_of target items overlay
  | Err QueryError_PreparedTargetSetMismatch => target ∉ nca_target <$> catalogs
  | Err QueryError_ForeignOpenEvidence =>
      target ∈ nca_target <$> catalogs ∧ ¬ Forall (evidence_of_target target) items
  | Err QueryError_DuplicateOpenEvidence =>
      target ∈ nca_target <$> catalogs ∧ Forall (evidence_of_target target) items ∧
      ¬ NoDup (oe_section_key <$> items)
  | Err _ => False
  end.
Proof.
  unfold PreparedOpenOverlay_try_new. pose proof (known_version target) as Hknown.
  destruct (content_version corpus target) as [version|] eqn:E; [|eexists; split; [done|]; by apply Hknown].
  assert (target ∈ nca_target <$> catalogs) as Ht
    by (destruct (decide (target ∈ nca_target <$> catalogs)); [done|]; by apply Hknown in n).
  rewrite overlay_evidence_spec. cbn [mbind option_bind]. eexists. split; [reflexivity|].
  destruct (decide (Forall _ items)) as [Hall|Hall]; simpl; [|done].
  pose proof (open_index_from_spec hash_section [] items ∅) as Hindex. simpl in Hindex.
  specialize (Hindex ltac:(done) ltac:(constructor)). unfold build_open_index_with_hasher.
  destruct (open_index_from hash_section items 0 items ∅) as [index|e]; simpl; [|by destruct Hindex as [-> ?]].
  destruct Hindex as [Hnd Hindex]. split; simpl; try done.
  - unfold is_bound_to. simpl. by apply bool_decide_eq_true_2.
  - intros key. unfold overlay_get. simpl. by apply overlay_index_get.
Qed.

(** ** Binding a request *)

Lemma contains_target_iff t : contains_target corpus t = true ↔ t ∈ nca_target <$> catalogs.
Proof.
  unfold contains_target. rewrite bool_decide_eq_true, (po_versions _ _ Hpo). cbn [cc_target_versions corpus_of].
  rewrite <-not_eq_None_Some, target_versions_None, lookup_empty.
  destruct (decide (t ∈ nca_target <$> catalogs)); naive_solver.
Qed.

Lemma known_term t : t ∈ nca_target <$> catalogs → term_str (tck_term t) = pc_term corpus.
Proof.
  intros (c & -> & Hc)%list_elem_of_fmap. rewrite (po_term _ _ Hpo). by apply (cv_term _ Hval c).
Qed.

Lemma unique_targets_spec ts unique :
  match unique_targets corpus ts unique with
  | Ok u => (NoDup ts ∧ ∀ t, t ∈ ts → t ∈ nca_target <$> catalogs ∧ t ∉ unique) ∧
      ∀ t, t ∈ u ↔ t ∈ ts ∨ t ∈ unique
  | Err e => e = QueryError_PreparedTargetSetMismatch ∧
      ¬ (NoDup ts ∧ ∀ t, t ∈ ts → t ∈ nca_target <$> catalogs ∧ t ∉ unique)
  end.
Proof.
  revert unique. induction ts as [|t ts IH]; intros unique; simpl.
  { split; [split; [constructor|by intros t ?%elem_of_nil]|]. intros t. rewrite elem_of_nil. tauto. }
  destruct (bool_decide (term_str (tck_term t) ≠ pc_term corpus) || negb (contains_target corpus t)
    || bool_decide (t ∈ unique)) eqn:E.
  - split; [done|]. intros [_ Hall]. destruct (Hall t ltac:(left)) as [Hk Hu].
    rewrite !orb_true_iff, !bool_decide_eq_true, negb_true_iff in E. destruct E as [[E|E]|E]; [|apply contains_target_iff in Hk; congruence|done].
    by apply E, known_term.
  - rewrite !orb_false_iff, !bool_decide_eq_false, negb_false_iff in E. destruct E as [[_ Hk] Hu].
    apply contains_target_iff in Hk. specialize (IH ({[t]} ∪ unique)).
    destruct (unique_targets corpus ts ({[t]} ∪ unique)) as [u|e].
    + destruct IH as [[Hnd Hall] Hu']. rewrite NoDup_cons. split; [split; [split; [|done]|]|].
      * intros Hin. destruct (Hall t Hin). set_solver.
      * intros t' [->|Hin]%elem_of_cons; [done|]. destruct (Hall t' Hin). set_solver.
      * intros t'. rewrite Hu'. set_solver.
    + destruct IH as [-> Hno]. split; [done|]. intros [[Hnin Hnd]%NoDup_cons Hall]. apply Hno. split; [done|].
      intros t' Hin. destruct (Hall t' ltac:(by right)). set_solver.
Qed.

Lemma overlays_by_target_spec overlays m :
  match overlays_by_target corpus overlays m with
  | Ok m' => (NoDup (pv_target <$> overlays) ∧
        ∀ o, o ∈ overlays → is_bound_to o corpus = true ∧ m !! pv_target o = None) ∧
      ∀ t o, m' !! t = Some o ↔ (o ∈ overlays ∧ pv_target o = t) ∨ m !! t = Some o
  | Err e => e = QueryError_PreparedTargetSetMismatch ∧
      ¬ (NoDup (pv_target <$> overlays) ∧
         ∀ o, o ∈ overlays → is_bound_to o corpus = true ∧ m !! pv_target o = None)
  end.
Proof.
  revert m. induction overlays as [|o overlays IH]; intros m; simpl.
  { split; [split; [constructor|by intros o ?%elem_of_nil]|]. intros t o. rewrite elem_of_nil. tauto. }
  destruct (negb (is_bound_to o corpus) || bool_decide (is_Some (m !! pv_target o))) eqn:E.
  - split; [done|]. intros [_ Hall]. destruct (Hall o ltac:(left)) as [Hb Hm].
    apply orb_true_iff in E as [E%negb_true_iff|[? E]%bool_decide_eq_true]; congruence.
  - apply orb_false_iff in E as [Hb%negb_false_iff Hm%bool_decide_eq_false%eq_None_not_Some].
    specialize (IH (<[pv_target o := o]> m)).
    destruct (overlays_by_target corpus overlays (<[pv_target o := o]> m)) as [m'|e].
    + destruct IH as [[Hnd Hall] Hm']. split; [split; [apply NoDup_cons; split; [|done]|]|].
      * intros (o' & Ht & Hin)%list_elem_of_fmap. destruct (Hall o' Hin) as [_ Hl].
        by rewrite <-Ht, lookup_insert_eq in Hl.
      * intros o' [->|Hin]%elem_of_cons; [done|]. destruct (Hall o' Hin) as [? Hl].
        by apply lookup_insert_None in Hl as [? _].
      * intros t o'. rewrite Hm', lookup_insert_Some, elem_of_cons. split; [naive_solver|].
        intros [[[->|Hin] Ht]|Hl]; [by right; left|by left|]. right. right. split; [congruence|done].
    + destruct IH as [-> Hno]. split; [done|]. intros [[Hnin Hnd]%NoDup_cons Hall]. apply Hno. split; [done|].
      intros o' Hin. destruct (Hall o' ltac:(by right)) as [? Hl]. split; [done|].
      apply lookup_insert_None. split; [done|]. intros Ht. apply Hnin. rewrite Ht. by apply list_elem_of_fmap_2.
Qed.

(** The requests a prepared corpus can be bound to. *)
Record binding_valid (targets forced : list TermCampusKey) (overlays : list PreparedOpenOverlay) : Prop := {
  bv_targets : targets ≠ [];
  bv_distinct : NoDup targets;
  bv_known : ∀ t, t ∈ targets → t ∈ nca_target <$> catalogs;
  bv_bound : ∀ o, o ∈ overlays → is_bound_to o corpus = true;
  bv_overlays : NoDup (pv_target <$> overlays);
  bv_covered : ∀ t, t ∈ pv_target <$> overlays ↔ t ∈ targets;
  bv_forced : ∀ t, t ∈ forced → t ∈ targets
}.

(** What an engine bound to a request holds. *)
Record bound_engine (targets forced : list TermCampusKey) (now : OffsetDateTime)
    (overlays : list PreparedOpenOverlay) (engine : QueryEngine) : Prop := {
  be_corpus : qe_corpus engine = EngineCorpus_Prepared corpus;
  be_sorted : StronglySorted (λ t t', rcmp t t' = Lt) (qe_active_targets engine);
  be_active : ∀ t, t ∈ qe_active_targets engine ↔ t ∈ targets;
  be_forced : qe_forced_open_unavailable engine = forced;
  be_now : qe_now engine = now;
  be_open : ∃ open, qe_open engine = EngineOpen_Prepared open ∧ NoDup (pv_target <$> open) ∧
    ∀ o, o ∈ open ↔ o ∈ overlays
}.

Lemma StronglySorted_rle_bts_iter (u : gset TermCampusKey) : StronglySorted rle (bts_iter u).
Proof. apply StronglySorted_merge_sort; apply _. Qed.

Lemma sorted_lt_of_rle (l : list TermCampusKey) :
  StronglySorted rle l → NoDup l → StronglySorted (λ t t', rcmp t t' = Lt) l.
Proof.
  induction 1 as [|t l Hl IH Ht]; [constructor|]. intros [Hnin Hnd]%NoDup_cons. constructor; [by apply IH|].
  rewrite Forall_forall in *. intros t' Hin. specialize (Ht t' Hin). unfold rle in Ht.
  destruct (rcmp t t') eqn:E; [|done|done]. apply rcmp_eq in E. by subst t'.
Qed.

Lemma same_keys (m : gmap TermCampusKey PreparedOpenOverlay) (u : gset TermCampusKey) :
  btm_keys m = bts_iter u ↔ ∀ t, is_Some (m !! t) ↔ t ∈ u.
Proof.
  split.
  - intros E t. by rewrite <-elem_of_btm_keys, E, elem_of_bts_iter.
  - intros Hsame. apply (StronglySorted_unique rle); [apply StronglySorted_btm_keys|apply StronglySorted_rle_bts_iter|].
    apply NoDup_Permutation; [apply NoDup_btm_keys|apply NoDup_bts_iter|].
    intros t. by rewrite elem_of_btm_keys, elem_of_bts_iter.
Qed.

Lemma try_new_prepared_spec targets forced now overlays :
  match QueryEngine_try_new_prepared corpus targets forced now overlays with
  | Ok engine => binding_valid targets forced overlays ∧ bound_engine targets forced now overlays engine
  | Err e => e = QueryError_PreparedTargetSetMismatch ∧ ¬ binding_valid targets forced overlays
  end.
Proof.
  unfold QueryEngine_try_new_prepared. case_bool_decide as Hne; [split; [done|by intros []]|].
  pose proof (unique_targets_spec targets ∅) as Hu.
  destruct (unique_targets corpus targets ∅) as [u|e]; cbn [mbind result_bind];
    [|destruct Hu as [-> Hno]; split; [done|]; intros [_ Hnd Hk _ _ _ _]; apply Hno;
      split; [done|]; intros t Ht; split; [by apply Hk|set_solver]].
  destruct Hu as [[Hnd Hknown] Hu].
  pose proof (overlays_by_target_spec overlays ∅) as Hm.
  destruct (overlays_by_target corpus overlays ∅) as [m|e]; cbn [mbind result_bind];
    [|destruct Hm as [-> Hno]; split; [done|]; intros [_ _ _ Hb Ho _ _]; by apply Hno; auto].
  destruct Hm as [[Hod Hb] Hm].
  assert (∀ t, is_Some (m !! t) ↔ t ∈ pv_target <$> overlays) as Hdom.
  { intros t. rewrite list_elem_of_fmap. split.
    - intros [o [[Ho Ht]|Ho]%Hm]; [by exists o|by rewrite lookup_empty in Ho].
    - intros (o & -> & Ho). exists o. apply Hm. by left. }
  case_bool_decide as Hkeys.
  { split; [done|]. intros [_ _ _ _ _ Hcov _]. apply Hkeys, same_keys. intros t. rewrite Hdom, Hcov, Hu. set_solver. }
  assert (btm_keys m = bts_iter u) as E by (destruct (decide (btm_keys m = bts_iter u)); [done|by destruct Hkeys]).
  rewrite same_keys in E.
  destruct (existsb _ forced) eqn:Ef.
  { split; [done|]. intros [_ _ _ _ _ _ Hforced]. apply existsb_exists in Ef as (t & Ht & Hn%bool_decide_eq_true).
    apply Hn, Hu. left. by apply Hforced, list_elem_of_In. }
  split; split; simpl; try done.
  - intros t Ht. by apply Hknown.
  - intros o Ho. by apply Hb.
  - intros t. rewrite <-Hdom, E, Hu. set_solver.
  - intros t Ht. destruct (decide (t ∈ targets)) as [|Hn]; [done|].
    assert (existsb (λ target, bool_decide (target ∉ u)) forced = true) as Hx; [|congruence].
    apply existsb_exists. exists t. split; [by apply list_elem_of_In|]. apply bool_decide_eq_true_2.
    rewrite Hu. set_solver.
  - apply sorted_lt_of_rle; [apply StronglySorted_rle_bts_iter|apply NoDup_bts_iter].
  - intros t. rewrite elem_of_bts_iter, Hu. set_solver.
  - exists (btm_values m). split_and!; [done| |].
    + rewrite btm_values_keys; [apply NoDup_btm_keys|]. intros k o [[_ ?]|Ho]%Hm; [done|by rewrite lookup_empty in Ho].
    + intros o. rewrite elem_of_btm_values. split.
      * intros [t [[? _]|Ho]%Hm]; [done|by rewrite lookup_empty in Ho].
      * intros Ho. exists (pv_target o). apply Hm. by left.
Qed.

End overlays.

(** ** The properties *)

(** The Open overlay of a target: building it never panics; it is built
    exactly for a target of the corpus from evidence of distinct sections of
    that target, with the error of the first of these conditions that fails
    otherwise; it is bound to the corpus; and whatever the hash function,
    collisions included, it finds exactly the evidence of each section. *)
Theorem open_overlay_spec `{KeyHash} (catalogs : list NormalizedCatalogV1) (corpus : PreparedCatalogCorpus)
    (target : TermCampusKey) (items : list OpenEvidence) :
  PreparedCatalogCorpus_try_new catalogs = Ok corpus →
  ∃ outcome, PreparedOpenOverlay_try_new corpus target items = Some outcome ∧
  match outcome with
  | Ok overlay => overlay_of catalogs corpus target items overlay
  | Err QueryError_PreparedTargetSetMismatch => target ∉ nca_target <$> catalogs
  | Err QueryError_ForeignOpenEvidence =>
      target ∈ nca_target <$> catalogs ∧ ¬ Forall (evidence_of_target catalogs target) items
  | Err QueryError_DuplicateOpenEvidence =>
      target ∈ nca_target <$> catalogs ∧ Forall (evidence_of_target catalogs target) items ∧
      ¬ NoDup (oe_section_key <$> items)
  | Err _ => False
  end.
Proof. intros [Hval Hpo]%prepared_Ok. by apply overlay_try_new. Qed.

(** Binding a request to a prepared corpus succeeds exactly when its targets
    are known, distinct and not empty, each has exactly one overlay bound to the
    same catalog version, no other overlay is given, and the targets forced
    unavailable are among them; every other request is refused with
    [PreparedTargetSetMismatch]; the engine then holds the targets in order. *)
Theorem prepared_binding_spec `{KeyHash} (catalogs : list NormalizedCatalogV1) (corpus : PreparedCatalogCorpus)
    (targets forced : list TermCampusKey) (now : OffsetDateTime) (overlays : list PreparedOpenOverlay) :
  PreparedCatalogCorpus_try_new catalogs = Ok corpus →
  match QueryEngine_try_new_prepared corpus targets forced now overlays with
  | Ok engine => binding_valid catalogs corpus targets forced overlays ∧
      bound_engine corpus targets forced now overlays engine
  | Err e => e = QueryError_PreparedTargetSetMismatch ∧ ¬ binding_valid catalogs corpus targets forced overlays
  end.
Proof. intros [Hval Hpo]%prepared_Ok. by apply try_new_prepared_spec. Qed.

(** ** Examples *)

(** Hash functions under which everything collides. *)
#[local] Instance colliding_hash : KeyHash := {|
  hash_group _ := 7; hash_variant _ := 7; hash_section _ := 7; hash_occurrence _ := 7 |}.

Definition sample_evidence (index : string) (state : LiveOpenStateV1) : OpenEvidence := {|
  oe_section_key := sample_section_key index;
  oe_evidence := {| lo_state := state; lo_observed_at := Some 0; lo_fresh_until := Some 60; lo_uncertainty := None |} |}.

Definition sample_open : list OpenEvidence :=
  [sample_evidence "06672" LiveOpenStateV1_Open; sample_evidence "06673" LiveOpenStateV1_Closed].

Definition sample_prepared : PreparedCatalogCorpus :=
  match PreparedCatalogCorpus_try_new [sample_catalog] with
  | Ok corpus => corpus
  | Err _ => {| pc_term := ""; pc_catalogs := []; pc_target_versions := ∅; pc_targets := ∅ |}
  end.

Lemma sample_prepared_Ok : PreparedCatalogCorpus_try_new [sample_catalog] = Ok sample_prepared.
Proof. vm_compute. reflexivity. Qed.

Definition sample_overlay : PreparedOpenOverlay := {|
  pv_target := sample_target; pv_content_version := nca_content_version sample_catalog;
  pv_evidence := sample_open;
  pv_index := {[7 := OpenIndexBucket_Many [0%nat; 1%nat]]} |}.

Lemma sample_overlay_Ok :
  PreparedOpenOverlay_try_new sample_prepared sample_target sample_open = Some (Ok sample_overlay).
Proof. vm_compute. reflexivity. Qed.

Lemma open_overlay_spec_witness :
  ∃ overlay, PreparedOpenOverlay_try_new sample_prepared sample_target sample_open = Some (Ok overlay) ∧
    overlay_get overlay (sample_section_key "06673") =
      Some (Some (oe_evidence (sample_evidence "06673" LiveOpenStateV1_Closed))) ∧
    overlay_get overlay (sample_section_key "00000") = Some None.
Proof.
  destruct (open_overlay_spec [sample_catalog] sample_prepared sample_target sample_open sample_prepared_Ok)
    as (outcome & Ho & Hspec).
  exists sample_overlay. pose proof sample_overlay_Ok as Hok. split; [exact Hok|].
  rewrite Hok in Ho. injection Ho as <-. destruct Hspec as [_ _ _ _ _ _ Hget].
  rewrite !Hget. split; vm_compute; reflexivity.
Defined.

Lemma prepared_binding_spec_witness :
  ∃ engine, QueryEngine_try_new_prepared sample_prepared [sample_target] [sample_target] 30 [sample_overlay]
      = Ok engine ∧ (∀ t, t ∈ qe_active_targets engine ↔ t ∈ [sample_target]) ∧
    QueryEngine_try_new_prepared sample_prepared [sample_target] [] 30 []
      = Err QueryError_PreparedTargetSetMismatch.
Proof.
  pose proof (prepared_binding_spec [sample_catalog] sample_prepared [sample_target] [sample_target] 30
    [sample_overlay] sample_prepared_Ok) as H.
  destruct (QueryEngine_try_new_prepared sample_prepared [sample_target] [sample_target] 30 [sample_overlay])
    as [engine|e] eqn:E; [|vm_compute in E; discriminate E].
  exists engine. split; [reflexivity|]. destruct H as [_ [_ _ Hactive _ _ _]].
  split; [exact Hactive|]. vm_compute. reflexivity.
Defined.
