(* ===== verification/PreparedEngine.v ===== *)
(** * A request on the prepared corpus is a request on its catalogs

    A long-lived process binds requests to a prepared corpus that may hold more
    campuses than a request selects, with overlays that keep raw timestamps. The
    engine so bound answers exactly like an engine built for the request from
    the selected catalogs and the evidence with its freshness decided at the
    instant of the request. *)

From S2P Require Import Prelude Ordering Identity RustStr Contracts CatalogData Match Filters.
From S2P Require Import FilterFacts Predicates PredicateFacts Corpus CatalogSamples CorpusFacts PreparedFacts QueryEngine.
From S2P Require Import QueryFacts CourseFacts OverlayFacts.

(** ** The catalogs of the selected targets *)

Section restrict.
Context (catalogs : list NormalizedCatalogV1) (Hval : catalogs_valid catalogs).
Context (targets : list TermCampusKey).

Definition selected : list NormalizedCatalogV1 := filter (λ c, nca_target c ∈ targets) catalogs.

Lemma elem_of_selected c : c ∈ selected ↔ c ∈ catalogs ∧ nca_target c ∈ targets.
Proof. unfold selected. rewrite list_elem_of_filter. tauto. Qed.

Lemma bind_selected {T} (values : NormalizedCatalogV1 → list T) (target_of : T → TermCampusKey) v :
  (∀ c v, c ∈ catalogs → v ∈ values c → target_of v = nca_target c) →
  v ∈ selected ≫= values ↔ v ∈ catalogs ≫= values ∧ target_of v ∈ targets.
Proof.
  intros Ht. rewrite !list_elem_of_bind. setoid_rewrite elem_of_selected. split.
  - intros (c & Hv & Hc & Hct). split; [eauto|]. by rewrite (Ht c).
  - intros [(c & Hv & Hc) Hvt]. exists c. split_and!; [done..|]. by rewrite <-(Ht c v).
Qed.

Lemma selected_groups g : g ∈ all_groups selected ↔ g ∈ all_groups catalogs ∧ cgk_target (ncg_key g) ∈ targets.
Proof. apply (bind_selected nca_course_groups (λ g, cgk_target (ncg_key g))), Hval. Qed.
Lemma selected_variants v : v ∈ all_variants selected ↔ v ∈ all_variants catalogs ∧ cvk_target (ncv_key v) ∈ targets.
Proof. apply (bind_selected nca_course_variants (λ v, cvk_target (ncv_key v))), Hval. Qed.
Lemma selected_sections s : s ∈ all_sections selected ↔ s ∈ all_sections catalogs ∧ sk_target (nse_key s) ∈ targets.
Proof.
  apply (bind_selected nca_sections (λ s, sk_target (nse_key s))). intros c s' Hc Hs.
  by apply (va_section_target _ (cv_entities _ Hval) c s').
Qed.
Lemma selected_occurrences o :
  o ∈ all_occurrences selected ↔ o ∈ all_occurrences catalogs ∧ cok_target (noc_key o) ∈ targets.
Proof. apply (bind_selected nca_occurrences (λ o, cok_target (noc_key o))), Hval. Qed.

Lemma sublist_bind {A B} (f : A → list B) (l k : list A) : l `sublist_of` k → l ≫= f `sublist_of` k ≫= f.
Proof. induction 1; simpl; [done|by apply sublist_app|by apply sublist_inserts_l]. Qed.

Lemma selected_NoDup {T K} (key : T → K) (values : NormalizedCatalogV1 → list T) :
  NoDup (key <$> catalogs ≫= values) → NoDup (key <$> selected ≫= values).
Proof.
  intros Hnd. eapply sublist_NoDup; [exact Hnd|]. apply fmap_sublist, sublist_bind, sublist_filter.
Qed.

Lemma selected_entities : entities_valid selected.
Proof.
  destruct (cv_entities _ Hval) as [Ht Hg Hv Hs Ho Ng Nv Ns No].
  split; try (by apply selected_NoDup).
  - eapply sublist_NoDup; [exact Ht|]. apply fmap_sublist, sublist_filter.
  - intros c g [Hc _]%elem_of_selected. by apply Hg.
  - intros c v [Hc _]%elem_of_selected. by apply Hv.
  - intros c s [Hc _]%elem_of_selected. by apply Hs.
  - intros c o [Hc _]%elem_of_selected. by apply Ho.
Qed.

(** *** The selected catalogs are valid *)

Context (Hne : targets ≠ []) (Hknown : ∀ t, t ∈ targets → t ∈ nca_target <$> catalogs).

Lemma selected_nonempty : selected ≠ [].
Proof.
  destruct targets as [|t ts] eqn:E; [done|]. pose proof (Hknown t ltac:(left)) as (c & -> & Hc)%list_elem_of_fmap.
  intros Hnil. assert (c ∈ selected) as Hin by (apply elem_of_selected; split; [done|rewrite E; left]).
  rewrite Hnil in Hin. by apply elem_of_nil in Hin.
Qed.

Lemma selected_term c : c ∈ catalogs → catalog_term c = cc_term (corpus_of selected).
Proof.
  intros Hc. rewrite (cv_term _ Hval c Hc). cbn [cc_term corpus_of].
  pose proof selected_nonempty as Hn. destruct selected as [|c' cs] eqn:E; [done|].
  assert (c' ∈ selected) as [Hc' _]%elem_of_selected by (rewrite E; left). simpl. symmetry. by apply (cv_term _ Hval).
Qed.

Lemma selected_valid : catalogs_valid selected.
Proof.
  pose proof (cv_entities _ Hval) as He. split.
  - apply selected_nonempty.
  - intros c [Hc _]%elem_of_selected. by apply selected_term.
  - apply selected_entities.
  - intros g [Hg Ht]%selected_groups. destruct (cv_group _ Hval g Hg) as (Hn & Hnd & Hk).
    split_and!; [done..|]. intros k Hin. destruct (Hk k Hin) as [Hkg (v & -> & Hv)%list_elem_of_fmap].
    split; [done|]. apply list_elem_of_fmap_2, selected_variants. split; [done|].
    unfold cvk_target. by rewrite Hkg.
  - intros v [Hv Ht]%selected_variants. destruct (cv_variant _ Hval v Hv) as ((g & Hg & Hk & Hin) & Hnd & Hs).
    split_and!; [|done|].
    + exists g. split; [|done]. apply selected_groups. split; [done|]. by rewrite Hk.
    + intros k Hks. destruct (Hs k Hks) as (s & Hs' & Hsk & Hsv). exists s. split; [|done].
      apply selected_sections. split; [done|]. pose proof Hs' as (c & Hsc & Hc)%list_elem_of_bind.
      destruct (va_section_target _ He c s Hc Hsc) as [-> E]. by rewrite <-E, Hsv.
  - intros s [Hs Ht]%selected_sections. destruct (cv_section _ Hval s Hs) as [(v & Hv & Hk & Hin) Ho]. split.
    + exists v. split; [|done]. apply selected_variants. split; [done|]. rewrite Hk.
      pose proof Hs as (c & Hsc & Hc)%list_elem_of_bind. destruct (va_section_target _ He c s Hc Hsc) as [E ->].
      by rewrite <-E.
    + intros keys Hkeys. destruct (Ho keys Hkeys) as [Hnd Hall]. split; [done|]. intros k Hkin.
      destruct (Hall k Hkin) as [Hks (o & -> & Hoin)%list_elem_of_fmap]. split; [done|].
      apply list_elem_of_fmap_2, selected_occurrences. split; [done|]. unfold cok_target. by rewrite Hks.
  - intros o [Ho Ht]%selected_occurrences. destruct (cv_occurrence _ Hval o Ho) as (s & keys & Hs & Hk & Hkeys & Hin).
    exists s, keys. split; [|done]. apply selected_sections. split; [done|]. by rewrite Hk.
Qed.

(** *** Their corpus is the part of the whole that belongs to the targets *)

Lemma selected_group k : cgk_target k ∈ targets →
  cc_groups (corpus_of catalogs) !! k = cc_groups (corpus_of selected) !! k.
Proof.
  intros Ht. apply option_eq. intros g.
  rewrite (group_lookup _ (cv_entities _ Hval)), (group_lookup _ selected_entities), selected_groups.
  naive_solver.
Qed.
Lemma selected_variant k : cvk_target k ∈ targets →
  cc_variants (corpus_of catalogs) !! k = cc_variants (corpus_of selected) !! k.
Proof.
  intros Ht. apply option_eq. intros v.
  rewrite (variant_lookup _ (cv_entities _ Hval)), (variant_lookup _ selected_entities), selected_variants.
  naive_solver.
Qed.
Lemma selected_section k : sk_target k ∈ targets →
  cc_sections (corpus_of catalogs) !! k = cc_sections (corpus_of selected) !! k.
Proof.
  intros Ht. apply option_eq. intros s.
  rewrite (section_lookup _ (cv_entities _ Hval)), (section_lookup _ selected_entities), selected_sections.
  naive_solver.
Qed.
Lemma selected_occurrence k : cok_target k ∈ targets →
  cc_occurrences (corpus_of catalogs) !! k = cc_occurrences (corpus_of selected) !! k.
Proof.
  intros Ht. apply option_eq. intros o.
  rewrite (occurrence_lookup _ (cv_entities _ Hval)), (occurrence_lookup _ selected_entities), selected_occurrences.
  naive_solver.
Qed.

Lemma selected_variants_for g :
  g ∈ all_groups selected → cc_variants_for (corpus_of catalogs) g = cc_variants_for (corpus_of selected) g.
Proof.
  intros [Hg Ht]%selected_groups. apply mapM_ext_in. intros k Hk. apply selected_variant.
  destruct (cv_group _ Hval g Hg) as (_ & _ & Hall). unfold cvk_target. by rewrite (proj1 (Hall k Hk)).
Qed.
Lemma selected_sections_for v :
  v ∈ all_variants selected → cc_sections_for (corpus_of catalogs) v = cc_sections_for (corpus_of selected) v.
Proof.
  intros [Hv Ht]%selected_variants. apply mapM_ext_in. intros k Hk. apply selected_section.
  destruct (cv_variant _ Hval v Hv) as (_ & _ & Hall). destruct (Hall k Hk) as (s & Hs & <- & Hsv).
  pose proof Hs as (c & Hsc & Hc)%list_elem_of_bind.
  destruct (va_section_target _ (cv_entities _ Hval) c s Hc Hsc) as [-> E]. by rewrite <-E, Hsv.
Qed.
Lemma selected_occurrences_for s :
  s ∈ all_sections selected →
  cc_known_occurrences_for (corpus_of catalogs) s = cc_known_occurrences_for (corpus_of selected) s.
Proof.
  intros [Hs Ht]%selected_sections. unfold cc_known_occurrences_for.
  destruct (nse_occurrence_keys s) as [[keys| |]|] eqn:E; try done. f_equal. apply mapM_ext_in.
  intros k Hk. apply selected_occurrence. destruct (cv_section _ Hval s Hs) as [_ Ho].
  destruct (Ho keys E) as [_ Hall]. unfold cok_target. by rewrite (proj1 (Hall k Hk)).
Qed.

Lemma selected_iter_groups :
  filter (λ g, cgk_target (ncg_key g) ∈ targets) (cc_iter_groups (corpus_of catalogs))
    = cc_iter_groups (corpus_of selected).
Proof.
  apply (sorted_lt_unique (compare_keys ncg_key)).
  - apply StronglySorted_filter, btm_values_strict. by intros k g [_ ?]%group_lookup; [|apply Hval].
  - apply btm_values_strict. by intros k g [_ ?]%group_lookup; [|apply selected_entities].
  - intros g. unfold cc_iter_groups. rewrite list_elem_of_filter, elem_of_group_values by apply Hval.
    rewrite elem_of_group_values by apply selected_entities. rewrite selected_groups. tauto.
Qed.
Lemma selected_iter_sections :
  filter (λ s, sk_target (nse_key s) ∈ targets) (cc_iter_sections (corpus_of catalogs))
    = cc_iter_sections (corpus_of selected).
Proof.
  apply (sorted_lt_unique (compare_keys nse_key)).
  - apply StronglySorted_filter, btm_values_strict. by intros k s [_ ?]%section_lookup; [|apply Hval].
  - apply btm_values_strict. by intros k s [_ ?]%section_lookup; [|apply selected_entities].
  - intros s. unfold cc_iter_sections. rewrite list_elem_of_filter, elem_of_section_values by apply Hval.
    rewrite elem_of_section_values by apply selected_entities. rewrite selected_sections. tauto.
Qed.

Lemma insert_versions_Some cs m t version :
  NoDup (nca_target <$> cs) → (∀ c, c ∈ cs → m !! nca_target c = None) →
  insert_versions m cs !! t = Some version ↔
  m !! t = Some version ∨ ∃ c, c ∈ cs ∧ nca_target c = t ∧ nca_content_version c = version.
Proof.
  revert m. unfold insert_versions. induction cs as [|c cs IH]; intros m; simpl.
  { intros _ _. split; [by left|]. intros [?|(c & ?%elem_of_nil & _)]; done. }
  intros [Hnin Hnd]%NoDup_cons Hm. rewrite IH; [|done|].
  - rewrite lookup_insert_Some. setoid_rewrite elem_of_cons. pose proof (Hm c ltac:(left)) as Hc. split.
    + intros [[[<- <-]|[_ ?]]|(c' & ? & ?)]; [right; exists c; by repeat split; left|by left|right; exists c'; tauto].
    + intros [Hv|(c' & [->|Hin] & <- & <-)]; [left; right; split; [congruence|done]|by left; left|].
      right. by exists c'.
  - intros c' Hin. rewrite lookup_insert_ne; [apply Hm; by right|]. intros Heq. apply Hnin. rewrite Heq.
    by apply list_elem_of_fmap_2.
Qed.

Lemma selected_version t : t ∈ targets →
  cc_target_versions (corpus_of catalogs) !! t = cc_target_versions (corpus_of selected) !! t.
Proof.
  intros Ht. apply option_eq. intros version. cbn [cc_target_versions corpus_of].
  rewrite !insert_versions_Some, lookup_empty; try apply selected_entities; try apply Hval; try (by intros);
    try (by apply (cv_entities _ Hval)).
  setoid_rewrite elem_of_selected. naive_solver.
Qed.

End restrict.

(** ** The evidence as a request sees it *)

(** Evidence of a target forced unavailable, or no longer fresh, is uncertain. *)
Definition served_evidence (forced : list TermCampusKey) (now : OffsetDateTime) (item : OpenEvidence) : OpenEvidence :=
  let evidence := oe_evidence item in
  {| oe_section_key := oe_section_key item;
     oe_evidence :=
       if bool_decide (sk_target (oe_section_key item) ∈ forced)
          || bool_decide (lo_uncertainty evidence = None) && negb (evidence_fresh evidence now)
       then set_uncertainty MatchReasonCode_SourceUnavailable evidence else evidence |}.

Lemma built_open_spec corpus items m :
  (∀ item, item ∈ items → is_Some (cc_sections corpus !! oe_section_key item)) →
  NoDup (oe_section_key <$> items) → (∀ item, item ∈ items → m !! oe_section_key item = None) →
  ∃ open, built_open corpus items m = Ok open ∧
    ∀ k evidence, open !! k = Some evidence ↔
      m !! k = Some evidence ∨ ∃ item, item ∈ items ∧ oe_section_key item = k ∧ oe_evidence item = evidence.
Proof.
  revert m. induction items as [|item items IH]; intros m Hs Hnd Hm; simpl.
  { exists m. split; [done|]. intros k evidence. split; [by left|]. intros [?|(i & ?%elem_of_nil & _)]; done. }
  destruct (Hs item ltac:(left)) as [s E]. rewrite bool_decide_eq_false_2 by congruence.
  pose proof (Hm item ltac:(left)) as Hi. rewrite bool_decide_eq_false_2 by (rewrite Hi; by intros []).
  apply NoDup_cons in Hnd as [Hnin Hnd].
  destruct (IH (<[oe_section_key item := oe_evidence item]> m)) as (open & -> & Hopen); [intros; apply Hs; by right|done| |].
  { intros i Hin. rewrite lookup_insert_ne; [apply Hm; by right|]. intros Heq. apply Hnin. rewrite Heq.
    by apply list_elem_of_fmap_2. }
  exists open. split; [done|]. intros k evidence. rewrite Hopen, lookup_insert_Some. setoid_rewrite elem_of_cons. split.
  - intros [[[<- <-]|[_ ?]]|(i & ? & ?)]; [right; exists item; by repeat split; left|by left|right; exists i; tauto].
  - intros [Hv|(i & [->|Hin] & <- & <-)]; [left; right; split; [congruence|done]|by left; left|]. right. by exists i.
Qed.

(** ** Engines that agree *)

(** What an engine must share with the engine built from the catalogs to give
    the same answers: the targets, the instant, the order of the entities, the
    lookups of active entities, and the Open evidence of their sections. *)
Record agrees `{KeyHash} (catalogs : list NormalizedCatalogV1) (open : gmap SectionKey LiveOpenEvidenceV1)
    (now : OffsetDateTime) (engine : QueryEngine) : Prop := {
  ag_targets : qe_active_targets engine = qe_active_targets (built_engine catalogs open now);
  ag_now : qe_now engine = now;
  ag_term : ec_term (qe_corpus engine) = cc_term (corpus_of catalogs);
  ag_groups : ec_for_each_group (qe_corpus engine) (qe_active_targets engine)
    = Some (cc_iter_groups (corpus_of catalogs));
  ag_sections : ec_for_each_section (qe_corpus engine) (qe_active_targets engine)
    = Some (cc_iter_sections (corpus_of catalogs));
  ag_group : ∀ k, cgk_target k ∈ qe_active_targets engine →
    ec_group (qe_corpus engine) k = Some (cc_groups (corpus_of catalogs) !! k);
  ag_variant : ∀ k, cvk_target k ∈ qe_active_targets engine →
    ec_variant (qe_corpus engine) k = Some (cc_variants (corpus_of catalogs) !! k);
  ag_section : ∀ k, sk_target k ∈ qe_active_targets engine →
    ec_section (qe_corpus engine) k = Some (cc_sections (corpus_of catalogs) !! k);
  ag_variants_for : ∀ g, g ∈ all_groups catalogs →
    ec_variants_for (qe_corpus engine) g = cc_variants_for (corpus_of catalogs) g;
  ag_sections_for : ∀ v, v ∈ all_variants catalogs →
    ec_sections_for (qe_corpus engine) v = cc_sections_for (corpus_of catalogs) v;
  ag_occurrences_for : ∀ s, s ∈ all_sections catalogs →
    ec_known_occurrences_for (qe_corpus engine) s = cc_known_occurrences_for (corpus_of catalogs) s;
  ag_versions : expected_versions engine = expected_versions (built_engine catalogs open now);
  ag_open : ∀ s, s ∈ all_sections catalogs →
    open_for engine (nse_key s) = open_for (built_engine catalogs open now) (nse_key s) ∧
    open_state_for engine (nse_key s) = open_state_for (built_engine catalogs open now) (nse_key s)
}.

Section agreement.
Context `{KeyHash} (catalogs : list NormalizedCatalogV1) (Hval : catalogs_valid catalogs).
Context (open : gmap SectionKey LiveOpenEvidenceV1) (now : OffsetDateTime) (engine : QueryEngine).
Context (Hag : agrees catalogs open now engine).
#[local] Abbreviation built := (built_engine catalogs open now).

Lemma group_active_same k : group_is_active engine k = group_is_active built k.
Proof. unfold group_is_active, identity_is_active. by rewrite (ag_targets _ _ _ _ Hag). Qed.
Lemma section_active_same k : section_is_active engine k = section_is_active built k.
Proof. unfold section_is_active, identity_is_active. by rewrite (ag_targets _ _ _ _ Hag). Qed.

Lemma group_active_target k : group_is_active engine k = true → cgk_target k ∈ qe_active_targets engine.
Proof. apply (identity_is_active_iff engine (cgk_target k)). Qed.
Lemma section_active_target k : section_is_active engine k = true → sk_target k ∈ qe_active_targets engine.
Proof. apply (identity_is_active_iff engine (sk_target k)). Qed.

Lemma section_evaluation_same s filters :
  s ∈ all_sections catalogs → section_evaluation engine s filters = section_evaluation built s filters.
Proof.
  intros Hs. unfold section_evaluation.
  by rewrite (ag_occurrences_for _ _ _ _ Hag s Hs), (proj1 (ag_open _ _ _ _ Hag s Hs)), (ag_now _ _ _ _ Hag).
Qed.
Lemma section_item_same s filters :
  s ∈ all_sections catalogs → section_item engine s filters = section_item built s filters.
Proof.
  intros Hs. unfold section_item.
  by rewrite (ag_occurrences_for _ _ _ _ Hag s Hs), (proj1 (ag_open _ _ _ _ Hag s Hs)), (ag_now _ _ _ _ Hag).
Qed.
Lemma unfiltered_item_same s :
  s ∈ all_sections catalogs → unfiltered_section_item engine s = unfiltered_section_item built s.
Proof.
  intros Hs. unfold unfiltered_section_item.
  by rewrite (ag_occurrences_for _ _ _ _ Hag s Hs), (proj1 (ag_open _ _ _ _ Hag s Hs)).
Qed.

(** *** Validation *)

Lemma validate_filters_same filters : validate_filters engine filters = validate_filters built filters.
Proof.
  unfold validate_filters. rewrite (ag_term _ _ _ _ Hag), (ag_groups _ _ _ _ Hag).
  cbn [qe_corpus built_engine ec_term ec_for_each_group mbind option_bind].
  change {| qe_corpus := _ |} with built.
  rewrite (mapM_ext_in (authoritative_codes engine filters) (authoritative_codes built filters)); [done|].
  intros g Hg%elem_of_group_values; [|apply Hval]. unfold authoritative_codes.
  by rewrite group_active_same, (ag_variants_for _ _ _ _ Hag g Hg).
Qed.

Lemma any_panicking_ext {A} (f g : A → option bool) l :
  (∀ x, f x = g x) → any_panicking f l = any_panicking g l.
Proof. intros Hfg. induction l as [|x l IH]; [done|]. simpl. by rewrite Hfg, IH. Qed.

Lemma validate_text_plan_same filters plan :
  validate_text_plan engine filters plan = validate_text_plan built filters plan.
Proof.
  unfold validate_text_plan. rewrite (ag_versions _ _ _ _ Hag).
  destruct (nf_text filters), plan as [plan|]; try done. case_bool_decide; [done|].
  destruct (expected_versions built) as [expected|]; [|done]. cbn [mbind option_bind].
  case_bool_decide; [done|]. case_bool_decide; [done|].
  rewrite (any_panicking_ext _ (λ key,
    if negb (group_is_active built (cvk_group key)) then Some true
    else variant ← ec_variant (qe_corpus built) key; Some (bool_decide (variant = None)))); [done|].
  intros key. rewrite <-group_active_same.
  destruct (group_is_active engine (cvk_group key)) eqn:E; [|done]. cbn [negb].
  by rewrite (ag_variant _ _ _ _ Hag key) by (by apply group_active_target).
Qed.

Lemma validated_same {A} filters plan (search search' : option A) :
  search = search' → validated engine filters plan search = validated built filters plan search'.
Proof. intros ->. unfold validated. by rewrite validate_filters_same, validate_text_plan_same. Qed.

(** *** Course search *)

Lemma variants_loop_same filters text_hits g facts vs :
  (∀ v, v ∈ vs → v ∈ all_variants catalogs) →
  variants_loop engine filters text_hits g facts vs = variants_loop built filters text_hits g facts vs.
Proof.
  revert facts. induction vs as [|v vs IH]; intros facts Hvs; [done|]. cbn [variants_loop].
  assert (variant_step engine filters text_hits g facts v = variant_step built filters text_hits g facts v) as ->.
  { unfold variant_step. pose proof (Hvs v ltac:(left)) as Hv.
    destruct (sections_of_variant catalogs Hval open now v Hv) as (ss & Hss & _ & Hin).
    rewrite (ag_sections_for _ _ _ _ Hag v Hv). cbn [qe_corpus built_engine ec_sections_for] in *. rewrite Hss.
    cbn [mbind option_bind]. change {| qe_corpus := _ |} with built.
    by rewrite (mapM_ext_in (λ s, section_evaluation engine s filters) (λ s, section_evaluation built s filters))
      by (intros s [Hs _]%Hin; by apply section_evaluation_same). }
  destruct (variant_step built filters text_hits g facts v); [|done]. cbn [mbind option_bind].
  apply IH. intros; apply Hvs; by right.
Qed.

Lemma course_candidates_same filters text_hits g :
  g ∈ all_groups catalogs → course_candidates engine filters text_hits g = course_candidates built filters text_hits g.
Proof.
  intros Hg. unfold course_candidates. rewrite group_active_same.
  destruct (negb _); [done|]. rewrite (ag_variants_for _ _ _ _ Hag g Hg).
  destruct (variants_of_group catalogs Hval open now g Hg) as (vs & Hvs & _ & Hin).
  cbn [qe_corpus built_engine ec_variants_for] in *. rewrite Hvs. cbn [mbind option_bind].
  change {| qe_corpus := _ |} with built.
  by rewrite variants_loop_same by (by intros v [? _]%Hin).
Qed.

Lemma materialize_variant_same filters text_hits active g exact v :
  v ∈ all_variants catalogs →
  materialize_variant engine filters text_hits active g exact v
    = materialize_variant built filters text_hits active g exact v.
Proof.
  intros Hv. unfold materialize_variant.
  destruct (sections_of_variant catalogs Hval open now v Hv) as (ss & Hss & _ & Hin).
  rewrite (ag_sections_for _ _ _ _ Hag v Hv). cbn [qe_corpus built_engine ec_sections_for] in *. rewrite Hss.
  change {| qe_corpus := _ |} with built.
  destruct (evaluate_course_filter_matches (ncg_key g) v filters text_hits); [|done]. cbn [mbind option_bind].
  by rewrite (mapM_ext_in (λ s, section_item engine s filters) (λ s, section_item built s filters))
    by (intros s [Hs _]%Hin; by apply section_item_same).
Qed.

Lemma materialize_course_same filters text_hits active c :
  ccd_group c ∈ all_groups catalogs →
  materialize_course_candidate engine filters text_hits active c
    = materialize_course_candidate built filters text_hits active c.
Proof.
  intros Hg. unfold materialize_course_candidate. rewrite (ag_variants_for _ _ _ _ Hag _ Hg).
  destruct (variants_of_group catalogs Hval open now _ Hg) as (vs & Hvs & _ & Hin).
  cbn [qe_corpus built_engine ec_variants_for] in *. rewrite Hvs. cbn [mbind option_bind].
  change {| qe_corpus := _ |} with built.
  by rewrite (mapM_ext_in _ (materialize_variant built filters text_hits active (ccd_group c) (ccd_exact_identifier c)))
    by (intros v [Hv _]%Hin; by apply materialize_variant_same).
Qed.

Lemma course_search_same request text_hits :
  course_search engine request text_hits = course_search built request text_hits.
Proof.
  unfold course_search. cbv zeta. set (filters := fr_values (cq_filters request)).
  apply validated_same; [done..|]. rewrite (ag_groups _ _ _ _ Hag).
  cbn [qe_corpus built_engine ec_for_each_group mbind option_bind]. change {| qe_corpus := _ |} with built.
  destruct (course_search_candidates catalogs Hval open now filters text_hits) as (css & Hcss & _ & Hof & _).
  rewrite (mapM_ext_in (course_candidates engine filters text_hits) (course_candidates built filters text_hits))
    by (intros g Hg%elem_of_group_values; [by apply course_candidates_same|apply Hval]).
  rewrite Hcss. cbn [mbind option_bind].
  destruct (paginate _ (cq_page request)) as [page candidates] eqn:E.
  rewrite (mapM_ext_in _ (materialize_course_candidate built filters text_hits (section_filters_active filters))); [done|].
  intros c Hc. apply materialize_course_same.
  assert (c ∈ (paginate (sort_by (compare_course (cq_sort request)) (mjoin css)) (cq_page request)).2) as Hin by (by rewrite E).
  apply elem_of_page in Hin. rewrite elem_of_sort_by in Hin by apply _. by apply Hof.
Qed.

(** *** Section search *)

Lemma section_candidates_same filters text_hits s :
  s ∈ all_sections catalogs →
  section_candidates engine filters text_hits s = section_candidates built filters text_hits s.
Proof.
  intros Hs. unfold section_candidates. rewrite section_active_same.
  destruct (negb (section_is_active built (nse_key s))) eqn:Ea; [done|].
  rewrite <-section_active_same in Ea. apply negb_false_iff in Ea.
  assert (cvk_target (nse_variant_key s) ∈ qe_active_targets engine) as Ht.
  { apply section_active_target in Ea. pose proof Hs as (c & Hsc & Hc)%list_elem_of_bind.
    destruct (va_section_target _ (cv_entities _ Hval) c s Hc Hsc) as [E ->]. by rewrite <-E. }
  rewrite (ag_variant _ _ _ _ Hag _ Ht), (section_evaluation_same s filters Hs).
  by rewrite (proj2 (ag_open _ _ _ _ Hag s Hs)).
Qed.

Lemma materialize_section_same filters text_hits c :
  scd_section c ∈ all_sections catalogs →
  materialize_section_candidate engine filters text_hits c = materialize_section_candidate built filters text_hits c.
Proof.
  intros Hs. unfold materialize_section_candidate.
  by rewrite (section_item_same _ filters Hs).
Qed.

Lemma section_search_same request text_hits :
  section_search engine request text_hits = section_search built request text_hits.
Proof.
  unfold section_search. cbv zeta. set (filters := fr_values (sq_filters request)).
  apply validated_same; [done..|]. rewrite (ag_sections _ _ _ _ Hag).
  cbn [qe_corpus built_engine ec_for_each_section mbind option_bind]. change {| qe_corpus := _ |} with built.
  destruct (section_search_candidates catalogs Hval open now filters text_hits) as (css & Hcss & _ & Hof & _).
  rewrite (mapM_ext_in (section_candidates engine filters text_hits) (section_candidates built filters text_hits))
    by (intros s Hs%elem_of_section_values; [by apply section_candidates_same|apply Hval]).
  rewrite Hcss. cbn [mbind option_bind].
  destruct (paginate _ (sq_page request)) as [page candidates] eqn:E.
  rewrite (mapM_ext_in _ (materialize_section_candidate built filters text_hits)); [done|].
  intros c Hc. apply materialize_section_same.
  assert (c ∈ (paginate (sort_by (compare_section (sq_sort request)) (mjoin css)) (sq_page request)).2) as Hin by (by rewrite E).
  apply elem_of_page in Hin. rewrite elem_of_sort_by in Hin by apply _. by apply Hof.
Qed.

(** *** Details *)

Lemma course_detail_same key : course_detail engine key = course_detail built key.
Proof.
  unfold course_detail. rewrite group_active_same.
  destruct (negb (group_is_active built key)) eqn:Ea; [done|].
  rewrite <-group_active_same in Ea. apply negb_false_iff, group_active_target in Ea.
  rewrite (ag_group _ _ _ _ Hag _ Ea). cbn [qe_corpus built_engine ec_group mbind option_bind].
  destruct (cc_groups (corpus_of catalogs) !! key) as [g|] eqn:Eg; [|done].
  apply group_lookup in Eg as [Hg _]; [|apply Hval]. rewrite (ag_variants_for _ _ _ _ Hag g Hg).
  destruct (variants_of_group catalogs Hval open now g Hg) as (vs & Hvs & _ & Hin).
  cbn [qe_corpus built_engine ec_variants_for] in *. rewrite Hvs. cbn [mbind option_bind].
  change {| qe_corpus := _ |} with built. erewrite mapM_ext_in; [reflexivity|]. intros v [Hv _]%Hin. simpl.
  destruct (sections_of_variant catalogs Hval open now v Hv) as (ss & Hss & _ & Hins).
  rewrite (ag_sections_for _ _ _ _ Hag v Hv). cbn [qe_corpus built_engine ec_sections_for] in *. rewrite Hss.
  cbn [mbind option_bind]. change {| qe_corpus := _ |} with built.
  by rewrite (mapM_ext_in (unfiltered_section_item engine) (unfiltered_section_item built))
    by (intros s [Hs _]%Hins; by apply unfiltered_item_same).
Qed.

Lemma section_detail_same key : section_detail engine key = section_detail built key.
Proof.
  unfold section_detail. rewrite section_active_same.
  destruct (negb (section_is_active built key)) eqn:Ea; [done|].
  rewrite <-section_active_same in Ea. apply negb_false_iff, section_active_target in Ea.
  rewrite (ag_section _ _ _ _ Hag _ Ea). cbn [qe_corpus built_engine ec_section mbind option_bind].
  destruct (cc_sections (corpus_of catalogs) !! key) as [s|] eqn:Es; [|done].
  apply section_lookup in Es as [Hs Hk]; [|apply Hval].
  assert (cvk_target (nse_variant_key s) ∈ qe_active_targets engine) as Ht.
  { pose proof Hs as (c & Hsc & Hc)%list_elem_of_bind.
    destruct (va_section_target _ (cv_entities _ Hval) c s Hc Hsc) as [E ->]. by rewrite <-E, Hk. }
  rewrite (ag_variant _ _ _ _ Hag _ Ht). cbn [ec_variant].
  by rewrite (unfiltered_item_same s Hs).
Qed.

End agreement.

(** ** A bound engine agrees with the engine built for the request *)

Lemma list_exists_mem {A} (l : list A) : l ≠ [] → ∃ x, x ∈ l.
Proof. destruct l as [|x l]; [done|]. exists x. left. Qed.

Lemma overlay_targets_of `{KeyHash} catalogs corpus overlays evidence :
  Forall2 (λ o te, overlay_of catalogs corpus te.1 te.2 o) overlays evidence →
  pv_target <$> overlays = evidence.*1.
Proof.
  induction 1 as [|o te os es Ho _ IH]; [done|].
  rewrite !fmap_cons, IH. f_equal. exact (ov_target _ _ _ _ _ Ho).
Qed.

Section bound.
Context `{KeyHash} (catalogs : list NormalizedCatalogV1) (corpus : PreparedCatalogCorpus).
Context (Hval : catalogs_valid catalogs) (Hpo : prepared_of catalogs corpus).
Context (targets forced : list TermCampusKey) (now : OffsetDateTime).
Context (overlays : list PreparedOpenOverlay) (evidence : list (TermCampusKey * list OpenEvidence)).
Context (Hover : Forall2 (λ o te, overlay_of catalogs corpus te.1 te.2 o) overlays evidence).
Context (Hbind : binding_valid catalogs corpus targets forced overlays).
Context (engine : QueryEngine) (Hengine : bound_engine corpus targets forced now overlays engine).

#[local] Abbreviation items := (mjoin evidence.*2).
#[local] Abbreviation chosen := (selected catalogs targets).

Lemma chosen_valid : catalogs_valid chosen.
Proof. apply selected_valid; [done|apply Hbind..]. Qed.

Lemma overlay_targets : pv_target <$> overlays = evidence.*1.
Proof. by apply (overlay_targets_of catalogs corpus). Qed.

Lemma elem_of_items item : item ∈ items ↔ ∃ te, te ∈ evidence ∧ item ∈ te.2.
Proof.
  rewrite list_elem_of_join. split.
  - intros (l & Hin & (te & -> & Hte)%list_elem_of_fmap). by exists te.
  - intros (te & Hte & Hin). exists te.2. split; [done|]. by apply list_elem_of_fmap_2.
Qed.

Lemma evidence_overlay te : te ∈ evidence → ∃ o, o ∈ overlays ∧ overlay_of catalogs corpus te.1 te.2 o.
Proof.
  intros (i & Hi)%list_elem_of_lookup. destruct (Forall2_lookup_r _ _ _ _ _ Hover Hi) as (o & Ho & ?).
  exists o. split; [by eapply list_elem_of_lookup_2|done].
Qed.

Lemma items_NoDup : NoDup (oe_section_key <$> items).
Proof.
  assert (NoDup evidence.*1) as Hnd by (rewrite <-overlay_targets; apply Hbind).
  assert (∀ te, te ∈ evidence → NoDup (oe_section_key <$> te.2) ∧ ∀ item, item ∈ te.2 → sk_target (oe_section_key item) = te.1)
    as Hall.
  { intros te (o & _ & Ho)%evidence_overlay. split; [apply Ho|]. intros item Hin.
    pose proof (ov_items _ _ _ _ _ Ho) as Hitems. rewrite Forall_forall in Hitems. by apply Hitems. }
  clear Hover Hbind Hengine. induction evidence as [|te es IH]; [constructor|].
  apply NoDup_cons in Hnd as [Hnin Hnd]. simpl. rewrite fmap_app. apply NoDup_app. split_and!.
  - apply Hall. left.
  - intros k (item & -> & Hin)%list_elem_of_fmap (item' & Hk & Hin')%list_elem_of_fmap.
    apply list_elem_of_join in Hin' as (l & Hin' & (te' & -> & Hte')%list_elem_of_fmap).
    apply Hnin. destruct (Hall te ltac:(left)) as [_ Ht]. destruct (Hall te' ltac:(by right)) as [_ Ht'].
    rewrite <-(Ht item Hin), Hk, (Ht' item' Hin'). by apply list_elem_of_fmap_2.
  - apply IH; [done|]. intros te' Hin. apply Hall. by right.
Qed.

Lemma items_sections item :
  item ∈ items → is_Some (cc_sections (corpus_of chosen) !! oe_section_key item).
Proof.
  intros (te & Hte & Hin)%elem_of_items. destruct (evidence_overlay te Hte) as (o & Ho & Hov).
  pose proof (ov_items _ _ _ _ _ Hov) as Hitems. rewrite Forall_forall in Hitems.
  destruct (Hitems item Hin) as [Ht Hs]. rewrite <-selected_section.
  - cbn [cc_sections corpus_of]. by apply keyed_is_Some.
  - done.
  - rewrite Ht. apply (bv_covered _ _ _ _ _ Hbind). rewrite <-(ov_target _ _ _ _ _ Hov). by apply list_elem_of_fmap_2.
Qed.

(** The overlay of a target is the one consulted for its sections. *)
Lemma overlays_get_target open o key :
  NoDup (pv_target <$> open) → o ∈ open → pv_target o = sk_target key →
  overlays_get open key = overlay_get o key.
Proof.
  intros Hnd Ho Ht. unfold overlays_get.
  destruct (list_find_pred_Some (λ overlay, tck_term (pv_target overlay) = sk_term key
    ∧ tck_campus (pv_target overlay) = sk_campus key) open o Ho) as (i & o' & E); [by rewrite Ht|].
  rewrite E. apply list_find_Some in E as (Hi & [H1 H2] & _).
  assert (pv_target o' = pv_target o) as Hsame.
  { rewrite Ht. destruct (pv_target o') as [t c], key as [t' c' i']. simpl in *. unfold sk_target. simpl. congruence. }
  apply list_elem_of_lookup in Ho as [j Hj].
  assert (i = j) as ->; [|by rewrite Hi in Hj; injection Hj as ->].
  eapply NoDup_lookup; [exact Hnd|..]; rewrite list_lookup_fmap; [by rewrite Hi; simpl; rewrite Hsame|by rewrite Hj].
Qed.

Lemma recorded_open_key key :
  sk_target key ∈ targets → recorded_open engine key = Some (oe_evidence <$> first_with oe_section_key key items).
Proof.
  intros Ht. pose proof (be_open _ _ _ _ _ _ Hengine) as (open & E & Hnd & Hin).
  unfold recorded_open. rewrite E.
  apply (bv_covered _ _ _ _ _ Hbind), list_elem_of_fmap in Ht as (o & Hto & Ho).
  rewrite (overlays_get_target open o) by (try done; by apply Hin).
  apply list_elem_of_lookup in Ho as [i Hi]. destruct (Forall2_lookup_l _ _ _ _ _ Hover Hi) as (te & Hte & Hov).
  apply list_elem_of_lookup_2 in Hte. rewrite (ov_get _ _ _ _ _ Hov). f_equal. f_equal. apply option_eq. intros item.
  rewrite !first_with_Some by (apply items_NoDup || apply Hov). rewrite elem_of_items. split; [naive_solver|].
  intros [(te' & Hte' & Hitem) Hk]. split; [|done].
  destruct (evidence_overlay te' Hte') as (o' & Ho' & Hov').
  pose proof (ov_items _ _ _ _ _ Hov') as Hitems. rewrite Forall_forall in Hitems.
  assert (te'.1 = te.1) as Hsame.
  { destruct (Hitems item Hitem) as [<- _]. by rewrite Hk, Hto, (ov_target _ _ _ _ _ Hov). }
  assert (NoDup evidence.*1) as Hnde by (rewrite <-overlay_targets; apply Hbind).
  apply list_elem_of_lookup in Hte as [j Hj], Hte' as [j' Hj'].
  assert (j = j') as <-; [|congruence].
  eapply NoDup_lookup; [exact Hnde|..]; rewrite list_lookup_fmap; [by rewrite Hj|by rewrite Hj'; simpl; rewrite Hsame].
Qed.

Lemma served_open :
  ∃ open, built_open (corpus_of chosen) (served_evidence forced now <$> items) ∅ = Ok open ∧
    ∀ k, open !! k = oe_evidence <$> (served_evidence forced now <$> first_with oe_section_key k items).
Proof.
  assert (oe_section_key <$> (served_evidence forced now <$> items) = oe_section_key <$> items) as Hkeys
    by (rewrite <-list_fmap_compose; apply list_fmap_ext; reflexivity).
  destruct (built_open_spec (corpus_of chosen) (served_evidence forced now <$> items) ∅) as (open & Hok & Hopen).
  - intros item (item' & -> & Hin)%list_elem_of_fmap. exact (items_sections item' Hin).
  - rewrite Hkeys. apply items_NoDup.
  - intros item _. apply lookup_empty.
  - exists open. split; [done|]. intros k. apply option_eq. intros e. rewrite Hopen, lookup_empty. split.
    + intros [?|(item & (item' & -> & Hin)%list_elem_of_fmap & Hk & <-)]; [done|].
      rewrite (proj2 (first_with_Some oe_section_key k items item' items_NoDup)) by (by split). done.
    + intros He. right. destruct (first_with oe_section_key k items) as [item|] eqn:E; [|done].
      apply first_with_Some in E as [Hin Hk]; [|apply items_NoDup]. exists (served_evidence forced now item).
      split_and!; [by apply list_elem_of_fmap_2|done|]. by injection He.
Qed.

Lemma forced_iff key : section_open_is_forced_unavailable engine key = bool_decide (sk_target key ∈ forced).
Proof.
  unfold section_open_is_forced_unavailable. rewrite (be_forced _ _ _ _ _ _ Hengine).
  apply eq_true_iff_eq.
  rewrite existsb_exists, bool_decide_eq_true. setoid_rewrite <-list_elem_of_In.
  setoid_rewrite andb_true_iff. setoid_rewrite bool_decide_eq_true. split.
  - intros (t & Hin & Ht & Hc). destruct t, key. unfold sk_target. simpl in *. by subst.
  - intros Hin. by exists (sk_target key).
Qed.

Lemma open_same open key :
  (∀ k, open !! k = oe_evidence <$> (served_evidence forced now <$> first_with oe_section_key k items)) →
  sk_target key ∈ targets →
  open_for engine key = open_for (built_engine chosen open now) key ∧
  open_state_for engine key = open_state_for (built_engine chosen open now) key.
Proof.
  intros Hopen Ht. unfold open_for, open_state_for. rewrite (recorded_open_key key Ht), forced_iff.
  pose proof (be_open _ _ _ _ _ _ Hengine) as (o & Eo & _). unfold is_prepared. rewrite Eo.
  rewrite (be_now _ _ _ _ _ _ Hengine). cbn [recorded_open built_engine qe_open].
  rewrite Hopen. cbn [mbind option_bind].
  destruct (first_with oe_section_key key items) as [item|] eqn:E; [|done]. simpl.
  apply first_with_Some in E as [_ <-]; [|apply items_NoDup].
  unfold served_evidence. simpl. by destruct (_ || _).
Qed.

Lemma list_find_versions (m : gmap TermCampusKey CatalogContentVersion) (t : TermCampusKey) :
  (p ← list_find (λ kv, kv.1 = t) (btm_iter m); Some (t, p.2.2)) = (pair t <$> m !! t).
Proof.
  destruct (list_find (λ kv, kv.1 = t) (btm_iter m)) as [[i [t' version]]|] eqn:E; simpl.
  - apply list_find_Some in E as (Hi & Ht & _). simpl in Ht. subst t'.
    apply list_elem_of_lookup_2, elem_of_btm_iter in Hi. by rewrite Hi.
  - destruct (m !! t) as [version|] eqn:Em; [|done]. apply list_find_None in E. rewrite Forall_forall in E.
    destruct (E (t, version)); [|done]. by apply elem_of_btm_iter.
Qed.

Lemma active_same open : qe_active_targets engine = qe_active_targets (built_engine chosen open now).
Proof.
  pose proof (be_sorted _ _ _ _ _ _ Hengine) as Hs. apply (StronglySorted_unique rle).
  - induction Hs as [|t l Hl IH Ht]; [constructor|]. constructor; [done|].
    eapply Forall_impl; [exact Ht|]. intros t' Hlt. unfold rle. by rewrite Hlt.
  - cbn [qe_active_targets built_engine]. unfold cc_iter_target_versions. rewrite btm_iter_keys.
    apply StronglySorted_btm_keys.
  - apply NoDup_Permutation.
    + by apply (sorted_lt_NoDup rcmp).
    + cbn [qe_active_targets built_engine]. unfold cc_iter_target_versions. rewrite btm_iter_keys.
      apply NoDup_btm_keys.
    + intros t. rewrite (be_active _ _ _ _ _ _ Hengine), built_targets, list_elem_of_fmap.
      setoid_rewrite elem_of_selected. split.
      * intros Ht. pose proof (bv_known _ _ _ _ _ Hbind t Ht) as (c & -> & Hc)%list_elem_of_fmap. by exists c.
      * by intros (c & -> & _ & ?).
Qed.

Lemma bound_agrees open :
  (∀ k, open !! k = oe_evidence <$> (served_evidence forced now <$> first_with oe_section_key k items)) →
  agrees chosen open now engine.
Proof.
  intros Hopen. pose proof (be_active _ _ _ _ _ _ Hengine) as Hactive.
  assert (∀ t, t ∈ qe_active_targets engine → t ∈ nca_target <$> catalogs) as Hknown
    by (intros t Ht%Hactive; by apply Hbind).
  assert (∀ T (key : T → TermCampusKey) (l : list T), filter (λ x, key x ∈ qe_active_targets engine) l
    = filter (λ x, key x ∈ targets) l) as Hfilter.
  { intros T key l. apply list_filter_iff. intros x. apply Hactive. }
  split; rewrite ?(be_corpus _ _ _ _ _ _ Hengine).
  - apply active_same.
  - apply Hengine.
  - cbn [ec_term]. rewrite (po_term _ _ Hpo).
    destruct (list_exists_mem catalogs (cv_nonempty _ Hval)) as [c Hc].
    rewrite <-(cv_term _ Hval c Hc). by apply selected_term; [|apply Hbind..|].
  - simpl. rewrite (for_each_group_eq catalogs corpus Hval Hpo _ (be_sorted _ _ _ _ _ _ Hengine) Hknown).
    by rewrite (Hfilter _ (λ g, cgk_target (ncg_key g))), selected_iter_groups.
  - simpl. rewrite (for_each_section_eq catalogs corpus Hval Hpo _ (be_sorted _ _ _ _ _ _ Hengine) Hknown).
    by rewrite (Hfilter _ (λ s, sk_target (nse_key s))), selected_iter_sections.
  - intros k Hk%Hactive. simpl. by rewrite (pc_group_eq catalogs corpus Hval Hpo), (selected_group catalogs Hval targets).
  - intros k Hk%Hactive. simpl. by rewrite (pc_variant_eq catalogs corpus Hval Hpo), (selected_variant catalogs Hval targets).
  - intros k Hk%Hactive. simpl. by rewrite (pc_section_eq catalogs corpus Hval Hpo), (selected_section catalogs Hval targets).
  - intros g Hg. pose proof Hg as [Hg' _]%selected_groups; [|done]. simpl.
    by rewrite (pc_variants_for_eq catalogs corpus Hval Hpo), (selected_variants_for catalogs Hval targets).
  - intros v Hv. pose proof Hv as [Hv' _]%selected_variants; [|done]. simpl.
    by rewrite (pc_sections_for_eq catalogs corpus Hval Hpo), (selected_sections_for catalogs Hval targets).
  - intros s Hs. pose proof Hs as [Hs' _]%selected_sections; [|done]. simpl.
    by rewrite (pc_occurrences_for_eq catalogs corpus Hval Hpo), (selected_occurrences_for catalogs Hval targets).
  - unfold expected_versions. rewrite (be_corpus _ _ _ _ _ _ Hengine), <-(active_same open).
    cbn [ec_target_versions qe_corpus built_engine]. unfold pc_iter_target_versions, cc_iter_target_versions.
    f_equal. apply mapM_ext_in. intros t Ht%Hactive. rewrite !list_find_versions, (po_versions _ _ Hpo).
    rewrite (selected_version catalogs Hval targets); [done|apply Hbind|done].
  - intros s [_ Ht]%selected_sections; [|done]. by apply open_same.
Qed.

End bound.

(** ** The refinement *)

(** C3. A request bound to a prepared corpus is the request on its catalogs: the
    prepared engine gives, for every search and every detail, exactly the result
    of the engine built from the catalogs of the selected targets and the
    evidence of the overlays, with evidence of forced targets and evidence that
    is no longer fresh at the instant of the request turned uncertain; that
    engine exists, so neither engine panics on any request. *)
Theorem prepared_engine_refines `{KeyHash} (catalogs : list NormalizedCatalogV1) (corpus : PreparedCatalogCorpus)
    (targets forced : list TermCampusKey) (now : OffsetDateTime) (overlays : list PreparedOpenOverlay)
    (evidence : list (TermCampusKey * list OpenEvidence)) (engine : QueryEngine) :
  PreparedCatalogCorpus_try_new catalogs = Ok corpus →
  Forall2 (λ o te, PreparedOpenOverlay_try_new corpus te.1 te.2 = Some (Ok o)) overlays evidence →
  QueryEngine_try_new_prepared corpus targets forced now overlays = Ok engine →
  ∃ built,
    QueryEngine_try_new_from_refs (filter (λ c, nca_target c ∈ targets) catalogs) now
      (served_evidence forced now <$> mjoin evidence.*2) = Ok built ∧
    (∀ request text_hits, course_search engine request text_hits = course_search built request text_hits ∧
       is_Some (course_search engine request text_hits)) ∧
    (∀ request text_hits, section_search engine request text_hits = section_search built request text_hits ∧
       is_Some (section_search engine request text_hits)) ∧
    (∀ key, course_detail engine key = course_detail built key) ∧
    (∀ key, section_detail engine key = section_detail built key).
Proof.
  intros [Hval Hpo]%prepared_Ok Hoverlays Hengine.
  assert (Forall2 (λ o te, overlay_of catalogs corpus te.1 te.2 o) overlays evidence) as Hover.
  { eapply Forall2_impl; [exact Hoverlays|]. intros o te Hte. simpl in Hte.
    destruct (overlay_try_new catalogs corpus Hval Hpo te.1 te.2) as (r & Hr & Hspec).
    rewrite Hte in Hr. by injection Hr as <-. }
  pose proof (try_new_prepared_spec catalogs corpus Hval Hpo targets forced now overlays) as Hspec.
  rewrite Hengine in Hspec. destruct Hspec as [Hbind Hbound].
  pose proof (chosen_valid catalogs corpus Hval targets forced overlays Hbind) as Hchosen.
  destruct (served_open catalogs corpus Hval targets forced now overlays evidence Hover Hbind) as (open & Hopen & Hlookup).
  pose proof (bound_agrees catalogs corpus Hval Hpo targets forced now overlays evidence Hover Hbind engine Hbound open Hlookup)
    as Hag.
  assert (QueryEngine_try_new_from_refs (selected catalogs targets) now (served_evidence forced now <$> mjoin evidence.*2)
    = Ok (built_engine (selected catalogs targets) open now)) as Hbuilt.
  { unfold QueryEngine_try_new_from_refs.
    rewrite (proj2 (try_new_Ok _ (corpus_of (selected catalogs targets))) (conj Hchosen eq_refl)), Hopen. done. }
  exists (built_engine (selected catalogs targets) open now). split; [exact Hbuilt|]. split_and!.
  - intros request hits. rewrite (course_search_same _ Hchosen open now engine Hag). split; [done|].
    destruct (built_course_search _ open now request hits Hchosen) as (outcome & Hs & _). by exists outcome.
  - intros request hits. rewrite (section_search_same _ Hchosen open now engine Hag). split; [done|].
    destruct (built_section_search _ open now request hits Hchosen) as (outcome & Hs & _). by exists outcome.
  - apply (course_detail_same _ Hchosen open now engine Hag).
  - apply (section_detail_same _ Hchosen open now engine Hag).
Qed.

(** At instant 100 the evidence of the sample, fresh until 60, is uncertain. *)
#[local] Existing Instance colliding_hash.

Definition sample_bound : QueryEngine :=
  match QueryEngine_try_new_prepared sample_prepared [sample_target] [] 100 [sample_overlay] with
  | Ok engine => engine
  | Err _ => {| qe_corpus := EngineCorpus_Prepared sample_prepared; qe_active_targets := [];
                qe_forced_open_unavailable := []; qe_now := 0; qe_open := EngineOpen_Prepared [] |}
  end.

Lemma sample_bound_Ok :
  QueryEngine_try_new_prepared sample_prepared [sample_target] [] 100 [sample_overlay] = Ok sample_bound.
Proof. vm_compute. reflexivity. Qed.

Lemma prepared_engine_refines_witness :
  ∃ built,
    QueryEngine_try_new_from_refs (filter (λ c, nca_target c ∈ [sample_target]) [sample_catalog]) 100
      (served_evidence [] 100 <$> mjoin [(sample_target, sample_open)].*2) = Ok built ∧
    section_search sample_bound sample_section_request None = section_search built sample_section_request None ∧
    match section_search sample_bound sample_section_request None with
    | Some (Ok response) => (λ item, lo_uncertainty (si_open (sx_section item))) <$> sqr_items response
        = [Some MatchReasonCode_SourceUnavailable; Some MatchReasonCode_SourceUnavailable]
    | _ => False
    end.
Proof.
  assert (Forall2 (λ o te, PreparedOpenOverlay_try_new sample_prepared te.1 te.2 = Some (Ok o)) [sample_overlay]
    [(sample_target, sample_open)]) as Ho
    by (apply Forall2_cons; split; [apply sample_overlay_Ok|constructor]).
  destruct (prepared_engine_refines [sample_catalog] sample_prepared [sample_target] [] 100 [sample_overlay]
    [(sample_target, sample_open)] sample_bound sample_prepared_Ok Ho sample_bound_Ok) as (built & Hb & _ & Hs & _).
  exists built. split; [exact Hb|]. split; [apply Hs|]. vm_compute. reflexivity.
Defined.
