(* ===== verification/DomainCourse.v ===== *)
(** * The course model of the domain (crates/bcsp-domain/src/course.rs)

    Checked construction of course variants and course groups, and the
    classification of duplicate section records. *)

From S2P Require Import Prelude Ordering Identity Contracts CatalogData.

(** ** Data *)

Inductive DomainReasonCode :=
| DomainReasonCode_EmptyCourseGroup
| DomainReasonCode_VariantGroupMismatch
| DomainReasonCode_DuplicateVariantFingerprint
| DomainReasonCode_SectionScopeMismatch
| DomainReasonCode_DuplicateSection
| DomainReasonCode_SectionAcrossVariants
| DomainReasonCode_EmptyDuplicateSet
| DomainReasonCode_DuplicateKeyMismatch
| DomainReasonCode_ConflictingDuplicate.

Inductive DomainModelError :=
| DomainModelError_EmptyCourseGroup
| DomainModelError_VariantGroupMismatch
| DomainModelError_DuplicateVariantFingerprint
| DomainModelError_SectionScopeMismatch
| DomainModelError_DuplicateSection
| DomainModelError_SectionAcrossVariants
| DomainModelError_EmptyDuplicateSet
| DomainModelError_DuplicateKeyMismatch
| DomainModelError_ConflictingDuplicate.

Definition reason_code (error : DomainModelError) : DomainReasonCode :=
  match error with
  | DomainModelError_EmptyCourseGroup => DomainReasonCode_EmptyCourseGroup
  | DomainModelError_VariantGroupMismatch => DomainReasonCode_VariantGroupMismatch
  | DomainModelError_DuplicateVariantFingerprint => DomainReasonCode_DuplicateVariantFingerprint
  | DomainModelError_SectionScopeMismatch => DomainReasonCode_SectionScopeMismatch
  | DomainModelError_DuplicateSection => DomainReasonCode_DuplicateSection
  | DomainModelError_SectionAcrossVariants => DomainReasonCode_SectionAcrossVariants
  | DomainModelError_EmptyDuplicateSet => DomainReasonCode_EmptyDuplicateSet
  | DomainModelError_DuplicateKeyMismatch => DomainReasonCode_DuplicateKeyMismatch
  | DomainModelError_ConflictingDuplicate => DomainReasonCode_ConflictingDuplicate
  end.

Record CourseVariant := { dv_key : CourseVariantKey; dv_section_keys : list SectionKey }.

Record CourseGroup := { dg_key : CourseGroupKey; dg_variants : list CourseVariant }.

Record SectionDuplicate (T : Type) := { sd_section_key : SectionKey; sd_semantic_fingerprint : T }.
Arguments sd_section_key {T}.
Arguments sd_semantic_fingerprint {T}.

Inductive DuplicateDisposition :=
| DuplicateDisposition_Unique
| DuplicateDisposition_AuditedEquivalentCollapse.

(** ** Construction *)

(** [windows(2)] with an equal pair. *)
Fixpoint any_equal_pair {A : Type} `{EqDecision A} (l : list A) : bool :=
  match l with
  | x :: ((y :: _) as l) => bool_decide (x = y) || any_equal_pair l
  | _ => false
  end.

Definition in_scope (key : CourseVariantKey) (section : SectionKey) : bool :=
  bool_decide (sk_term section = cgk_term (cvk_group key)) &&
  bool_decide (sk_campus section = cgk_campus (cvk_group key)).

Definition CourseVariant_try_new (key : CourseVariantKey) (section_keys : list SectionKey)
    : result DomainModelError CourseVariant :=
  if existsb (λ section, negb (in_scope key section)) section_keys
  then Err DomainModelError_SectionScopeMismatch else
  let section_keys := sort_by rcmp section_keys in
  if any_equal_pair section_keys then Err DomainModelError_DuplicateSection else
  Ok {| dv_key := key; dv_section_keys := section_keys |}.

(** Inserting each section into [attached_sections]. *)
Fixpoint attach_sections (attached : gset SectionKey) (sections : list SectionKey)
    : result DomainModelError () :=
  match sections with
  | [] => Ok ()
  | section :: sections =>
      if bool_decide (section ∈ attached) then Err DomainModelError_SectionAcrossVariants
      else attach_sections ({[ section ]} ∪ attached) sections
  end.

Definition CourseGroup_try_new (key : CourseGroupKey) (variants : list CourseVariant)
    : result DomainModelError CourseGroup :=
  match variants with
  | [] => Err DomainModelError_EmptyCourseGroup
  | _ =>
      if existsb (λ variant, negb (bool_decide (cvk_group (dv_key variant) = key))) variants
      then Err DomainModelError_VariantGroupMismatch else
      let variants := sort_by (λ left right, rcmp (dv_key left) (dv_key right)) variants in
      if any_equal_pair (dv_key <$> variants) then Err DomainModelError_DuplicateVariantFingerprint else
      attach_sections ∅ (variants ≫= dv_section_keys);;
      Ok {| dg_key := key; dg_variants := variants |}
  end.

(** [T] is ordered; the distinct fingerprints are those of a [BTreeSet]. *)
Definition classify_section_duplicates {T : Type} `{Countable T} (records : list (SectionDuplicate T))
    : result DomainModelError DuplicateDisposition :=
  match records with
  | [] => Err DomainModelError_EmptyDuplicateSet
  | first :: _ =>
      if existsb (λ record, negb (bool_decide (sd_section_key record = sd_section_key first))) records
      then Err DomainModelError_DuplicateKeyMismatch else
      if bool_decide (length records = 1%nat) then Ok DuplicateDisposition_Unique else
      if bool_decide (size (list_to_set (sd_semantic_fingerprint <$> records) : gset T) = 1%nat)
      then Ok DuplicateDisposition_AuditedEquivalentCollapse
      else Err DomainModelError_ConflictingDuplicate
  end.

(** * Correctness *)

(** Sorted by an order that tells keys apart, the equal ones are neighbours. *)
Lemma any_equal_pair_sorted {A : Type} `{EqDecision A, ROrdLaws A} (l : list A) :
  StronglySorted rle l → any_equal_pair l = true ↔ ¬ NoDup l.
Proof.
  induction 1 as [|x l Hl IH Hx]; [split; [done|intros []; constructor]|].
  destruct l as [|y l]; [split; [done|intros []; apply NoDup_singleton]|].
  simpl any_equal_pair. rewrite orb_true_iff, bool_decide_eq_true, IH, (NoDup_cons x (y :: l)).
  rewrite Forall_forall in Hx. split; [intros [->|Hd] [Hn Hnd]; [apply Hn; left|done]|].
  intros Hd. destruct (decide (x = y)) as [|Hne]; [by left|right]. intros Hnd. apply Hd. split; [|done].
  intros [->|Hin]%elem_of_cons; [done|]. apply Hne, (anti_symm rle); [apply Hx; left|].
  apply StronglySorted_inv in Hl as [_ Hy]. rewrite Forall_forall in Hy. by apply Hy.
Qed.

Lemma any_equal_pair_perm {A : Type} `{EqDecision A, ROrdLaws A} (l l' : list A) :
  StronglySorted rle l → l ≡ₚ l' → any_equal_pair l = negb (bool_decide (NoDup l')).
Proof.
  intros Hs Hperm. apply eq_true_iff_eq. by rewrite any_equal_pair_sorted, Hperm, negb_true_iff, bool_decide_eq_false.
Qed.

Lemma existsb_negb_false {A : Type} (p : A → bool) l :
  existsb (λ x, negb (p x)) l = false ↔ ∀ x, x ∈ l → p x = true.
Proof.
  rewrite <-not_true_iff_false, existsb_exists. split.
  - intros Hn x Hx. destruct (p x) eqn:E; [done|]. destruct Hn. exists x. rewrite E. by rewrite <-list_elem_of_In.
  - intros Hall (x & Hx%list_elem_of_In & Hp). by rewrite (Hall x Hx) in Hp.
Qed.

Lemma attach_sections_spec attached sections :
  attach_sections attached sections =
    if bool_decide (NoDup sections ∧ Forall (λ s, s ∉ attached) sections) then Ok ()
    else Err DomainModelError_SectionAcrossVariants.
Proof.
  revert attached. induction sections as [|s l IH]; intros attached; cbn [attach_sections].
  { rewrite bool_decide_true; [done|]. split; constructor. }
  case_bool_decide as Hs.
  - rewrite bool_decide_false; [done|]. by intros [_ [? _]%Forall_cons].
  - rewrite IH. erewrite bool_decide_ext; [reflexivity|].
    rewrite NoDup_cons, Forall_cons, !Forall_forall. set_solver.
Qed.

(** ** Variants *)

Lemma in_scope_spec key section :
  in_scope key section = true ↔ sk_target section = cgk_target (cvk_group key).
Proof.
  unfold in_scope, sk_target, cgk_target. rewrite andb_true_iff, !bool_decide_eq_true.
  split; [by intros [-> ->]|by intros [=]].
Qed.

(** The variant of a key and its sections, if they are in scope and distinct. *)
Lemma variant_try_new_cases key sections :
  match CourseVariant_try_new key sections with
  | Ok v => (∀ s, s ∈ sections → sk_target s = cgk_target (cvk_group key)) ∧ NoDup sections ∧
      v = {| dv_key := key; dv_section_keys := sort_by rcmp sections |}
  | Err DomainModelError_SectionScopeMismatch =>
      ∃ s, s ∈ sections ∧ sk_target s ≠ cgk_target (cvk_group key)
  | Err DomainModelError_DuplicateSection =>
      (∀ s, s ∈ sections → sk_target s = cgk_target (cvk_group key)) ∧ ¬ NoDup sections
  | Err _ => False
  end.
Proof.
  unfold CourseVariant_try_new. destruct (existsb _ sections) eqn:Hscope.
  - apply existsb_exists in Hscope as (s & Hs%list_elem_of_In & Hn%negb_true_iff).
    exists s. split; [done|]. by rewrite <-in_scope_spec, Hn.
  - rewrite existsb_negb_false in Hscope. setoid_rewrite in_scope_spec in Hscope.
    rewrite (any_equal_pair_perm _ _ (sort_rcmp_sorted sections) (sort_rcmp_perm sections)).
    by case_bool_decide.
Qed.

(** ** Groups *)

Abbreviation group_order := (compare_keys dv_key) (only parsing).

(** The group of a nonempty list of variants, as a chain of conditions that do
    not depend on their order. *)
Lemma group_try_new_chain key variants :
  CourseGroup_try_new key variants =
    if bool_decide (variants = []) then Err DomainModelError_EmptyCourseGroup
    else if bool_decide (Forall (λ v, cvk_group (dv_key v) = key) variants) then
      if bool_decide (NoDup (dv_key <$> variants)) then
        if bool_decide (NoDup (variants ≫= dv_section_keys))
        then Ok {| dg_key := key; dg_variants := sort_by group_order variants |}
        else Err DomainModelError_SectionAcrossVariants
      else Err DomainModelError_DuplicateVariantFingerprint
    else Err DomainModelError_VariantGroupMismatch.
Proof.
  destruct variants as [|v l]; [done|]. rewrite bool_decide_false by done. unfold CourseGroup_try_new.
  generalize (v :: l). clear v l. intros variants.
  destruct (existsb _ variants) eqn:Hex.
  { rewrite bool_decide_false; [done|]. apply existsb_exists in Hex as (v & Hv%list_elem_of_In & Hn%negb_true_iff).
    apply bool_decide_eq_false in Hn. rewrite Forall_forall. intros Hall. by apply Hn, Hall. }
  rewrite existsb_negb_false in Hex. setoid_rewrite bool_decide_eq_true in Hex.
  rewrite bool_decide_true by by apply Forall_forall.
  change (λ left right, rcmp (dv_key left) (dv_key right)) with group_order.
  assert (sort_by group_order variants ≡ₚ variants) as Hperm
    by exact (sort_by_perm group_order variants).
  assert (StronglySorted rle (dv_key <$> sort_by group_order variants)) as Hsorted.
  { by eapply StronglySorted_fmap, (@sort_by_sorted _ group_order (compare_keys_comparator dv_key)). }
  rewrite (any_equal_pair_perm _ (dv_key <$> variants) Hsorted) by by apply fmap_Permutation.
  case_bool_decide; [|done]. simpl.
  rewrite attach_sections_spec, (bool_decide_ext _ (NoDup (variants ≫= dv_section_keys))); [by case_bool_decide|].
  rewrite (bind_Permutation dv_section_keys _ _ Hperm), Forall_forall. set_solver.
Qed.

Lemma not_NoDup_lookup {A : Type} `{EqDecision A} (l : list A) :
  ¬ NoDup l → ∃ i j x, i ≠ j ∧ l !! i = Some x ∧ l !! j = Some x.
Proof.
  induction l as [|x l IH]; [intros []; constructor|]. rewrite NoDup_cons. intros Hn.
  destruct (decide (x ∈ l)) as [[j Hj]%list_elem_of_lookup|Hx].
  - exists O, (S j), x. done.
  - destruct IH as (i & j & y & Hij & Hi & Hj); [tauto|]. exists (S i), (S j), y. split_and!; [lia|done|done].
Qed.

(** Sections repeat in distinct lists only across two of them. *)
Lemma repeated_across (variants : list CourseVariant) :
  Forall (λ v, NoDup (dv_section_keys v)) variants → ¬ NoDup (variants ≫= dv_section_keys) →
  ∃ i j v v' s, i ≠ j ∧ variants !! i = Some v ∧ variants !! j = Some v' ∧
    s ∈ dv_section_keys v ∧ s ∈ dv_section_keys v'.
Proof.
  induction 1 as [|v l Hv Hl IH]; [intros []; constructor|]. cbn [mbind list_bind]. rewrite NoDup_app. intros Hn.
  destruct (decide (NoDup (l ≫= dv_section_keys))) as [Hnd|Hnd].
  - destruct (decide (Forall (λ s, s ∉ l ≫= dv_section_keys) (dv_section_keys v))) as [Hall|Hex].
    { destruct Hn. rewrite Forall_forall in Hall. done. }
    apply not_Forall_Exists, Exists_exists in Hex as (s & Hs & Hin%dec_stable); [|apply _].
    apply list_elem_of_bind in Hin as (v' & Hs' & [j Hj]%list_elem_of_lookup).
    by exists O, (S j), v, v', s.
  - destruct (IH Hnd) as (i & j & v1 & v2 & s & Hij & H1 & H2 & Hs). exists (S i), (S j), v1, v2, s.
    split_and!; [lia|done|done|apply Hs|apply Hs].
Qed.

(** C29. A course group built from variants whose sections are in scope and
    distinct: on success it holds exactly those variants, strictly ordered by
    key, all of the group's key, and each section of the group, of its term and
    campus, belongs to one variant. Each error is given exactly for its reason,
    in the order of the checks, and neither outcome depends on the order of the
    variants. *)
Theorem course_group_spec key (inputs : list (CourseVariantKey * list SectionKey)) variants
    (Hvariants : mapM (λ i, CourseVariant_try_new i.1 i.2) inputs = Ok variants) :
  match CourseGroup_try_new key variants with
  | Ok g => variants ≠ [] ∧ dg_key g = key ∧ dg_variants g ≡ₚ variants ∧
      StronglySorted (λ v v', group_order v v' = Lt) (dg_variants g) ∧
      NoDup (dg_variants g ≫= dv_section_keys) ∧
      ∀ v, v ∈ dg_variants g → cvk_group (dv_key v) = key ∧
        ∀ s, s ∈ dv_section_keys v → sk_target s = cgk_target key
  | Err DomainModelError_EmptyCourseGroup => variants = []
  | Err DomainModelError_VariantGroupMismatch => ∃ v, v ∈ variants ∧ cvk_group (dv_key v) ≠ key
  | Err DomainModelError_DuplicateVariantFingerprint =>
      (∀ v, v ∈ variants → cvk_group (dv_key v) = key) ∧ ¬ NoDup (dv_key <$> variants)
  | Err DomainModelError_SectionAcrossVariants =>
      (∀ v, v ∈ variants → cvk_group (dv_key v) = key) ∧ NoDup (dv_key <$> variants) ∧
      ∃ i j v v' s, i ≠ j ∧ variants !! i = Some v ∧ variants !! j = Some v' ∧
        s ∈ dv_section_keys v ∧ s ∈ dv_section_keys v'
  | Err _ => False
  end ∧
  ∀ variants', variants' ≡ₚ variants → CourseGroup_try_new key variants' = CourseGroup_try_new key variants.
Proof.
  assert (Forall (λ v, NoDup (dv_section_keys v) ∧ ∀ s, s ∈ dv_section_keys v →
    sk_target s = cgk_target (cvk_group (dv_key v))) variants) as Hwf.
  { apply mapM_result_Ok in Hvariants. induction Hvariants as [|i v inputs' l Hv _ IH]; constructor; [|done].
    pose proof (variant_try_new_cases i.1 i.2) as Hcase. rewrite Hv in Hcase. destruct Hcase as (Hs & Hnd & ->).
    simpl. rewrite sort_rcmp_perm. split; [done|]. intros s. rewrite sort_rcmp_perm. apply Hs. }
  split.
  - rewrite group_try_new_chain. case_bool_decide as Hnil; [done|]. case_bool_decide as Hgroup.
    2: { apply not_Forall_Exists, Exists_exists in Hgroup; [done|apply _]. }
    rewrite Forall_forall in Hgroup. case_bool_decide as Hkeys; [|done]. case_bool_decide as Hsections; simpl.
    + pose proof (sort_by_perm group_order variants) as Hperm. split_and!; [done|done|done| | |].
      * by apply sort_by_strict.
      * by rewrite (bind_Permutation dv_section_keys _ _ Hperm).
      * intros v Hv. rewrite Hperm in Hv. rewrite Forall_forall in Hwf. destruct (Hwf v Hv) as [_ Hs].
        rewrite <-(Hgroup v Hv). done.
    + split_and!; [done|done|]. apply repeated_across; [|done]. eapply Forall_impl; [exact Hwf|]. by intros v [? _].
  - intros variants' Hperm. rewrite !group_try_new_chain.
    rewrite (bool_decide_ext (variants' = []) (variants = [])).
    2: { split; intros ->; [by apply Permutation_nil_l in Hperm|by apply Permutation_nil_r in Hperm]. }
    rewrite (bool_decide_ext (Forall _ variants') (Forall (λ v, cvk_group (dv_key v) = key) variants)) by by rewrite Hperm.
    rewrite (bool_decide_ext (NoDup (dv_key <$> variants')) (NoDup (dv_key <$> variants))) by by rewrite Hperm.
    rewrite (bool_decide_ext (NoDup (variants' ≫= _)) (NoDup (variants ≫= dv_section_keys)))
      by by rewrite (bind_Permutation dv_section_keys _ _ Hperm).
    repeat case_bool_decide; try done. by rewrite (sort_distinct_keys dv_key variants' variants).
Qed.

(** Duplicate records are classified by what they hold, in any order: one
    record is unique; several of one section with one fingerprint collapse;
    several of different sections, and several of one section whose
    fingerprints differ, are errors. *)
Theorem duplicate_classification {T : Type} `{Countable T} (records : list (SectionDuplicate T)) :
  match classify_section_duplicates records with
  | Ok DuplicateDisposition_Unique => ∃ r, records = [r]
  | Ok DuplicateDisposition_AuditedEquivalentCollapse => (2 ≤ length records)%nat ∧
      ∀ r r', r ∈ records → r' ∈ records → sd_section_key r = sd_section_key r' ∧
        sd_semantic_fingerprint r = sd_semantic_fingerprint r'
  | Err DomainModelError_EmptyDuplicateSet => records = []
  | Err DomainModelError_DuplicateKeyMismatch =>
      ∃ r r', r ∈ records ∧ r' ∈ records ∧ sd_section_key r ≠ sd_section_key r'
  | Err DomainModelError_ConflictingDuplicate =>
      (∀ r r', r ∈ records → r' ∈ records → sd_section_key r = sd_section_key r') ∧
      ∃ r r', r ∈ records ∧ r' ∈ records ∧ sd_semantic_fingerprint r ≠ sd_semantic_fingerprint r'
  | Err _ => False
  end.
Proof.
  unfold classify_section_duplicates. destruct records as [|first l] eqn:E; [done|].
  assert (first ∈ records) as Hfirst by (rewrite E; left). rewrite <-E. destruct (existsb _ records) eqn:Hex.
  { apply existsb_exists in Hex as (r & Hr%list_elem_of_In & Hn%negb_true_iff%bool_decide_eq_false). by exists r, first. }
  rewrite existsb_negb_false in Hex. setoid_rewrite bool_decide_eq_true in Hex.
  assert (∀ r r', r ∈ records → r' ∈ records → sd_section_key r = sd_section_key r') as Hkeys.
  { intros r r' Hr Hr'. by rewrite (Hex r Hr), (Hex r' Hr'). }
  case_bool_decide as Hlen.
  { destruct records as [|r [|]]; [done| |done]. by exists r. }
  set (fingerprints := list_to_set (sd_semantic_fingerprint <$> records) : gset T).
  assert (∀ r, r ∈ records → sd_semantic_fingerprint r ∈ fingerprints) as Hin.
  { intros r Hr. apply elem_of_list_to_set, list_elem_of_fmap. by exists r. }
  case_bool_decide as Hsize.
  - apply size_1_elem_of in Hsize as [x Hx]. split; [rewrite E in Hlen |- *; destruct l; simpl in *; lia|].
    intros r r' Hr Hr'. split; [by apply Hkeys|]. apply Hin in Hr, Hr'.
    rewrite Hx in Hr, Hr'. apply elem_of_singleton in Hr, Hr'. congruence.
  - split; [done|]. destruct (decide (Forall (λ r, sd_semantic_fingerprint r = sd_semantic_fingerprint first) records)) as [Hall|Hex'].
    + destruct Hsize. replace fingerprints with ({[ sd_semantic_fingerprint first ]} : gset T); [apply size_singleton|].
      apply leibniz_equiv. intros x. rewrite elem_of_singleton. unfold fingerprints.
      rewrite elem_of_list_to_set, list_elem_of_fmap. rewrite Forall_forall in Hall.
      split; [intros ->; by exists first|]. intros (r & -> & Hr). by apply Hall.
    + apply not_Forall_Exists, Exists_exists in Hex' as (r & Hr & Hne); [|apply _]. by exists r, first.
Qed.

(** ** Witnesses *)

Definition sample_group_key (course : string) : CourseGroupKey :=
  {| cgk_term := mkTermId "92026"; cgk_campus := mkCampusCode "NB"; cgk_course_string := mkCourseString course |}.
Definition sample_variant_input (fingerprint : string) (sections : list string) : CourseVariantKey * list SectionKey :=
  ({| cvk_group := sample_group_key "01:198:111"; cvk_fingerprint := mkVariantFingerprint fingerprint |},
   (λ i, SectionKey_new (mkTermId "92026") (mkCampusCode "NB") (mkSectionIndex i)) <$> sections).
Definition sample_variant (fingerprint : string) (sections : list string) : CourseVariant :=
  {| dv_key := (sample_variant_input fingerprint sections).1;
     dv_section_keys := (sample_variant_input fingerprint sections).2 |}.

Lemma course_group_spec_witness :
  CourseGroup_try_new (sample_group_key "01:198:111") [sample_variant "v2" ["00003"]; sample_variant "v1" ["00001"; "00002"]]
    = Ok {| dg_key := sample_group_key "01:198:111";
            dg_variants := [sample_variant "v1" ["00001"; "00002"]; sample_variant "v2" ["00003"]] |} ∧
  CourseGroup_try_new (sample_group_key "01:198:111") [sample_variant "v1" ["00001"; "00002"]; sample_variant "v2" ["00003"]]
    = Ok {| dg_key := sample_group_key "01:198:111";
            dg_variants := [sample_variant "v1" ["00001"; "00002"]; sample_variant "v2" ["00003"]] |}.
Proof.
  assert (CourseGroup_try_new (sample_group_key "01:198:111")
    [sample_variant "v2" ["00003"]; sample_variant "v1" ["00001"; "00002"]] =
    Ok {| dg_key := sample_group_key "01:198:111";
          dg_variants := [sample_variant "v1" ["00001"; "00002"]; sample_variant "v2" ["00003"]] |}) as Hok
    by (vm_compute; reflexivity).
  split; [exact Hok|]. rewrite <-Hok.
  apply (course_group_spec (sample_group_key "01:198:111")
    [sample_variant_input "v2" ["00003"]; sample_variant_input "v1" ["00002"; "00001"]]
    [sample_variant "v2" ["00003"]; sample_variant "v1" ["00001"; "00002"]] ltac:(vm_compute; reflexivity)).
  apply Permutation_swap.
Defined.
