(* ===== verification/TermWindow.v ===== *)
(** * The Rutgers term window (crates/bcsp-domain/src/term_window.rs)

    Which term is current on a day, and which terms around it a product shows.
    The calendar is a table of published dates; a term whose dates are not
    published is missing, and a window that needs it is unavailable. Dates, time
    zones and timestamps are those of the [jiff] crate, a parameter. *)

From stdpp Require Import pretty.
From S2P Require Import Prelude Ordering Identity Contracts.

(** ** The [jiff] crate *)

(** [jiff::civil::Date] with its constant constructor and order,
    [jiff::Timestamp::new], [jiff::tz::TimeZone::get] and the civil date of
    [Timestamp::to_zoned]. *)
Class JiffApi := {
  JDate : Type;
  JTimestamp : Type;
  JTimeZone : Type;
  date_constant : Z → Z → Z → JDate;
  date_year : JDate → Z;
  date_month : JDate → Z;
  date_day : JDate → Z;
  date_cmp : JDate → JDate → comparison;
  timestamp_new : Z → Z → option JTimestamp;
  time_zone_get : string → option JTimeZone;
  zoned_date : JTimestamp → JTimeZone → JDate
}.

Definition is_leap_year (y : Z) : bool :=
  bool_decide (y mod 4 = 0) && negb (bool_decide (y mod 100 = 0)) || bool_decide (y mod 400 = 0).
Definition days_in_month (y m : Z) : Z :=
  if bool_decide (m = 2) then if is_leap_year y then 29 else 28
  else if bool_decide (m ∈ [4; 6; 9; 11]) then 30 else 31.

(** A date of the proleptic Gregorian calendar in the range of the crate. *)
Definition civil_date (y m d : Z) : bool :=
  bool_decide (-9999 ≤ y ≤ 9999) && bool_decide (1 ≤ m ≤ 12) && bool_decide (1 ≤ d ≤ days_in_month y m).

(** What the documentation says of dates: the fields are those of a date of the
    calendar, a constant of such fields has them, and dates are ordered by year,
    then month, then day. *)
Class JiffLaws `{JiffApi} : Prop := {
  date_fields d : civil_date (date_year d) (date_month d) (date_day d) = true;
  date_constant_fields y m d :
    civil_date y m d = true →
    date_year (date_constant y m d) = y ∧ date_month (date_constant y m d) = m ∧
    date_day (date_constant y m d) = d;
  date_cmp_lexicographic d d' :
    date_cmp d d' = cmp_then (rcmp (date_year d) (date_year d'))
      (cmp_then (rcmp (date_month d) (date_month d')) (rcmp (date_day d) (date_day d')))
}.

Section term_window.
Context `{JiffApi}.

Definition date_leb (d d' : JDate) : bool := match date_cmp d d' with Gt => false | _ => true end.
Definition date_ltb (d d' : JDate) : bool := match date_cmp d d' with Lt => true | _ => false end.

(** [Iterator::max_by_key]: the last of the maximal elements. *)
Definition max_by {A} (cmp : A → A → comparison) (l : list A) : option A :=
  match l with
  | [] => None
  | x :: l => Some (foldl (λ a b, match cmp a b with Gt => a | _ => b end) x l)
  end.

(** ** Data *)

Definition RUTGERS_TERM_CALENDAR_VERSION : string := "2026-07-17.2".
Definition RUTGERS_TERM_CALENDAR_DIAGNOSTIC_CODE : string := "TERM_CALENDAR_UNAVAILABLE".
Definition RUTGERS_TIME_ZONE : string := "America/New_York".

Inductive RutgersTermWindowScope :=
| RutgersTermWindowScope_Public
| RutgersTermWindowScope_Local.

Definition offset_bounds (scope : RutgersTermWindowScope) : Z * Z :=
  match scope with
  | RutgersTermWindowScope_Public => (0, 1)
  | RutgersTermWindowScope_Local => (-2, 2)
  end.

Inductive RutgersTermSeason :=
| RutgersTermSeason_Winter
| RutgersTermSeason_Spring
| RutgersTermSeason_Summer
| RutgersTermSeason_Fall.

Definition term_code (season : RutgersTermSeason) : Z :=
  match season with
  | RutgersTermSeason_Winter => 0
  | RutgersTermSeason_Spring => 1
  | RutgersTermSeason_Summer => 7
  | RutgersTermSeason_Fall => 9
  end.

#[export] Instance RutgersTermSeason_eq_dec : EqDecision RutgersTermSeason.
Proof. solve_decision. Defined.

Record TermIdentity := { ti_season : RutgersTermSeason; ti_year : Z }.

#[export] Instance TermIdentity_eq_dec : EqDecision TermIdentity.
Proof. solve_decision. Defined.

Inductive RutgersTermWindowError :=
| RutgersTermWindowError_TimeZoneUnavailable
| RutgersTermWindowError_TimestampOutOfRange
| RutgersTermWindowError_CalendarOutOfRange (rutgers_day : JDate)
| RutgersTermWindowError_InvalidTermIdentity.

Definition diagnostic_code (error : RutgersTermWindowError) : string :=
  RUTGERS_TERM_CALENDAR_DIAGNOSTIC_CODE.

(** Where the dates of an academic year were published. *)
Record RutgersCalendarSource := {
  academic_year : string;
  fall_spring_source_url : string;
  winter_summer_source_url : string;
  winter_summer_dates_verified : bool;
  retrieved_on : string
}.

Definition DEFAULT_CALENDAR_SOURCE_URL : string := "https://senate.rutgers.edu/wp-content/uploads/2019/10/ASRAC-Report-S-1509-September-2017.pdf".
Definition PUBLISHED_SESSION_CALENDAR_URL : string := "https://scheduling.rutgers.edu/academic-calendar/".
Definition ACADEMIC_CALENDAR_DIRECTORY_URL : string :=
  "https://academicaffairs.rutgers.edu/academic-calendar-directory/".

Definition RUTGERS_CALENDAR_SOURCES : list RutgersCalendarSource := [
  {| academic_year := "2025-2026"; fall_spring_source_url := DEFAULT_CALENDAR_SOURCE_URL;
     winter_summer_source_url := PUBLISHED_SESSION_CALENDAR_URL; winter_summer_dates_verified := true;
     retrieved_on := "2026-07-17" |};
  {| academic_year := "2026-2027"; fall_spring_source_url := DEFAULT_CALENDAR_SOURCE_URL;
     winter_summer_source_url := PUBLISHED_SESSION_CALENDAR_URL; winter_summer_dates_verified := true;
     retrieved_on := "2026-07-17" |};
  {| academic_year := "2027-2028"; fall_spring_source_url := DEFAULT_CALENDAR_SOURCE_URL;
     winter_summer_source_url := PUBLISHED_SESSION_CALENDAR_URL; winter_summer_dates_verified := false;
     retrieved_on := "2026-07-17" |};
  {| academic_year := "2028-2029"; fall_spring_source_url := DEFAULT_CALENDAR_SOURCE_URL;
     winter_summer_source_url := ACADEMIC_CALENDAR_DIRECTORY_URL; winter_summer_dates_verified := false;
     retrieved_on := "2026-07-17" |};
  {| academic_year := "2029-2030"; fall_spring_source_url := DEFAULT_CALENDAR_SOURCE_URL;
     winter_summer_source_url := ACADEMIC_CALENDAR_DIRECTORY_URL; winter_summer_dates_verified := false;
     retrieved_on := "2026-07-17" |};
  {| academic_year := "2030-2031"; fall_spring_source_url := DEFAULT_CALENDAR_SOURCE_URL;
     winter_summer_source_url := ACADEMIC_CALENDAR_DIRECTORY_URL; winter_summer_dates_verified := false;
     retrieved_on := "2026-07-17" |}
].

Record RutgersVisibleTerm := {
  rv_term : TermId;
  rv_season : RutgersTermSeason;
  rv_year : Z;
  rv_relative_offset : Z;
  rv_starts_on : JDate;
  rv_ends_on : JDate
}.

Definition watchable (term : RutgersVisibleTerm) : bool :=
  bool_decide (rv_relative_offset term = 0) || bool_decide (rv_relative_offset term = 1).
Definition auto_managed (term : RutgersVisibleTerm) : bool :=
  bool_decide (rv_relative_offset term = 0) || bool_decide (rv_relative_offset term = 1).

Record RutgersTermWindow := {
  rw_rutgers_day : JDate;
  rw_current_term : TermId;
  rw_next_term : TermId;
  rw_visible_terms : list RutgersVisibleTerm
}.

Record TermCalendarEntry := {
  te_season : RutgersTermSeason;
  te_year : Z;
  te_starts_on : JDate;
  te_ends_on : JDate
}.

Definition te_identity (entry : TermCalendarEntry) : TermIdentity :=
  {| ti_season := te_season entry; ti_year := te_year entry |}.

(** [format!] of the season's code and the year. *)
Definition term_id (entry : TermCalendarEntry) : result RutgersTermWindowError TermId :=
  match TermId_try_from (pretty (term_code (te_season entry)) +:+ pretty (te_year entry)) with
  | Ok term => Ok term
  | Err _ => Err RutgersTermWindowError_InvalidTermIdentity
  end.

Definition visible_term (entry : TermCalendarEntry) (relative_offset : Z)
    : result RutgersTermWindowError RutgersVisibleTerm :=
  term ← term_id entry;
  Ok {| rv_term := term; rv_season := te_season entry; rv_year := te_year entry;
        rv_relative_offset := relative_offset; rv_starts_on := te_starts_on entry;
        rv_ends_on := te_ends_on entry |}.

(** ** The sequence of terms *)

(** [i16::checked_add] and [i16::checked_sub]. *)
Definition i16_checked (year : Z) : option Z :=
  if bool_decide (-2 ^ 15 ≤ year < 2 ^ 15) then Some year else None.

Definition ti_next (term : TermIdentity) : option TermIdentity :=
  match ti_season term with
  | RutgersTermSeason_Winter => Some {| ti_season := RutgersTermSeason_Spring; ti_year := ti_year term |}
  | RutgersTermSeason_Spring => Some {| ti_season := RutgersTermSeason_Summer; ti_year := ti_year term |}
  | RutgersTermSeason_Summer => Some {| ti_season := RutgersTermSeason_Fall; ti_year := ti_year term |}
  | RutgersTermSeason_Fall =>
      year ← i16_checked (ti_year term + 1);
      Some {| ti_season := RutgersTermSeason_Winter; ti_year := year |}
  end.

Definition ti_previous (term : TermIdentity) : option TermIdentity :=
  match ti_season term with
  | RutgersTermSeason_Winter =>
      year ← i16_checked (ti_year term - 1);
      Some {| ti_season := RutgersTermSeason_Fall; ti_year := year |}
  | RutgersTermSeason_Spring => Some {| ti_season := RutgersTermSeason_Winter; ti_year := ti_year term |}
  | RutgersTermSeason_Summer => Some {| ti_season := RutgersTermSeason_Spring; ti_year := ti_year term |}
  | RutgersTermSeason_Fall => Some {| ti_season := RutgersTermSeason_Summer; ti_year := ti_year term |}
  end.

Fixpoint ti_steps (step : TermIdentity → option TermIdentity) (n : nat) (term : TermIdentity)
    : option TermIdentity :=
  match n with
  | O => Some term
  | S n => term ← step term; ti_steps step n term
  end.

Definition ti_offset (term : TermIdentity) (offset : Z) : option TermIdentity :=
  if bool_decide (offset < 0) then ti_steps ti_previous (Z.to_nat (Z.abs offset)) term
  else ti_steps ti_next (Z.to_nat offset) term.

(** ** The calendar *)

Record TermDateRange := { dr_starts_on : JDate; dr_ends_on : JDate }.

Record AcademicYearCalendarEntry := {
  ay_fall_year : Z;
  ay_fall : TermDateRange;
  ay_winter : option TermDateRange;
  ay_spring : TermDateRange;
  ay_summer : option TermDateRange
}.

Definition ACADEMIC_YEAR_CALENDAR : list AcademicYearCalendarEntry := [
  {| ay_fall_year := 2025;
     ay_fall := {| dr_starts_on := date_constant 2025 9 2; dr_ends_on := date_constant 2025 12 22 |};
     ay_winter := Some {| dr_starts_on := date_constant 2025 12 22; dr_ends_on := date_constant 2026 1 16 |};
     ay_spring := {| dr_starts_on := date_constant 2026 1 20; dr_ends_on := date_constant 2026 5 13 |};
     ay_summer := Some {| dr_starts_on := date_constant 2026 5 26; dr_ends_on := date_constant 2026 8 12 |} |};
  {| ay_fall_year := 2026;
     ay_fall := {| dr_starts_on := date_constant 2026 9 1; dr_ends_on := date_constant 2026 12 22 |};
     ay_winter := Some {| dr_starts_on := date_constant 2026 12 23; dr_ends_on := date_constant 2027 1 15 |};
     ay_spring := {| dr_starts_on := date_constant 2027 1 19; dr_ends_on := date_constant 2027 5 12 |};
     ay_summer := Some {| dr_starts_on := date_constant 2027 6 1; dr_ends_on := date_constant 2027 8 18 |} |};
  {| ay_fall_year := 2027;
     ay_fall := {| dr_starts_on := date_constant 2027 9 1; dr_ends_on := date_constant 2027 12 23 |};
     ay_winter := Some {| dr_starts_on := date_constant 2027 12 23; dr_ends_on := date_constant 2028 1 14 |};
     ay_spring := {| dr_starts_on := date_constant 2028 1 18; dr_ends_on := date_constant 2028 5 10 |};
     ay_summer := None |};
  {| ay_fall_year := 2028;
     ay_fall := {| dr_starts_on := date_constant 2028 9 5; dr_ends_on := date_constant 2028 12 22 |};
     ay_winter := None;
     ay_spring := {| dr_starts_on := date_constant 2029 1 16; dr_ends_on := date_constant 2029 5 9 |};
     ay_summer := None |};
  {| ay_fall_year := 2029;
     ay_fall := {| dr_starts_on := date_constant 2029 9 4; dr_ends_on := date_constant 2029 12 21 |};
     ay_winter := None;
     ay_spring := {| dr_starts_on := date_constant 2030 1 22; dr_ends_on := date_constant 2030 5 15 |};
     ay_summer := None |};
  {| ay_fall_year := 2030;
     ay_fall := {| dr_starts_on := date_constant 2030 9 3; dr_ends_on := date_constant 2030 12 23 |};
     ay_winter := None;
     ay_spring := {| dr_starts_on := date_constant 2031 1 21; dr_ends_on := date_constant 2031 5 14 |};
     ay_summer := None |}
].

Definition rutgers_day_at (value : OffsetDateTime) : result RutgersTermWindowError JDate :=
  timestamp ← ok_or RutgersTermWindowError_TimestampOutOfRange
    (timestamp_new (value / NANOS_PER_SEC) (value mod NANOS_PER_SEC));
  time_zone ← ok_or RutgersTermWindowError_TimeZoneUnavailable (time_zone_get RUTGERS_TIME_ZONE);
  Ok (zoned_date timestamp time_zone).

Definition term_calendar_entry_from_range (season : RutgersTermSeason) (year : Z) (range : TermDateRange)
    : TermCalendarEntry :=
  {| te_season := season; te_year := year; te_starts_on := dr_starts_on range; te_ends_on := dr_ends_on range |}.

Definition academic_year_terms (entry : AcademicYearCalendarEntry) : list TermCalendarEntry :=
  let session_year := ay_fall_year entry + 1 in
  omap id [
    Some (term_calendar_entry_from_range RutgersTermSeason_Fall (ay_fall_year entry) (ay_fall entry));
    term_calendar_entry_from_range RutgersTermSeason_Winter session_year <$> ay_winter entry;
    Some (term_calendar_entry_from_range RutgersTermSeason_Spring session_year (ay_spring entry));
    term_calendar_entry_from_range RutgersTermSeason_Summer session_year <$> ay_summer entry
  ].

Definition known_term_calendar : list TermCalendarEntry := ACADEMIC_YEAR_CALENDAR ≫= academic_year_terms.

Definition term_calendar_entry (identity : TermIdentity) : option TermCalendarEntry :=
  snd <$> list_find (λ term, te_identity term = identity) known_term_calendar.

Definition current_term_entry (day : JDate) : option TermCalendarEntry :=
  match max_by (λ a b, date_cmp (te_starts_on a) (te_starts_on b))
          (filter (λ term, date_leb (te_starts_on term) day && date_leb day (te_ends_on term)) known_term_calendar) with
  | Some term => Some term
  | None =>
      previous ← max_by (λ a b, date_cmp (te_ends_on a) (te_ends_on b))
        (filter (λ term, date_ltb (te_ends_on term) day) known_term_calendar);
      next ← min_by (λ a b, date_cmp (te_starts_on a) (te_starts_on b))
        (filter (λ term, date_ltb day (te_starts_on term)) known_term_calendar);
      if bool_decide (ti_next (te_identity previous) = Some (te_identity next)) then Some next else None
  end.

(** The entry at an offset from the current term. *)
Definition entry_at (current : TermCalendarEntry) (offset : Z) : option TermCalendarEntry :=
  identity ← ti_offset (te_identity current) offset; term_calendar_entry identity.

Definition offsets (bounds : Z * Z) : list Z := seqZ bounds.1 (bounds.2 - bounds.1 + 1).

Definition RutgersTermWindow_at (now : OffsetDateTime) (scope : RutgersTermWindowScope)
    : result RutgersTermWindowError RutgersTermWindow :=
  rutgers_day ← rutgers_day_at now;
  let out_of_range := RutgersTermWindowError_CalendarOutOfRange rutgers_day in
  current_term ← ok_or out_of_range (current_term_entry rutgers_day);
  next_term ← ok_or out_of_range (entry_at current_term 1);
  visible_terms ← mapM (λ relative_offset,
    entry ← ok_or out_of_range (entry_at current_term relative_offset);
    visible_term entry relative_offset) (offsets (offset_bounds scope));
  current ← term_id current_term;
  next ← term_id next_term;
  Ok {| rw_rutgers_day := rutgers_day; rw_current_term := current; rw_next_term := next;
        rw_visible_terms := visible_terms |}.

End term_window.
