(* ===== verification/TermWindowFacts.v ===== *)
(** * The current term and the term window

    On every day at most one term is current: the last that has started and has
    not ended, or, between two consecutive published terms, the next one. It
    never moves back. A window is available exactly on the days around which
    every term it needs is published. *)

From S2P Require Import Prelude Ordering Identity Contracts TermWindow.

Section facts.
Context `{JiffLaws}.

(** ** Dates as integers *)

Definition date_key (d : JDate) : Z := (date_year d * 12 + date_month d) * 31 + date_day d.

Lemma date_cmp_key d d' : date_cmp d d' = Z.compare (date_key d) (date_key d').
Proof.
  rewrite date_cmp_lexicographic. unfold date_key, rcmp, Z_rord.
  pose proof (date_fields d) as Hd. pose proof (date_fields d') as Hd'. unfold civil_date in *.
  rewrite !andb_true_iff, !bool_decide_eq_true in *.
  assert (∀ y m, days_in_month y m ≤ 31) as Hdays.
  { intros y m. unfold days_in_month. repeat case_match; lia. }
  pose proof (Hdays (date_year d) (date_month d)). pose proof (Hdays (date_year d') (date_month d')).
  destruct (Z.compare_spec (date_year d) (date_year d')) as [->| |]; simpl.
  - destruct (Z.compare_spec (date_month d) (date_month d')) as [->| |]; simpl.
    + destruct (Z.compare_spec (date_day d) (date_day d')) as [->| |]; symmetry;
        [apply Z.compare_refl|apply Z.compare_lt_iff|apply Z.compare_gt_iff]; lia.
    + symmetry. apply Z.compare_lt_iff. lia.
    + symmetry. apply Z.compare_gt_iff. lia.
  - symmetry. apply Z.compare_lt_iff. lia.
  - symmetry. apply Z.compare_gt_iff. lia.
Qed.

Lemma date_leb_key d d' : date_leb d d' = true ↔ date_key d ≤ date_key d'.
Proof. unfold date_leb. rewrite date_cmp_key. destruct (Z.compare_spec (date_key d) (date_key d')); split; try done; lia. Qed.
Lemma date_ltb_key d d' : date_ltb d d' = true ↔ date_key d < date_key d'.
Proof. unfold date_ltb. rewrite date_cmp_key. destruct (Z.compare_spec (date_key d) (date_key d')); split; try done; lia. Qed.

Lemma date_key_constant y m d :
  civil_date y m d = true → date_key (date_constant y m d) = (y * 12 + m) * 31 + d.
Proof. intros Hc. destruct (date_constant_fields y m d Hc) as (Hy & Hm & Hd). unfold date_key. by rewrite Hy, Hm, Hd. Qed.

(** ** Extrema *)

Lemma max_by_None {A} (cmp : A → A → comparison) l : max_by cmp l = None ↔ l = [].
Proof. destruct l; done. Qed.

Lemma max_by_key {A} (cmp : A → A → comparison) (key : A → Z) l x :
  (∀ a b, cmp a b = Z.compare (key a) (key b)) → max_by cmp l = Some x →
  x ∈ l ∧ ∀ y, y ∈ l → key y ≤ key x.
Proof.
  intros Hcmp. destruct l as [|a l]; [done|]. simpl. intros [= <-].
  assert (∀ b, foldl (λ a b, match cmp a b with Gt => a | _ => b end) b l ∈ b :: l ∧
    ∀ y, y ∈ b :: l → key y ≤ key (foldl (λ a b, match cmp a b with Gt => a | _ => b end) b l)) as Hgen; [|apply Hgen].
  induction l as [|c l IH]; intros b; simpl.
  { split; [left|]. by intros y ->%list_elem_of_singleton. }
  destruct (IH (match cmp b c with Gt => b | _ => c end)) as [Hin Hmax]. split.
  - apply elem_of_cons in Hin as [->|Hin]; [|by right; right]. destruct (cmp b c); [right; left|right; left|left].
  - assert (key b ≤ key (match cmp b c with Gt => b | _ => c end) ∧ key c ≤ key (match cmp b c with Gt => b | _ => c end))
      as [Hb Hc].
    { rewrite Hcmp. destruct (Z.compare_spec (key b) (key c)); lia. }
    intros y [->|[->|Hy]%elem_of_cons]%elem_of_cons.
    + specialize (Hmax _ ltac:(left)). lia.
    + specialize (Hmax _ ltac:(left)). lia.
    + apply Hmax. by right.
Qed.

Lemma min_by_key {A} (cmp : A → A → comparison) (key : A → Z) l x :
  (∀ a b, cmp a b = Z.compare (key a) (key b)) → min_by cmp l = Some x →
  x ∈ l ∧ ∀ y, y ∈ l → key x ≤ key y.
Proof.
  intros Hcmp Hmin. apply min_by_spec in Hmin as [Hin Hle].
  - split; [done|]. intros y Hy. specialize (Hle y Hy). rewrite Hcmp in Hle.
    by destruct (Z.compare_spec (key x) (key y)); [lia..|].
  - intros a. by rewrite Hcmp, Z.compare_refl.
  - intros a b. rewrite !Hcmp, (Z.compare_antisym (key a) (key b)). by intros ->.
  - intros a b c. rewrite !Hcmp. apply Z.le_trans.
Qed.

(** ** The current term of a sorted calendar *)

Definition starts (t : TermCalendarEntry) : Z := date_key (te_starts_on t).
Definition ends (t : TermCalendarEntry) : Z := date_key (te_ends_on t).

(** What the published dates satisfy. *)
Record calendar_sorted (cal : list TermCalendarEntry) : Prop := {
  cs_order i t : cal !! i = Some t → starts t ≤ ends t;
  cs_increasing i j t t' : cal !! i = Some t → cal !! j = Some t' → (i < j)%nat →
    starts t < starts t' ∧ ends t < ends t'
}.

(** The terms at [i - 1] and [i] are consecutive. *)
Definition adjacent (cal : list TermCalendarEntry) (i : nat) : Prop :=
  ∃ j p t, i = S j ∧ cal !! j = Some p ∧ cal !! i = Some t ∧ ti_next (te_identity p) = Some (te_identity t).

(** The [i]-th term is current on a day: it has started, or the day follows the
    term before it; it has not ended; and no later term has started. *)
Record current_at (cal : list TermCalendarEntry) (day : JDate) (i : nat) (t : TermCalendarEntry) : Prop := {
  ca_term : cal !! i = Some t;
  ca_begun : starts t ≤ date_key day ∨
    ∃ j p, i = S j ∧ cal !! j = Some p ∧ ti_next (te_identity p) = Some (te_identity t) ∧ ends p < date_key day;
  ca_open : date_key day ≤ ends t;
  ca_last : ∀ j t', (i < j)%nat → cal !! j = Some t' → date_key day < starts t'
}.

Lemma current_at_unique cal day i i' t t' :
  calendar_sorted cal → current_at cal day i t → current_at cal day i' t' → i = i'.
Proof.
  intros Hs. assert (∀ i i' t t', current_at cal day i t → current_at cal day i' t' → ¬ (i < i')%nat) as Hle.
  { clear i i' t t'. intros i i' t t' [Ht _ Ho Hl] [Ht' Hb' _ _] Hlt. pose proof (Hl i' t' Hlt Ht').
    destruct Hb' as [?|(j & p & -> & Hp & _ & He)]; [lia|].
    destruct (decide (i = j)) as [->|Hne]; [rewrite Ht in Hp; injection Hp as ->; lia|].
    destruct (cs_increasing _ Hs i j t p Ht Hp ltac:(lia)). lia. }
  intros H1 H2. pose proof (Hle _ _ _ _ H1 H2). pose proof (Hle _ _ _ _ H2 H1). lia.
Qed.

Lemma current_at_monotone cal day day' i i' t t' :
  calendar_sorted cal → current_at cal day i t → current_at cal day' i' t' →
  date_key day ≤ date_key day' → (i ≤ i')%nat.
Proof.
  intros Hs [Ht Hb _ _] [Ht' _ Ho' Hl'] Hd. destruct (decide (i ≤ i')%nat) as [|Hlt]; [done|exfalso].
  pose proof (Hl' i t ltac:(lia) Ht). destruct Hb as [?|(j & p & -> & Hp & _ & He)]; [lia|].
  destruct (decide (i' = j)) as [->|Hne]; [rewrite Ht' in Hp; injection Hp as ->; lia|].
  destruct (cs_increasing _ Hs i' j t' p Ht' Hp ltac:(lia)). lia.
Qed.

(** Between consecutive terms some term is current. *)
Lemma current_at_reached cal day a b tb :
  calendar_sorted cal → (a ≤ b)%nat → cal !! b = Some tb →
  (∀ i, (a < i ≤ b)%nat → adjacent cal i) →
  (∀ ta, cal !! a = Some ta → starts ta ≤ date_key day ∨
     ∃ j p, a = S j ∧ cal !! j = Some p ∧ ti_next (te_identity p) = Some (te_identity ta) ∧ ends p < date_key day) →
  date_key day ≤ ends tb → (∀ j t', (b < j)%nat → cal !! j = Some t' → date_key day < starts t') →
  ∃ i t, (a ≤ i ≤ b)%nat ∧ current_at cal day i t.
Proof.
  intros Hs. revert tb. induction b as [|b IH]; intros tb Hab Hb Hadj Hlow Hup Hlater.
  { assert (a = O) as -> by lia. exists O, tb. split; [lia|]. split; auto. }
  destruct (decide (starts tb ≤ date_key day)); [exists (S b), tb; split; [lia|]; split; auto|].
  destruct (decide (a = S b)) as [->|Hne]; [exists (S b), tb; split; [lia|]; split; auto|].
  destruct (Hadj (S b) ltac:(lia)) as (j & p & t & [= <-] & Hp & Ht & Hnext).
  assert (t = tb) as -> by congruence.
  destruct (decide (ends p < date_key day)).
  { exists (S b), tb. split; [lia|]. split; auto. right. by exists b, p. }
  destruct (IH p) as (i & t' & Hi & Hc); [lia|done| |done|lia| |exists i, t'; split; [lia|done]].
  - intros i Hi. apply Hadj. lia.
  - intros j t' Hj Hj'. destruct (decide (j = S b)) as [->|]; [|apply (Hlater j t'); [lia|done]].
    assert (t' = tb) as -> by congruence. lia.
Qed.

(** ** The published calendar *)

(** The calendar as an explicit list. *)
Ltac explicit_calendar :=
  let cal := eval cbv -[date_constant] in known_term_calendar in change known_term_calendar with cal.

Lemma date_constant_lt y m d y' m' d' :
  civil_date y m d && civil_date y' m' d' && bool_decide ((y * 12 + m) * 31 + d < (y' * 12 + m') * 31 + d') = true →
  date_key (date_constant y m d) < date_key (date_constant y' m' d').
Proof.
  intros [[? ?]%andb_true_iff ?%bool_decide_eq_true]%andb_true_iff. by rewrite !date_key_constant.
Qed.

Lemma known_sorted : calendar_sorted known_term_calendar.
Proof.
  pose proof date_constant_lt as Hlt.
  assert (Forall (λ t, starts t < ends t) known_term_calendar) as Hall.
  { explicit_calendar. repeat (apply Forall_cons; split; [apply Hlt; vm_compute; reflexivity|]). apply Forall_nil. done. }
  assert (StronglySorted (λ t t', starts t < starts t' ∧ ends t < ends t') known_term_calendar) as Hsorted.
  { apply Sorted_StronglySorted; [intros ? ? ? [] []; lia|].
    explicit_calendar. repeat (apply Sorted_cons; [|apply HdRel_nil || (apply HdRel_cons; split; apply Hlt; vm_compute; reflexivity)]).
    apply Sorted_nil. }
  split.
  - intros i t Ht. rewrite Forall_lookup in Hall. specialize (Hall i t Ht). simpl in Hall. lia.
  - clear Hall Hlt. induction Hsorted as [|t l Hl IH Hall]; [by intros i j t t' Ht|].
    rewrite Forall_forall in Hall. intros [|i] [|j] t1 t2; simpl; intros H1 H2 Hij; [lia| |lia|].
    + injection H1 as <-. by apply Hall, (list_elem_of_lookup_2 _ j).
    + by apply (IH i j); [..|lia].
Qed.

Lemma max_by_Some {A} (cmp : A → A → comparison) l y : y ∈ l → ∃ x, max_by cmp l = Some x.
Proof. destruct l; [by intros ?%not_elem_of_nil|]. intros _. eexists. reflexivity. Qed.
Lemma min_by_Some {A} (cmp : A → A → comparison) l y : y ∈ l → ∃ x, min_by cmp l = Some x.
Proof. intros Hy. destruct (min_by cmp l) eqn:E; [by eexists|]. apply min_by_None in E as ->. by apply not_elem_of_nil in Hy. Qed.

Lemma starts_cmp a b : date_cmp (te_starts_on a) (te_starts_on b) = Z.compare (starts a) (starts b).
Proof. apply date_cmp_key. Qed.
Lemma ends_cmp a b : date_cmp (te_ends_on a) (te_ends_on b) = Z.compare (ends a) (ends b).
Proof. apply date_cmp_key. Qed.

Section current.
Context (cal : list TermCalendarEntry) (Hs : calendar_sorted cal) (day : JDate).

(** The three selections of the current term. *)
Definition running : list TermCalendarEntry :=
  filter (λ term, date_leb (te_starts_on term) day && date_leb day (te_ends_on term)) cal.
Definition past : list TermCalendarEntry := filter (λ term, date_ltb (te_ends_on term) day) cal.
Definition future : list TermCalendarEntry := filter (λ term, date_ltb day (te_starts_on term)) cal.

Lemma elem_of_running t : t ∈ running ↔ t ∈ cal ∧ starts t ≤ date_key day ≤ ends t.
Proof. unfold running. rewrite list_elem_of_filter, Is_true_true, andb_true_iff, !date_leb_key. unfold starts, ends. tauto. Qed.
Lemma elem_of_past t : t ∈ past ↔ t ∈ cal ∧ ends t < date_key day.
Proof. unfold past. rewrite list_elem_of_filter, Is_true_true, date_ltb_key. unfold ends. tauto. Qed.
Lemma elem_of_future t : t ∈ future ↔ t ∈ cal ∧ date_key day < starts t.
Proof. unfold future. rewrite list_elem_of_filter, Is_true_true, date_ltb_key. unfold starts. tauto. Qed.

(** Positions are ordered as starts and as ends. *)
Lemma starts_le i j t t' : cal !! i = Some t → cal !! j = Some t' → starts t ≤ starts t' → (i ≤ j)%nat.
Proof.
  intros Hi Hj Hle. destruct (decide (i ≤ j)%nat); [done|].
  destruct (cs_increasing _ Hs j i t' t Hj Hi ltac:(lia)). lia.
Qed.
Lemma ends_le i j t t' : cal !! i = Some t → cal !! j = Some t' → ends t ≤ ends t' → (i ≤ j)%nat.
Proof.
  intros Hi Hj Hle. destruct (decide (i ≤ j)%nat); [done|].
  destruct (cs_increasing _ Hs j i t' t Hj Hi ltac:(lia)). lia.
Qed.
Lemma le_starts i j t t' : cal !! i = Some t → cal !! j = Some t' → (i ≤ j)%nat → starts t ≤ starts t' ∧ ends t ≤ ends t'.
Proof.
  intros Hi Hj Hle. destruct (decide (i = j)) as [<-|]; [rewrite Hi in Hj; injection Hj as <-; lia|].
  destruct (cs_increasing _ Hs i j t t' Hi Hj ltac:(lia)). lia.
Qed.

Lemma running_current t :
  max_by (λ a b, date_cmp (te_starts_on a) (te_starts_on b)) running = Some t → ∃ i, current_at cal day i t.
Proof.
  intros [Hin Hmax]%(max_by_key _ starts); [|apply starts_cmp].
  apply elem_of_running in Hin as [[i Hi]%list_elem_of_lookup [Hb Ho]].
  exists i. split; [done|by left|done|]. intros j t' Hij Hj.
  destruct (cs_increasing _ Hs i j t t' Hi Hj Hij) as [Hst Hen].
  destruct (decide (date_key day < starts t')); [done|].
  assert (starts t' ≤ starts t); [|lia]. apply Hmax, elem_of_running.
  split; [by eapply list_elem_of_lookup_2|lia].
Qed.

Lemma gap_current p n :
  running = [] → max_by (λ a b, date_cmp (te_ends_on a) (te_ends_on b)) past = Some p →
  min_by (λ a b, date_cmp (te_starts_on a) (te_starts_on b)) future = Some n →
  ti_next (te_identity p) = Some (te_identity n) → ∃ i, current_at cal day i n.
Proof.
  intros Hrun [Hp Hpmax]%(max_by_key _ ends) [Hn Hnmin]%(min_by_key _ starts) Hnext; [|apply starts_cmp|apply ends_cmp].
  apply elem_of_past in Hp as [[ip Hip]%list_elem_of_lookup Hpe].
  apply elem_of_future in Hn as [[i Hi]%list_elem_of_lookup Hns].
  pose proof (cs_order _ Hs i n Hi) as Hno.
  assert (ip < i)%nat.
  { destruct (decide (ip < i)%nat); [done|]. destruct (le_starts i ip n p Hi Hip ltac:(lia)). lia. }
  assert (i = S ip) as ->.
  { destruct (decide (i = S ip)); [done|exfalso].
    destruct (lookup_lt_is_Some_2 cal (S ip)) as [m Hm]; [apply lookup_lt_Some in Hi; lia|].
    destruct (cs_increasing _ Hs ip (S ip) p m Hip Hm ltac:(lia)).
    destruct (cs_increasing _ Hs (S ip) i m n Hm Hi ltac:(lia)).
    assert (m ∈ cal) as Hmin by by eapply list_elem_of_lookup_2.
    destruct (decide (ends m < date_key day)).
    { specialize (Hpmax m ltac:(by apply elem_of_past)). lia. }
    destruct (decide (date_key day < starts m)).
    { specialize (Hnmin m ltac:(by apply elem_of_future)). lia. }
    assert (m ∈ running) as Hr by (apply elem_of_running; split; [done|lia]).
    rewrite Hrun in Hr. by apply not_elem_of_nil in Hr. }
  exists (S ip). split; [done|right; by exists ip, p|lia|].
  intros j t' Hij Hj. destruct (cs_increasing _ Hs (S ip) j n t' Hi Hj Hij). lia.
Qed.

Lemma current_running i t :
  current_at cal day i t → starts t ≤ date_key day →
  max_by (λ a b, date_cmp (te_starts_on a) (te_starts_on b)) running = Some t.
Proof.
  intros [Hi _ Ho Hl] Hb.
  assert (t ∈ running) as Hr by (apply elem_of_running; split; [by eapply list_elem_of_lookup_2|lia]).
  destruct (max_by_Some (λ a b, date_cmp (te_starts_on a) (te_starts_on b)) _ _ Hr) as [x Hx].
  rewrite Hx. apply (max_by_key _ starts) in Hx as [Hin Hmax]; [|apply starts_cmp].
  apply elem_of_running in Hin as [[k Hk]%list_elem_of_lookup Hday]. specialize (Hmax t Hr).
  pose proof (starts_le i k t x Hi Hk Hmax). destruct (decide (i = k)) as [->|]; [congruence|].
  pose proof (Hl k x ltac:(lia) Hk). lia.
Qed.

Lemma current_gap i t :
  current_at cal day i t → date_key day < starts t →
  running = [] ∧
  ∃ p, max_by (λ a b, date_cmp (te_ends_on a) (te_ends_on b)) past = Some p ∧
    min_by (λ a b, date_cmp (te_starts_on a) (te_starts_on b)) future = Some t ∧
    ti_next (te_identity p) = Some (te_identity t).
Proof.
  intros [Hi Hb Ho Hl] Hday. destruct Hb as [?|(j & p & -> & Hp & Hnext & Hend)]; [lia|].
  assert (∀ k x, cal !! k = Some x → ends x < date_key day ∨ date_key day < starts x) as Hgap.
  { intros k x Hk. destruct (decide (k ≤ j)%nat).
    - left. destruct (le_starts k j x p Hk Hp l). lia.
    - right. destruct (le_starts (S j) k t x Hi Hk ltac:(lia)). lia. }
  assert (p ∈ past) as Hpp by (apply elem_of_past; split; [by eapply list_elem_of_lookup_2|done]).
  assert (t ∈ future) as Htf by (apply elem_of_future; split; [by eapply list_elem_of_lookup_2|done]).
  split; [|exists p; split_and!; [| |done]].
  - destruct running as [|x l] eqn:E; [done|exfalso].
    assert (x ∈ running) as Hx by (rewrite E; left).
    apply elem_of_running in Hx as [[k Hk]%list_elem_of_lookup ?]. destruct (Hgap k x Hk); lia.
  - destruct (max_by_Some (λ a b, date_cmp (te_ends_on a) (te_ends_on b)) _ _ Hpp) as [x Hx].
    rewrite Hx. apply (max_by_key _ ends) in Hx as [Hin Hmax]; [|apply ends_cmp].
    apply elem_of_past in Hin as [[k Hk]%list_elem_of_lookup Hx]. specialize (Hmax p Hpp).
    pose proof (ends_le j k p x Hp Hk Hmax). destruct (decide (k = j)) as [->|]; [congruence|].
    destruct (le_starts (S j) k t x Hi Hk ltac:(lia)). lia.
  - destruct (min_by_Some (λ a b, date_cmp (te_starts_on a) (te_starts_on b)) _ _ Htf) as [x Hx].
    rewrite Hx. apply (min_by_key _ starts) in Hx as [Hin Hmin]; [|apply starts_cmp].
    apply elem_of_future in Hin as [[k Hk]%list_elem_of_lookup Hx]. specialize (Hmin t Htf).
    pose proof (starts_le k (S j) x t Hk Hi Hmin). destruct (decide (k = S j)) as [->|]; [congruence|].
    destruct (le_starts k j x p Hk Hp ltac:(lia)). pose proof (cs_order _ Hs k x Hk). lia.
Qed.

End current.

Lemma current_term_entry_iff day t :
  current_term_entry day = Some t ↔ ∃ i, current_at known_term_calendar day i t.
Proof.
  pose proof known_sorted as Hs. change (current_term_entry day) with
    (match max_by (λ a b, date_cmp (te_starts_on a) (te_starts_on b)) (running known_term_calendar day) with
     | Some term => Some term
     | None =>
         previous ← max_by (λ a b, date_cmp (te_ends_on a) (te_ends_on b)) (past known_term_calendar day);
         next ← min_by (λ a b, date_cmp (te_starts_on a) (te_starts_on b)) (future known_term_calendar day);
         if bool_decide (ti_next (te_identity previous) = Some (te_identity next)) then Some next else None
     end).
  generalize dependent known_term_calendar. intros cal Hs. split.
  - case_match eqn:Hr; [intros [= <-]; by apply running_current|]. apply max_by_None in Hr.
    intros (p & Hp & (n & Hn & Hif)%bind_Some)%bind_Some. case_bool_decide as Hnext; [|done].
    injection Hif as <-. by apply (gap_current cal Hs day p).
  - intros [i Hc]. destruct (decide (starts t ≤ date_key day)) as [Hle|Hgt].
    + by rewrite (current_running cal Hs day i t Hc Hle).
    + destruct (current_gap cal Hs day i t Hc ltac:(lia)) as (-> & p & Hp & Hn & Hnext).
      simpl. rewrite Hp. simpl. rewrite Hn. simpl. by rewrite bool_decide_true.
Qed.

End facts.

(** ** The window *)

Section window.
Context `{JiffLaws}.

(** The window of a current term. *)
Definition window_from (scope : RutgersTermWindowScope) (day : JDate) (current_term : TermCalendarEntry)
    : result RutgersTermWindowError RutgersTermWindow :=
  let out_of_range := RutgersTermWindowError_CalendarOutOfRange day in
  next_term ← ok_or out_of_range (entry_at current_term 1);
  visible_terms ← mapM (λ relative_offset,
    entry ← ok_or out_of_range (entry_at current_term relative_offset);
    visible_term entry relative_offset) (offsets (offset_bounds scope));
  current ← term_id current_term;
  next ← term_id next_term;
  Ok {| rw_rutgers_day := day; rw_current_term := current; rw_next_term := next;
        rw_visible_terms := visible_terms |}.

Lemma window_at_day now scope day :
  rutgers_day_at now = Ok day →
  RutgersTermWindow_at now scope =
    match current_term_entry day with
    | Some t => window_from scope day t
    | None => Err (RutgersTermWindowError_CalendarOutOfRange day)
    end.
Proof. intros Hday. unfold RutgersTermWindow_at. rewrite Hday. simpl. by destruct (current_term_entry day). Qed.

(** The positions of the calendar whose windows are complete. *)
Definition complete_from (scope : RutgersTermWindowScope) : nat * nat :=
  match scope with
  | RutgersTermWindowScope_Public => (0, 9)%nat
  | RutgersTermWindowScope_Local => (2, 8)%nat
  end.

(** The days on which a window is available. *)
Definition window_days (scope : RutgersTermWindowScope) (day : JDate) : bool :=
  match scope with
  | RutgersTermWindowScope_Public =>
      date_leb (date_constant 2025 9 2) day && date_leb day (date_constant 2028 1 14)
  | RutgersTermWindowScope_Local =>
      date_ltb (date_constant 2026 1 16) day && date_ltb day (date_constant 2027 12 23)
  end.

(** The identity of a visible term. *)
Definition rv_identity (term : RutgersVisibleTerm) : TermIdentity :=
  {| ti_season := rv_season term; ti_year := rv_year term |}.

(** What a window shows of the term of a position. *)
Record window_shape (scope : RutgersTermWindowScope) (day : JDate) (t : TermCalendarEntry)
    (w : RutgersTermWindow) : Prop := {
  ws_day : rw_rutgers_day w = day;
  ws_offsets : rv_relative_offset <$> rw_visible_terms w = offsets (offset_bounds scope);
  ws_identities : Forall (λ v, ti_offset (te_identity t) (rv_relative_offset v) = Some (rv_identity v))
    (rw_visible_terms w);
  ws_dates : Forall (λ v, ∃ e, term_calendar_entry (rv_identity v) = Some e ∧
    rv_starts_on v = te_starts_on e ∧ rv_ends_on v = te_ends_on e) (rw_visible_terms w);
  ws_consecutive : (∀ k v v', rw_visible_terms w !! k = Some v → rw_visible_terms w !! S k = Some v' →
    ti_next (rv_identity v) = Some (rv_identity v'));
  ws_distinct : NoDup (rv_term <$> rw_visible_terms w);
  ws_watchable : rv_term <$> filter (λ v, watchable v) (rw_visible_terms w) = [rw_current_term w; rw_next_term w]
}.

(** A window of constants has the shape. *)
Ltac explicit_window :=
  simpl; eexists; split; [vm_compute; reflexivity|]; split; simpl;
  [ done | reflexivity
  | repeat (apply Forall_cons; split; [reflexivity|]); by apply Forall_nil
  | repeat (apply Forall_cons; split; [eexists; split_and!; reflexivity|]); by apply Forall_nil
  | intros k v v'; do 5 try destruct k as [|k]; simpl; intros Hv Hv'; try done;
    injection Hv as <-; injection Hv' as <-; reflexivity
  | apply (bool_decide_unpack _); vm_compute; exact I
  | vm_compute; reflexivity ].

Lemma window_from_cases scope day i t :
  known_term_calendar !! i = Some t →
  if bool_decide ((complete_from scope).1 ≤ i ≤ (complete_from scope).2)%nat
  then ∃ w, window_from scope day t = Ok w ∧ window_shape scope day t w
  else window_from scope day t = Err (RutgersTermWindowError_CalendarOutOfRange day).
Proof.
  intros Ht. do 17 try destruct i as [|i]; [..|by destruct i].
  all: injection Ht as <-; destruct scope.
  all: first [vm_compute; reflexivity | explicit_window].
Qed.

End window.

(** ** Properties *)

Section properties.
Context `{JiffLaws}.

(** The current term of a day is the one term that has started, or follows
    directly the ended term before it, has not ended, and is the last of the
    terms that have started; on the other days no term is current. From one day
    to a later one the current term never moves back to one that starts
    earlier. *)
Theorem current_term_spec :
  (∀ day t, current_term_entry day = Some t ↔ ∃ i, current_at known_term_calendar day i t) ∧
  (∀ day i i' t t', current_at known_term_calendar day i t → current_at known_term_calendar day i' t' → t = t') ∧
  (∀ day day' t t', current_term_entry day = Some t → current_term_entry day' = Some t' →
     date_leb day day' = true → date_leb (te_starts_on t) (te_starts_on t') = true).
Proof.
  pose proof known_sorted as Hs. split_and!; [apply current_term_entry_iff|..].
  - intros day i i' t t' H1 H2. pose proof (current_at_unique _ _ _ _ _ _ Hs H1 H2) as <-.
    pose proof (ca_term _ _ _ _ H1). pose proof (ca_term _ _ _ _ H2). congruence.
  - intros day day' t t' [i H1]%current_term_entry_iff [i' H2]%current_term_entry_iff Hd%date_leb_key.
    pose proof (current_at_monotone _ _ _ _ _ _ _ Hs H1 H2 Hd) as Hle.
    apply date_leb_key. by apply (le_starts _ Hs i i' t t' (ca_term _ _ _ _ H1) (ca_term _ _ _ _ H2) Hle).
Qed.

(** The days of a complete window are those whose current term is at one of its
    positions. *)
Lemma window_days_current scope day :
  window_days scope day = true ↔
  ∃ i t, ((complete_from scope).1 ≤ i ≤ (complete_from scope).2)%nat ∧ current_at known_term_calendar day i t.
Proof.
  pose proof known_sorted as Hs.
  assert (∀ i, (0 < i ≤ 9)%nat → adjacent known_term_calendar i) as Hadj.
  { intros i Hi. do 10 try destruct i as [|i]; [lia|..|lia]; eexists _, _, _; split_and!; reflexivity. }
  destruct scope; simpl; rewrite andb_true_iff, ?date_leb_key, ?date_ltb_key; split.
  - intros [Hlow Hup]. eapply (current_at_reached _ day 0 9); [done|lia|reflexivity| | |done|].
    + intros i Hi. apply Hadj. lia.
    + intros ta [= <-]. by left.
    + intros j t' Hj Ht'. destruct (le_starts _ Hs 10 j _ t' eq_refl Ht' ltac:(lia)) as [Hle _].
      eapply Z.le_lt_trans, Z.lt_le_trans, Hle; [done|]. by apply date_constant_lt.
  - intros (i & t & Hi & Hc). destruct (le_starts _ Hs i 9 t _ (ca_term _ _ _ _ Hc) eq_refl ltac:(lia)) as [_ Hup].
    split; [|eapply Z.le_trans, Hup; apply Hc].
    destruct (ca_begun _ _ _ _ Hc) as [Hb|(j & p & -> & Hp & _ & He)].
    + destruct (le_starts _ Hs 0 i _ t eq_refl (ca_term _ _ _ _ Hc) ltac:(lia)) as [Hlow _].
      eapply Z.le_trans, Hb. exact Hlow.
    + destruct (le_starts _ Hs 0 j _ p eq_refl Hp ltac:(lia)) as [Hlow _].
      pose proof (cs_order _ Hs j p Hp). eapply Z.le_trans; [exact Hlow|lia].
  - intros [Hlow Hup]. eapply (current_at_reached _ day 2 8); [done|lia|reflexivity| | | |].
    + intros i Hi. apply Hadj. lia.
    + intros ta [= <-]. right. eexists 1%nat, _. by split_and!.
    + by apply Z.lt_le_incl.
    + intros j t' Hj Ht'. destruct (le_starts _ Hs 9 j _ t' eq_refl Ht' ltac:(lia)) as [Hle _].
      eapply Z.lt_le_trans, Hle. exact Hup.
  - intros (i & t & Hi & Hc). split.
    + destruct (ca_begun _ _ _ _ Hc) as [Hb|(j & p & -> & Hp & _ & He)].
      * destruct (le_starts _ Hs 2 i _ t eq_refl (ca_term _ _ _ _ Hc) ltac:(lia)) as [Hle _].
        eapply Z.lt_le_trans, Hb. eapply Z.lt_le_trans, Hle. by apply date_constant_lt.
      * destruct (le_starts _ Hs 1 j _ p eq_refl Hp ltac:(lia)) as [_ Hle]. eapply Z.le_lt_trans, He. exact Hle.
    + apply (ca_last _ _ _ _ Hc 9%nat _ ltac:(lia) eq_refl).
Qed.

(** Once the clock's day is known, the window is available exactly on the
    days from 2025-09-02 to 2028-01-14 (public), or from 2026-01-17 to
    2027-12-22 (local); on every other day the answer is that the calendar does
    not reach that day, and never that a term's identity is invalid. *)
Theorem term_window_available now scope day (Hday : rutgers_day_at now = Ok day) :
  if window_days scope day
  then ∃ w, RutgersTermWindow_at now scope = Ok w ∧ rw_rutgers_day w = day
  else RutgersTermWindow_at now scope = Err (RutgersTermWindowError_CalendarOutOfRange day).
Proof.
  rewrite (window_at_day now scope day Hday). destruct (window_days scope day) eqn:Hd.
  - apply window_days_current in Hd as (i & t & Hi & Hc).
    rewrite (proj2 (current_term_entry_iff day t) (ex_intro _ i Hc)).
    pose proof (window_from_cases scope day i t (ca_term _ _ _ _ Hc)) as Hw.
    rewrite bool_decide_true in Hw by done. destruct Hw as (w & -> & Hw). exists w. by destruct Hw.
  - destruct (current_term_entry day) as [t|] eqn:Ht; [|done].
    apply current_term_entry_iff in Ht as [i Hc].
    pose proof (window_from_cases scope day i t (ca_term _ _ _ _ Hc)) as Hw.
    case_bool_decide as Hi; [|done]. apply not_true_iff_false in Hd. destruct Hd.
    apply window_days_current. eauto.
Qed.

(** An available window shows the terms at exactly the offsets of its
    scope around the current one, each with its published dates, consecutive
    and distinct; the watchable ones are the current and the next term, in this
    order. *)
Theorem term_window_shape now scope w (Hw : RutgersTermWindow_at now scope = Ok w) :
  ∃ t, rutgers_day_at now = Ok (rw_rutgers_day w) ∧
    current_term_entry (rw_rutgers_day w) = Some t ∧ window_shape scope (rw_rutgers_day w) t w.
Proof.
  destruct (rutgers_day_at now) as [day|e] eqn:Hday; [|unfold RutgersTermWindow_at in Hw; by rewrite Hday in Hw].
  rewrite (window_at_day now scope day Hday) in Hw.
  destruct (current_term_entry day) as [t|] eqn:Ht; [|done].
  pose proof Ht as [i Hc]%current_term_entry_iff.
  pose proof (window_from_cases scope day i t (ca_term _ _ _ _ Hc)) as Hcase.
  case_bool_decide; [|congruence]. destruct Hcase as (w' & Hw' & Hshape).
  assert (w' = w) as -> by congruence. rewrite (ws_day _ _ _ _ Hshape). eauto.
Qed.

End properties.

(** ** Witnesses *)

(** A calendar of dates over the fields, timestamps as seconds and a zone that
    is five hours behind. *)
Record sample_date := {
  sd_year : Z; sd_month : Z; sd_day : Z;
  sd_civil : civil_date sd_year sd_month sd_day = true
}.

Definition sample_date_constant (y m d : Z) : sample_date :=
  match decide (civil_date y m d = true) with
  | left Hc => {| sd_year := y; sd_month := m; sd_day := d; sd_civil := Hc |}
  | right _ => {| sd_year := 2000; sd_month := 1; sd_day := 1; sd_civil := eq_refl |}
  end.

(** The day after a number of days since 1970-01-01. *)
Definition sample_civil (days : Z) : sample_date :=
  let z := days + 719468 in
  let era := z / 146097 in
  let doe := z mod 146097 in
  let yoe := (doe - doe / 1460 + doe / 36524 - doe / 146096) / 365 in
  let doy := doe - (365 * yoe + yoe / 4 - yoe / 100) in
  let mp := (5 * doy + 2) / 153 in
  let m := if bool_decide (mp < 10) then mp + 3 else mp - 9 in
  sample_date_constant (yoe + era * 400 + (if bool_decide (m ≤ 2) then 1 else 0)) m
    (doy - (153 * mp + 2) / 5 + 1).

#[export] Instance sample_jiff : JiffApi := {|
  JDate := sample_date;
  JTimestamp := Z;
  JTimeZone := Z;
  date_constant := sample_date_constant;
  date_year := sd_year;
  date_month := sd_month;
  date_day := sd_day;
  date_cmp d d' := cmp_then (rcmp (sd_year d) (sd_year d'))
    (cmp_then (rcmp (sd_month d) (sd_month d')) (rcmp (sd_day d) (sd_day d')));
  timestamp_new s n := if bool_decide (-377705023201 ≤ s ≤ 253402207200) then Some s else None;
  time_zone_get name := if String.eqb name RUTGERS_TIME_ZONE then Some (-18000) else None;
  zoned_date t z := sample_civil ((t + z) / 86400)
|}.

#[export] Instance sample_jiff_laws : JiffLaws.
Proof.
  split; [by intros []| |done].
  intros y m d Hc. unfold date_constant, sample_jiff, sample_date_constant. by rewrite decide_True_pi with Hc.
Qed.

(** Equality of closed terms by evaluation. *)
Ltac by_vm := match goal with |- _ = ?b => vm_cast_no_check (eq_refl b) end.

Lemma current_term_spec_witness :
  te_year <$> current_term_entry (date_constant 2026 1 18) = Some 2026 ∧
  ∃ i t, current_at known_term_calendar (date_constant 2026 1 18) i t.
Proof.
  split; [by_vm|].
  assert (match current_term_entry (date_constant 2026 1 18) with Some _ => true | None => false end = true) as Hsome
    by by_vm.
  destruct (current_term_entry (date_constant 2026 1 18)) as [t|] eqn:Ht; [|discriminate].
  destruct (proj1 (proj1 current_term_spec _ t) Ht) as [i Hi]. by exists i, t.
Defined.

(** 2026-07-20 at noon. *)
Definition sample_now : OffsetDateTime := 1784548800 * NANOS_PER_SEC.

Lemma term_window_available_witness :
  rutgers_day_at sample_now = Ok (date_constant 2026 7 20) ∧
  ∃ w, RutgersTermWindow_at sample_now RutgersTermWindowScope_Local = Ok w ∧ rw_rutgers_day w = date_constant 2026 7 20.
Proof.
  assert (rutgers_day_at sample_now = Ok (date_constant 2026 7 20)) as Hday by by_vm. split; [exact Hday|].
  pose proof (term_window_available sample_now RutgersTermWindowScope_Local _ Hday) as Hw.
  assert (window_days RutgersTermWindowScope_Local (date_constant 2026 7 20) = true) as Hdays by by_vm.
  rewrite Hdays in Hw. exact Hw.
Defined.

(** The window of that day, and a default that is not it. *)
Definition sample_window : RutgersTermWindow :=
  match RutgersTermWindow_at sample_now RutgersTermWindowScope_Local with
  | Ok w => w
  | Err _ => {| rw_rutgers_day := date_constant 2000 1 1; rw_current_term := mkTermId "";
                rw_next_term := mkTermId ""; rw_visible_terms := [] |}
  end.

Lemma term_window_shape_witness :
  term_str <$> (rv_term <$> rw_visible_terms sample_window) = ["02026"; "12026"; "72026"; "92026"; "02027"] ∧
  ∃ t, window_shape RutgersTermWindowScope_Local (rw_rutgers_day sample_window) t sample_window.
Proof.
  split; [by_vm|].
  destruct (term_window_shape sample_now RutgersTermWindowScope_Local sample_window ltac:(by_vm)) as (t & _ & _ & Hw).
  by exists t.
Defined.
