(* ===== verification/Freshness.v ===== *)
(** * Freshness of the last known good observation
    (crates/bcsp-open/src/freshness.rs) *)

From S2P Require Import Prelude Contracts.

Section freshness.
Context `{TimeApi}.

Definition OPEN_FRESHNESS_GRACE_SECONDS : Z := 15.

Record LastValidOpenPoint := {
  lv_attempt_sequence : OpenSequence;
  lv_observed_at : OffsetDateTime;
  lv_completed_at : OffsetDateTime;
  lv_requested_effective_interval_seconds : Z
}.

Record LatestOpenAttemptPoint := {
  la_attempt_sequence : OpenSequence;
  la_completed_at : OffsetDateTime;
  la_classification : OpenRefreshClassification
}.

Inductive OpenFreshnessError :=
| OpenFreshnessError_ZeroInterval
| OpenFreshnessError_TimestampOverflow.

Definition invalidation_reason (classification : OpenRefreshClassification)
    : option OpenUncertaintyReason :=
  match classification with
  | OpenRefreshClassification_Failed => Some OpenUncertaintyReason_LatestAttemptFailed
  | OpenRefreshClassification_UnsafeEmpty
  | OpenRefreshClassification_UnsafeZeroIntersection =>
      Some OpenUncertaintyReason_LatestAttemptUnsafe
  | OpenRefreshClassification_SuspectPartialSnapshot =>
      Some OpenUncertaintyReason_SuspectPartialUpstream
  | OpenRefreshClassification_StaleCatalogRace => Some OpenUncertaintyReason_StaleCatalogRace
  | OpenRefreshClassification_InFlight
  | OpenRefreshClassification_ValidApplied
  | OpenRefreshClassification_ValidEmptyNoRows => None
  end.

Definition project_open_freshness (now : OffsetDateTime)
    (last_valid : option LastValidOpenPoint)
    (latest_attempt : option LatestOpenAttemptPoint)
    (unavailable_reason : option OpenUncertaintyReason)
    : result OpenFreshnessError OpenFreshnessV1 :=
  match last_valid with
  | None =>
      Ok {| of_state := OpenFreshnessState_Unknown;
            of_observed_at := None;
            of_fresh_until := None;
            of_last_known_good_age_seconds := None;
            of_uncertainty :=
              Some (default OpenUncertaintyReason_NeverObserved unavailable_reason) |}
  | Some lv =>
      if bool_decide (lv_requested_effective_interval_seconds lv = 0)
      then Err OpenFreshnessError_ZeroInterval
      else
        lifetime_seconds ← ok_or OpenFreshnessError_TimestampOverflow
          (value ← i64_checked (lv_requested_effective_interval_seconds lv * 2);
           i64_checked (value + OPEN_FRESHNESS_GRACE_SECONDS));
        fresh_until ← ok_or OpenFreshnessError_TimestampOverflow
          (odt_checked_add (lv_completed_at lv) (lifetime_seconds * NANOS_PER_SEC));
        let age := now - lv_completed_at lv in
        let last_known_good_age_seconds := u64_try_from_or_max (Z.max (whole_seconds age) 0) in
        let invalidation :=
          attempt ← latest_attempt;
          if bool_decide (os_get (lv_attempt_sequence lv) < os_get (la_attempt_sequence attempt))
          then invalidation_reason (la_classification attempt)
          else None in
        let state_uncertainty :=
          match invalidation with
          | Some reason => (OpenFreshnessState_Stale, Some reason)
          | None =>
              if bool_decide (now ≤ fresh_until) then (OpenFreshnessState_Fresh, None)
              else (OpenFreshnessState_Stale, Some OpenUncertaintyReason_StaleLastKnownGood)
          end in
        Ok {| of_state := state_uncertainty.1;
              of_observed_at := Some (lv_observed_at lv);
              of_fresh_until := Some fresh_until;
              of_last_known_good_age_seconds := Some last_known_good_age_seconds;
              of_uncertainty := state_uncertainty.2 |}
  end.

End freshness.

(** * Lemmas *)

(** An attempt that overrides the last known good point: it is newer and it
    ended in a class that carries a reason for doubt. *)
Definition overridden_by (lv : LastValidOpenPoint) (latest : option LatestOpenAttemptPoint)
    (reason : OpenUncertaintyReason) : Prop :=
  ∃ a, latest = Some a ∧
       os_get (lv_attempt_sequence lv) < os_get (la_attempt_sequence a) ∧
       invalidation_reason (la_classification a) = Some reason.

(** The instant up to which a point counts as fresh: twice the requested
    interval plus the grace period after its completion. *)
Definition lv_fresh_until (lv : LastValidOpenPoint) : OffsetDateTime :=
  lv_completed_at lv +
  (2 * lv_requested_effective_interval_seconds lv + OPEN_FRESHNESS_GRACE_SECONDS) * NANOS_PER_SEC.

Section freshness_facts.
Context `{TimeApiLaws}.

(** When the freshness of a known point is computed for a 32-bit interval,
    the only errors are a zero interval and an unrepresentable deadline; in
    every other case the deadline is exactly twice the interval plus the grace
    period after completion, and the state is FRESH exactly when the clock has
    not passed that deadline and no newer attempt failed, was unsafe, was held
    as partial or lost a catalog race. The reported uncertainty is that
    attempt's reason, or the age of the point. *)
Theorem project_open_freshness_spec (now : OffsetDateTime) (lv : LastValidOpenPoint)
    (latest : option LatestOpenAttemptPoint) (unavailable : option OpenUncertaintyReason) :
  0 ≤ lv_requested_effective_interval_seconds lv ≤ u32_max →
  match project_open_freshness now (Some lv) latest unavailable with
  | Err OpenFreshnessError_ZeroInterval => lv_requested_effective_interval_seconds lv = 0
  | Err OpenFreshnessError_TimestampOverflow =>
      odt_checked_add (lv_completed_at lv) (lv_fresh_until lv - lv_completed_at lv) = None
  | Ok f =>
      of_fresh_until f = Some (lv_fresh_until lv) ∧
      of_observed_at f = Some (lv_observed_at lv) ∧
      (of_state f = OpenFreshnessState_Fresh ↔
         now ≤ lv_fresh_until lv ∧ ∀ reason, ¬ overridden_by lv latest reason) ∧
      (of_state f ≠ OpenFreshnessState_Fresh → of_state f = OpenFreshnessState_Stale ∧
         ∃ reason, of_uncertainty f = Some reason ∧
           (overridden_by lv latest reason ∨
            (reason = OpenUncertaintyReason_StaleLastKnownGood ∧ lv_fresh_until lv < now)))
  end.
Proof.
  intros Hi. unfold project_open_freshness.
  case_bool_decide as Hz; [done|].
  assert (∀ n, 0 ≤ n ≤ 2 ^ 34 → i64_checked n = Some n) as Hck.
  { intros n Hn. unfold i64_checked, i64_min, i64_max. rewrite bool_decide_eq_true_2; [done|lia]. }
  unfold u32_max in Hi. rewrite Hck by lia. simpl.
  rewrite Hck by (unfold OPEN_FRESHNESS_GRACE_SECONDS; lia). simpl.
  set (lv_fresh := lv_fresh_until lv).
  assert ((lv_requested_effective_interval_seconds lv * 2 + OPEN_FRESHNESS_GRACE_SECONDS)
          * NANOS_PER_SEC = lv_fresh - lv_completed_at lv) as ->
    by (unfold lv_fresh, lv_fresh_until; lia).
  destruct (odt_checked_add _ _) as [fu|] eqn:Hadd; simpl; [|done].
  apply odt_checked_add_exact in Hadd. replace fu with lv_fresh by lia. clear Hadd.
  split; [done|]. split; [done|].
  destruct (latest ≫= _) as [reason|] eqn:Hinv; simpl.
  - assert (overridden_by lv latest reason) as Hov.
    { destruct latest as [a|]; simpl in Hinv; [|done]. case_bool_decide; [|done]. by exists a. }
    split; [split; [done|]; intros [_ Hno]; by destruct (Hno reason)|].
    intros _. split; [done|]. exists reason. by split; [|left].
  - assert (∀ reason, ¬ overridden_by lv latest reason) as Hno.
    { intros reason (a & -> & Hlt & Hr). simpl in Hinv.
      rewrite bool_decide_eq_true_2 in Hinv by done. congruence. }
    case_bool_decide as Hnow; simpl.
    + split; [tauto|done].
    + split; [split; [done|tauto]|]. intros _. split; [done|].
      eexists; split; [done|]. right. split; [done|]. lia.
Qed.

End freshness_facts.

Lemma project_open_freshness_spec_witness :
  let lv := {| lv_attempt_sequence := OpenSequence_new 1; lv_observed_at := 100 * NANOS_PER_SEC;
               lv_completed_at := 100 * NANOS_PER_SEC;
               lv_requested_effective_interval_seconds := 30 |} in
  let now := 175 * NANOS_PER_SEC in
  match @project_open_freshness concrete_time_api now (Some lv) None None with
  | Ok f => of_state f = OpenFreshnessState_Fresh ∧ of_last_known_good_age_seconds f = Some 75
  | Err _ => False
  end ∧
  match @project_open_freshness concrete_time_api now (Some lv) None None with
  | Err _ => False
  | Ok f => of_fresh_until f = Some (lv_fresh_until lv)
  end.
Proof.
  intros lv now. split; [vm_compute; done|].
  assert (0 ≤ lv_requested_effective_interval_seconds lv ≤ u32_max) as Hi
    by (vm_compute; split; discriminate).
  pose proof (@project_open_freshness_spec concrete_time_api concrete_time_api_laws
                now lv None None Hi) as Hspec.
  destruct (project_open_freshness now (Some lv) None None) as [f|[]] eqn:E.
  - apply Hspec.
  - vm_compute in E. discriminate.
  - vm_compute in E. discriminate.
Defined.
