(* ===== verification/Policy.v ===== *)
(** * Open refresh intervals and retry policy (crates/bcsp-open/src/policy.rs) *)

From stdpp Require Import pretty.
From S2P Require Import Prelude Identity Contracts.

(** ** Constants *)

Definition PUBLIC_GENERAL_OPEN_INTERVAL_SECONDS : Z := 30.
Definition LOCAL_DEFAULT_OPEN_INTERVAL_SECONDS : Z := 30.
Definition LOCAL_MINIMUM_OPEN_INTERVAL_SECONDS : Z := 3.
Definition LOCAL_MAXIMUM_OPEN_INTERVAL_SECONDS : Z := 3600.
Definition PUBLIC_WATCH_OPEN_INTERVAL_SECONDS : Z := 10.
Definition LOCAL_DEFAULT_WATCH_OPEN_INTERVAL_SECONDS : Z := 10.
Definition LOCAL_MINIMUM_WATCH_OPEN_INTERVAL_SECONDS : Z := 3.
Definition LOCAL_MAXIMUM_WATCH_OPEN_INTERVAL_SECONDS : Z := 60.
Definition MISSING_RETRY_AFTER_CIRCUIT_SECONDS : Z := 60.
(** From gate.rs: the cap of the quarantine probe cadence. *)
Definition GATE_QUARANTINE_PROBE_CAP_SECONDS : Z := 30.

Definition NB_TRANSIENT_BACKOFF_SECONDS : list Z := [5; 10; 20; 30; 60].
Definition OTHER_TRANSIENT_BACKOFF_SECONDS : list Z := [15; 30; 60; 120; 300].
Definition CONTENT_BACKOFF_SECONDS : list Z := [60; 300; 900; 1800].

(** ** Intervals *)

Inductive OpenRuntimeMode := OpenRuntimeMode_Local | OpenRuntimeMode_Public.

Record GeneralOpenInterval := { go_seconds : Z; go_mode : OpenRuntimeMode }.
Record WatchOpenInterval := { wo_seconds : Z; wo_mode : OpenRuntimeMode }.

Inductive OpenIntervalError :=
| OpenIntervalError_LocalOutOfRange
| OpenIntervalError_PublicIsFixed
| OpenIntervalError_LocalWatchOutOfRange
| OpenIntervalError_PublicWatchIsFixed.

Definition WatchOpenInterval_local (seconds : Z) : result OpenIntervalError WatchOpenInterval :=
  if bool_decide (LOCAL_MINIMUM_WATCH_OPEN_INTERVAL_SECONDS ≤ seconds
                  ≤ LOCAL_MAXIMUM_WATCH_OPEN_INTERVAL_SECONDS)
  then Ok {| wo_seconds := seconds; wo_mode := OpenRuntimeMode_Local |}
  else Err OpenIntervalError_LocalWatchOutOfRange.

Definition WatchOpenInterval_local_default : WatchOpenInterval :=
  {| wo_seconds := LOCAL_DEFAULT_WATCH_OPEN_INTERVAL_SECONDS; wo_mode := OpenRuntimeMode_Local |}.

Definition WatchOpenInterval_public : WatchOpenInterval :=
  {| wo_seconds := PUBLIC_WATCH_OPEN_INTERVAL_SECONDS; wo_mode := OpenRuntimeMode_Public |}.

Definition WatchOpenInterval_public_checked (seconds : Z)
    : result OpenIntervalError WatchOpenInterval :=
  if bool_decide (seconds ≠ PUBLIC_WATCH_OPEN_INTERVAL_SECONDS)
  then Err OpenIntervalError_PublicWatchIsFixed
  else Ok WatchOpenInterval_public.

Definition GeneralOpenInterval_local (seconds : Z)
    : result OpenIntervalError GeneralOpenInterval :=
  if bool_decide (LOCAL_MINIMUM_OPEN_INTERVAL_SECONDS ≤ seconds
                  ≤ LOCAL_MAXIMUM_OPEN_INTERVAL_SECONDS)
  then Ok {| go_seconds := seconds; go_mode := OpenRuntimeMode_Local |}
  else Err OpenIntervalError_LocalOutOfRange.

Definition GeneralOpenInterval_public : GeneralOpenInterval :=
  {| go_seconds := PUBLIC_GENERAL_OPEN_INTERVAL_SECONDS; go_mode := OpenRuntimeMode_Public |}.

Definition GeneralOpenInterval_local_default : GeneralOpenInterval :=
  {| go_seconds := LOCAL_DEFAULT_OPEN_INTERVAL_SECONDS; go_mode := OpenRuntimeMode_Local |}.

Definition GeneralOpenInterval_public_checked (seconds : Z)
    : result OpenIntervalError GeneralOpenInterval :=
  if bool_decide (seconds ≠ PUBLIC_GENERAL_OPEN_INTERVAL_SECONDS)
  then Err OpenIntervalError_PublicIsFixed
  else Ok GeneralOpenInterval_public.

Record OpenRefreshIntervals := OpenRefreshIntervals_new {
  ori_general : GeneralOpenInterval;
  ori_watch : WatchOpenInterval
}.

Definition OpenRefreshIntervals_local_default : OpenRefreshIntervals :=
  OpenRefreshIntervals_new GeneralOpenInterval_local_default WatchOpenInterval_local_default.
Definition OpenRefreshIntervals_public : OpenRefreshIntervals :=
  OpenRefreshIntervals_new GeneralOpenInterval_public WatchOpenInterval_public.

Definition effective_seconds (i : OpenRefreshIntervals) (has_active_watch : bool) : Z :=
  if has_active_watch && bool_decide (wo_seconds (ori_watch i) < go_seconds (ori_general i))
  then wo_seconds (ori_watch i)
  else go_seconds (ori_general i).

Definition effective (i : OpenRefreshIntervals) (has_active_watch : bool) : Z :=
  duration_from_secs (effective_seconds i has_active_watch).

(** [From<GeneralOpenInterval> for OpenRefreshIntervals]. *)
Definition OpenRefreshIntervals_from (general : GeneralOpenInterval) : OpenRefreshIntervals :=
  OpenRefreshIntervals_new general WatchOpenInterval_public.

Definition GeneralOpenInterval_effective_seconds (i : GeneralOpenInterval)
    (has_active_watch : bool) : Z :=
  effective_seconds (OpenRefreshIntervals_new i WatchOpenInterval_public) has_active_watch.

(** ** Retry directives *)

Inductive OpenFailureKind :=
| OpenFailureKind_Transient
| OpenFailureKind_UnsafeEmpty
| OpenFailureKind_UnsafeZeroIntersection
| OpenFailureKind_SuspectPartial
| OpenFailureKind_RateLimited (retry_after : option Z)
| OpenFailureKind_FatalProtocol.

Inductive RetryMode :=
| RetryMode_Automatic
| RetryMode_OriginCircuit
| RetryMode_ExplicitDiagnosticRecheck.

Record RetryDirective := {
  rd_delay : Z;
  rd_mode : RetryMode;
  rd_next_failure_streak : Z;
  rd_clears_fatal_diagnostic : bool
}.

Inductive TargetRetryClass := TargetRetryClass_Transient | TargetRetryClass_Content.

Definition quarantine_probe_directive (requested_effective current_failure_streak : Z)
    : RetryDirective :=
  let cap := duration_from_secs GATE_QUARANTINE_PROBE_CAP_SECONDS in
  let base := if bool_decide (requested_effective = 0) then cap
              else Z.min requested_effective cap in
  {| rd_delay := base;
     rd_mode := RetryMode_Automatic;
     rd_next_failure_streak := u32_saturating_add current_failure_streak 1;
     rd_clears_fatal_diagnostic := true |}.

Definition hex_nibble (byte : Ascii.ascii) : Z :=
  let b := Z.of_N (Ascii.N_of_ascii byte) in
  if bool_decide (48 ≤ b ≤ 57) then b - 48
  else if bool_decide (97 ≤ b ≤ 102) then b - 97 + 10
  else 0.

(** The NUL byte between the fields of the jitter preimage. *)
Definition nul : string := String Ascii.zero "".

Section policy.
Context `{Sha256Api}.

Definition deterministic_jitter_v1 (target : TermCampusKey) (failure_streak selected_delay : Z)
    : Z :=
  let preimage :=
    "bcsp-open-jitter-v1" +:+ nul +:+ term_str (tck_term target)
    +:+ nul +:+ campus_str (tck_campus target)
    +:+ nul +:+ pretty failure_streak
    +:+ nul +:+ pretty (duration_as_millis selected_delay) in
  let digest := sha256_hex preimage in
  let prefix := foldl (λ value byte, u64_wrapping_mul value 16 + hex_nibble byte) 0
                  (take 16 (bytes digest)) in
  let maximum_millis := duration_as_millis selected_delay / 10 in
  let bounded_maximum := u64_try_from_or_max maximum_millis in
  if bool_decide (bounded_maximum = 0) then 0
  else duration_from_millis (prefix mod u64_saturating_add bounded_maximum 1).

(** [str::eq_ignore_ascii_case]. *)
Definition to_ascii_lowercase (c : Ascii.ascii) : Ascii.ascii :=
  if is_ascii_uppercase c then Ascii.ascii_of_N (Ascii.N_of_ascii c + 32) else c.
Definition eq_ignore_ascii_case (a b : string) : bool :=
  bool_decide (to_ascii_lowercase <$> bytes a = to_ascii_lowercase <$> bytes b).

(** The backoff ladder of a retry class on a target. *)
Definition retry_steps (target : TermCampusKey) (class : TargetRetryClass) : list Z :=
  match class with
  | TargetRetryClass_Content => CONTENT_BACKOFF_SECONDS
  | TargetRetryClass_Transient =>
      if eq_ignore_ascii_case (campus_str (tck_campus target)) "NB"
      then NB_TRANSIENT_BACKOFF_SECONDS
      else OTHER_TRANSIENT_BACKOFF_SECONDS
  end.

(** The slice index is in range: it is capped at the last position of a
    nonempty ladder ([retry_step_in_range]). *)
Definition target_retry_directive (target : TermCampusKey) (current_failure_streak : Z)
    (class : TargetRetryClass) : RetryDirective :=
  let next_failure_streak := u32_saturating_add current_failure_streak 1 in
  let steps := retry_steps target class in
  let step_index := Nat.min (Z.to_nat (saturating_sub next_failure_streak 1))
                      (length steps - 1) in
  let base := duration_from_secs (steps !!! step_index) in
  {| rd_delay := base + deterministic_jitter_v1 target next_failure_streak base;
     rd_mode := RetryMode_Automatic;
     rd_next_failure_streak := next_failure_streak;
     rd_clears_fatal_diagnostic := false |}.

Definition set_clears_fatal_diagnostic (d : RetryDirective) : RetryDirective :=
  {| rd_delay := rd_delay d; rd_mode := rd_mode d;
     rd_next_failure_streak := rd_next_failure_streak d;
     rd_clears_fatal_diagnostic := true |}.

Definition retry_directive (target : TermCampusKey) (requested_effective : Z)
    (current_failure_streak : Z) (failure : OpenFailureKind) : RetryDirective :=
  match failure with
  | OpenFailureKind_Transient =>
      target_retry_directive target current_failure_streak TargetRetryClass_Transient
  | OpenFailureKind_SuspectPartial =>
      quarantine_probe_directive requested_effective current_failure_streak
  | OpenFailureKind_UnsafeEmpty | OpenFailureKind_UnsafeZeroIntersection =>
      set_clears_fatal_diagnostic
        (target_retry_directive target current_failure_streak TargetRetryClass_Content)
  | OpenFailureKind_FatalProtocol =>
      target_retry_directive target current_failure_streak TargetRetryClass_Content
  | OpenFailureKind_RateLimited retry_after =>
      let circuit := default (duration_from_secs MISSING_RETRY_AFTER_CIRCUIT_SECONDS) retry_after in
      {| rd_delay := circuit;
         rd_mode := RetryMode_OriginCircuit;
         rd_next_failure_streak := u32_saturating_add current_failure_streak 1;
         rd_clears_fatal_diagnostic := true |}
  end.

End policy.

#[export] Instance RetryMode_eq_dec : EqDecision RetryMode.
Proof. solve_decision. Defined.

(** * Lemmas *)

(** ** Intervals *)

(** The intervals the constructors can build. *)
Definition GeneralOpenInterval_wf (i : GeneralOpenInterval) : Prop :=
  match go_mode i with
  | OpenRuntimeMode_Local => GeneralOpenInterval_local (go_seconds i) = Ok i
  | OpenRuntimeMode_Public => GeneralOpenInterval_public_checked (go_seconds i) = Ok i
  end.
Definition WatchOpenInterval_wf (i : WatchOpenInterval) : Prop :=
  match wo_mode i with
  | OpenRuntimeMode_Local => WatchOpenInterval_local (wo_seconds i) = Ok i
  | OpenRuntimeMode_Public => WatchOpenInterval_public_checked (wo_seconds i) = Ok i
  end.
Definition OpenRefreshIntervals_wf (i : OpenRefreshIntervals) : Prop :=
  GeneralOpenInterval_wf (ori_general i) ∧ WatchOpenInterval_wf (ori_watch i).

Lemma GeneralOpenInterval_wf_range i : GeneralOpenInterval_wf i → 3 ≤ go_seconds i ≤ 3600.
Proof.
  unfold GeneralOpenInterval_wf, GeneralOpenInterval_local, GeneralOpenInterval_public_checked.
  unfold LOCAL_MINIMUM_OPEN_INTERVAL_SECONDS, LOCAL_MAXIMUM_OPEN_INTERVAL_SECONDS,
    PUBLIC_GENERAL_OPEN_INTERVAL_SECONDS.
  destruct (go_mode i); case_bool_decide; intros [=]; lia.
Qed.

Lemma WatchOpenInterval_wf_range i : WatchOpenInterval_wf i → 3 ≤ wo_seconds i ≤ 60.
Proof.
  unfold WatchOpenInterval_wf, WatchOpenInterval_local, WatchOpenInterval_public_checked.
  unfold LOCAL_MINIMUM_WATCH_OPEN_INTERVAL_SECONDS, LOCAL_MAXIMUM_WATCH_OPEN_INTERVAL_SECONDS,
    PUBLIC_WATCH_OPEN_INTERVAL_SECONDS.
  destruct (wo_mode i); case_bool_decide; intros [=]; lia.
Qed.

Lemma effective_seconds_min i b :
  effective_seconds i b =
  if b then Z.min (wo_seconds (ori_watch i)) (go_seconds (ori_general i))
  else go_seconds (ori_general i).
Proof. unfold effective_seconds. destruct b; simpl; [case_bool_decide; lia|done]. Qed.

(** The cadence of every constructible pair of intervals: an active watch
    can only shorten it, it is the smaller of the two then, it never exceeds
    60 seconds while a watch is active nor an hour otherwise, and it is never
    below 3 seconds, so the duration handed to the scheduler is never zero. *)
Theorem effective_interval_bounds (i : OpenRefreshIntervals) :
  OpenRefreshIntervals_wf i →
  effective_seconds i true = Z.min (wo_seconds (ori_watch i)) (effective_seconds i false) ∧
  3 ≤ effective_seconds i true ≤ effective_seconds i false ∧
  effective_seconds i true ≤ 60 ∧ effective_seconds i false ≤ 3600 ∧
  ∀ b, 0 < effective i b.
Proof.
  intros [Hg Hw]. apply GeneralOpenInterval_wf_range in Hg. apply WatchOpenInterval_wf_range in Hw.
  unfold effective, duration_from_secs, NANOS_PER_SEC.
  rewrite !effective_seconds_min. split_and!; try lia.
  intros b. rewrite effective_seconds_min. destruct b; lia.
Qed.

Lemma effective_interval_bounds_witness :
  OpenRefreshIntervals_wf OpenRefreshIntervals_public ∧
  3 ≤ effective_seconds OpenRefreshIntervals_public true
    ≤ effective_seconds OpenRefreshIntervals_public false.
Proof.
  assert (OpenRefreshIntervals_wf OpenRefreshIntervals_public) as Hwf by (by split; vm_compute).
  split; [done|]. exact (proj1 (proj2 (effective_interval_bounds _ Hwf))).
Defined.

(** ** Retry directives *)

Section retry_facts.
Context `{Sha256Api}.

(** The jitter lies between zero and a tenth of the selected delay. *)
Lemma deterministic_jitter_bounds target streak d :
  0 ≤ d → 0 ≤ deterministic_jitter_v1 target streak d ∧
          10 * deterministic_jitter_v1 target streak d ≤ d.
Proof.
  intros Hd. unfold deterministic_jitter_v1. cbv zeta.
  unfold u64_saturating_add, u64_try_from_or_max, u64_max, duration_from_millis,
    duration_as_millis, NANOS_PER_MILLI.
  set (p := foldl _ _ _). clearbody p.
  set (m := Z.min (d / 1000000 / 10) (2 ^ 64 - 1)).
  assert (0 ≤ m) by (unfold m; pose proof (Z.div_pos d 1000000);
    pose proof (Z.div_pos (d / 1000000) 10); lia).
  assert (10 * (m * 1000000) ≤ d) as Hm.
  { unfold m. pose proof (Z.mul_div_le (d / 1000000) 10). pose proof (Z.mul_div_le d 1000000). lia. }
  case_bool_decide; [lia|].
  pose proof (Z.mod_pos_bound p (Z.min (m + 1) (2 ^ 64 - 1))). nia.
Qed.

Lemma retry_step_in_range target class (n : nat) :
  is_Some (retry_steps target class !! Nat.min n (length (retry_steps target class) - 1)).
Proof. apply lookup_lt_is_Some. unfold retry_steps. destruct class; [case_match|]; simpl; lia. Qed.

Lemma retry_step_positive target class (n : nat) step :
  retry_steps target class !! n = Some step → 5 ≤ step ≤ 1800.
Proof.
  unfold retry_steps. destruct class; [case_match|];
    do 5 (destruct n as [|n]; [intros [= <-]; lia|]); done.
Qed.

(** Consecutive rungs grow by more than the jitter can make up. *)
Lemma retry_steps_grow target class (n : nat) a b :
  retry_steps target class !! n = Some a → retry_steps target class !! S n = Some b →
  11 * a < 10 * b.
Proof.
  unfold retry_steps. destruct class; [case_match|];
    do 5 (destruct n as [|n]; [intros [= <-]; try done; intros [= <-]; lia|]); done.
Qed.

(** The rung a failure streak selects. *)
Definition retry_step (target : TermCampusKey) (class : TargetRetryClass) (streak : Z) : Z :=
  retry_steps target class !!! Nat.min (Z.to_nat streak) (length (retry_steps target class) - 1).

Lemma target_retry_delay target streak class :
  0 ≤ streak ≤ u32_max →
  let d := rd_delay (target_retry_directive target streak class) in
  let base := duration_from_secs (retry_step target class streak) in
  base ≤ d ∧ 10 * d ≤ 11 * base.
Proof.
  intros Hs d base. unfold d, target_retry_directive; cbn [rd_delay].
  assert (Nat.min (Z.to_nat (saturating_sub (u32_saturating_add streak 1) 1))
                  (length (retry_steps target class) - 1)
          = Nat.min (Z.to_nat streak) (length (retry_steps target class) - 1)) as ->.
  { assert (length (retry_steps target class) ≤ 5)%nat
      by (unfold retry_steps; destruct class; [case_match|]; simpl; lia).
    unfold u32_saturating_add, saturating_sub, u32_max in *. lia. }
  fold (retry_step target class streak). fold base.
  assert (0 ≤ base) as Hb.
  { destruct (retry_step_in_range target class (Z.to_nat streak)) as [step Hstep].
    unfold base, retry_step, duration_from_secs, NANOS_PER_SEC.
    rewrite (list_lookup_total_correct _ _ _ Hstep).
    pose proof (retry_step_positive _ _ _ _ Hstep). lia. }
  pose proof (deterministic_jitter_bounds target (u32_saturating_add streak 1) base Hb). lia.
Qed.

(** The backoff ladder: after [streak] failures the delay of a target is
    the ladder's rung for that streak (capped at the last one) plus at most a
    tenth of it, the streak counter saturates at the width of its type, and
    below the cap each further failure strictly lengthens the delay in spite
    of the jitter. *)
Theorem target_retry_ladder (target : TermCampusKey) (streak : Z) (class : TargetRetryClass) :
  0 ≤ streak < u32_max →
  let d := target_retry_directive target streak class in
  let base := duration_from_secs (retry_step target class streak) in
  base ≤ rd_delay d ∧ 10 * rd_delay d ≤ 11 * base ∧
  rd_next_failure_streak d = streak + 1 ∧ rd_mode d = RetryMode_Automatic ∧
  (streak + 1 < Z.of_nat (length (retry_steps target class)) →
     rd_delay d < rd_delay (target_retry_directive target (streak + 1) class)).
Proof.
  intros Hs d base. pose proof (target_retry_delay target streak class) as Hd.
  destruct Hd as [Hlo Hhi]; [lia|]. split_and!; [exact Hlo|exact Hhi| |done|idtac].
  - unfold d; simpl. unfold u32_saturating_add. lia.
  - intros Hlen. destruct (target_retry_delay target (streak + 1) class) as [Hlo' _]; [lia|].
    fold d base in Hhi. eapply Z.lt_le_trans; [|exact Hlo'].
    destruct (lookup_lt_is_Some_2 (retry_steps target class) (Z.to_nat streak)) as [a Ha]; [lia|].
    destruct (lookup_lt_is_Some_2 (retry_steps target class) (S (Z.to_nat streak))) as [b Hb]; [lia|].
    pose proof (retry_steps_grow _ _ _ _ _ Ha Hb) as Hgrow.
    assert (retry_step target class streak = a) as Ea.
    { unfold retry_step. rewrite Nat.min_l by lia. by apply list_lookup_total_correct. }
    assert (retry_step target class (streak + 1) = b) as Eb.
    { unfold retry_step. rewrite Nat.min_l by lia.
      replace (Z.to_nat (streak + 1)) with (S (Z.to_nat streak)) by lia.
      by apply list_lookup_total_correct. }
    unfold base in Hhi. rewrite Ea in Hhi. rewrite Eb.
    unfold duration_from_secs, NANOS_PER_SEC in *. lia.
Qed.

(** A failure whose upstream response was decoded: it clears an earlier fatal
    diagnostic. *)
Definition failure_decoded (failure : OpenFailureKind) : bool :=
  match failure with
  | OpenFailureKind_Transient | OpenFailureKind_FatalProtocol => false
  | _ => true
  end.

(** Every failure kind yields a bounded directive that makes progress: the
    streak counter advances, a fatal diagnostic is cleared exactly by the
    failures that decoded a response, only rate limiting opens the origin
    circuit (for the advertised delay, or a minute when none is advertised),
    and every other delay lies between 3 seconds and 33 minutes when the
    requested cadence is at least 3 seconds; a quarantine probe comes at most
    30 seconds later. *)
Theorem retry_directive_spec (target : TermCampusKey) (requested streak : Z)
    (failure : OpenFailureKind) :
  0 ≤ streak < u32_max → duration_from_secs 3 ≤ requested →
  let d := retry_directive target requested streak failure in
  rd_next_failure_streak d = streak + 1 ∧
  rd_clears_fatal_diagnostic d = failure_decoded failure ∧
  match failure with
  | OpenFailureKind_RateLimited retry_after =>
      rd_mode d = RetryMode_OriginCircuit ∧
      rd_delay d = default (duration_from_secs 60) retry_after
  | OpenFailureKind_SuspectPartial =>
      rd_mode d = RetryMode_Automatic ∧
      duration_from_secs 3 ≤ rd_delay d ≤ duration_from_secs 30
  | _ =>
      rd_mode d = RetryMode_Automatic ∧
      duration_from_secs 3 ≤ rd_delay d ≤ duration_from_secs 1980
  end.
Proof.
  intros Hs Hr d.
  assert (u32_saturating_add streak 1 = streak + 1) as Hnext
    by (unfold u32_saturating_add; lia).
  assert (∀ class, duration_from_secs 3 ≤ rd_delay (target_retry_directive target streak class)
                   ≤ duration_from_secs 1980) as Hdelay.
  { intros class. destruct (target_retry_delay target streak class) as [Hlo Hhi]; [lia|].
    destruct (retry_step_in_range target class (Z.to_nat streak)) as [step Hstep].
    pose proof (retry_step_positive _ _ _ _ Hstep).
    assert (retry_step target class streak = step) as Estep
      by (by apply list_lookup_total_correct).
    rewrite Estep in *. unfold duration_from_secs, NANOS_PER_SEC in *. lia. }
  unfold d. destruct failure; (split_and!; [exact Hnext|done|done|..]);
    first [exact (proj1 (Hdelay _))|exact (proj2 (Hdelay _))|done|idtac].
  all: simpl; unfold duration_from_secs, NANOS_PER_SEC, GATE_QUARANTINE_PROBE_CAP_SECONDS in *.
  all: case_bool_decide; lia.
Qed.

End retry_facts.

Definition example_target : TermCampusKey :=
  TermCampusKey_new (mkTermId "92026") (mkCampusCode "NB").

Lemma target_retry_ladder_witness :
  (0 ≤ 1 < u32_max) ∧
  rd_delay (@target_retry_directive concrete_sha256_api example_target 1 TargetRetryClass_Transient)
  < rd_delay (@target_retry_directive concrete_sha256_api example_target (1 + 1)
                TargetRetryClass_Transient).
Proof.
  assert (0 ≤ 1 < u32_max) as Hs by (vm_compute; split; [discriminate|done]).
  split; [done|].
  destruct (@target_retry_ladder concrete_sha256_api example_target 1 TargetRetryClass_Transient Hs)
    as (_&_&_&_&Hgrow).
  apply Hgrow. vm_compute. done.
Defined.

Lemma retry_directive_spec_witness :
  (0 ≤ 0 < u32_max) ∧ duration_from_secs 3 ≤ duration_from_secs 10 ∧
  let d := @retry_directive concrete_sha256_api example_target (duration_from_secs 10) 0
             OpenFailureKind_SuspectPartial in
  rd_mode d = RetryMode_Automatic ∧ duration_from_secs 3 ≤ rd_delay d ≤ duration_from_secs 30.
Proof.
  assert (0 ≤ 0 < u32_max) as Hs by (vm_compute; split; [discriminate|done]).
  assert (duration_from_secs 3 ≤ duration_from_secs 10) as Hr by (vm_compute; discriminate).
  split; [done|]. split; [done|].
  exact (proj2 (proj2 (@retry_directive_spec concrete_sha256_api example_target
    (duration_from_secs 10) 0 OpenFailureKind_SuspectPartial Hs Hr))).
Defined.
