(* ===== verification/Reconcile.v ===== *)
(** * Open set reconciliation (crates/bcsp-open/src/reconcile.rs)

    One upstream snapshot of open section indexes is reconciled with the
    serving catalog of its target. *)

From S2P Require Import Prelude Identity Contracts.

Inductive ReconciledOpenState := ReconciledOpenState_Closed | ReconciledOpenState_Open.

Definition ReconciledOpenState_wire_name (s : ReconciledOpenState) : string :=
  match s with
  | ReconciledOpenState_Closed => "CLOSED"
  | ReconciledOpenState_Open => "OPEN"
  end.

Record CatalogOpenBatch := {
  cob_target : TermCampusKey;
  cob_content_version : CatalogContentVersion;
  cob_sections : gmap SectionIndex SectionKey
}.

Inductive ReconcileInputError :=
| ReconcileInputError_ForeignCatalogSection
| ReconcileInputError_DuplicateCatalogSectionIndex
| ReconcileInputError_InvalidOpenSetCount
| ReconcileInputError_ForeignOpenBatch.

(** The loop of [CatalogOpenBatch::try_new] over the sections still to come. *)
Fixpoint catalog_batch_loop (target : TermCampusKey) (sections : list SectionKey)
    (by_index : gmap SectionIndex SectionKey)
    : result ReconcileInputError (gmap SectionIndex SectionKey) :=
  match sections with
  | [] => Ok by_index
  | section :: sections =>
      if bool_decide (sk_target section ≠ target)
      then Err ReconcileInputError_ForeignCatalogSection
      else
        let previous := by_index !! sk_index section in
        let by_index := <[sk_index section := section]> by_index in
        if bool_decide (is_Some previous)
        then Err ReconcileInputError_DuplicateCatalogSectionIndex
        else catalog_batch_loop target sections by_index
  end.

Definition CatalogOpenBatch_try_new (target : TermCampusKey)
    (content_version : CatalogContentVersion) (sections : list SectionKey)
    : result ReconcileInputError CatalogOpenBatch :=
  by_index ← catalog_batch_loop target sections ∅;
  Ok {| cob_target := target; cob_content_version := content_version; cob_sections := by_index |}.

Definition section_count (b : CatalogOpenBatch) : nat := size (cob_sections b).
Definition section_indexes (b : CatalogOpenBatch) : list SectionIndex := btm_keys (cob_sections b).
Definition contains_index (b : CatalogOpenBatch) (index : SectionIndex) : bool :=
  bool_decide (is_Some (cob_sections b !! index)).

Inductive OpenReconcileClassification :=
| OpenReconcileClassification_ValidApplied
| OpenReconcileClassification_ValidEmptyNoRows
| OpenReconcileClassification_UnsafeEmpty
| OpenReconcileClassification_UnsafeZeroIntersection
| OpenReconcileClassification_SuspectPartialSnapshot
| OpenReconcileClassification_StaleCatalogRace.

Definition is_valid (c : OpenReconcileClassification) : bool :=
  match c with
  | OpenReconcileClassification_ValidApplied
  | OpenReconcileClassification_ValidEmptyNoRows => true
  | _ => false
  end.

Record SectionOpenUpdate := {
  sou_section_key : SectionKey;
  sou_state : ReconciledOpenState
}.

Record OpenReconcilePlan := {
  orp_target : TermCampusKey;
  orp_captured_catalog_content_version : CatalogContentVersion;
  orp_current_catalog_content_version : CatalogContentVersion;
  orp_classification : OpenReconcileClassification;
  orp_canonical_set_hash : string;
  orp_state_hash : option string;
  orp_raw_value_count : Z;
  orp_unique_value_count : Z;
  orp_duplicate_count : Z;
  orp_catalog_section_count : Z;
  orp_orphan_count : Z;
  orp_open_count : Z;
  orp_closed_count : Z;
  orp_observed_intersection_count : Z;
  orp_updates : list SectionOpenUpdate
}.

#[export] Instance ReconciledOpenState_eq_dec : EqDecision ReconciledOpenState.
Proof. solve_decision. Defined.
#[export] Instance OpenReconcileClassification_eq_dec : EqDecision OpenReconcileClassification.
Proof. solve_decision. Defined.

(** The bytes newline and tab. *)
Definition nl : string := String (Ascii.ascii_of_N 10) "".
Definition tab : string := String (Ascii.ascii_of_N 9) "".

(** The count of an iterator. *)
Definition zlen {A} (l : list A) : Z := Z.of_nat (length l).

Section reconcile.
Context `{Sha256Api}.

Definition canonical_open_set_hash_v1 (indexes : list SectionIndex) : string :=
  let preimage :=
    foldl (λ preimage index, preimage +:+ index_str index +:+ nl)
      ("bcsp-open-set-v1" +:+ nl) indexes in
  sha256_hex preimage.

Definition open_state_hash_v1 (target : TermCampusKey) (updates : list SectionOpenUpdate)
    : string :=
  let preimage :=
    foldl (λ preimage update,
             preimage +:+ index_str (sk_index (sou_section_key update)) +:+ tab
             +:+ ReconciledOpenState_wire_name (sou_state update) +:+ nl)
      ("bcsp-open-state-v1" +:+ nl +:+ term_str (tck_term target) +:+ nl
       +:+ campus_str (tck_campus target) +:+ nl) updates in
  sha256_hex preimage.

Record OpenSetEvidence := {
  ose_target : TermCampusKey;
  ose_indexes : gset SectionIndex;
  ose_raw_value_count : Z;
  ose_duplicate_count : Z;
  ose_canonical_set_hash : string
}.

Definition OpenSetEvidence_try_new (target : TermCampusKey) (indexes : list SectionIndex)
    (raw_value_count : Z) : result ReconcileInputError OpenSetEvidence :=
  let indexes : gset SectionIndex := list_to_set indexes in
  let unique_count := u64_try_from_or_max (Z.of_nat (size indexes)) in
  match u64_checked_sub raw_value_count unique_count with
  | None => Err ReconcileInputError_InvalidOpenSetCount
  | Some duplicate_count =>
      Ok {| ose_target := target;
            ose_indexes := indexes;
            ose_raw_value_count := raw_value_count;
            ose_duplicate_count := duplicate_count;
            ose_canonical_set_hash := canonical_open_set_hash_v1 (bts_iter indexes) |}
  end.

Definition unique_count (e : OpenSetEvidence) : nat := size (ose_indexes e).

(** The response indexes the catalog knows. *)
Definition observed_intersection (current_catalog : CatalogOpenBatch)
    (open_set : OpenSetEvidence) : list SectionIndex :=
  filter (λ index, is_Some (cob_sections current_catalog !! index))
    (bts_iter (ose_indexes open_set)).

(** The closure [base] of [reconcile_open_set]: a plan with given
    classification, orphan count and updates. *)
Definition reconcile_base (captured_catalog_content_version : CatalogContentVersion)
    (current_catalog : CatalogOpenBatch) (open_set : OpenSetEvidence)
    (observed_intersection_count : Z)
    (classification : OpenReconcileClassification) (orphan_count : Z)
    (updates : list SectionOpenUpdate) : OpenReconcilePlan :=
  let open_count :=
    zlen (filter (λ update, sou_state update = ReconciledOpenState_Open) updates) in
  let closed_count := saturating_sub (zlen updates) open_count in
  let state_hash :=
    if is_valid classification
    then Some (open_state_hash_v1 (cob_target current_catalog) updates) else None in
  {| orp_target := cob_target current_catalog;
     orp_captured_catalog_content_version := captured_catalog_content_version;
     orp_current_catalog_content_version := cob_content_version current_catalog;
     orp_classification := classification;
     orp_canonical_set_hash := ose_canonical_set_hash open_set;
     orp_state_hash := state_hash;
     orp_raw_value_count := ose_raw_value_count open_set;
     orp_unique_value_count := u64_try_from_or_max (Z.of_nat (size (ose_indexes open_set)));
     orp_duplicate_count := ose_duplicate_count open_set;
     orp_catalog_section_count :=
       u64_try_from_or_max (Z.of_nat (size (cob_sections current_catalog)));
     orp_orphan_count := u64_try_from_or_max orphan_count;
     orp_open_count := u64_try_from_or_max open_count;
     orp_closed_count := u64_try_from_or_max closed_count;
     orp_observed_intersection_count := u64_try_from_or_max observed_intersection_count;
     orp_updates := updates |}.

Definition reconcile_open_set (captured_catalog_content_version : CatalogContentVersion)
    (current_catalog : CatalogOpenBatch) (open_set : OpenSetEvidence) (gate_hold : bool)
    : result ReconcileInputError OpenReconcilePlan :=
  if bool_decide (ose_target open_set ≠ cob_target current_catalog)
  then Err ReconcileInputError_ForeignOpenBatch
  else
  let observed_intersection_count := zlen (observed_intersection current_catalog open_set) in
  let base := reconcile_base captured_catalog_content_version current_catalog open_set
                observed_intersection_count in
  if bool_decide (captured_catalog_content_version ≠ cob_content_version current_catalog)
  then Ok (base OpenReconcileClassification_StaleCatalogRace 0 [])
  else if bool_decide (ose_indexes open_set = ∅) then
    Ok (if bool_decide (cob_sections current_catalog = ∅)
        then base OpenReconcileClassification_ValidEmptyNoRows 0 []
        else if gate_hold
        then base OpenReconcileClassification_SuspectPartialSnapshot 0 []
        else
          let updates :=
            (λ section_key, {| sou_section_key := section_key;
                               sou_state := ReconciledOpenState_Closed |})
            <$> btm_values (cob_sections current_catalog) in
          base OpenReconcileClassification_ValidApplied 0 updates)
  else
  let orphan_count :=
    saturating_sub (Z.of_nat (size (ose_indexes open_set))) observed_intersection_count in
  if bool_decide (cob_sections current_catalog ≠ ∅ ∧ observed_intersection_count = 0)
  then Ok (base OpenReconcileClassification_UnsafeZeroIntersection orphan_count [])
  else if gate_hold
  then Ok (base OpenReconcileClassification_SuspectPartialSnapshot orphan_count [])
  else
  let updates :=
    (λ '(index, section_key),
       {| sou_section_key := section_key;
          sou_state := if bool_decide (index ∈ ose_indexes open_set)
                       then ReconciledOpenState_Open else ReconciledOpenState_Closed |})
    <$> btm_iter (cob_sections current_catalog) in
  Ok (base OpenReconcileClassification_ValidApplied orphan_count updates).

End reconcile.

(** * Lemmas *)

(** ** Catalog batches *)

(** The batch a section list stands for. *)
Definition sections_by_index (sections : list SectionKey) : gmap SectionIndex SectionKey :=
  list_to_map ((λ s, (sk_index s, s)) <$> sections).

Definition catalog_batch_wf (b : CatalogOpenBatch) : Prop :=
  ∀ i k, cob_sections b !! i = Some k → sk_index k = i ∧ sk_target k = cob_target b.

Lemma sections_by_index_lookup l i k :
  NoDup (sk_index <$> l) → sections_by_index l !! i = Some k ↔ k ∈ l ∧ sk_index k = i.
Proof.
  intros Hnd. unfold sections_by_index. rewrite <-elem_of_list_to_map.
  - rewrite list_elem_of_fmap. naive_solver.
  - by rewrite <-list_fmap_compose.
Qed.

Lemma sections_by_index_None l i : sections_by_index l !! i = None ↔ i ∉ sk_index <$> l.
Proof.
  unfold sections_by_index. rewrite <-not_elem_of_list_to_map. by rewrite <-list_fmap_compose.
Qed.

Lemma catalog_batch_loop_Ok t l m m' :
  catalog_batch_loop t l m = Ok m' ↔
  Forall (λ s, sk_target s = t) l ∧ NoDup (sk_index <$> l) ∧
  Forall (λ s, m !! sk_index s = None) l ∧ m' = sections_by_index l ∪ m.
Proof.
  revert m. induction l as [|s l IH]; intros m; cbn [catalog_batch_loop].
  - unfold sections_by_index; simpl. rewrite (left_id_L ∅ (∪)).
    split; [intros [= ->]; by repeat constructor|]. by intros (_&_&_&->).
  - rewrite !Forall_cons, fmap_cons, NoDup_cons.
    case_bool_decide as Ht; [split; [done|naive_solver]|].
    case_bool_decide as Hp; [split; [done|]; intros (_&_&[Hn _]&_); by rewrite Hn in Hp; destruct Hp|].
    apply eq_None_not_Some in Hp. rewrite IH. clear IH.
    assert (Forall (λ x, (<[sk_index s:=s]> m) !! sk_index x = None) l ↔
            (sk_index s ∉ (sk_index <$> l)) ∧ Forall (λ x, m !! sk_index x = None) l) as ->.
    { rewrite !Forall_forall, list_elem_of_fmap. setoid_rewrite lookup_insert_None. naive_solver. }
    assert ((sk_index s ∉ sk_index <$> l) →
            sections_by_index l ∪ (<[sk_index s:=s]> m) = sections_by_index (s :: l) ∪ m) as Heq.
    { intros Hn%sections_by_index_None. unfold sections_by_index; simpl.
      rewrite <-insert_union_l, insert_union_r by done. done. }
    naive_solver.
Qed.

(** A catalog batch is accepted exactly when every section belongs to the
    target and no index repeats; it then holds exactly the given sections,
    each under its own index, so the order of the input does not matter. *)
Theorem catalog_batch_try_new_iff (t : TermCampusKey) (v : CatalogContentVersion)
    (l : list SectionKey) (b : CatalogOpenBatch) :
  CatalogOpenBatch_try_new t v l = Ok b ↔
  (∀ s, s ∈ l → sk_target s = t) ∧ NoDup (sk_index <$> l) ∧
  cob_target b = t ∧ cob_content_version b = v ∧
  (∀ i k, cob_sections b !! i = Some k ↔ k ∈ l ∧ sk_index k = i).
Proof.
  unfold CatalogOpenBatch_try_new. rewrite result_bind_Ok.
  setoid_rewrite catalog_batch_loop_Ok. setoid_rewrite Forall_forall. split.
  - intros (m & (Ht & Hnd & _ & ->) & [= <-]). simpl. rewrite (right_id_L ∅ (∪)).
    split_and!; [done..|]. intros i k. by apply sections_by_index_lookup.
  - destruct b as [t' v' m]; simpl. intros (Ht & Hnd & -> & -> & Hm).
    exists m. split; [|done]. split_and!; [done..|].
    rewrite (right_id_L ∅ (∪)). apply map_eq. intros i. apply option_eq. intros k.
    etrans; [apply Hm|]. symmetry. by apply sections_by_index_lookup.
Qed.

Lemma catalog_batch_try_new_wf t v l b :
  CatalogOpenBatch_try_new t v l = Ok b → catalog_batch_wf b.
Proof.
  rewrite catalog_batch_try_new_iff. intros (Ht & _ & <- & _ & Hm) i k Hk.
  apply Hm in Hk as [Hin <-]. eauto.
Qed.

Section reconcile_facts.
Context `{Sha256Api}.

(** ** Counting the open sections *)

Lemma filter_length_swap (P Q : SectionIndex → Prop) `{∀ i, Decision (P i), ∀ i, Decision (Q i)}
    (l k : list SectionIndex) :
  NoDup l → NoDup k → (∀ i, i ∈ l ∧ P i ↔ i ∈ k ∧ Q i) →
  length (filter P l) = length (filter Q k).
Proof.
  intros Hl Hk Heq. apply Permutation_length, NoDup_Permutation.
  - by apply NoDup_filter.
  - by apply NoDup_filter.
  - intros i. rewrite !list_elem_of_filter. specialize (Heq i). tauto.
Qed.

(** The updates of an applied snapshot. *)
Definition applied_updates (cat : CatalogOpenBatch) (e : OpenSetEvidence)
    : list SectionOpenUpdate :=
  (λ '(index, section_key),
     {| sou_section_key := section_key;
        sou_state := if bool_decide (index ∈ ose_indexes e)
                     then ReconciledOpenState_Open else ReconciledOpenState_Closed |})
  <$> btm_iter (cob_sections cat).

Lemma applied_updates_empty cat e :
  ose_indexes e = ∅ →
  applied_updates cat e =
  (λ k, {| sou_section_key := k; sou_state := ReconciledOpenState_Closed |})
    <$> btm_values (cob_sections cat).
Proof.
  intros He. unfold applied_updates, btm_values. rewrite <-list_fmap_compose.
  apply list_fmap_ext. intros _ [i k] _. simpl. by rewrite He, bool_decide_eq_false_2 by set_solver.
Qed.

Lemma applied_updates_open_count cat e :
  length (filter (λ u, sou_state u = ReconciledOpenState_Open) (applied_updates cat e)) =
  length (observed_intersection cat e).
Proof.
  unfold applied_updates, observed_intersection.
  transitivity (length (filter (λ i, i ∈ ose_indexes e) (btm_keys (cob_sections cat)))).
  - rewrite <-btm_iter_keys. induction (btm_iter (cob_sections cat)) as [|[i k] l IH]; [done|].
    csimpl. rewrite !filter_cons. simpl.
    destruct (decide (i ∈ ose_indexes e)) as [Hi|Hi].
    + rewrite bool_decide_eq_true_2 by done. simpl. by rewrite IH.
    + rewrite bool_decide_eq_false_2 by done. simpl. by rewrite IH.
  - apply filter_length_swap; [apply NoDup_btm_keys|apply NoDup_bts_iter|].
    intros i. rewrite elem_of_btm_keys, elem_of_bts_iter. tauto.
Qed.

Lemma length_applied_updates cat e :
  length (applied_updates cat e) = size (cob_sections cat).
Proof. unfold applied_updates. by rewrite length_fmap, length_btm_iter. Qed.

Lemma observed_intersection_le cat e :
  (length (observed_intersection cat e) ≤ size (cob_sections cat) ∧
   length (observed_intersection cat e) ≤ size (ose_indexes e))%nat.
Proof.
  split.
  - rewrite <-applied_updates_open_count, <-(length_applied_updates cat e).
    apply length_filter.
  - unfold observed_intersection. rewrite <-length_bts_iter. apply length_filter.
Qed.

(** ** The two shapes of a plan *)

Definition plan_applied (cat : CatalogOpenBatch) (e : OpenSetEvidence) (p : OpenReconcilePlan)
    : Prop :=
  orp_updates p = applied_updates cat e ∧
  orp_state_hash p = Some (open_state_hash_v1 (cob_target cat) (applied_updates cat e)) ∧
  orp_open_count p = orp_observed_intersection_count p ∧
  orp_open_count p + orp_closed_count p = orp_catalog_section_count p ∧
  orp_orphan_count p = orp_unique_value_count p - orp_observed_intersection_count p.

Definition plan_withheld (p : OpenReconcilePlan) : Prop :=
  orp_updates p = [] ∧ orp_state_hash p = None ∧ orp_open_count p = 0 ∧ orp_closed_count p = 0.

Definition counts_fit (cat : CatalogOpenBatch) (e : OpenSetEvidence) : Prop :=
  Z.of_nat (size (cob_sections cat)) ≤ u64_max ∧ Z.of_nat (size (ose_indexes e)) ≤ u64_max.

Lemma reconcile_base_applied captured cat e c orphan :
  counts_fit cat e → is_valid c = true →
  orphan = saturating_sub (Z.of_nat (size (ose_indexes e))) (zlen (observed_intersection cat e)) →
  plan_applied cat e (reconcile_base captured cat e (zlen (observed_intersection cat e)) c orphan
                        (applied_updates cat e)).
Proof.
  intros [Hc He] Hv ->. destruct (observed_intersection_le cat e) as [Hle1 Hle2].
  unfold plan_applied, reconcile_base; cbn [orp_updates orp_state_hash orp_open_count
    orp_observed_intersection_count orp_closed_count orp_catalog_section_count orp_orphan_count
    orp_unique_value_count]. rewrite Hv.
  unfold zlen, u64_try_from_or_max, saturating_sub.
  rewrite applied_updates_open_count, length_applied_updates.
  split_and!; [done|done|done|lia|lia].
Qed.

Lemma reconcile_base_withheld captured cat e n c orphan :
  is_valid c = false → plan_withheld (reconcile_base captured cat e n c orphan []).
Proof.
  intros Hv. unfold plan_withheld, reconcile_base; simpl. rewrite Hv.
  split_and!; by vm_compute.
Qed.

(** C34. Reconciliation fails only for a foreign batch. A plan with a valid
    classification is computed against the very catalog it was captured for,
    and its updates name every catalog section once, in index order, OPEN
    exactly for the indexes of the response; its counters agree with each
    other. Every other plan carries no update and no state hash. *)
Theorem reconcile_open_set_spec (captured : CatalogContentVersion) (cat : CatalogOpenBatch)
    (e : OpenSetEvidence) (hold : bool) :
  catalog_batch_wf cat → counts_fit cat e →
  match reconcile_open_set captured cat e hold with
  | Err err => err = ReconcileInputError_ForeignOpenBatch ∧ ose_target e ≠ cob_target cat
  | Ok p =>
      ose_target e = cob_target cat ∧
      if is_valid (orp_classification p) then
        captured = cob_content_version cat ∧
        sou_section_key <$> orp_updates p = btm_values (cob_sections cat) ∧
        (∀ u, u ∈ orp_updates p →
           sou_state u = ReconciledOpenState_Open ↔ sk_index (sou_section_key u) ∈ ose_indexes e) ∧
        is_Some (orp_state_hash p) ∧
        orp_open_count p = orp_observed_intersection_count p ∧
        orp_open_count p + orp_closed_count p = orp_catalog_section_count p ∧
        orp_orphan_count p = orp_unique_value_count p - orp_observed_intersection_count p
      else plan_withheld p
  end.
Proof.
  intros Hwf Hfit. unfold reconcile_open_set.
  case_bool_decide as Ht; [done|].
  assert (∀ p, captured = cob_content_version cat → plan_applied cat e p →
    captured = cob_content_version cat ∧
    sou_section_key <$> orp_updates p = btm_values (cob_sections cat) ∧
    (∀ u, u ∈ orp_updates p →
       sou_state u = ReconciledOpenState_Open ↔ sk_index (sou_section_key u) ∈ ose_indexes e) ∧
    is_Some (orp_state_hash p) ∧
    orp_open_count p = orp_observed_intersection_count p ∧
    orp_open_count p + orp_closed_count p = orp_catalog_section_count p ∧
    orp_orphan_count p = orp_unique_value_count p - orp_observed_intersection_count p) as Happ.
  { intros p Hcap (-> & -> & ? & ? & ?). split_and!; [done| | |done..].
    - unfold applied_updates, btm_values. rewrite <-list_fmap_compose.
      apply list_fmap_ext. by intros _ [] _.
    - unfold applied_updates. intros u ([i k] & -> & Hin)%list_elem_of_fmap.
      apply elem_of_btm_iter, Hwf in Hin as [<- _]. simpl.
      case_bool_decide; [tauto|by split]. }
  case_bool_decide as Hv; [by split; [|apply reconcile_base_withheld]|].
  case_bool_decide as He.
  - rewrite <-(applied_updates_empty cat e) by done.
    assert (zlen (observed_intersection cat e) = 0) as Hz.
    { destruct (observed_intersection_le cat e) as [_ Hle]. rewrite He, size_empty in Hle.
      unfold zlen. lia. }
    assert (0 = saturating_sub (Z.of_nat (size (ose_indexes e)))
                  (zlen (observed_intersection cat e))) as Horph.
    { rewrite Hz, He, size_empty. done. }
    case_bool_decide as Hs.
    + split; [done|]. assert (applied_updates cat e = []) as Hnil.
      { apply length_zero_iff_nil. by rewrite length_applied_updates, Hs, map_size_empty. }
      rewrite <-Hnil. apply Happ; [done|]. by apply reconcile_base_applied.
    + destruct hold; (split; [done|]); [by apply reconcile_base_withheld|].
      apply Happ; [done|]. by apply reconcile_base_applied.
  - case_bool_decide; [by split; [|apply reconcile_base_withheld]|].
    destruct hold; (split; [done|]); [by apply reconcile_base_withheld|].
    apply Happ; [done|]. by apply reconcile_base_applied.
Qed.

(** The gate's hold flag only ever withholds: with the flag set no plan
    carries an update, a plan that was withheld without the flag is unchanged,
    an applicable plan over a nonempty catalog becomes SUSPECT_PARTIAL with the
    same observed intersection, and hard rejections keep their class. *)
Theorem reconcile_hold_withholds (captured : CatalogContentVersion) (cat : CatalogOpenBatch)
    (e : OpenSetEvidence) :
  match reconcile_open_set captured cat e false, reconcile_open_set captured cat e true with
  | Ok p, Ok q =>
      orp_updates q = [] ∧
      orp_observed_intersection_count q = orp_observed_intersection_count p ∧
      (orp_classification p ≠ OpenReconcileClassification_ValidApplied → q = p) ∧
      (orp_classification p = OpenReconcileClassification_ValidApplied →
         orp_classification q = OpenReconcileClassification_SuspectPartialSnapshot ∧
         plan_withheld q)
  | Err err, Err err' => err = err'
  | _, _ => False
  end.
Proof.
  unfold reconcile_open_set. repeat case_bool_decide; try done.
  all: by split_and!; [..|intros _; split; [|apply reconcile_base_withheld]].
Qed.

(** Evidence of a snapshot depends on the set of reported indexes and the
    raw count only, never on their order or repetitions: two responses with
    the same members give the same evidence, hash included; it is rejected
    exactly when the raw count is smaller than the number of members. *)
Theorem open_set_evidence_canonical (t : TermCampusKey) (l l' : list SectionIndex) (raw : Z) :
  (∀ i, i ∈ l ↔ i ∈ l') → Z.of_nat (length l) ≤ u64_max →
  OpenSetEvidence_try_new t l raw = OpenSetEvidence_try_new t l' raw ∧
  match OpenSetEvidence_try_new t l raw with
  | Err err => err = ReconcileInputError_InvalidOpenSetCount ∧
               raw < Z.of_nat (length (remove_dups l))
  | Ok e => ose_raw_value_count e = Z.of_nat (unique_count e) + ose_duplicate_count e ∧
            0 ≤ ose_duplicate_count e ∧ (∀ i, i ∈ ose_indexes e ↔ i ∈ l)
  end.
Proof.
  intros Heq Hlen. split.
  - unfold OpenSetEvidence_try_new.
    assert ((list_to_set l : gset SectionIndex) = list_to_set l') as -> by set_solver. done.
  - assert (size (list_to_set l : gset SectionIndex) = length (remove_dups l)) as Hsize.
    { rewrite <-(size_list_to_set (C:=gset SectionIndex)) by apply NoDup_remove_dups.
      f_equal. apply set_eq. intros i. by rewrite !elem_of_list_to_set, elem_of_remove_dups. }
    assert (length (remove_dups l) ≤ length l)%nat as Hle.
    { apply submseteq_length, NoDup_submseteq; [apply NoDup_remove_dups|].
      intros i. by rewrite elem_of_remove_dups. }
    unfold OpenSetEvidence_try_new, u64_checked_sub, u64_try_from_or_max.
    rewrite Hsize. rewrite Z.min_l by lia. case_bool_decide; simpl; [|split; [done|lia]].
    unfold unique_count; simpl. rewrite Hsize.
    split_and!; [lia|lia|]. intros i. apply elem_of_list_to_set.
Qed.

End reconcile_facts.

(** ** A concrete catalog and response *)

Definition example_section (index : string) : SectionKey :=
  SectionKey_new (mkTermId "92026") (mkCampusCode "NB") (mkSectionIndex index).
Definition example_nb : TermCampusKey := sk_target (example_section "00001").

Definition example_catalog : CatalogOpenBatch := {|
  cob_target := example_nb;
  cob_content_version := CatalogContentVersion_new 7;
  cob_sections := sections_by_index [example_section "00001"; example_section "00002"]
|}.

(** The evidence of the response [00001, 00001, 99999]. *)
Definition example_evidence : OpenSetEvidence := {|
  ose_target := example_nb;
  ose_indexes := {[ mkSectionIndex "00001"; mkSectionIndex "99999" ]};
  ose_raw_value_count := 3;
  ose_duplicate_count := 1;
  ose_canonical_set_hash := ""
|}.

Lemma example_catalog_wf : catalog_batch_wf example_catalog.
Proof.
  intros i k. unfold example_catalog; cbn [cob_sections cob_target].
  intros Hk. apply sections_by_index_lookup in Hk as [Hin <-].
  - split; [done|]. rewrite !elem_of_cons, elem_of_nil in Hin. by destruct Hin as [->|[->|[]]].
  - apply (bool_decide_unpack _). vm_compute. done.
Qed.

Lemma reconcile_open_set_spec_witness :
  catalog_batch_wf example_catalog ∧ counts_fit example_catalog example_evidence ∧
  match @reconcile_open_set concrete_sha256_api (CatalogContentVersion_new 7) example_catalog
          example_evidence false with
  | Ok p => sou_state <$> orp_updates p = [ReconciledOpenState_Open; ReconciledOpenState_Closed] ∧
            orp_orphan_count p = 1 ∧ sou_section_key <$> orp_updates p =
            btm_values (cob_sections example_catalog)
  | Err _ => False
  end.
Proof.
  assert (counts_fit example_catalog example_evidence) as Hfit
    by (split; vm_compute; discriminate).
  split; [exact example_catalog_wf|]. split; [exact Hfit|].
  pose proof (@reconcile_open_set_spec concrete_sha256_api (CatalogContentVersion_new 7)
    example_catalog example_evidence false example_catalog_wf Hfit) as Hspec.
  destruct (reconcile_open_set _ _ _ _) as [p|] eqn:E.
  - destruct Hspec as [_ Hspec]. vm_compute in E. injection E as <-. vm_compute.
    split; [done|]. split; [done|]. exact (proj1 (proj2 Hspec)).
  - vm_compute in E. discriminate.
Defined.

Lemma open_set_evidence_canonical_witness :
  let l := [mkSectionIndex "00002"; mkSectionIndex "00001"; mkSectionIndex "00002"] in
  let l' := [mkSectionIndex "00001"; mkSectionIndex "00002"] in
  Z.of_nat (length l) ≤ u64_max ∧
  @OpenSetEvidence_try_new concrete_sha256_api example_nb l 3 =
  @OpenSetEvidence_try_new concrete_sha256_api example_nb l' 3.
Proof.
  intros l l'. assert (Z.of_nat (length l) ≤ u64_max) as Hlen by (vm_compute; discriminate).
  assert (∀ i, i ∈ l ↔ i ∈ l') as Hmem
    by (intros i; unfold l, l'; rewrite !elem_of_cons, elem_of_nil; tauto).
  exact (conj Hlen (proj1 (@open_set_evidence_canonical concrete_sha256_api example_nb
                             l l' 3 Hmem Hlen))).
Defined.
