(* ===== verification/OpenClient.v ===== *)
(** * The client of the Open endpoint
    (crates/bcsp-rutgers-client/src/open_sections.rs)

    The request of one Open batch, built from discovery or from what is stored of
    it; the classification of everything the upstream can answer, with the header
    fields kept for audit; the decoding of a body into a canonical set of section
    indexes. The HTTP client, the JSON parser and URLs are third-party code. *)

From stdpp Require Import pretty.
From S2P Require Import Prelude Identity Contracts RustStr Reconcile.

(** ** Constants *)

Definition RUTGERS_OPEN_SECTIONS_ENDPOINT : string :=
  "https://classes.rutgers.edu/soc/api/openSections.json".
Definition OPEN_MAX_DECODED_BYTES : Z := 10 * 1024 * 1024.
Definition OPEN_SET_HASH_DOMAIN : string := "bcsp-open-set-v1" +:+ nl.

(** ** Discovered coordinates (raw_catalog.rs and discovery.rs) *)

Inductive JsonType :=
| JsonType_Boolean | JsonType_Number | JsonType_String | JsonType_Array | JsonType_Object.

Record MalformedField := { mf_json_type : JsonType; mf_canonical_sha256 : string }.

Inductive Presence (T : Type) :=
| Presence_Missing
| Presence_Null
| Presence_Malformed (field : MalformedField)
| Presence_Value (value : T).
Arguments Presence_Missing {T}.
Arguments Presence_Null {T}.
Arguments Presence_Malformed {T} field.
Arguments Presence_Value {T} value.

Definition presence_value {T} (p : Presence T) : option T :=
  match p with Presence_Value value => Some value | _ => None end.

Record DiscoverySourceId := mkDiscoverySourceId { dsi_str : string }.

#[export] Instance DiscoverySourceId_eq_dec : EqDecision DiscoverySourceId.
Proof. solve_decision. Defined.

Definition from_persisted (value : string) : option DiscoverySourceId :=
  digest ← match strip_prefix "selector:" value with
           | Some digest => Some digest
           | None => strip_prefix "bootstrap:" value
           end;
  if bool_decide (String.length digest = 64%nat) && forallb is_lower_hex (bytes digest)
  then Some (mkDiscoverySourceId value) else None.

Record DiscoveredTerm := {
  dte_source_id : DiscoverySourceId;
  dte_term_id : TermId;
  dte_year : Presence Z;
  dte_term_code : Presence string;
  dte_display : Presence string;
  dte_published : Presence bool
}.

Record DiscoveredTarget := {
  dta_source_id : DiscoverySourceId;
  dta_key : TermCampusKey;
  dta_enabled : Presence bool
}.

(** ** Requests *)

Record OpenSectionsRequest := {
  osr_discovery_source_id : DiscoverySourceId;
  osr_target : OpenBatchKey;
  osr_year : Z;
  osr_term_code : Z
}.

Inductive OpenSectionsRequestError :=
| OpenSectionsRequestError_SourceMismatch
| OpenSectionsRequestError_TermMismatch
| OpenSectionsRequestError_MissingYear
| OpenSectionsRequestError_InvalidYear
| OpenSectionsRequestError_MissingTermCode
| OpenSectionsRequestError_InvalidTermCode
| OpenSectionsRequestError_InvalidDiscoverySourceId.

(** [u16::try_from] of an [i64]. *)
Definition u16_try_from (n : Z) : option Z :=
  if bool_decide (0 ≤ n ≤ 65535) then Some n else None.

Definition year_in_range (year : Z) : bool := bool_decide (1000 ≤ year ≤ 9999).

(** The check of a term code both constructors make, and [parse::<u8>] of the
    digits that passed it. *)
Definition term_code_invalid (term_code : string) : bool :=
  bool_decide (term_code = "") || bool_decide (2 < String.length term_code)%nat
  || negb (forallb is_ascii_digit (bytes term_code))
  || (bool_decide (1 < String.length term_code)%nat && String.prefix "0" term_code).

Definition parse_u8_digits (s : string) : option Z :=
  if bool_decide (s = "") then None
  else if bool_decide (decimal_value s ≤ u8_max) then Some (decimal_value s) else None.

Definition try_from_discovery (term : DiscoveredTerm) (target : DiscoveredTarget)
    : result OpenSectionsRequestError OpenSectionsRequest :=
  if bool_decide (dte_source_id term ≠ dta_source_id target)
  then Err OpenSectionsRequestError_SourceMismatch
  else if bool_decide (dte_term_id term ≠ tck_term (dta_key target))
  then Err OpenSectionsRequestError_TermMismatch
  else
  year ← ok_or OpenSectionsRequestError_MissingYear (presence_value (dte_year term));
  year ← ok_or OpenSectionsRequestError_InvalidYear (u16_try_from year);
  if negb (year_in_range year) then Err OpenSectionsRequestError_InvalidYear
  else
  term_code ← ok_or OpenSectionsRequestError_MissingTermCode (presence_value (dte_term_code term));
  if term_code_invalid term_code then Err OpenSectionsRequestError_InvalidTermCode
  else
  term_code ← ok_or OpenSectionsRequestError_InvalidTermCode (parse_u8_digits term_code);
  Ok {| osr_discovery_source_id := dte_source_id term;
        osr_target := OpenBatchKey_new
          (TermCampusKey_new (dte_term_id term) (tck_campus (dta_key target)));
        osr_year := year;
        osr_term_code := term_code |}.

Definition try_from_persisted_discovery (discovery_source_id : string) (term_id : TermId)
    (target : TermCampusKey) (year : option Z) (term_code : option string)
    : result OpenSectionsRequestError OpenSectionsRequest :=
  if bool_decide (term_id ≠ tck_term target) then Err OpenSectionsRequestError_TermMismatch
  else
  discovery_source_id ← ok_or OpenSectionsRequestError_InvalidDiscoverySourceId
                          (from_persisted discovery_source_id);
  year ← ok_or OpenSectionsRequestError_MissingYear year;
  if negb (year_in_range year) then Err OpenSectionsRequestError_InvalidYear
  else
  term_code ← ok_or OpenSectionsRequestError_MissingTermCode term_code;
  if term_code_invalid term_code then Err OpenSectionsRequestError_InvalidTermCode
  else
  term_code ← ok_or OpenSectionsRequestError_InvalidTermCode (parse_u8_digits term_code);
  Ok {| osr_discovery_source_id := discovery_source_id;
        osr_target := OpenBatchKey_new (TermCampusKey_new term_id (tck_campus target));
        osr_year := year;
        osr_term_code := term_code |}.

(** ** Responses and failures *)

Inductive OpenPayloadClassification :=
| OpenPayloadClassification_Nonempty
| OpenPayloadClassification_Empty.

Record OpenCanonicalSetHash := mkOpenCanonicalSetHash { och_str : string }.

(** [OpenCanonicalSetHash::try_from] (crates/bcsp-contracts/src/open.rs). *)
Definition is_ascii_hexdigit (c : Ascii.ascii) : bool :=
  is_ascii_digit c || byte_in 97 102 c || byte_in 65 70 c.
Definition OpenCanonicalSetHash_try_from (value : string) : option OpenCanonicalSetHash :=
  if bool_decide (String.length value = SHA256_HEX_BYTES)
     && forallb is_ascii_hexdigit (bytes value)
     && negb (existsb is_ascii_uppercase (bytes value))
  then Some (mkOpenCanonicalSetHash value) else None.

Record OpenResponseMetadata := {
  orm_http_status : Z;
  orm_decoded_bytes : Z;
  orm_decoded_body_sha256 : string;
  orm_canonical_set_sha256 : OpenCanonicalSetHash;
  orm_raw_value_count : Z;
  orm_unique_value_count : Z;
  orm_duplicate_value_count : Z;
  orm_content_type : string;
  orm_etag : option string;
  orm_cache_control : option string;
  orm_date : option string;
  orm_age_seconds : option Z;
  orm_last_modified : option string
}.

Record OpenSectionsResponse := {
  osp_target : OpenBatchKey;
  osp_classification : OpenPayloadClassification;
  osp_open_indexes : list SectionIndex;
  osp_metadata : OpenResponseMetadata
}.

Inductive RetryAfterValue :=
| RetryAfterValue_DelaySeconds (seconds : Z)
| RetryAfterValue_HttpDateUnixSeconds (unix_seconds : Z).

Inductive RetryAfterHeader :=
| RetryAfterHeader_Missing
| RetryAfterHeader_Invalid
| RetryAfterHeader_Valid (value : RetryAfterValue).

Record OpenFailureResponseMetadata := {
  ofm_http_status : Z;
  ofm_decoded_bytes : option Z;
  ofm_decoded_body_sha256 : option string;
  ofm_content_type : option string;
  ofm_etag : option string;
  ofm_cache_control : option string;
  ofm_date : option string;
  ofm_age : option string;
  ofm_age_seconds : option Z;
  ofm_last_modified : option string;
  ofm_retry_after_raw : option string;
  ofm_retry_after : RetryAfterHeader
}.

(** Assignments to the fields [decoded_bytes] and [decoded_body_sha256]. *)
Definition set_decoded (decoded_bytes : option Z) (decoded_body_sha256 : option string)
    (m : OpenFailureResponseMetadata) : OpenFailureResponseMetadata :=
  {| ofm_http_status := ofm_http_status m;
     ofm_decoded_bytes := decoded_bytes;
     ofm_decoded_body_sha256 := decoded_body_sha256;
     ofm_content_type := ofm_content_type m;
     ofm_etag := ofm_etag m;
     ofm_cache_control := ofm_cache_control m;
     ofm_date := ofm_date m;
     ofm_age := ofm_age m;
     ofm_age_seconds := ofm_age_seconds m;
     ofm_last_modified := ofm_last_modified m;
     ofm_retry_after_raw := ofm_retry_after_raw m;
     ofm_retry_after := ofm_retry_after m |}.

Inductive RedirectScope :=
| RedirectScope_SameOrigin
| RedirectScope_OffOrigin
| RedirectScope_InvalidLocation.

Inductive OpenFailureDisposition :=
| OpenFailureDisposition_TransientBackoff
| OpenFailureDisposition_RateLimitedOriginGate
| OpenFailureDisposition_FatalProtocolOriginCircuit
| OpenFailureDisposition_LocalConfiguration.

Inductive OpenSectionsError :=
| OpenSectionsError_Timeout
| OpenSectionsError_Network
| OpenSectionsError_RequestConstruction
| OpenSectionsError_ResponseUrlMismatch
| OpenSectionsError_TransientHttp (status : Z)
| OpenSectionsError_RateLimited (retry_after : RetryAfterHeader)
| OpenSectionsError_Forbidden
| OpenSectionsError_Redirect (status : Z) (scope : RedirectScope)
| OpenSectionsError_FatalClientHttp (status : Z)
| OpenSectionsError_UnsupportedHttp (status : Z)
| OpenSectionsError_InvalidContentType
| OpenSectionsError_ResponseTooLarge
| OpenSectionsError_ContentDecoding
| OpenSectionsError_InvalidJson
| OpenSectionsError_RootNotArray
| OpenSectionsError_NonStringValue (position : Z)
| OpenSectionsError_InvalidSectionIndex (position : Z).

Record OpenSectionsFailure := {
  osf_kind : OpenSectionsError;
  osf_response_metadata : option OpenFailureResponseMetadata
}.

Definition before_response (kind : OpenSectionsError) : OpenSectionsFailure :=
  {| osf_kind := kind; osf_response_metadata := None |}.

Definition from_response (kind : OpenSectionsError)
    (response_metadata : OpenFailureResponseMetadata) : OpenSectionsFailure :=
  {| osf_kind := kind; osf_response_metadata := Some response_metadata |}.

Definition disposition (e : OpenSectionsError) : OpenFailureDisposition :=
  match e with
  | OpenSectionsError_Timeout
  | OpenSectionsError_Network
  | OpenSectionsError_TransientHttp _ => OpenFailureDisposition_TransientBackoff
  | OpenSectionsError_RateLimited _ => OpenFailureDisposition_RateLimitedOriginGate
  | OpenSectionsError_RequestConstruction => OpenFailureDisposition_LocalConfiguration
  | OpenSectionsError_ResponseUrlMismatch
  | OpenSectionsError_Forbidden
  | OpenSectionsError_Redirect _ _
  | OpenSectionsError_FatalClientHttp _
  | OpenSectionsError_UnsupportedHttp _
  | OpenSectionsError_InvalidContentType
  | OpenSectionsError_ResponseTooLarge
  | OpenSectionsError_ContentDecoding
  | OpenSectionsError_InvalidJson
  | OpenSectionsError_RootNotArray
  | OpenSectionsError_NonStringValue _
  | OpenSectionsError_InvalidSectionIndex _ => OpenFailureDisposition_FatalProtocolOriginCircuit
  end.

#[export] Instance OpenBatchKey_eq_dec : EqDecision OpenBatchKey.
Proof. solve_decision. Defined.
#[export] Instance OpenPayloadClassification_eq_dec : EqDecision OpenPayloadClassification.
Proof. solve_decision. Defined.
#[export] Instance OpenCanonicalSetHash_eq_dec : EqDecision OpenCanonicalSetHash.
Proof. solve_decision. Defined.

(** ** HTTP dates *)

Definition slice (value : string) (from to : nat) : string :=
  String.substring from (to - from) value.

Definition byte_at (value : string) (i : nat) : Ascii.ascii :=
  default Ascii.zero (String.get i value).

(** [u32::checked_mul] then [u32::checked_add] of each digit. *)
Definition parse_decimal (value : string) : option Z :=
  if bool_decide (value = "") || negb (forallb is_ascii_digit (bytes value)) then None
  else
    foldl (λ acc byte, value ← acc; v10 ← u32_checked (value * 10); u32_checked (v10 + digit_value byte))
      (Some 0) (bytes value).

Definition days_in_month (year month : Z) : Z :=
  if bool_decide (month ∈ [1; 3; 5; 7; 8; 10; 12]) then 31
  else if bool_decide (month ∈ [4; 6; 9; 11]) then 30
  else if bool_decide (month = 2)
          && (bool_decide (year mod 400 = 0)
              || (bool_decide (year mod 4 = 0) && negb (bool_decide (year mod 100 = 0))))
  then 29
  else if bool_decide (month = 2) then 28 else 0.

(** Rust's [/] truncates. *)
Definition days_from_civil (year month day : Z) : Z :=
  let adjusted_year := year - (if bool_decide (month ≤ 2) then 1 else 0) in
  let era := Z.quot (if bool_decide (0 ≤ adjusted_year) then adjusted_year
                     else adjusted_year - 399) 400 in
  let year_of_era := adjusted_year - era * 400 in
  let month_prime := month + (if bool_decide (2 < month) then -3 else 9) in
  let day_of_year := Z.quot (153 * month_prime + 2) 5 + day - 1 in
  let day_of_era := year_of_era * 365 + Z.quot year_of_era 4 - Z.quot year_of_era 100 + day_of_year in
  era * 146097 + day_of_era - 719468.

Definition weekday_of_name (name : string) : option Z :=
  if bool_decide (name = "Sun") then Some 0
  else if bool_decide (name = "Mon") then Some 1
  else if bool_decide (name = "Tue") then Some 2
  else if bool_decide (name = "Wed") then Some 3
  else if bool_decide (name = "Thu") then Some 4
  else if bool_decide (name = "Fri") then Some 5
  else if bool_decide (name = "Sat") then Some 6
  else None.

Definition month_of_name (name : string) : option Z :=
  if bool_decide (name = "Jan") then Some 1
  else if bool_decide (name = "Feb") then Some 2
  else if bool_decide (name = "Mar") then Some 3
  else if bool_decide (name = "Apr") then Some 4
  else if bool_decide (name = "May") then Some 5
  else if bool_decide (name = "Jun") then Some 6
  else if bool_decide (name = "Jul") then Some 7
  else if bool_decide (name = "Aug") then Some 8
  else if bool_decide (name = "Sep") then Some 9
  else if bool_decide (name = "Oct") then Some 10
  else if bool_decide (name = "Nov") then Some 11
  else if bool_decide (name = "Dec") then Some 12
  else None.

Definition parse_imf_fixdate (value : string) : option Z :=
  if bool_decide (String.length value ≠ 29%nat)
     || negb (byte_is 44 (byte_at value 3))
     || negb (byte_is 32 (byte_at value 4))
     || negb (byte_is 32 (byte_at value 7))
     || negb (byte_is 32 (byte_at value 11))
     || negb (byte_is 32 (byte_at value 16))
     || negb (byte_is 58 (byte_at value 19))
     || negb (byte_is 58 (byte_at value 22))
     || negb (byte_is 32 (byte_at value 25))
     || bool_decide (slice value 26 29 ≠ "GMT")
  then None
  else
  weekday ← weekday_of_name (slice value 0 3);
  day ← parse_decimal (slice value 5 7);
  month ← month_of_name (slice value 8 11);
  year ← parse_decimal (slice value 12 16);
  hour ← parse_decimal (slice value 17 19);
  minute ← parse_decimal (slice value 20 22);
  second ← parse_decimal (slice value 23 25);
  if bool_decide (year < 1601) || bool_decide (day = 0)
     || bool_decide (days_in_month year month < day)
     || bool_decide (23 < hour) || bool_decide (59 < minute) || bool_decide (59 < second)
  then None
  else
  let days := days_from_civil year month day in
  if bool_decide ((days + 4) mod 7 ≠ weekday) then None
  else
  seconds ← i64_checked (days * 86400);
  i64_checked (seconds + (hour * 3600 + minute * 60 + second)).

(** [str::parse::<u64>]: an optional plus sign, then digits. *)
Definition parse_u64 (value : string) : option Z :=
  let digits := default value (strip_prefix "+" value) in
  if bool_decide (digits = "") || negb (forallb is_ascii_digit (bytes digits)) then None
  else if bool_decide (decimal_value digits ≤ u64_max) then Some (decimal_value digits) else None.

(** ** Third-party interfaces *)

(** [url::Url] with the accessors and constructors the client uses. *)
Class UrlApi := {
  Url : Type;
  url_scheme : Url → string;
  url_host_str : Url → option string;
  url_port_or_known_default : Url → option Z;
  url_join : Url → string → option Url;
  url_append_pair : Url → string → string → Url
}.

(** A [reqwest::Error] and the two questions asked about it; the predicates of
    [http::StatusCode], which is its number. *)
Class HttpApi := {
  HttpError : Type;
  error_is_timeout : HttpError → bool;
  error_is_decode : HttpError → bool;
  status_is_success : Z → bool;
  status_is_redirection : Z → bool;
  status_is_client_error : Z → bool;
  status_is_server_error : Z → bool
}.

(** The documented classes of status codes. *)
Class HttpApiLaws `{HttpApi} : Prop := {
  status_success s : status_is_success s = bool_decide (200 ≤ s < 300);
  status_redirection s : status_is_redirection s = bool_decide (300 ≤ s < 400);
  status_client_error s : status_is_client_error s = bool_decide (400 ≤ s < 500);
  status_server_error s : status_is_server_error s = bool_decide (500 ≤ s < 600)
}.

(** [serde_json::from_slice] into a [serde_json::Value] and its accessors. *)
Class JsonApi := {
  JsonValue : Type;
  json_from_slice : string → option JsonValue;
  json_as_array : JsonValue → option (list JsonValue);
  json_as_str : JsonValue → option string
}.

(** ** Headers *)

Inductive HeaderName :=
| ACCEPT | AGE | CACHE_CONTROL | CONTENT_LENGTH | CONTENT_TYPE | DATE | ETAG
| LAST_MODIFIED | LOCATION | RETRY_AFTER.

(** A header map gives the values of each name in order; a value is its text
    when [HeaderValue::to_str] succeeds. *)
Abbreviation HeaderMap := (HeaderName → list (option string)).

Definition header_get (headers : HeaderMap) (name : HeaderName) : option (option string) :=
  head (headers name).

Definition header_text (headers : HeaderMap) (name : HeaderName) : option string :=
  mjoin (header_get headers name).

Definition single_header_text (headers : HeaderMap) (name : HeaderName) : option string :=
  match headers name with
  | [value] => value
  | _ => None
  end.

Definition retry_after (headers : HeaderMap) : RetryAfterHeader :=
  match headers RETRY_AFTER with
  | [] => RetryAfterHeader_Missing
  | _ :: _ :: _ => RetryAfterHeader_Invalid
  | [None] => RetryAfterHeader_Invalid
  | [Some value] =>
      if negb (bool_decide (value = "")) && forallb is_ascii_digit (bytes value) then
        match parse_u64 value with
        | Some seconds => RetryAfterHeader_Valid (RetryAfterValue_DelaySeconds seconds)
        | None => RetryAfterHeader_Invalid
        end
      else
        match parse_imf_fixdate value with
        | Some unix_seconds =>
            RetryAfterHeader_Valid (RetryAfterValue_HttpDateUnixSeconds unix_seconds)
        | None => RetryAfterHeader_Invalid
        end
  end.

Definition semicolon : Ascii.ascii := Ascii.ascii_of_N 59.

Definition json_content_type (headers : HeaderMap) : option string :=
  value ← header_text headers CONTENT_TYPE;
  media_type ← head (str_split semicolon value);
  if eq_ignore_ascii_case (trim media_type) "application/json" then Some value else None.

Record ResponseHeaders := {
  rh_etag : option string;
  rh_cache_control : option string;
  rh_date : option string;
  rh_age_seconds : option Z;
  rh_last_modified : option string
}.

Definition ResponseHeaders_capture (headers : HeaderMap) : ResponseHeaders :=
  {| rh_etag := header_text headers ETAG;
     rh_cache_control := header_text headers CACHE_CONTROL;
     rh_date := header_text headers DATE;
     rh_age_seconds := header_text headers AGE ≫= parse_u64;
     rh_last_modified := header_text headers LAST_MODIFIED |}.

(** ** The client *)

Section client.
Context `{Sha256Api, UrlApi, HttpApi, JsonApi}.

(** A [reqwest::Response]: the body is the sequence of what [chunk] returns,
    up to the end of the stream. *)
Record HttpResponse := {
  hr_status : Z;
  hr_url : Url;
  hr_headers : HeaderMap;
  hr_chunks : list (result HttpError string)
}.

Definition capture (response : HttpResponse) : OpenFailureResponseMetadata :=
  let headers := hr_headers response in
  let age := header_text headers AGE in
  {| ofm_http_status := hr_status response;
     ofm_decoded_bytes := None;
     ofm_decoded_body_sha256 := None;
     ofm_content_type := header_text headers CONTENT_TYPE;
     ofm_etag := header_text headers ETAG;
     ofm_cache_control := header_text headers CACHE_CONTROL;
     ofm_date := header_text headers DATE;
     ofm_age_seconds := age ≫= parse_u64;
     ofm_age := age;
     ofm_last_modified := header_text headers LAST_MODIFIED;
     ofm_retry_after_raw := single_header_text headers RETRY_AFTER;
     ofm_retry_after := retry_after headers |}.

Definition same_origin (left right : Url) : bool :=
  bool_decide (url_scheme left = url_scheme right)
  && bool_decide (url_host_str left = url_host_str right)
  && bool_decide (url_port_or_known_default left = url_port_or_known_default right).

Definition redirect_scope (response : HttpResponse) : RedirectScope :=
  match header_text (hr_headers response) LOCATION with
  | None => RedirectScope_InvalidLocation
  | Some location =>
      match url_join (hr_url response) location with
      | None => RedirectScope_InvalidLocation
      | Some destination =>
          if same_origin (hr_url response) destination then RedirectScope_SameOrigin
          else RedirectScope_OffOrigin
      end
  end.

Definition classify_reqwest_error (error : HttpError) : OpenSectionsError :=
  if error_is_timeout error then OpenSectionsError_Timeout
  else if error_is_decode error then OpenSectionsError_ContentDecoding
  else OpenSectionsError_Network.

Definition classify_http_failure (response : HttpResponse) : OpenSectionsError :=
  let status := hr_status response in
  if bool_decide (status = 408) || status_is_server_error status
  then OpenSectionsError_TransientHttp status
  else if bool_decide (status = 429)
  then OpenSectionsError_RateLimited (retry_after (hr_headers response))
  else if bool_decide (status = 403) then OpenSectionsError_Forbidden
  else if status_is_redirection status && negb (bool_decide (status = 304))
  then OpenSectionsError_Redirect status (redirect_scope response)
  else if status_is_client_error status then OpenSectionsError_FatalClientHttp status
  else OpenSectionsError_UnsupportedHttp status.

(** The loop of [decode_open_array] from [position] on. *)
Fixpoint decode_open_values (position : Z) (values : list JsonValue) (unique : gset SectionIndex)
    : result OpenSectionsError (gset SectionIndex) :=
  match values with
  | [] => Ok unique
  | value :: values =>
      value ← ok_or (OpenSectionsError_NonStringValue position) (json_as_str value);
      match SectionIndex_try_from value with
      | Err _ => Err (OpenSectionsError_InvalidSectionIndex position)
      | Ok index => decode_open_values (position + 1) values ({[index]} ∪ unique)
      end
  end.

Definition decode_open_array (body : string)
    : result OpenSectionsError (Z * Z * list SectionIndex) :=
  root ← ok_or OpenSectionsError_InvalidJson (json_from_slice body);
  values ← ok_or OpenSectionsError_RootNotArray (json_as_array root);
  let raw_value_count := zlen values in
  unique ← decode_open_values 0 values ∅;
  let duplicate_value_count := raw_value_count - Z.of_nat (size unique) in
  Ok (raw_value_count, duplicate_value_count, bts_iter unique).

(** [None] is the failed [expect], which [canonical_open_set_sha256_total]
    excludes. *)
Definition canonical_open_set_sha256 (indexes : list SectionIndex)
    : option OpenCanonicalSetHash :=
  let unique : gset SectionIndex := list_to_set indexes in
  let preimage :=
    foldl (λ preimage index, preimage +:+ index_str index +:+ nl)
      OPEN_SET_HASH_DOMAIN (bts_iter unique) in
  OpenCanonicalSetHash_try_from (sha256_hex preimage).

(** The loop over the chunks: the body so far, then what is left of the stream.
    The error carries the failure metadata as it stands. *)
Fixpoint read_body (max_decoded_bytes : Z) (failure_metadata : OpenFailureResponseMetadata)
    (body : string) (chunks : list (result HttpError string))
    : result OpenSectionsFailure string :=
  let body_len := Z.of_nat (String.length body) in
  let digest := ofm_decoded_body_sha256 failure_metadata in
  match chunks with
  | [] => Ok body
  | Err error :: _ =>
      Err (from_response (classify_reqwest_error error)
             (set_decoded (Some body_len) digest failure_metadata))
  | Ok chunk :: chunks =>
      let next_len := body_len + Z.of_nat (String.length chunk) in
      if bool_decide (u64_max < next_len) then
        Err (from_response OpenSectionsError_ResponseTooLarge
               (set_decoded (Some body_len) digest failure_metadata))
      else if bool_decide (max_decoded_bytes < next_len) then
        Err (from_response OpenSectionsError_ResponseTooLarge
               (set_decoded (Some next_len) digest failure_metadata))
      else read_body max_decoded_bytes failure_metadata (body +:+ chunk) chunks
  end.

(** The declared length is above the limit. *)
Definition declared_too_large (max_decoded_bytes : Z) (headers : HeaderMap) : bool :=
  match header_text headers CONTENT_LENGTH ≫= parse_u64 with
  | Some length => bool_decide (max_decoded_bytes < length)
  | None => false
  end.

(** The outer [option] is the [expect] of the hash. *)
Definition decode_response (max_decoded_bytes : Z) (target : OpenBatchKey)
    (response : HttpResponse) : option (result OpenSectionsFailure OpenSectionsResponse) :=
  let status := hr_status response in
  let headers := hr_headers response in
  let failure_metadata := capture response in
  if negb (status_is_success status)
  then Some (Err (from_response (classify_http_failure response) failure_metadata))
  else match json_content_type headers with
  | None => Some (Err (from_response OpenSectionsError_InvalidContentType failure_metadata))
  | Some content_type =>
  if declared_too_large max_decoded_bytes headers
  then Some (Err (from_response OpenSectionsError_ResponseTooLarge failure_metadata))
  else
  let captured := ResponseHeaders_capture headers in
  match read_body max_decoded_bytes failure_metadata "" (hr_chunks response) with
  | Err failure => Some (Err failure)
  | Ok body =>
  let decoded_body_sha256 := sha256_hex body in
  let failure_metadata :=
    set_decoded (Some (Z.of_nat (String.length body))) (Some decoded_body_sha256)
      failure_metadata in
  match decode_open_array body with
  | Err error => Some (Err (from_response error failure_metadata))
  | Ok (raw_value_count, duplicate_value_count, open_indexes) =>
      canonical_set_sha256 ← canonical_open_set_sha256 open_indexes;
      Some (Ok
        {| osp_target := target;
           osp_classification := match open_indexes with
                                 | [] => OpenPayloadClassification_Empty
                                 | _ => OpenPayloadClassification_Nonempty
                                 end;
           osp_open_indexes := open_indexes;
           osp_metadata :=
             {| orm_http_status := status;
                orm_decoded_bytes := Z.of_nat (String.length body);
                orm_decoded_body_sha256 := decoded_body_sha256;
                orm_canonical_set_sha256 := canonical_set_sha256;
                orm_raw_value_count := raw_value_count;
                orm_unique_value_count := zlen open_indexes;
                orm_duplicate_value_count := duplicate_value_count;
                orm_content_type := content_type;
                orm_etag := rh_etag captured;
                orm_cache_control := rh_cache_control captured;
                orm_date := rh_date captured;
                orm_age_seconds := rh_age_seconds captured;
                orm_last_modified := rh_last_modified captured |} |})
  end end end.

Record RutgersOpenSectionsClient := {
  rc_endpoint : Url;
  rc_max_decoded_bytes : Z
}.

Definition request_url (client : RutgersOpenSectionsClient) (request : OpenSectionsRequest) : Url :=
  url_append_pair
    (url_append_pair
       (url_append_pair (rc_endpoint client) "year" (pretty (osr_year request)))
       "term" (pretty (osr_term_code request)))
    "campus" (campus_str (tck_campus (obk_target (osr_target request)))).

(** What building and executing a request do is the HTTP client's: [build] says
    whether the request for a URL could be built, [execute] answers it. *)
Definition fetch (client : RutgersOpenSectionsClient) (build : Url → bool)
    (execute : Url → result HttpError HttpResponse) (request : OpenSectionsRequest)
    : option (result OpenSectionsFailure OpenSectionsResponse) :=
  let requested_url := request_url client request in
  if negb (build requested_url)
  then Some (Err (before_response OpenSectionsError_RequestConstruction))
  else match execute requested_url with
  | Err error => Some (Err (before_response (classify_reqwest_error error)))
  | Ok response =>
      if negb (same_origin (hr_url response) requested_url)
      then Some (Err (from_response OpenSectionsError_ResponseUrlMismatch (capture response)))
      else decode_response (rc_max_decoded_bytes client) (osr_target request) response
  end.

End client.
