(* ===== verification/OpenClientFacts.v ===== *)
(** * Theorems on the client of the Open endpoint

    HTTP dates, retry hints, the classification of answers and the consistency of
    a decoded response; requests rebuilt from what is stored. *)

From stdpp Require Import pretty.
From S2P Require Import Prelude Identity Contracts RustStr Reconcile OpenClient.

(** ** Counting days *)

Ltac div_lia := Z.to_euclidean_division_equations; lia.

Definition year_length (y : Z) : Z :=
  if bool_decide (days_in_month y 2 = 29) then 366 else 365.

(** The days of the years from 1601 to [1600 + n], and of the first [n] months
    of a year. *)
Fixpoint year_days (n : nat) : Z :=
  match n with O => 0 | S n => year_days n + year_length (1601 + Z.of_nat n) end.
Fixpoint month_days (y : Z) (n : nat) : Z :=
  match n with O => 0 | S n => month_days y n + days_in_month y (Z.of_nat (S n)) end.

(** The days from the first of January 1970 to a date, by counting. *)
Definition day_number (y m d : Z) : Z :=
  year_days (Z.to_nat (y - 1601)) + month_days y (Z.to_nat (m - 1)) + (d - 1)
  - year_days (Z.to_nat (1970 - 1601)).

Lemma february_29 y :
  days_in_month y 2 = if bool_decide (y mod 4 = 0 ∧ (y mod 100 ≠ 0 ∨ y mod 400 = 0)) then 29 else 28.
Proof.
  unfold days_in_month. change (bool_decide (2 ∈ [1; 3; 5; 7; 8; 10; 12])) with false.
  change (bool_decide (2 ∈ [4; 6; 9; 11])) with false. change (bool_decide (2 = 2)) with true. cbn.
  assert (y mod 400 = 0 → y mod 4 = 0) by div_lia.
  repeat (case_bool_decide; cbn); try reflexivity; exfalso; tauto.
Qed.

Lemma year_length_leap y :
  year_length y = if bool_decide (y mod 4 = 0 ∧ (y mod 100 ≠ 0 ∨ y mod 400 = 0)) then 366 else 365.
Proof. unfold year_length. rewrite february_29. by destruct (bool_decide (_ ∧ _)). Qed.

Lemma year_days_closed n :
  year_days n = 365 * Z.of_nat n + Z.of_nat n / 4 - Z.of_nat n / 100 + Z.of_nat n / 400.
Proof.
  induction n as [|n IH]; [done|]. cbn [year_days]. rewrite IH, year_length_leap, Nat2Z.inj_succ.
  clear IH. pose proof (Nat2Z.is_nonneg n) as Hn. revert Hn. generalize (Z.of_nat n). intros k Hk.
  case_bool_decide as Hl; div_lia.
Qed.

(** The days before a month, for a year whose February is given. *)
Lemma month_days_cases y m :
  1 ≤ m ≤ 12 →
  month_days y (Z.to_nat (m - 1)) =
  (153 * (m + (if bool_decide (2 < m) then -3 else 9)) + 2) / 5
  + (if bool_decide (2 < m) then 31 + days_in_month y 2 else - 306).
Proof.
  intros Hm. assert (m ∈ seqZ 1 12) as Hin by (apply elem_of_seqZ; lia).
  change (seqZ 1 12) with [1; 2; 3; 4; 5; 6; 7; 8; 9; 10; 11; 12] in Hin.
  assert (∀ k, k ≠ 2 → days_in_month y k = days_in_month 0 k) as Hk.
  { intros k Hk. unfold days_in_month. by rewrite (bool_decide_eq_false_2 (k = 2)). }
  repeat (apply elem_of_cons in Hin as [->|Hin]); [..|by apply elem_of_nil in Hin]; clear Hm;
    match goal with |- context [Z.to_nat ?e] => let n := eval compute in (Z.to_nat e) in
      change (Z.to_nat e) with n end; cbn [month_days];
    rewrite ?(Hk (Z.of_nat 1)), ?(Hk (Z.of_nat 3)), ?(Hk (Z.of_nat 4)), ?(Hk (Z.of_nat 5)),
      ?(Hk (Z.of_nat 6)), ?(Hk (Z.of_nat 7)), ?(Hk (Z.of_nat 8)), ?(Hk (Z.of_nat 9)),
      ?(Hk (Z.of_nat 10)), ?(Hk (Z.of_nat 11)) by done;
    change (days_in_month y (Z.of_nat 2)) with (days_in_month y 2);
    repeat match goal with |- context [days_in_month 0 ?k] =>
      let v := eval vm_compute in (days_in_month 0 k) in change (days_in_month 0 k) with v end;
    repeat match goal with |- context [bool_decide (?k < ?l)] =>
      let v := eval vm_compute in (bool_decide (k < l)) in change (bool_decide (k < l)) with v end;
    cbv iota; div_lia.
Qed.

(** The closed formula counts days. *)
Lemma days_from_civil_counts y m d :
  1601 ≤ y → 1 ≤ m ≤ 12 → 1 ≤ d → days_from_civil y m d = day_number y m d.
Proof.
  intros Hy Hm Hd. unfold days_from_civil, day_number.
  rewrite month_days_cases, !year_days_closed, february_29 by done.
  rewrite !Z2Nat.id by lia.
  destruct (bool_decide (m ≤ 2)) eqn:Hle; [apply bool_decide_eq_true in Hle|apply bool_decide_eq_false in Hle].
  - rewrite (bool_decide_eq_false_2 (2 < m)), (bool_decide_eq_true_2 (0 ≤ _)) by lia. cbv iota.
    rewrite !Z.quot_div_nonneg by div_lia. div_lia.
  - rewrite (bool_decide_eq_true_2 (2 < m)), (bool_decide_eq_true_2 (0 ≤ _)) by lia. cbv iota.
    rewrite !Z.quot_div_nonneg by div_lia. case_bool_decide as Hl; div_lia.
Qed.

(** ** Decimal numbers of a given width *)

Fixpoint decimal (width : nat) (n : Z) : string :=
  match width with
  | O => ""
  | S width => decimal width (n / 10) +:+ String (hex_digit (Z.to_N (n mod 10))) ""
  end.

Lemma digit_of_value c : is_ascii_digit c = true → hex_digit (Z.to_N (digit_value c)) = c ∧ 0 ≤ digit_value c < 10.
Proof. destruct c as [[] [] [] [] [] [] [] []]; vm_compute; done. Qed.

Lemma digit_of_number n :
  0 ≤ n < 10 → is_ascii_digit (hex_digit (Z.to_N n)) = true ∧ digit_value (hex_digit (Z.to_N n)) = n.
Proof.
  intros Hn. assert (n ∈ seqZ 0 10) as Hin by (apply elem_of_seqZ; lia).
  change (seqZ 0 10) with [0; 1; 2; 3; 4; 5; 6; 7; 8; 9] in Hin.
  repeat (apply elem_of_cons in Hin as [->|Hin]); [by vm_compute..|by apply elem_of_nil in Hin].
Qed.

Lemma decimal_value_snoc s c : decimal_value (s +:+ String c "") = decimal_value s * 10 + digit_value c.
Proof. unfold decimal_value. by rewrite bytes_app, foldl_app. Qed.

Lemma string_snoc (s : string) w :
  String.length s = S w → ∃ s' c, s = s' +:+ String c "" ∧ String.length s' = w.
Proof.
  revert w. induction s as [|a s IH]; intros w; cbn; [done|]. intros [= <-].
  destruct s as [|b s]; [by exists "", a|].
  destruct (IH (String.length s)) as (s' & c & -> & Hl); [done|].
  exists (String a s'), c. split; [by rewrite string_cons_app|]. cbn.
  rewrite ?string_length_app, Hl; cbn; lia.
Qed.

(** A string of [w] digits is the [w]-digit numeral of its value. *)
Lemma decimal_iff w s n :
  String.length s = w ∧ forallb is_ascii_digit (bytes s) = true ∧ decimal_value s = n ↔
  s = decimal w n ∧ 0 ≤ n < 10 ^ Z.of_nat w.
Proof.
  revert s n. induction w as [|w IH]; intros s n.
  - cbn. destruct s; cbn; [|naive_solver]. unfold decimal_value. cbn. naive_solver lia.
  - rewrite Nat2Z.inj_succ, Z.pow_succ_r by lia. cbn [decimal]. split.
    + intros (Hl & Hd & <-). destruct (string_snoc s w Hl) as (s' & c & -> & Hl').
      rewrite bytes_app, forallb_app in Hd. apply andb_true_iff in Hd as [Hd Hc]. cbn in Hc.
      rewrite andb_true_r in Hc. destruct (digit_of_value c Hc) as [Hc1 Hc2].
      destruct (proj1 (IH s' (decimal_value s'))) as [Hs' Hv]; [done|].
      rewrite decimal_value_snoc.
      assert ((decimal_value s' * 10 + digit_value c) / 10 = decimal_value s') as -> by div_lia.
      assert ((decimal_value s' * 10 + digit_value c) mod 10 = digit_value c) as -> by div_lia.
      rewrite Hc1, <-Hs'. split; [done|lia].
    + intros [-> Hn]. destruct (proj2 (IH (decimal w (n / 10)) (n / 10))) as (Hl & Hd & Hv).
      { split; [done|div_lia]. }
      destruct (digit_of_number (n mod 10)) as [Hd1 Hd2]; [div_lia|].
      rewrite string_length_app, bytes_app, forallb_app, decimal_value_snoc, Hl, Hd, Hv, Hd2.
      cbn [bytes String.list_ascii_of_string forallb String.length]. rewrite Hd1.
      split_and!; [lia|done|div_lia].
Qed.

Lemma parse_decimal_fold l acc :
  (∀ c, c ∈ l → is_ascii_digit c = true) → 0 ≤ acc → (acc + 1) * 10 ^ Z.of_nat (length l) ≤ 2 ^ 32 →
  foldl (λ acc byte, value ← acc; v10 ← u32_checked (value * 10); u32_checked (v10 + digit_value byte))
    (Some acc) l = Some (foldl (λ n c, n * 10 + digit_value c) acc l).
Proof.
  revert acc. induction l as [|c l IH]; intros acc Hd Ha Hb; [done|].
  cbn [foldl length] in *. rewrite Nat2Z.inj_succ, Z.pow_succ_r in Hb by lia.
  destruct (digit_of_value c) as [_ Hc]; [apply Hd; by left|].
  assert (1 ≤ 10 ^ Z.of_nat (length l)) as Hp by (apply (Z.pow_le_mono_r 10 0); lia).
  cbn. rewrite <-IH; [|set_solver|lia|nia]. f_equal.
  unfold u32_checked, u32_max. rewrite (bool_decide_eq_true_2 (0 ≤ acc * 10 ≤ _)) by nia. cbn.
  by rewrite bool_decide_eq_true_2 by nia.
Qed.

Lemma parse_decimal_iff s w n :
  String.length s = w → (1 ≤ w ≤ 9)%nat →
  parse_decimal s = Some n ↔ s = decimal w n ∧ 0 ≤ n < 10 ^ Z.of_nat w.
Proof.
  intros Hl Hw. rewrite <-decimal_iff. unfold parse_decimal.
  rewrite bool_decide_eq_false_2 by (intros ->; cbn in Hl; lia). cbn [orb].
  destruct (forallb is_ascii_digit (bytes s)) eqn:Hd; cbn [negb]; [|naive_solver].
  rewrite forallb_forall in Hd. rewrite parse_decimal_fold.
  - unfold decimal_value. naive_solver.
  - intros c Hc. apply Hd. by apply list_elem_of_In.
  - done.
  - assert (length (bytes s) = w) as ->.
    { rewrite <-Hl. clear. induction s as [|c s IH]; [done|].
      cbn [String.length bytes String.list_ascii_of_string length]. f_equal. exact IH. }
    assert (10 ^ Z.of_nat w ≤ 10 ^ 9) by (apply Z.pow_le_mono_r; lia). lia.
Qed.

(** ** HTTP dates *)

Definition weekday_names : list string := ["Sun"; "Mon"; "Tue"; "Wed"; "Thu"; "Fri"; "Sat"].
Definition month_names : list string :=
  ["Jan"; "Feb"; "Mar"; "Apr"; "May"; "Jun"; "Jul"; "Aug"; "Sep"; "Oct"; "Nov"; "Dec"].
Definition weekday_name (w : Z) : string := default "" (weekday_names !! Z.to_nat w).
Definition month_name (m : Z) : string := default "" (month_names !! Z.to_nat (m - 1)).

(** The preferred format of HTTP dates, of a date and a time of day. *)
Definition imf_fixdate (y m d h mi se : Z) : string :=
  weekday_name ((day_number y m d + 4) mod 7) +:+ ", " +:+ decimal 2 d +:+ " " +:+ month_name m
  +:+ " " +:+ decimal 4 y +:+ " " +:+ decimal 2 h +:+ ":" +:+ decimal 2 mi +:+ ":" +:+ decimal 2 se
  +:+ " GMT".

(** A date from 1601 on and a time of day. *)
Definition valid_moment (y m d h mi se : Z) : Prop :=
  1601 ≤ y ≤ 9999 ∧ 1 ≤ m ≤ 12 ∧ 1 ≤ d ≤ days_in_month y m ∧
  0 ≤ h ≤ 23 ∧ 0 ≤ mi ≤ 59 ∧ 0 ≤ se ≤ 59.

Ltac each_of Hin := repeat (apply elem_of_cons in Hin as [->|Hin]); [..|by apply elem_of_nil in Hin].

Lemma weekday_of_name_iff s w : weekday_of_name s = Some w ↔ 0 ≤ w ≤ 6 ∧ s = weekday_name w.
Proof.
  split.
  - unfold weekday_of_name. repeat (case_bool_decide as E; [intros [= <-]; split; [lia|exact E]|clear E]). done.
  - intros [Hw ->]. assert (w ∈ seqZ 0 7) as Hin by (apply elem_of_seqZ; lia).
    change (seqZ 0 7) with [0; 1; 2; 3; 4; 5; 6] in Hin. each_of Hin; reflexivity.
Qed.

Lemma month_of_name_iff s m : month_of_name s = Some m ↔ 1 ≤ m ≤ 12 ∧ s = month_name m.
Proof.
  split.
  - unfold month_of_name. repeat (case_bool_decide as E; [intros [= <-]; split; [lia|exact E]|clear E]). done.
  - intros [Hm ->]. assert (m ∈ seqZ 1 12) as Hin by (apply elem_of_seqZ; lia).
    change (seqZ 1 12) with [1; 2; 3; 4; 5; 6; 7; 8; 9; 10; 11; 12] in Hin. each_of Hin; reflexivity.
Qed.

Lemma days_in_month_bounds y m : days_in_month y m ≤ 31.
Proof. unfold days_in_month. repeat case_match; lia. Qed.

Lemma day_number_bounds y m d :
  1601 ≤ y ≤ 9999 → 1 ≤ m ≤ 12 → 1 ≤ d ≤ 31 → -200000 ≤ day_number y m d ≤ 3000000.
Proof.
  intros Hy Hm Hd. unfold day_number. rewrite month_days_cases, !year_days_closed, february_29 by done.
  rewrite !Z2Nat.id by lia.
  assert (0 ≤ (153 * (m + (if bool_decide (2 < m) then -3 else 9)) + 2) / 5 ≤ 400).
  { case_bool_decide; div_lia. }
  generalize dependent ((153 * (m + (if bool_decide (2 < m) then -3 else 9)) + 2) / 5). intros k Hk.
  repeat case_match; div_lia.
Qed.

Lemma byte_is_eq n c : byte_is n c = true → c = Ascii.ascii_of_N n.
Proof. intros Hc%N.eqb_eq. by rewrite <-Hc, Ascii.ascii_N_embedding. Qed.

(** The fields of a text of 29 bytes with the separators in place. *)
Lemma fixdate_fields s :
  String.length s = 29%nat →
  (byte_is 44 (byte_at s 3) && byte_is 32 (byte_at s 4) && byte_is 32 (byte_at s 7)
   && byte_is 32 (byte_at s 11) && byte_is 32 (byte_at s 16) && byte_is 58 (byte_at s 19)
   && byte_is 58 (byte_at s 22) && byte_is 32 (byte_at s 25)
   && bool_decide (slice s 26 29 = "GMT")) = true ↔
  s = slice s 0 3 +:+ ", " +:+ slice s 5 7 +:+ " " +:+ slice s 8 11 +:+ " " +:+ slice s 12 16 +:+ " "
      +:+ slice s 17 19 +:+ ":" +:+ slice s 20 22 +:+ ":" +:+ slice s 23 25 +:+ " GMT".
Proof.
  intros Hl. do 29 (destruct s as [|? s]; [done|]). destruct s; [|done]. clear Hl.
  unfold byte_at. cbn [String.get slice String.substring Nat.sub from_option]. unfold id.
  split.
  - rewrite !andb_true_iff, bool_decide_eq_true.
    intros (((((((( ->%byte_is_eq & ->%byte_is_eq) & ->%byte_is_eq) & ->%byte_is_eq) & ->%byte_is_eq)
      & ->%byte_is_eq) & ->%byte_is_eq) & ->%byte_is_eq) & Hg).
    injection Hg as -> -> ->. reflexivity.
  - intros Hs. cbn in Hs. injection Hs as -> -> -> -> -> -> -> -> -> -> ->. reflexivity.
Qed.

(** The text assembled from seven fields. *)
Definition fixdate_text (wd d m y h mi se : string) : string :=
  wd +:+ ", " +:+ d +:+ " " +:+ m +:+ " " +:+ y +:+ " " +:+ h +:+ ":" +:+ mi +:+ ":" +:+ se +:+ " GMT".

(** Breaks a string of known length into its bytes. *)
Ltac explode s H := repeat (destruct s as [|? s]; [discriminate H|]); destruct s; [clear H|discriminate H].

Lemma fixdate_slices wd d m y h mi se :
  String.length wd = 3%nat → String.length d = 2%nat → String.length m = 3%nat →
  String.length y = 4%nat → String.length h = 2%nat → String.length mi = 2%nat →
  String.length se = 2%nat →
  let s := fixdate_text wd d m y h mi se in
  String.length s = 29%nat ∧ slice s 0 3 = wd ∧ slice s 5 7 = d ∧ slice s 8 11 = m ∧
  slice s 12 16 = y ∧ slice s 17 19 = h ∧ slice s 20 22 = mi ∧ slice s 23 25 = se.
Proof.
  intros H1 H2 H3 H4 H5 H6 H7.
  explode wd H1. explode d H2. explode m H3. explode y H4. explode h H5. explode mi H6. explode se H7.
  by vm_compute.
Qed.

Lemma slice_lengths s :
  String.length s = 29%nat →
  String.length (slice s 5 7) = 2%nat ∧ String.length (slice s 12 16) = 4%nat ∧
  String.length (slice s 17 19) = 2%nat ∧ String.length (slice s 20 22) = 2%nat ∧
  String.length (slice s 23 25) = 2%nat.
Proof. intros Hl. explode s Hl. done. Qed.

Lemma decimal_length w n : String.length (decimal w n) = w.
Proof.
  revert n. induction w as [|w IH]; intros n; [done|]. cbn [decimal].
  rewrite string_length_app, IH. cbn. lia.
Qed.

Lemma weekday_name_length w : 0 ≤ w ≤ 6 → String.length (weekday_name w) = 3%nat.
Proof.
  intros Hw. assert (w ∈ seqZ 0 7) as Hin by (apply elem_of_seqZ; lia).
  change (seqZ 0 7) with [0; 1; 2; 3; 4; 5; 6] in Hin. each_of Hin; reflexivity.
Qed.

Lemma month_name_length m : 1 ≤ m ≤ 12 → String.length (month_name m) = 3%nat.
Proof.
  intros Hm. assert (m ∈ seqZ 1 12) as Hin by (apply elem_of_seqZ; lia).
  change (seqZ 1 12) with [1; 2; 3; 4; 5; 6; 7; 8; 9; 10; 11; 12] in Hin. each_of Hin; reflexivity.
Qed.

(** The separators of a text are checked before its fields are read. *)
Lemma parse_imf_fixdate_unfold s :
  String.length s = 29%nat →
  s = fixdate_text (slice s 0 3) (slice s 5 7) (slice s 8 11) (slice s 12 16) (slice s 17 19)
        (slice s 20 22) (slice s 23 25) →
  parse_imf_fixdate s =
  (weekday ← weekday_of_name (slice s 0 3); day ← parse_decimal (slice s 5 7);
   month ← month_of_name (slice s 8 11); year ← parse_decimal (slice s 12 16);
   hour ← parse_decimal (slice s 17 19); minute ← parse_decimal (slice s 20 22);
   second ← parse_decimal (slice s 23 25);
   if bool_decide (year < 1601) || bool_decide (day = 0)
      || bool_decide (days_in_month year month < day)
      || bool_decide (23 < hour) || bool_decide (59 < minute) || bool_decide (59 < second)
   then None
   else
   let days := days_from_civil year month day in
   if bool_decide ((days + 4) mod 7 ≠ weekday) then None
   else
   seconds ← i64_checked (days * 86400);
   i64_checked (seconds + (hour * 3600 + minute * 60 + second))).
Proof.
  intros Hl Hs. apply fixdate_fields in Hs; [|done].
  repeat apply andb_true_iff in Hs as [Hs ?]. apply bool_decide_eq_true in H.
  unfold parse_imf_fixdate. rewrite (bool_decide_eq_false_2 (_ ≠ 29%nat)) by (by intros ?).
  rewrite (bool_decide_eq_false_2 (_ ≠ "GMT")) by (by intros ?).
  repeat match goal with Hb : byte_is _ _ = true |- _ => rewrite Hb; clear Hb end. reflexivity.
Qed.

Lemma parse_imf_fixdate_shape s t :
  parse_imf_fixdate s = Some t →
  String.length s = 29%nat ∧
  s = fixdate_text (slice s 0 3) (slice s 5 7) (slice s 8 11) (slice s 12 16) (slice s 17 19)
        (slice s 20 22) (slice s 23 25).
Proof.
  unfold parse_imf_fixdate. destruct (decide (String.length s = 29%nat)) as [Hl|Hl].
  2: { by rewrite bool_decide_eq_true_2. }
  rewrite (bool_decide_eq_false_2 (_ ≠ 29%nat)) by (by intros ?). intros Hs. split; [done|].
  apply fixdate_fields; [done|]. revert Hs.
  repeat match goal with |- context [byte_is ?n ?c] =>
    destruct (byte_is n c); cbn [negb orb andb]; [|done] end.
  case_bool_decide as Hg; cbn [negb orb andb]; [done|]. intros _. apply bool_decide_eq_true.
  exact Hg.
Qed.

Lemma parse_decimal_decimal w n :
  (1 ≤ w ≤ 9)%nat → 0 ≤ n < 10 ^ Z.of_nat w → parse_decimal (decimal w n) = Some n.
Proof. intros Hw Hn. by apply (parse_decimal_iff _ w _ (decimal_length _ _) Hw). Qed.

Lemma parse_imf_fixdate_sound s t :
  parse_imf_fixdate s = Some t →
  ∃ y m d h mi se, valid_moment y m d h mi se ∧ s = imf_fixdate y m d h mi se ∧
    t = day_number y m d * 86400 + (h * 3600 + mi * 60 + se).
Proof.
  intros Ht. destruct (parse_imf_fixdate_shape s t Ht) as [Hl Hs].
  rewrite parse_imf_fixdate_unfold in Ht by done.
  destruct (slice_lengths s Hl) as (L1 & L2 & L3 & L4 & L5).
  apply bind_Some in Ht as (w & [Hw Ew]%weekday_of_name_iff & Ht).
  apply bind_Some in Ht as (d & [Ed Hd]%(parse_decimal_iff _ _ _ L1) & Ht); [|lia].
  apply bind_Some in Ht as (m & [Hm Em]%month_of_name_iff & Ht).
  apply bind_Some in Ht as (y & [Ey Hy]%(parse_decimal_iff _ _ _ L2) & Ht); [|lia].
  apply bind_Some in Ht as (h & [Eh Hh]%(parse_decimal_iff _ _ _ L3) & Ht); [|lia].
  apply bind_Some in Ht as (mi & [Emi Hmi]%(parse_decimal_iff _ _ _ L4) & Ht); [|lia].
  apply bind_Some in Ht as (se & [Ese Hse]%(parse_decimal_iff _ _ _ L5) & Ht); [|lia].
  destruct (_ || _) eqn:Hg in Ht; [done|].
  rewrite !orb_false_iff, !bool_decide_eq_false in Hg.
  assert (valid_moment y m d h mi se) as Hv by (unfold valid_moment; lia).
  exists y, m, d, h, mi, se. split; [exact Hv|]. destruct Hv as (? & ? & ? & _).
  cbv zeta in Ht. rewrite days_from_civil_counts in Ht by lia.
  destruct (bool_decide (_ ≠ w)) eqn:Hwd in Ht; [done|].
  apply bool_decide_eq_false, dec_stable in Hwd. subst w.
  apply bind_Some in Ht as (z & Hz & Ht). unfold i64_checked in Hz, Ht.
  repeat case_bool_decide; simplify_eq. split; [|done].
  unfold imf_fixdate. rewrite Hs. unfold fixdate_text. congruence.
Qed.

Lemma parse_imf_fixdate_complete y m d h mi se :
  valid_moment y m d h mi se →
  parse_imf_fixdate (imf_fixdate y m d h mi se) =
    Some (day_number y m d * 86400 + (h * 3600 + mi * 60 + se)).
Proof.
  intros (Hy & Hm & Hd & Hh & Hmi & Hse).
  pose proof (days_in_month_bounds y m) as Hdm.
  pose proof (day_number_bounds y m d Hy Hm ltac:(lia)) as Hn.
  pose proof (Z.mod_pos_bound (day_number y m d + 4) 7 ltac:(lia)) as Hw.
  set (w := (day_number y m d + 4) mod 7) in *.
  destruct (fixdate_slices (weekday_name w) (decimal 2 d) (month_name m) (decimal 4 y)
    (decimal 2 h) (decimal 2 mi) (decimal 2 se)) as (Hl & S1 & S2 & S3 & S4 & S5 & S6 & S7);
    [by (apply weekday_name_length || apply month_name_length || apply decimal_length); lia..|].
  change (imf_fixdate y m d h mi se) with (fixdate_text (weekday_name w) (decimal 2 d) (month_name m)
    (decimal 4 y) (decimal 2 h) (decimal 2 mi) (decimal 2 se)).
  rewrite parse_imf_fixdate_unfold by (rewrite ?S1, ?S2, ?S3, ?S4, ?S5, ?S6, ?S7; done).
  rewrite S1, S2, S3, S4, S5, S6, S7.
  rewrite (proj2 (weekday_of_name_iff _ w)), (proj2 (month_of_name_iff _ m)) by (split; [lia|done]).
  rewrite !parse_decimal_decimal by lia.
  cbn [mbind option_bind]. rewrite days_from_civil_counts by lia. fold w.
  rewrite !bool_decide_eq_false_2 by lia. cbn [orb]. unfold i64_checked, i64_min, i64_max.
  rewrite bool_decide_eq_true_2 by lia. cbn [mbind option_bind].
  by rewrite bool_decide_eq_true_2 by lia.
Qed.

(** C26. A date header is accepted exactly when it is the preferred text of a moment
    from 1601 on, with its true day of the week, and it denotes the seconds from
    the epoch to that moment, counting the days of the calendar. *)
Theorem imf_fixdate_roundtrip s t :
  parse_imf_fixdate s = Some t ↔
  ∃ y m d h mi se, valid_moment y m d h mi se ∧ s = imf_fixdate y m d h mi se ∧
    t = day_number y m d * 86400 + (h * 3600 + mi * 60 + se).
Proof.
  split; [apply parse_imf_fixdate_sound|].
  intros (y & m & d & h & mi & se & Hv & -> & ->). by apply parse_imf_fixdate_complete.
Qed.

(** ** Decoding a body *)

(** Five digits: the text of a section index. *)
Definition five_digits (s : string) : Prop := validate_section_index s = Ok ().

Definition concat_chunks (cs : list string) : string := foldr (λ c acc, c +:+ acc) "" cs.

Section client_facts.
Context `{Sha256ApiLaws} `{UrlApi} `{HttpApiLaws} `{JsonApi}.

(** The strings of a body that is a JSON array of strings. *)
Definition json_strings (body : string) : option (list string) :=
  root ← json_from_slice body; values ← json_as_array root; mapM json_as_str values.

(** The canonical set of indexes some texts denote. *)
Definition canonical_indexes (strs : list string) : list SectionIndex :=
  bts_iter (list_to_set (C := gset SectionIndex) (mkSectionIndex <$> strs)).

Lemma SectionIndex_try_from_Ok s i :
  SectionIndex_try_from s = Ok i ↔ five_digits s ∧ i = mkSectionIndex s.
Proof.
  unfold SectionIndex_try_from, five_digits. destruct (validate_section_index s) as [[]|]; cbn; naive_solver.
Qed.

Lemma decode_open_values_Ok p values u u' :
  decode_open_values p values u = Ok u' ↔
  ∃ strs, mapM json_as_str values = Some strs ∧ Forall five_digits strs ∧
    u' = list_to_set (mkSectionIndex <$> strs) ∪ u.
Proof.
  revert p u. induction values as [|v values IH]; intros p u; cbn [decode_open_values].
  - split; [intros [= <-]; exists []; split_and!; [done..|set_solver]|].
    intros (strs & [= <-] & _ & ->). f_equal. set_solver.
  - cbn [mapM]. destruct (json_as_str v) as [s|]; cbn; [|naive_solver].
    destruct (SectionIndex_try_from s) as [i|e] eqn:Hi.
    + apply SectionIndex_try_from_Ok in Hi as [Hs ->]. rewrite IH. split.
      * intros (strs & -> & Hf & ->). exists (s :: strs). split_and!; [done|by constructor|set_solver].
      * intros (strs & (strs' & -> & [= <-])%bind_Some & [_ Hf]%Forall_cons & ->).
        exists strs'. split_and!; [done..|set_solver].
    + split; [done|]. intros (strs & (strs' & _ & [= <-])%bind_Some & [Hs _]%Forall_cons & _).
      assert (SectionIndex_try_from s = Ok (mkSectionIndex s)) by by apply SectionIndex_try_from_Ok.
      congruence.
Qed.

Lemma decode_open_array_Ok body raw dup l :
  decode_open_array body = Ok (raw, dup, l) ↔
  ∃ strs, json_strings body = Some strs ∧ Forall five_digits strs ∧ l = canonical_indexes strs ∧
    raw = zlen strs ∧ dup = raw - zlen l.
Proof.
  unfold decode_open_array, json_strings. destruct (json_from_slice body) as [root|]; cbn; [|naive_solver].
  destruct (json_as_array root) as [values|]; cbn; [|naive_solver].
  destruct (decode_open_values 0 values ∅) as [u|e] eqn:Hu; cbn.
  - apply decode_open_values_Ok in Hu as (strs & Hm & Hf & ->). rewrite Hm, union_empty_r_L.
    assert (length values = length strs) as Hlen by (by apply mapM_Some, Forall2_length in Hm).
    unfold canonical_indexes, zlen. split.
    + intros [= <- <- <-]. exists strs. rewrite length_bts_iter, Hlen. naive_solver.
    + intros (strs' & [= <-] & _ & -> & -> & ->). rewrite length_bts_iter, Hlen. done.
  - split; [done|]. intros (strs & Hm & Hf & _).
    assert (decode_open_values 0 values ∅ = Ok (list_to_set (mkSectionIndex <$> strs) ∪ ∅)) as Hd
      by (apply decode_open_values_Ok; eauto).
    congruence.
Qed.

(** ** Reading a body *)

Lemma read_body_Ok max m body chunks b :
  max ≤ u64_max → Z.of_nat (String.length body) ≤ max →
  read_body max m body chunks = Ok b ↔
  ∃ cs, chunks = Ok <$> cs ∧ b = body +:+ concat_chunks cs ∧ Z.of_nat (String.length b) ≤ max.
Proof.
  intros Hmax. revert body. induction chunks as [|[c|e] chunks IH]; intros body Hb; cbn [read_body].
  - split.
    + intros [= <-]. exists []. rewrite string_app_nil_r. done.
    + intros ([|??] & ? & -> & _); [|done]. cbn. by rewrite string_app_nil_r.
  - destruct (decide (Z.of_nat (String.length body) + Z.of_nat (String.length c) ≤ max)) as [Hle|Hgt].
    + rewrite !bool_decide_eq_false_2 by lia. rewrite IH by (rewrite string_length_app; lia). split.
      * intros (cs & -> & -> & Hl). exists (c :: cs). cbn [concat_chunks foldr]. by rewrite string_app_assoc.
      * intros ([|c' cs] & Hcs & -> & Hl); [done|]. injection Hcs as -> ->. exists cs.
        cbn [concat_chunks foldr] in *. by rewrite string_app_assoc in *.
    + rewrite (bool_decide_eq_true_2 (max < _)) by lia. split; [case_match; done|].
      intros ([|c' cs] & Hcs & -> & Hl); [done|]. injection Hcs as -> ->. exfalso.
      cbn [concat_chunks foldr] in Hl. rewrite !string_length_app in Hl. lia.
  - split; [done|]. by intros ([|c' cs] & Hcs & _).
Qed.

(** ** The hash of a set *)

Lemma OpenCanonicalSetHash_try_from_hex s :
  OpenCanonicalSetHash_try_from (sha256_hex s) = Some (mkOpenCanonicalSetHash (sha256_hex s)).
Proof.
  unfold OpenCanonicalSetHash_try_from. rewrite sha256_hex_length, bool_decide_eq_true_2 by done.
  pose proof (sha256_hex_lower s) as Hl. rewrite forallb_forall in Hl.
  assert (∀ c, is_lower_hex c = true → is_ascii_hexdigit c = true ∧ is_ascii_uppercase c = false) as Hc.
  { intros [[] [] [] [] [] [] [] []]; vm_compute; done. }
  rewrite (proj2 (forallb_forall _ _)) by (intros; by apply Hc, Hl).
  assert (existsb is_ascii_uppercase (bytes (sha256_hex s)) = false) as ->; [|done].
  apply not_true_iff_false. intros (c & Hin & Hu)%existsb_exists. destruct (Hc c) as [_ ?]; [by apply Hl|congruence].
Qed.

(** The [expect] of the hash never fails, and the hash is the one reconciliation
    computes. *)
Lemma canonical_open_set_sha256_total l :
  canonical_open_set_sha256 l =
  Some (mkOpenCanonicalSetHash
    (canonical_open_set_hash_v1 (bts_iter (list_to_set (C := gset SectionIndex) l)))).
Proof. unfold canonical_open_set_sha256. apply OpenCanonicalSetHash_try_from_hex. Qed.

(** ** Fetching *)

(** What the answer of the upstream must be for its body to be decoded, and the
    texts the body then holds. *)
Definition acceptable (client : RutgersOpenSectionsClient) (requested_url : Url)
    (response : HttpResponse) (content_type body : string) (strs : list string) : Prop :=
  same_origin (hr_url response) requested_url = true ∧
  200 ≤ hr_status response < 300 ∧
  json_content_type (hr_headers response) = Some content_type ∧
  declared_too_large (rc_max_decoded_bytes client) (hr_headers response) = false ∧
  (∃ cs, hr_chunks response = Ok <$> cs ∧ body = concat_chunks cs) ∧
  Z.of_nat (String.length body) ≤ rc_max_decoded_bytes client ∧
  json_strings body = Some strs ∧ Forall five_digits strs.

(** What it is decoded to. *)
Definition decoded (target : OpenBatchKey) (response : HttpResponse) (content_type body : string)
    (strs : list string) : OpenSectionsResponse :=
  let indexes := canonical_indexes strs in
  let captured := ResponseHeaders_capture (hr_headers response) in
  {| osp_target := target;
     osp_classification := if bool_decide (strs = []) then OpenPayloadClassification_Empty
                           else OpenPayloadClassification_Nonempty;
     osp_open_indexes := indexes;
     osp_metadata :=
       {| orm_http_status := hr_status response;
          orm_decoded_bytes := Z.of_nat (String.length body);
          orm_decoded_body_sha256 := sha256_hex body;
          orm_canonical_set_sha256 := mkOpenCanonicalSetHash (canonical_open_set_hash_v1 indexes);
          orm_raw_value_count := zlen strs;
          orm_unique_value_count := zlen indexes;
          orm_duplicate_value_count := zlen strs - zlen indexes;
          orm_content_type := content_type;
          orm_etag := rh_etag captured;
          orm_cache_control := rh_cache_control captured;
          orm_date := rh_date captured;
          orm_age_seconds := rh_age_seconds captured;
          orm_last_modified := rh_last_modified captured |} |}.

Lemma canonical_indexes_nil strs : canonical_indexes strs = [] ↔ strs = [].
Proof.
  split; [|by intros ->]. intros Hn. destruct strs as [|s strs]; [done|].
  assert (mkSectionIndex s ∈ canonical_indexes (s :: strs)) as Hin
    by (unfold canonical_indexes; rewrite elem_of_bts_iter; set_solver).
  rewrite Hn in Hin. by apply elem_of_nil in Hin.
Qed.

Lemma canonical_indexes_set strs :
  bts_iter (list_to_set (C := gset SectionIndex) (canonical_indexes strs)) = canonical_indexes strs.
Proof.
  unfold canonical_indexes at 2. f_equal. apply set_eq. intros i.
  unfold canonical_indexes. rewrite elem_of_list_to_set, elem_of_bts_iter. done.
Qed.

Lemma decode_response_acceptable client url target response content_type body strs :
  rc_max_decoded_bytes client ≤ u64_max → 0 ≤ rc_max_decoded_bytes client →
  acceptable client url response content_type body strs →
  decode_response (rc_max_decoded_bytes client) target response =
    Some (Ok (decoded target response content_type body strs)).
Proof.
  intros Hmax Hpos (_ & Hs & Hct & Hdl & (cs & Hcs & Hbody) & Hlen & Hj & Hf).
  unfold decode_response. rewrite status_success, bool_decide_eq_true_2 by done. cbn [negb].
  rewrite Hct, Hdl.
  rewrite (proj2 (read_body_Ok _ (capture response) "" (hr_chunks response) body Hmax ltac:(done)))
    by (exists cs; rewrite string_nil_app; by split_and!).
  rewrite (proj2 (decode_open_array_Ok body _ _ _)) by (exists strs; by split_and!).
  rewrite canonical_open_set_sha256_total, canonical_indexes_set. cbn [mbind option_bind].
  unfold decoded. do 3 f_equal. pose proof (canonical_indexes_nil strs) as Hnil.
  destruct (canonical_indexes strs); case_bool_decide; naive_solver.
Qed.

Lemma decode_response_Ok client url target response r :
  rc_max_decoded_bytes client ≤ u64_max → 0 ≤ rc_max_decoded_bytes client →
  same_origin (hr_url response) url = true →
  decode_response (rc_max_decoded_bytes client) target response = Some (Ok r) →
  ∃ content_type body strs, acceptable client url response content_type body strs.
Proof.
  intros Hmax Hpos Ho. unfold decode_response, acceptable. rewrite status_success.
  case_bool_decide as Hs; cbn [negb]; [|done].
  destruct (json_content_type (hr_headers response)) as [ct|]; [|done].
  destruct (declared_too_large _ _) eqn:Hdl; [done|].
  destruct (read_body _ _ _ _) as [body|] eqn:Hb; [|done].
  apply read_body_Ok in Hb as (cs & Hcs & Hbody & Hlen); [|done..].
  destruct (decode_open_array body) as [[[raw dup] l]|] eqn:Hd; [|done].
  apply decode_open_array_Ok in Hd as (strs & Hj & Hf & _). intros _.
  rewrite string_nil_app in Hbody. exists ct, body, strs. split_and!; eauto; lia.
Qed.

Lemma fetch_total client build execute request : is_Some (fetch client build execute request).
Proof.
  unfold fetch. destruct (build _); cbn [negb]; [|done]. destruct (execute _) as [response|]; [|done].
  destruct (same_origin _ _); cbn [negb]; [|done]. unfold decode_response.
  destruct (status_is_success _); cbn [negb]; [|done]. destruct (json_content_type _); [|done].
  destruct (declared_too_large _ _); [done|]. destruct (read_body _ _ _ _) as [body|]; [|done].
  destruct (decode_open_array body) as [[[raw dup] l]|]; [|done].
  by rewrite canonical_open_set_sha256_total.
Qed.

Lemma fetch_ok_decoded client build execute request r :
  0 ≤ rc_max_decoded_bytes client ≤ u64_max →
  fetch client build execute request = Some (Ok r) →
  ∃ response content_type body strs,
    r = decoded (osr_target request) response content_type body strs ∧
    build (request_url client request) = true ∧ execute (request_url client request) = Ok response ∧
    acceptable client (request_url client request) response content_type body strs.
Proof.
  intros [Hpos Hmax]. unfold fetch. set (url := request_url client request).
  destruct (build url); cbn [negb]; [|done]. destruct (execute url) as [response|]; [|done].
  destruct (same_origin _ _) eqn:Ho; cbn [negb]; [|done]. intros Hd.
  destruct (decode_response_Ok client url _ _ _ Hmax Hpos Ho Hd) as (ct & body & strs & Ha).
  exists response, ct, body, strs. split_and!; [|done..].
  rewrite (decode_response_acceptable _ _ _ _ _ _ _ Hmax Hpos Ha) in Hd. by injection Hd as <-.
Qed.

(** C25. A fetch never panics, and yields a response exactly when the request was
    answered from its own origin with a success status, a JSON content type, a
    body within the limit that was read to its end and is an array of five-digit
    strings; the response is then the sorted set of those strings with its true
    counts and hashes, for the batch that was requested. *)
Theorem fetch_response_iff (client : RutgersOpenSectionsClient) (build : Url → bool)
    (execute : Url → result HttpError HttpResponse) (request : OpenSectionsRequest)
    (r : OpenSectionsResponse) :
  0 ≤ rc_max_decoded_bytes client ≤ u64_max →
  let url := request_url client request in
  is_Some (fetch client build execute request) ∧
  (fetch client build execute request = Some (Ok r) ↔
   build url = true ∧ ∃ response content_type body strs,
     execute url = Ok response ∧ acceptable client url response content_type body strs ∧
     r = decoded (osr_target request) response content_type body strs).
Proof.
  intros Hmax url. split; [apply fetch_total|]. split.
  - intros (response & ct & body & strs & -> & Hb & He & Ha)%fetch_ok_decoded; [|done]. by eauto 10.
  - intros (Hb & response & ct & body & strs & He & Ha & ->). unfold fetch. fold url. rewrite Hb, He. cbn [negb].
    rewrite (proj1 Ha). cbn [negb]. by apply (decode_response_acceptable client url); [apply Hmax..|].
Qed.

End client_facts.

(** ** Requests *)

Lemma digit_cases c :
  is_ascii_digit c = true → ∃ v, v ∈ [0; 1; 2; 3; 4; 5; 6; 7; 8; 9] ∧ c = hex_digit (Z.to_N v).
Proof.
  intros [Hc Hv]%digit_of_value. exists (digit_value c). split; [|done].
  change [0; 1; 2; 3; 4; 5; 6; 7; 8; 9] with (seqZ 0 10). apply elem_of_seqZ. lia.
Qed.

(** A valid term code is the canonical text of its number. *)
Lemma term_code_canonical code :
  term_code_invalid code = false →
  ∃ n, parse_u8_digits code = Some n ∧ 0 ≤ n ≤ 99 ∧ pretty n = code.
Proof.
  unfold term_code_invalid. rewrite !orb_false_iff, !bool_decide_eq_false, negb_false_iff.
  intros [[[Hne Hlen] Hd] Hz].
  destruct code as [|c1 [|c2 [|c3 code]]]; [done| | |cbn in Hlen; lia]; cbn in Hd.
  - rewrite andb_true_r in Hd. destruct (digit_cases c1 Hd) as (v & Hv & ->).
    each_of Hv; eexists; (split; [vm_compute; reflexivity|split; [lia|vm_compute; reflexivity]]).
  - rewrite andb_true_r in Hd. apply andb_true_iff in Hd as [Hd1 Hd2].
    destruct (digit_cases c1 Hd1) as (v & Hv & ->), (digit_cases c2 Hd2) as (w & Hw & ->).
    each_of Hv; try (cbn in Hz; discriminate Hz); clear Hz;
      each_of Hw; eexists; (split; [vm_compute; reflexivity|split; [lia|vm_compute; reflexivity]]).
Qed.

(** A request built from discovery is rebuilt, the same, from the texts and
    numbers that are stored of its source, term and target; its year has four
    digits, its term code at most two, and the code sent to the upstream is the
    discovered text. *)
Theorem persisted_request_roundtrip (term : DiscoveredTerm) (target : DiscoveredTarget)
    (r : OpenSectionsRequest) :
  try_from_discovery term target = Ok r →
  from_persisted (dsi_str (dte_source_id term)) = Some (dte_source_id term) →
  ∃ code,
    dte_year term = Presence_Value (osr_year r) ∧ dte_term_code term = Presence_Value code ∧
    try_from_persisted_discovery (dsi_str (osr_discovery_source_id r)) (dte_term_id term)
      (obk_target (osr_target r)) (Some (osr_year r)) (Some code) = Ok r ∧
    obk_target (osr_target r) = dta_key target ∧ osr_discovery_source_id r = dta_source_id target ∧
    1000 ≤ osr_year r ≤ 9999 ∧ 0 ≤ osr_term_code r ≤ 99 ∧ pretty (osr_term_code r) = code.
Proof.
  unfold try_from_discovery. intros Hr Hid.
  case_bool_decide as Hs; [done|].
  case_bool_decide as Ht; [done|].
  destruct (dte_year term) as [| | |year]; try done. cbn in Hr.
  unfold u16_try_from in Hr. case_bool_decide as Hy; [|done]. cbn in Hr.
  unfold year_in_range in Hr. case_bool_decide as Hy4; [|done]. cbn in Hr.
  destruct (dte_term_code term) as [| | |code]; try done. cbn in Hr.
  destruct (term_code_invalid code) eqn:Hc; [done|].
  destruct (term_code_canonical code Hc) as (n & Hn & Hb & Hp). rewrite Hn in Hr. cbn in Hr.
  injection Hr as <-. exists code. cbn [osr_year osr_target osr_discovery_source_id obk_target osr_term_code].
  split_and!; try done; try lia.
  - unfold try_from_persisted_discovery, year_in_range. cbn [tck_term tck_campus].
    rewrite bool_decide_eq_false_2 by (by intros ?). rewrite Hid. cbn.
    rewrite bool_decide_eq_true_2 by lia. cbn. rewrite Hc, Hn. done.
  - rewrite Ht. by destruct (dta_key target).
Qed.

(** ** A concrete upstream, and the witnesses *)

(** Addresses are a host and a path; statuses have their documented classes; a
    body is a list of texts separated by commas. *)
Definition concrete_url_api : UrlApi := {|
  Url := string * string;
  url_scheme _ := "https";
  url_host_str url := Some url.1;
  url_port_or_known_default _ := Some 443;
  url_join url location := Some (url.1, location);
  url_append_pair url key value := (url.1, url.2 +:+ "&" +:+ key +:+ "=" +:+ value)
|}.

Definition concrete_http_api : HttpApi := {|
  HttpError := bool;
  error_is_timeout e := e;
  error_is_decode _ := false;
  status_is_success s := bool_decide (200 ≤ s < 300);
  status_is_redirection s := bool_decide (300 ≤ s < 400);
  status_is_client_error s := bool_decide (400 ≤ s < 500);
  status_is_server_error s := bool_decide (500 ≤ s < 600)
|}.

Lemma concrete_http_api_laws : @HttpApiLaws concrete_http_api.
Proof. by split. Qed.

Definition concrete_json_api : JsonApi := {|
  JsonValue := list string + string;
  json_from_slice s := Some (inl (if bool_decide (s = "") then [] else str_split (Ascii.ascii_of_N 44) s));
  json_as_array v := match v with inl l => Some (inr <$> l) | inr _ => None end;
  json_as_str v := match v with inl _ => None | inr s => Some s end
|}.

Definition example_discovery_source : DiscoverySourceId :=
  mkDiscoverySourceId ("selector:" +:+ @sha256_hex concrete_sha256_api "source").

Definition example_discovered_term : DiscoveredTerm := {|
  dte_source_id := example_discovery_source;
  dte_term_id := tck_term example_nb;
  dte_year := Presence_Value 2026;
  dte_term_code := Presence_Value "9";
  dte_display := Presence_Missing;
  dte_published := Presence_Null
|}.

Definition example_discovered_target : DiscoveredTarget := {|
  dta_source_id := example_discovery_source;
  dta_key := example_nb;
  dta_enabled := Presence_Value true
|}.

Definition example_request : OpenSectionsRequest := {|
  osr_discovery_source_id := example_discovery_source;
  osr_target := OpenBatchKey_new example_nb;
  osr_year := 2026;
  osr_term_code := 9
|}.

Definition example_client : @RutgersOpenSectionsClient concrete_url_api :=
  @Build_RutgersOpenSectionsClient concrete_url_api ("rutgers", "open") OPEN_MAX_DECODED_BYTES.

Definition example_headers (name : HeaderName) : list (option string) :=
  match name with CONTENT_TYPE => [Some "Application/JSON; charset=utf-8"] | _ => [] end.

Definition example_http_response : @HttpResponse concrete_url_api concrete_http_api :=
  @Build_HttpResponse concrete_url_api concrete_http_api 200 ("rutgers", "open") example_headers
    [Ok "00002,000"; Ok "01,00002"].

Definition example_execute (url : @Url concrete_url_api)
    : result (@HttpError concrete_http_api) (@HttpResponse concrete_url_api concrete_http_api) :=
  Ok example_http_response.

Definition example_texts : list string := ["00002"; "00001"; "00002"].

Definition example_open_response : OpenSectionsResponse :=
  @decoded concrete_sha256_api concrete_url_api concrete_http_api (OpenBatchKey_new example_nb)
    example_http_response "Application/JSON; charset=utf-8" "00002,00001,00002" example_texts.

Lemma imf_fixdate_example : imf_fixdate 2026 2 28 23 59 59 = "Sat, 28 Feb 2026 23:59:59 GMT".
Proof. vm_compute. reflexivity. Qed.

Lemma persisted_request_roundtrip_witness :
  try_from_discovery example_discovered_term example_discovered_target = Ok example_request ∧
  try_from_persisted_discovery (dsi_str example_discovery_source) (tck_term example_nb) example_nb
    (Some 2026) (Some "9") = Ok example_request.
Proof.
  assert (try_from_discovery example_discovered_term example_discovered_target = Ok example_request)
    as Hr by (vm_compute; reflexivity).
  split; [exact Hr|].
  destruct (persisted_request_roundtrip _ _ _ Hr eq_refl) as (code & _ & Hc & Hp & _).
  injection Hc as <-. exact Hp.
Defined.

Lemma fetch_response_iff_witness :
  0 ≤ rc_max_decoded_bytes example_client ≤ u64_max ∧
  is_Some (@fetch concrete_sha256_api concrete_url_api concrete_http_api concrete_json_api
    example_client (λ _, true) example_execute example_request) ∧
  ∃ r, @fetch concrete_sha256_api concrete_url_api concrete_http_api concrete_json_api
    example_client (λ _, true) example_execute example_request = Some (Ok r) ∧
  osp_open_indexes r = [mkSectionIndex "00001"; mkSectionIndex "00002"] ∧
  orm_duplicate_value_count (osp_metadata r) = 1.
Proof.
  assert (0 ≤ rc_max_decoded_bytes example_client ≤ u64_max) as Hmax by (vm_compute; split; discriminate).
  split; [exact Hmax|].
  pose proof (@fetch_response_iff concrete_sha256_api concrete_sha256_api_laws concrete_url_api
    concrete_http_api concrete_http_api_laws concrete_json_api example_client (λ _, true) example_execute
    example_request) as Hf.
  split; [exact (proj1 (Hf example_open_response Hmax))|].
  exists example_open_response. split.
  - apply (Hf _ Hmax). split; [reflexivity|].
    exists example_http_response, "Application/JSON; charset=utf-8", "00002,00001,00002", example_texts.
    split; [reflexivity|]. split; [|reflexivity].
    split_and!; try (vm_compute; reflexivity); try (vm_compute; discriminate).
    + exists ["00002,000"; "01,00002"]. split; reflexivity.
    + repeat constructor.
  - split; vm_compute; reflexivity.
Defined.
