(* ===== verification/Gate.v ===== *)
(** * Snapshot integrity gate (crates/bcsp-open/src/gate.rs)

    The per-target state machine that quarantines implausibly shrunken
    snapshots: its state, the decision [evaluate], the commit [advance], the
    rebuild after a restart and the set of runtimes of a target. An operation
    that the code guards with an assertion returns [None] where it panics. *)

From S2P Require Import Prelude Identity Contracts Reconcile.

(** ** Constants *)

Definition GATE_DROP_THRESHOLD_DENOMINATOR : Z := 10.
Definition GATE_RECOVERY_THRESHOLD_DENOMINATOR : Z := 20.
Definition GATE_MIN_ABSOLUTE_DROP : Z := 25.
Definition GATE_BASELINE_WINDOW : nat := 16.
Definition GATE_CONFIRM_MIN_CONSISTENT : Z := 3.
Definition GATE_CONFIRM_MIN_SPAN_SECONDS : Z := 300.
Definition GATE_MAX_SAMPLE_GAP_SECONDS : Z := 120.
Definition GATE_CONSISTENCY_DENOMINATOR : Z := 100.

(** ** Catalog set identities *)

Record CatalogSetIdentity := mkCatalogSetIdentity { csi_str : string }.

Definition CatalogSetIdentity_from_sha256_hex (value : string) : option CatalogSetIdentity :=
  let valid := bool_decide (String.length value = 64%nat) && forallb is_lower_hex (bytes value) in
  if valid then Some (mkCatalogSetIdentity value) else None.

#[export] Instance CatalogSetIdentity_eq_dec : EqDecision CatalogSetIdentity.
Proof. solve_decision. Defined.
#[export] Instance CatalogSetIdentity_countable : Countable CatalogSetIdentity.
Proof. by apply (inj_countable' csi_str mkCatalogSetIdentity); intros []. Defined.

Definition catalog_section_set_identity_v1 `{Sha256Api} (indexes : list SectionIndex)
    : CatalogSetIdentity :=
  let preimage :=
    foldl (λ preimage index, preimage +:+ index_str index +:+ nl)
      ("bcsp-catalog-set-v1" +:+ nl) indexes in
  mkCatalogSetIdentity (sha256_hex preimage).

(** ** Samples, decisions and states *)

Record GateSample := {
  gs_catalog_identity : CatalogSetIdentity;
  gs_observed : gset SectionIndex;
  gs_observed_at : OffsetDateTime
}.

Inductive GateDisposition := GateDisposition_Apply | GateDisposition_Hold.

Inductive GateDecisionKind :=
| GateDecisionKind_Pass
| GateDecisionKind_Suspect
| GateDecisionKind_QuarantineRecover
| GateDecisionKind_QuarantineConfirm.

Record BaselineEpoch := {
  be_catalog_identity : CatalogSetIdentity;
  be_window : list Z;
  be_lkg_floor : option Z
}.

Record CandidateEpisode := {
  ce_anchor_set : option (gset SectionIndex);
  ce_anchor_set_sha256 : string;
  ce_first_seen : OffsetDateTime;
  ce_last_seen : OffsetDateTime;
  ce_consistent_count : Z
}.

Inductive GateState :=
| GateState_Healthy (baseline : option BaselineEpoch)
| GateState_Quarantined (baseline : BaselineEpoch) (episode : CandidateEpisode).

Record GateDecision := {
  gd_disposition : GateDisposition;
  gd_kind : GateDecisionKind;
  gd_catalog_identity : CatalogSetIdentity;
  gd_observed_intersection_count : Z;
  gd_response_set_sha256 : string;
  gd_gate_epoch : Z;
  gd_next_state : GateState
}.

Record GateRuntime := { gr_epoch : Z; gr_state : GateState }.

#[export] Instance GateDisposition_eq_dec : EqDecision GateDisposition.
Proof. solve_decision. Defined.
#[export] Instance GateDecisionKind_eq_dec : EqDecision GateDecisionKind.
Proof. solve_decision. Defined.

(** ** Baseline epochs *)

Definition BaselineEpoch_seeded (catalog_identity : CatalogSetIdentity) (lkg_floor : option Z)
    : BaselineEpoch :=
  {| be_catalog_identity := catalog_identity; be_window := []; be_lkg_floor := lkg_floor |}.

Definition push_applied (observed : Z) (b : BaselineEpoch) : BaselineEpoch :=
  let window := if bool_decide (length (be_window b) = GATE_BASELINE_WINDOW)
                then tail (be_window b) else be_window b in
  {| be_catalog_identity := be_catalog_identity b;
     be_window := window ++ [observed];
     be_lkg_floor := be_lkg_floor b |}.

Definition lower_median (b : BaselineEpoch) : option Z :=
  if bool_decide (be_window b = []) then None
  else
    let sorted := merge_sort Z.le (be_window b) in
    Some (sorted !!! ((length sorted - 1) / 2)%nat).

Definition baseline_value (b : BaselineEpoch) : option Z :=
  match lower_median b, be_lkg_floor b with
  | Some median, Some floor => Some (Z.max median floor)
  | Some median, None => Some median
  | None, Some floor => Some floor
  | None, None => None
  end.

Definition set_lkg_floor (floor : option Z) (b : BaselineEpoch) : BaselineEpoch :=
  {| be_catalog_identity := be_catalog_identity b; be_window := be_window b;
     be_lkg_floor := floor |}.

(** ** The runtime *)

Definition GateRuntime_new_unseeded : GateRuntime :=
  {| gr_epoch := 0; gr_state := GateState_Healthy None |}.

Definition GateRuntime_seeded (catalog_identity : CatalogSetIdentity) (lkg_floor : Z)
    : GateRuntime :=
  {| gr_epoch := 0;
     gr_state := GateState_Healthy (Some (BaselineEpoch_seeded catalog_identity (Some lkg_floor))) |}.

Definition is_quarantined (r : GateRuntime) : bool :=
  match gr_state r with GateState_Quarantined _ _ => true | _ => false end.

Definition catalog_identity (r : GateRuntime) : option CatalogSetIdentity :=
  match gr_state r with
  | GateState_Healthy baseline => be_catalog_identity <$> baseline
  | GateState_Quarantined baseline _ => Some (be_catalog_identity baseline)
  end.

Definition shrink_is_suspect (baseline observed : Z) : bool :=
  let missing := saturating_sub baseline observed in
  let relative := div_ceil baseline GATE_DROP_THRESHOLD_DENOMINATOR in
  bool_decide (Z.max relative GATE_MIN_ABSOLUTE_DROP ≤ missing).

Definition recovered_near_reference (reference observed : Z) : bool :=
  let missing := saturating_sub reference observed in
  let relative := div_ceil reference GATE_RECOVERY_THRESHOLD_DENOMINATOR in
  bool_decide (missing < Z.max relative GATE_MIN_ABSOLUTE_DROP).

Definition symmetric_difference (a b : gset SectionIndex) : gset SectionIndex :=
  (a ∖ b) ∪ (b ∖ a).

Definition consistent_with_anchor (episode : CandidateEpisode) (sample : GateSample)
    (sample_hash : string) : bool :=
  match ce_anchor_set episode with
  | Some anchor =>
      let tolerance := div_ceil (Z.of_nat (size anchor)) GATE_CONSISTENCY_DENOMINATOR in
      let symdiff := Z.of_nat (size (symmetric_difference anchor (gs_observed sample))) in
      bool_decide (symdiff ≤ tolerance)
  | None => bool_decide (ce_anchor_set_sha256 episode = sample_hash)
  end.

Definition anchored_episode (sample : GateSample) (sample_hash : string) : CandidateEpisode :=
  {| ce_anchor_set := Some (gs_observed sample);
     ce_anchor_set_sha256 := sample_hash;
     ce_first_seen := gs_observed_at sample;
     ce_last_seen := gs_observed_at sample;
     ce_consistent_count := 1 |}.

Section gate.
Context `{TimeApi, Sha256Api}.

(** The gap test [(0..=GATE_MAX_SAMPLE_GAP_SECONDS).contains(..)] of a duration. *)
Definition gap_in_range (d : Z) : bool :=
  bool_decide (0 ≤ whole_seconds d ≤ GATE_MAX_SAMPLE_GAP_SECONDS).

Definition evaluate (r : GateRuntime) (sample : GateSample) : option GateDecision :=
  let observed_count := Z.of_nat (size (gs_observed sample)) in
  let sample_hash := canonical_open_set_hash_v1 (bts_iter (gs_observed sample)) in
  let decision kind disposition next_state :=
    {| gd_disposition := disposition;
       gd_kind := kind;
       gd_catalog_identity := gs_catalog_identity sample;
       gd_observed_intersection_count := observed_count;
       gd_response_set_sha256 := sample_hash;
       gd_gate_epoch := gr_epoch r;
       gd_next_state := next_state |} in
  match gr_state r with
  | GateState_Healthy None =>
      let seeded := push_applied observed_count
                      (BaselineEpoch_seeded (gs_catalog_identity sample) None) in
      Some (decision GateDecisionKind_Pass GateDisposition_Apply
              (GateState_Healthy (Some seeded)))
  | GateState_Healthy (Some baseline) =>
      if bool_decide (be_catalog_identity baseline ≠ gs_catalog_identity sample) then None
      else
        let reference := default 0 (baseline_value baseline) in
        if shrink_is_suspect reference observed_count then
          let episode := anchored_episode sample sample_hash in
          Some (decision GateDecisionKind_Suspect GateDisposition_Hold
                  (GateState_Quarantined baseline episode))
        else
          let advanced := push_applied observed_count baseline in
          Some (decision GateDecisionKind_Pass GateDisposition_Apply
                  (GateState_Healthy (Some advanced)))
  | GateState_Quarantined baseline episode =>
      if bool_decide (be_catalog_identity baseline ≠ gs_catalog_identity sample) then None
      else
        let reference := default 0 (baseline_value baseline) in
        if recovered_near_reference reference observed_count then
          let recovered := push_applied observed_count baseline in
          Some (decision GateDecisionKind_QuarantineRecover GateDisposition_Apply
                  (GateState_Healthy (Some recovered)))
        else if negb (gap_in_range (gs_observed_at sample - ce_last_seen episode))
                || negb (consistent_with_anchor episode sample sample_hash) then
          let episode := anchored_episode sample sample_hash in
          Some (decision GateDecisionKind_Suspect GateDisposition_Hold
                  (GateState_Quarantined baseline episode))
        else
          let continued :=
            {| ce_anchor_set := match ce_anchor_set episode with
                                | None => Some (gs_observed sample)
                                | Some anchor => Some anchor
                                end;
               ce_anchor_set_sha256 := ce_anchor_set_sha256 episode;
               ce_first_seen := ce_first_seen episode;
               ce_last_seen := gs_observed_at sample;
               ce_consistent_count := u32_saturating_add (ce_consistent_count episode) 1 |} in
          let span_seconds := whole_seconds (ce_last_seen continued - ce_first_seen continued) in
          if bool_decide (GATE_CONFIRM_MIN_CONSISTENT ≤ ce_consistent_count continued)
             && bool_decide (GATE_CONFIRM_MIN_SPAN_SECONDS ≤ span_seconds) then
            let rebased := push_applied observed_count
                             (BaselineEpoch_seeded (be_catalog_identity baseline) None) in
            Some (decision GateDecisionKind_QuarantineConfirm GateDisposition_Apply
                    (GateState_Healthy (Some rebased)))
          else
            Some (decision GateDecisionKind_Suspect GateDisposition_Hold
                    (GateState_Quarantined baseline continued))
  end.

(** The epoch is a [u64] whose increment wraps. *)
Definition advance (r : GateRuntime) (decision : GateDecision) : option GateRuntime :=
  if bool_decide (gd_gate_epoch decision ≠ gr_epoch r) then None
  else Some {| gr_epoch := (gr_epoch r + 1) mod 2 ^ 64; gr_state := gd_next_state decision |}.

Definition reset_for_catalog_identity (r : GateRuntime) (catalog_identity : CatalogSetIdentity)
    (transferred_floor : option Z) : GateRuntime :=
  {| gr_epoch := (gr_epoch r + 1) mod 2 ^ 64;
     gr_state := GateState_Healthy
       ((λ floor, BaselineEpoch_seeded catalog_identity (Some floor)) <$> transferred_floor) |}.

(** ** Restart *)

Record RestartAttemptSummary := {
  ras_is_suspect_partial : bool;
  ras_canonical_set_sha256 : string;
  ras_completed_at : OffsetDateTime;
  ras_catalog_set_identity : option CatalogSetIdentity
}.

(** The loop collecting the run: [run] is in collection order. *)
Fixpoint restart_run (identity : CatalogSetIdentity) (newest : RestartAttemptSummary)
    (run attempts : list RestartAttemptSummary) : list RestartAttemptSummary :=
  match attempts with
  | [] => run
  | attempt :: attempts =>
      let within_gap :=
        match last run with
        | None => true
        | Some previous => gap_in_range (ras_completed_at previous - ras_completed_at attempt)
        end in
      if ras_is_suspect_partial attempt
         && bool_decide (ras_canonical_set_sha256 attempt = ras_canonical_set_sha256 newest)
         && bool_decide (ras_catalog_set_identity attempt = Some identity)
         && within_gap
      then restart_run identity newest (run ++ [attempt]) attempts
      else run
  end.

Definition rebuild_after_restart (catalog_identity : CatalogSetIdentity)
    (lkg_reference : option Z) (attempts_newest_first : list RestartAttemptSummary)
    (now : OffsetDateTime) : option GateRuntime :=
  let healthy floor :=
    match floor with
    | Some floor => GateRuntime_seeded catalog_identity floor
    | None => GateRuntime_new_unseeded
    end in
  match head attempts_newest_first with
  | None => Some (healthy lkg_reference)
  | Some newest =>
      if negb (ras_is_suspect_partial newest)
         || bool_decide (ras_catalog_set_identity newest ≠ Some catalog_identity)
      then Some (healthy lkg_reference)
      else match lkg_reference with
      | None => Some (healthy None)
      | Some reference =>
          if negb (gap_in_range (now - ras_completed_at newest))
          then Some (healthy (Some reference))
          else
            let run := restart_run catalog_identity newest [] attempts_newest_first in
            oldest ← last run;
            let baseline :=
              set_lkg_floor (Some reference)
                (BaselineEpoch_seeded catalog_identity (Some reference)) in
            Some {| gr_epoch := 0;
                    gr_state := GateState_Quarantined baseline
                      {| ce_anchor_set := None;
                         ce_anchor_set_sha256 := ras_canonical_set_sha256 newest;
                         ce_first_seen := ras_completed_at oldest;
                         ce_last_seen := ras_completed_at newest;
                         ce_consistent_count := Z.of_nat (length run) mod 2 ^ 32 |} |}
      end
  end.

End gate.

(** ** The runtimes of one target *)

Record TargetGateSet := {
  tgs_serving : option GateRuntime;
  tgs_candidates : gmap CatalogSetIdentity GateRuntime
}.

Definition TargetGateSet_new : TargetGateSet :=
  {| tgs_serving := None; tgs_candidates := ∅ |}.

Definition serving_installed (g : TargetGateSet) : bool := bool_decide (is_Some (tgs_serving g)).

(** [serving_mut] hands out the serving runtime, installing an unseeded one
    first when there is none; the client writes the runtime back. *)
Definition serving_mut (g : TargetGateSet) : GateRuntime * TargetGateSet :=
  let runtime := default GateRuntime_new_unseeded (tgs_serving g) in
  (runtime, {| tgs_serving := Some runtime; tgs_candidates := tgs_candidates g |}).

Definition install_serving (runtime : GateRuntime) (g : TargetGateSet) : TargetGateSet :=
  {| tgs_serving := Some runtime; tgs_candidates := tgs_candidates g |}.

(** [candidate_mut] hands out the candidate runtime of [identity]; [seed] is
    the value of the closure, which is called when there is no such runtime. *)
Definition candidate_mut (identity : CatalogSetIdentity) (seed : option Z) (g : TargetGateSet)
    : GateRuntime * TargetGateSet :=
  let retained := filter (λ kv, kv.1 = identity) (tgs_candidates g) in
  let runtime :=
    match retained !! identity with
    | Some runtime => runtime
    | None => match seed with
              | Some floor => GateRuntime_seeded identity floor
              | None => GateRuntime_new_unseeded
              end
    end in
  (runtime, {| tgs_serving := tgs_serving g;
               tgs_candidates := <[identity := runtime]> retained |}).

(** Writing back through the reference [candidate_mut] returned. *)
Definition candidate_write (identity : CatalogSetIdentity) (runtime : GateRuntime)
    (g : TargetGateSet) : TargetGateSet :=
  {| tgs_serving := tgs_serving g;
     tgs_candidates := <[identity := runtime]> (tgs_candidates g) |}.

Definition promote_candidate (identity : CatalogSetIdentity) (g : TargetGateSet) : TargetGateSet :=
  {| tgs_serving := match tgs_candidates g !! identity with
                    | Some promoted => Some promoted
                    | None => tgs_serving g
                    end;
     tgs_candidates := ∅ |}.
