(* ===== verification/GateFacts.v ===== *)
(** * Correctness of the snapshot integrity gate

    Theorems on the definitions of [Gate]: when a shrunken set is finally
    believed, what an applied or withheld snapshot implies, the sliding
    baseline, the hysteresis of the two thresholds, the rebuild after a restart
    and the routing of samples to the runtime of their catalog. *)

From S2P Require Import Prelude Identity Contracts Reconcile Gate.

(** ** Runs of the gate *)

Section runs.
Context `{TimeApi, Sha256Api}.

(** One committed snapshot: the decision, then its commit. *)
Definition observe (r : GateRuntime) (s : GateSample) : option (GateDecision * GateRuntime) :=
  d ← evaluate r s; r' ← advance r d; Some (d, r').

(** The commits of a process lifetime, oldest first. *)
Inductive gate_trace (r0 : GateRuntime) : list (GateSample * GateDecision) → GateRuntime → Prop :=
| gate_trace_nil : gate_trace r0 [] r0
| gate_trace_snoc tr r s d r' :
    gate_trace r0 tr r → observe r s = Some (d, r') → gate_trace r0 (tr ++ [(s, d)]) r'.

(** Running a list of samples, [None] when a commit panics. *)
Fixpoint gate_run (r : GateRuntime) (l : list GateSample) : option (list GateDecision * GateRuntime) :=
  match l with
  | [] => Some ([], r)
  | s :: l =>
      '(d, r') ← observe r s;
      '(ds, r'') ← gate_run r' l;
      Some (d :: ds, r'')
  end.

Definition sample_count (s : GateSample) : Z := Z.of_nat (size (gs_observed s)).
Definition sample_hash (s : GateSample) : string :=
  canonical_open_set_hash_v1 (bts_iter (gs_observed s)).

Definition state_baseline (st : GateState) : option BaselineEpoch :=
  match st with
  | GateState_Healthy b => b
  | GateState_Quarantined b _ => Some b
  end.

(** The reference a sample is compared with. *)
Definition reference (r : GateRuntime) : option Z :=
  (λ b, default 0 (baseline_value b)) <$> state_baseline (gr_state r).

(** ** Evidence of a sustained shrink *)

(** Adjacent times are at most the maximal gap apart. *)
Fixpoint gaps_ok (l : list OffsetDateTime) : Prop :=
  match l with
  | a :: (b :: _) as l' => gap_in_range (b - a) = true ∧ gaps_ok l'
  | _ => True
  end.

(** Within one percent of the anchor's cardinality. *)
Definition near_anchor (anchor s : GateSample) : Prop :=
  Z.of_nat (size (symmetric_difference (gs_observed anchor) (gs_observed s)))
    ≤ div_ceil (sample_count anchor) GATE_CONSISTENCY_DENOMINATOR.

Definition held (p : GateSample * GateDecision) : Prop :=
  gd_kind p.2 = GateDecisionKind_Suspect ∧ gd_disposition p.2 = GateDisposition_Hold.

(** A run of samples under one baseline, each of its catalog, none recovered,
    all near the first, at adjacent times. *)
Definition sustained (b : BaselineEpoch) (anchor : GateSample) (run : list GateSample) : Prop :=
  head run = Some anchor ∧
  gaps_ok (gs_observed_at <$> run) ∧
  (∀ s, s ∈ run → gs_catalog_identity s = be_catalog_identity b ∧ near_anchor anchor s ∧
    25 ≤ default 0 (baseline_value b) - sample_count s).

Lemma gaps_ok_snoc l a b :
  gaps_ok (l ++ [a]) → gap_in_range (b - a) = true → gaps_ok (l ++ [a; b]).
Proof.
  induction l as [|x l IH]; [done|].
  destruct l as [|y l]; simpl; [naive_solver|]. intros [? ?] ?. split; [done|]. by apply IH.
Qed.

Lemma symmetric_difference_same (a : gset SectionIndex) : symmetric_difference a a = ∅.
Proof. unfold symmetric_difference. set_solver. Qed.

Lemma near_anchor_refl s : near_anchor s s.
Proof.
  unfold near_anchor. rewrite symmetric_difference_same, size_empty.
  apply div_ceil_nonneg; unfold sample_count, GATE_CONSISTENCY_DENOMINATOR; lia.
Qed.

Lemma not_recovered_drop ref n : 0 ≤ n →
  recovered_near_reference ref n = false → 25 ≤ ref - n.
Proof.
  unfold recovered_near_reference, saturating_sub, GATE_MIN_ABSOLUTE_DROP.
  rewrite bool_decide_eq_false. lia.
Qed.

Lemma suspect_not_recovered ref n :
  0 ≤ ref → shrink_is_suspect ref n = true → recovered_near_reference ref n = false.
Proof.
  unfold recovered_near_reference, shrink_is_suspect, GATE_RECOVERY_THRESHOLD_DENOMINATOR,
    GATE_DROP_THRESHOLD_DENOMINATOR.
  rewrite bool_decide_eq_false, bool_decide_eq_true. intros Href Hs.
  assert (div_ceil ref 20 ≤ div_ceil ref 10) by (apply div_ceil_le; [lia|];
    assert (ref ≤ div_ceil ref 10 * 10) by (by apply div_ceil_le); lia).
  lia.
Qed.

Lemma suspect_drop ref n : 0 ≤ n → shrink_is_suspect ref n = true → 25 ≤ ref - n.
Proof.
  unfold shrink_is_suspect, saturating_sub, GATE_MIN_ABSOLUTE_DROP.
  rewrite bool_decide_eq_true. lia.
Qed.

Lemma sample_count_nonneg s : 0 ≤ sample_count s.
Proof. unfold sample_count. lia. Qed.

Lemma sustained_single b s :
  gs_catalog_identity s = be_catalog_identity b →
  25 ≤ default 0 (baseline_value b) - sample_count s → sustained b s [s].
Proof.
  intros. split_and!; [done|done|]. intros s' ->%list_elem_of_singleton.
  split_and!; [done|apply near_anchor_refl|done].
Qed.

Lemma sustained_snoc b anchor run last s :
  sustained b anchor (run ++ [last]) →
  gap_in_range (gs_observed_at s - gs_observed_at last) = true →
  gs_catalog_identity s = be_catalog_identity b → near_anchor anchor s →
  25 ≤ default 0 (baseline_value b) - sample_count s →
  sustained b anchor ((run ++ [last]) ++ [s]).
Proof.
  intros (Hh & Hg & Hall) Hgap ???. split_and!.
  - by rewrite head_app_Some; left.
  - rewrite <-(assoc_L (++)), fmap_app. simpl. apply gaps_ok_snoc; [|done].
    by rewrite fmap_app in Hg.
  - intros s'. rewrite elem_of_app, list_elem_of_singleton. intros [?| ->]; [by apply Hall|done].
Qed.

(** What a quarantine remembers of the trace that led to it. *)
Definition quarantine_evidence (tr : list (GateSample * GateDecision)) (b : BaselineEpoch)
    (e : CandidateEpisode) : Prop :=
  ∃ pre past p anchor,
    tr = pre ++ past ++ [p] ∧ Forall held (past ++ [p]) ∧
    sustained b anchor (past.*1 ++ [p.1]) ∧
    ce_anchor_set e = Some (gs_observed anchor) ∧
    ce_first_seen e = gs_observed_at anchor ∧
    ce_last_seen e = gs_observed_at p.1 ∧
    ce_consistent_count e = Z.min (Z.of_nat (length (past ++ [p]))) u32_max.

Definition state_evidence (tr : list (GateSample * GateDecision)) (st : GateState) : Prop :=
  match st with
  | GateState_Healthy _ => True
  | GateState_Quarantined b e => quarantine_evidence tr b e
  end.

Lemma new_episode_evidence tr b s d :
  gs_catalog_identity s = be_catalog_identity b →
  25 ≤ default 0 (baseline_value b) - sample_count s → held (s, d) →
  quarantine_evidence (tr ++ [(s, d)]) b (anchored_episode s (sample_hash s)).
Proof.
  intros Hid Hdrop Hheld. exists tr, [], (s, d), s. simpl.
  split_and!; [done|by constructor|by apply sustained_single|done..].
Qed.

Lemma continued_evidence tr b e s d e' :
  quarantine_evidence tr b e →
  gap_in_range (gs_observed_at s - ce_last_seen e) = true →
  consistent_with_anchor e s (sample_hash s) = true →
  gs_catalog_identity s = be_catalog_identity b →
  25 ≤ default 0 (baseline_value b) - sample_count s →
  held (s, d) →
  ce_anchor_set e' = ce_anchor_set e → ce_first_seen e' = ce_first_seen e →
  ce_last_seen e' = gs_observed_at s →
  ce_consistent_count e' = u32_saturating_add (ce_consistent_count e) 1 →
  quarantine_evidence (tr ++ [(s, d)]) b e'.
Proof.
  intros (pre & past & p & anchor & -> & Hh & Hs & Ha & Hf & Hl & Hc) Hgap Hcons Hid Hdrop Hheld
    Ha' Hf' Hl' Hc'.
  exists pre, (past ++ [p]), (s, d), anchor. split_and!.
  - by rewrite <-!(assoc_L (++)).
  - apply Forall_app. split; [done|by constructor].
  - rewrite fmap_app. simpl. apply sustained_snoc; [done|by rewrite <-Hl|done| |done].
    unfold consistent_with_anchor in Hcons. rewrite Ha in Hcons.
    by apply bool_decide_eq_true in Hcons.
  - by rewrite Ha', Ha.
  - by rewrite Hf', Hf.
  - done.
  - rewrite Hc', Hc. unfold u32_saturating_add. rewrite !length_app. simpl.
    unfold u32_max. lia.
Qed.

Lemma evaluate_state_evidence tr r s d :
  state_evidence tr (gr_state r) → evaluate r s = Some d → state_evidence (tr ++ [(s, d)]) (gd_next_state d).
Proof.
  unfold evaluate. pose proof (sample_count_nonneg s) as Hn. unfold sample_count in Hn.
  destruct (gr_state r) as [[b|]|b e]; simpl; intros Hev Hd.
  - case_bool_decide as Hid; [done|]. destruct (shrink_is_suspect _ _) eqn:Hsus; simplify_eq; simpl.
    + apply new_episode_evidence; [done|by apply suspect_drop|done].
    + done.
  - by simplify_eq.
  - case_bool_decide as Hid; [done|].
    destruct (recovered_near_reference _ _) eqn:Hrec; [by simplify_eq|].
    apply not_recovered_drop in Hrec; [|done].
    destruct (negb (gap_in_range _) || negb (consistent_with_anchor e s _)) eqn:Hre; simplify_eq; simpl.
    + by apply new_episode_evidence.
    + apply orb_false_iff in Hre as [Hg%negb_false_iff Hc%negb_false_iff].
      destruct (bool_decide _ && bool_decide _); simplify_eq; [done|]. simpl.
      assert (ce_anchor_set e ≠ None) as Hanchor
        by (destruct Hev as (? & ? & ? & ? & _ & _ & _ & Ha & _); congruence).
      eapply continued_evidence; try done. simpl. by destruct (ce_anchor_set e).
Qed.

Lemma observe_inv r s d r' :
  observe r s = Some (d, r') → evaluate r s = Some d ∧ gr_state r' = gd_next_state d ∧
    gr_epoch r' = (gr_epoch r + 1) mod 2 ^ 64.
Proof.
  unfold observe, advance. intros Ho.
  destruct (evaluate r s) as [d'|] eqn:E; simpl in Ho; [|done].
  case_bool_decide; simpl in Ho; simplify_eq; done.
Qed.

Lemma gate_trace_evidence r0 tr r :
  is_quarantined r0 = false → gate_trace r0 tr r → state_evidence tr (gr_state r).
Proof.
  intros Hr0. induction 1 as [|tr r s d r' _ IH Ho].
  - unfold is_quarantined in Hr0. by destruct (gr_state r0).
  - apply observe_inv in Ho as (He & -> & _). by eapply evaluate_state_evidence.
Qed.

(** ** Length of the evidence *)

Context `{!TimeApiLaws}.

Lemma gap_in_range_bound d :
  gap_in_range d = true → - NANOS_PER_SEC < d < 121 * NANOS_PER_SEC.
Proof.
  unfold gap_in_range. rewrite bool_decide_eq_true. apply whole_seconds_range_0.
Qed.

Lemma gaps_ok_span l a z :
  gaps_ok (a :: l) → last (a :: l) = Some z →
  z - a ≤ 121 * NANOS_PER_SEC * Z.of_nat (length l).
Proof.
  revert a. induction l as [|b l IH]; intros a Hg Hz.
  - simpl in Hz. simplify_eq. simpl. lia.
  - destruct Hg as [Hab Hg]. apply gap_in_range_bound in Hab.
    change (last (a :: b :: l)) with (last (b :: l)) in Hz.
    specialize (IH b Hg Hz). cbn [length]. lia.
Qed.

Lemma span_needs_samples (a : OffsetDateTime) l z n :
  gaps_ok (a :: l) → last (a :: l) = Some z → 0 < n → n ≤ whole_seconds (z - a) →
  n ≤ 121 * Z.of_nat (length l).
Proof.
  intros Hg Hz Hn Hspan.
  destruct (whole_seconds_range (z - a) n (whole_seconds (z - a))) as [Hlo _]; [done|lia|].
  pose proof (gaps_ok_span l a z Hg Hz). unfold NANOS_PER_SEC in *. lia.
Qed.

(** C30. A shrunken set is believed (QuarantineConfirm) only on sustained
    evidence: the snapshots committed just before it were withheld, and
    together with the confirming one they are at least four snapshots of one
    catalog, each at most the maximal gap after the previous one, all within
    one percent of the first, all at least 25 sections below the reference
    frozen when the quarantine began, over a span of at least 300 seconds. *)
Theorem quarantine_confirm_evidence r0 tr r s d :
  is_quarantined r0 = false → gate_trace r0 tr r →
  evaluate r s = Some d → gd_kind d = GateDecisionKind_QuarantineConfirm →
  ∃ pre past b anchor,
    tr = pre ++ past ∧ Forall held past ∧ (3 ≤ length past)%nat ∧
    state_baseline (gr_state r) = Some b ∧
    sustained b anchor (past.*1 ++ [s]) ∧
    GATE_CONFIRM_MIN_SPAN_SECONDS ≤ whole_seconds (gs_observed_at s - gs_observed_at anchor).
Proof.
  intros Hr0 Htr. pose proof (gate_trace_evidence r0 tr r Hr0 Htr) as Hev.
  unfold evaluate. pose proof (sample_count_nonneg s) as Hn. unfold sample_count in Hn.
  destruct (gr_state r) as [[b|]|b e]; simpl; intros Hd Hk.
  - case_bool_decide; [done|]. by destruct (shrink_is_suspect _ _); simplify_eq.
  - by simplify_eq.
  - case_bool_decide as Hid; [done|].
    destruct (recovered_near_reference _ _) eqn:Hrec; [by simplify_eq|].
    apply not_recovered_drop in Hrec; [|done].
    destruct (negb (gap_in_range _) || negb (consistent_with_anchor e s _)) eqn:Hre;
      [by simplify_eq|].
    apply orb_false_iff in Hre as [Hg%negb_false_iff Hc%negb_false_iff].
    destruct Hev as (pre & past & p & anchor & -> & Hh & Hs & Ha & Hf & Hl & Hcount).
    destruct (bool_decide (GATE_CONFIRM_MIN_CONSISTENT ≤ _) && _) eqn:Hconf; [|by simplify_eq].
    apply andb_true_iff in Hconf as [_ Hspan%bool_decide_eq_true]. rewrite Hf in Hspan.
    assert (sustained b anchor ((past.*1 ++ [p.1]) ++ [s])) as Hsus.
    { apply sustained_snoc; [done|by rewrite <-Hl|done| |done].
      unfold consistent_with_anchor in Hc. rewrite Ha in Hc. by apply bool_decide_eq_true in Hc. }
    exists pre, (past ++ [p]), b, anchor. rewrite fmap_app.
    split_and!; [done|done| |done|done|done].
    destruct Hsus as (Hhead & Hgaps & _).
    destruct ((past.*1 ++ [p.1]) ++ [s]) as [|x run] eqn:Erun; [done|]. simpl in Hhead. simplify_eq.
    assert (length run = length (past ++ [p])) as Hlen.
    { apply (f_equal length) in Erun. rewrite !length_app, length_fmap in Erun. simpl in Erun.
      rewrite length_app. simpl. lia. }
    rewrite fmap_cons in Hgaps.
    pose proof (span_needs_samples _ _ (gs_observed_at s) 300 Hgaps) as Hspan'.
    rewrite length_fmap, Hlen in Hspan'.
    assert (300 ≤ 121 * Z.of_nat (length (past ++ [p]))); [|lia].
    apply Hspan'; [|lia|done].
    rewrite <-fmap_cons, fmap_last, <-Erun, last_snoc. done.
Qed.

End runs.

(** ** Single decisions *)

Section decisions.
Context `{TimeApi, Sha256Api}.

(** Every decision, on every branch: it names the sample it was computed
    from; it withholds exactly when it is Suspect, and then the sample is at
    least 25 sections short of the reference and the baseline stays frozen in
    the quarantined state; an applied sample becomes the newest entry of the
    baseline of a healthy state, and it is a plain Pass only above the drop
    threshold, a recovery only above the tighter one. *)
Theorem gate_decision_spec (r : GateRuntime) (s : GateSample) (d : GateDecision) :
  evaluate r s = Some d →
  gd_catalog_identity d = gs_catalog_identity s ∧
  gd_observed_intersection_count d = sample_count s ∧
  gd_response_set_sha256 d = sample_hash s ∧
  gd_gate_epoch d = gr_epoch r ∧
  match gd_kind d with
  | GateDecisionKind_Suspect =>
      gd_disposition d = GateDisposition_Hold ∧
      ∃ b e ref, gd_next_state d = GateState_Quarantined b e ∧
        state_baseline (gr_state r) = Some b ∧ reference r = Some ref ∧
        25 ≤ ref - sample_count s ∧ ce_last_seen e = gs_observed_at s
  | kind =>
      gd_disposition d = GateDisposition_Apply ∧
      ∃ b, gd_next_state d = GateState_Healthy (Some b) ∧
        be_catalog_identity b = gs_catalog_identity s ∧
        last (be_window b) = Some (sample_count s) ∧
        match kind with
        | GateDecisionKind_QuarantineRecover =>
            is_quarantined r = true ∧
            ∃ ref, reference r = Some ref ∧ recovered_near_reference ref (sample_count s) = true
        | GateDecisionKind_QuarantineConfirm =>
            is_quarantined r = true ∧ be_window b = [sample_count s] ∧ be_lkg_floor b = None
        | _ =>
            is_quarantined r = false ∧
            match reference r with
            | Some ref => shrink_is_suspect ref (sample_count s) = false
            | None => True
            end
        end
  end.
Proof.
  unfold evaluate, reference, is_quarantined.
  pose proof (sample_count_nonneg s) as Hn. unfold sample_count in *.
  destruct (gr_state r) as [[b|]|b e]; simpl; intros Hd.
  - case_bool_decide as Hid; [done|].
    destruct (shrink_is_suspect _ _) eqn:Hs; simplify_eq; simpl; split_and!; try done.
    + eexists _, _, _. split_and!; try done. by apply suspect_drop.
    + eexists. split_and!; try done. apply last_snoc.
  - simplify_eq; simpl. split_and!; try done. eexists. by split_and!.
  - case_bool_decide as Hid; [done|].
    destruct (recovered_near_reference _ _) eqn:Hr; [simplify_eq; simpl; split_and!; try done|].
    { eexists. split_and!; try done; [apply last_snoc|]. eauto. }
    apply not_recovered_drop in Hr; [|done].
    destruct (negb _ || _); [|destruct (bool_decide _ && _)]; simplify_eq; simpl;
      (split_and!; try done); eauto 10.
Qed.

Lemma evaluate_None r s :
  evaluate r s = None ↔ ∃ id, catalog_identity r = Some id ∧ id ≠ gs_catalog_identity s.
Proof.
  unfold evaluate, catalog_identity.
  destruct (gr_state r) as [[b|]|b e]; simpl; [|naive_solver|].
  - case_bool_decide as Hid; [naive_solver|]. destruct (shrink_is_suspect _ _); naive_solver.
  - case_bool_decide as Hid; [naive_solver|].
    repeat case_match; naive_solver.
Qed.

Lemma evaluate_next_identity r s d :
  evaluate r s = Some d →
  match gd_next_state d with
  | GateState_Healthy None => False
  | GateState_Healthy (Some b) | GateState_Quarantined b _ =>
      be_catalog_identity b = gs_catalog_identity s
  end.
Proof.
  unfold evaluate. destruct (gr_state r) as [[b|]|b e]; simpl; intros Hd.
  - case_bool_decide; [done|]. destruct (shrink_is_suspect _ _); by simplify_eq.
  - by simplify_eq.
  - case_bool_decide; [done|].
    destruct (recovered_near_reference _ _); [by simplify_eq|].
    destruct (negb _ || _); [by simplify_eq|]. destruct (bool_decide _ && _); by simplify_eq.
Qed.

Lemma evaluate_epoch r s d : evaluate r s = Some d → gd_gate_epoch d = gr_epoch r.
Proof. unfold evaluate. intros Hd. repeat case_match; by simplify_eq. Qed.

Lemma observe_Some r s d :
  evaluate r s = Some d →
  observe r s = Some (d, {| gr_epoch := (gr_epoch r + 1) mod 2 ^ 64; gr_state := gd_next_state d |}).
Proof.
  intros He. unfold observe. rewrite He. simpl. unfold advance.
  rewrite bool_decide_eq_false_2; [done|].
  intros Hne. apply Hne. by apply (evaluate_epoch r s d).
Qed.

(** Neither assertion of the gate fires when every sample carries the
    identity the runtime is keyed by: any list of such samples is committed,
    one decision each, the epoch counting the commits. A sample of another
    identity makes the very next evaluation panic, and a decision taken before
    another commit can no longer be committed. *)
Theorem gate_run_total (r : GateRuntime) (id : CatalogSetIdentity) (l : list GateSample) :
  default id (catalog_identity r) = id → 0 ≤ gr_epoch r < 2 ^ 64 →
  (∀ s, s ∈ l → gs_catalog_identity s = id) →
  ∃ ds r', gate_run r l = Some (ds, r') ∧ length ds = length l ∧
    default id (catalog_identity r') = id ∧
    gr_epoch r' = (gr_epoch r + Z.of_nat (length l)) mod 2 ^ 64 ∧
    (l ≠ [] → ∀ s, gs_catalog_identity s ≠ id → evaluate r' s = None) ∧
    (l ≠ [] → Z.of_nat (length l) < 2 ^ 64 →
       ∀ s d, evaluate r s = Some d → advance r' d = None).
Proof.
  intros Hid Hep Hl.
  assert (∃ ds r', gate_run r l = Some (ds, r') ∧ length ds = length l ∧
    default id (catalog_identity r') = id ∧ (l ≠ [] → catalog_identity r' = Some id) ∧
    gr_epoch r' = (gr_epoch r + Z.of_nat (length l)) mod 2 ^ 64) as
    (ds & r' & Hrun & Hlen & Hid' & Hkey & Hep').
  { revert r Hid Hep. induction l as [|s l IH]; intros r Hid Hep.
    - exists [], r. simpl. split_and!; [done..|]. by rewrite Z.add_0_r, Z.mod_small.
    - destruct (evaluate r s) as [d|] eqn:E.
      2:{ apply evaluate_None in E as (id' & Hr & Hne). rewrite Hr in Hid. simpl in Hid.
          destruct Hne. rewrite Hid. symmetry. apply Hl. set_solver. }
      pose proof (observe_Some r s d E) as Ho. apply evaluate_next_identity in E.
      set (r1 := {| gr_epoch := (gr_epoch r + 1) mod 2 ^ 64; gr_state := gd_next_state d |}) in *.
      assert (catalog_identity r1 = Some id) as Hr1.
      { unfold catalog_identity, r1; simpl.
        rewrite Hl in E by set_solver. destruct (gd_next_state d) as [[]|]; simpl; [by rewrite E|done|by rewrite E]. }
      destruct (IH ltac:(set_solver) r1) as (ds & r' & Hrun & Hlen & Hid' & Hkey & Hep').
      { by rewrite Hr1. }
      { apply Z.mod_pos_bound. lia. }
      exists (d :: ds), r'. cbn [gate_run]. rewrite Ho. simpl. rewrite Hrun. simpl.
      split_and!; [done|by rewrite Hlen|done| |].
      + intros _. destruct l; [|by apply Hkey]. simpl in Hrun. by simplify_eq.
      + rewrite Hep'. unfold r1; cbn [gr_epoch]. rewrite Z.add_mod_idemp_l by lia.
        cbn [length]. f_equal. lia. }
  exists ds, r'. split_and!; [done..| |].
  - intros Hne s Hs. apply evaluate_None. exists id. split; [by apply Hkey|]. congruence.
  - intros Hne Hn s d Hd. apply evaluate_epoch in Hd. unfold advance.
    rewrite bool_decide_eq_true_2; [done|]. rewrite Hd, Hep'. destruct l as [|x l]; [done|].
    cbn [length] in *. intros Heq. symmetry in Heq.
    destruct (decide (gr_epoch r + Z.of_nat (S (length l)) < 2 ^ 64)).
    + rewrite Z.mod_small in Heq by lia. lia.
    + rewrite <-(Z.mod_unique _ _ 1 (gr_epoch r + Z.of_nat (S (length l)) - 2 ^ 64)) in Heq by lia.
      lia.
Qed.

(** ** The sliding baseline *)

(** The counts applied since the baseline was last rebased, oldest first. *)
Definition applied_counts (tr : list (GateSample * GateDecision)) : list Z :=
  foldl (λ acc p,
    match gd_kind p.2 with
    | GateDecisionKind_Suspect => acc
    | GateDecisionKind_QuarantineConfirm => [sample_count p.1]
    | _ => acc ++ [sample_count p.1]
    end) [] tr.

Definition last_n {A} (n : nat) (l : list A) : list A := drop (length l - n) l.

Lemma length_last_n {A} n (l : list A) : length (last_n n l) = Nat.min n (length l).
Proof. unfold last_n. rewrite length_drop. lia. Qed.

Lemma tail_drop {A} (l : list A) : tail l = drop 1 l.
Proof. by destruct l. Qed.

Lemma push_applied_window c b l :
  be_window b = last_n 16 l → be_window (push_applied c b) = last_n 16 (l ++ [c]).
Proof.
  unfold push_applied; cbn [be_window]. intros ->. unfold GATE_BASELINE_WINDOW.
  case_bool_decide as Hfull; rewrite length_last_n in Hfull; unfold last_n;
    rewrite length_app; simpl.
  - rewrite tail_drop, drop_drop. rewrite drop_app_le by lia. do 2 f_equal. lia.
  - rewrite drop_app_le by lia. do 2 f_equal. lia.
Qed.

Lemma evaluate_window r s d l :
  (∀ b, state_baseline (gr_state r) = Some b → be_window b = last_n 16 l) →
  evaluate r s = Some d →
  (state_baseline (gr_state r) = None → l = []) →
  ∀ b, state_baseline (gd_next_state d) = Some b →
  be_window b = last_n 16
    match gd_kind d with
    | GateDecisionKind_Suspect => l
    | GateDecisionKind_QuarantineConfirm => [sample_count s]
    | _ => l ++ [sample_count s]
    end.
Proof.
  unfold evaluate. intros Hw Hd Hnil.
  destruct (gr_state r) as [[b0|]|b0 e]; simpl in *.
  - specialize (Hw b0 eq_refl). case_bool_decide; [done|].
    destruct (shrink_is_suspect _ _); simplify_eq; simpl; intros b ?; simplify_eq; [done|].
    by apply push_applied_window.
  - rewrite Hnil by done. simplify_eq; simpl. intros b ?; by simplify_eq.
  - specialize (Hw b0 eq_refl). case_bool_decide; [done|].
    destruct (recovered_near_reference _ _).
    { simplify_eq; simpl; intros b ?; simplify_eq. by apply push_applied_window. }
    destruct (negb _ || _); [|destruct (bool_decide _ && _)]; simplify_eq; simpl; intros b ?;
      by simplify_eq.
Qed.

Lemma state_baseline_next r s d :
  evaluate r s = Some d → is_Some (state_baseline (gd_next_state d)).
Proof.
  intros Hd%evaluate_next_identity. destruct (gd_next_state d) as [[]|]; simpl; [eauto|done|eauto].
Qed.

(** The reference is a bounded sliding statistic of what was applied: over
    any commits from a runtime with an empty window, the window is the last
    sixteen counts applied since the latest confirmation. Withheld snapshots
    never enter it. *)
Theorem baseline_window_spec r0 tr r b :
  (∀ b0, state_baseline (gr_state r0) = Some b0 → be_window b0 = []) →
  gate_trace r0 tr r → state_baseline (gr_state r) = Some b →
  be_window b = last_n 16 (applied_counts tr) ∧ (length (be_window b) ≤ GATE_BASELINE_WINDOW)%nat.
Proof.
  intros Hr0 Htr.
  assert ((∀ b, state_baseline (gr_state r) = Some b → be_window b = last_n 16 (applied_counts tr))
    ∧ (state_baseline (gr_state r) = None → applied_counts tr = [])) as [Hw _].
  { induction Htr as [|tr r s d r' _ [IHw IHn] Ho]; [by split; [intros b' ->%Hr0|]|].
    apply observe_inv in Ho as (Hd & -> & _). unfold applied_counts. rewrite foldl_app. simpl.
    split.
    - by apply (evaluate_window r s d).
    - destruct (state_baseline_next r s d Hd) as [? ->]. done. }
  intros Hb. rewrite (Hw b Hb). split; [done|].
  rewrite length_last_n. unfold GATE_BASELINE_WINDOW. lia.
Qed.

Lemma StronglySorted_split (l1 l2 : list Z) m :
  StronglySorted Z.le (l1 ++ m :: l2) → (∀ x, x ∈ l1 → x ≤ m) ∧ (∀ x, x ∈ l2 → m ≤ x).
Proof.
  induction l1 as [|y l1 IH]; simpl; intros Hs; inversion Hs as [|? ? Hs' Hall]; simplify_eq.
  - rewrite Forall_forall in Hall. split; [set_solver|done].
  - destruct (IH Hs') as [IH1 IH2]. rewrite Forall_forall in Hall. split; [|done].
    intros x [->|Hx]%elem_of_cons; [apply Hall; set_solver|by apply IH1].
Qed.

(** The lower median of a nonempty window is one of its counts; at most
    half of the other counts are smaller, so that at least half of the window
    is no smaller than it, and at most half of the window is larger. *)
Theorem lower_median_spec (b : BaselineEpoch) :
  match lower_median b with
  | None => be_window b = []
  | Some m => m ∈ be_window b ∧
      (2 * length (filter (λ x, (x < m)%Z) (be_window b)) ≤ length (be_window b) - 1)%nat ∧
      (2 * length (filter (λ x, (m < x)%Z) (be_window b)) ≤ length (be_window b))%nat
  end.
Proof.
  unfold lower_median. case_bool_decide as Hw; [done|].
  pose proof (merge_sort_Permutation Z.le (be_window b)) as Hp.
  assert (StronglySorted Z.le (merge_sort Z.le (be_window b))) as Hs
    by (apply StronglySorted_merge_sort; apply _).
  set (l := merge_sort Z.le (be_window b)) in *. clearbody l.
  assert (length l ≠ 0%nat) as Hlen.
  { rewrite Hp. by destruct (be_window b). }
  set (k := ((length l - 1) / 2)%nat).
  assert (k * 2 ≤ length l - 1 ∧ length l - 1 < k * 2 + 2)%nat as [Hk Hk'].
  { pose proof (Nat.div_mod_eq (length l - 1) 2). pose proof (Nat.mod_upper_bound (length l - 1) 2).
    unfold k. lia. }
  destruct (lookup_lt_is_Some_2 l k) as [m Hm]; [lia|].
  rewrite (list_lookup_total_correct l k m Hm). rewrite <-!Hp.
  split; [by eapply list_elem_of_lookup_2|].
  assert (length l = (length (take k l) + S (length (drop (S k) l)))%nat) as Hsum.
  { rewrite length_take, length_drop. lia. }
  pose proof (take_drop_middle l k m Hm) as Hl. rewrite <-Hl in Hs |- *.
  apply StronglySorted_split in Hs as [Hlo Hhi].
  rewrite !filter_app, !length_app, !filter_cons_False by lia.
  rewrite (filter_none (λ x, x < m) (drop (S k) l)) by (intros x Hx%Hhi; lia).
  rewrite (filter_none (λ x, m < x) (take k l)) by (intros x Hx%Hlo; lia).
  pose proof (length_filter (λ x, x < m) (take k l)).
  pose proof (length_filter (λ x, m < x) (drop (S k) l)).
  pose proof (length_take l k). pose proof (length_drop l (S k)). simpl. lia.
Qed.

End decisions.

(** ** The two thresholds *)

(** Hysteresis: a recovered sample is never suspect, and a growing set is
    recovered. A sample that is neither (kept in quarantine, but not flagged
    when healthy) exists exactly for references above 250; for smaller ones the
    absolute floor makes the two rules complements of each other. *)
Theorem threshold_hysteresis (ref : Z) :
  0 ≤ ref →
  (∀ n, recovered_near_reference ref n = true → shrink_is_suspect ref n = false) ∧
  (∀ n, ref ≤ n → recovered_near_reference ref n = true) ∧
  ((∃ n, 0 ≤ n ∧ recovered_near_reference ref n = false ∧ shrink_is_suspect ref n = false)
     ↔ 250 < ref).
Proof.
  intros Href.
  assert (∀ n, recovered_near_reference ref n = true → shrink_is_suspect ref n = false) as Hexcl.
  { intros n Hr. destruct (shrink_is_suspect ref n) eqn:E; [|done].
    apply suspect_not_recovered in E; congruence. }
  assert (∀ q, div_ceil ref 10 ≤ q ↔ ref ≤ q * 10) as H10 by (intros; by apply div_ceil_le).
  assert (∀ q, div_ceil ref 20 ≤ q ↔ ref ≤ q * 20) as H20 by (intros; by apply div_ceil_le).
  unfold recovered_near_reference, shrink_is_suspect, saturating_sub,
    GATE_RECOVERY_THRESHOLD_DENOMINATOR, GATE_DROP_THRESHOLD_DENOMINATOR,
    GATE_MIN_ABSOLUTE_DROP in *.
  split_and!; [done| |].
  - intros n Hn. rewrite bool_decide_eq_true. lia.
  - setoid_rewrite bool_decide_eq_false. split.
    + intros (n & Hn & Hr & Hs). apply dec_stable. intros Hle.
      assert (div_ceil ref 10 ≤ 25) by (apply H10; lia). lia.
    + intros Hlt. assert (¬ div_ceil ref 10 ≤ 25) by (rewrite H10; lia).
      assert (div_ceil ref 20 ≤ div_ceil ref 10 - 1).
      { apply H20. assert (ref ≤ div_ceil ref 10 * 10) by (by apply H10). lia. }
      exists (ref - (div_ceil ref 10 - 1)).
      assert (div_ceil ref 10 ≤ ref) by (apply H10; lia). lia.
Qed.

(** ** Restart *)

Section restart.
Context `{TimeApi, Sha256Api}.

(** An attempt that can belong to the run of [newest]. *)
Definition run_member (id : CatalogSetIdentity) (newest a : RestartAttemptSummary) : Prop :=
  ras_is_suspect_partial a = true ∧
  ras_canonical_set_sha256 a = ras_canonical_set_sha256 newest ∧
  ras_catalog_set_identity a = Some id.

(** The run, newest first, cannot be extended by the attempts that follow. *)
Definition run_maximal (id : CatalogSetIdentity) (newest : RestartAttemptSummary)
    (run rest : list RestartAttemptSummary) : Prop :=
  match rest, last run with
  | a :: _, Some oldest =>
      ¬ (run_member id newest a ∧ gap_in_range (ras_completed_at oldest - ras_completed_at a) = true)
  | _, _ => True
  end.

Lemma gaps_ok_reverse_snoc run a :
  gaps_ok (reverse (ras_completed_at <$> run)) →
  (∀ o, last run = Some o → gap_in_range (ras_completed_at o - ras_completed_at a) = true) →
  gaps_ok (reverse (ras_completed_at <$> (run ++ [a]))).
Proof.
  intros Hg Ha. rewrite fmap_app, reverse_app. simpl.
  destruct run as [|x run _] using rev_ind; [done|].
  rewrite fmap_app, reverse_app in *. simpl in *. split; [|done].
  apply Ha. by rewrite last_snoc.
Qed.

Lemma restart_run_spec id newest attempts run :
  run ≠ [] → Forall (run_member id newest) run → gaps_ok (reverse (ras_completed_at <$> run)) →
  ∃ ext rest, attempts = ext ++ rest ∧ restart_run id newest run attempts = run ++ ext ∧
    Forall (run_member id newest) (run ++ ext) ∧
    gaps_ok (reverse (ras_completed_at <$> (run ++ ext))) ∧
    run_maximal id newest (run ++ ext) rest.
Proof.
  revert run. induction attempts as [|a attempts IH]; intros run Hne Hall Hg.
  { exists [], []. rewrite !app_nil_r. unfold run_maximal. by split_and!. }
  destruct (last run) as [o|] eqn:Elast; [|by apply last_None in Elast].
  cbn [restart_run]. rewrite Elast.
  destruct (_ && _) eqn:Ec.
  - apply andb_true_iff in Ec as [Hm Hgap].
    repeat rewrite andb_true_iff in Hm. rewrite !bool_decide_eq_true in Hm.
    destruct (IH (run ++ [a])) as (ext & rest & -> & -> & IH'); [by destruct run| | |].
    { apply Forall_app. split; [done|]. constructor; [|done]. unfold run_member. tauto. }
    { apply gaps_ok_reverse_snoc; [done|]. intros o' ?. by simplify_eq. }
    exists (a :: ext), rest. rewrite <-!(assoc_L (++)) in *. done.
  - exists [], (a :: attempts). rewrite app_nil_r. split_and!; try done.
    unfold run_maximal. rewrite Elast. intros [(Hs & Hh & Hi) Hgap].
    rewrite Hs, Hgap in Ec. rewrite !bool_decide_eq_true_2 in Ec by done. done.
Qed.

(** The restart re-enters quarantine. *)
Definition resumes (id : CatalogSetIdentity) (lkg : option Z)
    (attempts : list RestartAttemptSummary) (now : OffsetDateTime) : Prop :=
  ∃ newest ref, head attempts = Some newest ∧ lkg = Some ref ∧
    ras_is_suspect_partial newest = true ∧ ras_catalog_set_identity newest = Some id ∧
    gap_in_range (now - ras_completed_at newest) = true.

(** The rebuild after a restart never panics. It re-enters quarantine
    exactly when the newest attempt is a suspect of this catalog, no older than
    the maximal gap, and a last-known-good reference exists; the episode then
    spans the longest prefix of the attempts that are suspects of this catalog
    with the newest one's hash at adjacent times, and the frozen reference is
    the last known good. Otherwise the runtime is healthy on that floor. *)
Theorem rebuild_after_restart_spec (id : CatalogSetIdentity) (lkg : option Z)
    (attempts : list RestartAttemptSummary) (now : OffsetDateTime) :
  ∃ r, rebuild_after_restart id lkg attempts now = Some r ∧ gr_epoch r = 0 ∧
  default id (catalog_identity r) = id ∧
  match gr_state r with
  | GateState_Healthy b =>
      ¬ resumes id lkg attempts now ∧
      b = (λ floor, BaselineEpoch_seeded id (Some floor)) <$> lkg
  | GateState_Quarantined b e =>
      resumes id lkg attempts now ∧ baseline_value b = lkg ∧
      ∃ newest run rest oldest,
        attempts = run ++ rest ∧ head run = Some newest ∧ last run = Some oldest ∧
        Forall (run_member id newest) run ∧
        gaps_ok (reverse (ras_completed_at <$> run)) ∧ run_maximal id newest run rest ∧
        ce_anchor_set e = None ∧
        ce_anchor_set_sha256 e = ras_canonical_set_sha256 newest ∧
        ce_first_seen e = ras_completed_at oldest ∧ ce_last_seen e = ras_completed_at newest ∧
        ce_consistent_count e = Z.of_nat (length run) mod 2 ^ 32
  end.
Proof.
  unfold rebuild_after_restart, resumes.
  destruct attempts as [|newest attempts]; cbn [head].
  { eexists. split; [done|]. destruct lkg; simpl; split_and!; try done; naive_solver. }
  destruct (negb (ras_is_suspect_partial newest) || bool_decide _) eqn:Ec.
  { eexists. split; [done|]. apply orb_true_iff in Ec.
    rewrite negb_true_iff, bool_decide_eq_true in Ec.
    destruct lkg; simpl; split_and!; try done; naive_solver congruence. }
  apply orb_false_iff in Ec as [Hsus%negb_false_iff Hid%bool_decide_eq_false%dec_stable].
  destruct lkg as [ref|].
  2:{ eexists. split; [done|]. simpl. split_and!; try done. naive_solver. }
  destruct (gap_in_range (now - ras_completed_at newest)) eqn:Hgap; simpl.
  2:{ eexists. split; [done|]. simpl. split_and!; try done. naive_solver congruence. }
  destruct (restart_run_spec id newest attempts [newest]) as (ext & rest & -> & Hrun & Hall & Hg & Hmax).
  { done. } { by repeat constructor. } { done. }
  assert (restart_run id newest [] (newest :: ext ++ rest) = newest :: ext) as Hrun'.
  { transitivity (restart_run id newest [newest] (ext ++ rest)); [|exact Hrun].
    simpl. rewrite Hsus, !bool_decide_eq_true_2 by done. done. }
  simpl in Hrun'. rewrite Hrun'.
  destruct (last (newest :: ext)) as [oldest|] eqn:Elast; [|by apply last_None in Elast].
  simpl. eexists. split; [done|]. simpl. split_and!; [done..|eauto 10|done|].
  exists newest, (newest :: ext), rest, oldest. by split_and!.
Qed.

End restart.

(** ** The runtimes of one target *)

Section gate_sets.
Context `{TimeApi, Sha256Api}.

(** What the service does with the runtimes of a target, each step one
    critical section of the target's lock. *)
Inductive gate_set_step : TargetGateSet → TargetGateSet → Prop :=
| gate_set_serve g r g1 s d r' :
    serving_mut g = (r, g1) → observe r s = Some (d, r') →
    gate_set_step g (install_serving r' g1)
| gate_set_reset g r g1 id floor :
    serving_mut g = (r, g1) →
    gate_set_step g (install_serving (reset_for_catalog_identity r id floor) g1)
| gate_set_install g r : gate_set_step g (install_serving r g)
| gate_set_candidate g id seed r g1 s d r' :
    gs_catalog_identity s = id → candidate_mut id seed g = (r, g1) → observe r s = Some (d, r') →
    gate_set_step g (candidate_write id r' g1)
| gate_set_promote g id : gate_set_step g (promote_candidate id g)
| gate_set_open g id seed r g1 : candidate_mut id seed g = (r, g1) → gate_set_step g g1.

(** At most one candidate, and it is keyed by its identity. *)
Definition gate_set_wf (g : TargetGateSet) : Prop :=
  (size (tgs_candidates g) ≤ 1)%nat ∧
  ∀ id r, tgs_candidates g !! id = Some r → default id (catalog_identity r) = id.

Lemma candidate_mut_candidates id seed g r g1 :
  candidate_mut id seed g = (r, g1) → tgs_candidates g1 = {[ id := r ]} ∧
  tgs_serving g1 = tgs_serving g ∧
  r = match tgs_candidates g !! id with
      | Some r => r
      | None => match seed with
                | Some floor => GateRuntime_seeded id floor
                | None => GateRuntime_new_unseeded
                end
      end.
Proof.
  unfold candidate_mut. intros [= Hr <-]; simpl.
  assert (filter (λ kv, kv.1 = id) (tgs_candidates g) !! id = tgs_candidates g !! id) as Hlook.
  { destruct (tgs_candidates g !! id) as [r0|] eqn:E.
    - by apply map_lookup_filter_Some.
    - apply map_lookup_filter_None. by left. }
  rewrite Hlook in *. split_and!; [|done|done].
  rewrite Hr. apply map_eq. intros id'. destruct (decide (id' = id)) as [->|Hne].
  - by rewrite lookup_insert_eq, lookup_singleton_eq.
  - rewrite lookup_insert_ne, lookup_singleton_ne by done.
    apply map_lookup_filter_None. right. simpl. by intros ? _.
Qed.

Lemma candidate_mut_keyed id seed g r g1 :
  gate_set_wf g → candidate_mut id seed g = (r, g1) → default id (catalog_identity r) = id.
Proof.
  intros [_ Hk] (_ & _ & ->)%candidate_mut_candidates.
  destruct (tgs_candidates g !! id) as [r|] eqn:E; [by apply Hk|]. by destruct seed.
Qed.

Lemma observe_identity r s d r' :
  observe r s = Some (d, r') → catalog_identity r' = Some (gs_catalog_identity s).
Proof.
  intros (Hd%evaluate_next_identity & Hr & _)%observe_inv. unfold catalog_identity. rewrite Hr.
  destruct (gd_next_state d) as [[b|]|b e]; simpl; [by rewrite Hd|done|by rewrite Hd].
Qed.

Lemma gate_set_empty_wf serving :
  gate_set_wf {| tgs_serving := serving; tgs_candidates := ∅ |}.
Proof.
  split; simpl; [rewrite map_size_empty; lia|]. intros id r. by rewrite lookup_empty.
Qed.

Lemma gate_set_step_wf g g' : gate_set_wf g → gate_set_step g g' → gate_set_wf g'.
Proof.
  intros Hwf Hstep. destruct Hstep as [g r g1 s d r' [= _ <-] _|g r g1 id floor [= _ <-]|g r
    |g id seed r g1 s d r' Hid Hc Ho|g id|g id seed r g1 Hc]; [exact Hwf..| | |].
  - apply candidate_mut_candidates in Hc as (Hc & _ & _).
    unfold gate_set_wf, candidate_write; cbn [tgs_candidates].
    rewrite Hc, insert_singleton_eq. split; [by rewrite map_size_singleton|].
    intros id' r1 (-> & <-)%lookup_singleton_Some. by rewrite (observe_identity _ _ _ _ Ho).
  - apply gate_set_empty_wf.
  - pose proof (candidate_mut_keyed _ _ _ _ _ Hwf Hc) as Hkey.
    apply candidate_mut_candidates in Hc as (Hc & _ & _). unfold gate_set_wf. rewrite Hc.
    split; [by rewrite map_size_singleton|]. by intros id' r1 (-> & <-)%lookup_singleton_Some.
Qed.

(** Serving and candidate runtimes stay isolated: whatever the target's
    history, at most one candidate is retained, evaluating a sample on the
    runtime [candidate_mut] hands out for its catalog never panics, working on
    candidates leaves the serving runtime alone, and a promotion installs
    exactly the candidate of that catalog (nothing when there is none) and
    clears the table. *)
Theorem target_gate_set_isolated (g : TargetGateSet) :
  rtc gate_set_step TargetGateSet_new g →
  (size (tgs_candidates g) ≤ 1)%nat ∧
  (∀ seed s, is_Some (evaluate (candidate_mut (gs_catalog_identity s) seed g).1 s)) ∧
  (∀ id seed r, tgs_serving (candidate_write id r (candidate_mut id seed g).2) = tgs_serving g) ∧
  (∀ id seed r, promote_candidate id (candidate_write id r (candidate_mut id seed g).2) =
                  {| tgs_serving := Some r; tgs_candidates := ∅ |}) ∧
  (∀ id, tgs_candidates g !! id = None →
           promote_candidate id g = {| tgs_serving := tgs_serving g; tgs_candidates := ∅ |}).
Proof.
  intros Hreach.
  assert (gate_set_wf g) as Hwf.
  { revert Hreach. apply (rtc_ind_r (λ g, gate_set_wf g)).
    - apply gate_set_empty_wf.
    - intros g1 g2 _ Hs Hwf. by eapply gate_set_step_wf. }
  split; [apply Hwf|]. split.
  { intros seed s. destruct (candidate_mut _ seed g) as [r g1] eqn:Ec.
    apply (candidate_mut_keyed _ _ _ _ _ Hwf) in Ec. simpl.
    destruct (evaluate r s) eqn:E; [eauto|].
    apply evaluate_None in E as (id & Hid & Hne). rewrite Hid in Ec. by destruct Hne. }
  split; [done|]. split.
  - intros id seed r. unfold promote_candidate, candidate_write; cbn [tgs_candidates tgs_serving].
    by rewrite lookup_insert_eq.
  - intros id Hid. unfold promote_candidate. by rewrite Hid.
Qed.

End gate_sets.

(** ** Catalog identities *)

Lemma string_app_inj_length (s1 s2 t1 t2 : string) :
  String.length s1 = String.length s2 → s1 +:+ t1 = s2 +:+ t2 → s1 = s2 ∧ t1 = t2.
Proof.
  revert s2. induction s1 as [|a s1 IH]; intros [|b s2]; simpl; try done.
  rewrite !string_cons_app. intros [= Hlen] [= -> Happ]. by destruct (IH s2 Hlen Happ) as [-> ->].
Qed.

Section identities.
Context `{Sha256ApiLaws}.

Definition index_lines (l : list SectionIndex) : string :=
  foldr (λ index acc, index_str index +:+ nl +:+ acc) "" l.

Lemma foldl_index_lines acc l :
  foldl (λ preimage index, preimage +:+ index_str index +:+ nl) acc l = acc +:+ index_lines l.
Proof.
  revert acc. induction l as [|i l IH]; intros acc; simpl; [by rewrite string_app_nil_r|].
  rewrite IH. by rewrite !string_app_assoc.
Qed.

Lemma SectionIndex_wf_length i : SectionIndex_wf i → String.length (index_str i) = 5%nat.
Proof.
  unfold SectionIndex_wf, validate_section_index. by case_bool_decide.
Qed.

Lemma index_lines_inj l l' :
  Forall SectionIndex_wf l → Forall SectionIndex_wf l' → index_lines l = index_lines l' → l = l'.
Proof.
  intros Hl. revert l'. induction Hl as [|i l Hi Hl IH]; intros l' [|i' l'' Hi' Hl']; simpl;
    rewrite ?string_app_assoc; intros Heq; try done.
  - apply (f_equal String.length) in Heq. rewrite !string_length_app in Heq. simpl in Heq. lia.
  - apply (f_equal String.length) in Heq. rewrite !string_length_app in Heq. simpl in Heq. lia.
  - apply SectionIndex_wf_length in Hi, Hi'.
    apply string_app_inj_length in Heq as [Hhead Htail]; [|rewrite !string_length_app; lia].
    apply string_app_inj_length in Hhead as [Hii _]; [|lia].
    apply (inj index_str) in Hii as ->. by rewrite (IH l'').
Qed.

(** A catalog identity is an exact, re-readable name of a section set: the
    text of a computed identity is accepted by the parser and parses to
    itself, and two lists of well-formed indexes with one identity are equal
    unless they exhibit a collision of the digest. *)
Theorem catalog_set_identity_exact (l l' : list SectionIndex) :
  Forall SectionIndex_wf l → Forall SectionIndex_wf l' →
  CatalogSetIdentity_from_sha256_hex (csi_str (catalog_section_set_identity_v1 l)) =
    Some (catalog_section_set_identity_v1 l) ∧
  (catalog_section_set_identity_v1 l = catalog_section_set_identity_v1 l' →
     l = l' ∨ ∃ x y, x ≠ y ∧ sha256_hex x = sha256_hex y).
Proof.
  intros Hl Hl'. unfold catalog_section_set_identity_v1, CatalogSetIdentity_from_sha256_hex.
  rewrite !foldl_index_lines. simpl. split.
  - rewrite sha256_hex_lower, bool_decide_eq_true_2 by apply sha256_hex_length. done.
  - intros [= Heq]. destruct (decide (l = l')) as [->|Hne]; [by left|]. right.
    eexists _, _. split; [|exact Heq].
    intros Hpre. apply string_app_inj_length in Hpre as [_ Hlines]; [|done].
    by apply Hne, index_lines_inj.
Qed.

End identities.

(** ** Concrete runs *)

Lemma gate_run_trace `{TimeApi, Sha256Api} r0 tr r l ds r' :
  gate_trace r0 tr r → gate_run r l = Some (ds, r') → gate_trace r0 (tr ++ zip l ds) r'.
Proof.
  revert tr r ds. induction l as [|s l IH]; intros tr r ds Htr Hrun; simpl in Hrun.
  - simplify_eq. by rewrite app_nil_r.
  - destruct (observe r s) as [[d r1]|] eqn:Ho; simpl in Hrun; [|done].
    destruct (gate_run r1 l) as [[ds' r2]|] eqn:Hr; simpl in Hrun; [|done]. simplify_eq.
    simpl. rewrite cons_middle, (assoc_L (++)). eapply IH; [|done].
    by eapply gate_trace_snoc.
Qed.

Definition gate_example_id : CatalogSetIdentity := mkCatalogSetIdentity "catalog".

(** Two open sections, [t] seconds after the epoch. *)
Definition gate_example_sample (t : Z) : GateSample := {|
  gs_catalog_identity := gate_example_id;
  gs_observed := {[ mkSectionIndex "00001"; mkSectionIndex "00002" ]};
  gs_observed_at := t * NANOS_PER_SEC
|}.

Definition gate_example_runtime : GateRuntime := GateRuntime_seeded gate_example_id 40.

(** The decisions of a run under the concrete interfaces. *)
Definition gate_example_run (times : list Z) : option (list GateDecision * GateRuntime) :=
  @gate_run concrete_time_api concrete_sha256_api gate_example_runtime
    (gate_example_sample <$> times).

Definition gate_example_kinds (times : list Z) : option (list GateDecisionKind) :=
  option_map (λ p, map gd_kind p.1) (gate_example_run times).

(** A feed stuck at 2 of 40 sections is believed at the fourth snapshot. *)
Example gate_confirms_at_300_seconds :
  gate_example_kinds [0; 120; 240; 300] =
  Some [GateDecisionKind_Suspect; GateDecisionKind_Suspect; GateDecisionKind_Suspect;
        GateDecisionKind_QuarantineConfirm].
Proof. vm_compute. reflexivity. Qed.

(** A silence of 121 seconds starts the evidence over. *)
Example gate_reanchors_after_silence :
  gate_example_kinds [0; 121; 240; 300; 420] =
  Some [GateDecisionKind_Suspect; GateDecisionKind_Suspect; GateDecisionKind_Suspect;
        GateDecisionKind_Suspect; GateDecisionKind_Suspect].
Proof. vm_compute. reflexivity. Qed.

(** A sample half a second in the past does not re-anchor the episode: its gap
    has zero whole seconds. *)
Example gate_accepts_subsecond_rollback :
  @gap_in_range concrete_time_api (- NANOS_PER_SEC / 2) = true.
Proof. reflexivity. Qed.

(** The runtime after the first three snapshots of the run above. *)
Lemma gate_example_run_third :
  ∃ tr r d,
    @gate_trace concrete_time_api concrete_sha256_api gate_example_runtime tr r ∧
    @evaluate concrete_time_api concrete_sha256_api r (gate_example_sample 300) = Some d ∧
    gd_kind d = GateDecisionKind_QuarantineConfirm.
Proof.
  destruct (gate_example_run [0; 120; 240]) as [[ds r]|] eqn:Hrun;
    [|vm_compute in Hrun; discriminate].
  pose proof (@gate_run_trace concrete_time_api concrete_sha256_api gate_example_runtime []
    gate_example_runtime _ ds r (gate_trace_nil _) Hrun) as Htr.
  exists ([] ++ zip (gate_example_sample <$> [0; 120; 240]) ds), r.
  destruct (@evaluate concrete_time_api concrete_sha256_api r (gate_example_sample 300))
    as [d|] eqn:Hd.
  - exists d. split; [exact Htr|]. split; [reflexivity|]. clear Htr.
    vm_compute in Hrun. injection Hrun as <- <-. vm_compute in Hd. injection Hd as <-. reflexivity.
  - exfalso. clear Htr. vm_compute in Hrun. injection Hrun as <- <-. vm_compute in Hd. discriminate.
Defined.

Lemma quarantine_confirm_evidence_witness :
  is_quarantined gate_example_runtime = false ∧
  ∃ tr r d pre past b anchor,
    @gate_trace concrete_time_api concrete_sha256_api gate_example_runtime tr r ∧
    @evaluate concrete_time_api concrete_sha256_api r (gate_example_sample 300) = Some d ∧
    gd_kind d = GateDecisionKind_QuarantineConfirm ∧ tr = pre ++ past ∧
    (3 ≤ length past)%nat ∧ state_baseline (gr_state r) = Some b ∧
    @sustained concrete_time_api b anchor (past.*1 ++ [gate_example_sample 300]).
Proof.
  split; [reflexivity|].
  destruct gate_example_run_third as (tr & r & d & Htr & Hd & Hk).
  destruct (@quarantine_confirm_evidence concrete_time_api concrete_sha256_api
    concrete_time_api_laws gate_example_runtime tr r (gate_example_sample 300) d
    eq_refl Htr Hd Hk) as (pre & past & b & anchor & Htr' & _ & Hlen & Hb & Hs & _).
  exists tr, r, d, pre, past, b, anchor. by split_and!.
Defined.

Lemma gate_decision_spec_witness :
  ∃ d, @evaluate concrete_time_api concrete_sha256_api gate_example_runtime
         (gate_example_sample 0) = Some d ∧
    gd_kind d = GateDecisionKind_Suspect ∧
    gd_catalog_identity d = gate_example_id ∧ gd_observed_intersection_count d = 2.
Proof.
  destruct (@evaluate concrete_time_api concrete_sha256_api gate_example_runtime
    (gate_example_sample 0)) as [d|] eqn:Hd; [|vm_compute in Hd; discriminate].
  exists d. destruct (@gate_decision_spec concrete_time_api concrete_sha256_api _ _ d Hd)
    as (Hid & Hn & _).
  split; [reflexivity|]. split; [vm_compute in Hd; injection Hd as <-; reflexivity|].
  split; [exact Hid|]. rewrite Hn. vm_compute. reflexivity.
Defined.

Lemma gate_run_total_witness :
  let l := gate_example_sample <$> [0; 120; 240; 300] in
  default gate_example_id (catalog_identity gate_example_runtime) = gate_example_id ∧
  0 ≤ gr_epoch gate_example_runtime < 2 ^ 64 ∧
  (∀ s, s ∈ l → gs_catalog_identity s = gate_example_id) ∧
  ∃ ds r', @gate_run concrete_time_api concrete_sha256_api gate_example_runtime l = Some (ds, r')
    ∧ length ds = 4%nat ∧ gr_epoch r' = 4.
Proof.
  intros l.
  assert (default gate_example_id (catalog_identity gate_example_runtime) = gate_example_id) as H1
    by reflexivity.
  assert (0 ≤ gr_epoch gate_example_runtime < 2 ^ 64) as H2 by (simpl; lia).
  assert (∀ s, s ∈ l → gs_catalog_identity s = gate_example_id) as H3.
  { intros s (t & -> & _)%list_elem_of_fmap. reflexivity. }
  split; [exact H1|]. split; [exact H2|]. split; [exact H3|].
  destruct (@gate_run_total concrete_time_api concrete_sha256_api gate_example_runtime
    gate_example_id l H1 H2 H3) as (ds & r' & Hrun & Hlen & _ & Hep & _).
  exists ds, r'. split; [exact Hrun|]. split; [exact Hlen|]. exact Hep.
Defined.

Lemma baseline_window_spec_witness :
  ∃ tr r b,
    (∀ b0, state_baseline (gr_state gate_example_runtime) = Some b0 → be_window b0 = []) ∧
    @gate_trace concrete_time_api concrete_sha256_api gate_example_runtime tr r ∧
    state_baseline (gr_state r) = Some b ∧ be_window b = last_n 16 (applied_counts tr).
Proof.
  destruct gate_example_run_third as (tr & r & d & Htr & _ & _).
  assert (∀ b0, state_baseline (gr_state gate_example_runtime) = Some b0 → be_window b0 = []) as H0
    by (intros b0 [= <-]; reflexivity).
  destruct (state_baseline (gr_state r)) as [b|] eqn:Hb.
  - exists tr, r, b. split; [exact H0|]. split; [exact Htr|]. split; [exact Hb|].
    exact (proj1 (@baseline_window_spec concrete_time_api concrete_sha256_api _ tr r b H0 Htr Hb)).
  - exfalso. inversion Htr as [|tr' r1 s d' r' _ Ho]; simplify_eq.
    apply observe_inv in Ho as (Hd & Hr & _). rewrite Hr in Hb.
    apply state_baseline_next in Hd as [? Hd]. congruence.
Defined.

Lemma threshold_hysteresis_witness :
  0 ≤ 251 ∧ recovered_near_reference 251 227 = true ∧ shrink_is_suspect 251 227 = false ∧
  ∃ n, 0 ≤ n ∧ recovered_near_reference 251 n = false ∧ shrink_is_suspect 251 n = false.
Proof.
  assert (0 ≤ 251) as H0 by lia.
  destruct (threshold_hysteresis 251 H0) as (_ & _ & Hiff).
  split; [exact H0|]. split; [reflexivity|]. split; [reflexivity|]. apply Hiff. lia.
Defined.

Lemma target_gate_set_isolated_witness :
  rtc (@gate_set_step concrete_time_api concrete_sha256_api) TargetGateSet_new
    (promote_candidate gate_example_id TargetGateSet_new) ∧
  is_Some (@evaluate concrete_time_api concrete_sha256_api
    (candidate_mut gate_example_id (Some 40)
       (promote_candidate gate_example_id TargetGateSet_new)).1 (gate_example_sample 0)).
Proof.
  assert (rtc (@gate_set_step concrete_time_api concrete_sha256_api) TargetGateSet_new
    (promote_candidate gate_example_id TargetGateSet_new)) as Hreach
    by (apply rtc_once, gate_set_promote).
  split; [exact Hreach|].
  exact (proj1 (proj2 (@target_gate_set_isolated concrete_time_api concrete_sha256_api _ Hreach))
           (Some 40) (gate_example_sample 0)).
Defined.

Lemma catalog_set_identity_exact_witness :
  Forall SectionIndex_wf [mkSectionIndex "00001"] ∧
  CatalogSetIdentity_from_sha256_hex
    (csi_str (@catalog_section_set_identity_v1 concrete_sha256_api [mkSectionIndex "00001"])) =
  Some (@catalog_section_set_identity_v1 concrete_sha256_api [mkSectionIndex "00001"]).
Proof.
  assert (Forall SectionIndex_wf [mkSectionIndex "00001"]) as Hwf
    by (constructor; [reflexivity|constructor]).
  split; [exact Hwf|].
  exact (proj1 (@catalog_set_identity_exact concrete_sha256_api concrete_sha256_api_laws
    [mkSectionIndex "00001"] [mkSectionIndex "00001"] Hwf Hwf)).
Defined.
