(* ===== verification/Scheduler.v ===== *)
(** * The earliest-deadline-first origin scheduler (crates/bcsp-open/src/scheduler.rs)

    The one scheduler of the upstream origin: the catalog and Open jobs of all
    targets, the origin circuit and the single workflow in flight. An operation takes the scheduler and returns it with
    its result, because some operations change the state before they fail; the
    two operations with an [expect], and the completion, whose addition can
    overflow, return [None] where they panic. *)

From S2P Require Import Prelude Identity Contracts Policy.

(** ** Monotonic time: milliseconds in a [u64] *)

Abbreviation MonotonicTime := Z (only parsing).

Definition MonotonicTime_saturating_add (t : MonotonicTime) (duration : Z) : MonotonicTime :=
  u64_saturating_add t (u64_try_from_or_max (duration_as_millis duration)).

Definition saturating_duration_since (t earlier : MonotonicTime) : Z :=
  duration_from_millis (saturating_sub t earlier).

Definition CATALOG_ONE_SHOT_INTERVAL : Z := duration_from_secs (24 * 60 * 60).

(** ** Jobs *)

Inductive OriginJobKind := OriginJobKind_Catalog | OriginJobKind_Open.

Record OriginJobKey := { ojk_kind : OriginJobKind; ojk_target : TermCampusKey }.

Definition OriginJobKey_catalog (target : TermCampusKey) : OriginJobKey :=
  {| ojk_kind := OriginJobKind_Catalog; ojk_target := target |}.
Definition OriginJobKey_open (target : TermCampusKey) : OriginJobKey :=
  {| ojk_kind := OriginJobKind_Open; ojk_target := target |}.

#[export] Instance OriginJobKind_eq_dec : EqDecision OriginJobKind.
Proof. solve_decision. Defined.
#[export] Instance OriginJobKey_eq_dec : EqDecision OriginJobKey.
Proof. solve_decision. Defined.

Definition kind_rank (k : OriginJobKind) : N :=
  match k with OriginJobKind_Catalog => 0 | OriginJobKind_Open => 1 end.
Definition ojk_tuple (k : OriginJobKey) : N * TermCampusKey := (kind_rank (ojk_kind k), ojk_target k).
Definition ojk_of_tuple (p : N * TermCampusKey) : OriginJobKey :=
  {| ojk_kind := if (p.1 =? 0)%N then OriginJobKind_Catalog else OriginJobKind_Open;
     ojk_target := p.2 |}.

#[export] Instance OriginJobKey_countable : Countable OriginJobKey.
Proof. apply (inj_countable' ojk_tuple ojk_of_tuple). by intros [[] ?]. Defined.

(** The derived order: the kind, then the target. *)
#[export] Instance OriginJobKey_rord : ROrd OriginJobKey := rord_via ojk_tuple.
#[export] Instance ojk_tuple_inj : Inj (=) (=) ojk_tuple.
Proof. by intros [[] ?] [[] ?] [=->]. Qed.
#[export] Instance OriginJobKey_rord_laws : ROrdLaws OriginJobKey.
Proof. apply (rord_via_laws ojk_tuple). Qed.

Inductive OriginSchedulerLane :=
| OriginSchedulerLane_Catalog
| OriginSchedulerLane_OpenGeneral
| OriginSchedulerLane_OpenActiveWatch
| OriginSchedulerLane_OpenFirstLoad
| OriginSchedulerLane_OpenManualRefresh
| OriginSchedulerLane_OpenCatalogRaceRecheck.

#[export] Instance OriginSchedulerLane_eq_dec : EqDecision OriginSchedulerLane.
Proof. solve_decision. Defined.

Definition watched_priority (lane : OriginSchedulerLane) : bool :=
  match lane with OriginSchedulerLane_OpenActiveWatch => true | _ => false end.

Record JobSchedule := {
  js_active : bool;
  js_interval : Z;
  js_next_due : MonotonicTime;
  js_lane : OriginSchedulerLane;
  js_normal_lane : OriginSchedulerLane;
  js_active_watch_count : Z;
  js_recurring : bool;
  js_one_shot_pending : bool;
  js_generation_pending : bool;
  js_last_start : option MonotonicTime;
  js_failure_streak : Z
}.

Inductive JobRegistrationMode := JobRegistrationMode_Recurring | JobRegistrationMode_OneShot.

#[export] Instance JobRegistrationMode_eq_dec : EqDecision JobRegistrationMode.
Proof. solve_decision. Defined.

Record JobRegistration := {
  jr_interval : Z;
  jr_first_due : MonotonicTime;
  jr_normal_lane : OriginSchedulerLane;
  jr_active_watch_count : Z;
  jr_mode : JobRegistrationMode;
  jr_generation_pending : bool
}.

Inductive OriginCircuit :=
| OriginCircuit_Closed
| OriginCircuit_RetryAfter (until : MonotonicTime)
| OriginCircuit_FatalDiagnostic (job : OriginJobKey) (recheck_after : MonotonicTime)
    (authorized : bool).

Record InFlight := {
  if_token : Z;
  if_key : OriginJobKey;
  if_scheduled_due : MonotonicTime;
  if_started_at : MonotonicTime;
  if_diagnostic_probe : bool
}.

Record OriginDispatch := {
  od_token : Z;
  od_key : OriginJobKey;
  od_lane : OriginSchedulerLane;
  od_scheduled_due : MonotonicTime;
  od_started_at : MonotonicTime;
  od_scheduler_lag : Z;
  od_actual_start_to_start_interval : option Z;
  od_requested_interval : Z;
  od_failure_streak : Z;
  od_first_load_one_shot : bool
}.

Record OriginDispatchHint := {
  odh_key : OriginJobKey;
  odh_lane : OriginSchedulerLane;
  odh_scheduled_due : MonotonicTime;
  odh_active_watch_count : Z;
  odh_generation_pending : bool;
  odh_failure_streak : Z
}.

Inductive CompletionSchedule :=
| CompletionSchedule_Success
| CompletionSchedule_CatalogRace
| CompletionSchedule_Retry (directive : RetryDirective).

Inductive SchedulerError :=
| SchedulerError_ZeroInterval
| SchedulerError_UnknownJob
| SchedulerError_InvalidCompletionToken
| SchedulerError_CompletionBeforeStart
| SchedulerError_DiagnosticCooldownActive.

Record OriginEdfScheduler := {
  oes_jobs : gmap OriginJobKey JobSchedule;
  oes_in_flight : option InFlight;
  oes_circuit : OriginCircuit;
  oes_next_token : Z
}.

Definition OriginEdfScheduler_new : OriginEdfScheduler :=
  {| oes_jobs := ∅; oes_in_flight := None; oes_circuit := OriginCircuit_Closed;
     oes_next_token := 0 |}.

(** ** Field updates *)

Definition js_set_lane (lane : OriginSchedulerLane) (j : JobSchedule) : JobSchedule :=
  {| js_active := js_active j; js_interval := js_interval j; js_next_due := js_next_due j;
     js_lane := lane; js_normal_lane := js_normal_lane j;
     js_active_watch_count := js_active_watch_count j; js_recurring := js_recurring j;
     js_one_shot_pending := js_one_shot_pending j;
     js_generation_pending := js_generation_pending j; js_last_start := js_last_start j;
     js_failure_streak := js_failure_streak j |}.

Definition js_set_next_due (due : MonotonicTime) (j : JobSchedule) : JobSchedule :=
  {| js_active := js_active j; js_interval := js_interval j; js_next_due := due;
     js_lane := js_lane j; js_normal_lane := js_normal_lane j;
     js_active_watch_count := js_active_watch_count j; js_recurring := js_recurring j;
     js_one_shot_pending := js_one_shot_pending j;
     js_generation_pending := js_generation_pending j; js_last_start := js_last_start j;
     js_failure_streak := js_failure_streak j |}.

Definition js_set_last_start (at_ : option MonotonicTime) (j : JobSchedule) : JobSchedule :=
  {| js_active := js_active j; js_interval := js_interval j; js_next_due := js_next_due j;
     js_lane := js_lane j; js_normal_lane := js_normal_lane j;
     js_active_watch_count := js_active_watch_count j; js_recurring := js_recurring j;
     js_one_shot_pending := js_one_shot_pending j;
     js_generation_pending := js_generation_pending j; js_last_start := at_;
     js_failure_streak := js_failure_streak j |}.

Definition js_set_active_watch_count (count : Z) (j : JobSchedule) : JobSchedule :=
  {| js_active := js_active j; js_interval := js_interval j; js_next_due := js_next_due j;
     js_lane := js_lane j; js_normal_lane := js_normal_lane j;
     js_active_watch_count := count; js_recurring := js_recurring j;
     js_one_shot_pending := js_one_shot_pending j;
     js_generation_pending := js_generation_pending j; js_last_start := js_last_start j;
     js_failure_streak := js_failure_streak j |}.

Definition set_jobs (jobs : gmap OriginJobKey JobSchedule) (s : OriginEdfScheduler)
    : OriginEdfScheduler :=
  {| oes_jobs := jobs; oes_in_flight := oes_in_flight s; oes_circuit := oes_circuit s;
     oes_next_token := oes_next_token s |}.

Definition set_circuit (circuit : OriginCircuit) (s : OriginEdfScheduler) : OriginEdfScheduler :=
  {| oes_jobs := oes_jobs s; oes_in_flight := oes_in_flight s; oes_circuit := circuit;
     oes_next_token := oes_next_token s |}.

Definition set_in_flight (f : option InFlight) (s : OriginEdfScheduler) : OriginEdfScheduler :=
  {| oes_jobs := oes_jobs s; oes_in_flight := f; oes_circuit := oes_circuit s;
     oes_next_token := oes_next_token s |}.

(** A scheduler operation. *)
Abbreviation sched_result A := (OriginEdfScheduler * result SchedulerError A)%type (only parsing).

(** [self.jobs.get_mut(&key).ok_or(UnknownJob)?], then [f] on the entry. *)
Definition with_job (key : OriginJobKey) (f : JobSchedule → JobSchedule) (s : OriginEdfScheduler)
    : sched_result () :=
  match oes_jobs s !! key with
  | None => (s, Err SchedulerError_UnknownJob)
  | Some schedule => (set_jobs (<[key := f schedule]> (oes_jobs s)) s, Ok ())
  end.

(** ** Registration *)

Definition upsert (key : OriginJobKey) (registration : JobRegistration) (s : OriginEdfScheduler)
    : sched_result () :=
  let recurring := bool_decide (jr_mode registration = JobRegistrationMode_Recurring) in
  let one_shot := bool_decide (jr_mode registration = JobRegistrationMode_OneShot) in
  if bool_decide (jr_interval registration = 0) then (s, Err SchedulerError_ZeroInterval)
  else
    let schedule :=
      match oes_jobs s !! key with
      | Some j => {|
          js_active := true;
          js_interval := jr_interval registration;
          js_next_due := js_next_due j;
          js_lane := jr_normal_lane registration;
          js_normal_lane := jr_normal_lane registration;
          js_active_watch_count := jr_active_watch_count registration;
          js_recurring := js_recurring j || recurring;
          js_one_shot_pending := js_one_shot_pending j || one_shot;
          js_generation_pending := js_generation_pending j || jr_generation_pending registration;
          js_last_start := js_last_start j;
          js_failure_streak := js_failure_streak j |}
      | None => {|
          js_active := true;
          js_interval := jr_interval registration;
          js_next_due := jr_first_due registration;
          js_lane := jr_normal_lane registration;
          js_normal_lane := jr_normal_lane registration;
          js_active_watch_count := jr_active_watch_count registration;
          js_recurring := recurring;
          js_one_shot_pending := one_shot;
          js_generation_pending := jr_generation_pending registration;
          js_last_start := None;
          js_failure_streak := 0 |}
      end in
    (set_jobs (<[key := schedule]> (oes_jobs s)) s, Ok ()).

Definition register_catalog (target : TermCampusKey) (interval : Z) (first_due : MonotonicTime)
    : OriginEdfScheduler → sched_result () :=
  upsert (OriginJobKey_catalog target) {|
    jr_interval := interval; jr_first_due := first_due;
    jr_normal_lane := OriginSchedulerLane_Catalog; jr_active_watch_count := 0;
    jr_mode := JobRegistrationMode_Recurring; jr_generation_pending := false |}.

Definition register_catalog_initial (target : TermCampusKey) (interval active_watch_count : Z)
    (first_due : MonotonicTime) : OriginEdfScheduler → sched_result () :=
  upsert (OriginJobKey_catalog target) {|
    jr_interval := interval; jr_first_due := first_due;
    jr_normal_lane := OriginSchedulerLane_Catalog; jr_active_watch_count := active_watch_count;
    jr_mode := JobRegistrationMode_Recurring; jr_generation_pending := true |}.

Definition register_catalog_one_shot (target : TermCampusKey) (active_watch_count : Z)
    (first_due : MonotonicTime) : OriginEdfScheduler → sched_result () :=
  upsert (OriginJobKey_catalog target) {|
    jr_interval := CATALOG_ONE_SHOT_INTERVAL; jr_first_due := first_due;
    jr_normal_lane := OriginSchedulerLane_Catalog; jr_active_watch_count := active_watch_count;
    jr_mode := JobRegistrationMode_OneShot; jr_generation_pending := true |}.

Definition update_due_for_interval_change (key : OriginJobKey) (now : MonotonicTime)
    (s : OriginEdfScheduler) : OriginEdfScheduler :=
  match oes_jobs s !! key with
  | None => s
  | Some j =>
      let anchored := MonotonicTime_saturating_add (default now (js_last_start j)) (js_interval j) in
      let j' :=
        if watched_priority (js_normal_lane j)
        then js_set_next_due (Z.min (js_next_due j) anchored) j
        else if bool_decide (is_Some (js_last_start j)) then js_set_next_due anchored j
        else j in
      set_jobs (<[key := j']> (oes_jobs s)) s
  end.

Definition open_normal_lane (watched : bool) : OriginSchedulerLane :=
  if watched then OriginSchedulerLane_OpenActiveWatch else OriginSchedulerLane_OpenGeneral.

Definition register_open_with_mode (target : TermCampusKey) (intervals : OpenRefreshIntervals)
    (active_watch_count : Z) (now first_due : MonotonicTime) (recurring : bool)
    (s : OriginEdfScheduler) : sched_result () :=
  let watched := bool_decide (0 < active_watch_count) in
  let key := OriginJobKey_open target in
  let existed := bool_decide (is_Some (oes_jobs s !! key)) in
  match upsert key {|
      jr_interval := effective intervals watched; jr_first_due := first_due;
      jr_normal_lane := open_normal_lane watched; jr_active_watch_count := active_watch_count;
      jr_mode := if recurring then JobRegistrationMode_Recurring else JobRegistrationMode_OneShot;
      jr_generation_pending := negb recurring |} s with
  | (s', Ok _) => (if existed then update_due_for_interval_change key now s' else s', Ok ())
  | (s', Err e) => (s', Err e)
  end.

Definition register_open (target : TermCampusKey) (intervals : OpenRefreshIntervals)
    (active_watch_count : Z) (now first_due : MonotonicTime)
    : OriginEdfScheduler → sched_result () :=
  register_open_with_mode target intervals active_watch_count now first_due true.

Definition register_open_initial (target : TermCampusKey) (intervals : OpenRefreshIntervals)
    (active_watch_count : Z) (now first_due : MonotonicTime) (s : OriginEdfScheduler)
    : option (sched_result ()) :=
  let key := OriginJobKey_open target in
  match register_open_with_mode target intervals active_watch_count now first_due false s with
  | (s', Err e) => Some (s', Err e)
  | (s', Ok _) =>
      if bool_decide (active_watch_count = 0) then
        j ← oes_jobs s' !! key;
        Some (set_jobs (<[key := js_set_lane OriginSchedulerLane_OpenFirstLoad j]> (oes_jobs s')) s',
              Ok ())
      else Some (s', Ok ())
  end.

(** ** Demand and watch counts *)

Definition set_catalog_watch_count (target : TermCampusKey) (active_watch_count : Z)
    : OriginEdfScheduler → sched_result () :=
  with_job (OriginJobKey_catalog target) (js_set_active_watch_count active_watch_count).

Definition activate_catalog (target : TermCampusKey) (interval : Z) (now : MonotonicTime)
    (s : OriginEdfScheduler) : sched_result () :=
  if bool_decide (interval = 0) then (s, Err SchedulerError_ZeroInterval)
  else with_job (OriginJobKey_catalog target) (λ j, {|
    js_active := true;
    js_interval := interval;
    js_next_due := Z.min (js_next_due j) (MonotonicTime_saturating_add now interval);
    js_lane := OriginSchedulerLane_Catalog;
    js_normal_lane := OriginSchedulerLane_Catalog;
    js_active_watch_count := js_active_watch_count j;
    js_recurring := true;
    js_one_shot_pending := js_one_shot_pending j;
    js_generation_pending := js_generation_pending j;
    js_last_start := js_last_start j;
    js_failure_streak := js_failure_streak j |}) s.

(** The lanes are reset before a zero interval is refused. *)
Definition demote_catalog (target : TermCampusKey) (maintenance_interval : option Z)
    (now : MonotonicTime) (s : OriginEdfScheduler) : sched_result () :=
  let key := OriginJobKey_catalog target in
  match oes_jobs s !! key with
  | None => (s, Err SchedulerError_UnknownJob)
  | Some j =>
      let commit active interval next_due recurring :=
        set_jobs (<[key := {|
          js_active := active;
          js_interval := interval;
          js_next_due := next_due;
          js_lane := OriginSchedulerLane_Catalog;
          js_normal_lane := OriginSchedulerLane_Catalog;
          js_active_watch_count := js_active_watch_count j;
          js_recurring := recurring;
          js_one_shot_pending := js_one_shot_pending j;
          js_generation_pending := js_generation_pending j;
          js_last_start := js_last_start j;
          js_failure_streak := js_failure_streak j |}]> (oes_jobs s)) s in
      match maintenance_interval with
      | Some interval =>
          if bool_decide (interval ≠ 0) then
            (commit true interval
               (match js_last_start j with
                | None => MonotonicTime_saturating_add now interval
                | Some last => MonotonicTime_saturating_add last interval
                end) true, Ok ())
          else (commit (js_active j) (js_interval j) (js_next_due j) (js_recurring j),
                Err SchedulerError_ZeroInterval)
      | None =>
          (commit (js_generation_pending j || js_one_shot_pending j) (js_interval j)
             (js_next_due j) false, Ok ())
      end
  end.

Definition activate_open (target : TermCampusKey) (intervals : OpenRefreshIntervals)
    (now : MonotonicTime) : OriginEdfScheduler → sched_result () :=
  with_job (OriginJobKey_open target) (λ j,
    let watched := bool_decide (0 < js_active_watch_count j) in
    let was_active := js_active j in
    {| js_active := true;
       js_interval := effective intervals watched;
       js_next_due := if negb was_active && bool_decide (js_next_due j < now) then now
                      else js_next_due j;
       js_lane := if negb (js_one_shot_pending j) || negb was_active
                  then open_normal_lane watched else js_lane j;
       js_normal_lane := open_normal_lane watched;
       js_active_watch_count := js_active_watch_count j;
       js_recurring := true;
       js_one_shot_pending := js_one_shot_pending j;
       js_generation_pending := js_generation_pending j;
       js_last_start := js_last_start j;
       js_failure_streak := js_failure_streak j |}).

Definition demote_open (target : TermCampusKey) (intervals : OpenRefreshIntervals)
    (active_watch_count : Z) (now : MonotonicTime) : OriginEdfScheduler → sched_result () :=
  with_job (OriginJobKey_open target) (λ j,
    let watched := bool_decide (0 < active_watch_count) in
    {| js_active := if watched then true else js_one_shot_pending j;
       js_interval := effective intervals watched;
       js_next_due := if watched && bool_decide (js_next_due j < now) then now else js_next_due j;
       js_lane := if watched then OriginSchedulerLane_OpenActiveWatch
                  else if js_one_shot_pending j then OriginSchedulerLane_OpenFirstLoad
                  else js_lane j;
       js_normal_lane := open_normal_lane watched;
       js_active_watch_count := active_watch_count;
       js_recurring := watched;
       js_one_shot_pending := js_one_shot_pending j;
       js_generation_pending := js_generation_pending j;
       js_last_start := js_last_start j;
       js_failure_streak := js_failure_streak j |}).

Definition set_open_watch_count (target : TermCampusKey) (intervals : OpenRefreshIntervals)
    (active_watch_count : Z) (now : MonotonicTime) : OriginEdfScheduler → sched_result () :=
  with_job (OriginJobKey_open target) (λ j,
    let previously_watched := bool_decide (0 < js_active_watch_count j) in
    let was_active := js_active j in
    let watched := bool_decide (0 < active_watch_count) in
    let interval := effective intervals watched in
    let anchored := MonotonicTime_saturating_add (default now (js_last_start j)) interval in
    let raised := Z.min (js_next_due j) anchored in
    {| js_active := if watched && negb previously_watched then true
                    else if negb watched && previously_watched
                    then js_recurring j || js_one_shot_pending j
                    else js_active j;
       js_interval := interval;
       js_next_due := if watched && negb previously_watched then
                        if negb was_active && bool_decide (raised < now) then now else raised
                      else if negb watched && previously_watched then anchored
                      else js_next_due j;
       js_lane := if watched || negb (js_one_shot_pending j) then open_normal_lane watched
                  else js_lane j;
       js_normal_lane := open_normal_lane watched;
       js_active_watch_count := active_watch_count;
       js_recurring := js_recurring j;
       js_one_shot_pending := js_one_shot_pending j;
       js_generation_pending := js_generation_pending j;
       js_last_start := js_last_start j;
       js_failure_streak := js_failure_streak j |}).

(** ** Explicit requests *)

Definition request_open_due (target : TermCampusKey) (due : MonotonicTime)
    (lane : OriginSchedulerLane) (s : OriginEdfScheduler) : sched_result () :=
  let key := OriginJobKey_open target in
  match oes_jobs s !! key with
  | None => (s, Err SchedulerError_UnknownJob)
  | Some j =>
      if bool_decide (if_key <$> oes_in_flight s = Some key) then (s, Ok ())
      else
        (set_jobs (<[key := {|
           js_active := true;
           js_interval := js_interval j;
           js_next_due := if js_active j then Z.min (js_next_due j) due else due;
           js_lane := if bool_decide (0 < js_active_watch_count j)
                      then OriginSchedulerLane_OpenActiveWatch else lane;
           js_normal_lane := js_normal_lane j;
           js_active_watch_count := js_active_watch_count j;
           js_recurring := js_recurring j;
           js_one_shot_pending := if negb (js_recurring j) then true else js_one_shot_pending j;
           js_generation_pending := js_generation_pending j;
           js_last_start := js_last_start j;
           js_failure_streak := js_failure_streak j |}]> (oes_jobs s)) s, Ok ())
  end.

(** The schedule of the job a manual retry selected: due now. *)
Definition schedule_manual_retry (key : OriginJobKey) (now : MonotonicTime)
    (s : OriginEdfScheduler) : sched_result (option OriginJobKind) :=
  match oes_jobs s !! key with
  | None => (s, Err SchedulerError_UnknownJob)
  | Some j =>
      (set_jobs (<[key := {|
         js_active := true;
         js_interval := js_interval j;
         js_next_due := now;
         js_lane := match ojk_kind key with
                    | OriginJobKind_Catalog => OriginSchedulerLane_Catalog
                    | OriginJobKind_Open =>
                        if bool_decide (0 < js_active_watch_count j)
                        then OriginSchedulerLane_OpenActiveWatch
                        else OriginSchedulerLane_OpenManualRefresh
                    end;
         js_normal_lane := js_normal_lane j;
         js_active_watch_count := js_active_watch_count j;
         js_recurring := js_recurring j;
         js_one_shot_pending := if negb (js_recurring j) then true else js_one_shot_pending j;
         js_generation_pending := js_generation_pending j;
         js_last_start := js_last_start j;
         js_failure_streak := js_failure_streak j |}]> (oes_jobs s)) s,
       Ok (Some (ojk_kind key)))
  end.

Definition request_manual_target_retry (target : TermCampusKey) (now : MonotonicTime)
    (s : OriginEdfScheduler) : sched_result (option OriginJobKind) :=
  if bool_decide (is_Some (oes_in_flight s)) then (s, Ok None)
  else
    match oes_circuit s with
    | OriginCircuit_Closed => schedule_manual_retry (OriginJobKey_catalog target) now s
    | OriginCircuit_RetryAfter until =>
        if bool_decide (now < until) then (s, Ok None)
        else schedule_manual_retry (OriginJobKey_catalog target) now
               (set_circuit OriginCircuit_Closed s)
    | OriginCircuit_FatalDiagnostic job _ _ =>
        if bool_decide (ojk_target job = target)
        then schedule_manual_retry job now
               (set_circuit (OriginCircuit_FatalDiagnostic job now true) s)
        else (s, Ok None)
    end.

Definition complete_open_bootstrap (target : TermCampusKey) (completed_at : MonotonicTime)
    : OriginEdfScheduler → sched_result () :=
  with_job (OriginJobKey_open target) (λ j,
    {| js_active := js_recurring j || bool_decide (0 < js_active_watch_count j);
       js_interval := js_interval j;
       js_next_due := MonotonicTime_saturating_add completed_at (js_interval j);
       js_lane := js_normal_lane j;
       js_normal_lane := js_normal_lane j;
       js_active_watch_count := js_active_watch_count j;
       js_recurring := js_recurring j;
       js_one_shot_pending := false;
       js_generation_pending := false;
       js_last_start := js_last_start j;
       js_failure_streak := 0 |}).

Definition adopt_external_open_state (target : TermCampusKey) (now next_due : MonotonicTime)
    (failure_streak : Z) : OriginEdfScheduler → sched_result () :=
  with_job (OriginJobKey_open target) (λ j,
    {| js_active := js_recurring j || bool_decide (0 < js_active_watch_count j);
       js_interval := js_interval j;
       js_next_due := next_due;
       js_lane := js_normal_lane j;
       js_normal_lane := js_normal_lane j;
       js_active_watch_count := js_active_watch_count j;
       js_recurring := js_recurring j;
       js_one_shot_pending := false;
       js_generation_pending := false;
       js_last_start := Some now;
       js_failure_streak := failure_streak |}).

(** ** Selection *)

Inductive DispatchPriority :=
| DispatchPriority_ActiveWatchOpen
| DispatchPriority_WatchedCatalogPrerequisite
| DispatchPriority_Generation
| DispatchPriority_Recovery
| DispatchPriority_Ordinary.

Definition priority_rank (p : DispatchPriority) : N :=
  match p with
  | DispatchPriority_ActiveWatchOpen => 0
  | DispatchPriority_WatchedCatalogPrerequisite => 1
  | DispatchPriority_Generation => 2
  | DispatchPriority_Recovery => 3
  | DispatchPriority_Ordinary => 4
  end.

Definition dispatch_priority (key : OriginJobKey) (schedule : JobSchedule) : DispatchPriority :=
  if bool_decide (0 < js_active_watch_count schedule)
     && bool_decide (ojk_kind key = OriginJobKind_Catalog) && js_generation_pending schedule
  then DispatchPriority_WatchedCatalogPrerequisite
  else if bool_decide (0 < js_active_watch_count schedule)
          && bool_decide (ojk_kind key = OriginJobKind_Open)
  then DispatchPriority_ActiveWatchOpen
  else if js_generation_pending schedule then DispatchPriority_Generation
  else if bool_decide (0 < js_failure_streak schedule) then DispatchPriority_Recovery
  else DispatchPriority_Ordinary.

Definition compare_due_jobs (left_key : OriginJobKey) (left : JobSchedule)
    (right_key : OriginJobKey) (right : JobSchedule) : comparison :=
  let priority := rcmp (priority_rank (dispatch_priority left_key left))
                       (priority_rank (dispatch_priority right_key right)) in
  if bool_decide (priority ≠ Eq) then priority
  else cmp_then (rcmp (js_next_due left) (js_next_due right)) (rcmp left_key right_key).

(** The earliest due job: filter, then [min_by]. *)
Definition select_due_job (now : MonotonicTime) (s : OriginEdfScheduler)
    : option (OriginJobKey * JobSchedule) :=
  min_by (λ l r, compare_due_jobs l.1 l.2 r.1 r.2)
    (filter (λ kv, js_active kv.2 ∧ js_next_due kv.2 ≤ now) (btm_iter (oes_jobs s))).

(** The circuit's verdict at [now]: no dispatch, any job, or one job only. *)
Inductive CircuitGate :=
| CircuitGate_Blocked
| CircuitGate_Any
| CircuitGate_Probe (job : OriginJobKey).

Definition circuit_gate (now : MonotonicTime) (circuit : OriginCircuit) : CircuitGate :=
  match circuit with
  | OriginCircuit_Closed => CircuitGate_Any
  | OriginCircuit_RetryAfter until =>
      if bool_decide (until ≤ now) then CircuitGate_Any else CircuitGate_Blocked
  | OriginCircuit_FatalDiagnostic job recheck_after authorized =>
      if authorized && bool_decide (recheck_after ≤ now) then CircuitGate_Probe job
      else CircuitGate_Blocked
  end.

(** The circuit after the verdict: an elapsed [RetryAfter] closes. *)
Definition circuit_settle (now : MonotonicTime) (circuit : OriginCircuit) : OriginCircuit :=
  match circuit with
  | OriginCircuit_RetryAfter until =>
      if bool_decide (until ≤ now) then OriginCircuit_Closed else circuit
  | _ => circuit
  end.

(** The job the verdict selects. *)
Definition choose_job (now : MonotonicTime) (s : OriginEdfScheduler)
    : option (OriginJobKey * JobSchedule) :=
  match circuit_gate now (oes_circuit s) with
  | CircuitGate_Blocked => None
  | CircuitGate_Probe key =>
      schedule ← oes_jobs s !! key;
      if bool_decide (now < js_next_due schedule) then None else Some (key, schedule)
  | CircuitGate_Any => select_due_job now s
  end.

Definition start_next (now : MonotonicTime) (s : OriginEdfScheduler)
    : option (OriginEdfScheduler * option OriginDispatch) :=
  if bool_decide (is_Some (oes_in_flight s)) then Some (s, None)
  else
    let diagnostic_probe :=
      match circuit_gate now (oes_circuit s) with CircuitGate_Probe _ => true | _ => false end in
    let s := set_circuit (circuit_settle now (oes_circuit s)) s in
    match choose_job now s with
    | None => Some (s, None)
    | Some (key, schedule) =>
        let token := Z.max (u64_saturating_add (oes_next_token s) 1) 1 in
        registered ← oes_jobs s !! key;
        let s' := {|
          oes_jobs := <[key := js_set_last_start (Some now) registered]> (oes_jobs s);
          oes_in_flight := Some {|
            if_token := token; if_key := key; if_scheduled_due := js_next_due schedule;
            if_started_at := now; if_diagnostic_probe := diagnostic_probe |};
          oes_circuit :=
            match oes_circuit s with
            | OriginCircuit_FatalDiagnostic job recheck_after authorized =>
                OriginCircuit_FatalDiagnostic job recheck_after
                  (if diagnostic_probe then false else authorized)
            | circuit => circuit
            end;
          oes_next_token := token |} in
        Some (s', Some {|
          od_token := token;
          od_key := key;
          od_lane := js_lane schedule;
          od_scheduled_due := js_next_due schedule;
          od_started_at := now;
          od_scheduler_lag := saturating_duration_since now (js_next_due schedule);
          od_actual_start_to_start_interval :=
            saturating_duration_since now <$> js_last_start schedule;
          od_requested_interval := js_interval schedule;
          od_failure_streak := js_failure_streak schedule;
          od_first_load_one_shot :=
            bool_decide (ojk_kind key = OriginJobKind_Open) && js_one_shot_pending schedule
            && negb (js_recurring schedule) |})
    end.

Definition next_dispatch_hint (now : MonotonicTime) (s : OriginEdfScheduler)
    : option OriginDispatchHint :=
  if bool_decide (is_Some (oes_in_flight s)) then None
  else
    '(key, schedule) ← choose_job now s;
    Some {| odh_key := key;
            odh_lane := js_lane schedule;
            odh_scheduled_due := js_next_due schedule;
            odh_active_watch_count := js_active_watch_count schedule;
            odh_generation_pending := js_generation_pending schedule;
            odh_failure_streak := js_failure_streak schedule |}.

(** ** Completion *)

Definition first_future_due (scheduled_due : MonotonicTime) (interval : Z)
    (completed_at : MonotonicTime) : option MonotonicTime :=
  if bool_decide (completed_at < scheduled_due) then Some scheduled_due
  else
    let interval_millis := Z.max (u64_try_from_or_max (duration_as_millis interval)) 1 in
    let elapsed := saturating_sub completed_at scheduled_due in
    steps ← u64_add (elapsed / interval_millis) 1;
    Some (u64_saturating_add scheduled_due (u64_saturating_mul steps interval_millis)).

(** The schedule's streak and due time after a completion; the due time of a
    job that keeps its cadence can overflow. *)
Definition completion_streak (completion : CompletionSchedule) : Z :=
  match completion with
  | CompletionSchedule_Success | CompletionSchedule_CatalogRace => 0
  | CompletionSchedule_Retry directive => rd_next_failure_streak directive
  end.

Definition completion_due (f : InFlight) (interval : Z) (completed_at : MonotonicTime)
    (completion : CompletionSchedule) : option MonotonicTime :=
  match completion with
  | CompletionSchedule_Success | CompletionSchedule_CatalogRace =>
      first_future_due (if_scheduled_due f) interval completed_at
  | CompletionSchedule_Retry directive =>
      Some (MonotonicTime_saturating_add completed_at (rd_delay directive))
  end.

(** The circuit after a completion; [next_due] is the schedule's new due time. *)
Definition completion_circuit (f : InFlight) (next_due : MonotonicTime)
    (completion : CompletionSchedule) (circuit : OriginCircuit) : OriginCircuit :=
  match completion with
  | CompletionSchedule_Success | CompletionSchedule_CatalogRace =>
      if if_diagnostic_probe f then OriginCircuit_Closed else circuit
  | CompletionSchedule_Retry directive =>
      let circuit :=
        match rd_mode directive with
        | RetryMode_Automatic => circuit
        | RetryMode_OriginCircuit => OriginCircuit_RetryAfter next_due
        | RetryMode_ExplicitDiagnosticRecheck =>
            OriginCircuit_FatalDiagnostic (if_key f) next_due false
        end in
      let automatic := bool_decide (rd_mode directive = RetryMode_Automatic) in
      if if_diagnostic_probe f && automatic && rd_clears_fatal_diagnostic directive
      then OriginCircuit_Closed
      else if if_diagnostic_probe f && automatic && negb (rd_clears_fatal_diagnostic directive)
      then OriginCircuit_FatalDiagnostic (if_key f) next_due false
      else circuit
  end.

(** A missing job is reported after the workflow was taken out of flight. *)
Definition finish (token : Z) (completed_at : MonotonicTime) (completion : CompletionSchedule)
    (s : OriginEdfScheduler) : option (sched_result ()) :=
  match oes_in_flight s with
  | None => Some (s, Err SchedulerError_InvalidCompletionToken)
  | Some f =>
      if bool_decide (if_token f ≠ token) then Some (s, Err SchedulerError_InvalidCompletionToken)
      else if bool_decide (completed_at < if_started_at f)
      then Some (s, Err SchedulerError_CompletionBeforeStart)
      else
        match oes_jobs s !! if_key f with
        | None => Some (set_in_flight None s, Err SchedulerError_UnknownJob)
        | Some j =>
            next_due ← completion_due f (js_interval j) completed_at completion;
            let success := match completion with CompletionSchedule_Success => true | _ => false end in
            let one_shot_done := success && js_one_shot_pending j in
            let schedule := {|
              js_active :=
                if one_shot_done
                then js_recurring j
                     || (bool_decide (ojk_kind (if_key f) = OriginJobKind_Open)
                         && bool_decide (0 < js_active_watch_count j))
                else js_active j;
              js_interval := js_interval j;
              js_next_due := next_due;
              js_lane := js_normal_lane j;
              js_normal_lane := js_normal_lane j;
              js_active_watch_count := js_active_watch_count j;
              js_recurring := js_recurring j;
              js_one_shot_pending := if one_shot_done then false else js_one_shot_pending j;
              js_generation_pending := if success then false else js_generation_pending j;
              js_last_start := js_last_start j;
              js_failure_streak := completion_streak completion |} in
            Some ({| oes_jobs := <[if_key f := schedule]> (oes_jobs s);
                     oes_in_flight := None;
                     oes_circuit := completion_circuit f next_due completion (oes_circuit s);
                     oes_next_token := oes_next_token s |}, Ok ())
        end
  end.

Definition authorize_diagnostic_recheck (now : MonotonicTime) (s : OriginEdfScheduler)
    : sched_result () :=
  match oes_circuit s with
  | OriginCircuit_FatalDiagnostic job recheck_after _ =>
      if bool_decide (recheck_after ≤ now)
      then (set_circuit (OriginCircuit_FatalDiagnostic job recheck_after true) s, Ok ())
      else (s, Err SchedulerError_DiagnosticCooldownActive)
  | OriginCircuit_Closed | OriginCircuit_RetryAfter _ => (s, Ok ())
  end.

(** ** Accessors *)

Definition in_flight (s : OriginEdfScheduler) : option OriginJobKey := if_key <$> oes_in_flight s.

Definition next_due (key : OriginJobKey) (s : OriginEdfScheduler) : option MonotonicTime :=
  js_next_due <$> (schedule ← oes_jobs s !! key; if js_active schedule then Some schedule else None).

Definition is_active (key : OriginJobKey) (s : OriginEdfScheduler) : bool :=
  match oes_jobs s !! key with Some schedule => js_active schedule | None => false end.

Definition active_watch_count (target : TermCampusKey) (s : OriginEdfScheduler) : option Z :=
  js_active_watch_count <$> oes_jobs s !! OriginJobKey_open target.

Definition failure_streak (key : OriginJobKey) (s : OriginEdfScheduler) : option Z :=
  js_failure_streak <$> oes_jobs s !! key.

(** ** Restoring a persisted due time *)

Definition i128_saturating_sub (a b : Z) : Z := Z.max (- 2 ^ 127) (Z.min (a - b) (2 ^ 127 - 1)).

Definition restore_monotonic_due (now_monotonic now_wall_millis persisted_due_wall_millis : Z)
    : MonotonicTime :=
  let remaining := Z.max (i128_saturating_sub persisted_due_wall_millis now_wall_millis) 0 in
  u64_saturating_add now_monotonic (u64_try_from_or_max remaining).
