(* ===== verification/SchedulerFacts.v ===== *)
(** * Correctness of the origin scheduler

    Theorems on the definitions of [Scheduler]: which job is dispatched, the
    agreement of the hint, completions and the drift-free cadence, the
    invariant of all reachable schedulers, serial dispatch with increasing
    tokens, and what the origin circuits block. *)

From S2P Require Import Prelude Identity Contracts Policy Scheduler.

(** ** The dispatch order *)

Definition due_key (kv : OriginJobKey * JobSchedule) : N * (Z * OriginJobKey) :=
  (priority_rank (dispatch_priority kv.1 kv.2), (js_next_due kv.2, kv.1)).

Lemma compare_due_jobs_rcmp l r :
  compare_due_jobs l.1 l.2 r.1 r.2 = rcmp (due_key l) (due_key r).
Proof.
  unfold compare_due_jobs, due_key.
  change (rcmp (A:=N * (Z * OriginJobKey))) with
    (prod_rord (A:=N) (B:=Z * OriginJobKey)).
  unfold prod_rord at 1; cbn [fst snd].
  by destruct (rcmp (priority_rank (dispatch_priority l.1 l.2)) _).
Qed.

(** A job that may be dispatched. *)
Definition due_now (now : MonotonicTime) (s : OriginEdfScheduler) (key : OriginJobKey)
    (j : JobSchedule) : Prop :=
  oes_jobs s !! key = Some j ∧ js_active j = true ∧ js_next_due j ≤ now.

Lemma elem_of_due_jobs now s key j :
  (key, j) ∈ filter (λ kv, js_active kv.2 ∧ js_next_due kv.2 ≤ now) (btm_iter (oes_jobs s))
  ↔ due_now now s key j.
Proof.
  rewrite list_elem_of_filter, elem_of_btm_iter. unfold due_now; simpl.
  rewrite Is_true_true. tauto.
Qed.

Lemma select_due_job_Some now s key j :
  select_due_job now s = Some (key, j) →
  due_now now s key j ∧
  ∀ key' j', due_now now s key' j' → key' ≠ key → compare_due_jobs key j key' j' = Lt.
Proof.
  unfold select_due_job. intros Hmin. apply min_by_spec in Hmin as [Hin Hle].
  - apply elem_of_due_jobs in Hin. split; [done|]. intros key' j' Hdue Hne.
    apply elem_of_due_jobs, Hle in Hdue.
    rewrite compare_due_jobs_rcmp in Hdue.
    change key with (key, j).1. change j with (key, j).2 at 2.
    change key' with (key', j').1. change j' with (key', j').2 at 2. 
    rewrite compare_due_jobs_rcmp.
    destruct (rcmp (due_key (key, j)) (due_key (key', j'))) eqn:E; [|done|done].
    apply rcmp_eq in E. unfold due_key in E. simpl in E. by simplify_eq.
  - intros [k a]. rewrite compare_due_jobs_rcmp, rcmp_refl. done.
  - intros a b. rewrite !compare_due_jobs_rcmp, rcmp_gt_lt. intros ->. done.
  - intros a b c. rewrite !compare_due_jobs_rcmp. apply (transitivity (R:=rle)).
Qed.

Lemma select_due_job_None now s :
  select_due_job now s = None ↔ ∀ key j, ¬ due_now now s key j.
Proof.
  unfold select_due_job. rewrite min_by_None. split.
  - intros Hnil key j Hdue. apply elem_of_due_jobs in Hdue. rewrite Hnil in Hdue.
    by apply elem_of_nil in Hdue.
  - intros Hnone. destruct (filter _ _) as [|[key j] l] eqn:E; [done|].
    destruct (Hnone key j). apply elem_of_due_jobs. rewrite E. by left.
Qed.

Lemma choose_job_registered now s key j :
  choose_job now s = Some (key, j) → oes_jobs s !! key = Some j ∧ js_next_due j ≤ now.
Proof.
  unfold choose_job. destruct (circuit_gate _ _); [done| |].
  - intros [(? & ? & ?) _]%select_due_job_Some. done.
  - destruct (oes_jobs s !! job) as [j'|] eqn:E; simpl; [|done].
    case_bool_decide; [done|]. intros. simplify_eq. split; [done|lia].
Qed.

Lemma circuit_gate_settle now c : circuit_gate now (circuit_settle now c) = circuit_gate now c.
Proof. destruct c as [|until|]; simpl; [done| |done]. case_bool_decide; [done|]. simpl. by rewrite bool_decide_eq_false_2. Qed.

Lemma choose_job_settle now s :
  choose_job now (set_circuit (circuit_settle now (oes_circuit s)) s) = choose_job now s.
Proof.
  unfold choose_job. simpl. rewrite circuit_gate_settle. done.
Qed.

(** *** The dispatch order, written out apart from the code *)

(** The class of a job: work that someone watches, then what a new generation
    waits for, then the recovery of a failed job, then everything else. *)
Definition urgency (key : OriginJobKey) (j : JobSchedule) : Z :=
  match ojk_kind key, bool_decide (0 < js_active_watch_count j), js_generation_pending j with
  | OriginJobKind_Open, true, _ => 0
  | OriginJobKind_Catalog, true, true => 1
  | _, _, true => 2
  | _, _, false => if bool_decide (0 < js_failure_streak j) then 3 else 4
  end.

(** Catalog jobs before Open jobs, then by term, then by campus. *)
Definition key_before (key key' : OriginJobKey) : Prop :=
  ojk_kind key = OriginJobKind_Catalog ∧ ojk_kind key' = OriginJobKind_Open ∨
  ojk_kind key = ojk_kind key' ∧
  let term k := term_str (tck_term (ojk_target k)) in
  let campus k := campus_str (tck_campus (ojk_target k)) in
  (String.compare (term key) (term key') = Lt ∨
   term key = term key' ∧ String.compare (campus key) (campus key') = Lt).

(** The more urgent class first, in a class the earlier due time, at one time
    the smaller key. *)
Definition goes_before (key : OriginJobKey) (j : JobSchedule) (key' : OriginJobKey) (j' : JobSchedule) : Prop :=
  urgency key j < urgency key' j' ∨
  urgency key j = urgency key' j' ∧
  (js_next_due j < js_next_due j' ∨ js_next_due j = js_next_due j' ∧ key_before key key').

(** A job that may be started at [now]: nothing is in flight, the job is due,
    and either no circuit stands in the way of an active job, or an authorized
    recheck of this very job is past its cooldown. *)
Inductive may_start (now : MonotonicTime) (s : OriginEdfScheduler) (key : OriginJobKey) (j : JobSchedule) : Prop :=
| may_start_any :
    oes_in_flight s = None → oes_jobs s !! key = Some j → js_next_due j ≤ now → js_active j = true →
    oes_circuit s = OriginCircuit_Closed ∨ (∃ until, oes_circuit s = OriginCircuit_RetryAfter until ∧ until ≤ now) →
    may_start now s key j
| may_start_probe recheck :
    oes_in_flight s = None → oes_jobs s !! key = Some j → js_next_due j ≤ now →
    oes_circuit s = OriginCircuit_FatalDiagnostic key recheck true → recheck ≤ now →
    may_start now s key j.

Lemma urgency_rank key j : urgency key j = Z.of_N (priority_rank (dispatch_priority key j)).
Proof.
  unfold urgency, dispatch_priority. destruct (ojk_kind key), (js_generation_pending j); repeat case_bool_decide; done.
Qed.

Lemma key_before_rcmp key key' : rcmp key key' = Lt ↔ key_before key key'.
Proof.
  change (rcmp key key') with
    (cmp_then (kind_rank (ojk_kind key) ?= kind_rank (ojk_kind key'))%N
       (cmp_then (String.compare (term_str (tck_term (ojk_target key))) (term_str (tck_term (ojk_target key'))))
          (String.compare (campus_str (tck_campus (ojk_target key))) (campus_str (tck_campus (ojk_target key')))))).
  assert (∀ x y, String.compare x y = Eq ↔ x = y) as Heq by (intros x y; exact (rcmp_eq (A:=string) x y)).
  rewrite !cmp_then_Lt, !Heq. unfold key_before. cbn zeta.
  destruct (ojk_kind key), (ojk_kind key'); cbn; naive_solver.
Qed.

Lemma compare_due_jobs_before key j key' j' : compare_due_jobs key j key' j' = Lt ↔ goes_before key j key' j'.
Proof.
  pose proof (compare_due_jobs_rcmp (key, j) (key', j')) as Hc. cbn [fst snd] in Hc. rewrite Hc. clear Hc.
  change (cmp_then (rcmp (priority_rank (dispatch_priority key j)) (priority_rank (dispatch_priority key' j')))
    (cmp_then (rcmp (js_next_due j) (js_next_due j')) (rcmp key key')) = Lt ↔ goes_before key j key' j').
  rewrite !cmp_then_Lt, !rcmp_eq, key_before_rcmp. unfold goes_before. rewrite !urgency_rank.
  change (rcmp (A:=N)) with N.compare. change (rcmp (A:=Z)) with Z.compare. rewrite N.compare_lt_iff, Z.compare_lt_iff.
  naive_solver lia.
Qed.

(** A job the scheduler may dispatch at [now]. *)
Definition dispatchable (now : MonotonicTime) (s : OriginEdfScheduler) (key : OriginJobKey)
    (j : JobSchedule) : Prop :=
  oes_in_flight s = None ∧
  match circuit_gate now (oes_circuit s) with
  | CircuitGate_Blocked => False
  | CircuitGate_Any => due_now now s key j
  | CircuitGate_Probe job => key = job ∧ oes_jobs s !! key = Some j ∧ js_next_due j ≤ now
  end.

Lemma choose_job_dispatchable now s :
  oes_in_flight s = None →
  match choose_job now s with
  | None => ∀ key j, ¬ dispatchable now s key j
  | Some (key, j) => dispatchable now s key j ∧
      ∀ key' j', dispatchable now s key' j' → key' ≠ key → compare_due_jobs key j key' j' = Lt
  end.
Proof.
  intros Hidle. unfold choose_job, dispatchable.
  destruct (circuit_gate now (oes_circuit s)) as [| |job].
  - naive_solver.
  - destruct (select_due_job now s) as [[key j]|] eqn:E.
    + apply select_due_job_Some in E as [? Hmin]. split; [done|]. intros ?? [_ ?]. by apply Hmin.
    + rewrite select_due_job_None in E. intros key j [_ ?]. by destruct (E key j).
  - destruct (oes_jobs s !! job) as [j|] eqn:E; simpl; [|naive_solver].
    case_bool_decide; [|split; [split_and!; [done..|lia]|naive_solver]].
    intros key j' (_ & -> & Hj & ?). rewrite E in Hj. simplify_eq. lia.
Qed.

Lemma circuit_settle_cases now c :
  circuit_settle now c = c ∨
  circuit_settle now c = OriginCircuit_Closed ∧ ∃ until, c = OriginCircuit_RetryAfter until ∧ until ≤ now.
Proof. destruct c; simpl; [by left| |by left]. case_bool_decide; [right; eauto|by left]. Qed.

Lemma may_start_dispatchable now s key j : may_start now s key j ↔ dispatchable now s key j.
Proof.
  unfold dispatchable, due_now. split.
  - intros [Hi Hj Hd Ha Hc|recheck Hi Hj Hd -> Hr]; (split; [done|]).
    + destruct Hc as [->|(until & -> & Hu)]; simpl; [done|]. by rewrite bool_decide_eq_true_2.
    + simpl. by rewrite bool_decide_eq_true_2.
  - intros [Hi Hg]. destruct (oes_circuit s) as [|until|job recheck authorized] eqn:Hc; simpl in Hg.
    + destruct Hg as (? & ? & ?). apply may_start_any; [done..|by left].
    + case_bool_decide; [|done]. destruct Hg as (? & ? & ?). apply may_start_any; [done..|]. right. eauto.
    + destruct authorized; [|done]. simpl in Hg. case_bool_decide; [|done]. destruct Hg as (-> & ? & ?).
      by eapply may_start_probe.
Qed.

Lemma choose_job_may_start now s :
  oes_in_flight s = None →
  match choose_job now s with
  | None => ∀ key j, ¬ may_start now s key j
  | Some (key, j) => may_start now s key j ∧
      ∀ key' j', may_start now s key' j' → key' ≠ key → goes_before key j key' j'
  end.
Proof.
  intros Hidle. pose proof (choose_job_dispatchable now s Hidle) as Hsel.
  destruct (choose_job now s) as [[key j]|].
  - destruct Hsel as [Hd Hmin]. split; [by apply may_start_dispatchable|].
    intros key' j' Hs Hne. by apply compare_due_jobs_before, Hmin; [apply may_start_dispatchable|].
  - intros key j Hs%may_start_dispatchable. by eapply Hsel.
Qed.

(** C33. Dispatch is total, exclusive and earliest-deadline-first: [start_next]
    never panics; it starts nothing exactly when no job may be started, and
    then changes no job; otherwise it starts a job that may be started and goes
    before every other one - by the class of its urgency, then by due time,
    then by key -, hands out the next token, records the start in that job
    only, and uses up the authorization of a diagnostic circuit. A cooldown
    that has passed closes the circuit. *)
Theorem start_next_edf (now : MonotonicTime) (s : OriginEdfScheduler) :
  ∃ s' od, start_next now s = Some (s', od) ∧
  match od with
  | None => (∀ key j, ¬ may_start now s key j) ∧ oes_jobs s' = oes_jobs s ∧
      oes_in_flight s' = oes_in_flight s ∧ oes_next_token s' = oes_next_token s ∧
      (oes_circuit s' = oes_circuit s ∨
       oes_circuit s' = OriginCircuit_Closed ∧ ∃ until, oes_circuit s = OriginCircuit_RetryAfter until ∧ until ≤ now)
  | Some d => ∃ j,
      may_start now s (od_key d) j ∧
      (∀ key' j', may_start now s key' j' → key' ≠ od_key d → goes_before (od_key d) j key' j') ∧
      od_lane d = js_lane j ∧ od_scheduled_due d = js_next_due j ∧ od_started_at d = now ∧
      od_requested_interval d = js_interval j ∧ od_failure_streak d = js_failure_streak j ∧
      od_scheduler_lag d = (now - js_next_due j) * NANOS_PER_MILLI ∧
      od_token d = Z.max (Z.min (oes_next_token s + 1) (2 ^ 64 - 1)) 1 ∧ oes_next_token s' = od_token d ∧
      oes_jobs s' = <[od_key d := js_set_last_start (Some now) j]> (oes_jobs s) ∧
      (∃ f, oes_in_flight s' = Some f ∧ if_token f = od_token d ∧ if_key f = od_key d ∧
         if_scheduled_due f = js_next_due j ∧ if_started_at f = now) ∧
      (oes_circuit s' = OriginCircuit_Closed ∨
       ∃ recheck, oes_circuit s = OriginCircuit_FatalDiagnostic (od_key d) recheck true ∧
         oes_circuit s' = OriginCircuit_FatalDiagnostic (od_key d) recheck false)
  end.
Proof.
  unfold start_next. case_bool_decide as Hbusy.
  { eexists _, _. split; [done|]. split_and!; [|done..|by left].
    intros key j [Hidle _]%may_start_dispatchable. rewrite Hidle in Hbusy. by destruct Hbusy. }
  assert (oes_in_flight s = None) as Hidle by (by destruct (oes_in_flight s); [destruct Hbusy|]).
  rewrite choose_job_settle. pose proof (choose_job_may_start now s Hidle) as Hsel.
  destruct (choose_job now s) as [[key j]|] eqn:Ec.
  2:{ eexists _, _. split; [done|]. split_and!; [done..|]. apply circuit_settle_cases. }
  apply choose_job_registered in Ec as [Hj Hdue].
  cbn [oes_jobs set_circuit]. rewrite Hj. simpl. eexists _, _. split; [done|]. simpl.
  destruct Hsel as [Hd Hmin]. exists j. split_and!; try done; [|by eexists|].
  - unfold saturating_duration_since, duration_from_millis. by rewrite saturating_sub_ge.
  - destruct Hd as [_ _ _ _ [->|(until & -> & Hu)]|recheck _ _ _ -> Hr]; simpl; [by left| |].
    + rewrite bool_decide_eq_true_2 by done. by left.
    + rewrite bool_decide_eq_true_2 by done. right. eauto.
Qed.

(** The dispatch as the hint announces it. *)
Definition hint_of (d : OriginDispatch) (j : JobSchedule) : OriginDispatchHint :=
  {| odh_key := od_key d; odh_lane := od_lane d; odh_scheduled_due := od_scheduled_due d;
     odh_active_watch_count := js_active_watch_count j;
     odh_generation_pending := js_generation_pending j;
     odh_failure_streak := od_failure_streak d |}.

(** The read-only hint announces exactly the dispatch that [start_next]
    would make at that time, and nothing when it would make none. *)
Theorem dispatch_hint_agrees (now : MonotonicTime) (s : OriginEdfScheduler) :
  match start_next now s with
  | None => False
  | Some (_, None) => next_dispatch_hint now s = None
  | Some (_, Some d) => ∃ j, oes_jobs s !! od_key d = Some j ∧
      next_dispatch_hint now s = Some (hint_of d j)
  end.
Proof.
  unfold start_next, next_dispatch_hint. case_bool_decide; [done|].
  rewrite choose_job_settle. destruct (choose_job now s) as [[key j]|] eqn:Ec; [|done].
  apply choose_job_registered in Ec as [Hj _]. cbn [oes_jobs set_circuit]. rewrite Hj. simpl.
  by exists j.
Qed.

Lemma compare_due_jobs_Lt_rank key j key' j' :
  compare_due_jobs key j key' j' = Lt →
  let rank := λ k x, priority_rank (dispatch_priority k x) in
  (rank key j < rank key' j')%N ∨ (rank key j = rank key' j' ∧ js_next_due j ≤ js_next_due j').
Proof.
  change (compare_due_jobs key j key' j' = Lt) with
    (compare_due_jobs (key, j).1 (key, j).2 (key', j').1 (key', j').2 = Lt).
  rewrite compare_due_jobs_rcmp. unfold due_key.
  intros [Hlt|[Heq Hrest]]%cmp_then_Lt; simpl in *.
  - left. by apply N.compare_lt_iff.
  - right. apply N.compare_eq_iff in Heq. split; [done|].
    apply cmp_then_Lt in Hrest as [Hlt|[Heq' _]]; simpl in *.
    + rewrite Z.compare_lt_iff in Hlt. lia.
    + rewrite Z.compare_eq_iff in Heq'. lia.
Qed.

Lemma rank_watched_open key j :
  priority_rank (dispatch_priority key j) = 0%N ↔
  ojk_kind key = OriginJobKind_Open ∧ 0 < js_active_watch_count j.
Proof.
  unfold dispatch_priority. destruct (ojk_kind key); repeat case_bool_decide;
    destruct (js_generation_pending j); simpl; split; intros; destruct_and?; try done;
    split_and?; try done; lia.
Qed.

(** Watched Open work comes first: while the circuit lets any job through
    and an Open job with active watches is due, the dispatch is an Open job
    with active watches, due no later than it. *)
Theorem watched_open_first (now : MonotonicTime) (s s' : OriginEdfScheduler) (d : OriginDispatch)
    (key' : OriginJobKey) (j' : JobSchedule) :
  start_next now s = Some (s', Some d) →
  circuit_gate now (oes_circuit s) = CircuitGate_Any →
  due_now now s key' j' → ojk_kind key' = OriginJobKind_Open → 0 < js_active_watch_count j' →
  ∃ j, oes_jobs s !! od_key d = Some j ∧ ojk_kind (od_key d) = OriginJobKind_Open ∧
    0 < js_active_watch_count j ∧ js_next_due j ≤ js_next_due j'.
Proof.
  unfold start_next. case_bool_decide as Hbusy; [done|].
  assert (oes_in_flight s = None) as Hidle by (by destruct (oes_in_flight s); [destruct Hbusy|]).
  rewrite choose_job_settle. pose proof (choose_job_dispatchable now s Hidle) as Hsel.
  destruct (choose_job now s) as [[key j]|] eqn:Ec; [|done].
  apply choose_job_registered in Ec as [Hj _]. cbn [oes_jobs set_circuit]. rewrite Hj. simpl.
  intros Hstart Hgate Hdue Hkind Hwatch. simplify_eq. simpl. exists j.
  destruct Hsel as [_ Hmin]. destruct (decide (key' = key)) as [->|Hne].
  { destruct Hdue as (Hj' & _ & _). rewrite Hj in Hj'. simplify_eq. done. }
  specialize (Hmin key' j'). unfold dispatchable in Hmin. rewrite Hgate in Hmin.
  specialize (Hmin (conj Hidle Hdue) Hne). apply compare_due_jobs_Lt_rank in Hmin.
  assert (priority_rank (dispatch_priority key' j') = 0%N) as Hrank by (by apply rank_watched_open).
  rewrite Hrank in Hmin. destruct Hmin as [?|[Hrank' ?]]; [lia|].
  apply rank_watched_open in Hrank' as [? ?]. done.
Qed.

(** ** Due times *)

Definition u64_range (n : Z) : Prop := 0 ≤ n ≤ u64_max.

(** The interval in whole milliseconds, at least one. *)
Definition period (interval : Z) : Z :=
  Z.max (u64_try_from_or_max (duration_as_millis interval)) 1.

Lemma period_one interval : period interval = 1 ↔ interval < 2000000.
Proof.
  unfold period, u64_try_from_or_max, duration_as_millis, NANOS_PER_MILLI, u64_max.
  pose proof (Z.div_mod interval 1000000). pose proof (Z.mod_pos_bound interval 1000000). lia.
Qed.

Lemma saturating_add_range t d : u64_range t → 0 ≤ d → u64_range (MonotonicTime_saturating_add t d).
Proof.
  unfold u64_range, MonotonicTime_saturating_add, u64_saturating_add, u64_try_from_or_max,
    duration_as_millis. intros Ht Hd.
  assert (0 ≤ d / NANOS_PER_MILLI) by (apply Z.div_pos; unfold NANOS_PER_MILLI; lia).
  unfold u64_max in *. lia.
Qed.

(** When the next due time cannot be computed: the clock is at its last
    millisecond, the job was due at the first one, and its period is one. *)
Definition cadence_overflow (due interval completed : Z) : Prop :=
  due = 0 ∧ completed = u64_max ∧ period interval = 1.

Lemma first_future_due_cases due interval completed :
  u64_range due → u64_range completed →
  let m := period interval in
  match first_future_due due interval completed with
  | Some r =>
      ¬ cadence_overflow due interval completed ∧
      (completed < due ∧ r = due ∨
       due ≤ completed ∧ r = Z.min (due + ((completed - due) / m + 1) * m) u64_max)
  | None => cadence_overflow due interval completed
  end.
Proof.
  intros Hdue Hc m. unfold u64_range, cadence_overflow in *. unfold first_future_due.
  case_bool_decide as Hlt; [split; [lia|by left]|]. fold (period interval). fold m.
  assert (1 ≤ m) as Hm by (unfold m, period; lia). rewrite saturating_sub_ge by lia.
  pose proof (Z.div_mod (completed - due) m) as Hdm. pose proof (Z.mod_pos_bound (completed - due) m) as Hmod.
  assert (0 ≤ (completed - due) / m) as Hq by (apply Z.div_pos; lia).
  set (q := (completed - due) / m) in *. unfold u64_add. case_bool_decide as Hfit; cbn [mbind option_bind].
  - split; [|right; split; [lia|]; unfold u64_saturating_add, u64_saturating_mul; nia].
    intros (-> & -> & Hm1). fold m in Hm1. rewrite Hm1 in *. lia.
  - assert (0 < u64_max) by done. assert (q * m ≤ u64_max) as Hqm by lia. assert (u64_max ≤ q) as Hq' by lia.
    assert (m = 1) as Hm1 by nia. rewrite Hm1 in *. split_and!; [lia|lia|done].
Qed.

(** The next due time after a completion keeps the cadence without drift
    and without catch-up: it is the first instant strictly after the
    completion (and not before the scheduled one) that lies a whole number of
    periods after the scheduled due time, unless the clock saturates; it cannot
    be computed exactly when the number of periods overflows. *)
Theorem first_future_due_spec (due interval completed : Z) :
  u64_range due → u64_range completed →
  let m := period interval in
  match first_future_due due interval completed with
  | Some r =>
      u64_range r ∧ due ≤ r ∧
      (r = u64_max ∨
       completed < r ∧ (∃ n, 0 ≤ n ∧ r = due + n * m) ∧
       ∀ n, 0 ≤ n → completed < due + n * m → r ≤ due + n * m)
  | None => cadence_overflow due interval completed
  end.
Proof.
  intros Hdue Hc m. assert (1 ≤ m) as Hm by (unfold m, period; lia).
  pose proof (first_future_due_cases due interval completed Hdue Hc) as Hcases.
  destruct (first_future_due due interval completed) as [r|]; [|done].
  destruct Hcases as [_ [[Hlt Hr]|[Hle Hr]]]; fold m in Hr.
  - rewrite Hr. split_and!; [done|lia|]. right. split; [lia|]. split; [exists 0; lia|].
    intros n Hn _. nia.
  - pose proof (Z.div_mod (completed - due) m) as Hdm.
    pose proof (Z.mod_pos_bound (completed - due) m) as Hmod.
    assert (0 ≤ (completed - due) / m) as Hq by (apply Z.div_pos; lia).
    set (q := (completed - due) / m) in *. unfold u64_range in *.
    assert (0 ≤ (q + 1) * m) by nia.
    split_and!; [lia|lia|lia|].
    destruct (decide (u64_max ≤ due + (q + 1) * m)) as [|Hfit]; [left; lia|].
    right. rewrite Hr, Z.min_l by lia. split; [nia|]. split; [exists (q + 1); lia|].
    intros n Hn Hlt. assert (q < n) by nia. nia.
Qed.

(** A persisted wall-clock due time is restored exactly: never before the
    present, at once when it is overdue, otherwise after the remaining time,
    up to saturation of the clock. *)
Theorem restore_monotonic_due_spec (now now_wall due_wall : Z) :
  u64_range now →
  - 2 ^ 127 ≤ now_wall < 2 ^ 127 → - 2 ^ 127 ≤ due_wall < 2 ^ 127 →
  let r := restore_monotonic_due now now_wall due_wall in
  u64_range r ∧ now ≤ r ∧
  (due_wall ≤ now_wall → r = now) ∧
  (now_wall < due_wall → r = Z.min (now + (due_wall - now_wall)) u64_max).
Proof.
  unfold restore_monotonic_due, i128_saturating_sub, u64_range, u64_saturating_add,
    u64_try_from_or_max, u64_max. lia.
Qed.

(** ** Completions *)

Definition job_wf (j : JobSchedule) : Prop :=
  0 < js_interval j ∧ u64_range (js_next_due j) ∧ 0 ≤ js_active_watch_count j ∧
  0 ≤ js_failure_streak j ∧ u64_range (default 0 (js_last_start j)).

(** The workflow in flight and the circuit agree: a probe runs under the
    diagnostic circuit of its job, any other workflow under a closed one. *)
Definition in_flight_wf (s : OriginEdfScheduler) (f : InFlight) : Prop :=
  is_Some (oes_jobs s !! if_key f) ∧ if_token f = oes_next_token s ∧
  u64_range (if_scheduled_due f) ∧ u64_range (if_started_at f) ∧
  if if_diagnostic_probe f
  then ∃ recheck authorized, oes_circuit s = OriginCircuit_FatalDiagnostic (if_key f) recheck authorized
  else oes_circuit s = OriginCircuit_Closed.

Definition scheduler_wf (s : OriginEdfScheduler) : Prop :=
  (∀ key j, oes_jobs s !! key = Some j → job_wf j) ∧
  u64_range (oes_next_token s) ∧
  (∀ f, oes_in_flight s = Some f → in_flight_wf s f) ∧
  match oes_circuit s with
  | OriginCircuit_FatalDiagnostic job _ _ => is_Some (oes_jobs s !! job)
  | _ => True
  end.

(** The completion in flight keeps a cadence whose next due time overflows. *)
Definition finish_overflows (token completed : Z) (c : CompletionSchedule) (s : OriginEdfScheduler) : Prop :=
  ∃ f j, oes_in_flight s = Some f ∧ if_token f = token ∧ if_started_at f ≤ completed ∧
    oes_jobs s !! if_key f = Some j ∧ (∀ d, c ≠ CompletionSchedule_Retry d) ∧
    cadence_overflow (if_scheduled_due f) (js_interval j) completed.

Lemma first_future_due_None due interval completed :
  u64_range due → u64_range completed →
  first_future_due due interval completed = None ↔ cadence_overflow due interval completed.
Proof.
  intros Hd Hc. pose proof (first_future_due_cases due interval completed Hd Hc) as Hcases.
  destruct (first_future_due due interval completed); [|done]. split; [done|]. by intros ?%(proj1 Hcases).
Qed.

Lemma completion_due_None f interval completed c :
  u64_range (if_scheduled_due f) → u64_range completed →
  completion_due f interval completed c = None ↔
  (∀ d, c ≠ CompletionSchedule_Retry d) ∧ cadence_overflow (if_scheduled_due f) interval completed.
Proof.
  intros Hd Hc. destruct c as [| |d]; cbn [completion_due];
    [rewrite first_future_due_None by done; naive_solver..|]. split; [done|]. intros [Hn _]. by destruct (Hn d).
Qed.

(** A completion panics exactly when its due time overflows. *)
Lemma finish_None token completed c s :
  scheduler_wf s → u64_range completed →
  finish token completed c s = None ↔ finish_overflows token completed c s.
Proof.
  intros (_ & _ & Hfl & _) Hc. unfold finish, finish_overflows.
  destruct (oes_in_flight s) as [f|] eqn:Hf; [|by split; [|intros (? & ? & ? & _)]].
  destruct (Hfl f eq_refl) as ((j & Hj) & _ & Hd & _).
  case_bool_decide as Ht; [split; [done|]; naive_solver|].
  case_bool_decide as Hs; [split; [done|]; intros (? & ? & ? & ? & ? & _); simplify_eq; lia|].
  rewrite Hj. pose proof (completion_due_None f (js_interval j) completed c Hd Hc) as Hnone.
  destruct (completion_due f (js_interval j) completed c); cbn [mbind option_bind].
  - split; [done|]. intros (f' & j' & ? & ? & ? & Hj' & Hov). simplify_eq. by apply Hnone in Hov.
  - split; [|done]. intros _. exists f, j. split_and!; [done|done|lia|done|by apply Hnone..].
Qed.

(** Completions, on every branch: a completion that does not match the
    workflow in flight, or precedes its start, is refused and changes nothing;
    no other error occurs. An accepted one frees the scheduler and rewrites
    the finished job only: success and the catalog race clear the streak and
    keep the cadence, a retry takes the directive's streak and delay; a
    finished one-shot job stays active only if it recurs or is a watched Open
    job; and a probe or a fatal directive decides the circuit. *)
Theorem finish_spec (token completed : Z) (c : CompletionSchedule) (s : OriginEdfScheduler) :
  scheduler_wf s → u64_range completed →
  match finish token completed c s with
  | None => finish_overflows token completed c s
  | Some (s', Err e) => s' = s ∧
      (e = SchedulerError_InvalidCompletionToken ∧ if_token <$> oes_in_flight s ≠ Some token ∨
       e = SchedulerError_CompletionBeforeStart ∧
         ∃ f, oes_in_flight s = Some f ∧ if_token f = token ∧ completed < if_started_at f)
  | Some (s', Ok _) => ∃ f j j',
      oes_in_flight s = Some f ∧ if_token f = token ∧ if_started_at f ≤ completed ∧
      oes_jobs s !! if_key f = Some j ∧
      oes_in_flight s' = None ∧ oes_next_token s' = oes_next_token s ∧
      oes_jobs s' = <[if_key f := j']> (oes_jobs s) ∧
      js_lane j' = js_normal_lane j ∧ js_interval j' = js_interval j ∧
      js_recurring j' = js_recurring j ∧
      match c with
      | CompletionSchedule_Retry d =>
          js_next_due j' = MonotonicTime_saturating_add completed (rd_delay d) ∧
          js_failure_streak j' = rd_next_failure_streak d ∧ js_active j' = js_active j ∧
          js_one_shot_pending j' = js_one_shot_pending j ∧
          match rd_mode d with
          | RetryMode_Automatic =>
              oes_circuit s' =
                if if_diagnostic_probe f then
                  if rd_clears_fatal_diagnostic d then OriginCircuit_Closed
                  else OriginCircuit_FatalDiagnostic (if_key f) (js_next_due j') false
                else oes_circuit s
          | RetryMode_OriginCircuit => oes_circuit s' = OriginCircuit_RetryAfter (js_next_due j')
          | RetryMode_ExplicitDiagnosticRecheck =>
              oes_circuit s' = OriginCircuit_FatalDiagnostic (if_key f) (js_next_due j') false
          end
      | c =>
          first_future_due (if_scheduled_due f) (js_interval j) completed = Some (js_next_due j') ∧
          js_failure_streak j' = 0 ∧ oes_circuit s' = OriginCircuit_Closed ∧
          (c = CompletionSchedule_Success →
             js_one_shot_pending j' = false ∧ js_generation_pending j' = false ∧
             (js_one_shot_pending j = true →
                js_active j' = js_recurring j ||
                  (bool_decide (ojk_kind (if_key f) = OriginJobKind_Open) &&
                   bool_decide (0 < js_active_watch_count j))))
      end
  end.
Proof.
  intros Hwf Hrange. destruct (finish token completed c s) as [[s' r]|] eqn:E; [|by apply finish_None].
  destruct Hwf as (Hjobs & Htok & Hfl & _). unfold finish in E.
  destruct (oes_in_flight s) as [f|] eqn:Hf; [|injection E as <- <-; by split; [|left]].
  case_bool_decide as Ht; [injection E as <- <-; by split; [|left; split; [|simpl; congruence]]|].
  case_bool_decide as Hc; [injection E as <- <-; split; [done|right; eauto]|].
  destruct (Hfl f eq_refl) as ((j & Hj) & _ & _ & _ & Hcirc). rewrite Hj in E.
  apply bind_Some in E as (due & Hdue & E). injection E as <- <-.
  eexists f, j, _. simpl. split_and!; try done; [lia|].
  destruct c as [| |d]; simpl in *.
  - split_and!; [done|done|by destruct (if_diagnostic_probe f)|].
    intros _. split_and!; [by destruct (js_one_shot_pending j)|done|]. by intros ->.
  - by split_and!; [..|destruct (if_diagnostic_probe f)|].
  - injection Hdue as <-. split_and!; try done. destruct (rd_mode d), (if_diagnostic_probe f),
      (rd_clears_fatal_diagnostic d); simpl; done.
Qed.

(** ** Reachable schedulers *)

(** The scheduler's interface as data. *)
Inductive sched_op :=
| RegisterCatalog (target : TermCampusKey) (interval : Z) (first_due : MonotonicTime)
| RegisterCatalogInitial (target : TermCampusKey) (interval watches : Z) (first_due : MonotonicTime)
| RegisterCatalogOneShot (target : TermCampusKey) (watches : Z) (first_due : MonotonicTime)
| RegisterOpen (target : TermCampusKey) (i : OpenRefreshIntervals) (watches : Z)
    (now first_due : MonotonicTime)
| RegisterOpenInitial (target : TermCampusKey) (i : OpenRefreshIntervals) (watches : Z)
    (now first_due : MonotonicTime)
| SetCatalogWatchCount (target : TermCampusKey) (watches : Z)
| ActivateCatalog (target : TermCampusKey) (interval : Z) (now : MonotonicTime)
| DemoteCatalog (target : TermCampusKey) (maintenance : option Z) (now : MonotonicTime)
| ActivateOpen (target : TermCampusKey) (i : OpenRefreshIntervals) (now : MonotonicTime)
| DemoteOpen (target : TermCampusKey) (i : OpenRefreshIntervals) (watches : Z) (now : MonotonicTime)
| SetOpenWatchCount (target : TermCampusKey) (i : OpenRefreshIntervals) (watches : Z)
    (now : MonotonicTime)
| RequestOpenDue (target : TermCampusKey) (due : MonotonicTime) (lane : OriginSchedulerLane)
| RequestManualTargetRetry (target : TermCampusKey) (now : MonotonicTime)
| CompleteOpenBootstrap (target : TermCampusKey) (completed_at : MonotonicTime)
| AdoptExternalOpenState (target : TermCampusKey) (now next_due : MonotonicTime) (streak : Z)
| StartNext (now : MonotonicTime)
| Finish (token : Z) (completed_at : MonotonicTime) (completion : CompletionSchedule)
| AuthorizeDiagnosticRecheck (now : MonotonicTime).

(** What an observer of the origin sees. *)
Inductive sched_event :=
| Dispatched (token : Z) (key : OriginJobKey)
| Finished (token : Z).

Definition quiet {A} (r : OriginEdfScheduler * result SchedulerError A)
    : option (OriginEdfScheduler * list sched_event) := Some (r.1, []).

Lemma quiet_inv {A} (r : OriginEdfScheduler * result SchedulerError A) s' evs :
  quiet r = Some (s', evs) → s' = r.1 ∧ evs = [].
Proof. by intros [= <- <-]. Qed.

(** [None] when the operation panics. *)
Definition apply_op (op : sched_op) (s : OriginEdfScheduler)
    : option (OriginEdfScheduler * list sched_event) :=
  match op with
  | RegisterCatalog t i d => quiet (register_catalog t i d s)
  | RegisterCatalogInitial t i n d => quiet (register_catalog_initial t i n d s)
  | RegisterCatalogOneShot t n d => quiet (register_catalog_one_shot t n d s)
  | RegisterOpen t i n now d => quiet (register_open t i n now d s)
  | RegisterOpenInitial t i n now d => r ← register_open_initial t i n now d s; quiet r
  | SetCatalogWatchCount t n => quiet (set_catalog_watch_count t n s)
  | ActivateCatalog t i now => quiet (activate_catalog t i now s)
  | DemoteCatalog t m now => quiet (demote_catalog t m now s)
  | ActivateOpen t i now => quiet (activate_open t i now s)
  | DemoteOpen t i n now => quiet (demote_open t i n now s)
  | SetOpenWatchCount t i n now => quiet (set_open_watch_count t i n now s)
  | RequestOpenDue t due lane => quiet (request_open_due t due lane s)
  | RequestManualTargetRetry t now => quiet (request_manual_target_retry t now s)
  | CompleteOpenBootstrap t at_ => quiet (complete_open_bootstrap t at_ s)
  | AdoptExternalOpenState t now due n => quiet (adopt_external_open_state t now due n s)
  | StartNext now =>
      '(s', od) ← start_next now s;
      Some (s', match od with Some d => [Dispatched (od_token d) (od_key d)] | None => [] end)
  | Finish token at_ c =>
      '(s', r) ← finish token at_ c s;
      Some (s', match r with Ok _ => [Finished token] | Err _ => [] end)
  | AuthorizeDiagnosticRecheck now => quiet (authorize_diagnostic_recheck now s)
  end.

Definition completion_wf (c : CompletionSchedule) : Prop :=
  match c with
  | CompletionSchedule_Retry d => 0 ≤ rd_delay d ∧ 0 ≤ rd_next_failure_streak d
  | _ => True
  end.

(** Arguments in the range of their machine types. *)
Definition op_wf (op : sched_op) : Prop :=
  match op with
  | RegisterCatalog _ i d => 0 ≤ i ∧ u64_range d
  | RegisterCatalogInitial _ i n d => 0 ≤ i ∧ 0 ≤ n ∧ u64_range d
  | RegisterCatalogOneShot _ n d => 0 ≤ n ∧ u64_range d
  | RegisterOpen _ i n now d | RegisterOpenInitial _ i n now d =>
      OpenRefreshIntervals_wf i ∧ 0 ≤ n ∧ u64_range now ∧ u64_range d
  | SetCatalogWatchCount _ n => 0 ≤ n
  | ActivateCatalog _ i now => 0 ≤ i ∧ u64_range now
  | DemoteCatalog _ m now => 0 ≤ default 0 m ∧ u64_range now
  | ActivateOpen _ i now => OpenRefreshIntervals_wf i ∧ u64_range now
  | DemoteOpen _ i n now | SetOpenWatchCount _ i n now =>
      OpenRefreshIntervals_wf i ∧ 0 ≤ n ∧ u64_range now
  | RequestOpenDue _ due _ => u64_range due
  | RequestManualTargetRetry _ now => u64_range now
  | CompleteOpenBootstrap _ at_ => u64_range at_
  | AdoptExternalOpenState _ now due n => u64_range now ∧ u64_range due ∧ 0 ≤ n
  | StartNext now => u64_range now
  | Finish _ at_ c => u64_range at_ ∧ completion_wf c
  | AuthorizeDiagnosticRecheck now => u64_range now
  end.

Fixpoint run_ops (ops : list sched_op) (s : OriginEdfScheduler)
    : option (OriginEdfScheduler * list sched_event) :=
  match ops with
  | [] => Some (s, [])
  | op :: ops =>
      '(s', evs) ← apply_op op s;
      '(s'', evs') ← run_ops ops s';
      Some (s'', evs ++ evs')
  end.

(** *** Preservation *)

Lemma effective_positive i b : OpenRefreshIntervals_wf i → 0 < effective i b.
Proof.
  intros [Hg Hw]. apply GeneralOpenInterval_wf_range in Hg. apply WatchOpenInterval_wf_range in Hw.
  unfold effective, duration_from_secs, NANOS_PER_SEC. rewrite effective_seconds_min. destruct b; lia.
Qed.

Lemma anchored_range now j d :
  u64_range now → job_wf j → 0 ≤ d →
  u64_range (MonotonicTime_saturating_add (default now (js_last_start j)) d).
Proof.
  intros Hn (_ & _ & _ & _ & Hl) Hd. apply saturating_add_range; [|done].
  by destruct (js_last_start j).
Qed.

Lemma u64_range_min a b : u64_range a → u64_range b → u64_range (Z.min a b).
Proof. unfold u64_range. lia. Qed.

Lemma insert_job_wf s key j :
  scheduler_wf s → job_wf j → scheduler_wf (set_jobs (<[key := j]> (oes_jobs s)) s).
Proof.
  intros (Hjobs & Htok & Hfl & Hcirc) Hj.
  assert (∀ k, is_Some (oes_jobs s !! k) → is_Some ((<[key := j]> (oes_jobs s)) !! k)) as Hmono.
  { intros k. rewrite lookup_insert_is_Some'. by right. }
  split_and!; simpl; [|done| |].
  - intros k j' Hk. destruct (decide (k = key)) as [->|Hne].
    + rewrite lookup_insert_eq in Hk. by simplify_eq.
    + rewrite lookup_insert_ne in Hk by done. eauto.
  - intros f Hf. destruct (Hfl f Hf) as (? & ?). split; simpl; eauto.
  - destruct (oes_circuit s); eauto.
Qed.

Lemma with_job_wf key f s :
  scheduler_wf s → (∀ j, job_wf j → job_wf (f j)) → scheduler_wf (with_job key f s).1.
Proof.
  intros Hwf Hf. unfold with_job. destruct (oes_jobs s !! key) as [j|] eqn:Hj; [|done].
  apply insert_job_wf; [done|]. apply Hf. by eapply (proj1 Hwf).
Qed.

Lemma upsert_wf key r s :
  scheduler_wf s → 0 ≤ jr_interval r → u64_range (jr_first_due r) →
  0 ≤ jr_active_watch_count r → scheduler_wf (upsert key r s).1.
Proof.
  intros Hwf Hi Hd Hn. unfold upsert. case_bool_decide as Hz; [done|]. apply insert_job_wf; [done|].
  destruct (oes_jobs s !! key) as [j|] eqn:Hj; unfold job_wf; simpl.
  - destruct (proj1 Hwf key j Hj) as (_ & ? & _ & ? & ?). split_and!; try done. lia.
  - split_and!; try done; try lia.
Qed.

(** The range facts of a job's new fields. *)
Ltac job_wf_tac :=
  repeat match goal with
  | H : _ ∧ _ |- _ => destruct H
  | |- _ ∧ _ => split
  | |- context [if ?b then _ else _] => destruct b
  | |- u64_range (Z.min _ _) => apply u64_range_min
  | |- u64_range (MonotonicTime_saturating_add (default _ (js_last_start _)) _) =>
      apply anchored_range
  | |- u64_range (MonotonicTime_saturating_add _ _) => apply saturating_add_range
  | |- 0 < effective _ _ => apply effective_positive
  | |- 0 ≤ effective _ _ => apply Z.lt_le_incl, effective_positive
  | |- _ => assumption || lia
  end.

Lemma update_due_wf key now s :
  scheduler_wf s → u64_range now → scheduler_wf (update_due_for_interval_change key now s).
Proof.
  intros Hwf Hnow. unfold update_due_for_interval_change.
  destruct (oes_jobs s !! key) as [j|] eqn:Hj; [|done].
  apply insert_job_wf; [done|]. pose proof (proj1 Hwf key j Hj) as Hjw.
  assert (0 ≤ js_interval j) by (destruct Hjw; lia).
  pose proof (anchored_range now j _ Hnow Hjw H) as Hanch.
  destruct (watched_priority _); [|case_bool_decide; [|done]]; destruct Hjw as (?&?&?&?&?);
    unfold job_wf; simpl; split_and!; try done. by apply u64_range_min.
Qed.

Lemma update_due_registered key now s :
  is_Some (oes_jobs s !! key) → is_Some (oes_jobs (update_due_for_interval_change key now s) !! key).
Proof.
  intros [j Hj]. unfold update_due_for_interval_change. rewrite Hj. simpl.
  rewrite lookup_insert_eq. eauto.
Qed.

Lemma register_open_with_mode_wf t i n now d b s :
  scheduler_wf s → OpenRefreshIntervals_wf i → 0 ≤ n → u64_range now → u64_range d →
  scheduler_wf (register_open_with_mode t i n now d b s).1.
Proof.
  intros Hwf Hi Hn Hnow Hd. unfold register_open_with_mode.
  match goal with |- context [upsert ?k ?r s] => pose proof (upsert_wf k r s Hwf) as Hup end.
  destruct (upsert _ _ s) as [s' [[]|e]]; simpl in *.
  - assert (scheduler_wf s') by (apply Hup; job_wf_tac).
    destruct (bool_decide (is_Some _)); [by apply update_due_wf|done].
  - apply Hup; job_wf_tac.
Qed.

Lemma register_open_initial_total t i n now d s :
  ∃ s' r, register_open_initial t i n now d s = Some (s', r) ∧
    (scheduler_wf s → OpenRefreshIntervals_wf i → 0 ≤ n → u64_range now → u64_range d →
     scheduler_wf s').
Proof.
  unfold register_open_initial.
  pose proof (register_open_with_mode_wf t i n now d false s) as Hwf.
  destruct (register_open_with_mode t i n now d false s) as [s' [[]|e]] eqn:E; simpl in Hwf;
    [|by eauto].
  case_bool_decide; [|by eauto].
  assert (is_Some (oes_jobs s' !! OriginJobKey_open t)) as [j Hj].
  { unfold register_open_with_mode in E. unfold upsert in E; cbn [jr_interval] in E.
    revert E. case_bool_decide; intros E; [done|].
    simplify_eq. destruct (bool_decide (is_Some _)); [apply update_due_registered|];
      cbn [oes_jobs set_jobs]; rewrite lookup_insert_eq; eauto. }
  rewrite Hj. simpl. eexists _, _. split; [done|]. intros Hw Hi Hn Hnow Hd.
  specialize (Hwf Hw Hi Hn Hnow Hd). apply insert_job_wf; [done|].
  by destruct (proj1 Hwf _ j Hj) as (?&?&?&?&?).
Qed.

Lemma set_circuit_wf s c :
  scheduler_wf s → oes_in_flight s = None →
  match c with OriginCircuit_FatalDiagnostic job _ _ => is_Some (oes_jobs s !! job) | _ => True end →
  scheduler_wf (set_circuit c s).
Proof. intros (Hj & Ht & _ & _) Hidle Hc. split_and!; simpl; [done|done| |done]. by rewrite Hidle. Qed.

Lemma circuit_gate_Any now c :
  circuit_gate now c = CircuitGate_Any → circuit_settle now c = OriginCircuit_Closed.
Proof.
  destruct c as [|until|job r a]; simpl; [done|by case_bool_decide|].
  by destruct (a && _).
Qed.

Lemma circuit_gate_Probe now c job :
  circuit_gate now c = CircuitGate_Probe job →
  ∃ recheck, c = OriginCircuit_FatalDiagnostic job recheck true ∧ circuit_settle now c = c.
Proof.
  destruct c as [|until|job' r a]; simpl; [done|by case_bool_decide|].
  destruct a; simpl; [|done]. case_bool_decide; [|done]. intros [= ->]. eauto.
Qed.

Lemma start_next_total now s : ∃ s' od, start_next now s = Some (s', od).
Proof.
  unfold start_next. case_bool_decide; [by eauto|]. rewrite choose_job_settle.
  destruct (choose_job now s) as [[key j]|] eqn:Ec; [|by eauto].
  apply choose_job_registered in Ec as [Hj _]. cbn [oes_jobs set_circuit]. rewrite Hj. by eauto.
Qed.

Lemma start_next_wf now s s' od :
  scheduler_wf s → u64_range now → start_next now s = Some (s', od) → scheduler_wf s'.
Proof.
  intros Hwf Hnow. unfold start_next. case_bool_decide as Hbusy; [by intros [= <- <-]|].
  assert (oes_in_flight s = None) as Hidle by (by destruct (oes_in_flight s); [destruct Hbusy|]).
  rewrite choose_job_settle.
  assert (scheduler_wf (set_circuit (circuit_settle now (oes_circuit s)) s)) as Hwf1.
  { apply set_circuit_wf; [done|done|]. destruct Hwf as (_ & _ & _ & Hc).
    destruct (oes_circuit s); simpl; [done|by case_bool_decide|done]. }
  destruct (choose_job now s) as [[key j]|] eqn:Ec; [|by intros [= <- <-]].
  assert (∀ k, circuit_gate now (oes_circuit s) = CircuitGate_Probe k → k = key) as Hprobe.
  { intros k Hk. unfold choose_job in Ec. rewrite Hk in Ec.
    destruct (oes_jobs s !! k); simpl in Ec; [|done]. case_bool_decide; [done|]. by simplify_eq. }
  assert (oes_jobs s !! key = Some j) as Hj by (by apply (choose_job_registered now)).
  cbn [oes_jobs set_circuit]. rewrite Hj. simpl. intros [= <- <-].
  destruct Hwf1 as (Hjobs & Htok & _ & Hc). cbn [oes_jobs oes_circuit oes_next_token set_circuit] in *.
  pose proof (Hjobs key j Hj) as (?&?&?&?&?).
  destruct (insert_job_wf s key (js_set_last_start (Some now) j)) as (Hjobs' & _); [done..|].
  cbn [oes_jobs set_jobs] in Hjobs'.
  assert (∀ k, is_Some (oes_jobs s !! k) →
    is_Some ((<[key := js_set_last_start (Some now) j]> (oes_jobs s)) !! k)) as Hmono.
  { intros k. rewrite lookup_insert_is_Some'. by right. }
  split_and!; cbn [oes_jobs oes_in_flight oes_circuit oes_next_token].
  - exact Hjobs'.
  - unfold u64_range, u64_saturating_add, u64_max in *. lia.
  - intros f [= <-]. split; [by apply Hmono|]. simpl. split_and!; [done|done|done|].
    destruct (circuit_gate now (oes_circuit s)) as [| |k] eqn:Eg.
    + unfold choose_job in Ec. by rewrite Eg in Ec.
    + by rewrite (circuit_gate_Any _ _ Eg).
    + specialize (Hprobe k eq_refl) as ->.
      destruct (circuit_gate_Probe _ _ _ Eg) as (recheck & Heq & ->). rewrite Heq. eauto.
  - destruct (circuit_settle now (oes_circuit s)) as [| |k r a]; [done..|]. by apply Hmono.
Qed.

Lemma completion_due_range f interval completed c :
  u64_range (if_scheduled_due f) → u64_range completed → completion_wf c →
  ∀ due, completion_due f interval completed c = Some due → u64_range due.
Proof.
  intros Hd Hc Hwf due. destruct c as [| |d]; simpl.
  1,2: intros Hdue; pose proof (first_future_due_cases (if_scheduled_due f) interval completed Hd Hc) as Hcases;
    rewrite Hdue in Hcases; destruct Hcases as [_ [[_ Hr]|[Hle Hr]]]; rewrite Hr; [done|];
    assert (0 ≤ (completed - if_scheduled_due f) / period interval) by
      (apply Z.div_pos; unfold period; lia);
    assert (1 ≤ period interval) by (unfold period; lia); unfold u64_range, u64_max in *; nia.
  intros [= <-]. destruct Hwf. by apply saturating_add_range.
Qed.

Lemma finish_wf token completed c s :
  scheduler_wf s → u64_range completed → completion_wf c →
  ∀ s' r, finish token completed c s = Some (s', r) → scheduler_wf s'.
Proof.
  intros Hwf Hc Hcw s' r. unfold finish. destruct (oes_in_flight s) as [f|] eqn:Hf; [|by intros [= <- <-]].
  case_bool_decide; [by intros [= <- <-]|]. case_bool_decide; [by intros [= <- <-]|].
  destruct Hwf as (Hjobs & Htok & Hfl & Hcirc). destruct (Hfl f Hf) as ((j & Hj) & _ & Hd & _ & Hpr).
  rewrite Hj. intros (due & Hdue & E)%bind_Some. injection E as <- <-.
  apply (completion_due_range f (js_interval j) completed c Hd Hc Hcw) in Hdue.
  assert (∀ k j', is_Some (oes_jobs s !! k) → is_Some ((<[if_key f := j']> (oes_jobs s)) !! k)) as Hmono.
  { intros k j'. rewrite lookup_insert_is_Some'. by right. }
  split_and!; cbn [fst oes_jobs oes_in_flight oes_circuit oes_next_token]; [|done|done|].
  - intros k j' Hk. destruct (decide (k = if_key f)) as [->|Hne].
    + rewrite lookup_insert_eq in Hk. simplify_eq.
      destruct (Hjobs _ j Hj) as (?&?&?&?&?). unfold job_wf; simpl. split_and!; try done.
      destruct c; simpl; [lia|lia|]. by destruct Hcw.
    + rewrite lookup_insert_ne in Hk by done. eauto.
  - assert (match oes_circuit s with
            | OriginCircuit_FatalDiagnostic job _ _ => is_Some (oes_jobs s !! job) | _ => True end)
      as Hreg by done.
    destruct c as [| |d]; simpl; [by destruct (if_diagnostic_probe f), (oes_circuit s); eauto..|].
    destruct (rd_mode d), (if_diagnostic_probe f), (rd_clears_fatal_diagnostic d); simpl; try done;
      try (apply Hmono; eauto); destruct (oes_circuit s); try done; apply Hmono; eauto.
Qed.

Lemma schedule_manual_retry_wf key now s :
  scheduler_wf s → u64_range now → scheduler_wf (schedule_manual_retry key now s).1.
Proof.
  intros Hwf Hnow. unfold schedule_manual_retry.
  destruct (oes_jobs s !! key) as [j|] eqn:Hj; [|done].
  apply insert_job_wf; [done|]. by destruct (proj1 Hwf key j Hj) as (?&?&?&?&?).
Qed.

Lemma request_manual_wf t now s :
  scheduler_wf s → u64_range now → scheduler_wf (request_manual_target_retry t now s).1.
Proof.
  intros Hwf Hnow. unfold request_manual_target_retry. case_bool_decide as Hbusy; [done|].
  assert (oes_in_flight s = None) as Hidle by (by destruct (oes_in_flight s); [destruct Hbusy|]).
  destruct (oes_circuit s) as [|until|job r a] eqn:Hc.
  - by apply schedule_manual_retry_wf.
  - case_bool_decide; [done|]. apply schedule_manual_retry_wf; [|done]. by apply set_circuit_wf.
  - case_bool_decide; [|done]. apply schedule_manual_retry_wf; [|done].
    apply set_circuit_wf; [done|done|].
    destruct Hwf as (_ & _ & _ & Hreg). by rewrite Hc in Hreg.
Qed.

Lemma authorize_wf now s :
  scheduler_wf s → scheduler_wf (authorize_diagnostic_recheck now s).1.
Proof.
  intros Hwf. unfold authorize_diagnostic_recheck.
  destruct (oes_circuit s) as [|until|job r a] eqn:Hc; [done|done|].
  case_bool_decide; [|done]. destruct Hwf as (Hj & Ht & Hfl & Hreg). rewrite Hc in Hreg.
  split_and!; simpl; [done|done| |done].
  intros f Hf. destruct (Hfl f Hf) as (? & ? & ? & ? & Hpr). split_and!; try done. simpl.
  destruct (if_diagnostic_probe f); rewrite Hc in Hpr; [|done].
  destruct Hpr as (recheck & authorized & [= -> -> ->]). eauto.
Qed.

(** An operation that panics: a completion whose due time overflows. *)
Definition overflows (op : sched_op) (s : OriginEdfScheduler) : Prop :=
  match op with Finish token at_ c => finish_overflows token at_ c s | _ => False end.

Lemma apply_op_wf op s :
  op_wf op → scheduler_wf s →
  match apply_op op s with Some (s', _) => scheduler_wf s' | None => overflows op s end.
Proof.
  intros Hop Hwf. unfold apply_op, quiet.
  assert (0 < CATALOG_ONE_SHOT_INTERVAL) by done.
  destruct op; cbn [op_wf] in Hop; cbn [mbind option_bind].
  - by apply upsert_wf; job_wf_tac.
  - by apply upsert_wf; job_wf_tac.
  - by apply upsert_wf; simpl; job_wf_tac.
  - by apply register_open_with_mode_wf; job_wf_tac.
  - destruct (register_open_initial_total target i watches now first_due s) as (s' & r & Hr & Hw).
    rewrite Hr. simpl. by apply Hw; job_wf_tac.
  - apply with_job_wf; [done|]. by intros j (?&?&?&?&?).
  - unfold activate_catalog. case_bool_decide; [done|]. apply with_job_wf; [done|].
    intros j (?&?&?&?&?). unfold job_wf; simpl. job_wf_tac.
  - unfold demote_catalog. destruct (oes_jobs s !! _) as [j|] eqn:Hj; [|done].
    destruct (proj1 Hwf _ j Hj) as (?&?&?&?&Hl).
    destruct maintenance as [m|]; [case_bool_decide|]; apply insert_job_wf; try done;
      unfold job_wf; simpl in *; destruct (js_last_start j); simpl in *; job_wf_tac.
  - apply with_job_wf; [done|]. intros j (?&?&?&?&?). unfold job_wf; simpl. job_wf_tac.
  - apply with_job_wf; [done|]. intros j (?&?&?&?&?). unfold job_wf; simpl. job_wf_tac.
  - apply with_job_wf; [done|]. intros j Hj. pose proof Hj as (?&?&?&?&?).
    unfold job_wf; simpl. job_wf_tac.
  - unfold request_open_due. destruct (oes_jobs s !! _) as [j|] eqn:Hj; [|done].
    case_bool_decide; [done|]. apply insert_job_wf; [done|].
    destruct (proj1 Hwf _ j Hj) as (?&?&?&?&?). unfold job_wf; simpl. job_wf_tac.
  - by apply request_manual_wf.
  - apply with_job_wf; [done|]. intros j (?&?&?&?&?). unfold job_wf; simpl. job_wf_tac.
  - apply with_job_wf; [done|]. intros j (?&?&?&?&?). unfold job_wf; simpl. job_wf_tac.
  - destruct (start_next_total now s) as (s' & od & Hs). rewrite Hs. simpl. by eapply start_next_wf.
  - destruct Hop as [Hat Hc]. destruct (finish token completed_at completion s) as [[s' r]|] eqn:Hfin; simpl.
    + by eapply finish_wf.
    + by apply finish_None in Hfin.
  - by apply authorize_wf.
Qed.

Lemma OriginEdfScheduler_new_wf : scheduler_wf OriginEdfScheduler_new.
Proof.
  split_and!; simpl; [|unfold u64_range, u64_max; lia|done|done].
  intros key j. by rewrite lookup_empty.
Qed.

Lemma apply_op_None op s :
  op_wf op → scheduler_wf s → apply_op op s = None ↔ overflows op s.
Proof.
  intros Hop Hwf. pose proof (apply_op_wf op s Hop Hwf) as Happ. split; [by intros E; rewrite E in Happ|].
  destruct op; try done. cbn [overflows apply_op]. intros Hov. destruct Hop as [Hat _].
  apply finish_None in Hov; [|done..]. by rewrite Hov.
Qed.

(** The first operation that panics comes after others that do not. *)
Inductive run_overflows (s : OriginEdfScheduler) : list sched_op → Prop :=
| run_overflows_intro pre op post s' evs :
    run_ops pre s = Some (s', evs) → overflows op s' → run_overflows s (pre ++ op :: post).

Lemma run_ops_wf ops s :
  Forall op_wf ops → scheduler_wf s →
  match run_ops ops s with Some (s', _) => scheduler_wf s' | None => run_overflows s ops end.
Proof.
  intros Hops. revert s. induction Hops as [|op ops Hop _ IH]; intros s Hwf; [done|]. cbn [run_ops].
  pose proof (apply_op_wf op s Hop Hwf) as Happ.
  destruct (apply_op op s) as [[s1 evs1]|] eqn:E1; cbn [mbind option_bind];
    [|by apply (run_overflows_intro s [] op ops s [])].
  specialize (IH s1 Happ). destruct (run_ops ops s1) as [[s2 evs2]|] eqn:E2; cbn [mbind option_bind]; [done|].
  destruct IH as [pre op' post s2 evs2 Hpre Hov].
  apply (run_overflows_intro s (op :: pre) op' post s2 (evs1 ++ evs2)); [|done].
  cbn [run_ops]. rewrite E1. cbn [mbind option_bind]. by rewrite Hpre.
Qed.

Lemma run_ops_app pre post s :
  run_ops (pre ++ post) s =
  '(s1, evs1) ← run_ops pre s; '(s2, evs2) ← run_ops post s1; Some (s2, evs1 ++ evs2).
Proof.
  revert s. induction pre as [|op pre IH]; intros s; cbn [app run_ops mbind option_bind].
  - by destruct (run_ops post s) as [[]|].
  - destruct (apply_op op s) as [[s1 evs1]|]; cbn [mbind option_bind]; [|done]. rewrite IH.
    destruct (run_ops pre s1) as [[s2 evs2]|]; cbn [mbind option_bind]; [|done].
    destruct (run_ops post s2) as [[s3 evs3]|]; cbn [mbind option_bind]; [|done]. by rewrite app_assoc.
Qed.

Lemma run_overflows_None ops s :
  Forall op_wf ops → scheduler_wf s → run_overflows s ops → run_ops ops s = None.
Proof.
  intros Hops Hwf Hrun. destruct Hrun as [pre op post s' evs Hpre Hov]. apply Forall_app in Hops as [Hops [Hop _]%Forall_cons].
  pose proof (run_ops_wf pre s Hops Hwf) as Hwf'. rewrite Hpre in Hwf'.
  rewrite run_ops_app, Hpre. cbn [mbind option_bind run_ops]. by rewrite (proj2 (apply_op_None op s' Hop Hwf') Hov).
Qed.

(** C38. The scheduler's invariant, and its one panic: after every sequence of
    calls with arguments in range each job has a positive interval and due
    times of the clock's range, the workflow in flight belongs to a registered
    job and carries the latest token, a diagnostic probe runs only under the
    fatal circuit of its own job, and any other workflow only under a closed
    circuit. A call panics exactly when it completes, at the last millisecond
    of the clock and without a retry, a workflow that was due at the first
    millisecond for a job whose period is one millisecond: the number of
    periods that have passed is then one too many for 64 bits. In particular
    no call panics before that last millisecond. *)
Theorem scheduler_reachable_wf (ops : list sched_op) :
  Forall op_wf ops →
  (∀ s evs, run_ops ops OriginEdfScheduler_new = Some (s, evs) → scheduler_wf s) ∧
  (run_ops ops OriginEdfScheduler_new = None ↔
   ∃ pre token c post s evs f j,
     ops = pre ++ Finish token (2 ^ 64 - 1) c :: post ∧
     run_ops pre OriginEdfScheduler_new = Some (s, evs) ∧
     oes_in_flight s = Some f ∧ if_token f = token ∧ if_scheduled_due f = 0 ∧
     oes_jobs s !! if_key f = Some j ∧ js_interval j < 2000000 ∧
     ∀ d, c ≠ CompletionSchedule_Retry d).
Proof.
  intros Hops. pose proof (run_ops_wf ops _ Hops OriginEdfScheduler_new_wf) as Hwf. split.
  { intros s evs Hrun. by rewrite Hrun in Hwf. }
  split.
  - intros Hrun. rewrite Hrun in Hwf. inversion Hwf as [pre op post s evs Hpre Hov E]; subst.
    destruct op; try done. destruct Hov as (f & j & Hf & Ht & _ & Hj & Hr & Hdue & -> & Hper).
    exists pre, token, completion, post, s, evs, f, j. split_and!; try done. by apply period_one.
  - intros (pre & token & c & post & s & evs & f & j & -> & Hpre & Hf & Ht & Hdue & Hj & Hi & Hr).
    apply run_overflows_None; [done|apply OriginEdfScheduler_new_wf|].
    apply run_overflows_intro with s evs; [done|]. apply Forall_app in Hops as [Hops _].
    pose proof (run_ops_wf pre _ Hops OriginEdfScheduler_new_wf) as Hs. rewrite Hpre in Hs.
    destruct Hs as (_ & _ & Hfl & _). destruct (Hfl f Hf) as (_ & _ & _ & Hst & _).
    exists f, j. split_and!; [done|done|apply Hst|done|done|]. split_and!; [done|done|by apply period_one].
Qed.

(** ** Serial dispatch *)

(** Dispatches and completions strictly alternate, with increasing tokens:
    the token in flight and the latest token. *)
Inductive serial : list sched_event → option Z → Z → Prop :=
| serial_nil : serial [] None 0
| serial_dispatch evs n t key :
    serial evs None n → n < t → serial (evs ++ [Dispatched t key]) (Some t) t
| serial_finish evs n t :
    serial evs (Some t) n → serial (evs ++ [Finished t]) None n.

Definition token_in_flight (s : OriginEdfScheduler) : option Z := if_token <$> oes_in_flight s.

(** What one operation can do to the token in flight. *)
Inductive token_step (s s' : OriginEdfScheduler) : list sched_event → Prop :=
| token_step_quiet :
    token_in_flight s' = token_in_flight s → oes_next_token s' = oes_next_token s →
    token_step s s' []
| token_step_dispatch t key :
    token_in_flight s = None → token_in_flight s' = Some t → oes_next_token s' = t →
    t = Z.max (u64_saturating_add (oes_next_token s) 1) 1 →
    token_step s s' [Dispatched t key]
| token_step_finish t :
    token_in_flight s = Some t → token_in_flight s' = None →
    oes_next_token s' = oes_next_token s → token_step s s' [Finished t].

Lemma with_job_frame key f s :
  oes_in_flight (with_job key f s).1 = oes_in_flight s ∧
  oes_next_token (with_job key f s).1 = oes_next_token s ∧
  oes_circuit (with_job key f s).1 = oes_circuit s.
Proof. unfold with_job. by destruct (oes_jobs s !! key). Qed.

(** The operations that leave the flight, the tokens and the circuit alone. *)
Definition job_op (op : sched_op) : bool :=
  match op with
  | StartNext _ | Finish _ _ _ | AuthorizeDiagnosticRecheck _ | RequestManualTargetRetry _ _ => false
  | _ => true
  end.

Lemma upsert_frame key r s :
  oes_in_flight (upsert key r s).1 = oes_in_flight s ∧
  oes_next_token (upsert key r s).1 = oes_next_token s ∧
  oes_circuit (upsert key r s).1 = oes_circuit s.
Proof. unfold upsert. by case_bool_decide. Qed.

Lemma update_due_frame key now s :
  oes_in_flight (update_due_for_interval_change key now s) = oes_in_flight s ∧
  oes_next_token (update_due_for_interval_change key now s) = oes_next_token s ∧
  oes_circuit (update_due_for_interval_change key now s) = oes_circuit s.
Proof. unfold update_due_for_interval_change. by destruct (oes_jobs s !! key). Qed.

Lemma register_open_with_mode_frame t i n now d b s :
  let s' := (register_open_with_mode t i n now d b s).1 in
  oes_in_flight s' = oes_in_flight s ∧ oes_next_token s' = oes_next_token s ∧
  oes_circuit s' = oes_circuit s.
Proof.
  unfold register_open_with_mode.
  match goal with |- context [upsert ?k ?r s] => pose proof (upsert_frame k r s) as Hup end.
  destruct (upsert _ _ s) as [s1 [[]|e]]; simpl in *; [|done].
  destruct (bool_decide (is_Some _)); [|done].
  destruct (update_due_frame (OriginJobKey_open t) now s1) as (-> & -> & ->). done.
Qed.

Lemma job_op_frame op s s' evs :
  job_op op = true → apply_op op s = Some (s', evs) →
  evs = [] ∧ oes_in_flight s' = oes_in_flight s ∧ oes_next_token s' = oes_next_token s ∧
  oes_circuit s' = oes_circuit s.
Proof.
  intros Hjob Happ. destruct op; try done; unfold apply_op, quiet in Happ; cbn [mbind option_bind] in Happ;
    try (injection Happ as <- <-; split; [done|]);
    try first [apply upsert_frame | apply register_open_with_mode_frame | apply with_job_frame].
  - by split_and!.
  - unfold register_open_initial in Happ.
    pose proof (register_open_with_mode_frame target i watches now first_due false s) as Hfr.
    destruct (register_open_with_mode _ _ _ _ _ _ _) as [s1 [[]|e]]; simpl in *.
    + destruct (bool_decide _); simpl in Happ; [|by simplify_eq].
      destruct (oes_jobs s1 !! _); simpl in Happ; [|done]. by simplify_eq.
    + by simplify_eq.
  - unfold activate_catalog. case_bool_decide; [done|]. apply with_job_frame.
  - unfold demote_catalog. destruct (oes_jobs s !! _); [|done].
    destruct maintenance; [case_bool_decide|]; done.
  - unfold request_open_due. destruct (oes_jobs s !! _); [|done]. by case_bool_decide.
Qed.

Lemma schedule_manual_retry_frame key now s :
  let s' := (schedule_manual_retry key now s).1 in
  oes_in_flight s' = oes_in_flight s ∧ oes_next_token s' = oes_next_token s ∧
  oes_circuit s' = oes_circuit s.
Proof. unfold schedule_manual_retry. by destruct (oes_jobs s !! key). Qed.

Lemma request_manual_frame t now s :
  let s' := (request_manual_target_retry t now s).1 in
  oes_in_flight s' = oes_in_flight s ∧ oes_next_token s' = oes_next_token s.
Proof.
  unfold request_manual_target_retry. case_bool_decide; [done|].
  destruct (oes_circuit s) as [|until|job r a]; simpl.
  - by destruct (schedule_manual_retry_frame (OriginJobKey_catalog t) now s) as (? & ? & _).
  - case_bool_decide; [done|].
    by destruct (schedule_manual_retry_frame (OriginJobKey_catalog t) now
      (set_circuit OriginCircuit_Closed s)) as (? & ? & _).
  - case_bool_decide; [|done].
    by destruct (schedule_manual_retry_frame job now
      (set_circuit (OriginCircuit_FatalDiagnostic job now true) s)) as (? & ? & _).
Qed.

Lemma apply_op_token_step op s s' evs :
  scheduler_wf s → apply_op op s = Some (s', evs) → token_step s s' evs.
Proof.
  intros Hwf Happ. destruct (job_op op) eqn:Hjob.
  { destruct (job_op_frame op s s' evs Hjob Happ) as (-> & Hf & Hn & _).
    apply token_step_quiet; [|done]. unfold token_in_flight. by rewrite Hf. }
  destruct op; try done; unfold apply_op, quiet in Happ.
  - injection Happ as <- <-. destruct (request_manual_frame target now s) as [Hf Hn].
    apply token_step_quiet; [|done]. unfold token_in_flight. by rewrite Hf.
  - unfold start_next in Happ. case_bool_decide as Hbusy; simpl in Happ.
    { simplify_eq. by apply token_step_quiet. }
    destruct (choose_job _ _) as [[key j]|]; simpl in Happ.
    + destruct (oes_jobs s !! key); simpl in Happ; [|done]. simplify_eq.
      apply token_step_dispatch; try done. unfold token_in_flight.
      by destruct (oes_in_flight s); [destruct Hbusy|].
    + simplify_eq. by apply token_step_quiet.
  - unfold finish in Happ. destruct (oes_in_flight s) as [f|] eqn:Hf.
    2:{ injection Happ as <- <-. by apply token_step_quiet. }
    case_bool_decide as Htok; [injection Happ as <- <-; by apply token_step_quiet|].
    case_bool_decide; [injection Happ as <- <-; by apply token_step_quiet|].
    destruct (oes_jobs s !! if_key f) eqn:Hjf.
    + apply bind_Some in Happ as ([s1 r] & (due & _ & E)%bind_Some & Happ). injection E as <- <-. injection Happ as <- <-.
      apply token_step_finish; try done. unfold token_in_flight. rewrite Hf. cbn. congruence.
    + destruct Hwf as (_ & _ & Hfl & _). destruct (Hfl f Hf) as [[j Hj] _]. congruence.
  - injection Happ as <- <-. unfold authorize_diagnostic_recheck.
    destruct (oes_circuit s); try by apply token_step_quiet.
    case_bool_decide; by apply token_step_quiet.
Qed.

Lemma token_step_serial s s' evs evs0 :
  token_step s s' evs → u64_range (oes_next_token s) → oes_next_token s' < u64_max →
  serial evs0 (token_in_flight s) (oes_next_token s) →
  serial (evs0 ++ evs) (token_in_flight s') (oes_next_token s').
Proof.
  intros Hstep Hrange Hmax Hs. destruct Hstep as [-> ->|t key Hidle -> Hn Ht|t Ht -> ->].
  - by rewrite app_nil_r.
  - rewrite Hidle in Hs. rewrite Hn in Hmax |- *. eapply serial_dispatch; [done|].
    unfold u64_range, u64_saturating_add in *. lia.
  - rewrite Ht in Hs. by eapply serial_finish.
Qed.

Lemma token_step_mono s s' evs :
  token_step s s' evs → u64_range (oes_next_token s) → oes_next_token s ≤ oes_next_token s'.
Proof.
  intros [_ ->|t key _ _ -> ->|t _ _ ->]; unfold u64_range, u64_saturating_add; lia.
Qed.

Lemma run_ops_token_mono ops s s' evs :
  Forall op_wf ops → scheduler_wf s → run_ops ops s = Some (s', evs) →
  oes_next_token s ≤ oes_next_token s'.
Proof.
  intros Hops. revert s evs. induction Hops as [|op ops Hop _ IH]; intros s evs Hwf Hrun; simpl in Hrun.
  { simplify_eq. lia. }
  pose proof (apply_op_wf op s Hop Hwf) as Hwf1. destruct (apply_op op s) as [[s1 evs1]|] eqn:H1; simpl in Hrun; [|done].
  destruct (run_ops ops s1) as [[s2 evs2]|] eqn:H2; simpl in Hrun; [|done]. simplify_eq.
  pose proof (token_step_mono s s1 evs1 (apply_op_token_step _ _ _ _ Hwf H1) (proj1 (proj2 Hwf))).
  specialize (IH s1 evs2 Hwf1 H2). lia.
Qed.

Lemma run_ops_serial ops s s' evs evs0 :
  Forall op_wf ops → scheduler_wf s → run_ops ops s = Some (s', evs) →
  oes_next_token s' < u64_max →
  serial evs0 (token_in_flight s) (oes_next_token s) →
  serial (evs0 ++ evs) (token_in_flight s') (oes_next_token s').
Proof.
  intros Hops. revert s evs evs0. induction Hops as [|op ops Hop Hops IH]; intros s evs evs0 Hwf Hrun Hmax Hs.
  { simpl in Hrun. simplify_eq. by rewrite app_nil_r. }
  pose proof (apply_op_wf op s Hop Hwf) as Hwf1. simpl in Hrun.
  destruct (apply_op op s) as [[s1 evs1]|] eqn:H1; simpl in Hrun; [|done].
  pose proof (apply_op_token_step op s s1 evs1 Hwf H1) as Hstep.
  destruct (run_ops ops s1) as [[s2 evs2]|] eqn:H2; simpl in Hrun; [|done]. simplify_eq.
  assert (u64_range (oes_next_token s)) as Hrange by apply Hwf.
  pose proof (token_step_mono _ _ _ Hstep Hrange).
  pose proof (run_ops_token_mono ops s1 s' evs2 Hops Hwf1 H2).
  rewrite (assoc_L (++)).
  apply (IH s1); [done|done|done|]. eapply token_step_serial; [done|done|lia|done].
Qed.

(** One origin workflow at a time: over any sequence of calls, dispatches
    and completions strictly alternate, every completion carries the token of
    the dispatch before it, and tokens strictly increase, as long as the token
    counter has not saturated. *)
Theorem dispatch_serial (ops : list sched_op) (s : OriginEdfScheduler) (evs : list sched_event) :
  Forall op_wf ops → run_ops ops OriginEdfScheduler_new = Some (s, evs) →
  oes_next_token s < u64_max → serial evs (token_in_flight s) (oes_next_token s).
Proof.
  intros Hops Hrun Hmax. rewrite <-(app_nil_l evs).
  apply (run_ops_serial ops OriginEdfScheduler_new s evs []);
    [done|apply OriginEdfScheduler_new_wf|done|done|constructor].
Qed.

(** ** What the circuits block *)

(** A circuit that lets nothing through by itself. *)
Definition circuit_holds (c : OriginCircuit) : Prop :=
  match c with
  | OriginCircuit_Closed | OriginCircuit_FatalDiagnostic _ _ true => False
  | OriginCircuit_RetryAfter _ | OriginCircuit_FatalDiagnostic _ _ false => True
  end.

(** The calls that can release it: time passing the cooldown, or an explicit
    authorization. *)
Definition may_release (c : OriginCircuit) (op : sched_op) : Prop :=
  match c, op with
  | OriginCircuit_RetryAfter until, (StartNext now | RequestManualTargetRetry _ now) => until ≤ now
  | OriginCircuit_FatalDiagnostic _ recheck _, AuthorizeDiagnosticRecheck now => recheck ≤ now
  | OriginCircuit_FatalDiagnostic job _ _, RequestManualTargetRetry target _ => ojk_target job = target
  | _, _ => False
  end.

Lemma circuit_holds_step op s s' evs :
  oes_in_flight s = None → circuit_holds (oes_circuit s) → ¬ may_release (oes_circuit s) op →
  apply_op op s = Some (s', evs) →
  evs = [] ∧ oes_in_flight s' = None ∧ oes_circuit s' = oes_circuit s.
Proof.
  intros Hidle Hc Hrel Happ. destruct (job_op op) eqn:Hjob.
  { destruct (job_op_frame op s s' evs Hjob Happ) as (-> & -> & _ & ->). done. }
  destruct op; try done; unfold apply_op, quiet in Happ.
  - injection Happ as <- <-. unfold request_manual_target_retry.
    rewrite Hidle, bool_decide_eq_false_2 by (by intros [? ?]).
    destruct (oes_circuit s) as [|until|job r a] eqn:Ec; simpl in *; [done| |].
    + rewrite bool_decide_eq_true_2 by lia. by simpl; rewrite ?Ec.
    + rewrite bool_decide_eq_false_2 by done. by simpl; rewrite ?Ec.
  - unfold start_next, choose_job in Happ.
    rewrite Hidle, bool_decide_eq_false_2 in Happ by (by intros [? ?]).
    cbn [oes_circuit set_circuit] in Happ. rewrite circuit_gate_settle in Happ.
    destruct (oes_circuit s) as [|until|job r a] eqn:Ec; simpl in *; [done| |].
    + rewrite bool_decide_eq_false_2 in Happ by done. simpl in Happ. by simplify_eq.
    + destruct a; [done|]. simpl in Happ. by simplify_eq.
  - unfold finish in Happ. rewrite Hidle in Happ. by injection Happ as <- <-.
  - injection Happ as <- <-. unfold authorize_diagnostic_recheck.
    destruct (oes_circuit s) as [|until|job r a] eqn:Ec; simpl in *; [done|by rewrite ?Ec|].
    rewrite bool_decide_eq_false_2 by done. by simpl; rewrite ?Ec.
Qed.

(** An open origin circuit holds: while the retry-after circuit has not
    elapsed, or the fatal diagnostic has not been authorized, no sequence of
    other calls (registrations, watch changes, demand, completions, polling)
    dispatches anything or changes the circuit. *)
Theorem circuit_holds_until_released (ops : list sched_op) (s s' : OriginEdfScheduler)
    (evs : list sched_event) :
  oes_in_flight s = None → circuit_holds (oes_circuit s) →
  (∀ op, op ∈ ops → ¬ may_release (oes_circuit s) op) →
  run_ops ops s = Some (s', evs) →
  evs = [] ∧ oes_in_flight s' = None ∧ oes_circuit s' = oes_circuit s.
Proof.
  revert s evs. induction ops as [|op ops IH]; intros s evs Hidle Hc Hrel Hrun; simpl in Hrun.
  { by simplify_eq. }
  destruct (apply_op op s) as [[s1 evs1]|] eqn:H1; simpl in Hrun; [|done].
  destruct (run_ops ops s1) as [[s2 evs2]|] eqn:H2; simpl in Hrun; [|done]. simplify_eq.
  destruct (circuit_holds_step op s s1 evs1) as (-> & Hidle1 & Hc1); [done|done|set_solver|done|].
  destruct (IH s1 evs2) as (-> & Hidle2 & Hc2); [done|by rewrite Hc1| |done|].
  - intros op' Hop'. rewrite Hc1. set_solver.
  - split_and!; [done|done|by rewrite Hc2].
Qed.

(** One probe per authorization: under a fatal diagnostic circuit a
    dispatch requires an authorization and its cooldown, goes to the failed
    job whatever else is due, and consumes the authorization. *)
Theorem diagnostic_probe_once (now : MonotonicTime) (s s' : OriginEdfScheduler)
    (d : OriginDispatch) (job : OriginJobKey) (recheck : MonotonicTime) (authorized : bool) :
  oes_circuit s = OriginCircuit_FatalDiagnostic job recheck authorized →
  start_next now s = Some (s', Some d) →
  authorized = true ∧ recheck ≤ now ∧ od_key d = job ∧
  oes_circuit s' = OriginCircuit_FatalDiagnostic job recheck false ∧
  circuit_holds (oes_circuit s').
Proof.
  intros Hc. unfold start_next. case_bool_decide; [done|]. unfold choose_job.
  cbn [oes_circuit set_circuit oes_jobs]. rewrite Hc. simpl.
  destruct authorized; simpl; [|done]. case_bool_decide; simpl; [|done].
  destruct (oes_jobs s !! job) as [j|] eqn:Hj; simpl; [|done]. case_bool_decide; [done|]. simpl.
  rewrite Hj. simpl. intros. by simplify_eq.
Qed.

(** ** Demand *)

(** Calls by which product demand raises the urgency of a target. *)
Definition demand_op (op : sched_op) : Prop :=
  match op with
  | RegisterCatalog _ i _ | RegisterCatalogInitial _ i _ _ => True
  | RegisterCatalogOneShot _ _ _ => True
  | RegisterOpen _ _ n _ _ => 0 < n
  | SetCatalogWatchCount _ _ | ActivateCatalog _ _ _ | ActivateOpen _ _ _ => True
  | SetOpenWatchCount _ _ n _ => 0 < n
  | RequestOpenDue _ _ _ => True
  | _ => False
  end.

Definition no_later (s s' : OriginEdfScheduler) : Prop :=
  ∀ key j, oes_jobs s !! key = Some j → js_active j = true →
  ∃ j', oes_jobs s' !! key = Some j' ∧ js_active j' = true ∧ js_next_due j' ≤ js_next_due j.

Lemma no_later_refl s : no_later s s.
Proof. intros key j Hj Ha. exists j. split_and!; [done|done|lia]. Qed.

Lemma no_later_trans s1 s2 s3 : no_later s1 s2 → no_later s2 s3 → no_later s1 s3.
Proof.
  intros H12 H23 key j Hj Ha. destruct (H12 key j Hj Ha) as (j2 & Hj2 & Ha2 & Hd2).
  destruct (H23 key j2 Hj2 Ha2) as (j3 & Hj3 & Ha3 & Hd3). exists j3. split_and!; [done|done|lia].
Qed.

Lemma no_later_insert s key j' :
  (∀ j, oes_jobs s !! key = Some j → js_active j = true →
     js_active j' = true ∧ js_next_due j' ≤ js_next_due j) →
  no_later s (set_jobs (<[key := j']> (oes_jobs s)) s).
Proof.
  intros Hj k j Hk Ha. simpl. destruct (decide (k = key)) as [->|Hne].
  - exists j'. rewrite lookup_insert_eq. split; [done|]. by apply Hj.
  - exists j. rewrite lookup_insert_ne by done. split_and!; [done|done|lia].
Qed.

Lemma no_later_with_job s key f :
  (∀ j, js_active j = true → js_active (f j) = true ∧ js_next_due (f j) ≤ js_next_due j) →
  no_later s (with_job key f s).1.
Proof.
  intros Hf. unfold with_job. destruct (oes_jobs s !! key) as [j|] eqn:Hj; [|apply no_later_refl].
  apply no_later_insert. intros j0 Hj0 Ha. simplify_eq. by apply Hf.
Qed.

Lemma no_later_upsert s key r : no_later s (upsert key r s).1.
Proof.
  unfold upsert. case_bool_decide; [apply no_later_refl|].
  apply no_later_insert. intros j Hj _. rewrite Hj. simpl. split; [done|lia].
Qed.

Lemma no_later_register_open s t i n now d :
  0 < n → no_later s (register_open t i n now d s).1.
Proof.
  intros Hn. unfold register_open, register_open_with_mode.
  rewrite (bool_decide_eq_true_2 (0 < n)) by done.
  match goal with |- context [upsert ?k ?r s] =>
    pose proof (no_later_upsert s k r) as Hup;
    assert (∀ j, oes_jobs (upsert k r s).1 !! k = Some j →
      (upsert k r s).2 = Ok () → js_normal_lane j = OriginSchedulerLane_OpenActiveWatch) as Hlane
  end.
  { intros j. unfold upsert. case_bool_decide; simpl; [done|].
    rewrite lookup_insert_eq. intros [= <-] _. by destruct (oes_jobs s !! _). }
  destruct (upsert _ _ s) as [s1 [[]|e]]; simpl in *; [|done].
  destruct (bool_decide (is_Some _)); [|done].
  eapply no_later_trans; [done|]. unfold update_due_for_interval_change.
  destruct (oes_jobs s1 !! OriginJobKey_open t) as [j|] eqn:Hj; [|apply no_later_refl].
  rewrite (Hlane j eq_refl eq_refl). simpl.
  apply no_later_insert. intros j0 Hj0 Ha. simplify_eq. simpl. split; [done|lia].
Qed.

(** Demand never postpones work: a registration, activation, watch or
    explicit request leaves every active job of the scheduler active and due
    no later than before. *)
Theorem demand_never_postpones (op : sched_op) (s s' : OriginEdfScheduler)
    (evs : list sched_event) :
  demand_op op → apply_op op s = Some (s', evs) → no_later s s'.
Proof.
  intros Hop Happ. destruct op; try done; unfold apply_op in Happ;
    cbn [demand_op] in Hop; apply quiet_inv in Happ as [-> _].
  - apply no_later_upsert.
  - apply no_later_upsert.
  - apply no_later_upsert.
  - by apply no_later_register_open.
  - apply no_later_with_job. intros j Ha. simpl. split; [done|lia].
  - unfold activate_catalog. case_bool_decide; [apply no_later_refl|].
    apply no_later_with_job. intros j Ha. simpl. split; [done|lia].
  - apply no_later_with_job. intros j Ha. simpl. rewrite Ha. simpl. split; [done|lia].
  - apply no_later_with_job. intros j Ha. simpl. rewrite Ha, (bool_decide_eq_true_2 (0 < watches)) by done.
    simpl. destruct (bool_decide (0 < js_active_watch_count j)); simpl; split; try done; lia.
  - unfold request_open_due. destruct (oes_jobs s !! _) as [j|] eqn:Hj; [|apply no_later_refl].
    case_bool_decide; [apply no_later_refl|].
    apply no_later_insert. intros j0 Hj0 Ha. simplify_eq. simpl. rewrite Ha. split; [done|lia].
Qed.

(** ** A concrete run *)

Definition example_interval : Z := duration_from_secs 60.

(** A catalog job and a watched Open job, both due at 0; the Open job runs
    first, then the catalog job, whose failure opens the origin circuit. *)
Definition example_ops : list sched_op := [
  RegisterCatalog example_target example_interval 0;
  RegisterOpen example_target OpenRefreshIntervals_public 1 0 0;
  StartNext 5;
  Finish 1 10 CompletionSchedule_Success;
  StartNext 15;
  StartNext 16;
  Finish 1 20 CompletionSchedule_Success;
  Finish 2 20 (CompletionSchedule_Retry {|
    rd_delay := duration_from_secs 60; rd_mode := RetryMode_OriginCircuit;
    rd_next_failure_streak := 1; rd_clears_fatal_diagnostic := false |});
  StartNext 30000
].

Lemma example_ops_wf : Forall op_wf example_ops.
Proof.
  unfold example_ops, example_interval, duration_from_secs, NANOS_PER_SEC.
  repeat (apply Forall_cons; split); try apply Forall_nil; try done;
    unfold op_wf, completion_wf, u64_range, u64_max; simpl; split_and?; try done; try lia.
  all: by vm_compute.
Qed.

Definition example_state : OriginEdfScheduler :=
  default OriginEdfScheduler_new (fst <$> run_ops example_ops OriginEdfScheduler_new).

(** The state before the first dispatch. *)
Definition example_registered : OriginEdfScheduler :=
  default OriginEdfScheduler_new (fst <$> run_ops (take 2 example_ops) OriginEdfScheduler_new).

(** The state with the watched Open job in flight. *)
Definition example_busy : OriginEdfScheduler :=
  default OriginEdfScheduler_new (fst <$> run_ops (take 3 example_ops) OriginEdfScheduler_new).

Lemma example_prefix_wf n s evs :
  run_ops (take n example_ops) OriginEdfScheduler_new = Some (s, evs) → scheduler_wf s.
Proof.
  intros Hrun. pose proof (run_ops_wf (take n example_ops) OriginEdfScheduler_new) as Hwf. rewrite Hrun in Hwf.
  apply Hwf; [apply Forall_take, example_ops_wf|apply OriginEdfScheduler_new_wf].
Qed.

Example example_run_events :
  snd <$> run_ops example_ops OriginEdfScheduler_new =
  Some [Dispatched 1 (OriginJobKey_open example_target); Finished 1;
        Dispatched 2 (OriginJobKey_catalog example_target); Finished 2].
Proof. vm_compute. reflexivity. Qed.

Lemma watched_open_first_witness :
  ∃ s' d j', start_next 5 example_registered = Some (s', Some d) ∧
    circuit_gate 5 (oes_circuit example_registered) = CircuitGate_Any ∧
    due_now 5 example_registered (OriginJobKey_open example_target) j' ∧
    0 < js_active_watch_count j' ∧ ojk_kind (od_key d) = OriginJobKind_Open.
Proof.
  destruct (start_next 5 example_registered) as [[s' [d|]]|] eqn:Hs;
    [|vm_compute in Hs; discriminate..].
  destruct (oes_jobs example_registered !! OriginJobKey_open example_target) as [j'|] eqn:Hj;
    [|vm_compute in Hj; discriminate].
  exists s', d, j'.
  assert (circuit_gate 5 (oes_circuit example_registered) = CircuitGate_Any) as Hg
    by (vm_compute; reflexivity).
  assert (due_now 5 example_registered (OriginJobKey_open example_target) j' ∧
          0 < js_active_watch_count j') as [Hdue Hw].
  { unfold due_now. rewrite Hj. vm_compute in Hj. injection Hj as <-.
    split; [split; [reflexivity|]; split; [reflexivity|vm_compute; discriminate]|reflexivity]. }
  split; [reflexivity|]. split; [exact Hg|]. split; [exact Hdue|]. split; [exact Hw|].
  destruct (watched_open_first 5 example_registered s' d (OriginJobKey_open example_target) j'
    Hs Hg Hdue eq_refl Hw) as (j & _ & Hk & _). exact Hk.
Defined.

Lemma first_future_due_spec_witness :
  u64_range 1000 ∧ u64_range 3500 ∧ first_future_due 1000 (duration_from_secs 1) 3500 = Some 4000 ∧ 1000 ≤ 4000.
Proof.
  assert (u64_range 1000) as H1 by (unfold u64_range, u64_max; lia).
  assert (u64_range 3500) as H2 by (unfold u64_range, u64_max; lia).
  split; [exact H1|]. split; [exact H2|]. split; [vm_compute; reflexivity|].
  exact (proj1 (proj2 (first_future_due_spec 1000 (duration_from_secs 1) 3500 H1 H2))).
Defined.

Lemma restore_monotonic_due_spec_witness :
  u64_range 100 ∧ - 2 ^ 127 ≤ 5000 < 2 ^ 127 ∧ - 2 ^ 127 ≤ 7000 < 2 ^ 127 ∧
  restore_monotonic_due 100 5000 7000 = 2100 ∧ 100 ≤ restore_monotonic_due 100 5000 7000.
Proof.
  assert (u64_range 100) as H1 by (unfold u64_range, u64_max; lia).
  assert (- 2 ^ 127 ≤ 5000 < 2 ^ 127) as H2 by lia.
  assert (- 2 ^ 127 ≤ 7000 < 2 ^ 127) as H3 by lia.
  split; [exact H1|]. split; [exact H2|]. split; [exact H3|]. split; [vm_compute; reflexivity|].
  exact (proj1 (proj2 (restore_monotonic_due_spec 100 5000 7000 H1 H2 H3))).
Defined.

Lemma example_busy_wf : scheduler_wf example_busy.
Proof.
  destruct (run_ops (take 3 example_ops) OriginEdfScheduler_new) as [[s e]|] eqn:Hr.
  - unfold example_busy. rewrite Hr. by apply (example_prefix_wf 3 s e).
  - vm_compute in Hr. discriminate.
Qed.

Lemma finish_spec_witness :
  scheduler_wf example_busy ∧
  match finish 1 10 CompletionSchedule_Success example_busy with
  | Some (s', Ok _) => oes_in_flight s' = None ∧ oes_next_token s' = oes_next_token example_busy
  | _ => False
  end.
Proof.
  split; [exact example_busy_wf|]. assert (u64_range 10) as Hr by (unfold u64_range, u64_max; lia).
  pose proof (finish_spec 1 10 CompletionSchedule_Success example_busy example_busy_wf Hr) as Hspec.
  destruct (finish 1 10 CompletionSchedule_Success example_busy) as [[s' [[]|e]]|] eqn:Hf;
    [|vm_compute in Hf; discriminate..].
  destruct Hspec as (f & j & j' & _ & _ & _ & _ & Hi & Ht & _). exact (conj Hi Ht).
Defined.

(** A job of one millisecond that was due at the first instant of the clock and
    completes at the last one. *)
Definition overflow_ops : list sched_op :=
  [RegisterCatalog example_target 1000000 0; StartNext 0; Finish 1 u64_max CompletionSchedule_Success].

Lemma overflow_ops_wf : Forall op_wf overflow_ops.
Proof. repeat constructor; cbn; unfold u64_range, u64_max; lia. Qed.

(** The completion of a cadence can overflow: the addition of line 1025 of
    scheduler.rs is the only one of [first_future_due] that does not saturate. *)
Example cadence_overflow_panics :
  Forall op_wf overflow_ops ∧ run_ops overflow_ops OriginEdfScheduler_new = None.
Proof. split; [apply overflow_ops_wf|vm_compute; reflexivity]. Qed.

Lemma scheduler_reachable_wf_witness :
  ∃ s evs, Forall op_wf example_ops ∧ run_ops example_ops OriginEdfScheduler_new = Some (s, evs) ∧ scheduler_wf s.
Proof.
  destruct (run_ops example_ops OriginEdfScheduler_new) as [[s evs]|] eqn:Hrun;
    [|vm_compute in Hrun; discriminate].
  exists s, evs. split; [exact example_ops_wf|]. split; [reflexivity|].
  exact (proj1 (scheduler_reachable_wf example_ops example_ops_wf) s evs Hrun).
Defined.

Lemma dispatch_serial_witness :
  ∃ s evs, Forall op_wf example_ops ∧
    run_ops example_ops OriginEdfScheduler_new = Some (s, evs) ∧
    oes_next_token s < u64_max ∧ length evs = 4%nat ∧
    serial evs (token_in_flight s) (oes_next_token s).
Proof.
  destruct (run_ops example_ops OriginEdfScheduler_new) as [[s evs]|] eqn:Hrun;
    [|vm_compute in Hrun; discriminate].
  exists s, evs. split; [exact example_ops_wf|]. split; [reflexivity|].
  assert (oes_next_token s < u64_max ∧ length evs = 4%nat) as [Hmax Hlen].
  { vm_compute in Hrun. injection Hrun as <- <-. split; reflexivity. }
  split; [exact Hmax|]. split; [exact Hlen|].
  exact (dispatch_serial example_ops s evs example_ops_wf Hrun Hmax).
Defined.

Lemma circuit_holds_until_released_witness :
  let ops := [StartNext 30000; ActivateOpen example_target OpenRefreshIntervals_public 40000;
              RequestManualTargetRetry example_target 60019] in
  oes_circuit example_state = OriginCircuit_RetryAfter 60020 ∧
  oes_in_flight example_state = None ∧ circuit_holds (oes_circuit example_state) ∧
  (∀ op, op ∈ ops → ¬ may_release (oes_circuit example_state) op) ∧
  ∃ s', run_ops ops example_state = Some (s', []) ∧ oes_circuit s' = oes_circuit example_state.
Proof.
  intros ops.
  assert (oes_circuit example_state = OriginCircuit_RetryAfter 60020) as Hc
    by (vm_compute; reflexivity).
  assert (oes_in_flight example_state = None) as Hidle by (vm_compute; reflexivity).
  assert (circuit_holds (oes_circuit example_state)) as Hholds by (rewrite Hc; exact I).
  assert (∀ op, op ∈ ops → ¬ may_release (oes_circuit example_state) op) as Hrel.
  { rewrite Hc. intros op Hop. unfold ops in Hop.
    rewrite !elem_of_cons, elem_of_nil in Hop.
    destruct Hop as [->|[->|[->|[]]]]; simpl; lia. }
  split; [exact Hc|]. split; [exact Hidle|]. split; [exact Hholds|]. split; [exact Hrel|].
  destruct (run_ops ops example_state) as [[s' evs]|] eqn:Hrun;
    [|vm_compute in Hrun; discriminate].
  destruct (circuit_holds_until_released ops example_state s' evs Hidle Hholds Hrel Hrun)
    as (Hevs & _ & Hc'). exists s'. rewrite Hevs. split; [reflexivity|exact Hc'].
Defined.

(** The registered state after a fatal diagnosis of the Open job, authorized. *)
Definition example_authorized : OriginEdfScheduler :=
  set_circuit (OriginCircuit_FatalDiagnostic (OriginJobKey_open example_target) 3 true)
    example_registered.

Lemma diagnostic_probe_once_witness :
  ∃ s' d, start_next 5 example_authorized = Some (s', Some d) ∧
    od_key d = OriginJobKey_open example_target ∧ circuit_holds (oes_circuit s').
Proof.
  destruct (start_next 5 example_authorized) as [[s' [d|]]|] eqn:Hs;
    [|vm_compute in Hs; discriminate..].
  exists s', d. split; [reflexivity|].
  destruct (diagnostic_probe_once 5 example_authorized s' d (OriginJobKey_open example_target) 3 true
    eq_refl Hs) as (_ & _ & Hk & _ & Hh). exact (conj Hk Hh).
Defined.

Lemma demand_never_postpones_witness :
  let op := ActivateCatalog example_target example_interval 7 in
  demand_op op ∧ ∃ s', apply_op op example_registered = Some (s', []) ∧ no_later example_registered s'.
Proof.
  intros op. split; [exact I|].
  destruct (apply_op op example_registered) as [[s' evs]|] eqn:Happ;
    [|vm_compute in Happ; discriminate].
  exists s'. pose proof (demand_never_postpones op example_registered s' evs I Happ) as Hno.
  assert (evs = []) as Hevs by exact (proj2 (quiet_inv _ s' evs Happ)).
  rewrite Hevs. split; [reflexivity|exact Hno].
Defined.
