(* ===== verification/OpenStore.v ===== *)
(** * What the Open service stores
    (crates/bcsp-operational-storage/src/open.rs)

    The classifications of attempts, lanes, cache and section states with the
    texts they are stored as, and the records the service exchanges with the
    storage. The SQLite tables behind them are not modelled. *)

From S2P Require Import Prelude Identity Contracts.

(** ** Errors (error.rs)

    The errors the operations on Open pulls return. A failure of SQLite itself,
    of which only violated keys, a missing row and an integer that leaves its
    range are modelled, is [StorageError_Sqlite]. *)
Inductive StorageError :=
| StorageError_Sqlite
| StorageError_Identity (error : IdentityError)
| StorageError_CatalogTargetNotPublished
| StorageError_CatalogContentVersionMismatch (requested current : Z)
| StorageError_InvalidCommand (field reason : string)
| StorageError_ObservationNotStaged (observation_id : TraceId)
| StorageError_OpenAttemptNotFound (attempt_id : TraceId)
| StorageError_OpenAttemptNotStarted (attempt_id : TraceId)
| StorageError_OpenTargetInFlight (attempt_id : TraceId)
| StorageError_OpenAttemptSuperseded (attempt_id : TraceId)
| StorageError_InvalidStoredProjection (table field reason : string)
| StorageError_StoredIntegerOutOfRange.

Definition invalid_stored (table field : string) : StorageError :=
  StorageError_InvalidStoredProjection table field "contains an unsupported Open projection".

Inductive OpenAttemptClassification :=
| OpenAttemptClassification_Started
| OpenAttemptClassification_ValidApplied
| OpenAttemptClassification_ValidEmptyNoRows
| OpenAttemptClassification_Failed
| OpenAttemptClassification_UnsafeEmpty
| OpenAttemptClassification_UnsafeZeroIntersection
| OpenAttemptClassification_SuspectPartialSnapshot
| OpenAttemptClassification_StaleCatalogRace
| OpenAttemptClassification_Interrupted.

#[export] Instance OpenAttemptClassification_eq_dec : EqDecision OpenAttemptClassification.
Proof. solve_decision. Defined.

Definition OpenAttemptClassification_as_str (c : OpenAttemptClassification) : string :=
  match c with
  | OpenAttemptClassification_Started => "STARTED"
  | OpenAttemptClassification_ValidApplied => "VALID_APPLIED"
  | OpenAttemptClassification_ValidEmptyNoRows => "VALID_EMPTY_NO_ROWS"
  | OpenAttemptClassification_Failed => "FAILED"
  | OpenAttemptClassification_UnsafeEmpty => "UNSAFE_EMPTY"
  | OpenAttemptClassification_UnsafeZeroIntersection => "UNSAFE_ZERO_INTERSECTION"
  | OpenAttemptClassification_SuspectPartialSnapshot => "SUSPECT_PARTIAL_SNAPSHOT"
  | OpenAttemptClassification_StaleCatalogRace => "STALE_CATALOG_RACE"
  | OpenAttemptClassification_Interrupted => "INTERRUPTED"
  end.

Definition OpenAttemptClassification_parse (value : string)
    : result StorageError OpenAttemptClassification :=
  if bool_decide (value = "STARTED") then Ok OpenAttemptClassification_Started
  else if bool_decide (value = "VALID_APPLIED") then Ok OpenAttemptClassification_ValidApplied
  else if bool_decide (value = "VALID_EMPTY_NO_ROWS") then Ok OpenAttemptClassification_ValidEmptyNoRows
  else if bool_decide (value = "FAILED") then Ok OpenAttemptClassification_Failed
  else if bool_decide (value = "UNSAFE_EMPTY") then Ok OpenAttemptClassification_UnsafeEmpty
  else if bool_decide (value = "UNSAFE_ZERO_INTERSECTION")
  then Ok OpenAttemptClassification_UnsafeZeroIntersection
  else if bool_decide (value = "SUSPECT_PARTIAL_SNAPSHOT")
  then Ok OpenAttemptClassification_SuspectPartialSnapshot
  else if bool_decide (value = "STALE_CATALOG_RACE") then Ok OpenAttemptClassification_StaleCatalogRace
  else if bool_decide (value = "INTERRUPTED") then Ok OpenAttemptClassification_Interrupted
  else Err (invalid_stored "open_pull_attempts" "classification").

Definition is_success (c : OpenAttemptClassification) : bool :=
  match c with
  | OpenAttemptClassification_ValidApplied
  | OpenAttemptClassification_ValidEmptyNoRows => true
  | _ => false
  end.

Inductive OpenRequestLane :=
| OpenRequestLane_General
| OpenRequestLane_ActiveWatch
| OpenRequestLane_FirstLoad
| OpenRequestLane_ManualRefresh
| OpenRequestLane_CatalogRaceRecheck.

Definition OpenRequestLane_as_str (l : OpenRequestLane) : string :=
  match l with
  | OpenRequestLane_General => "GENERAL"
  | OpenRequestLane_ActiveWatch => "ACTIVE_WATCH"
  | OpenRequestLane_FirstLoad => "FIRST_LOAD"
  | OpenRequestLane_ManualRefresh => "MANUAL_REFRESH"
  | OpenRequestLane_CatalogRaceRecheck => "CATALOG_RACE_RECHECK"
  end.

Definition OpenRequestLane_parse (value : string) : result StorageError OpenRequestLane :=
  if bool_decide (value = "GENERAL") then Ok OpenRequestLane_General
  else if bool_decide (value = "ACTIVE_WATCH") then Ok OpenRequestLane_ActiveWatch
  else if bool_decide (value = "FIRST_LOAD") then Ok OpenRequestLane_FirstLoad
  else if bool_decide (value = "MANUAL_REFRESH") then Ok OpenRequestLane_ManualRefresh
  else if bool_decide (value = "CATALOG_RACE_RECHECK") then Ok OpenRequestLane_CatalogRaceRecheck
  else Err (invalid_stored "open_pull_attempts" "lane").

Inductive OpenCacheStatus :=
| OpenCacheStatus_NotApplicable
| OpenCacheStatus_Hit
| OpenCacheStatus_Miss
| OpenCacheStatus_Revalidated
| OpenCacheStatus_Bypass.

Definition OpenCacheStatus_as_str (s : OpenCacheStatus) : string :=
  match s with
  | OpenCacheStatus_NotApplicable => "NOT_APPLICABLE"
  | OpenCacheStatus_Hit => "HIT"
  | OpenCacheStatus_Miss => "MISS"
  | OpenCacheStatus_Revalidated => "REVALIDATED"
  | OpenCacheStatus_Bypass => "BYPASS"
  end.

Definition OpenCacheStatus_parse (value : string) : result StorageError OpenCacheStatus :=
  if bool_decide (value = "NOT_APPLICABLE") then Ok OpenCacheStatus_NotApplicable
  else if bool_decide (value = "HIT") then Ok OpenCacheStatus_Hit
  else if bool_decide (value = "MISS") then Ok OpenCacheStatus_Miss
  else if bool_decide (value = "REVALIDATED") then Ok OpenCacheStatus_Revalidated
  else if bool_decide (value = "BYPASS") then Ok OpenCacheStatus_Bypass
  else Err (invalid_stored "open_pull_attempts" "cache_status").

Inductive OpenSectionState := OpenSectionState_Open | OpenSectionState_Closed.

#[export] Instance OpenSectionState_eq_dec : EqDecision OpenSectionState.
Proof. solve_decision. Defined.

Definition OpenSectionState_as_str (s : OpenSectionState) : string :=
  match s with OpenSectionState_Open => "OPEN" | OpenSectionState_Closed => "CLOSED" end.

Definition OpenSectionState_parse (table value : string) : result StorageError OpenSectionState :=
  if bool_decide (value = "OPEN") then Ok OpenSectionState_Open
  else if bool_decide (value = "CLOSED") then Ok OpenSectionState_Closed
  else Err (invalid_stored table "state").

Record BeginOpenPullAttemptCommand := {
  bo_attempt_id : TraceId;
  bo_run_id : TraceId;
  bo_target : TermCampusKey;
  bo_captured_catalog_content_version : Z;
  bo_rutgers_day : string;
  bo_started_at : string;
  bo_lane : OpenRequestLane;
  bo_requested_interval_seconds : option Z;
  bo_effective_interval_seconds : option Z;
  bo_schedule_lag_ms : option Z
}.

Record OpenHttpAuditMetadata := {
  ha_http_status : option Z;
  ha_cache_status : option OpenCacheStatus;
  ha_decoded_bytes : option Z;
  ha_decoded_body_sha256 : option string;
  ha_content_type : option string;
  ha_etag : option string;
  ha_cache_control : option string;
  ha_date : option string;
  ha_age_seconds : option Z;
  ha_last_modified : option string;
  ha_retry_after : option string;
  ha_retry_after_seconds : option Z
}.

Record FinishOpenPullSuccessCommand := {
  fs_attempt_id : TraceId;
  fs_completed_at : string;
  fs_open_sections : list SectionKey;
  fs_source_value_count : Z;
  fs_watched_sections : list SectionKey;
  fs_http : OpenHttpAuditMetadata;
  fs_gate_hold : bool;
  fs_gate_catalog_set_identity : option string
}.

Record FinishOpenPullFailureCommand := {
  ff_attempt_id : TraceId;
  ff_completed_at : string;
  ff_http : OpenHttpAuditMetadata;
  ff_error_code : string;
  ff_diagnostic_token : option string
}.

Record OpenSectionEvent := {
  ev_event_id : Z;
  ev_observation_id : TraceId;
  ev_refresh_observation_id : TraceId;
  ev_attempt_id : TraceId;
  ev_section : SectionKey;
  ev_state : OpenSectionState;
  ev_catalog_content_version : Z;
  ev_observation_sequence : Z;
  ev_observed_at : string
}.

Record OpenAttemptCounters := {
  ac_attempted : Z;
  ac_succeeded : Z;
  ac_failed : Z;
  ac_empty : Z
}.

Record OpenObservationCommit := {
  cm_rutgers_day : string;
  cm_effective_interval_seconds : Z;
  cm_run_counts : OpenAttemptCounters;
  cm_target_day_counts : OpenAttemptCounters;
  cm_service_day_counts : OpenAttemptCounters;
  cm_section_events : list OpenSectionEvent
}.

Record OpenCommitOutcome := {
  co_attempt_id : TraceId;
  co_attempt_sequence : Z;
  co_classification : OpenAttemptClassification;
  co_refresh_observation_id : option TraceId;
  co_observation_sequence : option Z;
  co_catalog_content_version : Z;
  co_source_value_count : Z;
  co_catalog_section_count : Z;
  co_intersection_count : Z;
  co_orphan_count : Z;
  co_duplicate_count : Z;
  co_changed_section_count : Z;
  co_body_changed : bool;
  co_state_changed : bool;
  co_retained_lkg_attempt_id : option TraceId;
  co_observation_commit : option OpenObservationCommit
}.

Record OpenGateAttemptSummary := {
  gsu_classification : OpenAttemptClassification;
  gsu_canonical_set_sha256 : option string;
  gsu_completed_at : option string;
  gsu_catalog_set_identity : option string
}.

Record OpenCatalogSnapshot := {
  cs_target : TermCampusKey;
  cs_content_version : Z;
  cs_sections : list SectionKey
}.

(** * Lemmas *)

(** A value is read back from the text it is stored as, and from no other. *)
Lemma open_attempt_classification_roundtrip value c :
  OpenAttemptClassification_parse value = Ok c ↔ value = OpenAttemptClassification_as_str c.
Proof.
  unfold OpenAttemptClassification_parse. split; [|by intros ->; destruct c].
  repeat (case_bool_decide; [by intros [= <-]|]). done.
Qed.

Lemma open_request_lane_roundtrip value l :
  OpenRequestLane_parse value = Ok l ↔ value = OpenRequestLane_as_str l.
Proof.
  unfold OpenRequestLane_parse. split; [|by intros ->; destruct l].
  repeat (case_bool_decide; [by intros [= <-]|]). done.
Qed.

Lemma open_cache_status_roundtrip value s :
  OpenCacheStatus_parse value = Ok s ↔ value = OpenCacheStatus_as_str s.
Proof.
  unfold OpenCacheStatus_parse. split; [|by intros ->; destruct s].
  repeat (case_bool_decide; [by intros [= <-]|]). done.
Qed.

Lemma open_section_state_roundtrip table value s :
  OpenSectionState_parse table value = Ok s ↔ value = OpenSectionState_as_str s.
Proof.
  unfold OpenSectionState_parse. split; [|by intros ->; destruct s].
  repeat (case_bool_decide; [by intros [= <-]|]). done.
Qed.
