(* ===== verification/OpenService.v ===== *)
(** * The shared Open service (crates/bcsp-open/src/service.rs)

    One pull of a target, from the durable record of its start to the commit of
    its outcome: the snapshot is checked, put to the integrity gate and
    reconciled, committed, and only then the gate advances and the observations
    of the watched sections are handed out. The storage is a parameter; the
    service is written in a monad with its state, its errors and panics. *)

From stdpp Require Import pretty.
From S2P Require Import Prelude Identity Contracts RustStr TermWindow Policy Reconcile.
From S2P Require Import OpenClient Gate Scheduler OpenStore.

(** ** Interfaces *)

(** The formatting and parsing of RFC 3339 timestamps in the [time] crate. The
    clocks of the service are in UTC. *)
Class Rfc3339Api := {
  format_rfc3339 : OffsetDateTime → option string;
  parse_rfc3339 : string → option OffsetDateTime
}.

(** [jiff::civil::Date::to_string]. *)
Class JiffDisplay `{JiffApi} := date_to_string : JDate → string.

(** The trait [OpenPullPersistence]: operations of a storage [P] that fail with
    a storage error [E]. *)
Class OpenPullPersistence (P E : Type) := {
  serving_open_catalog_snapshot : P → TermCampusKey → result E (option OpenCatalogSnapshot) * P;
  begin_open_pull_attempt : P → BeginOpenPullAttemptCommand → result E Z * P;
  finish_open_pull_success : P → FinishOpenPullSuccessCommand → result E OpenCommitOutcome * P;
  finish_open_pull_failure : P → FinishOpenPullFailureCommand → result E OpenCommitOutcome * P;
  lkg_open_index_set : P → TermCampusKey → result E (option (gset SectionIndex)) * P;
  recent_open_gate_attempt_summaries : P → TermCampusKey → Z →
    result E (list OpenGateAttemptSummary) * P
}.

(** The trait [OpenPullClock]. *)
Class OpenPullClock (C : Type) := clock_now : C → OffsetDateTime * C.

(** ** Data *)

Inductive OpenCounterAudience :=
| OpenCounterAudience_Local (run_id : TraceId)
| OpenCounterAudience_Public.

Inductive OpenGateRoute := OpenGateRoute_Serving | OpenGateRoute_Candidate.

(** The gate set of the wiring is shared and part of the state below; the
    command holds the route. *)
Record OpenPullCommand := {
  pc_attempt_id : TraceId;
  pc_run_id : TraceId;
  pc_source_request : OpenSectionsRequest;
  pc_refresh_intervals : OpenRefreshIntervals;
  pc_active_watch_count : Z;
  pc_freshness_interval_seconds : Z;
  pc_lane : OriginSchedulerLane;
  pc_scheduler_lag : Z;
  pc_current_failure_streak : Z;
  pc_counter_audience : OpenCounterAudience;
  pc_gate : option OpenGateRoute
}.

Inductive OpenPullFailure :=
| OpenPullFailure_Upstream (failure : OpenSectionsFailure)
| OpenPullFailure_ResponseTargetMismatch (metadata : OpenResponseMetadata)
| OpenPullFailure_ResponseMetadataMismatch (metadata : OpenResponseMetadata)
| OpenPullFailure_CatalogUnavailableAfterFetch (metadata : OpenResponseMetadata).

Inductive OpenPullTerminal :=
| OpenPullTerminal_Valid (response : OpenSectionsResponse)
| OpenPullTerminal_Unsafe (response : OpenSectionsResponse)
| OpenPullTerminal_CatalogRace (response : OpenSectionsResponse)
| OpenPullTerminal_Failed (failure : OpenPullFailure).

Definition diagnostic_code (failure : OpenPullFailure) : string :=
  match failure with
  | OpenPullFailure_ResponseTargetMismatch _ => "OPEN_RESPONSE_TARGET_MISMATCH"
  | OpenPullFailure_ResponseMetadataMismatch _ => "OPEN_RESPONSE_METADATA_MISMATCH"
  | OpenPullFailure_CatalogUnavailableAfterFetch _ => "OPEN_CATALOG_UNAVAILABLE_AFTER_FETCH"
  | OpenPullFailure_Upstream failure =>
      match osf_kind failure with
      | OpenSectionsError_Timeout => "OPEN_TIMEOUT"
      | OpenSectionsError_Network => "OPEN_NETWORK"
      | OpenSectionsError_RequestConstruction => "OPEN_REQUEST_CONSTRUCTION"
      | OpenSectionsError_ResponseUrlMismatch => "OPEN_RESPONSE_URL_MISMATCH"
      | OpenSectionsError_TransientHttp _ => "OPEN_TRANSIENT_HTTP"
      | OpenSectionsError_RateLimited _ => "OPEN_RATE_LIMITED"
      | OpenSectionsError_Forbidden => "OPEN_FORBIDDEN"
      | OpenSectionsError_Redirect _ scope =>
          match scope with
          | RedirectScope_OffOrigin => "OPEN_OFF_ORIGIN_REDIRECT"
          | RedirectScope_SameOrigin => "OPEN_SAME_ORIGIN_REDIRECT"
          | RedirectScope_InvalidLocation => "OPEN_INVALID_REDIRECT"
          end
      | OpenSectionsError_FatalClientHttp _ => "OPEN_FATAL_CLIENT_HTTP"
      | OpenSectionsError_UnsupportedHttp _ => "OPEN_UNSUPPORTED_HTTP"
      | OpenSectionsError_InvalidContentType => "OPEN_INVALID_CONTENT_TYPE"
      | OpenSectionsError_ResponseTooLarge => "OPEN_RESPONSE_TOO_LARGE"
      | OpenSectionsError_ContentDecoding => "OPEN_CONTENT_DECODING"
      | OpenSectionsError_InvalidJson => "OPEN_INVALID_JSON"
      | OpenSectionsError_RootNotArray => "OPEN_ROOT_NOT_ARRAY"
      | OpenSectionsError_NonStringValue _ => "OPEN_NON_STRING_VALUE"
      | OpenSectionsError_InvalidSectionIndex _ => "OPEN_INVALID_SECTION_INDEX"
      end
  end.

Record OpenPullExecution := {
  pe_outcome : OpenCommitOutcome;
  pe_scheduler_completion : CompletionSchedule;
  pe_terminal : OpenPullTerminal;
  pe_reconcile : option OpenReconcilePlan;
  pe_observations : list OpenObservationV1
}.

Inductive SharedOpenServiceError (E : Type) :=
| ServiceError_TargetNotPublished (target : TermCampusKey)
| ServiceError_Storage (error : E)
| ServiceError_TimestampFormat
| ServiceError_RutgersDay
| ServiceError_ResponseCountOverflow
| ServiceError_InvalidCatalogVersion (error : CatalogContentVersionError)
| ServiceError_Reconcile (error : ReconcileInputError)
| ServiceError_ReconcileDivergence
| ServiceError_UnexpectedClassification
| ServiceError_CatalogSchedulerLane
| ServiceError_CounterAudienceRunMismatch
| ServiceError_ObservationSequence (error : OpenSequenceError)
| ServiceError_ObservationTarget (error : OpenObservationTargetMismatchError)
| ServiceError_ObservationCommit (reason : string)
| ServiceError_FreshUntilOverflow
| ServiceError_ZeroFreshnessInterval.
Arguments ServiceError_TargetNotPublished {E} target.
Arguments ServiceError_Storage {E} error.
Arguments ServiceError_TimestampFormat {E}.
Arguments ServiceError_RutgersDay {E}.
Arguments ServiceError_ResponseCountOverflow {E}.
Arguments ServiceError_InvalidCatalogVersion {E} error.
Arguments ServiceError_Reconcile {E} error.
Arguments ServiceError_ReconcileDivergence {E}.
Arguments ServiceError_UnexpectedClassification {E}.
Arguments ServiceError_CatalogSchedulerLane {E}.
Arguments ServiceError_CounterAudienceRunMismatch {E}.
Arguments ServiceError_ObservationSequence {E} error.
Arguments ServiceError_ObservationTarget {E} error.
Arguments ServiceError_ObservationCommit {E} reason.
Arguments ServiceError_FreshUntilOverflow {E}.
Arguments ServiceError_ZeroFreshnessInterval {E}.

(** [Result::map_err] with the [From] conversion of [?]. *)
Definition map_err {E F A} (f : E → F) (r : result E A) : result F A :=
  match r with Ok a => Ok a | Err e => Err (f e) end.



(** ** Days of the Rutgers calendar (crates/bcsp-contracts/src/open.rs) *)

(** [RutgersDay::try_from]. *)
Definition RutgersDay_try_from (value : string) : option RutgersDay :=
  if bool_decide (String.length value ≠ 10%nat)
     || negb (byte_is 45 (byte_at value 4))
     || negb (byte_is 45 (byte_at value 7))
     || negb (forallb is_ascii_digit
                (bytes (slice value 0 4 +:+ slice value 5 7 +:+ slice value 8 10)))
  then None
  else
    let year := decimal_value (slice value 0 4) in
    let month := decimal_value (slice value 5 7) in
    let day := decimal_value (slice value 8 10) in
    let leap := bool_decide (year mod 4 = 0)
                && (negb (bool_decide (year mod 100 = 0)) || bool_decide (year mod 400 = 0)) in
    maximum ← (if bool_decide (month ∈ [1; 3; 5; 7; 8; 10; 12]) then Some 31
               else if bool_decide (month ∈ [4; 6; 9; 11]) then Some 30
               else if bool_decide (month = 2) then Some (if leap then 29 else 28)
               else None);
    if bool_decide (day = 0) || bool_decide (maximum < day) then None
    else Some (mkRutgersDay value).

(** ** Pure parts of the service *)

Section service_data.
Context `{TimeApi, Sha256Api, JiffApi, !JiffDisplay, Rfc3339Api}.
Context {E : Type}.
Local Abbreviation service_result := (result (SharedOpenServiceError E)).

Definition validate_counter_audience (command : OpenPullCommand) : service_result () :=
  match pc_counter_audience command with
  | OpenCounterAudience_Local run_id =>
      if bool_decide (run_id ≠ pc_run_id command)
      then Err ServiceError_CounterAudienceRunMismatch else Ok ()
  | OpenCounterAudience_Public => Ok ()
  end.

Definition validate_committed_section_event (event : OpenSectionEvent) (attempt_id : TraceId)
    (refresh_observation_id : TraceId) (observation_sequence : Z) (catalog_content_version : Z)
    : service_result () :=
  if bool_decide (ev_event_id event = 0)
     || bool_decide (ev_attempt_id event ≠ attempt_id)
     || bool_decide (ev_refresh_observation_id event ≠ refresh_observation_id)
     || bool_decide (ev_observation_sequence event ≠ observation_sequence)
     || bool_decide (ev_catalog_content_version event ≠ catalog_content_version)
  then Err (ServiceError_ObservationCommit
              "committed Section event disagrees with its target commit")
  else Ok ().

Definition pull_counts (value : OpenAttemptCounters) : OpenPullCountsV1 :=
  {| opc_attempted := ac_attempted value;
     opc_succeeded := ac_succeeded value;
     opc_failed := ac_failed value;
     opc_empty := ac_empty value |}.

Definition committed_counter_snapshot (commit : OpenObservationCommit)
    (audience : OpenCounterAudience) : service_result OpenCounterSnapshotV1 :=
  let '(run_counts, today_counts) :=
    match audience with
    | OpenCounterAudience_Local _ =>
        (Some (pull_counts (cm_run_counts commit)), pull_counts (cm_target_day_counts commit))
    | OpenCounterAudience_Public => (None, pull_counts (cm_service_day_counts commit))
    end in
  rutgers_day ← ok_or ServiceError_RutgersDay (RutgersDay_try_from (cm_rutgers_day commit));
  Ok {| ocs_run_counts := run_counts;
        ocs_today_counts := today_counts;
        ocs_rutgers_day := rutgers_day;
        ocs_day_timezone := RutgersDayTimezone_AmericaNewYork |}.

Definition storage_lane (lane : OriginSchedulerLane) : service_result OpenRequestLane :=
  match lane with
  | OriginSchedulerLane_Catalog => Err ServiceError_CatalogSchedulerLane
  | OriginSchedulerLane_OpenGeneral => Ok OpenRequestLane_General
  | OriginSchedulerLane_OpenActiveWatch => Ok OpenRequestLane_ActiveWatch
  | OriginSchedulerLane_OpenFirstLoad => Ok OpenRequestLane_FirstLoad
  | OriginSchedulerLane_OpenManualRefresh => Ok OpenRequestLane_ManualRefresh
  | OriginSchedulerLane_OpenCatalogRaceRecheck => Ok OpenRequestLane_CatalogRaceRecheck
  end.

Definition retry_after_delay (retry_after : RetryAfterHeader) (completed_at : OffsetDateTime)
    : option Z :=
  match retry_after with
  | RetryAfterHeader_Valid (RetryAfterValue_DelaySeconds seconds) =>
      Some (duration_from_secs seconds)
  | RetryAfterHeader_Valid (RetryAfterValue_HttpDateUnixSeconds unix_seconds) =>
      let remaining := Z.max i64_min (Z.min i64_max (unix_seconds - completed_at / NANOS_PER_SEC)) in
      Some (duration_from_secs (Z.max remaining 0))
  | RetryAfterHeader_Missing | RetryAfterHeader_Invalid => None
  end.

Definition failure_storage_fields (failure : OpenPullFailure) (completed_at : OffsetDateTime)
    : option Z * option Z * string * OpenFailureKind :=
  match failure with
  | OpenPullFailure_ResponseTargetMismatch _ =>
      (None, None, "OPEN_RESPONSE_TARGET_MISMATCH", OpenFailureKind_FatalProtocol)
  | OpenPullFailure_ResponseMetadataMismatch _ =>
      (None, None, "OPEN_RESPONSE_METADATA_MISMATCH", OpenFailureKind_FatalProtocol)
  | OpenPullFailure_CatalogUnavailableAfterFetch _ =>
      (None, None, "OPEN_CATALOG_UNAVAILABLE_AFTER_FETCH", OpenFailureKind_Transient)
  | OpenPullFailure_Upstream failure =>
      match osf_kind failure with
      | OpenSectionsError_Timeout => (None, None, "OPEN_TIMEOUT", OpenFailureKind_Transient)
      | OpenSectionsError_Network => (None, None, "OPEN_NETWORK", OpenFailureKind_Transient)
      | OpenSectionsError_RequestConstruction =>
          (None, None, "OPEN_REQUEST_CONSTRUCTION", OpenFailureKind_FatalProtocol)
      | OpenSectionsError_ResponseUrlMismatch =>
          (None, None, "OPEN_RESPONSE_URL_MISMATCH", OpenFailureKind_FatalProtocol)
      | OpenSectionsError_TransientHttp status =>
          (Some status, None, "OPEN_TRANSIENT_HTTP", OpenFailureKind_Transient)
      | OpenSectionsError_RateLimited retry_after =>
          let retry_after := retry_after_delay retry_after completed_at in
          (Some 429, (λ delay, delay / NANOS_PER_SEC) <$> retry_after, "OPEN_RATE_LIMITED",
           OpenFailureKind_RateLimited retry_after)
      | OpenSectionsError_Forbidden =>
          (Some 403, None, "OPEN_FORBIDDEN", OpenFailureKind_FatalProtocol)
      | OpenSectionsError_Redirect status scope =>
          let error_code :=
            match scope with
            | RedirectScope_OffOrigin => "OPEN_OFF_ORIGIN_REDIRECT"
            | RedirectScope_SameOrigin => "OPEN_SAME_ORIGIN_REDIRECT"
            | RedirectScope_InvalidLocation => "OPEN_INVALID_REDIRECT"
            end in
          (Some status, None, error_code, OpenFailureKind_FatalProtocol)
      | OpenSectionsError_FatalClientHttp status =>
          (Some status, None, "OPEN_FATAL_CLIENT_HTTP", OpenFailureKind_FatalProtocol)
      | OpenSectionsError_UnsupportedHttp status =>
          (Some status, None, "OPEN_UNSUPPORTED_HTTP", OpenFailureKind_FatalProtocol)
      | OpenSectionsError_InvalidContentType =>
          (None, None, "OPEN_INVALID_CONTENT_TYPE", OpenFailureKind_FatalProtocol)
      | OpenSectionsError_ResponseTooLarge =>
          (None, None, "OPEN_RESPONSE_TOO_LARGE", OpenFailureKind_FatalProtocol)
      | OpenSectionsError_ContentDecoding =>
          (None, None, "OPEN_CONTENT_DECODING", OpenFailureKind_FatalProtocol)
      | OpenSectionsError_InvalidJson =>
          (None, None, "OPEN_INVALID_JSON", OpenFailureKind_FatalProtocol)
      | OpenSectionsError_RootNotArray =>
          (None, None, "OPEN_ROOT_NOT_ARRAY", OpenFailureKind_FatalProtocol)
      | OpenSectionsError_NonStringValue _ =>
          (None, None, "OPEN_NON_STRING_VALUE", OpenFailureKind_FatalProtocol)
      | OpenSectionsError_InvalidSectionIndex _ =>
          (None, None, "OPEN_INVALID_SECTION_INDEX", OpenFailureKind_FatalProtocol)
      end
  end.

(** [u64::try_from] of a [usize]. *)
Definition u64_try_from (n : Z) : option Z :=
  if bool_decide (0 ≤ n ≤ u64_max) then Some n else None.

Definition failure_http_audit (failure : OpenPullFailure) (fallback_http_status : option Z)
    (retry_after_seconds : option Z) : service_result OpenHttpAuditMetadata :=
  match failure with
  | OpenPullFailure_Upstream value =>
      match osf_response_metadata value with
      | None =>
          Ok {| ha_http_status := fallback_http_status;
                ha_cache_status := Some OpenCacheStatus_NotApplicable;
                ha_decoded_bytes := None;
                ha_decoded_body_sha256 := None;
                ha_content_type := None;
                ha_etag := None;
                ha_cache_control := None;
                ha_date := None;
                ha_age_seconds := None;
                ha_last_modified := None;
                ha_retry_after := None;
                ha_retry_after_seconds := retry_after_seconds |}
      | Some metadata =>
          decoded_bytes ← match ofm_decoded_bytes metadata with
                          | None => Ok None
                          | Some n => n ← ok_or ServiceError_ResponseCountOverflow (u64_try_from n); Ok (Some n)
                          end;
          Ok {| ha_http_status := Some (ofm_http_status metadata);
                ha_cache_status := Some OpenCacheStatus_NotApplicable;
                ha_decoded_bytes := decoded_bytes;
                ha_decoded_body_sha256 := ofm_decoded_body_sha256 metadata;
                ha_content_type := ofm_content_type metadata;
                ha_etag := ofm_etag metadata;
                ha_cache_control := ofm_cache_control metadata;
                ha_date := ofm_date metadata;
                ha_age_seconds := ofm_age_seconds metadata;
                ha_last_modified := ofm_last_modified metadata;
                ha_retry_after := ofm_retry_after_raw metadata;
                ha_retry_after_seconds := retry_after_seconds |}
      end
  | OpenPullFailure_ResponseTargetMismatch metadata
  | OpenPullFailure_ResponseMetadataMismatch metadata
  | OpenPullFailure_CatalogUnavailableAfterFetch metadata =>
      decoded_bytes ← ok_or ServiceError_ResponseCountOverflow (u64_try_from (orm_decoded_bytes metadata));
      Ok {| ha_http_status := Some (orm_http_status metadata);
            ha_cache_status := Some OpenCacheStatus_NotApplicable;
            ha_decoded_bytes := Some decoded_bytes;
            ha_decoded_body_sha256 := Some (orm_decoded_body_sha256 metadata);
            ha_content_type := Some (orm_content_type metadata);
            ha_etag := orm_etag metadata;
            ha_cache_control := orm_cache_control metadata;
            ha_date := orm_date metadata;
            ha_age_seconds := orm_age_seconds metadata;
            ha_last_modified := orm_last_modified metadata;
            ha_retry_after := None;
            ha_retry_after_seconds := retry_after_seconds |}
  end.

Definition outcome_matches_reconcile (outcome : OpenCommitOutcome) (reconcile : OpenReconcilePlan)
    : bool :=
  if bool_decide (co_classification outcome = OpenAttemptClassification_StaleCatalogRace)
  then bool_decide (co_observation_sequence outcome = None)
  else
  let expected_classification :=
    match orp_classification reconcile with
    | OpenReconcileClassification_ValidApplied => OpenAttemptClassification_ValidApplied
    | OpenReconcileClassification_ValidEmptyNoRows => OpenAttemptClassification_ValidEmptyNoRows
    | OpenReconcileClassification_UnsafeEmpty => OpenAttemptClassification_UnsafeEmpty
    | OpenReconcileClassification_UnsafeZeroIntersection =>
        OpenAttemptClassification_UnsafeZeroIntersection
    | OpenReconcileClassification_SuspectPartialSnapshot =>
        OpenAttemptClassification_SuspectPartialSnapshot
    | OpenReconcileClassification_StaleCatalogRace => OpenAttemptClassification_StaleCatalogRace
    end in
  bool_decide (co_classification outcome = expected_classification)
  && bool_decide (co_catalog_content_version outcome
                  = ccv_get (orp_current_catalog_content_version reconcile))
  && bool_decide (co_source_value_count outcome = orp_raw_value_count reconcile)
  && bool_decide (co_catalog_section_count outcome = orp_catalog_section_count reconcile)
  && bool_decide (co_intersection_count outcome = orp_observed_intersection_count reconcile)
  && bool_decide (co_orphan_count outcome = orp_orphan_count reconcile)
  && bool_decide (co_duplicate_count outcome = orp_duplicate_count reconcile).

Definition lkg_reference_within (lkg_open_set : gset SectionIndex) (catalog : CatalogOpenBatch) : Z :=
  zlen (filter (λ index, contains_index catalog index = true) (bts_iter lkg_open_set)).

Definition gate_restart_summaries (rows : list OpenGateAttemptSummary)
    : list RestartAttemptSummary :=
  (λ row,
     let completed_at := gsu_completed_at row ≫= parse_rfc3339 in
     let catalog_set_identity :=
       gsu_catalog_set_identity row ≫= CatalogSetIdentity_from_sha256_hex in
     match gsu_classification row, gsu_canonical_set_sha256 row, completed_at with
     | OpenAttemptClassification_SuspectPartialSnapshot, Some canonical_set_sha256,
       Some completed_at =>
         {| ras_is_suspect_partial := true;
            ras_canonical_set_sha256 := canonical_set_sha256;
            ras_completed_at := completed_at;
            ras_catalog_set_identity := catalog_set_identity |}
     | _, hash, at_ =>
         {| ras_is_suspect_partial := false;
            ras_canonical_set_sha256 := default "" hash;
            ras_completed_at := default 0 at_;
            ras_catalog_set_identity := catalog_set_identity |}
     end) <$> rows.

(** [None] is the panic of the hash, which is computed last. *)
Definition response_metadata_is_consistent (response : OpenSectionsResponse) : option bool :=
  let unique_count := zlen (osp_open_indexes response) in
  let expected_classification :=
    if bool_decide (unique_count = 0) then OpenPayloadClassification_Empty
    else OpenPayloadClassification_Nonempty in
  let metadata := osp_metadata response in
  if bool_decide (osp_classification response = expected_classification)
     && bool_decide (orm_unique_value_count metadata = unique_count)
     && bool_decide (unique_count ≤ orm_raw_value_count metadata)
     && bool_decide (orm_duplicate_value_count metadata
                     = saturating_sub (orm_raw_value_count metadata) unique_count)
  then
    hash ← canonical_open_set_sha256 (osp_open_indexes response);
    Some (bool_decide (hash = orm_canonical_set_sha256 metadata))
  else Some false.

Definition format_timestamp (value : OffsetDateTime) : service_result string :=
  ok_or ServiceError_TimestampFormat (format_rfc3339 value).

Definition rutgers_day_at (value : OffsetDateTime) : service_result string :=
  timestamp ← ok_or ServiceError_RutgersDay
    (timestamp_new (value / NANOS_PER_SEC) (value mod NANOS_PER_SEC));
  time_zone ← ok_or ServiceError_RutgersDay (time_zone_get RUTGERS_TIME_ZONE);
  Ok (date_to_string (zoned_date timestamp time_zone)).

Definition duration_millis (value : Z) : Z := u64_try_from_or_max (duration_as_millis value).

(** The loop of [build_committed_observations] over the events: the identifiers
    and sections seen so far, and the observations of the rest. *)
Fixpoint committed_observations (command : OpenPullCommand) (outcome : OpenCommitOutcome)
    (refresh_observation_id : TraceId) (observation_sequence : Z) (pull_sequence : OpenSequence)
    (catalog_content_version : CatalogContentVersion) (counter_snapshot : OpenCounterSnapshotV1)
    (freshness_seconds : Z) (observation_ids : gset TraceId) (section_keys : gset SectionKey)
    (events : list OpenSectionEvent) : service_result (list OpenObservationV1 * gset SectionKey) :=
  match events with
  | [] => Ok ([], section_keys)
  | event :: events =>
      _ ← validate_committed_section_event event (pc_attempt_id command) refresh_observation_id
            observation_sequence (co_catalog_content_version outcome);
      if bool_decide (ev_observation_id event ∈ observation_ids)
      then Err (ServiceError_ObservationCommit "committed Section observation IDs are duplicated")
      else if bool_decide (ev_section event ∈ section_keys)
      then Err (ServiceError_ObservationCommit
                  "committed watched Section identities are duplicated")
      else
      observed_at ← ok_or ServiceError_TimestampFormat (parse_rfc3339 (ev_observed_at event));
      fresh_until ← ok_or ServiceError_FreshUntilOverflow
        (odt_checked_add observed_at (freshness_seconds * NANOS_PER_SEC));
      let state := match ev_state event with
                   | OpenSectionState_Open => OpenState_Open
                   | OpenSectionState_Closed => OpenState_Closed
                   end in
      observation ← map_err ServiceError_ObservationTarget
        (OpenObservationV1_try_new OpenContractVersion_V1 (ev_observation_id event)
           (ev_refresh_observation_id event)
           (OpenBatchKey_new (obk_target (osr_target (pc_source_request command))))
           (ev_section event) pull_sequence catalog_content_version state observed_at fresh_until
           (duration_millis (pc_scheduler_lag command)) counter_snapshot);
      '(observations, section_keys) ←
        committed_observations command outcome refresh_observation_id observation_sequence
          pull_sequence catalog_content_version counter_snapshot freshness_seconds
          ({[ev_observation_id event]} ∪ observation_ids) ({[ev_section event]} ∪ section_keys)
          events;
      Ok (observation :: observations, section_keys)
  end.

(** [u64::checked_mul] and [u64::checked_add], then [i64::try_from]. *)
Definition freshness_seconds_of (effective_interval_seconds : Z) : option Z :=
  doubled ← u64_try_from (effective_interval_seconds * 2);
  value ← u64_try_from (doubled + 15);
  i64_checked value.

Definition build_committed_observations (command : OpenPullCommand) (outcome : OpenCommitOutcome)
    (expected_watched_sections : gset SectionKey) : service_result (list OpenObservationV1) :=
  commit ← ok_or (ServiceError_ObservationCommit "a valid pull omitted its observation commit")
    (co_observation_commit outcome);
  refresh_observation_id ← ok_or
    (ServiceError_ObservationCommit "a valid pull omitted its refresh observation ID")
    (co_refresh_observation_id outcome);
  observation_sequence ← ok_or
    (ServiceError_ObservationCommit "a valid pull omitted its observation sequence")
    (co_observation_sequence outcome);
  pull_sequence ← map_err ServiceError_ObservationSequence
    (OpenSequence_try_from (co_attempt_sequence outcome));
  catalog_content_version ← map_err ServiceError_InvalidCatalogVersion
    (CatalogContentVersion_try_from (co_catalog_content_version outcome));
  counter_snapshot ← committed_counter_snapshot commit (pc_counter_audience command);
  if bool_decide (cm_effective_interval_seconds commit = 0)
  then Err (ServiceError_ObservationCommit "a valid pull returned a zero effective interval")
  else
  freshness_seconds ← ok_or ServiceError_FreshUntilOverflow
    (freshness_seconds_of (cm_effective_interval_seconds commit));
  '(observations, section_keys) ←
    committed_observations command outcome refresh_observation_id observation_sequence
      pull_sequence catalog_content_version counter_snapshot freshness_seconds ∅ ∅
      (cm_section_events commit);
  if bool_decide (section_keys ≠ expected_watched_sections)
  then Err (ServiceError_ObservationCommit
              "committed Section events differ from the sampled watch set")
  else Ok observations.

End service_data.

(** ** The monad of the service *)

(** The storage, the gate set behind the mutex of the wiring ([None] when the
    mutex is poisoned) and everything else the pull reads: its clock and the
    watches. *)
Record PullState (P C : Type) := mkPullState {
  ps_store : P;
  ps_gates : option TargetGateSet;
  ps_env : C
}.
Arguments mkPullState {P C} ps_store ps_gates ps_env.
Arguments ps_store {P C} p.
Arguments ps_gates {P C} p.
Arguments ps_env {P C} p.

(** A computation of the service: [None] is a panic. *)
Definition Service (P E C A : Type) : Type :=
  PullState P C → option (result (SharedOpenServiceError E) A * PullState P C).

#[export] Instance service_ret {P E C} : MRet (Service P E C) := λ A a w, Some (Ok a, w).
#[export] Instance service_bind {P E C} : MBind (Service P E C) := λ A B f m w,
  match m w with
  | None => None
  | Some (Err e, w) => Some (Err e, w)
  | Some (Ok a, w) => f a w
  end.

Section service.
Context `{TimeApi, Sha256Api, JiffApi, !JiffDisplay, Rfc3339Api}.
Context {P E C : Type} `{!OpenPullPersistence P E, !OpenPullClock C}.
Local Abbreviation service := (Service P E C).

(** The operator [?] on a pure result, a panicking value, and the error exit. *)
Definition lift {A} (r : result (SharedOpenServiceError E) A) : service A := λ w, Some (r, w).
Definition expect {A} (o : option A) : service A := λ w,
  match o with Some a => Some (Ok a, w) | None => None end.
Definition fail {A} (e : SharedOpenServiceError E) : service A := λ w, Some (Err e, w).

(** An operation of the storage followed by [?]. *)
Definition store {A} (op : P → result E A * P) : service A := λ w,
  let '(r, p) := op (ps_store w) in
  Some (map_err ServiceError_Storage r, mkPullState p (ps_gates w) (ps_env w)).

Definition now : service OffsetDateTime := λ w,
  let '(t, c) := clock_now (ps_env w) in
  Some (Ok t, mkPullState (ps_store w) (ps_gates w) c).

(** Locking the gates, and changing them under the lock. *)
Definition lock_gates : service TargetGateSet := λ w,
  match ps_gates w with Some g => Some (Ok g, w) | None => None end.
Definition put_gates (g : TargetGateSet) : service () := λ w,
  Some (Ok (), mkPullState (ps_store w) (Some g) (ps_env w)).

Definition finish_failure (command : OpenPullCommand) (target : TermCampusKey)
    (failure : OpenPullFailure) (completed_at : OffsetDateTime) (completed_at_text : string)
    (effective_interval : Z) : service OpenPullExecution :=
  let '(http_status, retry_after_seconds, error_code, failure_kind) :=
    failure_storage_fields failure completed_at in
  http ← lift (failure_http_audit failure http_status retry_after_seconds);
  outcome ← store (λ p, finish_open_pull_failure p
    {| ff_attempt_id := pc_attempt_id command;
       ff_completed_at := completed_at_text;
       ff_http := http;
       ff_error_code := error_code;
       ff_diagnostic_token := None |});
  if bool_decide (co_classification outcome ≠ OpenAttemptClassification_Failed)
  then fail ServiceError_UnexpectedClassification
  else if bool_decide (is_Some (co_observation_commit outcome))
  then fail (ServiceError_ObservationCommit "a failed pull returned an observation commit")
  else mret
    {| pe_outcome := outcome;
       pe_scheduler_completion := CompletionSchedule_Retry
         (retry_directive target effective_interval (pc_current_failure_streak command) failure_kind);
       pe_terminal := OpenPullTerminal_Failed failure;
       pe_reconcile := None;
       pe_observations := [] |}.

(** The floor transferred from the last known good set of the target. *)
Definition lkg_reference (target : TermCampusKey) (catalog : CatalogOpenBatch)
    : service (option Z) :=
  lkg ← store (λ p, lkg_open_index_set p target);
  mret ((λ set, lkg_reference_within set catalog) <$> lkg).

(** The rebuild of the serving runtime on its first use after a restart. *)
Definition ensure_serving (target : TermCampusKey) (catalog : CatalogOpenBatch)
    (identity : CatalogSetIdentity) (completed_at : OffsetDateTime) : service () :=
  gates ← lock_gates;
  if negb (serving_installed gates) then
    reference ← lkg_reference target catalog;
    rows ← store (λ p, recent_open_gate_attempt_summaries p target 32);
    runtime ← expect (rebuild_after_restart identity reference
                        (gate_restart_summaries rows) completed_at);
    put_gates (install_serving runtime gates)
  else mret ().

(** The serving runtime, reset when the catalog changed. *)
Definition current_serving (target : TermCampusKey) (catalog : CatalogOpenBatch)
    (identity : CatalogSetIdentity) : service GateRuntime :=
  gates ← lock_gates;
  let '(serving, gates) := serving_mut gates in
  _ ← put_gates gates;
  if match catalog_identity serving with
     | Some current => bool_decide (current ≠ identity)
     | None => false
     end
  then
    transferred ← lkg_reference target catalog;
    let serving := reset_for_catalog_identity serving identity transferred in
    _ ← put_gates (install_serving serving gates);
    mret serving
  else mret serving.

Definition serving_runtime (target : TermCampusKey) (catalog : CatalogOpenBatch)
    (identity : CatalogSetIdentity) (completed_at : OffsetDateTime) : service GateRuntime :=
  _ ← ensure_serving target catalog identity completed_at;
  current_serving target catalog identity.

Definition candidate_runtime (target : TermCampusKey) (catalog : CatalogOpenBatch)
    (identity : CatalogSetIdentity) : service GateRuntime :=
  seed ← lkg_reference target catalog;
  gates ← lock_gates;
  let '(runtime, gates) := candidate_mut identity seed gates in
  _ ← put_gates gates;
  mret runtime.

(** The decision of the gate on a snapshot that is not hard-rejected. *)
Definition gate_decide (route : OpenGateRoute) (target : TermCampusKey) (catalog : CatalogOpenBatch)
    (observed : gset SectionIndex) (completed_at : OffsetDateTime)
    : service (CatalogSetIdentity * GateDecision) :=
  let identity := catalog_section_set_identity_v1 (section_indexes catalog) in
  _ ← lock_gates;
  runtime ← match route with
            | OpenGateRoute_Serving => serving_runtime target catalog identity completed_at
            | OpenGateRoute_Candidate => candidate_runtime target catalog identity
            end;
  decision ← expect (evaluate runtime {| gs_catalog_identity := identity;
                                         gs_observed := observed;
                                         gs_observed_at := completed_at |});
  mret (identity, decision).

(** The advance of the gate after the commit. *)
Definition gate_commit (route : OpenGateRoute) (identity : CatalogSetIdentity)
    (decision : GateDecision) (success : bool) : service () :=
  gates ← lock_gates;
  match route with
  | OpenGateRoute_Serving =>
      let '(serving, gates) := serving_mut gates in
      serving ← expect (advance serving decision);
      put_gates (install_serving serving gates)
  | OpenGateRoute_Candidate =>
      let '(runtime, gates) := candidate_mut identity None gates in
      runtime ← expect (advance runtime decision);
      let gates := candidate_write identity runtime gates in
      put_gates (if success then promote_candidate identity gates else gates)
  end.

Definition success_audit (metadata : OpenResponseMetadata) (decoded_bytes : Z)
    : OpenHttpAuditMetadata :=
  {| ha_http_status := Some (orm_http_status metadata);
     ha_cache_status := Some OpenCacheStatus_NotApplicable;
     ha_decoded_bytes := Some decoded_bytes;
     ha_decoded_body_sha256 := Some (orm_decoded_body_sha256 metadata);
     ha_content_type := Some (orm_content_type metadata);
     ha_etag := orm_etag metadata;
     ha_cache_control := orm_cache_control metadata;
     ha_date := orm_date metadata;
     ha_age_seconds := orm_age_seconds metadata;
     ha_last_modified := orm_last_modified metadata;
     ha_retry_after := None;
     ha_retry_after_seconds := None |}.

(** The completion and the terminal of a committed outcome. *)
Definition pull_terminal (command : OpenPullCommand) (target : TermCampusKey)
    (effective_interval : Z) (classification : OpenAttemptClassification)
    (response : OpenSectionsResponse) : service (CompletionSchedule * OpenPullTerminal) :=
  let retry kind := CompletionSchedule_Retry
    (retry_directive target effective_interval (pc_current_failure_streak command) kind) in
  match classification with
  | OpenAttemptClassification_ValidApplied
  | OpenAttemptClassification_ValidEmptyNoRows =>
      mret (CompletionSchedule_Success, OpenPullTerminal_Valid response)
  | OpenAttemptClassification_UnsafeEmpty =>
      mret (retry OpenFailureKind_UnsafeEmpty, OpenPullTerminal_Unsafe response)
  | OpenAttemptClassification_UnsafeZeroIntersection =>
      mret (retry OpenFailureKind_UnsafeZeroIntersection, OpenPullTerminal_Unsafe response)
  | OpenAttemptClassification_SuspectPartialSnapshot =>
      mret (retry OpenFailureKind_SuspectPartial, OpenPullTerminal_Unsafe response)
  | OpenAttemptClassification_StaleCatalogRace =>
      mret (CompletionSchedule_CatalogRace, OpenPullTerminal_CatalogRace response)
  | OpenAttemptClassification_Started
  | OpenAttemptClassification_Failed
  | OpenAttemptClassification_Interrupted => fail ServiceError_UnexpectedClassification
  end.

(** What the service reconciles: the catalog serving now, the evidence of the
    response, and whether the gate may look at it. *)
Definition is_hard_reject (captured : CatalogContentVersion) (catalog : CatalogOpenBatch)
    (open_set : OpenSetEvidence) (intersection : gset SectionIndex) : bool :=
  bool_decide (captured ≠ cob_content_version catalog)
  || (bool_decide (0 < unique_count open_set)%nat
      && bool_decide (0 < section_count catalog)%nat
      && bool_decide (intersection = ∅)).

Definition intersection_set (catalog : CatalogOpenBatch) (open_set : OpenSetEvidence)
    : gset SectionIndex :=
  list_to_set (filter (λ index, contains_index catalog index = true)
                 (bts_iter (ose_indexes open_set))).

Definition open_section_keys (target : TermCampusKey) (indexes : list SectionIndex)
    : list SectionKey :=
  (λ index, SectionKey_new (tck_term target) (tck_campus target) index) <$> indexes.

(** The target and the effective interval of a command. *)
Definition command_target (command : OpenPullCommand) : TermCampusKey :=
  obk_target (osr_target (pc_source_request command)).
Definition command_interval (command : OpenPullCommand) : Z :=
  effective (pc_refresh_intervals command) (bool_decide (0 < pc_active_watch_count command)).

(** The end of [finish_success], from the sampling of the watches and the commit
    on. [current_watched_sections] reads the watches as they are when it is
    called; [gate] is the decision of the gate, when it was consulted. *)
Definition finish_commit (command : OpenPullCommand) (response : OpenSectionsResponse)
    (completed_at_text : string) (current_watched_sections : C → TermCampusKey → list SectionKey)
    (source_value_count decoded_bytes : Z) (reconcile : OpenReconcilePlan) (gate_hold : bool)
    (gate : option (OpenGateRoute * (CatalogSetIdentity * GateDecision)))
    : service OpenPullExecution :=
  let target := command_target command in
  watched_sections ← (λ w, Some (Ok (current_watched_sections (ps_env w) target), w));
  outcome ← store (λ p, finish_open_pull_success p
    {| fs_attempt_id := pc_attempt_id command;
       fs_completed_at := completed_at_text;
       fs_open_sections := open_section_keys target (osp_open_indexes response);
       fs_source_value_count := source_value_count;
       fs_watched_sections := watched_sections;
       fs_http := success_audit (osp_metadata response) decoded_bytes;
       fs_gate_hold := gate_hold;
       fs_gate_catalog_set_identity := (λ g, csi_str g.2.1) <$> gate |});
  if negb (outcome_matches_reconcile outcome reconcile)
  then fail ServiceError_ReconcileDivergence
  else
  _ ← match gate with
      | Some (route, (set_identity, decision)) =>
          if bool_decide (co_classification outcome ≠ OpenAttemptClassification_StaleCatalogRace)
          then gate_commit route set_identity decision (is_success (co_classification outcome))
          else mret ()
      | None => mret ()
      end;
  observations ←
    (if is_success (co_classification outcome)
     then lift (build_committed_observations command outcome (list_to_set watched_sections))
     else if bool_decide (is_Some (co_observation_commit outcome))
     then fail (ServiceError_ObservationCommit "a non-valid pull returned an observation commit")
     else mret []);
  '(scheduler_completion, terminal) ←
    pull_terminal command target (command_interval command) (co_classification outcome) response;
  mret {| pe_outcome := outcome;
          pe_scheduler_completion := scheduler_completion;
          pe_terminal := terminal;
          pe_reconcile := Some reconcile;
          pe_observations := observations |}.

Definition finish_success (command : OpenPullCommand) (captured_catalog_content_version : Z)
    (response : OpenSectionsResponse) (completed_at : OffsetDateTime) (completed_at_text : string)
    (current_watched_sections : C → TermCampusKey → list SectionKey)
    : service OpenPullExecution :=
  let target := command_target command in
  let metadata := osp_metadata response in
  source_value_count ← lift (ok_or ServiceError_ResponseCountOverflow
                               (u64_try_from (orm_raw_value_count metadata)));
  decoded_bytes ← lift (ok_or ServiceError_ResponseCountOverflow
                          (u64_try_from (orm_decoded_bytes metadata)));
  current_catalog ← store (λ p, serving_open_catalog_snapshot p target);
  match current_catalog with
  | None =>
      finish_failure command target (OpenPullFailure_CatalogUnavailableAfterFetch metadata)
        completed_at completed_at_text (command_interval command)
  | Some current_catalog =>
  content_version ← lift (map_err ServiceError_InvalidCatalogVersion
    (CatalogContentVersion_try_from (cs_content_version current_catalog)));
  catalog ← lift (map_err ServiceError_Reconcile
    (CatalogOpenBatch_try_new (cs_target current_catalog) content_version
       (cs_sections current_catalog)));
  open_set ← lift (map_err ServiceError_Reconcile
    (OpenSetEvidence_try_new target (osp_open_indexes response) source_value_count));
  let intersection := intersection_set catalog open_set in
  captured ← lift (map_err ServiceError_InvalidCatalogVersion
    (CatalogContentVersion_try_from captured_catalog_content_version));
  gate ← match pc_gate command with
         | Some route =>
             if is_hard_reject captured catalog open_set intersection then mret None
             else
               decided ← gate_decide route target catalog intersection completed_at;
               mret (Some (route, decided))
         | None => mret None
         end;
  let gate_hold :=
    match gate with
    | Some (_, (_, decision)) =>
        bool_decide (gd_disposition decision = GateDisposition_Hold)
    | None => false
    end in
  reconcile ← lift (map_err ServiceError_Reconcile
    (reconcile_open_set captured catalog open_set gate_hold));
  finish_commit command response completed_at_text current_watched_sections source_value_count
    decoded_bytes reconcile gate_hold gate
  end.

(** [fetch] may change everything shared while it is awaited. *)
Definition execute_with (command : OpenPullCommand)
    (fetch : OpenSectionsRequest → PullState P C →
             result OpenSectionsFailure OpenSectionsResponse * PullState P C)
    (current_watched_sections : C → TermCampusKey → list SectionKey)
    : service OpenPullExecution :=
  _ ← lift (validate_counter_audience command);
  if bool_decide (pc_freshness_interval_seconds command = 0)
  then fail ServiceError_ZeroFreshnessInterval
  else
  let expected_batch := osr_target (pc_source_request command) in
  let target := obk_target expected_batch in
  captured_catalog ← store (λ p, serving_open_catalog_snapshot p target);
  captured_catalog ← lift (ok_or (ServiceError_TargetNotPublished target) captured_catalog);
  let captured_catalog_content_version := cs_content_version captured_catalog in
  started_at ← now;
  started_at_text ← lift (format_timestamp started_at);
  rutgers_day ← lift (rutgers_day_at started_at);
  let effective_interval := command_interval command in
  lane ← lift (storage_lane (pc_lane command));
  _ ← store (λ p, begin_open_pull_attempt p
    {| bo_attempt_id := pc_attempt_id command;
       bo_run_id := pc_run_id command;
       bo_target := target;
       bo_captured_catalog_content_version := captured_catalog_content_version;
       bo_rutgers_day := rutgers_day;
       bo_started_at := started_at_text;
       bo_lane := lane;
       bo_requested_interval_seconds :=
         Some (go_seconds (ori_general (pc_refresh_intervals command)));
       bo_effective_interval_seconds := Some (pc_freshness_interval_seconds command);
       bo_schedule_lag_ms := Some (duration_millis (pc_scheduler_lag command)) |});
  fetched ← (λ w, let '(r, w) := fetch (pc_source_request command) w in Some (Ok r, w));
  completed_at ← now;
  completed_at_text ← lift (format_timestamp completed_at);
  match fetched with
  | Err error =>
      finish_failure command target (OpenPullFailure_Upstream error) completed_at
        completed_at_text effective_interval
  | Ok response =>
      if bool_decide (osp_target response ≠ expected_batch) then
        finish_failure command target
          (OpenPullFailure_ResponseTargetMismatch (osp_metadata response)) completed_at
          completed_at_text effective_interval
      else
        consistent ← expect (response_metadata_is_consistent response);
        if (consistent : bool)
        then finish_success command captured_catalog_content_version response completed_at
               completed_at_text current_watched_sections
        else finish_failure command target
               (OpenPullFailure_ResponseMetadataMismatch (osp_metadata response)) completed_at
               completed_at_text effective_interval
  end.

End service.
