(* ===== verification/OpenServiceFacts.v ===== *)
(** * Theorems on the shared Open service

    A pull never panics, moves the gates along their discipline and advances them
    only for the snapshot it committed; what is withheld is not handed out. *)

From S2P Require Import Prelude Identity Contracts RustStr TermWindow Policy Reconcile.
From S2P Require Import OpenClient OpenClientFacts Gate GateFacts Scheduler OpenStore OpenService.

(** ** Weakest preconditions

    [wp m w Q]: [m] does not panic from [w], and what it returns satisfies [Q]. *)

Section wp.
Context {P E C : Type}.
Local Abbreviation service := (Service P E C).

Definition wp {A} (m : service A) (w : PullState P C)
    (Q : result (SharedOpenServiceError E) A → PullState P C → Prop) : Prop :=
  match m w with None => False | Some (r, w') => Q r w' end.

Lemma wp_ret {A} (a : A) w Q : Q (Ok a) w → wp (mret a : service A) w Q.
Proof. done. Qed.

Lemma wp_bind {A B} (m : service A) (f : A → service B) w Q :
  wp m w (λ r w', match r with Ok a => wp (f a) w' Q | Err e => Q (Err e) w' end) →
  wp (m ≫= f) w Q.
Proof. unfold wp, mbind, service_bind. by destruct (m w) as [[[a|e] w']|]. Qed.

Lemma wp_mono {A} (m : service A) w (Q Q' : _ → _ → Prop) :
  wp m w Q → (∀ r w', Q r w' → Q' r w') → wp m w Q'.
Proof. unfold wp. destruct (m w) as [[r w']|]; eauto. Qed.

Lemma wp_lift {A} (r : result (SharedOpenServiceError E) A) w Q : Q r w → wp (lift r : service A) w Q.
Proof. done. Qed.

Lemma wp_fail {A} e w Q : Q (Err e) w → wp (fail e : service A) w Q.
Proof. done. Qed.

Lemma wp_expect {A} (o : option A) (a : A) w Q : o = Some a → Q (Ok a) w → wp (expect o : service A) w Q.
Proof. by intros ->. Qed.

(** A storage operation changes the storage only. *)
Lemma wp_store {A} (op : P → result E A * P) w Q :
  (∀ r p, op (ps_store w) = (r, p) →
    Q (map_err ServiceError_Storage r) (mkPullState p (ps_gates w) (ps_env w))) →
  wp (store op : service A) w Q.
Proof. unfold wp, store. intros HQ. destruct (op (ps_store w)) as [r p] eqn:Hop. auto. Qed.

Lemma wp_lock g w Q : ps_gates w = Some g → Q (Ok g) w → wp (lock_gates : service _) w Q.
Proof. intros Hg HQ. unfold wp, lock_gates. by rewrite Hg. Qed.

Lemma wp_put g w Q :
  Q (Ok ()) (mkPullState (ps_store w) (Some g) (ps_env w)) → wp (put_gates g : service _) w Q.
Proof. done. Qed.

(** What an execution that returned says. *)
Lemma wp_elim {A} (m : service A) w Q r w' : wp m w Q → m w = Some (r, w') → Q r w'.
Proof. unfold wp. by intros HQ Hm; rewrite Hm in HQ. Qed.

Lemma wp_total {A} (m : service A) w Q : wp m w Q → is_Some (m w).
Proof. unfold wp. by destruct (m w). Qed.
End wp.

(** Steps over the next operation of a body. *)
Ltac wp_bind := apply wp_bind.
Ltac wp_lift H := apply wp_bind, wp_lift; destruct H as [|] eqn:?.

(** ** The gate under the service *)

Section gate.
Context `{TimeApi, Sha256Api, JiffApi, !JiffDisplay, Rfc3339Api}.
Context {P E C : Type} `{!OpenPullPersistence P E, !OpenPullClock C}.
Local Abbreviation service := (Service P E C).

(** The gates are unlocked, well formed, and moved along their discipline from
    [g]; the clock and the watches are as in [w]. *)
Definition moved (g : TargetGateSet) (w w' : PullState P C) : Prop :=
  ∃ g', ps_gates w' = Some g' ∧ ps_env w' = ps_env w ∧ rtc gate_set_step g g' ∧ gate_set_wf g'.

Lemma moved_store g w w' p : moved g w w' → moved g w (mkPullState p (ps_gates w') (ps_env w')).
Proof. done. Qed.

Lemma moved_step g w w' p g1 g2 :
  moved g w w' → ps_gates w' = Some g1 → gate_set_step g1 g2 →
  moved g w (mkPullState p (Some g2) (ps_env w')).
Proof.
  intros (g1' & Hg & He & Hr & Hwf) Hg1 Hs. assert (g1' = g1) as -> by congruence. exists g2. split_and!; [done..| |].
  - by eapply rtc_r.
  - by eapply gate_set_step_wf.
Qed.

Lemma moved_same g w w' p g1 :
  moved g w w' → ps_gates w' = Some g1 → moved g w (mkPullState p (Some g1) (ps_env w')).
Proof. intros (g1' & Hg & He & Hr & Hwf) Hg1. assert (g1' = g1) as -> by congruence. exists g1. by split_and!. Qed.

Lemma moved_wf g w w' g1 : moved g w w' → ps_gates w' = Some g1 → gate_set_wf g1.
Proof. intros (g1' & Hg & _ & _ & Hwf) Hg1. by assert (g1' = g1) as -> by congruence. Qed.

(** The runtime a route hands out for a catalog, in the gates it leaves. *)
Definition handed_out (route : OpenGateRoute) (id : CatalogSetIdentity) (w' : PullState P C)
    (r : GateRuntime) : Prop :=
  default id (catalog_identity r) = id ∧ ∃ g', ps_gates w' = Some g' ∧
  match route with
  | OpenGateRoute_Serving => tgs_serving g' = Some r
  | OpenGateRoute_Candidate => tgs_candidates g' = {[ id := r ]}
  end.

Lemma lkg_reference_wp (target : TermCampusKey) (catalog : CatalogOpenBatch) (w : PullState P C) Q :
  (∀ r p, Q r (mkPullState p (ps_gates w) (ps_env w))) →
  wp (lkg_reference (E := E) target catalog) w Q.
Proof.
  intros HQ. unfold lkg_reference. wp_bind. apply wp_store. intros r p _.
  destruct r as [lkg|e]; cbn [map_err]; [by apply wp_ret|apply HQ].
Qed.

Lemma ensure_serving_wp target catalog id t g w0 w :
  moved g w0 w → wp (ensure_serving (E := E) target catalog id t) w (λ _ w', moved g w0 w').
Proof.
  intros Hm. destruct (Hm) as (g1 & Hg1 & _). unfold ensure_serving. wp_bind.
  eapply wp_lock; [exact Hg1|]. destruct (serving_installed g1); cbn [negb]; [by apply wp_ret|].
  wp_bind. apply lkg_reference_wp. intros [reference|e] p; [|by apply moved_store].
  wp_bind. apply wp_store. intros [rows|e] p' _; cbn [map_err]; [|by apply moved_store].
  wp_bind. destruct (rebuild_after_restart_spec id reference (gate_restart_summaries rows) t)
    as (r & Hr & _).
  eapply wp_expect; [exact Hr|]. apply wp_put. cbn [ps_env].
  eapply moved_step; [exact Hm|exact Hg1|]. constructor.
Qed.

Lemma current_serving_wp target catalog id g w0 w :
  moved g w0 w →
  wp (current_serving (E := E) target catalog id) w (λ r w',
    moved g w0 w' ∧ match r with Ok r => handed_out OpenGateRoute_Serving id w' r | Err _ => True end).
Proof.
  intros Hm. destruct (Hm) as (g1 & Hg1 & _). unfold current_serving. wp_bind.
  eapply wp_lock; [exact Hg1|]. destruct (serving_mut g1) as [r g2] eqn:Hs.
  wp_bind. apply wp_put.
  assert (gate_set_step g1 g2) as Hstep1.
  { pose proof (gate_set_install g1 r) as Hi. by injection Hs as <- <-. }
  pose proof (moved_step _ _ _ (ps_store w) _ _ Hm Hg1 Hstep1) as Hm2.
  assert (tgs_serving g2 = Some r) as Hr by by injection Hs as <- <-.
  destruct (catalog_identity r) as [current|] eqn:Hc.
  - case_bool_decide as Hne.
    + wp_bind. apply lkg_reference_wp. intros [transferred|e] p; [|split; [|done]]; cbn [ps_gates ps_env].
      2: { exact Hm2. }
      wp_bind. apply wp_put. apply wp_ret. split.
      * exact (moved_step _ _ _ p _ _ Hm2 eq_refl
          (gate_set_install g2 (reset_for_catalog_identity r id transferred))).
      * split; [by destruct transferred|]. eexists. by split.
    + apply wp_ret. split; [done|]. split; [by rewrite Hc|]. eexists. by split.
  - apply wp_ret. split; [done|]. split; [by rewrite Hc|]. eexists. by split.
Qed.

Lemma candidate_runtime_wp target catalog id g w0 w :
  moved g w0 w →
  wp (candidate_runtime (E := E) target catalog id) w (λ r w',
    moved g w0 w' ∧ match r with Ok r => handed_out OpenGateRoute_Candidate id w' r | Err _ => True end).
Proof.
  intros Hm. destruct (Hm) as (g1 & Hg1 & _). unfold candidate_runtime. wp_bind.
  apply lkg_reference_wp. intros [seed|e] p; [|by split].
  wp_bind. eapply wp_lock; [exact Hg1|]. destruct (candidate_mut id seed g1) as [r g2] eqn:Hc.
  wp_bind. apply wp_put. apply wp_ret. cbn [ps_env]. split.
  - eapply moved_step; [exact Hm|exact Hg1|]. by econstructor.
  - pose proof (candidate_mut_keyed _ _ _ _ _ (moved_wf _ _ _ _ Hm Hg1) Hc) as Hk.
    apply candidate_mut_candidates in Hc as (Hc & _). split; [done|]. eexists. by split.
Qed.

(** The decision of the gate is that of the runtime it leaves handed out. *)
Definition decided (route : OpenGateRoute) (catalog : CatalogOpenBatch) (observed : gset SectionIndex)
    (t : OffsetDateTime) (w' : PullState P C) (id : CatalogSetIdentity) (d : GateDecision) : Prop :=
  id = catalog_section_set_identity_v1 (section_indexes catalog) ∧
  ∃ r, handed_out route id w' r ∧
    evaluate r {| gs_catalog_identity := id; gs_observed := observed; gs_observed_at := t |} = Some d.

Lemma gate_decide_wp route target catalog observed t g w0 w :
  moved g w0 w →
  wp (gate_decide (E := E) route target catalog observed t) w (λ r w',
    moved g w0 w' ∧
    match r with Ok (id, d) => decided route catalog observed t w' id d | Err _ => True end).
Proof.
  intros Hm. destruct (Hm) as (g1 & Hg1 & _). unfold gate_decide.
  set (id := catalog_section_set_identity_v1 (section_indexes catalog)).
  wp_bind. eapply wp_lock; [exact Hg1|]. wp_bind.
  assert (wp (match route with
              | OpenGateRoute_Serving => serving_runtime (E := E) target catalog id t
              | OpenGateRoute_Candidate => candidate_runtime target catalog id
              end) w (λ r w', moved g w0 w' ∧
                match r with Ok r => handed_out route id w' r | Err _ => True end)) as Hrun.
  { destruct route; [|by apply candidate_runtime_wp]. unfold serving_runtime. wp_bind.
    eapply wp_mono; [by apply ensure_serving_wp|]. intros [[]|e] w1 Hm1; [|done].
    by apply current_serving_wp. }
  eapply wp_mono; [exact Hrun|]. clear Hrun. intros [r|e] w1 [Hm1 Hh]; [|done].
  set (smp := {| gs_catalog_identity := id; gs_observed := observed; gs_observed_at := t |}).
  destruct (evaluate r smp) as [d|] eqn:Hd.
  2: { apply evaluate_None in Hd as (id' & Hid & Hne). destruct Hh as [Hk _].
       rewrite Hid in Hk. by destruct Hne. }
  wp_bind. eapply wp_expect; [reflexivity|]. apply wp_ret. split; [done|]. split; [done|]. eauto.
Qed.

(** The runtime after a decision was committed. *)
Definition advanced (r : GateRuntime) (d : GateDecision) : GateRuntime :=
  {| gr_epoch := (gr_epoch r + 1) mod 2 ^ 64; gr_state := gd_next_state d |}.

(** What committing a decision leaves. *)
Definition committed (route : OpenGateRoute) (id : CatalogSetIdentity) (success : bool)
    (r : GateRuntime) (d : GateDecision) (g : TargetGateSet) : TargetGateSet :=
  match route with
  | OpenGateRoute_Serving =>
      {| tgs_serving := Some (advanced r d); tgs_candidates := tgs_candidates g |}
  | OpenGateRoute_Candidate =>
      if success then {| tgs_serving := Some (advanced r d); tgs_candidates := ∅ |}
      else {| tgs_serving := tgs_serving g; tgs_candidates := {[ id := advanced r d ]} |}
  end.

Lemma gate_commit_wp route smp success r d g g1 w0 w :
  moved g w0 w → ps_gates w = Some g1 → handed_out route (gs_catalog_identity smp) w r →
  evaluate r smp = Some d →
  wp (gate_commit (E := E) route (gs_catalog_identity smp) d success) w (λ res w',
    moved g w0 w' ∧ res = Ok () ∧
    ps_gates w' = Some (committed route (gs_catalog_identity smp) success r d g1)).
Proof.
  intros Hm Hg1 (_ & g1' & Hg1' & Hr) Hd. assert (g1' = g1) as -> by congruence.
  pose proof (observe_Some r smp d Hd) as Ho.
  assert (advance r d = Some (advanced r d)) as Hadv.
  { unfold observe in Ho. rewrite Hd in Ho. cbn in Ho. destruct (advance r d); [|done].
    cbn in Ho. by injection Ho as ->. }
  unfold gate_commit. wp_bind. eapply wp_lock; [exact Hg1|]. destruct route.
  - destruct (serving_mut g1) as [r' g2] eqn:Hs. pose proof Hs as Hs'.
    unfold serving_mut in Hs'. rewrite Hr in Hs'. injection Hs' as <- <-.
    wp_bind. eapply wp_expect; [exact Hadv|]. apply wp_put. cbn [ps_gates]. split; [|done].
    eapply moved_step; [exact Hm|exact Hg1|].
    exact (gate_set_serve _ _ _ _ _ _ Hs Ho).
  - destruct (candidate_mut (gs_catalog_identity smp) None g1) as [r' g2] eqn:Hc.
    pose proof Hc as (Hc1 & Hc2 & Hc3)%candidate_mut_candidates.
    rewrite Hr, lookup_singleton_eq in Hc3. subst r'.
    wp_bind. eapply wp_expect; [exact Hadv|]. apply wp_put. cbn [ps_gates].
    pose proof (gate_set_candidate _ _ None _ _ smp d (advanced r d) eq_refl Hc Ho) as Hstep.
    assert (candidate_write (gs_catalog_identity smp) (advanced r d) g2 =
      {| tgs_serving := tgs_serving g1; tgs_candidates := {[ gs_catalog_identity smp := advanced r d ]} |})
      as Hw.
    { unfold candidate_write. by rewrite Hc1, Hc2, insert_singleton_eq. }
    pose proof (moved_step _ _ _ (ps_store w) _ _ Hm Hg1 Hstep) as Hm2. destruct success.
    + split; [|split; [done|]].
      * exact (moved_step _ _ _ (ps_store w) _ _ Hm2 eq_refl (gate_set_promote _ (gs_catalog_identity smp))).
      * rewrite Hw. unfold promote_candidate. cbn [tgs_candidates]. by rewrite lookup_singleton_eq.
    + split; [exact Hm2|]. split; [done|]. by rewrite Hw.
Qed.

(** ** Finishing a pull *)

(** An execution that reports a failure. *)
Definition failed_pull (command : OpenPullCommand) (t : OffsetDateTime) (failure : OpenPullFailure)
    (exec : OpenPullExecution) : Prop :=
  co_classification (pe_outcome exec) = OpenAttemptClassification_Failed ∧
  co_observation_commit (pe_outcome exec) = None ∧
  pe_terminal exec = OpenPullTerminal_Failed failure ∧ pe_reconcile exec = None ∧
  pe_observations exec = [] ∧
  pe_scheduler_completion exec = CompletionSchedule_Retry
    (retry_directive (command_target command) (command_interval command)
       (pc_current_failure_streak command) (failure_storage_fields failure t).2).

Lemma finish_failure_wp command failure t text w :
  wp (finish_failure (P := P) (E := E) (C := C) command (command_target command) failure t text
        (command_interval command)) w (λ r w',
    ps_gates w' = ps_gates w ∧ ps_env w' = ps_env w ∧
    match r with Ok exec => failed_pull command t failure exec | Err _ => True end).
Proof.
  unfold finish_failure.
  destruct (failure_storage_fields failure t) as [[[status secs] code] kind] eqn:Hf.
  wp_bind. apply wp_lift. destruct (failure_http_audit failure status secs) as [http|e]; [|done].
  wp_bind. apply wp_store. intros [outcome|e] p _; cbn [map_err]; [|done].
  case_bool_decide as Hc; [by apply wp_fail|]. case_bool_decide as Ho; [by apply wp_fail|].
  apply wp_ret. split; [done|]. split; [done|]. unfold failed_pull. cbn.
  rewrite Hf. split_and!; try done.
  destruct (co_observation_commit outcome); [|done]. destruct Ho. eauto.
Qed.

(** The gate was consulted for a pull with a route whose snapshot is not
    hard-rejected. *)
Definition gate_consulted (command : OpenPullCommand) (captured : CatalogContentVersion)
    (catalog : CatalogOpenBatch) (open_set : OpenSetEvidence) : option OpenGateRoute :=
  match pc_gate command with
  | Some route =>
      if is_hard_reject captured catalog open_set (intersection_set catalog open_set) then None
      else Some route
  | None => None
  end.

(** The gates after a pull whose decision was [d] on [r]: the decision is
    committed, unless a catalog race discards it. *)
Definition gate_effect (route : OpenGateRoute) (catalog : CatalogOpenBatch)
    (observed : gset SectionIndex) (t : OffsetDateTime) (id : CatalogSetIdentity) (d : GateDecision)
    (classification : OpenAttemptClassification) (w' : PullState P C) : Prop :=
  id = catalog_section_set_identity_v1 (section_indexes catalog) ∧
  ∃ r g1, default id (catalog_identity r) = id ∧
    evaluate r {| gs_catalog_identity := id; gs_observed := observed; gs_observed_at := t |} = Some d ∧
    match route with
    | OpenGateRoute_Serving => tgs_serving g1 = Some r
    | OpenGateRoute_Candidate => tgs_candidates g1 = {[ id := r ]}
    end ∧
    ps_gates w' = Some
      (if bool_decide (classification = OpenAttemptClassification_StaleCatalogRace) then g1
       else committed route id (is_success classification) r d g1).

(** An execution that committed a snapshot. *)
Definition committed_pull (command : OpenPullCommand) (captured_version : Z)
    (response : OpenSectionsResponse) (t : OffsetDateTime)
    (watched : C → TermCampusKey → list SectionKey) (g : TargetGateSet) (w w' : PullState P C)
    (exec : OpenPullExecution) : Prop :=
  ∃ captured v sections catalog open_set plan hold,
    CatalogContentVersion_try_from captured_version = Ok captured ∧
    CatalogOpenBatch_try_new (cob_target catalog) v sections = Ok catalog ∧
    OpenSetEvidence_try_new (command_target command) (osp_open_indexes response)
      (orm_raw_value_count (osp_metadata response)) = Ok open_set ∧
    reconcile_open_set captured catalog open_set hold = Ok plan ∧
    pe_reconcile exec = Some plan ∧ outcome_matches_reconcile (pe_outcome exec) plan = true ∧
    match gate_consulted command captured catalog open_set with
    | None => hold = false ∧ ps_gates w' = Some g
    | Some route => ∃ id d, hold = bool_decide (gd_disposition d = GateDisposition_Hold) ∧
        gate_effect route catalog (intersection_set catalog open_set) t id d
          (co_classification (pe_outcome exec)) w'
    end ∧
    (if is_success (co_classification (pe_outcome exec))
     then build_committed_observations (E := E) command (pe_outcome exec)
            (list_to_set (watched (ps_env w) (command_target command))) = Ok (pe_observations exec)
     else co_observation_commit (pe_outcome exec) = None ∧ pe_observations exec = []) ∧
    pull_terminal (E := E) command (command_target command) (command_interval command)
      (co_classification (pe_outcome exec)) response w' =
      Some (Ok (pe_scheduler_completion exec, pe_terminal exec), w').

Lemma pull_terminal_wp command response c (w : PullState P C) :
  wp (pull_terminal (E := E) command (command_target command) (command_interval command) c response) w
    (λ r w', w' = w ∧ pull_terminal (E := E) command (command_target command) (command_interval command)
       c response w = Some (r, w)).
Proof. by destruct c. Qed.

(** What the tail of a committed pull leaves. *)
Definition tail_done (command : OpenPullCommand) (response : OpenSectionsResponse)
    (watched : C → TermCampusKey → list SectionKey) (plan : OpenReconcilePlan) (w w' : PullState P C)
    (exec : OpenPullExecution) : Prop :=
  pe_reconcile exec = Some plan ∧ outcome_matches_reconcile (pe_outcome exec) plan = true ∧
  (if is_success (co_classification (pe_outcome exec))
   then build_committed_observations (E := E) command (pe_outcome exec)
          (list_to_set (watched (ps_env w) (command_target command))) = Ok (pe_observations exec)
   else co_observation_commit (pe_outcome exec) = None ∧ pe_observations exec = []) ∧
  pull_terminal (E := E) command (command_target command) (command_interval command)
    (co_classification (pe_outcome exec)) response w' =
    Some (Ok (pe_scheduler_completion exec, pe_terminal exec), w').

Lemma finish_commit_wp command response text watched count decoded_bytes plan hold gate
    catalog observed t g w0 w g1 :
  moved g w0 w → ps_gates w = Some g1 →
  match gate with
  | Some (route, (id, d)) => decided route catalog observed t w id d
  | None => True
  end →
  wp (finish_commit command response text watched count decoded_bytes plan hold gate) w (λ r w',
    moved g w0 w' ∧
    match r with
    | Err _ => True
    | Ok exec =>
        tail_done command response watched plan w w' exec ∧
        match gate with
        | None => ps_gates w' = Some g1
        | Some (route, (id, d)) =>
            gate_effect route catalog observed t id d (co_classification (pe_outcome exec)) w'
        end
    end).
Proof.
  intros Hm Hg1 Hgate. unfold finish_commit. wp_bind. cbn beta delta [wp].
  wp_bind. apply wp_store. intros [outcome|e] p _; cbn [map_err]; [|by split; [apply moved_store|]].
  set (w1 := mkPullState p (ps_gates w) (ps_env w)).
  assert (moved g w0 w1) as Hm1 by by apply moved_store.
  destruct (outcome_matches_reconcile outcome plan) eqn:Hmatch; cbn [negb]; [|by apply wp_fail].
  wp_bind.
  assert (wp (match gate with
      | Some (route, (set_identity, decision)) =>
          if bool_decide (co_classification outcome ≠ OpenAttemptClassification_StaleCatalogRace)
          then gate_commit (E := E) route set_identity decision (is_success (co_classification outcome))
          else mret ()
      | None => mret ()
      end) w1 (λ r w', moved g w0 w' ∧ r = Ok () ∧
        match gate with
        | None => ps_gates w' = Some g1
        | Some (route, (id, d)) => gate_effect route catalog observed t id d (co_classification outcome) w'
        end)) as Hcommit.
  { destruct gate as [[route [id d]]|]; [|by apply wp_ret].
    destruct Hgate as (Hid & r & Hh & Hd). pose proof Hh as (Hk & g1' & Hg1' & Hr).
    assert (g1' = g1) as -> by congruence.
    case_bool_decide as Hrace.
    - pose proof (gate_commit_wp route
        {| gs_catalog_identity := id; gs_observed := observed; gs_observed_at := t |}
        (is_success (co_classification outcome)) r d g g1 w0 w1 Hm1 Hg1 Hh Hd) as Hw. cbn [gs_catalog_identity] in Hw.
      eapply wp_mono; [exact Hw|]. intros res w' (Hm' & -> & Hg'). split; [done|]. split; [done|].
      split; [done|]. exists r, g1. rewrite bool_decide_eq_false_2 by done. by split_and!.
    - apply wp_ret. split; [done|]. split; [done|]. split; [done|]. exists r, g1.
      rewrite bool_decide_eq_true_2 by done. by split_and!. }
  eapply wp_mono; [exact Hcommit|]. clear Hcommit. intros res w2 (Hm2 & -> & Heff).
  assert (ps_env w2 = ps_env w) as Henv.
  { destruct Hm as (? & _ & He & _), Hm2 as (? & _ & He2 & _). congruence. }
  wp_bind.
  destruct (is_success (co_classification outcome)) eqn:Hsucc.
  - apply wp_lift. destruct (build_committed_observations command outcome _) as [obs|e] eqn:Hobs; [|done].
    wp_bind. eapply wp_mono; [apply pull_terminal_wp|]. intros [[completion terminal]|e] w3 [-> Hterm]; [|done].
    apply wp_ret. cbn [pe_outcome]. split; [done|]. split; [|done]. unfold tail_done. cbn.
    rewrite Hsucc. by split_and!.
  - case_bool_decide as Hnone; [by apply wp_fail|]. apply wp_ret. wp_bind.
    eapply wp_mono; [apply pull_terminal_wp|]. intros [[completion terminal]|e] w3 [-> Hterm]; [|done].
    apply wp_ret. cbn [pe_outcome]. split; [done|]. split; [|done]. unfold tail_done. cbn.
    rewrite Hsucc. split_and!; try done. destruct (co_observation_commit outcome); [|done].
    destruct Hnone. eauto.
Qed.

(** The gate part of a pull: consulted or not, never panicking. *)
Definition gate_part (command : OpenPullCommand) (captured : CatalogContentVersion)
    (catalog : CatalogOpenBatch) (open_set : OpenSetEvidence) (t : OffsetDateTime)
    : service (option (OpenGateRoute * (CatalogSetIdentity * GateDecision))) :=
  let intersection := intersection_set catalog open_set in
  match pc_gate command with
  | Some route =>
      if is_hard_reject captured catalog open_set intersection then mret None
      else
        decided ← gate_decide route (command_target command) catalog intersection t;
        mret (Some (route, decided))
  | None => mret None
  end.

Lemma gate_part_wp command captured catalog open_set t g w :
  ps_gates w = Some g → gate_set_wf g →
  wp (gate_part command captured catalog open_set t) w (λ r w',
    moved g w w' ∧
    match r with
    | Err _ => True
    | Ok None => gate_consulted command captured catalog open_set = None ∧ ps_gates w' = Some g
    | Ok (Some (route, (id, d))) =>
        gate_consulted command captured catalog open_set = Some route ∧
        decided route catalog (intersection_set catalog open_set) t w' id d
    end).
Proof.
  intros Hg Hwf. assert (moved g w w) as Hm by (exists g; by split_and!).
  unfold gate_part, gate_consulted. destruct (pc_gate command) as [route|]; [|by apply wp_ret].
  destruct (is_hard_reject _ _ _ _); [by apply wp_ret|]. wp_bind.
  eapply wp_mono; [by apply gate_decide_wp|]. intros [[id d]|e] w' [Hm' Hd]; [|done].
  by apply wp_ret.
Qed.

Lemma finish_success_wp command captured_version response t text watched g w :
  ps_gates w = Some g → gate_set_wf g →
  wp (finish_success (P := P) (E := E) (C := C) command captured_version response t text watched) w
    (λ r w',
      moved g w w' ∧
      match r with
      | Err _ => True
      | Ok exec =>
          (ps_gates w' = Some g ∧ failed_pull command t
             (OpenPullFailure_CatalogUnavailableAfterFetch (osp_metadata response)) exec) ∨
          committed_pull command captured_version response t watched g w w' exec
      end).
Proof.
  intros Hg Hwf. assert (moved g w w) as Hm by (exists g; by split_and!).
  unfold finish_success. cbv zeta.
  wp_bind. apply wp_lift. destruct (u64_try_from (orm_raw_value_count _)) as [count|] eqn:Hcount; [|done].
  wp_bind. apply wp_lift. destruct (u64_try_from (orm_decoded_bytes _)) as [len|]; [|done].
  assert (count = orm_raw_value_count (osp_metadata response)) as ->.
  { unfold u64_try_from in Hcount. by case_bool_decide; simplify_eq. }
  wp_bind. apply wp_store. intros [current|e] p _; cbn [map_err]; [|by split; [apply moved_store|]].
  set (w1 := mkPullState p (ps_gates w) (ps_env w)).
  assert (moved g w w1) as Hm1 by by apply moved_store.
  destruct current as [current|].
  2: { eapply wp_mono; [apply finish_failure_wp|]. intros r w' (Hg' & He & Hr). split.
       - destruct Hm1 as (g1 & Hg1 & He1 & Hmove). exists g1. by rewrite Hg', He.
       - destruct r; [left|done]. by rewrite Hg'. }
  wp_bind. apply wp_lift. destruct (CatalogContentVersion_try_from (cs_content_version current)) as [v|]; [|done].
  wp_bind. apply wp_lift. destruct (CatalogOpenBatch_try_new _ _ _) as [catalog|] eqn:Hcat; [|done].
  wp_bind. apply wp_lift. destruct (OpenSetEvidence_try_new _ _ _) as [open_set|] eqn:Hos; [|done].
  wp_bind. apply wp_lift. destruct (CatalogContentVersion_try_from captured_version) as [captured|] eqn:Hcap; [|done].
  wp_bind. eapply wp_mono; [exact (gate_part_wp command captured catalog open_set t g w1 Hg Hwf)|].
  intros [gate|e] w2 [Hm2 Hgate]; [|done].
  wp_bind. apply wp_lift. destruct (reconcile_open_set _ _ _ _) as [plan|] eqn:Hplan; [|done].
  assert (cob_target catalog = cs_target current) as Htgt.
  { unfold CatalogOpenBatch_try_new in Hcat. destruct (catalog_batch_loop _ _ _); [|done].
    by injection Hcat as <-. }
  assert (∃ g2, ps_gates w2 = Some g2 ∧ (gate = None → g2 = g)) as (g2 & Hg2 & Hnone).
  { destruct (Hm2) as (g2 & Hg2 & _). exists g2. split; [done|]. intros ->.
    destruct Hgate as [_ Hg2']. congruence. }
  eapply wp_mono; [eapply (finish_commit_wp _ _ _ _ _ _ _ _ gate catalog
    (intersection_set catalog open_set) t g w1 w2 g2); [done|done|]|].
  { destruct gate as [[route [id d]]|]; [by apply Hgate|done]. }
  intros r w' [Hm' Hr]. split; [done|]. destruct r as [exec|]; [|done]. right.
  destruct Hr as [(Hpl & Hmatch & Hobs & Hterm) Heff].
  assert (ps_env w2 = ps_env w) as Henv by (destruct Hm2 as (? & _ & He & _); exact He).
  unfold committed_pull. do 7 eexists. split_and!; [exact Hcap|rewrite Htgt; exact Hcat|exact Hos|
    exact Hplan|exact Hpl|exact Hmatch| |by rewrite <-Henv|exact Hterm].
  destruct gate as [[route [id d]]|].
  - destruct Hgate as [-> _]. eexists _, _. by split.
  - destruct Hgate as [-> _]. by rewrite Heff, Hnone.
Qed.

(** ** A whole pull *)

(** What other tasks do to the gates while the pull awaits its answer: they leave
    the lock usable and the gates well formed. *)
Definition fetch_respects_gates (fetch : OpenSectionsRequest → PullState P C →
    result OpenSectionsFailure OpenSectionsResponse * PullState P C) : Prop :=
  ∀ request w g, ps_gates w = Some g → gate_set_wf g →
    ∃ g', ps_gates (fetch request w).2 = Some g' ∧ gate_set_wf g'.

(** The state in which the answer is processed: the fetch is over and the clock
    was read. *)
Definition arrived (command : OpenPullCommand)
    (fetch : OpenSectionsRequest → PullState P C →
      result OpenSectionsFailure OpenSectionsResponse * PullState P C)
    (answer : result OpenSectionsFailure OpenSectionsResponse) (t : OffsetDateTime)
    (g : TargetGateSet) (w1 : PullState P C) : Prop :=
  ∃ w0 w01 c, fetch (pc_source_request command) w0 = (answer, w01) ∧
    clock_now (ps_env w01) = (t, c) ∧
    w1 = mkPullState (ps_store w01) (ps_gates w01) c ∧ ps_gates w1 = Some g ∧ gate_set_wf g.

(** The answer is for the batch and its metadata agree with its indexes. *)
Definition answers (command : OpenPullCommand) (response : OpenSectionsResponse) : Prop :=
  osp_target response = osr_target (pc_source_request command) ∧
  response_metadata_is_consistent response = Some true.

(** Why an answer is a failure of the pull. *)
Definition answer_failure (command : OpenPullCommand)
    (answer : result OpenSectionsFailure OpenSectionsResponse) (failure : OpenPullFailure) : Prop :=
  match answer with
  | Err error => failure = OpenPullFailure_Upstream error
  | Ok response =>
      (osp_target response ≠ osr_target (pc_source_request command) ∧
       failure = OpenPullFailure_ResponseTargetMismatch (osp_metadata response)) ∨
      (osp_target response = osr_target (pc_source_request command) ∧
       response_metadata_is_consistent response = Some false ∧
       failure = OpenPullFailure_ResponseMetadataMismatch (osp_metadata response)) ∨
      (answers command response ∧
       failure = OpenPullFailure_CatalogUnavailableAfterFetch (osp_metadata response))
  end.

(** What a pull that returned did: it failed for a reason the answer gives, the
    gates as it found them, or it committed the answer. *)
Definition pulled (command : OpenPullCommand)
    (fetch : OpenSectionsRequest → PullState P C →
      result OpenSectionsFailure OpenSectionsResponse * PullState P C)
    (watched : C → TermCampusKey → list SectionKey) (w' : PullState P C) (exec : OpenPullExecution)
    : Prop :=
  ∃ answer t g w1, arrived command fetch answer t g w1 ∧
    ((∃ failure, answer_failure command answer failure ∧ failed_pull command t failure exec ∧
        ps_gates w' = Some g) ∨
     (∃ response captured_version, answer = Ok response ∧ answers command response ∧
        committed_pull command captured_version response t watched g w1 w' exec)).

Lemma response_metadata_is_consistent_total `{!Sha256ApiLaws} response :
  ∃ b, response_metadata_is_consistent response = Some b.
Proof.
  unfold response_metadata_is_consistent. destruct (_ && _); [|by exists false].
  rewrite canonical_open_set_sha256_total. by eexists.
Qed.

(** The gates of a state are unlocked and well formed, and were reached by the
    discipline from the gates before the pull or from those the answer found. *)
Definition gates_kept (command : OpenPullCommand)
    (fetch : OpenSectionsRequest → PullState P C →
      result OpenSectionsFailure OpenSectionsResponse * PullState P C)
    (g : TargetGateSet) (w' : PullState P C) : Prop :=
  ∃ g0 g', ps_gates w' = Some g' ∧ gate_set_wf g' ∧ rtc gate_set_step g0 g' ∧
    (g0 = g ∨ ∃ w0, ps_gates (fetch (pc_source_request command) w0).2 = Some g0).

Lemma finish_answer_wp `{!Sha256ApiLaws} command fetch watched version answer t text g w1 :
  arrived command fetch answer t g w1 →
  wp (match answer with
      | Err error =>
          finish_failure (E := E) command (command_target command) (OpenPullFailure_Upstream error) t text
            (command_interval command)
      | Ok response =>
          if bool_decide (osp_target response ≠ osr_target (pc_source_request command)) then
            finish_failure command (command_target command)
              (OpenPullFailure_ResponseTargetMismatch (osp_metadata response)) t text
              (command_interval command)
          else
            consistent ← expect (response_metadata_is_consistent response);
            if (consistent : bool)
            then finish_success command version response t text watched
            else finish_failure command (command_target command)
                   (OpenPullFailure_ResponseMetadataMismatch (osp_metadata response)) t text
                   (command_interval command)
      end) w1 (λ r w', moved g w1 w' ∧
        match r with Ok exec => pulled command fetch watched w' exec | Err _ => True end).
Proof.
  intros Harr. pose proof Harr as (w0 & w01 & c & Hfetch & Hclock & Hw1 & Hg & Hwf).
  assert (∀ failure, answer_failure command answer failure →
    wp (finish_failure (E := E) command (command_target command) failure t text (command_interval command)) w1
      (λ r w', moved g w1 w' ∧
        match r with Ok exec => pulled command fetch watched w' exec | Err _ => True end)) as Hfail.
  { intros failure Hf. eapply wp_mono; [apply finish_failure_wp|]. intros r w' (Hg' & He & Hr). split.
    - exists g. rewrite Hg', He. by split_and!.
    - destruct r as [exec|]; [|done]. exists answer, t, g, w1. split; [done|]. left.
      exists failure. by rewrite Hg'. }
  destruct answer as [response|error]; [|by apply Hfail].
  case_bool_decide as Htgt; [apply Hfail; by left|].
  destruct (response_metadata_is_consistent_total response) as [b Hb].
  wp_bind. eapply wp_expect; [exact Hb|]. destruct b.
  - assert (answers command response) as Ha by (by split).
    eapply wp_mono; [by apply finish_success_wp|]. intros [exec|e] w' [Hm Hr]; [|done].
    split; [done|]. exists (Ok response), t, g, w1. split; [done|].
    destruct Hr as [[Hg' Hr]|Hr]; [left|right].
    + eexists. split; [|by split]. right. right. by split.
    + by exists response, version.
  - apply Hfail. right. left. split_and!; done.
Qed.

Lemma execute_with_wp `{!Sha256ApiLaws} command fetch watched w g :
  ps_gates w = Some g → gate_set_wf g → fetch_respects_gates fetch →
  wp (execute_with (P := P) (E := E) (C := C) command fetch watched) w (λ r w',
    gates_kept command fetch g w' ∧
    match r with Ok exec => pulled command fetch watched w' exec | Err _ => True end).
Proof.
  intros Hg Hwf Hfetch. unfold execute_with. cbv zeta.
  assert (∀ p c, gates_kept command fetch g (mkPullState p (Some g) c)) as Hkeep.
  { intros p c. exists g, g. split_and!; [done..|]. by left. }
  assert (gates_kept command fetch g w) as Hw by (exists g, g; split_and!; [done..|by left]).
  wp_bind. apply wp_lift. destruct (validate_counter_audience command) as [[]|]; [|done].
  case_bool_decide; [by apply wp_fail|].
  wp_bind. apply wp_store. rewrite Hg. intros [captured|e] p _; cbn [map_err]; [|by split; [apply Hkeep|]].
  wp_bind. apply wp_lift. destruct captured as [captured|]; cbn [ok_or]; [|by split; [apply Hkeep|]].
  wp_bind. unfold now at 1, wp at 1. cbn [ps_env]. destruct (clock_now (ps_env w)) as [t0 c0]. cbn [ps_store ps_gates].
  wp_bind. apply wp_lift. destruct (format_timestamp t0) as [text0|]; [|by split; [apply Hkeep|]].
  wp_bind. apply wp_lift. destruct (rutgers_day_at t0) as [day|]; [|by split; [apply Hkeep|]].
  wp_bind. apply wp_lift. destruct (storage_lane _) as [lane|]; [|by split; [apply Hkeep|]].
  wp_bind. apply wp_store. intros [n|e] p' _; cbn [map_err ps_gates ps_env]; [|by split; [apply Hkeep|]].
  wp_bind. unfold wp at 1. cbn beta.
  set (w0 := mkPullState p' (Some g) c0).
  destruct (fetch (pc_source_request command) w0) as [answer w01] eqn:Hans.
  destruct (Hfetch (pc_source_request command) w0 g eq_refl Hwf) as (g1 & Hg1 & Hwf1).
  wp_bind. unfold now at 1, wp at 1. destruct (clock_now (ps_env w01)) as [t c] eqn:Hclock.
  assert (ps_gates (mkPullState (ps_store w01) (ps_gates w01) c) = Some g1) as Hg1' by by rewrite Hans in Hg1.
  assert (∀ w', moved g1 (mkPullState (ps_store w01) (ps_gates w01) c) w' → gates_kept command fetch g w')
    as Hmoved.
  { intros w' (g' & Hg' & _ & Hsteps & Hwf'). exists g1, g'. split_and!; [done..|]. right. by exists w0. }
  wp_bind. apply wp_lift. destruct (format_timestamp t) as [text|e].
  2: { split; [|done]. apply Hmoved. exists g1. by split_and!. }
  eapply wp_mono; [eapply (finish_answer_wp command fetch watched _ answer t text g1)|].
  - exists w0, w01, c. by split_and!.
  - intros r w' [Hm Hr]. split; [by apply Hmoved|done].
Qed.
End gate.
