(* ===== verification/OpenPullFacts.v ===== *)
(** * What a pull promises

    The properties of a whole pull, from the steps of [OpenServiceFacts]: it never
    panics; the gate advances exactly for the snapshot that was committed; the
    observations are those of the sampled watches; failures are classified alike
    by the client, the storage and the diagnostics; the upstream client only
    answers consistently; the durable record brackets the fetch. *)

From stdpp Require Import pretty.
From S2P Require Import Prelude Identity Contracts RustStr TermWindow Policy Reconcile.
From S2P Require Import OpenClient OpenClientFacts Gate GateFacts Scheduler OpenStore OpenService.
From S2P Require Import OpenServiceFacts TermWindowFacts.

Section pulls.
Context `{TimeApi, Sha256ApiLaws, JiffApi, !JiffDisplay, Rfc3339Api}.
Context {P E C : Type} `{!OpenPullPersistence P E, !OpenPullClock C}.
Implicit Types (w : PullState P C) (exec : OpenPullExecution).

(** C6. A pull never panics: no assertion of the gate, no lock and no hash fails,
    whatever the storage answers and whatever other tasks do to the gates under
    their lock while the answer is awaited; the gates stay well formed and move
    along the discipline of the gate. *)
Theorem pull_never_panics (command : OpenPullCommand)
    (fetch : OpenSectionsRequest → PullState P C →
      result OpenSectionsFailure OpenSectionsResponse * PullState P C)
    (watched : C → TermCampusKey → list SectionKey) w (g : TargetGateSet) :
  ps_gates w = Some g → gate_set_wf g → fetch_respects_gates fetch →
  ∃ r w', execute_with (E := E) command fetch watched w = Some (r, w') ∧
    gates_kept command fetch g w'.
Proof.
  intros Hg Hwf Hf. pose proof (execute_with_wp command fetch watched w g Hg Hwf Hf) as Hwp.
  destruct (wp_total _ _ _ Hwp) as [[r w'] Hr]. exists r, w'. split; [done|].
  exact (proj1 (wp_elim _ _ _ _ _ Hwp Hr)).
Qed.

Lemma pull_pulled command fetch watched w g exec w' :
  ps_gates w = Some g → gate_set_wf g → fetch_respects_gates fetch →
  execute_with (E := E) command fetch watched w = Some (Ok exec, w') →
  pulled (E := E) command fetch watched w' exec.
Proof.
  intros Hg Hwf Hf Hr.
  exact (proj2 (wp_elim _ _ _ _ _ (execute_with_wp command fetch watched w g Hg Hwf Hf) Hr)).
Qed.

(** ** Hard rejections and holds *)

Lemma observed_intersection_nil catalog open_set :
  observed_intersection catalog open_set = [] ↔ intersection_set catalog open_set = ∅.
Proof.
  assert (∀ i, i ∈ intersection_set catalog open_set ↔ i ∈ observed_intersection catalog open_set) as Hi.
  { intros i. unfold intersection_set, observed_intersection, contains_index.
    rewrite elem_of_list_to_set, !list_elem_of_filter, bool_decide_eq_true. done. }
  split.
  - intros Hn. apply set_eq. intros i. rewrite Hi, Hn. set_solver.
  - intros Hn. destruct (observed_intersection catalog open_set) as [|i l] eqn:Ho; [done|].
    assert (i ∈ (∅ : gset SectionIndex)) by (rewrite <-Hn; apply Hi; rewrite ?Ho; by left). set_solver.
Qed.

(** The snapshots the gate never sees are those reconciliation rejects whatever
    the gate says. *)
Lemma hard_reject_iff captured catalog open_set hold plan :
  reconcile_open_set captured catalog open_set hold = Ok plan →
  is_hard_reject captured catalog open_set (intersection_set catalog open_set) = true ↔
  orp_classification plan = OpenReconcileClassification_StaleCatalogRace ∨
  orp_classification plan = OpenReconcileClassification_UnsafeZeroIntersection.
Proof.
  unfold reconcile_open_set, is_hard_reject, unique_count, section_count.
  case_bool_decide; [done|]. case_bool_decide as Hv; [intros [= <-]; cbn; naive_solver|].
  rewrite orb_false_l, !andb_true_iff, !bool_decide_eq_true, <-observed_intersection_nil.
  assert (∀ l : list SectionIndex, zlen l = 0 ↔ l = []) as Hz
    by (intros []; unfold zlen; cbn; split; (done || lia)).
  case_bool_decide as He.
  - rewrite He, size_empty. repeat case_match; intros [= <-]; cbn; split; (lia || naive_solver).
  - assert (0 < size (ose_indexes open_set))%nat as Hp.
    { destruct (size (ose_indexes open_set)) eqn:Es; [|lia]. by apply size_empty_inv, leibniz_equiv in Es. }
    case_bool_decide as Hc.
    + intros [= <-]. cbn. destruct Hc as [Hc Hn]. apply Hz in Hn. split; [naive_solver|].
      intros _. split_and!; [done| |done]. destruct (size (cob_sections catalog)) eqn:Es; [|lia].
      by apply map_size_empty_iff in Es.
    + rewrite <-Hz. destruct hold; intros [= <-]; cbn; (split; [|naive_solver]);
        intros [[_ Hc1] Hc2]; exfalso; apply Hc; (split; [|done]);
        intros Hemp; rewrite Hemp, map_size_empty in Hc1; lia.
Qed.

(** A held snapshot updates nothing, and a snapshot is suspect only when held. *)
Lemma held_plan captured catalog open_set hold plan :
  reconcile_open_set captured catalog open_set hold = Ok plan →
  (hold = true → orp_updates plan = []) ∧
  (orp_classification plan = OpenReconcileClassification_SuspectPartialSnapshot → hold = true).
Proof.
  unfold reconcile_open_set. destruct hold; repeat case_bool_decide; intros [= <-]; cbn;
    (split; [intros; done|done]).
Qed.

(** The classification of a committed outcome is the plan's, unless the catalog
    changed under the commit. *)
Definition stored_classification (c : OpenReconcileClassification) : OpenAttemptClassification :=
  match c with
  | OpenReconcileClassification_ValidApplied => OpenAttemptClassification_ValidApplied
  | OpenReconcileClassification_ValidEmptyNoRows => OpenAttemptClassification_ValidEmptyNoRows
  | OpenReconcileClassification_UnsafeEmpty => OpenAttemptClassification_UnsafeEmpty
  | OpenReconcileClassification_UnsafeZeroIntersection =>
      OpenAttemptClassification_UnsafeZeroIntersection
  | OpenReconcileClassification_SuspectPartialSnapshot =>
      OpenAttemptClassification_SuspectPartialSnapshot
  | OpenReconcileClassification_StaleCatalogRace => OpenAttemptClassification_StaleCatalogRace
  end.

Lemma outcome_matches_classification outcome plan :
  outcome_matches_reconcile outcome plan = true →
  (co_classification outcome = OpenAttemptClassification_StaleCatalogRace ∧
     co_observation_sequence outcome = None) ∨
  (co_classification outcome = stored_classification (orp_classification plan) ∧
     co_catalog_content_version outcome = ccv_get (orp_current_catalog_content_version plan)).
Proof.
  unfold outcome_matches_reconcile. case_bool_decide; [rewrite bool_decide_eq_true; by left|].
  rewrite !andb_true_iff, !bool_decide_eq_true. intros ((((((Hc & Hv) & _) & _) & _) & _) & _).
  right. by split.
Qed.

(** C7. The gate advances exactly for the snapshot that is committed. In a pull
    that returns, the gates are as the answer found them when the pull failed,
    had no gate, or was rejected before the gate: of a catalog that changed, or
    disjoint from it. Otherwise the runtime handed out for the catalog evaluated
    the set of the answer; the snapshot is held exactly when that decision says
    so; the decision is committed, unless the catalog changed under the commit,
    when it is discarded; and a candidate's runtime is promoted exactly by a
    valid commit. *)
Theorem pull_gate_exact (command : OpenPullCommand)
    (fetch : OpenSectionsRequest → PullState P C →
      result OpenSectionsFailure OpenSectionsResponse * PullState P C)
    (watched : C → TermCampusKey → list SectionKey) w w' (g : TargetGateSet) exec :
  ps_gates w = Some g → gate_set_wf g → fetch_respects_gates fetch →
  execute_with (E := E) command fetch watched w = Some (Ok exec, w') →
  ∃ answer t g1 w1, arrived command fetch answer t g1 w1 ∧
  match pe_reconcile exec with
  | None => ps_gates w' = Some g1
  | Some plan =>
      ∃ captured catalog open_set hold,
        reconcile_open_set captured catalog open_set hold = Ok plan ∧
        match pc_gate command with
        | None => hold = false ∧ ps_gates w' = Some g1
        | Some route =>
            ((orp_classification plan = OpenReconcileClassification_StaleCatalogRace ∨
              orp_classification plan = OpenReconcileClassification_UnsafeZeroIntersection) ∧
             hold = false ∧ ps_gates w' = Some g1) ∨
            (orp_classification plan ≠ OpenReconcileClassification_StaleCatalogRace ∧
             orp_classification plan ≠ OpenReconcileClassification_UnsafeZeroIntersection ∧
             ∃ id d, hold = bool_decide (gd_disposition d = GateDisposition_Hold) ∧
               gate_effect route catalog (intersection_set catalog open_set) t id d
                 (co_classification (pe_outcome exec)) w')
        end
  end.
Proof.
  intros Hg Hwf Hf Hr.
  destruct (pull_pulled _ _ _ _ _ _ _ Hg Hwf Hf Hr) as (answer & t & g1 & w1 & Harr & Hpull).
  exists answer, t, g1, w1. split; [done|].
  destruct Hpull as [(failure & _ & (_ & _ & _ & -> & _) & Hg')|(response & version & _ & _ & Hcom)]; [done|].
  destruct Hcom as (captured & v & sections & catalog & open_set & plan & hold & _ & _ & _ & Hplan & -> &
    _ & Hgate & _).
  exists captured, catalog, open_set, hold. split; [done|].
  pose proof (hard_reject_iff _ _ _ _ _ Hplan) as Hhard. unfold gate_consulted in Hgate.
  destruct (pc_gate command) as [route|]; [|done].
  destruct (is_hard_reject _ _ _ _); [left; split; [by apply Hhard|done]|right].
  split; [intros ?; assert (false = true) by (apply Hhard; by left); done|].
  split; [intros ?; assert (false = true) by (apply Hhard; by right); done|done].
Qed.

(** ** Observations *)

(** One observation of a committed event. *)
Definition observation_of (command : OpenPullCommand) (outcome : OpenCommitOutcome)
    (seconds : Z) (event : OpenSectionEvent) (o : OpenObservationV1) : Prop :=
  oo_section_key o = ev_section event ∧ oo_observation_id o = ev_observation_id event ∧
  Some (oo_refresh_observation_id o) = co_refresh_observation_id outcome ∧
  ev_attempt_id event = pc_attempt_id command ∧
  oo_batch o = OpenBatchKey_new (command_target command) ∧
  sk_target (oo_section_key o) = command_target command ∧
  os_get (oo_pull_sequence o) = co_attempt_sequence outcome ∧
  ccv_get (oo_catalog_content_version o) = co_catalog_content_version outcome ∧
  (oo_state o = match ev_state event with
                | OpenSectionState_Open => OpenState_Open
                | OpenSectionState_Closed => OpenState_Closed
                end) ∧
  parse_rfc3339 (ev_observed_at event) = Some (oo_observed_at o) ∧
  odt_checked_add (oo_observed_at o) (seconds * NANOS_PER_SEC) = Some (oo_fresh_until o).

Lemma committed_observations_spec command outcome rid seq pull_sequence v counters seconds ids keys
    events obs keys' :
  co_refresh_observation_id outcome = Some rid →
  os_get pull_sequence = co_attempt_sequence outcome → ccv_get v = co_catalog_content_version outcome →
  committed_observations (E := E) command outcome rid seq pull_sequence v counters seconds ids keys events
    = Ok (obs, keys') →
  Forall2 (observation_of command outcome seconds) events obs ∧
  NoDup (oo_section_key <$> obs) ∧ NoDup (oo_observation_id <$> obs) ∧
  (∀ o, o ∈ obs → oo_section_key o ∉ keys ∧ oo_observation_id o ∉ ids) ∧
  keys' = list_to_set (oo_section_key <$> obs) ∪ keys.
Proof.
  intros Hrid Hps Hv. revert ids keys obs keys'.
  induction events as [|event events IH]; intros ids keys obs keys'; cbn [committed_observations].
  { intros [= <- <-]. split_and!; [constructor|constructor|constructor| |set_solver].
    by intros o ?%elem_of_nil. }
  unfold validate_committed_section_event.
  destruct (_ || _) eqn:Hval; [done|]. cbn [mbind result_bind].
  rewrite !orb_false_iff, !bool_decide_eq_false in Hval.
  destruct Hval as ((((_ & Hatt) & Href) & _) & _). apply dec_stable in Hatt, Href.
  case_bool_decide as Hid; [done|]. case_bool_decide as Hkey; [done|].
  destruct (parse_rfc3339 (ev_observed_at event)) as [at_|] eqn:Hat; cbn [ok_or mbind result_bind]; [|done].
  destruct (odt_checked_add at_ (seconds * NANOS_PER_SEC)) as [until|] eqn:Hun; cbn [ok_or mbind result_bind]; [|done].
  unfold OpenObservationV1_try_new. case_bool_decide as Ht; cbn [map_err mbind result_bind]; [done|].
  destruct (committed_observations _ _ _ _ _ _ _ _ _ _ events) as [[obs1 keys1]|] eqn:Hrest; [|done].
  apply IH in Hrest as (Hall & Hnd & Hnd2 & Hfresh & ->). cbn. intros [= <- <-].
  split_and!.
  - constructor; [|done]. unfold observation_of. cbn. rewrite Hrid.
    split_and!; try done; congruence.
  - cbn. constructor; [|done]. intros (o & Ho & Hin)%list_elem_of_fmap. destruct (Hfresh o Hin) as [Hk _].
    rewrite <-Ho in Hk. set_solver.
  - cbn. constructor; [|done]. intros (o & Ho & Hin)%list_elem_of_fmap. destruct (Hfresh o Hin) as [_ Hk].
    rewrite <-Ho in Hk. set_solver.
  - intros o [->|Hin]%elem_of_cons; [done|]. destruct (Hfresh o Hin). set_solver.
  - set_solver.
Qed.

Lemma freshness_seconds_of_Some n s : freshness_seconds_of n = Some s → s = 2 * n + 15.
Proof.
  unfold freshness_seconds_of, u64_try_from, i64_checked.
  repeat (case_bool_decide; cbn; [|done]). intros [= <-]. lia.
Qed.

Lemma build_committed_observations_spec command outcome watched_set obs :
  build_committed_observations (E := E) command outcome watched_set = Ok obs →
  ∃ commit, co_observation_commit outcome = Some commit ∧ cm_effective_interval_seconds commit ≠ 0 ∧
    Forall2 (observation_of command outcome (2 * cm_effective_interval_seconds commit + 15))
      (cm_section_events commit) obs ∧
    NoDup (oo_section_key <$> obs) ∧ NoDup (oo_observation_id <$> obs) ∧
    list_to_set (oo_section_key <$> obs) = watched_set.
Proof.
  unfold build_committed_observations.
  destruct (co_observation_commit outcome) as [commit|]; cbn [ok_or mbind result_bind]; [|done].
  destruct (co_refresh_observation_id outcome) as [rid|] eqn:Hrid; cbn [ok_or mbind result_bind]; [|done].
  destruct (co_observation_sequence outcome) as [seq|]; cbn [ok_or mbind result_bind]; [|done].
  destruct (OpenSequence_try_from _) as [pull_sequence|] eqn:Hps; cbn [map_err mbind result_bind]; [|done].
  destruct (CatalogContentVersion_try_from _) as [v|] eqn:Hv; cbn [map_err mbind result_bind]; [|done].
  destruct (committed_counter_snapshot _ _) as [counters|]; cbn [mbind result_bind]; [|done].
  case_bool_decide as Hzero; [done|].
  destruct (freshness_seconds_of _) as [secs|] eqn:Hs; cbn [ok_or mbind result_bind]; [|done].
  apply freshness_seconds_of_Some in Hs as ->.
  destruct (committed_observations _ _ _ _ _ _ _ _ _ _ _) as [[obs1 keys]|] eqn:Hobs; cbn [mbind result_bind]; [|done].
  apply committed_observations_spec in Hobs as (Hall & Hnd & Hnd2 & _ & ->); [|done|..].
  2: { unfold OpenSequence_try_from in Hps. by case_bool_decide; simplify_eq. }
  2: { unfold CatalogContentVersion_try_from in Hv. by case_bool_decide; simplify_eq. }
  case_bool_decide as Hw; [done|]. intros [= <-]. exists commit. rewrite union_empty_r_L in Hw.
  split_and!; done.
Qed.

(** C13. The observations a pull hands out are exactly those of the watches as they
    are when it commits. When its snapshot was applied, there is one observation
    per watched section, of a distinct identity, taken from the committed events,
    of the target and version that were pulled, fresh for twice the committed
    interval and fifteen seconds; the plan is then valid, and was not held unless
    there was nothing to update. Otherwise nothing is handed out. *)
Theorem pull_observations_spec (command : OpenPullCommand)
    (fetch : OpenSectionsRequest → PullState P C →
      result OpenSectionsFailure OpenSectionsResponse * PullState P C)
    (watched : C → TermCampusKey → list SectionKey) w w' (g : TargetGateSet) exec :
  ps_gates w = Some g → gate_set_wf g → fetch_respects_gates fetch →
  execute_with (E := E) command fetch watched w = Some (Ok exec, w') →
  if is_success (co_classification (pe_outcome exec)) then
    ∃ answer t g1 w1 plan commit hold catalog open_set captured,
      arrived command fetch answer t g1 w1 ∧ pe_reconcile exec = Some plan ∧
      is_valid (orp_classification plan) = true ∧
      reconcile_open_set captured catalog open_set hold = Ok plan ∧
      (hold = true → orp_updates plan = []) ∧
      co_observation_commit (pe_outcome exec) = Some commit ∧
      Forall2 (observation_of command (pe_outcome exec) (2 * cm_effective_interval_seconds commit + 15))
        (cm_section_events commit) (pe_observations exec) ∧
      NoDup (oo_section_key <$> pe_observations exec) ∧
      NoDup (oo_observation_id <$> pe_observations exec) ∧
      (∀ s, s ∈ oo_section_key <$> pe_observations exec ↔ s ∈ watched (ps_env w1) (command_target command))
  else pe_observations exec = [] ∧ co_observation_commit (pe_outcome exec) = None.
Proof.
  intros Hg Hwf Hf Hr.
  destruct (pull_pulled _ _ _ _ _ _ _ Hg Hwf Hf Hr) as (answer & t & g1 & w1 & Harr & Hpull).
  destruct Hpull as [(failure & _ & (Hc & Hn & _ & _ & Ho & _) & _)|(response & version & _ & _ & Hcom)].
  { rewrite Hc. by cbn. }
  destruct Hcom as (captured & v & sections & catalog & open_set & plan & hold & _ & _ & _ & Hplan & Hpe &
    Hmatch & _ & Hobs & _).
  destruct (is_success (co_classification (pe_outcome exec))) eqn:Hsucc; [|by destruct Hobs].
  apply build_committed_observations_spec in Hobs as (commit & Hcm & _ & Hall & Hnd & Hnd2 & Hset).
  exists answer, t, g1, w1, plan, commit, hold, catalog, open_set, captured. split_and!; try done.
  - apply outcome_matches_classification in Hmatch as [[Hcl _]|[Hcl _]]; rewrite Hcl in Hsucc; [done|].
    by destruct (orp_classification plan).
  - intros ->. exact (proj1 (held_plan _ _ _ _ _ Hplan) eq_refl).
  - intros s. rewrite <-(elem_of_list_to_set (C := gset SectionKey)), Hset. by rewrite elem_of_list_to_set.
Qed.

(** ** Failures *)

(** The retry class the client's disposition of an error calls for. *)
Definition disposition_kind (d : OpenFailureDisposition) (delay : option Z) : OpenFailureKind :=
  match d with
  | OpenFailureDisposition_TransientBackoff => OpenFailureKind_Transient
  | OpenFailureDisposition_RateLimitedOriginGate => OpenFailureKind_RateLimited delay
  | OpenFailureDisposition_FatalProtocolOriginCircuit
  | OpenFailureDisposition_LocalConfiguration => OpenFailureKind_FatalProtocol
  end.

(** What the upstream asked a rate limited client to wait. *)
Definition asked_delay (e : OpenSectionsError) (t : OffsetDateTime) : option Z :=
  match e with
  | OpenSectionsError_RateLimited retry_after => retry_after_delay retry_after t
  | _ => None
  end.

(** The three classifications of a failure agree: the code stored with an
    attempt is its diagnostic code; the retry it is scheduled with is the one the
    client's disposition calls for, and only a rate limit trips the origin
    circuit; the status stored without response metadata is the error's own, and
    the stored delay is the scheduled one in seconds. *)
Theorem failure_classification_agrees (failure : OpenPullFailure) (t : OffsetDateTime) :
  let '(status, seconds, code, kind) := failure_storage_fields failure t in
  code = diagnostic_code failure ∧
  (∀ upstream, failure = OpenPullFailure_Upstream upstream →
     kind = disposition_kind (disposition (osf_kind upstream)) (asked_delay (osf_kind upstream) t) ∧
     seconds = (λ delay, delay / NANOS_PER_SEC) <$> asked_delay (osf_kind upstream) t ∧
     match osf_kind upstream with
     | OpenSectionsError_TransientHttp s | OpenSectionsError_Redirect s _
     | OpenSectionsError_FatalClientHttp s | OpenSectionsError_UnsupportedHttp s => status = Some s
     | OpenSectionsError_RateLimited _ => status = Some 429
     | OpenSectionsError_Forbidden => status = Some 403
     | _ => status = None
     end) ∧
  (∀ target interval streak,
     rd_mode (retry_directive target interval streak kind) = RetryMode_OriginCircuit ↔
     ∃ retry_after metadata, failure = OpenPullFailure_Upstream
       {| osf_kind := OpenSectionsError_RateLimited retry_after; osf_response_metadata := metadata |}).
Proof.
  destruct failure as [[kind metadata]|metadata|metadata|metadata]; cbn [failure_storage_fields osf_kind].
  2-4: split; [done|]; split; [done|]; intros; cbn; split; [done|]; by intros (? & ? & ?).
  destruct kind; try destruct scope; cbn; (split; [done|]);
    (split; [by intros ? [= <-]|]); intros; (split; [try done; eauto|]); intros (? & ? & [=]); done.
Qed.

(** ** The official client *)

Context `{UrlApi, HttpApiLaws, JsonApi}.

(** Every answer is what a fetch of this client yields. *)
Definition fetches_with (client : RutgersOpenSectionsClient)
    (fetch : OpenSectionsRequest → PullState P C →
      result OpenSectionsFailure OpenSectionsResponse * PullState P C) : Prop :=
  ∀ request w, ∃ build execute,
    OpenClient.fetch client build execute request = Some (fetch request w).1.

Lemma decoded_consistent target response content_type body strs :
  response_metadata_is_consistent (decoded target response content_type body strs) = Some true.
Proof.
  pose proof (canonical_indexes_nil strs) as Hnil.
  assert (zlen (canonical_indexes strs) ≤ zlen strs) as Hle.
  { unfold zlen, canonical_indexes. rewrite length_bts_iter.
    rewrite <-(length_fmap mkSectionIndex strs). apply Nat2Z.inj_le.
    apply submseteq_length, NoDup_submseteq; [apply NoDup_elements|]. intros i. by rewrite elem_of_elements, elem_of_list_to_set. }
  assert (zlen (canonical_indexes strs) = 0 ↔ strs = []) as Hz.
  { rewrite <-Hnil. unfold zlen. destruct (canonical_indexes strs); cbn; split; (done || lia). }
  unfold response_metadata_is_consistent, decoded. cbn.
  rewrite (bool_decide_eq_true_2 (zlen _ = zlen _)) by done.
  rewrite (bool_decide_eq_true_2 (zlen _ ≤ _)) by done.
  rewrite (bool_decide_eq_true_2 (_ - _ = _)) by (rewrite saturating_sub_ge; lia).
  rewrite canonical_open_set_sha256_total, canonical_indexes_set. cbn.
  rewrite (bool_decide_eq_true_2 (mkOpenCanonicalSetHash _ = _)) by done.
  repeat case_bool_decide; naive_solver.
Qed.

(** A pull with the official client never reports an answer of another batch or
    with metadata that disagree: when it fails, it is for what the upstream did,
    or because the catalog is gone. *)
Theorem official_pull_answers (client : RutgersOpenSectionsClient) (command : OpenPullCommand)
    (fetch : OpenSectionsRequest → PullState P C →
      result OpenSectionsFailure OpenSectionsResponse * PullState P C)
    (watched : C → TermCampusKey → list SectionKey) w w' (g : TargetGateSet) exec :
  0 ≤ rc_max_decoded_bytes client ≤ u64_max → fetches_with client fetch →
  ps_gates w = Some g → gate_set_wf g → fetch_respects_gates fetch →
  execute_with (E := E) command fetch watched w = Some (Ok exec, w') →
  match pe_terminal exec with
  | OpenPullTerminal_Valid response | OpenPullTerminal_Unsafe response
  | OpenPullTerminal_CatalogRace response => answers command response
  | OpenPullTerminal_Failed failure =>
      match failure with
      | OpenPullFailure_Upstream _ | OpenPullFailure_CatalogUnavailableAfterFetch _ => True
      | OpenPullFailure_ResponseTargetMismatch _
      | OpenPullFailure_ResponseMetadataMismatch _ => False
      end
  end.
Proof.
  intros Hmax Hcl Hg Hwf Hf Hr.
  destruct (pull_pulled _ _ _ _ _ _ _ Hg Hwf Hf Hr) as (answer & t & g1 & w1 & Harr & Hpull).
  assert (∀ response, answer = Ok response → answers command response) as Hans.
  { intros response ->. destruct Harr as (w0 & w01 & c & Hfetch & _).
    destruct (Hcl (pc_source_request command) w0) as (build & execute & Hc). rewrite Hfetch in Hc.
    apply fetch_ok_decoded in Hc as (hr & ct & body & strs & -> & _); [|done].
    split; [done|apply decoded_consistent]. }
  destruct Hpull as [(failure & Hfail & (_ & _ & -> & _) & _)|(response & version & -> & Ha & Hcom)].
  - destruct answer as [response|error]; cbn in Hfail; [|by rewrite Hfail].
    destruct (Hans response eq_refl) as [Ht Hc].
    destruct Hfail as [[Hne _]|[(_ & Hfalse & _)|[_ ->]]]; [by destruct Hne|congruence|done].
  - destruct Hcom as (_ & _ & _ & _ & _ & _ & _ & _ & _ & _ & _ & _ & _ & _ & _ & Hterm).
    unfold pull_terminal in Hterm.
    destruct (co_classification (pe_outcome exec)); cbn in Hterm; try discriminate Hterm;
      injection Hterm as _ <-; done.
Qed.
End pulls.

(** ** The order of the durable record *)

Inductive PullEvent :=
| PullEvent_Begin (attempt_id : TraceId)
| PullEvent_Fetch
| PullEvent_FinishSuccess (attempt_id : TraceId)
| PullEvent_FinishFailure (attempt_id : TraceId).

Create HintDb quiet discriminated.

Section logged.
Context `{TimeApi, Sha256Api, JiffApi, !JiffDisplay, Rfc3339Api}.
Context {P E C : Type} `{base : !OpenPullPersistence P E, !OpenPullClock C}.
Local Abbreviation logged := (P * list PullEvent)%type.

(** The result of an operation, with the event it logs when it succeeds. *)
Definition log_with {A} (event : list PullEvent) (log : list PullEvent) (r : result E A * P)
    : result E A * logged :=
  match r with
  | (Ok a, p) => (Ok a, (p, log ++ event))
  | (Err e, p) => (Err e, (p, log))
  end.

(** Any storage, with the log of what it recorded. *)
#[local] Instance logged_persistence : OpenPullPersistence logged E := {|
  serving_open_catalog_snapshot p target := log_with [] p.2 (serving_open_catalog_snapshot p.1 target);
  begin_open_pull_attempt p command :=
    log_with [PullEvent_Begin (bo_attempt_id command)] p.2 (begin_open_pull_attempt p.1 command);
  finish_open_pull_success p command :=
    log_with [PullEvent_FinishSuccess (fs_attempt_id command)] p.2 (finish_open_pull_success p.1 command);
  finish_open_pull_failure p command :=
    log_with [PullEvent_FinishFailure (ff_attempt_id command)] p.2 (finish_open_pull_failure p.1 command);
  lkg_open_index_set p target := log_with [] p.2 (lkg_open_index_set p.1 target);
  recent_open_gate_attempt_summaries p target limit :=
    log_with [] p.2 (recent_open_gate_attempt_summaries p.1 target limit)
|}.

Definition logged_fetch
    (fetch : OpenSectionsRequest → PullState P C →
      result OpenSectionsFailure OpenSectionsResponse * PullState P C)
    (request : OpenSectionsRequest) (w : PullState logged C)
    : result OpenSectionsFailure OpenSectionsResponse * PullState logged C :=
  let '(r, w1) := fetch request (mkPullState (ps_store w).1 (ps_gates w) (ps_env w)) in
  (r, mkPullState (ps_store w1, (ps_store w).2 ++ [PullEvent_Fetch]) (ps_gates w1) (ps_env w1)).

Definition log_of (w : PullState logged C) : list PullEvent := (ps_store w).2.

(** What an execution of [m] adds to the log. *)
Definition emits {A} (m : Service logged E C A)
    (K : result (SharedOpenServiceError E) A → list PullEvent → Prop) : Prop :=
  ∀ w r w', m w = Some (r, w') → ∃ l, log_of w' = log_of w ++ l ∧ K r l.

Definition quiet {A} (m : Service logged E C A) : Prop := emits m (λ _ l, l = []).

Lemma emits_bind {A B} (m : Service logged E C A) (f : A → Service logged E C B) K L :
  emits m L →
  (∀ a, emits (f a) (λ r l', ∀ l, L (Ok a) l → K r (l ++ l'))) →
  (∀ e l, L (Err e) l → K (Err e) l) → emits (m ≫= f) K.
Proof.
  intros Hm Hf He w r w' Hr. unfold mbind, service_bind in Hr.
  destruct (m w) as [[[a|e] w1]|] eqn:Hw; [| |done].
  - destruct (Hm _ _ _ Hw) as (l & Hl & HL), (Hf _ _ _ _ Hr) as (l' & Hl' & HK).
    exists (l ++ l'). rewrite Hl', Hl, (assoc_L (++)). auto.
  - injection Hr as <- <-. destruct (Hm _ _ _ Hw) as (l & Hl & HL). eauto.
Qed.

Lemma quiet_bind {A B} (m : Service logged E C A) (f : A → Service logged E C B) K :
  quiet m → (∀ a, emits (f a) K) → (∀ e, K (Err e) []) → emits (m ≫= f) K.
Proof.
  intros Hm Hf He. apply (emits_bind m f K _ Hm); [|by intros e l ->].
  intros a w r w' Hr. destruct (Hf a w r w' Hr) as (l & Hl & HK). exists l. split; [done|].
  by intros l' ->.
Qed.

Lemma emits_pure {A} (m : Service logged E C A) (K : _ → _ → Prop) :
  (∀ w r w', m w = Some (r, w') → log_of w' = log_of w ∧ K r []) → emits m K.
Proof. intros Hm w r w' Hr. destruct (Hm w r w' Hr). exists []. by rewrite app_nil_r. Qed.

Lemma emits_ret {A} (a : A) (K : _ → _ → Prop) : K (Ok a) [] → emits (mret a) K.
Proof. intros HK. apply emits_pure. by intros w r w' [= <- <-]. Qed.
Lemma emits_fail {A} e (K : _ → _ → Prop) : K (Err e) [] → emits (fail e : Service logged E C A) K.
Proof. intros HK. apply emits_pure. by intros w r w' [= <- <-]. Qed.
Lemma quiet_lift {A} (r : result (SharedOpenServiceError E) A) : quiet (lift r : Service logged E C A).
Proof. apply emits_pure. by intros w r' w' [= <- <-]. Qed.
Lemma quiet_expect {A} (o : option A) : quiet (expect o : Service logged E C A).
Proof. apply emits_pure. intros w r w'. destruct o; [by intros [= <- <-]|done]. Qed.
Lemma quiet_now : quiet (now : Service logged E C _).
Proof. apply emits_pure. intros w r w'. unfold now. destruct (clock_now _). by intros [= <- <-]. Qed.
Lemma quiet_lock : quiet (lock_gates : Service logged E C _).
Proof. apply emits_pure. intros w r w'. unfold lock_gates. by destruct (ps_gates w); intros [= <- <-]. Qed.
Lemma quiet_put g : quiet (put_gates g : Service logged E C _).
Proof. apply emits_pure. by intros w r w' [= <- <-]. Qed.
Lemma quiet_watch (f : C → list SectionKey) :
  quiet ((λ w, Some (Ok (f (ps_env w)), w)) : Service logged E C _).
Proof. apply emits_pure. by intros w r w' [= <- <-]. Qed.

(** A storage operation adds its event when it succeeds. *)
Lemma emits_store {A} (op : P → result E A * P) event :
  emits (store (λ p, log_with event p.2 (op p.1)) : Service logged E C A)
    (λ r l, match r with Ok _ => l = event | Err _ => l = [] end).
Proof.
  intros w r w'. unfold store, log_with. destruct (op (ps_store w).1) as [[a|e] p]; cbn; intros [= <- <-];
    unfold log_of; cbn; [by exists event|exists []; by rewrite app_nil_r].
Qed.
Lemma quiet_read {A} (op : P → result E A * P) :
  quiet (store (λ p, log_with [] p.2 (op p.1)) : Service logged E C A).
Proof. intros w r w' Hr. destruct (emits_store op [] w r w' Hr) as (l & Hl & HK). exists l. by destruct r. Qed.

Lemma quiet_snapshot target :
  quiet (store (λ p, serving_open_catalog_snapshot p target) : Service logged E C _).
Proof. exact (quiet_read (λ p, serving_open_catalog_snapshot p target)). Qed.
Lemma quiet_lkg target : quiet (store (λ p, lkg_open_index_set p target) : Service logged E C _).
Proof. exact (quiet_read (λ p, lkg_open_index_set p target)). Qed.
Lemma quiet_recent target n :
  quiet (store (λ p, recent_open_gate_attempt_summaries p target n) : Service logged E C _).
Proof. exact (quiet_read (λ p, recent_open_gate_attempt_summaries p target n)). Qed.

Lemma quiet_quiet_bind {A B} (m : Service logged E C A) (f : A → Service logged E C B) :
  quiet m → (∀ a, quiet (f a)) → quiet (m ≫= f).
Proof. intros Hm Hf. by apply quiet_bind. Qed.

#[local] Hint Resolve quiet_lift quiet_expect quiet_now quiet_lock quiet_put quiet_watch
  quiet_snapshot quiet_lkg quiet_recent : quiet.
#[local] Hint Extern 1 (quiet (mret _)) => by apply emits_ret : quiet.
#[local] Hint Extern 1 (quiet (fail _)) => by apply emits_fail : quiet.

(** Bodies all of whose operations are quiet. *)
Ltac quiet_body := repeat first
  [ solve [eauto with quiet]
  | apply quiet_quiet_bind; [solve [eauto with quiet]|intros ?]
  | match goal with
    | |- context [match ?x with _ => _ end] => destruct x
    | |- context [let '(_, _) := ?x in _] => destruct x
    end ].

Lemma quiet_lkg_reference target catalog : quiet (lkg_reference (P := logged) (E := E) (C := C) target catalog).
Proof. unfold lkg_reference. quiet_body. Qed.
#[local] Hint Resolve quiet_lkg_reference : quiet.

Lemma quiet_ensure target catalog id t :
  quiet (ensure_serving (P := logged) (E := E) (C := C) target catalog id t).
Proof. unfold ensure_serving. quiet_body. Qed.

Lemma quiet_current target catalog id :
  quiet (current_serving (P := logged) (E := E) (C := C) target catalog id).
Proof.
  unfold current_serving. apply quiet_quiet_bind; [auto with quiet|]. intros g.
  destruct (serving_mut g) as [r g']. quiet_body.
Qed.
#[local] Hint Resolve quiet_ensure quiet_current : quiet.

Lemma quiet_candidate target catalog id :
  quiet (candidate_runtime (P := logged) (E := E) (C := C) target catalog id).
Proof.
  unfold candidate_runtime. apply quiet_quiet_bind; [auto with quiet|]. intros seed.
  apply quiet_quiet_bind; [auto with quiet|]. intros g.
  destruct (candidate_mut id seed g) as [r g']. quiet_body.
Qed.

Lemma quiet_serving target catalog id t :
  quiet (serving_runtime (P := logged) (E := E) (C := C) target catalog id t).
Proof. unfold serving_runtime. quiet_body. Qed.
#[local] Hint Resolve quiet_candidate quiet_serving : quiet.

Lemma quiet_gate_decide route target catalog observed t :
  quiet (gate_decide (P := logged) (E := E) (C := C) route target catalog observed t).
Proof.
  unfold gate_decide. apply quiet_quiet_bind; [auto with quiet|]. intros _.
  apply quiet_quiet_bind; [destruct route; auto with quiet|]. intros r. quiet_body.
Qed.

Lemma quiet_gate_commit route id d success :
  quiet (gate_commit (P := logged) (E := E) (C := C) route id d success).
Proof.
  unfold gate_commit. apply quiet_quiet_bind; [auto with quiet|]. intros g.
  destruct route; [destruct (serving_mut g)|destruct (candidate_mut id None g)]; quiet_body.
Qed.

Lemma quiet_pull_terminal command target interval c response :
  quiet (pull_terminal (P := logged) (E := E) (C := C) command target interval c response).
Proof. unfold pull_terminal. destruct c; auto with quiet. Qed.
#[local] Hint Resolve quiet_gate_decide quiet_gate_commit quiet_pull_terminal : quiet.

(** The end of a pull in the log: one finish when it returns, at most one when it
    fails. *)
Definition finished (id : TraceId) (r : result (SharedOpenServiceError E) OpenPullExecution)
    (l : list PullEvent) : Prop :=
  match r with
  | Ok exec =>
      l = [match pe_terminal exec with
           | OpenPullTerminal_Failed _ => PullEvent_FinishFailure id
           | _ => PullEvent_FinishSuccess id
           end]
  | Err _ => l = [] ∨ l = [PullEvent_FinishSuccess id] ∨ l = [PullEvent_FinishFailure id]
  end.

Lemma emits_finish_failure command failure t text :
  emits (finish_failure (P := logged) (E := E) (C := C) command (command_target command) failure t text
           (command_interval command)) (finished (pc_attempt_id command)).
Proof.
  unfold finish_failure. destruct (failure_storage_fields failure t) as [[[status secs] code] kind].
  apply quiet_bind; [auto with quiet| |by left]. intros http.
  eapply emits_bind; [exact (emits_store (λ p, finish_open_pull_failure p _) _)| |].
  - intros outcome. case_bool_decide; [apply emits_fail; intros l ->; right; by right|].
    case_bool_decide; [apply emits_fail; intros l ->; right; by right|]. apply emits_ret. by intros l ->.
  - intros e l ->. by left.
Qed.

Lemma emits_mono {A} (m : Service logged E C A) (K K' : _ → _ → Prop) :
  emits m K → (∀ r l, K r l → K' r l) → emits m K'.
Proof. intros Hm HK w r w' Hr. destruct (Hm w r w' Hr) as (l & Hl & H'). eauto. Qed.

Lemma quiet_tail command response outcome :
  emits (pull_terminal (P := logged) (E := E) (C := C) command (command_target command)
           (command_interval command) outcome response)
    (λ r l, l = [] ∧ match r with Ok (_, OpenPullTerminal_Failed _) => False | _ => True end).
Proof. apply emits_pure. intros w r w'. by destruct outcome; intros [= <- <-]. Qed.

Lemma emits_finish_commit command response text watched count len plan hold gate :
  emits (finish_commit (P := logged) (E := E) (C := C) command response text watched count len plan hold gate)
    (finished (pc_attempt_id command)).
Proof.
  unfold finish_commit. apply quiet_bind; [exact (quiet_watch (λ c, watched c (command_target command)))| |by left].
  intros watched_sections.
  eapply emits_bind; [exact (emits_store (λ p, finish_open_pull_success p _) _)| |].
  2: { intros e l ->. by left. }
  intros outcome. destruct (outcome_matches_reconcile outcome plan); cbn [negb].
  2: { apply emits_fail. intros l ->. right. by left. }
  apply quiet_bind; [|intros _|intros e l ->; right; by left].
  { destruct gate as [[route [id d]]|]; [case_bool_decide|]; auto with quiet. }
  apply quiet_bind; [|intros obs|intros e l ->; right; by left].
  { destruct (is_success _); [|case_bool_decide]; auto with quiet. }
  eapply emits_bind; [apply quiet_tail| |].
  - intros [completion terminal]. apply emits_ret. intros l' [-> Hf] l ->. cbn. by destruct terminal.
  - intros e l' [-> _] l ->. right. by left.
Qed.

Lemma emits_finish_success command version response t text watched :
  emits (finish_success (P := logged) (E := E) (C := C) command version response t text watched)
    (finished (pc_attempt_id command)).
Proof.
  unfold finish_success. cbv zeta.
  apply quiet_bind; [apply quiet_lift|intros count|by left].
  apply quiet_bind; [apply quiet_lift|intros len|by left].
  apply quiet_bind; [apply quiet_snapshot|intros [current|]|by left]; [|apply emits_finish_failure].
  apply quiet_bind; [apply quiet_lift|intros v|by left].
  apply quiet_bind; [apply quiet_lift|intros catalog|by left].
  apply quiet_bind; [apply quiet_lift|intros open_set|by left].
  apply quiet_bind; [apply quiet_lift|intros captured|by left].
  apply quiet_bind; [|intros gate|by left].
  { destruct (pc_gate command); [destruct (is_hard_reject _ _ _ _)|]; auto with quiet.
    apply quiet_quiet_bind; auto with quiet. }
  apply quiet_bind; [apply quiet_lift|intros plan|by left]. apply emits_finish_commit.
Qed.

(** The log of a pull: nothing, or its start, then one fetch, then its end. *)
Definition pull_log (id : TraceId) (r : result (SharedOpenServiceError E) OpenPullExecution)
    (l : list PullEvent) : Prop :=
  match r with
  | Ok _ => ∃ l', l = [PullEvent_Begin id; PullEvent_Fetch] ++ l' ∧ finished id r l'
  | Err _ => l = [] ∨ ∃ l', l = [PullEvent_Begin id; PullEvent_Fetch] ++ l' ∧ finished id r l'
  end.

(** C14. The start of a pull is recorded before its only fetch, and everything else
    after it. Over any storage, a pull that returns has recorded exactly its
    start, the fetch, and one end, a success or a failure as its terminal says; a
    pull that returns an error recorded nothing, or its start and the fetch, with
    at most one end. *)
Theorem pull_durable_order (command : OpenPullCommand)
    (fetch : OpenSectionsRequest → PullState P C →
      result OpenSectionsFailure OpenSectionsResponse * PullState P C)
    (watched : C → TermCampusKey → list SectionKey) (w w' : PullState logged C)
    (r : result (SharedOpenServiceError E) OpenPullExecution) :
  execute_with (P := logged) command (logged_fetch fetch) watched w = Some (r, w') →
  ∃ l, log_of w' = log_of w ++ l ∧ pull_log (pc_attempt_id command) r l.
Proof.
  revert w r w'. change (emits (execute_with (P := logged) (E := E) command (logged_fetch fetch) watched)
    (pull_log (pc_attempt_id command))).
  assert (∀ e, pull_log (pc_attempt_id command) (Err e) []) as Hnone by (by left).
  unfold execute_with. cbv zeta.
  apply quiet_bind; [apply quiet_lift|intros _|done]. case_bool_decide; [by apply emits_fail|].
  apply quiet_bind; [apply quiet_snapshot|intros snapshot|done].
  apply quiet_bind; [apply quiet_lift|intros captured|done].
  apply quiet_bind; [apply quiet_now|intros t0|done].
  apply quiet_bind; [apply quiet_lift|intros text0|done].
  apply quiet_bind; [apply quiet_lift|intros day|done].
  apply quiet_bind; [apply quiet_lift|intros lane|done].
  eapply emits_bind; [exact (emits_store (λ p, begin_open_pull_attempt p _) _)| |by intros e l ->].
  intros n. eapply (emits_bind _ _ _ (λ _ l, l = [PullEvent_Fetch])).
  { intros w r w'. unfold logged_fetch.
    destruct (fetch _ _) as [answer w1]. intros [= <- <-]. by exists [PullEvent_Fetch]. }
  2: { intros e l -> l' ->. right. exists []. split; [done|by left]. }
  intros answer.
  assert (∀ m : Service logged E C OpenPullExecution, emits m (finished (pc_attempt_id command)) →
    emits m (λ r l', ∀ l, l = [PullEvent_Fetch] → ∀ l0, l0 = [PullEvent_Begin (pc_attempt_id command)] →
      pull_log (pc_attempt_id command) r (l0 ++ l ++ l'))) as Hend.
  { intros m Hm. eapply emits_mono; [exact Hm|]. intros [exec|e] l' Hl l -> l0 ->.
    - by exists l'.
    - right. by exists l'. }
  apply Hend.
  apply quiet_bind; [apply quiet_now|intros t|by left].
  apply quiet_bind; [apply quiet_lift|intros text|by left].
  destruct answer as [response|error]; [|apply emits_finish_failure].
  case_bool_decide; [apply emits_finish_failure|].
  apply quiet_bind; [apply quiet_expect|intros []|by left];
    [apply emits_finish_success|apply emits_finish_failure].
Qed.
End logged.

(** ** A concrete pull, and the witnesses *)

Module PullExample.

#[local] Existing Instance concrete_time_api.
#[local] Existing Instance concrete_sha256_api.
#[local] Existing Instance concrete_sha256_api_laws.
#[local] Existing Instance concrete_url_api.
#[local] Existing Instance concrete_http_api.
#[local] Existing Instance concrete_http_api_laws.
#[local] Existing Instance concrete_json_api.
#[local] Instance example_display : JiffDisplay := λ _, "2026-03-10".
#[local] Instance example_rfc3339 : Rfc3339Api := {|
  format_rfc3339 t := if bool_decide (0 ≤ t) then Some (pretty t) else None;
  parse_rfc3339 s := if bool_decide (s = "") then None else Some (decimal_value s)
|}.

(** A storage that serves one catalog and answers commits as it is told. *)
Record ExampleStore := { ex_catalog : option OpenCatalogSnapshot; ex_outcome : OpenCommitOutcome }.

Definition failed_outcome (o : OpenCommitOutcome) : OpenCommitOutcome :=
  {| co_attempt_id := co_attempt_id o; co_attempt_sequence := co_attempt_sequence o;
     co_classification := OpenAttemptClassification_Failed; co_refresh_observation_id := None;
     co_observation_sequence := None; co_catalog_content_version := co_catalog_content_version o;
     co_source_value_count := 0; co_catalog_section_count := 0; co_intersection_count := 0;
     co_orphan_count := 0; co_duplicate_count := 0; co_changed_section_count := 0;
     co_body_changed := false; co_state_changed := false; co_retained_lkg_attempt_id := None;
     co_observation_commit := None |}.

#[local] Instance example_persistence : OpenPullPersistence ExampleStore () := {|
  serving_open_catalog_snapshot p _ := (Ok (ex_catalog p), p);
  begin_open_pull_attempt p _ := (Ok 7, p);
  finish_open_pull_success p _ := (Ok (ex_outcome p), p);
  finish_open_pull_failure p _ := (Ok (failed_outcome (ex_outcome p)), p);
  lkg_open_index_set p _ := (Ok None, p);
  recent_open_gate_attempt_summaries p _ _ := (Ok [], p)
|}.

(** A clock that stands still; the watches are part of the environment. *)
#[local] Instance example_clock : OpenPullClock (list SectionKey) := λ c, (1000, c).

Definition example_event : OpenSectionEvent := {|
  ev_event_id := 1; ev_observation_id := 41%N; ev_refresh_observation_id := 40%N; ev_attempt_id := 5%N;
  ev_section := example_section "00001"; ev_state := OpenSectionState_Open;
  ev_catalog_content_version := 1; ev_observation_sequence := 3; ev_observed_at := "1000" |}.

Definition example_counters : OpenAttemptCounters :=
  {| ac_attempted := 7; ac_succeeded := 7; ac_failed := 0; ac_empty := 0 |}.

Definition example_outcome : OpenCommitOutcome := {|
  co_attempt_id := 5%N; co_attempt_sequence := 7;
  co_classification := OpenAttemptClassification_ValidApplied;
  co_refresh_observation_id := Some 40%N; co_observation_sequence := Some 3;
  co_catalog_content_version := 1; co_source_value_count := 3; co_catalog_section_count := 3;
  co_intersection_count := 2; co_orphan_count := 0; co_duplicate_count := 1;
  co_changed_section_count := 2; co_body_changed := true; co_state_changed := true;
  co_retained_lkg_attempt_id := None;
  co_observation_commit := Some {|
    cm_rutgers_day := "2026-03-10"; cm_effective_interval_seconds := 30;
    cm_run_counts := example_counters; cm_target_day_counts := example_counters;
    cm_service_day_counts := example_counters; cm_section_events := [example_event] |} |}.

Definition example_store : ExampleStore := {|
  ex_catalog := Some {| cs_target := example_nb; cs_content_version := 1;
    cs_sections := example_section <$> ["00001"; "00002"; "00003"] |};
  ex_outcome := example_outcome |}.

Definition example_command : OpenPullCommand := {|
  pc_attempt_id := 5%N; pc_run_id := 6%N; pc_source_request := example_request;
  pc_refresh_intervals := OpenRefreshIntervals_public; pc_active_watch_count := 1;
  pc_freshness_interval_seconds := 30; pc_lane := OriginSchedulerLane_OpenActiveWatch;
  pc_scheduler_lag := 2000000; pc_current_failure_streak := 0;
  pc_counter_audience := OpenCounterAudience_Public; pc_gate := Some OpenGateRoute_Serving |}.

(** While the answer is awaited a page starts to watch the first section. *)
Definition example_fetch (request : OpenSectionsRequest) (w : PullState ExampleStore (list SectionKey))
    : result OpenSectionsFailure OpenSectionsResponse * PullState ExampleStore (list SectionKey) :=
  (Ok (decoded (osr_target request) example_http_response "Application/JSON; charset=utf-8"
         "00002,00001,00002" example_texts),
   mkPullState (ps_store w) (ps_gates w) [example_section "00001"]).

Definition example_watched (c : list SectionKey) (target : TermCampusKey) : list SectionKey := c.

Definition example_state : PullState ExampleStore (list SectionKey) :=
  mkPullState example_store (Some TargetGateSet_new) [].

Definition example_pull :
    option (result (SharedOpenServiceError ()) OpenPullExecution * PullState ExampleStore (list SectionKey)) :=
  execute_with example_command example_fetch example_watched example_state.

Lemma example_pull_returns :
  match example_pull with
  | Some (Ok exec, _) =>
      is_success (co_classification (pe_outcome exec)) = true ∧
      (oo_section_key <$> pe_observations exec) = [example_section "00001"]
  | _ => False
  end.
Proof. vm_compute. by split. Qed.

Lemma example_gates_wf : gate_set_wf TargetGateSet_new.
Proof. apply gate_set_empty_wf. Qed.

Lemma example_respects : fetch_respects_gates example_fetch.
Proof. intros request w g Hg Hwf. exists g. by split. Qed.

(** The execution and the state it leaves. *)
Lemma example_pull_eq :
  ∃ exec w', execute_with example_command example_fetch example_watched example_state =
      Some (Ok exec, w') ∧
    is_success (co_classification (pe_outcome exec)) = true ∧
    (oo_section_key <$> pe_observations exec) = [example_section "00001"] ∧
    (match pe_terminal exec with OpenPullTerminal_Valid _ => true | _ => false end) = true ∧
    is_Some (pe_reconcile exec).
Proof.
  assert (match example_pull with
    | Some (Ok exec, _) =>
        is_success (co_classification (pe_outcome exec)) = true ∧
        (oo_section_key <$> pe_observations exec) = [example_section "00001"] ∧
        (match pe_terminal exec with OpenPullTerminal_Valid _ => true | _ => false end) = true ∧
        is_Some (pe_reconcile exec)
    | _ => False end) as Hex by (vm_compute; split_and!; eauto).
  unfold example_pull in Hex.
  destruct (execute_with example_command example_fetch example_watched example_state) as [[[exec|e] w']|];
    [|done..]. by exists exec, w'.
Qed.

Lemma pull_never_panics_witness :
  ps_gates example_state = Some TargetGateSet_new ∧ fetch_respects_gates example_fetch ∧
  ∃ r w', execute_with (E := ()) example_command example_fetch example_watched example_state = Some (r, w') ∧
    gates_kept example_command example_fetch TargetGateSet_new w'.
Proof.
  split; [reflexivity|]. split; [exact example_respects|].
  exact (pull_never_panics example_command example_fetch example_watched example_state TargetGateSet_new
    eq_refl example_gates_wf example_respects).
Defined.

Lemma pull_gate_exact_witness :
  ∃ exec w' answer t g1 w1,
    execute_with (E := ()) example_command example_fetch example_watched example_state = Some (Ok exec, w') ∧
    is_Some (pe_reconcile exec) ∧ arrived example_command example_fetch answer t g1 w1.
Proof.
  destruct example_pull_eq as (exec & w' & Hr & _ & _ & _ & Hplan).
  destruct (pull_gate_exact example_command example_fetch example_watched example_state w' TargetGateSet_new
    exec eq_refl example_gates_wf example_respects Hr) as (answer & t & g1 & w1 & Harr & _).
  exists exec, w', answer, t, g1, w1. split; [exact Hr|]. split; [exact Hplan|exact Harr].
Defined.

Lemma pull_observations_spec_witness :
  ∃ exec w' commit,
    execute_with (E := ()) example_command example_fetch example_watched example_state = Some (Ok exec, w') ∧
    co_observation_commit (pe_outcome exec) = Some commit ∧
    (oo_section_key <$> pe_observations exec) = [example_section "00001"] ∧
    NoDup (oo_section_key <$> pe_observations exec).
Proof.
  destruct example_pull_eq as (exec & w' & Hr & Hs & Hk & _).
  pose proof (pull_observations_spec example_command example_fetch example_watched example_state w'
    TargetGateSet_new exec eq_refl example_gates_wf example_respects Hr) as Hspec.
  rewrite Hs in Hspec.
  destruct Hspec as (_ & _ & _ & _ & _ & commit & _ & _ & _ & _ & _ & _ & _ & _ & _ & Hc & _ & Hnd & _).
  exists exec, w', commit. split; [exact Hr|]. split; [exact Hc|]. split; [exact Hk|exact Hnd].
Defined.

(** The answer of the example is what the example client yields. *)
Lemma example_fetches : fetches_with example_client example_fetch.
Proof.
  intros request w. exists (λ _, true), example_execute.
  change (decode_response OPEN_MAX_DECODED_BYTES (osr_target request) example_http_response =
    Some (example_fetch request w).1).
  apply (decode_response_acceptable example_client ("rutgers", "open")); try (vm_compute; discriminate).
  split_and!; try (vm_compute; reflexivity); try (vm_compute; discriminate).
  - exists ["00002,000"; "01,00002"]. split; reflexivity.
  - repeat constructor.
Qed.

Lemma official_pull_answers_witness :
  0 ≤ rc_max_decoded_bytes example_client ≤ u64_max ∧
  ∃ exec w' response,
    execute_with (E := ()) example_command example_fetch example_watched example_state = Some (Ok exec, w') ∧
    pe_terminal exec = OpenPullTerminal_Valid response ∧ answers example_command response.
Proof.
  assert (0 ≤ rc_max_decoded_bytes example_client ≤ u64_max) as Hmax by (vm_compute; split; discriminate).
  split; [exact Hmax|]. destruct example_pull_eq as (exec & w' & Hr & _ & _ & Ht & _).
  pose proof (official_pull_answers example_client example_command example_fetch example_watched
    example_state w' TargetGateSet_new exec Hmax example_fetches eq_refl example_gates_wf example_respects Hr)
    as Ha.
  destruct (pe_terminal exec) as [response| | |] eqn:Hterm; [|discriminate Ht..].
  exists exec, w', response. split; [exact Hr|]. split; [exact Hterm|exact Ha].
Defined.

(** The same pull over the logging storage, from an empty log. *)
Definition example_logged_state : PullState (ExampleStore * list PullEvent) (list SectionKey) :=
  mkPullState (example_store, []) (Some TargetGateSet_new) [].

Lemma example_logged_pull :
  ∃ exec w', execute_with (P := ExampleStore * list PullEvent) (E := ())
      (OpenPullPersistence0 := logged_persistence)
      example_command (logged_fetch example_fetch) example_watched example_logged_state = Some (Ok exec, w') ∧
    log_of w' = [PullEvent_Begin 5%N; PullEvent_Fetch; PullEvent_FinishSuccess 5%N].
Proof.
  assert (match execute_with (P := ExampleStore * list PullEvent) (E := ())
      (OpenPullPersistence0 := logged_persistence)
      example_command (logged_fetch example_fetch) example_watched example_logged_state with
    | Some (Ok _, w') => log_of w' = [PullEvent_Begin 5%N; PullEvent_Fetch; PullEvent_FinishSuccess 5%N]
    | _ => False end) as Hex by (vm_compute; reflexivity).
  destruct (execute_with _ _ _ _) as [[[exec|e] w']|]; [|done..]. by exists exec, w'.
Qed.

Lemma pull_durable_order_witness :
  ∃ exec w' l, execute_with (P := ExampleStore * list PullEvent) (E := ())
      (OpenPullPersistence0 := logged_persistence)
      example_command (logged_fetch example_fetch) example_watched example_logged_state = Some (Ok exec, w') ∧
    log_of w' = l ∧ pull_log (E := ()) 5%N (Ok exec) l.
Proof.
  destruct example_logged_pull as (exec & w' & Hr & _).
  destruct (pull_durable_order example_command example_fetch example_watched example_logged_state w'
    (Ok exec) Hr) as (l & Hl & Hlog).
  exists exec, w', l. split; [exact Hr|]. split; [exact Hl|exact Hlog].
Defined.

(** An error after the fetch can leave a pull without its end: here the serving
    catalog lists a section twice. *)
Definition example_unfinished_state : PullState (ExampleStore * list PullEvent) (list SectionKey) :=
  mkPullState ({| ex_catalog := Some {| cs_target := example_nb; cs_content_version := 1;
    cs_sections := example_section <$> ["00001"; "00001"] |}; ex_outcome := example_outcome |}, [])
    (Some TargetGateSet_new) [].

Lemma unfinished_pull_example :
  match execute_with (P := ExampleStore * list PullEvent) (E := ())
      (OpenPullPersistence0 := logged_persistence)
      example_command (logged_fetch example_fetch) example_watched example_unfinished_state with
  | Some (Err (ServiceError_Reconcile ReconcileInputError_DuplicateCatalogSectionIndex), w') =>
      log_of w' = [PullEvent_Begin 5%N; PullEvent_Fetch]
  | _ => False
  end.
Proof. vm_compute. reflexivity. Qed.

End PullExample.
