(* ===== verification/OpenTables.v ===== *)
(** * The Open tables and their statements
    (crates/bcsp-operational-storage: src/open.rs and migrations/)

    The rows of the tables the Open operations read and write, with the keys,
    the foreign keys and the cascades their migrations declare, and the
    transactions over them as a state, error and panic monad whose errors roll
    back. A column holds the value whose canonical text or integer is stored:
    enumerations are read back by [OpenStore], a target identifier is
    [open_target_id] of its key, and the errors of rows that were altered by
    someone else are not modelled. The CHECK clauses of single columns are
    implied by the validation of commands and not modelled, except those that
    make a group of columns all present or all absent. *)

From S2P Require Import Prelude Identity Ordering Contracts RustStr OpenStore.

(** ** Rows *)

(** What the Open operations use of [catalog_targets] and
    [catalog_refresh_observations]. *)
Record CatalogTargetRow := {
  ct_current_content_version : Z;
  ct_section_count : Z
}.

Record CatalogObservationRow := {
  cor_target : TermCampusKey;
  cor_status : string;
  cor_completed_at : option string;
  cor_error_stage : option string;
  cor_error_code : option string
}.

Record AttemptRow := {
  at_target : TermCampusKey;
  at_run_id : TraceId;
  at_attempt_sequence : Z;
  at_rutgers_day : string;
  at_captured_catalog_content_version : Z;
  at_started_at : string;
  at_completed_at : option string;
  at_classification : OpenAttemptClassification;
  at_lane : OpenRequestLane;
  at_http : OpenHttpAuditMetadata;
  at_canonical_set_sha256 : option string;
  at_state_sha256 : option string;
  at_source_value_count : Z;
  at_catalog_section_count : Z;
  at_intersection_count : Z;
  at_orphan_count : Z;
  at_duplicate_count : Z;
  at_requested_interval_seconds : option Z;
  at_effective_interval_seconds : option Z;
  at_schedule_lag_ms : option Z;
  at_lkg_age_ms : option Z;
  at_error_code : option string;
  at_diagnostic_token : option string;
  at_candidate_catalog_observation_id : option TraceId;
  at_candidate_base_content_version : option Z;
  at_gate_catalog_set_identity : option string
}.

(** The columns [last_failure_attempt_sequence], [last_failure_at],
    [last_failure_error_code] and [last_failure_http_status], which a CHECK
    keeps together. *)
Record LastFailure := {
  lf_attempt_sequence : Z;
  lf_at : string;
  lf_error_code : string;
  lf_http_status : option Z
}.

Record BatchRow := {
  bs_last_attempt_sequence : Z;
  bs_last_observation_sequence : Z;
  bs_current_catalog_content_version : Z;
  bs_lkg_attempt_id : option TraceId;
  bs_lkg_observation_sequence : option Z;
  bs_lkg_observed_at : option string;
  bs_lkg_canonical_set_sha256 : option string;
  bs_lkg_state_sha256 : option string;
  bs_last_attempt_id : option TraceId;
  bs_last_attempt_at : option string;
  bs_last_success_at : option string;
  bs_last_failure : option LastFailure;
  bs_last_body_change_at : option string;
  bs_last_state_change_at : option string;
  bs_requested_interval_seconds : option Z;
  bs_effective_interval_seconds : option Z;
  bs_last_schedule_lag_ms : option Z
}.

(** The defaults of a new row of [open_batch_state]. *)
Definition new_batch_row : BatchRow := {|
  bs_last_attempt_sequence := 0;
  bs_last_observation_sequence := 0;
  bs_current_catalog_content_version := 0;
  bs_lkg_attempt_id := None;
  bs_lkg_observation_sequence := None;
  bs_lkg_observed_at := None;
  bs_lkg_canonical_set_sha256 := None;
  bs_lkg_state_sha256 := None;
  bs_last_attempt_id := None;
  bs_last_attempt_at := None;
  bs_last_success_at := None;
  bs_last_failure := None;
  bs_last_body_change_at := None;
  bs_last_state_change_at := None;
  bs_requested_interval_seconds := None;
  bs_effective_interval_seconds := None;
  bs_last_schedule_lag_ms := None
|}.

Record ObservationRow := {
  ob_observation_id : TraceId;
  ob_target : TermCampusKey;
  ob_observation_sequence : Z;
  ob_catalog_content_version : Z;
  ob_observed_at : string;
  ob_classification : OpenAttemptClassification;
  ob_http : OpenHttpAuditMetadata;
  ob_canonical_set_sha256 : string;
  ob_state_sha256 : string;
  ob_source_value_count : Z;
  ob_catalog_section_count : Z;
  ob_intersection_count : Z;
  ob_orphan_count : Z;
  ob_duplicate_count : Z;
  ob_changed_section_count : Z;
  ob_body_changed : bool;
  ob_state_changed : bool
}.

Record CurrentRow := {
  cu_state : OpenSectionState;
  cu_catalog_content_version : Z;
  cu_attempt_id : TraceId;
  cu_observation_sequence : Z;
  cu_observed_at : string
}.

Record EventRow := {
  er_event_id : Z;
  er_observation_id : TraceId;
  er_refresh_observation_id : TraceId;
  er_attempt_id : TraceId;
  er_target : TermCampusKey;
  er_section_index : SectionIndex;
  er_state : OpenSectionState;
  er_catalog_content_version : Z;
  er_observation_sequence : Z;
  er_observed_at : string
}.

(** ** Tables *)

(** [catalog_sections] and [catalog_staging_sections] map their keys to the
    content version and to nothing; [open_attempt_catalog_sections] is the set
    of an attempt, [open_section_current] the rows of a target;
    [open_section_events] lists its rows by identifier, with the last
    identifier AUTOINCREMENT has given. *)
Record OpenTables := mkOpenTables {
  db_catalog_targets : gmap TermCampusKey CatalogTargetRow;
  db_catalog_sections : gmap (TermCampusKey * SectionIndex) Z;
  db_catalog_observations : gmap TraceId CatalogObservationRow;
  db_staging_sections : gset (TraceId * SectionIndex);
  db_batch : gmap TermCampusKey BatchRow;
  db_attempts : gmap TraceId AttemptRow;
  db_membership : gmap TraceId (gset SectionIndex);
  db_observations : gmap TraceId ObservationRow;
  db_current : gmap TermCampusKey (gmap SectionIndex CurrentRow);
  db_events : list EventRow;
  db_last_event_id : Z;
  db_daily : gmap (TermCampusKey * string) OpenAttemptCounters;
  db_run : gmap (TraceId * TermCampusKey) OpenAttemptCounters
}.

Definition set_batch (m : gmap TermCampusKey BatchRow) (db : OpenTables) : OpenTables :=
  mkOpenTables (db_catalog_targets db) (db_catalog_sections db) (db_catalog_observations db)
    (db_staging_sections db) m (db_attempts db) (db_membership db) (db_observations db)
    (db_current db) (db_events db) (db_last_event_id db) (db_daily db) (db_run db).
Definition set_attempts (m : gmap TraceId AttemptRow) (db : OpenTables) : OpenTables :=
  mkOpenTables (db_catalog_targets db) (db_catalog_sections db) (db_catalog_observations db)
    (db_staging_sections db) (db_batch db) m (db_membership db) (db_observations db)
    (db_current db) (db_events db) (db_last_event_id db) (db_daily db) (db_run db).
Definition set_membership (m : gmap TraceId (gset SectionIndex)) (db : OpenTables) : OpenTables :=
  mkOpenTables (db_catalog_targets db) (db_catalog_sections db) (db_catalog_observations db)
    (db_staging_sections db) (db_batch db) (db_attempts db) m (db_observations db)
    (db_current db) (db_events db) (db_last_event_id db) (db_daily db) (db_run db).
Definition set_observations (m : gmap TraceId ObservationRow) (db : OpenTables) : OpenTables :=
  mkOpenTables (db_catalog_targets db) (db_catalog_sections db) (db_catalog_observations db)
    (db_staging_sections db) (db_batch db) (db_attempts db) (db_membership db) m
    (db_current db) (db_events db) (db_last_event_id db) (db_daily db) (db_run db).
Definition set_current (m : gmap TermCampusKey (gmap SectionIndex CurrentRow)) (db : OpenTables)
    : OpenTables :=
  mkOpenTables (db_catalog_targets db) (db_catalog_sections db) (db_catalog_observations db)
    (db_staging_sections db) (db_batch db) (db_attempts db) (db_membership db)
    (db_observations db) m (db_events db) (db_last_event_id db) (db_daily db) (db_run db).
Definition set_events (l : list EventRow) (last : Z) (db : OpenTables) : OpenTables :=
  mkOpenTables (db_catalog_targets db) (db_catalog_sections db) (db_catalog_observations db)
    (db_staging_sections db) (db_batch db) (db_attempts db) (db_membership db)
    (db_observations db) (db_current db) l last (db_daily db) (db_run db).
Definition set_daily (m : gmap (TermCampusKey * string) OpenAttemptCounters) (db : OpenTables)
    : OpenTables :=
  mkOpenTables (db_catalog_targets db) (db_catalog_sections db) (db_catalog_observations db)
    (db_staging_sections db) (db_batch db) (db_attempts db) (db_membership db)
    (db_observations db) (db_current db) (db_events db) (db_last_event_id db) m (db_run db).
Definition set_run (m : gmap (TraceId * TermCampusKey) OpenAttemptCounters) (db : OpenTables)
    : OpenTables :=
  mkOpenTables (db_catalog_targets db) (db_catalog_sections db) (db_catalog_observations db)
    (db_staging_sections db) (db_batch db) (db_attempts db) (db_membership db)
    (db_observations db) (db_current db) (db_events db) (db_last_event_id db) (db_daily db) m.
Definition set_candidates (m : gmap TraceId CatalogObservationRow)
    (s : gset (TraceId * SectionIndex)) (db : OpenTables) : OpenTables :=
  mkOpenTables (db_catalog_targets db) (db_catalog_sections db) m s (db_batch db)
    (db_attempts db) (db_membership db) (db_observations db) (db_current db) (db_events db)
    (db_last_event_id db) (db_daily db) (db_run db).

(** ** Transactions *)

(** A transaction: [None] is a panic. *)
Definition Tx (A : Type) : Type := OpenTables → option (result StorageError (A * OpenTables)).

#[export] Instance tx_ret : MRet Tx := λ A a db, Some (Ok (a, db)).
#[export] Instance tx_bind : MBind Tx := λ A B f m db,
  match m db with
  | None => None
  | Some (Err e) => Some (Err e)
  | Some (Ok (a, db)) => f a db
  end.

Definition tx_fail {A} (e : StorageError) : Tx A := λ _, Some (Err e).
Definition tx_panic {A} : Tx A := λ _, None.
Definition tx_lift {A} (r : result StorageError A) : Tx A := λ db,
  match r with Ok a => Some (Ok (a, db)) | Err e => Some (Err e) end.
Definition tx_get : Tx OpenTables := λ db, Some (Ok (db, db)).
Definition tx_modify (f : OpenTables → OpenTables) : Tx () := λ db, Some (Ok ((), f db)).
(** A statement that fails unless a condition holds. *)
Definition tx_require (b : bool) : Tx () :=
  if b then mret () else tx_fail StorageError_Sqlite.

(** [transaction_with_behavior(Immediate)] up to [commit]: an error leaves the
    tables as they were, and so does the unwinding of a panic. *)
Definition run_tx {A} (m : Tx A) (db : OpenTables) : option (result StorageError A * OpenTables) :=
  match m db with
  | None => None
  | Some (Err e) => Some (Err e, db)
  | Some (Ok (a, db')) => Some (Ok a, db')
  end.

(** Addition in an INTEGER column of a STRICT table. *)
Definition sql_add (a b : Z) : result StorageError Z :=
  if bool_decide (a + b ≤ i64_max) then Ok (a + b) else Err StorageError_Sqlite.

(** ** Queries and statements on one table *)

(** The serving sections of a target at a content version. *)
Definition catalog_sections_at (db : OpenTables) (target : TermCampusKey) (version : Z)
    : gset SectionIndex :=
  list_to_set ((λ p, p.1.2) <$>
    filter (λ p, p.1.1 = target ∧ p.2 = version) (map_to_list (db_catalog_sections db))).

Definition staged_sections (db : OpenTables) (observation_id : TraceId) : gset SectionIndex :=
  list_to_set ((λ p, p.2) <$>
    filter (λ p, p.1 = observation_id) (elements (db_staging_sections db))).

Definition current_rows (db : OpenTables) (target : TermCampusKey) : gmap SectionIndex CurrentRow :=
  default ∅ (db_current db !! target).

(** [load_attempt_catalog_indices]. *)
Definition load_attempt_catalog_indices (db : OpenTables) (attempt_id : TraceId)
    : gset SectionIndex :=
  default ∅ (db_membership db !! attempt_id).

(** The attempts of a target by descending sequence. *)
Definition attempts_desc (db : OpenTables) (target : TermCampusKey) : list (TraceId * AttemptRow) :=
  sort_by (λ a b, Z.compare (at_attempt_sequence b.2) (at_attempt_sequence a.2))
    (filter (λ p, at_target p.2 = target) (map_to_list (db_attempts db))).

(** An attempt of a target that is not finished. *)
Definition started_attempts (db : OpenTables) (target : TermCampusKey) : list (TraceId * AttemptRow) :=
  filter (λ p, at_target p.2 = target ∧ at_classification p.2 = OpenAttemptClassification_Started)
    (map_to_list (db_attempts db)).

(** INSERT INTO open_pull_attempts, with its primary key, the UNIQUE sequence
    of a target, the partial index [open_pull_attempts_one_started_per_target]
    and its foreign keys. *)
Definition insert_attempt (attempt_id : TraceId) (row : AttemptRow) : Tx () :=
  db ← tx_get;
  _ ← tx_require
    (bool_decide (db_attempts db !! attempt_id = None)
     && bool_decide (map_Forall (λ _ other,
          ¬ (at_target other = at_target row
             ∧ at_attempt_sequence other = at_attempt_sequence row)) (db_attempts db))
     && (negb (bool_decide (at_classification row = OpenAttemptClassification_Started))
         || bool_decide (started_attempts db (at_target row) = []))
     && bool_decide (is_Some (db_catalog_targets db !! at_target row))
     && match at_candidate_catalog_observation_id row with
        | Some id => bool_decide (is_Some (db_catalog_observations db !! id))
        | None => true
        end);
  tx_modify (λ db, set_attempts (<[attempt_id := row]> (db_attempts db)) db).

(** INSERT INTO open_batch_observations, with its primary key, its UNIQUE
    columns and its foreign keys. *)
Definition insert_observation (attempt_id : TraceId) (row : ObservationRow) : Tx () :=
  db ← tx_get;
  _ ← tx_require
    (bool_decide (db_observations db !! attempt_id = None)
     && bool_decide (is_Some (db_attempts db !! attempt_id))
     && bool_decide (is_Some (db_catalog_targets db !! ob_target row))
     && bool_decide (map_Forall (λ _ other,
          ob_observation_id other ≠ ob_observation_id row
          ∧ ¬ (ob_target other = ob_target row
               ∧ ob_observation_sequence other = ob_observation_sequence row))
          (db_observations db)));
  tx_modify (λ db, set_observations (<[attempt_id := row]> (db_observations db)) db).

(** INSERT INTO open_section_events ... RETURNING event_id. *)
Definition insert_event (row : Z → EventRow) : Tx Z :=
  db ← tx_get;
  event_id ← tx_lift (sql_add (db_last_event_id db) 1);
  let row := row event_id in
  _ ← tx_require
    (bool_decide (is_Some (db_observations db !! er_attempt_id row))
     && bool_decide (is_Some (db_catalog_targets db !! er_target row))
     && bool_decide (Forall (λ other,
          er_observation_id other ≠ er_observation_id row
          ∧ ¬ (er_attempt_id other = er_attempt_id row
               ∧ er_section_index other = er_section_index row)) (db_events db)));
  _ ← tx_modify (set_events (db_events db ++ [row]) event_id);
  mret event_id.

(** DELETE FROM open_pull_attempts WHERE attempt_id IN (...), with the cascades
    into the membership, the observations and, behind these, the current states
    and the events. *)
Definition delete_attempts (ids : gset TraceId) (db : OpenTables) : OpenTables :=
  mkOpenTables (db_catalog_targets db) (db_catalog_sections db) (db_catalog_observations db)
    (db_staging_sections db) (db_batch db)
    (filter (λ p, p.1 ∉ ids) (db_attempts db))
    (filter (λ p, p.1 ∉ ids) (db_membership db))
    (filter (λ p, p.1 ∉ ids) (db_observations db))
    (filter (λ p, cu_attempt_id p.2 ∉ ids) <$> db_current db)
    (filter (λ e, er_attempt_id e ∉ ids) (db_events db))
    (db_last_event_id db) (db_daily db) (db_run db).

(** ** Counters *)

Definition no_attempts : OpenAttemptCounters :=
  {| ac_attempted := 0; ac_succeeded := 0; ac_failed := 0; ac_empty := 0 |}.

Definition attempted_once : OpenAttemptCounters :=
  {| ac_attempted := 1; ac_succeeded := 0; ac_failed := 0; ac_empty := 0 |}.

(** The columns are added one by one. *)
Definition counters_add (a b : OpenAttemptCounters) : result StorageError OpenAttemptCounters :=
  attempted ← sql_add (ac_attempted a) (ac_attempted b);
  succeeded ← sql_add (ac_succeeded a) (ac_succeeded b);
  failed ← sql_add (ac_failed a) (ac_failed b);
  empty ← sql_add (ac_empty a) (ac_empty b);
  Ok {| ac_attempted := attempted; ac_succeeded := succeeded; ac_failed := failed;
        ac_empty := empty |}.

(** INSERT ... ON CONFLICT DO UPDATE SET attempted = attempted + 1. *)
Definition upsert_attempted (row : option OpenAttemptCounters)
    : result StorageError OpenAttemptCounters :=
  match row with
  | Some row => counters_add row attempted_once
  | None => Ok attempted_once
  end.
