(* ===== verification/OpenCommands.v ===== *)
(** * Commands and responses of the storage
    (crates/bcsp-operational-storage/src/open.rs)

    The validation of the commands on Open pulls, the canonical form of a
    response, its classification against the catalog, the digests of sets and
    states and the identifiers derived from an attempt. *)

From S2P Require Import Prelude Ordering Identity Contracts RustStr Reconcile OpenClient.
From S2P Require Import OpenStore OpenService OpenTables.

Definition OPEN_DIAGNOSTIC_RETENTION_PER_TARGET : Z := 256.
Definition OPEN_DIAGNOSTIC_PRUNE_ATTEMPTS_PER_COMMIT : Z := 8.

(** [time::Date::from_calendar_date] for a month that exists. *)
Class TimeDateApi := date_exists : Z → Z → Z → bool.

(** ** Integers *)

Definition u64_to_i64 (value : Z) : result StorageError Z :=
  if bool_decide (value ≤ i64_max) then Ok value else Err StorageError_StoredIntegerOutOfRange.

Definition optional_u64_to_i64 (value : option Z) : result StorageError (option Z) :=
  match value with Some value => value ← u64_to_i64 value; Ok (Some value) | None => Ok None end.

Definition positive_u64_to_i64 (field : string) (value : Z) : result StorageError Z :=
  if bool_decide (value = 0) then Err (StorageError_InvalidCommand field "must be positive")
  else u64_to_i64 value.

Definition validate_optional_positive (field : string) (value : option Z) : result StorageError () :=
  if bool_decide (value = Some 0)
  then Err (StorageError_InvalidCommand field "must be positive when present") else Ok ().

(** ** Validation of commands *)

Definition validate_safe_code (field value : string) : result StorageError () :=
  if bool_decide (value = "") || bool_decide (64 < String.length value)%nat
     || negb (forallb (λ c, is_ascii_uppercase c || is_ascii_digit c || byte_is 95 c) (bytes value))
  then Err (StorageError_InvalidCommand field
              "must be a non-empty upper snake-case code of at most 64 bytes")
  else Ok ().

Definition validate_optional_safe_token (field : string) (value : option string)
    : result StorageError () :=
  match value with
  | Some value =>
      if bool_decide (value = "") || bool_decide (64 < String.length value)%nat
         || negb (forallb (λ c, is_ascii_alphanumeric c || byte_is 46 c || byte_is 95 c
                                || byte_is 58 c || byte_is 45 c) (bytes value))
      then Err (StorageError_InvalidCommand field "must be a safe token of at most 64 bytes")
      else Ok ()
  | None => Ok ()
  end.

Definition validate_optional_http_header (field : string) (value : option string)
    : result StorageError () :=
  match value with
  | Some value =>
      if bool_decide (value = "") || bool_decide (4096 < String.length value)%nat
         || existsb (λ c, byte_is 13 c || byte_is 10 c) (bytes value)
      then Err (StorageError_InvalidCommand field
                  "must be non-empty CR/LF-free HTTP audit text of at most 4096 bytes")
      else Ok ()
  | None => Ok ()
  end.

Definition required_success {A} (field : string) (value : option A) : result StorageError A :=
  ok_or (StorageError_InvalidCommand field "is required for a successful Open response") value.

Definition required_success_http_status (metadata : OpenHttpAuditMetadata) : result StorageError Z :=
  required_success "http_status" (ha_http_status metadata).

Definition required_success_decoded_bytes (metadata : OpenHttpAuditMetadata)
    : result StorageError Z :=
  required_success "decoded_bytes" (ha_decoded_bytes metadata).

Definition required_success_header (field : string) (value : option string)
    : result StorageError string :=
  required_success field value.

(** A loop of checks that stops at the first error. *)
Definition all_ok {A} (f : A → result StorageError ()) : list A → result StorageError () :=
  foldr (λ a k, match f a with Ok () => k | Err e => Err e end) (Ok ()).

Definition validate_body_sha256 (metadata : OpenHttpAuditMetadata) : result StorageError () :=
  match ha_decoded_body_sha256 metadata with
  | Some value =>
      if bool_decide (String.length value ≠ 64%nat) || negb (forallb is_lower_hex (bytes value))
      then Err (StorageError_InvalidCommand "decoded_body_sha256"
                  "must be exactly 64 lowercase hexadecimal characters")
      else if bool_decide (ha_decoded_bytes metadata = None)
      then Err (StorageError_InvalidCommand "decoded_body_sha256" "requires decoded_bytes")
      else Ok ()
  | None => Ok ()
  end.

Definition validate_open_http_audit (metadata : OpenHttpAuditMetadata) (success_required : bool)
    : result StorageError () :=
  if match ha_http_status metadata with
     | Some status => bool_decide (¬ (100 ≤ status ≤ 599))
     | None => false
     end
  then Err (StorageError_InvalidCommand "http_status" "must be a valid HTTP status")
  else
  _ ← all_ok (λ '(field, value),
        if match value with Some value => bool_decide (i64_max < value) | None => false end
        then Err (StorageError_InvalidCommand field "must fit the durable signed 64-bit range")
        else Ok ())
      [("decoded_bytes", ha_decoded_bytes metadata);
       ("age_seconds", ha_age_seconds metadata);
       ("retry_after_seconds", ha_retry_after_seconds metadata)];
  _ ← validate_body_sha256 metadata;
  _ ← all_ok (λ '(field, value), validate_optional_http_header field value)
      [("content_type", ha_content_type metadata);
       ("etag", ha_etag metadata);
       ("cache_control", ha_cache_control metadata);
       ("date", ha_date metadata);
       ("last_modified", ha_last_modified metadata);
       ("retry_after", ha_retry_after metadata)];
  if success_required then
    status ← required_success_http_status metadata;
    if bool_decide (¬ (200 ≤ status ≤ 299))
    then Err (StorageError_InvalidCommand "http_status"
                "a successful Open response must use a 2xx status")
    else
      _ ← required_success_decoded_bytes metadata;
      _ ← required_success_header "decoded_body_sha256" (ha_decoded_body_sha256 metadata);
      _ ← required_success_header "content_type" (ha_content_type metadata);
      Ok ()
  else Ok ().

Definition invalid_rutgers_day : StorageError :=
  StorageError_InvalidCommand "rutgers_day" "must be a valid YYYY-MM-DD America/New_York day".

Definition validate_rutgers_day `{TimeDateApi} (value : string) : result StorageError () :=
  if bool_decide (String.length value ≠ 10%nat)
     || negb (byte_is 45 (byte_at value 4))
     || negb (byte_is 45 (byte_at value 7))
     || negb (forallb is_ascii_digit
                (bytes (slice value 0 4 +:+ slice value 5 7 +:+ slice value 8 10)))
  then Err invalid_rutgers_day
  else
    let year := decimal_value (slice value 0 4) in
    let month := decimal_value (slice value 5 7) in
    let day := decimal_value (slice value 8 10) in
    if bool_decide (1 ≤ month ≤ 12) && date_exists year month day then Ok ()
    else Err invalid_rutgers_day.

Section timestamps.
Context `{Rfc3339Api}.

Definition validate_timestamp (field value : string) : result StorageError OffsetDateTime :=
  ok_or (StorageError_InvalidCommand field "must be an RFC 3339 timestamp") (parse_rfc3339 value).

Definition validate_timestamp_order (started_at completed_at : string) : result StorageError () :=
  started ← validate_timestamp "started_at" started_at;
  completed ← validate_timestamp "completed_at" completed_at;
  if bool_decide (completed < started)
  then Err (StorageError_InvalidCommand "completed_at" "must not precede started_at")
  else Ok ().

Definition elapsed_milliseconds (earlier later : string) : result StorageError Z :=
  earlier ← validate_timestamp "lkg_observed_at" earlier;
  later ← validate_timestamp "started_at" later;
  let elapsed := Z.max (Z.quot (later - earlier) NANOS_PER_MILLI) 0 in
  ok_or StorageError_StoredIntegerOutOfRange (u64_try_from elapsed).

End timestamps.

(** ** Classification and digests *)

Record CanonicalOpenResponse := {
  cr_canonical_indices : gset SectionIndex;
  cr_source_value_count : Z;
  cr_duplicate_count : Z;
  cr_canonical_set_sha256 : string
}.

(** The size of a set as a [u64]. *)
Definition set_count (s : gset SectionIndex) : Z := Z.of_nat (size s).

Section digests.
Context `{Sha256Api}.

Definition open_set_sha256_v1 (indices : gset SectionIndex) : string :=
  sha256_hex (foldl (λ hashed index, hashed +:+ index_str index +:+ nl)
                ("bcsp-open-set-v1" +:+ nl) (bts_iter indices)).

Definition open_state_sha256_v1 (target : TermCampusKey) (states : gmap SectionIndex OpenSectionState)
    : string :=
  sha256_hex
    (foldl (λ hashed '(index, state),
              hashed +:+ index_str index +:+ tab +:+ OpenSectionState_as_str state +:+ nl)
       ("bcsp-open-state-v1" +:+ nl +:+ term_str (tck_term target) +:+ nl
        +:+ campus_str (tck_campus target) +:+ nl) (btm_iter states)).

Definition canonicalize_open_response (target : TermCampusKey) (open_sections : list SectionKey)
    (source_value_count : Z) : result StorageError CanonicalOpenResponse :=
  if negb (forallb (λ section, bool_decide (sk_target section = target)) open_sections)
  then Err (StorageError_InvalidCommand "open_sections"
              "all sections must belong to the attempt target")
  else
    let canonical_indices : gset SectionIndex := list_to_set (sk_index <$> open_sections) in
    match u64_checked_sub source_value_count (set_count canonical_indices) with
    | None => Err (StorageError_InvalidCommand "source_value_count"
                     "must be at least the canonical unique Open identity count")
    | Some duplicate_count =>
        Ok {| cr_canonical_indices := canonical_indices;
              cr_source_value_count := source_value_count;
              cr_duplicate_count := duplicate_count;
              cr_canonical_set_sha256 := open_set_sha256_v1 canonical_indices |}
    end.

(** The UUID of a trace identifier: version 4 in the variant of RFC 4122. *)
Definition TraceId_try_from_uuid (value : N) : option TraceId :=
  if bool_decide (N.land (N.shiftr value 62) 3 = 2%N)
     && bool_decide (N.land (N.shiftr value 76) 15 = 4%N)
  then Some value else None.

(** The number a UUID's sixteen bytes are, most significant first. *)
Definition uuid_from_bytes (l : list N) : N := foldl (λ n byte, 256 * n + byte)%N 0%N l.

(** [text] is the hyphenated form of [attempt_id]. The text formatted from the
    bytes is parsed back to the number they are. *)
Definition derived_observation_id (domain text : string) (discriminator : option string)
    : result StorageError TraceId :=
  let digest := sha256_digest
    (domain +:+ nl +:+ text +:+ nl
     +:+ match discriminator with Some d => d +:+ nl | None => "" end) in
  let bytes := take 16 digest in
  let bytes := alter (λ byte, N.lor (N.land byte 15) 64) 6%nat bytes in
  let bytes := alter (λ byte, N.lor (N.land byte 63) 128) 8%nat bytes in
  ok_or (invalid_stored "open_section_events" "observation_id")
    (TraceId_try_from_uuid (uuid_from_bytes bytes)).

(** The characters of the hyphenated form at 0-based byte [i]. *)
Definition uuid_byte (value : N) (i : N) : N := N.land (N.shiftr value (8 * (15 - i))) 255.

(** [TraceId::to_string]: the hyphenated lowercase form. *)
Definition TraceId_to_string (value : TraceId) : string :=
  let hex l := foldr (λ i s, format_02x (uuid_byte value i) +:+ s) "" l in
  hex [0; 1; 2; 3]%N +:+ "-" +:+ hex [4; 5]%N +:+ "-" +:+ hex [6; 7]%N +:+ "-"
  +:+ hex [8; 9]%N +:+ "-" +:+ hex [10; 11; 12; 13; 14; 15]%N.

Definition derive_open_refresh_observation_id (attempt_id : TraceId) : result StorageError TraceId :=
  derived_observation_id "bcsp-open-refresh-observation-v1" (TraceId_to_string attempt_id) None.

Definition derive_open_section_observation_id (attempt_id : TraceId) (section : SectionKey)
    : result StorageError TraceId :=
  derived_observation_id "bcsp-open-section-observation-v1" (TraceId_to_string attempt_id)
    (Some (index_str (sk_index section))).

End digests.

Definition classify_open_response (canonical_indices catalog_indices : gset SectionIndex)
    (intersection_count : Z) (gate_hold : bool) : OpenAttemptClassification :=
  if bool_decide (canonical_indices = ∅) then
    if bool_decide (catalog_indices = ∅) then OpenAttemptClassification_ValidEmptyNoRows
    else if gate_hold then OpenAttemptClassification_SuspectPartialSnapshot
    else OpenAttemptClassification_ValidApplied
  else if bool_decide (catalog_indices ≠ ∅) && bool_decide (intersection_count = 0)
  then OpenAttemptClassification_UnsafeZeroIntersection
  else if gate_hold then OpenAttemptClassification_SuspectPartialSnapshot
  else OpenAttemptClassification_ValidApplied.

Fixpoint canonicalize_watched_sections (target : TermCampusKey) (watched_sections : list SectionKey)
    (catalog_indices : gset SectionIndex) : result StorageError (gset SectionIndex) :=
  match watched_sections with
  | [] => Ok ∅
  | section :: watched_sections =>
      if bool_decide (sk_target section ≠ target)
      then Err (StorageError_InvalidCommand "watched_sections"
                  "all watched sections must belong to the attempt target")
      else if bool_decide (sk_index section ∉ catalog_indices)
      then Err (StorageError_InvalidCommand "watched_sections"
                  "all watched sections must exist in the captured Catalog version")
      else
        rest ← canonicalize_watched_sections target watched_sections catalog_indices;
        Ok ({[sk_index section]} ∪ rest)
  end.

Definition changed_state_count (previous intended : gmap SectionIndex OpenSectionState) : Z :=
  let changed_existing :=
    zlen (filter (λ p, previous !! p.1 ≠ Some p.2) (btm_iter intended)) in
  let removed := zlen (filter (λ index, intended !! index = None) (btm_keys previous)) in
  changed_existing + removed.

(** The state intended for every section of the catalog. *)
Definition intended_states (catalog_indices canonical_indices : gset SectionIndex)
    : gmap SectionIndex OpenSectionState :=
  set_to_map (λ index,
    (index, if bool_decide (index ∈ canonical_indices)
            then OpenSectionState_Open else OpenSectionState_Closed)) catalog_indices.
