(* ===== verification/OpenTransactions.v ===== *)
(** * The operations on Open pulls of the storage
    (crates/bcsp-operational-storage/src/open.rs)

    Beginning a pull, committing a response or a failure, the recovery after a
    restart, the pruning of diagnostics and the reads, over the tables of
    [OpenTables]. The commit of a candidate pull, which publishes its catalog
    (storage.rs), is not modelled. *)

From S2P Require Import Prelude Ordering Identity Contracts RustStr Reconcile OpenClient.
From S2P Require Import OpenStore OpenService OpenTables OpenCommands.

(** ** Data *)

Record CatalogCandidateOpenSnapshot := {
  cc_observation_id : TraceId;
  cc_base_content_version : Z;
  cc_catalog : OpenCatalogSnapshot
}.

Record StartedOpenAttempt := {
  sa_target : TermCampusKey;
  sa_run_id : TraceId;
  sa_attempt_sequence : Z;
  sa_rutgers_day : string;
  sa_captured_catalog_content_version : Z;
  sa_started_at : string;
  sa_effective_interval_seconds : option Z;
  sa_candidate_catalog_observation_id : option TraceId;
  sa_candidate_base_content_version : option Z
}.

Record OpenRetentionReport := {
  rr_attempts_removed : Z;
  rr_batch_observations_removed : Z;
  rr_section_events_removed : Z
}.

Definition open_target_id (target : TermCampusKey) : string :=
  term_str (tck_term target) +:+ "/" +:+ campus_str (tck_campus target).

(** ** Counters *)

Definition increment_attempted_counters (target : TermCampusKey) (run_id : TraceId)
    (rutgers_day : string) : Tx () :=
  db ← tx_get;
  daily ← tx_lift (upsert_attempted (db_daily db !! (target, rutgers_day)));
  _ ← tx_modify (set_daily (<[(target, rutgers_day) := daily]> (db_daily db)));
  run ← tx_lift (upsert_attempted (db_run db !! (run_id, target)));
  tx_modify (set_run (<[(run_id, target) := run]> (db_run db))).

(** UPDATE ... WHERE key: the row, if there is one, and whether there was. *)
Definition counters_update (row : option OpenAttemptCounters) (by_ : OpenAttemptCounters)
    : result StorageError (option OpenAttemptCounters) :=
  match row with
  | Some row => row ← counters_add row by_; Ok (Some row)
  | None => Ok None
  end.

Definition increment_final_counters (target : TermCampusKey) (run_id : TraceId)
    (rutgers_day : string) (succeeded empty : bool) : Tx () :=
  let by_ := {| ac_attempted := 0;
                ac_succeeded := if succeeded then 1 else 0;
                ac_failed := if succeeded then 0 else 1;
                ac_empty := if empty then 1 else 0 |} in
  db ← tx_get;
  daily ← tx_lift (counters_update (db_daily db !! (target, rutgers_day)) by_);
  run ← tx_lift (counters_update (db_run db !! (run_id, target)) by_);
  match daily, run with
  | Some daily, Some run =>
      tx_modify (λ db,
        set_run (<[(run_id, target) := run]> (db_run db))
          (set_daily (<[(target, rutgers_day) := daily]> (db_daily db)) db))
  | _, _ => tx_fail (invalid_stored "open_pull_attempts" "counters")
  end.

Definition load_open_run_counters (db : OpenTables) (target : TermCampusKey) (run_id : TraceId)
    : OpenAttemptCounters :=
  default no_attempts (db_run db !! (run_id, target)).

Definition load_open_day_counters (db : OpenTables) (target : TermCampusKey) (rutgers_day : string)
    : OpenAttemptCounters :=
  default no_attempts (db_daily db !! (target, rutgers_day)).

(** The sums of the four columns over the targets of the service. *)
Definition load_open_service_day_counters (db : OpenTables) (rutgers_day : string)
    : result StorageError OpenAttemptCounters :=
  foldr (λ row total, total ← total; counters_add row total) (Ok no_attempts)
    (snd <$> filter (λ p, p.1.2 = rutgers_day) (map_to_list (db_daily db))).

Definition load_committed_open_counters (target : TermCampusKey) (run_id : TraceId)
    (rutgers_day : string)
    : Tx (OpenAttemptCounters * OpenAttemptCounters * OpenAttemptCounters) :=
  db ← tx_get;
  service_day_counts ← tx_lift (load_open_service_day_counters db rutgers_day);
  mret (load_open_run_counters db target run_id, load_open_day_counters db target rutgers_day,
        service_day_counts).

(** ** Pruning *)

(** The attempts to prune: the oldest of those outside the most recent ones
    that are finished and not the last known good one. *)
Definition candidate_attempts (db : OpenTables) (target : TermCampusKey)
    (retain_recent prune_limit : nat) : list TraceId :=
  let rows := attempts_desc db target in
  let recent := take retain_recent rows.*1 in
  let lkg := db_batch db !! target ≫= bs_lkg_attempt_id in
  take prune_limit (reverse (filter (λ p,
    at_classification p.2 ≠ OpenAttemptClassification_Started
    ∧ Some p.1 ≠ lkg ∧ p.1 ∉ recent) rows)).*1.

Definition prune_open_diagnostics_transaction (target : TermCampusKey)
    (retain_recent prune_limit : Z) : Tx OpenRetentionReport :=
  retain_recent ← tx_lift (positive_u64_to_i64 "retain_recent" retain_recent);
  prune_limit ← tx_lift (positive_u64_to_i64 "prune_limit" prune_limit);
  db ← tx_get;
  let ids : gset TraceId := list_to_set
    (candidate_attempts db target (Z.to_nat retain_recent) (Z.to_nat prune_limit)) in
  _ ← tx_modify (delete_attempts ids);
  mret {| rr_attempts_removed := Z.of_nat (size ids);
          rr_batch_observations_removed :=
            Z.of_nat (size (filter (λ p, p.1 ∈ ids) (db_observations db)));
          rr_section_events_removed := zlen (filter (λ e, er_attempt_id e ∈ ids) (db_events db)) |}.

Definition prune_open_diagnostics (target : TermCampusKey) (retain_recent : Z)
    : Tx OpenRetentionReport :=
  if bool_decide (retain_recent < OPEN_DIAGNOSTIC_RETENTION_PER_TARGET)
  then tx_fail (StorageError_InvalidCommand "retain_recent"
                  "must retain at least 256 attempts per target")
  else prune_open_diagnostics_transaction target retain_recent
         OPEN_DIAGNOSTIC_PRUNE_ATTEMPTS_PER_COMMIT.

(** ** Attempts *)

Definition load_started_open_attempt (attempt_id : TraceId) : Tx StartedOpenAttempt :=
  db ← tx_get;
  match db_attempts db !! attempt_id with
  | Some row =>
      if bool_decide (db_catalog_targets db !! at_target row = None)
      then tx_fail (StorageError_OpenAttemptNotFound attempt_id)
      else if bool_decide (at_classification row ≠ OpenAttemptClassification_Started)
      then tx_fail (StorageError_OpenAttemptNotStarted attempt_id)
      else mret {| sa_target := at_target row;
                   sa_run_id := at_run_id row;
                   sa_attempt_sequence := at_attempt_sequence row;
                   sa_rutgers_day := at_rutgers_day row;
                   sa_captured_catalog_content_version := at_captured_catalog_content_version row;
                   sa_started_at := at_started_at row;
                   sa_effective_interval_seconds := at_effective_interval_seconds row;
                   sa_candidate_catalog_observation_id := at_candidate_catalog_observation_id row;
                   sa_candidate_base_content_version := at_candidate_base_content_version row |}
  | None => tx_fail (StorageError_OpenAttemptNotFound attempt_id)
  end.

(** A row that must exist. *)
Definition load_batch (target : TermCampusKey) (missing : StorageError) : Tx BatchRow :=
  db ← tx_get; tx_lift (ok_or missing (db_batch db !! target)).

Definition ensure_started_open_attempt_is_current (attempt : StartedOpenAttempt)
    (attempt_id : TraceId) : Tx () :=
  row ← load_batch (sa_target attempt) StorageError_Sqlite;
  if bool_decide (bs_last_attempt_sequence row ≠ sa_attempt_sequence attempt)
     || bool_decide (bs_last_attempt_id row ≠ Some attempt_id)
  then tx_fail (StorageError_OpenAttemptSuperseded attempt_id)
  else mret ().

(** The columns both UPDATE statements that finish an attempt write. *)
Definition finished_attempt (row : AttemptRow) (completed_at : string)
    (classification : OpenAttemptClassification) (http : OpenHttpAuditMetadata)
    (canonical_set_sha256 state_sha256 : option string)
    (source_value_count catalog_section_count intersection_count orphan_count duplicate_count : Z)
    (error_code gate_catalog_set_identity : option string) : AttemptRow :=
  {| at_target := at_target row;
     at_run_id := at_run_id row;
     at_attempt_sequence := at_attempt_sequence row;
     at_rutgers_day := at_rutgers_day row;
     at_captured_catalog_content_version := at_captured_catalog_content_version row;
     at_started_at := at_started_at row;
     at_completed_at := Some completed_at;
     at_classification := classification;
     at_lane := at_lane row;
     at_http := http;
     at_canonical_set_sha256 := canonical_set_sha256;
     at_state_sha256 := state_sha256;
     at_source_value_count := source_value_count;
     at_catalog_section_count := catalog_section_count;
     at_intersection_count := intersection_count;
     at_orphan_count := orphan_count;
     at_duplicate_count := duplicate_count;
     at_requested_interval_seconds := at_requested_interval_seconds row;
     at_effective_interval_seconds := at_effective_interval_seconds row;
     at_schedule_lag_ms := at_schedule_lag_ms row;
     at_lkg_age_ms := at_lkg_age_ms row;
     at_error_code := error_code;
     at_diagnostic_token := None;
     at_candidate_catalog_observation_id := at_candidate_catalog_observation_id row;
     at_candidate_base_content_version := at_candidate_base_content_version row;
     at_gate_catalog_set_identity := gate_catalog_set_identity |}.

(** UPDATE open_pull_attempts ... WHERE attempt_id = ?1 AND classification =
    'STARTED', which must change one row. *)
Definition update_started (attempt_id : TraceId) (f : AttemptRow → AttemptRow) : Tx () :=
  db ← tx_get;
  match db_attempts db !! attempt_id with
  | Some row =>
      if bool_decide (at_classification row = OpenAttemptClassification_Started)
      then tx_modify (set_attempts (<[attempt_id := f row]> (db_attempts db)))
      else tx_fail (StorageError_OpenAttemptNotStarted attempt_id)
  | None => tx_fail (StorageError_OpenAttemptNotStarted attempt_id)
  end.

(** UPDATE open_batch_state ... WHERE target_id = ?1 AND last_attempt_sequence =
    ?2 AND last_attempt_id = ?6, which must change one row. *)
Definition update_current_batch (attempt : StartedOpenAttempt) (attempt_id : TraceId)
    (f : BatchRow → BatchRow) : Tx () :=
  db ← tx_get;
  match db_batch db !! sa_target attempt with
  | Some row =>
      if bool_decide (bs_last_attempt_sequence row = sa_attempt_sequence attempt)
         && bool_decide (bs_last_attempt_id row = Some attempt_id)
      then tx_modify (set_batch (<[sa_target attempt := f row]> (db_batch db)))
      else tx_fail (StorageError_OpenAttemptSuperseded attempt_id)
  | None => tx_fail (StorageError_OpenAttemptSuperseded attempt_id)
  end.

Definition with_last_failure (failure : LastFailure) (row : BatchRow) : BatchRow :=
  {| bs_last_attempt_sequence := bs_last_attempt_sequence row;
     bs_last_observation_sequence := bs_last_observation_sequence row;
     bs_current_catalog_content_version := bs_current_catalog_content_version row;
     bs_lkg_attempt_id := bs_lkg_attempt_id row;
     bs_lkg_observation_sequence := bs_lkg_observation_sequence row;
     bs_lkg_observed_at := bs_lkg_observed_at row;
     bs_lkg_canonical_set_sha256 := bs_lkg_canonical_set_sha256 row;
     bs_lkg_state_sha256 := bs_lkg_state_sha256 row;
     bs_last_attempt_id := bs_last_attempt_id row;
     bs_last_attempt_at := bs_last_attempt_at row;
     bs_last_success_at := bs_last_success_at row;
     bs_last_failure := Some failure;
     bs_last_body_change_at := bs_last_body_change_at row;
     bs_last_state_change_at := bs_last_state_change_at row;
     bs_requested_interval_seconds := bs_requested_interval_seconds row;
     bs_effective_interval_seconds := bs_effective_interval_seconds row;
     bs_last_schedule_lag_ms := bs_last_schedule_lag_ms row |}.

Definition finalize_non_applied_attempt (attempt : StartedOpenAttempt) (attempt_id : TraceId)
    (completed_at : string) (classification : OpenAttemptClassification)
    (http : OpenHttpAuditMetadata) (response : option CanonicalOpenResponse)
    (catalog_section_count intersection_count orphan_count : Z) (error_code : string)
    (state_sha256 gate_catalog_set_identity : option string) : Tx () :=
  _ ← tx_lift (validate_safe_code "error_code" error_code);
  _ ← tx_lift (validate_open_http_audit http false);
  let source_value_count := from_option cr_source_value_count 0 response in
  let duplicate_count := from_option cr_duplicate_count 0 response in
  _ ← tx_lift (optional_u64_to_i64 (ha_decoded_bytes http));
  _ ← tx_lift (optional_u64_to_i64 (ha_age_seconds http));
  _ ← tx_lift (optional_u64_to_i64 (ha_retry_after_seconds http));
  _ ← tx_lift (mapM u64_to_i64 [source_value_count; catalog_section_count; intersection_count;
                                 orphan_count; duplicate_count]);
  _ ← update_started attempt_id (λ row,
        finished_attempt row completed_at classification http
          (cr_canonical_set_sha256 <$> response) state_sha256 source_value_count
          catalog_section_count intersection_count orphan_count duplicate_count
          (Some error_code) gate_catalog_set_identity);
  _ ← tx_lift (u64_to_i64 (sa_attempt_sequence attempt));
  _ ← update_current_batch attempt attempt_id (with_last_failure
        {| lf_attempt_sequence := sa_attempt_sequence attempt;
           lf_at := completed_at;
           lf_error_code := error_code;
           lf_http_status := ha_http_status http |});
  increment_final_counters (sa_target attempt) (sa_run_id attempt) (sa_rutgers_day attempt) false
    (from_option (λ value, bool_decide (cr_canonical_indices value = ∅)) false response).

(** ** Beginning a pull *)

Definition started_attempt (command : BeginOpenPullAttemptCommand) (attempt_sequence : Z)
    (lkg_age_ms : option Z) (candidate : option (TraceId * Z)) : AttemptRow :=
  {| at_target := bo_target command;
     at_run_id := bo_run_id command;
     at_attempt_sequence := attempt_sequence;
     at_rutgers_day := bo_rutgers_day command;
     at_captured_catalog_content_version := bo_captured_catalog_content_version command;
     at_started_at := bo_started_at command;
     at_completed_at := None;
     at_classification := OpenAttemptClassification_Started;
     at_lane := bo_lane command;
     at_http := {| ha_http_status := None; ha_cache_status := None; ha_decoded_bytes := None;
                   ha_decoded_body_sha256 := None; ha_content_type := None; ha_etag := None;
                   ha_cache_control := None; ha_date := None; ha_age_seconds := None;
                   ha_last_modified := None; ha_retry_after := None;
                   ha_retry_after_seconds := None |};
     at_canonical_set_sha256 := None;
     at_state_sha256 := None;
     at_source_value_count := 0;
     at_catalog_section_count := 0;
     at_intersection_count := 0;
     at_orphan_count := 0;
     at_duplicate_count := 0;
     at_requested_interval_seconds := bo_requested_interval_seconds command;
     at_effective_interval_seconds := bo_effective_interval_seconds command;
     at_schedule_lag_ms := bo_schedule_lag_ms command;
     at_lkg_age_ms := lkg_age_ms;
     at_error_code := None;
     at_diagnostic_token := None;
     at_candidate_catalog_observation_id := fst <$> candidate;
     at_candidate_base_content_version := snd <$> candidate;
     at_gate_catalog_set_identity := None |}.

(** The columns SET by the UPDATE of a new attempt. *)
Definition with_last_attempt (command : BeginOpenPullAttemptCommand) (attempt_sequence : Z)
    (row : BatchRow) : BatchRow :=
  {| bs_last_attempt_sequence := attempt_sequence;
     bs_last_observation_sequence := bs_last_observation_sequence row;
     bs_current_catalog_content_version := bs_current_catalog_content_version row;
     bs_lkg_attempt_id := bs_lkg_attempt_id row;
     bs_lkg_observation_sequence := bs_lkg_observation_sequence row;
     bs_lkg_observed_at := bs_lkg_observed_at row;
     bs_lkg_canonical_set_sha256 := bs_lkg_canonical_set_sha256 row;
     bs_lkg_state_sha256 := bs_lkg_state_sha256 row;
     bs_last_attempt_id := Some (bo_attempt_id command);
     bs_last_attempt_at := Some (bo_started_at command);
     bs_last_success_at := bs_last_success_at row;
     bs_last_failure := bs_last_failure row;
     bs_last_body_change_at := bs_last_body_change_at row;
     bs_last_state_change_at := bs_last_state_change_at row;
     bs_requested_interval_seconds := bo_requested_interval_seconds command;
     bs_effective_interval_seconds := bo_effective_interval_seconds command;
     bs_last_schedule_lag_ms := bo_schedule_lag_ms command |}.

(** The stored command is the one given, apart from the base version. *)
Definition same_command (row : AttemptRow) (command : BeginOpenPullAttemptCommand)
    (candidate : option CatalogCandidateOpenSnapshot) : bool :=
  bool_decide (at_target row = bo_target command)
  && bool_decide (at_run_id row = bo_run_id command)
  && bool_decide (at_rutgers_day row = bo_rutgers_day command)
  && bool_decide (at_captured_catalog_content_version row
                  = bo_captured_catalog_content_version command)
  && bool_decide (at_started_at row = bo_started_at command)
  && bool_decide (OpenRequestLane_as_str (at_lane row) = OpenRequestLane_as_str (bo_lane command))
  && bool_decide (at_requested_interval_seconds row = bo_requested_interval_seconds command)
  && bool_decide (at_effective_interval_seconds row = bo_effective_interval_seconds command)
  && bool_decide (at_schedule_lag_ms row = bo_schedule_lag_ms command)
  && bool_decide (at_candidate_catalog_observation_id row = cc_observation_id <$> candidate).

Section operations.
Context `{Rfc3339Api, TimeDateApi, Sha256Api}.

Definition validate_begin (command : BeginOpenPullAttemptCommand) : result StorageError () :=
  _ ← validate_timestamp "started_at" (bo_started_at command);
  _ ← validate_rutgers_day (bo_rutgers_day command);
  _ ← validate_optional_positive "requested_interval_seconds"
        (bo_requested_interval_seconds command);
  _ ← validate_optional_positive "effective_interval_seconds"
        (bo_effective_interval_seconds command);
  _ ← positive_u64_to_i64 "captured_catalog_content_version"
        (bo_captured_catalog_content_version command);
  _ ← optional_u64_to_i64 (bo_requested_interval_seconds command);
  _ ← optional_u64_to_i64 (bo_effective_interval_seconds command);
  _ ← optional_u64_to_i64 (bo_schedule_lag_ms command);
  Ok ().

(** The content version a new attempt is begun against. *)
Definition begin_version (target : TermCampusKey)
    (candidate : option CatalogCandidateOpenSnapshot) : Tx Z :=
  db ← tx_get;
  let serving_version :=
    from_option ct_current_content_version 0 (db_catalog_targets db !! target) in
  match candidate with
  | Some candidate =>
      match db_catalog_observations db !! cc_observation_id candidate with
      | Some row =>
          if bool_decide (cor_status row ≠ "STAGED")
          then tx_fail (StorageError_ObservationNotStaged (cc_observation_id candidate))
          else if bool_decide (cor_target row ≠ target)
                  || bool_decide (serving_version ≠ cc_base_content_version candidate)
          then tx_fail (StorageError_CatalogContentVersionMismatch
                          (cc_base_content_version candidate) serving_version)
          else mret (cs_content_version (cc_catalog candidate))
      | None => tx_fail (StorageError_ObservationNotStaged (cc_observation_id candidate))
      end
  | None =>
      if bool_decide (0 < serving_version) then mret serving_version
      else tx_fail StorageError_CatalogTargetNotPublished
  end.

(** A repeated command: the sequence it was given, if it is the same. *)
Definition begin_existing (row : AttemptRow) (command : BeginOpenPullAttemptCommand)
    (candidate : option CatalogCandidateOpenSnapshot) : result StorageError Z :=
  let different := Err (StorageError_InvalidCommand "attempt_id"
                          "already identifies a different Open attempt") in
  if negb (same_command row command candidate) then different
  else
    base ← optional_u64_to_i64 (cc_base_content_version <$> candidate);
    if bool_decide (at_candidate_base_content_version row = base)
    then Ok (at_attempt_sequence row) else different.

(** The rows of a new attempt. *)
Definition begin_new (command : BeginOpenPullAttemptCommand)
    (candidate : option CatalogCandidateOpenSnapshot) : Tx Z :=
  let target := bo_target command in
  let attempt_id := bo_attempt_id command in
  _ ← tx_modify (λ db, match db_batch db !! target with
                       | Some _ => db
                       | None => set_batch (<[target := new_batch_row]> (db_batch db)) db
                       end);
  row ← load_batch target StorageError_Sqlite;
  lkg_age_ms ← tx_lift
    match bs_lkg_observed_at row with
    | Some observed_at =>
        elapsed ← elapsed_milliseconds observed_at (bo_started_at command);
        elapsed ← u64_to_i64 elapsed;
        Ok (Some elapsed)
    | None => Ok None
    end;
  attempt_sequence ← tx_lift (sql_add (bs_last_attempt_sequence row) 1);
  _ ← tx_modify (λ db,
        set_batch (<[target := with_last_attempt command attempt_sequence row]> (db_batch db)) db);
  base ← tx_lift (optional_u64_to_i64 (cc_base_content_version <$> candidate));
  _ ← insert_attempt attempt_id
        (started_attempt command attempt_sequence lkg_age_ms
           (candidate ← candidate; base ← base; Some (cc_observation_id candidate, base)));
  _ ← tx_modify (λ db,
        let sections :=
          match candidate with
          | Some candidate => staged_sections db (cc_observation_id candidate)
          | None => catalog_sections_at db target (bo_captured_catalog_content_version command)
          end in
        set_membership (<[attempt_id := sections]> (db_membership db)) db);
  _ ← increment_attempted_counters target (bo_run_id command) (bo_rutgers_day command);
  mret attempt_sequence.

Definition begin_open_pull_attempt_with_catalog (command : BeginOpenPullAttemptCommand)
    (candidate : option CatalogCandidateOpenSnapshot) : Tx Z :=
  let target := bo_target command in
  let attempt_id := bo_attempt_id command in
  _ ← tx_lift (validate_begin command);
  current_version ← begin_version target candidate;
  db ← tx_get;
  match db_attempts db !! attempt_id with
  | Some existing => tx_lift (begin_existing existing command candidate)
  | None =>
      match head (started_attempts db target) with
      | Some (active_attempt_id, _) => tx_fail (StorageError_OpenTargetInFlight active_attempt_id)
      | None =>
          if bool_decide (current_version ≠ bo_captured_catalog_content_version command)
          then tx_fail (StorageError_CatalogContentVersionMismatch
                          (bo_captured_catalog_content_version command) current_version)
          else begin_new command candidate
      end
  end.

Definition begin_open_pull_attempt (command : BeginOpenPullAttemptCommand) : Tx Z :=
  begin_open_pull_attempt_with_catalog command None.

Definition begin_candidate_open_pull_attempt (candidate : CatalogCandidateOpenSnapshot)
    (command : BeginOpenPullAttemptCommand) : Tx Z :=
  if bool_decide (bo_target command ≠ cs_target (cc_catalog candidate))
     || bool_decide (bo_captured_catalog_content_version command
                     ≠ cs_content_version (cc_catalog candidate))
  then tx_fail (StorageError_InvalidCommand "candidate_catalog"
                  "must match the Open attempt target and captured version")
  else begin_open_pull_attempt_with_catalog command (Some candidate).

(** ** Committing a response *)

Definition load_current_catalog_version (target : TermCampusKey) : Tx Z :=
  db ← tx_get;
  let version := ct_current_content_version <$> db_catalog_targets db !! target in
  match version with
  | Some version =>
      if bool_decide (0 < version) then mret version
      else tx_fail StorageError_CatalogTargetNotPublished
  | None => tx_fail StorageError_CatalogTargetNotPublished
  end.

(** What is counted of a response against the catalog of its attempt. *)
Record ResponseCounts := {
  rc_catalog_section_count : Z;
  rc_intersection_count : Z;
  rc_orphan_count : Z
}.

Definition response_counts (response : CanonicalOpenResponse) (catalog_indices : gset SectionIndex)
    : ResponseCounts :=
  {| rc_catalog_section_count := set_count catalog_indices;
     rc_intersection_count := set_count (cr_canonical_indices response ∩ catalog_indices);
     rc_orphan_count := set_count (cr_canonical_indices response ∖ catalog_indices) |}.

Definition prune_after_commit (target : TermCampusKey) : Tx OpenRetentionReport :=
  prune_open_diagnostics_transaction target OPEN_DIAGNOSTIC_RETENTION_PER_TARGET
    OPEN_DIAGNOSTIC_PRUNE_ATTEMPTS_PER_COMMIT.

(** The outcome of a response that is not applied. *)
Definition withheld_outcome (attempt_id : TraceId) (attempt : StartedOpenAttempt)
    (classification : OpenAttemptClassification) (response : CanonicalOpenResponse)
    (counts : ResponseCounts) (body_changed state_changed : bool)
    (retained_lkg_attempt_id : option TraceId) : OpenCommitOutcome :=
  {| co_attempt_id := attempt_id;
     co_attempt_sequence := sa_attempt_sequence attempt;
     co_classification := classification;
     co_refresh_observation_id := None;
     co_observation_sequence := None;
     co_catalog_content_version := sa_captured_catalog_content_version attempt;
     co_source_value_count := cr_source_value_count response;
     co_catalog_section_count := rc_catalog_section_count counts;
     co_intersection_count := rc_intersection_count counts;
     co_orphan_count := rc_orphan_count counts;
     co_duplicate_count := cr_duplicate_count response;
     co_changed_section_count := 0;
     co_body_changed := body_changed;
     co_state_changed := state_changed;
     co_retained_lkg_attempt_id := retained_lkg_attempt_id;
     co_observation_commit := None |}.

(** The error code of an unsafe response; [None] is [unreachable!]. *)
Definition unsafe_error_code (classification : OpenAttemptClassification) : option string :=
  match classification with
  | OpenAttemptClassification_UnsafeEmpty => Some "UNSAFE_EMPTY_WITH_CATALOG_ROWS"
  | OpenAttemptClassification_UnsafeZeroIntersection => Some "UNSAFE_ZERO_INTERSECTION"
  | OpenAttemptClassification_SuspectPartialSnapshot => Some "SUSPECT_PARTIAL_SNAPSHOT"
  | _ => None
  end.

(** The columns SET by the UPDATE of an applied attempt. *)
Definition with_lkg (attempt_id : TraceId) (observation_sequence captured_version : Z)
    (completed_at canonical_set_sha256 state_sha256 : string) (row : BatchRow) : BatchRow :=
  {| bs_last_attempt_sequence := bs_last_attempt_sequence row;
     bs_last_observation_sequence := observation_sequence;
     bs_current_catalog_content_version := captured_version;
     bs_lkg_attempt_id := Some attempt_id;
     bs_lkg_observation_sequence := Some observation_sequence;
     bs_lkg_observed_at := Some completed_at;
     bs_lkg_canonical_set_sha256 := Some canonical_set_sha256;
     bs_lkg_state_sha256 := Some state_sha256;
     bs_last_attempt_id := bs_last_attempt_id row;
     bs_last_attempt_at := bs_last_attempt_at row;
     bs_last_success_at := Some completed_at;
     bs_last_failure := bs_last_failure row;
     bs_last_body_change_at :=
       if bool_decide (bs_lkg_canonical_set_sha256 row = Some canonical_set_sha256)
       then bs_last_body_change_at row else Some completed_at;
     bs_last_state_change_at :=
       if bool_decide (bs_lkg_state_sha256 row = Some state_sha256)
       then bs_last_state_change_at row else Some completed_at;
     bs_requested_interval_seconds := bs_requested_interval_seconds row;
     bs_effective_interval_seconds := bs_effective_interval_seconds row;
     bs_last_schedule_lag_ms := bs_last_schedule_lag_ms row |}.

(** DELETE FROM open_section_current of the target, then one INSERT for each
    intended state, whose foreign keys are the observation and the target. *)
Definition replace_current (target : TermCampusKey) (states : gmap SectionIndex OpenSectionState)
    (captured_version : Z) (attempt_id : TraceId) (observation_sequence : Z)
    (completed_at : string) : Tx () :=
  db ← tx_get;
  _ ← tx_require
    (bool_decide (states = ∅)
     || (bool_decide (is_Some (db_observations db !! attempt_id))
         && bool_decide (is_Some (db_catalog_targets db !! target))));
  tx_modify (set_current
    (<[target := (λ state, {| cu_state := state;
                              cu_catalog_content_version := captured_version;
                              cu_attempt_id := attempt_id;
                              cu_observation_sequence := observation_sequence;
                              cu_observed_at := completed_at |}) <$> states]> (db_current db))).

(** The loop over the watched sections. *)
Fixpoint commit_section_events (attempt : StartedOpenAttempt) (attempt_id : TraceId)
    (refresh_observation_id : TraceId) (states : gmap SectionIndex OpenSectionState)
    (observation_sequence : Z) (completed_at : string) (watched_indices : list SectionIndex)
    : Tx (list OpenSectionEvent) :=
  match watched_indices with
  | [] => mret []
  | index :: watched_indices =>
      state ← tx_lift (ok_or (invalid_stored "open_batch_observations" "watched_sections")
                         (states !! index));
      section ← tx_lift (map_err StorageError_Identity
        (SectionKey_try_new (term_str (tck_term (sa_target attempt)))
           (campus_str (tck_campus (sa_target attempt))) (index_str index)));
      observation_id ← tx_lift (derive_open_section_observation_id attempt_id section);
      event_id ← insert_event (λ event_id,
        {| er_event_id := event_id;
           er_observation_id := observation_id;
           er_refresh_observation_id := refresh_observation_id;
           er_attempt_id := attempt_id;
           er_target := sa_target attempt;
           er_section_index := index;
           er_state := state;
           er_catalog_content_version := sa_captured_catalog_content_version attempt;
           er_observation_sequence := observation_sequence;
           er_observed_at := completed_at |});
      rest ← commit_section_events attempt attempt_id refresh_observation_id states
               observation_sequence completed_at watched_indices;
      mret ({| ev_event_id := event_id;
               ev_observation_id := observation_id;
               ev_refresh_observation_id := refresh_observation_id;
               ev_attempt_id := attempt_id;
               ev_section := section;
               ev_state := state;
               ev_catalog_content_version := sa_captured_catalog_content_version attempt;
               ev_observation_sequence := observation_sequence;
               ev_observed_at := completed_at |} :: rest)
  end.

(** What the commit reads of the audit before it opens the attempt. *)
Definition validate_success (command : FinishOpenPullSuccessCommand) : result StorageError () :=
  _ ← validate_timestamp "completed_at" (fs_completed_at command);
  _ ← validate_open_http_audit (fs_http command) true;
  _ ← required_success_http_status (fs_http command);
  decoded_bytes ← required_success_decoded_bytes (fs_http command);
  _ ← u64_to_i64 decoded_bytes;
  _ ← required_success_header "decoded_body_sha256" (ha_decoded_body_sha256 (fs_http command));
  _ ← required_success_header "content_type" (ha_content_type (fs_http command));
  Ok ().

(** The branch of a valid classification. *)
Definition commit_applied (attempt : StartedOpenAttempt) (command : FinishOpenPullSuccessCommand)
    (classification : OpenAttemptClassification) (response : CanonicalOpenResponse)
    (counts : ResponseCounts) (catalog_indices : gset SectionIndex)
    (states : gmap SectionIndex OpenSectionState) (state_sha256 : string)
    (body_changed state_changed : bool) : Tx OpenCommitOutcome :=
  let target := sa_target attempt in
  let attempt_id := fs_attempt_id command in
  let http := fs_http command in
  effective_interval_seconds ← tx_lift
    (ok_or (invalid_stored "open_pull_attempts" "effective_interval_seconds")
       (sa_effective_interval_seconds attempt));
  watched_indices ← tx_lift
    (canonicalize_watched_sections target (fs_watched_sections command) catalog_indices);
  db ← tx_get;
  let previous_states := cu_state <$> current_rows db target in
  let changed_section_count := changed_state_count previous_states states in
  batch ← load_batch target StorageError_Sqlite;
  observation_sequence ← tx_lift (sql_add (bs_last_observation_sequence batch) 1);
  captured_version ← tx_lift (u64_to_i64 (sa_captured_catalog_content_version attempt));
  refresh_observation_id ← tx_lift (derive_open_refresh_observation_id attempt_id);
  _ ← tx_lift (optional_u64_to_i64 (ha_age_seconds http));
  _ ← tx_lift (optional_u64_to_i64 (ha_retry_after_seconds http));
  _ ← tx_lift (mapM u64_to_i64
        [cr_source_value_count response; rc_catalog_section_count counts;
         rc_intersection_count counts; rc_orphan_count counts; cr_duplicate_count response;
         changed_section_count]);
  _ ← insert_observation attempt_id
        {| ob_observation_id := refresh_observation_id;
           ob_target := target;
           ob_observation_sequence := observation_sequence;
           ob_catalog_content_version := captured_version;
           ob_observed_at := fs_completed_at command;
           ob_classification := classification;
           ob_http := http;
           ob_canonical_set_sha256 := cr_canonical_set_sha256 response;
           ob_state_sha256 := state_sha256;
           ob_source_value_count := cr_source_value_count response;
           ob_catalog_section_count := rc_catalog_section_count counts;
           ob_intersection_count := rc_intersection_count counts;
           ob_orphan_count := rc_orphan_count counts;
           ob_duplicate_count := cr_duplicate_count response;
           ob_changed_section_count := changed_section_count;
           ob_body_changed := body_changed;
           ob_state_changed := state_changed |};
  _ ← replace_current target states captured_version attempt_id observation_sequence
        (fs_completed_at command);
  section_events ← commit_section_events attempt attempt_id refresh_observation_id states
    observation_sequence (fs_completed_at command) (bts_iter watched_indices);
  _ ← update_started attempt_id (λ row,
        finished_attempt row (fs_completed_at command) classification http
          (Some (cr_canonical_set_sha256 response)) (Some state_sha256)
          (cr_source_value_count response) (rc_catalog_section_count counts)
          (rc_intersection_count counts) (rc_orphan_count counts) (cr_duplicate_count response)
          None (fs_gate_catalog_set_identity command));
  _ ← tx_lift (u64_to_i64 (sa_attempt_sequence attempt));
  _ ← update_current_batch attempt attempt_id
        (with_lkg attempt_id observation_sequence captured_version (fs_completed_at command)
           (cr_canonical_set_sha256 response) state_sha256);
  _ ← increment_final_counters target (sa_run_id attempt) (sa_rutgers_day attempt) true
        (bool_decide (cr_canonical_indices response = ∅));
  '(run_counts, target_day_counts, service_day_counts) ←
    load_committed_open_counters target (sa_run_id attempt) (sa_rutgers_day attempt);
  _ ← prune_after_commit target;
  mret {| co_attempt_id := attempt_id;
          co_attempt_sequence := sa_attempt_sequence attempt;
          co_classification := classification;
          co_refresh_observation_id := Some refresh_observation_id;
          co_observation_sequence := Some observation_sequence;
          co_catalog_content_version := sa_captured_catalog_content_version attempt;
          co_source_value_count := cr_source_value_count response;
          co_catalog_section_count := rc_catalog_section_count counts;
          co_intersection_count := rc_intersection_count counts;
          co_orphan_count := rc_orphan_count counts;
          co_duplicate_count := cr_duplicate_count response;
          co_changed_section_count := changed_section_count;
          co_body_changed := body_changed;
          co_state_changed := state_changed;
          co_retained_lkg_attempt_id := Some attempt_id;
          co_observation_commit := Some
            {| cm_rutgers_day := sa_rutgers_day attempt;
               cm_effective_interval_seconds := effective_interval_seconds;
               cm_run_counts := run_counts;
               cm_target_day_counts := target_day_counts;
               cm_service_day_counts := service_day_counts;
               cm_section_events := section_events |} |}.

Definition finish_open_pull_success_transaction (command : FinishOpenPullSuccessCommand)
    (accept_candidate_base_version : bool) : Tx OpenCommitOutcome :=
  let attempt_id := fs_attempt_id command in
  _ ← tx_lift (validate_success command);
  attempt ← load_started_open_attempt attempt_id;
  _ ← ensure_started_open_attempt_is_current attempt attempt_id;
  _ ← tx_lift (validate_timestamp_order (sa_started_at attempt) (fs_completed_at command));
  let target := sa_target attempt in
  response ← tx_lift (canonicalize_open_response target (fs_open_sections command)
                        (fs_source_value_count command));
  batch ← load_batch target (invalid_stored "open_batch_state" "target_id");
  let retained_lkg_attempt_id := bs_lkg_attempt_id batch in
  let body_changed := negb (bool_decide
    (bs_lkg_canonical_set_sha256 batch = Some (cr_canonical_set_sha256 response))) in
  current_catalog_content_version ← load_current_catalog_version target;
  db ← tx_get;
  let catalog_indices := load_attempt_catalog_indices db attempt_id in
  let counts := response_counts response catalog_indices in
  let candidate_base_matches := accept_candidate_base_version
    && bool_decide (sa_candidate_base_content_version attempt
                    = Some current_catalog_content_version) in
  if bool_decide (current_catalog_content_version ≠ sa_captured_catalog_content_version attempt)
     && negb candidate_base_matches
  then
    _ ← finalize_non_applied_attempt attempt attempt_id (fs_completed_at command)
          OpenAttemptClassification_StaleCatalogRace (fs_http command) (Some response)
          (rc_catalog_section_count counts) (rc_intersection_count counts)
          (rc_orphan_count counts) "CATALOG_CONTENT_VERSION_CHANGED" None None;
    _ ← prune_after_commit target;
    mret (withheld_outcome attempt_id attempt OpenAttemptClassification_StaleCatalogRace response
            counts body_changed false retained_lkg_attempt_id)
  else
  let classification := classify_open_response (cr_canonical_indices response) catalog_indices
                          (rc_intersection_count counts) (fs_gate_hold command) in
  let states := intended_states catalog_indices (cr_canonical_indices response) in
  let state_sha256 := open_state_sha256_v1 target states in
  let state_changed := negb (bool_decide (bs_lkg_state_sha256 batch = Some state_sha256)) in
  if negb (is_success classification) then
    match unsafe_error_code classification with
    | None => tx_panic
    | Some error_code =>
        _ ← finalize_non_applied_attempt attempt attempt_id (fs_completed_at command)
              classification (fs_http command) (Some response)
              (rc_catalog_section_count counts) (rc_intersection_count counts)
              (rc_orphan_count counts) error_code (Some state_sha256)
              (fs_gate_catalog_set_identity command);
        _ ← prune_after_commit target;
        mret (withheld_outcome attempt_id attempt classification response counts body_changed
                state_changed retained_lkg_attempt_id)
    end
  else commit_applied attempt command classification response counts catalog_indices states
         state_sha256 body_changed state_changed.

Definition finish_open_pull_success (command : FinishOpenPullSuccessCommand)
    : Tx OpenCommitOutcome :=
  finish_open_pull_success_transaction command false.

(** ** Committing a failure *)

Definition finish_open_pull_failure_transaction (command : FinishOpenPullFailureCommand)
    : Tx OpenCommitOutcome :=
  let attempt_id := ff_attempt_id command in
  _ ← tx_lift (validate_timestamp "completed_at" (ff_completed_at command));
  _ ← tx_lift (validate_safe_code "error_code" (ff_error_code command));
  _ ← tx_lift (validate_optional_safe_token "diagnostic_token" (ff_diagnostic_token command));
  _ ← tx_lift (validate_open_http_audit (ff_http command) false);
  attempt ← load_started_open_attempt attempt_id;
  _ ← ensure_started_open_attempt_is_current attempt attempt_id;
  _ ← tx_lift (validate_timestamp_order (sa_started_at attempt) (ff_completed_at command));
  let target := sa_target attempt in
  db ← tx_get;
  let retained_lkg_attempt_id := db_batch db !! target ≫= bs_lkg_attempt_id in
  let catalog_section_count := set_count (load_attempt_catalog_indices db attempt_id) in
  _ ← finalize_non_applied_attempt attempt attempt_id (ff_completed_at command)
        OpenAttemptClassification_Failed (ff_http command) None catalog_section_count 0 0
        (ff_error_code command) None None;
  _ ← tx_modify (λ db,
        set_attempts (alter (λ row,
          {| at_target := at_target row;
             at_run_id := at_run_id row;
             at_attempt_sequence := at_attempt_sequence row;
             at_rutgers_day := at_rutgers_day row;
             at_captured_catalog_content_version := at_captured_catalog_content_version row;
             at_started_at := at_started_at row;
             at_completed_at := at_completed_at row;
             at_classification := at_classification row;
             at_lane := at_lane row;
             at_http := at_http row;
             at_canonical_set_sha256 := at_canonical_set_sha256 row;
             at_state_sha256 := at_state_sha256 row;
             at_source_value_count := at_source_value_count row;
             at_catalog_section_count := at_catalog_section_count row;
             at_intersection_count := at_intersection_count row;
             at_orphan_count := at_orphan_count row;
             at_duplicate_count := at_duplicate_count row;
             at_requested_interval_seconds := at_requested_interval_seconds row;
             at_effective_interval_seconds := at_effective_interval_seconds row;
             at_schedule_lag_ms := at_schedule_lag_ms row;
             at_lkg_age_ms := at_lkg_age_ms row;
             at_error_code := at_error_code row;
             at_diagnostic_token := ff_diagnostic_token command;
             at_candidate_catalog_observation_id := at_candidate_catalog_observation_id row;
             at_candidate_base_content_version := at_candidate_base_content_version row;
             at_gate_catalog_set_identity := at_gate_catalog_set_identity row |})
          attempt_id (db_attempts db)) db);
  _ ← prune_after_commit target;
  mret {| co_attempt_id := attempt_id;
          co_attempt_sequence := sa_attempt_sequence attempt;
          co_classification := OpenAttemptClassification_Failed;
          co_refresh_observation_id := None;
          co_observation_sequence := None;
          co_catalog_content_version := sa_captured_catalog_content_version attempt;
          co_source_value_count := 0;
          co_catalog_section_count := catalog_section_count;
          co_intersection_count := 0;
          co_orphan_count := 0;
          co_duplicate_count := 0;
          co_changed_section_count := 0;
          co_body_changed := false;
          co_state_changed := false;
          co_retained_lkg_attempt_id := retained_lkg_attempt_id;
          co_observation_commit := None |}.

Definition finish_open_pull_failure (command : FinishOpenPullFailureCommand)
    : Tx OpenCommitOutcome :=
  finish_open_pull_failure_transaction command.

(** Emptying the staging tables of an observation: the rows of the sections go
    with their course groups. *)
Definition clear_staging (observation_id : TraceId) : Tx () :=
  tx_modify (λ db, set_candidates (db_catalog_observations db)
    (filter (λ p, p.1 ≠ observation_id) (db_staging_sections db)) db).

Definition finish_candidate_open_pull_failure (catalog_observation_id : TraceId)
    (command : FinishOpenPullFailureCommand) : Tx OpenCommitOutcome :=
  attempt ← load_started_open_attempt (ff_attempt_id command);
  if bool_decide (sa_candidate_catalog_observation_id attempt ≠ Some catalog_observation_id)
  then tx_fail (StorageError_InvalidCommand "candidate_catalog_observation_id"
                  "must match the staged Catalog bound to the Open attempt")
  else
  outcome ← finish_open_pull_failure_transaction command;
  _ ← clear_staging catalog_observation_id;
  db ← tx_get;
  match db_catalog_observations db !! catalog_observation_id with
  | Some row =>
      if bool_decide (cor_status row = "STAGED") then
        _ ← tx_modify (set_candidates
              (<[catalog_observation_id :=
                   {| cor_target := cor_target row;
                      cor_status := "FAILED";
                      cor_completed_at := Some (ff_completed_at command);
                      cor_error_stage := Some "TRANSPORT";
                      cor_error_code := Some "OPEN_CANDIDATE_FAILED" |}]>
                 (db_catalog_observations db)) (db_staging_sections db));
        mret outcome
      else tx_fail (StorageError_ObservationNotStaged catalog_observation_id)
  | None => tx_fail (StorageError_ObservationNotStaged catalog_observation_id)
  end.
End operations.

(** ** Recovery after a restart *)

(** The columns SET by the recovery. *)
Definition interrupted_attempt (completed_at : string) (row : AttemptRow) : AttemptRow :=
  {| at_target := at_target row;
     at_run_id := at_run_id row;
     at_attempt_sequence := at_attempt_sequence row;
     at_rutgers_day := at_rutgers_day row;
     at_captured_catalog_content_version := at_captured_catalog_content_version row;
     at_started_at := at_started_at row;
     at_completed_at := Some completed_at;
     at_classification := OpenAttemptClassification_Interrupted;
     at_lane := at_lane row;
     at_http := at_http row;
     at_canonical_set_sha256 := at_canonical_set_sha256 row;
     at_state_sha256 := at_state_sha256 row;
     at_source_value_count := at_source_value_count row;
     at_catalog_section_count := at_catalog_section_count row;
     at_intersection_count := at_intersection_count row;
     at_orphan_count := at_orphan_count row;
     at_duplicate_count := at_duplicate_count row;
     at_requested_interval_seconds := at_requested_interval_seconds row;
     at_effective_interval_seconds := at_effective_interval_seconds row;
     at_schedule_lag_ms := at_schedule_lag_ms row;
     at_lkg_age_ms := at_lkg_age_ms row;
     at_error_code := Some "PROCESS_RESTARTED";
     at_diagnostic_token := at_diagnostic_token row;
     at_candidate_catalog_observation_id := at_candidate_catalog_observation_id row;
     at_candidate_base_content_version := at_candidate_base_content_version row;
     at_gate_catalog_set_identity := at_gate_catalog_set_identity row |}.

(** The attempts that were running, by target and sequence. *)
Definition pending_attempts (db : OpenTables) : list (TraceId * AttemptRow) :=
  sort_by (λ a b,
    cmp_then (String.compare (open_target_id (at_target a.2)) (open_target_id (at_target b.2)))
      (Z.compare (at_attempt_sequence a.2) (at_attempt_sequence b.2)))
    (filter (λ p, at_classification p.2 = OpenAttemptClassification_Started)
       (map_to_list (db_attempts db))).

Definition recover_attempt (completed_at : string) (attempt_id : TraceId) (row : AttemptRow) : Tx () :=
  _ ← tx_modify (λ db,
        set_attempts (alter (λ row,
          if bool_decide (at_classification row = OpenAttemptClassification_Started)
          then interrupted_attempt completed_at row else row) attempt_id (db_attempts db)) db);
  _ ← tx_modify (λ db,
        set_batch (alter (with_last_failure
          {| lf_attempt_sequence := at_attempt_sequence row;
             lf_at := completed_at;
             lf_error_code := "PROCESS_RESTARTED";
             lf_http_status := None |}) (at_target row) (db_batch db)) db);
  increment_final_counters (at_target row) (at_run_id row) (at_rutgers_day row) false false.

Fixpoint recover_pending (completed_at : string) (pending : list (TraceId * AttemptRow)) : Tx () :=
  match pending with
  | [] => mret ()
  | (attempt_id, row) :: pending =>
      _ ← recover_attempt completed_at attempt_id row;
      recover_pending completed_at pending
  end.

(** [now] is the instant the recovery reads from the clock. *)
Definition recover_interrupted_open_attempts `{Rfc3339Api} (now : OffsetDateTime) : Tx () :=
  db ← tx_get;
  let pending := pending_attempts db in
  match pending with
  | [] => mret ()
  | _ =>
      completed_at ← tx_lift
        (ok_or (StorageError_InvalidCommand "completed_at" "could not format recovery timestamp")
           (format_rfc3339 now));
      recover_pending completed_at pending
  end.

(** ** Reads *)

Definition section_key_at (target : TermCampusKey) (index : SectionIndex)
    : result StorageError SectionKey :=
  map_err StorageError_Identity
    (SectionKey_try_new (term_str (tck_term target)) (campus_str (tck_campus target))
       (index_str index)).

Definition serving_open_catalog_snapshot (target : TermCampusKey)
    : Tx (option OpenCatalogSnapshot) :=
  db ← tx_get;
  match db_catalog_targets db !! target with
  | Some row =>
      if bool_decide (0 < ct_current_content_version row) then
        sections ← tx_lift
          (mapM (section_key_at target)
             (bts_iter (catalog_sections_at db target (ct_current_content_version row))));
        if bool_decide (zlen sections ≠ ct_section_count row)
        then tx_fail (invalid_stored "catalog_targets" "section_count")
        else mret (Some {| cs_target := target;
                           cs_content_version := ct_current_content_version row;
                           cs_sections := sections |})
      else mret None
  | None => mret None
  end.

Definition serving_lkg_open_index_set (target : TermCampusKey) : Tx (option (gset SectionIndex)) :=
  db ← tx_get;
  let rows := current_rows db target in
  mret (if bool_decide (rows = ∅) then None
        else Some (dom (filter (λ p, cu_state p.2 = OpenSectionState_Open) rows))).

(** [lkg_open_index_set] of the trait, which validates the indexes again. *)
Definition lkg_open_index_set (target : TermCampusKey) : Tx (option (gset SectionIndex)) :=
  raw ← serving_lkg_open_index_set target;
  match raw with
  | None => mret None
  | Some raw =>
      indexes ← tx_lift
        (mapM (λ value, map_err StorageError_Identity (SectionIndex_try_from (index_str value)))
           (bts_iter raw));
      mret (Some (list_to_set indexes))
  end.

Definition attempt_summary (row : AttemptRow) : OpenGateAttemptSummary :=
  {| gsu_classification := at_classification row;
     gsu_canonical_set_sha256 := at_canonical_set_sha256 row;
     gsu_completed_at := at_completed_at row;
     gsu_catalog_set_identity := at_gate_catalog_set_identity row |}.

(** Whether an attempt is part of the history of the serving catalog. *)
Definition in_serving_history (row : AttemptRow) : Prop :=
  at_classification row ≠ OpenAttemptClassification_Started
  ∧ (at_candidate_catalog_observation_id row = None
     ∨ is_success (at_classification row) = true).

#[export] Instance in_serving_history_dec row : Decision (in_serving_history row).
Proof. unfold in_serving_history. apply _. Defined.

Definition recent_open_gate_attempt_summaries (target : TermCampusKey) (limit : Z)
    : Tx (list OpenGateAttemptSummary) :=
  db ← tx_get;
  mret (attempt_summary <$>
        take (Z.to_nat limit)
          (filter in_serving_history (attempts_desc db target).*2)).

Record CompleteTargetSnapshotState := {
  cts_target : TermCampusKey;
  cts_catalog_content_version : Z;
  cts_open_catalog_content_version : Z;
  cts_open_lkg_attempt_id : option TraceId;
  cts_ready : bool
}.

Definition complete_target_snapshot_state (db : OpenTables) (target : TermCampusKey)
    : CompleteTargetSnapshotState :=
  let catalog_content_version :=
    from_option ct_current_content_version 0 (db_catalog_targets db !! target) in
  let open_catalog_content_version :=
    from_option bs_current_catalog_content_version 0 (db_batch db !! target) in
  let open_lkg_attempt_id := db_batch db !! target ≫= bs_lkg_attempt_id in
  {| cts_target := target;
     cts_catalog_content_version := catalog_content_version;
     cts_open_catalog_content_version := open_catalog_content_version;
     cts_open_lkg_attempt_id := open_lkg_attempt_id;
     cts_ready := bool_decide (0 < catalog_content_version)
                  && bool_decide (is_Some open_lkg_attempt_id)
                  && bool_decide (open_catalog_content_version = catalog_content_version) |}.

Definition read_open_section_events (after_event_id limit : Z) : Tx (list OpenSectionEvent) :=
  if bool_decide (limit = 0) || bool_decide (1000 < limit)
  then tx_fail (StorageError_InvalidCommand "limit" "must be between 1 and 1000")
  else
    db ← tx_get;
    _ ← tx_lift (u64_to_i64 after_event_id);
    tx_lift (mapM (λ row,
      section ← section_key_at (er_target row) (er_section_index row);
      Ok {| ev_event_id := er_event_id row;
            ev_observation_id := er_observation_id row;
            ev_refresh_observation_id := er_refresh_observation_id row;
            ev_attempt_id := er_attempt_id row;
            ev_section := section;
            ev_state := er_state row;
            ev_catalog_content_version := er_catalog_content_version row;
            ev_observation_sequence := er_observation_sequence row;
            ev_observed_at := er_observed_at row |})
      (take (Z.to_nat limit) (filter (λ row, after_event_id < er_event_id row) (db_events db)))).

(** ** The storage as the service uses it

    The trait's operations run in transactions of their own. A panic leaves no
    storage to go on with; none of these operations panics
    ([open_transactions_total] of [OpenStoreSpec]). *)
Definition total {A} (m : Tx A) (db : OpenTables) : result StorageError A * OpenTables :=
  default (Err StorageError_Sqlite, db) (run_tx m db).

#[export] Instance operational_storage `{Rfc3339Api, TimeDateApi, Sha256Api}
    : OpenPullPersistence OpenTables StorageError := {
  OpenService.serving_open_catalog_snapshot db target :=
    total (serving_open_catalog_snapshot target) db;
  OpenService.begin_open_pull_attempt db command := total (begin_open_pull_attempt command) db;
  OpenService.finish_open_pull_success db command := total (finish_open_pull_success command) db;
  OpenService.finish_open_pull_failure db command := total (finish_open_pull_failure command) db;
  OpenService.lkg_open_index_set db target := total (lkg_open_index_set target) db;
  OpenService.recent_open_gate_attempt_summaries db target limit :=
    total (recent_open_gate_attempt_summaries target limit) db
}.
