(* ===== verification/OpenTxFacts.v ===== *)
(** * Reasoning about the transactions of the Open storage

    A weakest-precondition calculus for [Tx], and what each step of the
    operations of [OpenTransactions] does to the tables. *)

From S2P Require Import Prelude Ordering Identity Contracts RustStr Reconcile OpenClient.
From S2P Require Import OpenStore OpenService OpenTables OpenCommands OpenTransactions.

(** ** Weakest preconditions

    [twp m db Q R]: from [db], [m] does not panic; what it returns and the
    tables it leaves satisfy [Q]; an error satisfies [R]. *)

Definition twp {A} (m : Tx A) (db : OpenTables) (Q : A → OpenTables → Prop)
    (R : StorageError → Prop) : Prop :=
  match m db with
  | None => False
  | Some (Err e) => R e
  | Some (Ok (a, db')) => Q a db'
  end.

Section twp.
Context {A B : Type}.
Implicit Types (db : OpenTables) (R : StorageError → Prop).

Lemma twp_ret (a : A) db Q R : Q a db → twp (mret a) db Q R.
Proof. done. Qed.

Lemma twp_bind (m : Tx A) (f : A → Tx B) db Q R :
  twp m db (λ a db', twp (f a) db' Q R) R → twp (m ≫= f) db Q R.
Proof. unfold twp, mbind, tx_bind. by destruct (m db) as [[[a db']|e]|]. Qed.

Lemma twp_mono (m : Tx A) db (Q Q' : A → OpenTables → Prop) R R' :
  twp m db Q R → (∀ a db', Q a db' → Q' a db') → (∀ e, R e → R' e) → twp m db Q' R'.
Proof. unfold twp. destruct (m db) as [[[a db']|e]|]; eauto. Qed.

Lemma twp_conj (m : Tx A) db (Q Q' : A → OpenTables → Prop) R R' :
  twp m db Q R → twp m db Q' R' → twp m db (λ a db', Q a db' ∧ Q' a db') (λ e, R e ∧ R' e).
Proof. unfold twp. destruct (m db) as [[[a db']|e]|]; eauto. Qed.

Lemma twp_fail e db (Q : A → OpenTables → Prop) R : R e → twp (tx_fail e) db Q R.
Proof. done. Qed.

Lemma twp_lift (r : result StorageError A) db Q R :
  match r with Ok a => Q a db | Err e => R e end → twp (tx_lift r) db Q R.
Proof. unfold twp, tx_lift. by destruct r. Qed.

Lemma twp_get db (Q : OpenTables → OpenTables → Prop) R : Q db db → twp tx_get db Q R.
Proof. done. Qed.

Lemma twp_modify f db (Q : () → OpenTables → Prop) R : Q () (f db) → twp (tx_modify f) db Q R.
Proof. done. Qed.

Lemma twp_require b db (Q : () → OpenTables → Prop) R :
  (b = true → Q () db) → (b = false → R StorageError_Sqlite) → twp (tx_require b) db Q R.
Proof. destruct b; unfold twp, tx_require; simpl; eauto. Qed.

(** What an execution says. *)
Lemma twp_Ok (m : Tx A) db Q R a db' : twp m db Q R → m db = Some (Ok (a, db')) → Q a db'.
Proof. unfold twp. by intros H Hm; rewrite Hm in H. Qed.

Lemma twp_Err (m : Tx A) db Q R e : twp m db Q R → m db = Some (Err e) → R e.
Proof. unfold twp. by intros H Hm; rewrite Hm in H. Qed.

Lemma twp_run (m : Tx A) db Q R :
  twp m db Q R →
  ∃ r db', run_tx m db = Some (r, db') ∧
    match r with Ok a => Q a db' | Err e => db' = db ∧ R e end.
Proof. unfold twp, run_tx. destruct (m db) as [[[a db']|e]|]; naive_solver. Qed.

Lemma twp_total (m : Tx A) db Q R r db' :
  twp m db Q R → total m db = (r, db') →
  match r with Ok a => Q a db' | Err e => db' = db ∧ R e end.
Proof.
  intros (r' & db'' & Hr & HQ)%twp_run. unfold total. rewrite Hr. simpl. by intros [= <- <-].
Qed.

Lemma twp_of_total (m : Tx A) db a db' : total m db = (Ok a, db') → m db = Some (Ok (a, db')).
Proof. unfold total, run_tx. destruct (m db) as [[[a' db'']|e]|]; simpl; congruence. Qed.
End twp.

(** One step over the first operation of a body. *)
Ltac tx_step :=
  lazymatch goal with
  | |- twp (mbind _ tx_get) _ _ _ => apply twp_bind, twp_get
  | |- twp (mbind _ (tx_modify _)) _ _ _ => apply twp_bind, twp_modify
  | |- twp (mbind _ (tx_lift ?r)) _ _ _ =>
      apply twp_bind, twp_lift; destruct r eqn:?; [|done]
  | |- twp (mbind _ (tx_require _)) _ _ _ => apply twp_bind, twp_require; [intros ?|done]
  | |- twp (tx_modify _) _ _ _ => apply twp_modify
  | |- twp (mret _) _ _ _ => apply twp_ret
  | |- twp (tx_fail _) _ _ _ => apply twp_fail; done
  end.
Ltac tx_steps := repeat (tx_step; cbv beta zeta).


(** ** Integers and counters *)

Lemma sql_add_Ok a b c : sql_add a b = Ok c ↔ c = a + b ∧ a + b ≤ i64_max.
Proof. unfold sql_add. case_bool_decide; naive_solver. Qed.

Lemma u64_to_i64_Ok a b : u64_to_i64 a = Ok b ↔ b = a ∧ a ≤ i64_max.
Proof. unfold u64_to_i64. case_bool_decide; naive_solver. Qed.

Lemma optional_u64_to_i64_Ok a b :
  optional_u64_to_i64 a = Ok b ↔ b = a ∧ ∀ n, a = Some n → n ≤ i64_max.
Proof.
  unfold optional_u64_to_i64. destruct a as [n|]; [|naive_solver].
  rewrite result_bind_Ok. setoid_rewrite u64_to_i64_Ok. naive_solver.
Qed.

Definition counters_plus (a b : OpenAttemptCounters) : OpenAttemptCounters :=
  {| ac_attempted := ac_attempted a + ac_attempted b;
     ac_succeeded := ac_succeeded a + ac_succeeded b;
     ac_failed := ac_failed a + ac_failed b;
     ac_empty := ac_empty a + ac_empty b |}.

Definition counters_fit (a : OpenAttemptCounters) : Prop :=
  ac_attempted a ≤ i64_max ∧ ac_succeeded a ≤ i64_max ∧ ac_failed a ≤ i64_max
  ∧ ac_empty a ≤ i64_max.

Lemma counters_add_Ok a b c :
  counters_add a b = Ok c ↔ c = counters_plus a b ∧ counters_fit (counters_plus a b).
Proof.
  unfold counters_add, counters_fit, counters_plus; simpl.
  repeat setoid_rewrite result_bind_Ok. repeat setoid_rewrite sql_add_Ok. naive_solver.
Qed.

Lemma upsert_attempted_Ok row c :
  upsert_attempted row = Ok c →
  c = counters_plus (default no_attempts row) attempted_once ∧ ac_attempted c ≤ i64_max.
Proof.
  unfold upsert_attempted. destruct row as [row|]; [|by intros [= <-]].
  by intros [-> [? _]]%counters_add_Ok.
Qed.

(** The counters of a finished attempt. *)
Definition finished_once (succeeded empty : bool) : OpenAttemptCounters :=
  {| ac_attempted := 0; ac_succeeded := if succeeded then 1 else 0;
     ac_failed := if succeeded then 0 else 1; ac_empty := if empty then 1 else 0 |}.

(** ** The steps *)

Definition with_counters (t : TermCampusKey) (run : TraceId) (day : string)
    (daily runc : OpenAttemptCounters) (db : OpenTables) : OpenTables :=
  set_run (<[(run, t) := runc]> (db_run db)) (set_daily (<[(t, day) := daily]> (db_daily db)) db).

(** Neither counter of attempts leaves its range. *)
Definition attempts_fit (t : TermCampusKey) (run : TraceId) (day : string) (db : OpenTables) : Prop :=
  ac_attempted (default no_attempts (db_daily db !! (t, day))) + 1 ≤ i64_max ∧
  ac_attempted (default no_attempts (db_run db !! (run, t))) + 1 ≤ i64_max.

Lemma increment_attempted_twp t run day db :
  twp (increment_attempted_counters t run day) db (λ _ db',
    attempts_fit t run day db ∧
    db' = with_counters t run day
            (counters_plus (default no_attempts (db_daily db !! (t, day))) attempted_once)
            (counters_plus (default no_attempts (db_run db !! (run, t))) attempted_once) db)
    (λ _, True).
Proof.
  unfold increment_attempted_counters. tx_steps.
  repeat match goal with H : upsert_attempted _ = _ |- _ => apply upsert_attempted_Ok in H as [-> ?] end.
  done.
Qed.

Lemma counters_update_Ok row by_ row' :
  counters_update row by_ = Ok (Some row') →
  ∃ old, row = Some old ∧ row' = counters_plus old by_ ∧ counters_fit row'.
Proof.
  unfold counters_update. destruct row as [row|]; [|done].
  intros (c & [-> Hf]%counters_add_Ok & [= <-])%result_bind_Ok. eauto.
Qed.

Lemma increment_final_twp t run day succeeded empty db :
  twp (increment_final_counters t run day succeeded empty) db (λ _ db',
    ∃ daily runc, db_daily db !! (t, day) = Some daily ∧ db_run db !! (run, t) = Some runc ∧
      db' = with_counters t run day (counters_plus daily (finished_once succeeded empty))
              (counters_plus runc (finished_once succeeded empty)) db)
    (λ _, True).
Proof.
  unfold increment_final_counters. tx_steps.
  destruct a as [daily|], a0 as [runc|]; try done. tx_steps.
  repeat match goal with H : counters_update _ _ = _ |- _ =>
    apply counters_update_Ok in H as (? & ? & -> & _) end. eauto.
Qed.

Lemma load_batch_twp t e db :
  twp (load_batch t e) db (λ b db', db' = db ∧ db_batch db !! t = Some b)
    (λ e', e' = e ∧ db_batch db !! t = None).
Proof.
  unfold load_batch. apply twp_bind, twp_get, twp_lift.
  by destruct (db_batch db !! t) as [b|] eqn:?.
Qed.

Lemma load_started_twp id db :
  twp (load_started_open_attempt id) db (λ a db', db' = db ∧ ∃ row,
    db_attempts db !! id = Some row ∧ is_Some (db_catalog_targets db !! at_target row) ∧
    at_classification row = OpenAttemptClassification_Started ∧
    a = {| sa_target := at_target row; sa_run_id := at_run_id row;
           sa_attempt_sequence := at_attempt_sequence row; sa_rutgers_day := at_rutgers_day row;
           sa_captured_catalog_content_version := at_captured_catalog_content_version row;
           sa_started_at := at_started_at row;
           sa_effective_interval_seconds := at_effective_interval_seconds row;
           sa_candidate_catalog_observation_id := at_candidate_catalog_observation_id row;
           sa_candidate_base_content_version := at_candidate_base_content_version row |})
    (λ _, True).
Proof.
  unfold load_started_open_attempt. apply twp_bind, twp_get.
  destruct (db_attempts db !! id) as [row|] eqn:Hr; [|done].
  case_bool_decide as Ht; [done|]. case_bool_decide as Hc; [done|].
  apply twp_ret. split; [done|]. exists row. split_and!; try done.
  by apply not_eq_None_Some.
Qed.

Lemma ensure_current_twp a id db :
  twp (ensure_started_open_attempt_is_current a id) db (λ _ db', db' = db ∧ ∃ b,
    db_batch db !! sa_target a = Some b ∧ bs_last_attempt_sequence b = sa_attempt_sequence a ∧
    bs_last_attempt_id b = Some id) (λ _, True).
Proof.
  unfold ensure_started_open_attempt_is_current. apply twp_bind.
  eapply twp_mono; [apply load_batch_twp| |done]. intros b db' [-> Hb]; simpl.
  case_bool_decide as H1; [done|]. case_bool_decide as H2; [done|]. simpl.
  apply twp_ret. split; [done|]. exists b. done.
Qed.

Lemma update_started_twp id f db :
  twp (update_started id f) db (λ _ db', ∃ row, db_attempts db !! id = Some row ∧
    at_classification row = OpenAttemptClassification_Started ∧
    db' = set_attempts (<[id := f row]> (db_attempts db)) db) (λ _, True).
Proof.
  unfold update_started. apply twp_bind, twp_get.
  destruct (db_attempts db !! id) as [row|]; [|done]. case_bool_decide; [|done].
  apply twp_modify. eauto.
Qed.

Lemma update_current_batch_twp a id f db :
  twp (update_current_batch a id f) db (λ _ db', ∃ b, db_batch db !! sa_target a = Some b ∧
    db' = set_batch (<[sa_target a := f b]> (db_batch db)) db) (λ _, True).
Proof.
  unfold update_current_batch. apply twp_bind, twp_get.
  destruct (db_batch db !! sa_target a) as [b|]; [|done].
  case_bool_decide; [|done]. case_bool_decide; [|done]. apply twp_modify. eauto.
Qed.

(** The tables with a finished attempt: its row, the row of its target and the
    counters. *)
Definition with_finished (a : StartedOpenAttempt) (id : TraceId) (f : AttemptRow → AttemptRow)
    (g : BatchRow → BatchRow) (daily runc : OpenAttemptCounters) (db : OpenTables) : OpenTables :=
  with_counters (sa_target a) (sa_run_id a) (sa_rutgers_day a) daily runc
    (set_batch (alter g (sa_target a) (db_batch db))
       (set_attempts (alter f id (db_attempts db)) db)).

Definition balanced_at (a : StartedOpenAttempt) (succeeded empty : bool) (db : OpenTables)
    (daily runc : OpenAttemptCounters) : Prop :=
  ∃ daily0 runc0,
    db_daily db !! (sa_target a, sa_rutgers_day a) = Some daily0 ∧
    db_run db !! (sa_run_id a, sa_target a) = Some runc0 ∧
    daily = counters_plus daily0 (finished_once succeeded empty) ∧
    runc = counters_plus runc0 (finished_once succeeded empty).

(** The row of an attempt that is finished without being applied. *)
Definition not_applied (classification : OpenAttemptClassification) (f : AttemptRow → AttemptRow)
    : Prop :=
  ∀ row, at_target (f row) = at_target row ∧
    at_attempt_sequence (f row) = at_attempt_sequence row ∧
    at_run_id (f row) = at_run_id row ∧ at_rutgers_day (f row) = at_rutgers_day row ∧
    at_classification (f row) = classification ∧
    at_candidate_catalog_observation_id (f row) = at_candidate_catalog_observation_id row ∧
    at_captured_catalog_content_version (f row) = at_captured_catalog_content_version row.

Lemma alter_insert_eq `{Countable K} {V} (f : V → V) (m : gmap K V) i v :
  m !! i = Some v → alter f i m = <[i := f v]> m.
Proof.
  intros Hi. apply map_eq. intros j. destruct (decide (i = j)) as [->|].
  - by rewrite lookup_alter_eq, lookup_insert_eq, Hi.
  - by rewrite lookup_alter_ne, lookup_insert_ne.
Qed.

(** What withholding or failing an attempt does, whatever the classification. *)
Lemma finalize_twp a id completed c http response n1 n2 n3 code st gate db :
  twp (finalize_non_applied_attempt a id completed c http response n1 n2 n3 code st gate) db
    (λ _ db', ∃ f failure daily runc, not_applied c f ∧
      (∀ row, at_completed_at (f row) = Some completed ∧
         at_canonical_set_sha256 (f row) = cr_canonical_set_sha256 <$> response ∧
         at_gate_catalog_set_identity (f row) = gate ∧ at_error_code (f row) = Some code) ∧
      failure = {| lf_attempt_sequence := sa_attempt_sequence a; lf_at := completed;
                   lf_error_code := code; lf_http_status := ha_http_status http |} ∧
      balanced_at a false (from_option (λ v, bool_decide (cr_canonical_indices v = ∅)) false response)
        db daily runc ∧
      db' = with_finished a id f (with_last_failure failure) daily runc db) (λ _, True).
Proof.
  unfold finalize_non_applied_attempt. tx_steps.
  apply twp_bind. eapply twp_mono; [apply update_started_twp| |done].
  intros _ db1 (row & Hrow & _ & ->). tx_steps.
  apply twp_bind. eapply twp_mono; [apply update_current_batch_twp| |done].
  intros _ db2 (b & Hb & ->).
  eapply twp_mono; [apply increment_final_twp| |done].
  intros _ db3 (daily & runc & Hd & Hr & ->). simpl in Hb, Hd, Hr.
  eexists (λ row, finished_attempt row _ _ _ _ _ _ _ _ _ _ _ _), _, _, _.
  split_and!; [done|done|done|by exists daily, runc|].
  unfold with_finished. rewrite (alter_insert_eq _ _ _ _ Hrow), (alter_insert_eq _ _ _ _ Hb). done.
Qed.

Lemma prune_twp t retain limit db :
  twp (prune_open_diagnostics_transaction t retain limit) db (λ _ db',
    db' = delete_attempts (list_to_set
            (candidate_attempts db t (Z.to_nat retain) (Z.to_nat limit))) db) (λ _, True).
Proof.
  unfold prune_open_diagnostics_transaction. tx_steps.
  repeat match goal with H : positive_u64_to_i64 _ _ = _ |- _ =>
    unfold positive_u64_to_i64 in H; case_bool_decide; [done|]; apply u64_to_i64_Ok in H as [-> _]
  end. done.
Qed.

(** The tables a commit leaves once it has pruned them. *)
Definition pruned (t : TermCampusKey) (db : OpenTables) : OpenTables :=
  delete_attempts (list_to_set
    (candidate_attempts db t (Z.to_nat OPEN_DIAGNOSTIC_RETENTION_PER_TARGET)
       (Z.to_nat OPEN_DIAGNOSTIC_PRUNE_ATTEMPTS_PER_COMMIT))) db.

Lemma prune_after_commit_twp t db :
  twp (prune_after_commit t) db (λ _ db', db' = pruned t db) (λ _, True).
Proof.
  unfold prune_after_commit. eapply twp_mono; [apply prune_twp| |done]. by intros _ db' ->.
Qed.

Section operations.
Context `{Rfc3339Api, TimeDateApi, Sha256Api}.

(** ** Beginning *)

(** The rows a new attempt adds. *)
Definition with_begun (command : BeginOpenPullAttemptCommand) (b : BatchRow)
    (row : AttemptRow) (sections : gset SectionIndex) (db : OpenTables) : OpenTables :=
  let t := bo_target command in
  with_counters t (bo_run_id command) (bo_rutgers_day command)
    (counters_plus (default no_attempts (db_daily db !! (t, bo_rutgers_day command))) attempted_once)
    (counters_plus (default no_attempts (db_run db !! (bo_run_id command, t))) attempted_once)
    (set_membership (<[bo_attempt_id command := sections]> (db_membership db))
       (set_attempts (<[bo_attempt_id command := row]> (db_attempts db))
          (set_batch (<[t := with_last_attempt command (at_attempt_sequence row) b]> (db_batch db)) db))).

Definition begun_sections (db : OpenTables) (command : BeginOpenPullAttemptCommand)
    (candidate : option CatalogCandidateOpenSnapshot) : gset SectionIndex :=
  match candidate with
  | Some candidate => staged_sections db (cc_observation_id candidate)
  | None => catalog_sections_at db (bo_target command) (bo_captured_catalog_content_version command)
  end.

(** A new attempt of a target: its sequence follows the last one. *)
Definition begun (command : BeginOpenPullAttemptCommand)
    (candidate : option CatalogCandidateOpenSnapshot) (n : Z) (db db' : OpenTables) : Prop :=
  ∃ b age base,
    b = default new_batch_row (db_batch db !! bo_target command) ∧
    n = bs_last_attempt_sequence b + 1 ∧ n ≤ i64_max ∧
    db_attempts db !! bo_attempt_id command = None ∧
    is_Some (db_catalog_targets db !! bo_target command) ∧
    started_attempts db (bo_target command) = [] ∧
    (∀ id other, db_attempts db !! id = Some other → at_target other = bo_target command →
       at_attempt_sequence other ≠ n) ∧
    fst <$> base = cc_observation_id <$> candidate ∧
    attempts_fit (bo_target command) (bo_run_id command) (bo_rutgers_day command) db ∧
    db' = with_begun command b (started_attempt command n age base)
            (begun_sections db command candidate) db.

Lemma insert_attempt_twp id row db :
  twp (insert_attempt id row) db (λ _ db',
    db' = set_attempts (<[id := row]> (db_attempts db)) db ∧
    db_attempts db !! id = None ∧ is_Some (db_catalog_targets db !! at_target row) ∧
    (at_classification row = OpenAttemptClassification_Started →
       started_attempts db (at_target row) = []) ∧
    (∀ id' other, db_attempts db !! id' = Some other → at_target other = at_target row →
       at_attempt_sequence other ≠ at_attempt_sequence row)) (λ _, True).
Proof.
  unfold insert_attempt. tx_steps.
  match goal with H : _ && _ = true |- _ => rename H into Hc end.
  rewrite !andb_true_iff, orb_true_iff, negb_true_iff, !bool_decide_eq_true, bool_decide_eq_false in Hc.
  destruct Hc as ((((Hnone & Huniq) & Hst) & Htgt) & _).
  split_and!; try done.
  - intros Hs. by destruct Hst.
  - intros id' other Ho Ht Hseq. by apply (Huniq _ _ Ho).
Qed.

(** INSERT OR IGNORE of the row of a target. *)
Lemma ensure_batch_row t db :
  ∃ m, match db_batch db !! t with
       | Some _ => db
       | None => set_batch (<[t := new_batch_row]> (db_batch db)) db
       end = set_batch m db ∧
    m !! t = Some (default new_batch_row (db_batch db !! t)) ∧
    ∀ b, <[t := b]> m = <[t := b]> (db_batch db).
Proof.
  destruct (db_batch db !! t) as [b|] eqn:Hb.
  - exists (db_batch db). split_and!; [by destruct db|done|done].
  - exists (<[t := new_batch_row]> (db_batch db)). split_and!; [done|by rewrite lookup_insert_eq|].
    intros b. by rewrite insert_insert_eq.
Qed.

Lemma begin_new_twp command candidate db :
  twp (begin_new command candidate) db (λ n db', begun command candidate n db db') (λ _, True).
Proof.
  unfold begin_new. tx_steps.
  destruct (ensure_batch_row (bo_target command) db) as (m & -> & Hm & Hins).
  apply twp_bind. eapply twp_mono; [apply load_batch_twp| |done]. intros b db2 [-> Hb].
  simpl in Hb. rewrite Hm in Hb. injection Hb as <-. clear Hm.
  set (b0 := default _ _). tx_steps.
  apply sql_add_Ok in Heqr0 as [-> Hle].
  apply twp_bind. eapply twp_mono; [apply insert_attempt_twp| |done].
  intros _ db3 (-> & Hnone & Htgt & Hst & Huniq). tx_steps. apply twp_bind.
  eapply twp_mono; [apply increment_attempted_twp| |done]. intros _ db4 [Hfit ->]. tx_steps.
  specialize (Hst eq_refl). simpl in Hnone, Htgt, Huniq. eexists b0, _, _. split_and!.
  1-7: done.
  2: exact Hfit.
  2: { simpl. unfold with_begun; simpl. rewrite Hins. by destruct candidate, db. }
  apply optional_u64_to_i64_Ok in Heqr1 as [-> _]. by destruct candidate.
Qed.

(** The same command again changes nothing. *)
Lemma begin_twp command candidate db :
  twp (begin_open_pull_attempt_with_catalog command candidate) db (λ n db',
    (db' = db ∧ ∃ row, db_attempts db !! bo_attempt_id command = Some row ∧
       at_attempt_sequence row = n ∧ same_command row command candidate = true) ∨
    (begun command candidate n db db' ∧
     (candidate = None → ct_current_content_version <$> db_catalog_targets db !! bo_target command
        = Some (bo_captured_catalog_content_version command))))
    (λ _, True).
Proof.
  unfold begin_open_pull_attempt_with_catalog. tx_steps. apply twp_bind.
  apply twp_mono with (λ v db', db' = db ∧ (candidate = None →
    ct_current_content_version <$> db_catalog_targets db !! bo_target command = Some v))
    (λ _, True); [| |done].
  { unfold begin_version. tx_steps. destruct candidate as [candidate|].
    - destruct (db_catalog_observations db !! _) as [row|]; [|done].
      case_bool_decide; [done|]. destruct (_ || _); [done|]. by apply twp_ret.
    - case_bool_decide as Hpos; [|done]. apply twp_ret. split; [done|]. intros _.
      by destruct (db_catalog_targets db !! bo_target command). }
  intros v db1 [-> Hv]. tx_steps. destruct (db_attempts db !! bo_attempt_id command) as [row|] eqn:Hrow.
  - apply twp_lift. unfold begin_existing. destruct (same_command row command candidate) eqn:Hsame; [|done].
    cbn [negb]. destruct (optional_u64_to_i64 _) as [base|] eqn:?; [|done]. cbn [mbind result_bind].
    case_bool_decide; [|done]. left. split; [done|]. by exists row.
  - destruct (head (started_attempts db (bo_target command))) as [[id row]|]; [done|].
    case_bool_decide as Hc; [done|].
    eapply twp_mono; [apply begin_new_twp| |done]. intros n db' Hn. right. split; [done|].
    intros Hnone. rewrite (Hv Hnone). by f_equal.
Qed.

(** ** Committing *)

(** The row an event of a commit is stored as. *)
Definition event_row (a : StartedOpenAttempt) (id refresh : TraceId)
    (states : gmap SectionIndex OpenSectionState) (n : Z) (completed : string)
    (r : EventRow) (e : OpenSectionEvent) : Prop :=
  states !! er_section_index r = Some (er_state r) ∧
  er_attempt_id r = id ∧ er_target r = sa_target a ∧ er_observation_sequence r = n ∧
  er_refresh_observation_id r = refresh ∧ er_observed_at r = completed ∧
  er_catalog_content_version r = sa_captured_catalog_content_version a ∧
  map_err StorageError_Identity
    (SectionKey_try_new (term_str (tck_term (sa_target a))) (campus_str (tck_campus (sa_target a)))
       (index_str (er_section_index r))) = Ok (ev_section e) ∧
  derive_open_section_observation_id id (ev_section e) = Ok (er_observation_id r) ∧
  ev_event_id e = er_event_id r ∧ ev_observation_id e = er_observation_id r ∧
  ev_refresh_observation_id e = refresh ∧ ev_attempt_id e = id ∧ ev_state e = er_state r ∧
  ev_catalog_content_version e = sa_captured_catalog_content_version a ∧
  ev_observation_sequence e = n ∧ ev_observed_at e = completed.

(** The rows of a loop over the watched sections follow the log. *)
Inductive event_log (last : Z) : list EventRow → Z → Prop :=
| event_log_nil : event_log last [] last
| event_log_cons r rows last' :
    er_event_id r = last + 1 → event_log (last + 1) rows last' → event_log last (r :: rows) last'.

Lemma insert_event_twp f db :
  twp (insert_event f) db (λ n db', n = db_last_event_id db + 1 ∧
    db' = set_events (db_events db ++ [f n]) n db) (λ _, True).
Proof.
  unfold insert_event. tx_steps. by apply sql_add_Ok in Heqr as [-> _].
Qed.

Lemma commit_section_events_twp a id refresh states n completed l db :
  twp (commit_section_events a id refresh states n completed l) db (λ evs db',
    ∃ rows last, db' = set_events (db_events db ++ rows) last db ∧
      er_section_index <$> rows = l ∧ event_log (db_last_event_id db) rows last ∧
      Forall2 (event_row a id refresh states n completed) rows evs) (λ _, True).
Proof.
  revert db. induction l as [|i l IH]; intros db; simpl.
  - apply twp_ret. exists [], (db_last_event_id db). split_and!; [|done|constructor|constructor].
    rewrite app_nil_r. by destruct db.
  - tx_steps. apply twp_bind. eapply twp_mono; [apply insert_event_twp| |done].
    intros k db1 [-> ->]. apply twp_bind. eapply twp_mono; [apply IH| |done].
    intros evs db2 (rows & last & -> & <- & Hlog & Hall). tx_steps.
    eexists (_ :: rows), last. split_and!.
    + simpl. by rewrite <-app_assoc.
    + done.
    + by constructor.
    + constructor; [|done]. unfold event_row; simpl. split_and!; try done.
      by destruct (states !! i) as [s|]; simplify_eq/=.
Qed.

(** The tables an applied response leaves, before they are pruned. *)
Definition with_applied (a : StartedOpenAttempt) (id : TraceId) (f : AttemptRow → AttemptRow)
    (ob : ObservationRow) (states : gmap SectionIndex OpenSectionState) (rows : list EventRow)
    (last : Z) (daily runc : OpenAttemptCounters) (db : OpenTables) : OpenTables :=
  let t := sa_target a in
  with_finished a id f
    (with_lkg id (ob_observation_sequence ob) (ob_catalog_content_version ob) (ob_observed_at ob)
       (ob_canonical_set_sha256 ob) (ob_state_sha256 ob)) daily runc
    (set_events (db_events db ++ rows) last
       (set_current (<[t := (λ state,
           {| cu_state := state;
              cu_catalog_content_version := ob_catalog_content_version ob;
              cu_attempt_id := id;
              cu_observation_sequence := ob_observation_sequence ob;
              cu_observed_at := ob_observed_at ob |}) <$> states]> (db_current db))
          (set_observations (<[id := ob]> (db_observations db)) db))).

(** An applied response: the observation that describes it and the events of
    the watched sections. *)
Definition applied (a : StartedOpenAttempt) (command : FinishOpenPullSuccessCommand)
    (c : OpenAttemptClassification) (response : CanonicalOpenResponse) (counts : ResponseCounts)
    (catalog : gset SectionIndex) (states : gmap SectionIndex OpenSectionState)
    (state_sha256 : string) (o : OpenCommitOutcome) (db db' : OpenTables) : Prop :=
  let t := sa_target a in let id := fs_attempt_id command in
  ∃ b f ob watched rows last daily runc commit,
    db_batch db !! t = Some b ∧
    not_applied c f ∧
    (∀ row, at_completed_at (f row) = Some (fs_completed_at command) ∧
       at_canonical_set_sha256 (f row) = Some (cr_canonical_set_sha256 response) ∧
       at_gate_catalog_set_identity (f row) = fs_gate_catalog_set_identity command) ∧
    ob_target ob = t ∧ ob_observation_sequence ob = bs_last_observation_sequence b + 1 ∧
    derive_open_refresh_observation_id id = Ok (ob_observation_id ob) ∧
    ob_catalog_content_version ob = sa_captured_catalog_content_version a ∧
    ob_observed_at ob = fs_completed_at command ∧
    ob_canonical_set_sha256 ob = cr_canonical_set_sha256 response ∧
    ob_state_sha256 ob = state_sha256 ∧ ob_classification ob = c ∧
    ob_changed_section_count ob = changed_state_count (cu_state <$> current_rows db t) states ∧
    db_observations db !! id = None ∧
    map_Forall (λ _ other, ob_observation_id other ≠ ob_observation_id ob ∧
      ¬ (ob_target other = t ∧ ob_observation_sequence other = ob_observation_sequence ob))
      (db_observations db) ∧
    canonicalize_watched_sections t (fs_watched_sections command) catalog = Ok watched ∧
    er_section_index <$> rows = bts_iter watched ∧
    event_log (db_last_event_id db) rows last ∧
    Forall2 (event_row a id (ob_observation_id ob) states (ob_observation_sequence ob)
               (fs_completed_at command)) rows (cm_section_events commit) ∧
    balanced_at a true (bool_decide (cr_canonical_indices response = ∅)) db daily runc ∧
    co_attempt_id o = id ∧ co_attempt_sequence o = sa_attempt_sequence a ∧
    co_classification o = c ∧ co_refresh_observation_id o = Some (ob_observation_id ob) ∧
    co_observation_sequence o = Some (ob_observation_sequence ob) ∧
    co_catalog_content_version o = sa_captured_catalog_content_version a ∧
    co_source_value_count o = cr_source_value_count response ∧
    co_duplicate_count o = cr_duplicate_count response ∧
    co_catalog_section_count o = rc_catalog_section_count counts ∧
    co_intersection_count o = rc_intersection_count counts ∧
    co_orphan_count o = rc_orphan_count counts ∧
    co_changed_section_count o = ob_changed_section_count ob ∧
    co_retained_lkg_attempt_id o = Some id ∧
    co_observation_commit o = Some commit ∧
    cm_rutgers_day commit = sa_rutgers_day a ∧
    sa_effective_interval_seconds a = Some (cm_effective_interval_seconds commit) ∧
    cm_run_counts commit = runc ∧ cm_target_day_counts commit = daily ∧
    db' = pruned t (with_applied a id f ob states rows last daily runc db).

Lemma insert_observation_twp id ob db :
  twp (insert_observation id ob) db (λ _ db', db' = set_observations (<[id := ob]> (db_observations db)) db ∧
    db_observations db !! id = None ∧
    map_Forall (λ _ other, ob_observation_id other ≠ ob_observation_id ob ∧
      ¬ (ob_target other = ob_target ob ∧ ob_observation_sequence other = ob_observation_sequence ob))
      (db_observations db)) (λ _, True).
Proof.
  unfold insert_observation. tx_steps.
  match goal with H : _ && _ = true |- _ => rename H into Hc end.
  rewrite !andb_true_iff, !bool_decide_eq_true in Hc.
  by destruct Hc as (((Hnone & _) & _) & Huniq).
Qed.

Lemma load_committed_twp t run day daily runc db :
  twp (load_committed_open_counters t run day) (with_counters t run day daily runc db)
    (λ c db', db' = with_counters t run day daily runc db ∧ c.1 = (runc, daily)) (λ _, True).
Proof.
  unfold load_committed_open_counters. tx_steps. split; [done|].
  unfold load_open_run_counters, load_open_day_counters. simpl. by rewrite !lookup_insert_eq.
Qed.

Lemma commit_applied_twp a command c response counts catalog states st bc sc db :
  twp (commit_applied a command c response counts catalog states st bc sc) db
    (λ o db', applied a command c response counts catalog states st o db db' ∧
       co_body_changed o = bc ∧ co_state_changed o = sc) (λ _, True).
Proof.
  unfold commit_applied. tx_steps. apply twp_bind.
  eapply twp_mono; [apply load_batch_twp| |done]. intros b db1 [-> Hb]. tx_steps.
  repeat match goal with
  | H : sql_add _ _ = Ok _ |- _ => apply sql_add_Ok in H as [-> _]
  | H : u64_to_i64 _ = Ok _ |- _ => apply u64_to_i64_Ok in H as [-> _]
  end.
  lazymatch goal with |- twp (mbind _ (insert_observation _ ?x)) _ _ _ => set (ob := x) end.
  apply twp_bind. eapply twp_mono; [apply insert_observation_twp| |done].
  intros _ db1 (-> & Hnone & Huniq). apply twp_bind. unfold replace_current. tx_steps. apply twp_bind.
  eapply twp_mono; [apply commit_section_events_twp| |done].
  intros evs db1 (rows & last & -> & Hidx & Hlog & Hall). simpl in Hlog. apply twp_bind.
  lazymatch goal with |- twp (update_started _ ?x) _ _ _ => set (f := x) end.
  eapply twp_mono; [apply update_started_twp| |done]. intros _ db1 (row & Hrow & _ & ->). simpl in Hrow.
  tx_steps. apply twp_bind. eapply twp_mono; [apply update_current_batch_twp| |done].
  intros _ db1 (b' & Hb' & ->). simpl in Hb'. assert (b' = b) as -> by congruence.
  apply twp_bind. eapply twp_mono; [apply increment_final_twp| |done].
  intros _ db1 (daily & runc & Hd & Hr & ->). simpl in Hd, Hr.
  set (once := finished_once _ _).
  apply twp_bind. eapply twp_mono; [apply load_committed_twp| |done].
  intros [? service] db1 [-> [= ->]]. apply twp_bind.
  eapply twp_mono; [apply prune_after_commit_twp| |done]. intros _ db1 ->. tx_steps.
  split; [|done].
  eexists b, f, ob, _, rows, last, (counters_plus daily once), (counters_plus runc once), _.
  split_and!; last first.
  { f_equal. unfold with_applied, with_finished; simpl.
    rewrite (alter_insert_eq _ _ _ _ Hrow), (alter_insert_eq _ _ _ _ Hb). reflexivity. }
  all: try reflexivity. all: try eassumption.
  all: first [done|by exists daily, runc|by simpl; eapply ok_or_Ok].
Qed.

(** The attempt a row describes. *)
Definition started_of (row : AttemptRow) : StartedOpenAttempt :=
  {| sa_target := at_target row; sa_run_id := at_run_id row;
     sa_attempt_sequence := at_attempt_sequence row; sa_rutgers_day := at_rutgers_day row;
     sa_captured_catalog_content_version := at_captured_catalog_content_version row;
     sa_started_at := at_started_at row;
     sa_effective_interval_seconds := at_effective_interval_seconds row;
     sa_candidate_catalog_observation_id := at_candidate_catalog_observation_id row;
     sa_candidate_base_content_version := at_candidate_base_content_version row |}.

(** The attempt a commit finishes: it is running, and the last of its target. *)
Definition running (id : TraceId) (row : AttemptRow) (b : BatchRow) (db : OpenTables) : Prop :=
  db_attempts db !! id = Some row ∧ is_Some (db_catalog_targets db !! at_target row) ∧
  at_classification row = OpenAttemptClassification_Started ∧
  db_batch db !! at_target row = Some b ∧
  bs_last_attempt_sequence b = at_attempt_sequence row ∧ bs_last_attempt_id b = Some id.

(** A response or a failure that is recorded without being applied. *)
Definition withheld (id : TraceId) (row : AttemptRow) (c : OpenAttemptClassification)
    (completed : string) (hash gate : option string) (empty : bool) (db db' : OpenTables) : Prop :=
  ∃ f failure daily runc, not_applied c f ∧
    (∀ row, at_completed_at (f row) = Some completed ∧ at_canonical_set_sha256 (f row) = hash ∧
       at_gate_catalog_set_identity (f row) = gate) ∧
    lf_attempt_sequence failure = at_attempt_sequence row ∧
    balanced_at (started_of row) false empty db daily runc ∧
    db' = pruned (at_target row)
            (with_finished (started_of row) id f (with_last_failure failure) daily runc db).

Lemma load_running_twp id db :
  twp (a ← load_started_open_attempt id; _ ← ensure_started_open_attempt_is_current a id; mret a) db
    (λ a db', db' = db ∧ ∃ row b, running id row b db ∧ a = started_of row) (λ _, True).
Proof.
  apply twp_bind. eapply twp_mono; [apply load_started_twp| |done].
  intros a db' (-> & row & Hrow & Ht & Hc & ->). apply twp_bind.
  eapply twp_mono; [apply ensure_current_twp| |done]. intros _ db' (-> & b & Hb & Hs & Hl). tx_steps.
  split; [done|]. by exists row, b.
Qed.

(** What committing a response does, by its classification. *)
Definition response_committed (command : FinishOpenPullSuccessCommand) (accept : bool)
    (o : OpenCommitOutcome) (db db' : OpenTables) : Prop :=
  let id := fs_attempt_id command in
  ∃ row b response v bc sc,
    running id row b db ∧
    canonicalize_open_response (at_target row) (fs_open_sections command)
      (fs_source_value_count command) = Ok response ∧
    ct_current_content_version <$> db_catalog_targets db !! at_target row = Some v ∧
    let a := started_of row in
    let catalog := load_attempt_catalog_indices db id in
    let counts := response_counts response catalog in
    let hash := Some (cr_canonical_set_sha256 response) in
    let empty := bool_decide (cr_canonical_indices response = ∅) in
    let current := bool_decide (v = at_captured_catalog_content_version row)
      || (accept && bool_decide (at_candidate_base_content_version row = Some v)) in
    let c := if current
             then classify_open_response (cr_canonical_indices response) catalog
                    (rc_intersection_count counts) (fs_gate_hold command)
             else OpenAttemptClassification_StaleCatalogRace in
    if is_success c then
      let states := intended_states catalog (cr_canonical_indices response) in
      applied a command c response counts catalog states
        (open_state_sha256_v1 (at_target row) states) o db db'
    else
      withheld id row c (fs_completed_at command) hash
        (if current then fs_gate_catalog_set_identity command else None) empty db db' ∧
      o = withheld_outcome id a c response counts bc sc (bs_lkg_attempt_id b).

Lemma load_current_catalog_version_twp t db :
  twp (load_current_catalog_version t) db (λ v db', db' = db ∧
    ct_current_content_version <$> db_catalog_targets db !! t = Some v) (λ _, True).
Proof.
  unfold load_current_catalog_version. tx_steps.
  destruct (db_catalog_targets db !! t) as [row|]; [|done]. simpl. case_bool_decide; [|done].
  by apply twp_ret.
Qed.

Lemma twp_bind2 {A B} (m : Tx A) (k : A → Tx ()) (f : A → Tx B) db Q R :
  twp (a ← m; _ ← k a; mret a) db (λ a db', twp (f a) db' Q R) R →
  twp (a ← m; _ ← k a; f a) db Q R.
Proof.
  unfold twp, mbind, tx_bind, mret, tx_ret. destruct (m db) as [[[a db1]|e]|]; [|done|done].
  by destruct (k a db1) as [[[[] db2]|e]|].
Qed.

Lemma classify_unsafe_code canonical catalog n hold :
  is_success (classify_open_response canonical catalog n hold) = false →
  is_Some (unsafe_error_code (classify_open_response canonical catalog n hold)).
Proof.
  unfold classify_open_response. repeat case_match; simpl; eauto; done.
Qed.

Lemma finish_success_twp command accept db :
  twp (finish_open_pull_success_transaction command accept) db
    (λ o db', response_committed command accept o db db') (λ _, True).
Proof.
  unfold finish_open_pull_success_transaction. tx_steps. apply twp_bind2.
  eapply twp_mono; [apply load_running_twp| |done]. intros att db' (-> & row & b & Hrun & ->).
  pose proof Hrun as (_ & _ & _ & Hb & _). tx_steps. apply twp_bind.
  eapply twp_mono; [apply load_batch_twp| |done]. intros b' db' [-> Hb'].
  simpl in Hb'. assert (b' = b) as -> by congruence. apply twp_bind.
  eapply twp_mono; [apply load_current_catalog_version_twp| |done]. intros v db' [-> Hv]. tx_steps.
  match goal with H : canonicalize_open_response _ _ _ = Ok ?r |- _ =>
    rename H into Hresp; rename r into response end.
  set (a' := started_of row).
  change (sa_target a') with (at_target row) in *.
  change (sa_captured_catalog_content_version a') with (at_captured_catalog_content_version row).
  change (sa_candidate_base_content_version a') with (at_candidate_base_content_version row).
  set (current := bool_decide (v = at_captured_catalog_content_version row)
    || (accept && bool_decide (at_candidate_base_content_version row = Some v))).
  replace (_ && _) with (negb current)
    by (unfold current; rewrite bool_decide_not; by destruct (bool_decide _), (accept && _)).
  set (catalog := load_attempt_catalog_indices db (fs_attempt_id command)).
  set (counts := response_counts response catalog).
  destruct current eqn:Hcur; cbn [negb].
  - set (c := classify_open_response _ _ _ _).
    destruct (is_success c) eqn:Hc; cbn [negb].
    + eapply twp_mono; [apply commit_applied_twp| |done].
      intros o db' [Happ _]. exists row, b, response, v, false, false.
      split_and!; [done|done|done|]. cbv zeta. fold current. rewrite Hcur. fold catalog counts c.
      by rewrite Hc.
    + destruct (classify_unsafe_code _ _ _ _ Hc) as [code Hcode]. fold c in Hcode.
      rewrite Hcode. apply twp_bind.
      eapply twp_mono; [apply finalize_twp| |done].
      intros _ db1 (f & failure & daily & runc & Hf & Hfr & Hfail & Hbal & ->). apply twp_bind.
      eapply twp_mono; [apply prune_after_commit_twp| |done]. intros _ db2 ->. tx_steps.
      eexists row, b, response, v, _, _. split_and!; [done|done|done|]. cbv zeta. fold current.
      rewrite Hcur. fold catalog counts c. rewrite Hc. split; [|done].
      exists f, failure, daily, runc. split_and!; try done; [|by rewrite Hfail].
    by intros r; destruct (Hfr r) as (? & ? & ? & _).
  - apply twp_bind. eapply twp_mono; [apply finalize_twp| |done].
    intros _ db1 (f & failure & daily & runc & Hf & Hfr & Hfail & Hbal & ->). apply twp_bind.
    eapply twp_mono; [apply prune_after_commit_twp| |done]. intros _ db2 ->. tx_steps.
    eexists row, b, response, v, _, _. split_and!; [done|done|done|]. cbv zeta. fold current. rewrite Hcur.
    split; [|done].
    exists f, failure, daily, runc. split_and!; try done; [|by rewrite Hfail].
    by intros r; destruct (Hfr r) as (? & ? & ? & _).
Qed.


(** What recording a failure does. *)
Definition failure_committed (command : FinishOpenPullFailureCommand)
    (o : OpenCommitOutcome) (db db' : OpenTables) : Prop :=
  let id := ff_attempt_id command in
  ∃ row b, running id row b db ∧
    withheld id row OpenAttemptClassification_Failed (ff_completed_at command) None None false db db' ∧
    co_attempt_id o = id ∧ co_attempt_sequence o = at_attempt_sequence row ∧
    co_classification o = OpenAttemptClassification_Failed ∧
    co_observation_sequence o = None ∧ co_observation_commit o = None ∧
    co_retained_lkg_attempt_id o = bs_lkg_attempt_id b.

Lemma finish_failure_twp command db :
  twp (finish_open_pull_failure_transaction command) db
    (λ o db', failure_committed command o db db') (λ _, True).
Proof.
  unfold finish_open_pull_failure_transaction. tx_steps. apply twp_bind2.
  eapply twp_mono; [apply load_running_twp| |done]. intros att db' (-> & row & b & Hrun & ->).
  pose proof Hrun as (_ & _ & _ & Hb & _). tx_steps. apply twp_bind.
  eapply twp_mono; [apply finalize_twp| |done].
  intros _ db1 (f & failure & daily & runc & Hf & Hfr & Hfail & Hbal & ->). tx_steps. apply twp_bind.
  lazymatch goal with |- twp _ (set_attempts (alter ?x _ _) _) _ _ => set (g := x) end.
  eapply twp_mono; [apply prune_after_commit_twp| |done]. intros _ db2 ->. tx_steps.
  exists row, b. split_and!; try done.
  - exists (λ row, g (f row)), failure, daily, runc. split_and!; try done.
    + by intros r; destruct (Hfr r) as (? & ? & ? & _).
    + by rewrite Hfail.
    + f_equal. unfold with_finished; simpl. by rewrite alter_alter_eq.
  - simpl. by rewrite Hb.
Qed.
End operations.
