(* ===== verification/OpenStoreFacts.v ===== *)
(** * Theorems on the Open storage

    The invariant of the tables, kept by every operation, and what the commits,
    the recovery and the pruning do to what is served. *)

From S2P Require Import Prelude Ordering Identity Contracts RustStr Reconcile OpenClient.
From S2P Require Import OpenStore OpenService OpenTables OpenCommands OpenTransactions OpenTxFacts.

(** ** The invariant *)

Definition is_started (row : AttemptRow) : Prop :=
  at_classification row = OpenAttemptClassification_Started.

Definition counters_wf (c : OpenAttemptCounters) : Prop :=
  0 ≤ ac_attempted c ∧ 0 ≤ ac_succeeded c ∧ 0 ≤ ac_failed c ∧ 0 ≤ ac_empty c
  ∧ ac_empty c ≤ ac_succeeded c + ac_failed c ∧ ac_attempted c ≤ i64_max.

(** The attempts counted that are not finished. *)
Definition unfinished (c : OpenAttemptCounters) : Z :=
  ac_attempted c - ac_succeeded c - ac_failed c.

Section invariant.
Context `{Sha256Api}.

(** What is served for a target is the last known good observation: its
    sequence, digests and catalog version are those of the row of the target,
    and its state of every section the attempt was begun for is current. *)
Definition serves (db : OpenTables) (t : TermCampusKey) (b : BatchRow) (ob : ObservationRow)
    (id : TraceId) : Prop :=
  db_observations db !! id = Some ob ∧ ob_target ob = t ∧
  ob_observation_sequence ob = bs_last_observation_sequence b ∧
  bs_lkg_observation_sequence b = Some (ob_observation_sequence ob) ∧
  bs_lkg_observed_at b = Some (ob_observed_at ob) ∧
  bs_lkg_canonical_set_sha256 b = Some (ob_canonical_set_sha256 ob) ∧
  bs_lkg_state_sha256 b = Some (ob_state_sha256 ob) ∧
  bs_current_catalog_content_version b = ob_catalog_content_version ob ∧
  ob_state_sha256 ob = open_state_sha256_v1 t (cu_state <$> current_rows db t) ∧
  dom (current_rows db t) = load_attempt_catalog_indices db id ∧
  ∀ i c, current_rows db t !! i = Some c →
    cu_attempt_id c = id ∧ cu_observation_sequence c = ob_observation_sequence ob ∧
    cu_catalog_content_version c = ob_catalog_content_version ob ∧
    cu_observed_at c = ob_observed_at ob.

Definition lkg_wf (db : OpenTables) (t : TermCampusKey) (b : BatchRow) : Prop :=
  match bs_lkg_attempt_id b with
  | None => current_rows db t = ∅ ∧ bs_last_observation_sequence b = 0 ∧
      bs_lkg_canonical_set_sha256 b = None ∧ bs_lkg_state_sha256 b = None
  | Some id => ∃ ob, serves db t b ob id
  end.

(** The attempts of a target are numbered, and only its last one runs, for the
    sections its catalog version has. *)
Record attempts_wf (db : OpenTables) : Prop := {
  wf_attempt id row : db_attempts db !! id = Some row →
    ∃ b, db_batch db !! at_target row = Some b ∧
      0 < at_attempt_sequence row ≤ bs_last_attempt_sequence b;
  wf_sequence id id' row row' : db_attempts db !! id = Some row → db_attempts db !! id' = Some row' →
    at_target row = at_target row' → at_attempt_sequence row = at_attempt_sequence row' → id = id';
  wf_started id row : db_attempts db !! id = Some row → is_started row → ∃ b, running id row b db;
  wf_captured id row : db_attempts db !! id = Some row → is_started row →
    at_candidate_catalog_observation_id row = None →
    ∃ v, ct_current_content_version <$> db_catalog_targets db !! at_target row = Some v ∧
      at_captured_catalog_content_version row ≤ v ∧
      (v = at_captured_catalog_content_version row →
       load_attempt_catalog_indices db id = catalog_sections_at db (at_target row) v)
}.

(** The counters of a day and of a run account for every attempt: all are
    finished but one, if one is running. *)
Record tally_wf (db : OpenTables) : Prop := {
  wf_counted id row : db_attempts db !! id = Some row → is_started row →
    (∃ c, db_daily db !! (at_target row, at_rutgers_day row) = Some c ∧ unfinished c = 1) ∧
    (∃ c, db_run db !! (at_run_id row, at_target row) = Some c ∧ unfinished c = 1);
  wf_daily t day c : db_daily db !! (t, day) = Some c → counters_wf c ∧
    ((∀ id row, db_attempts db !! id = Some row → is_started row → at_target row = t →
        at_rutgers_day row ≠ day) → unfinished c = 0);
  wf_run t run c : db_run db !! (run, t) = Some c → counters_wf c ∧
    ((∀ id row, db_attempts db !! id = Some row → is_started row → at_target row = t →
        at_run_id row ≠ run) → unfinished c = 0)
}.

(** Observations belong to applied attempts and are numbered; the last one of a
    target is the one it serves. *)
Record serving_wf (db : OpenTables) : Prop := {
  wf_batch t b : db_batch db !! t = Some b →
    0 ≤ bs_last_attempt_sequence b ∧ 0 ≤ bs_last_observation_sequence b ∧ lkg_wf db t b;
  wf_unserved t : db_batch db !! t = None → current_rows db t = ∅;
  wf_observation id ob : db_observations db !! id = Some ob →
    (∃ row, db_attempts db !! id = Some row ∧ at_target row = ob_target ob ∧
       is_success (at_classification row) = true) ∧
    (∃ b, db_batch db !! ob_target ob = Some b ∧
       0 < ob_observation_sequence ob ≤ bs_last_observation_sequence b) ∧
    derive_open_refresh_observation_id id = Ok (ob_observation_id ob);
  wf_observed id id' ob ob' : db_observations db !! id = Some ob → db_observations db !! id' = Some ob' →
    ob_target ob = ob_target ob' → ob_observation_sequence ob = ob_observation_sequence ob' → id = id'
}.

(** The event log is ordered and its events belong to observations. *)
Record log_wf (db : OpenTables) : Prop := {
  wf_event e : e ∈ db_events db → er_event_id e ≤ db_last_event_id db ∧
    ∃ ob, db_observations db !! er_attempt_id e = Some ob ∧ ob_target ob = er_target e ∧
      ob_observation_sequence ob = er_observation_sequence e;
  wf_log : StronglySorted (λ e e', er_event_id e < er_event_id e') (db_events db)
}.

Record tables_wf (db : OpenTables) : Prop := {
  tables_attempts :> attempts_wf db;
  tables_tally :> tally_wf db;
  tables_serving :> serving_wf db;
  tables_log :> log_wf db
}.

(** ** A target has at most one running attempt *)

Lemma started_attempts_nil db t :
  started_attempts db t = [] ↔
  ∀ id row, db_attempts db !! id = Some row → at_target row = t → ¬ is_started row.
Proof.
  unfold started_attempts. split.
  - intros Hnil id row Hrow Ht Hs.
    assert ((id, row) ∈ []) as []%elem_of_nil.
    rewrite <-Hnil. apply list_elem_of_filter. split; [done|]. by apply elem_of_map_to_list.
  - intros Hall. apply filter_none. intros [id row] Hin%elem_of_map_to_list [Ht Hs].
    by eapply Hall.
Qed.

Lemma started_unique db id id' row row' :
  tables_wf db → db_attempts db !! id = Some row → db_attempts db !! id' = Some row' →
  is_started row → is_started row' → at_target row = at_target row' → id = id'.
Proof.
  intros Hwf Hid Hid' Hs Hs' Ht.
  destruct (wf_started _ Hwf _ _ Hid Hs) as (b & _ & _ & _ & Hb & _ & Hl).
  destruct (wf_started _ Hwf _ _ Hid' Hs') as (b' & _ & _ & _ & Hb' & _ & Hl').
  rewrite Ht in Hb. congruence.
Qed.

(** ** Beginning *)

Lemma counters_begun row :
  ac_attempted (default no_attempts row) + 1 ≤ i64_max →
  (∀ c, row = Some c → counters_wf c ∧ unfinished c = 0) →
  counters_wf (counters_plus (default no_attempts row) attempted_once)
  ∧ unfinished (counters_plus (default no_attempts row) attempted_once) = 1.
Proof.
  intros Hfit Hc. unfold counters_wf, unfinished in *. destruct row as [c|]; simpl in *; [|lia].
  destruct (Hc c eq_refl). lia.
Qed.

Lemma lkg_wf_new db t : current_rows db t = ∅ → lkg_wf db t new_batch_row.
Proof. done. Qed.

(** What the invariant says of the last known good observation only depends on
    the observations, the current states and the memberships. *)
Lemma lkg_wf_mono db db' t b b' :
  bs_lkg_attempt_id b' = bs_lkg_attempt_id b →
  bs_lkg_observation_sequence b' = bs_lkg_observation_sequence b →
  bs_lkg_observed_at b' = bs_lkg_observed_at b →
  bs_lkg_canonical_set_sha256 b' = bs_lkg_canonical_set_sha256 b →
  bs_lkg_state_sha256 b' = bs_lkg_state_sha256 b →
  bs_current_catalog_content_version b' = bs_current_catalog_content_version b →
  bs_last_observation_sequence b' = bs_last_observation_sequence b →
  current_rows db' t = current_rows db t →
  (∀ id ob, bs_lkg_attempt_id b = Some id → db_observations db !! id = Some ob →
     db_observations db' !! id = Some ob ∧
     load_attempt_catalog_indices db' id = load_attempt_catalog_indices db id) →
  lkg_wf db t b → lkg_wf db' t b'.
Proof.
  intros H1 H2 H3 H4 H5 H6 H7 Hcur Hob. unfold lkg_wf, serves. rewrite H1, H2, H3, H4, H5, H6, H7, Hcur.
  destruct (bs_lkg_attempt_id b) as [id|]; [|done]. intros (ob & Ho & Hrest). exists ob.
  destruct (Hob id ob eq_refl Ho) as [Ho' ->]. by split.
Qed.

Section begun.
Context (command : BeginOpenPullAttemptCommand) (candidate : option CatalogCandidateOpenSnapshot).
Context (db : OpenTables) (b : BatchRow) (age : option Z) (base : option (TraceId * Z)).
Local Abbreviation t := (bo_target command) (only parsing).
Local Abbreviation id := (bo_attempt_id command) (only parsing).
Local Abbreviation n := (bs_last_attempt_sequence b + 1) (only parsing).
Local Abbreviation db' := (with_begun command b (started_attempt command n age base)
                             (begun_sections db command candidate) db) (only parsing).
Context (Hwf : tables_wf db) (Hb : b = default new_batch_row (db_batch db !! t)).
Context (Hnone : db_attempts db !! id = None) (Htgt : is_Some (db_catalog_targets db !! t)).
Context (Hst : ∀ id' row, db_attempts db !! id' = Some row → at_target row = t → ¬ is_started row).
Context (Hfit : attempts_fit t (bo_run_id command) (bo_rutgers_day command) db).
Context (Hver : candidate = None → ct_current_content_version <$> db_catalog_targets db !! t
  = Some (bo_captured_catalog_content_version command)).
Context (Hbase : fst <$> base = cc_observation_id <$> candidate).

#[local] Lemma begun_batch :
  0 ≤ bs_last_attempt_sequence b ∧ 0 ≤ bs_last_observation_sequence b ∧ lkg_wf db t b.
Proof.
  destruct (db_batch db !! t) as [b'|] eqn:Hbt; simpl in Hb; subst b.
  - by apply (wf_batch _ Hwf).
  - split_and!; [done..|]. by apply lkg_wf_new, (wf_unserved _ Hwf).
Qed.

#[local] Lemma begun_le id' row :
  db_attempts db !! id' = Some row → at_target row = t →
  at_attempt_sequence row ≤ bs_last_attempt_sequence b.
Proof.
  intros Hrow Ht. destruct (wf_attempt _ Hwf _ _ Hrow) as (b' & Hb' & Hle).
  rewrite Ht in Hb'. rewrite Hb' in Hb. simpl in Hb. subst. lia.
Qed.

#[local] Lemma begun_fresh id' ob : db_observations db !! id' = Some ob → id' ≠ id.
Proof.
  intros Hob ->. destruct (wf_observation _ Hwf _ _ Hob) as ((row & Hrow & _) & _). congruence.
Qed.

#[local] Lemma begun_membership id' :
  id' ≠ id → load_attempt_catalog_indices db' id' = load_attempt_catalog_indices db id'.
Proof. intros Hne. unfold load_attempt_catalog_indices; simpl. by rewrite lookup_insert_ne. Qed.

Lemma begun_attempts_wf : attempts_wf db'.
Proof.
  pose proof begun_batch as (Hb0 & _). pose proof begun_le as Hle. split; simpl.
  - intros id' row [[<- <-]|[Hne Hrow]]%lookup_insert_Some; simpl.
    + exists (with_last_attempt command n b). rewrite lookup_insert_eq. simpl. split; [done|lia].
    + destruct (wf_attempt _ Hwf _ _ Hrow) as (b' & Hb' & Hseq).
      destruct (decide (t = at_target row)) as [Ht|Ht].
      * exists (with_last_attempt command n b). rewrite <-Ht, lookup_insert_eq. split; [done|]. simpl.
        specialize (Hle _ _ Hrow (eq_sym Ht)). lia.
      * exists b'. by rewrite lookup_insert_ne.
  - intros id1 id2 row1 row2 [[<- <-]|[Hne Hr1]]%lookup_insert_Some
      [[<- <-]|[Hne' Hr2]]%lookup_insert_Some; simpl; intros Ht Hs.
    + done.
    + specialize (Hle _ _ Hr2 (eq_sym Ht)). lia.
    + specialize (Hle _ _ Hr1 Ht). lia.
    + by eapply (wf_sequence _ Hwf).
  - intros id' row [[<- <-]|[Hne Hrow]]%lookup_insert_Some Hs.
    + exists (with_last_attempt command n b). split_and!; simpl; [by rewrite lookup_insert_eq|done|done| |done|done].
      by rewrite lookup_insert_eq.
    + destruct (wf_started _ Hwf _ _ Hrow Hs) as (b' & _ & Htg & _ & Hb' & Hls & Hl).
      assert (t ≠ at_target row) as Ht by (intros Ht; by eapply Hst).
      exists b'. split_and!; simpl; [by rewrite lookup_insert_ne|done|done| |done|done].
      by rewrite lookup_insert_ne.
  - intros id' row [[<- <-]|[Hne Hrow]]%lookup_insert_Some Hs; simpl.
    + unfold load_attempt_catalog_indices; simpl. rewrite lookup_insert_eq. simpl. intros Hcand.
      destruct candidate; [by destruct base|]. eexists. split_and!; [by apply Hver|done|done].
    + unfold load_attempt_catalog_indices; simpl. rewrite lookup_insert_ne by done.
      by apply (wf_captured _ Hwf).
Qed.

Lemma begun_tally_wf : tally_wf db'.
Proof.
  split; simpl.
  - intros id' row [[<- <-]|[Hne Hrow]]%lookup_insert_Some Hs; simpl.
    + rewrite !lookup_insert_eq. split; (eexists; split; [done|]); (apply counters_begun; [apply Hfit|]).
      * intros c Hc. destruct (wf_daily _ Hwf _ _ _ Hc) as [Hcw Hz]. split; [done|]. apply Hz.
        intros id' row Hrow Hs' Ht. by eapply Hst in Hrow.
      * intros c Hc. destruct (wf_run _ Hwf _ _ _ Hc) as [Hcw Hz]. split; [done|]. apply Hz.
        intros id' row Hrow Hs' Ht. by eapply Hst in Hrow.
    + assert (t ≠ at_target row) as Ht by (intros Ht; by eapply Hst).
      rewrite !lookup_insert_ne by congruence. by apply (wf_counted _ Hwf _ _ Hrow).
  - intros t' day c [[[= <- <-] <-]|[Hne Hc]]%lookup_insert_Some.
    + split.
      * apply counters_begun; [apply Hfit|]. intros c Hc. destruct (wf_daily _ Hwf _ _ _ Hc) as [Hcw Hz].
        split; [done|]. apply Hz. intros id' row Hrow Hs' Ht. by eapply Hst in Hrow.
      * intros Hall. by edestruct (Hall id); [by rewrite lookup_insert_eq|..].
    + destruct (wf_daily _ Hwf _ _ _ Hc) as [Hcw Hz]. split; [done|]. intros Hall. apply Hz.
      intros id' row Hrow. apply (Hall id'). rewrite lookup_insert_ne; [done|congruence].
  - intros t' run c [[[= <- <-] <-]|[Hne Hc]]%lookup_insert_Some.
    + split.
      * apply counters_begun; [apply Hfit|]. intros c Hc. destruct (wf_run _ Hwf _ _ _ Hc) as [Hcw Hz].
        split; [done|]. apply Hz. intros id' row Hrow Hs' Ht. by eapply Hst in Hrow.
      * intros Hall. by edestruct (Hall id); [by rewrite lookup_insert_eq|..].
    + destruct (wf_run _ Hwf _ _ _ Hc) as [Hcw Hz]. split; [done|]. intros Hall. apply Hz.
      intros id' row Hrow. apply (Hall id'). rewrite lookup_insert_ne; [done|congruence].
Qed.

Lemma begun_lkg_wf t' b' b'' :
  lkg_wf db t' b' → bs_lkg_attempt_id b'' = bs_lkg_attempt_id b' →
  bs_lkg_observation_sequence b'' = bs_lkg_observation_sequence b' →
  bs_lkg_observed_at b'' = bs_lkg_observed_at b' →
  bs_lkg_canonical_set_sha256 b'' = bs_lkg_canonical_set_sha256 b' →
  bs_lkg_state_sha256 b'' = bs_lkg_state_sha256 b' →
  bs_current_catalog_content_version b'' = bs_current_catalog_content_version b' →
  bs_last_observation_sequence b'' = bs_last_observation_sequence b' →
  lkg_wf db' t' b''.
Proof.
  intros Hl ???????. eapply lkg_wf_mono with (db := db) (b := b'); try done.
  intros id' ob _ Hob. split; [done|]. by apply begun_membership, begun_fresh with ob.
Qed.

Lemma begun_serving_wf : serving_wf db'.
Proof.
  pose proof begun_batch as (Hb0 & Hb1 & Hb2). pose proof begun_fresh as Hobs. split; simpl.
  - intros t' b' [[<- <-]|[Hne Hb']]%lookup_insert_Some; simpl.
    + split_and!; [lia|done|]. by apply (begun_lkg_wf _ b).
    + destruct (wf_batch _ Hwf _ _ Hb') as (? & ? & Hl). split_and!; [done|done|]. by apply (begun_lkg_wf _ b').
  - intros t' [Hne Hb']%lookup_insert_None. by apply (wf_unserved _ Hwf).
  - intros id' ob Hob. destruct (wf_observation _ Hwf _ _ Hob) as ((row & Hrow & Ht & Hsuc) & (b' & Hb' & Hs) & Hd).
    split_and!; [| |done].
    + exists row. rewrite lookup_insert_ne; [done|]. intros <-. by eapply Hobs.
    + destruct (decide (t = ob_target ob)) as [Ht'|Ht'].
      * exists (with_last_attempt command n b). rewrite <-Ht', lookup_insert_eq. split; [done|]. simpl.
        rewrite <-Ht' in Hb'. rewrite Hb' in Hb. simpl in Hb. by subst.
      * exists b'. by rewrite lookup_insert_ne.
  - apply (wf_observed _ Hwf).
Qed.
End begun.

Lemma begun_wf command candidate n db db' :
  tables_wf db → begun command candidate n db db' →
  (candidate = None → ct_current_content_version <$> db_catalog_targets db !! bo_target command
     = Some (bo_captured_catalog_content_version command)) →
  tables_wf db'.
Proof.
  intros Hwf (b & age & base & Hb & -> & _ & Hnone & Htgt & Hst & _ & Hbase & Hfit & ->) Hver.
  rewrite started_attempts_nil in Hst. split.
  - by apply begun_attempts_wf.
  - by apply begun_tally_wf.
  - by apply begun_serving_wf.
  - split; [apply (wf_event _ Hwf)|apply (wf_log _ Hwf)].
Qed.

(** ** Finishing *)

(** The row of an attempt and of its target, when the attempt ends. *)
Definition finishing (c : OpenAttemptClassification) (f : AttemptRow → AttemptRow)
    (g : BatchRow → BatchRow) : Prop :=
  not_applied c f ∧ c ≠ OpenAttemptClassification_Started ∧
  ∀ b, bs_last_attempt_sequence (g b) = bs_last_attempt_sequence b ∧
       bs_last_attempt_id (g b) = bs_last_attempt_id b.

Lemma finished_counters succeeded empty c0 :
  counters_wf c0 → unfinished c0 = 1 →
  counters_wf (counters_plus c0 (finished_once succeeded empty))
  ∧ unfinished (counters_plus c0 (finished_once succeeded empty)) = 0.
Proof. unfold counters_wf, unfinished. destruct succeeded, empty; simpl; lia. Qed.

Section finished.
Context (id : TraceId) (row : AttemptRow) (b : BatchRow) (db : OpenTables).
Context (c : OpenAttemptClassification) (f : AttemptRow → AttemptRow) (g : BatchRow → BatchRow).
Context (succeeded empty : bool) (daily runc : OpenAttemptCounters).
Local Abbreviation t := (at_target row) (only parsing).
Local Abbreviation db' := (with_finished (started_of row) id f g daily runc db) (only parsing).
Context (Hrun : running id row b db) (Hfg : finishing c f g).
Context (Hbal : balanced_at (started_of row) succeeded empty db daily runc).

#[local] Lemma finished_started id' row' :
  alter f id (db_attempts db) !! id' = Some row' → is_started row' →
  id' ≠ id ∧ db_attempts db !! id' = Some row'.
Proof.
  intros [(<- & r & Hr & ->)|[Hne Hr]]%lookup_alter_Some Hs; [|done].
  destruct Hfg as (Hf & Hc & _). destruct (Hf r) as (_ & _ & _ & _ & Hcl & _).
  unfold is_started in Hs. congruence.
Qed.

Lemma finished_attempts_wf : attempts_wf db → attempts_wf db'.
Proof.
  intros Hwf. destruct Hfg as (Hf & Hc & Hg). destruct Hrun as (Hid & _ & Hs & Hb & Hseq & Hlast).
  assert (∀ id1 row1, alter f id (db_attempts db) !! id1 = Some row1 → ∃ row0,
    db_attempts db !! id1 = Some row0 ∧ at_target row1 = at_target row0 ∧
    at_attempt_sequence row1 = at_attempt_sequence row0) as Hback.
  { intros id1 row1 [(<- & r & Hr & ->)|[Hne Hr]]%lookup_alter_Some; [|by exists row1].
    exists r. by destruct (Hf r) as (? & ? & _). }
  split; simpl.
  - intros id1 row1 (row0 & Hr0 & -> & ->)%Hback.
    destruct (wf_attempt _ Hwf _ _ Hr0) as (b1 & Hb1 & Hle).
    destruct (decide (t = at_target row0)) as [Ht|Ht].
    + exists (g b1). rewrite <-Ht, lookup_alter_eq, Ht, Hb1. split; [done|]. by destruct (Hg b1) as [-> _].
    + exists b1. by rewrite lookup_alter_ne.
  - intros id1 id2 row1 row2 (r1 & Hr1 & -> & ->)%Hback (r2 & Hr2 & -> & ->)%Hback.
    by apply (wf_sequence _ Hwf).
  - intros id1 row1 Hr1 Hs1. destruct (finished_started _ _ Hr1 Hs1) as [Hne Hr0].
    destruct (wf_started _ Hwf _ _ Hr0 Hs1) as (b1 & _ & Ht1 & _ & Hb1 & Hseq1 & Hlast1).
    assert (t ≠ at_target row1) as Ht by (intros Ht; rewrite <-Ht in Hb1; congruence).
    exists b1. split_and!; simpl; [done..| |done|done]. by rewrite lookup_alter_ne.
  - intros id1 row1 Hr1 Hs1. destruct (finished_started _ _ Hr1 Hs1) as [Hne Hr0].
    by apply (wf_captured _ Hwf).
Qed.

Lemma finished_tally_wf : attempts_wf db → tally_wf db → tally_wf db'.
Proof.
  intros Hwa Hwt. destruct Hrun as (Hid & _ & Hs & Hb & Hseq & Hlast).
  destruct Hbal as (d0 & r0 & Hd & Hr & Hd' & Hr'). simpl in Hd, Hr.
  destruct (wf_counted _ Hwt _ _ Hid Hs) as ((? & Hd1 & Hu1) & (? & Hr1 & Hu2)). simplify_eq.
  assert (∀ id1 row1, id1 ≠ id → db_attempts db !! id1 = Some row1 → is_started row1 →
    t ≠ at_target row1) as Hother.
  { intros id1 row1 Hne Hr0 Hs1 Ht.
    destruct (wf_started _ Hwa _ _ Hr0 Hs1) as (b1 & _ & _ & _ & Hb1 & _ & Hlast1).
    rewrite <-Ht in Hb1. congruence. }
  assert (∀ id1 row1, db_attempts db !! id1 = Some row1 → is_started row1 → id1 ≠ id →
    alter f id (db_attempts db) !! id1 = Some row1) as Hkeep.
  { intros. by rewrite lookup_alter_ne. }
  split; simpl.
  - intros id1 row1 Hr0 Hs1. destruct (finished_started _ _ Hr0 Hs1) as [Hne Hr0'].
    specialize (Hother _ _ Hne Hr0' Hs1). rewrite !lookup_insert_ne by congruence.
    by apply (wf_counted _ Hwt _ _ Hr0').
  - intros t1 day c1 [[[= <- <-] <-]|[Hne Hc1]]%lookup_insert_Some.
    + destruct (wf_daily _ Hwt _ _ _ Hd) as [Hcw _].
      destruct (finished_counters succeeded empty _ Hcw Hu1). by split.
    + destruct (wf_daily _ Hwt _ _ _ Hc1) as [Hcw Hz]. split; [done|]. intros Hall. apply Hz.
      intros id1 row1 Hr0 Hs1 Ht1. destruct (decide (id1 = id)) as [->|Hn]; [congruence|].
      by apply (Hall id1 row1); [apply Hkeep|..].
  - intros t1 run c1 [[[= <- <-] <-]|[Hne Hc1]]%lookup_insert_Some.
    + destruct (wf_run _ Hwt _ _ _ Hr) as [Hcw _]. destruct (finished_counters succeeded empty _ Hcw Hu2). by split.
    + destruct (wf_run _ Hwt _ _ _ Hc1) as [Hcw Hz]. split; [done|]. intros Hall. apply Hz.
      intros id1 row1 Hr0 Hs1 Ht1. destruct (decide (id1 = id)) as [->|Hn]; [congruence|].
      by apply (Hall id1 row1); [apply Hkeep|..].
Qed.

(** An attempt that is not applied leaves what is served. *)
Lemma finished_serving_wf failure :
  g = with_last_failure failure → serving_wf db → serving_wf db'.
Proof.
  intros Hg Hwf. destruct Hfg as (Hf & _ & _). destruct Hrun as (Hid & _ & Hs & Hb & _).
  assert (∀ t1 b1, lkg_wf db t1 b1 → lkg_wf db' t1 (g b1)) as Hmono.
  { intros t1 b1 Hl. rewrite Hg. by apply (lkg_wf_mono db _ t1 b1). }
  split; simpl.
  - intros t1 b1 [(<- & b0 & Hb0 & ->)|[Hne Hb1]]%lookup_alter_Some.
    + destruct (wf_batch _ Hwf _ _ Hb0) as (? & ? & Hl). split_and!; [by rewrite Hg..|].
      by apply (Hmono _ b0).
    + destruct (wf_batch _ Hwf _ _ Hb1) as (? & ? & Hl). split_and!; [done..|].
      by apply (lkg_wf_mono db _ t1 b1).
  - intros t1 Hn%lookup_alter_None. by apply (wf_unserved _ Hwf).
  - intros id1 ob Hob.
    destruct (wf_observation _ Hwf _ _ Hob) as ((r1 & Hr1 & Ht1 & Hs1) & (b1 & Hb1 & Hn) & Hd).
    split_and!; [| |done].
    + exists r1. rewrite lookup_alter_ne; [done|]. intros <-. simplify_eq. by rewrite Hs in Hs1.
    + destruct (decide (t = ob_target ob)) as [Ht|Ht].
      * exists (g b1). rewrite <-Ht, lookup_alter_eq, Ht, Hb1. by rewrite Hg.
      * exists b1. by rewrite lookup_alter_ne.
  - apply (wf_observed _ Hwf).
Qed.
End finished.

(** ** Pruning *)

(** Attempts that may be deleted: finished ones that no target serves. *)
Definition prunable (db : OpenTables) (ids : gset TraceId) : Prop :=
  ∀ id, id ∈ ids →
    (∀ row, db_attempts db !! id = Some row → ¬ is_started row) ∧
    (∀ t b, db_batch db !! t = Some b → bs_lkg_attempt_id b ≠ Some id).

Lemma attempts_desc_elem db t id row :
  (id, row) ∈ attempts_desc db t ↔ db_attempts db !! id = Some row ∧ at_target row = t.
Proof.
  unfold attempts_desc. rewrite elem_of_sort_by, list_elem_of_filter, elem_of_map_to_list. naive_solver.
Qed.

Lemma candidate_attempts_elem db t n m id :
  id ∈ candidate_attempts db t n m → ∃ row, db_attempts db !! id = Some row ∧ at_target row = t ∧
    ¬ is_started row ∧ (db_batch db !! t ≫= bs_lkg_attempt_id) ≠ Some id ∧
    id ∉ take n (attempts_desc db t).*1.
Proof.
  unfold candidate_attempts. intros Hin%subseteq_take. revert Hin.
  rewrite list_elem_of_fmap. intros ([id' row] & -> & Hin). revert Hin.
  rewrite elem_of_reverse, list_elem_of_filter, attempts_desc_elem. intros ((Hs & Hl & Hr) & Hrow & Ht).
  exists row. by split_and!.
Qed.

Lemma candidates_prunable db t n m :
  serving_wf db → prunable db (list_to_set (candidate_attempts db t n m)).
Proof.
  intros Hwf id (row & Hrow & Ht & Hs & Hl & _)%elem_of_list_to_set%candidate_attempts_elem. split.
  - intros row' Hrow'. by simplify_eq.
  - intros t' b Hb Hlkg. destruct (wf_batch _ Hwf _ _ Hb) as (_ & _ & Hw). unfold lkg_wf in Hw.
    rewrite Hlkg in Hw. destruct Hw as (ob & Hob & Htob & _).
    destruct (wf_observation _ Hwf _ _ Hob) as ((row' & Hrow' & Ht' & _) & _).
    assert (row' = row) as -> by congruence. apply Hl. rewrite <-Ht, Ht', Htob, Hb. done.
Qed.

Section deleted.
Context (ids : gset TraceId) (db : OpenTables) (Hwf : tables_wf db) (Hids : prunable db ids).
Local Abbreviation db' := (delete_attempts ids db) (only parsing).

#[local] Lemma deleted_started id row :
  db_attempts db !! id = Some row → is_started row → db_attempts db' !! id = Some row.
Proof.
  intros Hrow Hs. apply map_lookup_filter_Some. split; [done|]. intros Hin.
  by destruct (Hids _ Hin) as [Hn _]; eapply Hn.
Qed.

#[local] Lemma deleted_back {V} (m : gmap TraceId V) id v :
  filter (λ p, p.1 ∉ ids) m !! id = Some v → id ∉ ids ∧ m !! id = Some v.
Proof. by intros [? ?]%map_lookup_filter_Some. Qed.

#[local] Lemma deleted_keep {V} (m : gmap TraceId V) id :
  id ∉ ids → filter (λ p, p.1 ∉ ids) m !! id = m !! id.
Proof.
  intros Hin. destruct (m !! id) as [v|] eqn:Hm.
  - apply map_lookup_filter_Some. by split.
  - apply map_lookup_filter_None. by left.
Qed.

(** The current states are those of last known good attempts, which stay. *)
Lemma deleted_current t : current_rows db' t = current_rows db t.
Proof.
  unfold current_rows; simpl. rewrite lookup_fmap.
  destruct (db_current db !! t) as [rows|] eqn:Hrows; [|done]. simpl.
  apply map_filter_id. intros i c Hc. simpl.
  assert (current_rows db t !! i = Some c) as Hcur by (unfold current_rows; by rewrite Hrows).
  destruct (db_batch db !! t) as [b|] eqn:Hb.
  - destruct (wf_batch _ Hwf _ _ Hb) as (_ & _ & Hl). unfold lkg_wf in Hl.
    destruct (bs_lkg_attempt_id b) as [id|] eqn:Hlkg; [|by destruct Hl as [Hl _]; rewrite Hl in Hcur].
    destruct Hl as (ob & _ & _ & _ & _ & _ & _ & _ & _ & _ & _ & Hall).
    destruct (Hall _ _ Hcur) as [-> _]. intros Hin. by destruct (Hids _ Hin) as [_ Hn]; eapply Hn.
  - by rewrite (wf_unserved _ Hwf _ Hb) in Hcur.
Qed.

Lemma deleted_attempts_wf : attempts_wf db'.
Proof.
  split; simpl.
  - intros id row [_ Hrow]%deleted_back. by apply (wf_attempt _ Hwf id).
  - intros id id' row row' [_ Hrow]%deleted_back [_ Hrow']%deleted_back. by apply (wf_sequence _ Hwf).
  - intros id row [Hin Hrow]%deleted_back Hs.
    destruct (wf_started _ Hwf _ _ Hrow Hs) as (b & _ & Ht & _ & Hrest).
    exists b. split_and!; try done; try apply Hrest. by apply deleted_started.
  - intros id row [Hin Hrow]%deleted_back. unfold load_attempt_catalog_indices; simpl.
    rewrite deleted_keep by done. by apply (wf_captured _ Hwf).
Qed.

Lemma deleted_tally_wf : tally_wf db'.
Proof.
  split; simpl.
  - intros id row [_ Hrow]%deleted_back. by apply (wf_counted _ Hwf id).
  - intros t day c Hc. destruct (wf_daily _ Hwf _ _ _ Hc) as [Hcw Hz]. split; [done|].
    intros Hall. apply Hz. intros id row Hrow Hs. apply (Hall id); [|done]. by apply deleted_started.
  - intros t run c Hc. destruct (wf_run _ Hwf _ _ _ Hc) as [Hcw Hz]. split; [done|].
    intros Hall. apply Hz. intros id row Hrow Hs. apply (Hall id); [|done]. by apply deleted_started.
Qed.

Lemma deleted_serving_wf : serving_wf db'.
Proof.
  split; simpl.
  - intros t b Hb. destruct (wf_batch _ Hwf _ _ Hb) as (? & ? & Hl). split_and!; [done..|].
    apply (lkg_wf_mono db _ t b); try done; [apply deleted_current|].
    intros id ob Hlkg Hob.
    assert (id ∉ ids) as Hin by (intros Hin; by destruct (Hids _ Hin) as [_ Hn]; eapply Hn).
    unfold load_attempt_catalog_indices; simpl. by rewrite !deleted_keep.
  - intros t Hb. rewrite deleted_current. by apply (wf_unserved _ Hwf).
  - intros id ob [Hin Hob]%deleted_back.
    destruct (wf_observation _ Hwf _ _ Hob) as ((row & Hrow & Hr) & Hb & Hd).
    split_and!; [|done|done]. exists row. by rewrite deleted_keep.
  - intros id id' ob ob' [_ Hob]%deleted_back [_ Hob']%deleted_back. by apply (wf_observed _ Hwf).
Qed.

Lemma deleted_log_wf : log_wf db'.
Proof.
  split; simpl.
  - intros e [Hin He]%list_elem_of_filter. destruct (wf_event _ Hwf _ He) as (Hle & ob & Hob & Hrest).
    split; [done|]. exists ob. by rewrite deleted_keep.
  - apply StronglySorted_filter, (wf_log _ Hwf).
Qed.

Lemma deleted_wf : tables_wf db'.
Proof.
  split; [apply deleted_attempts_wf|apply deleted_tally_wf|apply deleted_serving_wf|apply deleted_log_wf].
Qed.
End deleted.

Lemma pruned_wf t db : tables_wf db → tables_wf (pruned t db).
Proof. intros Hwf. by apply deleted_wf, candidates_prunable, Hwf. Qed.

(** ** Applying *)

Lemma event_log_le n rows n' : event_log n rows n' → n ≤ n'.
Proof. induction 1; lia. Qed.

Lemma event_log_ids n rows n' r : event_log n rows n' → r ∈ rows → n < er_event_id r ≤ n'.
Proof.
  induction 1 as [n|n r0 rows n' Hid Hlog IH]; [by intros ?%not_elem_of_nil|].
  pose proof (event_log_le _ _ _ Hlog). intros [->|Hin]%elem_of_cons; [lia|]. specialize (IH Hin). lia.
Qed.

Lemma event_log_sorted n rows n' :
  event_log n rows n' → StronglySorted (λ e e', er_event_id e < er_event_id e') rows.
Proof.
  induction 1 as [n|n r0 rows n' Hid Hlog IH]; constructor; [done|].
  apply Forall_forall. intros r Hr. destruct (event_log_ids _ _ _ _ Hlog Hr). lia.
Qed.

Lemma intended_states_dom catalog canonical : dom (intended_states catalog canonical) = catalog.
Proof.
  unfold intended_states. apply set_eq. intros i. rewrite elem_of_dom. split.
  - intros [s Hs]. apply lookup_set_to_map in Hs as (i' & Hi & [= -> _]); [done|naive_solver].
  - intros Hi. eexists. apply lookup_set_to_map; [naive_solver|]. by exists i.
Qed.

Lemma intended_states_lookup catalog canonical i s :
  intended_states catalog canonical !! i = Some s ↔
  i ∈ catalog ∧ s = if bool_decide (i ∈ canonical) then OpenSectionState_Open else OpenSectionState_Closed.
Proof.
  unfold intended_states. rewrite lookup_set_to_map by naive_solver. naive_solver.
Qed.

Section applied.
Context (command : FinishOpenPullSuccessCommand) (row : AttemptRow) (b : BatchRow) (db : OpenTables).
Local Abbreviation id := (fs_attempt_id command) (only parsing).
Local Abbreviation t := (at_target row) (only parsing).
Context (c : OpenAttemptClassification) (f : AttemptRow → AttemptRow) (ob : ObservationRow).
Context (canonical : gset SectionIndex) (rows : list EventRow) (last : Z).
Context (evs : list OpenSectionEvent) (empty : bool) (daily runc : OpenAttemptCounters).
Local Abbreviation states := (intended_states (load_attempt_catalog_indices db id) canonical)
  (only parsing).
Local Abbreviation g := (with_lkg id (ob_observation_sequence ob) (ob_catalog_content_version ob)
  (ob_observed_at ob) (ob_canonical_set_sha256 ob) (ob_state_sha256 ob)) (only parsing).
Local Abbreviation db' := (with_applied (started_of row) id f ob states rows last daily runc db)
  (only parsing).
Context (Hwf : tables_wf db) (Hrun : running id row b db) (Hf : not_applied c f).
Context (Hsuc : is_success c = true) (Htob : ob_target ob = t).
Context (Hseq : ob_observation_sequence ob = bs_last_observation_sequence b + 1).
Context (Hder : derive_open_refresh_observation_id id = Ok (ob_observation_id ob)).
Context (Hhash : ob_state_sha256 ob = open_state_sha256_v1 t states).
Context (Hnone : db_observations db !! id = None).
Context (Hlog : event_log (db_last_event_id db) rows last).
Context (Hrows : Forall2 (event_row (started_of row) id (ob_observation_id ob) states
                    (ob_observation_sequence ob) (ob_observed_at ob)) rows evs).
Context (Hbal : balanced_at (started_of row) true empty db daily runc).

#[local] Lemma applied_finishing : finishing c f g.
Proof. split_and!; [done|by destruct c|done]. Qed.

Lemma applied_attempts_wf : attempts_wf db'.
Proof.
  eapply finished_attempts_wf; [exact Hrun|exact applied_finishing|].
  split; [apply (wf_attempt _ Hwf)|apply (wf_sequence _ Hwf)|apply (wf_started _ Hwf)|apply (wf_captured _ Hwf)].
Qed.

Lemma applied_tally_wf : tally_wf db'.
Proof.
  eapply finished_tally_wf; [exact Hrun|exact applied_finishing|exact Hbal| |].
  - split; [apply (wf_attempt _ Hwf)|apply (wf_sequence _ Hwf)|apply (wf_started _ Hwf)|apply (wf_captured _ Hwf)].
  - split; [apply (wf_counted _ Hwf)|apply (wf_daily _ Hwf)|apply (wf_run _ Hwf)].
Qed.

Lemma applied_current t' :
  current_rows db' t' = if decide (t' = t) then
    (λ state, {| cu_state := state; cu_catalog_content_version := ob_catalog_content_version ob;
                 cu_attempt_id := id; cu_observation_sequence := ob_observation_sequence ob;
                 cu_observed_at := ob_observed_at ob |}) <$> states
  else current_rows db t'.
Proof.
  unfold current_rows; simpl. case_decide as Ht; [by rewrite Ht, lookup_insert_eq|].
  by rewrite lookup_insert_ne.
Qed.

Lemma applied_serves : serves db' t (g b) ob id.
Proof.
  unfold serves. rewrite applied_current, decide_True by done. split_and!; try done; simpl.
  - by rewrite lookup_insert_eq.
  - rewrite <-map_fmap_compose. rewrite Hhash. f_equal. symmetry. apply map_fmap_id.
  - rewrite dom_fmap_L. apply intended_states_dom.
  - intros i cu. rewrite lookup_fmap, fmap_Some. by intros (s & _ & ->).
Qed.

Lemma applied_serving_wf : serving_wf db'.
Proof.
  destruct Hrun as (Hid & _ & Hs & Hb & _). simpl in Hb.
  destruct (wf_batch _ Hwf _ _ Hb) as (Hb0 & Hb1 & _).
  split; simpl.
  - intros t1 b1 [(<- & b0 & Hb0' & ->)|[Hne Hb1']]%lookup_alter_Some.
    + simplify_eq. split_and!; [done|simpl; lia|]. unfold lkg_wf; simpl. exists ob. apply applied_serves.
    + destruct (wf_batch _ Hwf _ _ Hb1') as (? & ? & Hl). split_and!; [done..|].
      apply (lkg_wf_mono db _ t1 b1); try done; [by rewrite applied_current, decide_False|].
      intros id1 ob1 _ Hob1. simpl. rewrite lookup_insert_ne; [done|congruence].
  - intros t1 Hn%lookup_alter_None. rewrite applied_current, decide_False by congruence.
    by apply (wf_unserved _ Hwf).
  - intros id1 ob1 [[<- <-]|[Hne Hob1]]%lookup_insert_Some.
    + split_and!; [| |done].
      * exists (f row). rewrite lookup_alter_eq, Hid. destruct (Hf row) as (-> & _ & _ & _ & -> & _). done.
      * exists (g b). rewrite Htob, lookup_alter_eq, Hb. simpl. split; [done|]. lia.
    + destruct (wf_observation _ Hwf _ _ Hob1) as ((r1 & Hr1 & Ht1 & Hs1) & (b1 & Hb1' & Hn) & Hd).
      split_and!; [| |done].
      * exists r1. by rewrite lookup_alter_ne.
      * destruct (decide (t = ob_target ob1)) as [Ht|Ht].
        -- exists (g b). rewrite <-Ht, lookup_alter_eq, Hb. simpl. split; [done|].
           rewrite <-Ht in Hb1'. simplify_eq. lia.
        -- exists b1. by rewrite lookup_alter_ne.
  - assert (∀ id1 ob1, db_observations db !! id1 = Some ob1 → ob_target ob1 = t →
      ob_observation_sequence ob1 < ob_observation_sequence ob) as Hlt.
    { intros id1 ob1 Hob1 Ht1. destruct (wf_observation _ Hwf _ _ Hob1) as (_ & (b1 & Hb1' & Hn) & _).
      rewrite Ht1 in Hb1'. simplify_eq. lia. }
    intros id1 id2 ob1 ob2 [[<- <-]|[Hne1 Hob1]]%lookup_insert_Some
      [[<- <-]|[Hne2 Hob2]]%lookup_insert_Some Ht Hs12; [done|..].
    + rewrite Htob in Ht. specialize (Hlt _ _ Hob2 (eq_sym Ht)). lia.
    + rewrite Htob in Ht. specialize (Hlt _ _ Hob1 Ht). lia.
    + by apply (wf_observed _ Hwf id1 id2 ob1 ob2).
Qed.

Lemma applied_log_wf : log_wf db'.
Proof.
  pose proof (event_log_le _ _ _ Hlog) as Hle.
  split; simpl.
  - intros e [He|He]%elem_of_app.
    + destruct (wf_event _ Hwf _ He) as (Hid & ob1 & Hob1 & Hrest). split; [lia|].
      exists ob1. rewrite lookup_insert_ne; [done|congruence].
    + destruct (event_log_ids _ _ _ _ Hlog He). split; [done|]. exists ob.
      apply list_elem_of_lookup in He as [k Hk].
      destruct (Forall2_lookup_l _ _ _ _ _ Hrows Hk) as (ev & _ & _ & Ha & Ht & Hn & _).
      rewrite Ha, Ht, Hn, lookup_insert_eq. done.
  - apply StronglySorted_app_2; [|apply (wf_log _ Hwf)|by eapply event_log_sorted].
    intros e e' He He'. destruct (wf_event _ Hwf _ He). destruct (event_log_ids _ _ _ _ Hlog He'). lia.
Qed.

Lemma applied_wf : tables_wf db'.
Proof.
  split; [apply applied_attempts_wf|apply applied_tally_wf|apply applied_serving_wf|apply applied_log_wf].
Qed.
End applied.
End invariant.
