(* ===== verification/OpenStoreSpec.v ===== *)
(** * What the Open storage guarantees

    The invariant of the tables under every operation and every publication of
    a catalog, the effect of the commits on what is served, the recovery, the
    retention of diagnostics, and the agreement of the storage with the
    reconciliation of the service. *)

From stdpp Require Import pretty.
From S2P Require Import Prelude Ordering Identity Contracts RustStr Reconcile OpenClient.
From S2P Require Import OpenStore OpenService OpenTables OpenCommands OpenTransactions OpenTxFacts.
From S2P Require Import OpenStoreFacts.

Section spec.
Context `{Rfc3339Api, TimeDateApi, Sha256Api}.

(** ** Ending a running attempt *)

(** The counters of a running attempt exist and can be incremented. *)
Lemma increment_final_total t run day succeeded empty d r db :
  db_daily db !! (t, day) = Some d → db_run db !! (run, t) = Some r →
  counters_wf d → counters_wf r → unfinished d = 1 → unfinished r = 1 →
  increment_final_counters t run day succeeded empty db
    = Some (Ok ((), with_counters t run day (counters_plus d (finished_once succeeded empty))
                      (counters_plus r (finished_once succeeded empty)) db)).
Proof.
  intros Hd Hr Hdw Hrw Hd1 Hr1. unfold increment_final_counters, mbind, tx_bind; simpl.
  assert (∀ c, counters_wf c → unfinished c = 1 →
    counters_add c (finished_once succeeded empty) = Ok (counters_plus c (finished_once succeeded empty)))
    as Hadd.
  { intros c Hc Hu. apply counters_add_Ok. split; [done|]. unfold counters_wf, unfinished in *.
    unfold counters_fit; simpl. destruct succeeded, empty; lia. }
  unfold tx_lift. rewrite Hd, Hr. unfold counters_update. unfold finished_once in Hadd.
  rewrite !Hadd by done. done.
Qed.

Lemma running_counters id row b db :
  tables_wf db → running id row b db → ∃ d r,
    db_daily db !! (at_target row, at_rutgers_day row) = Some d ∧
    db_run db !! (at_run_id row, at_target row) = Some r ∧
    counters_wf d ∧ counters_wf r ∧ unfinished d = 1 ∧ unfinished r = 1.
Proof.
  intros Hwf (Hid & _ & Hs & _).
  destruct (wf_counted _ Hwf _ _ Hid Hs) as ((d & Hd & Hd1) & (r & Hr & Hr1)).
  exists d, r. split_and!; try done; [by destruct (wf_daily _ Hwf _ _ _ Hd)|by destruct (wf_run _ Hwf _ _ _ Hr)].
Qed.

(** ** Recovery *)

Lemma recover_attempt_run completed id row b db :
  tables_wf db → running id row b db → ∃ failure daily runc,
    balanced_at (started_of row) false false db daily runc ∧
    recover_attempt completed id row db = Some (Ok ((),
      with_finished (started_of row) id (interrupted_attempt completed)
        (with_last_failure failure) daily runc db)).
Proof.
  intros Hwf Hrun. destruct (running_counters _ _ _ _ Hwf Hrun) as (d & r & Hd & Hr & Hdw & Hrw & Hd1 & Hr1).
  destruct Hrun as (Hid & _ & Hs & Hb & _).
  eexists _, (counters_plus d (finished_once false false)), (counters_plus r (finished_once false false)).
  split; [by exists d, r|].
  unfold recover_attempt, mbind, tx_bind; simpl. erewrite increment_final_total by done.
  unfold with_finished; simpl.
  assert (∀ f : AttemptRow → AttemptRow, f row = interrupted_attempt completed row →
    alter f id (db_attempts db) = alter (interrupted_attempt completed) id (db_attempts db)) as Halt.
  { intros f Hf. by rewrite !(alter_insert_eq _ _ _ _ Hid), Hf. }
  rewrite Halt; [done|]. by rewrite bool_decide_true.
Qed.

Lemma interrupted_finishing completed failure :
  finishing OpenAttemptClassification_Interrupted (interrupted_attempt completed)
    (with_last_failure failure).
Proof. done. Qed.

(** What the recovery keeps: everything but the attempts that were running, the
    last failures and the counters. *)
Definition same_served (db db' : OpenTables) : Prop :=
  (∀ t, current_rows db' t = current_rows db t) ∧ db_observations db' = db_observations db ∧
  db_events db' = db_events db ∧
  db_catalog_targets db' = db_catalog_targets db ∧ db_catalog_sections db' = db_catalog_sections db ∧
  ∀ t, bs_lkg_attempt_id <$> db_batch db' !! t = bs_lkg_attempt_id <$> db_batch db !! t.

Lemma finished_same_served a id f failure daily runc db :
  same_served db (with_finished a id f (with_last_failure failure) daily runc db).
Proof.
  split_and!; try done. intros t. simpl. destruct (decide (sa_target a = t)) as [<-|].
  - rewrite lookup_alter_eq. by destruct (db_batch db !! sa_target a).
  - by rewrite lookup_alter_ne.
Qed.

Lemma same_served_trans db1 db2 db3 : same_served db1 db2 → same_served db2 db3 → same_served db1 db3.
Proof.
  intros (Hc & Ho & He & Ht & Hs & Hl) (Hc' & Ho' & He' & Ht' & Hs' & Hl').
  split_and!; [|congruence..|].
  - intros t. by rewrite Hc'.
  - intros t. by rewrite Hl'.
Qed.

Lemma finished_wf id row b f failure c empty daily runc db :
  tables_wf db → running id row b db → finishing c f (with_last_failure failure) →
  balanced_at (started_of row) false empty db daily runc →
  tables_wf (with_finished (started_of row) id f (with_last_failure failure) daily runc db).
Proof.
  intros Hwf Hrun Hfg Hbal. split.
  - eapply finished_attempts_wf; [exact Hrun|exact Hfg|apply Hwf].
  - eapply finished_tally_wf; [exact Hrun|exact Hfg|exact Hbal|apply Hwf|apply Hwf].
  - eapply finished_serving_wf; [exact Hrun|exact Hfg|done|apply Hwf].
  - split; [apply (wf_event _ Hwf)|apply (wf_log _ Hwf)].
Qed.

Lemma recover_pending_run completed l db :
  tables_wf db → NoDup l.*1 →
  (∀ id row, (id, row) ∈ l ↔ db_attempts db !! id = Some row ∧ is_started row) →
  ∃ db', recover_pending completed l db = Some (Ok ((), db')) ∧ tables_wf db' ∧ same_served db db' ∧
    (∀ id row, db_attempts db' !! id = Some row → ¬ is_started row).
Proof.
  revert db. induction l as [|[id row] l IH]; intros db Hwf Hnd Hl; simpl.
  - exists db. split_and!; [done|done|done|]. intros id row Hrow Hs.
    by assert ((id, row) ∈ []) as []%elem_of_nil by by apply Hl.
  - apply NoDup_cons in Hnd as [Hnotin Hnd]. destruct (proj1 (Hl id row)) as [Hid Hs]; [left|].
    destruct (wf_started _ Hwf _ _ Hid Hs) as (b & Hrun).
    destruct (recover_attempt_run completed _ _ _ _ Hwf Hrun) as (failure & daily & runc & Hbal & Hstep).
    unfold mbind, tx_bind. rewrite Hstep.
    set (db1 := with_finished _ _ _ _ _ _ _).
    assert (tables_wf db1) as Hwf1.
    { eapply finished_wf; [done|exact Hrun|apply interrupted_finishing|exact Hbal]. }
    destruct (IH db1) as (db' & Hdb' & Hwf' & Hsame & Hno); [done|done| |].
    + intros id1 row1. split.
      * intros Hin. assert (id1 ≠ id) as Hne.
        { intros ->. apply Hnotin. apply list_elem_of_fmap. by exists (id, row1). }
        destruct (proj1 (Hl id1 row1)) as [Hid1 Hs1]; [by right|]. split; [|done].
        simpl. by rewrite lookup_alter_ne.
      * simpl. intros [[(<- & r & _ & ->)|[Hne Hid1]]%lookup_alter_Some Hs1]; [done|].
        assert ((id1, row1) ∈ (id, row) :: l) as [[= -> ->]|Hin]%elem_of_cons by by apply Hl.
        -- done.
        -- done.
    + exists db'. split_and!; [done|done| |done].
      eapply same_served_trans; [|done]. apply finished_same_served.
Qed.

Lemma pending_attempts_elem db id row :
  (id, row) ∈ pending_attempts db ↔ db_attempts db !! id = Some row ∧ is_started row.
Proof.
  unfold pending_attempts. rewrite elem_of_sort_by, list_elem_of_filter, elem_of_map_to_list. naive_solver.
Qed.

Lemma pending_attempts_nodup db : NoDup (pending_attempts db).*1.
Proof.
  unfold pending_attempts. rewrite sort_by_perm.
  eapply sublist_NoDup; [apply (NoDup_fst_map_to_list (db_attempts db))|].
  apply fmap_sublist, sublist_filter.
Qed.

(** C27. The recovery after a restart always completes: every attempt that was
    running is interrupted, the counters of every day and run then account for
    finished attempts only, nothing that is served changes, and recovering
    again does nothing. *)
Theorem recovery_completes (now now' : OffsetDateTime) (db : OpenTables) :
  tables_wf db → is_Some (format_rfc3339 now) →
  ∃ db', recover_interrupted_open_attempts now db = Some (Ok ((), db')) ∧
    tables_wf db' ∧ same_served db db' ∧
    (∀ id row, db_attempts db' !! id = Some row → ¬ is_started row) ∧
    (∀ t day c, db_daily db' !! (t, day) = Some c → unfinished c = 0) ∧
    (∀ run t c, db_run db' !! (run, t) = Some c → unfinished c = 0) ∧
    recover_interrupted_open_attempts now' db' = Some (Ok ((), db')).
Proof.
  intros Hwf [completed Hnow].
  destruct (recover_pending_run completed (pending_attempts db) db Hwf (pending_attempts_nodup db))
    as (db' & Hrun & Hwf' & Hsame & Hno); [intros; apply pending_attempts_elem|].
  exists db'. split_and!; try done.
  - unfold recover_interrupted_open_attempts. unfold mbind at 1, tx_bind at 1. cbn [tx_get].
    destruct (pending_attempts db); [by rewrite <-Hrun|].
    unfold mbind, tx_bind, tx_lift. by rewrite Hnow.
  - intros t day c Hc. apply (wf_daily _ Hwf' _ _ _ Hc). intros id row Hrow Hs. by eapply Hno in Hrow.
  - intros run t c Hc. apply (wf_run _ Hwf' _ _ _ Hc). intros id row Hrow Hs. by eapply Hno in Hrow.
  - assert (pending_attempts db' = []) as Hnil.
    { destruct (pending_attempts db') as [|[id row] l] eqn:Hp; [done|].
      destruct (proj1 (pending_attempts_elem db' id row)) as [Hrow Hs]; [rewrite Hp; left|].
      by eapply Hno in Hrow. }
    unfold recover_interrupted_open_attempts, mbind, tx_bind. cbn [tx_get]. by rewrite Hnil.
Qed.

(** ** The invariant of the tables *)

Lemma committed_wf command o db db' :
  tables_wf db → response_committed command false o db db' → tables_wf db'.
Proof.
  intros Hwf (row & b & response & v & bc & sc & Hrun & _ & _ & Hc). cbv zeta in Hc.
  destruct (is_success _) eqn:Hsuc.
  - destruct Hc as (b' & f & ob & watched & rows & last & daily & runc & commit & Hb & Hf & _ & Htob
      & Hseq & Hder & Hver & Hat & Hhash & Hst & Hcl & Hchg & Hnone & Huniq & Hw & Hidx & Hlog & Hall
      & Hbal & Hrest).
    repeat match goal with H : _ ∧ _ |- _ => destruct H as [_ H] end. subst db'.
    pose proof Hrun as (_ & _ & _ & Hb' & _). simpl in Hb. assert (b' = b) as -> by congruence.
    apply pruned_wf. rewrite <-Hat in Hall.
    eapply applied_wf; [done|exact Hrun|exact Hf|exact Hsuc|done|done|done|done|done|done|exact Hall|exact Hbal].
  - destruct Hc as [(f & failure & daily & runc & Hf & _ & _ & Hbal & ->) _].
    apply pruned_wf. eapply finished_wf; [done|exact Hrun| |exact Hbal].
    split_and!; [done| |done]. intros He.
    rewrite He in Hsuc. revert He. case_match; [|done].
    unfold classify_open_response. repeat case_match; done.
Qed.

Lemma failed_wf command o db db' :
  tables_wf db → failure_committed command o db db' → tables_wf db'.
Proof.
  intros Hwf (row & b & Hrun & (f & failure & daily & runc & Hf & _ & _ & Hbal & ->) & _).
  apply pruned_wf. eapply finished_wf; [done|exact Hrun| |exact Hbal]. by split_and!.
Qed.

(** Staged catalogs and their observations are no concern of the invariant. *)
Lemma set_candidates_wf m s db : tables_wf db → tables_wf (set_candidates m s db).
Proof.
  intros Hwf. split.
  - split; [apply (wf_attempt _ Hwf)|apply (wf_sequence _ Hwf)|apply (wf_started _ Hwf)|apply (wf_captured _ Hwf)].
  - split; [apply (wf_counted _ Hwf)|apply (wf_daily _ Hwf)|apply (wf_run _ Hwf)].
  - split; [apply (wf_batch _ Hwf)|apply (wf_unserved _ Hwf)|apply (wf_observation _ Hwf)|apply (wf_observed _ Hwf)].
  - split; [apply (wf_event _ Hwf)|apply (wf_log _ Hwf)].
Qed.

(** The version of a published target never goes back, and its sections change
    only with the version. *)
Definition catalog_kept (db db' : OpenTables) : Prop :=
  ∀ t row, db_catalog_targets db !! t = Some row → ∃ row',
    db_catalog_targets db' !! t = Some row' ∧
    ct_current_content_version row ≤ ct_current_content_version row' ∧
    (ct_current_content_version row' = ct_current_content_version row →
     catalog_sections_at db' t (ct_current_content_version row)
       = catalog_sections_at db t (ct_current_content_version row)).

(** A publication of a catalog. *)
Definition catalog_change (db db' : OpenTables) : Prop :=
  db_batch db' = db_batch db ∧ db_attempts db' = db_attempts db ∧
  db_membership db' = db_membership db ∧ db_observations db' = db_observations db ∧
  db_current db' = db_current db ∧ db_events db' = db_events db ∧
  db_last_event_id db' = db_last_event_id db ∧ db_daily db' = db_daily db ∧
  db_run db' = db_run db ∧ catalog_kept db db'.

Lemma catalog_change_wf db db' : tables_wf db → catalog_change db db' → tables_wf db'.
Proof.
  intros Hwf (Hb & Ha & Hm & Ho & Hc & He & Hl & Hd & Hr & Hcat).
  assert (∀ t, current_rows db' t = current_rows db t) as Hcur by (intros; unfold current_rows; by rewrite Hc).
  split.
  - split; rewrite ?Ha, ?Hb; [apply (wf_attempt _ Hwf)|apply (wf_sequence _ Hwf)|..].
    + intros id row Hrow Hs. destruct (wf_started _ Hwf _ _ Hrow Hs) as (b & _ & [tr Ht] & Hcl & Hrest).
      exists b. unfold running. rewrite Ha, Hb. split_and!; try done; try apply Hrest.
      destruct (Hcat _ _ Ht) as (tr' & -> & _). eauto.
    + intros id row Hrow Hs Hcand.
      destruct (wf_captured _ Hwf _ _ Hrow Hs Hcand) as (v & (tr & Ht & ->)%fmap_Some & Hle & Hsame).
      destruct (Hcat _ _ Ht) as (tr' & Ht' & Hle' & Hsame').
      exists (ct_current_content_version tr'). rewrite Ht'. split_and!; [done|lia|].
      intros Hv. unfold load_attempt_catalog_indices. rewrite Hm.
      assert (ct_current_content_version tr = at_captured_catalog_content_version row) as Heq by lia.
      rewrite Hv, <-Heq. rewrite Hsame' by lia. by apply Hsame.
  - split; rewrite ?Ha, ?Hd, ?Hr; [apply (wf_counted _ Hwf)|apply (wf_daily _ Hwf)|apply (wf_run _ Hwf)].
  - split; rewrite ?Ha, ?Hb, ?Ho.
    + intros t b Hbt. destruct (wf_batch _ Hwf _ _ Hbt) as (? & ? & Hlkg). split_and!; [done..|].
      eapply lkg_wf_mono, Hlkg; try done. intros id ob _ Hob. rewrite Ho. split; [done|].
      unfold load_attempt_catalog_indices. by rewrite Hm.
    + intros t Hbt. rewrite Hcur. by apply (wf_unserved _ Hwf).
    + apply (wf_observation _ Hwf).
    + apply (wf_observed _ Hwf).
  - split; rewrite ?He, ?Hl, ?Ho; [apply (wf_event _ Hwf)|apply (wf_log _ Hwf)].
Qed.

(** Every operation that commits, in any order. *)
Inductive storage_step : OpenTables → OpenTables → Prop :=
| step_begin command n db db' :
    begin_open_pull_attempt command db = Some (Ok (n, db')) → storage_step db db'
| step_begin_candidate candidate command n db db' :
    begin_candidate_open_pull_attempt candidate command db = Some (Ok (n, db')) → storage_step db db'
| step_success command o db db' :
    finish_open_pull_success command db = Some (Ok (o, db')) → storage_step db db'
| step_failure command o db db' :
    finish_open_pull_failure command db = Some (Ok (o, db')) → storage_step db db'
| step_candidate_failure id command o db db' :
    finish_candidate_open_pull_failure id command db = Some (Ok (o, db')) → storage_step db db'
| step_prune t n report db db' :
    prune_open_diagnostics t n db = Some (Ok (report, db')) → storage_step db db'
| step_recover now db db' :
    recover_interrupted_open_attempts now db = Some (Ok ((), db')) → storage_step db db'
| step_catalog db db' : catalog_change db db' → storage_step db db'.

Lemma begin_wf command candidate n db db' :
  tables_wf db → begin_open_pull_attempt_with_catalog command candidate db = Some (Ok (n, db')) →
  tables_wf db'.
Proof.
  intros Hwf Hrun. destruct (twp_Ok _ _ _ _ _ _ (begin_twp command candidate db) Hrun) as [[-> _]|[Hb Hv]].
  - done.
  - by eapply begun_wf.
Qed.

Lemma recover_wf now db db' :
  tables_wf db → recover_interrupted_open_attempts now db = Some (Ok ((), db')) →
  tables_wf db' ∧ same_served db db'.
Proof.
  intros Hwf. unfold recover_interrupted_open_attempts, mbind, tx_bind. cbn [tx_get].
  destruct (recover_pending_run (default "" (format_rfc3339 now)) (pending_attempts db) db Hwf
    (pending_attempts_nodup db)) as (db1 & Hrun & Hwf' & Hsame & _); [intros; apply pending_attempts_elem|].
  destruct (pending_attempts db); [by intros [= <-]|]. unfold tx_lift.
  destruct (format_rfc3339 now) as [completed|]; [|done]. simpl ok_or. cbn iota beta in Hrun |- *.
  simpl default in Hrun. rewrite Hrun. intros [= <-]. by split.
Qed.

Lemma storage_step_wf db db' : tables_wf db → storage_step db db' → tables_wf db'.
Proof.
  intros Hwf Hstep. destruct Hstep as [command n db db' Hrun|candidate command n db db' Hrun
    |command o db db' Hrun|command o db db' Hrun|id command o db db' Hrun|t n report db db' Hrun
    |now db db' Hrun|db db' Hchange].
  - unfold begin_open_pull_attempt in Hrun. by eapply begin_wf.
  - unfold begin_candidate_open_pull_attempt in Hrun. destruct (_ || _); [done|]. by eapply begin_wf.
  - eapply committed_wf; [done|]. by apply (twp_Ok _ _ _ _ _ _ (finish_success_twp command false _)).
  - eapply failed_wf; [done|]. by apply (twp_Ok _ _ _ _ _ _ (finish_failure_twp command _)).
  - assert (twp (finish_candidate_open_pull_failure id command) db (λ _ db', tables_wf db') (λ _, True))
      as Htwp.
    { unfold finish_candidate_open_pull_failure. apply twp_bind.
      eapply twp_mono; [apply load_started_twp| |done]. intros a db1 (-> & _).
      case_bool_decide; [done|]. apply twp_bind.
      eapply twp_mono; [apply finish_failure_twp| |done]. intros o1 db1 Hf. unfold clear_staging. tx_steps.
      simpl. destruct (db_catalog_observations db1 !! id) as [r|]; [|done].
      case_bool_decide; [|done]. tx_steps. apply set_candidates_wf, set_candidates_wf.
      eapply failed_wf; [exact Hwf|exact Hf]. }
    exact (twp_Ok _ _ _ _ _ _ Htwp Hrun).
  - unfold prune_open_diagnostics in Hrun. case_bool_decide; [done|].
    rewrite (twp_Ok _ _ _ _ _ _ (prune_twp _ _ _ _) Hrun).
    apply deleted_wf; [done|]. by apply candidates_prunable, Hwf.
  - by destruct (recover_wf _ _ _ Hwf Hrun).
  - by eapply catalog_change_wf.
Qed.

Lemma catalog_kept_same db db' :
  db_catalog_targets db' = db_catalog_targets db → db_catalog_sections db' = db_catalog_sections db →
  catalog_kept db db'.
Proof.
  intros Ht Hs t row Hrow. exists row. rewrite Ht. split_and!; [done|done|]. intros _.
  unfold catalog_sections_at. by rewrite Hs.
Qed.

Lemma catalog_kept_trans db1 db2 db3 : catalog_kept db1 db2 → catalog_kept db2 db3 → catalog_kept db1 db3.
Proof.
  intros H12 H23 t row (row2 & Hrow2 & Hle2 & Hs2)%H12.
  destruct (H23 t row2 Hrow2) as (row3 & Hrow3 & Hle3 & Hs3). exists row3. split_and!; [done|lia|].
  intros Heq. assert (ct_current_content_version row2 = ct_current_content_version row) as H2 by lia.
  rewrite <-H2 at 1. rewrite Hs3 by lia. rewrite H2. by apply Hs2.
Qed.

Lemma committed_catalog command accept o db db' :
  response_committed command accept o db db' → catalog_kept db db'.
Proof.
  intros (row & b & response & v & bc & sc & Hrun & _ & _ & Hc). cbv zeta in Hc.
  destruct (is_success _) eqn:Hsuc.
  - destruct Hc as (?&?&?&?&?&?&?&?&?&Hc).
    repeat match goal with H : _ ∧ _ |- _ => destruct H as [_ H] end. subst db'.
    by apply catalog_kept_same.
  - destruct Hc as [(f & failure & daily & runc & _ & _ & _ & _ & ->) _]. by apply catalog_kept_same.
Qed.

Lemma storage_step_catalog db db' : tables_wf db → storage_step db db' → catalog_kept db db'.
Proof.
  intros Hwf Hstep. destruct Hstep as [command n db db' Hrun|candidate command n db db' Hrun
    |command o db db' Hrun|command o db db' Hrun|id command o db db' Hrun|t n report db db' Hrun
    |now db db' Hrun|db db' Hchange].
  - unfold begin_open_pull_attempt in Hrun.
    destruct (twp_Ok _ _ _ _ _ _ (begin_twp command None db) Hrun) as [[-> _]|[Hb _]];
      [by apply catalog_kept_same|].
    destruct Hb as (? & ? & ? & _ & _ & _ & _ & _ & _ & _ & _ & _ & ->). by apply catalog_kept_same.
  - unfold begin_candidate_open_pull_attempt in Hrun. destruct (_ || _); [done|].
    destruct (twp_Ok _ _ _ _ _ _ (begin_twp command (Some candidate) db) Hrun) as [[-> _]|[Hb _]];
      [by apply catalog_kept_same|].
    destruct Hb as (? & ? & ? & _ & _ & _ & _ & _ & _ & _ & _ & _ & ->). by apply catalog_kept_same.
  - eapply committed_catalog. by apply (twp_Ok _ _ _ _ _ _ (finish_success_twp command false _)).
  - destruct (twp_Ok _ _ _ _ _ _ (finish_failure_twp command _) Hrun)
      as (row & b & _ & (f & failure & daily & runc & _ & _ & _ & _ & ->) & _).
    by apply catalog_kept_same.
  - assert (twp (finish_candidate_open_pull_failure id command) db (λ _ db', catalog_kept db db') (λ _, True))
      as Htwp.
    { unfold finish_candidate_open_pull_failure. apply twp_bind.
      eapply twp_mono; [apply load_started_twp| |done]. intros a db1 (-> & _).
      case_bool_decide; [done|]. apply twp_bind.
      eapply twp_mono; [apply finish_failure_twp| |done].
      intros o1 db1 (row & b & _ & (f & failure & daily & runc & _ & _ & _ & _ & ->) & _).
      unfold clear_staging. tx_steps. simpl.
      destruct (db_catalog_observations _ !! id) as [r|]; [|done].
      case_bool_decide; [|done]. tx_steps. by apply catalog_kept_same. }
    exact (twp_Ok _ _ _ _ _ _ Htwp Hrun).
  - unfold prune_open_diagnostics in Hrun. case_bool_decide; [done|].
    rewrite (twp_Ok _ _ _ _ _ _ (prune_twp _ _ _ _) Hrun). by apply catalog_kept_same.
  - destruct (recover_wf _ _ _ Hwf Hrun) as [_ (_ & _ & _ & Ht & Hs & _)]. by apply catalog_kept_same.
  - apply Hchange.
Qed.

(** Several operations keep the invariant and the catalog. *)
Lemma storage_steps_keep db db' :
  tables_wf db → rtc storage_step db db' → tables_wf db' ∧ catalog_kept db db'.
Proof.
  intros Hwf Hsteps. revert Hwf. induction Hsteps as [db|db1 db2 db3 Hstep _ IH]; intros Hwf.
  - split; [done|]. by apply catalog_kept_same.
  - destruct IH as [Hwf3 Hkept]; [by eapply storage_step_wf|]. split; [done|].
    eapply catalog_kept_trans; [|done]. by apply storage_step_catalog.
Qed.

(** Tables no pull has touched. *)
Definition untouched (db : OpenTables) : Prop :=
  db_batch db = ∅ ∧ db_attempts db = ∅ ∧ db_observations db = ∅ ∧ db_current db = ∅ ∧
  db_events db = [] ∧ db_daily db = ∅ ∧ db_run db = ∅.

Lemma untouched_wf db : untouched db → tables_wf db.
Proof.
  intros (Hb & Ha & Ho & Hc & He & Hd & Hr). split; split.
  all: rewrite ?Hb, ?Ha, ?Ho, ?He, ?Hd, ?Hr; try done.
  - intros t _. unfold current_rows. by rewrite Hc.
  - by intros e ?%not_elem_of_nil.
  - constructor.
Qed.

(** C9. Whatever operations commit, in whatever order, with restarts and
    publications of catalogs in between: the attempts of a target are numbered
    and at most its last one is running; the counters account for every attempt;
    observations belong to applied attempts and are numbered without repetition;
    what a target serves is exactly its last observation, with its digests; and
    the event log is ordered and refers to observations. *)
Theorem open_tables_invariant (db0 db : OpenTables) :
  untouched db0 → rtc storage_step db0 db → tables_wf db.
Proof.
  intros Hu%untouched_wf Hsteps. by destruct (storage_steps_keep _ _ Hu Hsteps).
Qed.

(** ** No panics *)

Lemma twp_returns {A} (m : Tx A) db Q R : twp m db Q R → is_Some (m db).
Proof. unfold twp. by destruct (m db). Qed.

(** The operations of the service's trait never panic, on any tables. *)
Lemma open_transactions_total (db : OpenTables) :
  (∀ target, is_Some (serving_open_catalog_snapshot target db)) ∧
  (∀ command, is_Some (begin_open_pull_attempt command db)) ∧
  (∀ command, is_Some (finish_open_pull_success command db)) ∧
  (∀ command, is_Some (finish_open_pull_failure command db)) ∧
  (∀ target, is_Some (lkg_open_index_set target db)) ∧
  (∀ target limit, is_Some (recent_open_gate_attempt_summaries target limit db)).
Proof.
  split_and!; [|intros; eapply twp_returns..| |done].
  - intros target. unfold serving_open_catalog_snapshot, mbind, tx_bind, tx_lift. simpl.
    destruct (_ !! _); [|done]. case_bool_decide; [|done]. destruct (mapM _ _); [|done]. by case_bool_decide.
  - apply (begin_twp command None).
  - apply (finish_success_twp command false).
  - apply finish_failure_twp.
  - intros target. unfold lkg_open_index_set, serving_lkg_open_index_set, mbind, tx_bind, tx_lift. simpl.
    case_bool_decide; [done|]. by destruct (mapM _ _).
Qed.

(** ** Beginning a pull *)

Lemma begin_checked command n db db' :
  begin_open_pull_attempt command db = Some (Ok (n, db')) →
  validate_begin command = Ok () ∧ ∃ v, begin_version (bo_target command) None db = Some (Ok (v, db)).
Proof.
  unfold begin_open_pull_attempt, begin_open_pull_attempt_with_catalog. unfold mbind at 1, tx_bind at 1.
  unfold tx_lift at 1. destruct (validate_begin command) as [[]|e]; [|done]. intros Hrun. split; [done|].
  unfold mbind at 1, tx_bind at 1 in Hrun. unfold begin_version, mbind, tx_bind in *; simpl in *.
  case_bool_decide; [eauto|done].
Qed.

Lemma begin_version_targets t v db db' :
  db_catalog_targets db' = db_catalog_targets db →
  begin_version t None db = Some (Ok (v, db)) → begin_version t None db' = Some (Ok (v, db')).
Proof.
  intros Ht. unfold begin_version, mbind, tx_bind; simpl. rewrite Ht.
  case_bool_decide; [|done]. by intros [= <-].
Qed.

Lemma begin_repeated command db row v :
  validate_begin command = Ok () → begin_version (bo_target command) None db = Some (Ok (v, db)) →
  db_attempts db !! bo_attempt_id command = Some row → same_command row command None = true →
  at_candidate_base_content_version row = None →
  begin_open_pull_attempt command db = Some (Ok (at_attempt_sequence row, db)).
Proof.
  intros Hval Hver Hrow Hsame Hbase.
  unfold begin_open_pull_attempt, begin_open_pull_attempt_with_catalog. unfold mbind at 1, tx_bind at 1.
  unfold tx_lift at 1. rewrite Hval. unfold mbind at 1, tx_bind at 1. rewrite Hver.
  unfold mbind, tx_bind; simpl. rewrite Hrow. unfold begin_existing. rewrite Hsame. simpl.
  by rewrite Hbase.
Qed.

Lemma started_same_command command n age base :
  fst <$> base = None → same_command (started_attempt command n age base) command None = true
  ∧ at_candidate_base_content_version (started_attempt command n age base) = None.
Proof.
  intros Hbase. destruct base; [done|]. split; [|done].
  unfold same_command; simpl. by rewrite !bool_decide_true.
Qed.

(** C11. A pull is begun only when its target has no other running pull and the
    catalog is at the version it was captured at; it gets the next number of
    the target and the sections of that version. Sending the same command again
    changes nothing and gives the same number, whether or not the first answer
    was received; an error leaves the tables as they were. *)
Theorem begin_open_pull_spec (command : BeginOpenPullAttemptCommand) (db : OpenTables) :
  tables_wf db →
  let t := bo_target command in let id := bo_attempt_id command in
  match total (begin_open_pull_attempt command) db with
  | (Err _, db') => db' = db
  | (Ok n, db') =>
      tables_wf db' ∧ total (begin_open_pull_attempt command) db' = (Ok n, db') ∧
      (∃ row, db_attempts db' !! id = Some row ∧ at_target row = t ∧ at_attempt_sequence row = n) ∧
      (db' = db ∨
       db_attempts db !! id = None ∧
       (∀ id' row, db_attempts db !! id' = Some row → at_target row = t →
          ¬ is_started row ∧ at_attempt_sequence row < n) ∧
       ct_current_content_version <$> db_catalog_targets db !! t
         = Some (bo_captured_catalog_content_version command) ∧
       load_attempt_catalog_indices db' id
         = catalog_sections_at db t (bo_captured_catalog_content_version command) ∧
       ∀ t', current_rows db' t' = current_rows db t')
  end.
Proof.
  intros Hwf t id. destruct (total _ db) as [[n|e] db'] eqn:Htot.
  - apply twp_of_total in Htot as Hrun. destruct (begin_checked _ _ _ _ Hrun) as (Hval & v & Hver).
    destruct (twp_Ok _ _ _ _ _ _ (begin_twp command None db) Hrun)
      as [(-> & row & Hrow & Hn & Hsame)|[Hbegun Hcat]].
    + split_and!; [done|by rewrite Htot| |by left]. exists row. split_and!; try done.
      unfold same_command in Hsame. rewrite !andb_true_iff, !bool_decide_eq_true in Hsame. naive_solver.
    + split; [by eapply begun_wf|].
      destruct Hbegun as (b & age & base & Hb & Hn & Hle & Hnone & Htgt & Hst & _ & Hbase & Hfit & ->).
      destruct (started_same_command command n age base Hbase) as [Hsame Hnobase].
      set (db' := with_begun _ _ _ _ _) in *.
      assert (db_attempts db' !! id = Some (started_attempt command n age base)) as Hrow
        by (simpl; apply lookup_insert_eq).
      apply (begin_version_targets _ _ _ db') in Hver; [|done].
      split_and!.
      * unfold total, run_tx. by rewrite (begin_repeated command db' _ v Hval Hver Hrow Hsame Hnobase).
      * eexists. by split_and!.
      * right. rewrite started_attempts_nil in Hst. split_and!; [done| |by apply Hcat| |done].
        -- intros id' row Hr Ht. split; [by eapply Hst|].
           destruct (wf_attempt _ Hwf _ _ Hr) as (b' & Hb' & Hseq). rewrite Ht in Hb'.
           unfold t in Hb'. rewrite Hb' in Hb. simpl in Hb. subst. lia.
        -- unfold load_attempt_catalog_indices; simpl. by rewrite lookup_insert_eq.
  - unfold total in Htot.
    destruct (twp_run _ _ _ _ (begin_twp command None db)) as (r & db1 & Hr & Hpost).
    unfold begin_open_pull_attempt in Htot. rewrite Hr in Htot. simpl in Htot. injection Htot as -> ->.
    by destruct Hpost.
Qed.

(** ** Committing a response *)

Lemma canonicalize_watched_Ok t l catalog w :
  canonicalize_watched_sections t l catalog = Ok w →
  w = list_to_set (sk_index <$> l) ∧ w ⊆ catalog ∧ Forall (λ s, sk_target s = t) l.
Proof.
  revert w. induction l as [|s l IH]; intros w; simpl; [intros [= <-]; set_solver|].
  case_bool_decide as Ht; [done|]. case_bool_decide as Hi; [done|].
  intros (w' & (-> & Hsub & Hall)%IH & [= <-])%result_bind_Ok.
  split_and!; [done|set_solver|by constructor].
Qed.

Lemma canonicalize_response_Ok t l n r :
  canonicalize_open_response t l n = Ok r →
  cr_canonical_indices r = list_to_set (sk_index <$> l) ∧ cr_source_value_count r = n ∧
  u64_checked_sub n (set_count (cr_canonical_indices r)) = Some (cr_duplicate_count r).
Proof.
  unfold canonicalize_open_response. destruct (forallb _ l); simpl; [|done].
  destruct (u64_checked_sub _ _) eqn:?; [|done]. by intros [= <-].
Qed.

(** The attempts of a commit that are pruned with it are not the one it applies. *)
Lemma pruned_current t db t' : tables_wf db → current_rows (pruned t db) t' = current_rows db t'.
Proof. intros Hwf. apply deleted_current; [done|]. by apply candidates_prunable, Hwf. Qed.

(** The sections of the events handed out are those of the rows, and each event
    has a new number and the state committed. *)
Lemma event_row_keys a id rid states seq at_ rows evs :
  Forall2 (event_row a id rid states seq at_) rows evs →
  (λ e, sk_index (ev_section e)) <$> evs = er_section_index <$> rows.
Proof.
  intros Hall. symmetry. apply list_eq_Forall2, Forall2_fmap_l, Forall2_fmap_r.
  eapply Forall2_impl; [exact Hall|]. intros r e (_ & _ & _ & _ & _ & _ & _ & Hk & _).
  destruct (SectionKey_try_new _ _ _) as [k|] eqn:Hkey; simpl in Hk; [|done]. injection Hk as ->.
  apply SectionKey_try_new_Ok in Hkey as [_ Hkey]. simpl. rewrite Hkey. simpl. by destruct (er_section_index r).
Qed.

Lemma event_row_committed a id rid states seq at_ rows evs n last e :
  event_log n rows last → Forall2 (event_row a id rid states seq at_) rows evs → e ∈ evs →
  n < ev_event_id e ∧ states !! sk_index (ev_section e) = Some (ev_state e).
Proof.
  intros Hlog Hall [k Hk]%list_elem_of_lookup.
  destruct (Forall2_lookup_r _ _ _ _ _ Hall Hk)
    as (r & Hr & Hst & _ & _ & _ & _ & _ & _ & Hkey & _ & Hid & _ & _ & _ & -> & _).
  destruct (SectionKey_try_new _ _ _) as [key|] eqn:Hnew; simpl in Hkey; [|done]. injection Hkey as <-.
  apply SectionKey_try_new_Ok in Hnew as [_ ->]. simpl. split.
  - rewrite Hid. apply list_elem_of_lookup_2 in Hr. by destruct (event_log_ids _ _ _ _ Hlog Hr).
  - by destruct (er_section_index r).
Qed.

(** C10. A response that is applied replaces what its target serves: afterwards
    every section of the catalog the pull was begun for, and no other, has a
    state, OPEN exactly for the indexes of the response; other targets keep
    theirs. The catalog is still the one captured, the observation takes the
    next number, and the events handed out are one for each watched section, in
    order, numbered after all earlier events, with the state now served. *)
Theorem commit_applied_exact (command : FinishOpenPullSuccessCommand) (db db' : OpenTables)
    (o : OpenCommitOutcome) :
  tables_wf db → total (finish_open_pull_success command) db = (Ok o, db') →
  is_success (co_classification o) = true →
  let id := fs_attempt_id command in
  ∃ row b commit, running id row b db ∧ let t := at_target row in
    (∀ i, cu_state <$> current_rows db' t !! i =
       if decide (i ∈ load_attempt_catalog_indices db id)
       then Some (if decide (i ∈ sk_index <$> fs_open_sections command)
                  then OpenSectionState_Open else OpenSectionState_Closed)
       else None) ∧
    (∀ t', t' ≠ t → current_rows db' t' = current_rows db t') ∧
    ct_current_content_version <$> db_catalog_targets db !! t
      = Some (at_captured_catalog_content_version row) ∧
    bs_lkg_attempt_id <$> db_batch db' !! t = Some (Some id) ∧
    co_observation_sequence o = Some (bs_last_observation_sequence b + 1) ∧
    co_observation_commit o = Some commit ∧
    (λ e, sk_index (ev_section e)) <$> cm_section_events commit
      = bts_iter (list_to_set (sk_index <$> fs_watched_sections command)) ∧
    ∀ e, e ∈ cm_section_events commit →
      db_last_event_id db < ev_event_id e ∧
      cu_state <$> current_rows db' t !! sk_index (ev_section e) = Some (ev_state e).
Proof.
  intros Hwf Hrun%twp_of_total Hsuc id. subst id.
  pose proof (twp_Ok _ _ _ _ _ _ (finish_success_twp command false db) Hrun) as Hcom.
  destruct Hcom as (row & b & response & v & bc & sc & Hrunning & Hresp & Hv & Hc). cbv zeta in Hc.
  rewrite andb_false_l, orb_false_r in Hc.
  destruct (bool_decide (v = at_captured_catalog_content_version row)) eqn:Hcur;
    [|by destruct Hc as [_ ->]].
  apply bool_decide_eq_true in Hcur as ->.
  destruct (is_success (classify_open_response _ _ _ _)) eqn:Hcl;
    [|destruct Hc as [_ ->]; exfalso; exact (eq_true_false_abs _ Hsuc Hcl)].
  destruct (canonicalize_response_Ok _ _ _ _ Hresp) as (Hidx & _ & _).
  destruct Hc as (b' & f & ob & watched & rows & last & daily & runc & commit & Hb & Hf & _ & Htob
      & Hseq & Hder & Hver & Hat & Hhash & Hst & _ & _ & Hnone & _ & Hw & Hrows & Hlog & Hall
      & Hbal & _ & _ & _ & _ & Hos & _ & _ & _ & _ & _ & _ & _ & _ & Hcm & _ & _ & _ & _ & ->).
  pose proof Hrunning as (_ & _ & _ & Hb' & _). simpl in Hb. assert (b' = b) as -> by congruence.
  simpl sa_target in *.
  assert (tables_wf (with_applied (started_of row) (fs_attempt_id command) f ob
    (intended_states (load_attempt_catalog_indices db (fs_attempt_id command))
      (cr_canonical_indices response)) rows last daily runc db)) as Hwf1.
  { rewrite <-Hat in Hall. eapply applied_wf; [done|exact Hrunning|exact Hf|exact Hcl|done..
      |exact Hall|exact Hbal]. }
  pose proof (λ t', pruned_current (at_target row) _ t' Hwf1) as Hcurr.
  apply canonicalize_watched_Ok in Hw as (-> & _ & _).
  exists row, b, commit. split; [done|]. cbv zeta. split_and!; [| |done| | |done| |].
  - intros i. rewrite Hcurr, applied_current, decide_True by done. rewrite lookup_fmap, <-option_fmap_compose.
    destruct (_ !! i) as [s|] eqn:Hs; simpl.
    + apply intended_states_lookup in Hs as [Hi ->]. rewrite decide_True by done. f_equal.
      rewrite Hidx. by repeat case_decide || case_bool_decide; set_solver.
    + destruct (decide (i ∈ _)) as [Hi|]; [|done].
      by rewrite <-(intended_states_dom _ (cr_canonical_indices response)), elem_of_dom, Hs in Hi; destruct Hi.
  - intros t' Ht. by rewrite Hcurr, applied_current, decide_False.
  - simpl. rewrite lookup_alter_eq, Hb. done.
  - by rewrite Hos, Hseq.
  - by rewrite (event_row_keys _ _ _ _ _ _ _ _ Hall).
  - intros e He. destruct (event_row_committed _ _ _ _ _ _ _ _ _ _ _ Hlog Hall He) as [Hid Hst'].
    split; [done|]. rewrite Hcurr, applied_current, decide_True by done.
    rewrite lookup_fmap, <-option_fmap_compose. by rewrite Hst'.
Qed.

(** ** Withholding *)

(** What a target serves and the numbers it has given. *)
Definition lkg_columns (b : BatchRow) :=
  (bs_lkg_attempt_id b, bs_lkg_observation_sequence b, bs_lkg_observed_at b,
   bs_lkg_canonical_set_sha256 b, bs_lkg_state_sha256 b, bs_current_catalog_content_version b,
   bs_last_observation_sequence b, bs_last_success_at b).

Lemma size_list_to_set_le {A} `{Countable A} (l : list A) : (size (list_to_set l : gset A) ≤ length l)%nat.
Proof.
  induction l as [|x l IH]; [by rewrite list_to_set_nil, size_empty|]. rewrite length_cons, list_to_set_cons.
  rewrite size_union_alt, size_singleton.
  transitivity (1 + size (list_to_set l : gset A))%nat; [|lia].
  apply Nat.add_le_mono_l, subseteq_size. set_solver.
Qed.

Lemma length_candidates db t retain limit : (length (candidate_attempts db t retain limit) ≤ limit)%nat.
Proof. unfold candidate_attempts. rewrite length_take. lia. Qed.

(** The attempts of a target begun after its attempt number [n]. *)
Definition newer_attempts (db : OpenTables) (t : TermCampusKey) (n : Z) : gset TraceId :=
  dom (filter (λ p, at_target p.2 = t ∧ n < at_attempt_sequence p.2) (db_attempts db)).

Lemma elem_of_newer_attempts db t n id :
  id ∈ newer_attempts db t n ↔ ∃ row, db_attempts db !! id = Some row ∧ at_target row = t ∧ n < at_attempt_sequence row.
Proof.
  unfold newer_attempts. rewrite elem_of_dom. unfold is_Some. setoid_rewrite map_lookup_filter_Some. naive_solver.
Qed.

(** Attempts of a target that its retention may delete: at most eight, all
    finished, not the one that is served, and each with at least 256 newer ones. *)
Definition attempt_expired (db : OpenTables) (t : TermCampusKey) (gone : gset TraceId) : Prop :=
  (size gone ≤ 8)%nat ∧
  ∀ id, id ∈ gone → ∃ row, db_attempts db !! id = Some row ∧ at_target row = t ∧ ¬ is_started row
    ∧ (db_batch db !! t ≫= bs_lkg_attempt_id) ≠ Some id
    ∧ (256 ≤ size (newer_attempts db t (at_attempt_sequence row)))%nat.

Lemma beyond_take {A} (R : A → A → Prop) (l : list A) n x :
  StronglySorted R l → x ∈ l → x ∉ take n l → length (take n l) = n ∧ ∀ y, y ∈ take n l → R y x.
Proof.
  intros Hs Hx Hn. rewrite <-(take_drop n l) in Hs, Hx. apply elem_of_app in Hx as [?|Hx]; [done|].
  apply StronglySorted_app in Hs as (Hs & _ & _). split; [|intros y Hy; by apply Hs].
  rewrite length_take. apply list_elem_of_lookup in Hx as [i Hi]. apply lookup_lt_Some in Hi.
  rewrite length_drop in Hi. lia.
Qed.

Lemma attempts_desc_newer db t n id row :
  attempts_wf db → db_attempts db !! id = Some row → at_target row = t → id ∉ take n (attempts_desc db t).*1 →
  (n ≤ size (newer_attempts db t (at_attempt_sequence row)))%nat.
Proof.
  intros Hwf Hrow Ht Hn.
  assert ((id, row) ∈ attempts_desc db t) as Hin by by apply attempts_desc_elem.
  assert ((id, row) ∉ take n (attempts_desc db t)) as Hn'.
  { intros Hx. apply Hn. rewrite <-fmap_take. by apply (list_elem_of_fmap_2 fst _ (id, row)). }
  set (cmp := λ a b : TraceId * AttemptRow, Z.compare (at_attempt_sequence b.2) (at_attempt_sequence a.2)).
  assert (StronglySorted (cmp_le cmp) (attempts_desc db t)) as Hsorted
    by exact (@sort_by_sorted _ cmp (cmp_swap_comparator _ (cmp_on_comparator rcmp
                (λ p : TraceId * AttemptRow, at_attempt_sequence p.2) rcmp_comparator)) _).
  destruct (beyond_take _ _ n _ Hsorted Hin Hn') as [Hlen Hle].
  rewrite <-Hlen at 1. rewrite <-(length_fmap fst).
  assert (NoDup (take n (attempts_desc db t)).*1) as Hnd.
  { rewrite fmap_take. apply (sublist_NoDup _ (attempts_desc db t).*1), sublist_take.
    unfold attempts_desc. rewrite sort_by_perm. apply NoDup_fmap_filter, NoDup_fst_map_to_list. }
  rewrite <-(size_list_to_set (C := gset TraceId)) by done. apply subseteq_size.
  intros id' ([k row'] & -> & Hk)%elem_of_list_to_set%list_elem_of_fmap. cbn.
  specialize (Hle _ Hk). apply elem_of_newer_attempts. exists row'.
  assert (db_attempts db !! k = Some row' ∧ at_target row' = t) as [Hrow' Ht'].
  { apply attempts_desc_elem. by apply elem_of_take in Hk as (i & Hi & _); apply list_elem_of_lookup_2 in Hi. }
  split_and!; [done..|].
  change (Z.compare (at_attempt_sequence row) (at_attempt_sequence row') ≠ Gt) in Hle. rewrite Z.compare_gt_iff in Hle.
  assert (at_attempt_sequence row ≠ at_attempt_sequence row'); [|lia]. intros Hseq.
  assert (id = k) as <- by (eapply (wf_sequence _ Hwf); [done|done|congruence|done]).
  assert (row' = row) as -> by congruence. done.
Qed.

Lemma candidates_expired db t :
  attempts_wf db → attempt_expired db t (list_to_set (candidate_attempts db t 256 8)).
Proof.
  intros Hwf. split; [etransitivity; [apply size_list_to_set_le|apply length_candidates]|].
  intros id (row & Hrow & Ht & Hs & Hl & Hn)%elem_of_list_to_set%candidate_attempts_elem.
  exists row. split_and!; [done..|]. by eapply attempts_desc_newer.
Qed.

(** What may be deleted once the running attempt is finished could be deleted
    before: the attempt itself is the newest one. *)
Lemma finished_expired id row b f g daily runc c db gone :
  attempts_wf db → running id row b db → not_applied c f → (∀ b, bs_lkg_attempt_id (g b) = bs_lkg_attempt_id b) →
  attempt_expired (with_finished (started_of row) id f g daily runc db) (at_target row) gone →
  attempt_expired db (at_target row) gone.
Proof.
  intros Hwf (Hrow & _ & _ & Hb & Hlast & _) Hf Hg [Hsize Hgone]. split; [done|]. intros id' Hid'.
  destruct (Hgone _ Hid') as (row' & Hrow' & Ht & Hs & Hl & Hnew). cbn in Hrow', Hl.
  assert (newer_attempts (with_finished (started_of row) id f g daily runc db) (at_target row) (at_attempt_sequence row')
          = newer_attempts db (at_target row) (at_attempt_sequence row')) as Heq.
  { apply set_eq. intros k. rewrite !elem_of_newer_attempts. cbn. destruct (decide (id = k)) as [<-|Hk].
    - rewrite lookup_alter_eq, Hrow. cbn. destruct (Hf row) as (Hft & Hfs & _). naive_solver congruence.
    - by rewrite lookup_alter_ne. }
  rewrite Heq in Hnew. destruct (decide (id = id')) as [<-|Hne].
  - rewrite lookup_alter_eq, Hrow in Hrow'. injection Hrow' as <-. destruct (Hf row) as (_ & Hfs & _).
    assert (newer_attempts db (at_target row) (at_attempt_sequence (f row)) = ∅) as Hempty.
    { apply elem_of_equiv_empty_L. intros k (rk & Hk & Htk & Hlt)%elem_of_newer_attempts.
      destruct (wf_attempt _ Hwf _ _ Hk) as (bk & Hbk & Hle). rewrite Htk in Hbk. simplify_eq. lia. }
    rewrite Hempty, size_empty in Hnew. lia.
  - rewrite lookup_alter_ne in Hrow' by done. exists row'. split_and!; [done..| |done].
    rewrite lookup_alter_eq, Hb in Hl. cbn in Hl. by rewrite Hg in Hl; rewrite Hb.
Qed.

Lemma withheld_retains id row c completed hash gate empty db db' b :
  tables_wf db → running id row b db → c ≠ OpenAttemptClassification_Started →
  withheld id row c completed hash gate empty db db' →
  (∀ t, current_rows db' t = current_rows db t) ∧
  (∀ t, lkg_columns <$> db_batch db' !! t = lkg_columns <$> db_batch db !! t) ∧
  ∃ gone, attempt_expired db (at_target row) gone
    ∧ dom (db_attempts db') = dom (db_attempts db) ∖ gone
    ∧ db_events db' = filter (λ e, er_attempt_id e ∉ gone) (db_events db).
Proof.
  intros Hwf Hrun Hc (f & failure & daily & runc & Hf & _ & _ & Hbal & ->).
  assert (tables_wf (with_finished (started_of row) id f (with_last_failure failure) daily runc db)) as Hwf1.
  { eapply finished_wf; [done|exact Hrun| |exact Hbal]. by split_and!. }
  split_and!.
  - intros t. by rewrite pruned_current.
  - intros t. simpl. destruct (decide (at_target row = t)) as [<-|].
    + rewrite lookup_alter_eq. by destruct (db_batch db !! at_target row).
    + by rewrite lookup_alter_ne.
  - eexists. split_and!; [|apply set_eq; intros k|reflexivity].
    + eapply finished_expired; [apply Hwf|exact Hrun|exact Hf| |apply candidates_expired, Hwf1]. done.
    + cbn. rewrite elem_of_difference, !elem_of_dom. unfold is_Some. setoid_rewrite map_lookup_filter_Some. cbn.
      destruct (decide (id = k)) as [<-|]; [rewrite lookup_alter_eq|rewrite lookup_alter_ne by done];
        destruct (db_attempts db !! _); naive_solver.
Qed.

Lemma classify_not_started canonical catalog n hold :
  classify_open_response canonical catalog n hold ≠ OpenAttemptClassification_Started.
Proof. unfold classify_open_response. by repeat case_match. Qed.

(** C12. A response that is withheld as unsafe, suspect or stale, and a failure,
    leave what every target serves: the state of every section, and the last
    known good attempt with its number, digests and catalog version. They add no
    event; the only attempts and events that go are those of at most eight
    attempts of the target that its retention deletes with the commit: finished
    ones, not the one that is served, with at least 256 newer ones each. All
    other events stay, in their order. The outcome names the observation that is
    retained and carries none. *)
Theorem withheld_commit_retains (db db' : OpenTables) (o : OpenCommitOutcome)
    (commit : FinishOpenPullSuccessCommand + FinishOpenPullFailureCommand) :
  tables_wf db →
  match commit with
  | inl command => total (finish_open_pull_success command) db
  | inr command => total (finish_open_pull_failure command) db
  end = (Ok o, db') →
  is_success (co_classification o) = false →
  (∀ t, current_rows db' t = current_rows db t) ∧
  (∀ t, lkg_columns <$> db_batch db' !! t = lkg_columns <$> db_batch db !! t) ∧
  co_observation_commit o = None ∧ co_observation_sequence o = None ∧
  ∃ row b, running (co_attempt_id o) row b db ∧ co_retained_lkg_attempt_id o = bs_lkg_attempt_id b ∧
    ∃ gone, attempt_expired db (at_target row) gone
      ∧ dom (db_attempts db') = dom (db_attempts db) ∖ gone
      ∧ db_events db' = filter (λ e, er_attempt_id e ∉ gone) (db_events db).
Proof.
  intros Hwf Hrun Hsuc. destruct commit as [command|command]; apply twp_of_total in Hrun.
  - destruct (twp_Ok _ _ _ _ _ _ (finish_success_twp command false db) Hrun)
      as (row & b & response & v & bc & sc & Hrunning & _ & _ & Hc). cbv zeta in Hc.
    rewrite andb_false_l, orb_false_r in Hc.
    destruct (bool_decide (v = at_captured_catalog_content_version row)) eqn:Hcur.
    + destruct (is_success (classify_open_response _ _ _ _)) eqn:Hcl.
      * destruct Hc as (?&?&?&?&?&?&?&?&?&Hc).
        repeat match goal with H : _ ∧ _ |- _ => destruct H as [? H] end. exfalso.
        apply (eq_true_false_abs _ Hcl). congruence.
      * destruct Hc as [Hw ->].
        destruct (withheld_retains _ _ _ _ _ _ _ _ _ _ Hwf Hrunning (classify_not_started _ _ _ _) Hw)
          as (? & ? & ?).
        split_and!; try done. exists row, b. by split_and!.
    + destruct Hc as [Hw ->].
      assert (OpenAttemptClassification_StaleCatalogRace ≠ OpenAttemptClassification_Started) as Hne by done.
      destruct (withheld_retains _ _ _ _ _ _ _ _ _ _ Hwf Hrunning Hne Hw) as (? & ? & ?).
      split_and!; try done. exists row, b. by split_and!.
  - destruct (twp_Ok _ _ _ _ _ _ (finish_failure_twp command db) Hrun)
      as (row & b & Hrunning & Hw & Hid & _ & _ & Hn & Hcm & Hl).
    assert (OpenAttemptClassification_Failed ≠ OpenAttemptClassification_Started) as Hne by done.
    destruct (withheld_retains _ _ _ _ _ _ _ _ _ _ Hwf Hrunning Hne Hw) as (? & ? & ?).
    split_and!; try done. exists row, b. rewrite Hid. by split_and!.
Qed.

(** ** Retention *)

Lemma deleted_size ids db :
  (∀ id, id ∈ ids → is_Some (db_attempts db !! id)) →
  (size (db_attempts (delete_attempts ids db)) + size ids = size (db_attempts db))%nat.
Proof.
  intros Hin. rewrite <-!size_dom. simpl.
  assert (dom (filter (λ p, p.1 ∉ ids) (db_attempts db)) = dom (db_attempts db) ∖ ids) as ->.
  { apply set_eq. intros id. rewrite elem_of_difference, !elem_of_dom. split.
    - intros [row [Hr Hi]%map_lookup_filter_Some]. by split; [exists row|].
    - intros [[row Hr] Hi]. exists row. by apply map_lookup_filter_Some. }
  assert (ids ⊆ dom (db_attempts db)) as Hsub by (intros id Hid; by apply elem_of_dom, Hin).
  rewrite size_difference by done. apply subseteq_size in Hsub. lia.
Qed.

(** C28. Pruning deletes at most eight attempts of the target, none of them
    running, the last known good one or among the most recent [retain_recent];
    it keeps what every target serves and all counters, and it is refused for
    fewer than 256 attempts. *)
Theorem prune_retention (t : TermCampusKey) (retain_recent : Z) (db : OpenTables) :
  tables_wf db →
  match total (prune_open_diagnostics t retain_recent) db with
  | (Err _, db') => db' = db
  | (Ok report, db') =>
      256 ≤ retain_recent ∧ tables_wf db' ∧
      0 ≤ rr_attempts_removed report ≤ 8 ∧
      Z.of_nat (size (db_attempts db')) = Z.of_nat (size (db_attempts db)) - rr_attempts_removed report ∧
      (∀ id row, db_attempts db !! id = Some row → db_attempts db' !! id = None →
         at_target row = t ∧ ¬ is_started row ∧
         (db_batch db !! t ≫= bs_lkg_attempt_id) ≠ Some id ∧
         id ∉ take (Z.to_nat retain_recent) (attempts_desc db t).*1) ∧
      (∀ id row, db_attempts db' !! id = Some row → db_attempts db !! id = Some row) ∧
      (∀ t', current_rows db' t' = current_rows db t') ∧
      db_batch db' = db_batch db ∧ db_daily db' = db_daily db ∧ db_run db' = db_run db
  end.
Proof.
  intros Hwf. destruct (total _ db) as [r db'] eqn:Htot.
  assert (twp (prune_open_diagnostics t retain_recent) db (λ report db', 256 ≤ retain_recent ∧
    let ids : gset TraceId := list_to_set (candidate_attempts db t (Z.to_nat retain_recent) 8) in
    rr_attempts_removed report = Z.of_nat (size ids) ∧ db' = delete_attempts ids db) (λ _, True)) as Htwp.
  { unfold prune_open_diagnostics, prune_open_diagnostics_transaction.
    case_bool_decide as Hn; [done|]. unfold OPEN_DIAGNOSTIC_RETENTION_PER_TARGET in Hn. tx_steps.
    repeat match goal with H : positive_u64_to_i64 _ _ = _ |- _ =>
      unfold positive_u64_to_i64 in H; case_bool_decide; [done|]; apply u64_to_i64_Ok in H as [-> _]
    end. split; [lia|done]. }
  pose proof (twp_total _ _ _ _ _ _ Htwp Htot) as Hpost. destruct r as [report|e]; [|by destruct Hpost].
  destruct Hpost as (Hret & Hrem & ->). cbv zeta in Hrem. rewrite Hrem.
  set (ids := list_to_set _ : gset TraceId) in *.
  pose proof (candidates_prunable db t (Z.to_nat retain_recent) 8 (tables_serving _ Hwf)) as Hids.
  fold ids in Hids.
  assert (∀ id, id ∈ ids → ∃ row, db_attempts db !! id = Some row ∧ at_target row = t ∧
    ¬ is_started row ∧ (db_batch db !! t ≫= bs_lkg_attempt_id) ≠ Some id ∧
    id ∉ take (Z.to_nat retain_recent) (attempts_desc db t).*1) as Hin.
  { intros id Hid%elem_of_list_to_set. by apply candidate_attempts_elem in Hid. }
  split_and!; try done.
  - by apply deleted_wf.
  - lia.
  - assert (size ids ≤ 8)%nat; [|lia]. unfold ids. etransitivity; [apply size_list_to_set_le|].
    apply length_candidates.
  - pose proof (deleted_size ids db) as Hsize. rewrite <-Hsize; [lia|].
    intros id Hid. destruct (Hin _ Hid) as (row & Hrow & _). by exists row.
  - intros id row Hrow Hnone. destruct (decide (id ∈ ids)) as [Hi|Hi].
    + destruct (Hin _ Hi) as (row' & Hrow' & ? & ? & ? & ?). by simplify_eq.
    + simpl in Hnone. rewrite map_lookup_filter_None in Hnone. destruct Hnone as [Hnone|Hnone]; [congruence|].
      by destruct (Hnone _ Hrow).
  - intros id row. simpl. by intros [? _]%map_lookup_filter_Some.
  - intros t'. by apply deleted_current.
Qed.
End spec.

(** * A target with three sections, followed through its pulls *)

Module StorageExample.

#[local] Existing Instance concrete_sha256_api.
#[local] Instance example_rfc3339 : Rfc3339Api := {|
  format_rfc3339 t := if bool_decide (0 ≤ t) then Some (pretty t) else None;
  parse_rfc3339 s := if bool_decide (s = "") then None else Some (decimal_value s)
|}.
#[local] Instance example_dates : TimeDateApi := λ _ _ day, bool_decide (1 ≤ day ≤ 31).

Definition example_tables : OpenTables := {|
  db_catalog_targets := {[ example_nb := {| ct_current_content_version := 1; ct_section_count := 3 |} ]};
  db_catalog_sections := list_to_map ((λ i, ((example_nb, sk_index (example_section i)), 1))
    <$> ["00001"; "00002"; "00003"]);
  db_catalog_observations := ∅; db_staging_sections := ∅; db_batch := ∅; db_attempts := ∅;
  db_membership := ∅; db_observations := ∅; db_current := ∅; db_events := [];
  db_last_event_id := 0; db_daily := ∅; db_run := ∅ |}.

Definition begin_command (id : TraceId) (at_ : string) : BeginOpenPullAttemptCommand := {|
  bo_attempt_id := id; bo_run_id := 6%N; bo_target := example_nb;
  bo_captured_catalog_content_version := 1; bo_rutgers_day := "2026-03-10"; bo_started_at := at_;
  bo_lane := OpenRequestLane_General; bo_requested_interval_seconds := Some 30;
  bo_effective_interval_seconds := Some 30; bo_schedule_lag_ms := Some 2 |}.

Definition example_http : OpenHttpAuditMetadata := {|
  ha_http_status := Some 200; ha_cache_status := None; ha_decoded_bytes := Some 18;
  ha_decoded_body_sha256 := Some (sha256_hex "body"); ha_content_type := Some "application/json";
  ha_etag := None; ha_cache_control := None; ha_date := None; ha_age_seconds := None;
  ha_last_modified := None; ha_retry_after := None; ha_retry_after_seconds := None |}.

Definition success_command (id : TraceId) (completed : string) (open : list string) : FinishOpenPullSuccessCommand := {|
  fs_attempt_id := id; fs_completed_at := completed; fs_open_sections := example_section <$> open;
  fs_source_value_count := 3; fs_watched_sections := [example_section "00002"];
  fs_http := example_http; fs_gate_hold := false; fs_gate_catalog_set_identity := None |}.

Definition opened : OpenTables :=
  (total (begin_open_pull_attempt (begin_command 5 "1000")) example_tables).2.
Definition served : OpenTables :=
  (total (finish_open_pull_success (success_command 5 "2000" ["00002"; "00003"])) opened).2.
Definition reopened : OpenTables :=
  (total (begin_open_pull_attempt (begin_command 7 "3000")) served).2.

Lemma total_step {A} (m : Tx A) db a :
  (total m db).1 = Ok a → m db = Some (Ok (a, (total m db).2)).
Proof. intros Hok. apply twp_of_total. by rewrite <-Hok, <-surjective_pairing. Qed.

(** The outcome of a commit that is known to succeed. *)
Definition outcome_of (r : result StorageError OpenCommitOutcome * OpenTables) : option OpenCommitOutcome :=
  match r.1 with Ok o => Some o | Err _ => None end.

Lemma outcome_of_ok m db o : outcome_of (total m db) = Some o → total m db = (Ok o, (total m db).2).
Proof. unfold outcome_of. destruct (total m db) as [[?|?] ?]; simpl; congruence. Qed.

Lemma example_steps : rtc storage_step example_tables reopened.
Proof.
  apply rtc_l with opened; [by eapply step_begin, (total_step _ _ 1); vm_compute|].
  apply rtc_l with served.
  - destruct (outcome_of (total (finish_open_pull_success (success_command 5 "2000" ["00002"; "00003"])) opened))
      as [o|] eqn:Ho; [|by vm_compute in Ho]. apply outcome_of_ok in Ho.
    eapply step_success, (total_step _ _ o). by rewrite Ho.
  - apply rtc_once. by eapply step_begin, (total_step _ _ 2); vm_compute.
Qed.

Lemma example_untouched : untouched example_tables.
Proof. done. Qed.

Lemma example_wf db : rtc storage_step example_tables db → tables_wf db.
Proof.
  intros Hsteps. assert (tables_wf example_tables) as Hwf by by apply untouched_wf.
  revert Hwf. induction Hsteps as [|db1 db2 db3 Hstep _ IH]; [done|]. intros Hwf.
  by eapply IH, storage_step_wf.
Qed.

Lemma opened_wf : tables_wf opened.
Proof. apply example_wf, rtc_once. by eapply step_begin, (total_step _ _ 1); vm_compute. Qed.

Lemma open_tables_invariant_witness : tables_wf reopened.
Proof. apply (open_tables_invariant example_tables); [exact example_untouched|exact example_steps]. Defined.

Lemma recovery_completes_witness :
  ∃ db', recover_interrupted_open_attempts 4000 reopened = Some (Ok ((), db')) ∧ same_served reopened db'.
Proof.
  destruct (recovery_completes 4000 5000 reopened (example_wf _ example_steps)) as (db' & H1 & _ & H2 & _);
    [by eexists|].
  exists db'. by split.
Defined.

Lemma begin_open_pull_spec_witness :
  total (begin_open_pull_attempt (begin_command 5 "1000")) example_tables = (Ok 1, opened) ∧
  total (begin_open_pull_attempt (begin_command 5 "1000")) opened = (Ok 1, opened).
Proof.
  pose proof (begin_open_pull_spec (begin_command 5 "1000") example_tables
    (untouched_wf _ example_untouched)) as Hpost.
  assert (total (begin_open_pull_attempt (begin_command 5 "1000")) example_tables = (Ok 1, opened)) as Hrun.
  { rewrite (surjective_pairing (total _ _)). by f_equal; vm_compute. }
  rewrite Hrun in Hpost. cbv zeta in Hpost. split; [exact Hrun|apply Hpost].
Defined.

Lemma commit_applied_exact_witness : ∃ o row b,
  total (finish_open_pull_success (success_command 5 "2000" ["00002"; "00003"])) opened = (Ok o, served) ∧
  running 5 row b opened ∧ co_observation_sequence o = Some (bs_last_observation_sequence b + 1).
Proof.
  destruct (outcome_of (total (finish_open_pull_success (success_command 5 "2000" ["00002"; "00003"])) opened))
      as [o|] eqn:Ho; [|by vm_compute in Ho].
  pose proof (outcome_of_ok _ _ _ Ho) as Hrun. exists o.
  destruct (commit_applied_exact _ _ _ _ opened_wf Hrun) as (row & b & commit & Hr & _ & _ & _ & _ & Hseq & _);
    [vm_compute in Ho; by injection Ho as <-|].
  exists row, b. by split_and!.
Defined.

Lemma withheld_commit_retains_witness : ∃ db' o,
  total (finish_open_pull_success (success_command 7 "4000" ["99999"])) reopened = (Ok o, db') ∧
  ∀ t, current_rows db' t = current_rows reopened t.
Proof.
  destruct (outcome_of (total (finish_open_pull_success (success_command 7 "4000" ["99999"])) reopened))
      as [o|] eqn:Ho; [|by vm_compute in Ho].
  pose proof (outcome_of_ok _ _ _ Ho) as Hrun. eexists _, o. split; [exact Hrun|].
  destruct (withheld_commit_retains reopened _ o
    (inl (success_command 7 "4000" ["99999"])) (example_wf _ example_steps) Hrun) as [Hc _]; [|exact Hc].
  vm_compute in Ho. by injection Ho as <-.
Defined.

Lemma prune_retention_witness : db_batch (total (prune_open_diagnostics example_nb 256) reopened).2
    = db_batch reopened.
Proof.
  pose proof (prune_retention example_nb 256 reopened (example_wf _ example_steps)) as Hpost.
  destruct (total _ _) as [[r|e] db']; [apply Hpost|by rewrite Hpost].
Defined.

End StorageExample.
