(* ===== verification/OpenStoreAgree.v ===== *)
(** * The service and the storage agree

    The service reconciles a response against the catalog it reads before it
    commits, the storage classifies it again against the catalog of the attempt:
    the outcome of the commit matches the plan, whatever other operations commit
    in between. *)

From stdpp Require Import pretty.
From S2P Require Import Prelude Ordering Identity Contracts RustStr TermWindow TermWindowFacts Policy.
From S2P Require Import Reconcile OpenClient OpenClientFacts Gate Scheduler OpenStore OpenService OpenPullFacts.
From S2P Require Import OpenTables OpenCommands OpenTransactions OpenTxFacts OpenStoreFacts OpenStoreSpec.

(** ** What a plan counts *)

Section plans.
Context `{Sha256Api}.

Lemma observed_intersection_size cat e :
  zlen (observed_intersection cat e) = set_count (ose_indexes e ∩ dom (cob_sections cat)).
Proof.
  unfold zlen, set_count, observed_intersection. f_equal.
  rewrite <-(size_list_to_set (C := gset SectionIndex)).
  - apply (f_equal size), set_eq. intros i.
    rewrite elem_of_list_to_set, list_elem_of_filter, elem_of_bts_iter, elem_of_intersection, elem_of_dom.
    naive_solver.
  - apply NoDup_filter, NoDup_bts_iter.
Qed.

(** The classification of the storage in the service's terms. *)
Definition classification_agrees (c : OpenReconcileClassification) (s : OpenAttemptClassification)
    : Prop :=
  match c with
  | OpenReconcileClassification_ValidApplied => s = OpenAttemptClassification_ValidApplied
  | OpenReconcileClassification_ValidEmptyNoRows => s = OpenAttemptClassification_ValidEmptyNoRows
  | OpenReconcileClassification_UnsafeZeroIntersection =>
      s = OpenAttemptClassification_UnsafeZeroIntersection
  | OpenReconcileClassification_SuspectPartialSnapshot =>
      s = OpenAttemptClassification_SuspectPartialSnapshot
  | _ => False
  end.

Lemma orphan_size (s d : gset SectionIndex) : set_count (s ∖ d) = set_count s - set_count (s ∩ d).
Proof.
  unfold set_count. rewrite size_difference_alt.
  assert (size (s ∩ d) ≤ size s)%nat by (apply subseteq_size; set_solver). lia.
Qed.

Lemma reconcile_open_set_counts captured cat e hold plan :
  reconcile_open_set captured cat e hold = Ok plan → counts_fit cat e →
  ose_target e = cob_target cat ∧
  (captured = cob_content_version cat →
     orp_current_catalog_content_version plan = captured ∧
     orp_raw_value_count plan = ose_raw_value_count e ∧
     orp_duplicate_count plan = ose_duplicate_count e ∧
     orp_catalog_section_count plan = set_count (dom (cob_sections cat)) ∧
     orp_observed_intersection_count plan = set_count (ose_indexes e ∩ dom (cob_sections cat)) ∧
     orp_orphan_count plan = set_count (ose_indexes e ∖ dom (cob_sections cat)) ∧
     classification_agrees (orp_classification plan)
       (classify_open_response (ose_indexes e) (dom (cob_sections cat))
          (set_count (ose_indexes e ∩ dom (cob_sections cat))) hold)).
Proof.
  intros Hplan [Hfc Hfe]. unfold reconcile_open_set in Hplan. case_bool_decide as Ht; [done|].
  split; [done|]. intros ->. rewrite bool_decide_false in Hplan by auto.
  assert (set_count (dom (cob_sections cat)) = Z.of_nat (size (cob_sections cat))) as Hdom
    by (unfold set_count; by rewrite size_dom).
  assert (size (ose_indexes e ∩ dom (cob_sections cat)) ≤ size (ose_indexes e))%nat
    by (apply subseteq_size; set_solver).
  assert (∀ c orphan updates, orphan = set_count (ose_indexes e ∖ dom (cob_sections cat)) →
    let p := reconcile_base (cob_content_version cat) cat e (zlen (observed_intersection cat e)) c orphan updates in
    orp_current_catalog_content_version p = cob_content_version cat ∧
    orp_raw_value_count p = ose_raw_value_count e ∧ orp_duplicate_count p = ose_duplicate_count e ∧
    orp_catalog_section_count p = set_count (dom (cob_sections cat)) ∧
    orp_observed_intersection_count p = set_count (ose_indexes e ∩ dom (cob_sections cat)) ∧
    orp_orphan_count p = set_count (ose_indexes e ∖ dom (cob_sections cat))) as Hbase.
  { intros c orphan updates ->. cbv zeta. unfold reconcile_base. cbn. rewrite observed_intersection_size, Hdom.
    rewrite orphan_size. unfold u64_try_from_or_max, set_count in *. split_and!; try done; lia. }
  assert (cob_sections cat = ∅ ↔ dom (cob_sections cat) = ∅) as Hempty.
  { split; [by intros ->|]. apply dom_empty_inv_L. }
  unfold classify_open_response. case_bool_decide as He.
  - assert (0 = set_count (ose_indexes e ∖ dom (cob_sections cat))) as Horph.
    { rewrite He. unfold set_count.
      assert ((∅ : gset SectionIndex) ∖ dom (cob_sections cat) = ∅) as -> by set_solver.
      by rewrite size_empty. }
    case_bool_decide as Hc; [rewrite bool_decide_true by tauto|rewrite bool_decide_false by tauto].
    + injection Hplan as <-. destruct (Hbase OpenReconcileClassification_ValidEmptyNoRows 0 [] Horph)
        as (?&?&?&?&?&?). by split_and!.
    + destruct hold; injection Hplan as <-;
        edestruct Hbase as (?&?&?&?&?&?); try exact Horph; by split_and!.
  - rewrite observed_intersection_size in Hplan.
    set (n := set_count (ose_indexes e ∩ dom (cob_sections cat))) in *.
    assert (saturating_sub (Z.of_nat (size (ose_indexes e))) n
            = set_count (ose_indexes e ∖ dom (cob_sections cat))) as Horph.
    { rewrite orphan_size. fold n. unfold n, set_count, saturating_sub. lia. }
    assert (bool_decide (dom (cob_sections cat) ≠ ∅) && bool_decide (n = 0)
            = bool_decide (cob_sections cat ≠ ∅ ∧ n = 0)) as ->.
    { rewrite <-bool_decide_and. apply bool_decide_ext. tauto. }
    rewrite observed_intersection_size in Hbase. fold n in Hbase.
    case_bool_decide; [|destruct hold]; injection Hplan as <-;
        edestruct Hbase as (?&?&?&?&?&?); try exact Horph; by split_and!.
Qed.

End plans.

(** ** A snapshot as a batch *)

Section agreement.
Context `{Rfc3339Api, TimeDateApi, Sha256Api}.

Lemma mapM_section_keys t l keys :
  mapM (section_key_at t) l = Ok keys → sk_index <$> keys = l.
Proof.
  revert keys. induction l as [|i l IH]; intros keys; simpl; [by intros [= <-]|].
  intros (k & Hk & (keys' & Hkeys & [= <-])%result_bind_Ok)%result_bind_Ok.
  rewrite fmap_cons, (IH _ Hkeys). f_equal. unfold section_key_at in Hk.
  destruct (SectionKey_try_new _ _ _) as [k'|] eqn:Hkey; simpl in Hk; [|done]. injection Hk as <-.
  apply SectionKey_try_new_Ok in Hkey as [_ ->]. simpl. by destruct i.
Qed.

(** The batch built from what a target serves has the sections of the version
    served. *)
Lemma serving_batch t db db' snapshot version cat :
  total (serving_open_catalog_snapshot t) db = (Ok (Some snapshot), db') →
  CatalogOpenBatch_try_new (cs_target snapshot) version (cs_sections snapshot) = Ok cat →
  db' = db ∧ cob_target cat = t ∧ cob_content_version cat = version ∧
  ct_current_content_version <$> db_catalog_targets db !! t = Some (cs_content_version snapshot) ∧
  dom (cob_sections cat) = catalog_sections_at db t (cs_content_version snapshot).
Proof.
  intros Hrun%twp_of_total. unfold serving_open_catalog_snapshot, mbind, tx_bind, mret, tx_ret in Hrun.
  cbn [tx_get] in Hrun. destruct (db_catalog_targets db !! t) as [row|] eqn:Hrow; [|done].
  case_bool_decide; [|done]. unfold tx_lift in Hrun.
  destruct (mapM _ _) as [keys|] eqn:Hkeys; [|done]. case_bool_decide; [done|].
  injection Hrun as <- <-. simpl. rewrite catalog_batch_try_new_iff. intros (_ & _ & -> & -> & Hm).
  apply mapM_section_keys in Hkeys. split_and!; [done..|]. apply set_eq. intros i.
  rewrite elem_of_dom, <-elem_of_bts_iter, <-Hkeys, list_elem_of_fmap. split.
  - intros [k [Hin <-]%Hm]. by exists k.
  - intros (k & -> & Hin). exists k. by apply Hm.
Qed.

(** The evidence of the service is the canonical response of the storage. *)
Lemma evidence_response t indexes n e response :
  OpenSetEvidence_try_new t indexes n = Ok e → n ≤ u64_max →
  canonicalize_open_response t (open_section_keys t indexes) n = Ok response →
  ose_target e = t ∧ ose_indexes e = cr_canonical_indices response ∧
  ose_raw_value_count e = cr_source_value_count response ∧
  ose_duplicate_count e = cr_duplicate_count response ∧ set_count (ose_indexes e) ≤ u64_max.
Proof.
  unfold OpenSetEvidence_try_new. intros He Hn (Hidx & Hcount & Hdup)%canonicalize_response_Ok.
  assert (sk_index <$> open_section_keys t indexes = indexes) as Hkeys.
  { unfold open_section_keys. rewrite <-list_fmap_compose. by apply list_fmap_id. }
  rewrite Hkeys in Hidx. rewrite Hidx in Hdup.
  destruct (u64_checked_sub n (u64_try_from_or_max _)) as [dup|] eqn:Hsub; [|done]. injection He as <-. simpl.
  assert (set_count (list_to_set indexes) ≤ u64_max) as Hfit.
  { unfold u64_checked_sub in Hdup. case_bool_decide; [lia|done]. }
  split_and!; [done|done|done| |done].
  unfold u64_checked_sub, u64_try_from_or_max, set_count in *. rewrite Z.min_l in Hsub by done. congruence.
Qed.

Lemma outcome_matches_reconcile_spec o plan :
  (co_classification o = OpenAttemptClassification_StaleCatalogRace ∧ co_observation_sequence o = None) ∨
  (classification_agrees (orp_classification plan) (co_classification o) ∧
   co_catalog_content_version o = ccv_get (orp_current_catalog_content_version plan) ∧
   co_source_value_count o = orp_raw_value_count plan ∧
   co_catalog_section_count o = orp_catalog_section_count plan ∧
   co_intersection_count o = orp_observed_intersection_count plan ∧
   co_orphan_count o = orp_orphan_count plan ∧ co_duplicate_count o = orp_duplicate_count plan) →
  outcome_matches_reconcile o plan = true.
Proof.
  unfold outcome_matches_reconcile. intros [[-> ->]|(Hc & -> & -> & -> & -> & -> & ->)]; [done|].
  case_bool_decide as Hs; [rewrite Hs in Hc; by destruct (orp_classification plan)|].
  rewrite !andb_true_iff, !bool_decide_eq_true. split_and!; try done.
  by destruct (orp_classification plan).
Qed.

(** What the outcome of a response says, valid or not. *)
Lemma committed_outcome command o db db' :
  response_committed command false o db db' → ∃ row b response v,
    running (fs_attempt_id command) row b db ∧
    canonicalize_open_response (at_target row) (fs_open_sections command)
      (fs_source_value_count command) = Ok response ∧
    ct_current_content_version <$> db_catalog_targets db !! at_target row = Some v ∧
    let catalog := load_attempt_catalog_indices db (fs_attempt_id command) in
    let n := set_count (cr_canonical_indices response ∩ catalog) in
    co_classification o =
      (if bool_decide (v = at_captured_catalog_content_version row)
       then classify_open_response (cr_canonical_indices response) catalog n (fs_gate_hold command)
       else OpenAttemptClassification_StaleCatalogRace) ∧
    (is_success (co_classification o) = false → co_observation_sequence o = None) ∧
    co_catalog_content_version o = at_captured_catalog_content_version row ∧
    co_source_value_count o = cr_source_value_count response ∧
    co_catalog_section_count o = set_count catalog ∧ co_intersection_count o = n ∧
    co_orphan_count o = set_count (cr_canonical_indices response ∖ catalog) ∧
    co_duplicate_count o = cr_duplicate_count response.
Proof.
  intros (row & b & response & v & bc & sc & Hrun & Hresp & Hv & Hc). exists row, b, response, v.
  split_and!; try done. cbv zeta in *. rewrite andb_false_l, orb_false_r in Hc.
  set (c := if bool_decide _ then _ else _) in *. destruct (is_success c) eqn:Hsuc.
  - destruct Hc as (?&?&?&?&?&?&?&?&?&Hc).
    repeat match goal with H : _ ∧ _ |- _ => destruct H as [? H] end.
    split_and!; try done. congruence.
  - destruct Hc as [_ ->]. by split_and!.
Qed.

(** The plan made from what [db0] serves fits the commit in [db1]. *)
Lemma commit_agrees db0 db1 command row snapshot version captured cat indexes e plan o db2 :
  tables_wf db0 → rtc storage_step db0 db1 →
  db_attempts db0 !! fs_attempt_id command = Some row →
  db_attempts db1 !! fs_attempt_id command = Some row →
  at_candidate_catalog_observation_id row = None →
  total (serving_open_catalog_snapshot (at_target row)) db0 = (Ok (Some snapshot), db0) →
  CatalogContentVersion_try_from (cs_content_version snapshot) = Ok version →
  CatalogOpenBatch_try_new (cs_target snapshot) version (cs_sections snapshot) = Ok cat →
  Z.of_nat (size (cob_sections cat)) ≤ u64_max →
  CatalogContentVersion_try_from (at_captured_catalog_content_version row) = Ok captured →
  OpenSetEvidence_try_new (at_target row) indexes (fs_source_value_count command) = Ok e →
  fs_source_value_count command ≤ u64_max →
  fs_open_sections command = open_section_keys (at_target row) indexes →
  reconcile_open_set captured cat e (fs_gate_hold command) = Ok plan →
  total (finish_open_pull_success command) db1 = (Ok o, db2) →
  outcome_matches_reconcile o plan = true.
Proof.
  intros Hwf Hsteps Hrow0 Hrow1 Hcand Hsnap Hver Hcat Hfit Hcap He Hn Hopen Hplan Hrun%twp_of_total.
  destruct (storage_steps_keep _ _ Hwf Hsteps) as [Hwf1 Hkept].
  apply (twp_Ok _ _ _ _ _ _ (finish_success_twp command false db1)), committed_outcome in Hrun
    as (row' & b & response & v1 & Hr & Hresp & Hv1 & Hc & Hseq & Hcv & Hsrc & Hsec & Hint & Horph & Hdup).
  destruct Hr as (Hrow' & _ & Hst & _). assert (row' = row) as -> by congruence.
  destruct (serving_batch _ _ _ _ _ _ Hsnap Hcat) as (_ & Htgt & Hcver & Hv0 & Hdom).
  destruct (wf_captured _ Hwf _ _ Hrow0 Hst Hcand) as (v0 & Hv0' & Hle0 & _).
  assert (v0 = cs_content_version snapshot) as -> by congruence.
  destruct (wf_captured _ Hwf1 _ _ Hrow1 Hst Hcand) as (v1' & Hv1' & Hle1 & Hsame1).
  assert (v1' = v1) as -> by congruence.
  apply fmap_Some in Hv0 as (t0 & Ht0 & Ht0v).
  destruct (Hkept _ _ Ht0) as (t1 & Ht1 & Hle & Hsame). rewrite Ht1 in Hv1. injection Hv1 as Hv1.
  rewrite Ht0v in *. apply outcome_matches_reconcile_spec. rewrite Hc in Hseq |- *.
  case_bool_decide as Hcur; [right|left; by split; [|apply Hseq]].
  rewrite Hopen in Hresp.
  destruct (evidence_response _ _ _ _ _ He Hn Hresp) as (Het & Hei & Her & Hed & Hefit).
  assert (load_attempt_catalog_indices db1 (fs_attempt_id command) = dom (cob_sections cat)) as Hload.
  { rewrite Hdom, Hsame1 by done. assert (v1 = ct_current_content_version t0) as -> by lia.
    apply Hsame. lia. }
  destruct (reconcile_open_set_counts _ _ _ _ _ Hplan) as [_ Hcounts]; [by split|].
  destruct Hcounts as (Hp1 & Hp2 & Hp3 & Hp4 & Hp5 & Hp6 & Hp7).
  { rewrite Hcver. assert (at_captured_catalog_content_version row = ct_current_content_version t0) as Heq by lia.
    rewrite Heq in Hcap. congruence. }
  rewrite Hload, <-Hei in *. split_and!; [done|..]; try congruence.
  rewrite Hp1, Hcv. unfold CatalogContentVersion_try_from in Hcap. case_bool_decide; [done|].
  by injection Hcap as <-.
Qed.

End agreement.

(** ** Errors other than a divergence *)

Section calm_results.
Context {E : Type}.
Local Abbreviation service_result := (result (SharedOpenServiceError E)).

Definition calm {A} (r : service_result A) : Prop := r ≠ Err ServiceError_ReconcileDivergence.

Lemma calm_Ok {A} (a : A) : calm (Ok a).
Proof. done. Qed.

Lemma calm_bind {A B} (r : service_result A) (f : A → service_result B) :
  calm r → (∀ a, calm (f a)) → calm (r ≫= f).
Proof. unfold calm. destruct r as [a|e]; simpl; [by intros _ Hf|]. congruence. Qed.

Lemma calm_ok_or {A} e (o : option A) : e ≠ ServiceError_ReconcileDivergence → calm (ok_or e o).
Proof. unfold calm, ok_or. destruct o; congruence. Qed.

Lemma calm_map_err {F A} (f : F → SharedOpenServiceError E) (r : result F A) :
  (∀ e, f e ≠ ServiceError_ReconcileDivergence) → calm (map_err f r).
Proof. unfold calm, map_err. destruct r as [|e]; [done|]. intros Hf [= He]. by apply (Hf e). Qed.

End calm_results.

(** Every exit of a pure part of the service. *)
Ltac calm :=
  repeat first
  [ apply calm_Ok | apply calm_bind; [|intros] | apply calm_ok_or; done | apply calm_map_err; done
  | progress case_match | done ].

Section calm_parts.
Context `{TimeApi, Sha256Api, JiffApi, !JiffDisplay, Rfc3339Api}.
Context {E : Type}.
Local Abbreviation calm := (@calm E).

Lemma validate_counter_audience_calm command : calm (validate_counter_audience command).
Proof. unfold validate_counter_audience. calm. Qed.
Lemma failure_http_audit_calm failure status retry : calm (failure_http_audit failure status retry).
Proof. unfold failure_http_audit. calm. Qed.
Lemma storage_lane_calm lane : calm (storage_lane lane).
Proof. unfold storage_lane. calm. Qed.
Lemma format_timestamp_calm t : calm (format_timestamp t).
Proof. unfold format_timestamp. calm. Qed.
Lemma rutgers_day_at_calm t : calm (rutgers_day_at t).
Proof. unfold rutgers_day_at. calm. Qed.

Lemma committed_observations_calm command o id n sequence version snapshot fresh ids keys events :
  calm (committed_observations command o id n sequence version snapshot fresh ids keys events).
Proof.
  revert ids keys. induction events as [|event events IH]; intros ids keys; simpl; [done|].
  unfold validate_committed_section_event. apply calm_bind; [calm|intros _].
  do 2 (case_bool_decide; [done|]). do 3 (apply calm_bind; [calm|intros ?]).
  apply calm_bind; [apply IH|]. by intros [].
Qed.

Lemma build_committed_observations_calm command o watched :
  calm (build_committed_observations command o watched).
Proof.
  unfold build_committed_observations, committed_counter_snapshot.
  do 6 (apply calm_bind; [calm|intros ?]). case_bool_decide; [done|].
  apply calm_bind; [calm|intros ?]. apply calm_bind; [apply committed_observations_calm|].
  intros []. calm.
Qed.
End calm_parts.

(** ** A pull over the tables *)

Section pulls.
Context `{TimeApi, Sha256Api, JiffApi, !JiffDisplay, Rfc3339Api, TimeDateApi}.
Context {C : Type} `{!OpenPullClock C}.
Local Abbreviation service := (Service OpenTables StorageError C).

(** What a computation may return from a state, when it returns. *)
Definition leads {A} (m : service A) (w : PullState OpenTables C)
    (Q : result (SharedOpenServiceError StorageError) A → PullState OpenTables C → Prop) : Prop :=
  ∀ r w', m w = Some (r, w') → Q r w'.

Definition calm_return {A} (m : service A) (w : PullState OpenTables C) : Prop :=
  leads m w (λ r _, calm r).

(** A step that fails otherwise and leaves the tables alone. *)
Definition steady {A} (m : service A) : Prop :=
  ∀ w, leads m w (λ r w', calm r ∧ ps_store w' = ps_store w).

Lemma calm_return_bind {A B} (m : service A) (f : A → service B) w (Q : A → PullState OpenTables C → Prop) :
  leads m w (λ r w', match r with Ok a => Q a w' | Err e => calm (Err e : result _ ()) end) →
  (∀ a w', Q a w' → calm_return (f a) w') → calm_return (m ≫= f) w.
Proof.
  intros Hm Hf r w'. unfold mbind, service_bind. destruct (m w) as [[[a|e] w1]|] eqn:Hrun; [| |done].
  - intros Hrun'. by eapply (Hf a w1); [apply (Hm _ _ Hrun)|].
  - intros [= <- <-]. specialize (Hm _ _ Hrun). simpl in Hm. unfold calm in *. congruence.
Qed.

Lemma steady_then {A B} (m : service A) (f : A → service B) w :
  steady m → (∀ a w', ps_store w' = ps_store w → calm_return (f a) w') → calm_return (m ≫= f) w.
Proof.
  intros Hm Hf. apply (calm_return_bind m f w (λ _ w', ps_store w' = ps_store w)); [|done].
  intros [a|e] w1 Hrun; destruct (Hm _ _ _ Hrun) as [Hc Hs]; [done|]. unfold calm in *. congruence.
Qed.

Lemma steady_calm {A} (m : service A) w : steady m → calm_return m w.
Proof. intros Hm r w' Hrun. by destruct (Hm _ _ _ Hrun). Qed.

Lemma steady_ret {A} (a : A) : steady (mret a).
Proof. by intros w r w' [= <- <-]. Qed.

Lemma steady_bind {A B} (m : service A) (f : A → service B) :
  steady m → (∀ a, steady (f a)) → steady (m ≫= f).
Proof.
  intros Hm Hf w r w'. unfold mbind, service_bind. destruct (m w) as [[[a|e] w1]|] eqn:Hrun; [| |done].
  - intros Hrun'. destruct (Hm _ _ _ Hrun) as [_ Hs]. destruct (Hf a _ _ _ Hrun') as [Hc Hs'].
    split; [done|congruence].
  - intros [= <- <-]. destruct (Hm _ _ _ Hrun) as [Hc Hs]. split; [|done]. unfold calm in *. congruence.
Qed.

Lemma steady_lift {A} (r : result _ A) : calm r → steady (lift r).
Proof. by intros Hr w r' w' [= <- <-]. Qed.
Lemma steady_expect {A} (o : option A) : steady (expect o).
Proof. intros w r w'. unfold expect. destruct o; [|done]. by intros [= <- <-]. Qed.
Lemma steady_lock : steady lock_gates.
Proof. intros w r w'. unfold lock_gates. destruct (ps_gates w); [|done]. by intros [= <- <-]. Qed.
Lemma steady_put g : steady (put_gates g).
Proof. by intros w r w' [= <- <-]. Qed.
Lemma steady_now : steady now.
Proof. intros w r w'. unfold now. destruct (clock_now _) as [t c]. by intros [= <- <-]. Qed.
Lemma steady_fail {A} e : e ≠ ServiceError_ReconcileDivergence → steady (fail e : service A).
Proof. intros He w r w' [= <- <-]. split; [|done]. unfold calm. congruence. Qed.

(** Reading the tables. *)
Lemma steady_store {A} (op : OpenTables → result StorageError A * OpenTables) :
  (∀ db, (op db).2 = db) → steady (store op).
Proof.
  intros Hop w r w'. unfold store. specialize (Hop (ps_store w)).
  destruct (op (ps_store w)) as [[a|e] p]; simpl in *; subst; by intros [= <- <-].
Qed.

(** Any operation of the storage. *)
Lemma store_then {A} (op : OpenTables → result StorageError A * OpenTables) w
    (Q : A → OpenTables → Prop) :
  (∀ a db, op (ps_store w) = (Ok a, db) → Q a db) →
  leads (store op) w (λ r w', match r with Ok a => Q a (ps_store w') | Err e => calm (Err e : result _ ()) end).
Proof.
  intros HQ r w'. unfold store. destruct (op (ps_store w)) as [[a|e] p]; intros [= <- <-]; [by apply HQ|done].
Qed.

Lemma lkg_reads target db : (total (lkg_open_index_set target) db).2 = db.
Proof.
  unfold total, run_tx, lkg_open_index_set, serving_lkg_open_index_set, mbind, tx_bind. simpl.
  case_bool_decide; [done|]. unfold tx_lift. by destruct (mapM _ _).
Qed.

Lemma serving_reads target db : (total (serving_open_catalog_snapshot target) db).2 = db.
Proof.
  unfold total, run_tx, serving_open_catalog_snapshot, mbind, tx_bind. simpl.
  destruct (_ !! _); [|done]. case_bool_decide; [|done]. unfold tx_lift.
  destruct (mapM _ _); [|done]. by case_bool_decide.
Qed.

Lemma lkg_reference_steady target catalog : steady (lkg_reference target catalog).
Proof. apply steady_bind; [apply steady_store, lkg_reads|]. intros. apply steady_ret. Qed.

#[local] Create HintDb steady discriminated.
#[local] Hint Resolve steady_ret steady_expect steady_lock steady_put
  steady_now : steady.

(** The steps of a body, one after the other, through its branches. *)
Local Ltac steps :=
  repeat first
  [ apply lkg_reference_steady | apply steady_bind; [|intros] | by apply steady_fail
  | by apply steady_store | solve [auto with steady] | case_match ].

Lemma gate_decide_steady route target catalog observed t :
  steady (gate_decide route target catalog observed t).
Proof.
  unfold gate_decide, serving_runtime, ensure_serving, current_serving, candidate_runtime. steps.
Qed.

Lemma gate_commit_steady route identity decision success :
  steady (gate_commit route identity decision success).
Proof. unfold gate_commit. steps. Qed.

Lemma pull_terminal_steady command target interval c response :
  steady (pull_terminal command target interval c response).
Proof. unfold pull_terminal. steps. Qed.

Lemma finish_failure_calm command target failure t text interval w :
  calm_return (finish_failure command target failure t text interval) w.
Proof.
  unfold finish_failure. destruct (failure_storage_fields failure t) as [[[status retry] code] kind].
  apply steady_then; [apply steady_lift, failure_http_audit_calm|]. intros http w1 _.
  apply (calm_return_bind _ _ _ (λ _ _, True)).
  - apply (store_then _ _ (λ _ _, True)). done.
  - intros o w2 _. apply steady_calm. case_bool_decide; [by apply steady_fail|].
    case_bool_decide; [by apply steady_fail|apply steady_ret].
Qed.

(** The commit of a plan that the outcome matches. *)
Lemma finish_commit_calm command response text watched count decoded plan hold gate w :
  (∀ sections o db, total (finish_open_pull_success
      {| fs_attempt_id := pc_attempt_id command; fs_completed_at := text;
         fs_open_sections := open_section_keys (command_target command) (osp_open_indexes response);
         fs_source_value_count := count; fs_watched_sections := sections;
         fs_http := success_audit (osp_metadata response) decoded; fs_gate_hold := hold;
         fs_gate_catalog_set_identity := (λ g, csi_str g.2.1) <$> gate |}) (ps_store w) = (Ok o, db) →
     outcome_matches_reconcile o plan = true) →
  calm_return (finish_commit command response text watched count decoded plan hold gate) w.
Proof.
  intros Hmatch. unfold finish_commit.
  apply (calm_return_bind _ _ _ (λ _ w', w' = w)); [by intros r w' [= <- <-]|]. intros sections w1 ->.
  apply (calm_return_bind _ _ _ (λ o _, outcome_matches_reconcile o plan = true)).
  { apply (store_then _ _ (λ o _, outcome_matches_reconcile o plan = true)). intros o db. apply Hmatch. }
  intros o w2 Hok. rewrite Hok. simpl. apply steady_calm. apply steady_bind.
  { destruct gate as [[route [identity decision]]|]; [|apply steady_ret].
    case_bool_decide; [apply gate_commit_steady|apply steady_ret]. }
  intros _. apply steady_bind.
  { destruct (is_success _); [apply steady_lift, build_committed_observations_calm|].
    case_bool_decide; [by apply steady_fail|apply steady_ret]. }
  intros obs. apply steady_bind; [apply pull_terminal_steady|]. intros []. apply steady_ret.
Qed.

(** A state in which the attempt of a pull is recorded as begun for [version]. *)
Definition attempt_recorded (command : OpenPullCommand) (version : Z) (db : OpenTables) : Prop :=
  tables_wf db ∧ ∃ row, db_attempts db !! pc_attempt_id command = Some row ∧
    at_target row = command_target command ∧ at_candidate_catalog_observation_id row = None ∧
    at_captured_catalog_content_version row = version.

(** The counts of sections are columns of 64 bits. *)
Definition section_counts_fit (db : OpenTables) : Prop :=
  map_Forall (λ _ row, ct_section_count row ≤ i64_max) (db_catalog_targets db).

Lemma serving_batch_fits t db db' snapshot version cat :
  section_counts_fit db → total (serving_open_catalog_snapshot t) db = (Ok (Some snapshot), db') →
  CatalogOpenBatch_try_new (cs_target snapshot) version (cs_sections snapshot) = Ok cat →
  Z.of_nat (size (cob_sections cat)) ≤ u64_max.
Proof.
  intros Hfit Hrun Hcat. destruct (serving_batch _ _ _ _ _ _ Hrun Hcat) as (_ & _ & _ & _ & Hdom).
  apply twp_of_total in Hrun. unfold serving_open_catalog_snapshot, mbind, tx_bind, mret, tx_ret in Hrun.
  cbn [tx_get] in Hrun. destruct (db_catalog_targets db !! t) as [row|] eqn:Hrow; [|done].
  case_bool_decide; [|done]. unfold tx_lift in Hrun.
  destruct (mapM _ _) as [keys|] eqn:Hkeys; [|done]. case_bool_decide as Hlen; [done|].
  injection Hrun as <- <-. simpl in *. apply mapM_section_keys in Hkeys.
  apply (f_equal length) in Hkeys. rewrite length_fmap, length_bts_iter in Hkeys.
  rewrite <-size_dom, Hdom. pose proof (Hfit _ _ Hrow). unfold zlen, i64_max, u64_max in *. simpl in *. lia.
Qed.

Lemma finish_success_calm command version response t text watched w :
  attempt_recorded command version (ps_store w) → section_counts_fit (ps_store w) →
  calm_return (finish_success command version response t text watched) w.
Proof.
  intros (Hwf & row & Hrow & Htgt & Hcand & Hver) Hfit. unfold finish_success.
  apply (calm_return_bind _ _ _ (λ count w', w' = w ∧ count ≤ u64_max)).
  { intros r w' [= <- <-]. unfold u64_try_from. case_bool_decide; simpl; [split; [done|lia]|done]. }
  intros count w1 [-> Hcount]. apply steady_then; [by apply steady_lift, calm_ok_or|]. intros decoded w1 Hw1.
  apply (calm_return_bind _ _ _ (λ current w', ps_store w' = ps_store w ∧
    total (serving_open_catalog_snapshot (command_target command)) (ps_store w) = (Ok current, ps_store w))).
  { pose proof (store_then (λ p, total (serving_open_catalog_snapshot (command_target command)) p) w1
      (λ current db, db = ps_store w ∧
        total (serving_open_catalog_snapshot (command_target command)) (ps_store w) = (Ok current, ps_store w)))
      as Hstore. apply Hstore. rewrite Hw1. intros current db Hrun.
    pose proof (serving_reads (command_target command) (ps_store w)) as Hreads. rewrite Hrun in Hreads.
    simpl in Hreads. by subst db. }
  intros [current|] w2 [Hw2 Hserve]; [|apply finish_failure_calm].
  apply (calm_return_bind _ _ _ (λ v w', ps_store w' = ps_store w ∧
    CatalogContentVersion_try_from (cs_content_version current) = Ok v)).
  { intros r w' [= <- <-]. by destruct (CatalogContentVersion_try_from _). }
  intros v w3 [Hw3 Hv].
  apply (calm_return_bind _ _ _ (λ cat w', ps_store w' = ps_store w ∧
    CatalogOpenBatch_try_new (cs_target current) v (cs_sections current) = Ok cat)).
  { intros r w' [= <- <-]. by destruct (CatalogOpenBatch_try_new _ _ _). }
  intros cat w4 [Hw4 Hcat].
  apply (calm_return_bind _ _ _ (λ e w', ps_store w' = ps_store w ∧
    OpenSetEvidence_try_new (command_target command) (osp_open_indexes response) count = Ok e)).
  { intros r w' [= <- <-]. by destruct (OpenSetEvidence_try_new _ _ _). }
  intros e w5 [Hw5 He].
  apply (calm_return_bind _ _ _ (λ captured w', ps_store w' = ps_store w ∧
    CatalogContentVersion_try_from version = Ok captured)).
  { intros r w' [= <- <-]. by destruct (CatalogContentVersion_try_from version). }
  intros captured w6 [Hw6 Hcap]. apply steady_then.
  { destruct (pc_gate command); [|apply steady_ret]. case_match; [apply steady_ret|].
    apply steady_bind; [apply gate_decide_steady|]. intros. apply steady_ret. }
  intros gate w7 Hw7. set (hold := match gate with Some _ => _ | None => _ end).
  apply (calm_return_bind _ _ _ (λ plan w', ps_store w' = ps_store w ∧
    reconcile_open_set captured cat e hold = Ok plan)).
  { intros r w' [= <- <-]. destruct (reconcile_open_set _ _ _ _); simpl; [split; [congruence|done]|done]. }
  intros plan w8 [Hw8 Hplan]. apply finish_commit_calm. intros sections o db Hrun. rewrite Hw8 in Hrun.
  subst version. rewrite <-Htgt in *.
  lazymatch type of Hrun with total (finish_open_pull_success ?c) _ = _ =>
    eapply (commit_agrees (ps_store w) (ps_store w) c) end; [exact Hwf|apply rtc_refl|exact Hrow|exact Hrow
    |exact Hcand|exact Hserve|exact Hv|exact Hcat|by eapply serving_batch_fits|exact Hcap|exact He
    |exact Hcount|reflexivity|exact Hplan|exact Hrun].
Qed.

(** A begun attempt is recorded. *)
Lemma begin_recorded command db n db' pull :
  tables_wf db → section_counts_fit db → total (begin_open_pull_attempt command) db = (Ok n, db') →
  bo_attempt_id command = pc_attempt_id pull → bo_target command = command_target pull →
  attempt_recorded pull (bo_captured_catalog_content_version command) db' ∧ section_counts_fit db'.
Proof.
  intros Hwf Hfit Hrun%twp_of_total Hid Ht. unfold attempt_recorded. rewrite <-Hid, <-Ht.
  assert (tables_wf db') as Hwf' by by eapply begin_wf.
  destruct (twp_Ok _ _ _ _ _ _ (begin_twp command None db) Hrun) as [(-> & row & Hrow & _ & Hsame)|[Hb _]];
    (split; [split; [done|]|]).
  - exists row. unfold same_command in Hsame. rewrite !andb_true_iff, !bool_decide_eq_true in Hsame.
    naive_solver.
  - done.
  - destruct Hb as (b & age & base & _ & _ & _ & _ & _ & _ & _ & Hbase & _ & ->).
    exists (started_attempt command n age base). split_and!; [by simpl; rewrite lookup_insert_eq|done| |done].
    by destruct base.
  - by destruct Hb as (b & age & base & _ & _ & _ & _ & _ & _ & _ & _ & _ & ->).
Qed.

(** What the rest of the program does to the tables while a pull fetches: any
    operations commit, but none ends this attempt. *)
Definition fetch_interleaves (command : OpenPullCommand)
    (fetch : OpenSectionsRequest → PullState OpenTables C →
             result OpenSectionsFailure OpenSectionsResponse * PullState OpenTables C) : Prop :=
  ∀ request w, let w' := (fetch request w).2 in
    rtc storage_step (ps_store w) (ps_store w') ∧
    (section_counts_fit (ps_store w) → section_counts_fit (ps_store w')) ∧
    db_attempts (ps_store w') !! pc_attempt_id command = db_attempts (ps_store w) !! pc_attempt_id command.

(** C8. The service and the storage never disagree: whatever is published or
    committed while a pull fetches, the outcome of its commit is the one the
    service planned, so a pull never ends with a divergence. *)
Theorem pull_never_diverges (command : OpenPullCommand)
    (fetch : OpenSectionsRequest → PullState OpenTables C →
             result OpenSectionsFailure OpenSectionsResponse * PullState OpenTables C)
    (watched : C → TermCampusKey → list SectionKey) (w w' : PullState OpenTables C)
    (r : result (SharedOpenServiceError StorageError) OpenPullExecution) :
  tables_wf (ps_store w) → section_counts_fit (ps_store w) → fetch_interleaves command fetch →
  execute_with command fetch watched w = Some (r, w') →
  r ≠ Err ServiceError_ReconcileDivergence.
Proof.
  intros Hwf Hfit0 Hfetch. revert r w'. change (calm_return (execute_with command fetch watched) w). unfold execute_with.
  apply steady_then; [apply steady_lift, validate_counter_audience_calm|]. intros _ w1 Hw1.
  case_bool_decide; [by apply steady_calm, steady_fail|].
  apply steady_then; [apply steady_store, serving_reads|]. intros captured w2 Hw2.
  apply steady_then; [by apply steady_lift, calm_ok_or|]. intros snapshot w3 Hw3.
  apply steady_then; [apply steady_now|]. intros started w4 Hw4.
  apply steady_then; [apply steady_lift, format_timestamp_calm|]. intros started_text w5 Hw5.
  apply steady_then; [apply steady_lift, rutgers_day_at_calm|]. intros day w6 Hw6.
  apply steady_then; [apply steady_lift, storage_lane_calm|]. intros lane w7 Hw7.
  apply (calm_return_bind _ _ _ (λ _ w', attempt_recorded command (cs_content_version snapshot) (ps_store w')
    ∧ section_counts_fit (ps_store w'))).
  { apply (store_then _ _ (λ _ db, attempt_recorded command (cs_content_version snapshot) db
      ∧ section_counts_fit db)).
    assert (ps_store w7 = ps_store w) as -> by congruence.
    intros n db Hrun. by eapply (begin_recorded _ (ps_store w)) in Hrun. }
  intros n w8 [(Hwf8 & row & Hrow & Htgt & Hcand & Hcap) Hfit8].
  apply (calm_return_bind _ _ _ (λ _ w',
    attempt_recorded command (cs_content_version snapshot) (ps_store w') ∧ section_counts_fit (ps_store w'))).
  { intros r w9. destruct (fetch _ w8) as [fetched w9'] eqn:Hf. intros [= <- <-].
    destruct (Hfetch (pc_source_request command) w8) as (Hsteps & Hfit & Hkeep). rewrite Hf in *. simpl in *.
    split; [|by apply Hfit]. split; [by destruct (storage_steps_keep _ _ Hwf8 Hsteps)|].
    exists row. by rewrite Hkeep. }
  intros fetched w9 [Hrec Hfit].
  apply steady_then; [apply steady_now|]. intros completed w10 Hw10.
  apply steady_then; [apply steady_lift, format_timestamp_calm|]. intros completed_text w11 Hw11.
  destruct fetched as [response|error]; [|apply finish_failure_calm].
  case_bool_decide; [apply finish_failure_calm|].
  apply steady_then; [apply steady_expect|]. intros [] w12 Hw12; [|apply finish_failure_calm].
  apply finish_success_calm; by rewrite Hw12, Hw11, Hw10.
Qed.
End pulls.

(** ** A pull on tables with one catalog *)

Module AgreeExample.
#[local] Existing Instance concrete_time_api.
#[local] Existing Instance concrete_sha256_api.
#[local] Existing Instance concrete_url_api.
#[local] Existing Instance concrete_http_api.
#[local] Existing Instance concrete_json_api.
#[local] Existing Instance PullExample.example_display.
#[local] Existing Instance PullExample.example_rfc3339.
#[local] Existing Instance PullExample.example_clock.
#[local] Existing Instance StorageExample.example_dates.

(** The answer comes while a page starts to watch the first section. *)
Definition example_fetch (request : OpenSectionsRequest) (w : PullState OpenTables (list SectionKey))
    : result OpenSectionsFailure OpenSectionsResponse * PullState OpenTables (list SectionKey) :=
  (Ok (decoded (osr_target request) example_http_response "Application/JSON; charset=utf-8"
         "00002,00001,00002" example_texts),
   mkPullState (ps_store w) (ps_gates w) [example_section "00001"]).

Definition example_pull :=
  execute_with PullExample.example_command example_fetch PullExample.example_watched
    (mkPullState StorageExample.example_tables (Some TargetGateSet_new) []).

Lemma example_interleaves : fetch_interleaves PullExample.example_command example_fetch.
Proof. intros request w. simpl. split_and!; [apply rtc_refl|done|done]. Qed.

Lemma pull_never_diverges_witness :
  match example_pull with
  | Some (r, _) => r ≠ Err ServiceError_ReconcileDivergence
  | None => False
  end ∧
  match example_pull with
  | Some (Ok exec, _) => (oo_section_key <$> pe_observations exec) = [example_section "00001"]
  | _ => False
  end.
Proof.
  split; [|by vm_compute].
  destruct example_pull as [[r w']|] eqn:Hrun; [|by vm_compute in Hrun].
  refine (pull_never_diverges PullExample.example_command example_fetch PullExample.example_watched
    (mkPullState StorageExample.example_tables (Some TargetGateSet_new) []) w' r _ _ example_interleaves Hrun).
  - apply StorageExample.example_wf, rtc_refl.
  - by apply map_Forall_singleton.
Defined.
End AgreeExample.
