(* ===== verification/WatchState.v ===== *)
(** * Section watches: data (crates/bcsp-watch/src: clock, selection, state, effect)

    The browser session's selection, the monotonic clock, the state of one
    watch session with its alert episode and sound cues, and the effects the
    manager reports. *)

From S2P Require Import Prelude Identity Contracts.

(** ** Clock (clock.rs) *)

(** Milliseconds in a [u64]. *)
Abbreviation WatchInstant := Z (only parsing).

Definition WatchInstant_saturating_add (t : WatchInstant) (duration : Z) : WatchInstant :=
  u64_saturating_add t (u64_try_from_or_max (duration_as_millis duration)).

Definition elapsed_since (t earlier : WatchInstant) : Z :=
  duration_from_millis (saturating_sub t earlier).

(** The trait [WatchClock]. *)
Class WatchClock (C : Type) := {
  clock_now : C → WatchInstant * C;
  clock_wall_now : C → OffsetDateTime * C
}.

(** ** Selection (selection.rs) *)

Definition MAX_ACTIVE_WATCHES : Z := 9.
Definition MAX_SELECTED_SECTIONS : nat := Z.to_nat MAX_ACTIVE_WATCHES.

Inductive SelectionError := SelectionError_LimitExceeded.

Inductive SelectionChange :=
| SelectionChange_Added
| SelectionChange_AlreadySelected
| SelectionChange_Removed
| SelectionChange_NotSelected.

Record SectionSelection := { sel_sections : list SectionKey }.

Definition SectionSelection_new : SectionSelection := {| sel_sections := [] |}.

Definition selection_contains (section : SectionKey) (s : SectionSelection) : bool :=
  bool_decide (section ∈ sel_sections s).

Definition selection_add (section : SectionKey) (s : SectionSelection)
    : SectionSelection * result SelectionError SelectionChange :=
  if selection_contains section s then (s, Ok SelectionChange_AlreadySelected)
  else if bool_decide (length (sel_sections s) = MAX_SELECTED_SECTIONS)
  then (s, Err SelectionError_LimitExceeded)
  else ({| sel_sections := sel_sections s ++ [section] |}, Ok SelectionChange_Added).

(** [Vec::remove] of the first occurrence. *)
Fixpoint remove_first (section : SectionKey) (l : list SectionKey) : list SectionKey :=
  match l with
  | [] => []
  | x :: l => if bool_decide (x = section) then l else x :: remove_first section l
  end.

Definition selection_remove (section : SectionKey) (s : SectionSelection)
    : SectionSelection * SelectionChange :=
  if selection_contains section s
  then ({| sel_sections := remove_first section (sel_sections s) |}, SelectionChange_Removed)
  else (s, SelectionChange_NotSelected).

Definition selection_clear (s : SectionSelection) : SectionSelection := {| sel_sections := [] |}.

Fixpoint selection_add_all (sections : list SectionKey) (s : SectionSelection)
    : result SelectionError SectionSelection :=
  match sections with
  | [] => Ok s
  | section :: sections =>
      match selection_add section s with
      | (_, Err e) => Err e
      | (s', Ok _) => selection_add_all sections s'
      end
  end.

Definition try_from_sections (sections : list SectionKey) : result SelectionError SectionSelection :=
  selection_add_all sections SectionSelection_new.

(** ** Session state (state.rs) *)

Definition DEFAULT_MAX_AUDIBLE : Z := 3.
Definition DEFAULT_CONTINUOUS_SECONDS : Z := 600.

Inductive CoreNotificationMode := CoreNotificationMode_OneShot | CoreNotificationMode_Continuous.

Inductive CoreContinuousDuration :=
| CoreContinuousDuration_Finite (seconds : Z)
| CoreContinuousDuration_Unlimited.

Definition duration_deadline (d : CoreContinuousDuration) (now : WatchInstant)
    : option WatchInstant :=
  match d with
  | CoreContinuousDuration_Finite seconds =>
      Some (WatchInstant_saturating_add now (duration_from_secs seconds))
  | CoreContinuousDuration_Unlimited => None
  end.

Record CorePolicy := {
  cp_mode : CoreNotificationMode;
  cp_max_audible : Z;
  cp_continuous_duration : CoreContinuousDuration
}.

Definition CorePolicy_default : CorePolicy := {|
  cp_mode := CoreNotificationMode_OneShot;
  cp_max_audible := DEFAULT_MAX_AUDIBLE;
  cp_continuous_duration := CoreContinuousDuration_Finite DEFAULT_CONTINUOUS_SECONDS
|}.

Inductive CoreInitialState :=
| CoreInitialState_Unknown
| CoreInitialState_Closed
| CoreInitialState_Open (observation_id : TraceId) (observed_at : OffsetDateTime).

Inductive ReliableState := ReliableState_Closed | ReliableState_Open.

Inductive CoreEpisodeState :=
| CoreEpisodeState_Unacknowledged
| CoreEpisodeState_Acknowledged
| CoreEpisodeState_TimedOut
| CoreEpisodeState_Closed.

Inductive CoreEpisodeEndReason :=
| CoreEpisodeEndReason_ObservedClosed
| CoreEpisodeEndReason_WatchStopped
| CoreEpisodeEndReason_ConnectionClosed
| CoreEpisodeEndReason_HeartbeatExpired
| CoreEpisodeEndReason_ProcessStopped
| CoreEpisodeEndReason_Restarted.

#[export] Instance CoreNotificationMode_eq_dec : EqDecision CoreNotificationMode.
Proof. solve_decision. Defined.
#[export] Instance ReliableState_eq_dec : EqDecision ReliableState.
Proof. solve_decision. Defined.
#[export] Instance CoreEpisodeState_eq_dec : EqDecision CoreEpisodeState.
Proof. solve_decision. Defined.

Record CoreEpisode := {
  ep_id : TraceId;
  ep_alert_id : TraceId;
  ep_watch_id : TraceId;
  ep_section : SectionKey;
  ep_policy : CorePolicy;
  ep_audible_count : Z;
  ep_sequence : Z;
  ep_state : CoreEpisodeState;
  ep_observation_count : Z;
  ep_first_observation_id : TraceId;
  ep_last_observation_id : TraceId;
  ep_first_observed_at : OffsetDateTime;
  ep_last_observed_at : OffsetDateTime;
  ep_state_changed_at : OffsetDateTime;
  ep_closed_at : option OffsetDateTime;
  ep_deadline : option WatchInstant;
  ep_end_reason : option CoreEpisodeEndReason;
  ep_alert_dismissed : bool
}.

Definition CoreEpisode_new (id alert_id watch_id : TraceId) (section : SectionKey)
    (policy : CorePolicy) (audible_count sequence : Z) (observation_id : TraceId)
    (observed_at : OffsetDateTime) (deadline : option WatchInstant) : CoreEpisode := {|
  ep_id := id;
  ep_alert_id := alert_id;
  ep_watch_id := watch_id;
  ep_section := section;
  ep_policy := policy;
  ep_audible_count := audible_count;
  ep_sequence := sequence;
  ep_state := CoreEpisodeState_Unacknowledged;
  ep_observation_count := 1;
  ep_first_observation_id := observation_id;
  ep_last_observation_id := observation_id;
  ep_first_observed_at := observed_at;
  ep_last_observed_at := observed_at;
  ep_state_changed_at := observed_at;
  ep_closed_at := None;
  ep_deadline := deadline;
  ep_end_reason := None;
  ep_alert_dismissed := false
|}.

Definition observe_open (observation_id : TraceId) (observed_at : OffsetDateTime) (e : CoreEpisode)
    : CoreEpisode := {|
  ep_id := ep_id e;
  ep_alert_id := ep_alert_id e;
  ep_watch_id := ep_watch_id e;
  ep_section := ep_section e;
  ep_policy := ep_policy e;
  ep_audible_count := ep_audible_count e;
  ep_sequence := ep_sequence e;
  ep_state := ep_state e;
  ep_observation_count := u64_saturating_add (ep_observation_count e) 1;
  ep_first_observation_id := ep_first_observation_id e;
  ep_last_observation_id := observation_id;
  ep_first_observed_at := ep_first_observed_at e;
  ep_last_observed_at := Z.max (ep_last_observed_at e) observed_at;
  ep_state_changed_at := ep_state_changed_at e;
  ep_closed_at := ep_closed_at e;
  ep_deadline := ep_deadline e;
  ep_end_reason := ep_end_reason e;
  ep_alert_dismissed := ep_alert_dismissed e
|}.

(** Assignments to [state], [deadline] and [state_changed_at]. *)
Definition ep_transition (state : CoreEpisodeState) (deadline : option WatchInstant)
    (state_changed_at : OffsetDateTime) (e : CoreEpisode) : CoreEpisode := {|
  ep_id := ep_id e;
  ep_alert_id := ep_alert_id e;
  ep_watch_id := ep_watch_id e;
  ep_section := ep_section e;
  ep_policy := ep_policy e;
  ep_audible_count := ep_audible_count e;
  ep_sequence := ep_sequence e;
  ep_state := state;
  ep_observation_count := ep_observation_count e;
  ep_first_observation_id := ep_first_observation_id e;
  ep_last_observation_id := ep_last_observation_id e;
  ep_first_observed_at := ep_first_observed_at e;
  ep_last_observed_at := ep_last_observed_at e;
  ep_state_changed_at := state_changed_at;
  ep_closed_at := ep_closed_at e;
  ep_deadline := deadline;
  ep_end_reason := ep_end_reason e;
  ep_alert_dismissed := ep_alert_dismissed e
|}.

(** The assignments that close an episode; the deadline is the caller's. *)
Definition ep_close (reason : CoreEpisodeEndReason) (closed_at : OffsetDateTime)
    (deadline : option WatchInstant) (e : CoreEpisode) : CoreEpisode :=
  let closed_at := Z.max closed_at (ep_last_observed_at e) in {|
  ep_id := ep_id e;
  ep_alert_id := ep_alert_id e;
  ep_watch_id := ep_watch_id e;
  ep_section := ep_section e;
  ep_policy := ep_policy e;
  ep_audible_count := ep_audible_count e;
  ep_sequence := ep_sequence e;
  ep_state := CoreEpisodeState_Closed;
  ep_observation_count := ep_observation_count e;
  ep_first_observation_id := ep_first_observation_id e;
  ep_last_observation_id := ep_last_observation_id e;
  ep_first_observed_at := ep_first_observed_at e;
  ep_last_observed_at := ep_last_observed_at e;
  ep_state_changed_at := Z.max closed_at (ep_first_observed_at e);
  ep_closed_at := Some closed_at;
  ep_deadline := deadline;
  ep_end_reason := Some reason;
  ep_alert_dismissed := ep_alert_dismissed e
|}.

(** Assignments to [policy], [deadline], [audible_count] and
    [alert_dismissed]. *)
Definition ep_with (policy : CorePolicy) (deadline : option WatchInstant) (audible_count : Z)
    (alert_dismissed : bool) (e : CoreEpisode) : CoreEpisode := {|
  ep_id := ep_id e;
  ep_alert_id := ep_alert_id e;
  ep_watch_id := ep_watch_id e;
  ep_section := ep_section e;
  ep_policy := policy;
  ep_audible_count := audible_count;
  ep_sequence := ep_sequence e;
  ep_state := ep_state e;
  ep_observation_count := ep_observation_count e;
  ep_first_observation_id := ep_first_observation_id e;
  ep_last_observation_id := ep_last_observation_id e;
  ep_first_observed_at := ep_first_observed_at e;
  ep_last_observed_at := ep_last_observed_at e;
  ep_state_changed_at := ep_state_changed_at e;
  ep_closed_at := ep_closed_at e;
  ep_deadline := deadline;
  ep_end_reason := ep_end_reason e;
  ep_alert_dismissed := alert_dismissed
|}.
Definition ep_set_audible_count (n : Z) (e : CoreEpisode) : CoreEpisode :=
  ep_with (ep_policy e) (ep_deadline e) n (ep_alert_dismissed e) e.
Definition ep_set_dismissed (e : CoreEpisode) : CoreEpisode :=
  ep_with (ep_policy e) (ep_deadline e) (ep_audible_count e) true e.

Record PendingCue := {
  pc_id : TraceId;
  pc_observation_id : TraceId;
  pc_episode_id : TraceId
}.

Record ObservationCursor := { oc_pull_sequence : Z; oc_observation_id : TraceId }.

Record CoreWatchSession := {
  ws_id : TraceId;
  ws_section : SectionKey;
  ws_policy : CorePolicy;
  ws_reliable_state : option ReliableState;
  ws_episode_sequence : Z;
  ws_episode : option CoreEpisode;
  ws_audible_count : Z;
  ws_active_cue : option PendingCue;
  ws_queued_cues : list PendingCue;
  ws_observation_cursor : option ObservationCursor
}.

Definition CoreWatchSession_new (id : TraceId) (section : SectionKey) (policy : CorePolicy)
    (initial_state : CoreInitialState) (observation_cursor : option ObservationCursor)
    : CoreWatchSession := {|
  ws_id := id;
  ws_section := section;
  ws_policy := policy;
  ws_reliable_state :=
    match initial_state with
    | CoreInitialState_Unknown => None
    | CoreInitialState_Closed => Some ReliableState_Closed
    | CoreInitialState_Open _ _ => Some ReliableState_Open
    end;
  ws_episode_sequence := 0;
  ws_episode := None;
  ws_audible_count := 0;
  ws_active_cue := None;
  ws_queued_cues := [];
  ws_observation_cursor := observation_cursor
|}.

(** Assignments to the fields of a session. *)
Definition ws_set_policy (policy : CorePolicy) (s : CoreWatchSession) : CoreWatchSession := {|
  ws_id := ws_id s; ws_section := ws_section s; ws_policy := policy;
  ws_reliable_state := ws_reliable_state s; ws_episode_sequence := ws_episode_sequence s;
  ws_episode := ws_episode s; ws_audible_count := ws_audible_count s;
  ws_active_cue := ws_active_cue s; ws_queued_cues := ws_queued_cues s;
  ws_observation_cursor := ws_observation_cursor s |}.
Definition ws_set_reliable_state (r : option ReliableState) (s : CoreWatchSession)
    : CoreWatchSession := {|
  ws_id := ws_id s; ws_section := ws_section s; ws_policy := ws_policy s;
  ws_reliable_state := r; ws_episode_sequence := ws_episode_sequence s;
  ws_episode := ws_episode s; ws_audible_count := ws_audible_count s;
  ws_active_cue := ws_active_cue s; ws_queued_cues := ws_queued_cues s;
  ws_observation_cursor := ws_observation_cursor s |}.
Definition ws_set_episode (sequence : Z) (e : option CoreEpisode) (s : CoreWatchSession)
    : CoreWatchSession := {|
  ws_id := ws_id s; ws_section := ws_section s; ws_policy := ws_policy s;
  ws_reliable_state := ws_reliable_state s; ws_episode_sequence := sequence;
  ws_episode := e; ws_audible_count := ws_audible_count s;
  ws_active_cue := ws_active_cue s; ws_queued_cues := ws_queued_cues s;
  ws_observation_cursor := ws_observation_cursor s |}.
Definition ws_put_episode (e : option CoreEpisode) (s : CoreWatchSession) : CoreWatchSession :=
  ws_set_episode (ws_episode_sequence s) e s.
Definition ws_set_cues (audible_count : Z) (active : option PendingCue) (queued : list PendingCue)
    (s : CoreWatchSession) : CoreWatchSession := {|
  ws_id := ws_id s; ws_section := ws_section s; ws_policy := ws_policy s;
  ws_reliable_state := ws_reliable_state s; ws_episode_sequence := ws_episode_sequence s;
  ws_episode := ws_episode s; ws_audible_count := audible_count;
  ws_active_cue := active; ws_queued_cues := queued;
  ws_observation_cursor := ws_observation_cursor s |}.
Definition ws_set_cursor (c : option ObservationCursor) (s : CoreWatchSession)
    : CoreWatchSession := {|
  ws_id := ws_id s; ws_section := ws_section s; ws_policy := ws_policy s;
  ws_reliable_state := ws_reliable_state s; ws_episode_sequence := ws_episode_sequence s;
  ws_episode := ws_episode s; ws_audible_count := ws_audible_count s;
  ws_active_cue := ws_active_cue s; ws_queued_cues := ws_queued_cues s;
  ws_observation_cursor := c |}.

Definition episode_state_is (state : CoreEpisodeState) (s : CoreWatchSession) : bool :=
  match ws_episode s with Some e => bool_decide (ep_state e = state) | None => false end.

Definition continuous_alarm_active (s : CoreWatchSession) : bool :=
  bool_decide (cp_mode (ws_policy s) = CoreNotificationMode_Continuous)
  && episode_state_is CoreEpisodeState_Unacknowledged s.

Definition take_pending_cues (s : CoreWatchSession) : list PendingCue * CoreWatchSession :=
  (option_list (ws_active_cue s) ++ ws_queued_cues s,
   ws_set_cues (ws_audible_count s) None [] s).

(** ** Effects (effect.rs) *)

Inductive CoreStartDisposition :=
| CoreStartDisposition_Started
| CoreStartDisposition_Restarted
| CoreStartDisposition_RejectedLimit
| CoreStartDisposition_RejectedDuplicate
| CoreStartDisposition_RejectedSectionNotFound
| CoreStartDisposition_RejectedTargetUnavailable
| CoreStartDisposition_RejectedUnsupportedTarget
| CoreStartDisposition_RejectedTermOutOfRange.

Record CoreStartResult := {
  sr_section : SectionKey;
  sr_disposition : CoreStartDisposition;
  sr_watch_id : option TraceId
}.

Inductive CoreAlertChange :=
| CoreAlertChange_Opened
| CoreAlertChange_Updated
| CoreAlertChange_Dismissed
| CoreAlertChange_Closed.

Record CoreAlertUpdate := {
  au_alert_id : TraceId;
  au_episode_id : TraceId;
  au_section : SectionKey;
  au_change : CoreAlertChange;
  au_observation_count : Z;
  au_dismissed : bool;
  au_episode : CoreEpisode
}.

Inductive CoreCueOutcome :=
| CoreCueOutcome_Started
| CoreCueOutcome_Muted
| CoreCueOutcome_AutoplayBlocked
| CoreCueOutcome_Failed.

Inductive CoreOneShotDisposition :=
| CoreOneShotDisposition_Requested
| CoreOneShotDisposition_Queued
| CoreOneShotDisposition_SilentCap.

Inductive CoreCueCancellationReason :=
| CoreCueCancellationReason_WatchStopped
| CoreCueCancellationReason_WatchRestarted
| CoreCueCancellationReason_NotificationModeChanged.

Inductive CoreMixerStopReason :=
| CoreMixerStopReason_NoUnacknowledgedEpisodes
| CoreMixerStopReason_NotificationModeChanged.

Inductive CoreAudioDisposition :=
| CoreAudioDisposition_OneShot (watch_id : TraceId) (section : SectionKey)
    (observation_id : TraceId) (cue_id : option TraceId) (disposition : CoreOneShotDisposition)
    (audible_count max_audible : Z)
| CoreAudioDisposition_CueCancelled (watch_id : TraceId) (section : SectionKey)
    (cue_id observation_id : TraceId) (reason : CoreCueCancellationReason)
| CoreAudioDisposition_ContinuousMixer (active : bool) (active_episode_ids : list TraceId)
    (stop_reason : option CoreMixerStopReason).

Inductive CoreActionKind :=
| CoreActionKind_WatchStarted
| CoreActionKind_WatchRestarted
| CoreActionKind_WatchStopped
| CoreActionKind_EpisodeOpened
| CoreActionKind_EpisodeAcknowledged
| CoreActionKind_EpisodesAcknowledgedAll
| CoreActionKind_EpisodeTimedOut
| CoreActionKind_EpisodeResumed
| CoreActionKind_EpisodeClosed
| CoreActionKind_AudibleCountReset
| CoreActionKind_CueStarted
| CoreActionKind_CueMuted
| CoreActionKind_CueAutoplayBlocked
| CoreActionKind_CueFailed
| CoreActionKind_AlertDismissed
| CoreActionKind_PolicyUpdated.

Record CoreAction := {
  ca_action_id : TraceId;
  ca_kind : CoreActionKind;
  ca_section : option SectionKey;
  ca_watch_id : option TraceId;
  ca_episode_id : option TraceId
}.

Inductive CoreEvent :=
| CoreEvent_StartResult (r : CoreStartResult)
| CoreEvent_WatchStopped (section : SectionKey) (watch_id : TraceId)
| CoreEvent_Observation (o : OpenObservationV1)
| CoreEvent_EpisodeUpdated (e : CoreEpisode)
| CoreEvent_AlertUpdated (a : CoreAlertUpdate)
| CoreEvent_AudioDisposition (d : CoreAudioDisposition)
| CoreEvent_CueOutcomeRecorded (cue_id watch_id : TraceId) (section : SectionKey)
    (outcome : CoreCueOutcome) (audible_count_consumed : bool) (audible_count : Z)
| CoreEvent_Action (a : CoreAction).

Record CoreDispatch := {
  cd_connection_id : TraceId;
  cd_emitted_at : OffsetDateTime;
  cd_events : list CoreEvent
}.

Record CoreStartOutcome := {
  so_dispatch : CoreDispatch;
  so_replayed : bool;
  so_active_watch_count : Z
}.

Record CorePublishOutcome := { po_dispatches : list CoreDispatch; po_replayed : bool }.

Inductive CoreCleanupReason :=
| CoreCleanupReason_ConnectionClosed
| CoreCleanupReason_HeartbeatExpired
| CoreCleanupReason_ProcessStopped.

Definition episode_reason (r : CoreCleanupReason) : CoreEpisodeEndReason :=
  match r with
  | CoreCleanupReason_ConnectionClosed => CoreEpisodeEndReason_ConnectionClosed
  | CoreCleanupReason_HeartbeatExpired => CoreEpisodeEndReason_HeartbeatExpired
  | CoreCleanupReason_ProcessStopped => CoreEpisodeEndReason_ProcessStopped
  end.

Record CoreCleanupReport := {
  cr_connection_id : TraceId;
  cr_reason : CoreCleanupReason;
  cr_recorded_at : OffsetDateTime;
  cr_sections : list SectionKey;
  cr_actions : list CoreAction
}.

Record CoreTickOutcome := {
  to_expired_connections : list CoreCleanupReport;
  to_dispatches : list CoreDispatch
}.

#[export] Instance CoreCueOutcome_eq_dec : EqDecision CoreCueOutcome.
Proof. solve_decision. Defined.
#[export] Instance CoreStartDisposition_eq_dec : EqDecision CoreStartDisposition.
Proof. solve_decision. Defined.
