(* ===== verification/WatchManager.v ===== *)
(** * Section watches: the manager (crates/bcsp-watch/src/manager.rs)

    Connections, their watch sessions, the index from sections to connections
    and the observation watermarks. The clock and the source of identifiers are
    type classes, as in the code. An operation takes the manager and returns it
    with its result; [None] is a panic ([expect]). *)

From S2P Require Import Prelude Identity Contracts WatchState.

Definition START_REPLAY_WINDOW : nat := 256.
Definition SECTION_CURSOR_WINDOW : nat := 4096.

(** ** Data *)

Inductive CoreStartAdmission :=
| CoreStartAdmission_Admitted (initial_state : CoreInitialState)
    (initial_cursor : option ObservationCursor)
| CoreStartAdmission_SectionNotFound
| CoreStartAdmission_TargetUnavailable
| CoreStartAdmission_UnsupportedTarget
| CoreStartAdmission_TermOutOfRange.

Record CoreStartSpec := {
  ss_section : SectionKey;
  ss_policy : CorePolicy;
  ss_admission : CoreStartAdmission
}.

Inductive CoreManagerError :=
| CoreManagerError_InvalidHeartbeatTimeout
| CoreManagerError_ConnectionAlreadyExists
| CoreManagerError_UnknownConnection
| CoreManagerError_ObservationSequenceConflict
| CoreManagerError_UnknownWatch
| CoreManagerError_UnknownEpisode
| CoreManagerError_UnknownAlert
| CoreManagerError_EpisodeNotResumable
| CoreManagerError_InvalidEpisodeAction.

Record CoreConnection := {
  cc_last_touch : WatchInstant;
  cc_watches : gmap SectionKey CoreWatchSession;
  cc_start_replays : gmap TraceId (CoreDispatch * Z);
  cc_start_replay_order : list TraceId
}.

Record SectionObservationWatermark := { wm_cursor : ObservationCursor; wm_published : bool }.

Definition CoreConnection_new (now : WatchInstant) : CoreConnection := {|
  cc_last_touch := now;
  cc_watches := ∅;
  cc_start_replays := ∅;
  cc_start_replay_order := []
|}.

Definition cc_set_last_touch (now : WatchInstant) (c : CoreConnection) : CoreConnection := {|
  cc_last_touch := now; cc_watches := cc_watches c; cc_start_replays := cc_start_replays c;
  cc_start_replay_order := cc_start_replay_order c |}.
Definition cc_set_watches (watches : gmap SectionKey CoreWatchSession) (c : CoreConnection)
    : CoreConnection := {|
  cc_last_touch := cc_last_touch c; cc_watches := watches;
  cc_start_replays := cc_start_replays c; cc_start_replay_order := cc_start_replay_order c |}.

Definition active_episode_ids (watches : gmap SectionKey CoreWatchSession) : list TraceId :=
  omap (λ s, ep_id <$> ws_episode s) (filter (λ s, continuous_alarm_active s) (btm_values watches)).

(** The first session, in key order, with a property. *)
Definition find_watch (P : CoreWatchSession → bool) (watches : gmap SectionKey CoreWatchSession)
    : option (SectionKey * CoreWatchSession) :=
  head (filter (λ kv, P kv.2) (btm_iter watches)).

Record CoreWatchManager (C I : Type) := {
  m_clock : C;
  m_ids : I;
  m_heartbeat_timeout : Z;
  m_max_active_watches : Z;
  m_connections : gmap TraceId CoreConnection;
  m_connections_by_section : gmap SectionKey (gset TraceId);
  m_observation_cursors : gmap SectionKey SectionObservationWatermark;
  m_observation_cursor_order : list SectionKey
}.
Arguments Build_CoreWatchManager {C I}.
Arguments m_clock {C I}.
Arguments m_ids {C I}.
Arguments m_heartbeat_timeout {C I}.
Arguments m_max_active_watches {C I}.
Arguments m_connections {C I}.
Arguments m_connections_by_section {C I}.
Arguments m_observation_cursors {C I}.
Arguments m_observation_cursor_order {C I}.

Section setters.
Context {C I : Type}.
Implicit Types m : CoreWatchManager C I.

Definition m_set_clock (c : C) m : CoreWatchManager C I :=
  Build_CoreWatchManager c (m_ids m) (m_heartbeat_timeout m) (m_max_active_watches m)
    (m_connections m) (m_connections_by_section m) (m_observation_cursors m)
    (m_observation_cursor_order m).
Definition m_set_ids (i : I) m : CoreWatchManager C I :=
  Build_CoreWatchManager (m_clock m) i (m_heartbeat_timeout m) (m_max_active_watches m)
    (m_connections m) (m_connections_by_section m) (m_observation_cursors m)
    (m_observation_cursor_order m).
Definition m_set_connections (cs : gmap TraceId CoreConnection) m : CoreWatchManager C I :=
  Build_CoreWatchManager (m_clock m) (m_ids m) (m_heartbeat_timeout m) (m_max_active_watches m)
    cs (m_connections_by_section m) (m_observation_cursors m) (m_observation_cursor_order m).
Definition m_set_by_section (b : gmap SectionKey (gset TraceId)) m : CoreWatchManager C I :=
  Build_CoreWatchManager (m_clock m) (m_ids m) (m_heartbeat_timeout m) (m_max_active_watches m)
    (m_connections m) b (m_observation_cursors m) (m_observation_cursor_order m).
Definition m_set_watermarks (w : gmap SectionKey SectionObservationWatermark)
    (order : list SectionKey) m : CoreWatchManager C I :=
  Build_CoreWatchManager (m_clock m) (m_ids m) (m_heartbeat_timeout m) (m_max_active_watches m)
    (m_connections m) (m_connections_by_section m) w order.

Definition put_connection (id : TraceId) (c : CoreConnection) m : CoreWatchManager C I :=
  m_set_connections (<[id := c]> (m_connections m)) m.
Definition remove_connection (id : TraceId) m : CoreWatchManager C I :=
  m_set_connections (delete id (m_connections m)) m.

End setters.

(** ** Session operations

    They draw identifiers, push events and may panic. *)

Definition Emit (I A : Type) : Type := I → option (A * I * list CoreEvent).

#[export] Instance emit_ret {I} : MRet (Emit I) := λ A a i, Some (a, i, []).
#[export] Instance emit_bind {I} : MBind (Emit I) := λ A B f m i,
  match m i with
  | None => None
  | Some (a, i1, events) =>
      match f a i1 with
      | None => None
      | Some (b, i2, events') => Some (b, i2, events ++ events')
      end
  end.

Section emit.
Context {I : Type} `{!TraceIdSource I}.

Definition fresh : Emit I TraceId :=
  λ i, let r := next_trace_id i in Some (r.1, r.2, []).
Definition push (e : CoreEvent) : Emit I () := λ i, Some ((), i, [e]).
Definition push_all (es : list CoreEvent) : Emit I () := λ i, Some ((), i, es).
Definition expect {A} (o : option A) : Emit I A :=
  λ i, match o with Some a => Some (a, i, []) | None => None end.

Definition push_action (kind : CoreActionKind) (section : option SectionKey)
    (watch_id episode_id : option TraceId) : Emit I () :=
  action_id ← fresh;
  push (CoreEvent_Action {| ca_action_id := action_id; ca_kind := kind; ca_section := section;
                            ca_watch_id := watch_id; ca_episode_id := episode_id |}).

Definition alert_update (section : SectionKey) (episode : CoreEpisode) (change : CoreAlertChange)
    : CoreAlertUpdate := {|
  au_alert_id := ep_alert_id episode;
  au_episode_id := ep_id episode;
  au_section := section;
  au_change := change;
  au_observation_count := ep_observation_count episode;
  au_dismissed := ep_alert_dismissed episode;
  au_episode := episode
|}.

Definition push_cancelled_cues (watch_id : TraceId) (section : SectionKey)
    (cues : list PendingCue) (reason : CoreCueCancellationReason) : Emit I () :=
  push_all ((λ cue, CoreEvent_AudioDisposition
    (CoreAudioDisposition_CueCancelled watch_id section (pc_id cue) (pc_observation_id cue) reason))
    <$> cues).

Definition one_shot_event (session : CoreWatchSession) (observation_id : TraceId)
    (cue_id : option TraceId) (disposition : CoreOneShotDisposition) : CoreEvent :=
  CoreEvent_AudioDisposition (CoreAudioDisposition_OneShot (ws_id session) (ws_section session)
    observation_id cue_id disposition (ws_audible_count session)
    (cp_max_audible (ws_policy session))).

Definition open_episode (session : CoreWatchSession) (observation_id : TraceId)
    (observed_at : OffsetDateTime) (now : WatchInstant) : Emit I CoreWatchSession :=
  let sequence := u64_saturating_add (ws_episode_sequence session) 1 in
  let deadline :=
    if bool_decide (cp_mode (ws_policy session) = CoreNotificationMode_Continuous)
    then duration_deadline (cp_continuous_duration (ws_policy session)) now else None in
  id ← fresh;
  alert_id ← fresh;
  let episode := CoreEpisode_new id alert_id (ws_id session) (ws_section session)
                   (ws_policy session) (ws_audible_count session) sequence observation_id
                   observed_at deadline in
  _ ← push_action CoreActionKind_EpisodeOpened (Some (ws_section session)) (Some (ws_id session))
        (Some (ep_id episode));
  _ ← push (CoreEvent_EpisodeUpdated episode);
  _ ← push (CoreEvent_AlertUpdated
              (alert_update (ws_section session) episode CoreAlertChange_Opened));
  mret (ws_set_episode sequence (Some episode) session).

Definition end_session (session : CoreWatchSession) (reason : CoreEpisodeEndReason)
    (closed_at : OffsetDateTime) (cancel_reason : option CoreCueCancellationReason)
    : Emit I CoreWatchSession :=
  session ←
    match cancel_reason with
    | Some cancel_reason =>
        let (cues, session') := take_pending_cues session in
        _ ← push_cancelled_cues (ws_id session) (ws_section session) cues cancel_reason;
        mret session'
    | None => mret session
    end;
  match ws_episode session with
  | None => mret session
  | Some episode =>
      if bool_decide (ep_state episode = CoreEpisodeState_Closed) then mret session
      else
        let episode := ep_close reason closed_at None episode in
        _ ← push (CoreEvent_EpisodeUpdated episode);
        _ ← push (CoreEvent_AlertUpdated
                    (alert_update (ws_section session) episode CoreAlertChange_Closed));
        _ ← push_action CoreActionKind_EpisodeClosed (Some (ws_section session))
              (Some (ws_id session)) (Some (ep_id episode));
        mret (ws_put_episode (Some episode) session)
  end.

Definition request_cue (session : CoreWatchSession) (cue : PendingCue) : Emit I CoreWatchSession :=
  _ ← push (one_shot_event session (pc_observation_id cue) (Some (pc_id cue))
              CoreOneShotDisposition_Requested);
  mret (ws_set_cues (ws_audible_count session) (Some cue) (ws_queued_cues session) session).

Definition queue_one_shot (session : CoreWatchSession) (observation_id : TraceId)
    : Emit I CoreWatchSession :=
  let max := cp_max_audible (ws_policy session) in
  if bool_decide (max ≤ ws_audible_count session) then
    _ ← push (one_shot_event session observation_id None CoreOneShotDisposition_SilentCap);
    mret session
  else
    id ← fresh;
    episode ← expect (ws_episode session);
    let cue := {| pc_id := id; pc_observation_id := observation_id;
                  pc_episode_id := ep_id episode |} in
    if bool_decide (is_Some (ws_active_cue session)) then
      _ ← push (one_shot_event session observation_id (Some (pc_id cue))
                  CoreOneShotDisposition_Queued);
      mret (ws_set_cues (ws_audible_count session) (ws_active_cue session)
              (ws_queued_cues session ++ [cue]) session)
    else request_cue session cue.

Definition drive_one_shot (session : CoreWatchSession) : Emit I CoreWatchSession :=
  if bool_decide (is_Some (ws_active_cue session)) then mret session
  else
    let max := cp_max_audible (ws_policy session) in
    if bool_decide (max ≤ ws_audible_count session) then
      _ ← push_all ((λ cue, one_shot_event session (pc_observation_id cue) None
                       CoreOneShotDisposition_SilentCap) <$> ws_queued_cues session);
      mret (ws_set_cues (ws_audible_count session) (ws_active_cue session) [] session)
    else
      match ws_queued_cues session with
      | cue :: queued =>
          request_cue (ws_set_cues (ws_audible_count session) (ws_active_cue session) queued session)
            cue
      | [] => mret session
      end.

Definition cue_action (outcome : CoreCueOutcome) : CoreActionKind :=
  match outcome with
  | CoreCueOutcome_Started => CoreActionKind_CueStarted
  | CoreCueOutcome_Muted => CoreActionKind_CueMuted
  | CoreCueOutcome_AutoplayBlocked => CoreActionKind_CueAutoplayBlocked
  | CoreCueOutcome_Failed => CoreActionKind_CueFailed
  end.

(** The outcome of the active cue [cue]: a started cue counts as audible, and
    the next queued cue is driven. *)
Definition record_cue_outcome (section : SectionKey) (session : CoreWatchSession)
    (cue : PendingCue) (outcome : CoreCueOutcome) : Emit I CoreWatchSession :=
  let started := bool_decide (outcome = CoreCueOutcome_Started) in
  let audible_count :=
    if started then u64_saturating_add (ws_audible_count session) 1
    else ws_audible_count session in
  let episode :=
    if started then ep_set_audible_count audible_count <$> ws_episode session
    else ws_episode session in
  let session :=
    ws_put_episode episode (ws_set_cues audible_count None (ws_queued_cues session) session) in
  _ ← push (CoreEvent_CueOutcomeRecorded (pc_id cue) (ws_id session) (ws_section session)
              outcome started audible_count);
  _ ← push_action (cue_action outcome) (Some section) (Some (ws_id session))
        (Some (pc_episode_id cue));
  _ ← push_all (if started then option_list (CoreEvent_EpisodeUpdated <$> episode) else []);
  drive_one_shot session.

(** An OPEN observation opens an episode, or updates the one that is live. *)
Definition open_or_update_episode (session : CoreWatchSession) (observation : OpenObservationV1)
    (now : WatchInstant) : Emit I CoreWatchSession :=
  let creates_episode :=
    bool_decide (ws_reliable_state session ≠ Some ReliableState_Open)
    || match ws_episode session with
       | None => true
       | Some episode => bool_decide (ep_state episode = CoreEpisodeState_Closed)
       end in
  let session := ws_set_reliable_state (Some ReliableState_Open) session in
  if creates_episode
  then open_episode session (oo_observation_id observation) (oo_observed_at observation) now
  else match ws_episode session with
  | Some episode =>
      let episode := observe_open (oo_observation_id observation)
                       (oo_observed_at observation) episode in
      _ ← push (CoreEvent_EpisodeUpdated episode);
      _ ← push (CoreEvent_AlertUpdated
                  (alert_update (ws_section session) episode CoreAlertChange_Updated));
      mret (ws_put_episode (Some episode) session)
  | None => mret session
  end.

(** The cue of an OPEN observation, for a one-shot watch. *)
Definition cue_if_one_shot (session : CoreWatchSession) (observation_id : TraceId)
    : Emit I CoreWatchSession :=
  if bool_decide (cp_mode (ws_policy session) = CoreNotificationMode_OneShot)
  then queue_one_shot session observation_id
  else mret session.

Definition apply_observation (session : CoreWatchSession) (observation : OpenObservationV1)
    (now : WatchInstant) : Emit I CoreWatchSession :=
  match oo_state observation with
  | OpenState_Open =>
      session ← open_or_update_episode session observation now;
      cue_if_one_shot session (oo_observation_id observation)
  | OpenState_Closed =>
      end_session (ws_set_reliable_state (Some ReliableState_Closed) session)
        CoreEpisodeEndReason_ObservedClosed (oo_observed_at observation) None
  | OpenState_Unknown =>
      (* UNKNOWN never masquerades as a reliable CLOSED nor rearms an episode. *)
      mret session
  end.

(** The mixer event, when the set of sounding episodes has changed. *)
Definition mixer_events (watches : gmap SectionKey CoreWatchSession) (previous : list TraceId)
    (stop_reason : CoreMixerStopReason) : list CoreEvent :=
  let current := active_episode_ids watches in
  if bool_decide (current ≠ previous) then
    let active := negb (bool_decide (current = [])) in
    [CoreEvent_AudioDisposition (CoreAudioDisposition_ContinuousMixer active current
       (if active then None else Some stop_reason))]
  else [].

End emit.

(** ** Observation cursors *)

(** [Ok accepted]; a sequence with two observation identifiers is a conflict. *)
Definition cursor_accepts (cursor : option ObservationCursor) (pull_sequence : Z)
    (observation_id : TraceId) : result CoreManagerError bool :=
  match cursor with
  | None => Ok true
  | Some cursor =>
      if bool_decide (pull_sequence < oc_pull_sequence cursor) then Ok false
      else if bool_decide (oc_pull_sequence cursor < pull_sequence) then Ok true
      else if bool_decide (observation_id = oc_observation_id cursor) then Ok false
      else Err CoreManagerError_ObservationSequenceConflict
  end.

(** ** Manager operations *)

Section manager.
Context {C I : Type} `{!WatchClock C, !TraceIdSource I}.
Implicit Types m : CoreWatchManager C I.

Definition try_new_with_max_active_watches (clock : C) (ids : I)
    (heartbeat_timeout max_active_watches : Z) : result CoreManagerError (CoreWatchManager C I) :=
  if bool_decide (heartbeat_timeout = 0) then Err CoreManagerError_InvalidHeartbeatTimeout
  else Ok (Build_CoreWatchManager clock ids heartbeat_timeout max_active_watches ∅ ∅ ∅ []).

Definition try_new (clock : C) (ids : I) (heartbeat_timeout : Z)
    : result CoreManagerError (CoreWatchManager C I) :=
  try_new_with_max_active_watches clock ids heartbeat_timeout MAX_ACTIVE_WATCHES.

Definition connection_count m : nat := size (m_connections m).

Definition take_now m : WatchInstant * CoreWatchManager C I :=
  let r := clock_now (m_clock m) in (r.1, m_set_clock r.2 m).
Definition take_wall_now m : OffsetDateTime * CoreWatchManager C I :=
  let r := clock_wall_now (m_clock m) in (r.1, m_set_clock r.2 m).

Definition connect (connection_id : TraceId) m
    : CoreWatchManager C I * result CoreManagerError () :=
  if bool_decide (is_Some (m_connections m !! connection_id))
  then (m, Err CoreManagerError_ConnectionAlreadyExists)
  else
    let (now, m) := take_now m in
    (put_connection connection_id (CoreConnection_new now) m, Ok ()).

Definition touch (connection_id : TraceId) m : CoreWatchManager C I * result CoreManagerError () :=
  let (now, m) := take_now m in
  match m_connections m !! connection_id with
  | None => (m, Err CoreManagerError_UnknownConnection)
  | Some connection => (put_connection connection_id (cc_set_last_touch now connection) m, Ok ())
  end.

(** *** Watermarks *)

Fixpoint validate_watermarks_loop (specs : list CoreStartSpec)
    (candidates : gmap SectionKey ObservationCursor) : result CoreManagerError () :=
  match specs with
  | [] => Ok ()
  | spec :: specs =>
      match ss_admission spec with
      | CoreStartAdmission_Admitted _ (Some cursor) =>
          accepted ← cursor_accepts (candidates !! ss_section spec) (oc_pull_sequence cursor)
                       (oc_observation_id cursor);
          validate_watermarks_loop specs
            (if accepted : bool then <[ss_section spec := cursor]> candidates else candidates)
      | _ => validate_watermarks_loop specs candidates
      end
  end.

Definition validate_initial_watermarks (specs : list CoreStartSpec) m : result CoreManagerError () :=
  validate_watermarks_loop specs (wm_cursor <$> m_observation_cursors m).

Definition make_watermark_room (section : SectionKey) m : CoreWatchManager C I :=
  if bool_decide (is_Some (m_observation_cursors m !! section)) then m
  else
    let (cursors, order) :=
      if bool_decide (size (m_observation_cursors m) = SECTION_CURSOR_WINDOW) then
        match m_observation_cursor_order m with
        | expired :: order => (delete expired (m_observation_cursors m), order)
        | [] => (m_observation_cursors m, [])
        end
      else (m_observation_cursors m, m_observation_cursor_order m) in
    m_set_watermarks cursors (order ++ [section]) m.

Definition put_watermark (section : SectionKey) (w : SectionObservationWatermark) m
    : CoreWatchManager C I :=
  m_set_watermarks (<[section := w]> (m_observation_cursors m)) (m_observation_cursor_order m) m.

Definition seed_observation_watermark (section : SectionKey) (cursor : ObservationCursor) m
    : CoreWatchManager C I :=
  match m_observation_cursors m !! section with
  | Some watermark =>
      if bool_decide (oc_pull_sequence (wm_cursor watermark) < oc_pull_sequence cursor)
      then put_watermark section {| wm_cursor := cursor; wm_published := false |} m
      else m
  | None =>
      put_watermark section {| wm_cursor := cursor; wm_published := false |}
        (make_watermark_room section m)
  end.

Definition record_published_observation (section : SectionKey) (cursor : ObservationCursor) m
    : CoreWatchManager C I :=
  match m_observation_cursors m !! section with
  | Some _ => put_watermark section {| wm_cursor := cursor; wm_published := true |} m
  | None =>
      put_watermark section {| wm_cursor := cursor; wm_published := true |}
        (make_watermark_room section m)
  end.

(** *** The index *)

Definition link (connection_id : TraceId) (section : SectionKey) m : CoreWatchManager C I :=
  m_set_by_section
    (<[section := {[connection_id]} ∪ default ∅ (m_connections_by_section m !! section)]>
       (m_connections_by_section m)) m.

Definition unlink (connection_id : TraceId) (section : SectionKey) m : CoreWatchManager C I :=
  match m_connections_by_section m !! section with
  | None => m
  | Some connections =>
      let connections := connections ∖ {[connection_id]} in
      if bool_decide (connections = ∅)
      then m_set_by_section (delete section (m_connections_by_section m)) m
      else m_set_by_section (<[section := connections]> (m_connections_by_section m)) m
  end.

(** *** Starting watches *)

(** The loop state of [start]; the connection is out of the table. *)
Record StartLoop := {
  sl_manager : CoreWatchManager C I;
  sl_watches : gmap SectionKey CoreWatchSession;
  sl_in_message : gset SectionKey;
  sl_events : list CoreEvent
}.

Definition start_reject (section : SectionKey) (disposition : CoreStartDisposition) (l : StartLoop)
    : StartLoop := {|
  sl_manager := sl_manager l;
  sl_watches := sl_watches l;
  sl_in_message := {[section]} ∪ sl_in_message l;
  sl_events := sl_events l ++ [CoreEvent_StartResult
    {| sr_section := section; sr_disposition := disposition; sr_watch_id := None |}]
|}.

(** The alert of a watch that starts on an OPEN section. *)
Definition start_alert (session : CoreWatchSession) (initial_state : CoreInitialState)
    (now : WatchInstant) : Emit I CoreWatchSession :=
  match initial_state with
  | CoreInitialState_Open observation_id observed_at =>
      session ← open_episode session observation_id observed_at now;
      cue_if_one_shot session observation_id
  | _ => mret session
  end.

(** The end of the session a start replaces. *)
Definition end_previous (previous : option CoreWatchSession) (emitted_at : OffsetDateTime)
    : Emit I () :=
  match previous with
  | Some previous =>
      _ ← end_session previous CoreEpisodeEndReason_Restarted emitted_at
            (Some CoreCueCancellationReason_WatchRestarted);
      mret ()
  | None => mret ()
  end.

(** The identifiers and events of an admitted start: the previous session
    ends, the new one is announced and, on an OPEN section, alerts. *)
Definition start_session (previous : option CoreWatchSession) (spec : CoreStartSpec)
    (initial_state : CoreInitialState) (initial_cursor : option ObservationCursor)
    (now : WatchInstant) (emitted_at : OffsetDateTime) : Emit I CoreWatchSession :=
  let section := ss_section spec in
  let restarted := bool_decide (is_Some previous) in
  _ ← end_previous previous emitted_at;
  watch_id ← fresh;
  _ ← push (CoreEvent_StartResult {|
        sr_section := section;
        sr_disposition := if restarted then CoreStartDisposition_Restarted
                          else CoreStartDisposition_Started;
        sr_watch_id := Some watch_id |});
  _ ← push_action (if restarted then CoreActionKind_WatchRestarted else CoreActionKind_WatchStarted)
        (Some section) (Some watch_id) None;
  start_alert (CoreWatchSession_new watch_id section (ss_policy spec) initial_state initial_cursor)
    initial_state now.

Definition start_one (connection_id : TraceId) (now : WatchInstant) (emitted_at : OffsetDateTime)
    (l : StartLoop) (spec : CoreStartSpec) : option StartLoop :=
  let section := ss_section spec in
  let m := sl_manager l in
  if bool_decide (section ∈ sl_in_message l)
  then Some (start_reject section CoreStartDisposition_RejectedDuplicate l)
  else match ss_admission spec with
  | CoreStartAdmission_SectionNotFound =>
      Some (start_reject section CoreStartDisposition_RejectedSectionNotFound l)
  | CoreStartAdmission_TargetUnavailable =>
      Some (start_reject section CoreStartDisposition_RejectedTargetUnavailable l)
  | CoreStartAdmission_UnsupportedTarget =>
      Some (start_reject section CoreStartDisposition_RejectedUnsupportedTarget l)
  | CoreStartAdmission_TermOutOfRange =>
      Some (start_reject section CoreStartDisposition_RejectedTermOutOfRange l)
  | CoreStartAdmission_Admitted initial_state initial_cursor =>
      let previous := sl_watches l !! section in
      if bool_decide (previous = None
           ∧ m_max_active_watches m ≤ Z.of_nat (size (sl_watches l)))
      then Some (start_reject section CoreStartDisposition_RejectedLimit l)
      else
        let m := match previous with Some _ => m | None => link connection_id section m end in
        '(session, ids, events) ←
          start_session previous spec initial_state initial_cursor now emitted_at (m_ids m);
        let m := m_set_ids ids m in
        let m := match initial_cursor with
                 | Some cursor => seed_observation_watermark section cursor m
                 | None => m
                 end in
        Some {| sl_manager := m;
                sl_watches := <[section := session]> (sl_watches l);
                sl_in_message := {[section]} ∪ sl_in_message l;
                sl_events := sl_events l ++ events |}
  end.

Fixpoint start_loop (connection_id : TraceId) (now : WatchInstant) (emitted_at : OffsetDateTime)
    (specs : list CoreStartSpec) (l : StartLoop) : option StartLoop :=
  match specs with
  | [] => Some l
  | spec :: specs =>
      l' ← start_one connection_id now emitted_at l spec;
      start_loop connection_id now emitted_at specs l'
  end.

(** The replay window: oldest message first out. *)
Definition remember_replay (message_id : TraceId) (reply : CoreDispatch * Z) (c : CoreConnection)
    : CoreConnection :=
  let replays := <[message_id := reply]> (cc_start_replays c) in
  let order := cc_start_replay_order c ++ [message_id] in
  match order with
  | expired :: rest =>
      if bool_decide (START_REPLAY_WINDOW < length order)%nat
      then {| cc_last_touch := cc_last_touch c; cc_watches := cc_watches c;
              cc_start_replays := delete expired replays; cc_start_replay_order := rest |}
      else {| cc_last_touch := cc_last_touch c; cc_watches := cc_watches c;
              cc_start_replays := replays; cc_start_replay_order := order |}
  | [] => c
  end.

Definition start (connection_id message_id : TraceId) (specs : list CoreStartSpec) m
    : option (CoreWatchManager C I * result CoreManagerError CoreStartOutcome) :=
  let (now, m) := take_now m in
  match m_connections m !! connection_id with
  | None => Some (m, Err CoreManagerError_UnknownConnection)
  | Some connection =>
      match cc_start_replays connection !! message_id with
      | Some (dispatch, active_watch_count) =>
          Some (put_connection connection_id (cc_set_last_touch now connection) m,
                Ok {| so_dispatch := dispatch; so_replayed := true;
                      so_active_watch_count := active_watch_count |})
      | None =>
          match validate_initial_watermarks specs m with
          | Err e => Some (m, Err e)
          | Ok _ =>
              let (emitted_at, m) := take_wall_now m in
              let connection := cc_set_last_touch now connection in
              let previous_mixer := active_episode_ids (cc_watches connection) in
              l ← start_loop connection_id now emitted_at specs {|
                    sl_manager := remove_connection connection_id m;
                    sl_watches := cc_watches connection;
                    sl_in_message := ∅;
                    sl_events := [] |};
              let events := sl_events l ++ mixer_events (sl_watches l) previous_mixer
                              CoreMixerStopReason_NoUnacknowledgedEpisodes in
              let count := Z.of_nat (size (sl_watches l)) in
              if bool_decide (u8_max < count) then None
              else
                let dispatch := {| cd_connection_id := connection_id; cd_emitted_at := emitted_at;
                                   cd_events := events |} in
                let connection := remember_replay message_id (dispatch, count)
                                    (cc_set_watches (sl_watches l) connection) in
                Some (put_connection connection_id connection (sl_manager l),
                      Ok {| so_dispatch := dispatch; so_replayed := false;
                            so_active_watch_count := count |})
          end
      end
  end.

(** *** Stopping *)

Definition stop_watch (connection_id watch_id : TraceId) m
    : option (CoreWatchManager C I * result CoreManagerError CoreDispatch) :=
  match m_connections m !! connection_id with
  | None => Some (m, Err CoreManagerError_UnknownConnection)
  | Some connection =>
      let previous_mixer := active_episode_ids (cc_watches connection) in
      match find_watch (λ watch, bool_decide (ws_id watch = watch_id)) (cc_watches connection) with
      | None => Some (m, Err CoreManagerError_UnknownWatch)
      | Some (section, session) =>
          let watches := delete section (cc_watches connection) in
          let (emitted_at, m) := take_wall_now m in
          '(_, ids, events) ←
            (session ← end_session session CoreEpisodeEndReason_WatchStopped emitted_at
                         (Some CoreCueCancellationReason_WatchStopped);
             _ ← push_action CoreActionKind_WatchStopped (Some section) (Some watch_id)
                   (ep_id <$> ws_episode session);
             push (CoreEvent_WatchStopped section watch_id)) (m_ids m);
          let m := unlink connection_id section (m_set_ids ids m) in
          let events := events ++ mixer_events watches previous_mixer
                          CoreMixerStopReason_NoUnacknowledgedEpisodes in
          Some (put_connection connection_id (cc_set_watches watches connection) m,
                Ok {| cd_connection_id := connection_id; cd_emitted_at := emitted_at;
                      cd_events := events |})
      end
  end.

(** *** Publishing an observation *)

(** The sessions of the section must not have seen the sequence with another
    identifier. *)
Fixpoint publish_check (connection_ids : list TraceId) (observation : OpenObservationV1) m
    : result CoreManagerError () :=
  match connection_ids with
  | [] => Ok ()
  | connection_id :: connection_ids =>
      match (connection ← m_connections m !! connection_id;
             cc_watches connection !! oo_section_key observation) with
      | None => publish_check connection_ids observation m
      | Some session =>
          _ ← cursor_accepts (ws_observation_cursor session)
                (os_get (oo_pull_sequence observation)) (oo_observation_id observation);
          publish_check connection_ids observation m
      end
  end.

(** The delivery loop; an error drops the connection being served. *)
Fixpoint publish_loop (connection_ids : list TraceId) (observation : OpenObservationV1)
    (now : WatchInstant) (emitted_at : OffsetDateTime) (dispatches : list CoreDispatch) m
    : option (CoreWatchManager C I * result CoreManagerError (list CoreDispatch)) :=
  let section := oo_section_key observation in
  let pull_sequence := os_get (oo_pull_sequence observation) in
  match connection_ids with
  | [] => Some (m, Ok dispatches)
  | connection_id :: connection_ids =>
      match m_connections m !! connection_id with
      | None => publish_loop connection_ids observation now emitted_at dispatches m
      | Some connection =>
          let watches := cc_watches connection in
          let previous_mixer := active_episode_ids watches in
          let finish (m : CoreWatchManager C I) watches events :=
            let events := events ++ mixer_events watches previous_mixer
                            CoreMixerStopReason_NoUnacknowledgedEpisodes in
            let m := put_connection connection_id (cc_set_watches watches connection) m in
            publish_loop connection_ids observation now emitted_at
              (if bool_decide (events ≠ [])
               then dispatches ++ [{| cd_connection_id := connection_id;
                                      cd_emitted_at := emitted_at; cd_events := events |}]
               else dispatches) m in
          match watches !! section with
          | None => finish m watches []
          | Some session =>
              let events := [CoreEvent_Observation observation] in
              match cursor_accepts (ws_observation_cursor session) pull_sequence
                      (oo_observation_id observation) with
              | Err e => Some (remove_connection connection_id m, Err e)
              | Ok false => finish m watches events
              | Ok true =>
                  let session := ws_set_cursor
                    (Some {| oc_pull_sequence := pull_sequence;
                             oc_observation_id := oo_observation_id observation |}) session in
                  '(session, ids, events') ← apply_observation session observation now (m_ids m);
                  finish (m_set_ids ids m) (<[section := session]> watches) (events ++ events')
              end
          end
      end
  end.

Definition publish (observation : OpenObservationV1) m
    : option (CoreWatchManager C I * result CoreManagerError CorePublishOutcome) :=
  let section := oo_section_key observation in
  let pull_sequence := os_get (oo_pull_sequence observation) in
  let watermark := m_observation_cursors m !! section in
  match cursor_accepts (wm_cursor <$> watermark) pull_sequence (oo_observation_id observation) with
  | Err e => Some (m, Err e)
  | Ok globally_new =>
      let seeded_exact :=
        match watermark with
        | Some w => negb (wm_published w)
            && bool_decide (oc_pull_sequence (wm_cursor w) = pull_sequence)
            && bool_decide (oc_observation_id (wm_cursor w) = oo_observation_id observation)
        | None => false
        end in
      if negb globally_new && negb seeded_exact
      then Some (m, Ok {| po_dispatches := []; po_replayed := true |})
      else
        let connection_ids := bts_iter (default ∅ (m_connections_by_section m !! section)) in
        match publish_check connection_ids observation m with
        | Err e => Some (m, Err e)
        | Ok _ =>
            let m := record_published_observation section
                       {| oc_pull_sequence := pull_sequence;
                          oc_observation_id := oo_observation_id observation |} m in
            if bool_decide (connection_ids = [])
            then Some (m, Ok {| po_dispatches := []; po_replayed := false |})
            else
              let (now, m) := take_now m in
              let (emitted_at, m) := take_wall_now m in
              '(m, r) ← publish_loop connection_ids observation now emitted_at [] m;
              Some (m, dispatches ← r;
                       Ok {| po_dispatches := dispatches;
                             po_replayed := bool_decide (dispatches = []) |})
        end
  end.

(** *** Client commands *)

(** The reply of a command that changed one session: the connection goes back
    with the session in place. *)
Definition reply_session (connection_id : TraceId) (connection : CoreConnection)
    (section : SectionKey) (session : CoreWatchSession) (emitted_at : OffsetDateTime)
    (ids : I) (events : list CoreEvent) (mixer : list CoreEvent) m
    : CoreWatchManager C I * result CoreManagerError CoreDispatch :=
  let watches := <[section := session]> (cc_watches connection) in
  (put_connection connection_id (cc_set_watches watches connection) (m_set_ids ids m),
   Ok {| cd_connection_id := connection_id; cd_emitted_at := emitted_at;
         cd_events := events ++ mixer |}).

Definition update_policy (connection_id watch_id : TraceId) (policy : CorePolicy) m
    : option (CoreWatchManager C I * result CoreManagerError CoreDispatch) :=
  match m_connections m !! connection_id with
  | None => Some (m, Err CoreManagerError_UnknownConnection)
  | Some connection =>
      let watches := cc_watches connection in
      let previous_mixer := active_episode_ids watches in
      let (now, m) := take_now m in
      let (emitted_at, m) := take_wall_now m in
      match find_watch (λ session, bool_decide (ws_id session = watch_id)) watches with
      | None => Some (m, Err CoreManagerError_UnknownWatch)
      | Some (section, session) =>
          let previous_mode := cp_mode (ws_policy session) in
          let to_continuous := bool_decide (cp_mode policy = CoreNotificationMode_Continuous) in
          let (cancelled_cues, session) :=
            if bool_decide (previous_mode = CoreNotificationMode_OneShot) && to_continuous
            then take_pending_cues session else ([], session) in
          let episode :=
            (λ e, ep_with policy
               (if to_continuous
                then if bool_decide (ep_state e = CoreEpisodeState_Unacknowledged)
                     then duration_deadline (cp_continuous_duration policy) now
                     else ep_deadline e
                else None)
               (ep_audible_count e) (ep_alert_dismissed e) e) <$> ws_episode session in
          let session := ws_put_episode episode (ws_set_policy policy session) in
          '(_, ids, events) ←
            (_ ← push_cancelled_cues (ws_id session) (ws_section session) cancelled_cues
                   CoreCueCancellationReason_NotificationModeChanged;
             _ ← push_all (option_list (CoreEvent_EpisodeUpdated <$> episode));
             push_action CoreActionKind_PolicyUpdated (Some (ws_section session)) (Some watch_id)
               (ep_id <$> episode)) (m_ids m);
          Some (reply_session connection_id connection section session emitted_at ids events
                  (mixer_events (<[section := session]> watches) previous_mixer
                     (if bool_decide (previous_mode ≠ cp_mode policy)
                      then CoreMixerStopReason_NotificationModeChanged
                      else CoreMixerStopReason_NoUnacknowledgedEpisodes)) m)
      end
  end.

Definition has_episode (episode_id : TraceId) (session : CoreWatchSession) : bool :=
  match ws_episode session with
  | Some e => bool_decide (ep_id e = episode_id)
  | None => false
  end.

(** Acknowledging an episode. *)
Definition ep_acknowledge (emitted_at : OffsetDateTime) (e : CoreEpisode) : CoreEpisode :=
  ep_transition CoreEpisodeState_Acknowledged None (Z.max emitted_at (ep_first_observed_at e)) e.

Definition acknowledge_episode (connection_id episode_id : TraceId) m
    : option (CoreWatchManager C I * result CoreManagerError CoreDispatch) :=
  match m_connections m !! connection_id with
  | None => Some (m, Err CoreManagerError_UnknownConnection)
  | Some connection =>
      let watches := cc_watches connection in
      let previous_mixer := active_episode_ids watches in
      match find_watch (has_episode episode_id) watches with
      | None => Some (m, Err CoreManagerError_UnknownEpisode)
      | Some (section, session) =>
          if bool_decide (cp_mode (ws_policy session) ≠ CoreNotificationMode_Continuous)
          then Some (m, Err CoreManagerError_InvalidEpisodeAction)
          else
            let (emitted_at, m) := take_wall_now m in
            '(session, ids, events) ←
              match ws_episode session with
              | Some episode =>
                  if bool_decide (ep_state episode = CoreEpisodeState_Unacknowledged) then
                    (let episode := ep_acknowledge emitted_at episode in
                     _ ← push (CoreEvent_EpisodeUpdated episode);
                     _ ← push_action CoreActionKind_EpisodeAcknowledged (Some (ws_section session))
                           (Some (ws_id session)) (Some episode_id);
                     mret (ws_put_episode (Some episode) session)) (m_ids m)
                  else mret (M:=Emit I) session (m_ids m)
              | None => mret (M:=Emit I) session (m_ids m)
              end;
            Some (reply_session connection_id connection section session emitted_at ids events
                    (mixer_events (<[section := session]> watches) previous_mixer
                       CoreMixerStopReason_NoUnacknowledgedEpisodes) m)
      end
  end.

(** One pass over the sessions of a connection: the episodes of CONTINUOUS
    watches that satisfy [P] take the transition [f]; the accumulator holds the
    events and the identities for the actions. *)
Definition sweep_episodes (P : CoreEpisode → bool) (f : CoreEpisode → CoreEpisode)
    (watches : gmap SectionKey CoreWatchSession)
    : list CoreEvent * list (SectionKey * TraceId * TraceId) * gmap SectionKey CoreWatchSession :=
  btm_accum (λ acc _ session,
    if bool_decide (cp_mode (ws_policy session) ≠ CoreNotificationMode_Continuous)
    then (acc, session)
    else match ws_episode session with
    | None => (acc, session)
    | Some episode =>
        if bool_decide (ep_state episode ≠ CoreEpisodeState_Unacknowledged) || negb (P episode)
        then (acc, session)
        else
          let episode := f episode in
          ((acc.1 ++ [CoreEvent_EpisodeUpdated episode],
            acc.2 ++ [(ws_section session, ws_id session, ep_id episode)]),
           ws_put_episode (Some episode) session)
    end) ([], []) watches.

(** One action per identity. *)
Fixpoint push_actions (kind : CoreActionKind) (l : list (SectionKey * TraceId * TraceId))
    : Emit I () :=
  match l with
  | [] => mret ()
  | (section, watch_id, episode_id) :: l =>
      _ ← push_action kind (Some section) (Some watch_id) (Some episode_id);
      push_actions kind l
  end.

Definition acknowledge_all (connection_id : TraceId) m
    : option (CoreWatchManager C I * result CoreManagerError CoreDispatch) :=
  match m_connections m !! connection_id with
  | None => Some (m, Err CoreManagerError_UnknownConnection)
  | Some connection =>
      let previous_mixer := active_episode_ids (cc_watches connection) in
      let (emitted_at, m) := take_wall_now m in
      let '(updates, acknowledged, watches) :=
        sweep_episodes (λ _, true) (ep_acknowledge emitted_at) (cc_watches connection) in
      '(_, ids, actions) ← push_actions CoreActionKind_EpisodesAcknowledgedAll acknowledged (m_ids m);
      let events := updates ++ actions ++ mixer_events watches previous_mixer
                      CoreMixerStopReason_NoUnacknowledgedEpisodes in
      Some (put_connection connection_id (cc_set_watches watches connection) (m_set_ids ids m),
            Ok {| cd_connection_id := connection_id; cd_emitted_at := emitted_at;
                  cd_events := events |})
  end.

Definition resume_episode (connection_id episode_id : TraceId) m
    : option (CoreWatchManager C I * result CoreManagerError CoreDispatch) :=
  let (now, m) := take_now m in
  match m_connections m !! connection_id with
  | None => Some (m, Err CoreManagerError_UnknownConnection)
  | Some connection =>
      let watches := cc_watches connection in
      let previous_mixer := active_episode_ids watches in
      match find_watch (has_episode episode_id) watches with
      | None => Some (m, Err CoreManagerError_UnknownEpisode)
      | Some (section, session) =>
          if bool_decide (cp_mode (ws_policy session) ≠ CoreNotificationMode_Continuous)
             || bool_decide (ws_reliable_state session ≠ Some ReliableState_Open)
             || bool_decide (ep_state <$> ws_episode session ≠ Some CoreEpisodeState_TimedOut)
          then Some (m, Err CoreManagerError_EpisodeNotResumable)
          else
            let (emitted_at, m) := take_wall_now m in
            '(session, ids, events) ←
              (episode ← expect (ws_episode session);
               let episode :=
                 ep_transition CoreEpisodeState_Unacknowledged
                   (duration_deadline (cp_continuous_duration (ws_policy session)) now)
                   (Z.max emitted_at (ep_first_observed_at episode)) episode in
               _ ← push (CoreEvent_EpisodeUpdated episode);
               _ ← push_action CoreActionKind_EpisodeResumed (Some (ws_section session))
                     (Some (ws_id session)) (Some episode_id);
               mret (ws_put_episode (Some episode) session)) (m_ids m);
            Some (reply_session connection_id connection section session emitted_at ids events
                    (mixer_events (<[section := session]> watches) previous_mixer
                       CoreMixerStopReason_NoUnacknowledgedEpisodes) m)
      end
  end.

Definition reset_audible_count (connection_id watch_id : TraceId) m
    : option (CoreWatchManager C I * result CoreManagerError CoreDispatch) :=
  match m_connections m !! connection_id with
  | None => Some (m, Err CoreManagerError_UnknownConnection)
  | Some connection =>
      match find_watch (λ session, bool_decide (ws_id session = watch_id)) (cc_watches connection) with
      | None => Some (m, Err CoreManagerError_UnknownWatch)
      | Some (section, session) =>
          let (emitted_at, m) := take_wall_now m in
          let episode := ep_set_audible_count 0 <$> ws_episode session in
          let session :=
            ws_put_episode episode
              (ws_set_cues 0 (ws_active_cue session) (ws_queued_cues session) session) in
          '(session, ids, events) ←
            (_ ← push_all (option_list (CoreEvent_EpisodeUpdated <$> episode));
             _ ← push_action CoreActionKind_AudibleCountReset (Some (ws_section session))
                   (Some watch_id) (ep_id <$> episode);
             drive_one_shot session) (m_ids m);
          Some (reply_session connection_id connection section session emitted_at ids events [] m)
      end
  end.

Definition has_active_cue (cue_id : TraceId) (session : CoreWatchSession) : bool :=
  match ws_active_cue session with
  | Some cue => bool_decide (pc_id cue = cue_id)
  | None => false
  end.

(** A report for a cue that is not active anywhere is answered with no event. *)
Definition report_cue_outcome (connection_id cue_id : TraceId) (outcome : CoreCueOutcome) m
    : option (CoreWatchManager C I * result CoreManagerError CoreDispatch) :=
  match m_connections m !! connection_id with
  | None => Some (m, Err CoreManagerError_UnknownConnection)
  | Some connection =>
      let (emitted_at, m) := take_wall_now m in
      match find_watch (has_active_cue cue_id) (cc_watches connection) with
      | None => Some (m, Ok {| cd_connection_id := connection_id; cd_emitted_at := emitted_at;
                               cd_events := [] |})
      | Some (section, session) =>
          cue ← ws_active_cue session;
          '(session, ids, events) ← record_cue_outcome section session cue outcome (m_ids m);
          Some (reply_session connection_id connection section session emitted_at ids events [] m)
      end
  end.

Definition has_alert (alert_id : TraceId) (session : CoreWatchSession) : bool :=
  match ws_episode session with
  | Some e => bool_decide (ep_alert_id e = alert_id)
  | None => false
  end.

Definition dismiss_alert (connection_id alert_id : TraceId) m
    : option (CoreWatchManager C I * result CoreManagerError CoreDispatch) :=
  match m_connections m !! connection_id with
  | None => Some (m, Err CoreManagerError_UnknownConnection)
  | Some connection =>
      match find_watch (has_alert alert_id) (cc_watches connection) with
      | None => Some (m, Err CoreManagerError_UnknownAlert)
      | Some (section, session) =>
          let (emitted_at, m) := take_wall_now m in
          '(session, ids, events) ←
            (episode ← expect (ws_episode session);
             let episode := ep_set_dismissed episode in
             _ ← push (CoreEvent_AlertUpdated
                         (alert_update (ws_section session) episode CoreAlertChange_Dismissed));
             _ ← push_action CoreActionKind_AlertDismissed (Some (ws_section session))
                   (Some (ws_id session)) (Some (ep_id episode));
             mret (ws_put_episode (Some episode) session)) (m_ids m);
          Some (reply_session connection_id connection section session emitted_at ids events [] m)
      end
  end.

(** *** Cleanup *)

(** The loop over the sessions of a removed connection, in key order. *)
Fixpoint cleanup_loop (connection_id : TraceId) (reason : CoreCleanupReason)
    (recorded_at : OffsetDateTime) (sessions : list (SectionKey * CoreWatchSession))
    (actions : list CoreAction) m : list CoreAction * CoreWatchManager C I :=
  match sessions with
  | [] => (actions, m)
  | (section, session) :: sessions =>
      let '(episode, actions, m) :=
        match ws_episode session with
        | Some episode =>
            if bool_decide (ep_state episode ≠ CoreEpisodeState_Closed) then
              let episode := ep_close (episode_reason reason) recorded_at (ep_deadline episode)
                               episode in
              let r := next_trace_id (m_ids m) in
              (Some episode,
               actions ++ [{| ca_action_id := r.1; ca_kind := CoreActionKind_EpisodeClosed;
                              ca_section := Some section; ca_watch_id := Some (ws_id session);
                              ca_episode_id := Some (ep_id episode) |}],
               m_set_ids r.2 m)
            else (Some episode, actions, m)
        | None => (None, actions, m)
        end in
      let r := next_trace_id (m_ids m) in
      let actions := actions ++ [{| ca_action_id := r.1; ca_kind := CoreActionKind_WatchStopped;
                                    ca_section := Some section; ca_watch_id := Some (ws_id session);
                                    ca_episode_id := ep_id <$> episode |}] in
      cleanup_loop connection_id reason recorded_at sessions actions
        (unlink connection_id section (m_set_ids r.2 m))
  end.

Definition cleanup (connection_id : TraceId) (reason : CoreCleanupReason) m
    : CoreWatchManager C I * result CoreManagerError CoreCleanupReport :=
  let (recorded_at, m) := take_wall_now m in
  match m_connections m !! connection_id with
  | None => (m, Err CoreManagerError_UnknownConnection)
  | Some connection =>
      let (actions, m) := cleanup_loop connection_id reason recorded_at
                            (btm_iter (cc_watches connection)) []
                            (remove_connection connection_id m) in
      (m, Ok {| cr_connection_id := connection_id; cr_reason := reason;
                cr_recorded_at := recorded_at; cr_sections := btm_keys (cc_watches connection);
                cr_actions := actions |})
  end.

Definition disconnect (connection_id : TraceId) m
    : CoreWatchManager C I * result CoreManagerError CoreCleanupReport :=
  cleanup connection_id CoreCleanupReason_ConnectionClosed m.

(** Cleaning up a list of connections; failures are skipped. *)
Fixpoint cleanup_all (connection_ids : list TraceId) (reason : CoreCleanupReason)
    (reports : list CoreCleanupReport) m : list CoreCleanupReport * CoreWatchManager C I :=
  match connection_ids with
  | [] => (reports, m)
  | connection_id :: connection_ids =>
      match cleanup connection_id reason m with
      | (m, Ok report) => cleanup_all connection_ids reason (reports ++ [report]) m
      | (m, Err _) => cleanup_all connection_ids reason reports m
      end
  end.

Definition process_stop m : list CoreCleanupReport * CoreWatchManager C I :=
  cleanup_all (btm_keys (m_connections m)) CoreCleanupReason_ProcessStopped [] m.

(** *** The periodic tick *)

Definition heartbeat_expired (now : WatchInstant) (connection : CoreConnection) m : bool :=
  bool_decide (m_heartbeat_timeout m ≤ elapsed_since now (cc_last_touch connection)).

Definition ep_time_out (emitted_at : OffsetDateTime) (e : CoreEpisode) : CoreEpisode :=
  ep_transition CoreEpisodeState_TimedOut None (Z.max emitted_at (ep_first_observed_at e)) e.

Definition deadline_passed (now : WatchInstant) (e : CoreEpisode) : bool :=
  match ep_deadline e with Some deadline => bool_decide (deadline ≤ now) | None => false end.

Fixpoint tick_loop (connection_ids : list TraceId) (now : WatchInstant)
    (emitted_at : OffsetDateTime) (dispatches : list CoreDispatch) m
    : option (list CoreDispatch * CoreWatchManager C I) :=
  match connection_ids with
  | [] => Some (dispatches, m)
  | connection_id :: connection_ids =>
      match m_connections m !! connection_id with
      | None => tick_loop connection_ids now emitted_at dispatches m
      | Some connection =>
          let previous_mixer := active_episode_ids (cc_watches connection) in
          let '(updates, timed_out, watches) :=
            sweep_episodes (deadline_passed now) (ep_time_out emitted_at) (cc_watches connection) in
          '(_, ids, actions) ← push_actions CoreActionKind_EpisodeTimedOut timed_out (m_ids m);
          let events := updates ++ actions ++ mixer_events watches previous_mixer
                          CoreMixerStopReason_NoUnacknowledgedEpisodes in
          let m := put_connection connection_id (cc_set_watches watches connection)
                     (m_set_ids ids m) in
          tick_loop connection_ids now emitted_at
            (if bool_decide (events ≠ [])
             then dispatches ++ [{| cd_connection_id := connection_id;
                                    cd_emitted_at := emitted_at; cd_events := events |}]
             else dispatches) m
      end
  end.

Definition tick m : option (CoreTickOutcome * CoreWatchManager C I) :=
  let (now, m) := take_now m in
  let (emitted_at, m) := take_wall_now m in
  let expired :=
    (filter (λ kv, heartbeat_expired now kv.2 m) (btm_iter (m_connections m))).*1 in
  let (reports, m) := cleanup_all expired CoreCleanupReason_HeartbeatExpired [] m in
  '(dispatches, m) ← tick_loop (btm_keys (m_connections m)) now emitted_at [] m;
  Some ({| to_expired_connections := reports; to_dispatches := dispatches |}, m).

(** *** Queries *)

Definition watched_sections (target : TermCampusKey) m : list SectionKey :=
  filter (λ section, sk_target section = target) (btm_keys (m_connections_by_section m)).

Definition active_watch_count (target : TermCampusKey) m : Z :=
  u64_try_from_or_max (Z.of_nat (length (watched_sections target m))).

Definition connection_watches (connection_id : TraceId) m : list SectionKey :=
  match m_connections m !! connection_id with
  | Some connection => btm_keys (cc_watches connection)
  | None => []
  end.

Definition connection_watch_targets (connection_id : TraceId) m : list (SectionKey * TraceId) :=
  match m_connections m !! connection_id with
  | Some connection => (λ kv, (kv.1, ws_id kv.2)) <$> btm_iter (cc_watches connection)
  | None => []
  end.

Definition watch_id_for_section (connection_id : TraceId) (section : SectionKey) m
    : option TraceId :=
  connection ← m_connections m !! connection_id;
  ws_id <$> cc_watches connection !! section.

Definition watch_section (connection_id watch_id : TraceId) m : option SectionKey :=
  connection ← m_connections m !! connection_id;
  kv ← find_watch (λ watch, bool_decide (ws_id watch = watch_id)) (cc_watches connection);
  Some (ws_section kv.2).

Definition episode_target (connection_id episode_id : TraceId) m : option (TraceId * SectionKey) :=
  connection ← m_connections m !! connection_id;
  kv ← find_watch (has_episode episode_id) (cc_watches connection);
  Some (ws_id kv.2, ws_section kv.2).

Definition alert_target (connection_id alert_id : TraceId) m
    : option (TraceId * TraceId * SectionKey) :=
  connection ← m_connections m !! connection_id;
  kv ← find_watch (has_alert alert_id) (cc_watches connection);
  episode ← ws_episode kv.2;
  Some (ws_id kv.2, ep_id episode, ws_section kv.2).

Definition cue_target (connection_id cue_id : TraceId) m : option (TraceId * SectionKey) :=
  connection ← m_connections m !! connection_id;
  kv ← find_watch (has_active_cue cue_id) (cc_watches connection);
  Some (ws_id kv.2, ws_section kv.2).

End manager.
