(* ===== verification/WatchSessionFacts.v ===== *)
(** * Correctness of one watch session

    The session invariant and its preservation by every session operation of
    the manager, the correspondence of alert episodes with CLOSED-to-OPEN
    edges, and the cap on audible cues. *)

From S2P Require Import Prelude Identity Contracts WatchState WatchManager.

(** ** The selection *)

Definition selection_wf (s : SectionSelection) : Prop :=
  NoDup (sel_sections s) ∧ (length (sel_sections s) ≤ MAX_SELECTED_SECTIONS)%nat.

Lemma selection_add_spec (s : SectionSelection) (x : SectionKey) :
  selection_wf s →
  match selection_add x s with
  | (s', Ok _) => selection_wf s' ∧ ∀ y, y ∈ sel_sections s' ↔ y = x ∨ y ∈ sel_sections s
  | (s', Err _) => s' = s ∧ (x ∉ sel_sections s) ∧ length (sel_sections s) = MAX_SELECTED_SECTIONS
  end.
Proof.
  intros [Hnd Hlen]. unfold selection_add, selection_contains. case_bool_decide as Hin.
  - split; [by split|]. intros y. split; [tauto|]. by intros [->|].
  - case_bool_decide as Hfull; [done|]. simpl. split; [split|]; simpl.
    + apply NoDup_app. split_and!; [done| |apply NoDup_singleton].
      intros y Hy ->%list_elem_of_singleton. done.
    + rewrite length_app. simpl. lia.
    + intros y. rewrite elem_of_app, list_elem_of_singleton. tauto.
Qed.

Lemma remove_first_spec (l : list SectionKey) (x : SectionKey) :
  NoDup l → NoDup (remove_first x l) ∧ ∀ y, y ∈ remove_first x l ↔ y ≠ x ∧ y ∈ l.
Proof.
  induction l as [|z l IH]; intros Hnd; simpl.
  - split; [done|]. intros y. by rewrite elem_of_nil; intuition.
  - apply NoDup_cons in Hnd as [Hz Hnd]. destruct (IH Hnd) as [IHnd IHin]. case_bool_decide as Hzx.
    + subst z. split; [done|]. intros y. rewrite elem_of_cons. split; [|naive_solver].
      intros Hy. split; [by intros ->|by right].
    + split; [apply NoDup_cons; split; [rewrite IHin; tauto|done]|].
      intros y. rewrite !elem_of_cons, IHin. naive_solver.
Qed.

Lemma selection_add_all_spec (l : list SectionKey) (s : SectionSelection) :
  selection_wf s →
  match selection_add_all l s with
  | Ok s' => selection_wf s' ∧ ∀ y, y ∈ sel_sections s' ↔ y ∈ sel_sections s ∨ y ∈ l
  | Err _ => (MAX_SELECTED_SECTIONS <
                size (list_to_set (sel_sections s ++ l) : gset SectionKey))%nat
  end.
Proof.
  revert s. induction l as [|x l IH]; intros s Hwf; simpl.
  { split; [done|]. intros y. rewrite elem_of_nil. tauto. }
  pose proof (selection_add_spec s x Hwf) as Hadd.
  destruct (selection_add x s) as [s' [change|e]].
  - destruct Hadd as [Hwf' Hin]. specialize (IH s' Hwf'). destruct (selection_add_all l s') as [s''|e].
    + destruct IH as [? Hin']. split; [done|]. intros y. rewrite Hin', Hin, elem_of_cons. tauto.
    + eapply Nat.lt_le_trans; [exact IH|]. apply subseteq_size. intros y.
      rewrite !elem_of_list_to_set, !elem_of_app, Hin, elem_of_cons. tauto.
  - destruct Hadd as (-> & Hx & Hfull). destruct Hwf as [Hnd _].
    rewrite <-Hfull. apply (Nat.lt_le_trans _ (size (list_to_set (x :: sel_sections s) : gset SectionKey))).
    + rewrite size_list_to_set by (by apply NoDup_cons). simpl. lia.
    + apply subseteq_size. intros y. rewrite !elem_of_list_to_set, elem_of_app, !elem_of_cons. tauto.
Qed.

(** A selection never holds a section twice nor more than nine of them:
    adding keeps both, fails exactly when a new section meets a full selection
    and then changes nothing; removing removes the section and no other; and
    building one from a list keeps exactly its sections, or the list has more
    than nine distinct ones. *)
Theorem selection_bounded (s : SectionSelection) (x : SectionKey) (l : list SectionKey) :
  NoDup (sel_sections s) → (length (sel_sections s) ≤ MAX_SELECTED_SECTIONS)%nat →
  match selection_add x s with
  | (s', Ok _) => selection_wf s' ∧ ∀ y, y ∈ sel_sections s' ↔ y = x ∨ y ∈ sel_sections s
  | (s', Err _) => s' = s ∧ (x ∉ sel_sections s) ∧ length (sel_sections s) = MAX_SELECTED_SECTIONS
  end ∧
  (selection_wf (selection_remove x s).1 ∧
   ∀ y, y ∈ sel_sections (selection_remove x s).1 ↔ y ≠ x ∧ y ∈ sel_sections s) ∧
  match try_from_sections l with
  | Ok s' => selection_wf s' ∧ ∀ y, y ∈ sel_sections s' ↔ y ∈ l
  | Err _ => (MAX_SELECTED_SECTIONS < size (list_to_set l : gset SectionKey))%nat
  end.
Proof.
  intros Hnd Hlen. split; [by apply selection_add_spec|]. split.
  - unfold selection_remove, selection_contains. case_bool_decide as Hin; simpl.
    + destruct (remove_first_spec _ x Hnd) as [Hnd' Hin']. split; [|done]. split; [done|]. simpl.
      etransitivity; [|exact Hlen]. apply submseteq_length, NoDup_submseteq; [done|].
      intros y. rewrite Hin'. tauto.
    + split; [done|]. intros y. split; [|tauto]. intros Hy. split; [|done]. by intros ->.
  - pose proof (selection_add_all_spec l SectionSelection_new) as Hall. unfold try_from_sections.
    destruct (selection_add_all l SectionSelection_new) as [s'|e]; simpl in Hall.
    + destruct Hall as [Hwf Hin]; [by split; [apply NoDup_nil_2|simpl; unfold MAX_SELECTED_SECTIONS; lia]|].
      split; [done|]. intros y. rewrite Hin, elem_of_nil. tauto.
    + apply Hall. split; [apply NoDup_nil_2|simpl; unfold MAX_SELECTED_SECTIONS; lia].
Qed.

(** ** Running session operations *)

Section sessions.
Context {I : Type} `{!TraceIdSource I}.
Implicit Types (s : CoreWatchSession) (e : CoreEpisode) (i : I).

Definition is_opened (ev : CoreEvent) : bool :=
  match ev with
  | CoreEvent_Action a =>
      match ca_kind a with CoreActionKind_EpisodeOpened => true | _ => false end
  | _ => false
  end.

(** The number of episodes a list of events announces. *)
Definition opened (evs : list CoreEvent) : Z :=
  Z.of_nat (length (filter (λ ev, is_opened ev) evs)).

Lemma opened_app l l' : opened (l ++ l') = opened l + opened l'.
Proof. unfold opened. rewrite filter_app, length_app. lia. Qed.

Lemma opened_none l : (∀ ev, ev ∈ l → is_opened ev = false) → opened l = 0.
Proof.
  intros Hl. unfold opened. rewrite filter_none; [done|]. intros ev Hev%Hl Ho%Is_true_true. congruence.
Qed.

(** *** The invariant *)

Definition closed_episode e : Prop := ep_state e = CoreEpisodeState_Closed.

Record episode_wf s e : Prop := {
  ew_watch : ep_watch_id e = ws_id s;
  ew_section : ep_section e = ws_section s;
  ew_policy : ep_policy e = ws_policy s;
  ew_audible : ep_audible_count e = ws_audible_count s;
  ew_sequence : ep_sequence e = ws_episode_sequence s;
  ew_observed : ep_first_observed_at e ≤ ep_last_observed_at e;
  ew_changed : ep_first_observed_at e ≤ ep_state_changed_at e;
  ew_closed : closed_episode e ↔ is_Some (ep_closed_at e);
  ew_reason : closed_episode e ↔ is_Some (ep_end_reason e);
  ew_closed_at : ∀ t, ep_closed_at e = Some t → ep_last_observed_at e ≤ t;
  ew_deadline : is_Some (ep_deadline e) →
    ep_state e = CoreEpisodeState_Unacknowledged ∧
    cp_mode (ws_policy s) = CoreNotificationMode_Continuous
}.

Definition cues_wf s : Prop :=
  (ws_active_cue s = None → ws_queued_cues s = []) ∧
  (cp_mode (ws_policy s) = CoreNotificationMode_Continuous → ws_active_cue s = None).

Definition reliable_wf s : Prop :=
  ws_reliable_state s = Some ReliableState_Open ↔
  ∃ e, ws_episode s = Some e ∧ ¬ closed_episode e.

Record session_wf (key : SectionKey) s : Prop := {
  sw_section : ws_section s = key;
  sw_episode : ∀ e, ws_episode s = Some e → episode_wf s e;
  sw_reliable : reliable_wf s;
  sw_cues : cues_wf s
}.

(** The fields no operation of a running session changes. *)
Definition same_watch s s' : Prop := ws_id s' = ws_id s ∧ ws_section s' = ws_section s.

Lemma deadline_mode s now :
  is_Some (if bool_decide (cp_mode (ws_policy s) = CoreNotificationMode_Continuous)
           then duration_deadline (cp_continuous_duration (ws_policy s)) now else None) →
  cp_mode (ws_policy s) = CoreNotificationMode_Continuous.
Proof. case_bool_decide; [done|]. by intros []. Qed.

(** Opening an episode: two identifiers, one action, one episode. *)
Lemma open_episode_run s oid t now i :
  ∃ e i' evs,
    open_episode s oid t now i =
      Some (ws_set_episode (u64_saturating_add (ws_episode_sequence s) 1) (Some e) s, i', evs) ∧
    opened evs = 1 ∧ ¬ closed_episode e ∧ ep_state e = CoreEpisodeState_Unacknowledged ∧
    ep_first_observation_id e = oid ∧
    episode_wf (ws_set_episode (u64_saturating_add (ws_episode_sequence s) 1) (Some e) s) e.
Proof.
  eexists _, _, _. split; [reflexivity|]. cbn [app]. split; [reflexivity|].
  split; [done|]. split; [done|]. split; [done|].
  split; simpl; try done; try lia. by intros Hd%deadline_mode.
Qed.

Lemma close_episode_wf s e reason t :
  episode_wf s e → episode_wf s (ep_close reason t None e) ∧ closed_episode (ep_close reason t None e).
Proof.
  intros []. split; [|done]. split; simpl; try done; try lia.
  intros ? [= <-]. lia.
Qed.

(** Ending a session: its episode is closed, cues are dropped on a cancel. *)
Lemma end_session_run s reason t cancel i :
  (∀ e, ws_episode s = Some e → episode_wf s e) →
  ∃ s' i' evs,
    end_session s reason t cancel i = Some (s', i', evs) ∧ opened evs = 0 ∧ same_watch s s' ∧
    ws_policy s' = ws_policy s ∧ ws_reliable_state s' = ws_reliable_state s ∧
    ws_episode_sequence s' = ws_episode_sequence s ∧ ws_audible_count s' = ws_audible_count s ∧
    ws_observation_cursor s' = ws_observation_cursor s ∧
    (∀ e', ws_episode s' = Some e' → episode_wf s' e' ∧ closed_episode e') ∧
    match cancel with
    | Some _ => ws_active_cue s' = None ∧ ws_queued_cues s' = []
    | None => ws_active_cue s' = ws_active_cue s ∧ ws_queued_cues s' = ws_queued_cues s
    end.
Proof.
  intros Hwf.
  set (s0 := match cancel with Some _ => (take_pending_cues s).2 | None => s end).
  assert (∃ evs0, opened evs0 = 0 ∧ ∀ A (k : CoreWatchSession → Emit I A),
    (match cancel with
     | Some r => let (cues, session') := take_pending_cues s in
         _ ← push_cancelled_cues (ws_id s) (ws_section s) cues r; mret session'
     | None => mret s end ≫= k) i =
    match k s0 i with Some (a, i', evs) => Some (a, i', evs0 ++ evs) | None => None end)
    as (evs0 & Hevs0 & Hrun).
  { destruct cancel as [r|]; simpl.
    - exists ((λ cue, CoreEvent_AudioDisposition (CoreAudioDisposition_CueCancelled (ws_id s)
        (ws_section s) (pc_id cue) (pc_observation_id cue) r)) <$> (take_pending_cues s).1).
      split.
      + apply opened_none. intros ev (cue & -> & _)%list_elem_of_fmap. done.
      + intros A k. unfold mbind, emit_bind; simpl. rewrite app_nil_r. done.
    - exists []. split; [done|]. intros A k. done. }
  unfold end_session. rewrite Hrun.
  assert (same_watch s s0 ∧ ws_policy s0 = ws_policy s ∧ ws_episode s0 = ws_episode s ∧
    ws_reliable_state s0 = ws_reliable_state s ∧ ws_episode_sequence s0 = ws_episode_sequence s ∧
    ws_audible_count s0 = ws_audible_count s ∧
    ws_observation_cursor s0 = ws_observation_cursor s ∧
    match cancel with
    | Some _ => ws_active_cue s0 = None ∧ ws_queued_cues s0 = []
    | None => ws_active_cue s0 = ws_active_cue s ∧ ws_queued_cues s0 = ws_queued_cues s
    end) as (Hsame & Hpol & Hep & Hrel & Hseq & Haud & Hcur & Hcues)
    by (subst s0; by destruct cancel).
  assert (∀ e, episode_wf s e → episode_wf s0 e) as Hmono.
  { intros e []. destruct Hsame as [Hid Hsec]. split; rewrite ?Hid, ?Hsec, ?Hpol, ?Haud, ?Hseq; done. }
  clearbody s0. destruct (ws_episode s0) as [e|] eqn:He; cycle 1.
  { eexists _, _, _. split; [reflexivity|]. rewrite app_nil_r. split_and!; try done.
    intros e' He'. by rewrite He in He'. }
  assert (episode_wf s0 e) as Hwfe by (by apply Hmono, Hwf).
  case_bool_decide as Hclosed.
  - eexists _, _, _. split; [reflexivity|]. rewrite app_nil_r. split_and!; try done.
    intros e' He'. rewrite He in He'. by simplify_eq.
  - eexists _, _, _. split; [reflexivity|].
    rewrite opened_app, Hevs0. split_and!; try done.
    intros e' [= <-]. destruct (close_episode_wf s0 e reason t Hwfe) as [[] ?]. by split; [split|].
Qed.

(** *** Cues *)

Definition audible_cap s : Z := cp_max_audible (ws_policy s).

(** The cue requests among events. *)
Definition is_requested (ev : CoreEvent) : bool :=
  match ev with
  | CoreEvent_AudioDisposition
      (CoreAudioDisposition_OneShot _ _ _ _ CoreOneShotDisposition_Requested _ _) => true
  | _ => false
  end.

(** Every request carries a count below its cap. *)
Definition requests_below_cap (evs : list CoreEvent) : Prop :=
  ∀ ev, ev ∈ evs →
  match ev with
  | CoreEvent_AudioDisposition
      (CoreAudioDisposition_OneShot _ _ _ _ CoreOneShotDisposition_Requested n max) => n < max
  | _ => True
  end.

Lemma requests_below_cap_app l l' :
  requests_below_cap l → requests_below_cap l' → requests_below_cap (l ++ l').
Proof. intros Hl Hl' ev [Hev|Hev]%elem_of_app; [by apply Hl|by apply Hl']. Qed.

Lemma requests_none l : (∀ ev, ev ∈ l → is_requested ev = false) → requests_below_cap l.
Proof.
  intros Hl ev Hev. specialize (Hl ev Hev). destruct ev as [| | | | |[]| |]; try done.
  by destruct disposition.
Qed.

(** The cues reported as heard. *)
Definition is_heard (ev : CoreEvent) : bool :=
  match ev with CoreEvent_CueOutcomeRecorded _ _ _ _ consumed _ => consumed | _ => false end.
Definition heard (evs : list CoreEvent) : Z :=
  Z.of_nat (length (filter (λ ev, is_heard ev) evs)).

Lemma heard_app l l' : heard (l ++ l') = heard l + heard l'.
Proof. unfold heard. rewrite filter_app, length_app. lia. Qed.

Lemma heard_none l : (∀ ev, ev ∈ l → is_heard ev = false) → heard l = 0.
Proof.
  intros Hl. unfold heard. rewrite filter_none; [done|]. intros ev Hev%Hl Ho%Is_true_true. congruence.
Qed.

(** Nothing is heard, and requests respect the cap. *)
Definition silent (evs : list CoreEvent) : Prop := requests_below_cap evs ∧ heard evs = 0.

Lemma silent_app l l' : silent l → silent l' → silent (l ++ l').
Proof. intros [? ?] [? ?]. split; [by apply requests_below_cap_app|]. rewrite heard_app. lia. Qed.

Lemma silent_none l :
  (∀ ev, ev ∈ l → is_requested ev = false ∧ is_heard ev = false) → silent l.
Proof. intros Hl. split; [apply requests_none|apply heard_none]; intros ev Hev; by apply Hl. Qed.

Lemma silent_nil : silent [].
Proof. apply silent_none. intros ev Hev. by apply elem_of_nil in Hev. Qed.

Lemma silent_request s oid cue :
  ws_audible_count s < audible_cap s →
  silent [one_shot_event s oid (Some cue) CoreOneShotDisposition_Requested].
Proof. intros Hlt. split; [|done]. by intros ev ->%list_elem_of_singleton. Qed.

(** What a cue operation may change. *)
Definition cue_step s s' : Prop :=
  same_watch s s' ∧ ws_policy s' = ws_policy s ∧ ws_episode s' = ws_episode s ∧
  ws_reliable_state s' = ws_reliable_state s ∧ ws_episode_sequence s' = ws_episode_sequence s ∧
  ws_audible_count s' = ws_audible_count s ∧ ws_observation_cursor s' = ws_observation_cursor s ∧
  (ws_active_cue s' = ws_active_cue s ∨ ws_audible_count s < audible_cap s).

Ltac cue_step_tac :=
  unfold cue_step, same_watch; simpl; split_and!; try done;
  first [by left | right; unfold audible_cap; lia].

Lemma queue_one_shot_run s oid i :
  is_Some (ws_episode s) →
  ∃ s' i' evs,
    queue_one_shot s oid i = Some (s', i', evs) ∧ opened evs = 0 ∧ silent evs ∧
    cue_step s s' ∧
    ((ws_active_cue s = None → ws_queued_cues s = []) →
     (ws_active_cue s' = None → ws_queued_cues s' = [])).
Proof.
  intros [e He]. unfold queue_one_shot. case_bool_decide as Hcap.
  { eexists _, _, _. split; [reflexivity|]. split_and!; try done.
    - apply silent_none. by intros ev ->%list_elem_of_singleton.
    - cue_step_tac. }
  unfold mbind at 1, emit_bind at 1. simpl. rewrite He. unfold mbind, emit_bind; simpl.
  case_bool_decide as Hactive; simpl.
  - eexists _, _, _. split; [reflexivity|]. split_and!; try done; simpl.
    + apply silent_none. by intros ev ->%list_elem_of_singleton.
    + cue_step_tac.
    + intros _ Hnone. rewrite Hnone in Hactive. by destruct Hactive.
  - eexists _, _, _. split; [reflexivity|]. split_and!; try done; simpl.
    + apply silent_request. unfold audible_cap. lia.
    + cue_step_tac.
Qed.

Lemma drive_one_shot_run s i :
  ∃ s' evs,
    drive_one_shot s i = Some (s', i, evs) ∧ opened evs = 0 ∧ silent evs ∧
    cue_step s s' ∧ (ws_active_cue s' = None → ws_queued_cues s' = []) ∧
    (ws_active_cue s = None → ws_queued_cues s = [] → ws_active_cue s' = None).
Proof.
  unfold drive_one_shot. case_bool_decide as Hactive.
  { eexists _, _. split; [reflexivity|]. split_and!; try done.
    - apply silent_nil.
    - cue_step_tac.
    - intros Hnone. rewrite Hnone in Hactive. by destruct Hactive. }
  case_bool_decide as Hcap.
  { eexists _, _. split; [reflexivity|]. cbn [app]. rewrite app_nil_r. split_and!; try done.
    - apply opened_none. by intros ev (cue & -> & _)%list_elem_of_fmap.
    - apply silent_none. by intros ev (cue & -> & _)%list_elem_of_fmap.
    - cue_step_tac. }
  destruct (ws_queued_cues s) as [|cue queued] eqn:Hq.
  - eexists _, _. split; [reflexivity|]. split_and!; try done; [apply silent_nil|cue_step_tac].
  - eexists _, _. split; [reflexivity|]. split_and!; try done; simpl.
    + apply silent_request. unfold audible_cap; simpl. lia.
    + cue_step_tac.
Qed.

(** *** Observations *)

(** An episode observed open again keeps its invariant and liveness. *)
Lemma observe_open_wf s e oid t :
  episode_wf s e → ¬ closed_episode e →
  episode_wf s (observe_open oid t e) ∧ ¬ closed_episode (observe_open oid t e).
Proof.
  intros [] Hlive. split; [|done]. split; simpl; try done; try lia.
  intros u Hu. exfalso. apply Hlive, ew_closed0. eauto.
Qed.

Definition is_open_state (r : option ReliableState) : bool :=
  bool_decide (r = Some ReliableState_Open).
Definition obs_is_open (o : OpenObservationV1) : bool :=
  match oo_state o with OpenState_Open => true | _ => false end.

(** The reliable state after an observation: UNKNOWN changes nothing. *)
Definition reliable_after (r : option ReliableState) (o : OpenObservationV1) : option ReliableState :=
  match oo_state o with
  | OpenState_Open => Some ReliableState_Open
  | OpenState_Closed => Some ReliableState_Closed
  | OpenState_Unknown => r
  end.

(** The invariant without its part on cues. *)
Definition core_wf key s : Prop :=
  ws_section s = key ∧ (∀ e, ws_episode s = Some e → episode_wf s e) ∧ reliable_wf s.

Lemma cue_step_core_wf key s s' :
  core_wf key s → cue_step s s' → cues_wf s' → session_wf key s'.
Proof.
  intros (Hsec & Hep & Hrel) ((Hid & Hse) & Hpol & He & Hr & Hseq & Haud & _ & _) Hcues. split.
  - congruence.
  - intros e Hee. rewrite He in Hee. destruct (Hep e Hee).
    split; rewrite ?Hid, ?Hse, ?Hpol, ?Haud, ?Hseq; done.
  - unfold reliable_wf. by rewrite Hr, He.
  - done.
Qed.

Lemma cue_step_wf key s s' :
  session_wf key s → cue_step s s' → cues_wf s' → session_wf key s'.
Proof. intros [Hsec Hep Hrel _]. by apply cue_step_core_wf. Qed.

Lemma emit_bind_Some {A B} (mm : Emit I A) (f : A → Emit I B) i a i1 evs :
  mm i = Some (a, i1, evs) →
  (mm ≫= f) i = match f a i1 with Some (b, i2, evs') => Some (b, i2, evs ++ evs') | None => None end.
Proof. intros Hm. unfold mbind, emit_bind. by rewrite Hm. Qed.

(** The sound of a reliably open section: only one-shot watches queue a cue. *)
Lemma cue_if_one_shot_run key s oid i :
  session_wf key s → is_Some (ws_episode s) →
  ∃ s' i' evs,
    cue_if_one_shot s oid i = Some (s', i', evs) ∧
    opened evs = 0 ∧ silent evs ∧ cue_step s s' ∧ session_wf key s'.
Proof.
  intros Hwf Hsome. unfold cue_if_one_shot. case_bool_decide as Hmode.
  - destruct (queue_one_shot_run s oid i Hsome) as (s' & i' & evs & Hrun & Ho & Hr & Hstep & Hq).
    exists s', i', evs. split_and!; try done. apply (cue_step_wf key s); [done|done|].
    destruct Hwf as [_ _ _ [Hc _]]. split; [by apply Hq|].
    destruct Hstep as (_ & -> & _). rewrite Hmode. done.
  - exists s, i, []. split; [done|]. split_and!; try done; [apply silent_nil|cue_step_tac].
Qed.

Lemma open_episode_requests s oid t now i s' i' evs :
  open_episode s oid t now i = Some (s', i', evs) → silent evs.
Proof.
  intros [= <- <- <-]. apply silent_none. intros ev Hev. cbn [app] in Hev.
  rewrite !elem_of_cons, elem_of_nil in Hev. by destruct Hev as [->|[->|[->|[]]]].
Qed.

(** Setting the episode of a session with a wellformed live one. *)
Lemma set_episode_wf key s seq e :
  session_wf key s → episode_wf (ws_set_episode seq (Some e) s) e → ¬ closed_episode e →
  session_wf key (ws_set_episode seq (Some e) (ws_set_reliable_state (Some ReliableState_Open) s)).
Proof.
  intros [Hsec Hep Hrel Hcues] Hwfe Hlive. split; [done| | |done].
  - intros e' [= <-]. by destruct Hwfe.
  - split; [|done]. intros _. by exists e.
Qed.

Lemma open_or_update_run key s o now i :
  session_wf key s →
  let live := is_open_state (ws_reliable_state s) in
  ∃ e seq i' evs,
    let s' := ws_set_episode seq (Some e) (ws_set_reliable_state (Some ReliableState_Open) s) in
    open_or_update_episode s o now i = Some (s', i', evs) ∧ session_wf key s' ∧
    silent evs ∧ opened evs = (if live then 0 else 1) ∧
    seq = (if live then ws_episode_sequence s else u64_saturating_add (ws_episode_sequence s) 1).
Proof.
  intros Hwf. pose proof Hwf as [Hsec Hep Hrel Hcues]. unfold open_or_update_episode, is_open_state.
  destruct (decide (ws_reliable_state s = Some ReliableState_Open)) as [Hopen|Hnot]; simpl.
  - rewrite (bool_decide_eq_true_2 _ Hopen).
    rewrite (bool_decide_eq_false_2 (_ ≠ _)) by (by intros ?). simpl.
    destruct (proj1 Hrel Hopen) as (e & He & Hlive). rewrite He.
    rewrite bool_decide_eq_false_2 by done.
    destruct (observe_open_wf s e (oo_observation_id o) (oo_observed_at o) (Hep e He) Hlive)
      as [Hwfe Hlive'].
    eexists _, _, _, _. split; [reflexivity|]. split; [|split_and!; [|done|done]].
    + apply set_episode_wf; [done| |done]. by destruct Hwfe.
    + apply silent_none. intros ev Hev. cbn [app] in Hev.
      rewrite !elem_of_cons, elem_of_nil in Hev. by destruct Hev as [->|[->|[]]].
  - rewrite (bool_decide_eq_false_2 _ Hnot), (bool_decide_eq_true_2 (_ ≠ _)) by done. simpl.
    destruct (open_episode_run (ws_set_reliable_state (Some ReliableState_Open) s)
      (oo_observation_id o) (oo_observed_at o) now i) as (e & i' & evs & Hrun & Hop & Hlive & _ & _ & Hwfe).
    exists e, (u64_saturating_add (ws_episode_sequence s) 1), i', evs.
    split; [exact Hrun|]. split; [|split_and!; [|done|done]].
    + apply set_episode_wf; [done| |done]. by destruct Hwfe.
    + by eapply open_episode_requests.
Qed.

(** Closing on an observation. *)
Lemma end_session_requests s reason t cancel i s' i' evs :
  end_session s reason t cancel i = Some (s', i', evs) → silent evs.
Proof.
  intros Hrun. apply silent_none. revert Hrun. unfold end_session.
  assert (∀ A (l : list A) (f : A → CoreEvent) ev, (∀ x, is_requested (f x) = false ∧ is_heard (f x) = false) →
    ev ∈ f <$> l → is_requested ev = false ∧ is_heard ev = false) as Hmap
    by (intros A l f ev Hf (x & -> & _)%list_elem_of_fmap; done).
  destruct cancel as [r|]; unfold mbind, emit_bind; simpl; destruct (ws_episode s) as [e|]; simpl;
    try case_bool_decide; intros [= <- <- <-] ev;
    rewrite ?app_nil_r, ?elem_of_app, ?elem_of_cons, ?elem_of_nil; intros Hev; destruct_or?;
    subst; try done; by eapply Hmap; [|done].
Qed.

(** One observation of the section, on every branch. *)
Lemma apply_observation_run key s o now i :
  session_wf key s →
  let edge := obs_is_open o && negb (is_open_state (ws_reliable_state s)) in
  ∃ s' i' evs,
    apply_observation s o now i = Some (s', i', evs) ∧ session_wf key s' ∧
    same_watch s s' ∧ ws_policy s' = ws_policy s ∧
    ws_audible_count s' = ws_audible_count s ∧
    ws_observation_cursor s' = ws_observation_cursor s ∧
    silent evs ∧
    ws_reliable_state s' = reliable_after (ws_reliable_state s) o ∧
    opened evs = (if edge then 1 else 0) ∧
    ws_episode_sequence s' =
      (if edge then u64_saturating_add (ws_episode_sequence s) 1 else ws_episode_sequence s) ∧
    (ws_active_cue s' = ws_active_cue s ∨ ws_audible_count s < audible_cap s) ∧
    (oo_state o = OpenState_Unknown → s' = s ∧ evs = []).
Proof.
  intros Hwf. pose proof Hwf as [Hsec Hep Hrel Hcues].
  unfold apply_observation, reliable_after, obs_is_open. destruct (oo_state o) eqn:Ho.
  - destruct (open_or_update_run key s o now i Hwf) as (e & seq & i1 & evs1 & Hrun & Hwf1 & Hreq1 & Hop1 & Hseq).
    destruct (cue_if_one_shot_run key _ (oo_observation_id o) i1 Hwf1) as
      (s' & i2 & evs2 & Hrun2 & Hop2 & Hreq2 & Hstep & Hwf2); [by eexists|].
    exists s', i2, (evs1 ++ evs2).
    rewrite (emit_bind_Some _ _ _ _ _ _ Hrun), Hrun2.
    destruct Hstep as (Hsame & Hpol & _ & Hr & Hse & Haud & Hcur & Hact).
    split; [done|]. rewrite opened_app, Hop1, Hop2, Hr, Hse, Haud, Hcur, Hpol. simpl.
    split_and!; try done; [by apply silent_app| |];
      by destruct (is_open_state (ws_reliable_state s)).
  - destruct (end_session_run (ws_set_reliable_state (Some ReliableState_Closed) s)
      CoreEpisodeEndReason_ObservedClosed (oo_observed_at o) None i) as
      (s' & i' & evs & Hrun & Hop & Hsame & Hpol & Hr & Hseq & Haud & Hcur & Hep' & Hcues').
    { intros e He. by destruct (Hep e He). }
    exists s', i', evs. split; [done|]. simpl in *. split_and!; try done.
    + split.
      * destruct Hsame as [_ ->]. done.
      * intros e He. by apply Hep'.
      * unfold reliable_wf. rewrite Hr. split; [done|]. intros (e & He & Hlive).
        by destruct (Hep' e He).
      * destruct Hcues as [Hc1 Hc2], Hcues' as [Ha Hq]. unfold cues_wf. rewrite Ha, Hq, Hpol. done.
    + by eapply end_session_requests.
    + left. apply Hcues'.
  - exists s, i, []. split; [done|]. split_and!; try done; [apply silent_nil|by left].
Qed.

(** *** Sequences of observations *)

Fixpoint observe_all (l : list (OpenObservationV1 * WatchInstant)) s : Emit I CoreWatchSession :=
  match l with
  | [] => mret s
  | (o, now) :: l => s' ← apply_observation s o now; observe_all l s'
  end.

(** The CLOSED-to-OPEN (or first OPEN) edges, seen from a reliable state. *)
Fixpoint open_edges (r : option ReliableState) (l : list (OpenObservationV1 * WatchInstant)) : Z :=
  match l with
  | [] => 0
  | (o, _) :: l =>
      (if obs_is_open o && negb (is_open_state r) then 1 else 0)
      + open_edges (reliable_after r o) l
  end.

Definition known (p : OpenObservationV1 * WatchInstant) : bool :=
  match oo_state p.1 with OpenState_Unknown => false | _ => true end.

Lemma open_edges_known r l : open_edges r (filter (λ p, known p) l) = open_edges r l.
Proof.
  revert r. induction l as [|[o now] l IH]; intros r; [done|].
  rewrite filter_cons. destruct (decide (known (o, now))) as [Hk|Hk]; simpl; rewrite IH; [done|].
  unfold known in Hk; simpl in Hk. unfold obs_is_open, reliable_after.
  destruct (oo_state o); simpl in *; [by destruct Hk..|done].
Qed.

Lemma open_edges_nonneg r l : 0 ≤ open_edges r l.
Proof.
  revert r. induction l as [|[o now] l IH]; intros r; simpl; [done|].
  specialize (IH (reliable_after r o)). destruct (_ && _); lia.
Qed.

Lemma observe_all_run key l s i :
  session_wf key s → 0 ≤ ws_episode_sequence s →
  ws_episode_sequence s + open_edges (ws_reliable_state s) l ≤ u64_max →
  ∃ s' i' evs,
    observe_all l s i = Some (s', i', evs) ∧ session_wf key s' ∧
    opened evs = open_edges (ws_reliable_state s) l ∧
    ws_episode_sequence s' = ws_episode_sequence s + opened evs ∧
    ws_reliable_state s' = foldl (λ r p, reliable_after r p.1) (ws_reliable_state s) l ∧
    ws_audible_count s' = ws_audible_count s ∧ silent evs.
Proof.
  revert s i.
  induction l as [|[o now] l IH]; intros s i Hwf Hseq Hmax.
  { exists s, i, []. split; [done|]. split_and!; try done; [unfold opened; simpl; lia|].
    apply silent_nil. }
  destruct (apply_observation_run key s o now i Hwf) as
    (s1 & i1 & evs1 & Hrun1 & Hwf1 & _ & _ & Haud1 & _ & Hreq1 & Hrel1 & Hop1 & Hseq1 & _ & _).
  cbn [open_edges] in Hmax. pose proof (open_edges_nonneg (reliable_after (ws_reliable_state s) o) l).
  assert (ws_episode_sequence s1 = ws_episode_sequence s + opened evs1) as Hseq1'.
  { rewrite Hseq1, Hop1. destruct (_ && _); [|lia]. apply u64_saturating_add_exact. lia. }
  assert (0 ≤ opened evs1) by (unfold opened; lia).
  destruct (IH s1 i1 Hwf1) as
    (s2 & i2 & evs2 & Hrun2 & Hwf2 & Hop2 & Hseq2 & Hrel2 & Haud2 & Hreq2); [lia| |].
  { rewrite Hrel1, Hseq1', Hop1. lia. }
  exists s2, i2, (evs1 ++ evs2). cbn [observe_all open_edges foldl fst].
  rewrite (emit_bind_Some _ _ _ _ _ _ Hrun1), Hrun2.
  split; [done|]. split; [done|]. rewrite opened_app.
  split_and!; [by rewrite Hop1, Hop2, Hrel1|lia|by rewrite Hrel2, Hrel1|congruence|].
  by apply silent_app.
Qed.

Lemma apply_unknown s o now i :
  oo_state o = OpenState_Unknown → apply_observation s o now i = Some (s, i, []).
Proof. intros Ho. unfold apply_observation. by rewrite Ho. Qed.

(** Leaving out the UNKNOWN observations changes nothing. *)
Lemma observe_all_known l s i : observe_all (filter (λ p, known p) l) s i = observe_all l s i.
Proof.
  revert s i. induction l as [|[o now] l IH]; intros s i; [done|].
  rewrite filter_cons. destruct (decide (known (o, now))) as [Hk|Hk]; cbn [observe_all].
  - unfold mbind, emit_bind. destruct (apply_observation s o now i) as [[[s1 i1] evs1]|]; [|done]. by rewrite IH.
  - assert (oo_state o = OpenState_Unknown) as Ho by (unfold known in Hk; cbn in Hk; by destruct (oo_state o)).
    rewrite IH. unfold mbind, emit_bind. rewrite (apply_unknown s o now i Ho). by destruct (observe_all l s i) as [[[]]|].
Qed.

(** C39. Alerts follow reliable edges: over any sequence of observations a
    watch never panics and keeps its invariant, it opens exactly one episode
    per edge into OPEN, numbering them consecutively, and its reliable state is
    the last one that was observed. UNKNOWN observations change nothing: one of
    them leaves the whole session - its episode, its reliable state, its cues
    and its counters - as it was, draws no identifier and emits no event, so
    that a sequence runs as it does without them. *)
Theorem episodes_follow_edges (key : SectionKey) (l : list (OpenObservationV1 * WatchInstant))
    (s : CoreWatchSession) (i : I) :
  session_wf key s → 0 ≤ ws_episode_sequence s →
  ws_episode_sequence s + open_edges (ws_reliable_state s) l ≤ u64_max →
  ∃ s' i' evs,
    observe_all l s i = Some (s', i', evs) ∧ session_wf key s' ∧
    opened evs = open_edges (ws_reliable_state s) (filter (λ p, known p) l) ∧
    ws_episode_sequence s' = ws_episode_sequence s + opened evs ∧
    ws_reliable_state s' = foldl (λ r p, reliable_after r p.1) (ws_reliable_state s) l ∧
    ws_audible_count s' = ws_audible_count s ∧ silent evs ∧
    observe_all (filter (λ p, known p) l) s i = Some (s', i', evs) ∧
    (∀ o now, oo_state o = OpenState_Unknown → apply_observation s' o now i' = Some (s', i', [])).
Proof.
  rewrite open_edges_known, observe_all_known. intros Hwf Hseq Hmax.
  destruct (observe_all_run key l s i Hwf Hseq Hmax) as (s' & i' & evs & Hrun & ? & ? & ? & ? & ? & ?).
  exists s', i', evs. split_and!; try done. intros o now. apply apply_unknown.
Qed.

(** *** The audible cap *)

(** What changes the cues of a one-shot watch under a fixed policy: an
    observation, or the report of the active cue (ignored without one). *)
Inductive cue_cmd :=
| CmdObserve (o : OpenObservationV1) (now : WatchInstant)
| CmdOutcome (outcome : CoreCueOutcome).

Definition run_cue_cmd (c : cue_cmd) s : Emit I CoreWatchSession :=
  match c with
  | CmdObserve o now => apply_observation s o now
  | CmdOutcome outcome =>
      match ws_active_cue s with
      | Some cue => record_cue_outcome (ws_section s) s cue outcome
      | None => mret s
      end
  end.

Fixpoint run_cue_cmds (l : list cue_cmd) s : Emit I CoreWatchSession :=
  match l with
  | [] => mret s
  | c :: l => s' ← run_cue_cmd c s; run_cue_cmds l s'
  end.

Lemma drive_one_shot_wf key s i :
  core_wf key s →
  (cp_mode (ws_policy s) = CoreNotificationMode_Continuous →
     ws_active_cue s = None ∧ ws_queued_cues s = []) →
  ∃ s' evs, drive_one_shot s i = Some (s', i, evs) ∧ session_wf key s' ∧ cue_step s s' ∧
    opened evs = 0 ∧ silent evs.
Proof.
  intros Hcore Hcont. destruct (drive_one_shot_run s i) as (s' & evs & Hrun & Ho & Hs & Hstep & Hq & Hn).
  exists s', evs. split_and!; try done. apply (cue_step_core_wf key s); [done|done|].
  split; [done|]. destruct Hstep as (_ & -> & _). intros Hc. destruct (Hcont Hc). by apply Hn.
Qed.

(** The session while the outcome of its cue is recorded. *)
Definition after_outcome (started : bool) s : CoreWatchSession :=
  let n := if started then u64_saturating_add (ws_audible_count s) 1 else ws_audible_count s in
  ws_put_episode (if started then ep_set_audible_count n <$> ws_episode s else ws_episode s)
    (ws_set_cues n None (ws_queued_cues s) s).

Lemma after_outcome_core key started s : session_wf key s → core_wf key (after_outcome started s).
Proof.
  intros [Hsec Hep Hrel _]. unfold after_outcome. split_and!; [done| |]; simpl.
  - intros e He. destruct started.
    + apply fmap_Some in He as (e0 & He0 & ->). by destruct (Hep e0 He0).
    + by destruct (Hep e He).
  - unfold reliable_wf; simpl. etransitivity; [exact Hrel|]. destruct started; [|done]. split.
    + intros (e & -> & ?). by eexists.
    + intros (e & (e0 & He0 & ->)%fmap_Some & ?). by exists e0.
Qed.

(** The two events that open an outcome's report. *)
Lemma outcome_events cue_id watch_id section outcome started n aid os ow oe l :
  let evs := CoreEvent_CueOutcomeRecorded cue_id watch_id section outcome started n ::
    CoreEvent_Action {| ca_action_id := aid; ca_kind := cue_action outcome; ca_section := os;
      ca_watch_id := ow; ca_episode_id := oe |} :: l in
  opened evs = opened l ∧ heard evs = (if started then 1 else 0) + heard l ∧
  (requests_below_cap l → requests_below_cap evs).
Proof.
  split_and!.
  - unfold opened. by destruct outcome.
  - unfold heard. rewrite !filter_cons. simpl. destruct started; simpl; lia.
  - intros Hl ev. rewrite !elem_of_cons. intros [->|[->|Hev]]; [done|done|by apply Hl].
Qed.

Lemma record_cue_outcome_run key s cue outcome i :
  session_wf key s →
  ∃ s' i' evs,
    record_cue_outcome key s cue outcome i = Some (s', i', evs) ∧ session_wf key s' ∧
    same_watch s s' ∧ ws_policy s' = ws_policy s ∧ requests_below_cap evs ∧ opened evs = 0 ∧
    heard evs = (if bool_decide (outcome = CoreCueOutcome_Started) then 1 else 0) ∧
    ws_audible_count s' =
      (if bool_decide (outcome = CoreCueOutcome_Started)
       then u64_saturating_add (ws_audible_count s) 1 else ws_audible_count s) ∧
    ws_reliable_state s' = ws_reliable_state s ∧
    ws_episode_sequence s' = ws_episode_sequence s ∧
    ws_observation_cursor s' = ws_observation_cursor s ∧
    (is_Some (ws_active_cue s') → ws_audible_count s' < audible_cap s).
Proof.
  intros Hwf. unfold record_cue_outcome.
  set (started := bool_decide (outcome = CoreCueOutcome_Started)).
  change (ws_put_episode _ _) with (after_outcome started s).
  destruct (drive_one_shot_wf key (after_outcome started s) (next_trace_id i).2
    (after_outcome_core key started s Hwf)) as (s' & evs & Hrun & Hwf' & Hstep & Hop & [Hreq Hheard]).
  { destruct Hwf as [_ _ _ [Hc1 Hc2]]. simpl. intros Hc. split; [done|]. by apply Hc1, Hc2. }
  destruct Hstep as (Hsame & Hpol & _ & Hr & Hseq & Haud & Hcur & Hact).
  eexists s', _, _. unfold mbind, emit_bind; simpl. rewrite Hrun. split; [reflexivity|].
  set (upd := if started then option_list _ else []).
  assert (silent upd ∧ opened upd = 0) as [[Hru Hhu] Hou].
  { subst upd. destruct started; [|by split; [apply silent_nil|]].
    destruct (ep_set_audible_count _ <$> _); simpl; [|by split; [apply silent_nil|]].
    split; [|done]. apply silent_none. by intros ev ->%list_elem_of_singleton. }
  rewrite Hr, Hseq, Hcur, Hpol, Haud.
  set (l := upd ++ evs) in *.
  assert (requests_below_cap l ∧ heard l = 0 ∧ opened l = 0) as (Hrl & Hhl & Hol).
  { subst l. rewrite heard_app, opened_app. split_and!; [by apply requests_below_cap_app|lia|lia]. }
  destruct (outcome_events (pc_id cue) (ws_id s) (ws_section s) outcome started
    (if started then u64_saturating_add (ws_audible_count s) 1 else ws_audible_count s)
    (next_trace_id i).1 (Some key) (Some (ws_id s)) (Some (pc_episode_id cue)) l) as (Ho & Hh & Hrq).
  split_and!; try done.
  - by apply Hrq.
  - etransitivity; [exact Ho|done].
  - etransitivity; [exact Hh|]. rewrite Hhl. by destruct started.
  - intros Hsome. destruct Hact as [Hact|Hact]; [rewrite Hact in Hsome; by destruct Hsome|].
    exact Hact.
Qed.

(** The cap on sounds: over any sequence of observations and cue reports of
    a watch whose count is within its cap, the count never exceeds the cap and
    grows by exactly the cues reported as heard, every request is made below
    the cap, nothing panics and the invariant holds throughout. *)
Theorem audible_cap_respected (key : SectionKey) (l : list cue_cmd) (s : CoreWatchSession) (i : I) :
  session_wf key s → audible_cap s ≤ u64_max → ws_audible_count s ≤ audible_cap s →
  (is_Some (ws_active_cue s) → ws_audible_count s < audible_cap s) →
  ∃ s' i' evs,
    run_cue_cmds l s i = Some (s', i', evs) ∧ session_wf key s' ∧
    ws_policy s' = ws_policy s ∧
    ws_audible_count s' = ws_audible_count s + heard evs ∧
    ws_audible_count s' ≤ audible_cap s ∧ requests_below_cap evs.
Proof.
  intros Hwf Hu64. revert s i Hwf Hu64. induction l as [|c l IH]; intros s i Hwf Hu64 Hle Hact.
  { exists s, i, []. split; [done|]. split_and!; try done; [unfold heard; simpl; lia|].
    by destruct silent_nil. }
  assert (∃ s1 i1 evs1, run_cue_cmd c s i = Some (s1, i1, evs1) ∧ session_wf key s1 ∧
    ws_policy s1 = ws_policy s ∧ ws_audible_count s1 = ws_audible_count s + heard evs1 ∧
    ws_audible_count s1 ≤ audible_cap s ∧ requests_below_cap evs1 ∧
    (is_Some (ws_active_cue s1) → ws_audible_count s1 < audible_cap s))
    as (s1 & i1 & evs1 & Hrun & Hwf1 & Hpol & Hcount & Hle1 & Hreq & Hact1).
  { destruct c as [o now|outcome]; simpl.
    - destruct (apply_observation_run key s o now i Hwf) as
        (s1 & i1 & evs1 & Hrun & Hwf1 & _ & Hpol & Haud & _ & [Hreq Hh] & _ & _ & _ & Ha & _).
      exists s1, i1, evs1. rewrite Haud, Hh. split_and!; try done; [lia|].
      destruct Ha as [->|Ha]; [done|]. by intros _.
    - destruct (ws_active_cue s) as [cue|] eqn:Hcue.
      + assert (ws_audible_count s < audible_cap s) by (apply Hact; eauto).
        destruct Hwf as [Hsec ???] eqn:Ewf. clear Ewf.
        destruct (record_cue_outcome_run key s cue outcome i) as
          (s1 & i1 & evs1 & Hrun & Hwf1 & _ & Hpol & Hreq & _ & Hh & Haud & _ & _ & _ & Ha); [done|].
        rewrite Hsec. exists s1, i1, evs1. rewrite Haud, Hh in *. unfold u64_saturating_add in *.
        split_and!; try done; destruct (bool_decide _); lia.
      + exists s, i, []. rewrite Hcue. split_and!; try done; [unfold heard; simpl; lia|by destruct silent_nil]. }
  destruct (IH s1 i1 Hwf1) as (s2 & i2 & evs2 & Hrun2 & Hwf2 & Hpol2 & Hcount2 & Hle2 & Hreq2);
    [by unfold audible_cap; rewrite Hpol..|].
  exists s2, i2, (evs1 ++ evs2). cbn [run_cue_cmds].
  rewrite (emit_bind_Some _ _ _ _ _ _ Hrun), Hrun2, heard_app.
  unfold audible_cap in *. rewrite Hpol in *. split_and!; try done; [lia|].
  by apply requests_below_cap_app.
Qed.

Lemma new_session_wf id section policy init cursor :
  match init with CoreInitialState_Open _ _ => False | _ => True end →
  session_wf section (CoreWatchSession_new id section policy init cursor).
Proof.
  intros Hinit. split; [done|done| |done]. unfold reliable_wf; simpl.
  split; [by destruct init|]. by intros (? & ? & _).
Qed.

End sessions.

(** ** A concrete session *)

(** Identifiers from a counter. *)
#[export] Instance counter_ids : TraceIdSource N := λ n, (n, N.succ n).

Definition example_key : SectionKey :=
  SectionKey_new (mkTermId "92026") (mkCampusCode "NB") (mkSectionIndex "00001").

Definition example_counts : OpenPullCountsV1 :=
  {| opc_attempted := 1; opc_succeeded := 1; opc_failed := 0; opc_empty := 0 |}.

(** The [n]-th observation of the section. *)
Definition example_observation (n : Z) (state : OpenState) : OpenObservationV1 := {|
  oo_contract_version := OpenContractVersion_V1;
  oo_observation_id := Z.to_N (1000 + n);
  oo_refresh_observation_id := Z.to_N (2000 + n);
  oo_batch := OpenBatchKey_new (sk_target example_key);
  oo_section_key := example_key;
  oo_pull_sequence := OpenSequence_new n;
  oo_catalog_content_version := CatalogContentVersion_new 1;
  oo_state := state;
  oo_observed_at := n * NANOS_PER_SEC;
  oo_fresh_until := (n + 90) * NANOS_PER_SEC;
  oo_scheduler_lag_milliseconds := 0;
  oo_counter_snapshot := {|
    ocs_run_counts := None; ocs_today_counts := example_counts;
    ocs_rutgers_day := mkRutgersDay "2026-10-01";
    ocs_day_timezone := RutgersDayTimezone_AmericaNewYork |}
|}.

Definition example_session : CoreWatchSession :=
  CoreWatchSession_new 1 example_key CorePolicy_default CoreInitialState_Unknown None.

Lemma example_session_wf : session_wf example_key example_session.
Proof. by apply new_session_wf. Qed.

(** OPEN, UNKNOWN, OPEN, CLOSED, OPEN: two edges. *)
Definition example_observations : list (OpenObservationV1 * WatchInstant) := [
  (example_observation 1 OpenState_Open, 10);
  (example_observation 2 OpenState_Unknown, 20);
  (example_observation 3 OpenState_Open, 30);
  (example_observation 4 OpenState_Closed, 40);
  (example_observation 5 OpenState_Open, 50)
].

(** Five OPEN observations with a cap of three: three sounds. *)
Definition example_cue_cmds : list cue_cmd := [
  CmdObserve (example_observation 1 OpenState_Open) 10;
  CmdObserve (example_observation 2 OpenState_Open) 20;
  CmdOutcome CoreCueOutcome_Started;
  CmdOutcome CoreCueOutcome_Started;
  CmdObserve (example_observation 3 OpenState_Open) 30;
  CmdOutcome CoreCueOutcome_Started;
  CmdObserve (example_observation 4 OpenState_Open) 40;
  CmdObserve (example_observation 5 OpenState_Open) 50
].

Lemma selection_bounded_witness :
  let s := {| sel_sections := [example_key] |} in
  NoDup (sel_sections s) ∧ (length (sel_sections s) ≤ MAX_SELECTED_SECTIONS)%nat ∧
  NoDup (sel_sections (selection_remove example_key s).1) ∧
  (example_key ∉ sel_sections (selection_remove example_key s).1).
Proof.
  intros s. assert (NoDup (sel_sections s)) as Hnd by apply NoDup_singleton.
  assert (length (sel_sections s) ≤ MAX_SELECTED_SECTIONS)%nat as Hlen by (vm_compute; lia).
  split; [exact Hnd|]. split; [exact Hlen|].
  destruct (proj1 (proj2 (selection_bounded s example_key [] Hnd Hlen))) as [[H1 _] H2].
  split; [exact H1|]. intros Hin. by apply H2 in Hin as [? _].
Defined.

Lemma episodes_follow_edges_witness :
  session_wf example_key example_session ∧
  ∃ s' i' evs, observe_all example_observations example_session 5%N = Some (s', i', evs) ∧
    opened evs = 2 ∧ ws_episode_sequence s' = 2 ∧
    ws_reliable_state s' = Some ReliableState_Open.
Proof.
  split; [exact example_session_wf|].
  assert (0 ≤ ws_episode_sequence example_session) as H0 by (vm_compute; discriminate).
  assert (ws_episode_sequence example_session +
    open_edges (ws_reliable_state example_session) example_observations ≤ u64_max) as H1
    by (vm_compute; discriminate).
  destruct (episodes_follow_edges example_key example_observations example_session 5%N
    example_session_wf H0 H1) as (s' & i' & evs & Hrun & _ & Hop & Hseq & Hrel & _).
  exists s', i', evs. split; [exact Hrun|]. rewrite Hseq, Hop, Hrel.
  split; [vm_compute; reflexivity|]. split; vm_compute; reflexivity.
Defined.

Lemma audible_cap_respected_witness :
  session_wf example_key example_session ∧
  ∃ s' i' evs, run_cue_cmds example_cue_cmds example_session 5%N = Some (s', i', evs) ∧
    heard evs = 3 ∧ ws_audible_count s' = 0 + heard evs ∧ ws_audible_count s' ≤ 3.
Proof.
  split; [exact example_session_wf|].
  assert (audible_cap example_session ≤ u64_max) as H0 by (vm_compute; discriminate).
  assert (ws_audible_count example_session ≤ audible_cap example_session) as H1
    by (vm_compute; discriminate).
  assert (is_Some (ws_active_cue example_session) →
    ws_audible_count example_session < audible_cap example_session) as H2 by (by intros []).
  destruct (audible_cap_respected example_key example_cue_cmds example_session 5%N
    example_session_wf H0 H1 H2) as (s' & i' & evs & Hrun & _ & _ & Hn & Hle & _).
  exists s', i', evs. split; [exact Hrun|]. split; [|by split].
  vm_compute in Hrun. injection Hrun as _ _ <-. vm_compute. reflexivity.
Defined.
