(* ===== verification/WatchFacts.v ===== *)
(** * Correctness of the watch manager

    The invariant of the manager (the index from sections to connections, the
    bounds, the watermark and replay windows, the sessions), its preservation
    and the absence of panics under every operation, and the contracts of
    publishing, starting, ticking and cleaning up. *)

From S2P Require Import Prelude Identity Contracts WatchState WatchManager WatchSessionFacts.

#[export] Instance TraceId_rord_laws : ROrdLaws TraceId := N_rord_laws.

(** ** The invariant *)

(** A window: a list of distinct keys that are the keys of a map. *)
Definition window_wf {K V} `{Countable K} (bound : nat) (m : gmap K V) (order : list K) : Prop :=
  NoDup order ∧ (length order ≤ bound)%nat ∧ ∀ k, k ∈ order ↔ is_Some (m !! k).

Definition connection_wf (max : Z) (c : CoreConnection) : Prop :=
  (∀ section s, cc_watches c !! section = Some s → session_wf section s) ∧
  Z.of_nat (size (cc_watches c)) ≤ max ∧
  window_wf START_REPLAY_WINDOW (cc_start_replays c) (cc_start_replay_order c).

Definition watches_section (connections : gmap TraceId CoreConnection) (section : SectionKey)
    (connection_id : TraceId) : Prop :=
  ∃ c, connections !! connection_id = Some c ∧ is_Some (cc_watches c !! section).

(** The index lists, per section, exactly the connections that watch it. *)
Definition index_wf (connections : gmap TraceId CoreConnection)
    (index : gmap SectionKey (gset TraceId)) : Prop :=
  (∀ section cid, cid ∈ default ∅ (index !! section) ↔ watches_section connections section cid) ∧
  (∀ section cids, index !! section = Some cids → cids ≠ ∅).

Record parts_wf (max : Z) (connections : gmap TraceId CoreConnection)
    (index : gmap SectionKey (gset TraceId)) (cursors : gmap SectionKey SectionObservationWatermark)
    (order : list SectionKey) : Prop := {
  pw_max : 1 ≤ max ≤ u8_max;
  pw_connections : ∀ cid c, connections !! cid = Some c → connection_wf max c;
  pw_index : index_wf connections index;
  pw_watermarks : window_wf SECTION_CURSOR_WINDOW cursors order
}.

Section manager.
Context {C I : Type} `{!WatchClock C, !TraceIdSource I}.
Implicit Types (m : CoreWatchManager C I) (c : CoreConnection) (s : CoreWatchSession)
  (cid : TraceId) (section : SectionKey).

Definition manager_wf m : Prop :=
  parts_wf (m_max_active_watches m) (m_connections m) (m_connections_by_section m)
    (m_observation_cursors m) (m_observation_cursor_order m).

(** *** Windows *)

Lemma window_wf_push {K V} `{Countable K} bound (w : gmap K V) order k v :
  window_wf bound w order → w !! k = None → (length order < bound)%nat →
  window_wf bound (<[k := v]> w) (order ++ [k]).
Proof.
  intros (Hnd & Hlen & Hin) Hk Hlt. split_and!.
  - apply NoDup_app. split_and!; [done| |apply NoDup_singleton].
    intros x Hx ->%list_elem_of_singleton. apply Hin in Hx as [? Hx]. congruence.
  - rewrite length_app. simpl. lia.
  - intros x. rewrite elem_of_app, list_elem_of_singleton, Hin, lookup_insert_is_Some'.
    naive_solver.
Qed.

Lemma window_wf_pop {K V} `{Countable K} bound (w : gmap K V) k order :
  window_wf bound w (k :: order) → window_wf bound (delete k w) order.
Proof.
  intros (Hnd & Hlen & Hin). apply NoDup_cons in Hnd as [Hk Hnd]. simpl in Hlen.
  split_and!; [done|lia|]. intros x. specialize (Hin x). rewrite elem_of_cons in Hin.
  rewrite lookup_delete_is_Some. split.
  - intros Hx. split; [by intros ->|]. apply Hin. by right.
  - intros [Hne Hx]. apply Hin in Hx as [->|Hx]; [done|done].
Qed.

Lemma window_wf_update {K V} `{Countable K} bound (w : gmap K V) order k v :
  window_wf bound w order → is_Some (w !! k) → window_wf bound (<[k := v]> w) order.
Proof.
  intros (Hnd & Hlen & Hin) Hk. split_and!; [done|done|].
  intros x. rewrite Hin, lookup_insert_is_Some'. split; [tauto|]. intros [<-|]; done.
Qed.

Lemma window_wf_size {K V} `{Countable K} bound (w : gmap K V) order :
  window_wf bound w order → size w = length order.
Proof.
  intros (Hnd & _ & Hin). rewrite <-size_dom, <-(size_list_to_set (C:=gset K) order) by done.
  f_equal. apply set_eq. intros k. by rewrite elem_of_dom, elem_of_list_to_set, Hin.
Qed.

(** *** Watermarks *)

Lemma make_watermark_room_wf section m :
  manager_wf m → m_observation_cursors m !! section = None →
  ∀ w, manager_wf (put_watermark section w (make_watermark_room section m)).
Proof.
  intros [Hmax Hc Hi Hw] Hnone w. unfold put_watermark, make_watermark_room.
  rewrite bool_decide_eq_false_2 by (rewrite Hnone; by intros [? ?]).
  case_bool_decide as Hfull.
  - destruct (m_observation_cursor_order m) as [|expired order] eqn:Ho.
    { apply window_wf_size in Hw. rewrite Hw in Hfull. done. }
    split; simpl; try done. apply window_wf_push.
    + by apply window_wf_pop.
    + rewrite lookup_delete_None. by right.
    + destruct Hw as (_ & Hlen & _). simpl in Hlen. lia.
  - split; simpl; try done. apply window_wf_push; [done|done|].
    pose proof (window_wf_size _ _ _ Hw) as Hsize. destruct Hw as (_ & Hlen & _). lia.
Qed.

Lemma put_watermark_wf section w m :
  manager_wf m → is_Some (m_observation_cursors m !! section) → manager_wf (put_watermark section w m).
Proof. intros [Hmax Hc Hi Hw] Hs. split; simpl; try done. by apply window_wf_update. Qed.

Lemma seed_wf section cursor m : manager_wf m → manager_wf (seed_observation_watermark section cursor m).
Proof.
  intros Hwf. unfold seed_observation_watermark.
  destruct (m_observation_cursors m !! section) as [w|] eqn:E.
  - case_bool_decide; [|done]. apply put_watermark_wf; [done|]. by rewrite E.
  - by apply make_watermark_room_wf.
Qed.

Lemma record_published_wf section cursor m :
  manager_wf m → manager_wf (record_published_observation section cursor m).
Proof.
  intros Hwf. unfold record_published_observation.
  destruct (m_observation_cursors m !! section) as [w|] eqn:E.
  - apply put_watermark_wf; [done|]. by rewrite E.
  - by apply make_watermark_room_wf.
Qed.

(** The watermark operations touch nothing else. *)
Definition same_but_watermarks m m' : Prop :=
  m_connections m' = m_connections m ∧ m_connections_by_section m' = m_connections_by_section m ∧
  m_clock m' = m_clock m ∧ m_ids m' = m_ids m ∧
  m_max_active_watches m' = m_max_active_watches m ∧
  m_heartbeat_timeout m' = m_heartbeat_timeout m.

Lemma make_room_same section w m :
  same_but_watermarks m (put_watermark section w (make_watermark_room section m)).
Proof.
  unfold make_watermark_room, put_watermark. case_bool_decide; [done|].
  case_bool_decide; [|done]. by destruct (m_observation_cursor_order m).
Qed.

Lemma seed_same section cursor m : same_but_watermarks m (seed_observation_watermark section cursor m).
Proof.
  unfold seed_observation_watermark. destruct (m_observation_cursors m !! section).
  - by case_bool_decide.
  - apply make_room_same.
Qed.

Lemma record_same section cursor m :
  same_but_watermarks m (record_published_observation section cursor m).
Proof.
  unfold record_published_observation. destruct (m_observation_cursors m !! section); [done|].
  apply make_room_same.
Qed.

(** *** Connections *)

Lemma watches_section_insert cs cid c section cid' :
  watches_section (<[cid := c]> cs) section cid' ↔
  (cid' = cid ∧ is_Some (cc_watches c !! section)) ∨ (cid' ≠ cid ∧ watches_section cs section cid').
Proof.
  unfold watches_section. destruct (decide (cid' = cid)) as [->|Hne].
  - rewrite lookup_insert_eq. naive_solver.
  - rewrite lookup_insert_ne by done. naive_solver.
Qed.

Lemma watches_section_delete cs cid section cid' :
  watches_section (delete cid cs) section cid' ↔ cid' ≠ cid ∧ watches_section cs section cid'.
Proof.
  unfold watches_section. destruct (decide (cid' = cid)) as [->|Hne].
  - rewrite lookup_delete_eq. naive_solver.
  - rewrite lookup_delete_ne by done. naive_solver.
Qed.

Lemma put_connection_twice cid c c' m :
  put_connection cid c' (put_connection cid c m) = put_connection cid c' m.
Proof. unfold put_connection, m_set_connections; simpl. by rewrite insert_insert_eq. Qed.

Lemma put_remove_connection cid c m :
  put_connection cid c (remove_connection cid m) = put_connection cid c m.
Proof.
  unfold put_connection, remove_connection, m_set_connections; simpl.
  by rewrite insert_delete_eq.
Qed.

(** Replacing a connection by one that watches the same sections. *)
Lemma put_connection_wf cid c c' m :
  manager_wf m → m_connections m !! cid = Some c →
  connection_wf (m_max_active_watches m) c' →
  (∀ section, is_Some (cc_watches c' !! section) ↔ is_Some (cc_watches c !! section)) →
  manager_wf (put_connection cid c' m).
Proof.
  intros [Hmax Hc [Hi Hne] Hw] Hcid Hc' Hkeys. split; simpl; [done| |split; [|done]|done].
  - intros cid' c0. destruct (decide (cid' = cid)) as [->|Hn].
    + rewrite lookup_insert_eq. by intros [= <-].
    + rewrite lookup_insert_ne by done. apply Hc.
  - intros section cid'. rewrite Hi, watches_section_insert, Hkeys.
    unfold watches_section. destruct (decide (cid' = cid)) as [->|Hn]; [|naive_solver].
    rewrite Hcid. naive_solver.
Qed.

Lemma put_new_connection_wf cid c m :
  manager_wf m → m_connections m !! cid = None → connection_wf (m_max_active_watches m) c →
  cc_watches c = ∅ → manager_wf (put_connection cid c m).
Proof.
  intros [Hmax Hc [Hi Hne] Hw] Hcid Hc' Hempty. split; simpl; [done| |split; [|done]|done].
  - intros cid' c0. destruct (decide (cid' = cid)) as [->|Hn].
    + rewrite lookup_insert_eq. by intros [= <-].
    + rewrite lookup_insert_ne by done. apply Hc.
  - intros section cid'. rewrite Hi, watches_section_insert, Hempty, lookup_empty.
    unfold watches_section. split; [|intros [[_ [? ?]]|[_ ?]]; done].
    intros (c0 & Hc0 & ?). right. split; [congruence|eauto].
Qed.

(** The index after linking and unlinking. *)
Lemma link_lookup cid section m section' :
  default ∅ (m_connections_by_section (link cid section m) !! section') =
  if decide (section' = section)
  then {[cid]} ∪ default ∅ (m_connections_by_section m !! section)
  else default ∅ (m_connections_by_section m !! section').
Proof.
  unfold link; simpl. destruct (decide (section' = section)) as [->|Hne].
  - by rewrite lookup_insert_eq.
  - by rewrite lookup_insert_ne.
Qed.

Lemma unlink_lookup cid section m section' :
  default ∅ (m_connections_by_section (unlink cid section m) !! section') =
  if decide (section' = section)
  then default ∅ (m_connections_by_section m !! section) ∖ {[cid]}
  else default ∅ (m_connections_by_section m !! section').
Proof.
  unfold unlink. destruct (m_connections_by_section m !! section) as [cids|] eqn:E.
  - case_bool_decide as Hempty; simpl; destruct (decide (section' = section)) as [->|Hne].
    + rewrite lookup_delete_eq. simpl. done.
    + by rewrite lookup_delete_ne.
    + by rewrite lookup_insert_eq.
    + by rewrite lookup_insert_ne.
  - destruct (decide (section' = section)) as [->|Hne]; [|done]. rewrite E. set_solver.
Qed.

Lemma unlink_nonempty cid section m :
  (∀ sec cids, m_connections_by_section m !! sec = Some cids → cids ≠ ∅) →
  ∀ sec cids, m_connections_by_section (unlink cid section m) !! sec = Some cids → cids ≠ ∅.
Proof.
  intros Hne sec cids. unfold unlink.
  destruct (m_connections_by_section m !! section) as [cids0|]; [|apply Hne].
  case_bool_decide as Hempty; simpl.
  - intros [_ Hs]%lookup_delete_Some. by eapply Hne.
  - intros [[<- <-]|[_ Hs]]%lookup_insert_Some; [done|]. by eapply Hne.
Qed.

Lemma unlink_same cid section m :
  m_connections (unlink cid section m) = m_connections m ∧
  m_observation_cursors (unlink cid section m) = m_observation_cursors m ∧
  m_observation_cursor_order (unlink cid section m) = m_observation_cursor_order m ∧
  m_max_active_watches (unlink cid section m) = m_max_active_watches m ∧
  m_heartbeat_timeout (unlink cid section m) = m_heartbeat_timeout m ∧
  m_clock (unlink cid section m) = m_clock m ∧ m_ids (unlink cid section m) = m_ids m.
Proof.
  unfold unlink. destruct (m_connections_by_section m !! section); [|done]. by case_bool_decide.
Qed.

(** Starting a watch on a section the connection did not watch. *)
Lemma link_wf cid c section s m :
  manager_wf (put_connection cid c m) → cc_watches c !! section = None →
  connection_wf (m_max_active_watches m) (cc_set_watches (<[section := s]> (cc_watches c)) c) →
  manager_wf (put_connection cid (cc_set_watches (<[section := s]> (cc_watches c)) c)
                (link cid section m)).
Proof.
  intros [Hmax Hc [Hi Hne] Hw] Hnew Hc'. split; simpl in *; [done| |split|done].
  - intros cid' c0. specialize (Hc cid' c0). destruct (decide (cid' = cid)) as [->|Hn].
    + rewrite lookup_insert_eq. by intros [= <-].
    + rewrite lookup_insert_ne in * by done. apply Hc.
  - intros section' cid'. specialize (Hi section' cid').
    rewrite watches_section_insert in Hi |- *. cbn [cc_watches cc_set_watches].
    destruct (decide (section' = section)) as [->|Hns].
    + rewrite !lookup_insert_eq. simpl. rewrite elem_of_union, elem_of_singleton, Hi, Hnew.
      split; [|naive_solver]. intros [->|[[_ [? ?]]|?]]; [|done|by right]. left. eauto.
    + rewrite !lookup_insert_ne by done. apply Hi.
  - intros section' cids. destruct (decide (section' = section)) as [->|Hns].
    + rewrite lookup_insert_eq. intros [= <-]. set_solver.
    + rewrite lookup_insert_ne by done. apply Hne.
Qed.

(** Removing a watch. *)
Lemma unlink_wf cid c section m :
  manager_wf m → m_connections m !! cid = Some c →
  manager_wf (put_connection cid (cc_set_watches (delete section (cc_watches c)) c)
                (unlink cid section m)).
Proof.
  intros [Hmax Hc [Hi Hne] Hw] Hcid. destruct (unlink_same cid section m) as (Hcs & Hcu & Ho & Hm & _).
  destruct (Hc cid c Hcid) as (Hses & Hsize & Hrep).
  split; simpl; rewrite ?Hm, ?Hcs, ?Hcu, ?Ho; [done| |split|done].
  - intros cid' c0. destruct (decide (cid' = cid)) as [->|Hn].
    + rewrite lookup_insert_eq. intros [= <-]. split_and!; simpl; [| |done].
      * intros section' s [_ Hs]%lookup_delete_Some. by apply Hses.
      * pose proof (map_subseteq_size _ _ (delete_subseteq (cc_watches c) section)). lia.
    + rewrite lookup_insert_ne by done. apply Hc.
  - intros section' cid'. rewrite unlink_lookup, watches_section_insert.
    cbn [cc_watches cc_set_watches]. destruct (decide (section' = section)) as [->|Hns].
    + rewrite elem_of_difference, elem_of_singleton, Hi, lookup_delete_eq.
      split; [naive_solver|]. intros [[_ [? ?]]|[? ?]]; done.
    + rewrite Hi, lookup_delete_ne by done. unfold watches_section.
      destruct (decide (cid' = cid)) as [->|Hn]; [rewrite Hcid|]; naive_solver.
  - by apply unlink_nonempty.
Qed.

(** *** Starting *)

Lemma opened_session_wf id section policy oid at_ cursor seq e :
  let s0 := CoreWatchSession_new id section policy (CoreInitialState_Open oid at_) cursor in
  episode_wf (ws_set_episode seq (Some e) s0) e → ¬ closed_episode e →
  session_wf section (ws_set_episode seq (Some e) s0).
Proof.
  intros s0 Hwf Hlive. split; [done| | |done].
  - by intros e' [= <-].
  - unfold reliable_wf; simpl. split; [|done]. intros _. by exists e.
Qed.

Lemma start_alert_run id section policy init cursor now (i : I) :
  ∃ s i' evs,
    start_alert (CoreWatchSession_new id section policy init cursor) init now i = Some (s, i', evs) ∧
    session_wf section s ∧ ws_observation_cursor s = cursor.
Proof.
  destruct init as [| |oid oat]; [by eexists _, _, _; split; [done|]; split;
    [apply new_session_wf|]..|].
  set (s0 := CoreWatchSession_new id section policy (CoreInitialState_Open oid oat) cursor).
  destruct (open_episode_run s0 oid oat now i) as (e & i3 & evs3 & Hrun3 & _ & Hlive & _ & _ & Hwfe).
  pose proof (opened_session_wf id section policy oid oat cursor _ e Hwfe Hlive) as Hwf.
  fold s0 in Hwf.
  destruct (cue_if_one_shot_run _ _ oid i3 Hwf) as (s' & i4 & evs4 & Hrun4 & _ & _ & Hstep & Hwf');
    [by eexists|].
  exists s', i4, (evs3 ++ evs4). unfold start_alert.
  rewrite (emit_bind_Some _ _ _ _ _ _ Hrun3). cbv beta. rewrite Hrun4.
  destruct Hstep as (_ & _ & _ & _ & _ & _ & -> & _). done.
Qed.

Lemma end_previous_run previous at_ (i : I) :
  (∀ p, previous = Some p → ∀ e, ws_episode p = Some e → episode_wf p e) →
  ∃ i' evs, end_previous previous at_ i = Some ((), i', evs).
Proof.
  intros Hprev. destruct previous as [p|]; [|by eexists _, _]. unfold end_previous.
  destruct (end_session_run p CoreEpisodeEndReason_Restarted at_
    (Some CoreCueCancellationReason_WatchRestarted) i (Hprev p eq_refl)) as (s' & i' & evs & Hrun & _).
  rewrite (emit_bind_Some _ _ _ _ _ _ Hrun). by eexists _, _.
Qed.

Lemma start_session_run previous spec init cursor now at_ (i : I) :
  (∀ p, previous = Some p → session_wf (ss_section spec) p) →
  ∃ s i' evs,
    start_session previous spec init cursor now at_ i = Some (s, i', evs) ∧
    session_wf (ss_section spec) s ∧ ws_observation_cursor s = cursor.
Proof.
  intros Hprev. unfold start_session.
  destruct (end_previous_run previous at_ i) as (i1 & evs1 & Hrun1).
  { intros p Hp. by destruct (Hprev p Hp). }
  rewrite (emit_bind_Some _ _ _ _ _ _ Hrun1). unfold mbind, emit_bind; simpl.
  edestruct start_alert_run as (s & i2 & evs2 & Hrun & Hwf & Hcur). rewrite Hrun.
  by eexists _, _, _.
Qed.

(** The state of the start loop, seen as a manager with the connection back. *)
Definition loop_manager cid c (l : StartLoop) : CoreWatchManager C I :=
  put_connection cid (cc_set_watches (sl_watches l) c) (sl_manager l).

Lemma manager_wf_connection m cid c :
  manager_wf m → m_connections m !! cid = Some c → connection_wf (m_max_active_watches m) c.
Proof. intros [_ Hc _ _] Hcid. by eapply Hc. Qed.

Lemma seed_option_wf section (cursor : option ObservationCursor) m :
  manager_wf m →
  manager_wf (match cursor with
              | Some cursor => seed_observation_watermark section cursor m | None => m end).
Proof. intros Hwf. destruct cursor; [by apply seed_wf|done]. Qed.

Lemma put_seed cid c section cursor m :
  put_connection cid c (seed_observation_watermark section cursor m) =
  seed_observation_watermark section cursor (put_connection cid c m).
Proof.
  unfold seed_observation_watermark, make_watermark_room, put_watermark; simpl.
  destruct (m_observation_cursors m !! section); [by case_bool_decide|].
  case_bool_decide; [done|]. case_bool_decide; [|done].
  by destruct (m_observation_cursor_order m).
Qed.

Lemma put_seed_option cid c section (cursor : option ObservationCursor) m :
  put_connection cid c (match cursor with
    | Some cursor => seed_observation_watermark section cursor m | None => m end) =
  match cursor with
  | Some cursor => seed_observation_watermark section cursor (put_connection cid c m)
  | None => put_connection cid c m
  end.
Proof. destruct cursor; [apply put_seed|done]. Qed.

Lemma insert_session_wf max c section s :
  connection_wf max c → session_wf section s →
  (cc_watches c !! section = None → Z.of_nat (size (cc_watches c)) < max) →
  connection_wf max (cc_set_watches (<[section := s]> (cc_watches c)) c).
Proof.
  intros (Hses & Hsize & Hrep) Hs Hnew. split_and!; simpl; [| |done].
  - intros section' s' [[<- <-]|[_ Hs']]%lookup_insert_Some; [done|]. by apply Hses.
  - destruct (cc_watches c !! section) as [s0|] eqn:E.
    + by rewrite map_size_insert_Some by (by rewrite E).
    + rewrite map_size_insert_None by done. specialize (Hnew eq_refl). lia.
Qed.

Lemma start_one_run cid c now at_ l spec :
  manager_wf (loop_manager cid c l) →
  ∃ l', start_one cid now at_ l spec = Some l' ∧ manager_wf (loop_manager cid c l') ∧
    m_max_active_watches (sl_manager l') = m_max_active_watches (sl_manager l) ∧
    m_connections (sl_manager l') = m_connections (sl_manager l).
Proof.
  intros Hwf. unfold start_one. set (section := ss_section spec).
  case_bool_decide; [by eexists|].
  destruct (ss_admission spec) as [init cursor| | | |]; [|by eexists..].
  case_bool_decide as Hlimit; [by eexists|].
  set (w := sl_watches l) in *. set (m := sl_manager l) in *.
  set (m1 := match w !! section with Some _ => m | None => link cid section m end).
  assert (connection_wf (m_max_active_watches m) (cc_set_watches w c)) as Hc.
  { eapply (manager_wf_connection (loop_manager cid c l)); [done|]. simpl. apply lookup_insert_eq. }
  destruct (start_session_run (w !! section) spec init cursor now at_ (m_ids m1)) as
    (s & ids & evs & Hrun & Hs & _).
  { intros p Hp. by apply Hc. }
  fold section in Hs. rewrite Hrun. cbn [mbind option_bind].
  eexists. split; [reflexivity|]. split.
  - unfold loop_manager; cbn [sl_watches sl_manager]. rewrite put_seed_option.
    apply seed_option_wf.
    change (manager_wf (put_connection cid (cc_set_watches (<[section:=s]> w) c) m1)).
    assert (connection_wf (m_max_active_watches m) (cc_set_watches (<[section:=s]> w) c)) as Hc'.
    { apply (insert_session_wf _ (cc_set_watches w c) section s); [done|done|]. simpl.
      intros Hnone. destruct (decide (m_max_active_watches m ≤ Z.of_nat (size w))); [|lia].
      by destruct Hlimit. }
    subst m1. destruct (w !! section) as [s0|] eqn:E.
    + rewrite <-(put_connection_twice cid (cc_set_watches w c)).
      eapply put_connection_wf; [exact Hwf|simpl; apply lookup_insert_eq|done|].
      intros section'. simpl. rewrite lookup_insert_is_Some'. split; [|by right].
      intros [<-|]; [by eexists|done].
    + by apply (link_wf cid (cc_set_watches w c) section s m).
  - cbn [sl_manager]. assert (m_max_active_watches m1 = m_max_active_watches m ∧
      m_connections m1 = m_connections m) as Hm1 by (subst m1; by destruct (w !! section)).
    destruct cursor as [cursor|]; [|done].
    by destruct (seed_same section cursor (m_set_ids ids m1)) as (-> & _ & _ & _ & -> & _).
Qed.

Lemma start_loop_run cid c now at_ specs l :
  manager_wf (loop_manager cid c l) →
  ∃ l', start_loop cid now at_ specs l = Some l' ∧ manager_wf (loop_manager cid c l') ∧
    m_max_active_watches (sl_manager l') = m_max_active_watches (sl_manager l) ∧
    m_connections (sl_manager l') = m_connections (sl_manager l).
Proof.
  revert l. induction specs as [|spec specs IH]; intros l Hwf; [by eexists|].
  destruct (start_one_run cid c now at_ l spec Hwf) as (l1 & Hrun & Hwf1 & Hm1 & Hc1).
  destruct (IH l1 Hwf1) as (l2 & Hrun2 & Hwf2 & Hm2 & Hc2). exists l2. simpl. rewrite Hrun. simpl.
  split_and!; [done|done|congruence..].
Qed.

Lemma replays_wf max c replays order :
  connection_wf max c → window_wf START_REPLAY_WINDOW replays order →
  connection_wf max {| cc_last_touch := cc_last_touch c; cc_watches := cc_watches c;
                       cc_start_replays := replays; cc_start_replay_order := order |}.
Proof. by intros (Hses & Hsize & _) Hw. Qed.

Lemma remember_replay_run message reply c max :
  connection_wf max c → cc_start_replays c !! message = None →
  connection_wf max (remember_replay message reply c) ∧
  cc_watches (remember_replay message reply c) = cc_watches c ∧
  cc_start_replays (remember_replay message reply c) !! message = Some reply.
Proof.
  intros Hwf Hnew. pose proof Hwf as (_ & _ & Hrep). pose proof Hrep as (_ & Hlen & Hin).
  assert (message ∉ cc_start_replay_order c) as Hfresh by (rewrite Hin, Hnew; by intros [? ?]).
  unfold remember_replay.
  destruct (cc_start_replay_order c) as [|expired rest] eqn:Ho; cbn [app].
  - rewrite bool_decide_eq_false_2 by (simpl; unfold START_REPLAY_WINDOW; lia).
    split; [|simpl; by rewrite lookup_insert_eq]. apply replays_wf; [done|].
    apply (window_wf_push _ _ []); [done|done|simpl; unfold START_REPLAY_WINDOW; lia].
  - assert (expired ≠ message) as Hne by set_solver. simpl in Hlen.
    case_bool_decide as Hfull; simpl in Hfull; rewrite length_app in Hfull; simpl in Hfull.
    + split; [|simpl; by rewrite lookup_delete_ne, lookup_insert_eq]. apply replays_wf; [done|].
      rewrite delete_insert_ne by done. apply window_wf_push; [by apply window_wf_pop| |lia].
      rewrite lookup_delete_None. by right.
    + split; [|simpl; by rewrite lookup_insert_eq]. apply replays_wf; [done|].
      apply (window_wf_push _ _ (expired :: rest)); [done|done|simpl; lia].
Qed.

Lemma size_u8 max c : 1 ≤ max ≤ u8_max → connection_wf max c → ¬ u8_max < Z.of_nat (size (cc_watches c)).
Proof. intros Hmax (_ & Hsize & _). lia. Qed.

(** The parts of the manager an operation of connection [cid] leaves alone. *)
Definition others_untouched cid m m' : Prop :=
  ∀ cid', cid' ≠ cid → m_connections m' !! cid' = m_connections m !! cid'.

Definition start_outcome_ok cid message (outcome : CoreStartOutcome) m' : Prop :=
  ∃ c', m_connections m' !! cid = Some c' ∧
    cc_start_replays c' !! message = Some (so_dispatch outcome, so_active_watch_count outcome) ∧
    (so_replayed outcome = false → so_active_watch_count outcome = Z.of_nat (size (cc_watches c'))).

Lemma start_run cid message specs m :
  manager_wf m →
  ∃ m' r, start cid message specs m = Some (m', r) ∧ manager_wf m' ∧ others_untouched cid m m' ∧
    match r with
    | Ok outcome => start_outcome_ok cid message outcome m'
    | Err _ => m' = m_set_clock (clock_now (m_clock m)).2 m
    end.
Proof.
  intros Hwf. unfold start, take_now; cbn [m_connections m_set_clock fst snd].
  destruct (m_connections m !! cid) as [c|] eqn:Hcid; [|by eexists _, _].
  pose proof (manager_wf_connection m cid c Hwf Hcid) as Hc.
  destruct (cc_start_replays c !! message) as [[dispatch count]|] eqn:Hreplay.
  { eexists _, _. split; [reflexivity|]. split; [|split].
    - eapply put_connection_wf; [exact Hwf|exact Hcid|exact Hc|done].
    - intros cid' Hn. simpl. by rewrite lookup_insert_ne.
    - eexists. simpl. by rewrite lookup_insert_eq. }
  set (m1 := m_set_clock _ m). destruct (validate_initial_watermarks specs m1); [|by eexists _, _].
  unfold take_wall_now; cbn [fst snd].
  set (now := (clock_now (m_clock m)).1). set (m2 := m_set_clock _ m1).
  set (at_ := (clock_wall_now (m_clock m1)).1).
  set (c1 := cc_set_last_touch now c). set (l := Build_StartLoop _ _ _ _).
  assert (manager_wf (loop_manager cid c1 l)) as Hl.
  { unfold loop_manager, l; cbn [sl_manager sl_watches]. rewrite put_remove_connection.
    eapply put_connection_wf; [exact Hwf|exact Hcid|exact Hc|done]. }
  destruct (start_loop_run cid c1 now at_ specs l Hl) as (l' & Hrun & Hwf' & Hm & Hconn).
  rewrite Hrun. cbn [mbind option_bind].
  set (c2 := cc_set_watches (sl_watches l') c1).
  assert (connection_wf (m_max_active_watches (sl_manager l')) c2) as Hc2.
  { eapply (manager_wf_connection (loop_manager cid c1 l')); [done|]. simpl. apply lookup_insert_eq. }
  assert (¬ u8_max < Z.of_nat (size (sl_watches l'))) as Hsize.
  { eapply (size_u8 _ c2); [|exact Hc2]. apply Hwf'. }
  rewrite bool_decide_eq_false_2 by done.
  set (reply := (_, Z.of_nat _)).
  destruct (remember_replay_run message reply c2 _ Hc2 Hreplay) as (Hc3 & Hw3 & Hr3).
  eexists _, _. split; [reflexivity|]. split; [|split].
  - rewrite <-(put_connection_twice cid c2).
    eapply put_connection_wf; [exact Hwf'|simpl; apply lookup_insert_eq|exact Hc3|].
    intros section. by rewrite Hw3.
  - intros cid' Hn. simpl. rewrite lookup_insert_ne, Hconn by done. simpl. by rewrite lookup_delete_ne.
  - eexists. cbn [m_connections put_connection m_set_connections].
    rewrite lookup_insert_eq. split; [done|]. split; [exact Hr3|]. intros _. simpl. by rewrite Hw3.
Qed.

Lemma start_replays cid message specs m c dispatch count :
  m_connections m !! cid = Some c → cc_start_replays c !! message = Some (dispatch, count) →
  start cid message specs m =
    Some (put_connection cid (cc_set_last_touch (clock_now (m_clock m)).1 c)
            (m_set_clock (clock_now (m_clock m)).2 m),
          Ok {| so_dispatch := dispatch; so_replayed := true; so_active_watch_count := count |}).
Proof.
  intros Hcid Hr. unfold start, take_now; cbn [m_connections m_set_clock fst snd].
  by rewrite Hcid, Hr.
Qed.

(** Starting watches is idempotent per message and bounded: it never panics
    and keeps the invariant; other connections are untouched; on an error
    nothing changes but the clock; on success the reported count is the number
    of watches, within the limit of the manager, and repeating the message,
    with whatever specification, replays the same dispatch and count and starts
    nothing. *)
Theorem start_idempotent cid message specs m :
  manager_wf m →
  ∃ m' r, start cid message specs m = Some (m', r) ∧ manager_wf m' ∧ others_untouched cid m m' ∧
    match r with
    | Err _ => m' = m_set_clock (clock_now (m_clock m)).2 m
    | Ok outcome => ∃ c', m_connections m' !! cid = Some c' ∧
        Z.of_nat (size (cc_watches c')) ≤ m_max_active_watches m' ∧
        (so_replayed outcome = false →
           so_active_watch_count outcome = Z.of_nat (size (cc_watches c'))) ∧
        ∀ specs', ∃ now clock, start cid message specs' m' =
          Some (put_connection cid (cc_set_last_touch now c') (m_set_clock clock m'),
                Ok {| so_dispatch := so_dispatch outcome; so_replayed := true;
                      so_active_watch_count := so_active_watch_count outcome |})
    end.
Proof.
  intros Hwf. destruct (start_run cid message specs m Hwf) as (m' & r & Hrun & Hwf' & Hoth & Hr).
  exists m', r. split_and!; try done. destruct r as [outcome|]; [|done].
  destruct Hr as (c' & Hc' & Hreplay & Hcount). exists c'. split; [done|].
  split; [by destruct (manager_wf_connection m' cid c' Hwf' Hc') as (_ & ? & _)|]. split; [done|].
  intros specs'. eexists _, _. by apply start_replays.
Qed.

(** *** Commands on one session *)

(** The reply of a command on a session keeps the invariant. *)
Lemma reply_session_wf cid c section s s' emitted ids evs mixer m :
  manager_wf m → m_connections m !! cid = Some c → cc_watches c !! section = Some s →
  session_wf section s' →
  manager_wf (reply_session cid c section s' emitted ids evs mixer m).1.
Proof.
  intros Hwf Hcid Hs Hs'. unfold reply_session; cbn [fst].
  eapply put_connection_wf; [exact Hwf|exact Hcid| |].
  - apply insert_session_wf; [by eapply manager_wf_connection|done|]. congruence.
  - intros section'. simpl. rewrite lookup_insert_is_Some'. split; [|by right].
    intros [<-|]; [by eexists|done].
Qed.

Lemma find_watch_Some P (w : gmap SectionKey CoreWatchSession) section s :
  find_watch P w = Some (section, s) → w !! section = Some s ∧ P s.
Proof.
  unfold find_watch. intros Hf%head_Some_elem_of.
  apply list_elem_of_filter in Hf as [HP Hin]. split; [by apply elem_of_btm_iter in Hin|done].
Qed.

(** Replacing the episode of a session by one with the same liveness. *)
Lemma put_episode_wf key s e e' :
  session_wf key s → ws_episode s = Some e → episode_wf s e' →
  (closed_episode e' ↔ closed_episode e) → session_wf key (ws_put_episode (Some e') s).
Proof.
  intros [Hsec Hep Hrel Hcues] He Hwf' Hclosed. split; [done| | |done].
  - intros e0 [= <-]. by destruct Hwf'.
  - unfold reliable_wf; simpl. etransitivity; [exact Hrel|]. rewrite He. naive_solver.
Qed.

Lemma ep_acknowledge_wf s e at_ :
  episode_wf s e → ep_state e = CoreEpisodeState_Unacknowledged →
  episode_wf s (ep_acknowledge at_ e) ∧ (closed_episode (ep_acknowledge at_ e) ↔ closed_episode e).
Proof.
  intros [] Hst. unfold closed_episode in *. rewrite Hst in *. split; [|done].
  split; unfold closed_episode; simpl; try done; try lia; naive_solver.
Qed.

Lemma ep_time_out_wf s e at_ :
  episode_wf s e → ep_state e = CoreEpisodeState_Unacknowledged →
  episode_wf s (ep_time_out at_ e) ∧ (closed_episode (ep_time_out at_ e) ↔ closed_episode e).
Proof.
  intros [] Hst. unfold closed_episode in *. rewrite Hst in *. split; [|done].
  split; unfold closed_episode; simpl; try done; try lia; naive_solver.
Qed.

Lemma ep_resume_wf s e at_ deadline :
  episode_wf s e → ep_state e = CoreEpisodeState_TimedOut →
  cp_mode (ws_policy s) = CoreNotificationMode_Continuous →
  let e' := ep_transition CoreEpisodeState_Unacknowledged deadline
              (Z.max at_ (ep_first_observed_at e)) e in
  episode_wf s e' ∧ (closed_episode e' ↔ closed_episode e).
Proof.
  intros [] Hst Hmode e'. unfold closed_episode in *. rewrite Hst in *. split; [|done].
  split; unfold closed_episode; simpl; try done; try lia; naive_solver.
Qed.

Lemma dismiss_wf s e :
  episode_wf s e → episode_wf s (ep_set_dismissed e) ∧
  (closed_episode (ep_set_dismissed e) ↔ closed_episode e).
Proof. intros []. by split. Qed.

(** An operation that never panics and keeps the invariant. *)
Definition safe_run {A} (o : option (CoreWatchManager C I * A)) : Prop :=
  ∃ m' r, o = Some (m', r) ∧ manager_wf m'.

Lemma safe_reply cid c section s s' emitted ids evs mixer m :
  manager_wf m → m_connections m !! cid = Some c → cc_watches c !! section = Some s →
  session_wf section s' →
  safe_run (Some (reply_session cid c section s' emitted ids evs mixer m)).
Proof.
  intros Hwf Hcid Hs Hs'.
  pose proof (reply_session_wf cid c section s s' emitted ids evs mixer m Hwf Hcid Hs Hs').
  by destruct (reply_session _ _ _ _ _ _ _ _ _) as [m' r]; exists m', r.
Qed.

Lemma safe_same {A} m (r : A) : manager_wf m → safe_run (Some (m, r)).
Proof. intros Hwf. by exists m, r. Qed.

Lemma manager_wf_session m cid c section s :
  manager_wf m → m_connections m !! cid = Some c → cc_watches c !! section = Some s →
  session_wf section s.
Proof. intros Hwf Hcid Hs. destruct (manager_wf_connection m cid c Hwf Hcid) as [Hses _]. by apply Hses. Qed.

Lemma acknowledge_episode_safe cid eid m : manager_wf m → safe_run (acknowledge_episode cid eid m).
Proof.
  intros Hwf. unfold acknowledge_episode.
  destruct (m_connections m !! cid) as [c|] eqn:Hcid; [|by apply safe_same].
  destruct (find_watch _ _) as [[section s]|] eqn:Hf; [|by apply safe_same].
  apply find_watch_Some in Hf as [Hs _].
  pose proof (manager_wf_session m cid c section s Hwf Hcid Hs) as Hsw.
  case_bool_decide; [by apply safe_same|]. unfold take_wall_now; cbn [fst snd].
  destruct (ws_episode s) as [e|] eqn:He; [|by eapply safe_reply].
  case_bool_decide as Hst; [|by eapply safe_reply].
  unfold mbind at 1, option_bind; simpl. eapply safe_reply; [exact Hwf|exact Hcid|exact Hs|].
  destruct Hsw as [? Hep ? ?] eqn:E. clear E.
  destruct (ep_acknowledge_wf s e (clock_wall_now (m_clock m)).1 (Hep e He) Hst).
  by eapply put_episode_wf.
Qed.

Lemma resume_episode_safe cid eid m : manager_wf m → safe_run (resume_episode cid eid m).
Proof.
  intros Hwf. unfold resume_episode, take_now; cbn [fst snd m_connections m_set_clock].
  destruct (m_connections m !! cid) as [c|] eqn:Hcid; [|by apply safe_same].
  destruct (find_watch _ _) as [[section s]|] eqn:Hf; [|by apply safe_same].
  apply find_watch_Some in Hf as [Hs _].
  pose proof (manager_wf_session m cid c section s Hwf Hcid Hs) as Hsw.
  destruct (_ || _) eqn:Hguard; [by apply safe_same|].
  apply orb_false_iff in Hguard as [[Hmode _]%orb_false_iff Hst].
  apply bool_decide_eq_false in Hmode, Hst. unfold take_wall_now; cbn [fst snd].
  destruct (ws_episode s) as [e|] eqn:He; simpl in Hst; [|by destruct Hst].
  unfold mbind at 1, option_bind; simpl. eapply safe_reply; [exact Hwf|exact Hcid|exact Hs|].
  assert (ep_state e = CoreEpisodeState_TimedOut) as Hst'
    by (apply dec_stable; intros ?; apply Hst; congruence).
  apply dec_stable in Hmode.
  destruct (ep_resume_wf s e (clock_wall_now (m_clock (m_set_clock (clock_now (m_clock m)).2 m))).1
    (duration_deadline (cp_continuous_duration (ws_policy s)) (clock_now (m_clock m)).1)
    (sw_episode _ _ Hsw e He) Hst' Hmode).
  by eapply put_episode_wf.
Qed.

Lemma dismiss_alert_safe cid aid m : manager_wf m → safe_run (dismiss_alert cid aid m).
Proof.
  intros Hwf. unfold dismiss_alert.
  destruct (m_connections m !! cid) as [c|] eqn:Hcid; [|by apply safe_same].
  destruct (find_watch _ _) as [[section s]|] eqn:Hf; [|by apply safe_same].
  apply find_watch_Some in Hf as [Hs Halert]. unfold has_alert in Halert.
  pose proof (manager_wf_session m cid c section s Hwf Hcid Hs) as Hsw.
  unfold take_wall_now; cbn [fst snd].
  destruct (ws_episode s) as [e|] eqn:He; [|done].
  unfold mbind at 1, option_bind; simpl. eapply safe_reply; [exact Hwf|exact Hcid|exact Hs|].
  destruct (dismiss_wf s e (sw_episode _ _ Hsw e He)). by eapply put_episode_wf.
Qed.

Lemma report_cue_outcome_safe cid cue outcome m :
  manager_wf m → safe_run (report_cue_outcome cid cue outcome m).
Proof.
  intros Hwf. unfold report_cue_outcome.
  destruct (m_connections m !! cid) as [c|] eqn:Hcid; [|by apply safe_same].
  unfold take_wall_now; cbn [fst snd].
  destruct (find_watch _ _) as [[section s]|] eqn:Hf; [|by apply safe_same].
  apply find_watch_Some in Hf as [Hs Hcue]. unfold has_active_cue in Hcue.
  pose proof (manager_wf_session m cid c section s Hwf Hcid Hs) as Hsw.
  destruct (ws_active_cue s) as [pc|] eqn:Hpc; [|done]. cbn [mbind option_bind].
  destruct (record_cue_outcome_run section s pc outcome (m_ids m) Hsw) as (s' & i' & evs & Hrun & Hwf' & _).
  cbn [m_ids m_set_clock]. rewrite Hrun. by eapply safe_reply.
Qed.

Lemma reset_core_wf key s :
  session_wf key s →
  core_wf key (ws_put_episode (ep_set_audible_count 0 <$> ws_episode s)
    (ws_set_cues 0 (ws_active_cue s) (ws_queued_cues s) s)).
Proof.
  intros [Hsec Hep Hrel _]. split_and!; [done| |]; simpl.
  - intros e (e0 & He0 & ->)%fmap_Some. by destruct (Hep e0 He0).
  - unfold reliable_wf; simpl. etransitivity; [exact Hrel|]. split.
    + intros (e & -> & ?). by eexists.
    + intros (e & (e0 & He0 & ->)%fmap_Some & ?). by exists e0.
Qed.

(** Driving the queue keeps an active cue; with none, the queue was empty. *)
Lemma drive_wf key s (i : I) :
  core_wf key s → cues_wf s →
  ∃ s' evs, drive_one_shot s i = Some (s', i, evs) ∧ session_wf key s'.
Proof.
  intros Hcore [Hq Hc]. destruct (drive_one_shot_run s i) as (s' & evs & Hrun & _ & _ & Hstep & Hq' & Hn).
  exists s', evs. split; [done|]. apply (cue_step_core_wf key s); [done|done|]. split; [done|].
  destruct Hstep as (_ & -> & _). intros Hmode. apply Hn; auto.
Qed.

Lemma reset_audible_count_safe cid wid m : manager_wf m → safe_run (reset_audible_count cid wid m).
Proof.
  intros Hwf. unfold reset_audible_count.
  destruct (m_connections m !! cid) as [c|] eqn:Hcid; [|by apply safe_same].
  destruct (find_watch _ _) as [[section s]|] eqn:Hf; [|by apply safe_same].
  apply find_watch_Some in Hf as [Hs _].
  pose proof (manager_wf_session m cid c section s Hwf Hcid Hs) as Hsw.
  unfold take_wall_now; cbn [fst snd].
  destruct (drive_wf section _ (next_trace_id (m_ids m)).2 (reset_core_wf section s Hsw))
    as (s' & evs & Hrun & Hwf').
  { by destruct Hsw. }
  cbv zeta. unfold mbind at 2, emit_bind; simpl. unfold mbind, emit_bind; simpl. rewrite Hrun. simpl.
  by eapply safe_reply.
Qed.

Lemma update_episode_wf s e policy now :
  episode_wf s e →
  let to_continuous := bool_decide (cp_mode policy = CoreNotificationMode_Continuous) in
  let e' := ep_with policy
    (if to_continuous
     then if bool_decide (ep_state e = CoreEpisodeState_Unacknowledged)
          then duration_deadline (cp_continuous_duration policy) now else ep_deadline e
     else None) (ep_audible_count e) (ep_alert_dismissed e) e in
  episode_wf (ws_set_policy policy s) e' ∧ (closed_episode e' ↔ closed_episode e).
Proof.
  intros Hw to_continuous e'. split; [|done].
  assert (is_Some (ep_deadline e') → ep_state e = CoreEpisodeState_Unacknowledged ∧
    cp_mode policy = CoreNotificationMode_Continuous) as Hd.
  { subst e' to_continuous; simpl. case_bool_decide; [|by intros []]. case_bool_decide; [done|].
    intros Hd. by destruct (ew_deadline _ _ Hw Hd). }
  clearbody to_continuous. destruct Hw. by split.
Qed.

Lemma update_session_wf key s policy now :
  session_wf key s →
  let to_continuous := bool_decide (cp_mode policy = CoreNotificationMode_Continuous) in
  let s1 := (if bool_decide (cp_mode (ws_policy s) = CoreNotificationMode_OneShot) && to_continuous
             then take_pending_cues s else ([], s)).2 in
  session_wf key (ws_put_episode ((λ e, ep_with policy
    (if to_continuous
     then if bool_decide (ep_state e = CoreEpisodeState_Unacknowledged)
          then duration_deadline (cp_continuous_duration policy) now else ep_deadline e
     else None) (ep_audible_count e) (ep_alert_dismissed e) e) <$> ws_episode s1)
    (ws_set_policy policy s1)).
Proof.
  intros [Hsec Hep Hrel [Hq Hc]] to_continuous s1.
  assert (ws_section s1 = key ∧ ws_id s1 = ws_id s ∧ ws_episode s1 = ws_episode s ∧
    ws_reliable_state s1 = ws_reliable_state s ∧ ws_audible_count s1 = ws_audible_count s ∧
    ws_episode_sequence s1 = ws_episode_sequence s ∧
    (ws_active_cue s1 = None → ws_queued_cues s1 = []) ∧
    (cp_mode policy = CoreNotificationMode_Continuous → ws_active_cue s1 = None))
    as (H1 & H2 & H3 & H4 & H5 & H6 & H7 & H8).
  { subst s1 to_continuous. repeat case_bool_decide; simpl; split_and!; try done.
    intros _. apply Hc. by destruct (cp_mode (ws_policy s)). }
  rewrite H3. clearbody s1. split; [done| | |done].
  - intros e (e0 & He0 & ->)%fmap_Some.
    destruct (update_episode_wf s e0 policy now (Hep e0 He0)) as [[] _].
    split; simpl in *; rewrite ?H1, ?H2, ?H5, ?H6, <-?Hsec; done.
  - unfold reliable_wf; simpl. rewrite H4. etransitivity; [exact Hrel|]. split.
    + intros (e & -> & ?). by eexists.
    + intros (e & (e0 & He0 & ->)%fmap_Some & ?). by exists e0.
Qed.

Lemma update_policy_safe cid wid policy m : manager_wf m → safe_run (update_policy cid wid policy m).
Proof.
  intros Hwf. unfold update_policy.
  destruct (m_connections m !! cid) as [c|] eqn:Hcid; [|by apply safe_same].
  unfold take_now, take_wall_now; cbn [fst snd].
  destruct (find_watch _ _) as [[section s]|] eqn:Hf; [|by apply safe_same].
  apply find_watch_Some in Hf as [Hs _].
  pose proof (manager_wf_session m cid c section s Hwf Hcid Hs) as Hsw.
  pose proof (update_session_wf section s policy (clock_now (m_clock m)).1 Hsw) as Hwf'.
  cbv zeta in *. destruct (if _ && _ then _ else _) as [cues s1] eqn:E. cbn [snd] in Hwf'.
  eapply safe_reply; [exact Hwf|exact Hcid|exact Hs|exact Hwf'].
Qed.

(** *** Sweeps *)

(** The session after a sweep. *)
Definition swept (P : CoreEpisode → bool) (f : CoreEpisode → CoreEpisode) s : CoreWatchSession :=
  match ws_episode s with
  | Some e =>
      if bool_decide (cp_mode (ws_policy s) = CoreNotificationMode_Continuous)
         && bool_decide (ep_state e = CoreEpisodeState_Unacknowledged) && P e
      then ws_put_episode (Some (f e)) s else s
  | None => s
  end.

Lemma sweep_lookup P f w section :
  (sweep_episodes P f w).2 !! section = swept P f <$> w !! section.
Proof.
  unfold sweep_episodes. apply (btm_accum_lookup _ (λ _ s, swept P f s)).
  intros acc k s. unfold swept.
  case_bool_decide as Hmode; destruct (ws_episode s) as [e|]; try done.
  - rewrite bool_decide_eq_false_2 by done. done.
  - rewrite (bool_decide_eq_true_2 _ Hmode). simpl. case_bool_decide as Hst; simpl.
    + by rewrite bool_decide_eq_false_2.
    + rewrite (bool_decide_eq_true_2 _ Hst). by destruct (P e).
Qed.

Lemma swept_wf key P f s :
  (∀ e, episode_wf s e → ep_state e = CoreEpisodeState_Unacknowledged →
    episode_wf s (f e) ∧ (closed_episode (f e) ↔ closed_episode e)) →
  session_wf key s → session_wf key (swept P f s).
Proof.
  intros Hf Hwf. unfold swept. destruct (ws_episode s) as [e|] eqn:He; [|done].
  destruct (_ && _) eqn:Hg; [|done]. apply andb_true_iff in Hg as [[_ Hst]%andb_true_iff _].
  apply bool_decide_eq_true in Hst.
  destruct (Hf e (sw_episode _ _ Hwf e He) Hst). by eapply put_episode_wf.
Qed.

Lemma push_actions_run kind l (i : I) : ∃ i' evs, push_actions kind l i = Some ((), i', evs).
Proof.
  revert i. induction l as [|[[section wid] eid] l IH]; intros i; [by eexists _, _|].
  simpl. unfold mbind, emit_bind; simpl. edestruct IH as (i' & evs & ->). by eexists _, _.
Qed.

Lemma size_same_keys {K V V'} `{Countable K} (w : gmap K V) (w' : gmap K V') :
  (∀ k, is_Some (w !! k) ↔ is_Some (w' !! k)) → size w = size w'.
Proof.
  intros Hk. rewrite <-!size_dom. f_equal. apply set_eq. intros k. by rewrite !elem_of_dom.
Qed.

Lemma sweep_connection_wf max c P f watches :
  (∀ s e, episode_wf s e → ep_state e = CoreEpisodeState_Unacknowledged →
    episode_wf s (f e) ∧ (closed_episode (f e) ↔ closed_episode e)) →
  connection_wf max c → watches = (sweep_episodes P f (cc_watches c)).2 →
  connection_wf max (cc_set_watches watches c) ∧
  ∀ section, is_Some (watches !! section) ↔ is_Some (cc_watches c !! section).
Proof.
  intros Hf (Hses & Hsize & Hrep) ->.
  assert (∀ section, is_Some ((sweep_episodes P f (cc_watches c)).2 !! section) ↔
    is_Some (cc_watches c !! section)) as Hkeys.
  { intros section. by rewrite sweep_lookup, fmap_is_Some. }
  split; [|done]. split_and!; simpl; [| |done].
  - intros section s. rewrite sweep_lookup. intros (s0 & Hs0 & ->)%fmap_Some.
    apply swept_wf; [by intros e; apply Hf|by apply Hses].
  - by rewrite (size_same_keys _ _ Hkeys).
Qed.

(** An acknowledged or swept session sounds no more. *)
Lemma swept_all_inactive f s :
  (∀ e, ep_state (f e) ≠ CoreEpisodeState_Unacknowledged) →
  continuous_alarm_active (swept (λ _, true) f s) = false.
Proof.
  intros Hf. unfold swept, continuous_alarm_active, episode_state_is.
  destruct (ws_episode s) as [e|] eqn:He; [|by rewrite He, andb_false_r].
  destruct (bool_decide (cp_mode (ws_policy s) = _)) eqn:Hmode; simpl; [|by rewrite Hmode].
  destruct (bool_decide (ep_state e = _)) eqn:Hst; simpl; rewrite Hmode; simpl.
  - apply bool_decide_eq_false_2, Hf.
  - by rewrite He, Hst.
Qed.

Lemma active_episode_ids_nil w :
  (∀ section s, w !! section = Some s → continuous_alarm_active s = false) →
  active_episode_ids w = [].
Proof.
  intros Hw. unfold active_episode_ids.
  rewrite filter_none; [done|]. intros s [section Hs]%elem_of_btm_values Ha%Is_true_true.
  specialize (Hw section s Hs). congruence.
Qed.

Lemma acknowledge_all_run cid m c :
  manager_wf m → m_connections m !! cid = Some c →
  ∃ at_ m' d watches, acknowledge_all cid m = Some (m', Ok d) ∧ manager_wf m' ∧
    m_connections m' = <[cid := cc_set_watches watches c]> (m_connections m) ∧
    (∀ section, watches !! section = swept (λ _, true) (ep_acknowledge at_) <$> cc_watches c !! section) ∧
    ∃ evs, cd_events d = evs ++ mixer_events watches (active_episode_ids (cc_watches c))
                                  CoreMixerStopReason_NoUnacknowledgedEpisodes.
Proof.
  intros Hwf Hcid. unfold acknowledge_all. rewrite Hcid. unfold take_wall_now; cbn [fst snd].
  set (at_ := (clock_wall_now (m_clock m)).1).
  destruct (sweep_episodes (λ _, true) (ep_acknowledge at_) (cc_watches c)) as [[updates acked] watches] eqn:E.
  destruct (push_actions_run CoreActionKind_EpisodesAcknowledgedAll acked (m_ids m)) as (i' & evs & Hrun).
  cbn [m_ids m_set_clock]. rewrite Hrun. eexists at_, _, _, watches. split; [reflexivity|].
  destruct (sweep_connection_wf (m_max_active_watches m) c (λ _, true) (ep_acknowledge at_) watches)
    as [Hc' Hkeys]; [by intros; apply ep_acknowledge_wf|by eapply manager_wf_connection|by rewrite E|].
  split; [eapply put_connection_wf; [exact Hwf|exact Hcid|exact Hc'|exact Hkeys]|].
  split; [done|]. split.
  - intros section. by rewrite <-sweep_lookup, E.
  - eexists. simpl. by rewrite app_assoc.
Qed.

Lemma acknowledge_all_safe cid m : manager_wf m → safe_run (acknowledge_all cid m).
Proof.
  intros Hwf. destruct (m_connections m !! cid) as [c|] eqn:Hcid.
  - destruct (acknowledge_all_run cid m c Hwf Hcid) as (at_ & m' & d & w & -> & Hwf' & _).
    by exists m', (Ok d).
  - unfold acknowledge_all. rewrite Hcid. by apply safe_same.
Qed.

(** Acknowledging all episodes silences a connection: it never panics and
    keeps the invariant; every unacknowledged episode of a continuous watch
    becomes acknowledged, nothing else in the connection's sessions changes and
    other connections are untouched; no episode sounds afterwards, and if one
    did before, the dispatch ends with the mixer's stop. *)
Theorem acknowledge_all_silences cid m :
  manager_wf m →
  match m_connections m !! cid with
  | None => acknowledge_all cid m = Some (m, Err CoreManagerError_UnknownConnection)
  | Some c => ∃ at_ m' d c', acknowledge_all cid m = Some (m', Ok d) ∧ manager_wf m' ∧
      others_untouched cid m m' ∧ m_connections m' !! cid = Some c' ∧
      (∀ section, cc_watches c' !! section =
         swept (λ _, true) (ep_acknowledge at_) <$> cc_watches c !! section) ∧
      active_episode_ids (cc_watches c') = [] ∧
      (active_episode_ids (cc_watches c) ≠ [] →
         last (cd_events d) = Some (CoreEvent_AudioDisposition
           (CoreAudioDisposition_ContinuousMixer false []
              (Some CoreMixerStopReason_NoUnacknowledgedEpisodes))))
  end.
Proof.
  intros Hwf. destruct (m_connections m !! cid) as [c|] eqn:Hcid;
    [|unfold acknowledge_all; by rewrite Hcid].
  destruct (acknowledge_all_run cid m c Hwf Hcid) as
    (at_ & m' & d & w & Hrun & Hwf' & Hconn & Hw & evs & Hevs).
  exists at_, m', d, (cc_set_watches w c).
  assert (active_episode_ids w = []) as Hnil.
  { apply active_episode_ids_nil. intros section s. rewrite Hw. intros (s0 & _ & ->)%fmap_Some.
    by apply swept_all_inactive. }
  split_and!; try done.
  - intros cid' Hn. by rewrite Hconn, lookup_insert_ne.
  - by rewrite Hconn, lookup_insert_eq.
  - intros Hact. rewrite Hevs. unfold mixer_events. rewrite Hnil, bool_decide_eq_true_2 by congruence.
    by rewrite last_snoc.
Qed.

(** *** Stopping *)

Lemma stop_watch_safe cid wid m : manager_wf m → safe_run (stop_watch cid wid m).
Proof.
  intros Hwf. unfold stop_watch.
  destruct (m_connections m !! cid) as [c|] eqn:Hcid; [|by apply safe_same].
  destruct (find_watch _ _) as [[section s]|] eqn:Hf; [|by apply safe_same].
  apply find_watch_Some in Hf as [Hs _].
  pose proof (manager_wf_session m cid c section s Hwf Hcid Hs) as Hsw.
  unfold take_wall_now; cbn [fst snd m_ids m_set_clock].
  destruct (end_session_run s CoreEpisodeEndReason_WatchStopped (clock_wall_now (m_clock m)).1
    (Some CoreCueCancellationReason_WatchStopped) (m_ids m)) as (s' & i' & evs & Hrun & _).
  { by destruct Hsw. }
  cbv zeta. rewrite (emit_bind_Some _ _ _ _ _ _ Hrun).
  eexists _, _. split; [reflexivity|].
  by apply (unlink_wf cid c section (m_set_ids _ (m_set_clock (clock_wall_now (m_clock m)).2 m))).
Qed.

(** *** Publishing *)

Definition session_at m cid section : option CoreWatchSession :=
  c ← m_connections m !! cid; cc_watches c !! section.

Lemma session_at_put cid c m cid' section :
  session_at (put_connection cid c m) cid' section =
  if decide (cid' = cid) then cc_watches c !! section else session_at m cid' section.
Proof.
  unfold session_at; simpl. case_decide as Hd.
  - subst. by rewrite lookup_insert_eq.
  - by rewrite lookup_insert_ne.
Qed.

Lemma publish_check_ext cids o m m' :
  (∀ cid, cid ∈ cids → session_at m' cid (oo_section_key o) = session_at m cid (oo_section_key o)) →
  publish_check cids o m' = publish_check cids o m.
Proof.
  induction cids as [|cid cids IH]; intros Heq; [done|]. simpl.
  assert (session_at m' cid (oo_section_key o) = session_at m cid (oo_section_key o)) as Hc
    by (apply Heq; set_solver).
  unfold session_at in Hc. rewrite Hc. rewrite IH by (intros; apply Heq; set_solver). done.
Qed.

Definition observation_cursor (o : OpenObservationV1) : ObservationCursor :=
  {| oc_pull_sequence := os_get (oo_pull_sequence o); oc_observation_id := oo_observation_id o |}.

(** An observation is newer than a cursor, or has its sequence number under
    another identifier. *)
Definition newer_than (cursor : option ObservationCursor) (o : OpenObservationV1) : Prop :=
  match cursor with None => True | Some w => oc_pull_sequence w < os_get (oo_pull_sequence o) end.
Definition conflicts_with (cursor : option ObservationCursor) (o : OpenObservationV1) : Prop :=
  ∃ w, cursor = Some w ∧ oc_pull_sequence w = os_get (oo_pull_sequence o)
    ∧ oc_observation_id w ≠ oo_observation_id o.

Lemma cursor_accepts_cases cursor (o : OpenObservationV1) :
  match cursor_accepts cursor (os_get (oo_pull_sequence o)) (oo_observation_id o) with
  | Ok true => newer_than cursor o ∧ ¬ conflicts_with cursor o
  | Ok false => ¬ newer_than cursor o ∧ ¬ conflicts_with cursor o
  | Err e => e = CoreManagerError_ObservationSequenceConflict ∧ conflicts_with cursor o
  end.
Proof.
  unfold cursor_accepts, newer_than, conflicts_with. destruct cursor as [w|]; [|naive_solver].
  repeat case_bool_decide; [| | |split; [done|exists w; split_and!; [done|lia|congruence]]];
    (split; [lia|]; intros (? & [= <-] & ? & ?); (lia || congruence)).
Qed.

(** What an observation does to a session, with whose cursor it is in no
    conflict: the cursor and the reliable state follow it when it is newer, and
    nothing changes when it is not. *)
Definition delivered (o : OpenObservationV1) s s' : Prop :=
  ¬ conflicts_with (ws_observation_cursor s) o ∧
  (newer_than (ws_observation_cursor s) o →
     ws_observation_cursor s' = Some (observation_cursor o) ∧
     ws_reliable_state s' = reliable_after (ws_reliable_state s) o ∧
     same_watch s s' ∧ ws_policy s' = ws_policy s ∧ ws_audible_count s' = ws_audible_count s) ∧
  (¬ newer_than (ws_observation_cursor s) o → s' = s).

Lemma cursor_wf key s cursor : session_wf key s → session_wf key (ws_set_cursor cursor s).
Proof.
  intros [Hsec Hep Hrel Hcues]. split; [done| |done|done].
  intros e He. by destruct (Hep e He).
Qed.

(** The dispatch a connection gets. *)
Definition dispatch_of (o : OpenObservationV1) (at_ : OffsetDateTime) cid (d : CoreDispatch) : Prop :=
  cd_connection_id d = cid ∧ cd_emitted_at d = at_ ∧
  head (cd_events d) = Some (CoreEvent_Observation o).

(** One round of the delivery loop. *)
Lemma publish_loop_step cid cids o now at_ ds m s :
  manager_wf m → session_at m cid (oo_section_key o) = Some s →
  (∃ b, cursor_accepts (ws_observation_cursor s) (os_get (oo_pull_sequence o)) (oo_observation_id o)
     = Ok b) →
  ∃ m1 d s' c, publish_loop (cid :: cids) o now at_ ds m = publish_loop cids o now at_ (ds ++ [d]) m1 ∧
    dispatch_of o at_ cid d ∧ m_connections m !! cid = Some c ∧
    m_connections m1 = m_connections (put_connection cid
      (cc_set_watches (<[oo_section_key o := s']> (cc_watches c)) c) m) ∧
    m_connections_by_section m1 = m_connections_by_section m ∧
    m_observation_cursors m1 = m_observation_cursors m ∧
    manager_wf m1 ∧ delivered o s s'.
Proof.
  intros Hwf Hs [b Hb]. pose proof Hs as Hs'. unfold session_at in Hs'.
  destruct (m_connections m !! cid) as [c|] eqn:Hcid; [|done]. simpl in Hs'.
  pose proof (manager_wf_session m cid c _ s Hwf Hcid Hs') as Hsw.
  pose proof (cursor_accepts_cases (ws_observation_cursor s) o) as Hcases. rewrite Hb in Hcases.
  unfold delivered. cbn [publish_loop]. rewrite Hcid, Hs', Hb. destruct b; destruct Hcases as [Hnew Hconf].
  - edestruct (apply_observation_run (oo_section_key o) _ o now (m_ids m) (cursor_wf _ s
      (Some (observation_cursor o)) Hsw)) as
      (s' & i' & evs & Hrun & Hwf' & Hsame & Hpol & Haud & Hcur & _ & Hrel & _).
    fold (observation_cursor o). rewrite Hrun. cbn [mbind option_bind].
    rewrite (bool_decide_eq_true_2 (_ ≠ [])) by done.
    eexists _, _, s', c. split; [reflexivity|]. split_and!; try done.
    by apply (reply_session_wf cid c (oo_section_key o) s s' at_ i' [] [] m).
  - rewrite (bool_decide_eq_true_2 (_ ≠ [])) by done.
    eexists _, _, s, c. split; [reflexivity|].
    assert (<[oo_section_key o := s]> (cc_watches c) = cc_watches c) as Hid by (by apply insert_id).
    split_and!; try done; [by rewrite Hid|].
    pose proof (reply_session_wf cid c (oo_section_key o) s s at_ (m_ids m) [] [] m Hwf Hcid Hs' Hsw)
      as Hwf'. unfold reply_session in Hwf'. simpl in Hwf'. by rewrite Hid in Hwf'.
Qed.

Lemma publish_check_cons cid cids o m s :
  session_at m cid (oo_section_key o) = Some s → publish_check (cid :: cids) o m = Ok () →
  (∃ b, cursor_accepts (ws_observation_cursor s) (os_get (oo_pull_sequence o)) (oo_observation_id o)
     = Ok b) ∧ publish_check cids o m = Ok ().
Proof.
  unfold session_at. intros Hs. simpl. rewrite Hs.
  destruct (cursor_accepts _ _ _) as [b|]; [|done]. simpl. eauto.
Qed.

(** The whole delivery loop: every listed connection, in order, gets one
    dispatch; nothing else changes. *)
Lemma publish_loop_run cids o now at_ ds m :
  manager_wf m → NoDup cids → publish_check cids o m = Ok () →
  (∀ cid, cid ∈ cids → is_Some (session_at m cid (oo_section_key o))) →
  ∃ m' ds', publish_loop cids o now at_ ds m = Some (m', Ok (ds ++ ds')) ∧ manager_wf m' ∧
    Forall2 (dispatch_of o at_) cids ds' ∧
    m_observation_cursors m' = m_observation_cursors m ∧
    m_connections_by_section m' = m_connections_by_section m ∧
    (∀ cid section, (cid ∉ cids) ∨ section ≠ oo_section_key o →
       session_at m' cid section = session_at m cid section) ∧
    (∀ cid, cid ∈ cids → ∃ s s', session_at m cid (oo_section_key o) = Some s ∧
       session_at m' cid (oo_section_key o) = Some s' ∧ delivered o s s').
Proof.
  revert ds m. induction cids as [|cid cids IH]; intros ds m Hwf Hnd Hcheck Hwatch.
  { exists m, []. rewrite app_nil_r. split_and!; try done. set_solver. }
  apply NoDup_cons in Hnd as [Hcid Hnd].
  destruct (Hwatch cid) as [s Hs]; [set_solver|].
  destruct (publish_check_cons cid cids o m s Hs Hcheck) as [Hb Hrest].
  destruct (publish_loop_step cid cids o now at_ ds m s Hwf Hs Hb) as
    (m1 & d & s' & c & -> & Hd & Hc & Hconn & Hidx & Hcur & Hwf1 & Hdel).
  assert (∀ cid' section, session_at m1 cid' section =
    if decide (cid' = cid ∧ section = oo_section_key o) then Some s' else session_at m cid' section)
    as Hat.
  { intros cid' section. unfold session_at at 1. rewrite Hconn.
    change (session_at (put_connection cid (cc_set_watches (<[oo_section_key o := s']> (cc_watches c)) c) m)
      cid' section = if decide (cid' = cid ∧ section = oo_section_key o) then Some s'
      else session_at m cid' section).
    rewrite session_at_put. unfold session_at. repeat case_decide; destruct_and?; subst; try tauto.
    - simpl. by rewrite lookup_insert_eq.
    - rewrite Hc. simpl. rewrite lookup_insert_ne; [done|]. naive_solver. }
  assert (∀ cid', cid' ∈ cids → ∀ section, session_at m1 cid' section = session_at m cid' section)
    as Hother.
  { intros cid' Hin section. rewrite Hat, decide_False; [done|]. intros [-> _]. done. }
  destruct (IH (ds ++ [d]) m1) as (m' & ds' & Hrun & Hwf' & Hds & Hcur' & Hidx' & Hsame & Hdel');
    [done|done| | |].
  { rewrite (publish_check_ext cids o m m1); [done|]. intros. by apply Hother. }
  { intros cid' Hin. rewrite Hother by done. apply Hwatch. set_solver. }
  exists m', (d :: ds'). rewrite Hrun, <-app_assoc. split; [done|]. split; [done|].
  split; [by constructor|]. split; [congruence|]. split; [congruence|]. split.
  - intros cid' section Hn. rewrite Hsame, Hat by set_solver. rewrite decide_False; [done|]. set_solver.
  - intros cid' [->|Hin]%elem_of_cons.
    + exists s, s'. split; [done|]. rewrite Hsame by (by left). rewrite Hat, decide_True by done. done.
    + rewrite <-Hother by done. by apply Hdel'.
Qed.

(** The connections an observation is delivered to. *)
Lemma index_watchers section m cid :
  manager_wf m →
  cid ∈ bts_iter (default ∅ (m_connections_by_section m !! section)) ↔ is_Some (session_at m cid section).
Proof.
  intros [_ _ [Hi _] _]. rewrite elem_of_bts_iter, Hi. unfold watches_section, session_at.
  destruct (m_connections m !! cid) as [c|]; simpl; [|split; [by intros (? & ? & _)|by intros []]].
  split; [by intros (? & [= <-] & ?)|eauto].
Qed.

(** The check of the watchers fails exactly for a conflict at one of them. *)
Lemma publish_check_cases cids o m :
  match publish_check cids o m with
  | Ok _ => ∀ cid s, cid ∈ cids → session_at m cid (oo_section_key o) = Some s →
      ¬ conflicts_with (ws_observation_cursor s) o
  | Err e => e = CoreManagerError_ObservationSequenceConflict ∧
      ∃ cid s, cid ∈ cids ∧ session_at m cid (oo_section_key o) = Some s ∧
        conflicts_with (ws_observation_cursor s) o
  end.
Proof.
  induction cids as [|cid cids IH]; [by intros ?? ?%elem_of_nil|]. cbn [publish_check].
  change (connection ← m_connections m !! cid; cc_watches connection !! oo_section_key o)
    with (session_at m cid (oo_section_key o)).
  destruct (session_at m cid (oo_section_key o)) as [s|] eqn:Hs.
  - pose proof (cursor_accepts_cases (ws_observation_cursor s) o) as Hc.
    destruct (cursor_accepts _ _ _) as [b|e]; cbn [mbind result_bind].
    + assert (¬ conflicts_with (ws_observation_cursor s) o) as Hno by (destruct b; by destruct Hc).
      destruct (publish_check cids o m); [|set_solver].
      intros cid' s' [->|Hin]%elem_of_cons Hs'; [by simplify_eq|by eapply IH].
    + destruct Hc as [-> Hc]. split; [done|]. exists cid, s. split_and!; [left|done|done].
  - destruct (publish_check cids o m); [|set_solver].
    intros cid' s' [->|Hin]%elem_of_cons Hs'; [by simplify_eq|by eapply IH].
Qed.

Lemma publish_check_unit cids o m r : publish_check cids o m = Ok r → publish_check cids o m = Ok ().
Proof. by destruct r. Qed.

Lemma record_published_lookup section cursor m :
  m_observation_cursors (record_published_observation section cursor m) !! section =
  Some {| wm_cursor := cursor; wm_published := true |}.
Proof.
  unfold record_published_observation.
  destruct (m_observation_cursors m !! section); apply lookup_insert_eq.
Qed.

Lemma session_at_same m m' cid section :
  m_connections m' = m_connections m → session_at m' cid section = session_at m cid section.
Proof. unfold session_at. by intros ->. Qed.

(** Whether the manager has not published the observation yet: the watermark
    of its section is older, or was seeded with exactly this observation. *)
Definition unpublished (o : OpenObservationV1) m : bool :=
  match m_observation_cursors m !! oo_section_key o with
  | None => true
  | Some w =>
      bool_decide (oc_pull_sequence (wm_cursor w) < os_get (oo_pull_sequence o))
      || bool_decide (oc_pull_sequence (wm_cursor w) = os_get (oo_pull_sequence o))
         && bool_decide (oc_observation_id (wm_cursor w) = oo_observation_id o)
         && negb (wm_published w)
  end.

(** The effect of a publication that is delivered. *)
Definition published_to_all (o : OpenObservationV1) m m' (ds : list CoreDispatch) : Prop :=
  let watchers := bts_iter (default ∅ (m_connections_by_section m !! oo_section_key o)) in
  (∃ at_, Forall2 (dispatch_of o at_) watchers ds) ∧
  m_observation_cursors m' !! oo_section_key o =
    Some {| wm_cursor := observation_cursor o; wm_published := true |} ∧
  m_connections_by_section m' = m_connections_by_section m ∧
  (∀ cid section, session_at m cid (oo_section_key o) = None ∨ section ≠ oo_section_key o →
     session_at m' cid section = session_at m cid section) ∧
  (∀ cid s, session_at m cid (oo_section_key o) = Some s →
     cid ∈ watchers ∧
     ∃ s', session_at m' cid (oo_section_key o) = Some s' ∧ delivered o s s').

Lemma publish_deliver o m :
  let section := oo_section_key o in
  let cids := bts_iter (default ∅ (m_connections_by_section m !! section)) in
  let m1 := record_published_observation section (observation_cursor o) m in
  manager_wf m → publish_check cids o m = Ok () →
  ∃ m' ds,
    (if bool_decide (cids = [])
     then Some (m1, Ok {| po_dispatches := []; po_replayed := false |})
     else
       let (now, m) := take_now m1 in
       let (at_, m) := take_wall_now m in
       '(m, r) ← publish_loop cids o now at_ [] m;
       Some (m, (dispatches ← r;
                 Ok {| po_dispatches := dispatches;
                       po_replayed := bool_decide (dispatches = []) |})))
    = Some (m', Ok {| po_dispatches := ds; po_replayed := false |}) ∧
    manager_wf m' ∧ published_to_all o m m' ds.
Proof.
  intros section cids m1 Hwf Hcheck.
  destruct (record_same section (observation_cursor o) m) as (Hconn & Hidx & _). fold m1 in Hconn, Hidx.
  pose proof (record_published_wf section (observation_cursor o) m Hwf) as Hwf1. fold m1 in Hwf1.
  pose proof (record_published_lookup section (observation_cursor o) m) as Hw. fold m1 in Hw.
  assert (∀ cid, cid ∈ cids ↔ is_Some (session_at m cid section)) as Hin
    by (intros; by apply index_watchers).
  case_bool_decide as Hempty.
  - exists m1, []. split; [done|]. split; [done|]. unfold published_to_all. fold section cids.
    rewrite Hempty in *. split; [by exists 0|]. split; [done|]. split; [done|]. split.
    + intros. by apply session_at_same.
    + intros cid s Hs. exfalso. apply (not_elem_of_nil cid), Hin. eauto.
  - unfold take_now, take_wall_now; cbn [fst snd].
    set (m2 := m_set_clock _ (m_set_clock _ m1)).
    assert (∀ cid sec, session_at m2 cid sec = session_at m cid sec) as Hat
      by (intros; by apply session_at_same).
    edestruct (publish_loop_run cids o (clock_now (m_clock m1)).1
      (clock_wall_now (m_clock (m_set_clock (clock_now (m_clock m1)).2 m1))).1 [] m2) as
      (m' & ds & Hrun & Hwf' & Hds & Hcur' & Hidx' & Hsame & Hdel);
      [exact Hwf1|apply NoDup_bts_iter|by rewrite (publish_check_ext cids o m m2)
      |intros cid; rewrite Hat; apply Hin|].
    rewrite Hrun. cbn [mbind option_bind app]. exists m', ds.
    assert (ds ≠ []) as Hne by (intros ->; by apply Forall2_nil_inv_r in Hds).
    split; [by destruct ds|]. split; [done|].
    unfold published_to_all. fold section cids. split; [by eexists|]. split; [by rewrite Hcur'|].
    split; [by rewrite Hidx'|]. split.
    + intros cid sec Hor. rewrite Hsame, Hat; [done|]. destruct Hor as [Hn|]; [left|by right].
      rewrite Hin, Hn. by intros [].
    + intros cid s Hs. assert (cid ∈ cids) as Hc by (apply Hin; eauto). split; [done|].
      destruct (Hdel cid Hc) as (s0 & s' & Hs0 & Hs' & Hd). rewrite Hat in Hs0.
      exists s'. split; [done|].
      assert (Some s = Some s0) as [= ->] by (etransitivity; [symmetry; exact Hs|exact Hs0]). done.
Qed.

(** The guards of [publish], with [unpublished]. *)
Lemma publish_guards o m :
  match cursor_accepts (wm_cursor <$> m_observation_cursors m !! oo_section_key o)
          (os_get (oo_pull_sequence o)) (oo_observation_id o) with
  | Err e => publish o m = Some (m, Err e)
  | Ok _ =>
      if unpublished o m then
        match publish_check (bts_iter (default ∅ (m_connections_by_section m !! oo_section_key o))) o m with
        | Err e => publish o m = Some (m, Err e)
        | Ok _ => manager_wf m →
            ∃ m' ds, publish o m = Some (m', Ok {| po_dispatches := ds; po_replayed := false |}) ∧
              manager_wf m' ∧ published_to_all o m m' ds
        end
      else publish o m = Some (m, Ok {| po_dispatches := []; po_replayed := true |})
  end.
Proof.
  unfold publish. destruct (cursor_accepts _ _ _) as [new|e] eqn:Ha; [|done].
  assert (negb new && negb
    (match m_observation_cursors m !! oo_section_key o with
     | Some w => negb (wm_published w)
         && bool_decide (oc_pull_sequence (wm_cursor w) = os_get (oo_pull_sequence o))
         && bool_decide (oc_observation_id (wm_cursor w) = oo_observation_id o)
     | None => false end) = negb (unpublished o m)) as Hguard.
  { unfold unpublished. destruct (m_observation_cursors m !! oo_section_key o) as [w|]; simpl in Ha.
    - unfold cursor_accepts in Ha. repeat case_bool_decide; simplify_eq/=; try lia; try done;
        by destruct (wm_published w).
    - injection Ha as <-. done. }
  rewrite Hguard. destruct (unpublished o m); [|done]. cbn [negb].
  destruct (publish_check _ o m) as [u|e] eqn:Hcheck; [|done].
  intros Hwf. apply (publish_deliver o m Hwf). by destruct u.
Qed.

Lemma publish_again o m :
  m_observation_cursors m !! oo_section_key o =
    Some {| wm_cursor := observation_cursor o; wm_published := true |} →
  publish o m = Some (m, Ok {| po_dispatches := []; po_replayed := true |}).
Proof.
  intros Hw. pose proof (publish_guards o m) as Hg. unfold unpublished in Hg. rewrite Hw in Hg.
  simpl in Hg. by rewrite !bool_decide_eq_false_2, !bool_decide_eq_true_2 in Hg by lia.
Qed.

(** The sequence number of the observation was seen under another identifier:
    at the watermark of its section or, when the watermark lets it through, at
    a watcher. *)
Definition publish_conflict (o : OpenObservationV1) m : Prop :=
  conflicts_with (wm_cursor <$> m_observation_cursors m !! oo_section_key o) o ∨
  (unpublished o m = true ∧ ∃ cid s, session_at m cid (oo_section_key o) = Some s ∧
     conflicts_with (ws_observation_cursor s) o).

(** C2. Publishing an observation is atomic and exactly once. It never panics
    and keeps the manager's invariant. A sequence number seen with another
    observation, at the section's watermark or at a watcher, is refused and
    nothing changes, and nothing else is refused. An observation that the
    watermark has already published, or that is older, is answered as a replay,
    with no dispatch and no change. Any other one reaches every connection that
    watches the section, in connection order, with one dispatch each that
    starts with the observation; the sessions it is newer for follow it and the
    others stay as they were; no other session changes; and publishing it again
    is a replay. *)
Theorem publish_spec (o : OpenObservationV1) m :
  manager_wf m →
  ∃ m' r, publish o m = Some (m', r) ∧ manager_wf m' ∧
  (publish_conflict o m → r = Err CoreManagerError_ObservationSequenceConflict ∧ m' = m) ∧
  (¬ publish_conflict o m → unpublished o m = false →
     r = Ok {| po_dispatches := []; po_replayed := true |} ∧ m' = m) ∧
  (¬ publish_conflict o m → unpublished o m = true →
     ∃ ds, r = Ok {| po_dispatches := ds; po_replayed := false |} ∧ published_to_all o m m' ds ∧
       publish o m' = Some (m', Ok {| po_dispatches := []; po_replayed := true |})).
Proof.
  intros Hwf. pose proof (publish_guards o m) as Hg. unfold publish_conflict.
  pose proof (cursor_accepts_cases (wm_cursor <$> m_observation_cursors m !! oo_section_key o) o) as Hc.
  destruct (cursor_accepts _ _ _) as [new|e]; cycle 1.
  { destruct Hc as [-> Hc]. exists m, (Err CoreManagerError_ObservationSequenceConflict). naive_solver. }
  assert (¬ conflicts_with (wm_cursor <$> m_observation_cursors m !! oo_section_key o) o) as Hno
    by (destruct new; by destruct Hc).
  destruct (unpublished o m); cycle 1.
  { exists m, (Ok {| po_dispatches := []; po_replayed := true |}). naive_solver. }
  pose proof (publish_check_cases (bts_iter (default ∅ (m_connections_by_section m !! oo_section_key o))) o m) as Hcheck.
  destruct (publish_check _ o m) as [u|e].
  - destruct (Hg Hwf) as (m' & ds & Hrun & Hwf' & Hall).
    exists m', (Ok {| po_dispatches := ds; po_replayed := false |}). split_and!; [done..| |done|].
    + intros [?|(_ & cid & s & Hs & Hconf)]; [done|]. exfalso. eapply Hcheck; [|exact Hs|exact Hconf].
      apply index_watchers; [done|by eexists].
    + intros _ _. exists ds. split_and!; [done..|]. apply publish_again, Hall.
  - destruct Hcheck as (-> & cid & s & _ & Hs & Hconf).
    exists m, (Err CoreManagerError_ObservationSequenceConflict). split_and!; [done..| |]; naive_solver.
Qed.

(** *** Cleanup *)

(** What an action says, its identifier aside. *)
Definition action_content (a : CoreAction) :=
  (ca_kind a, ca_section a, ca_watch_id a, ca_episode_id a).

(** The actions that end a session: its live episode closes, the watch stops. *)
Definition cleanup_content (kv : SectionKey * CoreWatchSession) :=
  let s := kv.2 in
  match ws_episode s with
  | Some e =>
      if bool_decide (ep_state e = CoreEpisodeState_Closed) then []
      else [(CoreActionKind_EpisodeClosed, Some kv.1, Some (ws_id s), Some (ep_id e))]
  | None => []
  end ++ [(CoreActionKind_WatchStopped, Some kv.1, Some (ws_id s), ep_id <$> ws_episode s)].

(** The parts of the manager that only the index operations touch not. *)
Definition same_but_index m m' : Prop :=
  m_connections m' = m_connections m ∧
  m_observation_cursors m' = m_observation_cursors m ∧
  m_observation_cursor_order m' = m_observation_cursor_order m ∧
  m_max_active_watches m' = m_max_active_watches m ∧
  m_heartbeat_timeout m' = m_heartbeat_timeout m ∧ m_clock m' = m_clock m.

Lemma cleanup_loop_run cid reason at_ sessions actions m :
  (∀ sec cids, m_connections_by_section m !! sec = Some cids → cids ≠ ∅) →
  ∃ acts m', cleanup_loop cid reason at_ sessions actions m = (actions ++ acts, m') ∧
    action_content <$> acts = mjoin (cleanup_content <$> sessions) ∧
    same_but_index m m' ∧
    (∀ sec cids, m_connections_by_section m' !! sec = Some cids → cids ≠ ∅) ∧
    ∀ sec cid', cid' ∈ default ∅ (m_connections_by_section m' !! sec) ↔
      cid' ∈ default ∅ (m_connections_by_section m !! sec) ∧ ¬ (cid' = cid ∧ sec ∈ sessions.*1).
Proof.
  revert actions m. induction sessions as [|[section s] sessions IH]; intros actions m Hne.
  { exists [], m. rewrite app_nil_r. split_and!; try done. simpl. set_solver. }
  assert (∃ acts m1, cleanup_loop cid reason at_ ((section, s) :: sessions) actions m =
      cleanup_loop cid reason at_ sessions (actions ++ acts) (unlink cid section m1) ∧
    action_content <$> acts = cleanup_content (section, s) ∧ same_but_index m m1 ∧
    m_connections_by_section m1 = m_connections_by_section m)
    as (acts & m1 & -> & Hacts & Hsame1 & Hidx1).
  { cbn [cleanup_loop]. unfold cleanup_content; cbn [fst snd].
    destruct (ws_episode s) as [e|]; [|by eexists _, _; split_and!].
    destruct (decide (ep_state e = CoreEpisodeState_Closed)) as [Hst|Hst].
    - rewrite (bool_decide_eq_false_2 (_ ≠ _)), (bool_decide_eq_true_2 (_ = _)) by (done || by intros ?).
      by eexists _, _; split_and!.
    - rewrite (bool_decide_eq_true_2 (_ ≠ _)), (bool_decide_eq_false_2 (_ = _)) by done.
      eexists _, _. split; [by rewrite <-app_assoc|]. by split_and!. }
  destruct (unlink_same cid section m1) as (H1 & H2 & H3 & H4 & H5 & H6 & _).
  destruct (IH (actions ++ acts) (unlink cid section m1)) as
    (acts' & m' & -> & Hacts' & Hsame & Hne' & Hidx').
  { apply unlink_nonempty. by rewrite Hidx1. }
  exists (acts ++ acts'), m'. rewrite app_assoc. split; [done|].
  split; [by rewrite fmap_app, Hacts, Hacts'|]. split.
  { unfold same_but_index in *. destruct_and!. split_and!; congruence. }
  split; [done|]. intros sec cid'. rewrite Hidx', unlink_lookup, Hidx1. cbn [fmap list_fmap].
  rewrite elem_of_cons. cbn [fst]. destruct (decide (sec = section)) as [->|Hn].
  - rewrite elem_of_difference, elem_of_singleton. tauto.
  - tauto.
Qed.

Lemma cleanup_run cid reason m c :
  manager_wf m → m_connections m !! cid = Some c →
  ∃ m' report, cleanup cid reason m = (m', Ok report) ∧ manager_wf m' ∧
    m_connections m' = delete cid (m_connections m) ∧
    m_observation_cursors m' = m_observation_cursors m ∧
    m_heartbeat_timeout m' = m_heartbeat_timeout m ∧
    m_max_active_watches m' = m_max_active_watches m ∧
    cr_connection_id report = cid ∧ cr_reason report = reason ∧
    cr_sections report = btm_keys (cc_watches c) ∧
    action_content <$> cr_actions report = mjoin (cleanup_content <$> btm_iter (cc_watches c)).
Proof.
  intros [Hmax Hc [Hi Hne] Hw] Hcid. unfold cleanup, take_wall_now; cbn [fst snd].
  change (m_connections (m_set_clock _ m)) with (m_connections m). rewrite Hcid.
  destruct (cleanup_loop_run cid reason (clock_wall_now (m_clock m)).1 (btm_iter (cc_watches c)) []
    (remove_connection cid (m_set_clock (clock_wall_now (m_clock m)).2 m)) Hne)
    as (acts & m' & -> & Hacts & (H1 & H2 & H3 & H4 & H5 & _) & Hne' & Hidx).
  simpl in *. eexists _, _. split; [reflexivity|]. split_and!; try done. split.
  - by rewrite H4.
  - intros cid' c'. rewrite H1, H4. intros [_ Hc']%lookup_delete_Some. by eapply Hc.
  - split; [|done]. intros sec cid'. rewrite Hidx, Hi, H1, watches_section_delete, btm_iter_keys,
      elem_of_btm_keys. unfold watches_section.
    destruct (decide (cid' = cid)) as [->|Hn]; [rewrite Hcid|]; naive_solver.
  - by rewrite H2, H3.
Qed.

Lemma cleanup_unknown cid reason m :
  m_connections m !! cid = None →
  cleanup cid reason m = (m_set_clock (clock_wall_now (m_clock m)).2 m, Err CoreManagerError_UnknownConnection).
Proof. intros Hcid. unfold cleanup, take_wall_now; simpl. by rewrite Hcid. Qed.

Lemma cleanup_wf cid reason m : manager_wf m → manager_wf (cleanup cid reason m).1.
Proof.
  intros Hwf. destruct (m_connections m !! cid) as [c|] eqn:Hcid.
  - by destruct (cleanup_run cid reason m c Hwf Hcid) as (m' & report & -> & Hwf' & _).
  - by rewrite (cleanup_unknown cid reason m Hcid).
Qed.

(** Cleaning up known, distinct connections: each is reported, in order. *)
Lemma cleanup_all_run cids reason reports m :
  manager_wf m → NoDup cids → (∀ cid, cid ∈ cids → is_Some (m_connections m !! cid)) →
  ∃ new m', cleanup_all cids reason reports m = (reports ++ new, m') ∧ manager_wf m' ∧
    cr_connection_id <$> new = cids ∧
    (∀ cid, m_connections m' !! cid = if decide (cid ∈ cids) then None else m_connections m !! cid) ∧
    m_heartbeat_timeout m' = m_heartbeat_timeout m.
Proof.
  revert reports m. induction cids as [|cid cids IH]; intros reports m Hwf Hnd Hin.
  { exists [], m. rewrite app_nil_r. split_and!; try done.  }
  apply NoDup_cons in Hnd as [Hcid Hnd]. destruct (Hin cid) as [c Hc]; [set_solver|].
  destruct (cleanup_run cid reason m c Hwf Hc) as (m1 & report & Hrun & Hwf1 & Hconn & _ & Hhb & _ & Hid & _).
  simpl. rewrite Hrun. destruct (IH (reports ++ [report]) m1) as (new & m' & -> & Hwf' & Hids & Hlook & Hhb');
    [done|done| |].
  { intros cid' Hin'. rewrite Hconn, lookup_delete_ne by (by intros ->). apply Hin. set_solver. }
  exists (report :: new), m'. rewrite <-app_assoc. split; [done|]. split; [done|].
  split; [by rewrite fmap_cons, Hid, Hids|]. split; [|congruence].
  intros cid'. rewrite Hlook, Hconn. destruct (decide (cid' = cid)) as [->|Hn].
  - rewrite decide_False, decide_True, lookup_delete_eq by set_solver. done.
  - rewrite lookup_delete_ne by done. repeat case_decide; set_solver.
Qed.

Lemma index_empty m : manager_wf m → m_connections m = ∅ → m_connections_by_section m = ∅.
Proof.
  intros [_ _ [Hi Hne] _] Hempty. apply map_empty. intros section.
  destruct (m_connections_by_section m !! section) as [cids|] eqn:E; [|done]. exfalso.
  apply (Hne _ _ E). apply set_eq. intros cid. split; [|by intros ?%not_elem_of_empty].
  intros Hcid. specialize (Hi section cid). rewrite E in Hi. apply Hi in Hcid as (c & Hc & _).
  by rewrite Hempty, lookup_empty in Hc.
Qed.

Lemma process_stop_run m :
  manager_wf m →
  ∃ reports m', process_stop m = (reports, m') ∧ manager_wf m' ∧
    cr_connection_id <$> reports = btm_keys (m_connections m) ∧
    m_connections m' = ∅ ∧ m_connections_by_section m' = ∅.
Proof.
  intros Hwf. unfold process_stop.
  destruct (cleanup_all_run (btm_keys (m_connections m)) CoreCleanupReason_ProcessStopped [] m Hwf)
    as (reports & m' & -> & Hwf' & Hids & Hlook & _).
  { apply NoDup_btm_keys. }
  { intros cid. by rewrite elem_of_btm_keys. }
  assert (m_connections m' = ∅) as Hempty.
  { apply map_empty. intros cid. rewrite Hlook. case_decide as Hd; [done|].
    rewrite elem_of_btm_keys in Hd. by apply eq_None_not_Some. }
  exists reports, m'. split_and!; try done. by apply index_empty.
Qed.

(** Ending a connection forgets it entirely and disturbs no other: its
    report lists the sections it watched, with one stop action per watch and
    one closing action per live episode; its table entry and every index entry
    of it are gone, the other connections and the watermarks are untouched; an
    unknown connection changes nothing but the clock. Stopping the process
    leaves no connection and an empty index, with one report per connection. *)
Theorem cleanup_spec cid reason m :
  manager_wf m →
  match m_connections m !! cid with
  | None => (cleanup cid reason m).2 = Err CoreManagerError_UnknownConnection ∧
      m_connections (cleanup cid reason m).1 = m_connections m ∧
      m_connections_by_section (cleanup cid reason m).1 = m_connections_by_section m
  | Some c => ∃ m' report, cleanup cid reason m = (m', Ok report) ∧ manager_wf m' ∧
      m_connections m' = delete cid (m_connections m) ∧
      m_observation_cursors m' = m_observation_cursors m ∧
      (∀ section, cid ∉ default ∅ (m_connections_by_section m' !! section)) ∧
      cr_connection_id report = cid ∧ cr_reason report = reason ∧
      cr_sections report = btm_keys (cc_watches c) ∧
      action_content <$> cr_actions report = mjoin (cleanup_content <$> btm_iter (cc_watches c))
  end ∧
  ∃ reports m', process_stop m = (reports, m') ∧ m_connections m' = ∅ ∧
    m_connections_by_section m' = ∅ ∧
    cr_connection_id <$> reports = btm_keys (m_connections m).
Proof.
  intros Hwf. split; cycle 1.
  { destruct (process_stop_run m Hwf) as (reports & m' & ? & _ & ? & ? & ?). by exists reports, m'. }
  destruct (m_connections m !! cid) as [c|] eqn:Hcid.
  - destruct (cleanup_run cid reason m c Hwf Hcid) as
      (m' & report & Hrun & Hwf' & Hconn & Hcur & _ & _ & Hid & Hr & Hs & Ha).
    exists m', report. split_and!; try done. intros section.
    destruct Hwf' as [_ _ [Hi _] _]. rewrite Hi, Hconn, watches_section_delete. naive_solver.
  - by rewrite (cleanup_unknown cid reason m Hcid).
Qed.

(** *** The tick *)

Definition overdue (now : WatchInstant) s : bool :=
  match ws_episode s with
  | Some e =>
      bool_decide (cp_mode (ws_policy s) = CoreNotificationMode_Continuous)
      && bool_decide (ep_state e = CoreEpisodeState_Unacknowledged) && deadline_passed now e
  | None => false
  end.

Definition timed_out (now : WatchInstant) (at_ : OffsetDateTime) s : CoreWatchSession :=
  swept (deadline_passed now) (ep_time_out at_) s.

(** Timing out removes the overdue state. *)
Lemma timed_out_spec now at_ s :
  overdue now (timed_out now at_ s) = false ∧
  (overdue now s = false → timed_out now at_ s = s) ∧
  (overdue now s = true → ep_state <$> ws_episode (timed_out now at_ s) =
     Some CoreEpisodeState_TimedOut).
Proof.
  unfold timed_out, swept, overdue. destruct (ws_episode s) as [e|] eqn:He; [|by rewrite He].
  destruct (_ && _) eqn:Hg; simpl.
  - split_and!; [|done|done]. by rewrite andb_false_r.
  - rewrite He. by split_and!.
Qed.

Definition connections_after_tick (now : WatchInstant) (at_ : OffsetDateTime) (cids : list TraceId)
    m m' : Prop :=
  ∀ cid section, session_at m' cid section =
    if decide (cid ∈ cids) then timed_out now at_ <$> session_at m cid section
    else session_at m cid section.

Lemma tick_loop_run cids now at_ ds m :
  manager_wf m → NoDup cids →
  ∃ ds' m', tick_loop cids now at_ ds m = Some (ds', m') ∧ manager_wf m' ∧
    connections_after_tick now at_ cids m m' ∧
    (∀ cid, is_Some (m_connections m' !! cid) ↔ is_Some (m_connections m !! cid)) ∧
    (∀ cid, cc_last_touch <$> m_connections m' !! cid = cc_last_touch <$> m_connections m !! cid).
Proof.
  revert ds m. induction cids as [|cid cids IH]; intros ds m Hwf Hnd.
  { by exists ds, m; split_and!. }
  apply NoDup_cons in Hnd as [Hcid Hnd]. simpl.
  destruct (m_connections m !! cid) as [c|] eqn:Hc; cycle 1.
  { destruct (IH ds m Hwf Hnd) as (ds' & m' & Hrun & Hwf' & Hs & ? & ?). exists ds', m'.
    split_and!; try done. intros cid' section. rewrite Hs. destruct (decide (cid' = cid)) as [->|Hn].
    - rewrite decide_False, decide_True by set_solver. unfold session_at. by rewrite Hc.
    - repeat case_decide; set_solver. }
  destruct (sweep_episodes _ _ (cc_watches c)) as [[updates out] watches] eqn:E.
  destruct (push_actions_run CoreActionKind_EpisodeTimedOut out (m_ids m)) as (i' & evs & Hrun).
  rewrite Hrun. cbn [mbind option_bind].
  destruct (sweep_connection_wf (m_max_active_watches m) c (deadline_passed now) (ep_time_out at_) watches)
    as [Hc' Hkeys]; [by intros; apply ep_time_out_wf|by eapply manager_wf_connection|by rewrite E|].
  set (m1 := put_connection cid (cc_set_watches watches c) (m_set_ids i' m)).
  assert (manager_wf m1) as Hwf1.
  { eapply put_connection_wf; [exact Hwf|exact Hc|exact Hc'|exact Hkeys]. }
  set (ds1 := if bool_decide _ then _ else _).
  destruct (IH ds1 m1 Hwf1 Hnd) as (ds' & m' & Hrun' & Hwf' & Hs & Hdom & Htouch).
  exists ds', m'. split; [done|]. split; [done|].
  assert (∀ section, watches !! section = timed_out now at_ <$> cc_watches c !! section) as Hlook.
  { intros section. rewrite <-(sweep_lookup (deadline_passed now) (ep_time_out at_)). by rewrite E. }
  split; [|split].
  - intros cid' section. rewrite Hs. unfold m1. rewrite session_at_put.
    destruct (decide (cid' = cid)) as [->|Hn].
    + rewrite decide_False, decide_True by set_solver. simpl. rewrite Hlook. unfold session_at.
      by rewrite Hc.
    + repeat case_decide; set_solver.
  - intros cid'. rewrite Hdom. simpl. rewrite lookup_insert_is_Some'. split; [|by right].
    intros [<-|]; [by eexists|done].
  - intros cid'. rewrite Htouch. simpl. destruct (decide (cid' = cid)) as [->|Hn].
    + by rewrite lookup_insert_eq, Hc.
    + by rewrite lookup_insert_ne.
Qed.

(** The connections whose heartbeat has expired, in key order. *)
Definition expired_ids (now : WatchInstant) m : list TraceId :=
  (filter (λ kv, heartbeat_expired now kv.2 m) (btm_iter (m_connections m))).*1.

Lemma elem_of_expired_ids now m cid :
  cid ∈ expired_ids now m ↔
  ∃ c, m_connections m !! cid = Some c ∧ heartbeat_expired now c m = true.
Proof.
  unfold expired_ids. rewrite list_elem_of_fmap. split.
  - intros ([k c] & -> & [Hexp Hin]%list_elem_of_filter). exists c.
    split; [by apply elem_of_btm_iter|by apply Is_true_true].
  - intros (c & Hc & Hexp). exists (cid, c). split; [done|]. apply list_elem_of_filter.
    split; [by apply Is_true_true|by apply elem_of_btm_iter].
Qed.

Lemma NoDup_fst_filter {A B} (P : A * B → bool) (l : list (A * B)) :
  NoDup l.*1 → NoDup (filter (λ kv, P kv) l).*1.
Proof.
  induction l as [|[a b] l IH]; [done|]. rewrite fmap_cons, NoDup_cons, filter_cons.
  intros [Ha Hnd]. case_decide; [|by apply IH]. rewrite fmap_cons, NoDup_cons.
  split; [|by apply IH]. intros ((x & y) & Hx & Hin)%list_elem_of_fmap. apply Ha.
  apply list_elem_of_filter in Hin as [_ Hin]. apply list_elem_of_fmap. by exists (x, y).
Qed.

Lemma NoDup_expired_ids now m : NoDup (expired_ids now m).
Proof. apply NoDup_fst_filter. rewrite btm_iter_keys. apply NoDup_btm_keys. Qed.

(** The connections a tick keeps, with what it does to their sessions. *)
Definition ticked (now : WatchInstant) (at_ : OffsetDateTime) m cid section
    : option CoreWatchSession :=
  c ← m_connections m !! cid;
  if heartbeat_expired now c m then None else timed_out now at_ <$> cc_watches c !! section.

Lemma heartbeat_same now m m' c c' :
  m_heartbeat_timeout m' = m_heartbeat_timeout m → cc_last_touch c' = cc_last_touch c →
  heartbeat_expired now c' m' = heartbeat_expired now c m.
Proof. unfold heartbeat_expired. by intros -> ->. Qed.

Lemma tick_run m :
  manager_wf m →
  let now := (clock_now (m_clock m)).1 in
  ∃ at_ out m', tick m = Some (out, m') ∧ manager_wf m' ∧
    cr_connection_id <$> to_expired_connections out = expired_ids now m ∧
    (∀ cid section, session_at m' cid section = ticked now at_ m cid section) ∧
    (∀ cid c', m_connections m' !! cid = Some c' → ∃ c, m_connections m !! cid = Some c ∧
       heartbeat_expired now c m = false ∧ cc_last_touch c' = cc_last_touch c) ∧
    (∀ cid c, m_connections m !! cid = Some c → heartbeat_expired now c m = false →
       is_Some (m_connections m' !! cid)).
Proof.
  intros Hwf now. unfold tick, take_now, take_wall_now; cbn [fst snd]. fold now.
  set (m1 := m_set_clock _ _). set (at_ := (clock_wall_now _).1).
  change (_.*1) with (expired_ids now m).
  destruct (cleanup_all_run (expired_ids now m) CoreCleanupReason_HeartbeatExpired [] m1 Hwf)
    as (reports & m2 & -> & Hwf2 & Hids & Hlook & Hhb).
  { apply NoDup_expired_ids. }
  { intros cid (c & Hc & _)%elem_of_expired_ids. by exists c. }
  destruct (tick_loop_run (btm_keys (m_connections m2)) now at_ [] m2 Hwf2 (NoDup_btm_keys _))
    as (ds & m3 & -> & Hwf3 & Hses & Hdom & Htouch).
  cbn [mbind option_bind]. eexists at_, _, m3. split; [reflexivity|]. split; [done|].
  split; [done|].
  assert (∀ cid, m_connections m2 !! cid = (c ← m_connections m !! cid;
    if heartbeat_expired now c m then None else Some c)) as Hm2.
  { intros cid. rewrite Hlook. destruct (m_connections m !! cid) as [c|] eqn:Hc; simpl.
    - destruct (heartbeat_expired now c m) eqn:Hexp.
      + rewrite decide_True; [done|]. apply elem_of_expired_ids. eauto.
      + rewrite decide_False; [done|]. intros (c0 & Hc0 & He)%elem_of_expired_ids. congruence.
    - case_decide; done. }
  split; [|split].
  - intros cid section. rewrite Hses. unfold ticked, session_at. rewrite Hm2.
    destruct (m_connections m !! cid) as [c|] eqn:Hc; simpl; [|by case_decide].
    specialize (Hm2 cid). rewrite Hc in Hm2. simpl in Hm2.
    destruct (heartbeat_expired now c m); simpl; [by case_decide|].
    rewrite decide_True; [done|]. apply elem_of_btm_keys. by eexists.
  - intros cid c' Hc'. destruct (proj1 (Hdom cid)) as [c Hc]; [by eexists|]. specialize (Htouch cid).
    rewrite Hc', Hc in Htouch. simpl in Htouch. rewrite Hm2 in Hc.
    destruct (m_connections m !! cid) as [c0|]; [|done]. simpl in Hc.
    destruct (heartbeat_expired now c0 m) eqn:Hexp; [done|]. exists c0. split_and!; congruence.
  - intros cid c Hc Hexp. rewrite Hdom, Hm2, Hc. simpl. rewrite Hexp. by eexists.
Qed.

(** One tick settles everything that is due: it never panics and keeps the
    invariant; exactly the connections whose heartbeat has expired are cleaned
    up and reported, in key order; every other connection stays, its overdue
    continuous episodes time out and its other sessions are untouched; no
    expired connection and no overdue episode is left. *)
Theorem tick_spec m :
  manager_wf m →
  let now := (clock_now (m_clock m)).1 in
  ∃ at_ out m', tick m = Some (out, m') ∧ manager_wf m' ∧
    cr_connection_id <$> to_expired_connections out = expired_ids now m ∧
    (∀ cid section, session_at m' cid section = ticked now at_ m cid section) ∧
    (∀ cid c', m_connections m' !! cid = Some c' → ∃ c, m_connections m !! cid = Some c ∧
       heartbeat_expired now c m = false ∧ cc_last_touch c' = cc_last_touch c) ∧
    (∀ cid c, m_connections m !! cid = Some c → heartbeat_expired now c m = false →
       is_Some (m_connections m' !! cid)) ∧
    (∀ cid section s, session_at m' cid section = Some s → overdue now s = false).
Proof.
  intros Hwf now. destruct (tick_run m Hwf) as (at_ & out & m' & Hrun & Hwf' & Hids & Hses & Hkept & Hstay).
  exists at_, out, m'. split_and!; try done. intros cid section s. rewrite Hses. unfold ticked.
  destruct (m_connections m !! cid) as [c|]; [|done]. simpl. case_match; [done|].
  intros (s0 & Hs0 & ->)%fmap_Some. by destruct (timed_out_spec now at_ s0).
Qed.

(** ** Reachable managers *)

Inductive watch_op :=
| OpConnect (cid : TraceId)
| OpTouch (cid : TraceId)
| OpStart (cid message : TraceId) (specs : list CoreStartSpec)
| OpStopWatch (cid wid : TraceId)
| OpPublish (o : OpenObservationV1)
| OpUpdatePolicy (cid wid : TraceId) (policy : CorePolicy)
| OpAcknowledge (cid eid : TraceId)
| OpAcknowledgeAll (cid : TraceId)
| OpResume (cid eid : TraceId)
| OpReset (cid wid : TraceId)
| OpReport (cid cue : TraceId) (outcome : CoreCueOutcome)
| OpDismiss (cid aid : TraceId)
| OpDisconnect (cid : TraceId)
| OpTick
| OpProcessStop.

(** The manager after an operation; [None] is a panic. *)
Definition run_op (op : watch_op) m : option (CoreWatchManager C I) :=
  match op with
  | OpConnect cid => Some (connect cid m).1
  | OpTouch cid => Some (touch cid m).1
  | OpStart cid message specs => fst <$> start cid message specs m
  | OpStopWatch cid wid => fst <$> stop_watch cid wid m
  | OpPublish o => fst <$> publish o m
  | OpUpdatePolicy cid wid policy => fst <$> update_policy cid wid policy m
  | OpAcknowledge cid eid => fst <$> acknowledge_episode cid eid m
  | OpAcknowledgeAll cid => fst <$> acknowledge_all cid m
  | OpResume cid eid => fst <$> resume_episode cid eid m
  | OpReset cid wid => fst <$> reset_audible_count cid wid m
  | OpReport cid cue outcome => fst <$> report_cue_outcome cid cue outcome m
  | OpDismiss cid aid => fst <$> dismiss_alert cid aid m
  | OpDisconnect cid => Some (disconnect cid m).1
  | OpTick => snd <$> tick m
  | OpProcessStop => Some (process_stop m).2
  end.

Lemma safe_fst {A} (o : option (CoreWatchManager C I * A)) :
  safe_run o → ∃ m', fst <$> o = Some m' ∧ manager_wf m'.
Proof. intros (m' & r & -> & Hwf). by exists m'. Qed.

Lemma connection_new_wf max now : 0 ≤ max → connection_wf max (CoreConnection_new now).
Proof.
  intros Hmax. split_and!; simpl.
  - intros section s. by rewrite lookup_empty.
  - by rewrite map_size_empty.
  - split_and!; [apply NoDup_nil_2|simpl; lia|]. intros k. rewrite lookup_empty.
    split; [by intros ?%elem_of_nil|by intros []].
Qed.

Lemma connect_wf cid m : manager_wf m → manager_wf (connect cid m).1.
Proof.
  intros Hwf. unfold connect, take_now. case_bool_decide as Hc; [done|]. simpl.
  apply (put_new_connection_wf cid _ (m_set_clock (clock_now (m_clock m)).2 m));
    [exact Hwf|by apply eq_None_not_Some| |done].
  apply connection_new_wf. simpl. destruct Hwf. lia.
Qed.

Lemma touch_wf cid m : manager_wf m → manager_wf (touch cid m).1.
Proof.
  intros Hwf. unfold touch, take_now; cbn [fst snd m_connections m_set_clock].
  destruct (m_connections m !! cid) as [c|] eqn:Hc; [|done]. cbn [fst].
  eapply put_connection_wf; [exact Hwf|exact Hc| |done]. by eapply manager_wf_connection in Hc.
Qed.

Lemma run_op_safe op m : manager_wf m → ∃ m', run_op op m = Some m' ∧ manager_wf m'.
Proof.
  intros Hwf. destruct op; simpl.
  - eexists. split; [done|]. by apply connect_wf.
  - eexists. split; [done|]. by apply touch_wf.
  - destruct (start_run cid message specs m Hwf) as (m' & r & -> & ? & _). by exists m'.
  - by apply safe_fst, stop_watch_safe.
  - apply safe_fst. pose proof (publish_guards o m) as Hg.
    destruct (cursor_accepts _ _ _); [|by exists m, (Err e)].
    destruct (unpublished o m); [|by eexists m, _].
    destruct (publish_check _ _ _); [|by exists m, (Err e)].
    destruct (Hg Hwf) as (m' & ds & -> & ? & _). by eexists m', _.
  - by apply safe_fst, update_policy_safe.
  - by apply safe_fst, acknowledge_episode_safe.
  - by apply safe_fst, acknowledge_all_safe.
  - by apply safe_fst, resume_episode_safe.
  - by apply safe_fst, reset_audible_count_safe.
  - by apply safe_fst, report_cue_outcome_safe.
  - by apply safe_fst, dismiss_alert_safe.
  - eexists. split; [done|]. by apply cleanup_wf.
  - destruct (tick_run m Hwf) as (at_ & out & m' & -> & ? & _). by exists m'.
  - destruct (process_stop_run m Hwf) as (reports & m' & -> & ? & _). by exists m'.
Qed.

(** The managers a constructor builds and operations lead to. *)
Inductive manager_reachable : CoreWatchManager C I → Prop :=
| reachable_new clock ids timeout max m :
    1 ≤ max ≤ u8_max → try_new_with_max_active_watches clock ids timeout max = Ok m →
    manager_reachable m
| reachable_op op m m' : manager_reachable m → run_op op m = Some m' → manager_reachable m'.

Lemma manager_new_wf clock ids timeout max m :
  1 ≤ max ≤ u8_max → try_new_with_max_active_watches clock ids timeout max = Ok m → manager_wf m.
Proof.
  intros Hmax. unfold try_new_with_max_active_watches. case_bool_decide; [done|]. intros [= <-].
  split; simpl; [done| | |].
  - intros cid c. by rewrite lookup_empty.
  - split; [|intros section cids; by rewrite lookup_empty]. intros section cid.
    rewrite lookup_empty. simpl. split; [by intros ?%not_elem_of_empty|].
    intros (c & Hc & _). by rewrite lookup_empty in Hc.
  - split_and!; [apply NoDup_nil_2|simpl; lia|]. intros k. rewrite lookup_empty.
    split; [by intros ?%elem_of_nil|by intros []].
Qed.

Lemma set_clock_wf clock m : manager_wf m → manager_wf (m_set_clock clock m).
Proof. done. Qed.

Lemma manager_reachable_inv m : manager_reachable m → manager_wf m.
Proof.
  induction 1 as [clock ids timeout max m Hmax Hnew|op m m' Hr IH Hrun].
  - by eapply manager_new_wf.
  - destruct (run_op_safe op m IH) as (m'' & Hrun' & Hwf). congruence.
Qed.

(** C37. The watch manager never panics and never loses its bookkeeping: in
    every state reached from a constructor with a limit in a byte, by any
    sequence of operations, every operation returns; the index lists for each
    section exactly the connections that watch it and no empty set; every
    session has its invariant (its episode agrees with it, it is live exactly
    while the section is reliably open, a deadline belongs to an
    unacknowledged continuous episode); no connection exceeds the watch limit;
    the replay and watermark windows hold distinct keys within their bounds. *)
Theorem manager_reachable_wf m :
  manager_reachable m → manager_wf m ∧ ∀ op, ∃ m', run_op op m = Some m' ∧ manager_reachable m'.
Proof.
  intros Hr. pose proof (manager_reachable_inv m Hr) as Hwf.
  split; [done|]. intros op. destruct (run_op_safe op m Hwf) as (m' & Hrun & _).
  exists m'. split; [done|]. by eapply reachable_op.
Qed.

End manager.

(** ** A concrete manager *)

(** A clock that reads one instant for monotonic and wall time. *)
#[export] Instance fixed_clock : WatchClock Z :=
  {| clock_now c := (c, c); clock_wall_now c := (c, c) |}.

Abbreviation ExampleManager := (CoreWatchManager Z N) (only parsing).

(** Connections 1 and 2, a heartbeat timeout of 30 seconds, three watches. *)
Definition example_new : ExampleManager :=
  Build_CoreWatchManager 1000 100%N (duration_from_secs 30) 3 ∅ ∅ ∅ [].

Definition example_policy : CorePolicy := {|
  cp_mode := CoreNotificationMode_Continuous;
  cp_max_audible := 3;
  cp_continuous_duration := CoreContinuousDuration_Finite 10
|}.

Definition example_start : list CoreStartSpec := [
  {| ss_section := example_key; ss_policy := example_policy;
     ss_admission := CoreStartAdmission_Admitted CoreInitialState_Closed None |}].

Fixpoint run_all (ops : list watch_op) (m : ExampleManager) : option ExampleManager :=
  match ops with
  | [] => Some m
  | op :: ops => m' ← run_op op m; run_all ops m'
  end.

Lemma run_all_reachable ops m m' :
  manager_reachable m → run_all ops m = Some m' → manager_reachable m'.
Proof.
  revert m. induction ops as [|op ops IH]; intros m Hm; simpl; [by intros [= <-]|].
  destruct (run_op op m) as [m1|] eqn:E; [|done]. apply IH. by eapply reachable_op.
Qed.

Lemma example_new_reachable : manager_reachable example_new.
Proof.
  apply (reachable_new 1000 100%N (duration_from_secs 30) 3); [unfold u8_max; lia|].
  vm_compute. reflexivity.
Qed.

(** Both connections watch the section; the second alerts on an OPEN edge. *)
Definition example_watch_ops : list watch_op := [
  OpConnect 1; OpConnect 2; OpStart 1 50 example_start; OpStart 2 51 example_start;
  OpPublish (example_observation 1 OpenState_Open)].

Definition example_manager : ExampleManager := default example_new (run_all example_watch_ops example_new).

(** The same, eleven seconds later and with connection 1 silent. *)
Definition example_later : ExampleManager :=
  default example_new
    (run_all [OpTouch 2] (m_set_clock 25000 example_manager) ≫= λ m, Some (m_set_clock 31500 m)).

Lemma example_manager_reachable : manager_reachable example_manager.
Proof.
  unfold example_manager. destruct (run_all example_watch_ops example_new) as [m|] eqn:E.
  - eapply run_all_reachable; [exact example_new_reachable|exact E].
  - exact example_new_reachable.
Qed.

Lemma example_later_wf : manager_wf example_later.
Proof.
  pose proof (set_clock_wf 25000 _ (manager_reachable_inv _ example_manager_reachable)) as Hwf.
  destruct (run_op_safe (OpTouch 2) _ Hwf) as (m' & Hrun & Hwf').
  unfold example_later. cbn [run_all]. rewrite Hrun. by apply set_clock_wf.
Qed.

Example example_alerts :
  (λ s, ep_state <$> ws_episode s) <$> session_at example_manager 2 example_key
    = Some (Some CoreEpisodeState_Unacknowledged) ∧
  (λ s, ep_deadline <$> ws_episode s) <$> session_at example_manager 2 example_key
    = Some (Some (Some 11000)) ∧
  bts_iter (default ∅ (m_connections_by_section example_manager !! example_key)) = [1%N; 2%N].
Proof. vm_compute. split_and!; reflexivity. Qed.

Definition succeeds {M E A} (o : option (M * result E A)) : bool :=
  match o with Some (_, Ok _) => true | _ => false end.

Lemma publish_spec_witness :
  let o := example_observation 2 OpenState_Closed in
  manager_wf example_manager ∧
  ∃ m' out, publish o example_manager = Some (m', Ok out) ∧ manager_wf m' ∧
    published_to_all o example_manager m' (po_dispatches out) ∧
    length (po_dispatches out) = 2%nat ∧
    publish o m' = Some (m', Ok {| po_dispatches := []; po_replayed := true |}).
Proof.
  intros o. pose proof (manager_reachable_inv _ example_manager_reachable) as Hwf.
  split; [exact Hwf|].
  destruct (publish_spec o example_manager Hwf) as (m' & r & Hrun & Hwf' & Hconf & _ & Hr).
  assert (unpublished o example_manager = true) as Hu by (vm_compute; reflexivity).
  assert (¬ publish_conflict o example_manager) as Hno.
  { intros He%Hconf. destruct He as [-> _].
    assert (succeeds (publish o example_manager) = true) as Hok by (vm_compute; reflexivity).
    rewrite Hrun in Hok. discriminate. }
  destruct (Hr Hno Hu) as (ds & -> & Hall & Hagain). exists m', {| po_dispatches := ds; po_replayed := false |}.
  split; [exact Hrun|]. split; [exact Hwf'|]. split; [exact Hall|]. split; [|exact Hagain].
  cbn [po_dispatches]. destruct Hall as [[at_ Hds] _]. apply Forall2_length in Hds. rewrite <-Hds. vm_compute. reflexivity.
Defined.

Lemma start_idempotent_witness :
  manager_wf example_manager ∧
  ∃ m' outcome c', start 1 52 example_start example_manager = Some (m', Ok outcome) ∧
    manager_wf m' ∧ m_connections m' !! 1%N = Some c' ∧
    Z.of_nat (size (cc_watches c')) ≤ m_max_active_watches m' ∧
    others_untouched 1 example_manager m'.
Proof.
  pose proof (manager_reachable_inv _ example_manager_reachable) as Hwf. split; [exact Hwf|].
  destruct (start_idempotent 1 52 example_start example_manager Hwf) as
    (m' & r & Hrun & Hwf' & Hoth & Hr).
  destruct r as [outcome|e].
  - destruct Hr as (c' & Hc' & Hle & _). exists m', outcome, c'.
    split; [exact Hrun|]. split; [exact Hwf'|]. split; [exact Hc'|]. split; [exact Hle|exact Hoth].
  - exfalso. assert (succeeds (start 1 52 example_start example_manager) = true) as Hok
      by (vm_compute; reflexivity).
    rewrite Hrun in Hok. discriminate.
Defined.

Lemma cleanup_spec_witness :
  manager_wf example_manager ∧
  ∃ m' report, cleanup 1 CoreCleanupReason_ConnectionClosed example_manager = (m', Ok report) ∧
    m_connections m' = delete 1%N (m_connections example_manager) ∧
    cr_sections report = [example_key] ∧ length (cr_actions report) = 2%nat.
Proof.
  pose proof (manager_reachable_inv _ example_manager_reachable) as Hwf. split; [exact Hwf|].
  destruct (cleanup_spec 1 CoreCleanupReason_ConnectionClosed example_manager Hwf) as [Hspec _].
  destruct (m_connections example_manager !! 1%N) as [c|] eqn:Hc;
    [|exfalso; vm_compute in Hc; discriminate].
  destruct Hspec as (m' & report & Hrun & _ & Hconn & _ & _ & _ & _ & Hsec & Hacts).
  exists m', report. split; [exact Hrun|]. split; [exact Hconn|].
  vm_compute in Hc. injection Hc as <-. split; [rewrite Hsec; vm_compute; reflexivity|].
  rewrite <-(length_fmap action_content), Hacts. vm_compute. reflexivity.
Defined.

Lemma acknowledge_all_silences_witness :
  manager_wf example_manager ∧
  ∃ m' d c', acknowledge_all 2 example_manager = Some (m', Ok d) ∧
    m_connections m' !! 2%N = Some c' ∧ active_episode_ids (cc_watches c') = [] ∧
    last (cd_events d) = Some (CoreEvent_AudioDisposition
      (CoreAudioDisposition_ContinuousMixer false []
         (Some CoreMixerStopReason_NoUnacknowledgedEpisodes))).
Proof.
  pose proof (manager_reachable_inv _ example_manager_reachable) as Hwf. split; [exact Hwf|].
  assert (match m_connections example_manager !! 2%N with
          | Some c => negb (bool_decide (active_episode_ids (cc_watches c) = []))
          | None => false end = true) as Hact by (vm_compute; reflexivity).
  revert Hwf Hact. generalize example_manager. intros m Hwf Hact.
  pose proof (acknowledge_all_silences 2 m Hwf) as Hspec.
  destruct (m_connections m !! 2%N) as [c|]; [|discriminate].
  destruct Hspec as (at_ & m' & d & c' & Hrun & _ & _ & Hc' & _ & Hnil & Hlast).
  exists m', d, c'. split; [exact Hrun|]. split; [exact Hc'|]. split; [exact Hnil|]. apply Hlast.
  by apply negb_true_iff, bool_decide_eq_false in Hact.
Defined.

Lemma tick_spec_witness :
  manager_wf example_later ∧
  ∃ at_ out m', tick example_later = Some (out, m') ∧ manager_wf m' ∧
    cr_connection_id <$> to_expired_connections out = [1%N] ∧
    (λ s, ep_state <$> ws_episode s) <$> session_at m' 2 example_key
      = Some (Some CoreEpisodeState_TimedOut) ∧
    session_at m' 2 example_key = ticked 31500 at_ example_later 2 example_key.
Proof.
  split; [exact example_later_wf|].
  destruct (tick_spec example_later example_later_wf) as (at_ & out & m' & Hrun & Hwf' & Hids & Hses & _).
  exists at_, out, m'. split; [exact Hrun|]. split; [exact Hwf'|].
  split; [rewrite Hids; vm_compute; reflexivity|]. split; [|apply Hses].
  rewrite Hses. vm_compute. reflexivity.
Defined.

Lemma manager_reachable_wf_witness :
  manager_reachable example_manager ∧ manager_wf example_manager ∧
  ∃ m', run_op OpTick example_manager = Some m' ∧ manager_reachable m'.
Proof.
  split; [exact example_manager_reachable|].
  destruct (manager_reachable_wf example_manager example_manager_reachable) as [Hwf Hops].
  exact (conj Hwf (Hops OpTick)).
Defined.
