(* ===== verification/RateLimit.v ===== *)
(** * Issuance rate limiting (crates/bcsp-public-runtime/src/rate_limit.rs)

    The token buckets of the public service: one bucket per client key and one
    global bucket, with the staleness index that serves eviction and the
    incremental idle cleanup. An [Instant] is its number of nanoseconds. *)

From S2P Require Import Prelude.

(** ** Constants *)

Definition ISSUANCE_BURST_TOKENS : Z := 60.
Definition ISSUANCE_REFILL_TOKENS_PER_SECOND : Z := 2.
Definition GLOBAL_ISSUANCE_BURST_TOKENS : Z := 600.
Definition GLOBAL_ISSUANCE_REFILL_TOKENS_PER_SECOND : Z := 10.
Definition BUCKET_IDLE_EXPIRY : Z := duration_from_secs (10 * 60).
Definition MAX_TRACKED_CLIENTS : Z := 65536.
Definition SWEEP_BATCH : nat := 8.
Definition MILLI : Z := 1000.
Definition NANOS_PER_SECOND : Z := 1000000000.

(** ** Buckets *)

Abbreviation Instant := Z (only parsing).

(** [Instant::checked_duration_since]. *)
Definition checked_duration_since (now earlier : Instant) : option Z :=
  if bool_decide (earlier ≤ now) then Some (now - earlier) else None.

Definition u128_max : Z := 2 ^ 128 - 1.
Definition u128_saturating_add (a b : Z) : Z := Z.min (a + b) u128_max.
Definition u128_saturating_mul (a b : Z) : Z := Z.min (a * b) u128_max.

Record Bucket := {
  bk_milli_tokens : Z;
  bk_last_refill : Instant;
  bk_refill_residual : Z
}.

Definition Bucket_full (burst_milli : Z) (now : Instant) : Bucket :=
  {| bk_milli_tokens := burst_milli; bk_last_refill := now; bk_refill_residual := 0 |}.

Definition refill (now : Instant) (burst_milli refill_milli_per_second : Z) (b : Bucket) : Bucket :=
  match checked_duration_since now (bk_last_refill b) with
  | None => b
  | Some elapsed =>
      let numerator :=
        u128_saturating_add (u128_saturating_mul elapsed refill_milli_per_second)
          (bk_refill_residual b) in
      let credited := u64_try_from_or_max (numerator / NANOS_PER_SECOND) in
      let milli_tokens := Z.min (u64_saturating_add (bk_milli_tokens b) credited) burst_milli in
      {| bk_milli_tokens := milli_tokens;
         bk_last_refill := now;
         bk_refill_residual :=
           if bool_decide (milli_tokens = burst_milli) then 0 else numerator mod NANOS_PER_SECOND |}
  end.

Definition seconds_until_one_token (refill_milli_per_second : Z) (b : Bucket) : Z :=
  let deficit_milli := saturating_sub MILLI (bk_milli_tokens b) in
  let seconds := div_ceil deficit_milli (Z.max refill_milli_per_second 1) in
  Z.min (Z.max seconds 1) u32_max.

(** [milli_tokens -= MILLI], where the bucket holds that many. *)
Definition consume (b : Bucket) : Bucket :=
  {| bk_milli_tokens := bk_milli_tokens b - MILLI; bk_last_refill := bk_last_refill b;
     bk_refill_residual := bk_refill_residual b |}.

(** ** The limiter *)

Record LimiterState := {
  ls_buckets : gmap string Bucket;
  ls_by_staleness : gset (Instant * string);
  ls_global : Bucket
}.

Inductive RateDecision :=
| RateDecision_Allow
| RateDecision_Deny (retry_after_seconds : Z).

#[export] Instance RateDecision_eq_dec : EqDecision RateDecision.
Proof. solve_decision. Defined.

(** The limiter's parameters; its [Mutex] is passed on its own. *)
Record IssuanceRateLimiter := {
  rl_burst_milli_tokens : Z;
  rl_refill_milli_tokens_per_second : Z;
  rl_global_burst_milli_tokens : Z;
  rl_global_refill_milli_tokens_per_second : Z
}.

Inductive LimiterMutex :=
| LimiterMutex_Healthy (slot : option LimiterState)
| LimiterMutex_Poisoned.

Definition IssuanceRateLimiter_new (burst_tokens refill_tokens_per_second global_burst_tokens
    global_refill_tokens_per_second : Z) : IssuanceRateLimiter := {|
  rl_burst_milli_tokens := u64_wrapping_mul burst_tokens MILLI;
  rl_refill_milli_tokens_per_second := u64_wrapping_mul refill_tokens_per_second MILLI;
  rl_global_burst_milli_tokens := u64_wrapping_mul global_burst_tokens MILLI;
  rl_global_refill_milli_tokens_per_second := u64_wrapping_mul global_refill_tokens_per_second MILLI
|}.

Definition IssuanceRateLimiter_default : IssuanceRateLimiter :=
  IssuanceRateLimiter_new ISSUANCE_BURST_TOKENS ISSUANCE_REFILL_TOKENS_PER_SECOND
    GLOBAL_ISSUANCE_BURST_TOKENS GLOBAL_ISSUANCE_REFILL_TOKENS_PER_SECOND.

(** The front of the staleness index leaves with its bucket. *)
Definition forget (stale_at : Instant) (key : string) (s : LimiterState) : LimiterState := {|
  ls_buckets := delete key (ls_buckets s);
  ls_by_staleness := ls_by_staleness s ∖ {[ (stale_at, key) ]};
  ls_global := ls_global s
|}.

Fixpoint sweep (batch : nat) (now : Instant) (s : LimiterState) : LimiterState :=
  match batch with
  | O => s
  | S batch =>
      match head (bts_iter (ls_by_staleness s)) with
      | None => s
      | Some (stale_at, key) =>
          let expired :=
            match checked_duration_since now stale_at with
            | Some idle => bool_decide (BUCKET_IDLE_EXPIRY < idle)
            | None => false
            end in
          if expired then sweep batch now (forget stale_at key s) else s
      end
  end.

(** The bucket of the client, out of the index, and the state around it. *)
Definition take_bucket (l : IssuanceRateLimiter) (client_key : string) (now : Instant)
    (s : LimiterState) : Bucket * LimiterState :=
  match ls_buckets s !! client_key with
  | Some existing =>
      (refill now (rl_burst_milli_tokens l) (rl_refill_milli_tokens_per_second l) existing,
       {| ls_buckets := ls_buckets s;
          ls_by_staleness := ls_by_staleness s ∖ {[ (bk_last_refill existing, client_key) ]};
          ls_global := ls_global s |})
  | None =>
      (Bucket_full (rl_burst_milli_tokens l) now,
       if bool_decide (MAX_TRACKED_CLIENTS ≤ Z.of_nat (size (ls_buckets s)))
       then match head (bts_iter (ls_by_staleness s)) with
            | Some (stale_at, key) => forget stale_at key s
            | None => s
            end
       else s)
  end.

(** Both buckets pay for an admission; a denial names the longer wait. *)
Definition decide_issuance (l : IssuanceRateLimiter) (bucket global : Bucket)
    : Bucket * Bucket * RateDecision :=
  let client_has_token := bool_decide (MILLI ≤ bk_milli_tokens bucket) in
  let global_has_token := bool_decide (MILLI ≤ bk_milli_tokens global) in
  if client_has_token && global_has_token
  then (consume bucket, consume global, RateDecision_Allow)
  else
    let client_wait := if client_has_token then 0
      else seconds_until_one_token (rl_refill_milli_tokens_per_second l) bucket in
    let global_wait := if global_has_token then 0
      else seconds_until_one_token (rl_global_refill_milli_tokens_per_second l) global in
    (bucket, global, RateDecision_Deny (Z.max (Z.max client_wait global_wait) 1)).

(** [slot.get_or_insert_with]. *)
Definition limiter_state (l : IssuanceRateLimiter) (slot : option LimiterState) (now : Instant)
    : LimiterState :=
  default {| ls_buckets := ∅; ls_by_staleness := ∅;
             ls_global := Bucket_full (rl_global_burst_milli_tokens l) now |} slot.

Definition check_locked (l : IssuanceRateLimiter) (slot : option LimiterState)
    (client_key : string) (now : Instant) : LimiterState * RateDecision :=
  let s := sweep SWEEP_BATCH now (limiter_state l slot now) in
  let global := refill now (rl_global_burst_milli_tokens l)
                  (rl_global_refill_milli_tokens_per_second l) (ls_global s) in
  let (bucket, s) := take_bucket l client_key now s in
  let '(bucket, global, decision) := decide_issuance l bucket global in
  ({| ls_buckets := <[client_key := bucket]> (ls_buckets s);
      ls_by_staleness := {[ (bk_last_refill bucket, client_key) ]} ∪ ls_by_staleness s;
      ls_global := global |}, decision).

(** [now] is sampled under the lock; a poisoned limiter fails open. *)
Definition check (l : IssuanceRateLimiter) (mutex : LimiterMutex) (client_key : string)
    (now : Instant) : LimiterMutex * RateDecision :=
  match mutex with
  | LimiterMutex_Poisoned => (LimiterMutex_Poisoned, RateDecision_Allow)
  | LimiterMutex_Healthy slot =>
      let (s, decision) := check_locked l slot client_key now in
      (LimiterMutex_Healthy (Some s), decision)
  end.

(** * Correctness *)

(** ** Buckets *)

(** The credit of a bucket, in billionths of a milli-token. *)
Definition credit (b : Bucket) : Z := bk_milli_tokens b * NANOS_PER_SECOND + bk_refill_residual b.

Record bucket_wf (burst : Z) (b : Bucket) : Prop := {
  bw_tokens : 0 ≤ bk_milli_tokens b ≤ burst;
  bw_residual : 0 ≤ bk_refill_residual b < NANOS_PER_SECOND;
  bw_full : bk_milli_tokens b = burst → bk_refill_residual b = 0
}.

Lemma bucket_full_wf burst now : 0 ≤ burst → bucket_wf burst (Bucket_full burst now).
Proof. intros Hb. by split; simpl; unfold NANOS_PER_SECOND; try lia. Qed.

Lemma credit_bound burst b : bucket_wf burst b → 0 ≤ credit b ≤ burst * NANOS_PER_SECOND.
Proof.
  intros [Ht Hr Hf]. unfold credit, NANOS_PER_SECOND in *.
  destruct (decide (bk_milli_tokens b = burst)) as [E|]; [rewrite Hf by done|]; nia.
Qed.

(** A well-formed bucket is its credit. *)
Lemma credit_inj burst b b' :
  bucket_wf burst b → bucket_wf burst b' → credit b = credit b' →
  bk_last_refill b = bk_last_refill b' → b = b'.
Proof.
  intros [Ht Hr _] [Ht' Hr' _]. unfold credit, NANOS_PER_SECOND in *.
  destruct b, b'; simpl in *. intros. f_equal; lia.
Qed.

Lemma credit_token burst b :
  bucket_wf burst b → MILLI ≤ bk_milli_tokens b ↔ MILLI * NANOS_PER_SECOND ≤ credit b.
Proof. intros [Ht Hr _]. unfold credit, MILLI, NANOS_PER_SECOND in *. lia. Qed.

(** Refilling adds exactly the elapsed time's credit, up to a full bucket: no
    saturation of the arithmetic is ever visible. *)
Lemma refill_spec now burst rate b :
  bucket_wf burst b → burst ≤ u64_max → 0 ≤ rate → bk_last_refill b ≤ now →
  let b' := refill now burst rate b in
  bucket_wf burst b' ∧ bk_last_refill b' = now ∧
  credit b' = Z.min (burst * NANOS_PER_SECOND) (credit b + (now - bk_last_refill b) * rate).
Proof.
  intros [Ht Hr Hf] Hmax Hrate Hle. unfold refill, checked_duration_since.
  rewrite bool_decide_eq_true_2 by done. set (e := (now - bk_last_refill b) * rate).
  assert (0 ≤ e) by (subst e; nia).
  unfold u128_saturating_add, u128_saturating_mul. fold e.
  set (num := Z.min (Z.min e u128_max + bk_refill_residual b) u128_max).
  assert (num = e + bk_refill_residual b ∨
    (u128_max ≤ num ∧ num ≤ e + bk_refill_residual b)) as Hnum by (subst num; lia).
  assert (0 ≤ num) by (subst num; unfold u128_max; lia). clearbody num e.
  unfold u64_saturating_add, u64_try_from_or_max, credit, NANOS_PER_SECOND, u64_max, u128_max in *.
  pose proof (Z.div_mod num 1000000000 ltac:(lia)) as Hdiv.
  pose proof (Z.mod_pos_bound num 1000000000 ltac:(lia)) as Hmod.
  set (q := num / 1000000000) in *. set (r := num mod 1000000000) in *. clearbody q r.
  change (2 ^ 64) with 18446744073709551616 in *.
  change (2 ^ 128) with 340282366920938463463374607431768211456 in *.
  case_bool_decide as Hfull; simpl.
  - split; [split; simpl; try done; lia|]. split; [done|]. lia.
  - split; [split; simpl; try done; lia|]. split; [done|]. lia.
Qed.

(** A time sample that is out of order changes nothing. *)
Lemma refill_reversed now burst rate b : now < bk_last_refill b → refill now burst rate b = b.
Proof.
  intros Hlt. unfold refill, checked_duration_since. by rewrite bool_decide_eq_false_2 by lia.
Qed.

(** Two refills are one: no cadence of requests burns fractional credit. *)
Lemma refill_compose t1 t2 burst rate b :
  bucket_wf burst b → burst ≤ u64_max → 0 ≤ rate → bk_last_refill b ≤ t1 → t1 ≤ t2 →
  refill t2 burst rate (refill t1 burst rate b) = refill t2 burst rate b.
Proof.
  intros Hwf Hmax Hrate H1 H2.
  destruct (refill_spec t1 burst rate b Hwf Hmax Hrate H1) as (Hwf1 & Hl1 & Hc1).
  destruct (refill_spec t2 burst rate (refill t1 burst rate b) Hwf1 Hmax Hrate) as (Hwf2 & Hl2 & Hc2);
    [lia|].
  destruct (refill_spec t2 burst rate b Hwf Hmax Hrate) as (Hwf3 & Hl3 & Hc3); [lia|].
  apply (credit_inj burst); [done|done| |by rewrite Hl2, Hl3].
  rewrite Hc2, Hc3, Hc1, Hl1.
  pose proof (Z.mul_nonneg_nonneg (t1 - bk_last_refill b) rate).
  pose proof (Z.mul_nonneg_nonneg (t2 - t1) rate). lia.
Qed.

Lemma consume_wf burst b :
  bucket_wf burst b → MILLI ≤ bk_milli_tokens b →
  bucket_wf burst (consume b) ∧ credit (consume b) = credit b - MILLI * NANOS_PER_SECOND ∧
  bk_last_refill (consume b) = bk_last_refill b.
Proof.
  intros [Ht Hr Hf] Hm. unfold credit, consume, MILLI, NANOS_PER_SECOND in *; simpl.
  split; [split; simpl; unfold NANOS_PER_SECOND; lia|]. split; [lia|done].
Qed.

(** The announced wait is enough. *)
Lemma wait_is_enough now burst rate b w :
  bucket_wf burst b → burst ≤ u64_max → MILLI ≤ burst → 0 < rate → bk_last_refill b ≤ now →
  seconds_until_one_token rate b ≤ w →
  MILLI ≤ bk_milli_tokens (refill (now + duration_from_secs w) burst rate b).
Proof.
  intros Hwf Hmax Hburst Hrate Hle Hw.
  assert (saturating_sub MILLI (bk_milli_tokens b) ≤ w * rate ∧ 1 ≤ w) as [Hdef Hw1].
  { unfold seconds_until_one_token in Hw. rewrite (Z.max_l rate 1) in Hw by lia.
    assert (div_ceil (saturating_sub MILLI (bk_milli_tokens b)) rate ≤ MILLI) as Hd.
    { apply div_ceil_le; [done|]. destruct Hwf as [Ht _ _]. unfold saturating_sub, MILLI in *. nia. }
    unfold MILLI, u32_max in *. change (2 ^ 32) with 4294967296 in Hw.
    split; [|lia]. apply div_ceil_le; [done|]. lia. }
  assert (bk_last_refill b ≤ now + duration_from_secs w) as Hle'.
  { unfold duration_from_secs, NANOS_PER_SEC. lia. }
  destruct (refill_spec _ burst rate b Hwf Hmax ltac:(lia) Hle') as (Hwf' & _ & Hc).
  apply (credit_token burst); [done|]. rewrite Hc.
  destruct Hwf as [Ht Hr _]. unfold credit, saturating_sub, duration_from_secs, NANOS_PER_SEC,
    NANOS_PER_SECOND, MILLI in *.
  pose proof (Z.mul_nonneg_nonneg (now - bk_last_refill b) rate). nia.
Qed.

Lemma more_time_more_tokens t1 t2 burst rate b :
  bucket_wf burst b → burst ≤ u64_max → 0 ≤ rate → bk_last_refill b ≤ t1 → t1 ≤ t2 →
  MILLI ≤ bk_milli_tokens (refill t1 burst rate b) →
  MILLI ≤ bk_milli_tokens (refill t2 burst rate b).
Proof.
  intros Hwf Hmax Hrate H1 H2.
  destruct (refill_spec t1 burst rate b Hwf Hmax Hrate H1) as (Hwf1 & _ & Hc1).
  destruct (refill_spec t2 burst rate b Hwf Hmax Hrate) as (Hwf2 & _ & Hc2); [lia|].
  rewrite (credit_token burst _ Hwf1), (credit_token burst _ Hwf2), Hc1, Hc2. nia.
Qed.

(** ** The state *)

Record limiter_wf (l : IssuanceRateLimiter) : Prop := {
  lw_burst : MILLI ≤ rl_burst_milli_tokens l ≤ u64_max;
  lw_rate : 0 < rl_refill_milli_tokens_per_second l;
  lw_global_burst : MILLI ≤ rl_global_burst_milli_tokens l ≤ u64_max;
  lw_global_rate : 0 < rl_global_refill_milli_tokens_per_second l
}.

Lemma default_limiter_wf : limiter_wf IssuanceRateLimiter_default.
Proof. split; vm_compute; split; discriminate || reflexivity. Qed.

(** The index holds exactly one entry per bucket, at its time. *)
Definition index_exact (s : LimiterState) : Prop :=
  ∀ t key, (t, key) ∈ ls_by_staleness s ↔
    ∃ b, ls_buckets s !! key = Some b ∧ bk_last_refill b = t.

Record state_wf (l : IssuanceRateLimiter) (s : LimiterState) : Prop := {
  st_index : index_exact s;
  st_size : Z.of_nat (size (ls_buckets s)) ≤ MAX_TRACKED_CLIENTS;
  st_buckets : ∀ key b, ls_buckets s !! key = Some b → bucket_wf (rl_burst_milli_tokens l) b;
  st_global : bucket_wf (rl_global_burst_milli_tokens l) (ls_global s)
}.

Section limiter.
Context (l : IssuanceRateLimiter) (Hl : limiter_wf l).
Implicit Types (s : LimiterState) (key : string) (now : Instant).

Lemma limiter_state_wf now : state_wf l (limiter_state l None now).
Proof.
  destruct Hl as [_ _ Hg _]. unfold MILLI in Hg. split; simpl.
  - intros t key. simpl. split; [by intros ?%not_elem_of_empty|]. intros (b & Hb & _).
    by rewrite lookup_empty in Hb.
  - rewrite map_size_empty. unfold MAX_TRACKED_CLIENTS. lia.
  - intros key b. by rewrite lookup_empty.
  - apply bucket_full_wf. lia.
Qed.

Lemma stalest_lookup s t key :
  state_wf l s → head (bts_iter (ls_by_staleness s)) = Some (t, key) →
  ∃ b, ls_buckets s !! key = Some b ∧ bk_last_refill b = t.
Proof.
  intros Hwf Hh%head_Some_elem_of. apply elem_of_bts_iter in Hh. by apply Hwf.
Qed.

Lemma forget_wf s t key :
  state_wf l s → (t, key) ∈ ls_by_staleness s → state_wf l (forget t key s).
Proof.
  intros [Hi Hs Hb Hg] Hin. split; simpl; [| | |done].
  - intros t' key'. apply Hi in Hin as (b & Hb0 & Ht). simpl.
    rewrite elem_of_difference, elem_of_singleton, (Hi t' key').
    setoid_rewrite lookup_delete_Some. split.
    + intros [(b' & Hb' & Ht') Hne]. exists b'. split_and!; [|done|done]. intros ->.
      apply Hne. congruence.
    + intros (b' & [Hne Hb'] & Ht'). split; [eauto|]. congruence.
  - pose proof (map_subseteq_size _ _ (delete_subseteq (ls_buckets s) key)). lia.
  - intros key' b [_ ?]%lookup_delete_Some. by eapply Hb.
Qed.

(** What sweeping and evicting keep: the global bucket, and the buckets that
    are left; [P] says which may go. *)
Definition shrunk (P : Bucket → Prop) s s' : Prop :=
  ls_global s' = ls_global s ∧
  (∀ key b, ls_buckets s' !! key = Some b → ls_buckets s !! key = Some b) ∧
  (∀ key b, ls_buckets s !! key = Some b → ls_buckets s' !! key = Some b ∨
     (ls_buckets s' !! key = None ∧ P b)).

Lemma forget_shrunk (P : Bucket → Prop) s t key b :
  ls_buckets s !! key = Some b → P b → shrunk P s (forget t key s).
Proof.
  intros Hb HP. split_and!; [done| |]; simpl; intros key' b'.
  - by intros [_ ?]%lookup_delete_Some.
  - intros Hb'. destruct (decide (key' = key)) as [->|Hne].
    + right. rewrite lookup_delete_eq. by simplify_eq.
    + left. by rewrite lookup_delete_ne.
Qed.

Lemma shrunk_refl P s : shrunk P s s.
Proof. split_and!; auto. Qed.

Lemma shrunk_trans P s1 s2 s3 : shrunk P s1 s2 → shrunk P s2 s3 → shrunk P s1 s3.
Proof.
  intros (Hg & Hb & Hk) (Hg' & Hb' & Hk'). split_and!; [congruence|naive_solver|].
  intros key b Hs. destruct (Hk key b Hs) as [H2|[H2 HP]].
  - by apply Hk'.
  - right. split; [|done]. destruct (ls_buckets s3 !! key) as [b3|] eqn:E; [|done].
    apply Hb' in E. congruence.
Qed.

(** Sweeping forgets only buckets that have been idle for too long. *)
Definition idle_out now (b : Bucket) : Prop := BUCKET_IDLE_EXPIRY < now - bk_last_refill b.

Lemma sweep_spec n now s :
  state_wf l s → state_wf l (sweep n now s) ∧ shrunk (idle_out now) s (sweep n now s).
Proof.
  revert s. induction n as [|n IH]; intros s Hwf; [by split; [|apply shrunk_refl]|]. simpl.
  destruct (head _) as [[t key]|] eqn:Hh; [|by split; [|apply shrunk_refl]].
  destruct (stalest_lookup s t key Hwf Hh) as (b & Hb & Ht).
  unfold checked_duration_since. case_bool_decide; [|by split; [|apply shrunk_refl]].
  case_bool_decide; [|by split; [|apply shrunk_refl]].
  assert (state_wf l (forget t key s)) as Hwf'.
  { apply forget_wf; [done|]. apply Hwf. eauto. }
  destruct (IH _ Hwf') as [Hwf'' Hsh]. split; [done|].
  eapply shrunk_trans; [|exact Hsh]. eapply forget_shrunk; [done|]. unfold idle_out. by rewrite Ht.
Qed.

(** The bucket a request is judged by: the client's, refilled, or a full one. *)
Definition bucket_before (now : Instant) (o : option Bucket) : Bucket :=
  match o with
  | Some b => refill now (rl_burst_milli_tokens l) (rl_refill_milli_tokens_per_second l) b
  | None => Bucket_full (rl_burst_milli_tokens l) now
  end.

Lemma take_bucket_spec key now s :
  state_wf l s →
  let r := take_bucket l key now s in
  r.1 = bucket_before now (ls_buckets s !! key) ∧
  ls_global r.2 = ls_global s ∧
  (∀ key' b, ls_buckets r.2 !! key' = Some b → ls_buckets s !! key' = Some b) ∧
  (Z.of_nat (size (ls_buckets s)) < MAX_TRACKED_CLIENTS ∨ is_Some (ls_buckets s !! key) →
     ls_buckets r.2 = ls_buckets s) ∧
  Z.of_nat (size (<[key := r.1]> (ls_buckets r.2))) ≤ MAX_TRACKED_CLIENTS ∧
  (∀ t key', (t, key') ∈ ls_by_staleness r.2 ↔
     key' ≠ key ∧ ∃ b, ls_buckets r.2 !! key' = Some b ∧ bk_last_refill b = t).
Proof.
  intros Hwf. pose proof Hwf as [Hi Hs Hb Hg]. unfold take_bucket.
  destruct (ls_buckets s !! key) as [b|] eqn:Hk; simpl.
  - split_and!; try done.
    + by rewrite map_size_insert_Some by (by rewrite Hk).
    + intros t key'. rewrite elem_of_difference, elem_of_singleton, (Hi t key'). split.
      * intros [(b' & Hb' & Ht) Hne]. split; [|eauto]. intros ->. apply Hne. congruence.
      * intros [Hne ?]. split; [done|]. congruence.
  - case_bool_decide as Hfull; [destruct (head _) as [[t key']|] eqn:Hh|].
    + destruct (stalest_lookup s t key' Hwf Hh) as (b' & Hb' & Ht).
      assert (state_wf l (forget t key' s)) as Hwf' by (apply forget_wf; [done|]; apply Hi; eauto).
      assert (ls_buckets (forget t key' s) !! key = None) as Hnone.
      { simpl. rewrite lookup_delete_None. by right. }
      split_and!; try done.
      * intros k b. simpl. by intros [_ ?]%lookup_delete_Some.
      * intros [?|[? ?]]; [lia|done].
      * rewrite map_size_insert_None by exact Hnone. simpl.
        rewrite map_size_delete_Some by (by rewrite Hb').
        assert (size (ls_buckets s) ≠ 0%nat) by (intros E; apply map_size_empty_inv in E;
          rewrite E, lookup_empty in Hb'; done). lia.
      * intros t0 key0. rewrite (st_index l _ Hwf' t0 key0). split; [|naive_solver].
        intros (b0 & Hb0 & ?). split; [|eauto]. intros ->. congruence.
    + exfalso. assert (ls_buckets s = ∅) as Hempty; [|rewrite Hempty, map_size_empty in Hfull;
        unfold MAX_TRACKED_CLIENTS in Hfull; lia].
      apply map_empty. intros k. destruct (ls_buckets s !! k) as [b|] eqn:E; [|done]. exfalso.
      assert ((bk_last_refill b, k) ∈ ls_by_staleness s) as Hin by (apply Hi; eauto).
      apply elem_of_bts_iter in Hin. destruct (bts_iter _); [by apply elem_of_nil in Hin|done].
    + split_and!; try done.
      * rewrite map_size_insert_None by done. lia.
      * intros t0 key0. rewrite (Hi t0 key0). split; [|naive_solver].
        intros (b0 & Hb0 & ?). split; [|eauto]. intros ->. congruence.
Qed.

Lemma size_insert_same (m : gmap string Bucket) key b b' :
  size (<[key := b']> m) = size (<[key := b]> m).
Proof.
  rewrite <-!size_dom, !dom_insert_L. done.
Qed.

(** What a decision costs each bucket. *)
Definition cost (d : RateDecision) : Z :=
  match d with RateDecision_Allow => MILLI * NANOS_PER_SECOND | RateDecision_Deny _ => 0 end.

Definition pay (d : RateDecision) (b : Bucket) : Bucket :=
  match d with RateDecision_Allow => consume b | RateDecision_Deny _ => b end.

(** Admission is the existence of both tokens; a denial names a wait that
    covers every bucket without one. *)
Lemma decide_spec b g :
  let d := (decide_issuance l b g).2 in
  decide_issuance l b g = (pay d b, pay d g, d) ∧
  match d with
  | RateDecision_Allow => MILLI ≤ bk_milli_tokens b ∧ MILLI ≤ bk_milli_tokens g
  | RateDecision_Deny w => 1 ≤ w ∧ ¬ (MILLI ≤ bk_milli_tokens b ∧ MILLI ≤ bk_milli_tokens g) ∧
      (MILLI ≤ bk_milli_tokens b ∨
         seconds_until_one_token (rl_refill_milli_tokens_per_second l) b ≤ w) ∧
      (MILLI ≤ bk_milli_tokens g ∨
         seconds_until_one_token (rl_global_refill_milli_tokens_per_second l) g ≤ w)
  end.
Proof.
  unfold decide_issuance. do 2 case_bool_decide; simpl; (split; [done|]); try done;
    split_and!; try lia; try tauto; right; lia.
Qed.

Lemma pay_wf burst d b :
  bucket_wf burst b → (d = RateDecision_Allow → MILLI ≤ bk_milli_tokens b) →
  bucket_wf burst (pay d b) ∧ credit (pay d b) = credit b - cost d ∧
  bk_last_refill (pay d b) = bk_last_refill b.
Proof.
  intros Hwf Hd. destruct d; simpl; [by apply consume_wf; auto|]. split; [done|]. split; [lia|done].
Qed.

Lemma refill_wf now burst rate b :
  bucket_wf burst b → burst ≤ u64_max → 0 ≤ rate → bucket_wf burst (refill now burst rate b).
Proof.
  intros Hwf Hmax Hrate. destruct (decide (bk_last_refill b ≤ now)).
  - by apply refill_spec.
  - by rewrite refill_reversed by lia.
Qed.

Lemma bucket_before_wf now o :
  (∀ b, o = Some b → bucket_wf (rl_burst_milli_tokens l) b) →
  bucket_wf (rl_burst_milli_tokens l) (bucket_before now o).
Proof.
  intros Ho. destruct Hl as [[Hb1 Hb2] Hr _ _]. unfold MILLI in Hb1. destruct o as [b|]; simpl.
  - apply refill_wf; [by apply Ho|lia|lia].
  - apply bucket_full_wf. lia.
Qed.

Definition global_before now s : Bucket :=
  refill now (rl_global_burst_milli_tokens l) (rl_global_refill_milli_tokens_per_second l)
    (ls_global s).

Lemma insert_bucket_wf key b g s :
  bucket_wf (rl_burst_milli_tokens l) b → bucket_wf (rl_global_burst_milli_tokens l) g →
  (∀ key' b', ls_buckets s !! key' = Some b' → bucket_wf (rl_burst_milli_tokens l) b') →
  Z.of_nat (size (<[key := b]> (ls_buckets s))) ≤ MAX_TRACKED_CLIENTS →
  (∀ t key', (t, key') ∈ ls_by_staleness s ↔
     key' ≠ key ∧ ∃ b', ls_buckets s !! key' = Some b' ∧ bk_last_refill b' = t) →
  state_wf l {| ls_buckets := <[key := b]> (ls_buckets s);
                ls_by_staleness := {[ (bk_last_refill b, key) ]} ∪ ls_by_staleness s;
                ls_global := g |}.
Proof.
  intros Hb Hg Hbs Hsize Hidx. split; simpl; [|done| |done].
  - intros t key'. simpl. rewrite elem_of_union, elem_of_singleton, Hidx.
    setoid_rewrite lookup_insert_Some. split.
    + intros [[= -> ->]|(Hne & b' & ? & ?)]; [eauto|]. exists b'. split; [|done]. by right.
    + intros (b' & [[<- <-]|[Hne ?]] & <-); [by left|]. right. split; [done|eauto].
  - intros key' b' [[<- <-]|[_ ?]]%lookup_insert_Some; [done|]. by eapply Hbs.
Qed.

(** One request, from the state before it. *)
Lemma check_locked_spec slot key now s :
  limiter_state l slot now = s → state_wf l s →
  let s1 := sweep SWEEP_BATCH now s in
  let b := bucket_before now (ls_buckets s1 !! key) in
  let g := global_before now s in
  ∃ s' d, check_locked l slot key now = (s', d) ∧ state_wf l s' ∧
    ls_global s' = pay d g ∧ ls_buckets s' !! key = Some (pay d b) ∧
    d = (decide_issuance l b g).2 ∧
    (∀ key' b', key' ≠ key → ls_buckets s' !! key' = Some b' → ls_buckets s1 !! key' = Some b') ∧
    (Z.of_nat (size (ls_buckets s1)) < MAX_TRACKED_CLIENTS ∨ is_Some (ls_buckets s1 !! key) →
       ls_buckets s' = <[key := pay d b]> (ls_buckets s1)).
Proof.
  intros Hs Hwf s1 b g. destruct (sweep_spec SWEEP_BATCH now s Hwf) as [Hwf1 Hsh]. fold s1 in Hwf1, Hsh.
  destruct (take_bucket_spec key now s1 Hwf1) as (Hb & Hg & Hsub & Hsame & Hsize & Hidx).
  fold b in Hb. destruct Hsh as (Hg1 & _ & _).
  assert (bucket_wf (rl_burst_milli_tokens l) b) as Hwfb
    by (apply bucket_before_wf; intros; by eapply (st_buckets l s1)).
  assert (bucket_wf (rl_global_burst_milli_tokens l) g) as Hwfg.
  { destruct Hl, Hwf. unfold MILLI in *. apply refill_wf; [done|lia|lia]. }
  unfold check_locked. rewrite Hs. fold s1. rewrite Hg1. fold (global_before now s). fold g.
  destruct (take_bucket l key now s1) as [b0 s2] eqn:Et. cbn [fst snd] in *. subst b0.
  destruct (decide_spec b g) as [Hd Hspec]. set (d := (decide_issuance l b g).2) in *. rewrite Hd.
  assert (d = RateDecision_Allow → MILLI ≤ bk_milli_tokens b) as Hpb by (intros E; rewrite E in Hspec; apply Hspec).
  assert (d = RateDecision_Allow → MILLI ≤ bk_milli_tokens g) as Hpg by (intros E; rewrite E in Hspec; apply Hspec).
  destruct (pay_wf _ d b Hwfb Hpb) as (Hwfb' & _ & Hlast), (pay_wf _ d g Hwfg Hpg) as (Hwfg' & _ & _).
  eexists _, d. split; [reflexivity|]. split.
  { apply insert_bucket_wf; [done|done| | |done].
    - intros key' b' Hb'. by eapply (st_buckets l s1), Hsub.
    - clear -Hsize. by rewrite (size_insert_same _ _ b). }
  cbn [ls_global ls_buckets]. split; [done|]. split; [apply lookup_insert_eq|]. split; [done|]. split.
  - intros key' b' Hne. rewrite lookup_insert_ne by done. apply Hsub.
  - intros Hroom. by rewrite (Hsame Hroom).
Qed.

(** ** Runs *)

Abbreviation Request := (string * Instant)%type (only parsing).

Fixpoint run_checks (slot : option LimiterState) (requests : list Request)
    : option LimiterState * list RateDecision :=
  match requests with
  | [] => (slot, [])
  | (key, now) :: requests =>
      let (s, d) := check_locked l slot key now in
      let (slot, ds) := run_checks (Some s) requests in
      (slot, d :: ds)
  end.

Definition allowed (d : RateDecision) : Z :=
  match d with RateDecision_Allow => 1 | RateDecision_Deny _ => 0 end.

(** The admissions, in all and of one client. *)
Fixpoint admitted (ds : list RateDecision) : Z :=
  match ds with [] => 0 | d :: ds => allowed d + admitted ds end.
Fixpoint admitted_to (key : string) (requests : list Request) (ds : list RateDecision) : Z :=
  match requests, ds with
  | r :: requests, d :: ds =>
      (if bool_decide (r.1 = key) then allowed d else 0) + admitted_to key requests ds
  | _, _ => 0
  end.

Lemma cost_allowed d : cost d = allowed d * (MILLI * NANOS_PER_SECOND).
Proof. destruct d; simpl; lia. Qed.

Lemma cost_nonneg d : 0 ≤ cost d.
Proof. by destruct d. Qed.

Lemma run_checks_first key now requests :
  run_checks None ((key, now) :: requests) =
  run_checks (Some (limiter_state l None now)) ((key, now) :: requests).
Proof. done. Qed.

(** The global bucket over one request, whatever the time stamp. *)
Lemma global_step key now s :
  state_wf l s →
  ∃ s' d, check_locked l (Some s) key now = (s', d) ∧ state_wf l s' ∧
    bk_last_refill (ls_global s') = Z.max (bk_last_refill (ls_global s)) now ∧
    credit (ls_global s') + cost d ≤ credit (ls_global s) +
      rl_global_refill_milli_tokens_per_second l *
        (bk_last_refill (ls_global s') - bk_last_refill (ls_global s)).
Proof.
  intros Hwf. destruct (check_locked_spec (Some s) key now s eq_refl Hwf) as
    (s' & d & Hrun & Hwf' & Hg & _ & Hd & _). exists s', d. split; [done|]. split; [done|].
  destruct Hl as [_ _ [Hb1 Hb2] Hr], Hwf as [_ _ _ Hwg]. unfold MILLI in Hb1.
  assert (bucket_wf (rl_global_burst_milli_tokens l) (global_before now s)) as Hwfg
    by (apply refill_wf; [done|lia|lia]).
  destruct (decide_spec (bucket_before now (ls_buckets (sweep SWEEP_BATCH now s) !! key))
    (global_before now s)) as [_ Hspec]. rewrite <-Hd in Hspec.
  destruct (pay_wf _ d _ Hwfg) as (_ & Hc & Hlast); [intros E; rewrite E in Hspec; apply Hspec|].
  rewrite Hg, Hlast, Hc. unfold global_before.
  destruct (decide (bk_last_refill (ls_global s) ≤ now)) as [Hle|Hgt].
  - destruct (refill_spec now _ (rl_global_refill_milli_tokens_per_second l) _ Hwg Hb2 ltac:(lia) Hle)
      as (_ & -> & ->). split; [lia|]. rewrite (Z.mul_comm (rl_global_refill_milli_tokens_per_second l)).
    lia.
  - rewrite refill_reversed by lia. split; [lia|].
    pose proof (cost_nonneg d).
    rewrite Z.sub_diag, Z.mul_0_r. lia.
Qed.

Lemma run_checks_global requests s :
  state_wf l s →
  ∃ s' ds, run_checks (Some s) requests = (Some s', ds) ∧ state_wf l s' ∧
    (∀ T, bk_last_refill (ls_global s) ≤ T → (∀ r, r ∈ requests → r.2 ≤ T) →
       bk_last_refill (ls_global s') ≤ T) ∧
    admitted ds * (MILLI * NANOS_PER_SECOND) + credit (ls_global s') ≤ credit (ls_global s) +
      rl_global_refill_milli_tokens_per_second l *
        (bk_last_refill (ls_global s') - bk_last_refill (ls_global s)).
Proof.
  revert s. induction requests as [|[key now] requests IH]; intros s Hwf.
  { exists s, []. split; [done|]. split; [done|]. split; [by intros T|]. simpl.
    rewrite Z.sub_diag, Z.mul_0_r. lia. }
  destruct (global_step key now s Hwf) as (s1 & d & Hrun & Hwf1 & Hlast & Hc).
  destruct (IH s1 Hwf1) as (s2 & ds & Hrun2 & Hwf2 & Hlast2 & Hc2).
  exists s2, (d :: ds). simpl. rewrite Hrun, Hrun2. split; [done|]. split; [done|]. split.
  - intros T HT Hall. apply Hlast2; [|intros r Hr; apply Hall; by right].
    rewrite Hlast. specialize (Hall (key, now)). simpl in Hall.
    assert (now ≤ T) by (apply Hall; by left). lia.
  - rewrite cost_allowed in Hc. nia.
Qed.

(** *** One client *)

(** After [n] admissions of [key] since [t0], at time [T], with the clients of
    [seen]: the client's credit is accounted for, forgotten or not. *)
Record client_inv (key : string) (n : Z) (t0 T : Instant) (seen : gset string) s : Prop := {
  ci_wf : state_wf l s;
  ci_seen : ∀ k b, ls_buckets s !! k = Some b → k ∈ seen ∧ bk_last_refill b ≤ T;
  ci_time : t0 ≤ T;
  ci_credit :
    match ls_buckets s !! key with
    | Some b => n * (MILLI * NANOS_PER_SECOND) + credit b ≤
        rl_burst_milli_tokens l * NANOS_PER_SECOND
        + rl_refill_milli_tokens_per_second l * (bk_last_refill b - t0)
    | None => n * (MILLI * NANOS_PER_SECOND) ≤ rl_refill_milli_tokens_per_second l * (T - t0)
    end
}.

(** A bucket that has been idle for long enough is full again. *)
Definition lossless_expiry : Prop :=
  rl_burst_milli_tokens l * NANOS_PER_SECOND ≤ rl_refill_milli_tokens_per_second l * BUCKET_IDLE_EXPIRY.

Lemma sweep_client_inv key n t0 T now seen s :
  lossless_expiry → client_inv key n t0 T seen s → T ≤ now →
  client_inv key n t0 now seen (sweep SWEEP_BATCH now s).
Proof.
  intros Hloss [Hwf Hseen Htime Hc] Hle.
  destruct (sweep_spec SWEEP_BATCH now s Hwf) as [Hwf1 (_ & Hsub & Hkeep)].
  split; [done| |lia|].
  - intros k b Hb%Hsub%Hseen. split; [apply Hb|]. destruct Hb. lia.
  - destruct (ls_buckets s !! key) as [b|] eqn:Hb.
    + destruct (Hkeep key b Hb) as [->|[-> Hidle]]; [done|].
      destruct (credit_bound _ b (st_buckets l s Hwf key b Hb)) as [Hpos _].
      unfold idle_out, lossless_expiry in *. destruct Hl as [_ Hr _ _]. nia.
    + destruct (ls_buckets (sweep SWEEP_BATCH now s) !! key) as [b|] eqn:Hb'.
      * apply Hsub in Hb'. congruence.
      * destruct Hl as [_ Hr _ _]. nia.
Qed.

Lemma bucket_before_spec key n t0 now seen s :
  client_inv key n t0 now seen s →
  let b := bucket_before now (ls_buckets s !! key) in
  bk_last_refill b = now ∧ bucket_wf (rl_burst_milli_tokens l) b ∧
  n * (MILLI * NANOS_PER_SECOND) + credit b ≤
    rl_burst_milli_tokens l * NANOS_PER_SECOND
    + rl_refill_milli_tokens_per_second l * (now - t0).
Proof.
  intros [Hwf Hseen Htime Hc] b. destruct Hl as [[Hb1 Hb2] Hr _ _].
  assert (bucket_wf (rl_burst_milli_tokens l) b) as Hwfb
    by (apply bucket_before_wf; intros; by eapply (st_buckets l s)).
  subst b. destruct (ls_buckets s !! key) as [b|] eqn:Hb; simpl in *.
  - destruct (Hseen key b Hb) as [_ Hle].
    destruct (refill_spec now _ (rl_refill_milli_tokens_per_second l) b
      (st_buckets l s Hwf key b Hb) Hb2 ltac:(lia) Hle) as (_ & -> & ->).
    split; [done|]. split; [done|]. nia.
  - split; [done|]. split; [done|]. unfold credit; simpl. lia.
Qed.

(** There is room for the client: no other one is evicted. *)
Lemma room k t0 n now seen key s :
  client_inv key n t0 now seen s → Z.of_nat (size (seen ∪ {[k]})) ≤ MAX_TRACKED_CLIENTS →
  Z.of_nat (size (ls_buckets s)) < MAX_TRACKED_CLIENTS ∨ is_Some (ls_buckets s !! k).
Proof.
  intros Hinv Hsize. destruct (ls_buckets s !! k) as [b|] eqn:Hk; [right; eauto|left].
  assert (size (<[k := Bucket_full 0 0]> (ls_buckets s)) ≤ size (seen ∪ {[k]}))%nat as Hle.
  { rewrite <-size_dom. apply subseteq_size. intros k'. rewrite dom_insert_L, elem_of_union,
      elem_of_singleton, elem_of_dom. intros [->|[b Hb]]; [set_solver|].
    apply (ci_seen _ _ _ _ _ _ Hinv) in Hb as [? _]. set_solver. }
  rewrite map_size_insert_None in Hle by done. lia.
Qed.

Lemma client_step key k n t0 T now seen s :
  lossless_expiry → client_inv key n t0 T seen s → T ≤ now →
  Z.of_nat (size (seen ∪ {[k]})) ≤ MAX_TRACKED_CLIENTS →
  ∃ s' d, check_locked l (Some s) k now = (s', d) ∧
    client_inv key (n + if bool_decide (k = key) then allowed d else 0) t0 now (seen ∪ {[k]}) s'.
Proof.
  intros Hloss Hinv Hle Hsize. pose proof (ci_wf _ _ _ _ _ _ Hinv) as Hwf.
  pose proof (sweep_client_inv key n t0 T now seen s Hloss Hinv Hle) as Hinv1.
  destruct (check_locked_spec (Some s) k now s eq_refl Hwf) as
    (s' & d & Hrun & Hwf' & _ & _ & Hd & _ & Hroom). exists s', d. split; [done|].
  specialize (Hroom (room k t0 n now seen key _ Hinv1 Hsize)).
  set (s1 := sweep SWEEP_BATCH now s) in *. set (b := bucket_before now (ls_buckets s1 !! k)) in *.
  destruct (decide_spec b (global_before now s)) as [_ Hspec]. rewrite <-Hd in Hspec.
  assert (bk_last_refill b = now ∧ bucket_wf (rl_burst_milli_tokens l) b) as [Hlast Hwfb].
  { split; [|apply bucket_before_wf; intros; by eapply (st_buckets l s1 (ci_wf _ _ _ _ _ _ Hinv1))].
    subst b. destruct (ls_buckets s1 !! k) as [b0|] eqn:Hb0; [|done]. simpl.
    apply refill_spec; destruct Hl; [by eapply (st_buckets l s1 (ci_wf _ _ _ _ _ _ Hinv1))|lia|lia|].
    by apply (ci_seen _ _ _ _ _ _ Hinv1) in Hb0 as [_ ?]. }
  destruct (pay_wf _ d b Hwfb) as (_ & Hc & Hlast'); [intros E; rewrite E in Hspec; apply Hspec|].
  split; [done| |apply (ci_time _ _ _ _ _ _ Hinv1)|]; rewrite Hroom.
  - intros k' b' [[<- <-]|[_ Hb']]%lookup_insert_Some.
    + split; [set_solver|]. rewrite Hlast'. lia.
    + apply (ci_seen _ _ _ _ _ _ Hinv1) in Hb' as [? ?]. split; [set_solver|done].
  - case_bool_decide as Hk.
    + subst k. rewrite lookup_insert_eq, Hlast', Hlast, Hc, cost_allowed.
      destruct (bucket_before_spec key n t0 now seen s1 Hinv1) as (_ & _ & Hb). fold b in Hb. lia.
    + rewrite lookup_insert_ne by done. rewrite Z.add_0_r. apply Hinv1.
Qed.

Lemma run_checks_client key requests n t0 T seen s :
  lossless_expiry → client_inv key n t0 T seen s → (∀ r, r ∈ requests → T ≤ r.2) →
  StronglySorted Z.le requests.*2 →
  Z.of_nat (size (seen ∪ list_to_set requests.*1)) ≤ MAX_TRACKED_CLIENTS →
  ∃ s' ds T', run_checks (Some s) requests = (Some s', ds) ∧
    (∀ t, T ≤ t → (∀ r, r ∈ requests → r.2 ≤ t) → T' ≤ t) ∧
    client_inv key (n + admitted_to key requests ds) t0 T' (seen ∪ list_to_set requests.*1) s'.
Proof.
  intros Hloss. revert n T seen s.
  induction requests as [|[k now] requests IH]; intros n T seen s Hinv Hge Hsorted Hsize.
  { exists s, [], T. split; [done|]. split; [auto|]. simpl.
    rewrite Z.add_0_r, (right_id_L ∅ (∪)). done. }
  cbn [fmap list_fmap] in *. apply StronglySorted_inv in Hsorted as [Hsorted Hall].
  assert (T ≤ now) as Hle by (apply (Hge (k, now)); by left).
  assert (seen ∪ list_to_set (k :: requests.*1) = (seen ∪ {[k]}) ∪ list_to_set requests.*1) as Hset
    by (cbn [list_to_set]; set_solver).
  cbn [fst] in *. rewrite Hset in *.
  destruct (client_step key k n t0 T now seen s Hloss Hinv Hle) as (s1 & d & Hrun & Hinv1).
  { etransitivity; [|exact Hsize]. apply inj_le, subseteq_size. set_solver. }
  destruct (IH _ now (seen ∪ {[k]}) s1 Hinv1) as (s' & ds & T' & Hrun' & HT' & Hinv'); [|done|done|].
  { intros r Hr. rewrite Forall_forall in Hall. apply Hall. by apply list_elem_of_fmap_2. }
  exists s', (d :: ds), T'. simpl. rewrite Hrun, Hrun'. split; [done|]. split.
  - intros t Ht Hr. apply HT'; [|intros r ?; apply Hr; by right]. apply (Hr (k, now)). by left.
  - by rewrite Z.add_assoc.
Qed.

Lemma client_inv_new key t0 : client_inv key 0 t0 t0 ∅ (limiter_state l None t0).
Proof.
  split; [apply limiter_state_wf| |lia|]; simpl.
  - intros k b. by rewrite lookup_empty.
  - rewrite lookup_empty. lia.
Qed.

Lemma client_inv_bound key n t0 T seen s :
  client_inv key n t0 T seen s →
  n * (MILLI * NANOS_PER_SECOND) ≤ rl_burst_milli_tokens l * NANOS_PER_SECOND
    + rl_refill_milli_tokens_per_second l * (T - t0).
Proof.
  intros [Hwf Hseen Htime Hc]. destruct Hl as [[Hb1 _] Hr _ _]. unfold MILLI, NANOS_PER_SECOND in *.
  destruct (ls_buckets s !! key) as [b|] eqn:Hb; [|lia].
  destruct (credit_bound _ b (st_buckets l s Hwf key b Hb)) as [Hpos _].
  destruct (Hseen key b Hb). nia.
Qed.

(** *** Waiting *)

Lemma token_kept now burst rate b :
  bucket_wf burst b → burst ≤ u64_max → 0 ≤ rate → bk_last_refill b ≤ now →
  MILLI ≤ bk_milli_tokens b → MILLI ≤ bk_milli_tokens (refill now burst rate b).
Proof.
  intros Hwf Hmax Hrate Hle. destruct (refill_spec now burst rate b Hwf Hmax Hrate Hle) as (Hwf' & _ & Hc).
  rewrite (credit_token burst b Hwf), (credit_token burst _ Hwf'), Hc.
  destruct (credit_bound burst b Hwf). nia.
Qed.

(** All buckets were refilled by [now]. *)
Definition times_wf now s : Prop :=
  bk_last_refill (ls_global s) ≤ now ∧
  ∀ key b, ls_buckets s !! key = Some b → bk_last_refill b ≤ now.

Lemma token_after_wait now w burst rate b :
  bucket_wf burst b → burst ≤ u64_max → MILLI ≤ burst → 0 < rate → bk_last_refill b ≤ now → 1 ≤ w →
  MILLI ≤ bk_milli_tokens b ∨ seconds_until_one_token rate b ≤ w →
  MILLI ≤ bk_milli_tokens (refill (now + duration_from_secs w) burst rate b).
Proof.
  intros Hwf Hmax Hburst Hrate Hle Hw [Ht|Hs].
  - apply token_kept; [done|done|lia| |done]. unfold duration_from_secs, NANOS_PER_SEC. lia.
  - by apply wait_is_enough.
Qed.

Lemma decide_allows b g :
  MILLI ≤ bk_milli_tokens b → MILLI ≤ bk_milli_tokens g →
  (decide_issuance l b g).2 = RateDecision_Allow.
Proof. intros Hb Hg. unfold decide_issuance. by rewrite !bool_decide_eq_true_2. Qed.

(** The bucket of a request was refilled by its time. *)
Lemma bucket_before_last now o :
  (∀ b, o = Some b → bk_last_refill b ≤ now ∧ bucket_wf (rl_burst_milli_tokens l) b) →
  bk_last_refill (bucket_before now o) = now.
Proof.
  intros Ho. destruct Hl as [[_ Hb2] Hr _ _]. destruct o as [b|]; [|done]. simpl.
  destruct (Ho b eq_refl). apply refill_spec; [done|done|lia|done].
Qed.

(** The announced wait is honest: when a request is denied, the same
    request after exactly the announced number of seconds, which is at least
    one, is admitted, provided nobody else was in between. *)
Theorem retry_after_honest key now s s' w :
  state_wf l s → times_wf now s →
  check_locked l (Some s) key now = (s', RateDecision_Deny w) →
  1 ≤ w ∧ (check_locked l (Some s') key (now + duration_from_secs w)).2 = RateDecision_Allow.
Proof.
  intros Hwf [Htg Htb] Hrun. set (t2 := now + duration_from_secs w).
  destruct (check_locked_spec (Some s) key now s eq_refl Hwf) as
    (s0 & d & Hrun' & Hwf' & Hg & Hb & Hd & _). rewrite Hrun in Hrun'. injection Hrun' as <- <-.
  set (b := bucket_before _ _) in *. set (g := global_before now s) in *. simpl in Hg, Hb.
  destruct (decide_spec b g) as [_ Hspec]. rewrite <-Hd in Hspec.
  destruct Hspec as (Hw & _ & Hwb & Hwg). split; [done|].
  destruct Hl as [[Hb1 Hb2] Hr [Hg1 Hg2] Hgr].
  assert (bk_last_refill b = now ∧ bucket_wf (rl_burst_milli_tokens l) b) as [Hlb Hwfb].
  { destruct (sweep_spec SWEEP_BATCH now s Hwf) as [Hwf1 (_ & Hsub & _)]. split.
    - apply bucket_before_last. intros b0 Hb0. split; [by eapply Htb, Hsub|by eapply st_buckets].
    - apply bucket_before_wf. intros b0 Hb0. by eapply st_buckets. }
  destruct (refill_spec now _ _ _ (st_global l s Hwf) Hg2 (Z.lt_le_incl _ _ Hgr) Htg) as (Hwfg & Hlg & _).
  change (bucket_wf (rl_global_burst_milli_tokens l) g) in Hwfg.
  change (bk_last_refill g = now) in Hlg. clearbody b g.
  destruct (check_locked_spec (Some s') key t2 s' eq_refl Hwf') as (s2 & d2 & -> & _ & _ & _ & -> & _).
  cbn [snd]. apply decide_allows.
  - destruct (sweep_spec SWEEP_BATCH t2 s' Hwf') as [_ (_ & _ & Hkeep)].
    destruct (Hkeep key b Hb) as [->|[-> _]]; [|done]. simpl.
    apply token_after_wait; [done|done|done|done|by rewrite Hlb|done|done].
  - unfold global_before. rewrite Hg.
    apply token_after_wait; [done|done|done|done|by rewrite Hlg|done|done].
Qed.

(** The global budget bounds all issuance: over any requests, by however
    many clients and with time stamps in any order, the admissions between the
    first one and a time [T] never exceed the global burst plus the global rate
    times the elapsed time; the bookkeeping stays consistent throughout (the
    staleness index holds exactly one entry per bucket, at most 65,536 clients
    are tracked, every bucket is within its burst). *)
Theorem global_issuance_bounded key0 t0 requests T :
  t0 ≤ T → (∀ r, r ∈ requests → r.2 ≤ T) →
  ∃ s ds, run_checks None ((key0, t0) :: requests) = (Some s, ds) ∧ state_wf l s ∧
    admitted ds * (MILLI * NANOS_PER_SECOND) ≤
      rl_global_burst_milli_tokens l * NANOS_PER_SECOND
      + rl_global_refill_milli_tokens_per_second l * (T - t0).
Proof.
  intros HT Hall. rewrite run_checks_first.
  destruct (run_checks_global ((key0, t0) :: requests) (limiter_state l None t0) (limiter_state_wf t0))
    as (s & ds & Hrun & Hwf & Hlast & Hc).
  exists s, ds. split; [done|]. split; [done|].
  assert (bk_last_refill (ls_global s) ≤ T).
  { apply Hlast; [done|]. intros r [->|Hr]%elem_of_cons; [done|by apply Hall]. }
  destruct (credit_bound _ _ (st_global l s Hwf)) as [Hpos _].
  destruct Hl as [_ _ _ Hr]. simpl in Hc. unfold credit at 2 in Hc. simpl in Hc. nia.
Qed.

(** Each client is held to its own budget: when an idle bucket is full by
    the time it expires, and no more clients appear than are tracked, then over
    requests in time order the admissions of any one client between the first
    request and a time [T] never exceed the client burst plus the client rate
    times the elapsed time. Sweeping and forgetting its bucket gains it
    nothing. *)
Theorem client_issuance_bounded key key0 t0 requests T :
  lossless_expiry → t0 ≤ T → (∀ r, r ∈ requests → r.2 ≤ T) →
  StronglySorted Z.le (t0 :: requests.*2) →
  Z.of_nat (size (list_to_set (key0 :: requests.*1) : gset string)) ≤ MAX_TRACKED_CLIENTS →
  ∃ s ds, run_checks None ((key0, t0) :: requests) = (Some s, ds) ∧
    admitted_to key ((key0, t0) :: requests) ds * (MILLI * NANOS_PER_SECOND) ≤
      rl_burst_milli_tokens l * NANOS_PER_SECOND
      + rl_refill_milli_tokens_per_second l * (T - t0).
Proof.
  intros Hloss HT Hall Hsorted Hsize. rewrite run_checks_first.
  pose proof (StronglySorted_inv Hsorted) as [_ Hge]. rewrite Forall_forall in Hge.
  destruct (run_checks_client key ((key0, t0) :: requests) 0 t0 t0 ∅ (limiter_state l None t0) Hloss
    (client_inv_new key t0)) as (s & ds & T' & Hrun & HT' & Hinv); [|done| |].
  { intros r [->|Hr]%elem_of_cons; [done|]. apply Hge. by apply list_elem_of_fmap_2. }
  { etransitivity; [|exact Hsize]. apply inj_le, subseteq_size. set_solver. }
  exists s, ds. split; [done|]. apply client_inv_bound in Hinv. rewrite Z.add_0_l in Hinv.
  assert (T' ≤ T).
  { apply HT'; [done|]. intros r [->|Hr]%elem_of_cons; [done|by apply Hall]. }
  destruct Hl as [_ Hr _ _]. nia.
Qed.

End limiter.

(** ** Concrete runs *)

Lemma default_lossless : lossless_expiry IssuanceRateLimiter_default.
Proof. unfold lossless_expiry. by vm_compute. Qed.

(** A limiter of one token per client and two in all, one per second. *)
Definition example_limiter : IssuanceRateLimiter := IssuanceRateLimiter_new 1 1 2 1.

Lemma example_limiter_wf : limiter_wf example_limiter.
Proof. split; vm_compute; split; discriminate || reflexivity. Qed.

Definition example_requests : list (string * Z) := [
  ("a", 0); ("b", 1); ("b", 400000000); ("c", 900000000); ("c", 1000000000)].

Example example_decisions :
  (run_checks example_limiter None (("a", 0) :: example_requests)).2 =
  [RateDecision_Allow; RateDecision_Deny 1; RateDecision_Allow; RateDecision_Deny 1;
   RateDecision_Deny 1; RateDecision_Allow].
Proof. vm_compute. reflexivity. Qed.

Lemma retry_after_honest_witness :
  let s := (check_locked example_limiter None "a" 0).1 in
  let s' := (check_locked example_limiter (Some s) "a" 5).1 in
  state_wf example_limiter s ∧
  check_locked example_limiter (Some s) "a" 5 = (s', RateDecision_Deny 1) ∧
  (check_locked example_limiter (Some s') "a" (5 + duration_from_secs 1)).2 = RateDecision_Allow.
Proof.
  intros s s'.
  assert (state_wf example_limiter s) as Hwf.
  { destruct (check_locked_spec example_limiter example_limiter_wf None "a" 0 _ eq_refl
      (limiter_state_wf example_limiter example_limiter_wf 0)) as (s0 & d & Hrun & Hwf & _).
    unfold s. rewrite Hrun. exact Hwf. }
  assert (times_wf 5 s) as Htimes.
  { split; [vm_compute; discriminate|]. intros key b Hb.
    assert (Forall (λ kv, bk_last_refill kv.2 ≤ 5) (map_to_list (ls_buckets s))) as Hall
      by (apply (bool_decide_unpack _); vm_compute; exact I).
    rewrite Forall_forall in Hall. apply elem_of_map_to_list in Hb. exact (Hall (key, b) Hb). }
  assert (check_locked example_limiter (Some s) "a" 5 = (s', RateDecision_Deny 1)) as Hrun
    by (vm_compute; reflexivity).
  split; [exact Hwf|]. split; [exact Hrun|].
  exact (proj2 (retry_after_honest example_limiter example_limiter_wf "a" 5 s s' 1 Hwf Htimes Hrun)).
Defined.

Lemma global_issuance_bounded_witness :
  ∃ s ds, run_checks example_limiter None (("a", 0) :: example_requests) = (Some s, ds) ∧
    state_wf example_limiter s ∧ admitted ds = 3 ∧
    3 * (MILLI * NANOS_PER_SECOND) ≤
      rl_global_burst_milli_tokens example_limiter * NANOS_PER_SECOND
      + rl_global_refill_milli_tokens_per_second example_limiter * 1000000000.
Proof.
  assert (∀ r, r ∈ example_requests → r.2 ≤ 1000000000) as Hall.
  { apply Forall_forall. apply (bool_decide_unpack _). vm_compute. exact I. }
  destruct (global_issuance_bounded example_limiter example_limiter_wf "a" 0 example_requests
    1000000000 ltac:(lia) Hall) as (s & ds & Hrun & Hwf & Hle).
  assert (admitted ds = 3) as Hn.
  { rewrite <-(f_equal snd Hrun : _ = ds). vm_compute. reflexivity. }
  exists s, ds. split; [exact Hrun|]. split; [exact Hwf|]. split; [exact Hn|]. rewrite Hn in Hle. exact Hle.
Defined.

Lemma client_issuance_bounded_witness :
  lossless_expiry example_limiter ∧
  ∃ s ds, run_checks example_limiter None (("a", 0) :: example_requests) = (Some s, ds) ∧
    admitted_to "a" (("a", 0) :: example_requests) ds * (MILLI * NANOS_PER_SECOND) ≤
      rl_burst_milli_tokens example_limiter * NANOS_PER_SECOND
      + rl_refill_milli_tokens_per_second example_limiter * (1000000000 - 0).
Proof.
  assert (lossless_expiry example_limiter) as Hloss by (unfold lossless_expiry; by vm_compute).
  split; [exact Hloss|].
  assert (∀ r, r ∈ example_requests → r.2 ≤ 1000000000) as Hall.
  { apply Forall_forall. apply (bool_decide_unpack _). vm_compute. exact I. }
  assert (StronglySorted Z.le (0 :: example_requests.*2)) as Hsorted.
  { unfold example_requests. simpl. repeat constructor; done. }
  assert (Z.of_nat (size (list_to_set ("a" :: example_requests.*1) : gset string)) ≤ MAX_TRACKED_CLIENTS)
    as Hsize by (vm_compute; discriminate).
  exact (client_issuance_bounded example_limiter example_limiter_wf "a" "a" 0 example_requests
    1000000000 Hloss ltac:(lia) Hall Hsorted Hsize).
Defined.
