(* ===== verification/RefreshDemand.v ===== *)
(** * Demand for target refreshes (crates/bcsp-application/src/target_refresh_demand.rs)

    Which targets product routes use: leases that requests renew, the terms a
    local user asked for, and explicit retries with generations. Every operation
    takes one lock and samples its clock under it, so the instants of successive
    operations are ordered. *)

From S2P Require Import Prelude Identity Contracts CatalogData RateLimit.

(** ** Data *)

Definition TARGET_DEMAND_LEASE : Z := duration_from_secs 120.

Inductive TargetRefreshDemandError := TargetRefreshDemandError_Unavailable.

Record ManualTargetRetryRequest := { mr_target : TermCampusKey; mr_generation : Z }.

Record ManualTargetRetryState := {
  mt_next_generation : Z;
  mt_pending : gmap TermCampusKey Z
}.

(** Each field is a mutex: [None] when it is poisoned. *)
Record TargetRefreshDemand := {
  rd_targets : option (gmap TermCampusKey Instant);
  rd_manual_terms : option (gset TermId);
  rd_manual_target_retries : option ManualTargetRetryState;
  rd_lease_duration : Z
}.

Definition ManualTargetRetryState_default : ManualTargetRetryState :=
  {| mt_next_generation := 0; mt_pending := ∅ |}.

Definition TargetRefreshDemand_default : TargetRefreshDemand :=
  {| rd_targets := Some ∅; rd_manual_terms := Some ∅;
     rd_manual_target_retries := Some ManualTargetRetryState_default;
     rd_lease_duration := TARGET_DEMAND_LEASE |}.

Definition set_targets (targets : gmap TermCampusKey Instant) (d : TargetRefreshDemand) : TargetRefreshDemand :=
  {| rd_targets := Some targets; rd_manual_terms := rd_manual_terms d;
     rd_manual_target_retries := rd_manual_target_retries d; rd_lease_duration := rd_lease_duration d |}.
Definition set_manual_terms (terms : gset TermId) (d : TargetRefreshDemand) : TargetRefreshDemand :=
  {| rd_targets := rd_targets d; rd_manual_terms := Some terms;
     rd_manual_target_retries := rd_manual_target_retries d; rd_lease_duration := rd_lease_duration d |}.
Definition set_retries (state : ManualTargetRetryState) (d : TargetRefreshDemand) : TargetRefreshDemand :=
  {| rd_targets := rd_targets d; rd_manual_terms := rd_manual_terms d;
     rd_manual_target_retries := Some state; rd_lease_duration := rd_lease_duration d |}.

(** ** Operations *)

Definition request (target : TermCampusKey) (now : Instant) (d : TargetRefreshDemand)
    : TargetRefreshDemand * result TargetRefreshDemandError bool :=
  match rd_targets d with
  | None => (d, Err TargetRefreshDemandError_Unavailable)
  | Some targets =>
      let first := match targets !! target with
                   | None => true
                   | Some expires_at => bool_decide (expires_at ≤ now)
                   end in
      (set_targets (<[target := now + rd_lease_duration d]> targets) d, Ok first)
  end.

(** [retain] of the leases that have not expired. *)
Definition retain_leases (now : Instant) (targets : gmap TermCampusKey Instant) : gmap TermCampusKey Instant :=
  filter (λ kv, now < kv.2) targets.

(** The loop of [request_all]: the leases and the number inserted. *)
Definition renew_lease (expires_at : Instant) (acc : gmap TermCampusKey Instant * Z) (target : TermCampusKey)
    : gmap TermCampusKey Instant * Z :=
  let '(requested, inserted) := acc in
  (<[target := expires_at]> requested,
   if bool_decide (is_Some (requested !! target)) then inserted else inserted + 1).

Definition request_all (targets : list TermCampusKey) (now : Instant) (d : TargetRefreshDemand)
    : TargetRefreshDemand * result TargetRefreshDemandError Z :=
  match rd_targets d with
  | None => (d, Err TargetRefreshDemandError_Unavailable)
  | Some requested =>
      let '(requested, inserted) :=
        foldl (renew_lease (now + rd_lease_duration d)) (retain_leases now requested, 0) targets in
      (set_targets requested d, Ok inserted)
  end.

Definition demand_snapshot (now : Instant) (d : TargetRefreshDemand)
    : TargetRefreshDemand * result TargetRefreshDemandError (list TermCampusKey) :=
  match rd_targets d with
  | None => (d, Err TargetRefreshDemandError_Unavailable)
  | Some targets =>
      let targets := retain_leases now targets in
      (set_targets targets d, Ok (btm_keys targets))
  end.

Definition request_manual_term (term : TermId) (d : TargetRefreshDemand)
    : TargetRefreshDemand * result TargetRefreshDemandError bool :=
  match rd_manual_terms d with
  | None => (d, Err TargetRefreshDemandError_Unavailable)
  | Some terms => (set_manual_terms ({[ term ]} ∪ terms) d, Ok (negb (bool_decide (term ∈ terms))))
  end.

Definition manual_terms_snapshot (d : TargetRefreshDemand) : result TargetRefreshDemandError (list TermId) :=
  match rd_manual_terms d with
  | None => Err TargetRefreshDemandError_Unavailable
  | Some terms => Ok (bts_iter terms)
  end.

(** The targets without a pending retry, as the [BTreeSet] that is iterated. *)
Definition retry_targets (targets : list TermCampusKey) (state : ManualTargetRetryState) : gset TermCampusKey :=
  list_to_set (filter (λ target, mt_pending state !! target = None) targets).

Definition add_retry (state : ManualTargetRetryState) (target : TermCampusKey) : ManualTargetRetryState :=
  {| mt_next_generation := mt_next_generation state + 1;
     mt_pending := <[target := mt_next_generation state + 1]> (mt_pending state) |}.

(** The additions in the loop do not overflow after the check. [usize] has 64
    bits. *)
Definition request_manual_target_retries (targets : list TermCampusKey) (d : TargetRefreshDemand)
    : TargetRefreshDemand * result TargetRefreshDemandError Z :=
  match rd_manual_target_retries d with
  | None => (d, Err TargetRefreshDemandError_Unavailable)
  | Some state =>
      let new_targets := retry_targets targets state in
      let required := Z.of_nat (size new_targets) in
      if bool_decide (u64_max < required) then (d, Err TargetRefreshDemandError_Unavailable) else
      if bool_decide (u64_max < mt_next_generation state + required)
      then (d, Err TargetRefreshDemandError_Unavailable) else
      (set_retries (foldl add_retry state (bts_iter new_targets)) d, Ok required)
  end.

Definition retry_request (p : TermCampusKey * Z) : ManualTargetRetryRequest :=
  {| mr_target := p.1; mr_generation := p.2 |}.

Definition pending_manual_target_retries (d : TargetRefreshDemand)
    : result TargetRefreshDemandError (list ManualTargetRetryRequest) :=
  match rd_manual_target_retries d with
  | None => Err TargetRefreshDemandError_Unavailable
  | Some state => Ok (retry_request <$> btm_iter (mt_pending state))
  end.

Definition acknowledge_manual_target_retry (request : ManualTargetRetryRequest) (d : TargetRefreshDemand)
    : TargetRefreshDemand * result TargetRefreshDemandError bool :=
  match rd_manual_target_retries d with
  | None => (d, Err TargetRefreshDemandError_Unavailable)
  | Some state =>
      if bool_decide (mt_pending state !! mr_target request = Some (mr_generation request))
      then (set_retries {| mt_next_generation := mt_next_generation state;
                           mt_pending := delete (mr_target request) (mt_pending state) |} d, Ok true)
      else (d, Ok false)
  end.

(** * Correctness *)

(** ** Operations in a sequence *)

Inductive demand_op :=
| DemandRequest (target : TermCampusKey) (now : Instant)
| DemandRequestAll (targets : list TermCampusKey) (now : Instant)
| DemandSnapshot (now : Instant)
| DemandManualTerm (term : TermId)
| DemandRetry (targets : list TermCampusKey)
| DemandAcknowledge (request : ManualTargetRetryRequest).

Definition run_demand_op (op : demand_op) (d : TargetRefreshDemand) : TargetRefreshDemand :=
  match op with
  | DemandRequest target now => (request target now d).1
  | DemandRequestAll targets now => (request_all targets now d).1
  | DemandSnapshot now => (demand_snapshot now d).1
  | DemandManualTerm term => (request_manual_term term d).1
  | DemandRetry targets => (request_manual_target_retries targets d).1
  | DemandAcknowledge request => (acknowledge_manual_target_retry request d).1
  end.

Definition run_demand_ops (ops : list demand_op) (d : TargetRefreshDemand) : TargetRefreshDemand :=
  foldl (λ d op, run_demand_op op d) d ops.

(** ** Leases *)

Definition demand_instant (op : demand_op) : option Instant :=
  match op with
  | DemandRequest _ now | DemandRequestAll _ now | DemandSnapshot now => Some now
  | _ => None
  end.

(** The instant at which an operation requests a target. *)
Definition requests (target : TermCampusKey) (op : demand_op) : option Instant :=
  match op with
  | DemandRequest t now => if bool_decide (t = target) then Some now else None
  | DemandRequestAll ts now => if bool_decide (target ∈ ts) then Some now else None
  | _ => None
  end.

(** A target is demanded at [now] when one of the requests for it is not older
    than the lease. *)
Definition demanded (ops : list demand_op) (target : TermCampusKey) (now : Instant) : Prop :=
  ∃ s, s ∈ omap (requests target) ops ∧ now < s + TARGET_DEMAND_LEASE.

#[export] Instance demanded_dec ops target now : Decision (demanded ops target now).
Proof.
  destruct (decide (Exists (λ s, now < s + TARGET_DEMAND_LEASE) (omap (requests target) ops))) as [He|He];
    rewrite Exists_exists in He; [left|right]; exact He.
Defined.

(** The operations happen in the order of their instants. *)
Definition in_time_order (ops : list demand_op) : Prop := StronglySorted Z.le (omap demand_instant ops).

(** The leases at [now], for operations so far. *)
Definition leases_hold (ops : list demand_op) (now : Instant) (targets : gmap TermCampusKey Instant) : Prop :=
  ∀ target t, now ≤ t → (∃ e, targets !! target = Some e ∧ t < e) ↔ demanded ops target t.

Lemma demanded_snoc ops op target t :
  demanded (ops ++ [op]) target t ↔
    demanded ops target t ∨ ∃ s, requests target op = Some s ∧ t < s + TARGET_DEMAND_LEASE.
Proof.
  unfold demanded. rewrite omap_app. setoid_rewrite elem_of_app. cbn [omap list_omap].
  destruct (requests target op) as [s|]; set_solver.
Qed.

Lemma leases_later ops now now' m : now ≤ now' → leases_hold ops now m → leases_hold ops now' m.
Proof. intros Hle Hm target t Ht. apply Hm. lia. Qed.

Lemma leases_unrelated ops op now m :
  (∀ target, requests target op = None) → leases_hold ops now m → leases_hold (ops ++ [op]) now m.
Proof. intros Hop Hm target t Ht. rewrite demanded_snoc, (Hop target). specialize (Hm target t Ht). naive_solver. Qed.

Lemma leases_retain ops now m : leases_hold ops now m → leases_hold ops now (retain_leases now m).
Proof.
  intros Hm target t Ht. rewrite <-(Hm target t Ht). unfold retain_leases.
  setoid_rewrite map_lookup_filter_Some. simpl. split; [naive_solver|].
  intros (e & He & Hlt). exists e. split_and!; [done|lia|done].
Qed.

Lemma leases_present ops now m target :
  leases_hold ops now m → is_Some (retain_leases now m !! target) ↔ demanded ops target now.
Proof.
  intros Hm. rewrite <-(Hm target now) by lia. unfold retain_leases. split.
  - intros [e He%map_lookup_filter_Some]. by exists e.
  - intros (e & He & Hlt). exists e. by apply map_lookup_filter_Some.
Qed.

(** Renewing leases at [now]. *)
Lemma renew_leases_spec e targets m n m' n' :
  foldl (renew_lease e) (m, n) targets = (m', n') →
  (∀ t, m' !! t = if bool_decide (t ∈ targets) then Some e else m !! t) ∧
  n' = n + Z.of_nat (size (list_to_set (filter (λ t, m !! t = None) targets) : gset TermCampusKey)).
Proof.
  revert m n. induction targets as [|x l IH]; intros m n.
  { intros [= <- <-]. split; [|by rewrite filter_nil, Z.add_0_r].
    intros t. by rewrite bool_decide_false by apply not_elem_of_nil. }
  simpl foldl. intros [Hm ->]%IH. split.
  - intros t. rewrite Hm. destruct (decide (t = x)) as [->|Hne].
    + rewrite (bool_decide_true (x ∈ x :: l)) by left. rewrite lookup_insert_eq. by destruct (bool_decide (x ∈ l)).
    + rewrite lookup_insert_ne by done. erewrite bool_decide_ext; [done|]. rewrite elem_of_cons. naive_solver.
  - set (rest := list_to_set (filter (λ t, <[x:=e]> m !! t = None) l) : gset TermCampusKey).
    assert (∀ t, t ∈ rest ↔ t ∈ l ∧ t ≠ x ∧ m !! t = None) as Hrest.
    { intros t. unfold rest. rewrite elem_of_list_to_set, list_elem_of_filter, lookup_insert_None. naive_solver. }
    set (all := list_to_set (filter (λ t, m !! t = None) (x :: l)) : gset TermCampusKey).
    assert (∀ t, t ∈ all ↔ (t = x ∨ t ∈ l) ∧ m !! t = None) as Hall.
    { intros t. unfold all. rewrite elem_of_list_to_set, list_elem_of_filter, elem_of_cons. naive_solver. }
    case_bool_decide as Hx.
    + replace all with rest; [lia|]. apply leibniz_equiv. intros t. rewrite Hrest, Hall.
      destruct Hx as [v Hx]. split; [naive_solver|]. intros [[->|Ht] HN]; [congruence|].
      split_and!; [done|intros ->; congruence|done].
    + rewrite <-eq_None_not_Some in Hx. replace all with ({[ x ]} ∪ rest : gset TermCampusKey).
      * rewrite size_union, size_singleton; [lia|]. intros t ->%elem_of_singleton Ht. apply Hrest in Ht. naive_solver.
      * apply leibniz_equiv. intros t. rewrite elem_of_union, elem_of_singleton, Hrest, Hall.
        destruct (decide (t = x)); naive_solver.
Qed.

(** No operation so far is later than [now]. *)
Definition no_later (ops : list demand_op) (now : Instant) : Prop :=
  ∀ op s, op ∈ ops → demand_instant op = Some s → s ≤ now.

Lemma no_later_requests ops now target s :
  s ∈ omap (requests target) ops → no_later ops now → s ≤ now.
Proof.
  intros (op & Hop & Hs)%list_elem_of_omap Hle. apply (Hle op); [done|].
  destruct op; simpl in *; try done; by case_bool_decide.
Qed.

(** Every operation keeps the leases in step with the requests. *)
Definition demand_ok (ops : list demand_op) (now : Instant) (d : TargetRefreshDemand) : Prop :=
  rd_lease_duration d = TARGET_DEMAND_LEASE ∧ ∃ m, rd_targets d = Some m ∧ leases_hold ops now m.

Lemma leases_request ops now m m' (op : demand_op) (named : TermCampusKey → bool) :
  leases_hold ops now m → no_later ops now →
  (∀ target, requests target op = if named target then Some now else None) →
  (∀ target, m' !! target = if named target then Some (now + TARGET_DEMAND_LEASE) else m !! target) →
  leases_hold (ops ++ [op]) now m'.
Proof.
  intros Hm Hle Hop Hm' target t Ht. rewrite demanded_snoc, (Hop target), (Hm' target). specialize (Hm target t Ht).
  destruct (named target); [|naive_solver]. split.
  - intros (e & [= <-] & Hlt). right. by exists now.
  - intros [(s & Hs & Hlt)|(s & [= <-] & Hlt)]; [|by eexists].
    exists (now + TARGET_DEMAND_LEASE). split; [done|]. apply no_later_requests with (now := now) in Hs; [lia|done].
Qed.

Lemma demand_step ops op now d :
  demand_ok ops now d → no_later ops now → (∀ s, demand_instant op = Some s → s = now) →
  demand_ok (ops ++ [op]) now (run_demand_op op d).
Proof.
  intros (Hlease & m & Hm & Hok) Hle Hnow. destruct op; simpl in *; unfold demand_ok.
  - rewrite <-(Hnow now0 eq_refl) in *. clear Hnow. unfold request. rewrite Hm. simpl. split; [done|].
    eexists. split; [done|]. apply (leases_request ops now0 m _ _ (λ t, bool_decide (target = t))); [done..|].
    intros t. rewrite Hlease. case_bool_decide as Ht; [subst; apply lookup_insert_eq|by apply lookup_insert_ne].
  - rewrite <-(Hnow now0 eq_refl) in *. clear Hnow. unfold request_all. rewrite Hm.
    destruct (foldl _ _ targets) as [m' n] eqn:Hf. apply renew_leases_spec in Hf as [Hm' _]. split; [done|].
    exists m'. split; [done|].
    apply (leases_request ops now0 (retain_leases now0 m) m' _ (λ t, bool_decide (t ∈ targets)));
      [by apply leases_retain|done..|]. rewrite <-Hlease. apply Hm'.
  - unfold demand_snapshot. rewrite Hm. split; [done|]. eexists. split; [done|].
    apply leases_unrelated; [done|]. rewrite (Hnow _ eq_refl). by apply leases_retain.
  - unfold request_manual_term. destruct (rd_manual_terms d); (split; [done|]; exists m; split; [done|by apply leases_unrelated]).
  - unfold request_manual_target_retries. destruct (rd_manual_target_retries d); [repeat case_bool_decide|];
      (split; [done|]; exists m; split; [done|by apply leases_unrelated]).
  - unfold acknowledge_manual_target_retry. destruct (rd_manual_target_retries d); [repeat case_bool_decide|];
      (split; [done|]; exists m; split; [done|by apply leases_unrelated]).
Qed.

Lemma run_demand_ok ops now :
  in_time_order ops → no_later ops now → demand_ok ops now (run_demand_ops ops TargetRefreshDemand_default).
Proof.
  revert now. induction ops as [|op ops IH] using rev_ind; intros now Hs Hle.
  { split; [done|]. exists ∅. split; [done|]. intros target t _. unfold demanded. simpl.
    split; [by intros (e & He & _)|by intros (s & ?%not_elem_of_nil & _)]. }
  unfold in_time_order in Hs. rewrite omap_app in Hs. apply StronglySorted_app in Hs as (Hlt & Hs & _).
  assert (no_later ops (default now (demand_instant op))) as Hbefore.
  { intros op' s Hop' Hs'. destruct (demand_instant op) as [s'|] eqn:E; simpl.
    - apply Hlt; [by apply list_elem_of_omap; exists op'|]. cbn. rewrite E. left.
    - apply (Hle op'); [apply elem_of_app; by left|done]. }
  assert (default now (demand_instant op) ≤ now) as Hnow.
  { destruct (demand_instant op) as [s|] eqn:E; simpl; [|lia]. apply (Hle op); [apply elem_of_app; right; left|done]. }
  unfold run_demand_ops. rewrite foldl_app. simpl.
  destruct (demand_step ops op _ _ (IH _ Hs Hbefore) Hbefore) as (Hl & m & Hm & Hok); [by intros s ->|].
  split; [done|]. exists m. split; [done|]. by eapply leases_later.
Qed.

(** After any operations in the order of their instants, the targets a
    snapshot returns are, in key order, exactly those requested within the
    lease; a request is told that it is the first exactly when its target was
    not demanded, and a bulk request counts exactly the distinct targets that
    were not. *)
Theorem demand_leases ops now (Hordered : in_time_order ops) (Hnow : no_later ops now) :
  let d := run_demand_ops ops TargetRefreshDemand_default in
  (∃ keys, (demand_snapshot now d).2 = Ok keys ∧ StronglySorted rle keys ∧ NoDup keys ∧
     ∀ target, target ∈ keys ↔ demanded ops target now) ∧
  (∀ target, (request target now d).2 = Ok (bool_decide (¬ demanded ops target now))) ∧
  (∀ targets, ∃ new : gset TermCampusKey, (request_all targets now d).2 = Ok (Z.of_nat (size new)) ∧
     ∀ target, target ∈ new ↔ target ∈ targets ∧ ¬ demanded ops target now).
Proof.
  destruct (run_demand_ok ops now Hordered Hnow) as (_ & m & Hm & Hok). cbv zeta.
  split_and!.
  - unfold demand_snapshot. rewrite Hm. eexists. split; [done|].
    split_and!; [apply StronglySorted_btm_keys|apply NoDup_btm_keys|].
    intros target. rewrite elem_of_btm_keys. by apply leases_present.
  - intros target. unfold request. rewrite Hm. simpl. f_equal.
    specialize (Hok target now ltac:(lia)). destruct (m !! target) as [e|].
    + apply bool_decide_ext. rewrite <-Hok. split; [intros Hle (e' & [= <-] & ?); lia|].
      intros Hn. destruct (decide (e ≤ now)); [done|]. destruct Hn. exists e. split; [done|lia].
    + symmetry. apply bool_decide_true. rewrite <-Hok. by intros (e & He & _).
  - intros targets. unfold request_all. rewrite Hm. destruct (foldl _ _ targets) as [m' n] eqn:Hf.
    apply renew_leases_spec in Hf as [_ ->]. eexists. split; [done|].
    intros target. rewrite elem_of_list_to_set, list_elem_of_filter, <-(leases_present _ _ _ _ Hok), eq_None_not_Some.
    naive_solver.
Qed.

(** ** Explicit retries *)

Definition pending (r : ManualTargetRetryRequest) (st : ManualTargetRetryState) : Prop :=
  mt_pending st !! mr_target r = Some (mr_generation r).

#[export] Instance pending_dec r st : Decision (pending r st) := decide (_ = _).

(** Generations are distinct and were counted. *)
Record retries_wf (st : ManualTargetRetryState) : Prop := {
  rw_next : 0 ≤ mt_next_generation st ≤ u64_max;
  rw_bounds r : pending r st → 0 < mr_generation r ≤ mt_next_generation st;
  rw_distinct r r' : pending r st → pending r' st → mr_generation r = mr_generation r' → r = r'
}.

(** The retries added for targets in order. *)
Lemma add_retries targets st :
  NoDup targets →
  let st' := foldl add_retry st targets in
  mt_next_generation st' = mt_next_generation st + Z.of_nat (length targets) ∧
  (∀ i t, targets !! i = Some t → mt_pending st' !! t = Some (mt_next_generation st + 1 + Z.of_nat i)) ∧
  (∀ t, t ∉ targets → mt_pending st' !! t = mt_pending st !! t).
Proof.
  revert st. induction targets as [|x l IH]; intros st Hnd; simpl.
  { split_and!; [lia|done|done]. }
  apply NoDup_cons in Hnd as [Hx Hnd]. destruct (IH (add_retry st x) Hnd) as (Hnext & Hin & Hout).
  split_and!.
  - rewrite Hnext. simpl. lia.
  - intros [|i] t; simpl.
    + intros [= <-]. rewrite Hout by done. simpl. rewrite lookup_insert_eq. f_equal. lia.
    + intros Hi. rewrite (Hin i t Hi). simpl. f_equal. lia.
  - intros t [Hne Ht]%not_elem_of_cons. rewrite Hout by done. simpl. by apply lookup_insert_ne.
Qed.

(** What a request for retries does to a state. *)
Lemma request_retries_cases targets d st :
  rd_manual_target_retries d = Some st → retries_wf st →
  let new := retry_targets targets st in
  if bool_decide (mt_next_generation st + Z.of_nat (size new) ≤ u64_max)
  then request_manual_target_retries targets d =
    (set_retries (foldl add_retry st (bts_iter new)) d, Ok (Z.of_nat (size new)))
  else request_manual_target_retries targets d = (d, Err TargetRefreshDemandError_Unavailable).
Proof.
  intros Hd Hwf. cbv zeta. unfold request_manual_target_retries. rewrite Hd. pose proof (rw_next _ Hwf).
  repeat case_bool_decide; try done; lia.
Qed.

Lemma elem_of_retry_targets targets st t :
  t ∈ retry_targets targets st ↔ t ∈ targets ∧ mt_pending st !! t = None.
Proof. unfold retry_targets. rewrite elem_of_list_to_set, list_elem_of_filter. tauto. Qed.

(** The state after adding the retries of new targets. *)
Lemma add_retries_pending (new : gset TermCampusKey) st r :
  (∀ t, t ∈ new → mt_pending st !! t = None) →
  pending r (foldl add_retry st (bts_iter new)) ↔
    pending r st ∨ ∃ i, bts_iter new !! i = Some (mr_target r) ∧
      mr_generation r = mt_next_generation st + 1 + Z.of_nat i.
Proof.
  intros Hnew. destruct (add_retries (bts_iter new) st (NoDup_bts_iter new)) as (_ & Hin & Hout).
  unfold pending. destruct (decide (mr_target r ∈ new)) as [Ht|Ht].
  - rewrite (Hnew _ Ht). apply elem_of_bts_iter, list_elem_of_lookup in Ht as [i Hi]. rewrite (Hin i _ Hi).
    split; [intros [= <-]; right; by exists i|]. intros [?|(j & Hj & ->)]; [done|].
    by rewrite (NoDup_lookup _ i j _ (NoDup_bts_iter new) Hi Hj).
  - rewrite Hout by by rewrite elem_of_bts_iter. split; [by left|]. intros [?|(i & Hi & _)]; [done|].
    by apply list_elem_of_lookup_2, elem_of_bts_iter in Hi.
Qed.

Lemma add_retries_wf (new : gset TermCampusKey) st :
  retries_wf st → (∀ t, t ∈ new → mt_pending st !! t = None) →
  mt_next_generation st + Z.of_nat (size new) ≤ u64_max →
  retries_wf (foldl add_retry st (bts_iter new)).
Proof.
  intros Hwf Hnew Hmax. destruct (add_retries (bts_iter new) st (NoDup_bts_iter new)) as (Hnext & _ & _).
  rewrite length_bts_iter in Hnext. pose proof (rw_next _ Hwf). split; [lia|..].
  - intros r [Hr|(i & Hi & Hg)]%add_retries_pending; [|apply lookup_lt_Some in Hi; rewrite length_bts_iter in Hi; lia|done].
    apply (rw_bounds _ Hwf) in Hr. lia.
  - intros r r' Hr%add_retries_pending Hr'%add_retries_pending Heq; [|done..].
    destruct Hr as [Hr|(i & Hi & Hg)], Hr' as [Hr'|(j & Hj & Hg')].
    + by apply (rw_distinct _ Hwf).
    + apply (rw_bounds _ Hwf) in Hr. lia.
    + apply (rw_bounds _ Hwf) in Hr'. lia.
    + assert (i = j) as <- by lia. destruct r, r'; simpl in *. congruence.
Qed.

(** The retries of a demand whose lock is not poisoned. *)
Definition retries_ok (d : TargetRefreshDemand) (st : ManualTargetRetryState) : Prop :=
  rd_manual_target_retries d = Some st ∧ retries_wf st.

(** How many times a run acknowledges a retry. *)
Definition acknowledges (r : ManualTargetRetryRequest) (op : demand_op) (d : TargetRefreshDemand) : bool :=
  match op with
  | DemandAcknowledge request =>
      bool_decide (mr_target request = mr_target r ∧ mr_generation request = mr_generation r) &&
      match (acknowledge_manual_target_retry request d).2 with Ok accepted => accepted | Err _ => false end
  | _ => false
  end.

Fixpoint acknowledgements (r : ManualTargetRetryRequest) (ops : list demand_op) (d : TargetRefreshDemand) : nat :=
  match ops with
  | [] => O
  | op :: ops => ((if acknowledges r op d then 1 else 0) + acknowledgements r ops (run_demand_op op d))%nat
  end.

(** One operation: a pending retry stays pending unless it is acknowledged, and
    what is newly pending has a new generation. *)
Lemma retries_step op d st :
  retries_ok d st →
  ∃ st', retries_ok (run_demand_op op d) st' ∧
    mt_next_generation st ≤ mt_next_generation st' ∧
    (∀ r, pending r st → pending r st' ↔ acknowledges r op d = false) ∧
    (∀ r, ¬ pending r st → acknowledges r op d = false) ∧
    (∀ r, pending r st' → pending r st ∨ mt_next_generation st < mr_generation r).
Proof.
  intros [Hd Hwf].
  assert (∀ d', rd_manual_target_retries d' = Some st → (∀ r, acknowledges r op d = false) →
    ∃ st', retries_ok d' st' ∧ mt_next_generation st ≤ mt_next_generation st' ∧
      (∀ r, pending r st → pending r st' ↔ acknowledges r op d = false) ∧
      (∀ r, ¬ pending r st → acknowledges r op d = false) ∧
      (∀ r, pending r st' → pending r st ∨ mt_next_generation st < mr_generation r)) as Hsame.
  { intros d' Hd' Hack. exists st. split_and!; [done|lia| | |]; intros r; rewrite ?Hack; naive_solver. }
  destruct op; simpl run_demand_op; [apply Hsame; [|done]..| |].
  - unfold request. by destruct (rd_targets d).
  - unfold request_all. destruct (rd_targets d); [|done]. by destruct (foldl _ _ _).
  - unfold demand_snapshot. by destruct (rd_targets d).
  - unfold request_manual_term. by destruct (rd_manual_terms d).
  - pose proof (request_retries_cases targets d st Hd Hwf) as Hcase. cbv zeta in Hcase.
    case_bool_decide as Hmax; rewrite Hcase; [|by apply Hsame]. simpl.
    assert (∀ t, t ∈ retry_targets targets st → mt_pending st !! t = None) as Hnew
      by by intros t [_ Ht]%elem_of_retry_targets.
    eexists. split; [split; [done|by apply add_retries_wf]|].
    split_and!; [|intros r Hr; rewrite add_retries_pending by done; naive_solver|done|].
    + destruct (add_retries (bts_iter (retry_targets targets st)) st (NoDup_bts_iter _)) as (-> & _ & _). lia.
    + intros r [Hr|(i & _ & ->)]%add_retries_pending; [by left|right; lia|done].
  - unfold acknowledges, acknowledge_manual_target_retry. rewrite Hd. case_bool_decide as Hp; simpl.
    2: { exists st. split_and!; [done|lia|..]; intros r; rewrite ?andb_false_r; naive_solver. }
    eexists. split; [split; [done|]|]; [|split_and!; [simpl; lia|..]]; unfold pending; simpl.
    + pose proof (rw_next _ Hwf). split; unfold pending; simpl; [done|..].
      * intros r [_ Hr]%lookup_delete_Some. by apply (rw_bounds _ Hwf).
      * intros r r' [_ Hr]%lookup_delete_Some [_ Hr']%lookup_delete_Some. by apply (rw_distinct _ Hwf).
    + intros r Hr. rewrite andb_true_r, bool_decide_eq_false. rewrite lookup_delete_Some.
      split; [naive_solver|]. intros Hne. split; [|done]. intros Ht. apply Hne. split; [done|]. congruence.
    + intros r Hr. rewrite andb_true_r, bool_decide_eq_false. intros [Ht Hg]. apply Hr. by rewrite <-Ht, <-Hg.
    + intros r [_ Hr]%lookup_delete_Some. by left.
Qed.

Lemma retries_run ops d st r :
  retries_ok d st →
  ∃ st', retries_ok (run_demand_ops ops d) st' ∧
    (pending r st → (acknowledgements r ops d ≤ 1)%nat ∧ (pending r st' ↔ acknowledgements r ops d = O)) ∧
    (¬ pending r st → mr_generation r ≤ mt_next_generation st → acknowledgements r ops d = O ∧ ¬ pending r st') ∧
    (¬ pending r st → (acknowledgements r ops d ≤ 1)%nat ∧ (acknowledgements r ops d = 1%nat → ¬ pending r st')).
Proof.
  revert d st. induction ops as [|op ops IH]; intros d st Hok.
  { exists st. simpl. split_and!; naive_solver lia. }
  destruct (retries_step op d st Hok) as (st1 & Hok1 & Hnext & Hkeep & Hnack & Hnew).
  destruct (IH _ _ Hok1) as (st' & Hok' & Hp & Hold & Hfresh). exists st'. split; [done|].
  cbn [acknowledgements]. pose proof (rw_bounds _ (proj2 Hok) r) as Hb.
  split_and!.
  - intros Hr. destruct (acknowledges r op d) eqn:Hack.
    + assert (¬ pending r st1) as Hn by (rewrite (Hkeep r Hr), Hack; done).
      destruct (Hold Hn) as [-> Hn']; [specialize (Hb Hr); lia|]. split; [lia|]. split; [done|lia].
    + destruct Hp as [Hle Hiff]; [by apply Hkeep|]. split; [lia|exact Hiff].
  - intros Hr Hg. rewrite (Hnack r Hr). simpl. apply Hold; [|lia].
    intros [?|?]%Hnew; [done|lia].
  - intros Hr. rewrite (Hnack r Hr). simpl. destruct (decide (pending r st1)) as [Hr1|Hr1].
    + destruct (Hp Hr1) as [Hle Hiff]. split; [done|]. intros H1 Hr'%Hiff. lia.
    + by apply Hfresh.
Qed.

Lemma run_retries_ok ops : ∃ st, retries_ok (run_demand_ops ops TargetRefreshDemand_default) st.
Proof.
  assert (retries_ok TargetRefreshDemand_default ManualTargetRetryState_default) as Hok.
  { split; [done|]. split; unfold pending; simpl; [by compute|done..]. }
  destruct (retries_run ops _ _ {| mr_target := tck_of_tuple ("", ""); mr_generation := 0 |} Hok) as (st & Hst & _).
  by exists st.
Qed.

(** Over any operations, each explicit retry is acknowledged at most once,
    stays pending until it is, is never pending again, and is never
    confused with another: a retry that becomes pending has a generation that
    was never used. Only what is pending is acknowledged. *)
Theorem manual_retries_exactly_once before ops r :
  let d := run_demand_ops before TargetRefreshDemand_default in
  let d' := run_demand_ops ops d in
  ∃ st st', rd_manual_target_retries d = Some st ∧ rd_manual_target_retries d' = Some st' ∧
    (acknowledgements r (before ++ ops) TargetRefreshDemand_default ≤ 1)%nat ∧
    (pending r st → pending r st' ↔ acknowledgements r ops d = O) ∧
    (¬ pending r st → mr_generation r ≤ mt_next_generation st →
       ¬ pending r st' ∧ acknowledgements r ops d = O) ∧
    (∀ r', pending r st' → pending r' st' → mr_generation r = mr_generation r' → r = r').
Proof.
  cbv zeta. destruct (run_retries_ok before) as [st [Hst Hwf]].
  destruct (retries_run ops _ st r (conj Hst Hwf)) as (st' & [Hst' Hwf'] & Hp & Hold & _).
  assert (retries_ok TargetRefreshDemand_default ManualTargetRetryState_default) as Hok.
  { split; [done|]. split; unfold pending; simpl; [by compute|done..]. }
  exists st, st'. split_and!; [done|done| | | |].
  - destruct (retries_run (before ++ ops) _ _ r Hok) as (st2 & _ & _ & _ & Hle). by apply Hle.
  - intros Hr. by apply Hp.
  - intros Hr Hg. destruct (Hold Hr Hg). done.
  - intros r'. by apply (rw_distinct _ Hwf').
Qed.

(** A request for retries either counts the distinct targets it names that
    have no pending retry, and makes exactly those pending, in key order, with
    the next generations; or, when the generations would overflow, changes
    nothing. *)
Theorem manual_retry_request_spec ops targets :
  let d := run_demand_ops ops TargetRefreshDemand_default in
  ∃ st (new : gset TermCampusKey), rd_manual_target_retries d = Some st ∧
    (∀ t, t ∈ new ↔ t ∈ targets ∧ mt_pending st !! t = None) ∧
    (if bool_decide (mt_next_generation st + Z.of_nat (size new) ≤ u64_max)
     then ∃ d' st', request_manual_target_retries targets d = (d', Ok (Z.of_nat (size new))) ∧
       rd_manual_target_retries d' = Some st' ∧
       mt_next_generation st' = mt_next_generation st + Z.of_nat (size new) ∧
       ∀ r, pending r st' ↔ pending r st ∨ ∃ i, bts_iter new !! i = Some (mr_target r) ∧
         mr_generation r = mt_next_generation st + 1 + Z.of_nat i
     else request_manual_target_retries targets d = (d, Err TargetRefreshDemandError_Unavailable)).
Proof.
  cbv zeta. destruct (run_retries_ok ops) as [st [Hst Hwf]]. set (d := run_demand_ops _ _) in *.
  exists st, (retry_targets targets st). split; [done|]. split; [intros t; apply elem_of_retry_targets|].
  pose proof (request_retries_cases targets d st Hst Hwf) as Hcase. cbv zeta in Hcase.
  case_bool_decide as Hmax; [|exact Hcase]. rewrite Hcase. eexists _, _. split_and!; [done|done| |].
  - destruct (add_retries (bts_iter (retry_targets targets st)) st (NoDup_bts_iter _)) as (-> & _ & _).
    by rewrite length_bts_iter.
  - intros r. apply add_retries_pending. by intros t [_ Ht]%elem_of_retry_targets.
Qed.

(** ** Witnesses *)

Definition sample_target (campus : string) : TermCampusKey := tck_of_tuple ("92026", campus).
Definition sample_demand_ops : list demand_op :=
  [DemandRequest (sample_target "NB") 5; DemandRetry [sample_target "NB"; sample_target "CM"; sample_target "NB"];
   DemandRequestAll [sample_target "NB"; sample_target "NK"] (duration_from_secs 60)].

Lemma demand_leases_witness :
  in_time_order sample_demand_ops ∧ no_later sample_demand_ops (duration_from_secs 100) ∧
  (request (sample_target "NB") (duration_from_secs 100)
     (run_demand_ops sample_demand_ops TargetRefreshDemand_default)).2 = Ok false ∧
  demanded sample_demand_ops (sample_target "NB") (duration_from_secs 100).
Proof.
  assert (in_time_order sample_demand_ops) as Hordered.
  { unfold in_time_order. simpl. repeat constructor; vm_compute; discriminate. }
  assert (no_later sample_demand_ops (duration_from_secs 100)) as Hnow.
  { intros op s Hop Hs. repeat (apply elem_of_cons in Hop as [->|Hop]; [simpl in Hs; simplify_eq; vm_compute; discriminate|]).
    by apply not_elem_of_nil in Hop. }
  split; [exact Hordered|]. split; [exact Hnow|].
  destruct (demand_leases sample_demand_ops (duration_from_secs 100) Hordered Hnow) as (_ & Hreq & _).
  assert (demanded sample_demand_ops (sample_target "NB") (duration_from_secs 100)) as Hd.
  { exists (duration_from_secs 60). split; [|vm_compute; reflexivity]. apply (bool_decide_unpack _). vm_compute. exact I. }
  split; [|exact Hd]. rewrite (Hreq (sample_target "NB")). by rewrite bool_decide_false by (intros Hn; exact (Hn Hd)).
Defined.
