(* ===== verification/Presence.v ===== *)
(** * Page presence of the local program (crates/bcsp-local-runtime/src/presence.rs)

    The registry of page connections, the countdown that follows the last page
    out, and the exit it requests. Each definition is one critical section of
    the lock; an operation samples its clock before it takes the lock, so the
    instants of successive sections need not be ordered. A poisoned lock is
    recovered. Log lines are left out; what the console is told, what is sent
    to a page and the exit request are effects. *)

From S2P Require Import Prelude Contracts RateLimit.

(** ** Data *)

Definition LOCAL_IDLE_EXIT_COUNTDOWN : Z := duration_from_secs 60.
Definition LOCAL_PRESENCE_HELLO_DEADLINE : Z := duration_from_secs 10.

(** [LocalExitReason] and [LocalConsoleEvent] of console.rs. *)
Inductive LocalExitReason :=
| LocalExitReason_NoPages
| LocalExitReason_Requested
| LocalExitReason_Signal.

Inductive LocalConsoleEvent :=
| LocalConsoleEvent_Started (origin : string)
| LocalConsoleEvent_PageOpened (pages : Z)
| LocalConsoleEvent_PageClosed (pages : Z)
| LocalConsoleEvent_ExitCountdown (seconds : Z)
| LocalConsoleEvent_ExitCancelled (pages : Z)
| LocalConsoleEvent_Exiting (reason : LocalExitReason)
| LocalConsoleEvent_Stopped
| LocalConsoleEvent_AlertsAttached
| LocalConsoleEvent_AlertsDetached
| LocalConsoleEvent_WatchArmed (section : string)
| LocalConsoleEvent_WatchDisarmed (section : string)
| LocalConsoleEvent_SectionOpen (section : string)
| LocalConsoleEvent_GateHolding (target : string)
| LocalConsoleEvent_GateReleased (target : string)
| LocalConsoleEvent_BrowserLaunchSkipped (url : string).

Inductive LocalPresenceCommandV1 :=
| LocalPresenceCommandV1_Hello (tab_id : TraceId).

Inductive LocalPresenceEventV1 :=
| LocalPresenceEventV1_Registered (tab_id : TraceId) (pages : Z).

Inductive LocalPresencePhase :=
| LocalPresencePhase_Running
| LocalPresencePhase_CountingDown (generation : Z) (due_at : Instant)
| LocalPresencePhase_Exiting.

#[export] Instance LocalPresencePhase_eq_dec : EqDecision LocalPresencePhase.
Proof. solve_decision. Defined.

Record LocalPresenceStateV1 := { ps_pages : Z; ps_phase : LocalPresencePhase }.

(** The outbound sender of a connection is its identity. *)
Record PresenceConnection := { pc_hello_deadline : Instant; pc_tab : option TraceId }.

Record PresenceRegistry := {
  pr_connections : gmap TraceId PresenceConnection;
  pr_tabs : gmap TraceId TraceId;
  pr_phase : LocalPresencePhase;
  pr_ever_counted_a_page : bool;
  pr_generation : Z;
  pr_announced_second : option Z;
  pr_sealed : bool
}.

(** The configuration of the route; [lp_console] tells whether it has one. *)
Record LocalPresenceRoute := {
  lp_countdown : Z;
  lp_hello_deadline : Z;
  lp_console : bool
}.

Definition LocalPresenceRoute_new : LocalPresenceRoute :=
  {| lp_countdown := LOCAL_IDLE_EXIT_COUNTDOWN; lp_hello_deadline := LOCAL_PRESENCE_HELLO_DEADLINE;
     lp_console := false |}.
Definition with_console (route : LocalPresenceRoute) : LocalPresenceRoute :=
  {| lp_countdown := lp_countdown route; lp_hello_deadline := lp_hello_deadline route; lp_console := true |}.
Definition with_countdown (countdown : Z) (route : LocalPresenceRoute) : LocalPresenceRoute :=
  {| lp_countdown := countdown; lp_hello_deadline := lp_hello_deadline route; lp_console := lp_console route |}.
Definition with_hello_deadline (deadline : Z) (route : LocalPresenceRoute) : LocalPresenceRoute :=
  {| lp_countdown := lp_countdown route; lp_hello_deadline := deadline; lp_console := lp_console route |}.

Definition PresenceRegistry_new : PresenceRegistry :=
  {| pr_connections := ∅; pr_tabs := ∅; pr_phase := LocalPresencePhase_Running;
     pr_ever_counted_a_page := false; pr_generation := 0; pr_announced_second := None; pr_sealed := false |}.

Inductive PresenceEffect :=
| PresenceReport (event : LocalConsoleEvent)
| PresenceSend (connection : TraceId) (event : LocalPresenceEventV1) (message_id : TraceId)
| PresenceRequestExit.

(** ** Record updates *)

Definition pr_set_phase (phase : LocalPresencePhase) (generation : Z) (announced : option Z)
    (r : PresenceRegistry) : PresenceRegistry :=
  {| pr_connections := pr_connections r; pr_tabs := pr_tabs r; pr_phase := phase;
     pr_ever_counted_a_page := pr_ever_counted_a_page r; pr_generation := generation;
     pr_announced_second := announced; pr_sealed := pr_sealed r |}.
Definition pr_set_connections (connections : gmap TraceId PresenceConnection) (tabs : gmap TraceId TraceId)
    (ever : bool) (r : PresenceRegistry) : PresenceRegistry :=
  {| pr_connections := connections; pr_tabs := tabs; pr_phase := pr_phase r;
     pr_ever_counted_a_page := ever; pr_generation := pr_generation r;
     pr_announced_second := pr_announced_second r; pr_sealed := pr_sealed r |}.

(** ** Operations *)

(** [usize] has 64 bits. *)
Definition pr_pages (r : PresenceRegistry) : Z := Z.min (Z.of_nat (size (pr_tabs r))) u64_max.

Definition presence_state (r : PresenceRegistry) : LocalPresenceStateV1 :=
  {| ps_pages := pr_pages r; ps_phase := pr_phase r |}.

Section route.
Context (route : LocalPresenceRoute).

Definition report (event : LocalConsoleEvent) : list PresenceEffect :=
  if lp_console route then [PresenceReport event] else [].

(** [generation += 1] on a [u64]. *)
Definition next_generation (r : PresenceRegistry) : Z := (pr_generation r + 1) mod 2 ^ 64.

(** [Duration::as_secs]. *)
Definition as_secs (duration : Z) : Z := duration / NANOS_PER_SEC.

Definition reconcile (r : PresenceRegistry) (now : Instant) : PresenceRegistry * list PresenceEffect * bool :=
  if pr_sealed r then (r, [], false) else
  match pr_phase r with
  | LocalPresencePhase_Exiting => (r, [], false)
  | LocalPresencePhase_Running =>
      if bool_decide (0 < pr_pages r) then (r, [], false)
      else if negb (pr_ever_counted_a_page r) then (r, [], false)
      else
        let generation := next_generation r in
        (pr_set_phase (LocalPresencePhase_CountingDown generation (now + lp_countdown route)) generation None r,
         report (LocalConsoleEvent_ExitCountdown (as_secs (lp_countdown route))), false)
  | LocalPresencePhase_CountingDown generation due_at =>
      if bool_decide (0 < pr_pages r) then
        (pr_set_phase LocalPresencePhase_Running (next_generation r) None r,
         report (LocalConsoleEvent_ExitCancelled (pr_pages r)), false)
      else if bool_decide (now < due_at) then
        let remaining := as_secs (due_at - now) in
        if bool_decide (pr_announced_second r = Some remaining) then (r, [], false)
        else (pr_set_phase (pr_phase r) (pr_generation r) (Some remaining) r,
              report (LocalConsoleEvent_ExitCountdown remaining), false)
      else if negb (bool_decide (generation = pr_generation r)) then (r, [], false)
      else (pr_set_phase LocalPresencePhase_Exiting (pr_generation r) (pr_announced_second r) r, [], true)
  end.

(** [reconcile] at the end of a section, then the exit outside the lock. *)
Definition reconciled (r : PresenceRegistry) (effects : list PresenceEffect) (now : Instant)
    : PresenceRegistry * list PresenceEffect :=
  let '(r, reported, exit) := reconcile r now in
  (r, effects ++ reported ++ if exit then [PresenceRequestExit] else []).

Definition after_change (now : Instant) (r : PresenceRegistry) : PresenceRegistry * list PresenceEffect :=
  reconciled r [] now.

Definition seal (r : PresenceRegistry) : PresenceRegistry :=
  {| pr_connections := ∅; pr_tabs := ∅; pr_phase := LocalPresencePhase_Exiting;
     pr_ever_counted_a_page := pr_ever_counted_a_page r; pr_generation := pr_generation r;
     pr_announced_second := pr_announced_second r; pr_sealed := true |}.

(** No new page is taken: sealed, or the exit was requested. *)
Definition leaving (r : PresenceRegistry) : bool :=
  pr_sealed r || bool_decide (pr_phase r = LocalPresencePhase_Exiting).

Definition connect (connection_id : TraceId) (now : Instant) (r : PresenceRegistry)
    : PresenceRegistry * bool :=
  if leaving r then (r, false)
  else (pr_set_connections
          (<[connection_id := {| pc_hello_deadline := now + lp_hello_deadline route; pc_tab := None |}]>
             (pr_connections r)) (pr_tabs r) (pr_ever_counted_a_page r) r, true).

(** The section of a decoded HELLO; [true] when the caller must [close] the
    connection, in a section of its own. *)
Definition hello (connection_id message_id tab_id : TraceId) (now : Instant) (r : PresenceRegistry)
    : PresenceRegistry * list PresenceEffect * bool :=
  if leaving r then (r, [], true) else
  match pr_connections r !! connection_id with
  | None => (r, [], false)
  | Some connection =>
      match pc_tab connection with
      | Some _ => (r, [], true)
      | None =>
          let r := pr_set_connections
            (<[connection_id := {| pc_hello_deadline := pc_hello_deadline connection; pc_tab := Some tab_id |}]>
               (pr_connections r)) (<[tab_id := connection_id]> (pr_tabs r)) true r in
          let effects :=
            PresenceSend connection_id (LocalPresenceEventV1_Registered tab_id (pr_pages r)) message_id ::
            report (LocalConsoleEvent_PageOpened (pr_pages r)) in
          (reconciled r effects now, false)
      end
  end.

(** Removing a connection and the tab it speaks for. *)
Definition remove_connection (connection_id : TraceId) (connection : PresenceConnection) (r : PresenceRegistry)
    : PresenceRegistry * list PresenceEffect :=
  let connections := delete connection_id (pr_connections r) in
  match pc_tab connection with
  | Some tab =>
      if bool_decide (pr_tabs r !! tab = Some connection_id) then
        let r := pr_set_connections connections (delete tab (pr_tabs r)) (pr_ever_counted_a_page r) r in
        (r, report (LocalConsoleEvent_PageClosed (pr_pages r)))
      else (pr_set_connections connections (pr_tabs r) (pr_ever_counted_a_page r) r, [])
  | None => (pr_set_connections connections (pr_tabs r) (pr_ever_counted_a_page r) r, [])
  end.

(** [disconnect] and [close] have the same section. *)
Definition disconnect (connection_id : TraceId) (now : Instant) (r : PresenceRegistry)
    : PresenceRegistry * list PresenceEffect :=
  match pr_connections r !! connection_id with
  | None => (r, [])
  | Some connection => let '(r, effects) := remove_connection connection_id connection r in reconciled r effects now
  end.

Definition close (connection_id : TraceId) (now : Instant) (r : PresenceRegistry)
    : PresenceRegistry * list PresenceEffect :=
  match pr_connections r !! connection_id with
  | None => (r, [])
  | Some connection => let '(r, effects) := remove_connection connection_id connection r in reconciled r effects now
  end.

Definition close_unidentified (connection_id : TraceId) (now : Instant) (r : PresenceRegistry)
    : PresenceRegistry * list PresenceEffect :=
  match pr_connections r !! connection_id with
  | Some {| pc_tab := None |} =>
      reconciled (pr_set_connections (delete connection_id (pr_connections r)) (pr_tabs r)
                    (pr_ever_counted_a_page r) r) [] now
  | _ => (r, [])
  end.

(** [receive_text] of a frame that decoding gives, with the instant of the
    [close] that may follow; and [tick], with the instants of its closes. *)
Definition receive_text (connection_id : TraceId) (frame : option (TraceId * LocalPresenceCommandV1))
    (now close_now : Instant) (r : PresenceRegistry) : PresenceRegistry * list PresenceEffect :=
  match frame with
  | None => close connection_id close_now r
  | Some (message_id, LocalPresenceCommandV1_Hello tab_id) =>
      let '(r, effects, must_close) := hello connection_id message_id tab_id now r in
      if must_close then let '(r, closed) := close connection_id close_now r in (r, effects ++ closed)
      else (r, effects)
  end.

Definition expired (now : Instant) (r : PresenceRegistry) : list TraceId :=
  (map_to_list (filter (λ kv, pc_tab kv.2 = None ∧ pc_hello_deadline kv.2 ≤ now) (pr_connections r))).*1.

Definition tick (now : Instant) (close_now : TraceId → Instant) (r : PresenceRegistry)
    : PresenceRegistry * list PresenceEffect :=
  let '(r, effects) := foldl (λ acc connection_id,
    let '(r, effects) := close_unidentified connection_id (close_now connection_id) acc.1 in
    (r, acc.2 ++ effects)) (r, []) (expired now r) in
  let '(r, changed) := after_change now r in (r, effects ++ changed).

End route.
