(* ===== verification/PresenceFacts.v ===== *)
(** * The local program exits only when nobody is there

    Every counted page has a live connection that named it; the exit is
    requested once, only when no page was counted for the whole countdown, and
    it is requested by the first maintenance after the countdown. *)

From S2P Require Import Prelude Contracts RateLimit Presence.

(** ** Sequences of critical sections *)

Inductive presence_op :=
| PresenceConnect (connection_id : TraceId) (now : Instant)
| PresenceHello (connection_id message_id tab_id : TraceId) (now : Instant)
| PresenceClose (connection_id : TraceId) (now : Instant)
| PresenceDisconnect (connection_id : TraceId) (now : Instant)
| PresenceCloseUnidentified (connection_id : TraceId) (now : Instant)
| PresenceReconcile (now : Instant)
| PresenceSeal.

(** The instant a section works with. *)
Definition presence_instant (op : presence_op) : option Instant :=
  match op with
  | PresenceConnect _ now | PresenceHello _ _ _ now | PresenceClose _ now | PresenceDisconnect _ now
  | PresenceCloseUnidentified _ now | PresenceReconcile now => Some now
  | PresenceSeal => None
  end.

Section runs.
Context (route : LocalPresenceRoute).

Definition run_presence_op (op : presence_op) (r : PresenceRegistry) : PresenceRegistry * list PresenceEffect :=
  match op with
  | PresenceConnect id now => ((connect route id now r).1, [])
  | PresenceHello id message_id tab now => (hello route id message_id tab now r).1
  | PresenceClose id now => close route id now r
  | PresenceDisconnect id now => disconnect route id now r
  | PresenceCloseUnidentified id now => close_unidentified route id now r
  | PresenceReconcile now => after_change route now r
  | PresenceSeal => (seal r, [])
  end.

Definition run_presence (ops : list presence_op) (r : PresenceRegistry) : PresenceRegistry :=
  foldl (λ r op, (run_presence_op op r).1) r ops.

Definition reached (ops : list presence_op) : PresenceRegistry := run_presence ops PresenceRegistry_new.

(** The connections an operation may open. *)
Definition opens (op : presence_op) : option TraceId :=
  match op with PresenceConnect id _ => Some id | _ => None end.

(** A connection is opened once. *)
Definition fresh_connections (ops : list presence_op) : Prop := NoDup (omap opens ops).

(** ** The invariant *)

(** Every counted page is spoken for by a live connection that named it. *)
Definition pages_live (r : PresenceRegistry) : Prop :=
  ∀ tab id, pr_tabs r !! tab = Some id → ∃ c, pr_connections r !! id = Some c ∧ pc_tab c = Some tab.

(** What the phase says, before and after the countdown is reconciled. *)
Record presence_inv (r : PresenceRegistry) : Prop := {
  pi_live : pages_live r;
  pi_sealed : pr_sealed r = true → pr_phase r = LocalPresencePhase_Exiting ∧ pr_connections r = ∅;
  pi_exiting : pr_phase r = LocalPresencePhase_Exiting → pr_tabs r = ∅;
  pi_generation g due : pr_phase r = LocalPresencePhase_CountingDown g due →
    g = pr_generation r ∧ pr_ever_counted_a_page r = true;
  pi_ever : pr_tabs r ≠ ∅ → pr_ever_counted_a_page r = true
}.

Definition settled (r : PresenceRegistry) : Prop :=
  match pr_phase r with
  | LocalPresencePhase_Running => pr_tabs r = ∅ → pr_ever_counted_a_page r = false
  | LocalPresencePhase_CountingDown _ _ => pr_tabs r = ∅
  | LocalPresencePhase_Exiting => True
  end.

Record presence_wf (r : PresenceRegistry) : Prop := { pw_inv : presence_inv r; pw_settled : settled r }.

Lemma pages_pos r : 0 < pr_pages r ↔ pr_tabs r ≠ ∅.
Proof.
  unfold pr_pages, u64_max. rewrite <-(map_size_empty_iff (pr_tabs r)). lia.
Qed.

Lemma pages_zero r : bool_decide (0 < pr_pages r) = negb (bool_decide (pr_tabs r = ∅)).
Proof.
  apply eq_true_iff_eq. rewrite negb_true_iff, bool_decide_eq_true, bool_decide_eq_false. apply pages_pos.
Qed.

(** What reconciling does. *)
Inductive reconcile_case (r : PresenceRegistry) (now : Instant) : PresenceRegistry * list PresenceEffect * bool → Prop :=
| reconcile_keep :
    settled r →
    (∀ g due, pr_phase r = LocalPresencePhase_CountingDown g due → now < due) →
    reconcile_case r now (r, [], false)
| reconcile_start :
    pr_phase r = LocalPresencePhase_Running → pr_tabs r = ∅ → pr_ever_counted_a_page r = true →
    reconcile_case r now
      (pr_set_phase (LocalPresencePhase_CountingDown (next_generation r) (now + lp_countdown route))
         (next_generation r) None r,
       report route (LocalConsoleEvent_ExitCountdown (as_secs (lp_countdown route))), false)
| reconcile_cancel g due :
    pr_phase r = LocalPresencePhase_CountingDown g due → pr_tabs r ≠ ∅ →
    reconcile_case r now
      (pr_set_phase LocalPresencePhase_Running (next_generation r) None r,
       report route (LocalConsoleEvent_ExitCancelled (pr_pages r)), false)
| reconcile_announce g due :
    pr_phase r = LocalPresencePhase_CountingDown g due → pr_tabs r = ∅ → now < due →
    reconcile_case r now
      (pr_set_phase (pr_phase r) (pr_generation r) (Some (as_secs (due - now))) r,
       report route (LocalConsoleEvent_ExitCountdown (as_secs (due - now))), false)
| reconcile_exit g due :
    pr_phase r = LocalPresencePhase_CountingDown g due → pr_tabs r = ∅ → due ≤ now → pr_sealed r = false →
    reconcile_case r now
      (pr_set_phase LocalPresencePhase_Exiting (pr_generation r) (pr_announced_second r) r, [], true).

Lemma reconcile_spec r now : presence_inv r → reconcile_case r now (reconcile route r now).
Proof.
  intros Hi. unfold reconcile. destruct (pr_sealed r) eqn:Hs.
  { apply reconcile_keep; destruct (pi_sealed _ Hi Hs) as [Hp _]; unfold settled; rewrite Hp; [done|by intros]. }
  rewrite pages_zero. destruct (pr_phase r) as [|g due|] eqn:Hp.
  - case_bool_decide as Ht; simpl.
    + destruct (pr_ever_counted_a_page r) eqn:He; simpl.
      * by apply reconcile_start.
      * apply reconcile_keep; [unfold settled; by rewrite Hp|by intros; congruence].
    + apply reconcile_keep; [unfold settled; rewrite Hp; done|by intros; congruence].
  - case_bool_decide as Ht; simpl; [|by eapply reconcile_cancel].
    case_bool_decide as Hdue.
    + case_bool_decide as Ha.
      * apply reconcile_keep; [unfold settled; by rewrite Hp|]. intros g' due'. rewrite Hp. by intros [= <- <-].
      * rewrite <-Hp. by apply (reconcile_announce _ _ g due).
    + destruct (pi_generation _ Hi _ _ Hp) as [-> _]. rewrite bool_decide_true by done. simpl.
      apply (reconcile_exit _ _ (pr_generation r) due); [done|done|lia|done].
  - apply reconcile_keep; [unfold settled; by rewrite Hp|by intros; congruence].
Qed.

Lemma report_no_exit event : PresenceRequestExit ∉ report route event.
Proof. unfold report. destruct (lp_console route); set_solver. Qed.

(** What a section that ends with reconciling does, from a state [r1] before it. *)
Record reconciled_step (r1 : PresenceRegistry) (now : Instant) (r' : PresenceRegistry)
    (effects : list PresenceEffect) : Prop := {
  rs_wf : presence_wf r';
  rs_tabs : pr_tabs r' = pr_tabs r1;
  rs_connections : pr_connections r' = pr_connections r1;
  rs_count g due : pr_phase r' = LocalPresencePhase_CountingDown g due →
    pr_phase r1 = LocalPresencePhase_CountingDown g due ∨
    (pr_phase r1 = LocalPresencePhase_Running ∧ pr_tabs r1 = ∅ ∧ pr_ever_counted_a_page r1 = true ∧
     due = now + lp_countdown route);
  rs_exit : PresenceRequestExit ∈ effects → pr_phase r' = LocalPresencePhase_Exiting ∧
    ∃ g due, pr_phase r1 = LocalPresencePhase_CountingDown g due ∧ pr_tabs r1 = ∅ ∧ due ≤ now;
  rs_exiting : pr_phase r1 = LocalPresencePhase_Exiting → pr_phase r' = LocalPresencePhase_Exiting;
  rs_due g due : pr_phase r1 = LocalPresencePhase_CountingDown g due → pr_tabs r1 = ∅ →
    PresenceRequestExit ∈ effects ∨ (now < due ∧ pr_phase r' = LocalPresencePhase_CountingDown g due)
}.

Lemma reconciled_steps r1 effects now :
  presence_inv r1 → PresenceRequestExit ∉ effects →
  reconciled_step r1 now (reconciled route r1 effects now).1 (reconciled route r1 effects now).2.
Proof.
  intros Hi Heff. unfold reconciled.
  destruct (reconcile_spec r1 now Hi) as [Hset Hdue|Hp Ht He|g due Hp Ht|g due Hp Ht Hlt|g due Hp Ht Hle Hs];
    simpl; rewrite ?app_nil_r.
  - split; [by split|done|done|by left|by intros|done|]. intros g due Hp _. right. split; [by apply (Hdue g)|done].
  - pose proof (report_no_exit (LocalConsoleEvent_ExitCountdown (as_secs (lp_countdown route)))).
    split; simpl; [|done|done| |set_solver|by rewrite Hp|by rewrite Hp].
    + split; [|by unfold settled]. destruct Hi as [Hl Hs He' Hg Hev]. split; simpl; [done| |done|by intros ? ? [= <- <-]|done].
      intros Hsl. destruct (Hs Hsl) as [Hx _]. congruence.
    + intros g due [= <- <-]. by right.
  - pose proof (report_no_exit (LocalConsoleEvent_ExitCancelled (pr_pages r1))).
    split; simpl; [|done|done|done|set_solver|by rewrite Hp|done].
    split; [|by unfold settled; simpl; intros ?]. destruct Hi as [Hl Hs He' Hg Hev].
    split; simpl; [done| |done|done|done]. intros Hsl. destruct (Hs Hsl) as [Hx _]. congruence.
  - pose proof (report_no_exit (LocalConsoleEvent_ExitCountdown (as_secs (due - now)))).
    split; simpl; [|done|done|by left|set_solver|by rewrite Hp|].
    + split; [|by unfold settled; simpl; rewrite Hp]. destruct Hi as [Hl Hs He' Hg Hev]. by split.
    + intros g' due'. simpl. rewrite Hp. intros [= <- <-] _. by right.
  - split; simpl; [|done|done|done| |done|].
    + split; [|by unfold settled]. destruct Hi as [Hl Hsl He' Hg Hev]. split; simpl; [done|congruence|done|done|done].
    + intros _. split; [done|]. by exists g, due.
    + intros ? ? ? ?. left. apply elem_of_app. right. by left.
Qed.

(** ** The critical sections *)

(** What a section does, with the instant it reconciles at. *)
Record section_step (r : PresenceRegistry) (op : presence_op) (r' : PresenceRegistry)
    (effects : list PresenceEffect) : Prop := {
  ss_wf : presence_wf r';
  ss_count g due : pr_phase r' = LocalPresencePhase_CountingDown g due →
    (pr_phase r = LocalPresencePhase_CountingDown g due ∧ pr_tabs r = ∅) ∨
    (pr_tabs r ≠ ∅ ∧ ∃ now, presence_instant op = Some now ∧ due = now + lp_countdown route);
  ss_exit : PresenceRequestExit ∈ effects → pr_phase r' = LocalPresencePhase_Exiting ∧
    ∃ g due now, pr_phase r = LocalPresencePhase_CountingDown g due ∧ presence_instant op = Some now ∧ due ≤ now;
  ss_exiting : pr_phase r = LocalPresencePhase_Exiting → pr_phase r' = LocalPresencePhase_Exiting;
  ss_connections : dom (pr_connections r') ⊆ dom (pr_connections r) ∪ match opens op with Some id => {[ id ]} | None => ∅ end
}.

(** A section that changed no phase before it reconciled, and at most removed
    pages, or added one while it was not leaving. *)
Lemma section_of_reconciled r op now r1 effects :
  presence_wf r → presence_inv r1 → PresenceRequestExit ∉ effects → presence_instant op = Some now →
  pr_phase r1 = pr_phase r → (pr_tabs r = ∅ → pr_tabs r1 = ∅ → pr_ever_counted_a_page r1 = pr_ever_counted_a_page r) →
  dom (pr_connections r1) ⊆ dom (pr_connections r) →
  section_step r op (reconciled route r1 effects now).1 (reconciled route r1 effects now).2.
Proof.
  intros [Hi Hset] Hi1 Heff Hop Hphase Hever Hdom.
  destruct (reconciled_steps r1 effects now Hi1 Heff) as [Hwf Htabs Hconn Hcount Hexit Hexiting _].
  unfold settled in Hset. split; [done| | |by rewrite <-Hphase|rewrite Hconn; set_solver].
  - intros g due Hp. destruct (Hcount g due Hp) as [Hp1|(Hp1 & Ht1 & He1 & ->)].
    + left. rewrite Hphase in Hp1. by rewrite Hp1 in Hset.
    + right. rewrite Hphase in Hp1. rewrite Hp1 in Hset. split; [|by exists now].
      intros Ht. specialize (Hset Ht). rewrite (Hever Ht Ht1) in He1. congruence.
  - intros Hx. destruct (Hexit Hx) as [Hp' (g & due & Hp1 & _ & Hle)]. split; [done|].
    exists g, due, now. by rewrite <-Hphase.
Qed.

Lemma section_noop r op : presence_wf r → section_step r op r [].
Proof.
  intros Hwf. split; [done| |by intros ?%not_elem_of_nil|done|set_solver].
  intros g due Hp. left. split; [done|]. pose proof (pw_settled _ Hwf) as Hs. unfold settled in Hs. by rewrite Hp in Hs.
Qed.

(** Removing a connection. *)
Lemma remove_connection_spec r id c :
  presence_inv r → pr_connections r !! id = Some c →
  let r1 := (remove_connection route id c r).1 in
  presence_inv r1 ∧ (PresenceRequestExit ∉ (remove_connection route id c r).2) ∧
  pr_phase r1 = pr_phase r ∧ pr_ever_counted_a_page r1 = pr_ever_counted_a_page r ∧
  pr_connections r1 = delete id (pr_connections r) ∧
  (∀ tab, pr_tabs r1 !! tab = if bool_decide (pr_tabs r !! tab = Some id) then None else pr_tabs r !! tab).
Proof.
  intros Hi Hc. pose proof (report_no_exit (LocalConsoleEvent_PageClosed
    (pr_pages (pr_set_connections (delete id (pr_connections r)) (delete (default 0%N (pc_tab c)) (pr_tabs r))
       (pr_ever_counted_a_page r) r)))) as Hrep.
  assert (pr_sealed r = false) as Hsealed.
  { destruct (pr_sealed r) eqn:Hs; [|done]. destruct (pi_sealed _ Hi Hs) as [_ He]. by rewrite He in Hc. }
  assert (∀ tab, pr_tabs r !! tab = Some id → pc_tab c = Some tab) as Hspeaks.
  { intros tab Ht. destruct (pi_live _ Hi _ _ Ht) as (c' & Hc' & Htab). congruence. }
  assert (∀ tabs, (∀ tab, tabs !! tab = if bool_decide (pr_tabs r !! tab = Some id) then None else pr_tabs r !! tab) →
    presence_inv (pr_set_connections (delete id (pr_connections r)) tabs (pr_ever_counted_a_page r) r)) as Hinv.
  { intros tabs Htabs. split; simpl.
    - intros tab id'. simpl. rewrite Htabs. case_bool_decide as Hn; [done|]. intros Ht.
      destruct (pi_live _ Hi _ _ Ht) as (c' & Hc' & Htab). exists c'. split; [|done].
      apply lookup_delete_Some. split; [|done]. by intros ->.
    - congruence.
    - intros Hp. apply map_empty. intros tab. rewrite Htabs, (pi_exiting _ Hi Hp), lookup_empty. by case_bool_decide.
    - apply (pi_generation _ Hi).
    - intros Hne. apply (pi_ever _ Hi). intros He. apply Hne. apply map_empty. intros tab.
      rewrite Htabs, He, lookup_empty. by case_bool_decide. }
  unfold remove_connection. destruct (pc_tab c) as [tab|] eqn:Htab; [case_bool_decide as Hb|]; simpl in *.
  - assert (∀ t, delete tab (pr_tabs r) !! t = if bool_decide (pr_tabs r !! t = Some id) then None else pr_tabs r !! t) as Hd.
    { intros t. case_bool_decide as Ht.
      - apply Hspeaks in Ht as [= <-]. apply lookup_delete_eq.
      - apply lookup_delete_ne. by intros ->. }
    split_and!; [by apply Hinv|done|done|done|done|done].
  - assert (∀ t, pr_tabs r !! t = if bool_decide (pr_tabs r !! t = Some id) then None else pr_tabs r !! t) as Hd.
    { intros t. case_bool_decide as Ht; [|done]. apply Hspeaks in Ht as Heq. congruence. }
    split_and!; [by apply Hinv|set_solver|done|done|done|done].
  - assert (∀ t, pr_tabs r !! t = if bool_decide (pr_tabs r !! t = Some id) then None else pr_tabs r !! t) as Hd.
    { intros t. case_bool_decide as Ht; [|done]. by apply Hspeaks in Ht. }
    split_and!; [by apply Hinv|set_solver|done|done|done|done].
Qed.

Lemma section_remove r op id c now :
  presence_wf r → pr_connections r !! id = Some c → presence_instant op = Some now →
  let p := remove_connection route id c r in
  section_step r op (reconciled route p.1 p.2 now).1 (reconciled route p.1 p.2 now).2.
Proof.
  intros Hwf Hc Hop. destruct (remove_connection_spec r id c (pw_inv _ Hwf) Hc) as (Hi1 & Heff & Hp & He & Hconn & _).
  apply section_of_reconciled; [done..|]. rewrite Hconn, dom_delete. set_solver.
Qed.

(** A connection that has no tab is removed the same way. *)
Lemma close_unidentified_remove id c now r :
  pr_connections r !! id = Some c → pc_tab c = None →
  close_unidentified route id now r =
    reconciled route (remove_connection route id c r).1 (remove_connection route id c r).2 now.
Proof. intros Hc Ht. unfold close_unidentified, remove_connection. rewrite Hc. destruct c as [h t]. simpl in *. by subst. Qed.

Lemma hello_section r id message_id tab now :
  presence_wf r → section_step r (PresenceHello id message_id tab now)
    (hello route id message_id tab now r).1.1 (hello route id message_id tab now r).1.2.
Proof.
  intros Hwf. unfold hello. destruct (leaving r) eqn:Hl; [by apply section_noop|].
  destruct (pr_connections r !! id) as [c|] eqn:Hc; [|by apply section_noop].
  destruct (pc_tab c) eqn:Htab; [by apply section_noop|]. simpl. destruct Hwf as [Hi Hset].
  apply orb_false_iff in Hl as [Hsealed Hexit%bool_decide_eq_false].
  apply section_of_reconciled; try done.
  - split; simpl; [|congruence|done|intros g due Hp; split; [by apply (pi_generation _ Hi _ _ Hp)|done]|done].
    intros t id'. simpl. intros [[-> ->]|[Hne Ht]]%lookup_insert_Some.
    + eexists. split; [apply lookup_insert_eq|done].
    + destruct (pi_live _ Hi _ _ Ht) as (c' & Hc' & Htab'). exists c'. split; [|done].
      apply lookup_insert_Some. right. split; [|done]. intros ->. congruence.
  - pose proof (report_no_exit (LocalConsoleEvent_PageOpened (pr_pages (pr_set_connections
      (<[id:={| pc_hello_deadline := pc_hello_deadline c; pc_tab := Some tab |}]> (pr_connections r))
      (<[tab:=id]> (pr_tabs r)) true r)))). set_solver.
  - simpl. intros _ He%(f_equal (lookup tab)). by rewrite lookup_insert_eq in He.
  - simpl. apply elem_of_dom_2 in Hc. rewrite dom_insert. set_solver.
Qed.

Lemma section_steps r op :
  presence_wf r → (∀ id, opens op = Some id → pr_connections r !! id = None) →
  section_step r op (run_presence_op op r).1 (run_presence_op op r).2.
Proof.
  intros Hwf Hfresh. destruct op as [id now|id message_id tab now|id now|id now|id now|now|]; simpl.
  - unfold connect. destruct (leaving r) eqn:Hl; [by apply section_noop|]. simpl.
    specialize (Hfresh id eq_refl). apply orb_false_iff in Hl as [Hsealed _]. destruct Hwf as [Hi Hset].
    split; simpl; [|intros g due Hp; left; unfold settled in Hset; by rewrite Hp in Hset
                   |by intros ?%not_elem_of_nil|done|rewrite dom_insert; set_solver].
    split; [|exact Hset]. split; simpl; [|congruence|apply Hi|apply Hi|apply Hi].
    intros t id' Ht. simpl in *. destruct (pi_live _ Hi _ _ Ht) as (c & Hc & Htab). exists c. split; [|done].
    apply lookup_insert_Some. right. split; [|done]. intros ->. congruence.
  - by apply hello_section.
  - unfold close. destruct (pr_connections r !! id) as [c|] eqn:Hc; [|by apply section_noop].
    pose proof (section_remove r (PresenceClose id now) id c now Hwf Hc eq_refl) as Hs. cbv zeta in Hs.
    by destruct (remove_connection route id c r).
  - unfold disconnect. destruct (pr_connections r !! id) as [c|] eqn:Hc; [|by apply section_noop].
    pose proof (section_remove r (PresenceDisconnect id now) id c now Hwf Hc eq_refl) as Hs. cbv zeta in Hs.
    by destruct (remove_connection route id c r).
  - destruct (pr_connections r !! id) as [c|] eqn:Hc; [destruct (pc_tab c) eqn:Ht|].
    + unfold close_unidentified. rewrite Hc. destruct c; simpl in *; subst. by apply section_noop.
    + rewrite (close_unidentified_remove id c now r Hc Ht). by apply section_remove.
    + unfold close_unidentified. rewrite Hc. by apply section_noop.
  - apply section_of_reconciled; try done; [apply Hwf|set_solver].
  - destruct Hwf as [[Hl Hs He Hg Hev] Hset].
    split; simpl; [|done|by intros ?%not_elem_of_nil|done|set_solver].
    split; [|done]. by split.
Qed.

(** ** Reachable registries *)

Lemma run_presence_snoc ops op r :
  run_presence (ops ++ [op]) r = (run_presence_op op (run_presence ops r)).1.
Proof. unfold run_presence. by rewrite foldl_app. Qed.

Lemma fresh_snoc ops op :
  fresh_connections (ops ++ [op]) → fresh_connections ops ∧ ∀ id, opens op = Some id → id ∉ omap opens ops.
Proof.
  unfold fresh_connections. rewrite omap_app, NoDup_app. intros (Hnd & Hdisj & _). split; [done|].
  intros id Hop Hin. apply (Hdisj id Hin). cbn. rewrite Hop. left.
Qed.

Lemma reached_wf ops :
  fresh_connections ops →
  presence_wf (reached ops) ∧ ∀ id, is_Some (pr_connections (reached ops) !! id) → id ∈ omap opens ops.
Proof.
  induction ops as [|op ops IH] using rev_ind; intros Hfresh.
  { split; [split; [split|]|]; try done. by intros id [c Hc]. }
  apply fresh_snoc in Hfresh as [Hfresh Hnew]. destruct (IH Hfresh) as [Hwf Hdom].
  unfold reached in *. rewrite run_presence_snoc.
  destruct (section_steps (run_presence ops PresenceRegistry_new) op Hwf) as [Hwf' _ _ _ Hconn].
  { intros id Hop. apply eq_None_not_Some. intros Hid. by apply (Hnew id Hop), Hdom. }
  split; [done|]. intros id Hid%elem_of_dom%Hconn. rewrite omap_app, elem_of_app.
  apply elem_of_union in Hid as [Hid%elem_of_dom|Hid]; [left; by apply Hdom|right].
  cbn. destruct (opens op); [|set_solver]. apply elem_of_singleton in Hid as ->. left.
Qed.

Lemma reached_step ops op :
  fresh_connections (ops ++ [op]) →
  section_step (reached ops) op (reached (ops ++ [op])) (run_presence_op op (reached ops)).2.
Proof.
  intros [Hfresh Hnew]%fresh_snoc. destruct (reached_wf ops Hfresh) as [Hwf Hdom].
  unfold reached at 2. rewrite run_presence_snoc. apply section_steps; [done|].
  intros id Hop. apply eq_None_not_Some. intros Hid. by apply (Hnew id Hop), Hdom.
Qed.

(** A countdown started when the last page left, and no page was there since. *)
Lemma counting_since ops g due :
  fresh_connections ops → pr_phase (reached ops) = LocalPresencePhase_CountingDown g due →
  ∃ pre op0 post s, ops = pre ++ op0 :: post ∧ presence_instant op0 = Some s ∧ due = s + lp_countdown route ∧
    pr_tabs (reached pre) ≠ ∅ ∧
    ∀ post', post' `prefix_of` post → pr_tabs (reached (pre ++ op0 :: post')) = ∅.
Proof.
  induction ops as [|op ops IH] using rev_ind; intros Hfresh Hp; [done|].
  pose proof (reached_step ops op Hfresh) as Hstep.
  assert (pr_tabs (reached (ops ++ [op])) = ∅) as Hempty.
  { pose proof (pw_settled _ (ss_wf _ _ _ _ Hstep)) as Hs. unfold settled in Hs. by rewrite Hp in Hs. }
  destruct (ss_count _ _ _ _ Hstep g due Hp) as [[Hp0 _]|(Hne & s & Hs & ->)].
  - destruct (IH (proj1 (fresh_snoc _ _ Hfresh)) Hp0) as (pre & op0 & post & s & -> & Hs & Hdue & Hne & Hpost).
    exists pre, op0, (post ++ [op]), s. split_and!; [by rewrite <-app_assoc|done..|].
    intros post' [k Hk]. destruct k as [|x k _] using rev_ind.
    + rewrite app_nil_r in Hk. subst post'. by rewrite <-app_assoc in Hempty.
    + rewrite app_assoc in Hk. apply app_inj_tail in Hk as [-> _]. apply Hpost. by exists k.
  - exists ops, op, [], s. split_and!; [done..|]. intros post' Hpre%prefix_nil_inv. by subst.
Qed.

Lemma reached_exiting ops ops' :
  fresh_connections (ops ++ ops') → pr_phase (reached ops) = LocalPresencePhase_Exiting →
  pr_phase (reached (ops ++ ops')) = LocalPresencePhase_Exiting.
Proof.
  induction ops' as [|op ops' IH] using rev_ind; [by rewrite app_nil_r|].
  rewrite app_assoc. intros Hfresh Hp. apply (ss_exiting _ _ _ _ (reached_step _ _ Hfresh)).
  apply IH; [|done]. by apply fresh_snoc in Hfresh as [? _].
Qed.

(** ** Properties *)

(** C4. Over any sections, in any order and at any instants, with connections
    that are opened once: the exit is requested only after a countdown that
    began when the last page left, at the instant of that section, and during
    which no page was counted; and it is never requested again. *)
Theorem presence_exit_sound ops op (Hfresh : fresh_connections (ops ++ [op]))
    (Hexit : PresenceRequestExit ∈ (run_presence_op op (reached ops)).2) :
  (∃ pre op0 post s now, ops = pre ++ op0 :: post ∧
     presence_instant op0 = Some s ∧ presence_instant op = Some now ∧ s + lp_countdown route ≤ now ∧
     pr_tabs (reached pre) ≠ ∅ ∧
     ∀ post', post' `prefix_of` post → pr_tabs (reached (pre ++ op0 :: post')) = ∅) ∧
  ∀ ops' op', fresh_connections (((ops ++ [op]) ++ ops') ++ [op']) →
    PresenceRequestExit ∉ (run_presence_op op' (reached ((ops ++ [op]) ++ ops'))).2.
Proof.
  pose proof (reached_step ops op Hfresh) as Hstep.
  destruct (ss_exit _ _ _ _ Hstep Hexit) as [Hp' (g & due & now & Hp & Hnow & Hle)]. split.
  - destruct (counting_since ops g due (proj1 (fresh_snoc _ _ Hfresh)) Hp)
      as (pre & op0 & post & s & Hops & Hs & -> & Hne & Hpost).
    by exists pre, op0, post, s, now.
  - intros ops' op' Hfresh' Hx.
    destruct (ss_exit _ _ _ _ (reached_step _ _ Hfresh') Hx) as [_ (g' & due' & _ & Hp2 & _)].
    rewrite (reached_exiting (ops ++ [op]) ops') in Hp2; [done| |done].
    by apply fresh_snoc in Hfresh' as [? _].
Qed.

(** A section of a countdown that finds no page keeps it, or requests the exit. *)
Lemma close_unidentified_counting id now r g due :
  presence_wf r → pr_phase r = LocalPresencePhase_CountingDown g due →
  let p := close_unidentified route id now r in
  PresenceRequestExit ∈ p.2 ∨ (presence_wf p.1 ∧ pr_phase p.1 = LocalPresencePhase_CountingDown g due).
Proof.
  intros Hwf Hp. cbv zeta. destruct (pr_connections r !! id) as [c|] eqn:Hc; [destruct (pc_tab c) eqn:Ht|].
  1,3: right; unfold close_unidentified; rewrite Hc; try (destruct c; simpl in *; subst); done.
  rewrite (close_unidentified_remove id c now r Hc Ht).
  destruct (remove_connection_spec r id c (pw_inv _ Hwf) Hc) as (Hi1 & Heff & Hp1 & _ & _ & Htabs).
  assert (pr_tabs r = ∅) as Hempty.
  { pose proof (pw_settled _ Hwf) as Hs. unfold settled in Hs. by rewrite Hp in Hs. }
  destruct (reconciled_steps _ _ now Hi1 Heff) as [Hwf' _ _ _ _ _ Hdue].
  destruct (Hdue g due) as [Hx|[_ Hp']]; [by rewrite Hp1| |by left|by right].
  apply map_empty. intros tab. rewrite Htabs, Hempty, lookup_empty. by case_bool_decide.
Qed.

(** C5. Once every page has left, and the program is not leaving, a countdown is
    running; reconciling requests the exit exactly when it is due, and the
    maintenance tick at or after that instant requests it. *)
Theorem presence_exit_live ops (Hfresh : fresh_connections ops)
    (Hgone : pr_tabs (reached ops) = ∅) (Hever : pr_ever_counted_a_page (reached ops) = true)
    (Hhere : leaving (reached ops) = false) :
  ∃ g due, pr_phase (reached ops) = LocalPresencePhase_CountingDown g due ∧
    (∀ now, PresenceRequestExit ∈ (after_change route now (reached ops)).2 ↔ due ≤ now) ∧
    ∀ now close_now, due ≤ now → PresenceRequestExit ∈ (tick route now close_now (reached ops)).2.
Proof.
  destruct (reached_wf ops Hfresh) as [Hwf _]. revert Hwf Hgone Hever Hhere. generalize (reached ops). clear.
  intros r Hwf Hgone Hever Hhere. apply orb_false_iff in Hhere as [Hsealed Hphase%bool_decide_eq_false].
  pose proof (pw_settled _ Hwf) as Hset. unfold settled in Hset.
  destruct (pr_phase r) as [|g due|] eqn:Hp; [by rewrite Hset in Hever| |done].
  exists g, due. split; [done|].
  assert (∀ r now, presence_wf r → pr_phase r = LocalPresencePhase_CountingDown g due →
    due ≤ now → PresenceRequestExit ∈ (after_change route now r).2) as Hdue.
  { clear. intros r now Hwf Hp Hle. unfold after_change.
    destruct (reconciled_steps r [] now (pw_inv _ Hwf) ltac:(by intros ?%not_elem_of_nil)) as [_ _ _ _ _ _ Hd].
    destruct (Hd g due Hp) as [?|[? _]]; [|done|lia].
    pose proof (pw_settled _ Hwf) as Hs. unfold settled in Hs. by rewrite Hp in Hs. }
  split.
  - intros now. split; [|by apply Hdue]. intros Hx. unfold after_change in Hx.
    destruct (rs_exit _ _ _ _ (reconciled_steps r [] now (pw_inv _ Hwf) ltac:(by intros ?%not_elem_of_nil)) Hx)
      as [_ (g' & due' & Hp' & _ & Hle)]. congruence.
  - intros now close_now Hle. unfold tick.
    assert (∀ l acc, (PresenceRequestExit ∈ acc.2 ∨
        (presence_wf acc.1 ∧ pr_phase acc.1 = LocalPresencePhase_CountingDown g due)) →
      let acc' := foldl (λ acc id, let '(r, effects) := close_unidentified route id (close_now id) acc.1 in
        (r, acc.2 ++ effects)) acc l in
      PresenceRequestExit ∈ acc'.2 ∨ (presence_wf acc'.1 ∧ pr_phase acc'.1 = LocalPresencePhase_CountingDown g due)) as Hloop.
    { intros l. induction l as [|id l IH]; intros [r1 e1] Hacc; [done|]. apply IH. simpl.
      destruct Hacc as [Hx|[Hw Hp1]]; simpl in *.
      - left. destruct (close_unidentified _ _ _ _) as [r2 e2]. apply elem_of_app. by left.
      - destruct (close_unidentified_counting id (close_now id) r1 g due Hw Hp1) as [Hx|Hx];
          destruct (close_unidentified _ _ _ _) as [r2 e2]; simpl in *; [left; apply elem_of_app; by right|by right]. }
    specialize (Hloop (expired now r) (r, []) (or_intror (conj Hwf Hp))). cbv zeta in Hloop.
    destruct (foldl _ _ _) as [r1 e1]. simpl in *. destruct Hloop as [Hx|[Hw Hp1]].
    + destruct (after_change _ _ _). apply elem_of_app. by left.
    + specialize (Hdue r1 now Hw Hp1 Hle). destruct (after_change _ _ _). apply elem_of_app. by right.
Qed.

(** The pages a section leaves. *)
Definition pages_after (op : presence_op) (r : PresenceRegistry) (tab : TraceId) : option TraceId :=
  match op with
  | PresenceHello id _ t _ =>
      if bool_decide (t = tab ∧ leaving r = false ∧ pc_tab <$> pr_connections r !! id = Some None)
      then Some id else pr_tabs r !! tab
  | PresenceClose id _ | PresenceDisconnect id _ =>
      if bool_decide (pr_tabs r !! tab = Some id) then None else pr_tabs r !! tab
  | PresenceSeal => None
  | _ => pr_tabs r !! tab
  end.

Lemma reconciled_tabs r1 effects now : pr_tabs (reconciled route r1 effects now).1 = pr_tabs r1.
Proof.
  unfold reconciled, reconcile. destruct (pr_sealed r1); [done|].
  destruct (pr_phase r1); repeat case_match; simplify_eq; done.
Qed.

Lemma remove_tabs r id now tab :
  presence_wf r →
  pr_tabs (match pr_connections r !! id with
           | None => (r, [])
           | Some c => let '(r, effects) := remove_connection route id c r in reconciled route r effects now
           end).1 !! tab = if bool_decide (pr_tabs r !! tab = Some id) then None else pr_tabs r !! tab.
Proof.
  intros Hwf. destruct (pr_connections r !! id) as [c|] eqn:Hc.
  - destruct (remove_connection_spec r id c (pw_inv _ Hwf) Hc) as (_ & _ & _ & _ & _ & Htabs).
    destruct (remove_connection route id c r) as [r1 e]. rewrite reconciled_tabs. apply Htabs.
  - case_bool_decide as Ht; [|done]. destruct (pi_live _ (pw_inv _ Hwf) _ _ Ht) as (c & Hc' & _). congruence.
Qed.

(** The counted pages: each is spoken for by one live connection, that
    named it; a HELLO counts its tab for its connection, unless the program is
    leaving or the connection already has a tab; a connection that ends takes
    away only the tab that it still speaks for; nothing else changes them. While
    pages are counted no countdown runs; without any, once there was one, the
    program counts down or leaves. *)
Theorem presence_pages_spec ops op (Hfresh : fresh_connections (ops ++ [op])) :
  (∀ tab, pr_tabs (reached (ops ++ [op])) !! tab = pages_after op (reached ops) tab) ∧
  (∀ tab id, pr_tabs (reached ops) !! tab = Some id →
     ∃ c, pr_connections (reached ops) !! id = Some c ∧ pc_tab c = Some tab) ∧
  (pr_ever_counted_a_page (reached ops) = true →
     pr_phase (reached ops) = LocalPresencePhase_Running ↔ pr_tabs (reached ops) ≠ ∅).
Proof.
  pose proof (proj1 (fresh_snoc _ _ Hfresh)) as Hfresh0. destruct (reached_wf ops Hfresh0) as [Hwf _].
  split_and!; [|apply (pw_inv _ Hwf)|].
  - intros tab. unfold reached at 1. rewrite run_presence_snoc. fold (reached ops).
    generalize dependent (reached ops). intros r Hwf.
    destruct op as [id now|id message_id t now|id now|id now|id now|now|]; simpl.
    + unfold connect. by destruct (leaving r).
    + unfold hello. destruct (leaving r) eqn:Hl; [by rewrite bool_decide_false by naive_solver|].
      destruct (pr_connections r !! id) as [c|]; simpl; [|by rewrite bool_decide_false by naive_solver].
      destruct (pc_tab c); simpl; [by rewrite bool_decide_false by naive_solver|].
      rewrite reconciled_tabs. simpl. case_bool_decide as Ht.
      * destruct Ht as [-> _]. apply lookup_insert_eq.
      * apply lookup_insert_ne. naive_solver.
    + by apply remove_tabs.
    + by apply remove_tabs.
    + unfold close_unidentified. destruct (pr_connections r !! id) as [[h []]|]; [done| |done]. by rewrite reconciled_tabs.
    + unfold after_change. by rewrite reconciled_tabs.
    + apply lookup_empty.
  - intros Hever. pose proof (pw_settled _ Hwf) as Hs. unfold settled in Hs.
    destruct (pr_phase (reached ops)) eqn:Hp; [|by split|].
    + split; [|done]. intros _ He. rewrite (Hs He) in Hever. done.
    + split; [done|]. intros Hne. by destruct (Hne (pi_exiting _ (pw_inv _ Hwf) Hp)).
Qed.

End runs.

(** ** Witnesses *)

(** A page opens and closes, and another connection does not name a tab. *)
Definition sample_visit : list presence_op :=
  [PresenceConnect 1%N 0; PresenceHello 1%N 9%N 7%N 5; PresenceConnect 2%N 6; PresenceDisconnect 1%N 10].

Lemma sample_visit_fresh ops : omap opens ops = [] → fresh_connections (sample_visit ++ ops).
Proof.
  intros Hops. unfold fresh_connections. rewrite omap_app, Hops. apply (bool_decide_unpack _). vm_compute. exact I.
Qed.

Lemma presence_exit_sound_witness :
  PresenceRequestExit ∈ (run_presence_op LocalPresenceRoute_new (PresenceReconcile (10 + LOCAL_IDLE_EXIT_COUNTDOWN))
    (reached LocalPresenceRoute_new sample_visit)).2 ∧
  ∃ pre op0 post, sample_visit = pre ++ op0 :: post ∧ pr_tabs (reached LocalPresenceRoute_new pre) ≠ ∅.
Proof.
  assert (PresenceRequestExit ∈ (run_presence_op LocalPresenceRoute_new (PresenceReconcile (10 + LOCAL_IDLE_EXIT_COUNTDOWN))
    (reached LocalPresenceRoute_new sample_visit)).2) as Hexit by (vm_compute; left).
  split; [exact Hexit|].
  destruct (presence_exit_sound LocalPresenceRoute_new sample_visit
    _ (sample_visit_fresh [PresenceReconcile (10 + LOCAL_IDLE_EXIT_COUNTDOWN)] eq_refl) Hexit)
    as [(pre & op0 & post & _ & _ & Hops & _ & _ & _ & Hne & _) _].
  by exists pre, op0, post.
Defined.

Lemma presence_exit_live_witness :
  pr_tabs (reached LocalPresenceRoute_new sample_visit) = ∅ ∧
  ∃ g due, pr_phase (reached LocalPresenceRoute_new sample_visit) = LocalPresencePhase_CountingDown g due.
Proof.
  assert (pr_tabs (reached LocalPresenceRoute_new sample_visit) = ∅) as Hgone by (vm_compute; reflexivity).
  split; [exact Hgone|].
  destruct (presence_exit_live LocalPresenceRoute_new sample_visit
    ltac:(rewrite <-(app_nil_r sample_visit); exact (sample_visit_fresh [] eq_refl)) Hgone
    ltac:(vm_compute; reflexivity) ltac:(vm_compute; reflexivity)) as (g & due & Hp & _).
  by exists g, due.
Defined.

Lemma presence_pages_spec_witness :
  ∀ tab, pr_tabs (reached LocalPresenceRoute_new (sample_visit ++ [PresenceHello 2%N 9%N 8%N 20])) !! tab =
    pages_after (PresenceHello 2%N 9%N 8%N 20) (reached LocalPresenceRoute_new sample_visit) tab.
Proof.
  exact (proj1 (presence_pages_spec LocalPresenceRoute_new sample_visit (PresenceHello 2%N 9%N 8%N 20)
    (sample_visit_fresh [PresenceHello 2%N 9%N 8%N 20] eq_refl))).
Defined.

