(* ===== verification/Capacity.v ===== *)
(** * Admission of public WebSocket connections
    (crates/bcsp-public-runtime/src/capacity.rs)

    The connection-count gate: one lock over the global and the per-client
    counts, with permits that give their slots back when they are dropped. *)

From stdpp Require Export gmultiset.
From S2P Require Import Prelude.

(** ** Data *)

Definition MAX_GLOBAL_WS_CONNECTIONS : Z := 1024.
Definition DEFAULT_PER_CLIENT_WS_CONNECTIONS : Z := 64.

Record CapacityState := {
  cs_global_active : Z;
  cs_per_client : gmap string Z
}.

Inductive WsCapacityError :=
| WsCapacityError_GlobalExhausted
| WsCapacityError_ClientExhausted
| WsCapacityError_Unavailable.

(** [wc_state] is the content of the [Mutex], [None] when it is poisoned. *)
Record WsConnectionCapacity := {
  wc_global_limit : Z;
  wc_per_client_limit : Z;
  wc_state : option CapacityState;
  wc_global_refusals : Z;
  wc_client_refusals : Z;
  wc_admissions : Z
}.

(** A [WsCapacityPermit] is the client key it was granted for. *)
Record WsCapacityPermit := { wp_client_key : string }.

(** Unsigned addition at 32 bits, and [AtomicU64::fetch_add] of one. *)
Definition u32_add (a b : Z) : Z := (a + b) mod 2 ^ 32.
Definition atomic_increment (n : Z) : Z := (n + 1) mod 2 ^ 64.

(** ** Operations *)

Definition WsConnectionCapacity_with_limits (global_limit per_client_limit : Z)
    : WsConnectionCapacity := {|
  wc_global_limit := global_limit;
  wc_per_client_limit := per_client_limit;
  wc_state := Some {| cs_global_active := 0; cs_per_client := ∅ |};
  wc_global_refusals := 0;
  wc_client_refusals := 0;
  wc_admissions := 0
|}.

Definition WsConnectionCapacity_new (per_client_limit : Z) : WsConnectionCapacity :=
  WsConnectionCapacity_with_limits MAX_GLOBAL_WS_CONNECTIONS per_client_limit.

Definition wc_set (state : option CapacityState) (global_refusals client_refusals admissions : Z)
    (c : WsConnectionCapacity) : WsConnectionCapacity := {|
  wc_global_limit := wc_global_limit c;
  wc_per_client_limit := wc_per_client_limit c;
  wc_state := state;
  wc_global_refusals := global_refusals;
  wc_client_refusals := client_refusals;
  wc_admissions := admissions
|}.

Definition WsConnectionCapacity_admit (client_key : string) (c : WsConnectionCapacity)
    : WsConnectionCapacity * result WsCapacityError WsCapacityPermit :=
  match wc_state c with
  | None => (c, Err WsCapacityError_Unavailable)
  | Some state =>
      if bool_decide (wc_global_limit c ≤ cs_global_active state) then
        (wc_set (wc_state c) (atomic_increment (wc_global_refusals c)) (wc_client_refusals c)
           (wc_admissions c) c, Err WsCapacityError_GlobalExhausted)
      else
        let current := default 0 (cs_per_client state !! client_key) in
        if bool_decide (wc_per_client_limit c ≤ current) then
          (wc_set (wc_state c) (wc_global_refusals c) (atomic_increment (wc_client_refusals c))
             (wc_admissions c) c, Err WsCapacityError_ClientExhausted)
        else
          (wc_set (Some {| cs_global_active := u32_add (cs_global_active state) 1;
                           cs_per_client := <[client_key := u32_add current 1]>
                                              (cs_per_client state) |})
             (wc_global_refusals c) (wc_client_refusals c) (atomic_increment (wc_admissions c)) c,
           Ok {| wp_client_key := client_key |})
  end.

(** [Drop for WsCapacityPermit]. *)
Definition drop_permit (permit : WsCapacityPermit) (c : WsConnectionCapacity)
    : WsConnectionCapacity :=
  match wc_state c with
  | None => c
  | Some state =>
      let per_client :=
        match cs_per_client state !! wp_client_key permit with
        | Some count =>
            let count := saturating_sub count 1 in
            if bool_decide (count = 0) then delete (wp_client_key permit) (cs_per_client state)
            else <[wp_client_key permit := count]> (cs_per_client state)
        | None => cs_per_client state
        end in
      wc_set (Some {| cs_global_active := saturating_sub (cs_global_active state) 1;
                      cs_per_client := per_client |})
        (wc_global_refusals c) (wc_client_refusals c) (wc_admissions c) c
  end.

Definition global_active (c : WsConnectionCapacity) : Z :=
  match wc_state c with Some state => cs_global_active state | None => u32_max end.

(** * Correctness *)

(** The gate with the permits that are alive. *)
Record ws_world := {
  ww_capacity : WsConnectionCapacity;
  ww_permits : gmultiset string
}.

Inductive ws_op :=
| WsAdmit (client_key : string)
| WsDrop (client_key : string).

(** A permit is dropped at most once, while it is alive. *)
Definition run_ws_op (op : ws_op) (w : ws_world) : ws_world :=
  match op with
  | WsAdmit key =>
      match WsConnectionCapacity_admit key (ww_capacity w) with
      | (c, Ok permit) =>
          {| ww_capacity := c; ww_permits := {[+ wp_client_key permit +]} ⊎ ww_permits w |}
      | (c, Err _) => {| ww_capacity := c; ww_permits := ww_permits w |}
      end
  | WsDrop key =>
      if bool_decide (key ∈ ww_permits w)
      then {| ww_capacity := drop_permit {| wp_client_key := key |} (ww_capacity w);
              ww_permits := ww_permits w ∖ {[+ key +]} |}
      else w
  end.

Definition run_ws_ops (ops : list ws_op) (w : ws_world) : ws_world :=
  foldl (λ w op, run_ws_op op w) w ops.

(** The permits of a client. *)
Definition permits_of (key : string) (w : ws_world) : Z := Z.of_nat (multiplicity key (ww_permits w)).

Record ws_world_wf (w : ws_world) : Prop := {
  wf_limits : 0 ≤ wc_global_limit (ww_capacity w) ≤ u32_max ∧
              0 ≤ wc_per_client_limit (ww_capacity w) ≤ u32_max;
  wf_state : ∃ st, wc_state (ww_capacity w) = Some st ∧
    cs_global_active st = Z.of_nat (size (ww_permits w)) ∧
    (∀ key, default 0 (cs_per_client st !! key) = permits_of key w) ∧
    (∀ key n, cs_per_client st !! key = Some n → 0 < n);
  wf_global : Z.of_nat (size (ww_permits w)) ≤ wc_global_limit (ww_capacity w);
  wf_client : ∀ key, permits_of key w ≤ wc_per_client_limit (ww_capacity w)
}.

Lemma u32_add_exact a b : 0 ≤ a → 0 ≤ b → a + b ≤ u32_max → u32_add a b = a + b.
Proof. unfold u32_add, u32_max. intros. apply Z.mod_small. lia. Qed.

Lemma permits_of_add key key' P c :
  permits_of key {| ww_capacity := c; ww_permits := {[+ key' +]} ⊎ P |} =
  permits_of key {| ww_capacity := c; ww_permits := P |} + if decide (key = key') then 1 else 0.
Proof.
  unfold permits_of; simpl. rewrite multiplicity_disj_union, multiplicity_singleton.
  case_decide; lia.
Qed.

Lemma permits_of_remove key key' P c :
  key' ∈ P →
  permits_of key {| ww_capacity := c; ww_permits := P ∖ {[+ key' +]} |} =
  permits_of key {| ww_capacity := c; ww_permits := P |} - if decide (key = key') then 1 else 0.
Proof.
  intros Hin. unfold permits_of; simpl. rewrite multiplicity_difference, multiplicity_singleton.
  case_decide as Hd; [|lia]. subst. rewrite elem_of_multiplicity in Hin. lia.
Qed.

Lemma admit_wf key w : ws_world_wf w → ws_world_wf (run_ws_op (WsAdmit key) w).
Proof.
  destruct w as [c P]. intros [Hlim (st & Hst & Hg & Hc & Hpos) Hgl Hcl]. simpl in *. unfold WsConnectionCapacity_admit.
  rewrite Hst. case_bool_decide as Hfull; [by split; eauto|].
  case_bool_decide as Hcfull; [by split; eauto|]. unfold u32_max in Hlim.
  assert (u32_add (cs_global_active st) 1 = cs_global_active st + 1) as Eg
    by (apply u32_add_exact; unfold u32_max; lia).
  assert (0 ≤ default 0 (cs_per_client st !! key)) by (rewrite Hc; unfold permits_of; lia).
  assert (u32_add (default 0 (cs_per_client st !! key)) 1 = default 0 (cs_per_client st !! key) + 1) as Ec
    by (apply u32_add_exact; unfold u32_max; lia).
  rewrite Eg, Ec. split; cbn [ww_capacity ww_permits wc_set wc_global_limit wc_per_client_limit wc_state
    wp_client_key]; [done|eexists; split; [reflexivity|]; cbn [cs_global_active cs_per_client]| |].
  - split_and!.
    + rewrite gmultiset_size_disj_union, gmultiset_size_singleton. lia.
    + intros k. rewrite permits_of_add, lookup_insert. case_decide as Hk; case_decide; simplify_eq; simpl.
      * rewrite Hc. done.
      * rewrite Hc, Z.add_0_r. done.
    + intros k n. rewrite lookup_insert_Some. intros [[<- <-]|[_ ?]]; [lia|by eapply Hpos].
  - rewrite gmultiset_size_disj_union, gmultiset_size_singleton. lia.
  - intros k. rewrite permits_of_add. specialize (Hcl k). specialize (Hc key). unfold permits_of in *; simpl in *.
    case_decide; [subst k|]; lia.
Qed.

Lemma drop_wf key w : ws_world_wf w → ws_world_wf (run_ws_op (WsDrop key) w).
Proof.
  destruct w as [c P]. intros Hwf. pose proof Hwf as [Hlim (st & Hst & Hg & Hc & Hpos) Hgl Hcl].
  simpl in *. case_bool_decide as Hin; [|done]. unfold drop_permit. rewrite Hst. cbn [wp_client_key].
  assert (size P = S (size (P ∖ {[+ key +]}))) as Hsize.
  { rewrite (gmultiset_disj_union_difference' key P Hin) at 1.
    by rewrite gmultiset_size_disj_union, gmultiset_size_singleton. }
  assert (∀ k, permits_of k {| ww_capacity := c; ww_permits := P ∖ {[+ key +]} |} =
    default 0 (cs_per_client st !! k) - if decide (k = key) then 1 else 0) as Hrem.
  { intros k. by rewrite permits_of_remove, Hc. }
  assert (1 ≤ default 0 (cs_per_client st !! key)) as Hone.
  { rewrite Hc. unfold permits_of; simpl. rewrite elem_of_multiplicity in Hin. lia. }
  destruct (cs_per_client st !! key) as [n|] eqn:Hn; simpl in Hone; [|lia].
  assert (saturating_sub n 1 = n - 1) as -> by (unfold saturating_sub; lia).
  assert (saturating_sub (cs_global_active st) 1 = cs_global_active st - 1) as ->
    by (unfold saturating_sub; lia).
  split; cbn [ww_capacity ww_permits wc_set wc_global_limit wc_per_client_limit wc_state];
    [done|eexists; split; [reflexivity|]; cbn [cs_global_active cs_per_client]; split_and!| |].
  - lia.
  - intros k. change (permits_of k _) with
      (permits_of k {| ww_capacity := c; ww_permits := P ∖ {[+ key +]} |}). rewrite Hrem.
    case_bool_decide; [rewrite lookup_delete|rewrite lookup_insert];
      repeat case_decide; simplify_eq; rewrite ?Hn; simpl; lia.
  - intros k m. case_bool_decide.
    + intros [_ ?]%lookup_delete_Some. by eapply Hpos.
    + intros [[<- <-]|[_ ?]]%lookup_insert_Some; [lia|by eapply Hpos].
  - lia.
  - intros k. change (permits_of k _) with
      (permits_of k {| ww_capacity := c; ww_permits := P ∖ {[+ key +]} |}). rewrite Hrem.
    specialize (Hcl k). rewrite <-Hc in Hcl. case_decide; lia.
Qed.

Lemma run_ws_ops_wf ops w : ws_world_wf w → ws_world_wf (run_ws_ops ops w).
Proof.
  revert w. induction ops as [|op ops IH]; intros w Hwf; [done|]. apply IH.
  destruct op; [by apply admit_wf|by apply drop_wf].
Qed.

Lemma admit_limits key c :
  wc_global_limit (WsConnectionCapacity_admit key c).1 = wc_global_limit c ∧
  wc_per_client_limit (WsConnectionCapacity_admit key c).1 = wc_per_client_limit c.
Proof. unfold WsConnectionCapacity_admit. destruct (wc_state c); [|done]. by repeat case_bool_decide. Qed.

Lemma drop_limits permit c :
  wc_global_limit (drop_permit permit c) = wc_global_limit c ∧
  wc_per_client_limit (drop_permit permit c) = wc_per_client_limit c.
Proof. unfold drop_permit. by destruct (wc_state c). Qed.

Lemma run_ws_ops_limits ops w :
  wc_global_limit (ww_capacity (run_ws_ops ops w)) = wc_global_limit (ww_capacity w) ∧
  wc_per_client_limit (ww_capacity (run_ws_ops ops w)) = wc_per_client_limit (ww_capacity w).
Proof.
  revert w. induction ops as [|op ops IH]; intros w; [done|]. simpl.
  destruct (IH (run_ws_op op w)) as [-> ->]. destruct op as [key|key]; simpl.
  - pose proof (admit_limits key (ww_capacity w)) as Hl. by destruct (WsConnectionCapacity_admit _ _) as [c []].
  - case_bool_decide; [apply drop_limits|done].
Qed.

Definition ws_world_new (global_limit per_client_limit : Z) : ws_world :=
  {| ww_capacity := WsConnectionCapacity_with_limits global_limit per_client_limit; ww_permits := ∅ |}.

Lemma ws_world_new_wf g p : 0 ≤ g ≤ u32_max → 0 ≤ p ≤ u32_max → ws_world_wf (ws_world_new g p).
Proof.
  intros Hg Hp. split; simpl; [done| |change (0 ≤ g); lia|].
  - eexists. split; [reflexivity|]. simpl. split_and!; [done| |].
    + intros key. by rewrite lookup_empty.
    + intros key n. by rewrite lookup_empty.
  - intros key. unfold permits_of; simpl. rewrite multiplicity_empty. lia.
Qed.

(** The gate counts exactly the live connections: over any admissions and
    drops, the global count is the number of live permits and a client's count
    is the number of its permits (and a client without one has no entry); both
    stay within their limits; and the next admission of a client succeeds
    exactly when neither limit is reached, is refused for the global limit
    first, and a refusal changes no count. *)
Theorem ws_capacity_exact (ops : list ws_op) (g p : Z) (key : string) :
  0 ≤ g ≤ u32_max → 0 ≤ p ≤ u32_max →
  let w := run_ws_ops ops (ws_world_new g p) in
  let total := Z.of_nat (size (ww_permits w)) in
  (∃ st, wc_state (ww_capacity w) = Some st ∧ cs_global_active st = total ∧
     (∀ k, default 0 (cs_per_client st !! k) = permits_of k w) ∧
     (∀ k, is_Some (cs_per_client st !! k) ↔ k ∈ ww_permits w)) ∧
  total ≤ g ∧ (∀ k, permits_of k w ≤ p) ∧
  match WsConnectionCapacity_admit key (ww_capacity w) with
  | (c, Ok permit) => wp_client_key permit = key ∧ total < g ∧ permits_of key w < p
  | (c, Err e) => wc_state c = wc_state (ww_capacity w) ∧
      ((e = WsCapacityError_GlobalExhausted ∧ total = g) ∨
       (e = WsCapacityError_ClientExhausted ∧ total < g ∧ permits_of key w = p))
  end.
Proof.
  intros Hg Hp w total. pose proof (run_ws_ops_wf ops _ (ws_world_new_wf g p Hg Hp)) as Hwf. fold w in Hwf.
  assert (wc_global_limit (ww_capacity w) = g ∧ wc_per_client_limit (ww_capacity w) = p) as [Eg Ep].
  { apply (run_ws_ops_limits ops (ws_world_new g p)). }
  destruct Hwf as [_ (st & Hst & Hact & Hc & Hpos) Hgl Hcl]. rewrite Eg in Hgl. rewrite Ep in Hcl.
  split; [|split_and!; [done|done|]].
  - exists st. split_and!; [done|done|done|]. intros k. specialize (Hc k). specialize (Hpos k).
    rewrite elem_of_multiplicity. unfold permits_of in Hc.
    destruct (cs_per_client st !! k) as [n|]; simpl in Hc; split; [|eauto|by intros []|lia].
    intros _. specialize (Hpos n eq_refl). lia.
  - unfold WsConnectionCapacity_admit. rewrite Hst, Eg, Ep, Hact, Hc. specialize (Hcl key). fold total in Hgl |- *.
    case_bool_decide; [split; [done|left; split; [done|lia]]|].
    case_bool_decide; [split; [done|right; split_and!; [done|lia|lia]]|]. split_and!; [done|lia|lia].
Qed.

Lemma ws_capacity_exact_witness :
  let ops := [WsAdmit "a"; WsAdmit "a"; WsAdmit "a"; WsDrop "a"; WsAdmit "b"] in
  let w := run_ws_ops ops (ws_world_new 3 2) in
  (0 ≤ 3 ≤ u32_max ∧ 0 ≤ 2 ≤ u32_max) ∧
  permits_of "a" w = 1 ∧ permits_of "b" w = 1 ∧ Z.of_nat (size (ww_permits w)) ≤ 3 ∧
  (∀ k, permits_of k w ≤ 2).
Proof.
  intros ops w. assert (0 ≤ 3 ≤ u32_max) as H3 by (vm_compute; split; discriminate).
  assert (0 ≤ 2 ≤ u32_max) as H2 by (vm_compute; split; discriminate).
  split; [exact (conj H3 H2)|]. split; [vm_compute; reflexivity|]. split; [vm_compute; reflexivity|].
  destruct (ws_capacity_exact ops 3 2 "a" H3 H2) as (_ & Hg & Hc & _). exact (conj Hg Hc).
Defined.
