(* ===== verification/Session.v ===== *)
(** * Document sessions of the public service
    (crates/bcsp-public-runtime/src/session.rs)

    The registry of anonymous document sessions: issuance, renewal, pruning by
    age, eviction at capacity, and the leases that pin a session while it has
    live WebSocket connections. An [Instant] is its number of nanoseconds. *)

From stdpp Require Import pretty.
From S2P Require Import Prelude RateLimit Capacity.

#[local] Open Scope Z_scope.

(** ** Data *)

Definition DOCUMENT_SESSION_TTL : Z := duration_from_secs (2 * 60 * 60).
Definition MAX_DOCUMENT_SESSIONS : Z := 4096.
Definition MAX_WS_CONNECTIONS_PER_SESSION : Z := 4.

Inductive PublicLocale := PublicLocale_EnUs | PublicLocale_ZhCn.

Record DocumentSession := {
  ds_locale : PublicLocale;
  ds_last_activity : Instant;
  ds_active_ws_count : Z
}.

Inductive DocumentSessionError :=
| DocumentSessionError_Unavailable
| DocumentSessionError_CapacityExhausted.

Inductive ValidateOutcome :=
| ValidateOutcome_Valid
| ValidateOutcome_Renewed (nonce : string).

Inductive ReserveWsError :=
| ReserveWsError_Unavailable
| ReserveWsError_UnknownSession
| ReserveWsError_ConnectionLimit.

(** The [Mutex] of the registry: [None] when it is poisoned. *)
Record DocumentSessionRegistry := {
  dr_sessions : option (gmap string DocumentSession);
  dr_maximum_sessions : Z
}.

Definition DocumentSessionRegistry_default : DocumentSessionRegistry :=
  {| dr_sessions := Some ∅; dr_maximum_sessions := MAX_DOCUMENT_SESSIONS |}.

(** [SessionNonce::generate]: the text of a random UUID. *)
Class NonceSource (G : Type) := next_nonce : G → string * G.

(** Its contract: a nonce is never generated twice. *)
Class NonceSourceFresh (G : Type) `{!NonceSource G} := {
  nonces_issued : G → gset string;
  next_nonce_fresh g : (next_nonce g).1 ∉ nonces_issued g;
  next_nonce_issued g : nonces_issued (next_nonce g).2 = {[ (next_nonce g).1 ]} ∪ nonces_issued g
}.

(** ** Operations *)

Definition touch_session (now : Instant) (s : DocumentSession) : DocumentSession :=
  {| ds_locale := ds_locale s; ds_last_activity := now; ds_active_ws_count := ds_active_ws_count s |}.

Definition set_ws_count (now : Instant) (count : Z) (s : DocumentSession) : DocumentSession :=
  {| ds_locale := ds_locale s; ds_last_activity := now; ds_active_ws_count := count |}.

(** Whether pruning at [now] keeps a session. *)
Definition retained (now : Instant) (s : DocumentSession) : bool :=
  bool_decide (0 < ds_active_ws_count s)
  || match checked_duration_since now (ds_last_activity s) with
     | Some age => bool_decide (age ≤ DOCUMENT_SESSION_TTL)
     | None => false
     end.

Definition prune (now : Instant) (sessions : gmap string DocumentSession)
    : gmap string DocumentSession :=
  filter (λ kv, retained now kv.2) sessions.

(** The order of eviction: least recent activity, then key. *)
Definition compare_activity (l r : string * DocumentSession) : comparison :=
  cmp_then (rcmp (ds_last_activity l.2) (ds_last_activity r.2)) (rcmp l.1 r.1).

Definition oldest_unleased (sessions : gmap string DocumentSession) : option string :=
  fst <$> min_by compare_activity
            (filter (λ kv, bool_decide (ds_active_ws_count kv.2 = 0)) (btm_iter sessions)).

Section registry.
Context {G : Type} `{!NonceSource G}.

Definition admit_new_session (maximum_sessions : Z) (locale : PublicLocale) (now : Instant)
    (sessions : gmap string DocumentSession) (g : G)
    : gmap string DocumentSession * G * result DocumentSessionError string :=
  let room :=
    if bool_decide (maximum_sessions ≤ Z.of_nat (size sessions)) then
      (λ oldest, delete oldest sessions) <$> oldest_unleased sessions
    else Some sessions in
  match room with
  | None => (sessions, g, Err DocumentSessionError_CapacityExhausted)
  | Some sessions =>
      let (nonce, g) := next_nonce g in
      (<[nonce := {| ds_locale := locale; ds_last_activity := now; ds_active_ws_count := 0 |}]>
         sessions, g, Ok nonce)
  end.

Definition dr_set (sessions : gmap string DocumentSession) (r : DocumentSessionRegistry)
    : DocumentSessionRegistry :=
  {| dr_sessions := Some sessions; dr_maximum_sessions := dr_maximum_sessions r |}.

Definition issue_at (locale : PublicLocale) (now : Instant) (r : DocumentSessionRegistry) (g : G)
    : DocumentSessionRegistry * G * result DocumentSessionError string :=
  match dr_sessions r with
  | None => (r, g, Err DocumentSessionError_Unavailable)
  | Some sessions =>
      let '(sessions, g, result) :=
        admit_new_session (dr_maximum_sessions r) locale now (prune now sessions) g in
      (dr_set sessions r, g, result)
  end.

Definition validate_or_renew_at (nonce : string) (locale : PublicLocale) (now : Instant)
    (r : DocumentSessionRegistry) (g : G)
    : DocumentSessionRegistry * G * result DocumentSessionError ValidateOutcome :=
  match dr_sessions r with
  | None => (r, g, Err DocumentSessionError_Unavailable)
  | Some sessions =>
      let sessions := prune now sessions in
      match sessions !! nonce with
      | Some session => (dr_set (<[nonce := touch_session now session]> sessions) r, g,
                         Ok ValidateOutcome_Valid)
      | None =>
          let '(sessions, g, result) :=
            admit_new_session (dr_maximum_sessions r) locale now sessions g in
          (dr_set sessions r, g, nonce ← result; Ok (ValidateOutcome_Renewed nonce))
      end
  end.

End registry.

(** The lease is the nonce it pins. *)
Definition reserve_ws_at (nonce : string) (now : Instant) (r : DocumentSessionRegistry)
    : DocumentSessionRegistry * result ReserveWsError string :=
  match dr_sessions r with
  | None => (r, Err ReserveWsError_Unavailable)
  | Some sessions =>
      let sessions := prune now sessions in
      match sessions !! nonce with
      | None => (dr_set sessions r, Err ReserveWsError_UnknownSession)
      | Some session =>
          if bool_decide (MAX_WS_CONNECTIONS_PER_SESSION ≤ ds_active_ws_count session)
          then (dr_set sessions r, Err ReserveWsError_ConnectionLimit)
          else (dr_set (<[nonce := set_ws_count now (u32_add (ds_active_ws_count session) 1) session]>
                          sessions) r, Ok nonce)
      end
  end.

Definition locale_at (nonce : string) (now : Instant) (r : DocumentSessionRegistry)
    : DocumentSessionRegistry * result DocumentSessionError (option PublicLocale) :=
  match dr_sessions r with
  | None => (r, Err DocumentSessionError_Unavailable)
  | Some sessions =>
      let sessions := prune now sessions in
      match sessions !! nonce with
      | None => (dr_set sessions r, Ok None)
      | Some session => (dr_set (<[nonce := touch_session now session]> sessions) r,
                         Ok (Some (ds_locale session)))
      end
  end.

(** [Drop for WsSessionLease]; [now] is sampled under the lock. *)
Definition drop_lease (nonce : string) (now : Instant) (r : DocumentSessionRegistry)
    : DocumentSessionRegistry :=
  match dr_sessions r with
  | None => r
  | Some sessions =>
      match sessions !! nonce with
      | None => r
      | Some session =>
          dr_set (<[nonce := set_ws_count now (saturating_sub (ds_active_ws_count session) 1) session]>
                    sessions) r
      end
  end.

(** * Correctness *)

(** The registry with the leases that are alive, each named by its nonce. *)
Record session_world (G : Type) := {
  sw_registry : DocumentSessionRegistry;
  sw_nonces : G;
  sw_leases : gmultiset string
}.
Arguments sw_registry {G}.
Arguments sw_nonces {G}.
Arguments sw_leases {G}.
Arguments Build_session_world {G}.

(** The operations, at any instants: a caller samples its clock before it takes
    the lock, so the instants need not be ordered. *)
Inductive session_op :=
| SessionIssue (locale : PublicLocale) (now : Instant)
| SessionValidate (nonce : string) (locale : PublicLocale) (now : Instant)
| SessionReserve (nonce : string) (now : Instant)
| SessionLocale (nonce : string) (now : Instant)
| SessionDropLease (nonce : string) (now : Instant).

Definition run_session_op {G} `{!NonceSource G} (op : session_op) (w : session_world G)
    : session_world G :=
  match op with
  | SessionIssue locale now =>
      let '(r, g, _) := issue_at locale now (sw_registry w) (sw_nonces w) in
      Build_session_world r g (sw_leases w)
  | SessionValidate nonce locale now =>
      let '(r, g, _) := validate_or_renew_at nonce locale now (sw_registry w) (sw_nonces w) in
      Build_session_world r g (sw_leases w)
  | SessionReserve nonce now =>
      match reserve_ws_at nonce now (sw_registry w) with
      | (r, Ok lease) => Build_session_world r (sw_nonces w) ({[+ lease +]} ⊎ sw_leases w)
      | (r, Err _) => Build_session_world r (sw_nonces w) (sw_leases w)
      end
  | SessionLocale nonce now =>
      Build_session_world (locale_at nonce now (sw_registry w)).1 (sw_nonces w) (sw_leases w)
  | SessionDropLease nonce now =>
      if bool_decide (nonce ∈ sw_leases w)
      then Build_session_world (drop_lease nonce now (sw_registry w)) (sw_nonces w)
             (sw_leases w ∖ {[+ nonce +]})
      else w
  end.

Definition run_session_ops {G} `{!NonceSource G} (ops : list session_op) (w : session_world G)
    : session_world G := foldl (λ w op, run_session_op op w) w ops.

Definition session_world_new {G} (maximum_sessions : Z) (g : G) : session_world G :=
  Build_session_world
    {| dr_sessions := Some ∅; dr_maximum_sessions := maximum_sessions |} g ∅.

(** What admitting a session may do to the sessions that pruning kept. *)
Inductive admission (m : Z) (fresh : DocumentSession) (nonce : string)
    (kept : gmap string DocumentSession)
    : gmap string DocumentSession → result DocumentSessionError string → Prop :=
| admission_room :
    Z.of_nat (size kept) < m →
    admission m fresh nonce kept (<[nonce := fresh]> kept) (Ok nonce)
| admission_evict old s :
    m ≤ Z.of_nat (size kept) →
    kept !! old = Some s → ds_active_ws_count s = 0 →
    (∀ other s', kept !! other = Some s' → ds_active_ws_count s' = 0 →
       ds_last_activity s < ds_last_activity s' ∨
       (ds_last_activity s = ds_last_activity s' ∧ rle old other)) →
    admission m fresh nonce kept (<[nonce := fresh]> (delete old kept)) (Ok nonce)
| admission_full :
    m ≤ Z.of_nat (size kept) →
    (∀ n s, kept !! n = Some s → ds_active_ws_count s ≠ 0) →
    admission m fresh nonce kept kept (Err DocumentSessionError_CapacityExhausted).

(** A session that can be used at [now]. *)
Definition usable (now : Instant) (s : DocumentSession) : Prop :=
  0 < ds_active_ws_count s ∨ 0 ≤ now - ds_last_activity s ≤ duration_from_secs 7200.

Lemma retained_spec now s : retained now s = true ↔ usable now s.
Proof.
  unfold usable. change (duration_from_secs 7200) with DOCUMENT_SESSION_TTL.
  unfold retained, checked_duration_since. rewrite orb_true_iff, bool_decide_eq_true.
  case_bool_decide; [rewrite bool_decide_eq_true; lia|]. split; [by intros [?|?]; [left|]|lia].
Qed.

Lemma lookup_prune now S n s :
  prune now S !! n = Some s ↔ S !! n = Some s ∧ retained now s = true.
Proof.
  unfold prune. rewrite map_lookup_filter_Some. simpl. destruct (retained now s); naive_solver.
Qed.

Lemma size_prune now S : (size (prune now S) ≤ size S)%nat.
Proof. apply map_subseteq_size, map_filter_subseteq. Qed.

Lemma compare_activity_prod l r :
  compare_activity l r = rcmp (ds_last_activity l.2, l.1) (ds_last_activity r.2, r.1).
Proof. done. Qed.

Lemma min_by_activity l x :
  min_by compare_activity l = Some x → x ∈ l ∧ ∀ y, y ∈ l → compare_activity x y ≠ Gt.
Proof.
  apply min_by_spec; setoid_rewrite compare_activity_prod.
  - intros a. by rewrite rcmp_refl.
  - intros a b. rewrite rcmp_gt_lt. intros ->. done.
  - intros a b c. apply (transitivity (R := rle)).
Qed.

Lemma compare_activity_le k s k' s' :
  compare_activity (k, s) (k', s') ≠ Gt →
  ds_last_activity s < ds_last_activity s' ∨
  (ds_last_activity s = ds_last_activity s' ∧ rle k k').
Proof.
  unfold compare_activity, rle; simpl. unfold rcmp at 1, Z_rord.
  destruct (Z.compare_spec (ds_last_activity s) (ds_last_activity s')); simpl; intros; auto. done.
Qed.

Lemma oldest_unleased_spec m fresh nonce kept :
  m ≤ Z.of_nat (size kept) →
  match oldest_unleased kept with
  | Some old => admission m fresh nonce kept (<[nonce := fresh]> (delete old kept)) (Ok nonce)
  | None => admission m fresh nonce kept kept (Err DocumentSessionError_CapacityExhausted)
  end.
Proof.
  intros Hm. unfold oldest_unleased.
  set (unleased := filter _ (btm_iter kept)).
  assert (∀ k s, (k, s) ∈ unleased ↔ kept !! k = Some s ∧ ds_active_ws_count s = 0) as Hin.
  { intros k s. unfold unleased. rewrite list_elem_of_filter, elem_of_btm_iter. simpl.
    rewrite Is_true_true, bool_decide_eq_true. tauto. }
  destruct (min_by compare_activity unleased) as [[old s]|] eqn:Hmin; simpl.
  - apply min_by_activity in Hmin as [Hold Hle]. apply Hin in Hold as [Hs Hz].
    apply admission_evict with s; [done|done|done|].
    intros k' s' Hs' Hz'. by apply compare_activity_le, Hle, Hin.
  - apply min_by_None in Hmin. apply admission_full; [done|]. intros k s Hs Hz.
    assert ((k, s) ∈ unleased) as Hbad by (by apply Hin). rewrite Hmin in Hbad. by apply elem_of_nil in Hbad.
Qed.

(** ** The invariant *)

Definition live_leases (nonce : string) (leases : gmultiset string) : Z :=
  Z.of_nat (multiplicity nonce leases).

Record sessions_wf (m : Z) (issued : gset string) (leases : gmultiset string)
    (S : gmap string DocumentSession) : Prop := {
  swf_counts n :
    match S !! n with
    | Some s => ds_active_ws_count s = live_leases n leases ∧
                live_leases n leases ≤ MAX_WS_CONNECTIONS_PER_SESSION
    | None => live_leases n leases = 0
    end;
  swf_size : Z.of_nat (size S) ≤ m;
  swf_issued n : is_Some (S !! n) → n ∈ issued
}.

(** Every session of [S] that holds a lease is in [S'], with its language. *)
Definition leased_kept (S S' : gmap string DocumentSession) : Prop :=
  ∀ n s, S !! n = Some s → 0 < ds_active_ws_count s →
    ∃ s', S' !! n = Some s' ∧ ds_locale s' = ds_locale s.

#[export] Instance leased_kept_refl : Reflexive leased_kept.
Proof. intros S n s; eauto. Qed.

Section steps.
Context (m : Z) (issued : gset string) (leases : gmultiset string).

Lemma swf_lookup S n s :
  sessions_wf m issued leases S → S !! n = Some s →
  ds_active_ws_count s = live_leases n leases ∧
  0 ≤ live_leases n leases ≤ MAX_WS_CONNECTIONS_PER_SESSION.
Proof.
  intros Hwf Hn. pose proof (swf_counts _ _ _ _ Hwf n) as H. rewrite Hn in H.
  unfold live_leases in *. lia.
Qed.

Lemma prune_wf now S : sessions_wf m issued leases S → sessions_wf m issued leases (prune now S).
Proof.
  intros Hwf. split.
  - intros n. destruct (prune now S !! n) as [s|] eqn:Hn.
    + apply lookup_prune in Hn as [Hn _]. pose proof (swf_lookup _ _ _ Hwf Hn). lia.
    + pose proof (swf_counts _ _ _ _ Hwf n) as Hc. destruct (S !! n) as [s|] eqn:HS; [|done].
      destruct (retained now s) eqn:Hr.
      * assert (prune now S !! n = Some s) by (by apply lookup_prune). congruence.
      * apply not_true_iff_false in Hr. rewrite retained_spec in Hr. unfold usable in Hr.
        destruct Hc as [Hc _]. unfold live_leases in *. lia.
  - pose proof (size_prune now S). pose proof (swf_size _ _ _ _ Hwf). lia.
  - intros n [s Hs]. apply lookup_prune in Hs as [Hs _]. eapply swf_issued; eauto.
Qed.

Lemma prune_kept now S : leased_kept S (prune now S).
Proof.
  intros n s Hn Hpos. exists s. split; [|done]. apply lookup_prune. rewrite retained_spec. by split; [|left].
Qed.

(** Changing a registered session keeps the invariant when the counts agree. *)
Lemma update_wf leases' S n s s' :
  sessions_wf m issued leases S → S !! n = Some s →
  ds_active_ws_count s' = live_leases n leases' →
  live_leases n leases' ≤ MAX_WS_CONNECTIONS_PER_SESSION →
  (∀ k, k ≠ n → live_leases k leases' = live_leases k leases) →
  sessions_wf m issued leases' (<[n := s']> S).
Proof.
  intros Hwf Hn Hc Hmax Hother. split.
  - intros k. destruct (decide (k = n)) as [->|Hk]; [by rewrite lookup_insert_eq|].
    rewrite lookup_insert_ne, Hother by done. apply Hwf.
  - rewrite map_size_insert_Some by eauto. apply Hwf.
  - intros k [v [[-> _]|[_ Hv]]%lookup_insert_Some]; eapply swf_issued; eauto.
Qed.

Lemma update_kept S n s s' :
  S !! n = Some s → ds_locale s' = ds_locale s → leased_kept S (<[n := s']> S).
Proof.
  intros Hn Hl k v Hk _. destruct (decide (k = n)) as [->|].
  - rewrite lookup_insert_eq. simplify_eq. eauto.
  - rewrite lookup_insert_ne by done. eauto.
Qed.

Lemma admission_wf fresh nonce kept S' res :
  sessions_wf m issued leases kept → nonce ∉ issued → ds_active_ws_count fresh = 0 →
  admission m fresh nonce kept S' res →
  sessions_wf m ({[nonce]} ∪ issued) leases S' ∧ leased_kept kept S'.
Proof.
  intros Hwf Hfresh Hzero Hadm.
  assert (kept !! nonce = None) as Hnone.
  { destruct (kept !! nonce) eqn:E; [|done]. destruct Hfresh. eapply swf_issued; eauto. }
  pose proof (swf_counts _ _ _ _ Hwf nonce) as Hleases. rewrite Hnone in Hleases.
  destruct Hadm as [Hroom|old s _ Hold Hz _|_ _].
  - split; [split|].
    + intros k. destruct (decide (k = nonce)) as [->|].
      * rewrite lookup_insert_eq, Hzero, Hleases. done.
      * rewrite lookup_insert_ne by done. apply Hwf.
    + rewrite map_size_insert_None by done. lia.
    + intros k [v [[-> _]|[_ Hv]]%lookup_insert_Some]; [set_solver|].
      apply elem_of_union_r. eapply swf_issued; eauto.
    + intros k v Hk _. exists v. rewrite lookup_insert_ne; [done|]. congruence.
  - pose proof (swf_lookup _ _ _ Hwf Hold) as [Holdc _]. split; [split|].
    + intros k. destruct (decide (k = nonce)) as [->|].
      * rewrite lookup_insert_eq, Hzero, Hleases. done.
      * rewrite lookup_insert_ne by done. destruct (decide (k = old)) as [->|].
        -- rewrite lookup_delete_eq. lia.
        -- rewrite lookup_delete_ne by done. apply Hwf.
    + rewrite map_size_insert_None by (by apply lookup_delete_None; right).
      rewrite map_size_delete_Some by eauto. pose proof (swf_size _ _ _ _ Hwf).
      assert (size kept ≠ 0)%nat by (intros E%map_size_empty_iff; set_solver). lia.
    + intros k [v [[-> _]|[_ Hv]]%lookup_insert_Some]; [set_solver|].
      apply lookup_delete_Some in Hv as [_ Hv]. apply elem_of_union_r. eapply swf_issued; eauto.
    + intros k v Hk Hpos. exists v. rewrite lookup_insert_ne by congruence.
      rewrite lookup_delete_ne; [done|]. intros ->. simplify_eq. lia.
  - split; [|reflexivity]. split; [apply Hwf|apply Hwf|].
    intros k Hk. apply elem_of_union_r. by eapply swf_issued.
Qed.

End steps.

(** ** The operations against their specification *)

Definition fresh_session (locale : PublicLocale) (now : Instant) : DocumentSession :=
  {| ds_locale := locale; ds_last_activity := now; ds_active_ws_count := 0 |}.

Section worlds.
Context {G : Type} `{!NonceSource G}.

Lemma admit_new_session_spec m locale now S (g : G) S' g' res :
  admit_new_session m locale now S g = (S', g', res) →
  admission m (fresh_session locale now) (next_nonce g).1 S S' res ∧
  g' = match res with Ok _ => (next_nonce g).2 | Err _ => g end.
Proof.
  unfold admit_new_session. case_bool_decide as Hm.
  - pose proof (oldest_unleased_spec m (fresh_session locale now) (next_nonce g).1 S Hm) as Hadm.
    destruct (oldest_unleased S); simpl; [destruct (next_nonce g)|]; intros [= <- <- <-]; done.
  - destruct (next_nonce g) eqn:Hg; intros [= <- <- <-]. simpl.
    split; [apply admission_room; lia|done].
Qed.

Context `{!NonceSourceFresh G}.

Definition world_wf (m : Z) (w : session_world G) : Prop :=
  dr_maximum_sessions (sw_registry w) = m ∧
  ∃ S, dr_sessions (sw_registry w) = Some S ∧
    sessions_wf m (nonces_issued (sw_nonces w)) (sw_leases w) S.

Definition world_kept (w w' : session_world G) : Prop :=
  ∃ S S', dr_sessions (sw_registry w) = Some S ∧ dr_sessions (sw_registry w') = Some S' ∧
    leased_kept S S'.

Lemma admit_new_session_wf m locale now leases S (g : G) S' g' res :
  sessions_wf m (nonces_issued g) leases S →
  admit_new_session m locale now S g = (S', g', res) →
  sessions_wf m (nonces_issued g') leases S' ∧ leased_kept S S'.
Proof.
  intros Hwf [Hadm ->]%admit_new_session_spec.
  destruct (admission_wf m _ leases (fresh_session locale now) _ _ _ _ Hwf (next_nonce_fresh g) eq_refl Hadm)
    as [Hwf' Hk].
  split; [|done]. destruct Hadm; rewrite ?next_nonce_issued; done.
Qed.

(** An update of a retained session, which an operation of the registry ends with. *)
Lemma update_world m (g : G) leases leases' now S n s s' :
  sessions_wf m (nonces_issued g) leases S → prune now S !! n = Some s →
  ds_active_ws_count s' = live_leases n leases' →
  live_leases n leases' ≤ MAX_WS_CONNECTIONS_PER_SESSION →
  (∀ k, k ≠ n → live_leases k leases' = live_leases k leases) →
  ds_locale s' = ds_locale s →
  sessions_wf m (nonces_issued g) leases' (<[n := s']> (prune now S)) ∧
  leased_kept S (<[n := s']> (prune now S)).
Proof.
  intros Hwf Hn Hc Hmax Hother Hl. split.
  - eapply update_wf; [by apply prune_wf|done..].
  - intros k v Hk Hpos. destruct (prune_kept now S k v Hk Hpos) as (v' & Hk' & E).
    destruct (decide (k = n)) as [->|].
    + exists s'. rewrite lookup_insert_eq. simplify_eq. split; congruence.
    + exists v'. by rewrite lookup_insert_ne.
Qed.

Lemma leases_add k n leases :
  live_leases k ({[+ n +]} ⊎ leases) = live_leases k leases + if decide (k = n) then 1 else 0.
Proof.
  unfold live_leases. rewrite multiplicity_disj_union, multiplicity_singleton. case_decide; lia.
Qed.

Lemma leases_remove k n leases :
  n ∈ leases →
  live_leases k (leases ∖ {[+ n +]}) = live_leases k leases - if decide (k = n) then 1 else 0.
Proof.
  unfold live_leases. rewrite elem_of_multiplicity, multiplicity_difference, multiplicity_singleton.
  intros. case_decide; subst; lia.
Qed.

Lemma leased_kept_trans S1 S2 S3 :
  (∀ n s s', S1 !! n = Some s → S2 !! n = Some s' → ds_active_ws_count s' = ds_active_ws_count s) →
  leased_kept S1 S2 → leased_kept S2 S3 → leased_kept S1 S3.
Proof.
  intros Hc H12 H23 n s Hn Hpos. destruct (H12 n s Hn Hpos) as (s2 & Hn2 & E).
  destruct (H23 n s2 Hn2 ltac:(rewrite (Hc n s s2); done)) as (s3 & Hn3 & E3). exists s3. split; congruence.
Qed.

Lemma issue_step m locale now w :
  world_wf m w →
  let w' := run_session_op (SessionIssue locale now) w in world_wf m w' ∧ world_kept w w'.
Proof.
  intros [Hm (S & HS & Hwf)]. simpl. unfold issue_at. rewrite HS.
  destruct (admit_new_session _ _ _ _ _) as [[S' g'] res] eqn:Hadm.
  apply (admit_new_session_wf _ _ _ (sw_leases w)) in Hadm as [Hwf' Hk]; [|rewrite Hm; by apply prune_wf].
  rewrite Hm in Hwf'. split; [split; [done|]; simpl; eauto|]. exists S, S'. split_and!; [done..|].
  eapply leased_kept_trans; [|apply prune_kept|done]. intros n s s' Hs [Hs' _]%lookup_prune. congruence.
Qed.

Lemma validate_step m nonce locale now w :
  world_wf m w →
  let w' := run_session_op (SessionValidate nonce locale now) w in world_wf m w' ∧ world_kept w w'.
Proof.
  intros [Hm (S & HS & Hwf)]. simpl. unfold validate_or_renew_at. rewrite HS.
  destruct (prune now S !! nonce) as [s|] eqn:Hn.
  - pose proof (swf_lookup _ _ _ _ _ _ (prune_wf _ _ _ now _ Hwf) Hn) as [Hc Hmax].
    destruct (update_world m (sw_nonces w) (sw_leases w) (sw_leases w) now S nonce s (touch_session now s))
      as [Hwf' Hk]; [done|done|done|lia|done|done|].
    split; [split; [done|]; simpl; eauto|]. eexists S, _. split_and!; [done|simpl; reflexivity|done].
  - destruct (admit_new_session _ _ _ _ _) as [[S' g'] res] eqn:Hadm.
    apply (admit_new_session_wf _ _ _ (sw_leases w)) in Hadm as [Hwf' Hk]; [|rewrite Hm; by apply prune_wf].
    rewrite Hm in Hwf'. split; [split; [done|]; simpl; eauto|]. exists S, S'. split_and!; [done..|].
    eapply leased_kept_trans; [|apply prune_kept|done]. intros n s s' Hs [Hs' _]%lookup_prune. congruence.
Qed.

Lemma reserve_step m nonce now w :
  world_wf m w →
  let w' := run_session_op (SessionReserve nonce now) w in world_wf m w' ∧ world_kept w w'.
Proof.
  intros [Hm (S & HS & Hwf)]. simpl. unfold reserve_ws_at. rewrite HS.
  assert (∀ r, r = dr_set (prune now S) (sw_registry w) →
    let w' := Build_session_world r (sw_nonces w) (sw_leases w) in world_wf m w' ∧ world_kept w w') as Hskip.
  { intros r -> w'. split; [split; [done|]; eexists; split; [done|by apply prune_wf]|].
    exists S, (prune now S). split_and!; [done..|apply prune_kept]. }
  destruct (prune now S !! nonce) as [s|] eqn:Hn; [|by apply Hskip].
  case_bool_decide as Hfull; [by apply Hskip|].
  pose proof (swf_lookup _ _ _ _ _ _ (prune_wf _ _ _ now _ Hwf) Hn) as [Hc Hmax].
  unfold MAX_WS_CONNECTIONS_PER_SESSION in *.
  destruct (update_world m (sw_nonces w) (sw_leases w) ({[+ nonce +]} ⊎ sw_leases w) now S nonce s
    (set_ws_count now (u32_add (ds_active_ws_count s) 1) s)) as [Hwf' Hk]; [done|done| | |..|done|].
  - rewrite leases_add, decide_True by done. simpl. rewrite u32_add_exact; [lia..|].
    unfold u32_max. lia.
  - rewrite leases_add, decide_True by done. unfold MAX_WS_CONNECTIONS_PER_SESSION. lia.
  - intros k Hk. rewrite leases_add, decide_False by done. lia.
  - split; [split; [done|]; simpl; eauto|]. eexists S, _. split_and!; [done|simpl; reflexivity|done].
Qed.

Lemma locale_step m nonce now w :
  world_wf m w →
  let w' := run_session_op (SessionLocale nonce now) w in world_wf m w' ∧ world_kept w w'.
Proof.
  intros [Hm (S & HS & Hwf)]. simpl. unfold locale_at. rewrite HS.
  destruct (prune now S !! nonce) as [s|] eqn:Hn; simpl.
  - pose proof (swf_lookup _ _ _ _ _ _ (prune_wf _ _ _ now _ Hwf) Hn) as [Hc Hmax].
    destruct (update_world m (sw_nonces w) (sw_leases w) (sw_leases w) now S nonce s (touch_session now s))
      as [Hwf' Hk]; [done|done|done|lia|done|done|].
    split; [split; [done|]; simpl; eauto|]. eexists S, _. split_and!; [done|simpl; reflexivity|done].
  - split; [split; [done|]; eexists; split; [done|by apply prune_wf]|].
    exists S, (prune now S). split_and!; [done..|apply prune_kept].
Qed.

Lemma drop_lease_step m nonce now w :
  world_wf m w →
  let w' := run_session_op (SessionDropLease nonce now) w in world_wf m w' ∧ world_kept w w'.
Proof.
  intros Hw. pose proof Hw as [Hm (S & HS & Hwf)]. simpl. unfold drop_lease. rewrite HS.
  case_bool_decide as Hin; [|split; [done|]; exists S, S; split_and!; done].
  pose proof (swf_counts _ _ _ _ Hwf nonce) as Hc.
  assert (0 < live_leases nonce (sw_leases w)) as Hpos
    by (unfold live_leases; rewrite elem_of_multiplicity in Hin; lia).
  destruct (S !! nonce) as [s|] eqn:Hn; [|lia].
  split; [split; [done|]; eexists; split; [done|]; eapply update_wf; [done|done| | |]|].
  - simpl; rewrite leases_remove, decide_True by done. simpl. unfold saturating_sub. lia.
  - simpl; rewrite leases_remove, decide_True by done. lia.
  - intros k Hk. simpl; rewrite leases_remove, decide_False by done. lia.
  - eexists S, _. split_and!; [done|simpl; reflexivity|by eapply update_kept].
Qed.

Lemma session_step m op w :
  world_wf m w → let w' := run_session_op op w in world_wf m w' ∧ world_kept w w'.
Proof.
  destruct op; [apply issue_step|apply validate_step|apply reserve_step|apply locale_step
               |apply drop_lease_step].
Qed.

Lemma run_session_ops_wf m ops w : world_wf m w → world_wf m (run_session_ops ops w).
Proof.
  revert w. induction ops as [|op ops IH]; intros w Hwf; [done|]. apply IH. by apply session_step.
Qed.

Lemma session_world_new_wf m (g : G) : 0 ≤ m → world_wf m (session_world_new m g).
Proof.
  intros Hm. split; [done|]. exists ∅. split; [done|]. split.
  - intros n. rewrite lookup_empty. unfold live_leases; simpl. by rewrite multiplicity_empty.
  - simpl. by rewrite map_size_empty.
  - intros n. rewrite lookup_empty. by intros [].
Qed.

End worlds.

(** A leased session survives: over any operations at any instants, every
    nonce with a live lease is registered, a registered session counts exactly
    its live leases, at most four, the registry stays within its capacity and
    holds only generated nonces; and whatever the next operation is, a leased
    session stays registered with its language. *)
Theorem leased_sessions_survive {G : Type} `{NonceSourceFresh G} (m : Z) (ops : list session_op)
    (op : session_op) (g : G) :
  0 ≤ m →
  let w := run_session_ops ops (session_world_new m g) in
  ∃ S S', dr_sessions (sw_registry w) = Some S ∧
    dr_sessions (sw_registry (run_session_op op w)) = Some S' ∧
    (∀ n, n ∈ sw_leases w → is_Some (S !! n)) ∧
    (∀ n s, S !! n = Some s → ds_active_ws_count s = live_leases n (sw_leases w) ∧
       live_leases n (sw_leases w) ≤ 4) ∧
    Z.of_nat (size S) ≤ m ∧
    (∀ n, is_Some (S !! n) → n ∈ nonces_issued (sw_nonces w)) ∧
    (∀ n, n ∈ sw_leases w → ∃ s s', S !! n = Some s ∧ S' !! n = Some s' ∧ ds_locale s' = ds_locale s).
Proof.
  intros Hm w. pose proof (run_session_ops_wf m ops _ (session_world_new_wf m g Hm)) as Hw.
  destruct (session_step m op _ Hw) as [_ (S & S' & HS & HS' & Hk)].
  destruct Hw as [_ (S0 & HS0 & Hwf)]. fold w in HS, HS', HS0, Hwf. rewrite HS in HS0. simplify_eq.
  assert (∀ n, n ∈ sw_leases w → ∃ s, S0 !! n = Some s ∧ 0 < ds_active_ws_count s) as Hreg.
  { intros n Hin. pose proof (swf_counts _ _ _ _ Hwf n) as Hc. unfold live_leases in Hc.
    rewrite elem_of_multiplicity in Hin. destruct (S0 !! n) as [s|]; [|lia]. exists s. split; [done|lia]. }
  exists S0, S'. split_and!; [done|done| | |apply Hwf|apply Hwf|].
  - intros n (s & ? & _)%Hreg. eauto.
  - intros n s Hn. pose proof (swf_lookup _ _ _ _ _ _ Hwf Hn). unfold MAX_WS_CONNECTIONS_PER_SESSION in *. lia.
  - intros n (s & Hn & Hpos)%Hreg. destruct (Hk n s Hn Hpos) as (s' & Hn' & E). exists s, s'. done.
Qed.

(** Issuing a session at [now] first keeps exactly the sessions that are
    leased or were active at most two hours before [now], then behaves as the
    admission specification says: below capacity it adds one session under a
    nonce never generated before; at capacity it replaces the unleased session
    that was active least recently (the smallest nonce among equals); and when
    every session is leased it fails, draws no nonce and evicts nothing. *)
Theorem session_issue_spec {G : Type} `{NonceSourceFresh G} (m : Z) (ops : list session_op) (g : G)
    (locale : PublicLocale) (now : Instant) :
  0 ≤ m →
  let w := run_session_ops ops (session_world_new m g) in
  let nonce := (next_nonce (sw_nonces w)).1 in
  ∃ S S' g' res, dr_sessions (sw_registry w) = Some S ∧
    issue_at locale now (sw_registry w) (sw_nonces w) = (dr_set S' (sw_registry w), g', res) ∧
    (∀ n s, prune now S !! n = Some s ↔ S !! n = Some s ∧ usable now s) ∧
    admission m (fresh_session locale now) nonce (prune now S) S' res ∧
    nonce ∉ nonces_issued (sw_nonces w) ∧
    g' = match res with Ok _ => (next_nonce (sw_nonces w)).2 | Err _ => sw_nonces w end ∧
    Z.of_nat (size S') ≤ m.
Proof.
  intros Hm w nonce. destruct (run_session_ops_wf m ops _ (session_world_new_wf m g Hm)) as [Emax (S & HS & Hwf)].
  fold w in Emax, HS, Hwf.
  destruct (admit_new_session m locale now (prune now S) (sw_nonces w)) as [[S' g'] res] eqn:Hadm.
  exists S, S', g', res. unfold issue_at. rewrite HS, Emax, Hadm.
  pose proof (admit_new_session_wf m locale now (sw_leases w) _ _ _ _ _ (prune_wf _ _ _ now _ Hwf) Hadm)
    as [Hwf' _].
  apply admit_new_session_spec in Hadm as [Hadm Hg']. split_and!; [done|done| |done| |done|apply Hwf'].
  - intros n s. rewrite lookup_prune, retained_spec. done.
  - apply next_nonce_fresh.
Qed.

(** C40. Looking a nonce up at [now]: a registered session answers exactly when it
    is usable, that is leased or last active within the two hours up to [now],
    and the use moves its activity to [now]. A validation is then [Valid]; a
    reservation takes one of the four connections or is refused, the session
    unchanged, when all are taken; a language request returns its language.
    Otherwise the session is gone: a validation renews it exactly as an issuance
    would, a reservation reports an unknown session and a language request
    nothing. *)
Theorem session_lookup_spec {G : Type} `{NonceSource G} (r : DocumentSessionRegistry) (g : G)
    (S : gmap string DocumentSession) (nonce : string) (locale : PublicLocale) (now : Instant) :
  dr_sessions r = Some S →
  (∀ s, S !! nonce = Some s → usable now s →
     let touched := dr_set (<[nonce := touch_session now s]> (prune now S)) r in
     validate_or_renew_at nonce locale now r g = (touched, g, Ok ValidateOutcome_Valid) ∧
     locale_at nonce now r = (touched, Ok (Some (ds_locale s))) ∧
     reserve_ws_at nonce now r =
       (if bool_decide (4 ≤ ds_active_ws_count s)
        then (dr_set (prune now S) r, Err ReserveWsError_ConnectionLimit)
        else (dr_set (<[nonce := set_ws_count now (u32_add (ds_active_ws_count s) 1) s]>
                        (prune now S)) r, Ok nonce))) ∧
  ((∀ s, S !! nonce = Some s → ¬ usable now s) →
     (∃ r' g' res, issue_at locale now r g = (r', g', res) ∧
        validate_or_renew_at nonce locale now r g =
          (r', g', match res with Ok n => Ok (ValidateOutcome_Renewed n) | Err e => Err e end)) ∧
     locale_at nonce now r = (dr_set (prune now S) r, Ok None) ∧
     reserve_ws_at nonce now r = (dr_set (prune now S) r, Err ReserveWsError_UnknownSession)).
Proof.
  intros HS. unfold validate_or_renew_at, locale_at, reserve_ws_at, issue_at. rewrite HS. split.
  - intros s Hn Hu%retained_spec. by rewrite (proj2 (lookup_prune now S nonce s) (conj Hn Hu)).
  - intros Hnot. assert (prune now S !! nonce = None) as ->.
    { destruct (prune now S !! nonce) as [s|] eqn:Hn; [|done].
      apply lookup_prune in Hn as [Hn Hu%retained_spec]. by destruct (Hnot s Hn). }
    split; [|done]. destruct (admit_new_session _ _ _ _ _) as [[S' g'] res]. by do 3 eexists.
Qed.

(** ** Examples *)

(** A source that numbers its nonces. *)
#[export] Instance counter_nonce_source : NonceSource N := λ n, (pretty n, N.succ n).

#[export] Program Instance counter_nonce_fresh : NonceSourceFresh N := {|
  nonces_issued n := list_to_set ((λ k, pretty (N.of_nat k)) <$> seq 0 (N.to_nat n))
|}.
Next Obligation.
  intros n. simpl. rewrite elem_of_list_to_set, list_elem_of_fmap.
  intros (k & E%(inj pretty) & Hk). apply elem_of_seq in Hk. lia.
Qed.
Next Obligation.
  intros n. apply set_eq. intros x. simpl.
  rewrite elem_of_union, !elem_of_list_to_set, !list_elem_of_fmap, elem_of_singleton.
  setoid_rewrite elem_of_seq. split.
  - intros (k & -> & Hk). destruct (decide (N.of_nat k = n)) as [->|]; [by left|].
    right. exists k. split; [done|lia].
  - intros [->|(k & -> & Hk)]; [exists (N.to_nat n)|exists k]; (split; [by rewrite ?N2Nat.id|lia]).
Qed.

Definition example_session_ops : list session_op := [
  SessionIssue PublicLocale_ZhCn 0; SessionReserve "0" 10; SessionIssue PublicLocale_EnUs 20].

Lemma leased_sessions_survive_witness :
  let w := run_session_ops example_session_ops (session_world_new 2 0%N) in
  0 ≤ 2 ∧ "0" ∈ sw_leases w ∧
  ∃ S', dr_sessions (sw_registry (run_session_op (SessionIssue PublicLocale_EnUs
          (duration_from_secs 100000)) w)) = Some S' ∧
    ∃ s, S' !! "0" = Some s ∧ ds_locale s = PublicLocale_ZhCn.
Proof.
  intros w. split; [lia|]. assert ("0" ∈ sw_leases w) as Hin by (apply (bool_decide_unpack _); vm_compute; exact I).
  split; [exact Hin|].
  destruct (leased_sessions_survive 2 example_session_ops
    (SessionIssue PublicLocale_EnUs (duration_from_secs 100000)) 0%N ltac:(lia))
    as (S & S' & HS & HS' & _ & _ & _ & _ & Hk).
  exists S'. split; [exact HS'|]. destruct (Hk "0" Hin) as (s & s' & Hs & Hs' & E).
  exists s'. split; [exact Hs'|]. rewrite E.
  assert ((λ S, ds_locale <$> S !! "0") <$> dr_sessions (sw_registry w) = Some (Some PublicLocale_ZhCn))
    as Hl by (vm_compute; reflexivity).
  change (dr_sessions (sw_registry w) = Some S) in HS. rewrite HS in Hl. simpl in Hl.
  rewrite Hs in Hl. simpl in Hl. congruence.
Defined.

Lemma session_issue_spec_witness :
  let w := run_session_ops example_session_ops (session_world_new 2 0%N) in
  0 ≤ 2 ∧ ∃ S S' g' res, dr_sessions (sw_registry w) = Some S ∧
    issue_at PublicLocale_EnUs 30 (sw_registry w) (sw_nonces w) = (dr_set S' (sw_registry w), g', res) ∧
    Z.of_nat (size S') ≤ 2.
Proof.
  intros w. split; [lia|].
  destruct (session_issue_spec 2 example_session_ops 0%N PublicLocale_EnUs 30 ltac:(lia))
    as (S & S' & g' & res & HS & Hrun & _ & _ & _ & _ & Hsize).
  exists S, S', g', res. exact (conj HS (conj Hrun Hsize)).
Defined.

(** A session that was just used is unusable for a caller whose clock sample is
    one nanosecond older. *)
Lemma session_lookup_spec_witness :
  let s := {| ds_locale := PublicLocale_EnUs; ds_last_activity := 5; ds_active_ws_count := 0 |} in
  let r := {| dr_sessions := Some {["0" := s]}; dr_maximum_sessions := 2 |} in
  dr_sessions r = Some {["0" := s]} ∧ usable 5 s ∧ ¬ usable 4 s ∧
  (locale_at "0" 5 r).2 = Ok (Some PublicLocale_EnUs) ∧ (locale_at "0" 4 r).2 = Ok None.
Proof.
  intros s r. assert (dr_sessions r = Some {["0" := s]}) as HS by reflexivity.
  assert (usable 5 s) as H5 by (right; vm_compute; split; discriminate).
  assert (¬ usable 4 s) as H4 by (unfold usable; simpl; lia).
  split; [exact HS|]. split; [exact H5|]. split; [exact H4|]. split.
  - destruct (session_lookup_spec r 1%N {["0" := s]} "0" PublicLocale_EnUs 5 HS) as [Hu _].
    destruct (Hu s ltac:(reflexivity) H5) as (_ & E & _). rewrite E. reflexivity.
  - destruct (session_lookup_spec r 1%N {["0" := s]} "0" PublicLocale_EnUs 4 HS) as [_ Hn].
    destruct Hn as (_ & E & _).
    + intros s' Hs'. rewrite lookup_singleton_eq in Hs'. injection Hs' as <-. exact H4.
    + rewrite E. reflexivity.
Defined.
