(* ===== verification/Json.v ===== *)
(** * JSON values ([serde_json])

    The public type [serde_json::Value], whose [Map] is a [BTreeMap] here, with
    its accessors. Numbers and the printed text belong to the crate: the classes
    [NumberApi] and [JsonText] name what the modelled code uses of them. *)

From stdpp Require Import pretty.
From S2P Require Import Prelude Identity Ordering.

(** ** Numbers *)

(** [serde_json::Number]: its equality, [Display], [as_i64] and [From]. *)
Class NumberApi := {
  Number : Type;
  Number_eq_dec :: EqDecision Number;
  number_to_string : Number → string;
  number_as_i64 : Number → option Z;
  number_from : Z → Number
}.

(** ** Values *)

Section value.
Context `{NumberApi}.

Unset Elimination Schemes.

(** The members of an object are in the order of their keys. *)
Inductive Value : Type :=
| Value_Null
| Value_Bool (b : bool)
| Value_Number (n : Number)
| Value_String (s : string)
| Value_Array (values : list Value)
| Value_Object (members : list (string * Value)).

Set Elimination Schemes.

Definition Value_ind (P : Value → Prop)
    (P_null : P Value_Null) (P_bool : ∀ b, P (Value_Bool b)) (P_number : ∀ n, P (Value_Number n))
    (P_string : ∀ s, P (Value_String s))
    (P_array : ∀ l, Forall P l → P (Value_Array l))
    (P_object : ∀ m, Forall (λ kv, P kv.2) m → P (Value_Object m)) : ∀ v, P v :=
  fix go v :=
    match v with
    | Value_Null => P_null
    | Value_Bool b => P_bool b
    | Value_Number n => P_number n
    | Value_String s => P_string s
    | Value_Array l =>
        P_array l ((fix elems l : Forall P l :=
          match l with [] => Forall_nil_2 _ | v :: l => Forall_cons_2 _ _ _ (go v) (elems l) end) l)
    | Value_Object m =>
        P_object m ((fix elems m : Forall (λ kv, P kv.2) m :=
          match m with
          | [] => Forall_nil_2 _
          | kv :: m => Forall_cons_2 _ _ _ (go kv.2) (elems m)
          end) m)
    end.

#[export] Instance Value_eq_dec : EqDecision Value.
Proof.
  refine (fix go (v w : Value) {struct v} : Decision (v = w) :=
    let _ : EqDecision Value := @go in
    match v, w with
    | Value_Null, Value_Null => left eq_refl
    | Value_Bool b, Value_Bool c => cast_if (decide (b = c))
    | Value_Number n, Value_Number k => cast_if (decide (n = k))
    | Value_String s, Value_String t => cast_if (decide (s = t))
    | Value_Array l, Value_Array k => cast_if (decide (l = k))
    | Value_Object m, Value_Object p => cast_if (decide (m = p))
    | _, _ => right _
    end); clear dependent go; abstract congruence.
Defined.

(** ** Objects: [Map<String, Value>] *)

Abbreviation Object := (list (string * Value)).

(** [Map::get]. *)
Fixpoint obj_get (key : string) (m : Object) : option Value :=
  match m with
  | [] => None
  | (k, v) :: m => if bool_decide (k = key) then Some v else obj_get key m
  end.

(** [Map::insert]. *)
Fixpoint obj_insert (key : string) (value : Value) (m : Object) : Object :=
  match m with
  | [] => [(key, value)]
  | (k, v) :: m' =>
      match rcmp key k with
      | Lt => (key, value) :: m
      | Eq => (key, value) :: m'
      | Gt => (k, v) :: obj_insert key value m'
      end
  end.

(** [Map::remove]. *)
Definition obj_remove (key : string) (m : Object) : Object := filter (λ kv, kv.1 ≠ key) m.

(** The object a sequence of insertions builds. *)
Definition obj_of (entries : Object) : Object :=
  foldl (λ m kv, obj_insert kv.1 kv.2 m) [] entries.

(** The macro [json!] of an object. *)
Definition json_object (members : Object) : Value := Value_Object (obj_of members).

(** ** Accessors *)

Definition value_is_null (v : Value) : bool := match v with Value_Null => true | _ => false end.
Definition value_as_str (v : Value) : option string := match v with Value_String s => Some s | _ => None end.
Definition value_as_object (v : Value) : option Object := match v with Value_Object m => Some m | _ => None end.

(** ** Well-formed values: the keys of every object are in strict order *)

Definition keys_sorted (m : Object) : Prop := StronglySorted (λ l r, rcmp l r = Lt) m.*1.

Inductive value_wf : Value → Prop :=
| value_wf_null : value_wf Value_Null
| value_wf_bool b : value_wf (Value_Bool b)
| value_wf_number n : value_wf (Value_Number n)
| value_wf_string s : value_wf (Value_String s)
| value_wf_array l : Forall value_wf l → value_wf (Value_Array l)
| value_wf_object m : keys_sorted m → Forall (λ kv, value_wf kv.2) m → value_wf (Value_Object m).

End value.

Abbreviation Object := (list (string * Value)).

(** ** Printing *)

(** [serde_json::to_string] and [to_vec] of a value, which cannot fail. *)
Class JsonText `{NumberApi} := json_to_string : Value → string.

(** Two values with the same text are the same. *)
Class JsonTextLaws `{JsonText} : Prop := json_to_string_inj :: Inj (=) (=) json_to_string.

(** * Lemmas *)

Section object_facts.
Context `{NumberApi}.
Implicit Types (k : string) (v w : Value) (m : Object).

Lemma obj_get_None k m : obj_get k m = None ↔ k ∉ m.*1.
Proof.
  induction m as [|[k' v] m IH]; csimpl; [split; [intros _; apply not_elem_of_nil|done]|].
  rewrite not_elem_of_cons, <-IH. case_bool_decide; subst; naive_solver.
Qed.

Lemma obj_get_elem k m v : obj_get k m = Some v → (k, v) ∈ m.
Proof.
  induction m as [|[k' w] m IH]; simpl; [done|]. case_bool_decide as E.
  - intros [= ->]. subst. left.
  - intros Hin. right. by apply IH.
Qed.

Lemma obj_get_insert_eq k v m : obj_get k (obj_insert k v m) = Some v.
Proof.
  induction m as [|[k' w] m IH]; simpl; [by rewrite bool_decide_eq_true_2|].
  destruct (rcmp k k') eqn:E; simpl; [by rewrite bool_decide_eq_true_2..|].
  rewrite bool_decide_eq_false_2; [done|]. intros ->. by rewrite rcmp_refl in E.
Qed.

Lemma obj_get_insert_ne k k' v m : k ≠ k' → obj_get k' (obj_insert k v m) = obj_get k' m.
Proof.
  intros Hne. induction m as [|[k1 w] m IH]; simpl; [by rewrite bool_decide_eq_false_2|].
  destruct (rcmp k k1) eqn:E; simpl.
  - apply rcmp_eq in E as ->. by rewrite bool_decide_eq_false_2.
  - by rewrite bool_decide_eq_false_2.
  - by rewrite IH.
Qed.

Lemma obj_get_insert k k' v m :
  obj_get k' (obj_insert k v m) = if bool_decide (k = k') then Some v else obj_get k' m.
Proof. case_bool_decide; subst; [apply obj_get_insert_eq|by apply obj_get_insert_ne]. Qed.

Lemma obj_insert_keys k v m k' : k' ∈ (obj_insert k v m).*1 ↔ k' = k ∨ k' ∈ m.*1.
Proof.
  induction m as [|[k1 w] m IH]; csimpl; [set_solver|].
  destruct (rcmp k k1) eqn:E; csimpl; [apply rcmp_eq in E as ->; set_solver|set_solver|].
  rewrite !elem_of_cons, IH. set_solver.
Qed.

Lemma obj_insert_sorted k v m : keys_sorted m → keys_sorted (obj_insert k v m).
Proof.
  unfold keys_sorted. induction m as [|[k1 w] m IH]; csimpl; [repeat constructor|].
  intros [Hs Hk]%StronglySorted_inv. destruct (rcmp k k1) eqn:E; csimpl.
  - apply rcmp_eq in E as ->. by constructor.
  - constructor; [by constructor|]. constructor; [done|].
    eapply Forall_impl; [exact Hk|]. intros k2. apply (rcmp_trans k k1 k2 E).
  - constructor; [by apply IH|]. apply Forall_forall. intros k2 [->|Hin]%obj_insert_keys.
    + by apply rcmp_gt_lt.
    + by apply (Forall_forall _ _) with k2 in Hk.
Qed.

Lemma obj_of_app l l' : obj_of (l ++ l') = foldl (λ m kv, obj_insert kv.1 kv.2 m) (obj_of l) l'.
Proof. unfold obj_of. by rewrite foldl_app. Qed.

Lemma obj_of_sorted l : keys_sorted (obj_of l).
Proof.
  unfold obj_of. apply (foldl_inv keys_sorted); [constructor|].
  intros m kv _. apply obj_insert_sorted.
Qed.

(** The keys of a sorted object determine it. *)
Lemma obj_ext m m' :
  keys_sorted m → keys_sorted m' → (∀ k, obj_get k m = obj_get k m') → m = m'.
Proof.
  unfold keys_sorted. revert m'. induction m as [|[k v] m IH]; intros [|[k' v'] m'] Hs Hs' Hg; csimpl in *.
  - done.
  - specialize (Hg k'). rewrite bool_decide_eq_true_2 in Hg by done. discriminate.
  - specialize (Hg k). rewrite bool_decide_eq_true_2 in Hg by done. discriminate.
  - apply StronglySorted_inv in Hs as [Hs Hk]. apply StronglySorted_inv in Hs' as [Hs' Hk'].
    assert (∀ k0 m0, Forall (λ r, rcmp k0 r = Lt) m0.*1 → obj_get (H:=H) k0 m0 = None) as Hnone.
    { intros k0 m0 Hall. apply obj_get_None. intros Hin. apply (Forall_forall _ _) with k0 in Hall; [|done].
      by rewrite rcmp_refl in Hall. }
    assert (k = k') as <-.
    { destruct (rcmp k k') eqn:E; [by apply rcmp_eq in E| |].
      - pose proof (Hg k) as Hgk. rewrite bool_decide_eq_true_2 in Hgk by done.
        rewrite bool_decide_eq_false_2 in Hgk by (intros ->; by rewrite rcmp_refl in E).
        rewrite Hnone in Hgk; [done|]. eapply Forall_impl; [exact Hk'|]. intros k2. apply (rcmp_trans k k' k2 E).
      - apply rcmp_gt_lt in E. pose proof (Hg k') as Hgk. rewrite (bool_decide_eq_true_2 (k' = k')) in Hgk by done.
        rewrite bool_decide_eq_false_2 in Hgk by (intros ->; by rewrite rcmp_refl in E).
        rewrite Hnone in Hgk; [done|]. eapply Forall_impl; [exact Hk|]. intros k2. apply (rcmp_trans k' k k2 E). }
    assert (v = v') as <-.
    { specialize (Hg k). rewrite !bool_decide_eq_true_2 in Hg by done. congruence. }
    f_equal. apply IH; [done..|]. intros k2. specialize (Hg k2). case_bool_decide as E; [|done]. subst k2.
    by rewrite !Hnone.
Qed.

Lemma keys_sorted_NoDup m : keys_sorted m → NoDup m.*1.
Proof. intros Hs. exact (sorted_lt_NoDup (@rcmp string _) m.*1 Hs). Qed.

Lemma obj_get_Some k v m : keys_sorted m → obj_get k m = Some v ↔ (k, v) ∈ m.
Proof.
  intros Hs%keys_sorted_NoDup. split; [apply obj_get_elem|].
  induction m as [|[k' w] m IH]; csimpl in *; [by intros ?%elem_of_nil|].
  apply NoDup_cons in Hs as [Hk Hs]. intros [[= -> ->]|Hin]%elem_of_cons; [by rewrite bool_decide_eq_true_2|].
  rewrite bool_decide_eq_false_2; [by apply IH|]. intros ->. apply Hk. by apply (list_elem_of_fmap_2 fst) in Hin.
Qed.

Lemma obj_get_filter P `{∀ k : string, Decision (P k)} k m :
  obj_get k (filter (λ kv, P kv.1) m) = if decide (P k) then obj_get k m else None.
Proof.
  induction m as [|[k' w] m IH]; [by destruct (decide _)|]. rewrite filter_cons.
  cbn [fst]. destruct (decide (P k')) as [Hk|Hk]; cbn [obj_get]; rewrite IH; clear IH;
    (case_bool_decide; [subst; by rewrite ?(decide_True _ _ Hk), ?(decide_False _ _ Hk)|done]).
Qed.

Lemma filter_keys_sorted P `{∀ k : string, Decision (P k)} m :
  keys_sorted m → keys_sorted (filter (λ kv, P kv.1) m).
Proof.
  unfold keys_sorted. induction m as [|[k w] m IH]; [done|]. csimpl.
  intros [Hs Hk]%StronglySorted_inv. rewrite filter_cons. case_decide; [|by apply IH]. csimpl.
  constructor; [by apply IH|]. rewrite Forall_forall in *. intros k' Hin. apply Hk.
  apply list_elem_of_fmap in Hin as (kv & -> & [_ Hin]%list_elem_of_filter). by apply list_elem_of_fmap_2.
Qed.

Lemma obj_get_remove k k' m : obj_get k' (obj_remove k m) = if bool_decide (k' = k) then None else obj_get k' m.
Proof.
  etrans; [exact (obj_get_filter (λ k', k' ≠ k) k' m)|].
  case_bool_decide; case_decide; try done; congruence.
Qed.

Lemma obj_remove_sorted k m : keys_sorted m → keys_sorted (obj_remove k m).
Proof. intros Hs. exact (filter_keys_sorted (λ k', k' ≠ k) m Hs). Qed.

(** Insertions of distinct keys. *)
Lemma obj_get_of k v l : NoDup l.*1 → (k, v) ∈ l → obj_get k (obj_of l) = Some v.
Proof.
  induction l as [|[k' w] l IH] using rev_ind; [by intros _ ?%elem_of_nil|].
  rewrite fmap_app. intros (Hnd & Hk & _)%NoDup_app Hin. rewrite obj_of_app. simpl.
  apply elem_of_app in Hin as [Hin|[= -> ->]%list_elem_of_singleton]; [|apply obj_get_insert_eq].
  rewrite obj_get_insert_ne; [by apply IH|]. intros ->.
  apply (Hk k); [by apply (list_elem_of_fmap_2 fst) in Hin|]. csimpl. left.
Qed.

Lemma obj_of_keys k l : k ∈ (obj_of l).*1 ↔ k ∈ l.*1.
Proof.
  induction l as [|[k' w] l IH] using rev_ind; [done|].
  rewrite obj_of_app, fmap_app. simpl. rewrite obj_insert_keys, IH. set_solver.
Qed.

Lemma obj_get_of_None k l : k ∉ l.*1 → obj_get k (obj_of l) = None.
Proof. intros Hk. apply obj_get_None. by rewrite obj_of_keys. Qed.

Lemma obj_insert_elem k v m kv : kv ∈ obj_insert k v m → kv = (k, v) ∨ kv ∈ m.
Proof.
  induction m as [|[k1 w] m IH]; cbn; [rewrite list_elem_of_singleton; by left|].
  destruct (rcmp k k1); rewrite ?elem_of_cons; naive_solver.
Qed.

Lemma obj_of_elem l kv : kv ∈ obj_of l → kv ∈ l.
Proof.
  induction l as [|[k v] l IH] using rev_ind; [done|]. rewrite obj_of_app, elem_of_app, list_elem_of_singleton.
  intros [->|Hin]%obj_insert_elem; [by right|left; by apply IH].
Qed.

Lemma value_wf_obj_of l : Forall (λ kv, value_wf kv.2) l → value_wf (Value_Object (obj_of l)).
Proof.
  intros Hl. constructor; [apply obj_of_sorted|]. rewrite Forall_forall in *.
  intros kv Hin%obj_of_elem. by apply Hl.
Qed.

Lemma value_wf_array_inv l : value_wf (Value_Array l) → Forall value_wf l.
Proof. by inversion 1. Qed.

Lemma value_wf_object_inv m : value_wf (Value_Object m) → keys_sorted m ∧ Forall (λ kv, value_wf kv.2) m.
Proof. by inversion 1. Qed.

Lemma value_wf_get k v m : value_wf (Value_Object m) → obj_get k m = Some v → value_wf v.
Proof.
  intros [_ Hm]%value_wf_object_inv Hin%obj_get_elem. by apply (Forall_forall _ _) with (k, v) in Hm.
Qed.

End object_facts.

(** ** A concrete implementation

    Numbers are integers, printed in binary, and a text keeps the structure of
    its value: each text can be read off the front of a longer one. *)

#[local] Instance concrete_number_api : NumberApi := {|
  Number := Z; Number_eq_dec := _;
  number_to_string := pretty; number_as_i64 n := Some n; number_from n := n
|}.

(** The byte of a code. *)
#[local] Abbreviation byte n := (Ascii.ascii_of_N n%N) (only parsing).

Fixpoint text_positive (p : positive) (rest : string) : string :=
  match p with
  | xH => String (byte 49) rest
  | xO p => String (byte 48) (text_positive p rest)
  | xI p => String (byte 50) (text_positive p rest)
  end.

Definition text_number (n : Z) (rest : string) : string :=
  match n with
  | Z0 => String (byte 48) rest
  | Zpos p => String (byte 43) (text_positive p rest)
  | Zneg p => String (byte 45) (text_positive p rest)
  end.

Fixpoint text_string (s rest : string) : string :=
  match s with
  | EmptyString => String (byte 46) rest
  | String c s => String (byte 39) (String c (text_string s rest))
  end.

Fixpoint text_value (v : @Value concrete_number_api) (rest : string) : string :=
  match v with
  | Value_Null => String (byte 110) rest
  | Value_Bool b => if b then String (byte 116) rest else String (byte 102) rest
  | Value_Number n => String (byte 35) (text_number n rest)
  | Value_String s => String (byte 115) (text_string s rest)
  | Value_Array l => String (byte 91) (foldr (λ v rest, String (byte 44) (text_value v rest)) (String (byte 93) rest) l)
  | Value_Object m =>
      String (byte 123) (foldr (λ kv rest, String (byte 44) (text_string kv.1 (text_value kv.2 rest))) (String (byte 125) rest) m)
  end.

#[local] Instance concrete_json_text : @JsonText concrete_number_api := λ v, text_value v "".

Lemma text_positive_inj p q r s : text_positive p r = text_positive q s → p = q ∧ r = s.
Proof.
  revert q. induction p as [p IH|p IH|]; intros [q|q|]; rewrite ?string_cons_app, ?string_nil_app; cbn [text_positive];
    intros [= E]; try (apply IH in E); naive_solver.
Qed.

Lemma text_string_inj s t r r' : text_string s r = text_string t r' → s = t ∧ r = r'.
Proof.
  revert t. induction s as [|c s IH]; intros [|d t]; cbn [text_string];
    intros [= E]; subst; try (apply IH in H0 || apply IH in E); naive_solver.
Qed.

Lemma text_number_inj n k r s : text_number n r = text_number k s → n = k ∧ r = s.
Proof.
  destruct n as [|p|p], k as [|q|q]; cbn; intros [= E]; try (apply text_positive_inj in E); naive_solver.
Qed.

(** What separates the elements of a list is not what closes it. *)
Lemma text_list_inj {A} (f : A → string → string) (sep close : Ascii.ascii) l k r s :
  close ≠ sep →
  Forall (λ x, ∀ y r s, f x r = f y s → x = y ∧ r = s) l →
  foldr (λ x rest, String sep (f x rest)) (String close r) l =
  foldr (λ x rest, String sep (f x rest)) (String close s) k → l = k ∧ r = s.
Proof.
  intros Hc Hl. revert k. induction Hl as [|x l Hx Hl IH]; intros [|y k]; cbn [foldr]; intros [= E]; try congruence; [by split|].
  apply Hx in E as [-> E]. apply IH in E as [-> ->]. done.
Qed.

Lemma text_value_inj v : ∀ w r s, text_value v r = text_value w s → v = w ∧ r = s.
Proof.
  induction v as [|b|n|x|l IH|m IH] using Value_ind; intros [|c|k|y|l'|m'] r s E;
    cbn in E; try (destruct b); try (destruct c); try discriminate E.
  1-3: by injection E as ->.
  - injection E as E. by apply text_number_inj in E as [-> ->].
  - injection E as E. by apply text_string_inj in E as [-> ->].
  - injection E as E. by apply (text_list_inj text_value) in E as [-> ->].
  - injection E as E.
    apply (text_list_inj (λ kv rest, text_string kv.1 (text_value kv.2 rest))) in E as [-> ->]; [done..|].
    eapply Forall_impl; [exact IH|]. intros [k v] Hv [k' v'] r1 s1 Ht. cbn in *.
    apply text_string_inj in Ht as [-> Ht]. by apply Hv in Ht as [-> ->].
Qed.

Lemma concrete_json_text_laws : @JsonTextLaws concrete_number_api concrete_json_text.
Proof. intros v w E. by apply text_value_inj in E as [-> _]. Qed.
