(* ===== verification/RawCatalog.v ===== *)
(** * The raw catalog (crates/bcsp-rutgers-client/src/raw_catalog.rs)

    The records of the upstream catalog, which keep for every field whether it
    was absent, null, malformed or a value; their conversion to and from JSON;
    and the decoding of a payload, which refuses duplicate members and the
    reserved envelope of a malformed field. *)

From S2P Require Import Prelude Identity Contracts OpenClient Ordering Json.

(** ** Digests (crates/bcsp-catalog/src/model.rs, crates/bcsp-rutgers-client) *)

(** [len() == 64] and only digits and [a..f]. *)
Definition is_sha256_hex (value : string) : bool :=
  bool_decide (String.length value = 64%nat) && forallb is_lower_hex (bytes value).

Section raw_catalog.
Context `{Sha256Api, JsonText}.

(** ** Conversions of one type to and from JSON: [Serialize] and [DeserializeOwned] *)

Class Wire (T : Type) := {
  to_value : T → Value;
  from_value : Value → option T
}.

#[export] Instance string_wire : Wire string :=
  {| to_value := Value_String; from_value := value_as_str |}.
#[export] Instance bool_wire : Wire bool :=
  {| to_value := Value_Bool; from_value v := match v with Value_Bool b => Some b | _ => None end |}.
#[export] Instance i64_wire : Wire Z :=
  {| to_value n := Value_Number (number_from n);
     from_value v := match v with Value_Number n => number_as_i64 n | _ => None end |}.
#[export] Instance number_wire : Wire Number :=
  {| to_value := Value_Number; from_value v := match v with Value_Number n => Some n | _ => None end |}.
#[export] Instance value_wire : Wire Value :=
  {| to_value v := v; from_value := Some |}.
#[export] Instance object_wire : Wire Object :=
  {| to_value := Value_Object; from_value := value_as_object |}.
#[export] Instance list_wire {T} `{Wire T} : Wire (list T) :=
  {| to_value l := Value_Array (to_value <$> l);
     from_value v := match v with Value_Array l => mapM from_value l | _ => None end |}.

(** ** Malformed fields *)

Definition JsonType_name (t : JsonType) : string :=
  match t with
  | JsonType_Boolean => "BOOLEAN"
  | JsonType_Number => "NUMBER"
  | JsonType_String => "STRING"
  | JsonType_Array => "ARRAY"
  | JsonType_Object => "OBJECT"
  end.

Definition JsonType_of_name (name : string) : option JsonType :=
  if bool_decide (name = "BOOLEAN") then Some JsonType_Boolean
  else if bool_decide (name = "NUMBER") then Some JsonType_Number
  else if bool_decide (name = "STRING") then Some JsonType_String
  else if bool_decide (name = "ARRAY") then Some JsonType_Array
  else if bool_decide (name = "OBJECT") then Some JsonType_Object
  else None.

(** A unit variant is its name, or an object from its name to null. *)
Definition JsonType_from_value (v : Value) : option JsonType :=
  match v with
  | Value_String name => JsonType_of_name name
  | Value_Object [(name, Value_Null)] => JsonType_of_name name
  | _ => None
  end.

Definition MalformedField_to_value (f : MalformedField) : Value :=
  Value_Object (obj_of [("jsonType", Value_String (JsonType_name (mf_json_type f)));
                        ("canonicalSha256", Value_String (mf_canonical_sha256 f))]).

(** A struct is an object of exactly its fields, or the array of their values. *)
Definition MalformedField_from_value (v : Value) : option MalformedField :=
  let build json_type digest :=
    t ← JsonType_from_value json_type; d ← value_as_str digest;
    Some {| mf_json_type := t; mf_canonical_sha256 := d |} in
  match v with
  | Value_Object m =>
      json_type ← obj_get "jsonType" m;
      digest ← obj_get "canonicalSha256" m;
      if bool_decide (length m = 2%nat) then build json_type digest else None
  | Value_Array [json_type; digest] => build json_type digest
  | _ => None
  end.

(** [MalformedField::from_value]; [None] is its panic on null. *)
Definition malformed_of_value (v : Value) : option MalformedField :=
  json_type ← match v with
              | Value_Bool _ => Some JsonType_Boolean
              | Value_Number _ => Some JsonType_Number
              | Value_String _ => Some JsonType_String
              | Value_Array _ => Some JsonType_Array
              | Value_Object _ => Some JsonType_Object
              | Value_Null => None
              end;
  Some {| mf_json_type := json_type; mf_canonical_sha256 := sha256_hex (json_to_string v) |}.

Definition has_canonical_digest (f : MalformedField) : bool := is_sha256_hex (mf_canonical_sha256 f).

(** ** Presence of a field *)

Definition is_missing {T} (p : Presence T) : bool :=
  match p with Presence_Missing => true | _ => false end.

Definition presence_to_value {T} `{Wire T} (p : Presence T) : Value :=
  match p with
  | Presence_Missing | Presence_Null => Value_Null
  | Presence_Malformed f => Value_Object (obj_of [("$malformed", MalformedField_to_value f)])
  | Presence_Value x => to_value x
  end.

Definition presence_from_value {T} `{Wire T} (v : Value) : option (Presence T) :=
  if value_is_null v then Some Presence_Null
  else match m ← value_as_object v; envelope ← obj_get "$malformed" m; Some (m, envelope) with
  | Some (m, envelope) =>
      if bool_decide (length m ≠ 1%nat) then None
      else f ← MalformedField_from_value envelope;
           if has_canonical_digest f then Some (Presence_Malformed f) else None
  | None =>
      match from_value v with
      | Some x => Some (Presence_Value x)
      | None => Presence_Malformed <$> malformed_of_value v
      end
  end.

(** ** Records: [#[serde(default, skip_serializing_if = "Presence::is_missing")]]
    for the fields and [#[serde(flatten)]] for the others *)

Definition member {T} `{Wire T} (p : Presence T) : option Value :=
  if is_missing p then None else Some (presence_to_value p).

Definition present (fields : list (string * option Value)) : Object :=
  omap (λ field, pair field.1 <$> field.2) fields.

Definition record_to_value (fields : list (string * option Value)) (extra : Object) : Value :=
  Value_Object (obj_of (present fields ++ extra)).

Definition take {T} `{Wire T} (name : string) (m : Object) : option (Presence T) :=
  match obj_get name m with
  | None => Some Presence_Missing
  | Some v => presence_from_value v
  end.

Definition unknown_members (names : list string) (m : Object) : Object :=
  filter (λ kv, kv.1 ∉ names) m.

(** ** The upstream records *)

Record RawInstructor := {
  rin_name : Presence string;
  rin_extra : Object
}.

Definition RawInstructor_fields (r : RawInstructor) : list (string * option Value) :=
  [("name", member (rin_name r))].

Definition RawInstructor_names : list string :=
  ["name"].

Definition RawInstructor_to_value (r : RawInstructor) : Value := record_to_value (RawInstructor_fields r) (rin_extra r).

Definition RawInstructor_from_value (v : Value) : option RawInstructor :=
  m ← value_as_object v;
  name_ ← take "name" m;
  Some {| rin_name := name_;
          rin_extra := unknown_members RawInstructor_names m |}.

#[export] Instance RawInstructor_wire : Wire RawInstructor :=
  {| to_value := RawInstructor_to_value; from_value := RawInstructor_from_value |}.

Record RawMeeting := {
  rme_ba_class_hours : Presence string;
  rme_building_code : Presence string;
  rme_campus_abbrev : Presence string;
  rme_campus_location : Presence string;
  rme_campus_name : Presence string;
  rme_end_time : Presence string;
  rme_end_time_military : Presence string;
  rme_meeting_day : Presence string;
  rme_meeting_mode_code : Presence string;
  rme_meeting_mode_desc : Presence string;
  rme_pm_code : Presence string;
  rme_room_number : Presence string;
  rme_start_time : Presence string;
  rme_start_time_military : Presence string;
  rme_extra : Object
}.

Definition RawMeeting_fields (r : RawMeeting) : list (string * option Value) :=
  [("baClassHours", member (rme_ba_class_hours r));
   ("buildingCode", member (rme_building_code r));
   ("campusAbbrev", member (rme_campus_abbrev r));
   ("campusLocation", member (rme_campus_location r));
   ("campusName", member (rme_campus_name r));
   ("endTime", member (rme_end_time r));
   ("endTimeMilitary", member (rme_end_time_military r));
   ("meetingDay", member (rme_meeting_day r));
   ("meetingModeCode", member (rme_meeting_mode_code r));
   ("meetingModeDesc", member (rme_meeting_mode_desc r));
   ("pmCode", member (rme_pm_code r));
   ("roomNumber", member (rme_room_number r));
   ("startTime", member (rme_start_time r));
   ("startTimeMilitary", member (rme_start_time_military r))].

Definition RawMeeting_names : list string :=
  ["baClassHours";
   "buildingCode";
   "campusAbbrev";
   "campusLocation";
   "campusName";
   "endTime";
   "endTimeMilitary";
   "meetingDay";
   "meetingModeCode";
   "meetingModeDesc";
   "pmCode";
   "roomNumber";
   "startTime";
   "startTimeMilitary"].

Definition RawMeeting_to_value (r : RawMeeting) : Value := record_to_value (RawMeeting_fields r) (rme_extra r).

Definition RawMeeting_from_value (v : Value) : option RawMeeting :=
  m ← value_as_object v;
  ba_class_hours_ ← take "baClassHours" m;
  building_code_ ← take "buildingCode" m;
  campus_abbrev_ ← take "campusAbbrev" m;
  campus_location_ ← take "campusLocation" m;
  campus_name_ ← take "campusName" m;
  end_time_ ← take "endTime" m;
  end_time_military_ ← take "endTimeMilitary" m;
  meeting_day_ ← take "meetingDay" m;
  meeting_mode_code_ ← take "meetingModeCode" m;
  meeting_mode_desc_ ← take "meetingModeDesc" m;
  pm_code_ ← take "pmCode" m;
  room_number_ ← take "roomNumber" m;
  start_time_ ← take "startTime" m;
  start_time_military_ ← take "startTimeMilitary" m;
  Some {| rme_ba_class_hours := ba_class_hours_;
          rme_building_code := building_code_;
          rme_campus_abbrev := campus_abbrev_;
          rme_campus_location := campus_location_;
          rme_campus_name := campus_name_;
          rme_end_time := end_time_;
          rme_end_time_military := end_time_military_;
          rme_meeting_day := meeting_day_;
          rme_meeting_mode_code := meeting_mode_code_;
          rme_meeting_mode_desc := meeting_mode_desc_;
          rme_pm_code := pm_code_;
          rme_room_number := room_number_;
          rme_start_time := start_time_;
          rme_start_time_military := start_time_military_;
          rme_extra := unknown_members RawMeeting_names m |}.

#[export] Instance RawMeeting_wire : Wire RawMeeting :=
  {| to_value := RawMeeting_to_value; from_value := RawMeeting_from_value |}.

Record RawCatalogSection := {
  rcs_campus_code : Presence string;
  rcs_comments : Presence (list Value);
  rcs_comments_text : Presence string;
  rcs_cross_listed_sections : Presence (list Value);
  rcs_cross_listed_sections_text : Presence string;
  rcs_cross_listed_section_type : Presence string;
  rcs_exam_code : Presence string;
  rcs_exam_code_text : Presence string;
  rcs_final_exam : Presence Value;
  rcs_honor_programs : Presence (list Value);
  rcs_index : Presence string;
  rcs_instructors : Presence (list RawInstructor);
  rcs_instructors_text : Presence string;
  rcs_legend_key : Presence string;
  rcs_majors : Presence (list Value);
  rcs_meeting_times : Presence (list RawMeeting);
  rcs_minors : Presence (list Value);
  rcs_number : Presence string;
  rcs_open_status : Presence bool;
  rcs_open_status_text : Presence string;
  rcs_open_to_text : Presence string;
  rcs_printed : Presence string;
  rcs_section_campus_locations : Presence (list Value);
  rcs_section_course_type : Presence string;
  rcs_section_eligibility : Presence string;
  rcs_section_notes : Presence string;
  rcs_session_date_print_indicator : Presence string;
  rcs_session_dates : Presence string;
  rcs_special_permission_add_code : Presence string;
  rcs_special_permission_add_code_description : Presence string;
  rcs_special_permission_drop_code : Presence string;
  rcs_special_permission_drop_code_description : Presence string;
  rcs_subtitle : Presence string;
  rcs_subtopic : Presence string;
  rcs_unit_majors : Presence (list Value);
  rcs_extra : Object
}.

Definition RawCatalogSection_fields (r : RawCatalogSection) : list (string * option Value) :=
  [("campusCode", member (rcs_campus_code r));
   ("comments", member (rcs_comments r));
   ("commentsText", member (rcs_comments_text r));
   ("crossListedSections", member (rcs_cross_listed_sections r));
   ("crossListedSectionsText", member (rcs_cross_listed_sections_text r));
   ("crossListedSectionType", member (rcs_cross_listed_section_type r));
   ("examCode", member (rcs_exam_code r));
   ("examCodeText", member (rcs_exam_code_text r));
   ("finalExam", member (rcs_final_exam r));
   ("honorPrograms", member (rcs_honor_programs r));
   ("index", member (rcs_index r));
   ("instructors", member (rcs_instructors r));
   ("instructorsText", member (rcs_instructors_text r));
   ("legendKey", member (rcs_legend_key r));
   ("majors", member (rcs_majors r));
   ("meetingTimes", member (rcs_meeting_times r));
   ("minors", member (rcs_minors r));
   ("number", member (rcs_number r));
   ("openStatus", member (rcs_open_status r));
   ("openStatusText", member (rcs_open_status_text r));
   ("openToText", member (rcs_open_to_text r));
   ("printed", member (rcs_printed r));
   ("sectionCampusLocations", member (rcs_section_campus_locations r));
   ("sectionCourseType", member (rcs_section_course_type r));
   ("sectionEligibility", member (rcs_section_eligibility r));
   ("sectionNotes", member (rcs_section_notes r));
   ("sessionDatePrintIndicator", member (rcs_session_date_print_indicator r));
   ("sessionDates", member (rcs_session_dates r));
   ("specialPermissionAddCode", member (rcs_special_permission_add_code r));
   ("specialPermissionAddCodeDescription", member (rcs_special_permission_add_code_description r));
   ("specialPermissionDropCode", member (rcs_special_permission_drop_code r));
   ("specialPermissionDropCodeDescription", member (rcs_special_permission_drop_code_description r));
   ("subtitle", member (rcs_subtitle r));
   ("subtopic", member (rcs_subtopic r));
   ("unitMajors", member (rcs_unit_majors r))].

Definition RawCatalogSection_names : list string :=
  ["campusCode";
   "comments";
   "commentsText";
   "crossListedSections";
   "crossListedSectionsText";
   "crossListedSectionType";
   "examCode";
   "examCodeText";
   "finalExam";
   "honorPrograms";
   "index";
   "instructors";
   "instructorsText";
   "legendKey";
   "majors";
   "meetingTimes";
   "minors";
   "number";
   "openStatus";
   "openStatusText";
   "openToText";
   "printed";
   "sectionCampusLocations";
   "sectionCourseType";
   "sectionEligibility";
   "sectionNotes";
   "sessionDatePrintIndicator";
   "sessionDates";
   "specialPermissionAddCode";
   "specialPermissionAddCodeDescription";
   "specialPermissionDropCode";
   "specialPermissionDropCodeDescription";
   "subtitle";
   "subtopic";
   "unitMajors"].

Definition RawCatalogSection_to_value (r : RawCatalogSection) : Value := record_to_value (RawCatalogSection_fields r) (rcs_extra r).

Definition RawCatalogSection_from_value (v : Value) : option RawCatalogSection :=
  m ← value_as_object v;
  campus_code_ ← take "campusCode" m;
  comments_ ← take "comments" m;
  comments_text_ ← take "commentsText" m;
  cross_listed_sections_ ← take "crossListedSections" m;
  cross_listed_sections_text_ ← take "crossListedSectionsText" m;
  cross_listed_section_type_ ← take "crossListedSectionType" m;
  exam_code_ ← take "examCode" m;
  exam_code_text_ ← take "examCodeText" m;
  final_exam_ ← take "finalExam" m;
  honor_programs_ ← take "honorPrograms" m;
  index_ ← take "index" m;
  instructors_ ← take "instructors" m;
  instructors_text_ ← take "instructorsText" m;
  legend_key_ ← take "legendKey" m;
  majors_ ← take "majors" m;
  meeting_times_ ← take "meetingTimes" m;
  minors_ ← take "minors" m;
  number_ ← take "number" m;
  open_status_ ← take "openStatus" m;
  open_status_text_ ← take "openStatusText" m;
  open_to_text_ ← take "openToText" m;
  printed_ ← take "printed" m;
  section_campus_locations_ ← take "sectionCampusLocations" m;
  section_course_type_ ← take "sectionCourseType" m;
  section_eligibility_ ← take "sectionEligibility" m;
  section_notes_ ← take "sectionNotes" m;
  session_date_print_indicator_ ← take "sessionDatePrintIndicator" m;
  session_dates_ ← take "sessionDates" m;
  special_permission_add_code_ ← take "specialPermissionAddCode" m;
  special_permission_add_code_description_ ← take "specialPermissionAddCodeDescription" m;
  special_permission_drop_code_ ← take "specialPermissionDropCode" m;
  special_permission_drop_code_description_ ← take "specialPermissionDropCodeDescription" m;
  subtitle_ ← take "subtitle" m;
  subtopic_ ← take "subtopic" m;
  unit_majors_ ← take "unitMajors" m;
  Some {| rcs_campus_code := campus_code_;
          rcs_comments := comments_;
          rcs_comments_text := comments_text_;
          rcs_cross_listed_sections := cross_listed_sections_;
          rcs_cross_listed_sections_text := cross_listed_sections_text_;
          rcs_cross_listed_section_type := cross_listed_section_type_;
          rcs_exam_code := exam_code_;
          rcs_exam_code_text := exam_code_text_;
          rcs_final_exam := final_exam_;
          rcs_honor_programs := honor_programs_;
          rcs_index := index_;
          rcs_instructors := instructors_;
          rcs_instructors_text := instructors_text_;
          rcs_legend_key := legend_key_;
          rcs_majors := majors_;
          rcs_meeting_times := meeting_times_;
          rcs_minors := minors_;
          rcs_number := number_;
          rcs_open_status := open_status_;
          rcs_open_status_text := open_status_text_;
          rcs_open_to_text := open_to_text_;
          rcs_printed := printed_;
          rcs_section_campus_locations := section_campus_locations_;
          rcs_section_course_type := section_course_type_;
          rcs_section_eligibility := section_eligibility_;
          rcs_section_notes := section_notes_;
          rcs_session_date_print_indicator := session_date_print_indicator_;
          rcs_session_dates := session_dates_;
          rcs_special_permission_add_code := special_permission_add_code_;
          rcs_special_permission_add_code_description := special_permission_add_code_description_;
          rcs_special_permission_drop_code := special_permission_drop_code_;
          rcs_special_permission_drop_code_description := special_permission_drop_code_description_;
          rcs_subtitle := subtitle_;
          rcs_subtopic := subtopic_;
          rcs_unit_majors := unit_majors_;
          rcs_extra := unknown_members RawCatalogSection_names m |}.

#[export] Instance RawCatalogSection_wire : Wire RawCatalogSection :=
  {| to_value := RawCatalogSection_to_value; from_value := RawCatalogSection_from_value |}.

Record RawCatalogCourse := {
  rcc_campus_code : Presence string;
  rcc_campus_locations : Presence (list Value);
  rcc_core_codes : Presence (list Value);
  rcc_course_description : Presence string;
  rcc_course_fee : Presence string;
  rcc_course_fee_descr : Presence string;
  rcc_course_notes : Presence string;
  rcc_course_number : Presence string;
  rcc_course_string : Presence string;
  rcc_credits : Presence Number;
  rcc_credits_object : Presence Object;
  rcc_expanded_title : Presence string;
  rcc_level : Presence string;
  rcc_main_campus : Presence string;
  rcc_offering_unit_code : Presence string;
  rcc_offering_unit_title : Presence string;
  rcc_open_sections : Presence Z;
  rcc_pre_req_notes : Presence string;
  rcc_school : Presence Object;
  rcc_sections : Presence (list RawCatalogSection);
  rcc_subject : Presence string;
  rcc_subject_description : Presence string;
  rcc_subject_group_notes : Presence string;
  rcc_subject_notes : Presence string;
  rcc_supplement_code : Presence string;
  rcc_synopsis_url : Presence string;
  rcc_title : Presence string;
  rcc_unit_notes : Presence string;
  rcc_extra : Object
}.

Definition RawCatalogCourse_fields (r : RawCatalogCourse) : list (string * option Value) :=
  [("campusCode", member (rcc_campus_code r));
   ("campusLocations", member (rcc_campus_locations r));
   ("coreCodes", member (rcc_core_codes r));
   ("courseDescription", member (rcc_course_description r));
   ("courseFee", member (rcc_course_fee r));
   ("courseFeeDescr", member (rcc_course_fee_descr r));
   ("courseNotes", member (rcc_course_notes r));
   ("courseNumber", member (rcc_course_number r));
   ("courseString", member (rcc_course_string r));
   ("credits", member (rcc_credits r));
   ("creditsObject", member (rcc_credits_object r));
   ("expandedTitle", member (rcc_expanded_title r));
   ("level", member (rcc_level r));
   ("mainCampus", member (rcc_main_campus r));
   ("offeringUnitCode", member (rcc_offering_unit_code r));
   ("offeringUnitTitle", member (rcc_offering_unit_title r));
   ("openSections", member (rcc_open_sections r));
   ("preReqNotes", member (rcc_pre_req_notes r));
   ("school", member (rcc_school r));
   ("sections", member (rcc_sections r));
   ("subject", member (rcc_subject r));
   ("subjectDescription", member (rcc_subject_description r));
   ("subjectGroupNotes", member (rcc_subject_group_notes r));
   ("subjectNotes", member (rcc_subject_notes r));
   ("supplementCode", member (rcc_supplement_code r));
   ("synopsisUrl", member (rcc_synopsis_url r));
   ("title", member (rcc_title r));
   ("unitNotes", member (rcc_unit_notes r))].

Definition RawCatalogCourse_names : list string :=
  ["campusCode";
   "campusLocations";
   "coreCodes";
   "courseDescription";
   "courseFee";
   "courseFeeDescr";
   "courseNotes";
   "courseNumber";
   "courseString";
   "credits";
   "creditsObject";
   "expandedTitle";
   "level";
   "mainCampus";
   "offeringUnitCode";
   "offeringUnitTitle";
   "openSections";
   "preReqNotes";
   "school";
   "sections";
   "subject";
   "subjectDescription";
   "subjectGroupNotes";
   "subjectNotes";
   "supplementCode";
   "synopsisUrl";
   "title";
   "unitNotes"].

Definition RawCatalogCourse_to_value (r : RawCatalogCourse) : Value := record_to_value (RawCatalogCourse_fields r) (rcc_extra r).

Definition RawCatalogCourse_from_value (v : Value) : option RawCatalogCourse :=
  m ← value_as_object v;
  campus_code_ ← take "campusCode" m;
  campus_locations_ ← take "campusLocations" m;
  core_codes_ ← take "coreCodes" m;
  course_description_ ← take "courseDescription" m;
  course_fee_ ← take "courseFee" m;
  course_fee_descr_ ← take "courseFeeDescr" m;
  course_notes_ ← take "courseNotes" m;
  course_number_ ← take "courseNumber" m;
  course_string_ ← take "courseString" m;
  credits_ ← take "credits" m;
  credits_object_ ← take "creditsObject" m;
  expanded_title_ ← take "expandedTitle" m;
  level_ ← take "level" m;
  main_campus_ ← take "mainCampus" m;
  offering_unit_code_ ← take "offeringUnitCode" m;
  offering_unit_title_ ← take "offeringUnitTitle" m;
  open_sections_ ← take "openSections" m;
  pre_req_notes_ ← take "preReqNotes" m;
  school_ ← take "school" m;
  sections_ ← take "sections" m;
  subject_ ← take "subject" m;
  subject_description_ ← take "subjectDescription" m;
  subject_group_notes_ ← take "subjectGroupNotes" m;
  subject_notes_ ← take "subjectNotes" m;
  supplement_code_ ← take "supplementCode" m;
  synopsis_url_ ← take "synopsisUrl" m;
  title_ ← take "title" m;
  unit_notes_ ← take "unitNotes" m;
  Some {| rcc_campus_code := campus_code_;
          rcc_campus_locations := campus_locations_;
          rcc_core_codes := core_codes_;
          rcc_course_description := course_description_;
          rcc_course_fee := course_fee_;
          rcc_course_fee_descr := course_fee_descr_;
          rcc_course_notes := course_notes_;
          rcc_course_number := course_number_;
          rcc_course_string := course_string_;
          rcc_credits := credits_;
          rcc_credits_object := credits_object_;
          rcc_expanded_title := expanded_title_;
          rcc_level := level_;
          rcc_main_campus := main_campus_;
          rcc_offering_unit_code := offering_unit_code_;
          rcc_offering_unit_title := offering_unit_title_;
          rcc_open_sections := open_sections_;
          rcc_pre_req_notes := pre_req_notes_;
          rcc_school := school_;
          rcc_sections := sections_;
          rcc_subject := subject_;
          rcc_subject_description := subject_description_;
          rcc_subject_group_notes := subject_group_notes_;
          rcc_subject_notes := subject_notes_;
          rcc_supplement_code := supplement_code_;
          rcc_synopsis_url := synopsis_url_;
          rcc_title := title_;
          rcc_unit_notes := unit_notes_;
          rcc_extra := unknown_members RawCatalogCourse_names m |}.

#[export] Instance RawCatalogCourse_wire : Wire RawCatalogCourse :=
  {| to_value := RawCatalogCourse_to_value; from_value := RawCatalogCourse_from_value |}.

(** ** Decoding a payload *)

(** [reject_reserved_malformed_envelopes]: whether the value is accepted. *)
Fixpoint reject_reserved_malformed_envelopes (v : Value) : bool :=
  match v with
  | Value_Array values => forallb reject_reserved_malformed_envelopes values
  | Value_Object m =>
      bool_decide (obj_get "$malformed" m = None)
      && forallb (λ kv, reject_reserved_malformed_envelopes kv.2) m
  | _ => true
  end.

End raw_catalog.

(** The events of a JSON text, as the parser of [serde_json] hands them to a
    visitor: the members of an object in the order of the text, duplicates
    included; numbers by the type they were read as. *)
Class JsonParser `{NumberApi} := {
  F64 : Type;
  number_from_f64 : F64 → option Number
}.

Section payload.
Context `{Sha256Api, JsonText, !JsonParser}.

Unset Elimination Schemes.

Inductive Parsed :=
| Parsed_Unit
| Parsed_Bool (b : bool)
| Parsed_I64 (n : Z)
| Parsed_U64 (n : Z)
| Parsed_F64 (f : F64)
| Parsed_Str (s : string)
| Parsed_Seq (elements : list Parsed)
| Parsed_Map (entries : list (string * Parsed)).

Set Elimination Schemes.

(** What [serde_json::from_slice] hands to the visitor. *)
Class JsonSlice := parse_slice : string → option Parsed.

(** [StrictJsonVisitor]: [None] is its error. *)
Fixpoint strict_json (p : Parsed) : option Value :=
  match p with
  | Parsed_Unit => Some Value_Null
  | Parsed_Bool b => Some (Value_Bool b)
  | Parsed_I64 n | Parsed_U64 n => Some (Value_Number (number_from n))
  | Parsed_F64 f => Value_Number <$> number_from_f64 f
  | Parsed_Str s => Some (Value_String s)
  | Parsed_Seq elements =>
      Value_Array <$> foldr (λ p values, v ← strict_json p; (v ::.) <$> values) (Some []) elements
  | Parsed_Map entries =>
      Value_Object <$>
        foldl (λ m entry,
          m ← m; v ← strict_json entry.2;
          if bool_decide (obj_get entry.1 m = None) then Some (obj_insert entry.1 v m) else None)
        (Some []) entries
  end.

(** [Value::deserialize]: the last of several members with one key counts. *)
Fixpoint collapse (p : Parsed) : Value :=
  match p with
  | Parsed_Unit => Value_Null
  | Parsed_Bool b => Value_Bool b
  | Parsed_I64 n | Parsed_U64 n => Value_Number (number_from n)
  | Parsed_F64 f => from_option Value_Number Value_Null (number_from_f64 f)
  | Parsed_Str s => Value_String s
  | Parsed_Seq elements => Value_Array (collapse <$> elements)
  | Parsed_Map entries => Value_Object (obj_of ((λ entry, (entry.1, collapse entry.2)) <$> entries))
  end.

(** The derived visitor of a course refuses a field that comes twice. *)
Definition course_from_parsed (p : Parsed) : option RawCatalogCourse :=
  match p with
  | Parsed_Map entries =>
      if bool_decide (NoDup (filter (.∈ RawCatalogCourse_names) entries.*1))
      then RawCatalogCourse_from_value (collapse p) else None
  | _ => None
  end.

Definition courses_from_parsed (p : Parsed) : option (list RawCatalogCourse) :=
  match p with Parsed_Seq elements => mapM course_from_parsed elements | _ => None end.

Definition decode_strict_json `{!JsonSlice} (body : string) : option Value :=
  parse_slice body ≫= strict_json.

(** [None] is [CatalogDecodeError::InvalidJson]. *)
Definition decode_catalog_payload `{!JsonSlice} (body : string) : option (list RawCatalogCourse) :=
  decoded ← parse_slice body ≫= courses_from_parsed;
  value ← decode_strict_json body;
  if reject_reserved_malformed_envelopes value then Some decoded else None.

Definition Parsed_ind (P : Parsed → Prop)
    (P_unit : P Parsed_Unit) (P_bool : ∀ b, P (Parsed_Bool b))
    (P_i64 : ∀ n, P (Parsed_I64 n)) (P_u64 : ∀ n, P (Parsed_U64 n)) (P_f64 : ∀ f, P (Parsed_F64 f))
    (P_str : ∀ s, P (Parsed_Str s))
    (P_seq : ∀ l, Forall P l → P (Parsed_Seq l))
    (P_map : ∀ m, Forall (λ entry, P entry.2) m → P (Parsed_Map m)) : ∀ p, P p :=
  fix go p :=
    match p with
    | Parsed_Unit => P_unit
    | Parsed_Bool b => P_bool b
    | Parsed_I64 n => P_i64 n
    | Parsed_U64 n => P_u64 n
    | Parsed_F64 f => P_f64 f
    | Parsed_Str s => P_str s
    | Parsed_Seq l =>
        P_seq l ((fix elems l : Forall P l :=
          match l with [] => Forall_nil_2 _ | p :: l => Forall_cons_2 _ _ _ (go p) (elems l) end) l)
    | Parsed_Map m =>
        P_map m ((fix elems m : Forall (λ entry, P entry.2) m :=
          match m with
          | [] => Forall_nil_2 _
          | entry :: m => Forall_cons_2 _ _ _ (go entry.2) (elems m)
          end) m)
    end.

End payload.
