(* ===== verification/CatalogModel.v ===== *)
(** * The normalized catalog model (crates/bcsp-catalog/src/model.rs, empty.rs)

    What the normalization of a raw catalog produces: occurrences with their
    delivery facts, sections, course variants and groups, the audit of
    duplicates and the metrics; the wire names of the delivery facts; and the
    decision on an empty candidate. *)

From S2P Require Import Prelude Identity Contracts CatalogData OpenClient Ordering Json RawCatalog.

(** ** Digests *)

Record Sha256Hex := mkSha256Hex { sha_str : string }.

#[export] Instance Sha256Hex_eq_dec : EqDecision Sha256Hex.
Proof. solve_decision. Defined.
#[export] Instance Sha256Hex_countable : Countable Sha256Hex.
Proof. by apply (inj_countable' sha_str mkSha256Hex); intros []. Defined.
#[export] Instance Sha256Hex_rord : ROrd Sha256Hex := rord_via sha_str.
#[export] Instance sha_str_inj : Inj (=) (=) sha_str.
Proof. by intros [] [] [= ->]. Qed.
#[export] Instance Sha256Hex_rord_laws : ROrdLaws Sha256Hex.
Proof. apply (rord_via_laws sha_str). Qed.

Definition Sha256Hex_try_new (value : string) : option Sha256Hex :=
  if is_sha256_hex value then Some (mkSha256Hex value) else None.

Definition from_digest_bytes `{Sha256Api} (b : string) : Sha256Hex := mkSha256Hex (sha256_hex b).

(** ** Enumerations *)

Inductive CollectionPresence :=
| CollectionPresence_Missing
| CollectionPresence_Null
| CollectionPresence_Malformed
| CollectionPresence_PresentEmpty
| CollectionPresence_PresentNonEmpty.

Definition CollectionPresence_from {T} (value : Presence (list T)) : CollectionPresence :=
  match value with
  | Presence_Missing => CollectionPresence_Missing
  | Presence_Null => CollectionPresence_Null
  | Presence_Malformed _ => CollectionPresence_Malformed
  | Presence_Value [] => CollectionPresence_PresentEmpty
  | Presence_Value _ => CollectionPresence_PresentNonEmpty
  end.

Inductive Weekday :=
| Weekday_Monday
| Weekday_Tuesday
| Weekday_Wednesday
| Weekday_Thursday
| Weekday_Friday
| Weekday_Saturday
| Weekday_Sunday.

#[export] Instance Weekday_eq_dec : EqDecision Weekday.
Proof. solve_decision. Defined.

(** The derived order: that of the declaration. *)
Definition Weekday_index (d : Weekday) : nat :=
  match d with
  | Weekday_Monday => 0 | Weekday_Tuesday => 1 | Weekday_Wednesday => 2 | Weekday_Thursday => 3
  | Weekday_Friday => 4 | Weekday_Saturday => 5 | Weekday_Sunday => 6
  end.
#[export] Instance Weekday_rord : ROrd Weekday := rord_via Weekday_index.
#[export] Instance Weekday_index_inj : Inj (=) (=) Weekday_index.
Proof. by intros [] []. Qed.
#[export] Instance Weekday_rord_laws : ROrdLaws Weekday.
Proof. apply (rord_via_laws Weekday_index). Qed.

Record WeekdaySet := mkWeekdaySet { weekdays : list Weekday }.

Definition WeekdaySet_new (days : list Weekday) : WeekdaySet :=
  mkWeekdaySet (dedup_by (λ l r, bool_decide (l = r)) (sort_by rcmp days)).

Inductive DayKnowledge :=
| DayKnowledge_Missing
| DayKnowledge_Null
| DayKnowledge_Empty
| DayKnowledge_Known (days : WeekdaySet)
| DayKnowledge_Invalid.

Inductive TimeKnowledge :=
| TimeKnowledge_Missing
| TimeKnowledge_Null
| TimeKnowledge_Empty
| TimeKnowledge_Partial
| TimeKnowledge_Invalid
| TimeKnowledge_Known (start_minute end_minute : Z).

Inductive Requiredness :=
| Requiredness_UnknownRequiredness.

Inductive OccurrenceKind :=
| OccurrenceKind_Scheduled
| OccurrenceKind_ByArrangement
| OccurrenceKind_Unspecified.

Inductive OccurrenceEvidence :=
| OccurrenceEvidence_None
| OccurrenceEvidence_Physical
| OccurrenceEvidence_Remote.

Inductive OccurrenceModality :=
| OccurrenceModality_OnCampusOrInPerson
| OccurrenceModality_Hybrid
| OccurrenceModality_Online
| OccurrenceModality_Unknown
| OccurrenceModality_UnknownConflict.

Inductive DeliveryModality :=
| DeliveryModality_OnCampusOrInPerson
| DeliveryModality_Hybrid
| DeliveryModality_Online
| DeliveryModality_Other
| DeliveryModality_Unknown
| DeliveryModality_UnknownConflict.

Inductive Synchronicity :=
| Synchronicity_Synchronous
| Synchronicity_Asynchronous
| Synchronicity_Mixed
| Synchronicity_ByArrangement
| Synchronicity_Unspecified
| Synchronicity_Unknown.

Inductive InstructorReliability :=
| InstructorReliability_NameOnly.

Inductive DuplicateDisposition :=
| DuplicateDisposition_AuditedEquivalentCollapse.

#[export] Instance TimeKnowledge_eq_dec : EqDecision TimeKnowledge.
Proof. solve_decision. Defined.
#[export] Instance OccurrenceEvidence_eq_dec : EqDecision OccurrenceEvidence.
Proof. solve_decision. Defined.
#[export] Instance OccurrenceModality_eq_dec : EqDecision OccurrenceModality.
Proof. solve_decision. Defined.
#[export] Instance DeliveryModality_eq_dec : EqDecision DeliveryModality.
Proof. solve_decision. Defined.
#[export] Instance Synchronicity_eq_dec : EqDecision Synchronicity.
Proof. solve_decision. Defined.

(** ** Records *)

Section model.
Context `{NumberApi}.

Record NormalizedInstructor := {
  nin_name : Presence string;
  nin_reliability : InstructorReliability;
  nin_canonical_facts : Value
}.

Record NormalizedOccurrence := {
  noe_source_ordinal : Z;
  noe_raw_hash : Sha256Hex;
  noe_raw_day : Presence string;
  noe_days : DayKnowledge;
  noe_raw_start_time_military : Presence string;
  noe_raw_end_time_military : Presence string;
  noe_time : TimeKnowledge;
  noe_requiredness : Requiredness;
  noe_kind : OccurrenceKind;
  noe_raw_mode_code : Presence string;
  noe_raw_mode_description : Presence string;
  noe_modality : OccurrenceModality;
  noe_synchronicity : Synchronicity;
  noe_evidence : OccurrenceEvidence;
  noe_raw_campus_location : Presence string;
  noe_raw_building_code : Presence string;
  noe_raw_room_number : Presence string;
  noe_normalization_reason : string;
  noe_canonical_facts : Value
}.

Record CourseVariantFields := {
  cvf_supplement_code : Presence string;
  cvf_credits : Presence Number;
  cvf_credits_object : Presence Object;
  cvf_title : Presence string;
  cvf_expanded_title : Presence string;
  cvf_level : Presence string;
  cvf_offering_unit_code : Presence string;
  cvf_subject : Presence string;
  cvf_subject_description : Presence string;
  cvf_course_number : Presence string;
  cvf_course_description : Presence string;
  cvf_course_notes : Presence string;
  cvf_prerequisite_notes : Presence string;
  cvf_core_codes : Presence (list Value);
  cvf_campus_locations : Presence (list Value)
}.

Record CatalogOpenSectionsSnapshot := {
  cos_source_ordinal : Z;
  cos_value : Presence Z;
  cos_raw_course_hash : Sha256Hex
}.

Record NormalizedSection := {
  nsc_key : SectionKey;
  nsc_section_number : Presence string;
  nsc_catalog_open_status : Presence bool;
  nsc_raw_section_course_type : Presence string;
  nsc_delivery_modality : DeliveryModality;
  nsc_synchronicity : Synchronicity;
  nsc_occurrence_source : CollectionPresence;
  nsc_occurrences : list NormalizedOccurrence;
  nsc_instructor_source : CollectionPresence;
  nsc_instructors : list NormalizedInstructor;
  nsc_semantic_hash : Sha256Hex;
  nsc_first_record_hash : Sha256Hex;
  nsc_canonical_facts : Value
}.

Record NormalizedCourseVariant := {
  ncr_key : CourseVariantKey;
  ncr_fields : CourseVariantFields;
  ncr_raw_course_count : Z;
  ncr_record_hashes : list Sha256Hex;
  ncr_canonical_hash : Sha256Hex;
  ncr_canonical_course_facts : Value;
  ncr_catalog_open_sections_snapshots : list CatalogOpenSectionsSnapshot;
  ncr_sections : list NormalizedSection
}.

Record NormalizedCourseGroup := {
  ngr_key : CourseGroupKey;
  ngr_raw_course_count : Z;
  ngr_variants : list NormalizedCourseVariant
}.

Record DuplicateAudit := {
  dau_section_key : SectionKey;
  dau_raw_record_count : Z;
  dau_raw_record_hashes : list Sha256Hex;
  dau_semantic_hash : Sha256Hex;
  dau_disposition : DuplicateDisposition;
  dau_reason : string
}.

Record CatalogMetrics := {
  cme_raw_courses : Z;
  cme_raw_sections : Z;
  cme_normalized_sections : Z;
  cme_raw_meetings : Z;
  cme_raw_instructor_assignments : Z;
  cme_equivalent_duplicate_keys : Z;
  cme_delivery_conflict_raw_sections : Z
}.

(** [raw_catalog.rs]: where a payload came from. *)
Record SourceProvenance := {
  spr_request_id : string;
  spr_observed_at_utc : string;
  spr_body_sha256 : string;
  spr_decoded_bytes : Z
}.

Definition SourceProvenance_from_body `{Sha256Api} (request_id observed_at_utc body : string)
    : SourceProvenance :=
  {| spr_request_id := request_id; spr_observed_at_utc := observed_at_utc;
     spr_body_sha256 := sha256_hex body; spr_decoded_bytes := Z.of_nat (String.length body) |}.

Record NormalizedCatalogTarget := {
  nct_target : TermCampusKey;
  nct_groups : list NormalizedCourseGroup;
  nct_duplicate_audits : list DuplicateAudit;
  nct_content_hash : Sha256Hex;
  nct_provenance : SourceProvenance;
  nct_metrics : CatalogMetrics
}.

Definition NormalizedCatalogTarget_is_empty (n : NormalizedCatalogTarget) : bool :=
  bool_decide (cme_raw_courses (nct_metrics n) = 0).

Definition NormalizedCatalogTarget_sections (n : NormalizedCatalogTarget) : list NormalizedSection :=
  (nct_groups n ≫= ngr_variants) ≫= ncr_sections.

End model.

(** ** The enumerations of the contract *)

Definition DeliveryModality_contract (m : DeliveryModality) : CatalogModality :=
  match m with
  | DeliveryModality_OnCampusOrInPerson => CatalogModality_OnCampusOrInPerson
  | DeliveryModality_Hybrid => CatalogModality_Hybrid
  | DeliveryModality_Online => CatalogModality_Online
  | DeliveryModality_Other => CatalogModality_Other
  | DeliveryModality_Unknown => CatalogModality_Unknown
  | DeliveryModality_UnknownConflict => CatalogModality_UnknownConflict
  end.

Definition OccurrenceModality_contract (m : OccurrenceModality) : CatalogModality :=
  match m with
  | OccurrenceModality_OnCampusOrInPerson => CatalogModality_OnCampusOrInPerson
  | OccurrenceModality_Hybrid => CatalogModality_Hybrid
  | OccurrenceModality_Online => CatalogModality_Online
  | OccurrenceModality_Unknown => CatalogModality_Unknown
  | OccurrenceModality_UnknownConflict => CatalogModality_UnknownConflict
  end.

Definition Synchronicity_contract (s : Synchronicity) : CatalogSynchronicity :=
  match s with
  | Synchronicity_Synchronous => CatalogSynchronicity_Sync
  | Synchronicity_Asynchronous => CatalogSynchronicity_Async
  | Synchronicity_Mixed => CatalogSynchronicity_Mixed
  | Synchronicity_ByArrangement => CatalogSynchronicity_ByArrangement
  | Synchronicity_Unspecified => CatalogSynchronicity_Unspecified
  | Synchronicity_Unknown => CatalogSynchronicity_Unknown
  end.

Definition OccurrenceKind_contract (k : OccurrenceKind) : CatalogOccurrenceKind :=
  match k with
  | OccurrenceKind_Scheduled => CatalogOccurrenceKind_Scheduled
  | OccurrenceKind_ByArrangement => CatalogOccurrenceKind_ByArrangement
  | OccurrenceKind_Unspecified => CatalogOccurrenceKind_Unspecified
  end.

Definition OccurrenceEvidence_contract (e : OccurrenceEvidence) : CatalogOccurrenceEvidence :=
  match e with
  | OccurrenceEvidence_None => CatalogOccurrenceEvidence_None
  | OccurrenceEvidence_Physical => CatalogOccurrenceEvidence_Physical
  | OccurrenceEvidence_Remote => CatalogOccurrenceEvidence_Remote
  end.

Definition Requiredness_contract (r : Requiredness) : CatalogRequiredness :=
  match r with Requiredness_UnknownRequiredness => CatalogRequiredness_UnknownRequiredness end.

Definition TimeKnowledge_contract (t : TimeKnowledge) : CatalogTimeKnowledgeV1 :=
  match t with
  | TimeKnowledge_Missing => CatalogTimeKnowledgeV1_Missing
  | TimeKnowledge_Null => CatalogTimeKnowledgeV1_ExplicitNull
  | TimeKnowledge_Empty => CatalogTimeKnowledgeV1_Empty
  | TimeKnowledge_Partial => CatalogTimeKnowledgeV1_Partial
  | TimeKnowledge_Invalid => CatalogTimeKnowledgeV1_Invalid
  | TimeKnowledge_Known start_minute end_minute => CatalogTimeKnowledgeV1_Known start_minute end_minute
  end.

(** ** Wire names (crates/bcsp-contracts/src/catalog.rs) *)

Definition CatalogModality_wire_name (m : CatalogModality) : string :=
  match m with
  | CatalogModality_OnCampusOrInPerson => "ON_CAMPUS_OR_IN_PERSON"
  | CatalogModality_Hybrid => "HYBRID"
  | CatalogModality_Online => "ONLINE"
  | CatalogModality_Other => "OTHER"
  | CatalogModality_Unknown => "UNKNOWN"
  | CatalogModality_UnknownConflict => "UNKNOWN_CONFLICT"
  end.

Definition CatalogSynchronicity_wire_name (s : CatalogSynchronicity) : string :=
  match s with
  | CatalogSynchronicity_Sync => "SYNC"
  | CatalogSynchronicity_Async => "ASYNC"
  | CatalogSynchronicity_Mixed => "MIXED"
  | CatalogSynchronicity_ByArrangement => "BY_ARRANGEMENT"
  | CatalogSynchronicity_Unspecified => "UNSPECIFIED"
  | CatalogSynchronicity_Unknown => "UNKNOWN"
  end.

Definition CatalogOccurrenceKind_wire_name (k : CatalogOccurrenceKind) : string :=
  match k with
  | CatalogOccurrenceKind_Scheduled => "SCHEDULED"
  | CatalogOccurrenceKind_ByArrangement => "BY_ARRANGEMENT"
  | CatalogOccurrenceKind_Unspecified => "UNSPECIFIED"
  end.

Definition CatalogOccurrenceEvidence_wire_name (e : CatalogOccurrenceEvidence) : string :=
  match e with
  | CatalogOccurrenceEvidence_None => "NONE"
  | CatalogOccurrenceEvidence_Physical => "PHYSICAL"
  | CatalogOccurrenceEvidence_Remote => "REMOTE"
  end.

Definition CatalogRequiredness_wire_name (r : CatalogRequiredness) : string :=
  match r with
  | CatalogRequiredness_Required => "REQUIRED"
  | CatalogRequiredness_Optional => "OPTIONAL"
  | CatalogRequiredness_UnknownRequiredness => "UNKNOWN_REQUIREDNESS"
  end.

(** ** Empty candidates (crates/bcsp-catalog/src/empty.rs) *)

Inductive CatalogBaseline :=
| CatalogBaseline_Uninitialized
| CatalogBaseline_Empty (content_hash : Sha256Hex)
| CatalogBaseline_NonEmpty (content_hash : Sha256Hex) (section_count : Z).

Inductive CatalogCandidateDecision :=
| CatalogCandidateDecision_PublishNonEmpty
| CatalogCandidateDecision_PublishInitialEmptyValid
| CatalogCandidateDecision_PublishExistingEmpty
| CatalogCandidateDecision_RetainLastKnownEmptySuspect.

Inductive CatalogEmptyPolicyError :=
| CatalogEmptyPolicyError_InitialEmptyNotSelectorConfirmed.

Definition decide_catalog_candidate (baseline : CatalogBaseline)
    (candidate_is_empty selector_confirms_target : bool)
    : result CatalogEmptyPolicyError CatalogCandidateDecision :=
  if negb candidate_is_empty then Ok CatalogCandidateDecision_PublishNonEmpty
  else match baseline with
  | CatalogBaseline_Uninitialized =>
      if selector_confirms_target then Ok CatalogCandidateDecision_PublishInitialEmptyValid
      else Err CatalogEmptyPolicyError_InitialEmptyNotSelectorConfirmed
  | CatalogBaseline_Empty _ => Ok CatalogCandidateDecision_PublishExistingEmpty
  | CatalogBaseline_NonEmpty _ _ => Ok CatalogCandidateDecision_RetainLastKnownEmptySuspect
  end.
