(* ===== verification/CatalogExample.v ===== *)
(** * A small catalog

    A payload of two courses of one variant, with a section that comes twice,
    on which the theorems about the catalog pipeline are instantiated. *)

From S2P Require Import Prelude Identity Contracts OpenClient Ordering Json RawCatalog CatalogModel.

#[local] Existing Instance concrete_sha256_api.
#[local] Existing Instance concrete_number_api.
#[local] Existing Instance concrete_json_text.

(** No number of the payload is a float. *)
Definition ce_parser : @JsonParser concrete_number_api := {| F64 := (); number_from_f64 _ := None |}.
#[local] Existing Instance ce_parser.

Definition ce_meeting : Parsed :=
  Parsed_Map
    [("meetingDay", Parsed_Str "M"); ("startTimeMilitary", Parsed_Str "0830"); ("endTimeMilitary", Parsed_Str "0950");
     ("meetingModeCode", Parsed_Str "02"); ("campusLocation", Parsed_Str "2")].

Definition ce_section (index : string) : Parsed :=
  Parsed_Map
    [("index", Parsed_Str index); ("number", Parsed_Str " 01 "); ("openStatus", Parsed_Bool true);
     ("sectionCourseType", Parsed_Str "T"); ("meetingTimes", Parsed_Seq [ce_meeting])].

Definition ce_course (indexes : list string) : Parsed :=
  Parsed_Map
    [("courseString", Parsed_Str "01:198:111"); ("title", Parsed_Str "INTRO"); ("subject", Parsed_Str "198");
     ("openSections", Parsed_I64 2); ("sections", Parsed_Seq (ce_section <$> indexes))].

(** A parser that reads every text as the payload. *)
Definition ce_slice : JsonSlice :=
  λ _, Some (Parsed_Seq [ce_course ["00001"; "00002"; "00001"]; ce_course ["00003"]]).

Definition ce_target : TermCampusKey := TermCampusKey_new (mkTermId "92026") (mkCampusCode "NB").
Definition ce_provenance : SourceProvenance := SourceProvenance_from_body "request" "2026-01-01T00:00:00Z" "payload".
Definition ce_courses : list RawCatalogCourse := default [] (@decode_catalog_payload _ _ _ _ ce_slice "payload").

(** A test of a result, and what it says. *)
Definition ok_and {E A} (test : A → bool) (r : result E A) : bool :=
  match r with Ok a => test a | Err _ => false end.

Lemma ok_and_true {E A} (test : A → bool) (r : result E A) : ok_and test r = true → ∃ a, r = Ok a ∧ test a = true.
Proof. destruct r as [a|e]; cbn; [by exists a|done]. Qed.
