(* ===== verification/RawCatalogFacts.v ===== *)
(** * Facts about the raw catalog

    A record that was decoded survives encoding and decoding again, and what
    can make a decoding fail does not depend on the types of the fields. *)

From S2P Require Import Prelude Identity Contracts OpenClient Ordering Json RawCatalog CatalogModel CatalogExample.

(** [number_from] represents every number [number_as_i64] returns. *)
Class NumberApiLaws `{NumberApi} : Prop :=
  number_as_i64_from n z : number_as_i64 n = Some z → number_as_i64 (number_from z) = Some z.

Create HintDb wire discriminated.

Section record_facts.
Context `{Sha256Api, JsonText}.
Implicit Types (k name : string) (v : Value) (m extra : Object) (fields : list (string * option Value)).

Lemma present_keys fields k : k ∈ (present fields).*1 → k ∈ fields.*1.
Proof.
  unfold present. intros ([k' v] & -> & ([name ov] & Hin & Ho)%list_elem_of_omap)%list_elem_of_fmap.
  destruct ov as [w|]; [|done]. injection Ho as -> ->. by apply (list_elem_of_fmap_2 fst) in Hin.
Qed.

Lemma present_NoDup fields : NoDup fields.*1 → NoDup (present fields).*1.
Proof.
  induction fields as [|[name ov] fields IH]; csimpl; [constructor|]. intros [Hn Hnd]%NoDup_cons.
  destruct ov as [v|]; csimpl; [|by apply IH]. constructor; [|by apply IH]. by intros ?%present_keys.
Qed.

Lemma elem_of_present fields name v : (name, Some v) ∈ fields → (name, v) ∈ present fields.
Proof. intros Hin. apply list_elem_of_omap. exists (name, Some v). done. Qed.

Lemma present_unique fields name v : NoDup fields.*1 → (name, None) ∈ fields → (name, v) ∉ present fields.
Proof.
  intros Hnd Hin ([name' ov] & Hin' & Ho)%list_elem_of_omap.
  destruct ov as [w|]; [|done]. injection Ho as -> ->.
  apply list_elem_of_lookup in Hin as [i Hi]. apply list_elem_of_lookup in Hin' as [j Hj].
  assert (i = j) as <-; [|congruence].
  apply (NoDup_lookup _ i j name Hnd); by rewrite list_lookup_fmap, ?Hi, ?Hj.
Qed.

Context (fields : list (string * option Value)) (extra : Object).
Context (Hfields : NoDup fields.*1) (Hextra : ∀ k, k ∈ extra.*1 → k ∉ fields.*1) (Hsorted : keys_sorted extra).

Lemma record_keys_NoDup : NoDup (present fields ++ extra).*1.
Proof using Hfields Hextra Hsorted.
  rewrite fmap_app. apply NoDup_app. split_and!; [by apply present_NoDup| |by apply keys_sorted_NoDup].
  intros k Hk%present_keys Hk'. by apply (Hextra k).
Qed.

Lemma record_get name ov :
  (name, ov) ∈ fields → obj_get name (obj_of (present fields ++ extra)) = ov.
Proof using Hfields Hextra Hsorted.
  intros Hin. destruct ov as [v|].
  - apply obj_get_of; [apply record_keys_NoDup|]. apply elem_of_app. left. by apply elem_of_present.
  - apply obj_get_of_None. rewrite fmap_app, elem_of_app. intros [Hk|Hk].
    + apply list_elem_of_fmap in Hk as ([k v] & -> & Hk). by eapply present_unique in Hk.
    + apply Hextra in Hk. apply Hk. by apply (list_elem_of_fmap_2 fst) in Hin.
Qed.

Lemma record_get_extra k : k ∉ fields.*1 → obj_get k (obj_of (present fields ++ extra)) = obj_get k extra.
Proof using Hfields Hextra Hsorted.
  intros Hk. destruct (obj_get k extra) as [v|] eqn:E.
  - apply obj_get_of; [apply record_keys_NoDup|]. apply elem_of_app. right. by apply obj_get_elem.
  - apply obj_get_of_None. rewrite fmap_app, elem_of_app. apply obj_get_None in E.
    by intros [?%present_keys|?].
Qed.

Lemma record_unknown names :
  fields.*1 = names → unknown_members names (obj_of (present fields ++ extra)) = extra.
Proof using Hfields Hextra Hsorted.
  intros <-. apply obj_ext; [exact (filter_keys_sorted (.∉ fields.*1) _ (obj_of_sorted _))|done|].
  intros k. etrans; [exact (obj_get_filter (.∉ fields.*1) k _)|]. case_decide as Hk.
  - by apply record_get_extra.
  - symmetry. apply obj_get_None. intros Hin. exact (Hextra k Hin Hk).
Qed.

End record_facts.

Section presence_facts.
Context `{Sha256Api, JsonText}.
Implicit Types (k name : string) (v : Value) (m : Object).

(** The envelope a value holds: its object and the reserved member. *)
Definition envelope_of (v : Value) : option (Object * Value) :=
  m ← value_as_object v; envelope ← obj_get "$malformed" m; Some (m, envelope).

Class WireLaws (T : Type) `{!Wire T} : Prop := {
  wire_round_trip v (x : T) : value_wf v → from_value v = Some x → from_value (to_value x) = Some x;
  wire_wf v (x : T) : value_wf v → from_value v = Some x → value_wf (to_value x)
}.

(** A value that is neither null nor an envelope is not turned into one. *)
Class WireShape (T : Type) `{!Wire T} : Prop :=
  wire_shape v (x : T) : from_value v = Some x → v ≠ Value_Null → envelope_of v = None →
    to_value x ≠ Value_Null ∧ envelope_of (to_value x) = None.

#[export] Instance string_wire_laws : WireLaws string.
Proof. split; intros v x _ E; destruct v; simplify_eq/=; [done|constructor]. Qed.
#[export] Instance bool_wire_laws : WireLaws bool.
Proof. split; intros v x _ E; destruct v; simplify_eq/=; [done|constructor]. Qed.
#[export] Instance number_wire_laws : WireLaws Number.
Proof. split; intros v x _ E; destruct v; simplify_eq/=; [done|constructor]. Qed.
#[export] Instance i64_wire_laws `{!NumberApiLaws} : WireLaws Z.
Proof. split; intros v x _ E; destruct v; simplify_eq/=; [by eapply number_as_i64_from|constructor]. Qed.
#[export] Instance value_wire_laws : WireLaws Value.
Proof. by split; intros v x Hv [= ->]. Qed.
#[export] Instance object_wire_laws : WireLaws Object.
Proof. split; intros v x Hv E; destruct v; simplify_eq/=; done. Qed.
#[export] Instance list_wire_laws {T} `{!Wire T, !WireLaws T} : WireLaws (list T).
Proof.
  split; intros v l Hv E; destruct v as [| | | |k|]; try discriminate E; apply value_wf_array_inv in Hv; cbn in *.
  - apply mapM_Some_2. apply mapM_Some_1 in E.
    induction E as [|v x k l E _ IH]; [constructor|]. apply Forall_cons in Hv as [Hv Hk].
    constructor; [by eapply wire_round_trip|by apply IH].
  - constructor. apply mapM_Some_1 in E.
    induction E as [|v x k l E _ IH]; [constructor|]. apply Forall_cons in Hv as [Hv Hk].
    constructor; [by eapply wire_wf|by apply IH].
Qed.

#[export] Instance string_wire_shape : WireShape string.
Proof. intros v x E _ _. destruct v; simplify_eq/=; done. Qed.
#[export] Instance bool_wire_shape : WireShape bool.
Proof. intros v x E _ _. destruct v; simplify_eq/=; done. Qed.
#[export] Instance number_wire_shape : WireShape Number.
Proof. intros v x E _ _. destruct v; simplify_eq/=; done. Qed.
#[export] Instance i64_wire_shape : WireShape Z.
Proof. intros v x E _ _. destruct v; simplify_eq/=; done. Qed.
#[export] Instance value_wire_shape : WireShape Value.
Proof. by intros v x [= ->]. Qed.
#[export] Instance object_wire_shape : WireShape Object.
Proof. intros v x E Hn He. destruct v; simplify_eq/=; done. Qed.
#[export] Instance list_wire_shape {T} `{!Wire T} : WireShape (list T).
Proof. intros v x E _ _. done. Qed.

Lemma JsonType_round_trip t : JsonType_of_name (JsonType_name t) = Some t.
Proof. by destruct t. Qed.

Lemma MalformedField_round_trip f : MalformedField_from_value (MalformedField_to_value f) = Some f.
Proof. by destruct f as [[] d]. Qed.

Lemma malformed_of_value_Some v : v ≠ Value_Null → is_Some (malformed_of_value v).
Proof. destruct v; cbn; [done|intros _; eexists; done..]. Qed.

Lemma sha256_hex_digest `{!Sha256ApiLaws} s : is_sha256_hex (sha256_hex s) = true.
Proof.
  unfold is_sha256_hex. apply andb_true_iff. split; [|apply sha256_hex_lower].
  apply bool_decide_eq_true, sha256_hex_length.
Qed.

Lemma presence_from_envelope {T} `{!Wire T} f :
  has_canonical_digest f = true →
  presence_from_value (T:=T) (presence_to_value (T:=T) (Presence_Malformed f)) = Some (Presence_Malformed f).
Proof.
  intros Hf. unfold presence_from_value. change (m ← value_as_object _; _) with
    (Some ([("$malformed", MalformedField_to_value f)], MalformedField_to_value f)).
  cbv iota beta. rewrite MalformedField_round_trip. cbn [value_is_null presence_to_value].
  rewrite bool_decide_eq_false_2 by auto. cbn [mbind option_bind]. by rewrite Hf.
Qed.

(** ** Presence *)

(** What a decoding depends on: the value is no broken envelope. *)
Definition presence_ok (v : Value) : bool :=
  match envelope_of v with
  | None => true
  | Some (m, envelope) =>
      bool_decide (length m = 1%nat)
      && match MalformedField_from_value envelope with
         | Some f => has_canonical_digest f
         | None => false
         end
  end.

Lemma presence_from_value_ok {T} `{!Wire T} v :
  is_Some (presence_from_value (T:=T) v) ↔ presence_ok v = true.
Proof.
  unfold presence_from_value, presence_ok. change (m ← value_as_object v; _) with (envelope_of v).
  destruct (value_is_null v) eqn:Hn; [destruct v; try done; by split|].
  destruct (envelope_of v) as [[m e]|].
  - destruct (decide (length m = 1%nat)) as [Hl|Hl].
    + rewrite bool_decide_eq_false_2, bool_decide_eq_true_2 by auto. cbn [andb].
      destruct (MalformedField_from_value e) as [f|]; cbn; [|by split; [intros [? ?]|]].
      destruct (has_canonical_digest f); split; [done|by eauto|by intros [? ?]|done].
    + rewrite bool_decide_eq_true_2, bool_decide_eq_false_2 by done. by split; [intros [? ?]|].
  - split; [done|]. intros _. destruct (from_value v); [by eauto|].
    apply fmap_is_Some, malformed_of_value_Some. by destruct v.
Qed.

Lemma presence_from_value_inv {T} `{!Wire T, !Sha256ApiLaws} v p :
  presence_from_value (T:=T) v = Some p →
  (v = Value_Null ∧ p = Presence_Null)
  ∨ (∃ f, p = Presence_Malformed f ∧ has_canonical_digest f = true)
  ∨ (∃ x, p = Presence_Value x ∧ from_value v = Some x ∧ v ≠ Value_Null ∧ envelope_of v = None).
Proof.
  unfold presence_from_value. change (m ← value_as_object v; _) with (envelope_of v).
  destruct (value_is_null v) eqn:Hn; [destruct v; try done; intros [= <-]; by left|].
  destruct (envelope_of v) as [[m e]|] eqn:He; intros Hp; right.
  - case_bool_decide; [done|]. destruct (MalformedField_from_value e) as [f|]; [|done]. cbn in Hp.
    destruct (has_canonical_digest f) eqn:Hf; [|done]. injection Hp as <-. left. eauto.
  - destruct (from_value v) as [x|] eqn:Ex.
    + injection Hp as <-. right. exists x. split_and!; [done..| |done]. by destruct v.
    + apply fmap_Some in Hp as (f & Hf & ->). left. exists f. split; [done|].
      unfold malformed_of_value in Hf. apply bind_Some in Hf as (t & _ & [= <-]).
      apply sha256_hex_digest.
Qed.

Context `{!Sha256ApiLaws}.

Lemma envelope_value_wf f : value_wf (Value_Object (obj_of [("$malformed", MalformedField_to_value f)])).
Proof.
  apply value_wf_obj_of. constructor; [|constructor]. apply value_wf_obj_of. by repeat constructor.
Qed.

Section presence_of.
Context {T : Type} `{!Wire T, !WireLaws T, !WireShape T}.

Lemma presence_round_trip v (p : Presence T) :
  value_wf v → presence_from_value v = Some p →
  is_missing p = false ∧ presence_from_value (presence_to_value p) = Some p ∧ value_wf (presence_to_value p).
Proof.
  intros Hv Hp. apply presence_from_value_inv in Hp as [[-> ->]|[(f & -> & Hf)|(x & -> & Hx & Hn & He)]].
  - split_and!; [done..|constructor].
  - split_and!; [done|by apply presence_from_envelope|apply envelope_value_wf].
  - destruct (wire_shape v x Hx Hn He) as [Hn' He'].
    split_and!; [done| |by eapply wire_wf]. cbn [presence_to_value]. unfold presence_from_value.
    change (m ← value_as_object _; _) with (envelope_of (to_value x)). rewrite He'.
    assert (value_is_null (to_value x) = false) as -> by by destruct (to_value x).
    by rewrite (wire_round_trip v x).
Qed.

Lemma take_wf name m (p : Presence T) v :
  value_wf (Value_Object m) → take name m = Some p → member p = Some v → value_wf v.
Proof.
  unfold take, member. intros Hm Ht Hp. destruct (is_missing p) eqn:Hmiss; [done|]. injection Hp as <-.
  destruct (obj_get name m) as [w|] eqn:Hw; [|by injection Ht as <-].
  apply presence_round_trip in Ht as (_&_&?); [done|]. by eapply value_wf_get.
Qed.

(** Taking a field back from the encoded record. *)
Lemma take_back name m (p : Presence T) fields extra :
  value_wf (Value_Object m) → take name m = Some p →
  NoDup fields.*1 → (∀ k, k ∈ extra.*1 → k ∉ fields.*1) → keys_sorted extra →
  (name, member p) ∈ fields →
  take name (obj_of (present fields ++ extra)) = Some p.
Proof.
  intros Hm Ht Hnd Hex Hs Hin. unfold take. rewrite (record_get fields extra) with (ov := member p) by done.
  unfold take in Ht. destruct (obj_get name m) as [v|] eqn:Hv; [|by injection Ht as <-].
  apply presence_round_trip in Ht as (Hmiss&Hback&_); [|by eapply value_wf_get].
  unfold member. by rewrite Hmiss.
Qed.

End presence_of.

(** ** Records *)

Lemma unknown_members_keys names m k : k ∈ (unknown_members names m).*1 → k ∉ names.
Proof. by intros (kv & -> & [? _]%list_elem_of_filter)%list_elem_of_fmap. Qed.

Lemma unknown_members_sorted names m : keys_sorted m → keys_sorted (unknown_members names m).
Proof. intros Hs. exact (filter_keys_sorted (.∉ names) m Hs). Qed.

Lemma record_wf fields names m :
  value_wf (Value_Object m) → Forall (λ field, ∀ v, field.2 = Some v → value_wf v) fields →
  value_wf (record_to_value fields (unknown_members names m)).
Proof.
  intros [_ Hm]%value_wf_object_inv Hf. apply value_wf_obj_of, Forall_app. split.
  - apply Forall_forall. intros [k v] ([name ov] & Hin & Ho)%list_elem_of_omap.
    apply (Forall_forall _ _) with (name, ov) in Hf; [|done]. destruct ov; simplify_eq/=. by apply Hf.
  - apply Forall_forall. intros kv [_ Hin]%list_elem_of_filter. by apply (Forall_forall _ _) with kv in Hm.
Qed.

Lemma wf_field {T} `{!Wire T, !WireLaws T, !WireShape T} name m (p : Presence T) fields :
  value_wf (Value_Object m) → take name m = Some p →
  Forall (λ field, ∀ v, field.2 = Some v → value_wf v) fields →
  Forall (λ field, ∀ v, field.2 = Some v → value_wf v) ((name, member p) :: fields).
Proof. intros Hm Hp Hf. constructor; [|done]. intros v. by eapply take_wf. Qed.

(** An encoded record gives its fields back, and its other members: [kept] are
    the fields of its table. *)
Lemma record_back m fields names :
  value_wf (Value_Object m) → NoDup names → fields.*1 = names →
  ∃ o (kept : string * option Value → Prop),
    record_to_value fields (unknown_members names m) = Value_Object o ∧ Forall kept fields ∧
    (∀ T `(!Wire T, !WireLaws T, !WireShape T) name (p : Presence T),
       take name m = Some p → kept (name, member p) → take name o = Some p)
    ∧ unknown_members names o = unknown_members names m.
Proof.
  intros Hm Hnd <-. pose proof (λ k, unknown_members_keys fields.*1 m k) as Hdis.
  pose proof (unknown_members_sorted fields.*1 m (proj1 (value_wf_object_inv _ Hm))) as Hs.
  exists (obj_of (present fields ++ unknown_members fields.*1 m)), (.∈ fields).
  split_and!; [done|by apply Forall_forall| |by apply record_unknown].
  intros T ??? name p Hp Hin. by eapply take_back.
Qed.

End presence_facts.

(** Decoding and encoding record [r] with the fields [fields]: the hypotheses
    say which values were taken from the object. *)
Ltac open_record v Hv Hx m :=
  destruct v as [| | | | |m]; try discriminate Hx; cbn [value_as_object mbind option_bind] in Hx;
  repeat match type of Hx with
  | _ ≫= _ = Some _ =>
      let p := fresh "p" in let Hp := fresh "Hp" in apply bind_Some in Hx as (p & Hp & Hx)
  end; injection Hx as <-.

(** Taking the fields of an encoded record one after the other. *)
Lemma bind_take `{NumberApi, Sha256Api, !JsonText} {T B} `{!Wire T, !WireLaws T, !WireShape T}
    (kept : string * option Value → Prop) m o name (p : Presence T) fields (k : Presence T → option B) r :
  (∀ T `(!Wire T, !WireLaws T, !WireShape T) name (p : Presence T),
     take name m = Some p → kept (name, member p) → take name o = Some p) →
  take name m = Some p → Forall kept ((name, member p) :: fields) →
  (Forall kept fields → k p = r) → take name o ≫= k = r.
Proof. intros Ho Hp [Hk Hf]%Forall_cons Hr. rewrite (Ho T _ _ _ name p Hp Hk). by apply Hr. Qed.

Ltac take_fields m Ho Hk :=
  lazymatch goal with
  | |- (take ?name _ ≫= _) = _ =>
      lazymatch goal with
      | Hp : take name m = Some ?p |- _ =>
          refine (bind_take _ m _ name p _ _ _ Ho Hp Hk _);
          clear Hk Hp; intros Hk; cbv beta; take_fields m Ho Hk
      end
  | _ => idtac
  end.

Ltac wf_fields Hv m :=
  lazymatch goal with
  | |- Forall _ ((?name, _) :: _) =>
      lazymatch goal with
      | Hp : take name m = Some ?p |- _ =>
          refine (wf_field name m p _ Hv Hp _);
          wf_fields Hv m
      end
  | _ => constructor
  end.

(** The laws of a record whose decoder is [from], encoder [to] and names [names]. *)
Tactic Notation "record_laws" reference(wire) reference(from) reference(to) reference(fields) constr(names) :=
  let v := fresh "v" in let r := fresh "r" in let m := fresh "m" in let o := fresh "o" in
  let Hv := fresh "Hv" in let Hr := fresh "Hr" in
  let Eo := fresh "Eo" in let kept := fresh "kept" in let Hk := fresh "Hk" in
  let Ho := fresh "Ho" in let Hu := fresh "Hu" in
  split; intros v r Hv Hr; unfold wire in *; cbn [from_value to_value] in *; unfold from in Hr; open_record v Hv Hr m;
  [ match goal with |- _ ?encoded = _ =>
      let t := eval unfold to in encoded in
      match t with record_to_value ?table _ =>
        destruct (record_back m table names Hv
          ltac:(refine (bool_decide_unpack (NoDup names) _); vm_compute; exact I) eq_refl)
          as (o & kept & Eo & Hk & Ho & Hu);
        change (record_to_value _ _) with encoded in Eo; rewrite Eo; clear Eo
      end
    end; unfold fields in Hk; unfold from; cbn [value_as_object mbind option_bind];
    take_fields m Ho Hk; by rewrite Hu
  | apply record_wf; [done|]; unfold fields; wf_fields Hv m ].

#[export] Instance RawInstructor_wire_laws `{Sha256ApiLaws, JsonText} : WireLaws RawInstructor.
Proof. record_laws RawInstructor_wire RawInstructor_from_value RawInstructor_to_value RawInstructor_fields RawInstructor_names. Qed.
#[export] Instance RawMeeting_wire_laws `{Sha256ApiLaws, JsonText} : WireLaws RawMeeting.
Proof. record_laws RawMeeting_wire RawMeeting_from_value RawMeeting_to_value RawMeeting_fields RawMeeting_names. Qed.
#[export] Instance RawCatalogSection_wire_laws `{Sha256ApiLaws, JsonText} : WireLaws RawCatalogSection.
Proof. record_laws RawCatalogSection_wire RawCatalogSection_from_value RawCatalogSection_to_value RawCatalogSection_fields RawCatalogSection_names. Qed.
#[export] Instance RawCatalogCourse_wire_laws `{Sha256ApiLaws, JsonText, !NumberApiLaws} : WireLaws RawCatalogCourse.
Proof. record_laws RawCatalogCourse_wire RawCatalogCourse_from_value RawCatalogCourse_to_value RawCatalogCourse_fields RawCatalogCourse_names. Qed.

(** ** What makes the decoding of a record fail *)

Definition members_ok `{Sha256Api, JsonText} (names : list string) (m : Object) : Prop :=
  ∀ name v, name ∈ names → obj_get name m = Some v → presence_ok v = true.

Section record_ok.
Context `{Sha256Api, JsonText}.

Lemma take_ok {T} `{!Wire T} name m :
  (∀ v, obj_get name m = Some v → presence_ok v = true) → is_Some (take (T:=T) name m).
Proof.
  intros Hok. unfold take. destruct (obj_get name m) as [v|]; [|by eauto]. by apply presence_from_value_ok, Hok.
Qed.

Lemma take_ok_inv {T} `{!Wire T} name m (p : Presence T) v :
  take name m = Some p → obj_get name m = Some v → presence_ok v = true.
Proof. unfold take. intros Ht Hv. rewrite Hv in Ht. eapply presence_from_value_ok. by eexists. Qed.

Lemma bind_ok {A B} (o : option A) (k : A → option B) : is_Some o → (∀ x, is_Some (k x)) → is_Some (o ≫= k).
Proof. intros [x ->] Hk. apply Hk. Qed.

End record_ok.

Ltac in_table := repeat first [apply list_elem_of_here | apply list_elem_of_further].

Tactic Notation "record_ok" reference(from) constr(names) :=
  let Hok := fresh "Hok" in let c := fresh "c" in let Hc := fresh "Hc" in let v := fresh "v" in
  unfold from; cbn [value_as_object mbind option_bind]; split;
  [ intros [c Hc] ? v Hin Hv;
    repeat match type of Hc with
    | _ ≫= _ = Some _ =>
        let p := fresh "p" in let Hp := fresh "Hp" in apply bind_Some in Hc as (p & Hp & Hc)
    end;
    repeat (apply elem_of_cons in Hin as [->|Hin];
            [ match goal with Hp : take ?name _ = Some _, Hv : obj_get ?name _ = Some _ |- _ =>
                exact (take_ok_inv name _ _ v Hp Hv) end |]); by apply elem_of_nil in Hin
  | intros Hok;
    repeat (refine (bind_ok _ _ (take_ok _ _ (λ v, Hok _ v _)) _); [in_table|intros ?]); by eexists ].

Lemma RawCatalogSection_ok `{Sha256Api, JsonText} m :
  is_Some (RawCatalogSection_from_value (Value_Object m)) ↔ members_ok RawCatalogSection_names m.
Proof. record_ok RawCatalogSection_from_value RawCatalogSection_names. Qed.

Lemma RawCatalogCourse_ok `{Sha256Api, JsonText} m :
  is_Some (RawCatalogCourse_from_value (Value_Object m)) ↔ members_ok RawCatalogCourse_names m.
Proof. record_ok RawCatalogCourse_from_value RawCatalogCourse_names. Qed.

#[global] Opaque RawCatalogCourse_from_value RawCatalogCourse_to_value.
#[global] Opaque RawCatalogSection_from_value RawCatalogSection_to_value.

Lemma RawCatalogCourse_round_trip `{Sha256ApiLaws, JsonText, !NumberApiLaws} v c :
  value_wf v → RawCatalogCourse_from_value v = Some c →
  RawCatalogCourse_from_value (RawCatalogCourse_to_value c) = Some c ∧ value_wf (RawCatalogCourse_to_value c).
Proof. intros Hv Hc. split; [exact (wire_round_trip v c Hv Hc)|exact (wire_wf v c Hv Hc)]. Qed.

Lemma RawCatalogSection_round_trip `{Sha256ApiLaws, JsonText} v s :
  value_wf v → RawCatalogSection_from_value v = Some s →
  RawCatalogSection_from_value (RawCatalogSection_to_value s) = Some s ∧ value_wf (RawCatalogSection_to_value s).
Proof. intros Hv Hs. split; [exact (wire_round_trip v s Hv Hs)|exact (wire_wf v s Hv Hs)]. Qed.

(** ** Payloads *)

Section payload_facts.
Context `{Sha256ApiLaws, JsonText, !NumberApiLaws, !JsonParser}.
Implicit Types (p : Parsed) (v : Value) (m : Object).

Lemma collapse_wf p : value_wf (collapse p).
Proof.
  induction p as [| | | |f| |l IH|m IH] using Parsed_ind; cbn [collapse]; try by constructor.
  - destruct (number_from_f64 f); constructor.
  - constructor. by apply Forall_fmap.
  - apply value_wf_obj_of, Forall_fmap. exact IH.
Qed.

(** The objects [strict_json] builds: insertions without a duplicate. *)
Definition strict_insert (m : option Object) (entry : string * Parsed) : option Object :=
  m ← m; v ← strict_json entry.2;
  if bool_decide (obj_get entry.1 m = None) then Some (obj_insert entry.1 v m) else None.

Lemma strict_insert_None l : foldl strict_insert None l = None.
Proof. by induction l. Qed.

Lemma strict_insert_all l m m' :
  Forall (λ entry, ∀ v, strict_json entry.2 = Some v → collapse entry.2 = v) l →
  foldl strict_insert (Some m) l = Some m' →
  m' = foldl (λ m kv, obj_insert kv.1 kv.2 m) m ((λ entry, (entry.1, collapse entry.2)) <$> l)
  ∧ NoDup l.*1 ∧ ∀ k, k ∈ l.*1 → obj_get k m = None.
Proof.
  intros Hl. revert m. induction Hl as [|[k p] l Hp Hl IH]; intros m; cbn [foldl fmap list_fmap].
  - intros [= <-]. split_and!; [done|constructor|by intros k ?%elem_of_nil].
  - cbn [strict_insert mbind option_bind fst snd] in *. destruct (strict_json p) as [v|] eqn:Hv; cbn; [|by rewrite strict_insert_None].
    case_bool_decide as Hk; [|by rewrite strict_insert_None]. intros (-> & Hnd & Hnone)%IH. rewrite (Hp v eq_refl).
    split_and!; [done| |].
    + constructor; [|done]. intros Hin%Hnone. by rewrite obj_get_insert_eq in Hin.
    + intros k' [->|Hin]%elem_of_cons; [done|]. pose proof (Hnone k' Hin) as Hg.
      rewrite obj_get_insert in Hg. by case_bool_decide.
Qed.

(** Where the strict visitor accepts, it agrees with [Value::deserialize]. *)
Lemma strict_json_collapse p v : strict_json p = Some v → collapse p = v.
Proof.
  revert v. induction p as [|b|n|n|f|s|l IH|m IH] using Parsed_ind; intros v; cbn [strict_json collapse].
  1-4,6: by intros [= <-].
  - intros (n & -> & ->)%fmap_Some. done.
  - intros (values & Hl & ->)%fmap_Some. f_equal. revert values Hl.
    induction IH as [|p l Hp _ IH]; intros values; cbn; [by intros [= <-]|].
    intros (w & Hw & (ws & Hws & ->)%fmap_Some)%bind_Some. rewrite (Hp w Hw). f_equal. by apply IH.
  - intros (m' & Hm & ->)%fmap_Some. f_equal.
    apply strict_insert_all in Hm as (-> & _); [done|exact IH].
Qed.

Context `{!JsonSlice}.

Lemma decode_catalog_payload_inv (body : string) (courses : list RawCatalogCourse) :
  decode_catalog_payload body = Some courses →
  ∃ values, decode_strict_json body = Some (Value_Array values)
    ∧ reject_reserved_malformed_envelopes (Value_Array values) = true
    ∧ Forall2 (λ v c, value_wf v ∧ RawCatalogCourse_from_value v = Some c) values courses.
Proof.
  unfold decode_catalog_payload, decode_strict_json. intros (cs & Hcs & Hv)%bind_Some.
  apply bind_Some in Hcs as (p & Hp & Hcs). rewrite Hp in *. cbn [mbind option_bind] in *.
  apply bind_Some in Hv as (v & Hv & Hrej). destruct (reject_reserved_malformed_envelopes v) eqn:Hr; [|done].
  injection Hrej as <-. pose proof (strict_json_collapse p v Hv) as Hc.
  destruct p as [| | | | | |elements|]; try discriminate Hcs. cbn [collapse] in Hc. subst v.
  exists (collapse <$> elements). split_and!; [done..|]. apply mapM_Some_1 in Hcs.
  apply Forall2_fmap_l. eapply Forall2_impl; [exact Hcs|]. intros q c Hq.
  unfold course_from_parsed in Hq. destruct q; try discriminate Hq. case_bool_decide; [|done].
  split; [apply collapse_wf|done].
Qed.

(** A text in which no object has a member twice or the reserved member, and
    every number is finite. *)
Inductive strict_text : Parsed → Prop :=
| strict_unit : strict_text Parsed_Unit
| strict_bool b : strict_text (Parsed_Bool b)
| strict_i64 n : strict_text (Parsed_I64 n)
| strict_u64 n : strict_text (Parsed_U64 n)
| strict_f64 f : is_Some (number_from_f64 f) → strict_text (Parsed_F64 f)
| strict_str t : strict_text (Parsed_Str t)
| strict_seq l : Forall strict_text l → strict_text (Parsed_Seq l)
| strict_map (entries : list (string * Parsed)) : NoDup entries.*1 → "$malformed" ∉ entries.*1 →
    Forall (λ entry, strict_text entry.2) entries → strict_text (Parsed_Map entries).

(** The strict visitor builds a value, and no reserved envelope is in it. *)
Definition accepted p : Prop :=
  strict_json p = Some (collapse p) ∧ reject_reserved_malformed_envelopes (collapse p) = true.

Lemma strict_seq_Some l :
  foldr (λ p values, v ← strict_json p; (v ::.) <$> values) (Some []) l = Some (collapse <$> l)
  ↔ Forall (λ p, strict_json p = Some (collapse p)) l.
Proof.
  induction l as [|p l IH]; cbn; [by split|]. rewrite Forall_cons, <-IH. split.
  - intros (v & Hv & (vs & Hvs & [= -> ->])%fmap_Some)%bind_Some. by rewrite Hv.
  - intros [-> Hl]. cbn. cbn in Hl. by rewrite Hl.
Qed.

Lemma strict_insert_Some l m :
  NoDup l.*1 → (∀ k, k ∈ l.*1 → obj_get k m = None) → Forall (λ entry, strict_json entry.2 = Some (collapse entry.2)) l →
  is_Some (foldl strict_insert (Some m) l).
Proof.
  revert m. induction l as [|[k p] l IH]; intros m; cbn [foldl]; [by eauto|].
  intros [Hk Hnd]%NoDup_cons Hnone [Hp Hl]%Forall_cons. cbn in Hp, Hk. cbn [strict_insert mbind option_bind fst snd].
  rewrite Hp. cbn [mbind option_bind]. rewrite bool_decide_eq_true_2 by (apply Hnone; left). apply IH; [done| |done].
  intros k' Hk'. rewrite obj_get_insert. case_bool_decide; [by subst|]. apply Hnone. by right.
Qed.

Lemma strict_map_Some (entries : list (string * Parsed)) :
  strict_json (Parsed_Map entries) = Some (collapse (Parsed_Map entries))
  ↔ NoDup entries.*1 ∧ Forall (λ entry, strict_json entry.2 = Some (collapse entry.2)) entries.
Proof.
  assert (Forall (λ entry : string * Parsed, ∀ v, strict_json entry.2 = Some v → collapse entry.2 = v) entries) as Hcol
    by (apply Forall_forall; intros entry _ v; apply strict_json_collapse).
  split.
  - cbn [strict_json collapse]. intros (entries' & Hm & _)%fmap_Some. pose proof (strict_insert_all _ _ _ Hcol Hm) as (_ & Hnd & _).
    split; [done|]. clear Hcol Hnd. revert Hm. fold strict_insert.
    generalize ([] : Object). induction entries as [|[k p] entries IH]; intros o; [by constructor|]. cbn [foldl strict_insert mbind option_bind fst snd].
    destruct (strict_json p) as [v|] eqn:Hv; cbn [mbind option_bind]; [|by rewrite strict_insert_None].
    case_bool_decide; [|by rewrite strict_insert_None]. intros Hm. constructor; [cbn; by rewrite Hv, (strict_json_collapse _ _ Hv)|by eapply IH].
  - intros [Hnd Hall]. destruct (strict_insert_Some entries [] Hnd (λ _ _, eq_refl) Hall) as [entries' Hm].
    assert (strict_json (Parsed_Map entries) = Some (Value_Object entries')) as Hj by (cbn [strict_json]; fold strict_insert; by rewrite Hm).
    by rewrite Hj, (strict_json_collapse _ _ Hj).
Qed.

Lemma reject_map_iff (entries : list (string * Parsed)) :
  NoDup entries.*1 →
  reject_reserved_malformed_envelopes (collapse (Parsed_Map entries)) = true
  ↔ "$malformed" ∉ entries.*1 ∧ Forall (λ entry, reject_reserved_malformed_envelopes (collapse entry.2) = true) entries.
Proof.
  intros Hnd. set (l := (λ entry : string * Parsed, (entry.1, collapse entry.2)) <$> entries).
  assert (l.*1 = entries.*1) as Hkeys by (unfold l; by rewrite <-list_fmap_compose).
  change (collapse (Parsed_Map entries)) with (Value_Object (obj_of l)). cbn [reject_reserved_malformed_envelopes].
  rewrite andb_true_iff, bool_decide_eq_true, obj_get_None, obj_of_keys, Hkeys, forallb_forall, Forall_forall.
  apply and_iff_compat_l. split.
  - intros Hall [k p] Hin. apply (Hall (k, collapse p)), list_elem_of_In, obj_get_elem, obj_get_of; [by rewrite Hkeys|].
    by apply (list_elem_of_fmap_2 (λ entry : string * Parsed, (entry.1, collapse entry.2)) entries (k, p)).
  - intros Hall kv ([k p] & -> & Hin)%list_elem_of_In%obj_of_elem%list_elem_of_fmap. by apply (Hall (k, p)).
Qed.

Lemma accepted_strict p : accepted p ↔ strict_text p.
Proof.
  unfold accepted. induction p as [|b|n|n|f|s|l IH|m IH] using Parsed_ind; try (split; [constructor|done]).
  - cbn. split; [intros [Hn _]; constructor; by destruct (number_from_f64 f)|]. intros Hs. inversion_clear Hs as [| | | |? [n Hn]| | |].
    by rewrite Hn.
  - assert (strict_json (Parsed_Seq l) = Some (collapse (Parsed_Seq l)) ↔ Forall (λ p, strict_json p = Some (collapse p)) l) as ->.
    { rewrite <-strict_seq_Some. cbn [strict_json collapse]. split; [|by intros ->]. by intros (? & -> & [= ->])%fmap_Some. }
    cbn [collapse reject_reserved_malformed_envelopes]. rewrite forallb_forall. rewrite Forall_forall in IH. split.
    + intros [Hj Hr]. constructor. rewrite Forall_forall in Hj |- *. intros p Hp. apply IH; [done|]. split; [by apply Hj|].
      apply Hr, list_elem_of_In. by apply list_elem_of_fmap_2.
    + intros Hs. inversion_clear Hs as [| | | | | |? Hall|]. rewrite Forall_forall in Hall. split.
      * apply Forall_forall. intros p Hp. by apply IH, Hall.
      * intros v (p & -> & Hp)%list_elem_of_In%list_elem_of_fmap. by apply IH, Hall.
  - rewrite strict_map_Some. rewrite Forall_forall in IH. split.
    + intros [[Hnd Hj] Hr]. apply (reject_map_iff m Hnd) in Hr as [Hm Hr]. constructor; [done..|].
      rewrite Forall_forall in Hj, Hr |- *. intros entry Hin. apply IH; [done|]. split; [by apply Hj|by apply Hr].
    + intros Hs. inversion_clear Hs as [| | | | | | |? Hnd Hm Hall]. rewrite Forall_forall in Hall. split; [split; [done|]|].
      * apply Forall_forall. intros entry Hin. by apply IH, Hall.
      * apply (reject_map_iff m Hnd). split; [done|]. apply Forall_forall. intros entry Hin. by apply IH, Hall.
Qed.

(** A course without envelopes always decodes. *)
Lemma plain_course_decodes m :
  reject_reserved_malformed_envelopes (Value_Object m) = true → is_Some (RawCatalogCourse_from_value (Value_Object m)).
Proof.
  intros Hm. apply RawCatalogCourse_ok. intros name v _ Hv%obj_get_elem. cbn in Hm.
  apply andb_true_iff in Hm as [_ Hm]. rewrite forallb_forall in Hm. specialize (Hm (name, v) (proj1 (list_elem_of_In _ _) Hv)).
  cbn in Hm. unfold presence_ok, envelope_of. destruct v as [| | | | |o]; try done. cbn in *.
  apply andb_true_iff in Hm as [Ho%bool_decide_eq_true _]. by rewrite Ho.
Qed.

Lemma course_from_map (entries : list (string * Parsed)) :
  strict_text (Parsed_Map entries) →
  course_from_parsed (Parsed_Map entries) = RawCatalogCourse_from_value (collapse (Parsed_Map entries))
  ∧ is_Some (RawCatalogCourse_from_value (collapse (Parsed_Map entries))).
Proof.
  intros Hm. pose proof Hm as [_ Hr]%accepted_strict. inversion_clear Hm as [| | | | | | |? Hnd _ _]. split.
  - unfold course_from_parsed. rewrite bool_decide_eq_true_2; [done|]. by apply NoDup_filter.
  - by apply plain_course_decodes.
Qed.

(** The texts of a list of courses. *)
Definition courses_text (elements : list Parsed) : Prop :=
  Forall (λ p, strict_text p ∧ ∃ entries, p = Parsed_Map entries) elements.

Lemma courses_decode elements :
  courses_text elements →
  ∃ courses, courses_from_parsed (Parsed_Seq elements) = Some courses
    ∧ Forall2 (λ p c, RawCatalogCourse_from_value (collapse p) = Some c) elements courses.
Proof.
  intros Hall. cbn [courses_from_parsed].
  assert (∀ p, p ∈ elements → ∃ c, course_from_parsed p = Some c ∧ RawCatalogCourse_from_value (collapse p) = Some c) as Hc.
  { intros p Hp. destruct (proj1 (Forall_forall _ _) Hall p Hp) as [Hs [m ->]].
    destruct (course_from_map m Hs) as [Heq [c Hc]]. exists c. by rewrite Heq. }
  clear Hall. induction elements as [|p elements IH]; [by exists []|]. destruct (Hc p) as (c & Hp & Hv); [left|].
  destruct IH as (cs & Hcs & Hall); [intros q Hq; apply Hc; by right|]. exists (c :: cs). split; [|by constructor].
  cbn. rewrite Hp. cbn. by rewrite Hcs.
Qed.

(** C19. Decoding a catalog payload is strict and lossless. A body is accepted
    exactly when it is read as an array of objects in which, at any depth, no
    object has a member twice or the reserved member of a malformed field and
    every number is finite: the shape of a field never refuses it. Every course
    is then the decoding of the object at its place, and encoding a course and
    decoding it again gives the course back, malformed fields and unknown
    members included. *)
Theorem decode_catalog_payload_spec (body : string) :
  (is_Some (decode_catalog_payload body) ↔
     ∃ elements, parse_slice body = Some (Parsed_Seq elements) ∧ courses_text elements)
  ∧ ∀ courses, decode_catalog_payload body = Some courses →
      ∃ elements, parse_slice body = Some (Parsed_Seq elements)
        ∧ Forall2 (λ p c, RawCatalogCourse_from_value (collapse p) = Some c
                          ∧ RawCatalogCourse_from_value (RawCatalogCourse_to_value c) = Some c) elements courses.
Proof.
  assert (∀ courses, decode_catalog_payload body = Some courses → ∃ elements, parse_slice body = Some (Parsed_Seq elements)
    ∧ courses_text elements) as Hstrict.
  { intros courses (cs & Hcs & Hv)%bind_Some. apply bind_Some in Hcs as (p & Hp & Hcs).
    unfold decode_strict_json in Hv. rewrite Hp in Hv. cbn [mbind option_bind] in Hv. apply bind_Some in Hv as (v & Hv & Hr).
    destruct (reject_reserved_malformed_envelopes v) eqn:Hrej; [|done].
    destruct p as [| | | | | |elements|]; try discriminate Hcs. exists elements. split; [done|].
    assert (strict_text (Parsed_Seq elements)) as Hs.
    { apply accepted_strict. pose proof (strict_json_collapse _ _ Hv) as <-. by split. }
    inversion_clear Hs as [| | | | | |? Hall|]. cbn [courses_from_parsed] in Hcs. apply mapM_Some_1 in Hcs.
    unfold courses_text. rewrite Forall_forall in *. intros q Hq. split; [by apply Hall|].
    apply list_elem_of_lookup in Hq as [i Hi]. destruct (Forall2_lookup_l _ _ _ _ _ Hcs Hi) as (c & _ & Hc).
    destruct q; try discriminate Hc. by eexists. }
  split.
  - split; [by intros [courses Hc]; eapply Hstrict|]. intros (elements & Hp & Hall).
    destruct (courses_decode elements Hall) as (courses & Hc & _). exists courses.
    assert (accepted (Parsed_Seq elements)) as [Hj Hr].
    { apply accepted_strict. constructor. eapply Forall_impl; [exact Hall|]. by intros p [? _]. }
    unfold decode_catalog_payload, decode_strict_json. rewrite Hp. cbn [mbind option_bind]. rewrite Hc. cbn [mbind option_bind].
    rewrite Hj. cbn [mbind option_bind]. by rewrite Hr.
  - intros courses Hc. destruct (Hstrict courses Hc) as (elements & Hp & Hall). exists elements. split; [done|].
    destruct (courses_decode elements Hall) as (courses' & Hcs & Hdec).
    apply bind_Some in Hc as (cs & Hcs' & Hv). rewrite Hp in Hcs'. cbn [mbind option_bind] in Hcs'. simplify_eq.
    apply bind_Some in Hv as (v & _ & Hv). destruct (reject_reserved_malformed_envelopes v); [|done]. injection Hv as <-.
    eapply Forall2_impl; [exact Hdec|]. intros p c Hpc. split; [done|].
    exact (proj1 (RawCatalogCourse_round_trip _ c (collapse_wf p) Hpc)).
Qed.

End payload_facts.

(** ** A witness *)

#[local] Existing Instance concrete_sha256_api.
#[local] Existing Instance concrete_number_api.
#[local] Existing Instance concrete_json_text.
#[local] Existing Instance ce_parser.
#[local] Existing Instance ce_slice.

Lemma concrete_number_api_laws : @NumberApiLaws concrete_number_api.
Proof. by intros n z [= ->]. Qed.

Lemma decode_catalog_payload_spec_witness :
  ∃ elements, parse_slice "payload" = Some (Parsed_Seq elements)
    ∧ Forall2 (λ p c, RawCatalogCourse_from_value (collapse p) = Some c
                      ∧ RawCatalogCourse_from_value (RawCatalogCourse_to_value c) = Some c) elements ce_courses.
Proof.
  apply (@decode_catalog_payload_spec concrete_sha256_api concrete_sha256_api_laws concrete_number_api concrete_json_text
    concrete_number_api_laws ce_parser ce_slice "payload").
  vm_compute. reflexivity.
Defined.
