(* ===== verification/Canonical.v ===== *)
(** * Canonical JSON and its hashes (crates/bcsp-catalog/src/canonical.rs)

    The canonical form of a value under a profile: the semantic profiles trim
    the known text fields, order the arrays that stand for sets and leave out
    the text derived from a structured field; and the tagged hashes. *)

From S2P Require Import Prelude Identity Contracts RustStr Ordering Json RawCatalog CatalogModel.

Inductive CanonicalProfile :=
| CanonicalProfile_Exact
| CanonicalProfile_CourseSemantic
| CanonicalProfile_SectionSemantic.

(** ** Hash domains: each tag ends in a zero byte *)

Definition nul : string := String Ascii.zero "".

Definition RAW_COURSE_PREIMAGE_V1 : string := "bcsp-catalog/raw-course/v1" +:+ nul.
Definition RAW_SECTION_PREIMAGE_V1 : string := "bcsp-catalog/raw-section/v1" +:+ nul.
Definition SECTION_SEMANTIC_PREIMAGE_V1 : string := "bcsp-catalog/section-semantic/v1" +:+ nul.
Definition OCCURRENCE_PREIMAGE_V1 : string := "bcsp-catalog/occurrence/v1" +:+ nul.
Definition COURSE_VARIANT_PREIMAGE_V1 : string := "bcsp-catalog/course-variant/v1" +:+ nul.
Definition TARGET_CONTENT_PREIMAGE_V1 : string := "bcsp-catalog/target-content/v1" +:+ nul.

(** ** Known fields *)

Definition COURSE_STRINGS : list string :=
  ["campusCode"; "courseDescription"; "courseFee"; "courseFeeDescr"; "courseNotes";
   "courseNumber"; "courseString"; "expandedTitle"; "level"; "mainCampus";
   "offeringUnitCode"; "offeringUnitTitle"; "preReqNotes"; "subject"; "subjectDescription";
   "subjectGroupNotes"; "subjectNotes"; "supplementCode"; "synopsisUrl"; "title";
   "unitNotes"].

Definition SECTION_STRINGS : list string :=
  ["campusCode"; "commentsText"; "crossListedSectionsText"; "crossListedSectionType";
   "examCode"; "examCodeText"; "index"; "instructorsText"; "legendKey"; "number";
   "openStatusText"; "openToText"; "printed"; "sectionCourseType"; "sectionEligibility";
   "sectionNotes"; "sessionDatePrintIndicator"; "sessionDates"; "specialPermissionAddCode";
   "specialPermissionAddCodeDescription"; "specialPermissionDropCode";
   "specialPermissionDropCodeDescription"; "subtitle"; "subtopic"].

Definition SECTION_SETS : list string :=
  ["comments"; "crossListedSections"; "honorPrograms"; "instructors"; "majors"; "minors";
   "sectionCampusLocations"; "unitMajors"].

(** Membership of a field, as [matches!] tests it. *)
Definition one_of (field : string) (names : list string) : bool := bool_decide (field ∈ names).

Definition is_known_set_array (profile : CanonicalProfile) (path : list string) : bool :=
  match last path with
  | None => false
  | Some field =>
      match profile with
      | CanonicalProfile_Exact => false
      | CanonicalProfile_CourseSemantic =>
          bool_decide (length path = 1%nat) && one_of field ["campusLocations"; "coreCodes"]
      | CanonicalProfile_SectionSemantic =>
          bool_decide (length path = 1%nat) && one_of field SECTION_SETS
      end
  end.

Definition matches_known_nested_code (path parents : list string) : bool :=
  match path with
  | [parent; field] => bool_decide (field = "code") && one_of parent parents
  | _ => false
  end.

(** [path.len() == 2 && path[0] == parent && matches!(path[1], ..)]. *)
Definition nested_in (path : list string) (parent : string) (names : list string) : bool :=
  match path with
  | [parent'; field] => bool_decide (parent' = parent) && one_of field names
  | _ => false
  end.

Definition is_known_semantic_string (profile : CanonicalProfile) (path : list string) : bool :=
  match last path with
  | None => false
  | Some field =>
      match profile with
      | CanonicalProfile_Exact => false
      | CanonicalProfile_CourseSemantic =>
          (bool_decide (length path = 1%nat) && one_of field COURSE_STRINGS)
          || matches_known_nested_code path ["campusLocations"; "creditsObject"; "school"]
          || bool_decide (path = ["coreCodes"])
      | CanonicalProfile_SectionSemantic =>
          (bool_decide (length path = 1%nat) && one_of field SECTION_STRINGS)
          || bool_decide (path = ["comments"])
          || nested_in path "comments" ["code"; "description"]
          || bool_decide (path = ["instructors"; "name"])
          || nested_in path "unitMajors" ["unitCode"; "majorCode"]
          || bool_decide (path = ["sectionCampusLocations"; "description"])
          || matches_known_nested_code path
               ["crossListedSections"; "honorPrograms"; "majors"; "minors"; "sectionCampusLocations";
                "unitMajors"]
      end
  end.

Section canonical.
Context `{Sha256Api, JsonText}.

(** ** Derived text *)

(** [.as_str().is_some_and(|text| !text.trim().is_empty())]. *)
Definition is_text (v : option Value) : bool :=
  match v ≫= value_as_str with
  | Some text => negb (bool_decide (trim text = ""))
  | None => false
  end.

(** A member of an object value. *)
Definition member_of (field : string) (v : Value) : option Value :=
  value_as_object v ≫= obj_get field.

Definition valid_comment_entry (v : Value) : bool :=
  is_text (Some v) || existsb (λ field, is_text (member_of field v)) ["code"; "description"].

Definition valid_cross_list_entry (v : Value) : bool :=
  is_text (Some v) || is_text (member_of "code" v).

Definition derived_text_has_trustworthy_structured_source (object : Object) (key : string) : bool :=
  let check structured valid :=
    match obj_get key object with
    | Some (Value_String derived_text) =>
        match obj_get structured object with
        | Some (Value_Array values) =>
            match values with
            | [] => bool_decide (trim derived_text = "")
            | _ => forallb valid values
            end
        | _ => false
        end
    | _ => false
    end in
  if bool_decide (key = "commentsText") then check "comments" valid_comment_entry
  else if bool_decide (key = "instructorsText")
  then check "instructors" (λ v, is_text (member_of "name" v))
  else if bool_decide (key = "crossListedSectionsText")
  then check "crossListedSections" valid_cross_list_entry
  else false.

(** ** Canonical form *)

(** [path] holds the keys down to the value. The members of an object are in
    the order of their keys, so sorting them changes nothing. *)
Fixpoint canonicalize (profile : CanonicalProfile) (path : list string) (v : Value) : Value :=
  match v with
  | Value_Object object =>
      Value_Object (obj_of (omap (λ kv,
        if match profile with CanonicalProfile_SectionSemantic => true | _ => false end
           && bool_decide (path = [])
           && derived_text_has_trustworthy_structured_source object kv.1
        then None
        else Some (kv.1, canonicalize profile (path ++ [kv.1]) kv.2)) object))
  | Value_Array values =>
      let values := canonicalize profile path <$> values in
      Value_Array (if is_known_set_array profile path
                   then sort_by (compare_keys json_to_string) values else values)
  | Value_String value =>
      if is_known_semantic_string profile path then Value_String (trim value) else v
  | _ => v
  end.

(** ** Hashes *)

Definition hash_tagged (prefix : string) (v : Value) : Sha256Hex :=
  from_digest_bytes (prefix +:+ json_to_string v).

Definition canonical_raw_course_hash_v1 (v : Value) : Sha256Hex :=
  hash_tagged RAW_COURSE_PREIMAGE_V1 (canonicalize CanonicalProfile_Exact [] v).

Definition canonical_raw_section_hash_v1 (v : Value) : Sha256Hex :=
  hash_tagged RAW_SECTION_PREIMAGE_V1 (canonicalize CanonicalProfile_Exact [] v).

Definition canonical_section_semantic_value_v1 (v : Value) : Value :=
  canonicalize CanonicalProfile_SectionSemantic [] v.

Definition canonical_section_semantic_hash_v1 (v : Value) : Sha256Hex :=
  hash_tagged SECTION_SEMANTIC_PREIMAGE_V1 (canonical_section_semantic_value_v1 v).

Definition canonical_occurrence_hash_v1 (v : Value) : Sha256Hex :=
  hash_tagged OCCURRENCE_PREIMAGE_V1 (canonicalize CanonicalProfile_Exact [] v).

Definition canonical_course_semantic_value_v1 (v : Value) : Value :=
  canonicalize CanonicalProfile_CourseSemantic [] v.

Definition canonical_course_variant_hash_v1 (v : Value) : Sha256Hex :=
  hash_tagged COURSE_VARIANT_PREIMAGE_V1 (canonicalize CanonicalProfile_Exact [] v).

Definition canonical_target_content_hash_v1 (v : Value) : Sha256Hex :=
  hash_tagged TARGET_CONTENT_PREIMAGE_V1 (canonicalize CanonicalProfile_Exact [] v).

End canonical.
