(* ===== verification/CanonicalFacts.v ===== *)
(** * Facts about canonical JSON

    Trimming and canonicalizing are idempotent, the exact profile changes
    nothing, a canonical record still decodes, and the semantic hash of a
    section is the hash of its content. *)

From S2P Require Import Prelude Identity Contracts RustStr OpenClient Ordering Json RawCatalog RawCatalogFacts CatalogModel Canonical.

(** ** Trimming *)

Section trim_front_facts.
Context (w2 : Ascii.ascii → Ascii.ascii → bool) (w3 : Ascii.ascii → Ascii.ascii → Ascii.ascii → bool).

(** White space starts the string. *)
Definition ws_front (s : string) : bool :=
  match s with
  | EmptyString => false
  | String a s1 =>
      ws1 a || match s1 with
               | EmptyString => false
               | String b s2 => w2 a b || match s2 with EmptyString => false | String c _ => w3 a b c end
               end
  end.

Lemma trim_front_id s : ws_front s = false → trim_front w2 w3 s = s.
Proof.
  destruct s as [|a s1]; [done|]. simpl. destruct (ws1 a); [done|]. destruct s1 as [|b s2]; [done|].
  destruct (w2 a b); [done|]. destruct s2 as [|c s3]; [done|]. by destruct (w3 a b c).
Qed.

Lemma trim_front_spec s : ws_front (trim_front w2 w3 s) = false ∧ ∃ p, s = p +:+ trim_front w2 w3 s.
Proof.
  remember (String.length s) as n eqn:Hn. revert s Hn.
  induction (lt_wf n) as [n _ IH]; intros s ->. destruct s as [|a s1]; simpl; [by split; [|exists ""]|].
  assert (∀ p t, String a s1 = p +:+ t → (String.length t < S (String.length s1))%nat →
    ws_front (trim_front w2 w3 t) = false ∧ ∃ q, String a s1 = q +:+ trim_front w2 w3 t) as Hrec.
  { intros p t E Ht. destruct (IH _ Ht t eq_refl) as (Hc & q & Hq). split; [done|]. exists (p +:+ q).
    rewrite E, Hq at 1. by rewrite string_app_assoc. }
  destruct (ws1 a) eqn:Ha; [apply (Hrec (String a "")); [done|lia]|].
  destruct s1 as [|b s2]; simpl; [rewrite Ha; split; [done|by exists ""]|].
  destruct (w2 a b) eqn:Hb; [apply (Hrec (String a (String b ""))); [done|simpl; lia]|].
  destruct s2 as [|c s3]; simpl; [rewrite Ha, Hb; split; [done|by exists ""]|].
  destruct (w3 a b c) eqn:Hc; [apply (Hrec (String a (String b (String c "")))); [done|simpl; lia]|].
  simpl. rewrite Ha, Hb, Hc. split; [done|by exists ""].
Qed.

End trim_front_facts.

Lemma ws_front_prefix s t : ws_front ws2 ws3 s = true → ws_front ws2 ws3 (s +:+ t) = true.
Proof.
  destruct s as [|a s]; [done|]. rewrite string_cons_app. exact (ws_at_prefix a s t).
Qed.

Lemma rev_string_app s t : String.rev (s +:+ t) = String.rev t +:+ String.rev s.
Proof.
  unfold String.rev.
  assert (∀ s u, String.rev_app s u = String.rev_app s "" +:+ u) as Hacc.
  { clear. induction s as [|a s IH]; intros u; [done|]. rewrite !rev_app_cons, IH, (IH (String a "")).
    by rewrite <-string_app_assoc. }
  induction s as [|a s IH]; [by rewrite string_app_nil_r|].
  rewrite string_cons_app, !rev_app_cons, Hacc, IH, (Hacc s (String a "")). by rewrite string_app_assoc.
Qed.

Lemma rev_string_rev s : String.rev (String.rev s) = s.
Proof. unfold String.rev. rewrite rev_app_rev_app. apply string_app_nil_r. Qed.

Lemma trim_idemp s : trim (trim s) = trim s.
Proof.
  unfold trim. set (u := trim_start s).
  assert (ws_front ws2 ws3 u = false) as Hu by apply trim_front_spec.
  unfold trim_end. set (x := trim_front _ _ (String.rev u)).
  destruct (trim_front_spec (λ b a, ws2 a b) (λ c b a, ws3 a b c) (String.rev u)) as (Hx & p & Hp). fold x in Hx, Hp.
  assert (u = String.rev x +:+ String.rev p) as Eu by by rewrite <-rev_string_app, <-Hp, rev_string_rev.
  assert (trim_start (String.rev x) = String.rev x) as ->.
  { apply trim_front_id. apply not_true_iff_false. intros Hw.
    apply (ws_front_prefix _ (String.rev p)) in Hw. congruence. }
  rewrite rev_string_rev. by rewrite trim_front_id.
Qed.

(** ** Objects under canonicalization *)

Section canonical_facts.
Context `{Sha256Api, JsonText}.
Implicit Types (v w : Value) (m : Object) (path : list string) (profile : CanonicalProfile).

(** Members kept and changed by their keys. *)
Definition map_members (skip : string → bool) (g : string → Value → Value) (m : Object) : Object :=
  omap (λ kv, if skip kv.1 then None else Some (kv.1, g kv.1 kv.2)) m.

Lemma map_members_keys skip g m : (map_members skip g m).*1 = filter (λ k, skip k = false) m.*1.
Proof.
  induction m as [|[k v] m IH]; [done|]. unfold map_members in *. csimpl.
  rewrite filter_cons. destruct (skip k); csimpl; [done|]. by rewrite IH.
Qed.

Lemma map_members_sorted skip g m : keys_sorted m → keys_sorted (map_members skip g m).
Proof. unfold keys_sorted. rewrite map_members_keys. apply StronglySorted_filter. Qed.

Lemma obj_get_map skip g k m :
  obj_get k (map_members skip g m) = if skip k then None else g k <$> obj_get k m.
Proof.
  induction m as [|[k' v] m IH]; [by destruct (skip k)|]. unfold map_members in *. csimpl.
  destruct (skip k') eqn:Hs; csimpl; rewrite IH; case_bool_decide; subst; rewrite ?Hs; done.
Qed.

Lemma length_map_members skip g m : (∀ k, skip k = false) → length (map_members skip g m) = length m.
Proof.
  intros Hs. unfold map_members. induction m as [|[k v] m IH]; [done|]. csimpl. rewrite Hs. cbn [length]. by rewrite IH.
Qed.

Lemma obj_of_id m : keys_sorted m → obj_of m = m.
Proof.
  intros Hs. apply obj_ext; [apply obj_of_sorted|done|]. intros k. destruct (obj_get k m) as [v|] eqn:E.
  - apply obj_get_of; [by apply keys_sorted_NoDup|]. by apply obj_get_elem.
  - by apply obj_get_of_None, obj_get_None.
Qed.

(** What the section profile leaves out of an object. *)
Definition skipped profile path (m : Object) (key : string) : bool :=
  match profile with CanonicalProfile_SectionSemantic => true | _ => false end
  && bool_decide (path = []) && derived_text_has_trustworthy_structured_source m key.

Lemma skipped_nested profile path m key : path ≠ [] → skipped profile path m key = false.
Proof. intros Hp. unfold skipped. rewrite (bool_decide_eq_false_2 _ Hp). by rewrite andb_false_r. Qed.

Lemma skipped_top m key :
  skipped CanonicalProfile_SectionSemantic [] m key = derived_text_has_trustworthy_structured_source m key.
Proof. unfold skipped. by rewrite bool_decide_eq_true_2. Qed.

Lemma canonicalize_object profile path m :
  keys_sorted m →
  canonicalize profile path (Value_Object m) =
  Value_Object (map_members (skipped profile path m) (λ k, canonicalize profile (path ++ [k])) m).
Proof.
  intros Hs. cbn [canonicalize]. f_equal.
  exact (obj_of_id _ (map_members_sorted _ (λ k, canonicalize profile (path ++ [k])) m Hs)).
Qed.

Lemma value_wf_map skip g m :
  value_wf (Value_Object m) → (∀ k v, (k, v) ∈ m → value_wf (g k v)) →
  value_wf (Value_Object (map_members skip g m)).
Proof.
  intros [Hs Hm]%value_wf_object_inv Hg. constructor; [by apply map_members_sorted|].
  apply Forall_forall. intros [k v] ([k' v'] & Hin & Hkv)%list_elem_of_omap. cbn in Hkv.
  destruct (skip k'); [done|]. injection Hkv as -> <-. by apply Hg.
Qed.

Lemma canonicalize_wf profile path v : value_wf v → value_wf (canonicalize profile path v).
Proof.
  revert path. induction v as [| | |s|l IH|m IH] using Value_ind; intros path Hv; try (by constructor).
  - cbn. destruct (is_known_semantic_string _ _); constructor.
  - cbn [canonicalize]. constructor. apply value_wf_array_inv in Hv.
    assert (Forall value_wf (canonicalize profile path <$> l)) as Hl.
    { apply Forall_fmap. rewrite Forall_forall in *. intros w Hw. by apply IH, Hv. }
    destruct (is_known_set_array _ _); [|done]. by rewrite sort_by_perm.
  - rewrite canonicalize_object by by apply value_wf_object_inv in Hv as [].
    apply value_wf_map; [done|]. intros k v Hin. apply value_wf_object_inv in Hv as [_ Hv].
    rewrite Forall_forall in *. apply (IH (k, v)); [done|]. by apply (Hv (k, v)).
Qed.

(** A path from which on the profile changes nothing. *)
Definition inert profile path : Prop :=
  (∀ m key, skipped profile path m key = false) ∧
  ∀ rest, is_known_semantic_string profile (path ++ rest) = false ∧
          is_known_set_array profile (path ++ rest) = false.

Lemma inert_app profile path key : inert profile path → inert profile (path ++ [key]).
Proof.
  intros [_ Hi]. split; [intros m k; by apply skipped_nested; destruct path|].
  intros rest. rewrite <-app_assoc. apply Hi.
Qed.

Lemma map_members_id skip g m :
  (∀ k v, (k, v) ∈ m → skip k = false ∧ g k v = v) → map_members skip g m = m.
Proof.
  intros Hg. unfold map_members. induction m as [|[k v] m IH]; [done|]. csimpl.
  destruct (Hg k v) as [-> ->]; [left|]. f_equal. apply IH. intros k' v' Hin. apply Hg. by right.
Qed.

Lemma canonicalize_inert profile path v : inert profile path → value_wf v → canonicalize profile path v = v.
Proof.
  revert path. induction v as [| | |s|l IH|m IH] using Value_ind; intros path Hi Hv; try done.
  - cbn. destruct (proj2 Hi []) as [Hs _]. rewrite app_nil_r in Hs. by rewrite Hs.
  - cbn [canonicalize]. destruct (proj2 Hi []) as [_ Hs]. rewrite app_nil_r in Hs. rewrite Hs. f_equal.
    apply value_wf_array_inv in Hv. rewrite <-(list_fmap_id l) at 2. apply Forall_fmap_ext_1.
    rewrite Forall_forall in *. intros w Hw. by apply IH; [..|apply Hv].
  - rewrite canonicalize_object by by apply value_wf_object_inv in Hv as [].
    f_equal. apply map_members_id. intros k v Hin. split; [apply Hi|]. apply value_wf_object_inv in Hv as [_ Hv].
    rewrite Forall_forall in *. apply (IH (k, v)); [done|by apply inert_app|]. by apply (Hv (k, v)).
Qed.

Lemma inert_exact path : inert CanonicalProfile_Exact path.
Proof. split; [done|]. intros rest. unfold is_known_semantic_string, is_known_set_array. by destruct (last _). Qed.

Lemma canonicalize_exact v : value_wf v → canonicalize CanonicalProfile_Exact [] v = v.
Proof. apply canonicalize_inert, inert_exact. Qed.

Lemma inert_long profile a b c rest : inert profile (a :: b :: c :: rest).
Proof.
  split; [intros; by apply skipped_nested|]. intros rest'.
  unfold is_known_semantic_string, is_known_set_array. destruct (last _) as [f|]; [|done].
  destruct profile; cbn; rewrite ?bool_decide_eq_false_2 by done; done.
Qed.

Lemma inert_malformed profile name : inert profile [name; "$malformed"].
Proof.
  split; [intros; by apply skipped_nested|]. intros [|c rest].
  - unfold is_known_semantic_string, is_known_set_array. cbn [last app length]. destruct profile; [done|..];
      cbn [matches_known_nested_code nested_in];
      rewrite !(bool_decide_eq_false_2 (2%nat = 1%nat)) by done; rewrite !(bool_decide_eq_false_2 ("$malformed" = "code")) by done;
      cbn [andb orb]; split; try done; unfold one_of; rewrite ?(bool_decide_eq_false_2 ("$malformed" ∈ _)) by set_solver;
      rewrite ?andb_false_r; cbn [orb]; by rewrite !bool_decide_eq_false_2.
  - pose proof (proj2 (inert_long profile name "$malformed" c rest) []) as Hi. by rewrite app_nil_r in Hi.
Qed.

(** A field of a record keeps being decodable. *)
Lemma presence_ok_canonicalize profile name v :
  value_wf v → presence_ok v = true → presence_ok (canonicalize profile [name] v) = true.
Proof.
  intros Hv Hok. destruct v as [| | |s|l|m]; try done.
  - cbn [canonicalize]. by destruct (is_known_semantic_string profile [name]).
  - rewrite canonicalize_object by by apply value_wf_object_inv in Hv as [].
    unfold presence_ok, envelope_of in *. cbn [value_as_object mbind option_bind] in *.
    rewrite obj_get_map, skipped_nested by done. cbn [app].
    destruct (obj_get "$malformed" m) as [e|] eqn:He; [|done]. cbn [fmap option_fmap option_map mbind option_bind] in *.
    rewrite canonicalize_inert by (try apply inert_malformed; by eapply value_wf_get).
    rewrite length_map_members by (intros k; by apply skipped_nested). done.
Qed.

Lemma members_ok_canonicalize profile names m :
  value_wf (Value_Object m) → members_ok names m →
  members_ok names (map_members (skipped profile [] m) (λ k, canonicalize profile ([] ++ [k])) m).
Proof.
  intros Hm Hok name v Hin. rewrite obj_get_map. destruct (skipped _ _ _ _); [done|].
  intros (w & Hw & ->)%fmap_Some. apply presence_ok_canonicalize; [by eapply value_wf_get|by apply (Hok name)].
Qed.

Lemma members_ok_filter (P : string → Prop) `{∀ k, Decision (P k)} names m :
  members_ok names m → members_ok names (filter (λ kv, P kv.1) m).
Proof.
  intros Hok name v Hin Hv. apply (Hok name); [done|]. rewrite (obj_get_filter P) in Hv. by case_decide.
Qed.

Lemma members_ok_remove names key m : members_ok names m → members_ok names (obj_remove key m).
Proof. exact (members_ok_filter (λ k, k ≠ key) names m). Qed.

(** ** Idempotence *)

Lemma is_text_canonicalize profile path v :
  is_text (Some (canonicalize profile path v)) = is_text (Some v).
Proof.
  destruct v as [| | |s|l|m]; try done. cbn [canonicalize]. destruct (is_known_semantic_string _ _); [|done].
  cbn. by rewrite trim_idemp.
Qed.

Lemma is_text_member profile path field v :
  path ≠ [] → value_wf v →
  is_text (member_of field (canonicalize profile path v)) = is_text (member_of field v).
Proof.
  intros Hp Hv. destruct v as [| | |s|l|m]; try done.
  - cbn [canonicalize]. by destruct (is_known_semantic_string _ _).
  - rewrite canonicalize_object by by apply value_wf_object_inv in Hv as [].
    unfold member_of. cbn [value_as_object mbind option_bind]. rewrite obj_get_map, skipped_nested by done.
    destruct (obj_get field m) as [w|]; [|done]. apply is_text_canonicalize.
Qed.

(** The checks of the entries a derived text comes from. *)
Definition entry_check (structured : string) : Value → bool :=
  if bool_decide (structured = "comments") then valid_comment_entry
  else if bool_decide (structured = "instructors") then λ v, is_text (member_of "name" v)
  else valid_cross_list_entry.

Lemma entry_check_canonicalize profile structured path v :
  path ≠ [] → value_wf v →
  entry_check structured (canonicalize profile path v) = entry_check structured v.
Proof.
  intros Hp Hv. unfold entry_check, valid_comment_entry, valid_cross_list_entry.
  repeat case_bool_decide; cbn [existsb]; by rewrite ?is_text_canonicalize, ?is_text_member.
Qed.

(** The derived texts and what they come from. *)
Definition DERIVED_TEXTS : list (string * string) :=
  [("commentsText", "comments"); ("instructorsText", "instructors");
   ("crossListedSectionsText", "crossListedSections")].

Definition check_derived (m : Object) (key structured : string) : bool :=
  match obj_get key m, obj_get structured m with
  | Some (Value_String text), Some (Value_Array values) =>
      match values with
      | [] => bool_decide (trim text = "")
      | _ => forallb (entry_check structured) values
      end
  | _, _ => false
  end.

Lemma derived_check m key :
  derived_text_has_trustworthy_structured_source m key = true ↔
  ∃ structured, (key, structured) ∈ DERIVED_TEXTS ∧ check_derived m key structured = true.
Proof.
  assert (∀ key structured, (key, structured) ∈ DERIVED_TEXTS →
    derived_text_has_trustworthy_structured_source m key = check_derived m key structured) as Heq.
  { clear key. intros key structured Hin. unfold DERIVED_TEXTS in Hin. rewrite !elem_of_cons, elem_of_nil in Hin.
    unfold check_derived, derived_text_has_trustworthy_structured_source.
    destruct Hin as [[= -> ->]|[[= -> ->]|[[= -> ->]|[]]]]; cbn; repeat (case_match; simplify_eq; try done). }
  split.
  - intros Ht. assert (∃ structured, (key, structured) ∈ DERIVED_TEXTS) as [structured Hin].
    { unfold DERIVED_TEXTS. destruct (decide (key = "commentsText")) as [->|N1]; [eexists; in_table|].
      destruct (decide (key = "instructorsText")) as [->|N2]; [eexists; in_table|].
      destruct (decide (key = "crossListedSectionsText")) as [->|N3]; [eexists; in_table|].
      unfold derived_text_has_trustworthy_structured_source in Ht.
      by rewrite !bool_decide_eq_false_2 in Ht by done. }
    exists structured. split; [done|]. by rewrite <-(Heq key structured).
  - intros (structured & Hin & Hc). by rewrite (Heq key structured).
Qed.

Lemma derived_fields key structured :
  (key, structured) ∈ DERIVED_TEXTS →
  one_of key SECTION_STRINGS = true ∧ one_of structured SECTION_SETS = true
  ∧ ∀ m, derived_text_has_trustworthy_structured_source m structured = false.
Proof.
  unfold DERIVED_TEXTS. rewrite !elem_of_cons, elem_of_nil.
  intros [[= -> ->]|[[= -> ->]|[[= -> ->]|[]]]]; by vm_compute.
Qed.

Lemma known_string_field key :
  one_of key SECTION_STRINGS = true →
  is_known_semantic_string CanonicalProfile_SectionSemantic [key] = true.
Proof. intros Hk. unfold is_known_semantic_string. cbn [last length]. by rewrite Hk. Qed.

Lemma known_set_field key :
  one_of key SECTION_SETS = true → is_known_set_array CanonicalProfile_SectionSemantic [key] = true.
Proof. intros Hk. unfold is_known_set_array. cbn [last length]. by rewrite Hk. Qed.

Lemma check_derived_canonicalize m key structured :
  value_wf (Value_Object m) → (key, structured) ∈ DERIVED_TEXTS →
  derived_text_has_trustworthy_structured_source m key = false →
  check_derived (map_members (skipped CanonicalProfile_SectionSemantic [] m)
                   (λ k, canonicalize CanonicalProfile_SectionSemantic ([] ++ [k])) m) key structured
  = check_derived m key structured.
Proof.
  intros Hm Hin Hkeep. destruct (derived_fields key structured Hin) as (Hk & Hs & Hns).
  unfold check_derived. rewrite !obj_get_map, !skipped_top, Hkeep, Hns. cbn [app].
  destruct (obj_get key m) as [[| | |t| |]|] eqn:Et; try done; cbn [fmap option_fmap option_map canonicalize].
  rewrite known_string_field by done. destruct (obj_get structured m) as [[| | |x|l|o]|] eqn:El; try done.
  - cbn [fmap option_fmap option_map canonicalize]. by destruct (is_known_semantic_string _ _).
  - cbn [fmap option_fmap option_map canonicalize]. rewrite known_set_field by done.
    assert (value_wf (Value_Array l)) as Hl%value_wf_array_inv by by eapply value_wf_get.
    destruct l as [|v l]; [cbn; by rewrite trim_idemp|].
    set (canon := canonicalize _ _). set (sorted := sort_by _ (canon <$> v :: l)).
    assert (sorted ≡ₚ canon <$> v :: l) as Hperm by apply sort_by_perm.
    destruct sorted as [|w sorted']; [by apply Permutation_nil_l in Hperm|].
    apply eq_true_iff_eq. rewrite !forallb_forall. split; intros Hall u Hu%list_elem_of_In.
    + rewrite Forall_forall in Hl. rewrite <-(entry_check_canonicalize CanonicalProfile_SectionSemantic structured [structured]) by (done || by apply Hl).
      apply Hall, list_elem_of_In. rewrite Hperm. by apply (list_elem_of_fmap_2 canon).
    + rewrite Hperm in Hu. apply list_elem_of_fmap in Hu as (u' & -> & Hu').
      rewrite Forall_forall in Hl. unfold canon. rewrite entry_check_canonicalize by (done || by apply Hl).
      by apply Hall, list_elem_of_In.
Qed.

Lemma skipped_map m k :
  value_wf (Value_Object m) → skipped CanonicalProfile_SectionSemantic [] m k = false →
  skipped CanonicalProfile_SectionSemantic []
    (map_members (skipped CanonicalProfile_SectionSemantic [] m)
       (λ k, canonicalize CanonicalProfile_SectionSemantic ([] ++ [k])) m) k = false.
Proof.
  intros Hm Hk. rewrite skipped_top in *. apply not_true_iff_false. intros (structured & Hin & Hc)%derived_check.
  rewrite check_derived_canonicalize in Hc by done. apply not_true_iff_false in Hk. apply Hk, derived_check. eauto.
Qed.

(** C20. Canonicalizing twice is canonicalizing once, under every profile and at
    every place of a value: trimming, the order of the set arrays and the
    removal of derived text are settled after the first pass, so that the
    canonical facts the normalizer stores hash to the same value when they are
    canonicalized again. *)
Theorem canonicalize_idempotent profile path v :
  value_wf v → canonicalize profile path (canonicalize profile path v) = canonicalize profile path v.
Proof.
  revert path. induction v as [| | |s|l IH|m IH] using Value_ind; intros path Hv; try done.
  - cbn [canonicalize]. destruct (is_known_semantic_string profile path) eqn:E; cbn [canonicalize]; rewrite E; [|done].
    by rewrite trim_idemp.
  - cbn [canonicalize]. set (canon := canonicalize profile path). apply value_wf_array_inv in Hv.
    assert (∀ k, k ≡ₚ canon <$> l → canon <$> k = k) as Hid.
    { intros k Hk. rewrite <-(list_fmap_id k) at 2. apply Forall_fmap_ext_1. apply Forall_forall. intros w Hw.
      rewrite Hk in Hw. apply list_elem_of_fmap in Hw as (u & -> & Hu). rewrite Forall_forall in *. by apply IH; [|apply Hv]. }
    destruct (is_known_set_array profile path); fold canon.
    + rewrite Hid by apply sort_by_perm. f_equal.
      apply sort_by_id. exact (@sort_by_sorted _ _ (compare_keys_comparator json_to_string) _).
    + by rewrite Hid.
  - pose proof (value_wf_object_inv _ Hv) as [Hs Hall].
    rewrite !canonicalize_object by (try apply map_members_sorted; done). f_equal.
    apply map_members_id. intros k w Hin. apply list_elem_of_omap in Hin as ([k' v] & Hin & Hkv). cbn in Hkv.
    destruct (skipped profile path m k') eqn:Hsk; [done|]. injection Hkv as -> <-. split.
    + destruct profile; [done..|]. destruct path; [|by apply skipped_nested]. by apply skipped_map.
    + rewrite Forall_forall in *. apply (IH (k, v)); [done|]. by apply (Hall (k, v)).
Qed.

(** ** The content of a section, written out apart from the profile *)

(** The texts whose surrounding white space is no content, by their place. *)
Definition TRIMMED_TEXTS : list (list string) :=
  [["campusCode"]; ["commentsText"]; ["crossListedSectionsText"]; ["crossListedSectionType"];
   ["examCode"]; ["examCodeText"]; ["index"]; ["instructorsText"]; ["legendKey"]; ["number"];
   ["openStatusText"]; ["openToText"]; ["printed"]; ["sectionCourseType"]; ["sectionEligibility"];
   ["sectionNotes"]; ["sessionDatePrintIndicator"]; ["sessionDates"]; ["specialPermissionAddCode"];
   ["specialPermissionAddCodeDescription"]; ["specialPermissionDropCode"];
   ["specialPermissionDropCodeDescription"]; ["subtitle"]; ["subtopic"];
   ["comments"]; ["comments"; "code"]; ["comments"; "description"]; ["instructors"; "name"];
   ["crossListedSections"; "code"]; ["honorPrograms"; "code"]; ["majors"; "code"]; ["minors"; "code"];
   ["sectionCampusLocations"; "code"]; ["sectionCampusLocations"; "description"];
   ["unitMajors"; "code"]; ["unitMajors"; "unitCode"]; ["unitMajors"; "majorCode"]].

(** The arrays whose order is no content. *)
Definition UNORDERED_ARRAYS : list (list string) :=
  [["comments"]; ["crossListedSections"]; ["honorPrograms"]; ["instructors"]; ["majors"]; ["minors"];
   ["sectionCampusLocations"]; ["unitMajors"]].

(** A text that says something, as a value or as a member of an object. *)
Definition says (ov : option Value) : Prop := ∃ s, ov = Some (Value_String s) ∧ trim s ≠ "".
Definition says_at (field : string) (v : Value) : Prop := ∃ m, v = Value_Object m ∧ says (obj_get field m).

(** The text [key] only restates the array [structured]: a blank text for an
    empty array, any text for an array each of whose entries says something. *)
Definition restates (m : Object) (key structured : string) (entry : Value → Prop) : Prop :=
  ∃ text l, obj_get key m = Some (Value_String text) ∧ obj_get structured m = Some (Value_Array l)
    ∧ (l = [] → trim text = "") ∧ Forall entry l.

Inductive restated m : string → Prop :=
| restated_comments :
    restates m "commentsText" "comments"
      (λ v, says (Some v) ∨ says_at "code" v ∨ says_at "description" v) →
    restated m "commentsText"
| restated_instructors :
    restates m "instructorsText" "instructors" (says_at "name") → restated m "instructorsText"
| restated_cross_list :
    restates m "crossListedSectionsText" "crossListedSections" (λ v, says (Some v) ∨ says_at "code" v) →
    restated m "crossListedSectionsText".

(** A member that is no content of its object. *)
Definition silent path m k : Prop := obj_get k m = None ∨ path = [] ∧ restated m k.

(** Two values at a place of a section have the same content. *)
Inductive same_content path : Value → Value → Prop :=
| same_null : same_content path Value_Null Value_Null
| same_bool b : same_content path (Value_Bool b) (Value_Bool b)
| same_number n : same_content path (Value_Number n) (Value_Number n)
| same_text s t :
    s = t ∨ path ∈ TRIMMED_TEXTS ∧ trim s = trim t →
    same_content path (Value_String s) (Value_String t)
| same_array l l' k :
    Forall2 (same_content path) l k → k = l' ∨ path ∈ UNORDERED_ARRAYS ∧ k ≡ₚ l' →
    same_content path (Value_Array l) (Value_Array l')
| same_object m m' :
    (∀ k, silent path m k ↔ silent path m' k) →
    (∀ k v w, obj_get k m = Some v → obj_get k m' = Some w → ¬ silent path m k →
       same_content (path ++ [k]) v w) →
    same_content path (Value_Object m) (Value_Object m').

(** A known place is one of the table. *)
Ltac by_place Hp places :=
  rewrite !bool_decide_eq_true, ?elem_of_cons, ?elem_of_nil in Hp; destruct_or?; destruct_and?; destruct_or?;
  simplify_eq; apply (bool_decide_unpack (_ ∈ places)); vm_compute; exact I.

Lemma trimmed_text path :
  is_known_semantic_string CanonicalProfile_SectionSemantic path = true ↔ path ∈ TRIMMED_TEXTS.
Proof.
  split.
  - unfold is_known_semantic_string. intros Hp. destruct path as [|f [|g [|h rest]]]; [done| | |].
    + cbn [last length matches_known_nested_code nested_in] in Hp. rewrite !orb_true_iff, !andb_true_iff in Hp.
      unfold one_of, SECTION_STRINGS in Hp. by_place Hp TRIMMED_TEXTS.
    + cbn [last length matches_known_nested_code nested_in] in Hp. rewrite !orb_true_iff, !andb_true_iff in Hp.
      unfold one_of in Hp. by_place Hp TRIMMED_TEXTS.
    + pose proof (proj1 (proj2 (inert_long CanonicalProfile_SectionSemantic f g h rest) [])) as Hi.
      rewrite app_nil_r in Hi. unfold is_known_semantic_string in Hi. congruence.
  - assert (forallb (is_known_semantic_string CanonicalProfile_SectionSemantic) TRIMMED_TEXTS = true) as Hall by (vm_compute; reflexivity).
    rewrite forallb_forall in Hall. intros Hp. by apply Hall, list_elem_of_In.
Qed.

Lemma unordered_array path :
  is_known_set_array CanonicalProfile_SectionSemantic path = true ↔ path ∈ UNORDERED_ARRAYS.
Proof.
  split.
  - unfold is_known_set_array. intros Hp. destruct path as [|f [|g rest]]; [done| |].
    + cbn [last length] in Hp. rewrite andb_true_iff in Hp. unfold one_of, SECTION_SETS in Hp.
      by_place Hp UNORDERED_ARRAYS.
    + destruct (last (f :: g :: rest)); [|done]. cbn [length] in Hp. by rewrite bool_decide_eq_false_2 in Hp.
  - assert (forallb (is_known_set_array CanonicalProfile_SectionSemantic) UNORDERED_ARRAYS = true) as Hall by (vm_compute; reflexivity).
    rewrite forallb_forall in Hall. intros Hp. by apply Hall, list_elem_of_In.
Qed.

Lemma is_text_says ov : is_text ov = true ↔ says ov.
Proof.
  unfold is_text, says. destruct ov as [[| | |s| |]|]; cbn; try (split; [done|by intros (? & ? & ?)]).
  rewrite negb_true_iff, bool_decide_eq_false. naive_solver.
Qed.

Lemma is_text_says_at field v : is_text (member_of field v) = true ↔ says_at field v.
Proof.
  rewrite is_text_says. unfold says_at, member_of. destruct v as [| | | | |m]; cbn;
    try (split; [by intros (? & ? & ?)|by intros (? & ? & ?)]). naive_solver.
Qed.

Lemma restates_check m key structured (entry : Value → Prop) :
  (∀ v, entry_check structured v = true ↔ entry v) →
  check_derived m key structured = true ↔ restates m key structured entry.
Proof.
  intros He. unfold check_derived, restates.
  destruct (obj_get key m) as [[| | |text| |]|]; try (split; [done|by intros (? & ? & ? & ? & ?)]).
  destruct (obj_get structured m) as [[| | | |l|]|]; try (split; [done|by intros (? & ? & ? & ? & ?)]).
  assert (forallb (entry_check structured) l = true ↔ Forall entry l) as Hl.
  { rewrite forallb_forall, Forall_forall. setoid_rewrite <-list_elem_of_In. by setoid_rewrite He. }
  destruct l as [|v l].
  - rewrite bool_decide_eq_true. split; [|by intros (? & ? & [= ->] & [= <-] & Ht & _); apply Ht].
    intros Ht. exists text, []. auto.
  - rewrite Hl. split; [|by intros (? & ? & [= ->] & [= <-] & _ & ?)].
    intros Ht. exists text, (v :: l). split_and!; done.
Qed.

Lemma restated_derived m k : derived_text_has_trustworthy_structured_source m k = true ↔ restated m k.
Proof.
  rewrite derived_check.
  assert (∀ v, entry_check "comments" v = true ↔ says (Some v) ∨ says_at "code" v ∨ says_at "description" v) as HA.
  { intros v. change (entry_check "comments" v) with (valid_comment_entry v). unfold valid_comment_entry. cbn [existsb].
    by rewrite orb_false_r, !orb_true_iff, is_text_says, !is_text_says_at. }
  assert (∀ v, entry_check "instructors" v = true ↔ says_at "name" v) as HB by (intros v; apply is_text_says_at).
  assert (∀ v, entry_check "crossListedSections" v = true ↔ says (Some v) ∨ says_at "code" v) as HC.
  { intros v. change (entry_check "crossListedSections" v) with (valid_cross_list_entry v). unfold valid_cross_list_entry.
    by rewrite !orb_true_iff, is_text_says, is_text_says_at. }
  unfold DERIVED_TEXTS. split.
  - intros (structured & Hin & Hc). rewrite !elem_of_cons, elem_of_nil in Hin.
    destruct Hin as [[= -> ->]|[[= -> ->]|[[= -> ->]|[]]]]; constructor;
      first [by apply (proj1 (restates_check m _ _ _ HA))|by apply (proj1 (restates_check m _ _ _ HB))|by apply (proj1 (restates_check m _ _ _ HC))].
  - intros [Hr|Hr|Hr];
      [apply (restates_check m _ _ _ HA) in Hr|apply (restates_check m _ _ _ HB) in Hr|apply (restates_check m _ _ _ HC) in Hr];
      (eexists; split; [|exact Hr]); in_table.
Qed.

Lemma silent_skipped path m k :
  silent path m k ↔ skipped CanonicalProfile_SectionSemantic path m k = true ∨ obj_get k m = None.
Proof.
  unfold silent, skipped. cbn [andb]. rewrite andb_true_iff, bool_decide_eq_true, restated_derived. tauto.
Qed.

Lemma silent_member path m k (g : Value → Value) :
  silent path m k ↔ (if skipped CanonicalProfile_SectionSemantic path m k then None else g <$> obj_get k m) = None.
Proof. rewrite silent_skipped. destruct (skipped _ path m k); [naive_solver|]. rewrite fmap_None. naive_solver. Qed.

Lemma not_silent path m k :
  ¬ silent path m k → skipped CanonicalProfile_SectionSemantic path m k = false ∧ ∃ v, obj_get k m = Some v.
Proof.
  rewrite silent_skipped. intros Hn. split; [apply not_true_iff_false; tauto|]. destruct (obj_get k m); [by eexists|]. tauto.
Qed.

Context `{!JsonTextLaws}.

Lemma sort_json_perm (l l' : list Value) :
  sort_by (compare_keys json_to_string) l = sort_by (compare_keys json_to_string) l' ↔ l ≡ₚ l'.
Proof.
  split; intros Heq.
  - by rewrite <-(sort_by_perm (compare_keys json_to_string) l), Heq, sort_by_perm.
  - apply (@sort_by_unique _ _ (compare_keys_comparator json_to_string) (λ _, True)); [|by apply Forall_true|done].
    intros x y _ _ Hxy. unfold compare_keys in Hxy. apply rcmp_eq in Hxy. by apply json_to_string_inj.
Qed.

(** What is shown of the values below a value, by induction. *)
Definition decides_content (v : Value) : Prop :=
  ∀ path w, value_wf v → value_wf w →
    canonicalize CanonicalProfile_SectionSemantic path v = canonicalize CanonicalProfile_SectionSemantic path w
    ↔ same_content path v w.

Lemma same_entries path l k :
  Forall decides_content l → Forall value_wf l → Forall value_wf k →
  canonicalize CanonicalProfile_SectionSemantic path <$> l = canonicalize CanonicalProfile_SectionSemantic path <$> k
  ↔ Forall2 (same_content path) l k.
Proof.
  intros Hl. revert k. induction Hl as [|v l Hv Hl IH]; intros [|w k] Hwl Hwk; csimpl; try (split; [done|intros Hf; by inversion Hf]).
  apply Forall_cons in Hwl as [Hwv Hwl], Hwk as [Hww Hwk]. rewrite Forall2_cons, <-IH, <-(Hv path w) by done.
  split; [by intros [= ? ?]|]. intros [-> ->]. done.
Qed.

Lemma same_arrays path l l' :
  Forall decides_content l → value_wf (Value_Array l) → value_wf (Value_Array l') →
  canonicalize CanonicalProfile_SectionSemantic path (Value_Array l)
  = canonicalize CanonicalProfile_SectionSemantic path (Value_Array l') ↔ same_content path (Value_Array l) (Value_Array l').
Proof.
  intros Hl Hw%value_wf_array_inv Hw'%value_wf_array_inv. cbn [canonicalize].
  destruct (is_known_set_array CanonicalProfile_SectionSemantic path) eqn:Hset.
  - transitivity (canonicalize CanonicalProfile_SectionSemantic path <$> l ≡ₚ canonicalize CanonicalProfile_SectionSemantic path <$> l').
    { rewrite <-sort_json_perm. split; [by intros [=]|by intros ->]. }
    apply unordered_array in Hset. split.
    + intros (k & Hk & Hp)%Permutation_map_inv. apply same_array with k; [|by right].
      apply same_entries; [done..| |done]. by rewrite <-Hp.
    + intros Hs. inversion_clear Hs as [| | | |? ? k Hk Hp|]. assert (k ≡ₚ l') as Hp' by by destruct Hp as [->|[_ ?]].
      apply same_entries in Hk; [|done|done|by rewrite Hp']. by rewrite Hk, Hp'.
  - split.
    + intros [= Heq]. apply same_array with l'; [by apply same_entries|by left].
    + intros Hs. inversion_clear Hs as [| | | |? ? k Hk Hp|]. destruct Hp as [->|[Hin%unordered_array _]]; [|congruence].
      apply same_entries in Hk; [|done..]. by rewrite Hk.
Qed.

Lemma same_objects path m m' :
  Forall (λ kv, decides_content kv.2) m → value_wf (Value_Object m) → value_wf (Value_Object m') →
  canonicalize CanonicalProfile_SectionSemantic path (Value_Object m)
  = canonicalize CanonicalProfile_SectionSemantic path (Value_Object m') ↔ same_content path (Value_Object m) (Value_Object m').
Proof.
  intros Hl Hw Hw'. pose proof (proj1 (value_wf_object_inv _ Hw)) as Hs. pose proof (proj1 (value_wf_object_inv _ Hw')) as Hs'.
  rewrite !canonicalize_object by done. set (g := λ k, canonicalize CanonicalProfile_SectionSemantic (path ++ [k])).
  transitivity (∀ k, (if skipped CanonicalProfile_SectionSemantic path m k then None else g k <$> obj_get k m)
                     = (if skipped CanonicalProfile_SectionSemantic path m' k then None else g k <$> obj_get k m')).
  { split; [intros [= Heq] k; by rewrite <-!obj_get_map, Heq|]. intros Hk. f_equal.
    apply obj_ext; [by apply map_members_sorted..|]. intros k. by rewrite !obj_get_map. }
  assert (∀ k v w, obj_get k m = Some v → obj_get k m' = Some w → g k v = g k w ↔ same_content (path ++ [k]) v w) as Hmem.
  { intros k v w Hv Hv'. rewrite Forall_forall in Hl. apply (Hl (k, v)); [by apply obj_get_elem|eapply value_wf_get; [exact Hw|done]|eapply value_wf_get; [exact Hw'|done]]. }
  split.
  - intros Hk. constructor.
    + intros k. by rewrite !(silent_member _ _ _ (g k)), Hk.
    + intros k v w Hv Hv' Hsil. specialize (Hk k). apply (Hmem k); [done..|].
      assert (¬ silent path m' k) as Hsil' by by rewrite (silent_member _ _ _ (g k)), <-Hk, <-(silent_member _ _ _ (g k)).
      apply not_silent in Hsil as [E1 _], Hsil' as [E2 _]. rewrite E1, E2, Hv, Hv' in Hk. by injection Hk.
  - intros Hc k. inversion_clear Hc as [| | | | |? ? Hsil Hval]. specialize (Hsil k). specialize (Hval k).
    destruct (if skipped CanonicalProfile_SectionSemantic path m k then _ else _) as [x|] eqn:Ex.
    + assert (¬ silent path m k) as Hn by by rewrite (silent_member _ _ _ (g k)), Ex.
      destruct (not_silent path m k Hn) as (E1 & v & Ev), (not_silent path m' k) as (E2 & w & Ew); [by rewrite <-Hsil|].
      rewrite E1, Ev in Ex. rewrite E2, Ew. rewrite <-Ex. cbn. f_equal. apply (Hmem k v w); [done..|]. by apply Hval.
    + symmetry. by apply silent_member, Hsil, (silent_member _ _ _ (g k)).
Qed.

Lemma canonical_content v : decides_content v.
Proof.
  induction v as [|b|n|s|l IH|m IH] using Value_ind; intros path w Hv Hw;
    destruct w as [|b'|n'|t|l'|m']; cbn [canonicalize];
    try (split; [by repeat case_match|by intros Hc; inversion Hc]).
  1-3: split; [by intros [=]; subst; constructor|by intros Hc; inversion Hc].
  - transitivity (s = t ∨ path ∈ TRIMMED_TEXTS ∧ trim s = trim t).
    + rewrite <-trimmed_text. destruct (is_known_semantic_string _ path).
      * split; [by intros [=]; right|]. by intros [->|[_ ->]].
      * split; [by intros [=]; left|]. by intros [->|[? _]].
    + split; [by constructor|]. intros Hc. by inversion Hc.
  - by apply same_arrays.
  - by apply same_objects.
Qed.

(** The text whose digest the hash of a section is, its tag apart. *)
Definition section_text (v : Value) : string := json_to_string (canonical_section_semantic_value_v1 v).

(** C21. The semantic hash of a section is the hash of its content: the hashes of
    two sections are equal exactly when the sections have the same content -
    the same members with the same values, up to the order of the comments,
    cross-listed sections, honor programs, instructors, majors, minors, campus
    locations and unit majors, the white space around the known texts, and the
    wording of a derived text that only restates its array - or when the two
    texts that are hashed differ and are a collision of the digest. *)
Theorem section_semantic_hash_content (v w : Value) :
  value_wf v → value_wf w →
  canonical_section_semantic_hash_v1 v = canonical_section_semantic_hash_v1 w
  ↔ same_content [] v w
    ∨ section_text v ≠ section_text w
      ∧ sha256_hex (("bcsp-catalog/section-semantic/v1" +:+ nul) +:+ section_text v)
        = sha256_hex (("bcsp-catalog/section-semantic/v1" +:+ nul) +:+ section_text w).
Proof.
  intros Hv Hw. rewrite <-(canonical_content v [] w Hv Hw). fold (canonical_section_semantic_value_v1 v).
  fold (canonical_section_semantic_value_v1 w). split.
  - intros [= Heq]. destruct (decide (section_text v = section_text w)) as [He|He]; [|by right].
    left. by apply json_to_string_inj.
  - unfold canonical_section_semantic_hash_v1, hash_tagged, from_digest_bytes. intros [->|[_ Heq]]; [done|]. by f_equal.
Qed.

End canonical_facts.

(** ** Witnesses *)

#[local] Existing Instance concrete_sha256_api.
#[local] Existing Instance concrete_number_api.
#[local] Existing Instance concrete_json_text.

Lemma canonicalize_idempotent_witness :
  let v := Value_Object (obj_of [("number", Value_String " 01 "); ("comments", Value_Array [Value_String "b"; Value_String "a"])]) in
  canonicalize CanonicalProfile_SectionSemantic [] v ≠ v
  ∧ canonicalize CanonicalProfile_SectionSemantic [] (canonicalize CanonicalProfile_SectionSemantic [] v)
    = canonicalize CanonicalProfile_SectionSemantic [] v.
Proof.
  split; [vm_compute; discriminate|]. apply canonicalize_idempotent, value_wf_obj_of. repeat constructor.
Defined.



(** A section whose minors are in another order, whose course type is padded
    and whose comments are worded otherwise, and one of another number. *)
Definition section_sample (kind wording : string) (minors : list Value) (number : string) : Value :=
  Value_Object (obj_of
    [("sectionCourseType", Value_String kind); ("number", Value_String number); ("minors", Value_Array minors);
     ("commentsText", Value_String wording); ("comments", Value_Array [Value_String "Hybrid"])]).

Lemma section_semantic_hash_content_witness :
  let one := section_sample "T" "Hybrid." [Value_String "b"; Value_String "a"] "01" in
  let other := section_sample " T " "hybrid section" [Value_String "a"; Value_String "b"] "01" in
  value_wf one ∧ value_wf other ∧
  (canonical_section_semantic_hash_v1 one = canonical_section_semantic_hash_v1 other
   ↔ same_content [] one other
     ∨ section_text one ≠ section_text other
       ∧ sha256_hex (("bcsp-catalog/section-semantic/v1" +:+ nul) +:+ section_text one)
         = sha256_hex (("bcsp-catalog/section-semantic/v1" +:+ nul) +:+ section_text other))
  ∧ section_text one = section_text other.
Proof.
  intros one other. assert (value_wf one ∧ value_wf other) as [H1 H2] by (split; apply value_wf_obj_of; repeat constructor).
  split_and!; [done..| |vm_compute; reflexivity].
  pose proof concrete_json_text_laws. by apply section_semantic_hash_content.
Defined.
