(* ===== verification/Delivery.v ===== *)
(** * Delivery facts (crates/bcsp-catalog/src/delivery.rs)

    The days and times of a meeting, its modality, evidence and synchronicity,
    and the classification of a section by its occurrences. *)

From S2P Require Import Prelude Identity Contracts RustStr OpenClient Json RawCatalog CatalogModel Canonical.

(** ** Days *)

(** The day of one letter. *)
Definition weekday_of_byte (c : Ascii.ascii) : option Weekday :=
  if byte_is 77 c then Some Weekday_Monday
  else if byte_is 84 c then Some Weekday_Tuesday
  else if byte_is 87 c then Some Weekday_Wednesday
  else if byte_is 72 c then Some Weekday_Thursday
  else if byte_is 70 c then Some Weekday_Friday
  else if byte_is 83 c then Some Weekday_Saturday
  else if byte_is 85 c then Some Weekday_Sunday
  else None.

(** The loop over the bytes of the token: [TH] is one day. *)
Fixpoint weekday_tokens (token : string) : option (list Weekday) :=
  match token with
  | EmptyString => Some []
  | String a s1 =>
      let single := weekday ← weekday_of_byte a; (weekday ::.) <$> weekday_tokens s1 in
      match s1 with
      | String b s2 =>
          if byte_is 84 a && byte_is 72 b then (Weekday_Thursday ::.) <$> weekday_tokens s2 else single
      | EmptyString => single
      end
  end.

Definition parse_weekdays (raw : Presence string) : DayKnowledge :=
  match raw with
  | Presence_Missing => DayKnowledge_Missing
  | Presence_Null => DayKnowledge_Null
  | Presence_Malformed _ => DayKnowledge_Invalid
  | Presence_Value raw =>
      if bool_decide (raw = "") then DayKnowledge_Empty
      else
        let token := to_ascii_uppercase (trim raw) in
        if bool_decide (token = "") then DayKnowledge_Empty
        else match weekday_tokens token with
             | Some days => DayKnowledge_Known (WeekdaySet_new days)
             | None => DayKnowledge_Invalid
             end
  end.

(** ** Times *)

Definition parse_military (value : string) (allow_end_of_day : bool) : option Z :=
  if bool_decide (String.length value ≠ 4%nat) || negb (forallb is_ascii_digit (bytes value)) then None
  else
    let hour := decimal_value (String.substring 0 2 value) in
    let minute := decimal_value (String.substring 2 2 value) in
    if allow_end_of_day && bool_decide (hour = 24) && bool_decide (minute = 0) then Some 1440
    else if bool_decide (hour < 24) && bool_decide (minute < 60) then Some (hour * 60 + minute)
    else None.

Definition normalize_time (start end_ : Presence string) : TimeKnowledge :=
  match start, end_ with
  | Presence_Missing, Presence_Missing => TimeKnowledge_Missing
  | Presence_Null, Presence_Null => TimeKnowledge_Null
  | Presence_Malformed _, _ | _, Presence_Malformed _ => TimeKnowledge_Invalid
  | Presence_Value start, Presence_Value end_ =>
      if bool_decide (start = "") && bool_decide (end_ = "") then TimeKnowledge_Empty
      else if negb (bool_decide (start = "")) && negb (bool_decide (end_ = ""))
      then match parse_military start false with
           | None => TimeKnowledge_Invalid
           | Some start_minute =>
               match parse_military end_ true with
               | None => TimeKnowledge_Invalid
               | Some end_minute =>
                   if bool_decide (end_minute ≤ start_minute) then TimeKnowledge_Invalid
                   else TimeKnowledge_Known start_minute end_minute
               end
           end
      else TimeKnowledge_Partial
  | _, _ => TimeKnowledge_Partial
  end.

(** ** Occurrences *)

Definition trimmed_value (value : Presence string) : option string := trim <$> presence_value value.

Definition FROZEN_MODE_CODES : list string :=
  ["02"; "03"; "04"; "05"; "06"; "07"; "08"; "09"; "10"; "11"; "12"; "14"; "15"; "16"; "18"; "19";
   "20"; "21"; "23"; "26"; "27"; "28"; "29"; "80"; "81"; "82"; "83"; "90"; "91"; "92"; "93"; "99"].

Definition is_frozen_observed_mode_code (code : string) : bool := one_of code FROZEN_MODE_CODES.

(** [matches!(value, Some("a" | "b" | ..))]. *)
Definition is_some_of (value : option string) (names : list string) : bool :=
  match value with Some value => one_of value names | None => false end.

Definition is_known_time (t : TimeKnowledge) : bool :=
  match t with TimeKnowledge_Known _ _ => true | _ => false end.

(** [matches!(time, Empty | Missing | Null)]. *)
Definition is_no_time (t : TimeKnowledge) : bool :=
  match t with TimeKnowledge_Empty | TimeKnowledge_Missing | TimeKnowledge_Null => true | _ => false end.

(** The facts of a meeting the derivation rests on: the local variables of
    [normalize_occurrence]. *)
Record MeetingEvidence := {
  mev_code : option string;
  mev_observed_code : bool;
  mev_mode_remote : bool;
  mev_location_remote : bool;
  mev_location_physical : bool;
  mev_by_arrangement : bool;
  mev_online_hours_by_arrangement : bool;
  mev_onsite_hours_by_arrangement : bool
}.

Section delivery.
Context `{Sha256Api, JsonText}.

Definition meeting_evidence (raw : RawMeeting) (time : TimeKnowledge) : MeetingEvidence :=
  let code := trimmed_value (rme_meeting_mode_code raw) in
  let campus_location := trimmed_value (rme_campus_location raw) in
  let observed_code := match code with Some code => is_frozen_observed_mode_code code | None => false end in
  let mode_remote := observed_code && is_some_of code ["90"; "92"; "93"] in
  let location_remote := is_some_of campus_location ["O"; "T"] in
  let location_physical :=
    match campus_location with
    | Some location => negb (bool_decide (location = "")) && negb (one_of location ["O"; "T"])
    | None => false
    end in
  let hours_b := is_some_of (trimmed_value (rme_ba_class_hours raw)) ["B"] in
  {| mev_code := code;
     mev_observed_code := observed_code;
     mev_mode_remote := mode_remote;
     mev_location_remote := location_remote;
     mev_location_physical := location_physical;
     mev_by_arrangement := hours_b && is_some_of campus_location ["O"; "T"] && is_no_time time;
     mev_online_hours_by_arrangement := is_some_of code ["90"] && hours_b && is_no_time time;
     mev_onsite_hours_by_arrangement :=
       hours_b && negb location_remote && negb mode_remote && is_no_time time |}.

Definition occurrence_evidence (e : MeetingEvidence) : OccurrenceEvidence :=
  if mev_observed_code e && (mev_mode_remote e || mev_location_remote e) then OccurrenceEvidence_Remote
  else if mev_observed_code e && mev_location_physical e && negb (mev_mode_remote e)
  then OccurrenceEvidence_Physical
  else OccurrenceEvidence_None.

Definition occurrence_kind (e : MeetingEvidence) (time : TimeKnowledge) : OccurrenceKind :=
  if mev_by_arrangement e then OccurrenceKind_ByArrangement
  else if is_known_time time then OccurrenceKind_Scheduled
  else OccurrenceKind_Unspecified.

Definition occurrence_synchronicity (e : MeetingEvidence) (time : TimeKnowledge) : Synchronicity :=
  if is_some_of (mev_code e) ["92"] then Synchronicity_Synchronous
  else if is_some_of (mev_code e) ["93"] then Synchronicity_Asynchronous
  else if is_some_of (mev_code e) ["90"] && is_known_time time then Synchronicity_Synchronous
  else if is_some_of (mev_code e) ["90"] && mev_online_hours_by_arrangement e
  then Synchronicity_Asynchronous
  else if is_some_of (mev_code e) ["90"] then Synchronicity_Unspecified
  else if mev_observed_code e && is_known_time time then Synchronicity_Synchronous
  else if mev_observed_code e && mev_by_arrangement e then Synchronicity_Unspecified
  else if mev_observed_code e && mev_onsite_hours_by_arrangement e then Synchronicity_ByArrangement
  else Synchronicity_Unknown.

Definition occurrence_modality (e : MeetingEvidence) : OccurrenceModality :=
  if negb (mev_observed_code e) then OccurrenceModality_Unknown
  else if mev_mode_remote e && mev_location_physical e then OccurrenceModality_UnknownConflict
  else if is_some_of (mev_code e) ["91"] then OccurrenceModality_Hybrid
  else if is_some_of (mev_code e) ["90"; "92"; "93"] then OccurrenceModality_Online
  else if mev_location_remote e then OccurrenceModality_Online
  else if mev_location_physical e then OccurrenceModality_OnCampusOrInPerson
  else OccurrenceModality_Unknown.

Definition normalization_reason (e : MeetingEvidence) (time : TimeKnowledge)
    (modality : OccurrenceModality) : string :=
  if negb (mev_observed_code e) then "UNRECOGNIZED_MODE_TUPLE"
  else if bool_decide (modality = OccurrenceModality_UnknownConflict) then "MODE_LOCATION_CONFLICT"
  else if is_some_of (mev_code e) ["90"] && is_known_time time then "ONLINE_SCHEDULED_SYNCHRONOUS"
  else if is_some_of (mev_code e) ["90"] && mev_online_hours_by_arrangement e
  then "ONLINE_BY_ARRANGEMENT_ASYNCHRONOUS"
  else if is_some_of (mev_code e) ["90"] then "GENERIC_ONLINE_UNSPECIFIED"
  else if is_some_of (mev_code e) ["91"] then "EXPLICIT_HYBRID"
  else if is_some_of (mev_code e) ["92"] then "EXPLICIT_REMOTE_SYNCHRONOUS"
  else if is_some_of (mev_code e) ["93"] then "EXPLICIT_REMOTE_ASYNCHRONOUS"
  else if mev_by_arrangement e then "OFFICIAL_BY_ARRANGEMENT"
  else if mev_onsite_hours_by_arrangement e then "OFFICIAL_BY_ARRANGEMENT_ONSITE"
  else match time with
       | TimeKnowledge_Known _ _ => "SCHEDULED_DAY_TIME"
       | TimeKnowledge_Partial => "PARTIAL_TIME"
       | TimeKnowledge_Invalid => "INVALID_TIME"
       | _ => "INSUFFICIENT_OCCURRENCE_EVIDENCE"
       end.

Definition normalize_occurrence (raw : RawMeeting) (source_ordinal : Z) : NormalizedOccurrence :=
  let canonical_facts := RawMeeting_to_value raw in
  let time := normalize_time (rme_start_time_military raw) (rme_end_time_military raw) in
  let e := meeting_evidence raw time in
  {| noe_source_ordinal := source_ordinal;
     noe_raw_hash := canonical_occurrence_hash_v1 canonical_facts;
     noe_raw_day := rme_meeting_day raw;
     noe_days := parse_weekdays (rme_meeting_day raw);
     noe_raw_start_time_military := rme_start_time_military raw;
     noe_raw_end_time_military := rme_end_time_military raw;
     noe_time := time;
     noe_requiredness := Requiredness_UnknownRequiredness;
     noe_kind := occurrence_kind e time;
     noe_raw_mode_code := rme_meeting_mode_code raw;
     noe_raw_mode_description := rme_meeting_mode_desc raw;
     noe_modality := occurrence_modality e;
     noe_synchronicity := occurrence_synchronicity e time;
     noe_evidence := occurrence_evidence e;
     noe_raw_campus_location := rme_campus_location raw;
     noe_raw_building_code := rme_building_code raw;
     noe_raw_room_number := rme_room_number raw;
     noe_normalization_reason := normalization_reason e time (occurrence_modality e);
     noe_canonical_facts := canonical_facts |}.

(** ** Sections *)

Definition section_modality (section_type : option string) (has_remote has_physical : bool)
    : DeliveryModality :=
  if is_some_of section_type ["T"] then
    if has_remote then DeliveryModality_UnknownConflict else DeliveryModality_OnCampusOrInPerson
  else if is_some_of section_type ["H"] then DeliveryModality_Hybrid
  else if is_some_of section_type ["O"] then
    if has_physical then DeliveryModality_UnknownConflict else DeliveryModality_Online
  else DeliveryModality_Unknown.

Definition is_timed (s : Synchronicity) : bool :=
  match s with Synchronicity_Synchronous | Synchronicity_Asynchronous => true | _ => false end.

Definition section_synchronicity (occurrences : list NormalizedOccurrence) : Synchronicity :=
  match noe_synchronicity <$> head occurrences with
  | None => Synchronicity_Unknown
  | Some first =>
      if forallb (λ o, bool_decide (noe_synchronicity o = first)) occurrences then first
      else if forallb (λ o, is_timed (noe_synchronicity o)) occurrences then Synchronicity_Mixed
      else Synchronicity_Unknown
  end.

Definition classify_delivery (section_type : Presence string) (occurrences : list NormalizedOccurrence)
    : DeliveryModality * Synchronicity :=
  let has_remote := existsb (λ o, bool_decide (noe_evidence o = OccurrenceEvidence_Remote)) occurrences in
  let has_physical := existsb (λ o, bool_decide (noe_evidence o = OccurrenceEvidence_Physical)) occurrences in
  (section_modality (trimmed_value section_type) has_remote has_physical,
   section_synchronicity occurrences).

End delivery.
