(* ===== verification/DeliveryFacts.v ===== *)
(** * Facts about delivery

    The range of a normalized time, the agreement of the facts of an occurrence
    with each other, and the classification of a section. *)

From S2P Require Import Prelude Identity Contracts RustStr OpenClient Ordering Json RawCatalog CatalogModel Canonical Delivery.

(** ** Times *)

Lemma digit_value_bounds c : is_ascii_digit c = true → 0 ≤ digit_value c ≤ 9.
Proof.
  unfold is_ascii_digit, byte_in, digit_value. rewrite andb_true_iff, !N.leb_le. lia.
Qed.

Lemma four_digits value :
  String.length value = 4%nat → forallb is_ascii_digit (bytes value) = true →
  ∃ a b c d, 0 ≤ a ≤ 9 ∧ 0 ≤ b ≤ 9 ∧ 0 ≤ c ≤ 9 ∧ 0 ≤ d ≤ 9 ∧
    decimal_value (String.substring 0 2 value) = a * 10 + b ∧
    decimal_value (String.substring 2 2 value) = c * 10 + d.
Proof.
  destruct value as [|a [|b [|c [|d [|]]]]]; cbn [String.length]; try discriminate. intros _ Hd.
  cbn in Hd. rewrite !andb_true_iff in Hd. destruct Hd as (Ha & Hb & Hc & Hd & _).
  exists (digit_value a), (digit_value b), (digit_value c), (digit_value d).
  split_and!; try (by apply digit_value_bounds); unfold decimal_value; cbn; lia.
Qed.

Lemma parse_military_bounds value end_of_day minute :
  parse_military value end_of_day = Some minute →
  0 ≤ minute ≤ 1440 ∧ (end_of_day = false → minute < 1440).
Proof.
  unfold parse_military. case_bool_decide as Hl; cbn [orb]; [done|].
  destruct (forallb is_ascii_digit (bytes value)) eqn:Hd; cbn [negb]; [|done].
  destruct (four_digits value) as (a & b & c & d & Ha & Hb & Hc & Hd' & -> & ->); [lia|done|].
  destruct end_of_day; cbn [andb]; repeat case_bool_decide; cbn [andb]; intros E; simplify_eq; lia.
Qed.

Definition time_in_range (t : TimeKnowledge) : Prop :=
  match t with
  | TimeKnowledge_Known start_minute end_minute => 0 ≤ start_minute < end_minute ∧ end_minute ≤ 1440
  | _ => True
  end.

Lemma normalize_time_range start end_ : time_in_range (normalize_time start end_).
Proof.
  unfold normalize_time. repeat case_match; cbn; try done.
  match goal with Hs : parse_military _ false = Some _, He : parse_military _ true = Some _ |- _ =>
    apply parse_military_bounds in Hs as [Hs _]; apply parse_military_bounds in He as [He _] end.
  case_bool_decide; [done|]. lia.
Qed.

Definition time_text (hour minute : Z) : string :=
  let digit n := String (Ascii.ascii_of_N (Z.to_N (48 + n))) "" in
  digit (hour / 10) +:+ digit (hour mod 10) +:+ digit (minute / 10) +:+ digit (minute mod 10).

Lemma parse_time_text : ∀ hour minute, 0 ≤ hour < 24 → 0 ≤ minute < 60 →
  ∀ end_of_day, parse_military (time_text hour minute) end_of_day = Some (hour * 60 + minute).
Proof.
  assert (forallb (λ n, forallb (λ b, bool_decide
    (parse_military (time_text (Z.of_nat n / 60) (Z.of_nat n mod 60)) b = Some (Z.of_nat n))) [true; false])
    (seq 0 1440) = true) as Hall by (vm_compute; done).
  intros hour minute Hh Hm end_of_day. rewrite forallb_forall in Hall.
  specialize (Hall (Z.to_nat (hour * 60 + minute))). rewrite Z2Nat.id in Hall by lia.
  assert ((hour * 60 + minute) / 60 = hour) as Hd by (symmetry; apply Z.div_unique with minute; lia).
  assert ((hour * 60 + minute) mod 60 = minute) as Hmod by (symmetry; apply Z.mod_unique with hour; lia).
  rewrite Hd, Hmod in Hall. assert (In (Z.to_nat (hour * 60 + minute)) (seq 0 1440)) as Hin by (apply in_seq; lia).
  specialize (Hall Hin). rewrite forallb_forall in Hall.
  assert (In end_of_day [true; false]) as Hb by (destruct end_of_day; cbn; auto).
  specialize (Hall end_of_day Hb). by apply bool_decide_eq_true in Hall.
Qed.

(** C24. Times of day are exact and in range: a meeting time is known only when
    0 <= start < end <= 1440 minutes, every pair of four-digit times of one day
    in the right order is read as exactly its minutes, and the end 2400 is
    midnight. *)
Theorem normalize_time_exact :
  (∀ start end_, time_in_range (normalize_time start end_))
  ∧ (∀ h m h' m', 0 ≤ h < 24 → 0 ≤ m < 60 → 0 ≤ h' < 24 → 0 ≤ m' < 60 → h * 60 + m < h' * 60 + m' →
       normalize_time (Presence_Value (time_text h m)) (Presence_Value (time_text h' m'))
       = TimeKnowledge_Known (h * 60 + m) (h' * 60 + m'))
  ∧ (∀ h m, 0 ≤ h < 24 → 0 ≤ m < 60 →
       normalize_time (Presence_Value (time_text h m)) (Presence_Value "2400")
       = TimeKnowledge_Known (h * 60 + m) 1440).
Proof.
  split_and!; [apply normalize_time_range|intros h m h' m' Hh Hm Hh' Hm' Hlt|intros h m Hh Hm];
    cbn [normalize_time]; rewrite !bool_decide_eq_false_2 by done; cbn [andb negb].
  - rewrite !parse_time_text by done. by rewrite bool_decide_eq_false_2 by lia.
  - rewrite parse_time_text by done. change (parse_military "2400" true) with (Some 1440).
    cbv iota beta. by rewrite bool_decide_eq_false_2 by lia.
Qed.

(** ** Occurrences *)

Section occurrence_facts.
Context `{Sha256Api, JsonText}.
Implicit Types (raw : RawMeeting) (o : NormalizedOccurrence).

Lemma one_of_elem field names : one_of field names = true ↔ field ∈ names.
Proof. apply bool_decide_eq_true. Qed.

Lemma is_some_of_Some value names : is_some_of value names = true ↔ ∃ x, value = Some x ∧ x ∈ names.
Proof.
  destruct value as [x|]; cbn; [|by split; [|intros (?&?&?)]]. rewrite one_of_elem. naive_solver.
Qed.

Lemma is_some_of_1 value x : is_some_of value [x] = true ↔ value = Some x.
Proof. rewrite is_some_of_Some. setoid_rewrite list_elem_of_singleton. naive_solver. Qed.

(** What the derivation needs to know about the code and the location. *)
Record evidence_ok (e : MeetingEvidence) (time : TimeKnowledge) : Prop := {
  ev_location : mev_location_remote e = true → mev_location_physical e = false;
  ev_mode : mev_mode_remote e = mev_observed_code e && is_some_of (mev_code e) ["90"; "92"; "93"];
  ev_observed : mev_observed_code e = is_some_of (mev_code e) FROZEN_MODE_CODES;
  ev_by_arrangement : mev_by_arrangement e = true → is_known_time time = false ∧ mev_location_remote e = true;
  ev_online : mev_online_hours_by_arrangement e = true → is_known_time time = false;
  ev_onsite : mev_onsite_hours_by_arrangement e = true →
    is_known_time time = false ∧ mev_location_remote e = false ∧ mev_mode_remote e = false
}.

Lemma no_time_not_known t : is_no_time t = true → is_known_time t = false.
Proof. by destruct t. Qed.

Lemma meeting_evidence_ok raw time : evidence_ok (meeting_evidence raw time) time.
Proof.
  split; cbn.
  - intros (l & -> & Hl)%is_some_of_Some. apply one_of_elem in Hl. rewrite Hl. by rewrite andb_false_r.
  - done.
  - done.
  - rewrite !andb_true_iff. intros [[_ ?] ?%no_time_not_known]. done.
  - rewrite !andb_true_iff. by intros [_ ?%no_time_not_known].
  - rewrite !andb_true_iff, !negb_true_iff. by intros [[[_ ?] ?] ?%no_time_not_known].
Qed.

(** The delivery facts of an occurrence agree with each other. *)
Record occurrence_consistent (o : NormalizedOccurrence) : Prop := {
  oc_scheduled : noe_kind o = OccurrenceKind_Scheduled ↔ is_known_time (noe_time o) = true;
  oc_time : time_in_range (noe_time o);
  oc_never_mixed : noe_synchronicity o ≠ Synchronicity_Mixed;
  oc_physical : noe_evidence o = OccurrenceEvidence_Physical →
    noe_modality o = OccurrenceModality_OnCampusOrInPerson ∨ noe_modality o = OccurrenceModality_Hybrid;
  oc_on_campus : noe_modality o = OccurrenceModality_OnCampusOrInPerson → noe_evidence o = OccurrenceEvidence_Physical;
  oc_remote : noe_modality o = OccurrenceModality_Online ∨ noe_modality o = OccurrenceModality_UnknownConflict →
    noe_evidence o = OccurrenceEvidence_Remote;
  oc_asynchronous : noe_synchronicity o = Synchronicity_Asynchronous → noe_evidence o = OccurrenceEvidence_Remote;
  oc_by_arrangement : noe_synchronicity o = Synchronicity_ByArrangement →
    is_known_time (noe_time o) = false ∧ noe_evidence o ≠ OccurrenceEvidence_Remote;
  oc_unrecognized : noe_normalization_reason o = "UNRECOGNIZED_MODE_TUPLE" →
    noe_modality o = OccurrenceModality_Unknown ∧ noe_synchronicity o = Synchronicity_Unknown
    ∧ noe_evidence o = OccurrenceEvidence_None
}.

(** The code decides which branch of each table applies. *)
Lemma code_cases (code : option string) :
  code = Some "90" ∨ code = Some "91" ∨ code = Some "92" ∨ code = Some "93"
  ∨ (is_some_of code ["90"] = false ∧ is_some_of code ["91"] = false ∧ is_some_of code ["92"] = false
     ∧ is_some_of code ["93"] = false ∧ is_some_of code ["90"; "92"; "93"] = false).
Proof.
  destruct code as [c|]; [|by repeat right]. cbn. unfold one_of.
  destruct (decide (c = "90")) as [->|N0]; [by left|]. destruct (decide (c = "91")) as [->|N1]; [by right; left|].
  destruct (decide (c = "92")) as [->|N2]; [by do 2 right; left|]. destruct (decide (c = "93")) as [->|N3]; [by do 3 right; left|].
  do 4 right. split_and!; apply bool_decide_eq_false; rewrite !elem_of_cons, elem_of_nil; naive_solver.
Qed.

(** Decides the tests on a code that is known. *)
Ltac compute_codes :=
  repeat match goal with
  | |- context [is_some_of (Some ?c) ?l] =>
      let b := eval vm_compute in (is_some_of (Some c) l) in change (is_some_of (Some c) l) with b
  | H : context [is_some_of (Some ?c) ?l] |- _ =>
      let b := eval vm_compute in (is_some_of (Some c) l) in change (is_some_of (Some c) l) with b in H
  end.

Ltac by_code code obs :=
  destruct (code_cases code) as [->|[->|[->|[->|(E90&E91&E92&E93&Em)]]]];
  [compute_codes; cbn in *; subst obs..
  |match goal with Hobs : obs = _ |- _ => clear Hobs end;
   rewrite ?E90, ?E91, ?E92, ?E93, ?Em in *; destruct obs].

(** C23. The delivery facts of an occurrence agree with each other, whatever the
    upstream record holds: scheduled means a known time, on-campus rests on
    physical evidence and online on remote evidence, an asynchronous meeting is
    remote and one by arrangement is neither remote nor timed, no single
    occurrence is mixed, and an unrecognized mode code claims nothing. *)
Theorem normalize_occurrence_consistent raw source_ordinal :
  occurrence_consistent (normalize_occurrence raw source_ordinal).
Proof.
  set (time := normalize_time (rme_start_time_military raw) (rme_end_time_military raw)).
  pose proof (meeting_evidence_ok raw time) as Hev.
  assert (time_in_range time) as Ht by apply normalize_time_range.
  unfold normalize_occurrence. fold time. set (e := meeting_evidence raw time) in *. clearbody e time.
  destruct Hev as [Hloc Hmode Hobs Hba Hon Hos]. destruct e as [code obs mr lr lp ba onl ons]. cbn in *. subst mr.
  unfold occurrence_kind, occurrence_synchronicity, occurrence_evidence, occurrence_modality, normalization_reason.
  split; cbn.
  - destruct ba; [destruct (Hba eq_refl) as [-> _]; done|]. by destruct (is_known_time time).
  - exact Ht.
  - by repeat case_match.
  - by_code code obs; destruct lr, lp; cbn; intros; try done; try (by left); by right.
  - by_code code obs; destruct lr, lp; cbn; done.
  - by_code code obs; destruct lr, lp; cbn; by intros [|].
  - by_code code obs; destruct lr, lp; cbn; try done; by repeat case_match.
  - by_code code obs; clear Hba; destruct ons; try (destruct (Hos eq_refl) as (->&->&Hm)); cbn; try done;
      repeat case_match; done.
  - by_code code obs; clear Hba Hon Hos Ht; destruct lr, lp; cbn; try done; repeat case_match; done.
Qed.

End occurrence_facts.
