(* ===== verification/Normalize.v ===== *)
(** * Normalization of a catalog target (crates/bcsp-catalog/src/normalize.rs)

    From the raw courses of one target to its groups, variants and sections:
    stable identities, the merging of courses of one variant, the collapsing of
    duplicate sections and the conflicts that refuse the target. *)

From S2P Require Import Prelude Identity Contracts CatalogData RustStr OpenClient Ordering Json RawCatalog CatalogModel Canonical Delivery.

(** ** Errors *)

(** [InvalidIdentity] holds the text of the identity error, [Canonicalization]
    that of the JSON error. *)
Inductive NormalizationError :=
| NormalizationError_MissingRequiredField (field : string)
| NormalizationError_MalformedRequiredField (field : string)
| NormalizationError_InvalidIdentity (error : IdentityError)
| NormalizationError_ConflictingVariantFacts (key : CourseVariantKey)
| NormalizationError_ConflictingDuplicate (key : SectionKey)
| NormalizationError_SectionAcrossVariants (key : SectionKey)
| NormalizationError_Canonicalization.

(** [map_err(|error| InvalidIdentity(error.to_string()))]. *)
Definition identity_err {A} (r : result IdentityError A) : result NormalizationError A :=
  match r with Ok a => Ok a | Err error => Err (NormalizationError_InvalidIdentity error) end.

(** [map_err(canonical_error)]. *)
Definition canonical_err {A} (o : option A) : result NormalizationError A :=
  ok_or NormalizationError_Canonicalization o.

Definition required {T} (value : Presence T) (field : string) : result NormalizationError T :=
  match value with
  | Presence_Value value => Ok value
  | Presence_Missing | Presence_Null => Err (NormalizationError_MissingRequiredField field)
  | Presence_Malformed _ => Err (NormalizationError_MalformedRequiredField field)
  end.

Definition validate_optional_campus_shape (value : Presence string) (field : string)
    : result NormalizationError () :=
  match value with
  | Presence_Malformed _ => Err (NormalizationError_MalformedRequiredField field)
  | _ => Ok ()
  end.

Section normalize.
Context `{Sha256Api, JsonText}.

(** ** Accumulators *)

Record VariantAccumulator := {
  vac_key : CourseVariantKey;
  vac_fields : CourseVariantFields;
  vac_raw_course_count : Z;
  vac_record_hashes : gset Sha256Hex;
  vac_canonical_hash : Sha256Hex;
  vac_canonical_course_facts : Value;
  vac_catalog_open_sections_snapshots : list CatalogOpenSectionsSnapshot;
  vac_sections : gmap SectionKey NormalizedSection
}.

Record GroupAccumulator := {
  gac_key : CourseGroupKey;
  gac_raw_course_count : Z;
  gac_variants : gmap CourseVariantKey VariantAccumulator
}.

Record SectionSeen := {
  sse_variant_key : CourseVariantKey;
  sse_semantic_hash : Sha256Hex;
  sse_representative_record_hash : Sha256Hex;
  sse_raw_record_count : Z;
  sse_raw_record_hashes : gset Sha256Hex
}.

Record SectionResult := {
  sre_section : NormalizedSection;
  sre_raw_meetings : Z;
  sre_raw_instructors : Z
}.

(** ** Courses *)

Definition course_fields (course : RawCatalogCourse) : CourseVariantFields :=
  {| cvf_supplement_code := rcc_supplement_code course;
     cvf_credits := rcc_credits course;
     cvf_credits_object := rcc_credits_object course;
     cvf_title := rcc_title course;
     cvf_expanded_title := rcc_expanded_title course;
     cvf_level := rcc_level course;
     cvf_offering_unit_code := rcc_offering_unit_code course;
     cvf_subject := rcc_subject course;
     cvf_subject_description := rcc_subject_description course;
     cvf_course_number := rcc_course_number course;
     cvf_course_description := rcc_course_description course;
     cvf_course_notes := rcc_course_notes course;
     cvf_prerequisite_notes := rcc_pre_req_notes course;
     cvf_core_codes := rcc_core_codes course;
     cvf_campus_locations := rcc_campus_locations course |}.

Definition canonical_course_facts (raw : Value) : Value :=
  let raw :=
    match raw with
    | Value_Object object =>
        Value_Object (obj_remove "mainCampus" (obj_remove "campusCode"
          (obj_remove "openSections" (obj_remove "sections" object))))
    | raw => raw
    end in
  canonical_course_semantic_value_v1 raw.

Definition IDENTITY_FIELDS : list string :=
  ["supplementCode"; "creditsObject"; "title"; "expandedTitle"; "level"; "offeringUnitCode"].

Definition course_variant_identity_facts (course : Value) : Value :=
  Value_Object
    match course with
    | Value_Object course => obj_of (omap (λ field, pair field <$> obj_get field course) IDENTITY_FIELDS)
    | _ => []
    end.

Definition variant_fingerprint_v1 (course : RawCatalogCourse) : string :=
  let semantic_course := canonical_course_semantic_value_v1 (RawCatalogCourse_to_value course) in
  let value := course_variant_identity_facts semantic_course in
  "v1:" +:+ sha_str (canonical_course_variant_hash_v1 value).

(** [merge_course_variant_facts]: the merged facts, [None] where it returns
    [false]. *)
Definition merge_course_variant_facts (existing incoming : Value) : option Value :=
  existing_object ← value_as_object existing;
  incoming_object ← value_as_object incoming;
  if bool_decide (obj_remove "campusLocations" existing_object
                  ≠ obj_remove "campusLocations" incoming_object) then None
  else
    merged_locations ←
      match obj_get "campusLocations" existing_object, obj_get "campusLocations" incoming_object with
      | None, None => Some None
      | Some left_, Some right_ =>
          if bool_decide (left_ = right_) then Some (Some left_)
          else match left_, right_ with
               | Value_Array left_, Value_Array right_ =>
                   Some (Some (Value_Array
                     (dedup_by (λ l r, bool_decide (l = r))
                        (sort_by (compare_keys json_to_string) (left_ ++ right_)))))
               | _, _ => None
               end
      | _, _ => None
      end;
    Some (Value_Object
      match merged_locations with
      | Some locations => obj_insert "campusLocations" locations existing_object
      | None => obj_remove "campusLocations" existing_object
      end).

(** ** Sections *)

Definition normalize_instructor (raw : RawInstructor) : NormalizedInstructor :=
  {| nin_name := rin_name raw;
     nin_reliability := InstructorReliability_NameOnly;
     nin_canonical_facts := RawInstructor_to_value raw |}.

Definition normalize_occurrences (meetings : Presence (list RawMeeting)) : list NormalizedOccurrence :=
  match meetings with
  | Presence_Value raw_occurrences =>
      imap (λ ordinal raw, normalize_occurrence raw (Z.of_nat ordinal)) raw_occurrences
  | _ => []
  end.

Definition normalize_section (target : TermCampusKey) (raw : RawCatalogSection)
    : result NormalizationError SectionResult :=
  _ ← validate_optional_campus_shape (rcs_campus_code raw) "section.campusCode";
  index ← required (rcs_index raw) "section.index";
  key ← identity_err (SectionKey_try_new (term_str (tck_term target)) (campus_str (tck_campus target)) index);
  let canonical_facts := RawCatalogSection_to_value raw in
  let semantic_facts := canonical_section_semantic_value_v1 canonical_facts in
  semantic_raw ← canonical_err (RawCatalogSection_from_value semantic_facts);
  let occurrences := normalize_occurrences (rcs_meeting_times raw) in
  let instructors :=
    match rcs_instructors semantic_raw with
    | Presence_Value raw_instructors => normalize_instructor <$> raw_instructors
    | _ => []
    end in
  let (delivery_modality, synchronicity) :=
    classify_delivery (rcs_section_course_type semantic_raw) occurrences in
  Ok {| sre_raw_meetings := Z.of_nat (length occurrences);
        sre_raw_instructors := Z.of_nat (length instructors);
        sre_section :=
          {| nsc_key := key;
             nsc_section_number := rcs_number semantic_raw;
             nsc_catalog_open_status := rcs_open_status semantic_raw;
             nsc_raw_section_course_type := rcs_section_course_type semantic_raw;
             nsc_delivery_modality := delivery_modality;
             nsc_synchronicity := synchronicity;
             nsc_occurrence_source := CollectionPresence_from (rcs_meeting_times raw);
             nsc_occurrences := occurrences;
             nsc_instructor_source := CollectionPresence_from (rcs_instructors semantic_raw);
             nsc_instructors := instructors;
             nsc_semantic_hash := canonical_section_semantic_hash_v1 canonical_facts;
             nsc_first_record_hash := canonical_raw_section_hash_v1 canonical_facts;
             nsc_canonical_facts := canonical_facts |} |}.

(** ** The loop over the sections of a course *)

(** The state the loop changes: the metrics, the sections seen in the target
    and those of the variant. *)
Record SectionLoop := {
  slo_metrics : CatalogMetrics;
  slo_seen : gmap SectionKey SectionSeen;
  slo_sections : gmap SectionKey NormalizedSection
}.

Definition add_section_metrics (normalized : SectionResult) (m : CatalogMetrics) : CatalogMetrics :=
  {| cme_raw_courses := cme_raw_courses m;
     cme_raw_sections := cme_raw_sections m + 1;
     cme_normalized_sections := cme_normalized_sections m;
     cme_raw_meetings := cme_raw_meetings m + sre_raw_meetings normalized;
     cme_raw_instructor_assignments := cme_raw_instructor_assignments m + sre_raw_instructors normalized;
     cme_equivalent_duplicate_keys := cme_equivalent_duplicate_keys m;
     cme_delivery_conflict_raw_sections :=
       cme_delivery_conflict_raw_sections m
       + (if bool_decide (nsc_delivery_modality (sre_section normalized) = DeliveryModality_UnknownConflict)
          then 1 else 0) |}.

(** The record of a section that comes first, and one more record of it. *)
Definition first_seen (variant_key : CourseVariantKey) (section : NormalizedSection) : SectionSeen :=
  {| sse_variant_key := variant_key;
     sse_semantic_hash := nsc_semantic_hash section;
     sse_representative_record_hash := nsc_first_record_hash section;
     sse_raw_record_count := 1;
     sse_raw_record_hashes := {[nsc_first_record_hash section]} |}.

Definition seen_again (replaced : bool) (section : NormalizedSection) (seen : SectionSeen) : SectionSeen :=
  {| sse_variant_key := sse_variant_key seen;
     sse_semantic_hash := sse_semantic_hash seen;
     sse_representative_record_hash :=
       if replaced then nsc_first_record_hash section else sse_representative_record_hash seen;
     sse_raw_record_count := sse_raw_record_count seen + 1;
     sse_raw_record_hashes := {[nsc_first_record_hash section]} ∪ sse_raw_record_hashes seen |}.

Definition section_step (target : TermCampusKey) (variant_key : CourseVariantKey) (s : SectionLoop)
    (raw_section : RawCatalogSection) : result NormalizationError SectionLoop :=
  normalized ← normalize_section target raw_section;
  let section := sre_section normalized in
  let section_key := nsc_key section in
  let metrics := add_section_metrics normalized (slo_metrics s) in
  match slo_seen s !! section_key with
  | Some seen =>
      if bool_decide (sse_variant_key seen ≠ variant_key)
      then Err (NormalizationError_SectionAcrossVariants section_key)
      else if bool_decide (sse_semantic_hash seen ≠ nsc_semantic_hash section)
      then Err (NormalizationError_ConflictingDuplicate section_key)
      else
        let replaced :=
          match rcmp (nsc_first_record_hash section) (sse_representative_record_hash seen) with
          | Lt => true | _ => false
          end in
        Ok {| slo_metrics := metrics;
              slo_seen := <[section_key := seen_again replaced section seen]> (slo_seen s);
              slo_sections := if replaced then <[section_key := section]> (slo_sections s)
                              else slo_sections s |}
  | None =>
      Ok {| slo_metrics := metrics;
            slo_seen := <[section_key := first_seen variant_key section]> (slo_seen s);
            slo_sections := <[section_key := section]> (slo_sections s) |}
  end.

(** A loop whose body may return an error. *)
Fixpoint try_fold {S A E} (f : S → A → result E S) (s : S) (l : list A) : result E S :=
  match l with
  | [] => Ok s
  | a :: l => s' ← f s a; try_fold f s' l
  end.

(** ** The loop over the courses *)

Record CourseLoop := {
  clo_metrics : CatalogMetrics;
  clo_groups : gmap CourseGroupKey GroupAccumulator;
  clo_seen : gmap SectionKey SectionSeen
}.

Definition new_variant (key : CourseVariantKey) (fields : CourseVariantFields) (canonical_hash : Sha256Hex)
    (canonical_course_facts : Value) : VariantAccumulator :=
  {| vac_key := key; vac_fields := fields; vac_raw_course_count := 0; vac_record_hashes := ∅;
     vac_canonical_hash := canonical_hash; vac_canonical_course_facts := canonical_course_facts;
     vac_catalog_open_sections_snapshots := []; vac_sections := ∅ |}.

(** The facts of a variant once more courses of it came. *)
Definition with_facts (facts : Value) (fields : CourseVariantFields) (v : VariantAccumulator)
    : VariantAccumulator :=
  {| vac_key := vac_key v; vac_fields := fields; vac_raw_course_count := vac_raw_course_count v;
     vac_record_hashes := vac_record_hashes v;
     vac_canonical_hash := canonical_course_variant_hash_v1 facts;
     vac_canonical_course_facts := facts;
     vac_catalog_open_sections_snapshots := vac_catalog_open_sections_snapshots v;
     vac_sections := vac_sections v |}.

(** One more course: its count, hash and snapshot of the open sections. *)
Definition with_course (ordinal : Z) (open_sections : Presence Z) (record_hash : Sha256Hex)
    (v : VariantAccumulator) : VariantAccumulator :=
  {| vac_key := vac_key v; vac_fields := vac_fields v;
     vac_raw_course_count := vac_raw_course_count v + 1;
     vac_record_hashes := {[record_hash]} ∪ vac_record_hashes v;
     vac_canonical_hash := vac_canonical_hash v;
     vac_canonical_course_facts := vac_canonical_course_facts v;
     vac_catalog_open_sections_snapshots :=
       vac_catalog_open_sections_snapshots v
       ++ [{| cos_source_ordinal := ordinal; cos_value := open_sections;
              cos_raw_course_hash := record_hash |}];
     vac_sections := vac_sections v |}.

Definition with_sections (sections : gmap SectionKey NormalizedSection) (v : VariantAccumulator)
    : VariantAccumulator :=
  {| vac_key := vac_key v; vac_fields := vac_fields v; vac_raw_course_count := vac_raw_course_count v;
     vac_record_hashes := vac_record_hashes v; vac_canonical_hash := vac_canonical_hash v;
     vac_canonical_course_facts := vac_canonical_course_facts v;
     vac_catalog_open_sections_snapshots := vac_catalog_open_sections_snapshots v;
     vac_sections := sections |}.

Definition course_step (target : TermCampusKey) (s : CourseLoop) (entry : Z * RawCatalogCourse)
    : result NormalizationError CourseLoop :=
  let (course_ordinal, course) := entry in
  _ ← validate_optional_campus_shape (rcc_campus_code course) "course.campusCode";
  raw_course_string ← required (rcc_course_string course) "course.courseString";
  course_string ← identity_err (CourseString_try_from raw_course_string);
  let group_key := CourseGroupKey_new (tck_term target) (tck_campus target) course_string in
  fingerprint ← identity_err (VariantFingerprint_try_from (variant_fingerprint_v1 course));
  let variant_key := CourseVariantKey_new group_key fingerprint in
  let raw_course_value := RawCatalogCourse_to_value course in
  let record_hash := canonical_raw_course_hash_v1 raw_course_value in
  let facts := canonical_course_facts raw_course_value in
  let canonical_hash := canonical_course_variant_hash_v1 facts in
  canonical_course ← canonical_err (RawCatalogCourse_from_value facts);
  let group := default {| gac_key := group_key; gac_raw_course_count := 0; gac_variants := ∅ |}
                 (clo_groups s !! group_key) in
  variant ←
    match gac_variants group !! variant_key with
    | None => Ok (new_variant variant_key (course_fields canonical_course) canonical_hash facts)
    | Some variant =>
        match merge_course_variant_facts (vac_canonical_course_facts variant) facts with
        | None => Err (NormalizationError_ConflictingVariantFacts variant_key)
        | Some merged =>
            merged_course ← canonical_err (RawCatalogCourse_from_value merged);
            Ok (with_facts merged (course_fields merged_course) variant)
        end
    end;
  let variant := with_course course_ordinal (rcc_open_sections course) record_hash variant in
  raw_sections ← required (rcc_sections course) "course.sections";
  loop ← try_fold (section_step target (vac_key variant))
           {| slo_metrics := clo_metrics s; slo_seen := clo_seen s; slo_sections := vac_sections variant |}
           raw_sections;
  let variant := with_sections (slo_sections loop) variant in
  Ok {| clo_metrics := slo_metrics loop;
        clo_seen := slo_seen loop;
        clo_groups :=
          <[group_key :=
              {| gac_key := gac_key group;
                 gac_raw_course_count := gac_raw_course_count group + 1;
                 gac_variants := <[variant_key := variant]> (gac_variants group) |}]> (clo_groups s) |}.

(** ** The result *)

Definition finish_variant (v : VariantAccumulator) : NormalizedCourseVariant :=
  {| ncr_key := vac_key v;
     ncr_fields := vac_fields v;
     ncr_raw_course_count := vac_raw_course_count v;
     ncr_record_hashes := bts_iter (vac_record_hashes v);
     ncr_canonical_hash := vac_canonical_hash v;
     ncr_canonical_course_facts := vac_canonical_course_facts v;
     ncr_catalog_open_sections_snapshots := vac_catalog_open_sections_snapshots v;
     ncr_sections := btm_values (vac_sections v) |}.

Definition finish_group (g : GroupAccumulator) : NormalizedCourseGroup :=
  {| ngr_key := gac_key g;
     ngr_raw_course_count := gac_raw_course_count g;
     ngr_variants := finish_variant <$> btm_values (gac_variants g) |}.

Definition duplicate_audit (entry : SectionKey * SectionSeen) : DuplicateAudit :=
  {| dau_section_key := entry.1;
     dau_raw_record_count := sse_raw_record_count entry.2;
     dau_raw_record_hashes := bts_iter (sse_raw_record_hashes entry.2);
     dau_semantic_hash := sse_semantic_hash entry.2;
     dau_disposition := DuplicateDisposition_AuditedEquivalentCollapse;
     dau_reason := "ALL_SECTION_SEMANTIC_HASHES_EQUAL" |}.

Definition section_content (section : NormalizedSection) : Value :=
  json_object
    [("term", Value_String (term_str (sk_term (nsc_key section))));
     ("campus", Value_String (campus_str (sk_campus (nsc_key section))));
     ("index", Value_String (index_str (sk_index (nsc_key section))));
     ("semanticHash", Value_String (sha_str (nsc_semantic_hash section)))].

Definition variant_content (variant : NormalizedCourseVariant) : Value :=
  json_object
    [("fingerprint", Value_String (fingerprint_str (cvk_fingerprint (ncr_key variant))));
     ("canonicalHash", Value_String (sha_str (ncr_canonical_hash variant)));
     ("sections", Value_Array (section_content <$> ncr_sections variant))].

Definition group_content (group : NormalizedCourseGroup) : Value :=
  json_object
    [("courseString", Value_String (course_str (cgk_course_string (ngr_key group))));
     ("variants", Value_Array (variant_content <$> ngr_variants group))].

Definition target_content (target : TermCampusKey) (groups : list NormalizedCourseGroup) : Value :=
  json_object
    [("schema", Value_String "catalog-content-v1");
     ("target", json_object
       [("term", Value_String (term_str (tck_term target)));
        ("campus", Value_String (campus_str (tck_campus target)))]);
     ("groups", Value_Array (group_content <$> groups))].

Definition content_hash (target : TermCampusKey) (groups : list NormalizedCourseGroup) : Sha256Hex :=
  canonical_target_content_hash_v1 (target_content target groups).

Definition initial_metrics (raw_courses : Z) : CatalogMetrics :=
  {| cme_raw_courses := raw_courses; cme_raw_sections := 0; cme_normalized_sections := 0;
     cme_raw_meetings := 0; cme_raw_instructor_assignments := 0; cme_equivalent_duplicate_keys := 0;
     cme_delivery_conflict_raw_sections := 0 |}.

Definition finish_target (target : TermCampusKey) (provenance : SourceProvenance) (s : CourseLoop)
    : NormalizedCatalogTarget :=
  let groups := finish_group <$> btm_values (clo_groups s) in
  let duplicate_audits :=
    duplicate_audit <$> filter (λ entry, 1 < sse_raw_record_count entry.2) (btm_iter (clo_seen s)) in
  {| nct_target := target;
     nct_groups := groups;
     nct_duplicate_audits := duplicate_audits;
     nct_content_hash := content_hash target groups;
     nct_provenance := provenance;
     nct_metrics :=
       {| cme_raw_courses := cme_raw_courses (clo_metrics s);
          cme_raw_sections := cme_raw_sections (clo_metrics s);
          cme_normalized_sections := Z.of_nat (size (clo_seen s));
          cme_raw_meetings := cme_raw_meetings (clo_metrics s);
          cme_raw_instructor_assignments := cme_raw_instructor_assignments (clo_metrics s);
          cme_equivalent_duplicate_keys := Z.of_nat (length duplicate_audits);
          cme_delivery_conflict_raw_sections := cme_delivery_conflict_raw_sections (clo_metrics s) |} |}.

Definition normalize_target (target : TermCampusKey) (courses : list RawCatalogCourse)
    (provenance : SourceProvenance) : result NormalizationError NormalizedCatalogTarget :=
  s ← try_fold (course_step target)
        {| clo_metrics := initial_metrics (Z.of_nat (length courses)); clo_groups := ∅; clo_seen := ∅ |}
        (imap (λ ordinal course, (Z.of_nat ordinal, course)) courses);
  Ok (finish_target target provenance s).

End normalize.
