(* ===== verification/NormalizeFacts.v ===== *)
(** * Facts about the normalization

    What holds of the accumulators after every course, what a normalized target
    promises to its clients ([target_wf]), and when normalizing can fail. *)

From S2P Require Import Prelude Identity Contracts CatalogData RustStr OpenClient Ordering Json RawCatalog RawCatalogFacts.
From S2P Require Import CatalogModel Canonical CanonicalFacts Delivery DeliveryFacts Normalize.

(** ** Loops *)

Lemma try_fold_inv {S A E} (P : S → Prop) (f : S → A → result E S) (l : list A) (s s' : S) :
  P s → (∀ s a s', a ∈ l → P s → f s a = Ok s' → P s') → try_fold f s l = Ok s' → P s'.
Proof.
  revert s. induction l as [|a l IH]; intros s Hs Hstep; cbn; [by intros [= <-]|].
  intros (s1 & Hf & Hfold)%result_bind_Ok. apply (IH s1); [eapply Hstep; [left|exact Hs|exact Hf]| |done].
  intros s2 b s3 Hb. apply Hstep. by right.
Qed.

(** The same with the position of the element. *)
Lemma try_fold_imap {S A E} (P : nat → S → Prop) (f : S → Z * A → result E S) (l : list A) (n : nat) (s s' : S) :
  P n s → (∀ i s a s', a ∈ l → P i s → f s (Z.of_nat i, a) = Ok s' → P (Datatypes.S i) s') →
  try_fold f s (imap (λ i a, (Z.of_nat (n + i), a)) l) = Ok s' → P (n + length l)%nat s'.
Proof.
  revert n s. induction l as [|a l IH]; intros n s Hs Hstep; cbn [imap try_fold length].
  - intros [= <-]. by rewrite Nat.add_0_r.
  - intros (s1 & Hf & Hfold)%result_bind_Ok. rewrite Nat.add_0_r in Hf. rewrite Nat.add_succ_r.
    apply (IH (Datatypes.S n) s1); [eapply Hstep; [left|exact Hs|exact Hf]|intros i s2 b s3 Hb; apply Hstep; by right|].
    replace (imap (λ i a, (Z.of_nat (Datatypes.S n + i), a)) l)
      with (imap ((λ i a, (Z.of_nat (n + i), a)) ∘ Datatypes.S) l); [done|].
    apply imap_ext. intros i x _. cbn. do 2 f_equal. lia.
Qed.

Section normalize_facts.
Context `{Sha256ApiLaws, JsonText, !NumberApiLaws}.
Implicit Types (target : TermCampusKey) (sk : SectionKey) (vk : CourseVariantKey) (gk : CourseGroupKey)
  (raw : RawCatalogSection) (sec : NormalizedSection) (seen : gmap SectionKey SectionSeen).

(** ** Records that were decoded *)

Definition raw_section_ok raw : Prop :=
  RawCatalogSection_from_value (RawCatalogSection_to_value raw) = Some raw
  ∧ value_wf (RawCatalogSection_to_value raw).

Definition raw_course_ok (c : RawCatalogCourse) : Prop :=
  RawCatalogCourse_from_value (RawCatalogCourse_to_value c) = Some c
  ∧ value_wf (RawCatalogCourse_to_value c)
  ∧ ∀ raws, rcc_sections c = Presence_Value raws → Forall raw_section_ok raws.

#[local] Transparent RawCatalogCourse_from_value RawCatalogSection_from_value.

Lemma course_sections_taken v c :
  RawCatalogCourse_from_value v = Some c → ∃ m, v = Value_Object m ∧ take "sections" m = Some (rcc_sections c).
Proof.
  unfold RawCatalogCourse_from_value. intros Hc. destruct v as [| | | | |m]; try discriminate Hc.
  exists m. split; [done|]. cbn [value_as_object mbind option_bind] in Hc.
  repeat match type of Hc with
  | _ ≫= _ = Some _ =>
      let p := fresh "p" in let Hp := fresh "Hp" in apply bind_Some in Hc as (p & Hp & Hc)
  end. injection Hc as <-. assumption.
Qed.

Lemma section_taken v r :
  RawCatalogSection_from_value v = Some r →
  ∃ m, v = Value_Object m ∧ take "sectionCourseType" m = Some (rcs_section_course_type r)
       ∧ take "meetingTimes" m = Some (rcs_meeting_times r).
Proof.
  unfold RawCatalogSection_from_value. intros Hr. destruct v as [| | | | |m]; try discriminate Hr.
  exists m. split; [done|]. cbn [value_as_object mbind option_bind] in Hr.
  repeat match type of Hr with
  | _ ≫= _ = Some _ =>
      let p := fresh "p" in let Hp := fresh "Hp" in apply bind_Some in Hr as (p & Hp & Hr)
  end. injection Hr as <-. split; assumption.
Qed.

#[local] Opaque RawCatalogCourse_from_value RawCatalogSection_from_value.

Lemma decoded_sections_ok v c raws :
  value_wf v → RawCatalogCourse_from_value v = Some c → rcc_sections c = Presence_Value raws →
  Forall raw_section_ok raws.
Proof.
  intros Hv (m & -> & Ht)%course_sections_taken Hs. rewrite Hs in Ht. unfold take in Ht.
  destruct (obj_get "sections" m) as [w|] eqn:Hw; [|done].
  apply value_wf_get in Hw; [|done]. apply presence_from_value_inv in Ht as [[_ ?]|[(?&?&_)|(l & [= <-] & Hl & _)]]; try done.
  destruct w as [| | | |ws|]; try discriminate Hl. apply value_wf_array_inv in Hw. cbn in Hl. apply mapM_Some_1 in Hl.
  clear Hs. induction Hl as [|w raw ws raws Hraw _ IH]; [constructor|]. apply Forall_cons in Hw as [Hw Hws].
  constructor; [by eapply RawCatalogSection_round_trip|by apply IH].
Qed.

Lemma decoded_course_ok v c : value_wf v → RawCatalogCourse_from_value v = Some c → raw_course_ok c.
Proof.
  intros Hv Hc. destruct (RawCatalogCourse_round_trip v c Hv Hc) as [Hback Hwf].
  split_and!; [done..|]. intros raws. by eapply decoded_sections_ok.
Qed.

Lemma decode_courses_ok `{!JsonParser, !JsonSlice} body courses :
  decode_catalog_payload body = Some courses → Forall raw_course_ok courses.
Proof.
  intros (values & _ & _ & Hall)%decode_catalog_payload_inv.
  induction Hall as [|v c values courses [Hwf Hc] _ IH]; [constructor|]. constructor; [by eapply decoded_course_ok|done].
Qed.

(** ** Sections *)

(** What is known of the raw sections of the target. *)
Variable origin : RawCatalogSection → Prop.

Definition section_from target sec : Prop :=
  ∃ raw res, origin raw ∧ normalize_section target raw = Ok res ∧ sre_section res = sec.

Lemma identity_err_Ok {A} (r : result IdentityError A) a : identity_err r = Ok a ↔ r = Ok a.
Proof. destruct r; cbn; split; congruence. Qed.

Lemma normalize_section_inv target raw res :
  normalize_section target raw = Ok res →
  ∃ index semantic_raw, rcs_index raw = Presence_Value index
    ∧ SectionKey_try_new (term_str (tck_term target)) (campus_str (tck_campus target)) index
      = Ok (nsc_key (sre_section res))
    ∧ RawCatalogSection_from_value (canonical_section_semantic_value_v1 (RawCatalogSection_to_value raw)) = Some semantic_raw
    ∧ nsc_occurrences (sre_section res) = normalize_occurrences (rcs_meeting_times raw)
    ∧ (nsc_delivery_modality (sre_section res), nsc_synchronicity (sre_section res))
      = classify_delivery (rcs_section_course_type semantic_raw) (normalize_occurrences (rcs_meeting_times raw))
    ∧ nsc_semantic_hash (sre_section res) = canonical_section_semantic_hash_v1 (RawCatalogSection_to_value raw)
    ∧ nsc_canonical_facts (sre_section res) = RawCatalogSection_to_value raw.
Proof.
  unfold normalize_section. intros (_ & _ & Hr)%result_bind_Ok.
  apply result_bind_Ok in Hr as (index & Hindex & Hr). apply result_bind_Ok in Hr as (key & Hkey & Hr).
  apply result_bind_Ok in Hr as (semantic_raw & Hsem & Hr). apply identity_err_Ok in Hkey. apply ok_or_Ok in Hsem.
  unfold required in Hindex. destruct (rcs_index raw) as [| | |i]; try done. injection Hindex as ->.
  destruct (classify_delivery _ _) as [dm sync] eqn:Hc. injection Hr as <-. cbn.
  exists index, semantic_raw. by split_and!.
Qed.

Lemma section_key_target target raw res :
  normalize_section target raw = Ok res →
  sk_target (nsc_key (sre_section res)) = target ∧ SectionKey_wf (nsc_key (sre_section res)).
Proof.
  intros (index & _ & _ & Hk & _)%normalize_section_inv. unfold SectionKey_try_new in Hk.
  apply result_bind_Ok in Hk as (t & Ht & Hk). apply result_bind_Ok in Hk as (c & Hc & Hk).
  apply result_bind_Ok in Hk as (i & Hi & Hk).
  apply result_bind_Ok in Ht as ([] & Ht & [= <-]). apply result_bind_Ok in Hc as ([] & Hc & [= <-]).
  apply result_bind_Ok in Hi as ([] & Hi & [= <-]). injection Hk as Hk. rewrite <-Hk.
  destruct target as [[t] [c]]. by split.
Qed.

(** ** The sections seen and the sections kept *)

(** The sections each variant holds. *)
Abbreviation View := (CourseVariantKey → option (gmap SectionKey NormalizedSection)).

Definition update_view (view : View) vk (sections : gmap SectionKey NormalizedSection) : View :=
  λ k, if bool_decide (k = vk) then Some sections else view k.

(** The record of a section names a variant that holds a section with its
    semantic hash and with the least of the hashes of its raw records. *)
Definition seen_ok (view : View) sk (e : SectionSeen) : Prop :=
  ∃ sections sec, view (sse_variant_key e) = Some sections ∧ sections !! sk = Some sec
    ∧ sse_semantic_hash e = nsc_semantic_hash sec
    ∧ sse_representative_record_hash e = nsc_first_record_hash sec
    ∧ nsc_first_record_hash sec ∈ sse_raw_record_hashes e
    ∧ (∀ h, h ∈ sse_raw_record_hashes e → rle (nsc_first_record_hash sec) h)
    ∧ 1 ≤ sse_raw_record_count e.

Definition kept_ok target seen vk sk sec : Prop :=
  nsc_key sec = sk ∧ section_from target sec ∧ ∃ e, seen !! sk = Some e ∧ sse_variant_key e = vk.

Record view_ok target (view : View) seen : Prop := {
  vo_kept vk sections sk sec : view vk = Some sections → sections !! sk = Some sec → kept_ok target seen vk sk sec;
  vo_seen sk e : seen !! sk = Some e → seen_ok view sk e
}.

Lemma view_ok_empty_variant target view seen vk :
  view vk = None → view_ok target view seen → view_ok target (update_view view vk ∅) seen.
Proof.
  intros Hvk [Hkept Hseen]. split.
  - intros vk' sections sk sec. unfold update_view. case_bool_decide; [by intros [= <-]|]. apply Hkept.
  - intros sk e (sections & sec & Hv & Hrest)%Hseen. exists sections, sec. split; [|done].
    unfold update_view. rewrite bool_decide_eq_false_2; [done|]. congruence.
Qed.

Lemma view_ok_same target view seen vk sections :
  view vk = Some sections → view_ok target view seen → view_ok target (update_view view vk sections) seen.
Proof.
  intros Hvk [Hkept Hseen]. split.
  - intros vk' sections' sk sec. unfold update_view. case_bool_decide as E; [|apply Hkept].
    subst. intros [= <-]. by apply Hkept.
  - intros sk e (sections' & sec & Hv & Hrest)%Hseen. exists sections', sec. split; [|done].
    unfold update_view. case_bool_decide as E; [|done]. rewrite E in Hv. congruence.
Qed.

(** A section is put in the place of one that was seen before, or of none. *)
Lemma view_ok_insert target view seen vk sections sec e :
  view_ok target (update_view view vk sections) seen →
  section_from target sec → sse_variant_key e = vk →
  match seen !! nsc_key sec with Some old => sse_variant_key old = vk | None => True end →
  seen_ok (update_view view vk (<[nsc_key sec := sec]> sections)) (nsc_key sec) e →
  view_ok target (update_view view vk (<[nsc_key sec := sec]> sections)) (<[nsc_key sec := e]> seen).
Proof.
  intros [Hkept Hseen] Hfrom Hvk Hold He. split.
  - intros vk' sections' sk' sec'. unfold update_view. case_bool_decide as E.
    + intros [= <-] [[<- <-]|[Hne Hs]]%lookup_insert_Some; unfold kept_ok.
      * split_and!; [done..|]. exists e. rewrite lookup_insert_eq. by subst.
      * destruct (Hkept vk' sections sk' sec') as (?&?&?); [unfold update_view; by rewrite bool_decide_eq_true_2|done|].
        by rewrite lookup_insert_ne.
    + intros Hv Hs. destruct (Hkept vk' sections' sk' sec') as (Hk&Hf&old&Ho&Hov);
        [unfold update_view; by rewrite bool_decide_eq_false_2|done|].
      unfold kept_ok. split_and!; [done..|]. exists old. split; [|done]. rewrite lookup_insert_ne; [done|].
      intros Heq. rewrite <-Heq in Ho. rewrite Ho in Hold. congruence.
  - intros sk' e' [[<- <-]|[Hne He']]%lookup_insert_Some; [done|].
    destruct (Hseen sk' e' He') as (sections' & sec' & Hv & Hs & Hrest). unfold seen_ok, update_view in *.
    case_bool_decide as E; [|by exists sections', sec'].
    injection Hv as <-. exists (<[nsc_key sec:=sec]> sections), sec'. split; [done|]. by rewrite lookup_insert_ne.
Qed.

(** The record of a section changes, what is kept of it does not. *)
Lemma view_ok_again target view seen sk e old :
  view_ok target view seen → seen !! sk = Some old → sse_variant_key e = sse_variant_key old →
  seen_ok view sk e → view_ok target view (<[sk := e]> seen).
Proof.
  intros [Hkept Hseen] Hold Hvk He. split.
  - intros vk sections sk' sec Hv Hs. destruct (Hkept _ _ _ _ Hv Hs) as (?&?&e'&He'&?). unfold kept_ok.
    split_and!; [done..|]. destruct (decide (sk' = sk)) as [->|Hne].
    + exists e. rewrite lookup_insert_eq. split; [done|]. congruence.
    + exists e'. by rewrite lookup_insert_ne.
  - intros sk' e' [[<- <-]|[Hne He']]%lookup_insert_Some; [done|by apply Hseen].
Qed.

Lemma section_step_ok target view vk s raw s' :
  origin raw → view_ok target (update_view view vk (slo_sections s)) (slo_seen s) →
  section_step target vk s raw = Ok s' →
  view_ok target (update_view view vk (slo_sections s')) (slo_seen s').
Proof.
  intros Hraw Hok (res & Hres & Hs)%result_bind_Ok. cbv zeta in Hs. set (sec := sre_section res) in *.
  assert (section_from target sec) as Hfrom by (exists raw, res; done).
  destruct (slo_seen s !! nsc_key sec) as [seen|] eqn:Hseen.
  - case_bool_decide as Hvk; [done|]. case_bool_decide as Hsem; [done|].
    destruct (vo_seen _ _ _ Hok _ _ Hseen) as (sections & old & Hv & Hold & Hs1 & Hs2 & Hin & Hmin & Hcount).
    unfold update_view in Hv. rewrite bool_decide_eq_true_2 in Hv by done. injection Hv as <-.
    destruct (rcmp (nsc_first_record_hash sec) _) eqn:Hcmp; injection Hs as <-; cbn [slo_sections slo_seen].
    2: { apply view_ok_insert; [done..|by rewrite Hseen|]. eexists _, sec. unfold update_view.
      rewrite bool_decide_eq_true_2, lookup_insert_eq by done. cbn. split_and!; try done; [set_solver| |lia].
      intros h [->%elem_of_singleton|Hh]%elem_of_union; [done|]. etrans; [|by apply Hmin].
      unfold rle. rewrite <-Hs2. by rewrite Hcmp. }
    all: eapply view_ok_again; [done|done|done|]; exists (slo_sections s), old; unfold update_view;
      rewrite bool_decide_eq_true_2 by done; cbn; split_and!; try done; [set_solver| |lia];
      intros h [->%elem_of_singleton|Hh]%elem_of_union; [|by apply Hmin].
    + apply rcmp_eq in Hcmp. rewrite Hcmp, Hs2. done.
    + apply rcmp_gt_lt in Hcmp. unfold rle. rewrite <-Hs2. by rewrite Hcmp.
  - injection Hs as <-. cbn [slo_sections slo_seen]. apply view_ok_insert; [done..|by rewrite Hseen|].
    eexists _, sec. unfold update_view. rewrite bool_decide_eq_true_2, lookup_insert_eq by done.
    cbn. split_and!; try done; [set_solver|]. by intros h ->%elem_of_singleton.
Qed.

Lemma section_loop_ok target view vk s raws s' :
  Forall origin raws → view_ok target (update_view view vk (slo_sections s)) (slo_seen s) →
  try_fold (section_step target vk) s raws = Ok s' →
  view_ok target (update_view view vk (slo_sections s')) (slo_seen s').
Proof.
  intros Hraws Hok. apply (try_fold_inv (λ s, view_ok target (update_view view vk (slo_sections s)) (slo_seen s))); [done|].
  intros s1 raw s2 Hin Hs1. apply section_step_ok; [|done]. by rewrite Forall_forall in Hraws; apply Hraws.
Qed.

(** ** The groups and variants *)

Definition view_of (groups : gmap CourseGroupKey GroupAccumulator) : View :=
  λ vk, g ← groups !! cvk_group vk; v ← gac_variants g !! vk; Some (vac_sections v).

Lemma view_ok_ext target (view view' : View) seen :
  (∀ vk, view vk = view' vk) → view_ok target view seen → view_ok target view' seen.
Proof.
  intros Heq [Hkept Hseen]. split.
  - intros vk sections sk sec Hv. rewrite <-Heq in Hv. by eapply Hkept.
  - intros sk e (sections & sec & Hv & Hrest)%Hseen. exists sections, sec. by rewrite <-Heq.
Qed.

(** What holds of a variant after [n] courses. *)
Record variant_ok (n : nat) vk (v : VariantAccumulator) : Prop := {
  va_key : vac_key v = vk;
  va_count : 1 ≤ vac_raw_course_count v ≤ Z.of_nat n;
  va_ordinals : StronglySorted Z.lt (cos_source_ordinal <$> vac_catalog_open_sections_snapshots v);
  va_bound : Forall (λ o, 0 ≤ cos_source_ordinal o < Z.of_nat n) (vac_catalog_open_sections_snapshots v);
  va_facts : ∃ c, RawCatalogCourse_from_value (vac_canonical_course_facts v) = Some c ∧ vac_fields v = course_fields c;
  va_wf : value_wf (vac_canonical_course_facts v);
  va_hash : vac_canonical_hash v = canonical_course_variant_hash_v1 (vac_canonical_course_facts v);
  va_fingerprint : validate_fingerprint (fingerprint_str (cvk_fingerprint vk)) = Ok ()
}.

Record group_ok target (n : nat) gk (g : GroupAccumulator) : Prop := {
  ga_key : gac_key g = gk;
  ga_target : cgk_target gk = target;
  ga_course : validate_course_string (course_str (cgk_course_string gk)) = Ok ();
  ga_variants vk v : gac_variants g !! vk = Some v → cvk_group vk = gk ∧ variant_ok n vk v
}.

Record loop_ok target (n : nat) (s : CourseLoop) : Prop := {
  lo_groups gk g : clo_groups s !! gk = Some g → group_ok target n gk g;
  lo_view : view_ok target (view_of (clo_groups s)) (clo_seen s)
}.

Lemma variant_ok_later n vk v : variant_ok n vk v → variant_ok (S n) vk v.
Proof.
  intros [? ? ? Hb ? ? ? ?]. split; try done; [lia|]. eapply Forall_impl; [exact Hb|]. cbn. lia.
Qed.

Lemma group_ok_later target n gk g : group_ok target n gk g → group_ok target (S n) gk g.
Proof. intros [? ? ? Hv]. split; try done. intros vk v [??]%Hv. split; [done|by apply variant_ok_later]. Qed.

Lemma merge_facts_wf existing incoming merged :
  value_wf existing → value_wf incoming → merge_course_variant_facts existing incoming = Some merged → value_wf merged.
Proof.
  intros Hex Hin. unfold merge_course_variant_facts. intros (m & Hm & Hmerge)%bind_Some.
  apply bind_Some in Hmerge as (m' & Hm' & Hmerge). destruct existing as [| | | | |?]; simplify_eq/=.
  destruct incoming as [| | | | |?]; simplify_eq/=. case_bool_decide; [done|].
  apply bind_Some in Hmerge as (locations & Hl & [= <-]). pose proof (value_wf_object_inv _ Hex) as [Hs Hall].
  destruct locations as [l|].
  - constructor; [by apply obj_insert_sorted|]. apply Forall_forall.
    intros [k v] [[= -> ->]|Hkv]%obj_insert_elem; [|by rewrite Forall_forall in Hall; apply (Hall (k, v))].
    destruct (obj_get "campusLocations" m) as [a|] eqn:Ha, (obj_get "campusLocations" m') as [b|] eqn:Hb; try done.
    assert (value_wf a ∧ value_wf b) as [Wa Wb] by (split; [exact (value_wf_get _ _ _ Hex Ha)|exact (value_wf_get _ _ _ Hin Hb)]).
    case_bool_decide; [by injection Hl as <-|]. destruct a as [| | | |a|], b as [| | | |b|]; try done.
    injection Hl as <-. constructor. apply Forall_forall. intros x Hx.
    apply (proj1 (elem_of_dedup_by _ (λ l r, bool_decide_eq_true _) _ _)) in Hx. rewrite (sort_by_perm (compare_keys json_to_string)), elem_of_app in Hx.
    apply value_wf_array_inv in Wa, Wb. rewrite Forall_forall in Wa, Wb. destruct Hx; [by apply Wa|by apply Wb].
  - constructor; [by apply obj_remove_sorted|]. apply Forall_forall. intros kv [_ Hkv]%list_elem_of_filter.
    by rewrite Forall_forall in Hall; apply Hall.
Qed.

Lemma canonical_course_facts_wf v : value_wf v → value_wf (canonical_course_facts v).
Proof.
  intros Hv. apply canonicalize_wf. destruct v as [| | | | |m]; try done.
  pose proof (value_wf_object_inv _ Hv) as [Hs Hall]. constructor; [by repeat apply obj_remove_sorted|].
  apply Forall_forall. intros kv Hin. unfold obj_remove in Hin. rewrite !list_elem_of_filter in Hin.
  rewrite Forall_forall in Hall. apply Hall. tauto.
Qed.

(** ** One course *)

Lemma ordinals_snoc (l : list CatalogOpenSectionsSnapshot) n o :
  StronglySorted Z.lt (cos_source_ordinal <$> l) → Forall (λ o, 0 ≤ cos_source_ordinal o < n) l →
  cos_source_ordinal o = n → StronglySorted Z.lt (cos_source_ordinal <$> l ++ [o]).
Proof.
  intros Hs Hb Ho. rewrite fmap_app. apply StronglySorted_app. split_and!; [|done|repeat constructor].
  intros x y (o1 & -> & Ho1)%list_elem_of_fmap Hy. cbn in Hy. apply list_elem_of_singleton in Hy as ->.
  rewrite Forall_forall in Hb. apply Hb in Ho1. lia.
Qed.

Lemma new_variant_ok n vk course (fields : CourseVariantFields) facts :
  RawCatalogCourse_from_value facts = Some course → fields = course_fields course → value_wf facts →
  validate_fingerprint (fingerprint_str (cvk_fingerprint vk)) = Ok () →
  ∀ open_sections record_hash,
  variant_ok (S n) vk (with_course (Z.of_nat n) open_sections record_hash
    (new_variant vk fields (canonical_course_variant_hash_v1 facts) facts)).
Proof.
  intros Hc -> Hwf Hfp os rh. split; cbn; try done; [lia|repeat constructor|repeat constructor; cbn; lia|by eexists].
Qed.

Lemma merged_variant_ok n vk v merged course :
  variant_ok n vk v → RawCatalogCourse_from_value merged = Some course → value_wf merged →
  ∀ open_sections record_hash,
  variant_ok (S n) vk (with_course (Z.of_nat n) open_sections record_hash (with_facts merged (course_fields course) v)).
Proof.
  intros [? ? ? Hb ? ? ? ?] Hc Hwf os rh. split; cbn; try done; [lia| | |by eexists].
  - by eapply ordinals_snoc.
  - apply Forall_app. split; [|repeat constructor; cbn; lia]. eapply Forall_impl; [exact Hb|]. cbn. lia.
Qed.

Lemma with_sections_ok n vk v sections : variant_ok n vk v → variant_ok n vk (with_sections sections v).
Proof. by intros []. Qed.

Lemma CourseString_try_from_Ok value cs :
  CourseString_try_from value = Ok cs → validate_course_string (course_str cs) = Ok () ∧ course_str cs = value.
Proof. intros ([] & Hv & [= <-])%result_bind_Ok. done. Qed.

Lemma VariantFingerprint_try_from_Ok value f :
  VariantFingerprint_try_from value = Ok f → validate_fingerprint (fingerprint_str f) = Ok ().
Proof. intros ([] & Hv & [= <-])%result_bind_Ok. done. Qed.

(** What a course did to the accumulators: its variant is the one it joined,
    with its sections. *)
Lemma course_step_inv target n s course s' :
  raw_course_ok course → loop_ok target n s → course_step target s (Z.of_nat n, course) = Ok s' →
  ∃ gk vk g v sections seen metrics raws,
    default {| gac_key := gk; gac_raw_course_count := 0; gac_variants := ∅ |} (clo_groups s !! gk) = g
    ∧ cvk_group vk = gk ∧ cgk_target gk = target
    ∧ validate_course_string (course_str (cgk_course_string gk)) = Ok ()
    ∧ variant_ok (S n) vk v
    ∧ vac_sections v = default ∅ (vac_sections <$> gac_variants g !! vk)
    ∧ rcc_sections course = Presence_Value raws
    ∧ try_fold (section_step target vk)
        {| slo_metrics := clo_metrics s; slo_seen := clo_seen s; slo_sections := vac_sections v |} raws
      = Ok {| slo_metrics := metrics; slo_seen := seen; slo_sections := sections |}
    ∧ s' = {| clo_metrics := metrics; clo_seen := seen;
              clo_groups := <[gk := {| gac_key := gac_key g; gac_raw_course_count := gac_raw_course_count g + 1;
                                       gac_variants := <[vk := with_sections sections v]> (gac_variants g) |}]>
                              (clo_groups s) |}.
Proof.
  intros [Hback [Hwf _]] [Hgroups Hview]. unfold course_step.
  intros (_ & _ & Hs)%result_bind_Ok. apply result_bind_Ok in Hs as (text & Htext & Hs).
  apply result_bind_Ok in Hs as (cs & Hcs & Hs). apply identity_err_Ok, CourseString_try_from_Ok in Hcs as [Hcs _].
  apply result_bind_Ok in Hs as (fp & Hfp & Hs). apply identity_err_Ok, VariantFingerprint_try_from_Ok in Hfp.
  cbv zeta in Hs. set (gk := CourseGroupKey_new _ _ cs) in *. set (vk := CourseVariantKey_new gk fp) in *.
  apply result_bind_Ok in Hs as (course1 & Hc1 & Hs). apply ok_or_Ok in Hc1.
  set (facts := canonical_course_facts _) in *. assert (value_wf facts) as Hfacts by by apply canonical_course_facts_wf.
  set (g := default _ (clo_groups s !! gk)) in *.
  apply result_bind_Ok in Hs as (v & Hv & Hs). apply result_bind_Ok in Hs as (raws & Hraws & Hs).
  apply result_bind_Ok in Hs as ([metrics seen sections] & Hloop & [= <-]).
  assert (variant_ok (S n) vk (with_course (Z.of_nat n) (rcc_open_sections course)
            (canonical_raw_course_hash_v1 (RawCatalogCourse_to_value course)) v)
          ∧ vac_sections v = default ∅ (vac_sections <$> gac_variants g !! vk)) as [Hok Hsections].
  { destruct (gac_variants g !! vk) as [v0|] eqn:Hv0.
    - destruct (merge_course_variant_facts _ _) as [merged|] eqn:Hm; [|done].
      apply result_bind_Ok in Hv as (course2 & Hc2 & [= <-]). apply ok_or_Ok in Hc2. split; [|done].
      assert (variant_ok n vk v0) as Hv0'.
      { unfold g in Hv0. destruct (clo_groups s !! gk) as [g0|] eqn:Hg0; [|by cbn in Hv0; rewrite lookup_empty in Hv0].
        cbn in Hv0.
        by apply (ga_variants _ _ _ _ (Hgroups _ _ Hg0)) in Hv0 as []. }
      apply merged_variant_ok; [done..|]. eapply merge_facts_wf; [exact (va_wf _ _ _ Hv0')|exact Hfacts|done].
    - injection Hv as <-. split; [|done]. by eapply new_variant_ok. }
  exists gk, vk, g. eexists _, sections, seen, metrics, raws. split_and!; try done.
  - destruct target. done.
  - unfold required in Hraws. destruct (rcc_sections course); by simplify_eq.
  - rewrite (va_key _ _ _ Hok) in Hloop. exact Hloop.
Qed.

Lemma variant_view groups vk (g : GroupAccumulator) gk g0 :
  default g0 (groups !! gk) = g → gac_variants g0 = ∅ → cvk_group vk = gk →
  view_of groups vk = vac_sections <$> gac_variants g !! vk.
Proof.
  intros Hg Hempty Hgk. unfold view_of. rewrite Hgk. destruct (groups !! gk) as [g1|]; cbn in *; subst g.
  - by destruct (gac_variants g1 !! vk).
  - by rewrite Hempty, lookup_empty.
Qed.

Lemma update_variant_view groups gk g vk v key count g0 :
  default g0 (groups !! gk) = g → gac_variants g0 = ∅ → cvk_group vk = gk →
  ∀ k, update_view (view_of groups) vk (vac_sections v) k
       = view_of (<[gk := {| gac_key := key; gac_raw_course_count := count;
                             gac_variants := <[vk := v]> (gac_variants g) |}]> groups) k.
Proof.
  intros Hg Hempty Hgk k. unfold update_view. case_bool_decide as Hk.
  - subst k. unfold view_of. rewrite Hgk, lookup_insert_eq. cbn. by rewrite lookup_insert_eq.
  - destruct (decide (cvk_group k = gk)) as [Hgroup|Hgroup].
    + rewrite (variant_view _ _ _ _ _ Hg Hempty Hgroup). unfold view_of. rewrite Hgroup, lookup_insert_eq. cbn.
      rewrite lookup_insert_ne by done. by destruct (gac_variants g !! k).
    + unfold view_of. by rewrite lookup_insert_ne by done.
Qed.

Lemma course_step_ok target n s course s' :
  raw_course_ok course → (∀ raws, rcc_sections course = Presence_Value raws → Forall origin raws) →
  loop_ok target n s → course_step target s (Z.of_nat n, course) = Ok s' → loop_ok target (S n) s'.
Proof.
  intros Hcourse Horigin Hloop Hs. pose proof Hloop as [Hgroups Hview].
  destruct (course_step_inv _ _ _ _ _ Hcourse Hloop Hs) as
    (gk & vk & g & v & sections & seen & metrics & raws & Hg & Hgk & Htarget & Hcs & Hv & Hvs & Hraws & Hfold & ->).
  assert (gac_key g = gk ∧ ∀ k w, gac_variants g !! k = Some w → cvk_group k = gk ∧ variant_ok n k w) as [Hkey Hvariants].
  { destruct (clo_groups s !! gk) as [g0|] eqn:Hg0; cbn in Hg; subst g.
    - destruct (Hgroups _ _ Hg0) as []. done.
    - split; [done|]. intros k w Hw. cbn in Hw. by rewrite lookup_empty in Hw. }
  split; cbn [clo_groups clo_seen].
  - intros gk' g' [[<- <-]|[Hne Hg']]%lookup_insert_Some; [|by apply group_ok_later, Hgroups].
    split; cbn; [done..|]. intros k w [[<- <-]|[Hk Hw]]%lookup_insert_Some; [by split; [|apply with_sections_ok]|].
    destruct (Hvariants _ _ Hw). split; [done|by apply variant_ok_later].
  - eapply (view_ok_ext _ (update_view (view_of (clo_groups s)) vk sections)).
    { exact (update_variant_view (clo_groups s) gk g vk (with_sections sections v) _ _ _ Hg eq_refl Hgk). }
    eapply (section_loop_ok target (view_of (clo_groups s)) vk) in Hfold; [exact Hfold|exact (Horigin _ Hraws)|].
    cbn [slo_sections slo_seen]. rewrite Hvs.
    pose proof (variant_view _ vk _ _ _ Hg eq_refl Hgk) as Hold.
    destruct (gac_variants g !! vk) as [w|]; cbn in *; [by apply view_ok_same|by apply view_ok_empty_variant].
Qed.

Lemma initial_loop_ok target metrics :
  loop_ok target 0 {| clo_metrics := metrics; clo_groups := ∅; clo_seen := ∅ |}.
Proof.
  split; cbn; [by intros ? ?; rewrite lookup_empty|]. split.
  - intros vk sections sk sec. unfold view_of. by rewrite lookup_empty.
  - intros sk e. by rewrite lookup_empty.
Qed.

End normalize_facts.
