(* ===== verification/NormalizeSpec.v ===== *)
(** * What normalizing a catalog target gives

    The sections of a normalized target against the raw sections of its
    courses: which of them are kept, what the duplicates are collapsed to, and
    that the sections, variants and groups are without repetition and in
    order. *)

From S2P Require Import Prelude Identity Contracts CatalogData RustStr OpenClient Ordering Json RawCatalog RawCatalogFacts.
From S2P Require Import CatalogModel CatalogExample Canonical CanonicalFacts Delivery DeliveryFacts Normalize NormalizeFacts.

(** Keys strictly increasing. *)
Abbreviation strict_by key_of := (StronglySorted (λ x y, compare_keys key_of x y = Lt)).

Section normalize_spec.
Context `{Sha256ApiLaws, JsonText, !NumberApiLaws}.
Implicit Types (target : TermCampusKey) (sk : SectionKey) (raw : RawCatalogSection) (sec : NormalizedSection)
  (secs : list NormalizedSection) (seen : gmap SectionKey SectionSeen).

(** The raw sections of a target, in the order the courses list them. *)
Definition raw_sections (courses : list RawCatalogCourse) : list RawCatalogSection :=
  courses ≫= λ c, match rcc_sections c with Presence_Value raws => raws | _ => [] end.

Definition normalizes_to target raw sec : Prop :=
  ∃ res, normalize_section target raw = Ok res ∧ sre_section res = sec.

(** The sections of a list that have a key. *)
Definition with_key sk secs : list NormalizedSection := filter (λ sec, nsc_key sec = sk) secs.

(** ** The record of the sections seen is exact *)

Definition seen_exact secs seen : Prop :=
  ∀ sk, match seen !! sk with
  | None => with_key sk secs = []
  | Some e => sse_raw_record_count e = Z.of_nat (length (with_key sk secs))
      ∧ sse_raw_record_hashes e = list_to_set (nsc_first_record_hash <$> with_key sk secs)
      ∧ Forall (λ sec, nsc_semantic_hash sec = sse_semantic_hash e) (with_key sk secs)
  end.

Lemma with_key_snoc sk secs sec :
  with_key sk (secs ++ [sec]) = with_key sk secs ++ (if decide (nsc_key sec = sk) then [sec] else []).
Proof. unfold with_key. by rewrite filter_app. Qed.

Lemma seen_exact_other secs seen sec e :
  seen_exact secs seen →
  (sse_raw_record_count e = Z.of_nat (length (with_key (nsc_key sec) (secs ++ [sec])))
   ∧ sse_raw_record_hashes e = list_to_set (nsc_first_record_hash <$> with_key (nsc_key sec) (secs ++ [sec]))
   ∧ Forall (λ sec, nsc_semantic_hash sec = sse_semantic_hash e) (with_key (nsc_key sec) (secs ++ [sec]))) →
  seen_exact (secs ++ [sec]) (<[nsc_key sec := e]> seen).
Proof.
  intros Hseen He sk. destruct (decide (nsc_key sec = sk)) as [<-|Hne].
  - by rewrite lookup_insert_eq.
  - rewrite lookup_insert_ne by done. rewrite with_key_snoc, decide_False, app_nil_r by done. apply Hseen.
Qed.

Lemma section_step_exact target vk s raw s' secs :
  seen_exact secs (slo_seen s) → section_step target vk s raw = Ok s' →
  ∃ sec, normalizes_to target raw sec ∧ seen_exact (secs ++ [sec]) (slo_seen s').
Proof.
  intros Hseen (res & Hres & Hs)%result_bind_Ok. cbv zeta in Hs. set (sec := sre_section res) in *.
  exists sec. split; [by exists res|]. pose proof (Hseen (nsc_key sec)) as Hk.
  destruct (slo_seen s !! nsc_key sec) as [e|] eqn:He.
  - case_bool_decide as Hvk; [done|]. case_bool_decide as Hsem; [done|]. injection Hs as <-. cbn [slo_seen].
    destruct Hk as (Hc & Hh & Hf).
    apply seen_exact_other; [done|]. rewrite with_key_snoc, decide_True by done. cbn.
    rewrite length_app, fmap_app, list_to_set_app_L, Forall_app. cbn. split_and!; [lia| |done|by repeat constructor].
    rewrite Hh. set_solver.
  - injection Hs as <-. cbn [slo_seen]. apply seen_exact_other; [done|].
    rewrite with_key_snoc, decide_True, Hk by done. cbn. split_and!; [done|set_solver|by repeat constructor].
Qed.

Lemma sections_exact target vk s raws s' secs :
  seen_exact secs (slo_seen s) → try_fold (section_step target vk) s raws = Ok s' →
  ∃ new, Forall2 (normalizes_to target) raws new ∧ seen_exact (secs ++ new) (slo_seen s').
Proof.
  revert s secs. induction raws as [|raw raws IH]; intros s secs Hseen; cbn [try_fold].
  - intros [= <-]. exists []. by rewrite app_nil_r.
  - intros (s1 & Hs & Hfold)%result_bind_Ok.
    destruct (section_step_exact _ _ _ _ _ _ Hseen Hs) as (sec & Hsec & Hseen1).
    destruct (IH s1 _ Hseen1 Hfold) as (new & Hnew & Hseen2). exists (sec :: new).
    split; [by constructor|]. by rewrite <-app_assoc in Hseen2.
Qed.

Lemma course_step_exact target s entry s' secs :
  seen_exact secs (clo_seen s) → course_step target s entry = Ok s' →
  ∃ new, Forall2 (normalizes_to target) (raw_sections [entry.2]) new ∧ seen_exact (secs ++ new) (clo_seen s').
Proof.
  destruct entry as [ordinal course]. intros Hseen. unfold course_step.
  intros (_ & _ & Hs)%result_bind_Ok. apply result_bind_Ok in Hs as (text & _ & Hs).
  apply result_bind_Ok in Hs as (cs & _ & Hs). apply result_bind_Ok in Hs as (fp & _ & Hs). cbv zeta in Hs.
  apply result_bind_Ok in Hs as (course1 & _ & Hs). apply result_bind_Ok in Hs as (v & _ & Hs).
  apply result_bind_Ok in Hs as (raws & Hraws & Hs). apply result_bind_Ok in Hs as (loop & Hloop & [= <-]).
  cbn [clo_seen snd]. assert (raw_sections [course] = raws) as ->.
  { unfold raw_sections. cbn. rewrite app_nil_r. unfold required in Hraws. destruct (rcc_sections course); congruence. }
  by eapply sections_exact in Hloop.
Qed.

Lemma raw_sections_cons c courses : raw_sections (c :: courses) = raw_sections [c] ++ raw_sections courses.
Proof. unfold raw_sections. cbn. by rewrite app_nil_r. Qed.

Lemma courses_exact target s entries s' secs :
  seen_exact secs (clo_seen s) → try_fold (course_step target) s entries = Ok s' →
  ∃ new, Forall2 (normalizes_to target) (raw_sections entries.*2) new ∧ seen_exact (secs ++ new) (clo_seen s').
Proof.
  revert s secs. induction entries as [|entry entries IH]; intros s secs Hseen; cbn [try_fold].
  - intros [= <-]. exists []. rewrite app_nil_r. by split; [constructor|].
  - intros (s1 & Hs & Hfold)%result_bind_Ok.
    destruct (course_step_exact _ _ _ _ _ Hseen Hs) as (new & Hnew & Hseen1).
    destruct (IH s1 _ Hseen1 Hfold) as (new' & Hnew' & Hseen2). exists (new ++ new'). rewrite app_assoc.
    split; [|done]. change ((entry :: entries).*2) with (entry.2 :: entries.*2).
    rewrite raw_sections_cons. by apply Forall2_app.
Qed.

(** ** The loop of a target *)

(** A raw section of the courses, decoded. *)
Definition origin_in (courses : list RawCatalogCourse) raw : Prop :=
  raw ∈ raw_sections courses ∧ raw_section_ok raw.

Lemma normalize_target_loop target courses provenance t :
  Forall raw_course_ok courses → normalize_target target courses provenance = Ok t →
  ∃ s secs, t = finish_target target provenance s
    ∧ loop_ok (origin_in courses) target (length courses) s
    ∧ Forall2 (normalizes_to target) (raw_sections courses) secs ∧ seen_exact secs (clo_seen s).
Proof.
  intros Hcourses (s & Hfold & [= <-])%result_bind_Ok. exists s.
  assert (seen_exact [] (∅ : gmap SectionKey SectionSeen)) as Hnone by (intros sk; by rewrite lookup_empty).
  destruct ((λ Hn, courses_exact _ _ _ _ [] Hn Hfold) Hnone) as (secs & Hsecs & Hexact).
  assert ((imap (λ ordinal course, (Z.of_nat ordinal, course)) courses).*2 = courses) as Hsnd.
  { apply list_eq. intros i. rewrite list_lookup_fmap, list_lookup_imap. by destruct (courses !! i). }
  rewrite Hsnd in Hsecs. exists secs. split_and!; [done| |done|done].
  refine (try_fold_imap (loop_ok (origin_in courses) target) (course_step target) courses 0 _ s (initial_loop_ok _ _ _) _ Hfold).
  intros i s1 course s2 Hin. rewrite Forall_forall in Hcourses. apply course_step_ok; [by apply Hcourses|].
  intros raws Hraws. apply Forall_forall. intros raw Hraw. split.
  - unfold raw_sections. apply list_elem_of_bind. exists course. by rewrite Hraws.
  - destruct (Hcourses _ Hin) as (_ & _ & Hok). specialize (Hok _ Hraws). rewrite Forall_forall in Hok. by apply Hok.
Qed.

(** ** The sections kept *)

Section kept.
Context (target : TermCampusKey) (origin : RawCatalogSection → Prop) (n : nat) (s : CourseLoop).
Hypothesis (Hloop : loop_ok origin target n s).

Lemma variant_group gk g vk v :
  clo_groups s !! gk = Some g → gac_variants g !! vk = Some v →
  gac_key g = gk ∧ cvk_group vk = gk ∧ vac_key v = vk.
Proof using Hloop.
  intros Hg Hv. destruct (lo_groups _ _ _ _ Hloop _ _ Hg) as [Hk _ _ Hvs]. destruct (Hvs _ _ Hv) as [? []]. done.
Qed.

Definition finished_groups : list NormalizedCourseGroup := finish_group <$> btm_values (clo_groups s).
Definition finished_variants : list NormalizedCourseVariant := finished_groups ≫= ngr_variants.
Definition finished_sections : list NormalizedSection := finished_variants ≫= ncr_sections.

Lemma elem_of_finished_variants fv :
  fv ∈ finished_variants ↔
  ∃ gk g vk v, clo_groups s !! gk = Some g ∧ gac_variants g !! vk = Some v ∧ fv = finish_variant v.
Proof.
  unfold finished_variants, finished_groups. rewrite list_elem_of_bind. setoid_rewrite list_elem_of_fmap. split.
  - intros (fg & Hfv & g & -> & (gk & Hg)%elem_of_btm_values). cbn in Hfv.
    apply list_elem_of_fmap in Hfv as (v & -> & (vk & Hv)%elem_of_btm_values). by exists gk, g, vk, v.
  - intros (gk & g & vk & v & Hg & Hv & ->). exists (finish_group g). cbn. split.
    + apply list_elem_of_fmap. exists v. split; [done|]. apply elem_of_btm_values. by exists vk.
    + exists g. split; [done|]. apply elem_of_btm_values. by exists gk.
Qed.

Lemma elem_of_finished_sections sec :
  sec ∈ finished_sections ↔
  ∃ vk sections, view_of (clo_groups s) vk = Some sections ∧ sections !! nsc_key sec = Some sec.
Proof using Hloop.
  unfold finished_sections. rewrite list_elem_of_bind. setoid_rewrite elem_of_finished_variants. split.
  - intros (fv & Hsec & gk & g & vk & v & Hg & Hv & ->). cbn in Hsec. apply elem_of_btm_values in Hsec as [sk Hsk].
    destruct (variant_group _ _ _ _ Hg Hv) as (_ & Hgk & _).
    assert (view_of (clo_groups s) vk = Some (vac_sections v)) as Hview.
    { unfold view_of. rewrite Hgk, Hg. cbn. by rewrite Hv. }
    exists vk, (vac_sections v). split; [done|]. by destruct (vo_kept _ _ _ _ (lo_view _ _ _ _ Hloop) _ _ _ _ Hview Hsk) as [-> _].
  - intros (vk & sections & Hview & Hsec). unfold view_of in Hview. apply bind_Some in Hview as (g & Hg & Hview).
    apply bind_Some in Hview as (v & Hv & [= <-]). exists (finish_variant v). split.
    + apply elem_of_btm_values. by exists (nsc_key sec).
    + by exists (cvk_group vk), g, vk, v.
Qed.

(** A key is kept once, and it is kept exactly when it was seen. *)
Lemma finished_sections_inj sec sec' :
  sec ∈ finished_sections → sec' ∈ finished_sections → nsc_key sec = nsc_key sec' → sec = sec'.
Proof using Hloop.
  intros (vk & m & Hv & Hs)%elem_of_finished_sections (vk' & m' & Hv' & Hs')%elem_of_finished_sections Hk.
  destruct (vo_kept _ _ _ _ (lo_view _ _ _ _ Hloop) _ _ _ _ Hv Hs) as (_ & _ & e & He & Hvk).
  destruct (vo_kept _ _ _ _ (lo_view _ _ _ _ Hloop) _ _ _ _ Hv' Hs') as (_ & _ & e' & He' & Hvk').
  rewrite Hk in Hs, He. simplify_eq. done.
Qed.

Lemma finished_sections_seen sk :
  sk ∈ nsc_key <$> finished_sections ↔ is_Some (clo_seen s !! sk).
Proof using Hloop.
  rewrite list_elem_of_fmap. setoid_rewrite elem_of_finished_sections. split.
  - intros (sec & -> & vk & m & Hv & Hs).
    destruct (vo_kept _ _ _ _ (lo_view _ _ _ _ Hloop) _ _ _ _ Hv Hs) as (_ & _ & e & He & _). by exists e.
  - intros [e He]. destruct (vo_seen _ _ _ _ (lo_view _ _ _ _ Hloop) _ _ He) as (m & sec & Hv & Hs & _).
    destruct (vo_kept _ _ _ _ (lo_view _ _ _ _ Hloop) _ _ _ _ Hv Hs) as (<- & _). exists sec. naive_solver.
Qed.

Lemma variant_sections gk g vk v :
  clo_groups s !! gk = Some g → gac_variants g !! vk = Some v → view_of (clo_groups s) vk = Some (vac_sections v).
Proof using Hloop.
  intros Hg Hv. destruct (variant_group _ _ _ _ Hg Hv) as (_ & Hgk & _). unfold view_of. rewrite Hgk, Hg. cbn. by rewrite Hv.
Qed.

Lemma finished_variants_inj fv fv' :
  fv ∈ finished_variants → fv' ∈ finished_variants → ncr_key fv = ncr_key fv' → fv = fv'.
Proof using Hloop.
  intros (gk & g & vk & v & Hg & Hv & ->)%elem_of_finished_variants (gk' & g' & vk' & v' & Hg' & Hv' & ->)%elem_of_finished_variants.
  destruct (variant_group _ _ _ _ Hg Hv) as (_ & <- & <-), (variant_group _ _ _ _ Hg' Hv') as (_ & <- & <-).
  cbn. intros Hk. rewrite Hk in Hg, Hv. congruence.
Qed.

Lemma finished_group_keys : NoDup (ngr_key <$> finished_groups).
Proof using Hloop.
  unfold finished_groups. rewrite <-list_fmap_compose. change (ngr_key ∘ finish_group) with gac_key.
  rewrite btm_values_keys; [apply NoDup_btm_keys|]. intros gk g Hg. by destruct (lo_groups _ _ _ _ Hloop _ _ Hg).
Qed.

Lemma NoDup_finished_variants : NoDup (ncr_key <$> finished_variants).
Proof using Hloop.
  apply NoDup_fmap_2_strong; [exact finished_variants_inj|]. unfold finished_variants.
  apply NoDup_bind; [| |by eapply NoDup_fmap_1, finished_group_keys].
  - intros fg fg' fv (g & -> & (gk & Hg)%elem_of_btm_values)%list_elem_of_fmap
      (g' & -> & (gk' & Hg')%elem_of_btm_values)%list_elem_of_fmap
      (v & -> & (vk & Hv)%elem_of_btm_values)%list_elem_of_fmap (v' & Hvv & (vk' & Hv')%elem_of_btm_values)%list_elem_of_fmap.
    apply (f_equal ncr_key) in Hvv. cbn in Hvv.
    destruct (variant_group _ _ _ _ Hg Hv) as (_ & <- & <-), (variant_group _ _ _ _ Hg' Hv') as (_ & <- & <-).
    rewrite Hvv in Hg. congruence.
  - intros fg (g & -> & (gk & Hg)%elem_of_btm_values)%list_elem_of_fmap. cbn.
    apply (NoDup_fmap_1 ncr_key). rewrite <-list_fmap_compose.
    change (ncr_key ∘ finish_variant) with vac_key. rewrite btm_values_keys; [apply NoDup_btm_keys|].
    intros vk v Hv. by destruct (variant_group _ _ _ _ Hg Hv) as (_ & _ & ?).
Qed.

Lemma kept_in_variant gk g vk v sk sec :
  clo_groups s !! gk = Some g → gac_variants g !! vk = Some v → vac_sections v !! sk = Some sec →
  kept_ok origin target (clo_seen s) vk sk sec.
Proof using Hloop.
  intros Hg Hv. by apply (vo_kept _ _ _ _ (lo_view _ _ _ _ Hloop)), variant_sections with gk g.
Qed.

Lemma NoDup_finished_sections : NoDup (nsc_key <$> finished_sections).
Proof using Hloop.
  apply NoDup_fmap_2_strong; [exact finished_sections_inj|]. unfold finished_sections.
  apply NoDup_bind; [| |by eapply NoDup_fmap_1, NoDup_finished_variants].
  - intros fv fv' sec (gk & g & vk & v & Hg & Hv & ->)%elem_of_finished_variants
      (gk' & g' & vk' & v' & Hg' & Hv' & ->)%elem_of_finished_variants (sk & Hs)%elem_of_btm_values (sk' & Hs')%elem_of_btm_values.
    destruct (kept_in_variant _ _ _ _ _ _ Hg Hv Hs) as (<- & _ & e & He & Hvk).
    destruct (kept_in_variant _ _ _ _ _ _ Hg' Hv' Hs') as (<- & _ & e' & He' & Hvk').
    destruct (variant_group _ _ _ _ Hg Hv) as (_ & Hgk & _), (variant_group _ _ _ _ Hg' Hv') as (_ & Hgk' & _).
    simplify_eq. done.
  - intros fv (gk & g & vk & v & Hg & Hv & ->)%elem_of_finished_variants. cbn.
    apply (NoDup_fmap_1 nsc_key). rewrite btm_values_keys; [apply NoDup_btm_keys|]. intros sk sec Hs.
    by destruct (kept_in_variant _ _ _ _ _ _ Hg Hv Hs) as [-> _].
Qed.

End kept.

(** ** What a normalized target promises *)

Record variant_wf target (courses : nat) (v : NormalizedCourseVariant) : Prop := {
  vw_fingerprint : validate_fingerprint (fingerprint_str (cvk_fingerprint (ncr_key v))) = Ok ();
  vw_count : 1 ≤ ncr_raw_course_count v ≤ Z.of_nat courses;
  vw_facts : ∃ c, RawCatalogCourse_from_value (ncr_canonical_course_facts v) = Some c ∧ ncr_fields v = course_fields c;
  vw_hash : ncr_canonical_hash v = canonical_course_variant_hash_v1 (ncr_canonical_course_facts v);
  vw_ordinals : StronglySorted Z.lt (cos_source_ordinal <$> ncr_catalog_open_sections_snapshots v);
  vw_bound : Forall (λ o, 0 ≤ cos_source_ordinal o < Z.of_nat courses) (ncr_catalog_open_sections_snapshots v);
  vw_sections : strict_by nsc_key (ncr_sections v);
  vw_section_keys : Forall (λ sec, sk_target (nsc_key sec) = target ∧ SectionKey_wf (nsc_key sec)) (ncr_sections v);
  vw_section_from : Forall (λ sec, ∃ raw, normalizes_to target raw sec) (ncr_sections v)
}.

Record group_wf target (courses : nat) (g : NormalizedCourseGroup) : Prop := {
  gw_target : cgk_target (ngr_key g) = target;
  gw_course : validate_course_string (course_str (cgk_course_string (ngr_key g))) = Ok ();
  gw_variants : strict_by ncr_key (ngr_variants g);
  gw_variant : Forall (λ v, cvk_group (ncr_key v) = ngr_key g ∧ variant_wf target courses v) (ngr_variants g)
}.

Record target_wf target (courses : nat) (t : NormalizedCatalogTarget) : Prop := {
  tw_target : nct_target t = target;
  tw_groups : strict_by ngr_key (nct_groups t);
  tw_group : Forall (group_wf target courses) (nct_groups t);
  tw_content : nct_content_hash t = content_hash target (nct_groups t);
  tw_sections : NoDup (nsc_key <$> NormalizedCatalogTarget_sections t);
  tw_audits : strict_by dau_section_key (nct_duplicate_audits t);
  tw_audit_keys : Forall (λ a, dau_section_key a ∈ nsc_key <$> NormalizedCatalogTarget_sections t) (nct_duplicate_audits t);
  tw_normalized : cme_normalized_sections (nct_metrics t) = Z.of_nat (length (NormalizedCatalogTarget_sections t))
}.

Lemma strict_fmap {A B K} `{ROrd K} (f : A → B) (key_of : B → K) (l : list A) :
  strict_by (key_of ∘ f) l → strict_by key_of (f <$> l).
Proof. induction 1 as [|a l Hl IH Ha]; cbn; constructor; [done|]. by apply Forall_fmap. Qed.

Lemma btm_iter_strict {K V} `{Countable K, !ROrd K, !ROrdLaws K} (m : gmap K V) : strict_by fst (btm_iter m).
Proof.
  apply sorted_keys_strict; [|rewrite btm_iter_keys; apply NoDup_btm_keys].
  pose proof (StronglySorted_btm_keys m) as Hs. rewrite <-btm_iter_keys in Hs.
  induction (btm_iter m) as [|kv l IH]; [constructor|]. rewrite fmap_cons in Hs. apply StronglySorted_cons in Hs as [Hkv Hs].
  constructor; [by apply IH|]. rewrite Forall_fmap in Hkv. exact Hkv.
Qed.

Lemma finished_sections_length origin target n s :
  loop_ok origin target n s → length (finished_sections s) = size (clo_seen s).
Proof.
  intros Hloop. rewrite <-(length_fmap nsc_key), <-length_btm_keys.
  apply Permutation_length, NoDup_Permutation; [by eapply NoDup_finished_sections|apply NoDup_btm_keys|].
  intros sk. rewrite elem_of_btm_keys. by eapply finished_sections_seen.
Qed.

Lemma finish_variant_wf origin target n s gk g vk v :
  loop_ok origin target n s → clo_groups s !! gk = Some g → gac_variants g !! vk = Some v →
  variant_wf target n (finish_variant v).
Proof.
  intros Hloop Hg Hv. destruct (lo_groups _ _ _ _ Hloop _ _ Hg) as [_ _ _ Hvs].
  destruct (Hvs _ _ Hv) as [_ [Hkey Hcount Hord Hbound Hfacts Hwf Hhash Hfp]].
  assert (∀ sk sec, vac_sections v !! sk = Some sec → nsc_key sec = sk) as Hkeys
    by (intros sk sec Hs; by destruct (kept_in_variant _ _ _ _ Hloop _ _ _ _ _ _ Hg Hv Hs)).
  split; cbn; try done; [by rewrite Hkey|by apply btm_values_strict| |]; apply Forall_forall;
    intros sec [sk Hs]%elem_of_btm_values;
    destruct (kept_in_variant _ _ _ _ Hloop _ _ _ _ _ _ Hg Hv Hs) as (_ & (raw & res & _ & Hres & <-) & _).
  - by eapply section_key_target.
  - by exists raw, res.
Qed.

Lemma finish_group_wf origin target n s gk g :
  loop_ok origin target n s → clo_groups s !! gk = Some g → group_wf target n (finish_group g).
Proof.
  intros Hloop Hg. destruct (lo_groups _ _ _ _ Hloop _ _ Hg) as [Hkey Htarget Hcs Hvs].
  split; cbn; rewrite ?Hkey; [done..| |].
  - apply strict_fmap, btm_values_strict. intros vk v Hv. by destruct (Hvs _ _ Hv) as [_ []].
  - apply Forall_fmap, Forall_forall. intros v [vk Hv]%elem_of_btm_values. cbn.
    destruct (variant_group _ _ _ _ Hloop _ _ _ _ Hg Hv) as (_ & Hgk & ->). split; [done|by eapply finish_variant_wf].
Qed.

Lemma finish_target_wf origin target n s provenance :
  loop_ok origin target n s → target_wf target n (finish_target target provenance s).
Proof.
  intros Hloop. split; cbn; try done.
  - apply strict_fmap, btm_values_strict. intros gk g Hg. by destruct (lo_groups _ _ _ _ Hloop _ _ Hg).
  - apply Forall_fmap, Forall_forall. intros g [gk Hg]%elem_of_btm_values. by eapply finish_group_wf.
  - by eapply NoDup_finished_sections.
  - apply strict_fmap. change (dau_section_key ∘ duplicate_audit) with (fst : SectionKey * SectionSeen → SectionKey).
    apply StronglySorted_filter, btm_iter_strict.
  - apply Forall_fmap, Forall_forall. intros [sk e] [_ He%elem_of_btm_iter]%list_elem_of_filter. cbn.
    apply (finished_sections_seen _ _ _ _ Hloop). by eexists.
  - f_equal. symmetry. by eapply finished_sections_length.
Qed.

(** ** Errors *)

Lemma section_semantic_decodes raw :
  raw_section_ok raw →
  is_Some (RawCatalogSection_from_value (canonical_section_semantic_value_v1 (RawCatalogSection_to_value raw))).
Proof.
  intros [Hback Hwf]. destruct (RawCatalogSection_to_value raw) as [| | | | |m] eqn:Hm; try discriminate Hback.
  unfold canonical_section_semantic_value_v1. rewrite canonicalize_object by by apply value_wf_object_inv in Hwf as [].
  apply RawCatalogSection_ok, members_ok_canonicalize; [done|]. apply RawCatalogSection_ok. by eexists.
Qed.

Lemma course_facts_decode c :
  raw_course_ok c → is_Some (RawCatalogCourse_from_value (canonical_course_facts (RawCatalogCourse_to_value c))).
Proof.
  intros (Hback & Hwf & _). destruct (RawCatalogCourse_to_value c) as [| | | | |m] eqn:Hm; try discriminate Hback.
  assert (members_ok RawCatalogCourse_names m) as Hok by (apply RawCatalogCourse_ok; by eexists).
  pose proof (value_wf_object_inv _ Hwf) as [Hs Hall]. unfold canonical_course_facts, canonical_course_semantic_value_v1.
  set (m' := obj_remove _ _). assert (value_wf (Value_Object m')) as Hwf'.
  { constructor; [by repeat apply obj_remove_sorted|]. apply Forall_forall. intros kv Hin. unfold m', obj_remove in Hin.
    rewrite !list_elem_of_filter in Hin. rewrite Forall_forall in Hall. apply Hall. tauto. }
  rewrite canonicalize_object by by apply value_wf_object_inv in Hwf' as [].
  apply RawCatalogCourse_ok, members_ok_canonicalize; [done|]. unfold m'. by repeat apply members_ok_remove.
Qed.

Lemma merged_facts_decode existing incoming merged :
  is_Some (RawCatalogCourse_from_value existing) → merge_course_variant_facts existing incoming = Some merged →
  is_Some (RawCatalogCourse_from_value merged).
Proof.
  intros Hex. unfold merge_course_variant_facts. intros (m & Hm & Hmerge)%bind_Some.
  apply bind_Some in Hmerge as (m' & Hm' & Hmerge). destruct existing as [| | | | |?]; simplify_eq/=.
  case_bool_decide; [done|]. apply bind_Some in Hmerge as (locations & Hl & [= <-]).
  apply RawCatalogCourse_ok. apply RawCatalogCourse_ok in Hex.
  destruct locations as [l|]; [|by apply members_ok_remove].
  intros name v Hin Hv. rewrite obj_get_insert in Hv. case_bool_decide; [|by apply (Hex name)]. injection Hv as <-. subst name.
  destruct (obj_get "campusLocations" m) as [a|] eqn:Ha, (obj_get "campusLocations" m') as [b|]; try done.
  case_bool_decide; [injection Hl as <-; by apply (Hex "campusLocations")|].
  destruct a as [| | | |a|], b as [| | | |b|]; try done. by injection Hl as <-.
Qed.

Lemma canonical_err_ok {A} (o : option A) : is_Some o → ∃ a, canonical_err o = Ok a.
Proof. intros [a ->]. by exists a. Qed.

Lemma result_bind_Err {E A B} (r : result E A) (k : A → result E B) e :
  r ≫= k = Err e → r = Err e ∨ ∃ a, r = Ok a ∧ k a = Err e.
Proof. destruct r; cbn; [right; eauto|left; congruence]. Qed.

Lemma validate_optional_campus_shape_err value field e :
  validate_optional_campus_shape value field = Err e → e ≠ NormalizationError_Canonicalization.
Proof. destruct value; by intros [= <-]. Qed.

Lemma required_err {T} (value : Presence T) field e :
  required value field = Err e → e ≠ NormalizationError_Canonicalization.
Proof. destruct value; by intros [= <-]. Qed.

Lemma identity_err_err {A} (r : result IdentityError A) e :
  identity_err r = Err e → e ≠ NormalizationError_Canonicalization.
Proof. destruct r; by intros [= <-]. Qed.

Lemma section_step_err target vk s raw e :
  raw_section_ok raw → section_step target vk s raw = Err e → e ≠ NormalizationError_Canonicalization.
Proof.
  intros Hraw [Hn|(res & _ & Hs)]%result_bind_Err.
  - apply result_bind_Err in Hn as [Hn|(? & _ & Hn)]; [by eapply validate_optional_campus_shape_err|].
    apply result_bind_Err in Hn as [Hn|(? & _ & Hn)]; [by eapply required_err|].
    apply result_bind_Err in Hn as [Hn|(? & _ & Hn)]; [by eapply identity_err_err|]. cbv zeta in Hn.
    destruct (canonical_err_ok _ (section_semantic_decodes _ Hraw)) as [r Hr]. rewrite Hr in Hn. cbn [mbind result_bind] in Hn.
    destruct (classify_delivery _ _) as [dm sy]. discriminate Hn.
  - cbv zeta in Hs. destruct (slo_seen s !! _); [|done]. case_bool_decide; [by injection Hs as <-|].
    case_bool_decide; [by injection Hs as <-|done].
Qed.

Lemma sections_err target vk s raws e :
  Forall raw_section_ok raws → try_fold (section_step target vk) s raws = Err e → e ≠ NormalizationError_Canonicalization.
Proof.
  intros Hraws. revert s. induction Hraws as [|raw raws Hraw _ IH]; intros s; cbn [try_fold]; [done|].
  intros [Hs|(s' & _ & Hs)]%result_bind_Err; [by eapply section_step_err|by eapply IH].
Qed.

Lemma course_step_err origin target n s course e :
  raw_course_ok course → loop_ok origin target n s → course_step target s (Z.of_nat n, course) = Err e →
  e ≠ NormalizationError_Canonicalization.
Proof.
  intros Hcourse Hloop. unfold course_step.
  intros [Hs|(? & _ & Hs)]%result_bind_Err; [by eapply validate_optional_campus_shape_err|].
  apply result_bind_Err in Hs as [Hs|(? & _ & Hs)]; [by eapply required_err|].
  apply result_bind_Err in Hs as [Hs|(? & _ & Hs)]; [by eapply identity_err_err|].
  apply result_bind_Err in Hs as [Hs|(fp & _ & Hs)]; [by eapply identity_err_err|]. cbv zeta in Hs.
  destruct (canonical_err_ok _ (course_facts_decode _ Hcourse)) as [c1 Hc1]. rewrite Hc1 in Hs. cbn in Hs.
  set (gk := CourseGroupKey_new _ _ _) in *. set (g := default _ (clo_groups s !! gk)) in *.
  apply result_bind_Err in Hs as [Hs|(v & _ & Hs)].
  - destruct (gac_variants g !! _) as [v|] eqn:Hv; [|done].
    destruct (merge_course_variant_facts _ _) as [merged|] eqn:Hm; [|by injection Hs as <-].
    unfold g in Hv. destruct (clo_groups s !! gk) as [g0|] eqn:Hg0; cbn in Hv; [|by rewrite lookup_empty in Hv].
    destruct (ga_variants _ _ _ _ (lo_groups _ _ _ _ Hloop _ _ Hg0) _ _ Hv) as [_ Hok].
    destruct (va_facts _ _ _ Hok) as (c & Hc & _).
    destruct (canonical_err_ok _ (merged_facts_decode _ _ _ (mk_is_Some _ _ Hc) Hm)) as [c2 Hc2]. by rewrite Hc2 in Hs.
  - apply result_bind_Err in Hs as [Hs|(raws & Hraws & Hs)]; [by eapply required_err|].
    apply result_bind_Err in Hs as [Hs|(loop & _ & Hs)]; [|done]. eapply sections_err; [|exact Hs].
    apply (proj2 (proj2 Hcourse)). unfold required in Hraws. destruct (rcc_sections course); congruence.
Qed.

Lemma courses_err origin target n s courses e :
  Forall raw_course_ok courses →
  (∀ course raws, course ∈ courses → rcc_sections course = Presence_Value raws → Forall origin raws) →
  loop_ok origin target n s →
  try_fold (course_step target) s (imap (λ i course, (Z.of_nat (n + i), course)) courses) = Err e →
  e ≠ NormalizationError_Canonicalization.
Proof.
  intros Hcourses. revert n s. induction Hcourses as [|course courses Hcourse _ IH]; intros n s Horigin Hloop; cbn; [done|].
  rewrite Nat.add_0_r. intros [Hs|(s1 & Hs & Hfold)]%result_bind_Err; [by eapply course_step_err|].
  apply (IH (S n) s1); [intros c raws Hc; apply Horigin; by right| |].
  - eapply course_step_ok; [done| |done|done]. intros raws. apply Horigin. left.
  - rewrite <-Hfold. f_equal. apply imap_ext. intros i x _. cbn. do 2 f_equal. lia.
Qed.

(** A section that is kept, with its record. *)
Lemma kept_record target courses s secs kept :
  loop_ok (origin_in courses) target (length courses) s → Forall2 (normalizes_to target) (raw_sections courses) secs →
  kept ∈ finished_sections s →
  kept ∈ secs ∧ ∃ e, clo_seen s !! nsc_key kept = Some e
    ∧ sse_semantic_hash e = nsc_semantic_hash kept
    ∧ ∀ h, h ∈ sse_raw_record_hashes e → rle (nsc_first_record_hash kept) h.
Proof.
  intros Hloop Hsecs Hkept. apply (elem_of_finished_sections _ _ _ _ Hloop) in Hkept as (vk & m & Hv & Hs).
  destruct (vo_kept _ _ _ _ (lo_view _ _ _ _ Hloop) _ _ _ _ Hv Hs) as (_ & (raw & res & [Hraw _] & Hres & Hsec) & e & He & Hvk).
  split.
  - apply list_elem_of_lookup in Hraw as [i Hi]. destruct (Forall2_lookup_l _ _ _ _ _ Hsecs Hi) as (sec & Hi' & res' & Hres' & <-).
    rewrite Hres in Hres'. injection Hres' as <-. rewrite Hsec in Hi'. by eapply list_elem_of_lookup_2.
  - exists e. split; [done|]. destruct (vo_seen _ _ _ _ (lo_view _ _ _ _ Hloop) _ _ He) as (m' & sec & Hv' & Hs' & ? & _ & _ & Hmin & _).
    rewrite Hvk, Hv in Hv'. simplify_eq. done.
Qed.

(** ** The properties *)

Context `{!JsonParser, !JsonSlice}.

(** C18. A normalized target is well formed: its groups, the variants of a group,
    the sections of a variant and the duplicate audits are in strictly
    increasing order of their keys, every key lies in the target, no section
    key is held twice in the whole target, the fields and the hash of a variant
    are those of its facts, and its snapshots of open sections are in the order
    of the courses. *)
Theorem normalize_target_wf (body : string) courses target provenance t :
  decode_catalog_payload body = Some courses → normalize_target target courses provenance = Ok t →
  target_wf target (length courses) t.
Proof.
  intros Hbody Ht. apply decode_courses_ok in Hbody.
  destruct (normalize_target_loop _ _ _ _ Hbody Ht) as (s & secs & -> & Hloop & _). by eapply finish_target_wf.
Qed.

(** C15. The sections of a normalized target are exactly the classes of the raw
    sections of the payload under their keys: every raw section was normalized
    and its key is kept; what is kept is one of the raw sections, agrees with
    all others of its key in the semantic hash and has the least record hash of
    them; and the audits are exactly of the keys with more than one raw
    section, with their number and their record hashes. *)
Theorem normalize_target_sections (body : string) courses target provenance t :
  decode_catalog_payload body = Some courses → normalize_target target courses provenance = Ok t →
  ∃ secs, Forall2 (normalizes_to target) (raw_sections courses) secs
    ∧ (∀ sec, sec ∈ secs → nsc_key sec ∈ nsc_key <$> NormalizedCatalogTarget_sections t)
    ∧ (∀ kept sec, kept ∈ NormalizedCatalogTarget_sections t → sec ∈ with_key (nsc_key kept) secs →
         nsc_semantic_hash sec = nsc_semantic_hash kept
         ∧ rle (nsc_first_record_hash kept) (nsc_first_record_hash sec))
    ∧ (∀ kept, kept ∈ NormalizedCatalogTarget_sections t → kept ∈ secs)
    ∧ ∀ audit, audit ∈ nct_duplicate_audits t ↔
        ∃ kept, kept ∈ NormalizedCatalogTarget_sections t
          ∧ (1 < length (with_key (nsc_key kept) secs))%nat
          ∧ audit = {| dau_section_key := nsc_key kept;
                       dau_raw_record_count := Z.of_nat (length (with_key (nsc_key kept) secs));
                       dau_raw_record_hashes :=
                         bts_iter (list_to_set (C := gset Sha256Hex)
                           (nsc_first_record_hash <$> with_key (nsc_key kept) secs));
                       dau_semantic_hash := nsc_semantic_hash kept;
                       dau_disposition := DuplicateDisposition_AuditedEquivalentCollapse;
                       dau_reason := "ALL_SECTION_SEMANTIC_HASHES_EQUAL" |}.
Proof.
  intros Hbody%decode_courses_ok Ht.
  destruct (normalize_target_loop _ _ _ _ Hbody Ht) as (s & secs & -> & Hloop & Hsecs & Hexact).
  change (NormalizedCatalogTarget_sections _) with (finished_sections s). exists secs. split_and!; [done| | | |].
  - intros sec Hsec. apply (finished_sections_seen _ _ _ _ Hloop). pose proof (Hexact (nsc_key sec)) as Hk.
    destruct (clo_seen s !! nsc_key sec) as [e|]; [by eexists|]. assert (sec ∈ with_key (nsc_key sec) secs) as Hin
      by by apply list_elem_of_filter. rewrite Hk in Hin. by apply elem_of_nil in Hin.
  - intros kept sec Hkept Hsec. destruct (kept_record _ _ _ _ _ Hloop Hsecs Hkept) as (_ & e & He & Hh & Hmin).
    pose proof (Hexact (nsc_key kept)) as Hk. rewrite He in Hk. destruct Hk as (_ & Hhashes & Hall).
    rewrite Forall_forall in Hall. rewrite <-Hh. split; [by apply Hall|]. apply Hmin. rewrite Hhashes.
    apply elem_of_list_to_set, list_elem_of_fmap. by exists sec.
  - intros kept Hkept. by destruct (kept_record _ _ _ _ _ Hloop Hsecs Hkept).
  - intros audit. cbn [nct_duplicate_audits finish_target]. rewrite list_elem_of_fmap. split.
    + intros ([sk e] & -> & [Hcount He%elem_of_btm_iter]%list_elem_of_filter). cbn in Hcount.
      pose proof (proj2 (finished_sections_seen _ _ _ _ Hloop sk) (mk_is_Some _ _ He)) as (kept & -> & Hkept)%list_elem_of_fmap.
      destruct (kept_record _ _ _ _ _ Hloop Hsecs Hkept) as (_ & e' & He' & Hh & _). simplify_eq.
      pose proof (Hexact (nsc_key kept)) as Hk. rewrite He in Hk. destruct Hk as (Hc & Hhashes & _).
      exists kept. split_and!; [done|lia|]. unfold duplicate_audit. cbn. by rewrite Hc, Hhashes, Hh.
    + intros (kept & Hkept & Hcount & ->). destruct (kept_record _ _ _ _ _ Hloop Hsecs Hkept) as (_ & e & He & Hh & _).
      pose proof (Hexact (nsc_key kept)) as Hk. rewrite He in Hk. destruct Hk as (Hc & Hhashes & _).
      exists (nsc_key kept, e). unfold duplicate_audit. cbn. rewrite Hc, Hhashes, Hh. split; [done|].
      apply list_elem_of_filter. cbn. rewrite Hc. split; [lia|by apply elem_of_btm_iter].
Qed.

(** C22. Normalizing the courses of an accepted payload never fails in the
    canonical encoding: whatever is malformed in a course stays decodable after
    the canonical projections and after the merging of variants, so the two
    conversions of a decoding error into that one are unreachable. *)
Theorem normalize_target_never_canonicalization (body : string) courses target provenance e :
  decode_catalog_payload body = Some courses → normalize_target target courses provenance = Err e →
  e ≠ NormalizationError_Canonicalization.
Proof.
  intros Hbody%decode_courses_ok Ht. apply result_bind_Err in Ht as [Hs|(? & _ & ?)]; [|done].
  eapply (courses_err (λ _, True) target 0); [done| |apply initial_loop_ok|exact Hs].
  intros course raws _ _. by apply Forall_true.
Qed.

End normalize_spec.

(** ** Witnesses *)

#[local] Existing Instance concrete_sha256_api.
#[local] Existing Instance concrete_number_api.
#[local] Existing Instance concrete_json_text.
#[local] Existing Instance ce_parser.
#[local] Existing Instance ce_slice.

Lemma ce_decoded : decode_catalog_payload "payload" = Some ce_courses.
Proof. vm_compute. reflexivity. Qed.

Lemma normalize_target_wf_witness :
  ∃ t, normalize_target ce_target ce_courses ce_provenance = Ok t ∧ length (NormalizedCatalogTarget_sections t) = 3%nat
       ∧ target_wf ce_target (length ce_courses) t.
Proof.
  destruct (ok_and_true (λ t, bool_decide (length (NormalizedCatalogTarget_sections t) = 3%nat))
    (normalize_target ce_target ce_courses ce_provenance)) as (t & Ht & Hlen%bool_decide_eq_true); [vm_compute; reflexivity|].
  exists t. split_and!; [exact Ht|exact Hlen|].
  exact (@normalize_target_wf concrete_sha256_api concrete_sha256_api_laws concrete_number_api concrete_json_text
    concrete_number_api_laws ce_parser ce_slice "payload" ce_courses ce_target ce_provenance t ce_decoded Ht).
Defined.

Lemma normalize_target_sections_witness :
  ∃ t secs, normalize_target ce_target ce_courses ce_provenance = Ok t ∧ length (nct_duplicate_audits t) = 1%nat
    ∧ Forall2 (normalizes_to ce_target) (raw_sections ce_courses) secs.
Proof.
  destruct (ok_and_true (λ t, bool_decide (length (nct_duplicate_audits t) = 1%nat))
    (normalize_target ce_target ce_courses ce_provenance)) as (t & Ht & Hlen%bool_decide_eq_true); [vm_compute; reflexivity|].
  destruct (@normalize_target_sections concrete_sha256_api concrete_sha256_api_laws concrete_number_api concrete_json_text
    concrete_number_api_laws ce_parser ce_slice "payload" ce_courses ce_target ce_provenance t ce_decoded Ht) as (secs & Hsecs & _).
  exists t, secs. split_and!; [exact Ht|exact Hlen|exact Hsecs].
Defined.

(** A payload that is refused: its course string is none. *)
Definition ce_bad_slice : JsonSlice := λ _, Some (Parsed_Seq [Parsed_Map [("courseString", Parsed_Str "")]]).
Definition ce_bad_courses : list RawCatalogCourse := default [] (@decode_catalog_payload _ _ _ _ ce_bad_slice "payload").

Lemma normalize_target_never_canonicalization_witness :
  ∃ e, @decode_catalog_payload _ _ _ _ ce_bad_slice "payload" = Some ce_bad_courses
    ∧ normalize_target ce_target ce_bad_courses ce_provenance = Err e ∧ e ≠ NormalizationError_Canonicalization.
Proof.
  assert (@decode_catalog_payload _ _ _ _ ce_bad_slice "payload" = Some ce_bad_courses) as Hc by (vm_compute; reflexivity).
  eexists. split_and!; [exact Hc|vm_compute; reflexivity|].
  apply (@normalize_target_never_canonicalization concrete_sha256_api concrete_sha256_api_laws concrete_number_api concrete_json_text
    concrete_number_api_laws ce_parser ce_bad_slice "payload" ce_bad_courses ce_target ce_provenance _ Hc).
  vm_compute. reflexivity.
Defined.
