(* ===== verification/CatalogSnapshot.v ===== *)
(** * Catalog snapshots of the storage
    (crates/bcsp-operational-storage/src/model.rs, storage.rs)

    The rows a catalog refresh stores, the command that carries them, their
    validation and the content hash that is computed from the rows. *)

From S2P Require Import Prelude Ordering Identity Contracts CatalogData RustStr OpenClient.
From S2P Require Import OpenStore OpenService OpenTables OpenCommands Json RawCatalog CatalogModel.

Section catalog_snapshot.
Context `{NumberApi}.

(** ** Rows *)

Record StoredCourseGroup := {
  scg_key : CourseGroupKey;
  scg_canonical_facts : Value
}.

Record StoredCourseVariant := {
  scv_key : CourseVariantKey;
  scv_subject_code : option string;
  scv_course_number : option string;
  scv_title : option string;
  scv_description : option string;
  scv_credits_summary : option string;
  scv_supplement : option string;
  scv_search_document : string;
  scv_canonical_sha256 : string;
  scv_raw_multiplicity : Z;
  scv_canonical_facts : Value
}.

Record StoredSection := {
  sts_key : SectionKey;
  sts_variant_key : CourseVariantKey;
  sts_section_number : option string;
  sts_catalog_status : option string;
  sts_section_course_type : option string;
  sts_delivery_modality : string;
  sts_synchronicity : string;
  sts_canonical_facts : Value;
  sts_canonical_sha256 : string
}.

Record StoredOccurrence := {
  sto_section_key : SectionKey;
  sto_occurrence_key : string;
  sto_ordinal : Z;
  sto_weekday : option string;
  sto_start_minute : option Z;
  sto_end_minute : option Z;
  sto_time_knowledge : string;
  sto_requiredness : string;
  sto_occurrence_kind : string;
  sto_evidence : string;
  sto_normalization_reason : string;
  sto_modality : string;
  sto_synchronicity : string;
  sto_location : option string;
  sto_building : option string;
  sto_room : option string;
  sto_raw_sha256 : string;
  sto_canonical_facts : Value
}.

Inductive ProvenanceEntityKind :=
| ProvenanceEntityKind_CourseGroup
| ProvenanceEntityKind_CourseVariant
| ProvenanceEntityKind_Section
| ProvenanceEntityKind_Occurrence.

Record StoredProvenance := {
  stp_entity_kind : ProvenanceEntityKind;
  stp_entity_key : string;
  stp_field_name : string;
  stp_source_sha256 : string;
  stp_source_ordinal : Z;
  stp_detail : Value
}.

Record CatalogSnapshot := {
  csn_course_groups : list StoredCourseGroup;
  csn_course_variants : list StoredCourseVariant;
  csn_sections : list StoredSection;
  csn_occurrences : list StoredOccurrence;
  csn_provenance : list StoredProvenance
}.

Record CatalogCounts := {
  cct_course_groups : Z;
  cct_course_variants : Z;
  cct_sections : Z;
  cct_occurrences : Z
}.

Definition CatalogSnapshot_is_empty (snapshot : CatalogSnapshot) : bool :=
  bool_decide (length (csn_course_groups snapshot) = 0%nat)
  && bool_decide (length (csn_course_variants snapshot) = 0%nat)
  && bool_decide (length (csn_sections snapshot) = 0%nat)
  && bool_decide (length (csn_occurrences snapshot) = 0%nat).

Definition CatalogSnapshot_counts (snapshot : CatalogSnapshot) : CatalogCounts :=
  {| cct_course_groups := Z.of_nat (length (csn_course_groups snapshot));
     cct_course_variants := Z.of_nat (length (csn_course_variants snapshot));
     cct_sections := Z.of_nat (length (csn_sections snapshot));
     cct_occurrences := Z.of_nat (length (csn_occurrences snapshot)) |}.

Record RawStagingPayload := { rsp_sha256 : string; rsp_bytes : string }.

Record CatalogRefreshCommand := {
  crf_observation_id : TraceId;
  crf_target : TermCampusKey;
  crf_started_at : string;
  crf_completed_at : string;
  crf_source_content_sha256 : string;
  crf_semantic_content_sha256 : string;
  crf_source_bytes : Z;
  crf_raw_payload : option RawStagingPayload;
  crf_snapshot : CatalogSnapshot
}.

End catalog_snapshot.

#[export] Instance ProvenanceEntityKind_eq_dec : EqDecision ProvenanceEntityKind.
Proof. solve_decision. Defined.

Definition ProvenanceEntityKind_index (k : ProvenanceEntityKind) : nat :=
  match k with
  | ProvenanceEntityKind_CourseGroup => 0
  | ProvenanceEntityKind_CourseVariant => 1
  | ProvenanceEntityKind_Section => 2
  | ProvenanceEntityKind_Occurrence => 3
  end.
#[export] Instance ProvenanceEntityKind_rord : ROrd ProvenanceEntityKind := rord_via ProvenanceEntityKind_index.
#[export] Instance ProvenanceEntityKind_index_inj : Inj (=) (=) ProvenanceEntityKind_index.
Proof. by intros [] []. Qed.
#[export] Instance ProvenanceEntityKind_countable : Countable ProvenanceEntityKind.
Proof.
  apply (inj_countable ProvenanceEntityKind_index
    (λ n, ([ProvenanceEntityKind_CourseGroup; ProvenanceEntityKind_CourseVariant;
            ProvenanceEntityKind_Section; ProvenanceEntityKind_Occurrence] : list ProvenanceEntityKind) !! n)).
  by intros [].
Defined.
#[export] Instance ProvenanceEntityKind_rord_laws : ROrdLaws ProvenanceEntityKind.
Proof. apply (rord_via_laws ProvenanceEntityKind_index). Qed.

Definition ProvenanceEntityKind_as_str (k : ProvenanceEntityKind) : string :=
  match k with
  | ProvenanceEntityKind_CourseGroup => "COURSE_GROUP"
  | ProvenanceEntityKind_CourseVariant => "COURSE_VARIANT"
  | ProvenanceEntityKind_Section => "SECTION"
  | ProvenanceEntityKind_Occurrence => "OCCURRENCE"
  end.

(** ** Validation of the fields *)

Definition catalog_check (field reason : string) (valid : bool) : result StorageError () :=
  if valid then Ok () else Err (StorageError_InvalidCommand field reason).

(** The same target, by its two parts. *)
Definition validate_group_target (target : TermCampusKey) (group : CourseGroupKey)
    : result StorageError () :=
  catalog_check "course_group.key" "identity is outside the refresh target"
    (negb (bool_decide (cgk_term group ≠ tck_term target)
           || bool_decide (cgk_campus group ≠ tck_campus target))).

Definition validate_section_target (target : TermCampusKey) (section : SectionKey)
    : result StorageError () :=
  catalog_check "section.key" "identity is outside the refresh target"
    (negb (bool_decide (sk_term section ≠ tck_term target)
           || bool_decide (sk_campus section ≠ tck_campus target))).

Definition duplicate_error (field : string) : StorageError :=
  StorageError_InvalidCommand field "contains a duplicate stable identity".

Definition orphan_error (field : string) : StorageError :=
  StorageError_InvalidCommand field "contains a row whose normalized parent is absent".

Definition is_identifier_byte (c : Ascii.ascii) : bool :=
  is_ascii_alphanumeric c || byte_is 95 c || byte_is 45 c || byte_is 46 c || byte_is 58 c || byte_is 47 c.

Definition validate_identifier (field value : string) (max_bytes : nat) : result StorageError () :=
  catalog_check field "must be a bounded stable ASCII identifier"
    (negb (bool_decide (value = "") || bool_decide (max_bytes < String.length value)%nat
           || negb (forallb is_identifier_byte (bytes value)))).

(** [storage.rs] has its own [validate_safe_code], with its own reason. *)
Definition validate_catalog_safe_code (field value : string) : result StorageError () :=
  catalog_check field "must be an uppercase stable code of at most 64 bytes"
    (negb (bool_decide (value = "") || bool_decide (64 < String.length value)%nat
           || negb (forallb (λ c, is_ascii_uppercase c || is_ascii_digit c || byte_is 95 c) (bytes value)))).

Definition validate_text (field value : string) (max_bytes : nat) (allow_empty : bool)
    : result StorageError () :=
  catalog_check field "text violates the empty, size, or NUL boundary"
    (negb (negb allow_empty && bool_decide (value = "")
           || bool_decide (max_bytes < String.length value)%nat
           || existsb (byte_is 0) (bytes value))).

Definition validate_optional_text (field : string) (value : option string) (max_bytes : nat)
    : result StorageError () :=
  match value with Some value => validate_text field value max_bytes true | None => Ok () end.

Definition validate_sha256 (field value : string) : result StorageError () :=
  catalog_check field "must be canonical lowercase SHA-256 hex"
    (negb (bool_decide (String.length value ≠ 64%nat) || negb (forallb is_lower_hex (bytes value)))).

Definition TIME_KNOWLEDGE_WIRE_VALUES : list string :=
  ["MISSING"; "EXPLICIT_NULL"; "EMPTY"; "PARTIAL"; "INVALID"; "KNOWN"].
Definition REQUIREDNESS_WIRE_VALUES : list string := ["REQUIRED"; "OPTIONAL"; "UNKNOWN_REQUIREDNESS"].
Definition OCCURRENCE_KIND_WIRE_VALUES : list string := ["SCHEDULED"; "BY_ARRANGEMENT"; "UNSPECIFIED"].
Definition OCCURRENCE_EVIDENCE_WIRE_VALUES : list string := ["NONE"; "PHYSICAL"; "REMOTE"].
Definition MODALITY_WIRE_VALUES : list string :=
  ["ON_CAMPUS_OR_IN_PERSON"; "HYBRID"; "ONLINE"; "OTHER"; "UNKNOWN"; "UNKNOWN_CONFLICT"].
Definition SYNCHRONICITY_WIRE_VALUES : list string :=
  ["SYNC"; "ASYNC"; "UNSPECIFIED"; "UNKNOWN"; "MIXED"; "BY_ARRANGEMENT"].

Definition validate_wire_token (field value : string) (allowed : list string)
    : result StorageError () :=
  catalog_check field "must be an exact shared-contract wire value" (bool_decide (value ∈ allowed)).

Definition validate_occurrence_time_projection `{NumberApi} (occurrence : StoredOccurrence)
    : result StorageError () :=
  if bool_decide (sto_time_knowledge occurrence = "KNOWN") then
    catalog_check "occurrence.time_knowledge"
      "KNOWN requires an ordered projected minute range within one day"
      match sto_start_minute occurrence, sto_end_minute occurrence with
      | Some start, Some end_ =>
          bool_decide (start < 1440) && bool_decide (end_ ≤ 1440) && bool_decide (start < end_)
      | _, _ => false
      end
  else
    catalog_check "occurrence.time_knowledge"
      "non-KNOWN time states must not expose minute projections"
      (bool_decide (sto_start_minute occurrence = None) && bool_decide (sto_end_minute occurrence = None)).

(** ** Validation of a snapshot *)

Section validate.
Context `{Sha256Api, JsonText}.

Definition sort_snapshot (snapshot : CatalogSnapshot) : CatalogSnapshot :=
  {| csn_course_groups := sort_by (compare_keys scg_key) (csn_course_groups snapshot);
     csn_course_variants := sort_by (compare_keys scv_key) (csn_course_variants snapshot);
     csn_sections := sort_by (compare_keys sts_key) (csn_sections snapshot);
     csn_occurrences :=
       sort_by (compare_keys (λ o, (sto_section_key o, sto_occurrence_key o))) (csn_occurrences snapshot);
     csn_provenance :=
       sort_by (compare_keys (λ p, (stp_entity_kind p, stp_entity_key p, stp_field_name p, stp_source_ordinal p)))
         (csn_provenance snapshot) |}.

(** A loop over rows that collects their keys: each row is checked with the
    keys before it, and a key that comes again is refused. *)
Fixpoint collect_keys {A K} `{Countable K} (key : A → K) (check : A → result StorageError ())
    (duplicate : StorageError) (keys : gset K) (rows : list A) : result StorageError (gset K) :=
  match rows with
  | [] => Ok keys
  | row :: rows =>
      _ ← check row;
      if bool_decide (key row ∈ keys) then Err duplicate
      else collect_keys key check duplicate ({[key row]} ∪ keys) rows
  end.

Definition check_group_row (target : TermCampusKey) (group : StoredCourseGroup) : result StorageError () :=
  validate_group_target target (scg_key group).

Definition check_variant_row (target : TermCampusKey) (group_keys : gset CourseGroupKey)
    (variant : StoredCourseVariant) : result StorageError () :=
  _ ← validate_group_target target (cvk_group (scv_key variant));
  _ ← if bool_decide (cvk_group (scv_key variant) ∈ group_keys) then Ok () else Err (orphan_error "course_variants");
  _ ← validate_sha256 "variant.canonical_sha256" (scv_canonical_sha256 variant);
  _ ← validate_optional_text "subject_code" (scv_subject_code variant) 128;
  _ ← validate_optional_text "course_number" (scv_course_number variant) 128;
  _ ← validate_optional_text "title" (scv_title variant) 4096;
  _ ← validate_optional_text "description" (scv_description variant) (N.to_nat 65536);
  _ ← validate_text "variant.search_document" (scv_search_document variant) (N.to_nat 262144) true;
  catalog_check "variant.raw_multiplicity" "must be at least one"
    (negb (bool_decide (scv_raw_multiplicity variant = 0))).

Definition check_section_row (target : TermCampusKey) (variant_keys : gset CourseVariantKey)
    (section : StoredSection) : result StorageError () :=
  _ ← validate_section_target target (sts_key section);
  _ ← validate_group_target target (cvk_group (sts_variant_key section));
  _ ← if bool_decide (sts_variant_key section ∈ variant_keys) then Ok () else Err (orphan_error "sections");
  _ ← validate_wire_token "section.delivery_modality" (sts_delivery_modality section) MODALITY_WIRE_VALUES;
  _ ← validate_wire_token "section.synchronicity" (sts_synchronicity section) SYNCHRONICITY_WIRE_VALUES;
  validate_sha256 "section.canonical_sha256" (sts_canonical_sha256 section).

Definition check_occurrence_row (target : TermCampusKey) (section_keys : gset SectionKey)
    (occurrence : StoredOccurrence) : result StorageError () :=
  _ ← validate_section_target target (sto_section_key occurrence);
  _ ← if bool_decide (sto_section_key occurrence ∈ section_keys) then Ok () else Err (orphan_error "occurrences");
  _ ← validate_identifier "occurrence_key" (sto_occurrence_key occurrence) 256;
  _ ← validate_sha256 "occurrence.raw_sha256" (sto_raw_sha256 occurrence);
  _ ← validate_wire_token "occurrence.time_knowledge" (sto_time_knowledge occurrence) TIME_KNOWLEDGE_WIRE_VALUES;
  _ ← validate_wire_token "occurrence.requiredness" (sto_requiredness occurrence) REQUIREDNESS_WIRE_VALUES;
  _ ← validate_wire_token "occurrence.occurrence_kind" (sto_occurrence_kind occurrence) OCCURRENCE_KIND_WIRE_VALUES;
  _ ← validate_wire_token "occurrence.evidence" (sto_evidence occurrence) OCCURRENCE_EVIDENCE_WIRE_VALUES;
  _ ← validate_catalog_safe_code "occurrence.normalization_reason" (sto_normalization_reason occurrence);
  _ ← validate_wire_token "occurrence.modality" (sto_modality occurrence) MODALITY_WIRE_VALUES;
  _ ← validate_wire_token "occurrence.synchronicity" (sto_synchronicity occurrence) SYNCHRONICITY_WIRE_VALUES;
  validate_occurrence_time_projection occurrence.

Definition check_provenance_row (provenance : StoredProvenance) : result StorageError () :=
  _ ← validate_identifier "provenance.entity_key" (stp_entity_key provenance) 512;
  _ ← validate_identifier "provenance.field_name" (stp_field_name provenance) 256;
  validate_sha256 "provenance.source_sha256" (stp_source_sha256 provenance).

(** The sorted snapshot, or the first check that fails. The serializations of
    the facts have no effect and cannot fail. *)
Definition canonicalize_and_validate_snapshot (target : TermCampusKey) (snapshot : CatalogSnapshot)
    : result StorageError CatalogSnapshot :=
  let snapshot := sort_snapshot snapshot in
  group_keys ← collect_keys scg_key (check_group_row target) (duplicate_error "course_groups") ∅
                 (csn_course_groups snapshot);
  variant_keys ← collect_keys scv_key (check_variant_row target group_keys) (duplicate_error "course_variants") ∅
                   (csn_course_variants snapshot);
  section_keys ← collect_keys sts_key (check_section_row target variant_keys) (duplicate_error "sections") ∅
                   (csn_sections snapshot);
  _ ← collect_keys (λ o, (sto_section_key o, sto_occurrence_key o)) (check_occurrence_row target section_keys)
        (duplicate_error "occurrences") ∅ (csn_occurrences snapshot);
  _ ← collect_keys (λ p, (stp_entity_kind p, stp_entity_key p, stp_field_name p, stp_source_ordinal p))
        check_provenance_row (duplicate_error "provenance") ∅ (csn_provenance snapshot);
  Ok snapshot.

(** ** The content hash of a snapshot *)

Definition CATALOG_TARGET_CONTENT_PREIMAGE_V1 : string :=
  "bcsp-catalog/target-content/v1" +:+ String (Ascii.ascii_of_N 0) "".

(** [entry(key).or_insert_with(Vec::new).push(row)] over the rows, each list
    then sorted by the keys of the rows. *)
Definition rows_by {K A L} `{Countable K, ROrd L} (parent : A → K) (key : A → L) (rows : list A)
    : gmap K (list A) :=
  sort_by (compare_keys key)
    <$> foldl (λ m row, <[parent row := default [] (m !! parent row) ++ [row]]> m) ∅ rows.

Definition section_row_content (section : StoredSection) : Value :=
  json_object
    [("term", Value_String (term_str (sk_term (sts_key section))));
     ("campus", Value_String (campus_str (sk_campus (sts_key section))));
     ("index", Value_String (index_str (sk_index (sts_key section))));
     ("semanticHash", Value_String (sts_canonical_sha256 section))].

Definition variant_row_content (sections_by_variant : gmap CourseVariantKey (list StoredSection))
    (variant : StoredCourseVariant) : Value :=
  json_object
    [("fingerprint", Value_String (fingerprint_str (cvk_fingerprint (scv_key variant))));
     ("canonicalHash", Value_String (scv_canonical_sha256 variant));
     ("sections", Value_Array
        (section_row_content <$> default [] (sections_by_variant !! scv_key variant)))].

Definition group_row_content (variants_by_group : gmap CourseGroupKey (list StoredCourseVariant))
    (sections_by_variant : gmap CourseVariantKey (list StoredSection)) (group : StoredCourseGroup) : Value :=
  json_object
    [("courseString", Value_String (course_str (cgk_course_string (scg_key group))));
     ("variants", Value_Array
        (variant_row_content sections_by_variant <$> default [] (variants_by_group !! scg_key group)))].

Definition catalog_content_value_v1 (target : TermCampusKey) (snapshot : CatalogSnapshot) : Value :=
  let variants_by_group := rows_by (λ v, cvk_group (scv_key v)) scv_key (csn_course_variants snapshot) in
  let sections_by_variant := rows_by sts_variant_key sts_key (csn_sections snapshot) in
  json_object
    [("schema", Value_String "catalog-content-v1");
     ("target", json_object
       [("term", Value_String (term_str (tck_term target)));
        ("campus", Value_String (campus_str (tck_campus target)))]);
     ("groups", Value_Array
       (group_row_content variants_by_group sections_by_variant
          <$> sort_by (compare_keys scg_key) (csn_course_groups snapshot)))].

Definition catalog_content_sha256_v1 (target : TermCampusKey) (snapshot : CatalogSnapshot) : string :=
  sha256_hex (CATALOG_TARGET_CONTENT_PREIMAGE_V1 +:+ json_to_string (catalog_content_value_v1 target snapshot)).

(** ** Preparing a refresh *)

Record PreparedCatalogRefresh := {
  pcr_command : CatalogRefreshCommand;
  pcr_semantic_sha256 : string
}.

Definition with_snapshot (command : CatalogRefreshCommand) (snapshot : CatalogSnapshot) : CatalogRefreshCommand :=
  {| crf_observation_id := crf_observation_id command; crf_target := crf_target command;
     crf_started_at := crf_started_at command; crf_completed_at := crf_completed_at command;
     crf_source_content_sha256 := crf_source_content_sha256 command;
     crf_semantic_content_sha256 := crf_semantic_content_sha256 command;
     crf_source_bytes := crf_source_bytes command; crf_raw_payload := crf_raw_payload command;
     crf_snapshot := snapshot |}.

Definition validate_raw_payload (command : CatalogRefreshCommand) : result StorageError () :=
  match crf_raw_payload command with
  | Some payload =>
      _ ← validate_sha256 "raw_payload.sha256" (rsp_sha256 payload);
      catalog_check "raw_payload" "payload byte count and SHA-256 must match the source metadata"
        (negb (bool_decide (rsp_sha256 payload ≠ crf_source_content_sha256 command)
               || bool_decide (sha256_hex (rsp_bytes payload) ≠ rsp_sha256 payload)
               || bool_decide (Z.of_nat (String.length (rsp_bytes payload)) ≠ crf_source_bytes command)))
  | None => Ok ()
  end.

Definition prepare_catalog_refresh `{Rfc3339Api} (command : CatalogRefreshCommand)
    : result StorageError PreparedCatalogRefresh :=
  _ ← validate_timestamp "started_at" (crf_started_at command);
  _ ← validate_timestamp "completed_at" (crf_completed_at command);
  _ ← validate_timestamp_order (crf_started_at command) (crf_completed_at command);
  _ ← validate_sha256 "source_content_sha256" (crf_source_content_sha256 command);
  _ ← validate_sha256 "semantic_content_sha256" (crf_semantic_content_sha256 command);
  _ ← u64_to_i64 (crf_source_bytes command);
  _ ← validate_raw_payload command;
  snapshot ← canonicalize_and_validate_snapshot (crf_target command) (crf_snapshot command);
  _ ← catalog_check "semantic_content_sha256" "does not match the catalog-content-v1 projection"
        (bool_decide (catalog_content_sha256_v1 (crf_target command) snapshot = crf_semantic_content_sha256 command));
  Ok {| pcr_command := with_snapshot command snapshot;
        pcr_semantic_sha256 := crf_semantic_content_sha256 command |}.

End validate.
