(* ===== verification/Decimal.v ===== *)
(** * Decimal texts

    What the zero-padded text of a number looks like and that it determines the
    number; the texts of identities as stable identifiers. *)

From stdpp Require Import pretty.
From S2P Require Import Prelude Identity RustStr OpenClient.

(** [format!("{value:0width}")]. *)
Definition zero_padded (width : nat) (value : Z) : string :=
  let digits := pretty value in
  String.string_of_list_ascii (replicate (width - String.length digits) (Ascii.ascii_of_N 48)) +:+ digits.

Lemma decimal_value_app s t :
  decimal_value (s +:+ t) = decimal_value s * 10 ^ Z.of_nat (String.length t) + decimal_value t.
Proof.
  unfold decimal_value. rewrite bytes_app, foldl_app. generalize (foldl (λ n c, n * 10 + digit_value c) 0 (bytes s)).
  induction t as [|c t IH]; intros n; [cbn; lia|]. change (bytes (String c t)) with (c :: bytes t). cbn [foldl].
  rewrite (IH (n * 10 + digit_value c)), (IH (0 * 10 + digit_value c)). cbn [String.length].
  rewrite Nat2Z.inj_succ, Z.pow_succ_r by lia. lia.
Qed.

Lemma pretty_N_char_digit x :
  (x < 10)%N → is_ascii_digit (pretty_N_char x) = true ∧ digit_value (pretty_N_char x) = Z.of_N x.
Proof.
  intros Hx. assert (x ∈ ([0; 1; 2; 3; 4; 5; 6; 7; 8; 9] : list N)%N) as Hin.
  { assert (x = 0 ∨ x = 1 ∨ x = 2 ∨ x = 3 ∨ x = 4 ∨ x = 5 ∨ x = 6 ∨ x = 7 ∨ x = 8 ∨ x = 9)%N as Hc by lia.
    rewrite !elem_of_cons. naive_solver. }
  repeat (apply elem_of_cons in Hin as [->|Hin]; [by split|]). by apply elem_of_nil in Hin.
Qed.

Lemma pretty_N_go_digits x : ∀ s, ∃ p,
  pretty_N_go x s = p +:+ s ∧ forallb is_ascii_digit (bytes p) = true ∧ decimal_value p = Z.of_N x
  ∧ ∀ k, Z.of_N x < 10 ^ Z.of_nat k → (String.length p ≤ k)%nat.
Proof.
  induction (N.lt_wf_0 x) as [x _ IH]. intros s. destruct (decide (x = 0)%N) as [->|Hx].
  { exists "". rewrite pretty_N_go_0. split_and!; [done..|cbn; lia]. }
  rewrite pretty_N_go_step by lia.
  destruct (IH (x / 10)%N) with (s := String (pretty_N_char (x mod 10)) s) as (p & -> & Hd & Hv & Hl); [by apply N.div_lt; lia|].
  destruct (pretty_N_char_digit (x mod 10)) as [Hcd Hcv]; [by apply N.mod_lt|].
  exists (p +:+ String (pretty_N_char (x mod 10)) ""). split_and!.
  - by rewrite <-string_app_assoc, string_cons_app.
  - rewrite bytes_app, forallb_app, Hd. cbn. by rewrite Hcd.
  - rewrite decimal_value_app, Hv. unfold decimal_value at 1. cbn. rewrite Hcv, N2Z.inj_div, N2Z.inj_mod.
    pose proof (Z.div_mod (Z.of_N x) 10 ltac:(lia)). lia.
  - intros k Hk. rewrite string_length_app. cbn. destruct k as [|k]; [cbn in Hk; lia|].
    assert (String.length p ≤ k)%nat; [|lia]. apply Hl. rewrite N2Z.inj_div.
    rewrite Nat2Z.inj_succ, Z.pow_succ_r in Hk by lia. apply Z.div_lt_upper_bound; lia.
Qed.

Lemma pretty_digits n : 0 ≤ n →
  forallb is_ascii_digit (bytes (pretty n)) = true ∧ decimal_value (pretty n) = n
  ∧ ∀ k, (0 < k)%nat → n < 10 ^ Z.of_nat k → (String.length (pretty n) ≤ k)%nat.
Proof.
  intros Hn. destruct n as [|p|p]; [split_and!; [done..|cbn; lia]| |lia].
  change (pretty (Z.pos p)) with (pretty_N_go (N.pos p) "").
  destruct (pretty_N_go_digits (N.pos p) "") as (t & -> & Hd & Hv & Hl). rewrite string_app_nil_r.
  split_and!; [done|done|]. intros k _ Hk. by apply Hl.
Qed.

Lemma zeros_value k : decimal_value (String.string_of_list_ascii (replicate k (Ascii.ascii_of_N 48))) = 0.
Proof.
  unfold decimal_value, bytes. rewrite String.list_ascii_of_string_of_list_ascii.
  induction k as [|k IH]; [done|]. cbn [replicate foldl]. exact IH.
Qed.

Lemma zero_padded_value width n : 0 ≤ n → decimal_value (zero_padded width n) = n.
Proof.
  intros Hn. destruct (pretty_digits n Hn) as (_ & Hv & _). unfold zero_padded. by rewrite decimal_value_app, zeros_value, Hv.
Qed.

Lemma zero_padded_digits width n : 0 ≤ n → forallb is_ascii_digit (bytes (zero_padded width n)) = true.
Proof.
  intros Hn. destruct (pretty_digits n Hn) as (Hd & _). unfold zero_padded. rewrite bytes_app, forallb_app, Hd, andb_true_r.
  unfold bytes. rewrite String.list_ascii_of_string_of_list_ascii. by induction (width - String.length (pretty n))%nat.
Qed.

Lemma zero_padded_no_dash width n : 0 ≤ n → Ascii.ascii_of_N 45 ∉ bytes (zero_padded width n).
Proof. intros Hn. eapply forallb_not_elem; [by apply zero_padded_digits|done]. Qed.

Lemma length_of_list l : String.length (String.string_of_list_ascii l) = length l.
Proof. induction l as [|c l IH]; [done|]. cbn. by rewrite IH. Qed.

Lemma zero_padded_length width n : 0 ≤ n → (0 < width)%nat → n < 10 ^ Z.of_nat width → String.length (zero_padded width n) = width.
Proof.
  intros Hn Hw Hlt. destruct (pretty_digits n Hn) as (_ & _ & Hl). specialize (Hl width Hw Hlt).
  unfold zero_padded. rewrite string_length_app, length_of_list, length_replicate. lia.
Qed.

Lemma string_cut (sep : Ascii.ascii) s t s' t' :
  sep ∉ bytes s → sep ∉ bytes s' → s +:+ String sep t = s' +:+ String sep t' → s = s' ∧ t = t'.
Proof.
  intros Hs Hs' Heq. assert (str_split sep (s +:+ String sep t) = str_split sep (s' +:+ String sep t')) as Hsplit by congruence.
  rewrite !str_split_app in Hsplit by done. injection Hsplit as -> Ht. split; [done|].
  rewrite <-(str_join_split sep t), <-(str_join_split sep t'). congruence.
Qed.
