(* ===== verification/SnapshotMapping.v ===== *)
(** * From a normalized target to a stored snapshot
    (crates/bcsp-catalog/src/mapping.rs, crates/bcsp-contracts/src/catalog.rs)

    The rows a refresh of the catalog publishes for a normalized target, with
    the provenance of each, and the command that carries them. *)

From S2P Require Import Prelude Identity Contracts CatalogData RustStr Filters OpenClient Ordering Json RawCatalog.
From S2P Require Import CatalogModel Canonical Delivery Normalize OpenStore OpenService CatalogSnapshot Decimal.

Inductive SnapshotMappingError :=
| SnapshotMappingError_InvalidSourceSha256
| SnapshotMappingError_SourceBytesOverflow
| SnapshotMappingError_CountOverflow (field : string).

(** ** Identities and texts *)

(** [<[String]>::join]. *)
Definition join (separator : string) (values : list string) : string := String.concat separator values.

Definition checked_u32 (value : Z) (field : string) : result SnapshotMappingError Z :=
  if bool_decide (0 ≤ value ≤ u32_max) then Ok value else Err (SnapshotMappingError_CountOverflow field).

Definition checked_ordinal (value : Z) (field : string) : result SnapshotMappingError Z :=
  checked_u32 value field.

Definition SUBJECT_CODE_MAX_BYTES : nat := 64.

(** [CatalogSubjectCode::try_from]. *)
Definition CatalogSubjectCode_try_from (value : string) : option CatalogSubjectCode :=
  if negb (bool_decide (value = "")) && bool_decide (String.length value ≤ SUBJECT_CODE_MAX_BYTES)%nat
     && bool_decide (trim value = value) && negb (has_control value)
  then Some (mkCatalogSubjectCode value) else None.

Definition known_string (value : Presence string) : option string := presence_value value.

Definition duplicate_disposition_name (value : DuplicateDisposition) : string :=
  match value with DuplicateDisposition_AuditedEquivalentCollapse => "AUDITED_EQUIVALENT_COLLAPSE" end.

Definition weekday_name (day : Weekday) : string :=
  match day with
  | Weekday_Monday => "M"
  | Weekday_Tuesday => "T"
  | Weekday_Wednesday => "W"
  | Weekday_Thursday => "H"
  | Weekday_Friday => "F"
  | Weekday_Saturday => "S"
  | Weekday_Sunday => "U"
  end.

Definition weekday_text (days : DayKnowledge) : option string :=
  match days with
  | DayKnowledge_Known days => Some (join "," (weekday_name <$> weekdays days))
  | _ => None
  end.

Definition time_knowledge_name (value : TimeKnowledge) : string :=
  match value with
  | TimeKnowledge_Missing => "MISSING"
  | TimeKnowledge_Null => "EXPLICIT_NULL"
  | TimeKnowledge_Empty => "EMPTY"
  | TimeKnowledge_Partial => "PARTIAL"
  | TimeKnowledge_Invalid => "INVALID"
  | TimeKnowledge_Known _ _ => "KNOWN"
  end.

Section mapping.
Context `{NumberApi}.

Definition presence_fact {T} `{!Wire T} (presence : Presence T) : Value :=
  match presence with
  | Presence_Missing => json_object [("state", Value_String "MISSING")]
  | Presence_Null => json_object [("state", Value_String "EXPLICIT_NULL")]
  | Presence_Malformed malformed =>
      json_object [("state", Value_String "MALFORMED");
                   ("jsonType", Value_String (JsonType_name (mf_json_type malformed)));
                   ("canonicalSha256", Value_String (mf_canonical_sha256 malformed))]
  | Presence_Value value => json_object [("state", Value_String "VALUE"); ("value", to_value value)]
  end.

Definition group_entity_key (key : CourseGroupKey) : string :=
  term_str (cgk_term key) +:+ "/" +:+ campus_str (cgk_campus key) +:+ "/" +:+ course_str (cgk_course_string key).

Definition variant_entity_key (key : CourseVariantKey) : string :=
  group_entity_key (cvk_group key) +:+ "/" +:+ fingerprint_str (cvk_fingerprint key).

Definition credits_summary (variant : NormalizedCourseVariant) : option string :=
  match object ← presence_value (cvf_credits_object (ncr_fields variant));
        code ← obj_get "code" object; value_as_str code with
  | Some code => Some code
  | None => number_to_string <$> presence_value (cvf_credits (ncr_fields variant))
  end.

Definition search_document (variant : NormalizedCourseVariant) : string :=
  let fields := ncr_fields variant in
  join (String (Ascii.ascii_of_N 10) "")
    (course_str (cgk_course_string (cvk_group (ncr_key variant)))
     :: omap (λ value, text ← presence_value value; if bool_decide (text = "") then None else Some text)
          [cvf_subject fields; cvf_subject_description fields; cvf_course_number fields; cvf_title fields;
           cvf_expanded_title fields; cvf_course_description fields; cvf_course_notes fields]).

(** ** Wire forms of the delivery columns *)

Definition section_delivery_wire (delivery_modality : DeliveryModality) (synchronicity : Synchronicity)
    : string * string :=
  (CatalogModality_wire_name (DeliveryModality_contract delivery_modality),
   CatalogSynchronicity_wire_name (Synchronicity_contract synchronicity)).

Record OccurrenceDeliveryWire := {
  odw_kind : string;
  odw_evidence : string;
  odw_normalization_reason : string;
  odw_modality : string;
  odw_synchronicity : string
}.

Definition occurrence_delivery_wire (occurrence : NormalizedOccurrence) : OccurrenceDeliveryWire :=
  {| odw_kind := CatalogOccurrenceKind_wire_name (OccurrenceKind_contract (noe_kind occurrence));
     odw_evidence := CatalogOccurrenceEvidence_wire_name (OccurrenceEvidence_contract (noe_evidence occurrence));
     odw_normalization_reason := noe_normalization_reason occurrence;
     odw_modality := CatalogModality_wire_name (OccurrenceModality_contract (noe_modality occurrence));
     odw_synchronicity := CatalogSynchronicity_wire_name (Synchronicity_contract (noe_synchronicity occurrence)) |}.

Definition occurrence_key (occurrence : NormalizedOccurrence) : result SnapshotMappingError string :=
  ordinal ← checked_ordinal (noe_source_ordinal occurrence) "occurrence ordinal";
  Ok (zero_padded 10 ordinal +:+ "-" +:+ sha_str (noe_raw_hash occurrence)).

(** ** The snapshot under construction *)

Definition empty_snapshot : CatalogSnapshot :=
  {| csn_course_groups := []; csn_course_variants := []; csn_sections := []; csn_occurrences := [];
     csn_provenance := [] |}.

Definition push_group (row : StoredCourseGroup) (s : CatalogSnapshot) : CatalogSnapshot :=
  {| csn_course_groups := csn_course_groups s ++ [row]; csn_course_variants := csn_course_variants s;
     csn_sections := csn_sections s; csn_occurrences := csn_occurrences s; csn_provenance := csn_provenance s |}.
Definition push_variant (row : StoredCourseVariant) (s : CatalogSnapshot) : CatalogSnapshot :=
  {| csn_course_groups := csn_course_groups s; csn_course_variants := csn_course_variants s ++ [row];
     csn_sections := csn_sections s; csn_occurrences := csn_occurrences s; csn_provenance := csn_provenance s |}.
Definition push_section (row : StoredSection) (s : CatalogSnapshot) : CatalogSnapshot :=
  {| csn_course_groups := csn_course_groups s; csn_course_variants := csn_course_variants s;
     csn_sections := csn_sections s ++ [row]; csn_occurrences := csn_occurrences s; csn_provenance := csn_provenance s |}.
Definition push_occurrence (row : StoredOccurrence) (s : CatalogSnapshot) : CatalogSnapshot :=
  {| csn_course_groups := csn_course_groups s; csn_course_variants := csn_course_variants s;
     csn_sections := csn_sections s; csn_occurrences := csn_occurrences s ++ [row]; csn_provenance := csn_provenance s |}.
Definition push_provenance (row : StoredProvenance) (s : CatalogSnapshot) : CatalogSnapshot :=
  {| csn_course_groups := csn_course_groups s; csn_course_variants := csn_course_variants s;
     csn_sections := csn_sections s; csn_occurrences := csn_occurrences s; csn_provenance := csn_provenance s ++ [row] |}.

Definition provenance (entity_kind : ProvenanceEntityKind) (entity_key field_name : string)
    (source_sha256 : Sha256Hex) (source_ordinal : Z) (detail : Value) : StoredProvenance :=
  {| stp_entity_kind := entity_kind; stp_entity_key := entity_key; stp_field_name := field_name;
     stp_source_sha256 := sha_str source_sha256; stp_source_ordinal := source_ordinal; stp_detail := detail |}.

(** ** Rows *)

Definition stored_occurrence (section : NormalizedSection) (occurrence : NormalizedOccurrence)
    (ordinal : Z) (key : string) : StoredOccurrence :=
  let wire := occurrence_delivery_wire occurrence in
  {| sto_section_key := nsc_key section;
     sto_occurrence_key := key;
     sto_ordinal := ordinal;
     sto_weekday := weekday_text (noe_days occurrence);
     sto_start_minute := match noe_time occurrence with TimeKnowledge_Known start _ => Some start | _ => None end;
     sto_end_minute := match noe_time occurrence with TimeKnowledge_Known _ end_ => Some end_ | _ => None end;
     sto_time_knowledge := time_knowledge_name (noe_time occurrence);
     sto_requiredness := CatalogRequiredness_wire_name (Requiredness_contract (noe_requiredness occurrence));
     sto_occurrence_kind := odw_kind wire;
     sto_evidence := odw_evidence wire;
     sto_normalization_reason := odw_normalization_reason wire;
     sto_modality := odw_modality wire;
     sto_synchronicity := odw_synchronicity wire;
     sto_location := known_string (noe_raw_campus_location occurrence);
     sto_building := known_string (noe_raw_building_code occurrence);
     sto_room := known_string (noe_raw_room_number occurrence);
     sto_raw_sha256 := sha_str (noe_raw_hash occurrence);
     sto_canonical_facts := noe_canonical_facts occurrence |}.

Definition occurrence_provenance (section : NormalizedSection) (occurrence : NormalizedOccurrence)
    (source_sha256 : Sha256Hex) (ordinal : Z) (key : string) : StoredProvenance :=
  let wire := occurrence_delivery_wire occurrence in
  provenance ProvenanceEntityKind_Occurrence (SectionKey_display (nsc_key section) +:+ "/" +:+ key)
    "canonicalFacts" source_sha256 ordinal
    (json_object [("rawSha256", Value_String (sha_str (noe_raw_hash occurrence)));
                  ("normalizationReason", Value_String (odw_normalization_reason wire));
                  ("evidence", Value_String (odw_evidence wire))]).

Definition stored_section (variant_key : CourseVariantKey) (section : NormalizedSection) : StoredSection :=
  let (delivery_modality, synchronicity) :=
    section_delivery_wire (nsc_delivery_modality section) (nsc_synchronicity section) in
  {| sts_key := nsc_key section;
     sts_variant_key := variant_key;
     sts_section_number := known_string (nsc_section_number section);
     sts_catalog_status :=
       match nsc_catalog_open_status section with
       | Presence_Value true => Some "CATALOG_SNAPSHOT_OPEN"
       | Presence_Value false => Some "CATALOG_SNAPSHOT_CLOSED"
       | _ => None
       end;
     sts_section_course_type := known_string (nsc_raw_section_course_type section);
     sts_delivery_modality := delivery_modality;
     sts_synchronicity := synchronicity;
     sts_canonical_facts := nsc_canonical_facts section;
     sts_canonical_sha256 := sha_str (nsc_semantic_hash section) |}.

Definition section_provenance (section : NormalizedSection) (source_sha256 : Sha256Hex) (ordinal : Z)
    : StoredProvenance :=
  provenance ProvenanceEntityKind_Section (SectionKey_display (nsc_key section))
    "canonicalFacts" source_sha256 ordinal
    (json_object [("recordSha256", Value_String (sha_str (nsc_first_record_hash section)));
                  ("semanticSha256", Value_String (sha_str (nsc_semantic_hash section)));
                  ("catalogOpenStatusIsSnapshotOnly", Value_Bool true)]).

Definition stored_variant (variant : NormalizedCourseVariant) (raw_multiplicity : Z) : StoredCourseVariant :=
  let fields := ncr_fields variant in
  {| scv_key := ncr_key variant;
     scv_subject_code :=
       subject_str <$> (known_string (cvf_subject fields) ≫= CatalogSubjectCode_try_from);
     scv_course_number := known_string (cvf_course_number fields);
     scv_title := known_string (cvf_title fields);
     scv_description := known_string (cvf_course_description fields);
     scv_credits_summary := credits_summary variant;
     scv_supplement := known_string (cvf_supplement_code fields);
     scv_search_document := search_document variant;
     scv_canonical_sha256 := sha_str (ncr_canonical_hash variant);
     scv_raw_multiplicity := raw_multiplicity;
     scv_canonical_facts := ncr_canonical_course_facts variant |}.

Definition variant_provenance (variant : NormalizedCourseVariant) (source_sha256 : Sha256Hex) (ordinal : Z)
    : StoredProvenance :=
  provenance ProvenanceEntityKind_CourseVariant (variant_entity_key (ncr_key variant))
    "canonicalFacts" source_sha256 ordinal
    (json_object [("canonicalSha256", Value_String (sha_str (ncr_canonical_hash variant)));
                  ("recordSha256", Value_Array ((λ hash, Value_String (sha_str hash)) <$> ncr_record_hashes variant))]).

Definition open_sections_provenance (variant : NormalizedCourseVariant) (source_sha256 : Sha256Hex)
    (open_sections : CatalogOpenSectionsSnapshot) (ordinal : Z) : StoredProvenance :=
  provenance ProvenanceEntityKind_CourseVariant (variant_entity_key (ncr_key variant))
    "catalogOpenSectionsSnapshot" source_sha256 ordinal
    (json_object [("schema", Value_String "catalog-open-sections-snapshot-v1");
                  ("catalogOpenSectionsIsSnapshotOnly", Value_Bool true);
                  ("openSections", presence_fact (cos_value open_sections));
                  ("rawCourseSha256", Value_String (sha_str (cos_raw_course_hash open_sections)))]).

Definition stored_group (group : NormalizedCourseGroup) : StoredCourseGroup :=
  {| scg_key := ngr_key group;
     scg_canonical_facts :=
       json_object [("schema", Value_String "catalog-group-v1");
                    ("courseString", Value_String (course_str (cgk_course_string (ngr_key group))));
                    ("variantFingerprints",
                     Value_Array ((λ variant, Value_String (fingerprint_str (cvk_fingerprint (ncr_key variant))))
                                    <$> ngr_variants group))] |}.

Definition group_provenance (group : NormalizedCourseGroup) (source_sha256 : Sha256Hex) (ordinal : Z)
    : StoredProvenance :=
  provenance ProvenanceEntityKind_CourseGroup (group_entity_key (ngr_key group))
    "canonicalFacts" source_sha256 ordinal
    (json_object [("rawCourseCount", Value_Number (number_from (ngr_raw_course_count group)))]).

Definition audit_provenance (source_sha256 : Sha256Hex) (audit : DuplicateAudit) : StoredProvenance :=
  provenance ProvenanceEntityKind_Section (SectionKey_display (dau_section_key audit))
    "duplicateAudit" source_sha256 0
    (json_object [("schema", Value_String "catalog-duplicate-audit-v1");
                  ("rawRecordCount", Value_Number (number_from (dau_raw_record_count audit)));
                  ("rawRecordSha256",
                   Value_Array (Value_String <$> sort_by rcmp (sha_str <$> dau_raw_record_hashes audit)));
                  ("semanticSha256", Value_String (sha_str (dau_semantic_hash audit)));
                  ("disposition", Value_String (duplicate_disposition_name (dau_disposition audit)));
                  ("reason", Value_String (dau_reason audit))]).

(** ** The mapping *)

(** [iter().enumerate()]. *)
Definition enumerate {A} (l : list A) : list (Z * A) := imap (λ i a, (Z.of_nat i, a)) l.

Definition map_occurrence (section : NormalizedSection) (source_sha256 : Sha256Hex)
    (snapshot : CatalogSnapshot) (occurrence : NormalizedOccurrence)
    : result SnapshotMappingError CatalogSnapshot :=
  ordinal ← checked_ordinal (noe_source_ordinal occurrence) "occurrence ordinal";
  key ← occurrence_key occurrence;
  Ok (push_provenance (occurrence_provenance section occurrence source_sha256 ordinal key)
        (push_occurrence (stored_occurrence section occurrence ordinal key) snapshot)).

Definition map_section (variant_key : CourseVariantKey) (source_sha256 : Sha256Hex)
    (snapshot : CatalogSnapshot) (entry : Z * NormalizedSection)
    : result SnapshotMappingError CatalogSnapshot :=
  let (section_ordinal, section) := entry in
  source_ordinal ← checked_ordinal section_ordinal "section ordinal";
  let snapshot := push_section (stored_section variant_key section) snapshot in
  let snapshot := push_provenance (section_provenance section source_sha256 source_ordinal) snapshot in
  try_fold (map_occurrence section source_sha256) snapshot (nsc_occurrences section).

Definition map_open_sections (variant : NormalizedCourseVariant) (source_sha256 : Sha256Hex)
    (snapshot : CatalogSnapshot) (open_sections : CatalogOpenSectionsSnapshot)
    : result SnapshotMappingError CatalogSnapshot :=
  ordinal ← checked_ordinal (cos_source_ordinal open_sections) "course source ordinal";
  Ok (push_provenance (open_sections_provenance variant source_sha256 open_sections ordinal) snapshot).

Definition map_variant (source_sha256 : Sha256Hex) (snapshot : CatalogSnapshot)
    (entry : Z * NormalizedCourseVariant) : result SnapshotMappingError CatalogSnapshot :=
  let (variant_ordinal, variant) := entry in
  source_ordinal ← checked_ordinal variant_ordinal "variant ordinal";
  raw_multiplicity ← checked_u32 (ncr_raw_course_count variant) "variant raw multiplicity";
  let snapshot := push_variant (stored_variant variant raw_multiplicity) snapshot in
  let snapshot := push_provenance (variant_provenance variant source_sha256 source_ordinal) snapshot in
  snapshot ← try_fold (map_open_sections variant source_sha256) snapshot
               (ncr_catalog_open_sections_snapshots variant);
  try_fold (map_section (ncr_key variant) source_sha256) snapshot (enumerate (ncr_sections variant)).

Definition map_group (source_sha256 : Sha256Hex) (snapshot : CatalogSnapshot)
    (entry : Z * NormalizedCourseGroup) : result SnapshotMappingError CatalogSnapshot :=
  let (group_ordinal, group) := entry in
  let snapshot := push_group (stored_group group) snapshot in
  ordinal ← checked_ordinal group_ordinal "group ordinal";
  let snapshot := push_provenance (group_provenance group source_sha256 ordinal) snapshot in
  try_fold (map_variant source_sha256) snapshot (enumerate (ngr_variants group)).

Definition to_operational_snapshot (normalized : NormalizedCatalogTarget)
    : result SnapshotMappingError CatalogSnapshot :=
  source_sha256 ← ok_or SnapshotMappingError_InvalidSourceSha256
                    (Sha256Hex_try_new (spr_body_sha256 (nct_provenance normalized)));
  snapshot ← try_fold (map_group source_sha256) empty_snapshot (enumerate (nct_groups normalized));
  Ok (foldl (λ snapshot audit, push_provenance (audit_provenance source_sha256 audit) snapshot)
        snapshot (nct_duplicate_audits normalized)).

Definition to_catalog_refresh_command (normalized : NormalizedCatalogTarget) (observation_id : TraceId)
    (started_at completed_at : string) : result SnapshotMappingError CatalogRefreshCommand :=
  source_bytes ← ok_or SnapshotMappingError_SourceBytesOverflow
                   (u64_try_from (spr_decoded_bytes (nct_provenance normalized)));
  snapshot ← to_operational_snapshot normalized;
  Ok {| crf_observation_id := observation_id;
        crf_target := nct_target normalized;
        crf_started_at := started_at;
        crf_completed_at := completed_at;
        crf_source_content_sha256 := spr_body_sha256 (nct_provenance normalized);
        crf_semantic_content_sha256 := sha_str (nct_content_hash normalized);
        crf_source_bytes := source_bytes;
        crf_raw_payload := None;
        crf_snapshot := snapshot |}.

End mapping.
