(* ===== verification/SnapshotMappingFacts.v ===== *)
(** * Facts about the mapping of a normalized target

    The rows of the stored snapshot in closed form, the agreement of the two
    content hashes, and that the storage accepts what the mapping gives. *)

From S2P Require Import Prelude Identity Contracts CatalogData RustStr Filters OpenClient Ordering Json RawCatalog RawCatalogFacts.
From S2P Require Import CatalogModel Canonical CanonicalFacts Delivery DeliveryFacts Normalize NormalizeFacts NormalizeSpec.
From S2P Require Import OpenStore OpenService OpenTables OpenCommands CatalogSnapshot Decimal SnapshotMapping.

(** ** Appending snapshots *)

Section append.
Context `{NumberApi}.
Implicit Types (s d : CatalogSnapshot).

Definition snap_app s d : CatalogSnapshot :=
  {| csn_course_groups := csn_course_groups s ++ csn_course_groups d;
     csn_course_variants := csn_course_variants s ++ csn_course_variants d;
     csn_sections := csn_sections s ++ csn_sections d;
     csn_occurrences := csn_occurrences s ++ csn_occurrences d;
     csn_provenance := csn_provenance s ++ csn_provenance d |}.

Definition snap_concat {A} (delta : A → CatalogSnapshot) (l : list A) : CatalogSnapshot :=
  foldr (λ a d, snap_app (delta a) d) empty_snapshot l.

Lemma snap_app_assoc s d e : snap_app (snap_app s d) e = snap_app s (snap_app d e).
Proof. unfold snap_app. cbn. by rewrite <-!app_assoc. Qed.

Lemma snap_app_nil s : snap_app s empty_snapshot = s.
Proof. destruct s. unfold snap_app. cbn. by rewrite !app_nil_r. Qed.

Lemma snap_nil_app s : snap_app empty_snapshot s = s.
Proof. by destruct s. Qed.

(** A loop whose steps append to the snapshot. *)
Lemma try_fold_snapshot {A E} (f : CatalogSnapshot → A → result E CatalogSnapshot) (P : A → Prop)
    (delta : A → CatalogSnapshot) (l : list A) :
  (∀ s a s', f s a = Ok s' ↔ P a ∧ s' = snap_app s (delta a)) →
  ∀ s s', try_fold f s l = Ok s' ↔ Forall P l ∧ s' = snap_app s (snap_concat delta l).
Proof.
  intros Hf. induction l as [|a l IH]; intros s s'; cbn [try_fold snap_concat foldr].
  - rewrite snap_app_nil. split; [intros [= ->]; by split|by intros [_ ->]].
  - rewrite result_bind_Ok, Forall_cons. setoid_rewrite Hf. setoid_rewrite IH. fold (snap_concat delta l).
    split.
    + intros (s1 & (Ha & ->) & Hl & ->). by rewrite snap_app_assoc.
    + intros ((Ha & Hl) & ->). exists (snap_app s (delta a)). by rewrite snap_app_assoc.
Qed.

Lemma snap_concat_field {A B} (field : CatalogSnapshot → list B) (delta : A → CatalogSnapshot) (l : list A) :
  (∀ s d, field (snap_app s d) = field s ++ field d) → field empty_snapshot = [] →
  field (snap_concat delta l) = l ≫= λ a, field (delta a).
Proof.
  intros Happ Hnil. induction l as [|a l IH]; [done|]. cbn [snap_concat foldr mbind list_bind].
  rewrite Happ. f_equal. exact IH.
Qed.

End append.

Section closed_form.
Context `{NumberApi}.

Definition fits_u32 (n : Z) : Prop := 0 ≤ n ≤ u32_max.

Definition occurrence_key_text (o : NormalizedOccurrence) : string :=
  zero_padded 10 (noe_source_ordinal o) +:+ "-" +:+ sha_str (noe_raw_hash o).

Definition occurrence_delta (sha : Sha256Hex) (sec : NormalizedSection) (o : NormalizedOccurrence) : CatalogSnapshot :=
  {| csn_course_groups := []; csn_course_variants := []; csn_sections := [];
     csn_occurrences := [stored_occurrence sec o (noe_source_ordinal o) (occurrence_key_text o)];
     csn_provenance := [occurrence_provenance sec o sha (noe_source_ordinal o) (occurrence_key_text o)] |}.

Definition section_delta (sha : Sha256Hex) (vk : CourseVariantKey) (entry : Z * NormalizedSection) : CatalogSnapshot :=
  snap_app
    {| csn_course_groups := []; csn_course_variants := []; csn_sections := [stored_section vk entry.2];
       csn_occurrences := []; csn_provenance := [section_provenance entry.2 sha entry.1] |}
    (snap_concat (occurrence_delta sha entry.2) (nsc_occurrences entry.2)).

Definition open_delta (sha : Sha256Hex) (v : NormalizedCourseVariant) (o : CatalogOpenSectionsSnapshot) : CatalogSnapshot :=
  {| csn_course_groups := []; csn_course_variants := []; csn_sections := []; csn_occurrences := [];
     csn_provenance := [open_sections_provenance v sha o (cos_source_ordinal o)] |}.

Definition variant_delta (sha : Sha256Hex) (entry : Z * NormalizedCourseVariant) : CatalogSnapshot :=
  snap_app
    {| csn_course_groups := []; csn_course_variants := [stored_variant entry.2 (ncr_raw_course_count entry.2)];
       csn_sections := []; csn_occurrences := []; csn_provenance := [variant_provenance entry.2 sha entry.1] |}
    (snap_app (snap_concat (open_delta sha entry.2) (ncr_catalog_open_sections_snapshots entry.2))
       (snap_concat (section_delta sha (ncr_key entry.2)) (enumerate (ncr_sections entry.2)))).

Definition group_delta (sha : Sha256Hex) (entry : Z * NormalizedCourseGroup) : CatalogSnapshot :=
  snap_app
    {| csn_course_groups := [stored_group entry.2]; csn_course_variants := []; csn_sections := [];
       csn_occurrences := []; csn_provenance := [group_provenance entry.2 sha entry.1] |}
    (snap_concat (variant_delta sha) (enumerate (ngr_variants entry.2))).

Definition section_fits (entry : Z * NormalizedSection) : Prop :=
  fits_u32 entry.1 ∧ Forall (λ o, fits_u32 (noe_source_ordinal o)) (nsc_occurrences entry.2).
Definition variant_fits (entry : Z * NormalizedCourseVariant) : Prop :=
  fits_u32 entry.1 ∧ fits_u32 (ncr_raw_course_count entry.2)
  ∧ Forall (λ o, fits_u32 (cos_source_ordinal o)) (ncr_catalog_open_sections_snapshots entry.2)
  ∧ Forall section_fits (enumerate (ncr_sections entry.2)).
Definition group_fits (entry : Z * NormalizedCourseGroup) : Prop :=
  fits_u32 entry.1 ∧ Forall variant_fits (enumerate (ngr_variants entry.2)).

Lemma checked_u32_Ok n field m : checked_u32 n field = Ok m ↔ fits_u32 n ∧ m = n.
Proof. unfold checked_u32, fits_u32. case_bool_decide; split; [by intros [= <-]|by intros [_ ->]|done|by intros []]. Qed.

Lemma map_occurrence_Ok sec sha s o s' :
  map_occurrence sec sha s o = Ok s' ↔ fits_u32 (noe_source_ordinal o) ∧ s' = snap_app s (occurrence_delta sha sec o).
Proof.
  unfold map_occurrence, occurrence_key, checked_ordinal. rewrite result_bind_Ok. setoid_rewrite checked_u32_Ok.
  setoid_rewrite result_bind_Ok. setoid_rewrite result_bind_Ok. setoid_rewrite checked_u32_Ok.
  assert (∀ n k, push_provenance (occurrence_provenance sec o sha n k) (push_occurrence (stored_occurrence sec o n k) s)
    = snap_app s {| csn_course_groups := []; csn_course_variants := []; csn_sections := [];
                    csn_occurrences := [stored_occurrence sec o n k];
                    csn_provenance := [occurrence_provenance sec o sha n k] |}) as Heq
    by (intros; unfold snap_app, push_provenance, push_occurrence; cbn; by rewrite !app_nil_r).
  setoid_rewrite Heq. split.
  - intros (n & [Hfit ->] & k & (m & [_ ->] & [= <-]) & [= <-]). done.
  - intros [Hfit ->]. eexists. split; [done|]. eexists. split; [|done]. eexists. done.
Qed.

Lemma map_section_Ok vk sha s entry s' :
  map_section vk sha s entry = Ok s' ↔ section_fits entry ∧ s' = snap_app s (section_delta sha vk entry).
Proof.
  destruct entry as [i sec]. unfold map_section, checked_ordinal, section_fits, section_delta. cbn [fst snd].
  rewrite result_bind_Ok. setoid_rewrite checked_u32_Ok.
  setoid_rewrite (try_fold_snapshot _ _ _ _ (map_occurrence_Ok sec sha)).
  assert (∀ n, push_provenance (section_provenance sec sha n) (push_section (stored_section vk sec) s)
    = snap_app s {| csn_course_groups := []; csn_course_variants := []; csn_sections := [stored_section vk sec];
                    csn_occurrences := []; csn_provenance := [section_provenance sec sha n] |}) as Heq
    by (intros; unfold snap_app, push_provenance, push_section; cbn; by rewrite !app_nil_r).
  setoid_rewrite Heq. setoid_rewrite snap_app_assoc. naive_solver.
Qed.

Lemma map_open_sections_Ok v sha s o s' :
  map_open_sections v sha s o = Ok s' ↔ fits_u32 (cos_source_ordinal o) ∧ s' = snap_app s (open_delta sha v o).
Proof.
  unfold map_open_sections, checked_ordinal. rewrite result_bind_Ok. setoid_rewrite checked_u32_Ok.
  assert (∀ n, push_provenance (open_sections_provenance v sha o n) s
    = snap_app s {| csn_course_groups := []; csn_course_variants := []; csn_sections := [];
                    csn_occurrences := []; csn_provenance := [open_sections_provenance v sha o n] |}) as Heq
    by (intros; unfold snap_app, push_provenance; cbn; by rewrite !app_nil_r).
  setoid_rewrite Heq. unfold open_delta. naive_solver.
Qed.

Lemma map_variant_Ok sha s entry s' :
  map_variant sha s entry = Ok s' ↔ variant_fits entry ∧ s' = snap_app s (variant_delta sha entry).
Proof.
  destruct entry as [i v]. unfold map_variant, checked_ordinal, variant_fits, variant_delta. cbn [fst snd].
  rewrite result_bind_Ok. setoid_rewrite checked_u32_Ok. setoid_rewrite result_bind_Ok. setoid_rewrite checked_u32_Ok.
  setoid_rewrite result_bind_Ok.
  setoid_rewrite (try_fold_snapshot _ _ _ _ (map_open_sections_Ok v sha)).
  setoid_rewrite (try_fold_snapshot _ _ _ _ (map_section_Ok (ncr_key v) sha)).
  assert (∀ n m, push_provenance (variant_provenance v sha n) (push_variant (stored_variant v m) s)
    = snap_app s {| csn_course_groups := []; csn_course_variants := [stored_variant v m]; csn_sections := [];
                    csn_occurrences := []; csn_provenance := [variant_provenance v sha n] |}) as Heq
    by (intros; unfold snap_app, push_provenance, push_variant; cbn; by rewrite !app_nil_r).
  setoid_rewrite Heq. setoid_rewrite snap_app_assoc. split.
  - intros (n & [Hi ->] & m & [Hm ->] & s1 & [Ho ->] & Hs & ->). by rewrite !snap_app_assoc.
  - intros ((Hi & Hm & Ho & Hs) & ->). eexists. split; [done|]. eexists. split; [done|]. eexists. split; [done|].
    split; [done|]. by rewrite !snap_app_assoc.
Qed.

Lemma map_group_Ok sha s entry s' :
  map_group sha s entry = Ok s' ↔ group_fits entry ∧ s' = snap_app s (group_delta sha entry).
Proof.
  destruct entry as [i g]. unfold map_group, checked_ordinal, group_fits, group_delta. cbn [fst snd].
  rewrite result_bind_Ok. setoid_rewrite checked_u32_Ok.
  setoid_rewrite (try_fold_snapshot _ _ _ _ (map_variant_Ok sha)).
  assert (∀ n, push_provenance (group_provenance g sha n) (push_group (stored_group g) s)
    = snap_app s {| csn_course_groups := [stored_group g]; csn_course_variants := []; csn_sections := [];
                    csn_occurrences := []; csn_provenance := [group_provenance g sha n] |}) as Heq
    by (intros; unfold snap_app, push_provenance, push_group; cbn; by rewrite !app_nil_r).
  setoid_rewrite Heq. setoid_rewrite snap_app_assoc. naive_solver.
Qed.

Definition audits_delta (sha : Sha256Hex) (audits : list DuplicateAudit) : CatalogSnapshot :=
  {| csn_course_groups := []; csn_course_variants := []; csn_sections := []; csn_occurrences := [];
     csn_provenance := audit_provenance sha <$> audits |}.

(** The snapshot of a target. *)
Definition mapped_snapshot (sha : Sha256Hex) (t : NormalizedCatalogTarget) : CatalogSnapshot :=
  snap_app (snap_concat (group_delta sha) (enumerate (nct_groups t))) (audits_delta sha (nct_duplicate_audits t)).

Lemma fold_audits sha audits s :
  foldl (λ snapshot audit, push_provenance (audit_provenance sha audit) snapshot) s audits
  = snap_app s (audits_delta sha audits).
Proof.
  revert s. induction audits as [|a audits IH]; intros s; cbn [foldl].
  - symmetry. exact (snap_app_nil s).
  - rewrite IH. unfold snap_app, push_provenance, audits_delta. cbn. by rewrite !app_nil_r, <-app_assoc.
Qed.

Lemma to_operational_snapshot_Ok t s :
  to_operational_snapshot t = Ok s ↔
  ∃ sha, Sha256Hex_try_new (spr_body_sha256 (nct_provenance t)) = Some sha
    ∧ Forall group_fits (enumerate (nct_groups t)) ∧ s = mapped_snapshot sha t.
Proof.
  unfold to_operational_snapshot. rewrite result_bind_Ok. setoid_rewrite ok_or_Ok. setoid_rewrite result_bind_Ok.
  setoid_rewrite (try_fold_snapshot _ _ _ _ (map_group_Ok _)). setoid_rewrite fold_audits. split.
  - intros (sha & Hsha & s1 & [Hfit ->] & [= <-]). exists sha. by rewrite snap_nil_app.
  - intros (sha & Hsha & Hfit & ->). exists sha. split; [done|]. eexists. split; [done|]. by rewrite snap_nil_app.
Qed.

End closed_form.

(** ** Lists of lists *)

Lemma enumerate_snd {A} (l : list A) : (enumerate l).*2 = l.
Proof. apply list_eq. intros i. unfold enumerate. rewrite list_lookup_fmap, list_lookup_imap. by destruct (l !! i). Qed.

Lemma enumerate_fmap {A B} (f : A → B) (l : list A) : (λ e, f e.2) <$> enumerate l = f <$> l.
Proof. rewrite <-(enumerate_snd l) at 2. exact (list_fmap_compose snd f (enumerate l)). Qed.

Lemma enumerate_bind {A B} (f : A → list B) (l : list A) : enumerate l ≫= (λ e, f e.2) = l ≫= f.
Proof. rewrite <-(enumerate_snd l) at 2. by rewrite list_fmap_bind. Qed.

Lemma filter_all {A} (P : A → Prop) `{∀ x, Decision (P x)} (l : list A) : (∀ x, x ∈ l → P x) → filter P l = l.
Proof.
  induction l as [|a l IH]; intros Hl; [done|]. rewrite filter_cons_True by (apply Hl; left). f_equal. apply IH.
  intros x Hx. apply Hl. by right.
Qed.

(** The children of one of several parents. *)
Lemma filter_bind_parent {A B K} `{EqDecision K} (key : A → K) (parent : B → K) (f : A → list B) (l : list A) a :
  NoDup (key <$> l) → a ∈ l → (∀ x y, x ∈ l → y ∈ f x → parent y = key x) →
  filter (λ y, parent y = key a) (l ≫= f) = f a.
Proof.
  intros Hnd Ha Hparent. induction l as [|b l IH]; [by apply elem_of_nil in Ha|].
  rewrite fmap_cons in Hnd. apply NoDup_cons in Hnd as [Hb Hnd]. cbn [mbind list_bind]. rewrite filter_app.
  apply elem_of_cons in Ha as [->|Ha].
  - rewrite filter_all by (intros y Hy; apply Hparent; [left|done]). rewrite filter_none; [apply app_nil_r|].
    intros y (x & Hy & Hx)%list_elem_of_bind Heq. rewrite (Hparent x y) in Heq by (try right; done).
    destruct Hb. rewrite <-Heq. by apply list_elem_of_fmap_2.
  - rewrite filter_none; [|intros y Hy Heq; rewrite (Hparent b y) in Heq by (try left; done);
      destruct Hb; rewrite Heq; by apply list_elem_of_fmap_2].
    apply IH; [done..|]. intros x y Hx. apply Hparent. by right.
Qed.

Lemma NoDup_bind_keys {A B K L} (key : A → K) (child : B → L) (parent : L → K) (f : A → list B) (l : list A) :
  NoDup (key <$> l) → (∀ x, x ∈ l → NoDup (child <$> f x)) →
  (∀ x y, x ∈ l → y ∈ f x → parent (child y) = key x) → NoDup (child <$> (l ≫= f)).
Proof.
  intros Hnd Hf Hparent. induction l as [|a l IH]; [constructor|]. rewrite fmap_cons in Hnd.
  apply NoDup_cons in Hnd as [Ha Hnd]. cbn [mbind list_bind]. rewrite fmap_app. apply NoDup_app. split_and!.
  - apply Hf. left.
  - intros c (y & -> & Hy)%list_elem_of_fmap (y' & Hc & (x & Hy' & Hx)%list_elem_of_bind)%list_elem_of_fmap.
    destruct Ha. rewrite <-(Hparent a y), Hc, (Hparent x y') by (try left; try right; done). by apply list_elem_of_fmap_2.
  - apply IH; [done|intros x Hx; apply Hf; by right|intros x y Hx; apply Hparent; by right].
Qed.

Lemma strict_by_NoDup {V K} `{ROrdLaws K} (key_of : V → K) (l : list V) : strict_by key_of l → NoDup (key_of <$> l).
Proof.
  intros Hl. apply (@sorted_lt_NoDup K rcmp rcmp_comparator). induction Hl as [|v l _ IH Hv]; cbn; [constructor|].
  constructor; [done|]. by apply Forall_fmap.
Qed.

(** ** The content hash of rows *)

Section content.
Context `{Sha256Api, JsonText}.

Lemma rows_by_lookup {A K L} `{Countable K, ROrd L} (parent : A → K) (key : A → L) (rows : list A) k :
  default [] (rows_by parent key rows !! k) = sort_by (compare_keys key) (filter (λ row, parent row = k) rows).
Proof.
  unfold rows_by. rewrite lookup_fmap.
  assert (∀ m : gmap K (list A), default [] (foldl (λ m row, <[parent row := default [] (m !! parent row) ++ [row]]> m) m rows !! k)
    = default [] (m !! k) ++ filter (λ row, parent row = k) rows) as Hfold.
  { induction rows as [|row rows IH]; intros m; cbn [foldl]; [by rewrite app_nil_r|]. rewrite IH, filter_cons.
    case_decide as Hk; [subst k; rewrite lookup_insert_eq; cbn; by rewrite <-app_assoc|]. by rewrite lookup_insert_ne. }
  specialize (Hfold ∅). rewrite lookup_empty in Hfold. cbn in Hfold. rewrite <-Hfold.
  by destruct (foldl _ ∅ rows !! k).
Qed.

(** The content of a snapshot does not depend on the order of its rows. *)
Lemma catalog_content_perm target s s' :
  csn_course_groups s ≡ₚ csn_course_groups s' → NoDup (scg_key <$> csn_course_groups s') →
  csn_course_variants s ≡ₚ csn_course_variants s' → NoDup (scv_key <$> csn_course_variants s') →
  csn_sections s ≡ₚ csn_sections s' → NoDup (sts_key <$> csn_sections s') →
  catalog_content_value_v1 target s = catalog_content_value_v1 target s'.
Proof.
  intros Hg Ng Hv Nv Hs Ns. unfold catalog_content_value_v1. rewrite (sort_distinct_keys scg_key _ _ Hg Ng).
  assert (∀ v, variant_row_content (rows_by sts_variant_key sts_key (csn_sections s)) v
             = variant_row_content (rows_by sts_variant_key sts_key (csn_sections s')) v) as Hvariant.
  { intros v. unfold variant_row_content. rewrite !rows_by_lookup.
    rewrite (sort_distinct_keys sts_key _ (filter (λ x, sts_variant_key x = scv_key v) (csn_sections s'))); [done|by rewrite Hs|].
    by apply NoDup_fmap_filter. }
  assert (∀ g, group_row_content (rows_by (λ v, cvk_group (scv_key v)) scv_key (csn_course_variants s))
                 (rows_by sts_variant_key sts_key (csn_sections s)) g
             = group_row_content (rows_by (λ v, cvk_group (scv_key v)) scv_key (csn_course_variants s'))
                 (rows_by sts_variant_key sts_key (csn_sections s')) g) as Hgroup.
  { intros g. unfold group_row_content. rewrite !rows_by_lookup.
    rewrite (sort_distinct_keys scv_key _ (filter (λ x, cvk_group (scv_key x) = scg_key g) (csn_course_variants s'))).
    - by rewrite (list_fmap_ext _ _ _ (λ _ v _, Hvariant v)).
    - by rewrite Hv.
    - by apply NoDup_fmap_filter. }
  by rewrite (list_fmap_ext _ _ _ (λ _ g _, Hgroup g)).
Qed.

End content.

(** ** The rows of a mapped target *)

Section rows.
Context `{NumberApi}.
Implicit Types (sha : Sha256Hex) (t : NormalizedCatalogTarget).

Lemma bind_nil {A B} (l : list A) : l ≫= (λ _, [] : list B) = [].
Proof. by induction l. Qed.

Lemma bind_single {A B} (f : A → B) (l : list A) : l ≫= (λ a, [f a]) = f <$> l.
Proof. induction l as [|a l IH]; [done|]. cbn [mbind list_bind]. by rewrite IH. Qed.

Lemma bind_ext {A B} (f g : A → list B) (l : list A) : (∀ a, f a = g a) → l ≫= f = l ≫= g.
Proof. intros Hfg. induction l as [|a l IH]; [done|]. cbn [mbind list_bind]. by rewrite Hfg, IH. Qed.

Lemma bind_bind {A B C} (f : A → list B) (g : B → list C) (l : list A) : (l ≫= f) ≫= g = l ≫= λ a, f a ≫= g.
Proof. induction l as [|a l IH]; [done|]. cbn [mbind list_bind]. by rewrite bind_app, IH. Qed.

Lemma mapped_groups sha t : csn_course_groups (mapped_snapshot sha t) = stored_group <$> nct_groups t.
Proof.
  unfold mapped_snapshot. cbn. rewrite app_nil_r, (snap_concat_field csn_course_groups), <-bind_single by done.
  rewrite <-(enumerate_bind (λ g, [stored_group g])). apply bind_ext. intros [i g]. unfold group_delta. cbn. f_equal.
  rewrite (snap_concat_field csn_course_groups) by done. erewrite bind_ext; [apply bind_nil|]. intros [j v]. cbn.
  rewrite !(snap_concat_field csn_course_groups) by done. cbn. rewrite bind_nil. erewrite bind_ext; [apply bind_nil|].
  intros [k sec]. unfold section_delta. cbn. rewrite (snap_concat_field csn_course_groups) by done. apply bind_nil.
Qed.

Lemma mapped_variants sha t :
  csn_course_variants (mapped_snapshot sha t)
  = (λ v, stored_variant v (ncr_raw_course_count v)) <$> (nct_groups t ≫= ngr_variants).
Proof.
  unfold mapped_snapshot. cbn. rewrite app_nil_r, (snap_concat_field csn_course_variants) by done.
  rewrite <-bind_single, bind_bind, <-(enumerate_bind (λ g, ngr_variants g ≫= _)). apply bind_ext. intros [i g].
  unfold group_delta. cbn. rewrite (snap_concat_field csn_course_variants) by done.
  rewrite <-(enumerate_bind (λ v, [stored_variant v (ncr_raw_course_count v)])). apply bind_ext. intros [j v]. cbn. f_equal.
  rewrite !(snap_concat_field csn_course_variants) by done. cbn. rewrite bind_nil. erewrite bind_ext; [apply bind_nil|].
  intros [k sec]. unfold section_delta. cbn. rewrite (snap_concat_field csn_course_variants) by done. apply bind_nil.
Qed.

Lemma mapped_sections sha t :
  csn_sections (mapped_snapshot sha t)
  = (nct_groups t ≫= ngr_variants) ≫= λ v, stored_section (ncr_key v) <$> ncr_sections v.
Proof.
  unfold mapped_snapshot. cbn. rewrite app_nil_r, (snap_concat_field csn_sections) by done.
  rewrite bind_bind, <-(enumerate_bind (λ g, ngr_variants g ≫= _)). apply bind_ext. intros [i g].
  unfold group_delta. cbn. rewrite (snap_concat_field csn_sections) by done.
  rewrite <-(enumerate_bind (λ v, stored_section (ncr_key v) <$> ncr_sections v)). apply bind_ext. intros [j v]. cbn.
  rewrite !(snap_concat_field csn_sections) by done. cbn. rewrite bind_nil, <-bind_single, <-(enumerate_bind (λ sec, [stored_section (ncr_key v) sec])). cbn.
  apply bind_ext. intros [k sec]. unfold section_delta. cbn. rewrite (snap_concat_field csn_sections) by done.
  cbn. by rewrite bind_nil.
Qed.

Lemma mapped_occurrences sha t :
  csn_occurrences (mapped_snapshot sha t)
  = NormalizedCatalogTarget_sections t ≫= λ sec,
      (λ o, stored_occurrence sec o (noe_source_ordinal o) (occurrence_key_text o)) <$> nsc_occurrences sec.
Proof.
  unfold mapped_snapshot, NormalizedCatalogTarget_sections. cbn. rewrite app_nil_r, (snap_concat_field csn_occurrences) by done.
  rewrite !bind_bind, <-(enumerate_bind (λ g, ngr_variants g ≫= _)). apply bind_ext. intros [i g].
  unfold group_delta. cbn. rewrite (snap_concat_field csn_occurrences) by done.
  rewrite <-(enumerate_bind (λ v, ncr_sections v ≫= _)). apply bind_ext. intros [j v]. cbn.
  rewrite !(snap_concat_field csn_occurrences) by done. cbn. rewrite bind_nil, <-(enumerate_bind (λ sec, _ <$> nsc_occurrences sec)). cbn.
  apply bind_ext. intros [k sec]. unfold section_delta. cbn. rewrite (snap_concat_field csn_occurrences) by done.
  by rewrite <-bind_single.
Qed.

End rows.

(** ** The two content hashes *)

Section agreement.
Context `{Sha256ApiLaws, JsonText, !NumberApiLaws}.
Implicit Types (target : TermCampusKey) (sha : Sha256Hex) (t : NormalizedCatalogTarget).

Lemma fmap_bind {A B C} (f : A → list B) (g : B → C) (l : list A) : g <$> (l ≫= f) = l ≫= λ a, g <$> f a.
Proof. induction l as [|a l IH]; [done|]. cbn [mbind list_bind]. by rewrite fmap_app, IH. Qed.

Lemma sort_strict {V K} `{ROrdLaws K} (key_of : V → K) (l : list V) :
  strict_by key_of l → sort_by (compare_keys key_of) l = l.
Proof. intros Hl. apply sort_by_id. by apply sorted_lt_le. Qed.

Section target.
Context (target : TermCampusKey) (n : nat) (t : NormalizedCatalogTarget).
Hypothesis (Hwf : target_wf target n t).

Lemma target_group g : g ∈ nct_groups t → group_wf target n g.
Proof using Hwf. intros Hg. pose proof (tw_group _ _ _ Hwf) as Hall. rewrite Forall_forall in Hall. by apply Hall. Qed.

Lemma target_group_variant g v :
  g ∈ nct_groups t → v ∈ ngr_variants g → cvk_group (ncr_key v) = ngr_key g ∧ variant_wf target n v.
Proof using Hwf.
  intros Hg Hv. pose proof (gw_variant _ _ _ (target_group g Hg)) as Hall. rewrite Forall_forall in Hall. by apply Hall.
Qed.

Lemma target_variant v : v ∈ nct_groups t ≫= ngr_variants → variant_wf target n v.
Proof using Hwf. intros (g & Hv & Hg)%list_elem_of_bind. by destruct (target_group_variant g v Hg Hv). Qed.

Lemma target_group_keys : NoDup (ngr_key <$> nct_groups t).
Proof using Hwf. apply strict_by_NoDup. by destruct Hwf. Qed.

Lemma target_variant_keys : NoDup (ncr_key <$> (nct_groups t ≫= ngr_variants)).
Proof using Hwf.
  apply (NoDup_bind_keys ngr_key ncr_key cvk_group); [exact target_group_keys| |].
  - intros g Hg. apply strict_by_NoDup. by destruct (target_group g Hg).
  - intros g v Hg Hv. by destruct (target_group_variant g v Hg Hv).
Qed.

Lemma target_content_rows sha :
  catalog_content_value_v1 target (mapped_snapshot sha t) = target_content target (nct_groups t).
Proof using Hwf.
  unfold catalog_content_value_v1. rewrite mapped_groups, mapped_variants, mapped_sections.
  rewrite sort_strict by (by apply strict_fmap; destruct Hwf). rewrite <-list_fmap_compose.
  unfold target_content. erewrite list_fmap_ext; [reflexivity|]. intros i g Hg%list_elem_of_lookup_2. cbn.
  unfold group_row_content, group_content. cbn [scg_key stored_group]. rewrite rows_by_lookup, fmap_bind.
  rewrite (filter_bind_parent ngr_key (λ v, cvk_group (scv_key v))); [|exact target_group_keys|done|].
  2: { intros g' row Hg' (v & -> & Hv)%list_elem_of_fmap. by destruct (target_group_variant g' v Hg' Hv). }
  rewrite sort_strict by (apply strict_fmap, (gw_variants _ _ _ (target_group g Hg))). rewrite <-list_fmap_compose.
  erewrite list_fmap_ext; [reflexivity|]. intros j v Hv%list_elem_of_lookup_2. cbn.
  assert (v ∈ nct_groups t ≫= ngr_variants) as Hin by (apply list_elem_of_bind; eauto).
  unfold variant_row_content, variant_content. cbn [scv_key stored_variant scv_canonical_sha256]. rewrite rows_by_lookup.
  rewrite (filter_bind_parent ncr_key sts_variant_key); [|exact target_variant_keys|done|].
  2: { intros v' row _ (sec & -> & _)%list_elem_of_fmap. done. }
  rewrite sort_strict by (apply strict_fmap, (vw_sections _ _ _ (target_variant v Hin))). by rewrite <-list_fmap_compose.
Qed.

End target.

Lemma target_content_wf target groups : value_wf (target_content target groups).
Proof.
  assert (∀ sec, value_wf (section_content sec)) as Hs
    by (intros; apply value_wf_obj_of; repeat constructor).
  assert (∀ v, value_wf (variant_content v)) as Hv
    by (intros; apply value_wf_obj_of; repeat constructor; by apply Forall_fmap, Forall_true).
  assert (∀ g, value_wf (group_content g)) as Hg
    by (intros; apply value_wf_obj_of; repeat constructor; by apply Forall_fmap, Forall_true).
  apply value_wf_obj_of. apply Forall_cons; split; [constructor|].
  apply Forall_cons; split; [apply value_wf_obj_of; repeat constructor|].
  apply Forall_cons; split; [constructor; by apply Forall_fmap, Forall_true|constructor].
Qed.

Lemma content_hash_rows target groups :
  sha_str (content_hash target groups)
  = sha256_hex (CATALOG_TARGET_CONTENT_PREIMAGE_V1 +:+ json_to_string (target_content target groups)).
Proof.
  unfold content_hash, canonical_target_content_hash_v1, hash_tagged. rewrite canonicalize_exact by apply target_content_wf.
  done.
Qed.

End agreement.
