(* ===== verification/Publication.v ===== *)
(** * The storage accepts what the mapping gives

    The rows of a mapped target pass every check of the storage: identifiers,
    digests, wire values, parents and keys; what is left to the input are the
    sizes of the texts of the courses. *)

From S2P Require Import Prelude Identity Contracts CatalogData RustStr Filters OpenClient Ordering Json RawCatalog RawCatalogFacts.
From S2P Require Import CatalogModel CatalogExample Canonical CanonicalFacts Delivery DeliveryFacts Normalize NormalizeFacts NormalizeSpec.
From S2P Require Import OpenStore OpenService OpenTables OpenCommands CatalogSnapshot Decimal SnapshotMapping SnapshotMappingFacts.

(** ** Checks *)

Lemma catalog_check_Ok field reason valid : catalog_check field reason valid = Ok () ↔ valid = true.
Proof. unfold catalog_check. by destruct valid. Qed.

(** One check after another. *)
Lemma ok_then {E B} (r : result E ()) (k : () → result E B) b : r = Ok () → k () = Ok b → r ≫= k = Ok b.
Proof. by intros ->. Qed.

Lemma collect_keys_Ok {A K} `{Countable K} (key : A → K) check duplicate (rows : list A) : ∀ keys,
  Forall (λ row, check row = Ok ()) rows → NoDup (key <$> rows) → (∀ row, row ∈ rows → key row ∉ keys) →
  collect_keys key check duplicate keys rows = Ok (list_to_set (key <$> rows) ∪ keys).
Proof.
  induction rows as [|row rows IH]; intros keys Hall Hnd Hkeys; cbn [collect_keys].
  - f_equal. cbn. set_solver.
  - apply Forall_cons in Hall as [Hrow Hall]. rewrite fmap_cons in Hnd. apply NoDup_cons in Hnd as [Hnin Hnd].
    rewrite Hrow. cbn [mbind result_bind]. rewrite bool_decide_eq_false_2 by (apply Hkeys; left).
    rewrite IH; [f_equal; rewrite fmap_cons; cbn; set_solver|done|done|].
    intros r Hr [Heq%elem_of_singleton|Hin]%elem_of_union; [|by apply (Hkeys r); [right|]].
    apply Hnin. rewrite <-Heq. by apply list_elem_of_fmap_2.
Qed.

Lemma collect_sorted {A K} `{Countable K} (key : A → K) check duplicate cmp (rows : list A) :
  Forall (λ row, check row = Ok ()) rows → NoDup (key <$> rows) →
  ∃ keys, collect_keys key check duplicate ∅ (sort_by cmp rows) = Ok keys ∧ ∀ row, row ∈ rows → key row ∈ keys.
Proof.
  intros Hall Hnd. exists (list_to_set (key <$> sort_by cmp rows) ∪ ∅). split.
  - apply collect_keys_Ok; [by rewrite (sort_by_perm cmp rows)..|set_solver].
  - intros row Hrow. apply elem_of_union_l, elem_of_list_to_set, list_elem_of_fmap_2. by rewrite (sort_by_perm cmp rows).
Qed.

(** The loop over rows of distinct keys fails exactly with the first row refused. *)
Lemma collect_keys_cases {A K} `{Countable K} (key : A → K) check duplicate (rows : list A) : ∀ keys,
  NoDup (key <$> rows) → (∀ row, row ∈ rows → key row ∉ keys) →
  match collect_keys key check duplicate keys rows with
  | Ok keys' => keys' = list_to_set (key <$> rows) ∪ keys ∧ ∀ row, row ∈ rows → check row = Ok ()
  | Err e => ∃ row, row ∈ rows ∧ check row = Err e
  end.
Proof.
  induction rows as [|row rows IH]; intros keys Hnd Hkeys; cbn [collect_keys].
  - split; [cbn; set_solver|]. by intros row ?%elem_of_nil.
  - rewrite fmap_cons in Hnd. apply NoDup_cons in Hnd as [Hnin Hnd].
    destruct (check row) as [[]|e] eqn:Hrow; cbn [mbind result_bind]; [|exists row; split; [left|done]].
    rewrite bool_decide_eq_false_2 by (apply Hkeys; left). specialize (IH ({[key row]} ∪ keys) Hnd).
    destruct (collect_keys _ _ _ _ rows); [|destruct IH as (r & Hr & Hc)].
    + destruct IH as [-> Hall]; [|split; [rewrite fmap_cons; cbn; set_solver|]].
      * intros r Hr [Heq%elem_of_singleton|Hin]%elem_of_union; [|by apply (Hkeys r); [right|]].
        apply Hnin. rewrite <-Heq. by apply list_elem_of_fmap_2.
      * intros r [->|Hr]%elem_of_cons; [done|by apply Hall].
    + intros r Hr [Heq%elem_of_singleton|Hin]%elem_of_union; [|by apply (Hkeys r); [right|]].
      apply Hnin. rewrite <-Heq. by apply list_elem_of_fmap_2.
    + exists r. split; [by right|done].
Qed.

(** ** Identifiers *)

Lemma forallb_weaken {A} (f g : A → bool) l : (∀ x, f x = true → g x = true) → forallb f l = true → forallb g l = true.
Proof. intros Hfg. rewrite !forallb_forall. intros Hf x Hx. by apply Hfg, Hf. Qed.

Definition ident (s : string) : Prop := forallb is_identifier_byte (bytes s) = true.

Lemma ident_app s t : ident (s +:+ t) ↔ ident s ∧ ident t.
Proof. unfold ident. by rewrite bytes_app, forallb_app, andb_true_iff. Qed.

Ltac ident_bytes :=
  let c := fresh "c" in
  intros c; unfold is_identifier_byte, is_ascii_alphanumeric; rewrite ?orb_true_iff; tauto.

Lemma term_ident v : validate_term v = Ok () → ident v ∧ (String.length v ≤ 16)%nat.
Proof.
  unfold validate_term. case_bool_decide; [done|]. case_bool_decide as El; [done|].
  destruct (existsb _ _); [done|]. destruct (forallb _ _) eqn:Hf; [|done]. intros _.
  split; [|unfold TERM_MAX_BYTES in El; lia]. eapply forallb_weaken; [|exact Hf]. ident_bytes.
Qed.

Lemma campus_ident v : validate_campus v = Ok () → ident v ∧ (String.length v ≤ 32)%nat.
Proof.
  unfold validate_campus. case_bool_decide; [done|]. case_bool_decide as El; [done|].
  destruct (existsb _ _); [done|]. destruct (forallb _ _) eqn:Hf; [|done]. intros _.
  split; [|unfold CAMPUS_MAX_BYTES in El; lia]. eapply forallb_weaken; [|exact Hf]. ident_bytes.
Qed.

Lemma index_ident v : validate_section_index v = Ok () → ident v ∧ String.length v = 5%nat.
Proof.
  unfold validate_section_index. case_bool_decide as El; [done|].
  destruct (forallb _ _) eqn:Hf; [|done]. intros _.
  split; [|unfold SECTION_INDEX_WIDTH in El; lia]. eapply forallb_weaken; [|exact Hf]. ident_bytes.
Qed.

Lemma course_ident v : validate_course_string v = Ok () → ident v ∧ (String.length v ≤ 64)%nat ∧ slash ∉ bytes v.
Proof.
  unfold validate_course_string. case_bool_decide; [done|]. case_bool_decide as El; [done|].
  destruct (forallb _ _) eqn:Hf; [|done]. intros _. split_and!; [|unfold COURSE_STRING_MAX_BYTES in El; lia|].
  - eapply forallb_weaken; [|exact Hf]. ident_bytes.
  - by eapply forallb_not_elem.
Qed.

Lemma hex_ident v : forallb is_lower_hex (bytes v) = true → ident v.
Proof.
  apply forallb_weaken. intros c. unfold is_lower_hex, is_identifier_byte, is_ascii_alphanumeric, is_ascii_lowercase, byte_in.
  rewrite ?orb_true_iff, ?andb_true_iff, ?N.leb_le. intros [Hd|[Hlo Hhi]]; [tauto|].
  assert (Ascii.N_of_ascii c <= 122)%N by lia. tauto.
Qed.

Lemma digits_ident v : forallb is_ascii_digit (bytes v) = true → ident v.
Proof. apply forallb_weaken. ident_bytes. Qed.

Lemma strip_prefix_inv p v s : strip_prefix p v = Some s → v = p +:+ s.
Proof.
  unfold strip_prefix. destruct (String.prefix p v) eqn:Hp; [|done]. intros [= <-]. revert v Hp.
  induction p as [|a p IH]; intros v Hp.
  - cbn. by rewrite Nat.sub_0_r, substring_all.
  - destruct v as [|b v]; [discriminate Hp|]. cbn in Hp. destruct (Ascii.ascii_dec a b) as [->|]; [|discriminate Hp].
    rewrite string_cons_app. cbn. f_equal. by apply IH.
Qed.

Lemma fingerprint_ident v : validate_fingerprint v = Ok () → ident v ∧ String.length v = 67%nat.
Proof.
  unfold validate_fingerprint. destruct (strip_prefix FINGERPRINT_PREFIX v) as [hex|] eqn:Hp; [|done].
  case_bool_decide as El; [done|]. cbn [orb]. destruct (forallb is_lower_hex (bytes hex)) eqn:Hf; [|done]. intros _.
  apply strip_prefix_inv in Hp as ->. rewrite ident_app, string_length_app, El.
  split; [split; [done|by apply hex_ident]|done].
Qed.

Lemma identifier_Ok field v bound : ident v → v ≠ "" → (String.length v ≤ bound)%nat → validate_identifier field v bound = Ok ().
Proof.
  intros Hi Hne Hl. apply catalog_check_Ok. unfold ident in Hi. rewrite Hi, !bool_decide_eq_false_2; [done|lia|done].
Qed.

Lemma sha_valid field v : is_sha256_hex v = true → validate_sha256 field v = Ok ().
Proof.
  unfold is_sha256_hex. intros [Hl Hf]%andb_true_iff. apply catalog_check_Ok. apply bool_decide_eq_true in Hl.
  rewrite bool_decide_eq_false_2 by (rewrite Hl; by intros []). cbn. by rewrite Hf.
Qed.

Lemma sha_hex_valid `{Sha256ApiLaws} field b : validate_sha256 field (sha256_hex b) = Ok ().
Proof. apply sha_valid, sha256_hex_digest. Qed.

Lemma modality_wire field m : validate_wire_token field (CatalogModality_wire_name m) MODALITY_WIRE_VALUES = Ok ().
Proof. by destruct m. Qed.
Lemma synchronicity_wire field x : validate_wire_token field (CatalogSynchronicity_wire_name x) SYNCHRONICITY_WIRE_VALUES = Ok ().
Proof. by destruct x. Qed.
Lemma kind_wire field k : validate_wire_token field (CatalogOccurrenceKind_wire_name k) OCCURRENCE_KIND_WIRE_VALUES = Ok ().
Proof. by destruct k. Qed.
Lemma evidence_wire field e : validate_wire_token field (CatalogOccurrenceEvidence_wire_name e) OCCURRENCE_EVIDENCE_WIRE_VALUES = Ok ().
Proof. by destruct e. Qed.
Lemma requiredness_wire field r : validate_wire_token field (CatalogRequiredness_wire_name r) REQUIREDNESS_WIRE_VALUES = Ok ().
Proof. by destruct r. Qed.
Lemma time_wire field t : validate_wire_token field (time_knowledge_name t) TIME_KNOWLEDGE_WIRE_VALUES = Ok ().
Proof. by destruct t. Qed.

(** A target as the constructors give it. *)
Definition TermCampusKey_wf (target : TermCampusKey) : Prop :=
  TermId_wf (tck_term target) ∧ CampusCode_wf (tck_campus target).

(** ** Rows *)

Lemma group_target_Ok target g : cgk_target g = target → validate_group_target target g = Ok ().
Proof. intros <-. apply catalog_check_Ok. by rewrite !bool_decide_eq_false_2 by (by intros []). Qed.

Lemma section_target_Ok target k : sk_target k = target → validate_section_target target k = Ok ().
Proof. intros <-. apply catalog_check_Ok. by rewrite !bool_decide_eq_false_2 by (by intros []). Qed.

(** A text fits a column: its bytes and no NUL. *)
Definition text_fits (bound : nat) (text : string) : Prop :=
  (String.length text ≤ bound)%nat ∧ existsb (byte_is 0) (bytes text) = false.

(** The columns of a variant that hold text of the payload, with their bounds. *)
Definition text_columns `{NumberApi} (v : NormalizedCourseVariant) : list (string * nat * option string) :=
  [("course_number", 128%nat, known_string (cvf_course_number (ncr_fields v)));
   ("title", 4096%nat, known_string (cvf_title (ncr_fields v)));
   ("description", N.to_nat 65536, known_string (cvf_course_description (ncr_fields v)));
   ("variant.search_document", N.to_nat 262144, Some (search_document v))].

(** A column of a variant whose text does not fit. *)
Definition text_overflow `{NumberApi} (v : NormalizedCourseVariant) (field : string) : Prop :=
  ∃ bound text, (field, bound, Some text) ∈ text_columns v ∧ ¬ text_fits bound text.

Definition text_refusal (field : string) : StorageError :=
  StorageError_InvalidCommand field "text violates the empty, size, or NUL boundary".

Lemma overflow_at `{NumberApi} v field bound text :
  (field, bound, Some text) ∈ text_columns v → ¬ text_fits bound text →
  ∃ f, text_overflow v f ∧ text_refusal field = text_refusal f.
Proof. intros Hin Hn. exists field. split; [by exists bound, text|done]. Qed.

Lemma text_cases field text bound :
  match validate_text field text bound true with
  | Ok _ => text_fits bound text
  | Err e => ¬ text_fits bound text ∧ e = text_refusal field
  end.
Proof.
  unfold validate_text, catalog_check, text_fits. cbn [negb andb orb].
  case_bool_decide; cbn [orb negb]; [split; [lia|done]|]. destruct (existsb _ _); cbn [negb]; split; try done; [by intros []|lia].
Qed.

Lemma optional_text_cases field (text : option string) bound :
  match validate_optional_text field text bound with
  | Ok _ => ∀ s, text = Some s → text_fits bound s
  | Err e => e = text_refusal field ∧ ∃ s, text = Some s ∧ ¬ text_fits bound s
  end.
Proof.
  destruct text as [s|]; [|done]. cbn. pose proof (text_cases field s bound) as Hc.
  destruct (validate_text _ _ _ _); naive_solver.
Qed.

Lemma optional_text_Ok field (text : option string) bound :
  (∀ s, text = Some s → text_fits bound s) → validate_optional_text field text bound = Ok ().
Proof.
  intros Hfit. pose proof (optional_text_cases field text bound) as Hc.
  destruct (validate_optional_text _ _ _) as [[]|e]; [done|]. naive_solver.
Qed.

(** A subject code has no control character, in particular no NUL. *)
Lemma no_control_no_nul s : has_control s = false → existsb (byte_is 0) (bytes s) = false.
Proof.
  induction s as [|a s IH]; [done|]. cbn [has_control]. rewrite !orb_false_iff. intros [[[H0 _] _] Hs].
  change (bytes (String a s)) with (a :: bytes s). cbn [existsb]. rewrite IH by done. rewrite orb_false_r.
  unfold byte_in, byte_is in *. apply andb_false_iff in H0. rewrite !N.leb_gt in H0. apply N.eqb_neq. lia.
Qed.

Lemma subject_code_fits value code : CatalogSubjectCode_try_from value = Some code → text_fits 128 (subject_str code).
Proof.
  unfold CatalogSubjectCode_try_from. case_bool_decide; [done|]. case_bool_decide as Hl; [|done]. case_bool_decide; [|done].
  destruct (has_control value) eqn:Hc; [done|]. cbn. intros [= <-]. cbn. split; [unfold SUBJECT_CODE_MAX_BYTES in Hl; lia|].
  by apply no_control_no_nul.
Qed.

(** ** Lists *)

Lemma NoDup_fmap_via {A B C} (f : A → B) (g : A → C) (l : list A) :
  NoDup (g <$> l) → (∀ x y, x ∈ l → y ∈ l → f x = f y → g x = g y) → NoDup (f <$> l).
Proof.
  induction l as [|a l IH]; [constructor|]. rewrite !fmap_cons. intros [Ha Hl]%NoDup_cons Hfg. apply NoDup_cons. split.
  - intros (b & Hb & Hin)%list_elem_of_fmap. apply Ha. rewrite (Hfg a b) by (try left; try right; done). by apply list_elem_of_fmap_2.
  - apply IH; [done|]. intros x y Hx Hy. apply Hfg; by right.
Qed.

Lemma bind_perm_ext {A B} (f g : A → list B) (l : list A) : (∀ a, a ∈ l → f a ≡ₚ g a) → l ≫= f ≡ₚ l ≫= g.
Proof.
  induction l as [|a l IH]; intros Hfg; [done|]. cbn [mbind list_bind]. rewrite (Hfg a) by left. rewrite IH; [done|].
  intros b Hb. apply Hfg. by right.
Qed.

Lemma bind_app_perm {A B} (f g : A → list B) (l : list A) : l ≫= (λ a, f a ++ g a) ≡ₚ (l ≫= f) ++ (l ≫= g).
Proof.
  induction l as [|a l IH]; [done|]. cbn [mbind list_bind]. change (list_bind A B (λ a, f a ++ g a) l) with (l ≫= λ a, f a ++ g a).
  rewrite IH. rewrite <-!app_assoc. f_equiv. rewrite !app_assoc. f_equiv. apply Permutation_app_comm.
Qed.

Lemma bind_cons_perm {A B} (f : A → B) (g : A → list B) (l : list A) : l ≫= (λ a, f a :: g a) ≡ₚ (f <$> l) ++ (l ≫= g).
Proof. rewrite <-bind_single. exact (bind_app_perm (λ a, [f a]) g l). Qed.

Lemma NoDup_tagged {A B T} (f : A → B) (tag : B → T) (l1 l2 : list A) :
  NoDup (f <$> l1) → NoDup (f <$> l2) → (∀ x y, x ∈ l1 → y ∈ l2 → tag (f x) ≠ tag (f y)) → NoDup (f <$> (l1 ++ l2)).
Proof.
  intros H1 H2 Htag. rewrite fmap_app. apply NoDup_app. split_and!; [done| |done].
  intros b (x & -> & Hx)%list_elem_of_fmap (y & Hb & Hy)%list_elem_of_fmap. apply (Htag x y Hx Hy). by rewrite Hb.
Qed.

Section rows_accepted.
Context `{Sha256ApiLaws, JsonText, !NumberApiLaws}.
Context (target : TermCampusKey) (n : nat) (t : NormalizedCatalogTarget) (source : Sha256Hex).
Hypothesis (Hwf : target_wf target n t) (Htarget : TermCampusKey_wf target).
Hypothesis (Hfits : Forall group_fits (enumerate (nct_groups t))).
Hypothesis (Hsource : is_sha256_hex (sha_str source) = true).

Abbreviation variants := (nct_groups t ≫= ngr_variants).

Lemma section_of_target sec :
  sec ∈ NormalizedCatalogTarget_sections t →
  sk_target (nsc_key sec) = target ∧ SectionKey_wf (nsc_key sec) ∧ ∃ raw, normalizes_to target raw sec.
Proof using All.
  intros (v & Hsec & Hv)%list_elem_of_bind. pose proof (target_variant _ _ _ Hwf v Hv) as Hvw.
  pose proof (vw_section_keys _ _ _ Hvw) as Hk. pose proof (vw_section_from _ _ _ Hvw) as Hf.
  rewrite Forall_forall in Hk, Hf. destruct (Hk _ Hsec). by split_and!; [| |apply Hf].
Qed.

(** An occurrence of a kept section was derived from a meeting at its place. *)
Lemma occurrence_of_section sec i o :
  sec ∈ NormalizedCatalogTarget_sections t → nsc_occurrences sec !! i = Some o →
  ∃ raw, o = normalize_occurrence raw (Z.of_nat i).
Proof using All.
  intros (_ & _ & raw & res & Hres & <-)%section_of_target Hi.
  apply normalize_section_inv in Hres as (_ & _ & _ & _ & _ & Hocc & _). rewrite Hocc in Hi. unfold normalize_occurrences in Hi.
  destruct (rcs_meeting_times raw) as [| | |meetings]; try by rewrite lookup_nil in Hi.
  rewrite list_lookup_imap in Hi. apply fmap_Some in Hi as (m & _ & ->). by exists m.
Qed.

Lemma safe_reason field e time modality :
  validate_catalog_safe_code field (normalization_reason e time modality) = Ok ().
Proof. unfold normalization_reason. by repeat case_match. Qed.

Lemma time_projection_Ok sec raw i key :
  validate_occurrence_time_projection (stored_occurrence sec (normalize_occurrence raw i) i key) = Ok ().
Proof.
  unfold validate_occurrence_time_projection, stored_occurrence. cbn.
  pose proof (normalize_time_range (rme_start_time_military raw) (rme_end_time_military raw)) as Ht.
  destruct (normalize_time _ _); try done. cbn in *. apply catalog_check_Ok.
  rewrite !bool_decide_eq_true_2 by lia. done.
Qed.

Lemma group_rows_Ok : Forall (λ row, check_group_row target row = Ok ()) (stored_group <$> nct_groups t).
Proof using All.
  apply Forall_fmap, Forall_forall. intros g Hg. cbn. apply group_target_Ok, (gw_target _ _ _ (target_group _ _ _ Hwf g Hg)).
Qed.

Lemma section_rows_Ok variant_keys :
  (∀ v, v ∈ variants → ncr_key v ∈ variant_keys) →
  Forall (λ row, check_section_row target variant_keys row = Ok ())
    (variants ≫= λ v, stored_section (ncr_key v) <$> ncr_sections v).
Proof using All.
  intros Hkeys. apply Forall_forall. intros row (v & (sec & -> & Hsec)%list_elem_of_fmap & Hv)%list_elem_of_bind.
  assert (sec ∈ NormalizedCatalogTarget_sections t) as Hin by (apply list_elem_of_bind; eauto).
  destruct (section_of_target sec Hin) as (Hk & _ & raw & res & Hres & <-).
  apply normalize_section_inv in Hres as (_ & _ & _ & _ & _ & _ & _ & Hsem & _).
  pose proof Hv as (g & Hvg & Hg)%list_elem_of_bind.
  destruct (target_group_variant _ _ _ Hwf g v Hg Hvg) as [Hgk _].
  pose proof (gw_target _ _ _ (target_group _ _ _ Hwf g Hg)) as Hgt.
  unfold check_section_row, stored_section, section_delivery_wire.
  apply ok_then; [by apply section_target_Ok|]. apply ok_then; [by apply group_target_Ok; cbn; rewrite Hgk|].
  apply ok_then; [by rewrite bool_decide_eq_true_2 by by apply Hkeys|]. apply ok_then; [apply modality_wire|].
  apply ok_then; [apply synchronicity_wire|]. cbn. rewrite Hsem. apply sha_hex_valid.
Qed.

(** The row of a variant is refused exactly for a text that does not fit. *)
Lemma variant_row_cases group_keys v :
  (∀ g, g ∈ nct_groups t → ngr_key g ∈ group_keys) → v ∈ variants →
  match check_variant_row target group_keys (stored_variant v (ncr_raw_course_count v)) with
  | Ok _ => ∀ field, ¬ text_overflow v field
  | Err e => ∃ field, text_overflow v field ∧ e = text_refusal field
  end.
Proof using All.
  intros Hkeys Hv. pose proof Hv as (g & Hvg & Hg)%list_elem_of_bind.
  destruct (target_group_variant _ _ _ Hwf g v Hg Hvg) as [Hgk Hvw].
  pose proof (gw_target _ _ _ (target_group _ _ _ Hwf g Hg)) as Hgt. unfold check_variant_row.
  assert (cgk_target (cvk_group (ncr_key v)) = target) as Ht by by rewrite Hgk.
  cbn [scv_key stored_variant]. rewrite (group_target_Ok _ _ Ht). cbn [mbind result_bind].
  assert (cvk_group (ncr_key v) ∈ group_keys) as Hin by (rewrite Hgk; by apply Hkeys).
  rewrite (bool_decide_eq_true_2 _ Hin). cbn [mbind result_bind].
  cbn [scv_canonical_sha256 stored_variant]. rewrite (vw_hash _ _ _ Hvw).
  rewrite (sha_hex_valid _ _ : validate_sha256 _ (sha_str (canonical_course_variant_hash_v1 _)) = Ok ()). cbn [mbind result_bind].
  rewrite (optional_text_Ok "subject_code"); cycle 1.
  { intros s (code & Hcode & ->)%fmap_Some. apply bind_Some in Hcode as (value & _ & Hc). by eapply subject_code_fits. }
  cbn [mbind result_bind scv_course_number scv_title scv_description scv_search_document scv_raw_multiplicity stored_variant].
  pose proof (optional_text_cases "course_number" (known_string (cvf_course_number (ncr_fields v))) 128) as Hc1.
  destruct (validate_optional_text "course_number" _ _) as [[]|e]; cbn [mbind result_bind];
    [|destruct Hc1 as (-> & s & Hs & Hn); apply (overflow_at v _ 128 s); [|done]; unfold text_columns; rewrite Hs; in_table].
  pose proof (optional_text_cases "title" (known_string (cvf_title (ncr_fields v))) 4096) as Hc2.
  destruct (validate_optional_text "title" _ _) as [[]|e]; cbn [mbind result_bind];
    [|destruct Hc2 as (-> & s & Hs & Hn); apply (overflow_at v _ 4096 s); [|done]; unfold text_columns; rewrite Hs; in_table].
  pose proof (optional_text_cases "description" (known_string (cvf_course_description (ncr_fields v))) (N.to_nat 65536)) as Hc3.
  destruct (validate_optional_text "description" _ _) as [[]|e]; cbn [mbind result_bind];
    [|destruct Hc3 as (-> & s & Hs & Hn); apply (overflow_at v _ (N.to_nat 65536) s); [|done]; unfold text_columns; rewrite Hs; in_table].
  pose proof (text_cases "variant.search_document" (search_document v) (N.to_nat 262144)) as Hc4.
  destruct (validate_text _ _ _ _) as [[]|e]; cbn [mbind result_bind];
    [|destruct Hc4 as [Hn ->]; apply (overflow_at v _ (N.to_nat 262144) (search_document v)); [in_table|done]].
  pose proof (vw_count _ _ _ Hvw). rewrite bool_decide_eq_false_2 by lia. cbn [negb catalog_check].
  intros field (bound & text & Hover & Hn). apply Hn. unfold text_columns in Hover.
  rewrite !elem_of_cons, elem_of_nil in Hover. destruct Hover as [[= -> -> Ht']|[[= -> -> Ht']|[[= -> -> Ht']|[[= -> -> Ht']|[]]]]];
    [by apply Hc1|by apply Hc2|by apply Hc3|by rewrite Ht'].
Qed.

Lemma occurrence_key_ident o : fits_u32 (noe_source_ordinal o) → is_sha256_hex (sha_str (noe_raw_hash o)) = true →
  ident (occurrence_key_text o) ∧ String.length (occurrence_key_text o) = 75%nat.
Proof using All.
  intros [Hlo Hhi] [Hl%bool_decide_eq_true Hf]%andb_true_iff. unfold occurrence_key_text. rewrite !ident_app, !string_length_app, Hl.
  rewrite zero_padded_length by (unfold u32_max in *; lia). split_and!; [|done| |done].
  - by apply digits_ident, zero_padded_digits.
  - by apply hex_ident.
Qed.

Lemma occurrence_fits sec o : sec ∈ NormalizedCatalogTarget_sections t → o ∈ nsc_occurrences sec → fits_u32 (noe_source_ordinal o).
Proof using All.
  intros (v & Hsec & (g & Hv & Hg)%list_elem_of_bind)%list_elem_of_bind Ho.
  assert (∀ {A} (l : list A) a, a ∈ l → ∃ i, (i, a) ∈ enumerate l) as Henum.
  { intros A l a Ha. rewrite <-(enumerate_snd l) in Ha. apply list_elem_of_fmap in Ha as ([i b] & -> & Hin). by exists i. }
  destruct (Henum _ _ _ Hg) as [i Hi], (Henum _ _ _ Hv) as [j Hj], (Henum _ _ _ Hsec) as [k Hk].
  pose proof Hfits as Hall. rewrite Forall_forall in Hall. destruct (Hall _ Hi) as [_ Hg'].
  rewrite Forall_forall in Hg'. destruct (Hg' _ Hj) as (_ & _ & _ & Hv'). rewrite Forall_forall in Hv'.
  destruct (Hv' _ Hk) as [_ Ho']. rewrite Forall_forall in Ho'. by apply Ho'.
Qed.

Lemma occurrence_ordinal sec o : sec ∈ NormalizedCatalogTarget_sections t → o ∈ nsc_occurrences sec → 0 ≤ noe_source_ordinal o.
Proof using All. intros Hs Ho. by destruct (occurrence_fits sec o Hs Ho). Qed.

Lemma occurrence_hash_valid sec o : sec ∈ NormalizedCatalogTarget_sections t → o ∈ nsc_occurrences sec →
  is_sha256_hex (sha_str (noe_raw_hash o)) = true.
Proof using All.
  intros Hsec [i Hi]%list_elem_of_lookup. destruct (occurrence_of_section _ _ _ Hsec Hi) as [raw ->]. apply sha256_hex_digest.
Qed.

Lemma occurrence_rows_Ok section_keys :
  (∀ sec, sec ∈ NormalizedCatalogTarget_sections t → nsc_key sec ∈ section_keys) →
  Forall (λ row, check_occurrence_row target section_keys row = Ok ()) (csn_occurrences (mapped_snapshot source t)).
Proof using All.
  intros Hkeys. rewrite mapped_occurrences. apply Forall_forall.
  intros row (sec & (o & -> & Ho)%list_elem_of_fmap & Hsec)%list_elem_of_bind.
  destruct (section_of_target sec Hsec) as (Hk & _). pose proof (occurrence_hash_valid _ _ Hsec Ho) as Hhash.
  destruct (occurrence_key_ident o (occurrence_fits _ _ Hsec Ho) Hhash) as [Hid Hlen].
  pose proof Ho as [i Hi]%list_elem_of_lookup. destruct (occurrence_of_section _ _ _ Hsec Hi) as [raw Hraw].
  unfold check_occurrence_row. apply ok_then; [by apply section_target_Ok|].
  apply ok_then; [by rewrite bool_decide_eq_true_2 by by apply Hkeys|].
  apply ok_then; [apply identifier_Ok; [exact Hid|intros Heq; cbn in Heq; by rewrite Heq in Hlen|cbn; rewrite Hlen; lia]|].
  apply ok_then; [by apply sha_valid|]. apply ok_then; [apply time_wire|]. apply ok_then; [apply requiredness_wire|].
  apply ok_then; [apply kind_wire|]. apply ok_then; [apply evidence_wire|]. subst o.
  apply ok_then; [apply safe_reason|]. apply ok_then; [apply modality_wire|]. apply ok_then; [apply synchronicity_wire|].
  apply time_projection_Ok.
Qed.

(** *** The keys of the rows *)

Lemma section_keys_distinct : NoDup (nsc_key <$> NormalizedCatalogTarget_sections t).
Proof using All. by destruct Hwf. Qed.

Definition section_occurrences : list (NormalizedSection * NormalizedOccurrence) :=
  NormalizedCatalogTarget_sections t ≫= λ sec, pair sec <$> nsc_occurrences sec.

Lemma elem_of_section_occurrences sec o :
  (sec, o) ∈ section_occurrences ↔ sec ∈ NormalizedCatalogTarget_sections t ∧ o ∈ nsc_occurrences sec.
Proof using All.
  unfold section_occurrences. rewrite list_elem_of_bind. setoid_rewrite list_elem_of_fmap. split.
  - by intros (sec' & (o' & [= -> ->] & Ho) & Hs).
  - intros [Hs Ho]. exists sec. split; [|done]. by exists o.
Qed.

Lemma section_occurrences_distinct : NoDup ((λ p, (nsc_key p.1, noe_source_ordinal p.2)) <$> section_occurrences).
Proof using All.
  apply (NoDup_bind_keys nsc_key _ fst); [exact section_keys_distinct| |].
  - intros sec Hsec. rewrite <-list_fmap_compose. apply NoDup_alt. intros i j k Hi Hj. rewrite list_lookup_fmap in Hi, Hj.
    apply fmap_Some in Hi as (o & Ho & ->), Hj as (o' & Ho' & Heq). cbn in Heq. injection Heq as Heq.
    destruct (occurrence_of_section _ _ _ Hsec Ho) as [raw ->], (occurrence_of_section _ _ _ Hsec Ho') as [raw' ->].
    cbn in Heq. lia.
  - by intros sec p _ (o & -> & _)%list_elem_of_fmap.
Qed.

Lemma occurrence_rows_eq :
  csn_occurrences (mapped_snapshot source t)
  = (λ p, stored_occurrence p.1 p.2 (noe_source_ordinal p.2) (occurrence_key_text p.2)) <$> section_occurrences.
Proof using All.
  rewrite mapped_occurrences. unfold section_occurrences. rewrite fmap_bind. apply bind_ext. intros sec.
  by rewrite <-list_fmap_compose.
Qed.

Lemma occurrence_keys_distinct :
  NoDup ((λ o, (sto_section_key o, sto_occurrence_key o)) <$> csn_occurrences (mapped_snapshot source t)).
Proof using All.
  rewrite occurrence_rows_eq, <-list_fmap_compose. eapply NoDup_fmap_via; [exact section_occurrences_distinct|].
  intros [sec o] [sec' o'] [Hs Ho]%elem_of_section_occurrences [Hs' Ho']%elem_of_section_occurrences. cbn. intros [= -> Hkey].
  pose proof (occurrence_ordinal _ _ Hs Ho) as H0o. pose proof (occurrence_ordinal _ _ Hs' Ho') as H0o'.
  f_equal. apply (string_cut (Ascii.ascii_of_N 45)) in Hkey as [Hkey _]; [|by apply zero_padded_no_dash..].
  apply (f_equal decimal_value) in Hkey. by rewrite !zero_padded_value in Hkey.
Qed.

(** *** Provenance *)

Definition group_provs : list StoredProvenance :=
  (λ e, group_provenance e.2 source e.1) <$> enumerate (nct_groups t).
Definition variant_provs : list StoredProvenance :=
  nct_groups t ≫= λ g, (λ e, variant_provenance e.2 source e.1) <$> enumerate (ngr_variants g).
Definition open_provs : list StoredProvenance :=
  variants ≫= λ v, (λ o, open_sections_provenance v source o (cos_source_ordinal o)) <$> ncr_catalog_open_sections_snapshots v.
Definition section_provs : list StoredProvenance :=
  variants ≫= λ v, (λ e, section_provenance e.2 source e.1) <$> enumerate (ncr_sections v).
Definition occurrence_provs : list StoredProvenance :=
  (λ p, occurrence_provenance p.1 p.2 source (noe_source_ordinal p.2) (occurrence_key_text p.2)) <$> section_occurrences.
Definition audit_provs : list StoredProvenance := audit_provenance source <$> nct_duplicate_audits t.

Lemma section_provenance_rows vk e :
  csn_provenance (section_delta source vk e)
  = section_provenance e.2 source e.1
    :: ((λ o, occurrence_provenance e.2 o source (noe_source_ordinal o) (occurrence_key_text o)) <$> nsc_occurrences e.2).
Proof using All. unfold section_delta. cbn. rewrite (snap_concat_field csn_provenance) by done. cbn. by rewrite bind_single. Qed.

Lemma variant_provenance_rows e :
  csn_provenance (variant_delta source e) ≡ₚ
  variant_provenance e.2 source e.1
    :: ((λ o, open_sections_provenance e.2 source o (cos_source_ordinal o)) <$> ncr_catalog_open_sections_snapshots e.2)
    ++ ((λ f, section_provenance f.2 source f.1) <$> enumerate (ncr_sections e.2))
    ++ (ncr_sections e.2 ≫= λ sec,
         (λ o, occurrence_provenance sec o source (noe_source_ordinal o) (occurrence_key_text o)) <$> nsc_occurrences sec).
Proof using All.
  unfold variant_delta. cbn. rewrite !(snap_concat_field csn_provenance) by done. cbn. rewrite bind_single. f_equiv. f_equiv.
  rewrite (bind_ext _ _ _ (section_provenance_rows (ncr_key e.2))), bind_cons_perm. f_equiv.
  by rewrite (enumerate_bind (λ sec,
    (λ o, occurrence_provenance sec o source (noe_source_ordinal o) (occurrence_key_text o)) <$> nsc_occurrences sec)).
Qed.

Definition variant_rest (v : NormalizedCourseVariant) : list StoredProvenance :=
  ((λ o, open_sections_provenance v source o (cos_source_ordinal o)) <$> ncr_catalog_open_sections_snapshots v)
  ++ ((λ e, section_provenance e.2 source e.1) <$> enumerate (ncr_sections v))
  ++ (ncr_sections v ≫= λ sec,
       (λ o, occurrence_provenance sec o source (noe_source_ordinal o) (occurrence_key_text o)) <$> nsc_occurrences sec).

Definition group_rest (g : NormalizedCourseGroup) : list StoredProvenance :=
  enumerate (ngr_variants g) ≫= λ e, csn_provenance (variant_delta source e).

Lemma group_provenance_rows e :
  csn_provenance (group_delta source e) = group_provenance e.2 source e.1 :: group_rest e.2.
Proof using All. unfold group_delta. cbn. by rewrite (snap_concat_field csn_provenance). Qed.

Lemma variants_rest : variants ≫= variant_rest ≡ₚ open_provs ++ section_provs ++ occurrence_provs.
Proof using All.
  unfold variant_rest. rewrite bind_app_perm, bind_app_perm. do 2 (apply Permutation_app; [done|]).
  unfold occurrence_provs, section_occurrences, NormalizedCatalogTarget_sections. rewrite fmap_bind, (bind_bind ncr_sections).
  apply bind_perm_ext. intros v _. apply bind_perm_ext. intros sec _. by rewrite <-list_fmap_compose.
Qed.

Lemma groups_rest : nct_groups t ≫= group_rest ≡ₚ variant_provs ++ open_provs ++ section_provs ++ occurrence_provs.
Proof using All.
  rewrite <-variants_rest, bind_bind. unfold variant_provs. rewrite <-bind_app_perm. apply bind_perm_ext. intros g _.
  unfold group_rest. etrans; [exact (bind_perm_ext _ _ _ (λ e _, variant_provenance_rows e))|].
  rewrite bind_cons_perm. f_equiv. by rewrite (enumerate_bind variant_rest).
Qed.

Lemma mapped_provenance :
  csn_provenance (mapped_snapshot source t) ≡ₚ
  group_provs ++ variant_provs ++ open_provs ++ section_provs ++ occurrence_provs ++ audit_provs.
Proof using All.
  unfold mapped_snapshot. cbn. rewrite (snap_concat_field csn_provenance) by done.
  rewrite (bind_ext _ _ _ group_provenance_rows), bind_cons_perm, enumerate_bind, groups_rest. by rewrite <-!app_assoc.
Qed.

Definition prov_key (p : StoredProvenance) : ProvenanceEntityKind * string * string * Z :=
  (stp_entity_kind p, stp_entity_key p, stp_field_name p, stp_source_ordinal p).
Definition prov_tag (k : ProvenanceEntityKind * string * string * Z) : ProvenanceEntityKind * string := (k.1.1.1, k.1.2).

Lemma prov_tags :
  (∀ p, p ∈ group_provs → prov_tag (prov_key p) = (ProvenanceEntityKind_CourseGroup, "canonicalFacts"))
  ∧ (∀ p, p ∈ variant_provs → prov_tag (prov_key p) = (ProvenanceEntityKind_CourseVariant, "canonicalFacts"))
  ∧ (∀ p, p ∈ open_provs → prov_tag (prov_key p) = (ProvenanceEntityKind_CourseVariant, "catalogOpenSectionsSnapshot"))
  ∧ (∀ p, p ∈ section_provs → prov_tag (prov_key p) = (ProvenanceEntityKind_Section, "canonicalFacts"))
  ∧ (∀ p, p ∈ occurrence_provs → prov_tag (prov_key p) = (ProvenanceEntityKind_Occurrence, "canonicalFacts"))
  ∧ (∀ p, p ∈ audit_provs → prov_tag (prov_key p) = (ProvenanceEntityKind_Section, "duplicateAudit")).
Proof using All.
  split_and!; intros p Hp.
  - by apply list_elem_of_fmap in Hp as (e & -> & _).
  - by apply list_elem_of_bind in Hp as (g & (e & -> & _)%list_elem_of_fmap & _).
  - by apply list_elem_of_bind in Hp as (v & (o & -> & _)%list_elem_of_fmap & _).
  - by apply list_elem_of_bind in Hp as (v & (e & -> & _)%list_elem_of_fmap & _).
  - by apply list_elem_of_fmap in Hp as (x & -> & _).
  - by apply list_elem_of_fmap in Hp as (a & -> & _).
Qed.

(** The texts of the identities of one target determine the identities. *)
Lemma display_inj k k' : sk_target k = sk_target k' → SectionKey_display k = SectionKey_display k' → k = k'.
Proof using All.
  destruct k as [[a] [b] [c]], k' as [[a'] [b'] [c']]. cbn. intros [= -> ->] Heq. unfold SectionKey_display in Heq. cbn in Heq.
  repeat apply (inj (String.append _)) in Heq. by subst.
Qed.

Lemma group_entity_inj g g' : g ∈ nct_groups t → g' ∈ nct_groups t →
  group_entity_key (ngr_key g) = group_entity_key (ngr_key g') → ngr_key g = ngr_key g'.
Proof using All.
  intros Hg Hg' Heq. pose proof (gw_target _ _ _ (target_group _ _ _ Hwf g Hg)) as Ht.
  pose proof (gw_target _ _ _ (target_group _ _ _ Hwf g' Hg')) as Ht'. rewrite <-Ht in Ht'.
  destruct (ngr_key g) as [[a] [b] [c]], (ngr_key g') as [[a'] [b'] [c']]. cbn in Ht'. injection Ht' as -> ->.
  unfold group_entity_key in Heq. cbn in Heq. repeat apply (inj (String.append _)) in Heq. by subst.
Qed.

Lemma variant_entity_inj v v' : v ∈ variants → v' ∈ variants →
  variant_entity_key (ncr_key v) = variant_entity_key (ncr_key v') → ncr_key v = ncr_key v'.
Proof using All.
  intros (g & Hv & Hg)%list_elem_of_bind (g' & Hv' & Hg')%list_elem_of_bind Heq.
  destruct (target_group_variant _ _ _ Hwf g v Hg Hv) as [Hk _], (target_group_variant _ _ _ Hwf g' v' Hg' Hv') as [Hk' _].
  destruct (target_group _ _ _ Hwf g Hg) as [Ht Hc _ _], (target_group _ _ _ Hwf g' Hg') as [Ht' Hc' _ _].
  rewrite <-Hk in Ht, Hc. rewrite <-Hk' in Ht', Hc'. rewrite <-Ht in Ht'.
  destruct (ncr_key v) as [[[a] [b] [c]] [f]], (ncr_key v') as [[[a'] [b'] [c']] [f']]. cbn in Ht', Hc, Hc'. injection Ht' as -> ->.
  unfold variant_entity_key, group_entity_key in Heq. cbn in Heq. rewrite <-!string_app_assoc in Heq.
  do 4 apply (inj (String.append _)) in Heq. apply course_ident in Hc as (_ & _ & Hc), Hc' as (_ & _ & Hc').
  apply (string_cut slash) in Heq as [-> ->]; done.
Qed.

Lemma section_entity_inj sec sec' :
  sec ∈ NormalizedCatalogTarget_sections t → sec' ∈ NormalizedCatalogTarget_sections t →
  SectionKey_display (nsc_key sec) = SectionKey_display (nsc_key sec') → nsc_key sec = nsc_key sec'.
Proof using All.
  intros Hs Hs'. apply display_inj. destruct (section_of_target sec Hs) as [-> _]. by destruct (section_of_target sec' Hs') as [-> _].
Qed.

Lemma entities_distinct (rows : list StoredProvenance) : NoDup (stp_entity_key <$> rows) → NoDup (prov_key <$> rows).
Proof using All. intros Hnd. eapply NoDup_fmap_via; [exact Hnd|]. intros x y _ _. unfold prov_key. congruence. Qed.

Lemma group_provs_distinct : NoDup (prov_key <$> group_provs).
Proof using All.
  apply entities_distinct. unfold group_provs. rewrite <-list_fmap_compose.
  change (NoDup ((λ e, group_entity_key (ngr_key e.2)) <$> enumerate (nct_groups t))).
  rewrite (enumerate_fmap (λ g, group_entity_key (ngr_key g))).
  eapply NoDup_fmap_via; [exact (target_group_keys _ _ _ Hwf)|]. intros g g'. apply group_entity_inj.
Qed.

Lemma variant_entities_distinct : NoDup ((λ v, variant_entity_key (ncr_key v)) <$> variants).
Proof using All.
  eapply NoDup_fmap_via; [exact (target_variant_keys _ _ _ Hwf)|]. intros v v'. apply variant_entity_inj.
Qed.

Lemma variant_provs_distinct : NoDup (prov_key <$> variant_provs).
Proof using All.
  apply entities_distinct. unfold variant_provs. rewrite fmap_bind.
  rewrite (bind_ext _ (λ g, (λ v, variant_entity_key (ncr_key v)) <$> ngr_variants g)).
  - rewrite <-fmap_bind. exact variant_entities_distinct.
  - intros g. rewrite <-list_fmap_compose. exact (enumerate_fmap (λ v, variant_entity_key (ncr_key v)) _).
Qed.

Lemma section_provs_distinct : NoDup (prov_key <$> section_provs).
Proof using All.
  apply entities_distinct. unfold section_provs. rewrite fmap_bind.
  rewrite (bind_ext _ (λ v, (λ sec, SectionKey_display (nsc_key sec)) <$> ncr_sections v)).
  - rewrite <-fmap_bind. eapply NoDup_fmap_via; [exact section_keys_distinct|]. intros sec sec'. apply section_entity_inj.
  - intros v. rewrite <-list_fmap_compose. exact (enumerate_fmap (λ sec, SectionKey_display (nsc_key sec)) _).
Qed.

Lemma open_provs_distinct : NoDup (prov_key <$> open_provs).
Proof using All.
  apply (NoDup_bind_keys (λ v, variant_entity_key (ncr_key v)) _ (λ k, k.1.1.2)); [exact variant_entities_distinct| |].
  - intros v Hv. rewrite <-list_fmap_compose. pose proof (vw_ordinals _ _ _ (target_variant _ _ _ Hwf v Hv)) as Hs.
    eapply (NoDup_fmap_via _ cos_source_ordinal); [|intros x y _ _; cbn; unfold prov_key; cbn; congruence].
    induction Hs as [|o l _ IH Ho]; constructor; [|done]. intros Hin. rewrite Forall_forall in Ho. apply Ho in Hin. lia.
  - by intros v p _ (o & -> & _)%list_elem_of_fmap.
Qed.

Lemma occurrence_provs_distinct : NoDup (prov_key <$> occurrence_provs).
Proof using All.
  unfold occurrence_provs. rewrite <-list_fmap_compose. eapply NoDup_fmap_via; [exact section_occurrences_distinct|].
  intros [sec o] [sec' o'] [Hs Ho]%elem_of_section_occurrences [Hs' Ho']%elem_of_section_occurrences.
  cbn. unfold prov_key. cbn. intros [= Heq Hord]. rewrite Hord. f_equal. apply section_entity_inj; [done..|].
  destruct (section_of_target sec Hs) as (Hk & Hw & _), (section_of_target sec' Hs') as (Hk' & Hw' & _).
  rewrite <-Hk in Hk'. destruct (nsc_key sec) as [[a] [b] [c]], (nsc_key sec') as [[a'] [b'] [c']]. cbn in Hk'.
  injection Hk' as -> ->. unfold SectionKey_display in *. cbn in *. rewrite <-!string_app_assoc in Heq.
  do 4 apply (inj (String.append _)) in Heq. destruct Hw as (_ & _ & Hw), Hw' as (_ & _ & Hw').
  apply (string_cut slash) in Heq as [-> _]; [done|by apply section_index_no_slash..].
Qed.

Lemma audit_provs_distinct : NoDup (prov_key <$> audit_provs).
Proof using All.
  apply entities_distinct. unfold audit_provs. rewrite <-list_fmap_compose.
  eapply (NoDup_fmap_via _ dau_section_key); [apply strict_by_NoDup; by destruct Hwf|].
  pose proof (tw_audit_keys _ _ _ Hwf) as Hkeys. rewrite Forall_forall in Hkeys.
  intros a a' (sec & Ha & Hs)%Hkeys%list_elem_of_fmap (sec' & Ha' & Hs')%Hkeys%list_elem_of_fmap.
  cbn. rewrite Ha, Ha'. by apply section_entity_inj.
Qed.

Lemma provenance_keys_distinct : NoDup (prov_key <$> csn_provenance (mapped_snapshot source t)).
Proof using All.
  rewrite mapped_provenance. destruct prov_tags as (Tg & Tv & To & Ts & Tc & Ta).
  apply (NoDup_tagged _ prov_tag); [exact group_provs_distinct| |
    intros x y Hx Hy; rewrite (Tg x Hx); rewrite !elem_of_app in Hy;
      destruct Hy as [Hy|[Hy|[Hy|[Hy|Hy]]]]; rewrite ?(Tv y Hy), ?(To y Hy), ?(Ts y Hy), ?(Tc y Hy), ?(Ta y Hy); done].
  apply (NoDup_tagged _ prov_tag); [exact variant_provs_distinct| |
    intros x y Hx Hy; rewrite (Tv x Hx); rewrite !elem_of_app in Hy;
      destruct Hy as [Hy|[Hy|[Hy|Hy]]]; rewrite ?(To y Hy), ?(Ts y Hy), ?(Tc y Hy), ?(Ta y Hy); done].
  apply (NoDup_tagged _ prov_tag); [exact open_provs_distinct| |
    intros x y Hx Hy; rewrite (To x Hx); rewrite !elem_of_app in Hy;
      destruct Hy as [Hy|[Hy|Hy]]; rewrite ?(Ts y Hy), ?(Tc y Hy), ?(Ta y Hy); done].
  apply (NoDup_tagged _ prov_tag); [exact section_provs_distinct| |
    intros x y Hx Hy; rewrite (Ts x Hx); rewrite !elem_of_app in Hy;
      destruct Hy as [Hy|Hy]; rewrite ?(Tc y Hy), ?(Ta y Hy); done].
  apply (NoDup_tagged _ prov_tag); [exact occurrence_provs_distinct|exact audit_provs_distinct|].
  intros x y Hx Hy. by rewrite (Tc x Hx), (Ta y Hy).
Qed.

(** *** The provenance rows pass *)

Definition entity_ok (entity : string) : Prop := ident entity ∧ entity ≠ "" ∧ (String.length entity ≤ 512)%nat.

Lemma provenance_row_Ok kind entity field ordinal detail :
  entity_ok entity → field ∈ ["canonicalFacts"; "catalogOpenSectionsSnapshot"; "duplicateAudit"] →
  check_provenance_row (provenance kind entity field source ordinal detail) = Ok ().
Proof using All.
  intros (Hi & Hne & Hl) Hf. unfold check_provenance_row. apply ok_then; [by apply identifier_Ok|].
  apply ok_then; [|by apply sha_valid]. rewrite !elem_of_cons, elem_of_nil in Hf. by destruct Hf as [->|[->|[->|]]].
Qed.

Lemma group_entity_ok g : g ∈ nct_groups t → ident (group_entity_key (ngr_key g)) ∧ (String.length (group_entity_key (ngr_key g)) ≤ 114)%nat
  ∧ group_entity_key (ngr_key g) ≠ "".
Proof using All.
  intros Hg. destruct (target_group _ _ _ Hwf g Hg) as [Ht Hc _ _]. apply course_ident in Hc as (Hc & Hcl & _).
  destruct Htarget as [[Htm Htl]%term_ident [Hcm Hcml]%campus_ident]. rewrite <-Ht in *. cbn in *.
  unfold group_entity_key. rewrite !ident_app, !string_length_app. split_and!; try done; [cbn [String.length]; lia|].
  intros Heq. apply (f_equal String.length) in Heq. rewrite !string_length_app in Heq. cbn in Heq. lia.
Qed.

Lemma variant_entity_ok v : v ∈ variants → entity_ok (variant_entity_key (ncr_key v)).
Proof using All.
  intros Hv. pose proof Hv as (g & Hvg & Hg)%list_elem_of_bind.
  destruct (target_group_variant _ _ _ Hwf g v Hg Hvg) as [Hk Hvw].
  destruct (group_entity_ok g Hg) as (Hi & Hl & _). apply vw_fingerprint, fingerprint_ident in Hvw as [Hf Hfl].
  unfold variant_entity_key, entity_ok. rewrite !ident_app, !string_length_app, Hk. split_and!; try done; [|cbn [String.length]; lia].
  intros Heq. apply (f_equal String.length) in Heq. rewrite !string_length_app in Heq. cbn in Heq. lia.
Qed.

Lemma section_entity_ok sec : sec ∈ NormalizedCatalogTarget_sections t →
  ident (SectionKey_display (nsc_key sec)) ∧ (String.length (SectionKey_display (nsc_key sec)) ≤ 55)%nat
  ∧ SectionKey_display (nsc_key sec) ≠ "".
Proof using All.
  intros (_ & (Ht & Hc & Hi) & _)%section_of_target.
  apply term_ident in Ht as [Ht Htl]. apply campus_ident in Hc as [Hc Hcl]. apply index_ident in Hi as [Hi Hil].
  unfold SectionKey_display. rewrite !ident_app, !string_length_app, Hil. split_and!; try done; [cbn [String.length]; lia|].
  intros Heq. apply (f_equal String.length) in Heq. rewrite !string_length_app in Heq. cbn in Heq. lia.
Qed.

Lemma provenance_rows_Ok : Forall (λ row, check_provenance_row row = Ok ()) (csn_provenance (mapped_snapshot source t)).
Proof using All.
  rewrite mapped_provenance. rewrite !Forall_app. split_and!; apply Forall_forall; intros p Hp.
  - apply list_elem_of_fmap in Hp as ([i g] & -> & Hg). apply provenance_row_Ok; [|by left].
    assert (g ∈ nct_groups t) as Hin by (rewrite <-(enumerate_snd (nct_groups t)); apply list_elem_of_fmap; by exists (i, g)).
    destruct (group_entity_ok g Hin) as (?&?&?). split_and!; [done..|cbn [snd]; lia].
  - apply list_elem_of_bind in Hp as (g & ([i v] & -> & Hv)%list_elem_of_fmap & Hg). apply provenance_row_Ok; [|by left].
    apply variant_entity_ok, list_elem_of_bind. exists g. split; [|done]. cbn.
    rewrite <-(enumerate_snd (ngr_variants g)). apply list_elem_of_fmap. by exists (i, v).
  - apply list_elem_of_bind in Hp as (v & (o & -> & Ho)%list_elem_of_fmap & Hv). apply provenance_row_Ok; [|by right; left].
    by apply variant_entity_ok.
  - apply list_elem_of_bind in Hp as (v & ([i sec] & -> & Hs)%list_elem_of_fmap & Hv). apply provenance_row_Ok; [|by left].
    assert (sec ∈ NormalizedCatalogTarget_sections t) as Hin.
    { apply list_elem_of_bind. exists v. split; [|done]. rewrite <-(enumerate_snd (ncr_sections v)). apply list_elem_of_fmap. by exists (i, sec). }
    destruct (section_entity_ok sec Hin) as (?&?&?). split_and!; [done..|cbn [snd]; lia].
  - apply list_elem_of_fmap in Hp as ([sec o] & -> & [Hs Ho]%elem_of_section_occurrences).
    apply provenance_row_Ok; [|by left]. destruct (section_entity_ok sec Hs) as (Hi & Hl & Hne). cbn [fst snd].
    destruct (occurrence_key_ident o (occurrence_fits _ _ Hs Ho) (occurrence_hash_valid _ _ Hs Ho)) as [Hk Hkl].
    unfold entity_ok. rewrite !ident_app, !string_length_app, Hkl. split_and!; try done; [|cbn [String.length]; lia].
    intros Heq. apply (f_equal String.length) in Heq. rewrite !string_length_app in Heq. cbn in Heq. lia.
  - apply list_elem_of_fmap in Hp as (a & -> & Ha). apply provenance_row_Ok; [|by do 2 right; left].
    pose proof (tw_audit_keys _ _ _ Hwf) as Hkeys. rewrite Forall_forall in Hkeys.
    apply Hkeys, list_elem_of_fmap in Ha as (sec & -> & Hs). destruct (section_entity_ok sec Hs) as (?&?&?). split_and!; [done..|lia].
Qed.

(** *** The whole snapshot passes *)

Lemma section_row_keys : NoDup (sts_key <$> csn_sections (mapped_snapshot source t)).
Proof using All.
  rewrite mapped_sections, fmap_bind. rewrite (bind_ext _ (λ v, nsc_key <$> ncr_sections v)).
  - rewrite <-fmap_bind. exact section_keys_distinct.
  - intros v. by rewrite <-list_fmap_compose.
Qed.

Lemma variant_rows_distinct :
  NoDup (scv_key <$> sort_by (compare_keys scv_key) (csn_course_variants (mapped_snapshot source t))).
Proof using All.
  rewrite sort_by_perm, mapped_variants, <-list_fmap_compose. exact (target_variant_keys _ _ _ Hwf).
Qed.

(** The rows after the variants are accepted. *)
Lemma section_and_provenance_rows (variant_keys : gset CourseVariantKey) (snapshot : CatalogSnapshot) :
  (∀ v, v ∈ variants → ncr_key v ∈ variant_keys) →
  (section_keys ← collect_keys sts_key (check_section_row target variant_keys) (duplicate_error "sections") ∅
                    (sort_by (compare_keys sts_key) (csn_sections (mapped_snapshot source t)));
   _ ← collect_keys (λ o, (sto_section_key o, sto_occurrence_key o)) (check_occurrence_row target section_keys)
         (duplicate_error "occurrences") ∅
         (sort_by (compare_keys (λ o, (sto_section_key o, sto_occurrence_key o))) (csn_occurrences (mapped_snapshot source t)));
   _ ← collect_keys (λ p, (stp_entity_kind p, stp_entity_key p, stp_field_name p, stp_source_ordinal p))
         check_provenance_row (duplicate_error "provenance") ∅
         (sort_by (compare_keys (λ p, (stp_entity_kind p, stp_entity_key p, stp_field_name p, stp_source_ordinal p)))
            (csn_provenance (mapped_snapshot source t)));
   Ok snapshot) = Ok snapshot.
Proof using All.
  intros Hvariants.
  destruct (collect_sorted sts_key (check_section_row target variant_keys) (duplicate_error "sections") (compare_keys sts_key)
    (csn_sections (mapped_snapshot source t))) as (section_keys & -> & Hsections);
    [rewrite mapped_sections; by apply section_rows_Ok|exact section_row_keys|].
  cbn [mbind result_bind].
  destruct (collect_sorted (λ o, (sto_section_key o, sto_occurrence_key o)) (check_occurrence_row target section_keys)
    (duplicate_error "occurrences") (compare_keys (λ o, (sto_section_key o, sto_occurrence_key o)))
    (csn_occurrences (mapped_snapshot source t))) as (occurrence_keys & -> & _);
    [apply occurrence_rows_Ok; intros sec (v & Hs & Hv)%list_elem_of_bind; apply (Hsections (stored_section (ncr_key v) sec));
      rewrite mapped_sections; apply list_elem_of_bind; exists v; split; [by apply (list_elem_of_fmap_2 (stored_section (ncr_key v)))|done]
    |exact occurrence_keys_distinct|].
  cbn [mbind result_bind].
  destruct (collect_sorted prov_key check_provenance_row (duplicate_error "provenance") (compare_keys prov_key)
    (csn_provenance (mapped_snapshot source t)) provenance_rows_Ok provenance_keys_distinct) as (provenance_keys & Hp & _).
  unfold prov_key in Hp. by rewrite Hp.
Qed.

(** The mapped snapshot is refused exactly for a text that does not fit. *)
Lemma mapped_snapshot_cases :
  match canonicalize_and_validate_snapshot target (mapped_snapshot source t) with
  | Ok snapshot => snapshot = sort_snapshot (mapped_snapshot source t) ∧ ∀ v field, v ∈ variants → ¬ text_overflow v field
  | Err e => ∃ v field, v ∈ variants ∧ text_overflow v field ∧ e = text_refusal field
  end.
Proof using All.
  unfold canonicalize_and_validate_snapshot.
  cbn [sort_snapshot csn_course_groups csn_course_variants csn_sections csn_occurrences csn_provenance].
  destruct (collect_sorted scg_key (check_group_row target) (duplicate_error "course_groups") (compare_keys scg_key)
    (csn_course_groups (mapped_snapshot source t))) as (group_keys & -> & Hgroups);
    [rewrite mapped_groups; exact group_rows_Ok|rewrite mapped_groups, <-list_fmap_compose; exact (target_group_keys _ _ _ Hwf)|].
  cbn [mbind result_bind]. set (stored := λ v, stored_variant v (ncr_raw_course_count v)).
  assert (∀ v, v ∈ variants → stored v ∈ sort_by (compare_keys scv_key) (csn_course_variants (mapped_snapshot source t))) as Hin
    by (intros v Hv; rewrite elem_of_sort_by, mapped_variants; by apply (list_elem_of_fmap_2 stored)).
  assert (∀ g, g ∈ nct_groups t → ngr_key g ∈ group_keys) as Hg.
  { intros g Hg. apply (Hgroups (stored_group g)). rewrite mapped_groups. by apply list_elem_of_fmap_2. }
  pose proof (collect_keys_cases scv_key (check_variant_row target group_keys) (duplicate_error "course_variants")
    (sort_by (compare_keys scv_key) (csn_course_variants (mapped_snapshot source t))) ∅) as Hvariants.
  destruct (collect_keys scv_key _ _ _ _) as [variant_keys|e]; cbn [mbind result_bind].
  - destruct Hvariants as [-> Hall]; [|set_solver|]; [exact variant_rows_distinct|].
    rewrite section_and_provenance_rows by (intros v Hv; apply elem_of_union_l, elem_of_list_to_set;
      apply (list_elem_of_fmap_2 scv_key _ (stored v)), Hin, Hv).
    split; [done|]. intros v field Hv. pose proof (variant_row_cases group_keys v Hg Hv) as Hc.
    fold (stored v) in Hc. rewrite (Hall _ (Hin v Hv)) in Hc. apply Hc.
  - destruct Hvariants as (row & Hrow & He); [exact variant_rows_distinct|set_solver|].
    rewrite elem_of_sort_by, mapped_variants in Hrow. apply list_elem_of_fmap in Hrow as (v & -> & Hv).
    pose proof (variant_row_cases group_keys v Hg Hv) as Hc. rewrite He in Hc. destruct Hc as (field & ? & ->). by exists v, field.
Qed.

End rows_accepted.

(** ** The properties *)

Section publication.
Context `{Sha256ApiLaws, JsonText, !NumberApiLaws, !JsonParser, !JsonSlice, !Rfc3339Api}.
Implicit Types (target : TermCampusKey) (courses : list RawCatalogCourse) (t : NormalizedCatalogTarget).

Lemma decoded_target_wf body courses target provenance t :
  decode_catalog_payload body = Some courses → normalize_target target courses provenance = Ok t →
  target_wf target (length courses) t.
Proof.
  intros Hbody Ht. apply decode_courses_ok in Hbody.
  destruct (normalize_target_loop _ _ _ _ Hbody Ht) as (s & secs & -> & Hloop & _). by eapply finish_target_wf.
Qed.

Lemma mapped_content_hash target n t sha :
  target_wf target n t → catalog_content_sha256_v1 target (mapped_snapshot sha t) = sha_str (nct_content_hash t).
Proof.
  intros Hwf. unfold catalog_content_sha256_v1. rewrite (target_content_rows _ _ _ Hwf).
  by rewrite (tw_content _ _ _ Hwf), content_hash_rows.
Qed.

(** C17. The two computations of the content hash agree: the hash the storage
    recomputes from the rows of the mapped snapshot, from variants and sections
    found again under their parents, is the hash the normalization computed
    from the nested groups. *)
Theorem catalog_content_hash_agrees (body : string) courses target provenance t snapshot :
  decode_catalog_payload body = Some courses → normalize_target target courses provenance = Ok t →
  to_operational_snapshot t = Ok snapshot →
  catalog_content_sha256_v1 target snapshot = sha_str (nct_content_hash t).
Proof.
  intros Hbody Ht (sha & _ & _ & ->)%to_operational_snapshot_Ok.
  exact (mapped_content_hash _ _ _ _ (decoded_target_wf _ _ _ _ _ Hbody Ht)).
Qed.

Lemma sorted_content_hash target n t sha :
  target_wf target n t →
  catalog_content_sha256_v1 target (sort_snapshot (mapped_snapshot sha t)) = sha_str (nct_content_hash t).
Proof.
  intros Hwf. rewrite <-(mapped_content_hash _ _ _ sha Hwf). unfold catalog_content_sha256_v1. do 3 f_equal.
  apply catalog_content_perm; cbn [sort_snapshot csn_course_groups csn_course_variants csn_sections].
  - apply (sort_by_perm (compare_keys scg_key)).
  - rewrite mapped_groups, <-list_fmap_compose. exact (target_group_keys _ _ _ Hwf).
  - apply (sort_by_perm (compare_keys scv_key)).
  - rewrite mapped_variants, <-list_fmap_compose. exact (target_variant_keys _ _ _ Hwf).
  - apply (sort_by_perm (compare_keys sts_key)).
  - rewrite mapped_sections, fmap_bind, (bind_ext _ (λ v, nsc_key <$> ncr_sections v)) by (intros v; by rewrite <-list_fmap_compose).
    rewrite <-fmap_bind. by destruct Hwf.
Qed.

(** The two times of a refresh are times, in their order. *)
Definition times_ordered (started completed : string) : Prop :=
  ∃ started_at completed_at, parse_rfc3339 started = Some started_at ∧ parse_rfc3339 completed = Some completed_at
    ∧ started_at ≤ completed_at.

Lemma times_cases started completed :
  match (_ ← validate_timestamp "started_at" started;
         _ ← validate_timestamp "completed_at" completed;
         validate_timestamp_order started completed) with
  | Ok _ => times_ordered started completed
  | Err e => ¬ times_ordered started completed
      ∧ ∃ field reason, field ∈ ["started_at"; "completed_at"] ∧ e = StorageError_InvalidCommand field reason
  end.
Proof.
  unfold validate_timestamp_order, validate_timestamp, times_ordered.
  destruct (parse_rfc3339 started) as [x|] eqn:Hx; cbn [ok_or mbind result_bind];
    [|split; [by intros (? & ? & ? & _)|exists "started_at"; eexists; split; [in_table|reflexivity]]].
  destruct (parse_rfc3339 completed) as [y|] eqn:Hy; cbn [ok_or mbind result_bind];
    [|split; [by intros (? & ? & _ & ? & _)|exists "completed_at"; eexists; split; [in_table|reflexivity]]].
  case_bool_decide as Hlt; [split; [|exists "completed_at"; eexists; split; [in_table|reflexivity]]|exists x, y; split_and!; [done..|lia]].
  intros (? & ? & [= <-] & [= <-] & ?). lia.
Qed.

(** C16. What the catalog pipeline publishes, the storage accepts, up to what
    the pipeline does not check: the storage refuses the command made from a
    normalized payload exactly when its two times are not times in their order,
    when the size of the payload exceeds a signed integer, or when a text of
    some variant (course number, title, description or search document) is
    longer than its column or holds a NUL, and then with the error that says so.
    No digest, identifier, wire value, parent or repeated key is ever refused,
    and the snapshot staged is the one mapped, sorted. *)
Theorem catalog_publication_accepted (body : string) courses target provenance t observation_id started completed command :
  decode_catalog_payload body = Some courses → normalize_target target courses provenance = Ok t →
  TermCampusKey_wf target →
  to_catalog_refresh_command t observation_id started completed = Ok command →
  match prepare_catalog_refresh command with
  | Ok prepared =>
      prepared = {| pcr_command := with_snapshot command (sort_snapshot (crf_snapshot command));
                    pcr_semantic_sha256 := sha_str (nct_content_hash t) |}
      ∧ times_ordered started completed ∧ spr_decoded_bytes provenance ≤ i64_max
      ∧ ∀ v field, v ∈ nct_groups t ≫= ngr_variants → ¬ text_overflow v field
  | Err e =>
      (¬ times_ordered started completed
         ∧ ∃ field reason, field ∈ ["started_at"; "completed_at"] ∧ e = StorageError_InvalidCommand field reason)
      ∨ (times_ordered started completed ∧ i64_max < spr_decoded_bytes provenance ∧ e = StorageError_StoredIntegerOutOfRange)
      ∨ (times_ordered started completed ∧ spr_decoded_bytes provenance ≤ i64_max
         ∧ ∃ v field, v ∈ nct_groups t ≫= ngr_variants ∧ text_overflow v field ∧ e = text_refusal field)
  end.
Proof.
  intros Hbody Ht Htarget Hc. pose proof (decoded_target_wf _ _ _ _ _ Hbody Ht) as Hwf.
  assert (nct_provenance t = provenance) as Hprov by (apply result_bind_Ok in Ht as (? & _ & [= <-]); done).
  apply result_bind_Ok in Hc as (size & Hsize & (snapshot & Hsnap & [= <-])%result_bind_Ok).
  apply ok_or_Ok in Hsize. unfold u64_try_from in Hsize. case_bool_decide as Hu; [|done]. injection Hsize as <-.
  apply to_operational_snapshot_Ok in Hsnap as (sha & Hsha & Hfits & ->).
  unfold Sha256Hex_try_new in Hsha. destruct (is_sha256_hex _) eqn:Hhex; [|done]. injection Hsha as <-.
  unfold prepare_catalog_refresh.
  cbn [crf_started_at crf_completed_at crf_source_content_sha256 crf_semantic_content_sha256 crf_source_bytes crf_target crf_snapshot].
  pose proof (times_cases started completed) as Htimes.
  destruct (validate_timestamp "started_at" started); cbn [mbind result_bind] in *; [|by left].
  destruct (validate_timestamp "completed_at" completed); cbn [mbind result_bind] in *; [|by left].
  destruct (validate_timestamp_order started completed); cbn [mbind result_bind] in *; [|by left].
  rewrite (sha_valid "source_content_sha256") by exact Hhex. cbn [mbind result_bind].
  rewrite (tw_content _ _ _ Hwf), content_hash_rows, sha_hex_valid, <-content_hash_rows, <-(tw_content _ _ _ Hwf).
  cbn [mbind result_bind]. rewrite Hprov in *. unfold u64_to_i64.
  case_bool_decide as Hbytes; cbn [mbind result_bind]; [|right; left; split_and!; [done|lia|done]].
  rewrite (tw_target _ _ _ Hwf). pose proof (mapped_snapshot_cases target (length courses) t
    (mkSha256Hex (spr_body_sha256 provenance)) Hwf Htarget Hfits Hhex) as Hcases.
  cbn [validate_raw_payload crf_raw_payload mbind result_bind].
  destruct (canonicalize_and_validate_snapshot _ _) as [snapshot|e]; cbn [mbind result_bind].
  - destruct Hcases as [-> Htexts]. rewrite (sorted_content_hash _ _ _ _ Hwf), bool_decide_eq_true_2 by done. by split_and!.
  - right. right. by split_and!.
Qed.

End publication.

(** ** Witnesses *)

#[local] Existing Instance concrete_sha256_api.
#[local] Existing Instance concrete_number_api.
#[local] Existing Instance concrete_json_text.
#[local] Existing Instance ce_parser.
#[local] Existing Instance ce_slice.

(** A clock that reads texts by their length. *)
Definition ce_rfc3339 : Rfc3339Api :=
  {| parse_rfc3339 s := Some (Z.of_nat (String.length s)); format_rfc3339 _ := None |}.
#[local] Existing Instance ce_rfc3339.

Lemma catalog_content_hash_agrees_witness :
  ∃ t snapshot, normalize_target ce_target ce_courses ce_provenance = Ok t ∧ to_operational_snapshot t = Ok snapshot
    ∧ catalog_content_sha256_v1 ce_target snapshot = sha_str (nct_content_hash t).
Proof.
  destruct (ok_and_true (λ t, ok_and (λ _, true) (to_operational_snapshot t))
    (normalize_target ce_target ce_courses ce_provenance)) as (t & Ht & Hs); [vm_compute; reflexivity|].
  apply ok_and_true in Hs as (snapshot & Hs & _). exists t, snapshot. split_and!; [exact Ht|exact Hs|].
  exact (@catalog_content_hash_agrees concrete_sha256_api concrete_sha256_api_laws concrete_number_api concrete_json_text
    concrete_number_api_laws ce_parser ce_slice "payload" ce_courses ce_target ce_provenance t snapshot ce_decoded Ht Hs).
Defined.

(** Whether the texts of a variant fit, as a test. *)
Definition texts_fit_check (v : NormalizedCourseVariant) : bool :=
  forallb (λ c : string * nat * option string, match c.2 with
    | Some text => bool_decide (String.length text ≤ c.1.2)%nat && negb (existsb (byte_is 0) (bytes text))
    | None => true
    end) (text_columns v).

Lemma texts_fit_checked v field : texts_fit_check v = true → ¬ text_overflow v field.
Proof.
  unfold texts_fit_check. rewrite forallb_forall. intros Hall (bound & text & Hin%list_elem_of_In & Hn). apply Hn.
  specialize (Hall _ Hin). cbn in Hall. apply andb_true_iff in Hall as [Hl%bool_decide_eq_true Hz%negb_true_iff]. by split.
Qed.

Lemma catalog_publication_accepted_witness :
  ∃ t command, normalize_target ce_target ce_courses ce_provenance = Ok t
    ∧ to_catalog_refresh_command t 7%N "start" "completed" = Ok command
    ∧ ∃ prepared, prepare_catalog_refresh command = Ok prepared
        ∧ pcr_command prepared = with_snapshot command (sort_snapshot (crf_snapshot command)).
Proof.
  destruct (ok_and_true (λ t, ok_and (λ _, true) (to_catalog_refresh_command t 7%N "start" "completed")
      && forallb texts_fit_check (nct_groups t ≫= ngr_variants))
    (normalize_target ce_target ce_courses ce_provenance)) as (t & Ht & [Hc Hfit]%andb_true_iff); [vm_compute; reflexivity|].
  apply ok_and_true in Hc as (command & Hc & _). exists t, command. split; [exact Ht|]. split; [exact Hc|].
  pose proof (@catalog_publication_accepted concrete_sha256_api concrete_sha256_api_laws concrete_number_api concrete_json_text
    concrete_number_api_laws ce_parser ce_slice ce_rfc3339 "payload" ce_courses ce_target ce_provenance t 7%N "start" "completed"
    command ce_decoded Ht (conj eq_refl eq_refl) Hc) as Hcases.
  assert (times_ordered "start" "completed") as Htimes by (exists 5, 9; split_and!; [reflexivity|reflexivity|lia]).
  assert (spr_decoded_bytes ce_provenance ≤ i64_max) as Hbytes by (vm_compute; discriminate).
  destruct (prepare_catalog_refresh command) as [prepared|e]; [exists prepared; split; [done|by destruct Hcases as [-> _]]|].
  exfalso. destruct Hcases as [[Hn _]|[(_ & Hn & _)|(_ & _ & v & field & Hv & Hover & _)]]; [by apply Hn|lia|].
  apply (texts_fit_checked v field); [|exact Hover]. rewrite forallb_forall in Hfit. by apply Hfit, list_elem_of_In.
Defined.
